(* ===== verification/_CoqProject ===== *)
-Q . S2P
Prelude.v
Alg.v
Bytes.v
FrcList.v
Cmd.v
CmdProps.v
CmdSys.v
CmdThm.v
CmdTable.v
Api.v
VlanCheck.v
Ipc.v
IpcProps.v
IpcThm.v
IpcCmd.v
Timestamp.v
TimestampProps.v
MacStat.v
MacStatProps.v
Rfc.v
RfcBitmap.v
RfcCorrect.v
RfcPhases.v
Acl.v
AclClassify.v
AclStore.v
AclProps.v
Rule.v
CmdRule.v
CmdRuleProps.v
Filter.v
FilterProps.v
TwoTuple.v
Ring.v
Dma.v
Chan.v
ChanMem.v
ChanInv.v
ChanCard.v
ChanPost.v
ChanProps.v
ChanSys.v
ChanSetup.v
ChanThm.v
TcpFlow.v
TcpFlowProps.v
SsnBlock.v
SsnBlockProps.v
SsnChan.v
SsnChanProps.v
SsnDeliver.v
SsnHost.v
SsnChanThm.v
DrvChan.v
DrvChanProps.v
DrvChanThm.v
TcpFlowSegs.v
Ssn.v
SsnTuple.v
SsnInv.v
SsnStep.v
SsnOps.v
SsnAge.v
SsnSys.v
SsnSim.v
SsnEvents.v
SsnThm.v
Work.v
WorkThm.v
WorkIpc.v
IpPath.v
IpPathThm.v
IpTcp.v
IpUdp.v
WorkMac.v
Tool.v
Board.v
BoardThm.v
ToolProps.v
ToolRule.v
