(* ===== verification/Prelude.v ===== *)
(** * Barley: verification of the card-side software

    Barley is the software of a packet-inspection card.  The card's cores
    (src/code/frcore) take packets from the network ports, classify and
    count them and hand records to the host through rings in shared
    memory; a Linux driver (src/code/frcdrv) sets the rings up and passes on
    the commands that a tool (src/code/frctweak) sends through a library
    (src/code/frcapi).  This library models the card's logic, the commands and
    the driver's side of the channels and proves what they do.

    ** The parts and how they interact

    - A call of the library (frc_api.c; [Api], [CmdRule]) is an ioctl of the
      driver, which lists a request, sends the card a packet and waits for the
      answer with its number; the card looks the handler up in its tables and
      answers (frcdrv_cmd.c, frc_list.h, frcore_cmd.c; [Cmd], [FrcList]).
    - Commands change the state of the components; each handler checks its
      parameters, calls its component and answers a return code and an output
      buffer.  Handlers: [VlanCheck] ([frcore_cmd_vlan_check_*]), [Rule]
      ([frcore_cmd_rule_*]), [TwoTuple] ([frcore_cmd_acl_*]), [Ipc]
      ([frcore_cmd_ipc_*]).
    - The rule store (frcore_acl.c; [Acl]) keeps the rules sorted by tag.  An
      update compiles them with the classifier (frcore_rfc.c; [Rfc]) into
      tables; the packet path looks a packet up in the tables (the call
      chain [frcore_rule_process] -> [mpp_acl_lookup_by_tuple] ->
      [acl_lookup_by_tuple]), counts the hit under the tag and submits a record.
    - The two-tuple filters (frcore_filter.c; [Filter]) match one address or
      port plus the protocol through a hash table; the packet path of
      frcore_twotuple.c ([TwoTuple]) counts and submits likewise.
    - The VLAN check (frcore_vlan_check.c; [VlanCheck]) recomputes the VLAN id
      the load balancer must have chosen (frcore_alg.c; [Alg]) and counts
      agreement and errors.
    - The timestamp check (frcore_timestamp_check.c; [Timestamp]) and the statistics by
      MAC address (frcore_mac_statistics.c; [MacStat]) count packets; commands read, clear
      and configure them.
    - Inter-chassis packets (frcore_ipc.c; [Ipc]) are checked for order, for an
      expected header and for their VLAN id, and chosen ones are answered with an
      instruction packet.
    - The session table (frcore_ssn.c, frcore_tcp.c; [Ssn]) finds or creates
      the session of a TCP packet and runs flow recovery on it; timers age
      the sessions, and an expired one is flushed and purged.
    - TCP flow recovery (frcore_tcpflowrec.c; [TcpFlow]) orders the segments
      of both directions of a session and submits them; submitted segments
      are packed into blocks of host memory ([SsnBlock]), which the session
      channel (frcore_chan.c; [SsnChan]) carries to the host and a tool reads
      (frctweak_pr.c).
    - The driver (frcdrv_chan.c; [DrvChan]) allocates blocks and rings, fills the
      available rings and tells the card and the tool where they are.
    - Records travel to the host in blocks of host memory (frcore_chan.c;
      [Chan]): a core queues them in its FIFO, takes free blocks from the
      available ring, copies the records into them and puts the blocks on the
      completed ring, all by DMA (frcore_dma.c; [Dma]).
    - The loop of a core (frcore_main.c, frcore_pkt.c, frcore.c; [Work]) gets packets of
      the wire, packets and commands of the host and timers, hands each to its component
      and frees or sends it by the verdict.  A network command switches the reception of a
      port; a command of the tool runs its handler on the component of the build, and its
      entry is lost, for nobody frees it.  An IP packet runs through frcore_pkt.c,
      frcore_ip.c and frcore_udp.c ([IpPath]) to the components the build has switched on.
    - Commands about the board itself (frcore_bmm.c, frcore_phy.c, frcore_stat.c; [Board])
      read counters and registers and set the modes of the ports, on which the loop of a
      core depends.
    - The tool (frctweak.c, frctweak_arg_parser.c, frctweak_rule.c; [Tool], [ToolRule])
      reads the words of a command line, calls the library and prints the answers.
    - Block addresses travel on single-producer single-consumer rings
      (frc_dma.h; [Ring]), big-endian in memory, whichever side runs the code.

    ** The files

    - [Prelude]: machine integers, undefined behaviour, arrays, loops, the
      tactics and hints of the library.
    - [Bytes]: integers and structures as bytes of the card and of the host.
    - [FrcList]: frc_list.h, a list in a heap of nodes.  [Cmd]: frcore_cmd.c and
      frcdrv_cmd.c.  [CmdProps]: requests, headers and answers.  [CmdSys]: callers,
      driver, packets and card as a system of events, and its invariant.  [CmdThm]:
      the theorems on its runs.  [CmdTable]: a call to a handler in the card's
      table.  [Api]: frc_api.c.  [CmdRule], [CmdRuleProps]: the calls about rules,
      from the library to the rule store and back.
    - [Ipc]: frcore_ipc.c.  [IpcProps]: packets and the table of instruction
      packets.  [IpcThm]: its theorems.  [IpcCmd]: its settings from the library to
      the card and back.
    - [Timestamp], [TimestampProps]: frcore_timestamp_check.c and its theorems.
      [MacStat], [MacStatProps]: frcore_mac_statistics.c and its theorems.
    - [Alg]: frcore_alg.c, both builds of the address hash.  [VlanCheck]:
      frcore_vlan_check.c.
    - [Rfc]: frcore_rfc.c.  [RfcBitmap]: what bitmaps and class lists mean.
      [RfcCorrect]: each phase against the meaning of its bitmaps.  [RfcPhases]:
      the phases on a well-formed rule set.
    - [Acl]: frcore_acl.c.  [AclClassify]: the compiled tables against a
      linear scan.  [AclStore]: the store as a finite map from tags to
      filters.  [AclProps]: the refinements, the invariant of reachable states
      and the lookup from end to end.  [Rule]: frcore_rule.c.
    - [Filter]: frcore_filter.c.  [FilterProps]: its refinement to a list of
      configured filters, one operation after another and with packets and configuration
      interleaved.  [TwoTuple]: frcore_twotuple.c.
    - [Ring]: the rings of frc_dma.h, as sequential functions and as two
      processors interleaved at single memory accesses.
    - [TcpFlow]: frcore_tcpflowrec.c.  [TcpFlowProps]: its accounting and
      stream order.
    - [SsnBlock]: the packing of segments into blocks (the other half of
      frcore_tcpflowrec.c) and the host tool's walk through a block.
      [SsnBlockProps]: the cells of a block, the bytes they stand for, reading
      them back.  [SsnChan]: the session channel of frcore_chan.c, which implements
      the interface [SsnSink] of packing.  [SsnChanProps]: its invariant and its
      operations under failures.  [SsnDeliver]: what it delivers without failures.
      [SsnHost]: packing on the channel, up to the tool.  [SsnChanThm]: theorems.
    - [DrvChan]: frcdrv_chan.c, the pages of frcdrv_dma.c, loading and the driver's
      own commands (frcdrv_dev.c).  [DrvChanProps]: pools and rings after set-up.
      [DrvChanThm]: its theorems, from the driver to the tool.
    - [Ssn]: the session table, the packet path of TCP and the commands of
      frcore_fr.c on its parameters.  [TcpFlowSegs]: what flow recovery queues
      and submits.  [SsnTuple]: tuples and flows.  [SsnInv]: chains and the
      invariant; work on one session.  [SsnStep]: creation, lookup, purge.
      [SsnOps]: packets.  [SsnAge]: timers.  [SsnSys]: the table as a system of
      events, and its specification.  [SsnSim]: the specification's map and the
      accounts under changes of the table.  [SsnEvents]: every event against the
      specification.  [SsnThm]: the theorems on runs.
    - [Dma]: frcore_dma.c.  [Chan]: the simple-package channels of
      frcore_chan.c and the driver's side of their set-up (frcdrv_chan.c).
      [ChanMem]: reading and writing the host's memory.  [ChanInv]: the
      invariant of the two rings and what a running host may do.  [ChanCard]:
      the card's two ring operations.  [ChanPost]: posting packets into
      blocks.  [ChanProps]: the operations of a FIFO.  [ChanSys]: the system of
      cores, card and host.  [ChanSetup]: set-up.  [ChanThm]: the theorems
      on the channels.
    - [Work]: the dispatch of a core, with its components as the class [Handlers].
      [WorkThm]: what becomes of entries, from the laws of that class.  [WorkIpc]: the
      dispatch with the inter-chassis path, as the repository is configured.
      [WorkMac]: the build with address statistics, which sends packets back.
    - [IpPath]: the path of IP packets, for every setting of the switches, over the
      branches of the components as a record.  [IpPathThm]: its verdicts.  [IpTcp], [IpUdp]:
      the path with the session table and with the UDP channel, from the wire on.
    - [Board]: frcore_bmm.c, frcore_phy.c, frcore_stat.c and the tool's reading of their
      answers; the buses are the class [Bus].  [BoardThm]: counters; settings and status,
      with each core's own variables, and the dispatch under the modes that the words of the
      tool set (frctweak_bmm.c).
    - [Tool]: strings of C, then frctweak.c and frctweak_arg_parser.c (before [Board], whose
      commands read words).  [ToolProps]: what
      is printed is read back, sizes of buffers, arguments, commands.  [ToolRule]: the
      command of frctweak_rule.c, over any library and over the card, with its theorems.
    A function of the code has a definition of the same name; a loop body or
    a block that a proof needs on its own is a separate definition named
    after what it does.  Structures are records with the code's field names
    (prefixed where two structures share one).

    ** What the theorems show

    - Classification: [AclClassify.compile_correct] (tables = linear scan),
      [compile_total] (few enough rules always compile), and with the store
      [AclProps.acl_lookup_least] (a lookup gives the least matching tag) and
      [AclProps.rule_wildcard_match] (what a configured rule matches).
      [Rfc.AddListEqsCES_overflow]: with more rules an unchecked array can
      be written past its end.
    - Stores as abstract data: [AclProps.acl_setfilter_refines],
      [acl_delete_refines], [acl_set_get_roundtrip] (a finite map),
      [FilterProps.set_filter_refines], [del_filter_refines],
      [lookup_first], [set_get_roundtrip] (a list in order of configuration, for
      operations one after another).
    - Invariants of every reachable state: [AclProps.acl_reachable_ok],
      [VlanCheck.vlan_reachable_wf]; [FilterProps.filter_reachable_sim] over runs in which
      packets look filters up and count them between the two locks of a configuring call and
      the atomic accesses of others ([late_hit]: a packet counts a filter after its deletion).
    - Packets and commands: [Rule.rule_process_verdict],
      [TwoTuple.acl_process_verdict], [VlanCheck.vlan_check_verdict], the range
      commands, and the commands that overrun a buffer or misreport.
    - Rings: [Ring.spsc_fifo] and [spsc_safe] hold under every interleaving,
      [ring_refines_queue] for sequential use.
    - TCP flows: [TcpFlowProps.tcp_conservation] (no packet or queue entry is
      lost or used twice), [tcp_stream_order] (the bytes submitted are those
      of the stream, in order).
    - Channels: [ChanThm.chan_blocks_safe] (no block has two owners, whatever
      requests are refused; [late_transfer_reuses_block] shows that one which times out
      breaks it), [chan_exactly_once] (without failures every accepted packet
      reaches the host once, intact and in the order of its core),
      [chan_drains] (a timer empties a FIFO that nothing blocks),
      [ChanSetup.setup_starts] (driver and command establish the start);
      [failed_completion_duplicates], [failed_post_completes_block] and
      [fifo_add_overflow] show what the code does with failed transfers and with
      packets larger than a cell.  [Dma.dma_gather_moves]: how a transfer is
      cut.
    - Session blocks: [SsnBlockProps.ssn_packing] (whatever the channel answers,
      what it took is a sequence of complete blocks and a current one that
      hold the accepted segments), [ssn_block_roundtrip] (the host reads back
      what was packed).
    - The session table, over runs from start-up with every interleaving of
      packets, timers, the work after a timer, commands and failures of channel,
      pool and timer unit (a flow is the unordered pair of the ends and the protocol,
      [SsnSys.key_of], without the sort of the code): [SsnThm.ssn_table_safe] (defined, invariant),
      [ssn_table_refines] (a finite map from flows to sessions),
      [ssn_conservation] (no packet or queue entry is lost or used twice),
      [ssn_expires] (a session ends after its traffic does),
      [ssn_query_answers] (queries answer from the map);
      [ssn_timer_failure_leaks] shows a count that is never taken back.
    - Commands: over every run of callers, packets and answers, in any order and
      with losses, [CmdThm.cmd_own_answer] (a call returns the answer to its own
      packet or a time-out), [cmd_requests_listed] (the list holds the calls that
      wait), [cmd_call_returns] (none waits for ever); [cmd_register_spec].
      [cmd_malloc_failure_null] and [cmd_drv_type_uninitialised] show two accesses
      through pointers nobody set.  [Api.api_calls_fit]: what the library asks for
      fits.
    - Rule commands end to end: [CmdRuleProps.rule_call_refines] (a call runs the
      operation it names), [rule_add_query_end_to_end], [rule_stat_roundtrip],
      [rule_calls_served] (with any number of callers); [rule_del_count_lost].
    - Inter-chassis packets: [IpcThm.ipc_life_invariant], [ipc_work_safe],
      [ipc_sample_bounds], [ipc_payload_bounds] (what is within memory, exactly),
      [ipc_exp_check_correct], [ipc_pktid_order], [ipc_sampled_packet],
      [ipc_init_failure_ignored]; [IpcCmd.ipc_settings_roundtrip].
    - Session channel: [SsnChanThm.ssn_chan_safe] (whatever fails, finitely often),
      [ssn_failed_post_loses] (what a failed transfer does), [copies_after_unlock_collide]
      (two cores that copy the address they fetched after the lock can get the same).
    - The driver's channels: [DrvChanThm.driver_segments_reach_tool] (set-up, packing,
      transport and reading composed), [driver_pool_range], [driver_pages_balanced];
      [driver_init_failure_leaks], [driver_ring_addr_bounds].

    - Dispatch: [WorkThm.process_reach], [WorkIpc.card_gives_back_once] (every entry of a core
      ends once, commands of the host included; which ones nobody gets back), [WorkMac.loop_echoes] (packets are sent back once and in order),
      [host_packet_given_twice].
    - Path of IP packets: [IpPathThm.ip_verdict_defined] (when a packet has a verdict),
      [path_gives_back_once]; [IpTcp.tcp_entries_accounted] (dispatch and session table
      together keep or free every entry once) and [tagged_tcp_packet_freed] (where they do
      not); [IpUdp.udp_packets_delivered] (from the wire to the host: a FIFO
      is a bounded queue that refuses only when it is full).
    - Counting components: [TimestampProps.timestamp_run_refines] (runs of packets and
      clearings), [timestamp_order],
      [timestamp_order_fails], [MacStatProps.mac_commands_refine], [mac_run_counts],
      [mac_checksum_spoiled].
    - The tool: [ToolRule.tool_rule_roundtrip] (from the words of [rule add] through the card
      to the row that [rule get] prints), [rule_row_readd], [rule_add_expands],
      [rule_add_total_wraps]; [ToolProps.mac_print_parse], [u32_print_parse],
      [u32_inc_bounds], [arg_last_wins], [arg_key_bounds], [exec_runs_command].
    - Board: [BoardThm.stat_tool_shows_counters] (the tool shows the counters of the card),
      [stat_get_bounds]; [board_settings_shown] (the tool reads back what was
      set, on the core it was set on); [port_settings_steer_packets] (from the words of the
      tool to the way of a packet), [dma_read_bounds].

    ** Conventions

    - An integer of the code is a [Z]; [wrapu], [wraps] and their instances
      [u8] ... [u64], [s32] write out every wrap-around.
    - [None] is undefined behaviour: an access outside an array, a number [sscanf]
      cannot store, a returned variable that was never set, a division
      by zero.  "Defined" below means that the result is [Some].
    - Loops are structural recursion over lists or [nat].  The loops of [Dma]
      and [Chan] that count a number down take that number as fuel, and every
      round takes at least one away, so it never runs out.  A round of the posting
      loop of the session channel posts a cell or loses a transfer, so
      [ssn_post_fuel] counts both; it runs out only when the engine refuses a
      request for ever ([SsnChanThm.ssn_chan_safe] excludes that by its bounds on the
      requests).  The walk of the request list has fuel for every node there is.
      Array sizes are those of the code: 2048 filters and buckets, 64 words of
      32 bits in a bitmap, 65536 points of a number line, 4 entries in a
      statistics answer, 20480 and 400896 cells in the rings.
    - Every component is modelled as compiled with its own FRC_CONFIG
      switch on, whatever include/frc_config.h selects by default.
    - A chain of the session table has at most the blocks of its pool, so a
      search with more fuel than that ends ([SsnInv.search_chain_spec],
      [find_prev_spec]).
    - Locks, memory barriers and printing are left out, so each operation
      is atomic, with these exceptions: in [Ring] the interleaving is the point;
      the count-down of a session's timer happens outside the lock and
      is a step of its own; of the two-tuple filters what runs under one lock, and each atomic
      counter, is a step ([FilterProps.filter_event]); and the copy of the addresses that a
      core fetched from the session channel is made after the lock ([SsnChan.ssn_avail_copy],
      a step in [SsnChanThm]).
    - A request to the DMA engine is refused, done, or not done when the card stops waiting for
      it ([Dma.outcome]); in the last case the code reports success and nothing has been moved.
      Theorems that need transfers in time say so ([Dma.timely], [clean]).  The segments a session submits are packed when flow
      recovery is done with the packet; packing answers nothing to it.  Pools
      of fixed-size blocks are their number of free blocks.  There is one ACL
      group ([MPP_MAX_ACL_NUM] is 1), so [gid] does not appear.
    - The CRC unit of the processor and the Octeon SDK are not part of the
      sources.  The CRC is a parameter; nothing is assumed of it but its range.
      The exchange of
      bytes in a buffer, a function of the SDK driver, is a parameter with the law
      that it reverses words of eight bytes ([CmdProps.swap_law]).
      The pool of session blocks is the class [Ssn.Fpa] with [SsnInv.FpaLaws] (a
      block given out is free, a block given back becomes free), the session
      channel the class [SsnBlock.SsnSink] with [SsnBlockProps.SsnSinkLaws];
      what the timer unit answers is data of the state.  In the driver a pointer and
      its physical address are one number, and what the kernel gives for each
      request of pages is data ([DrvChan.kpages]).  The rings of the host are kept
      apart from the memory of the blocks.

    ** What is not modelled

    Start-up of the card (frcore_main.c, frcore_init.c) and of the hardware, the DMA engine
    and the SDK's packet output: the sources only call the SDK there.  Of the loop of a core
    the network commands that set registers of the ports and answer the host, the contents of
    the report of links, and the instructions of the SDK's driver; what becomes of
    their entries is modelled.  Of the driver the network devices (frcdrv_network.c,
    frcdrv_main.c), interrupts and the PCI transport, which are code against the kernel; of
    the library the calls that are compiled out; of the tool the other commands, which read
    their words with the same readers and make one call each.  The prints of statistics
    and of queues on the card, the text-parsing build of the rule store (without
    FRCORE_ACL_API_INTERFACE, not configured), the byte ring of frc_dma.h and the
    generators of test packets are left out. *)

From Stdlib Require Export ZArith Lia Bool.
From stdpp Require Export prelude gmap.
#[global] Set Default Proof Using "Type".

(** ** Machine integers

    A C integer of width [w] is a [Z]; unsigned conversion is reduction
    modulo [2^w], conversion to [int] is the two's complement reading of
    the low 32 bits. *)

Declare Scope c_scope.
Delimit Scope c_scope with c.

Definition wrapu (w x : Z) : Z := (x `mod` 2 ^ w)%Z.
Abbreviation u8 := (wrapu 8).
Abbreviation u16 := (wrapu 16).
Abbreviation u32 := (wrapu 32).
Abbreviation u64 := (wrapu 64).

Definition wraps (w x : Z) : Z :=
  let y := (x `mod` 2 ^ w)%Z in
  if (y <? 2 ^ (w - 1))%Z then y else (y - 2 ^ w)%Z.
Abbreviation s32 := (wraps 32).

Notation "x ∈u w" := (0 <= x < 2 ^ w)%Z (at level 70) : c_scope.

Section machine_int.
#[local] Open Scope Z_scope.
Implicit Types w x y : Z.

Lemma wrapu_range w x : 0 <= w -> 0 <= wrapu w x < 2 ^ w.
Proof. intros. apply Z.mod_pos_bound. lia. Qed.

Lemma wrapu_id w x : 0 <= x < 2 ^ w -> wrapu w x = x.
Proof. apply Z.mod_small. Qed.

Lemma wrapu_idemp w x : wrapu w (wrapu w x) = wrapu w x.
Proof. apply Zmod_mod. Qed.

Lemma wrapu_add_l w x y : wrapu w (wrapu w x + y) = wrapu w (x + y).
Proof. apply Zplus_mod_idemp_l. Qed.

Lemma wrapu_add_r w x y : wrapu w (x + wrapu w y) = wrapu w (x + y).
Proof. apply Zplus_mod_idemp_r. Qed.

Lemma wraps_range w x : 0 < w -> - 2 ^ (w - 1) <= wraps w x < 2 ^ (w - 1).
Proof.
  intros Hw. unfold wraps.
  assert (2 ^ w = 2 * 2 ^ (w - 1)) as E
    by (rewrite <- Z.pow_succ_r by lia; f_equal; lia).
  pose proof (Z.mod_pos_bound x (2 ^ w) ltac:(lia)).
  case_match eqn:H1; [apply Z.ltb_lt in H1|apply Z.ltb_ge in H1]; lia.
Qed.

Lemma wraps_id w x : 0 <= x < 2 ^ (w - 1) -> 0 < w -> wraps w x = x.
Proof.
  intros Hx Hw. unfold wraps.
  assert (2 ^ w = 2 * 2 ^ (w - 1)) as E
    by (rewrite <- Z.pow_succ_r by lia; f_equal; lia).
  rewrite Z.mod_small by lia.
  by rewrite (proj2 (Z.ltb_lt _ _)) by lia.
Qed.

Lemma wraps_small w x : 0 < w -> - 2 ^ (w - 1) <= x < 2 ^ (w - 1) -> wraps w x = x.
Proof.
  intros Hw Hx. destruct (Z.ltb_spec x 0); [|apply wraps_id; lia].
  assert (2 ^ w = 2 * 2 ^ (w - 1)) as E
    by (rewrite <- Z.pow_succ_r by lia; f_equal; lia).
  unfold wraps. rewrite <- (Z_mod_plus_full x 1), Z.mod_small by lia.
  rewrite (proj2 (Z.ltb_ge _ _)) by lia. lia.
Qed.

Lemma wrapu_wraps w x : 0 <= w -> wrapu w (wraps w x) = wrapu w x.
Proof.
  intros. unfold wraps, wrapu. case_match; [apply Zmod_mod|].
  rewrite <- (Z_mod_plus_full (x `mod` 2 ^ w - 2 ^ w) 1).
  replace (x `mod` 2 ^ w - 2 ^ w + 1 * 2 ^ w) with (x `mod` 2 ^ w) by lia.
  apply Zmod_mod.
Qed.
End machine_int.

(** ** Undefined behaviour and arrays

    [None] stands for undefined behaviour: an access out of the bounds of an
    object, a division by zero, a dereference of [NULL].  A definition that
    returns [Some] has none. *)

Definition arr_get {A} (l : list A) (i : Z) : option A :=
  if (0 <=? i)%Z then l !! Z.to_nat i else None.

Definition arr_set {A} (l : list A) (i : Z) (v : A) : option (list A) :=
  if (0 <=? i)%Z && (i <? Z.of_nat (length l))%Z
  then Some (<[Z.to_nat i := v]> l) else None.

Definition guard_ub (b : bool) : option unit := if b then Some () else None.

(** Unsigned division and remainder are undefined on a zero divisor. *)
Definition umod (x y : Z) : option Z :=
  if (y =? 0)%Z then None else Some (x `mod` y)%Z.

(** Total read of an array of integers, for accesses that are in bounds by
    construction. *)
Definition nthZ (l : list Z) (i : Z) : Z := default 0%Z (arr_get l i).

(** A large table whose cells hold unspecified contents until written. *)
Abbreviation cells := (gmap Z Z).

Definition cell_set (bound : Z) (m : cells) (i v : Z) : option cells :=
  if (0 <=? i)%Z && (i <? bound)%Z then Some (<[i := v]> m) else None.

Section arrays.
Context {A : Type}.
Implicit Types (l : list A) (i j : Z) (v : A).
#[local] Open Scope Z_scope.

Lemma arr_get_nat l (n : nat) : arr_get l (Z.of_nat n) = l !! n.
Proof.
  unfold arr_get. by rewrite (proj2 (Z.leb_le _ _)), Nat2Z.id by lia.
Qed.

Lemma arr_get_Some l i v :
  arr_get l i = Some v <-> 0 <= i /\ l !! Z.to_nat i = Some v.
Proof.
  unfold arr_get. destruct (Z.leb_spec 0 i); split; [done|by intros [_ ?]|done|lia].
Qed.

Lemma arr_get_range l i v :
  arr_get l i = Some v -> 0 <= i < Z.of_nat (length l).
Proof. intros [? ?%lookup_lt_Some]%arr_get_Some. lia. Qed.

Lemma arr_get_is_Some l i : 0 <= i < Z.of_nat (length l) -> is_Some (arr_get l i).
Proof.
  intros. unfold arr_get. rewrite (proj2 (Z.leb_le _ _)) by lia.
  apply lookup_lt_is_Some. lia.
Qed.

Lemma arr_set_eq l i v :
  0 <= i < Z.of_nat (length l) -> arr_set l i v = Some (<[Z.to_nat i := v]> l).
Proof.
  intros. unfold arr_set.
  by rewrite (proj2 (Z.leb_le _ _)), (proj2 (Z.ltb_lt _ _)) by lia.
Qed.

Lemma arr_set_Some l i v l' :
  arr_set l i v = Some l' <->
  (0 <= i < Z.of_nat (length l)) /\ l' = <[Z.to_nat i := v]> l.
Proof.
  unfold arr_set. split.
  - intros H. destruct (0 <=? i) eqn:H1; [|done]. destruct (i <? _) eqn:H2; [|done].
    apply Z.leb_le in H1. apply Z.ltb_lt in H2. simpl in H. split; [lia|congruence].
  - intros [Hi ->]. by apply arr_set_eq.
Qed.

Lemma arr_set_length l i v l' : arr_set l i v = Some l' -> length l' = length l.
Proof. intros [_ ->]%arr_set_Some. apply length_insert. Qed.

Lemma arr_get_set l i v l' j :
  arr_set l i v = Some l' ->
  arr_get l' j = if decide (j = i) then Some v else arr_get l j.
Proof.
  intros [Hi ->]%arr_set_Some. unfold arr_get.
  destruct (0 <=? j) eqn:Hj; [apply Z.leb_le in Hj|apply Z.leb_gt in Hj].
  - case_decide as E; [subst|].
    + rewrite list_lookup_insert_eq by lia. done.
    + rewrite list_lookup_insert_ne by lia. done.
  - case_decide; [lia|done].
Qed.
End arrays.

Section int_arrays.
Implicit Types (l : list Z) (i j v : Z).
#[local] Open Scope Z_scope.

Lemma nthZ_insert l j v i :
  0 <= j < Z.of_nat (length l) ->
  nthZ (<[Z.to_nat j := v]> l) i = if i =? j then v else nthZ l i.
Proof.
  intros Hj. unfold nthZ.
  pose proof (arr_set_eq l j v Hj) as E. apply (arr_get_set _ _ _ _ i) in E.
  rewrite E. case_decide; [subst; by rewrite Z.eqb_refl|].
  by rewrite (proj2 (Z.eqb_neq _ _)) by done.
Qed.

Lemma arr_get_nthZ l i : 0 <= i < Z.of_nat (length l) -> arr_get l i = Some (nthZ l i).
Proof. intros [v Hv]%arr_get_is_Some. unfold nthZ. by rewrite Hv. Qed.

Lemma cell_set_eq bound (m : cells) i v :
  0 <= i < bound -> cell_set bound m i v = Some (<[i := v]> m).
Proof.
  intros. unfold cell_set. by rewrite (proj2 (Z.leb_le _ _)), (proj2 (Z.ltb_lt _ _)) by lia.
Qed.

Lemma cell_set_Some bound (m m' : cells) i v :
  cell_set bound m i v = Some m' -> 0 <= i < bound /\ m' = <[i := v]> m.
Proof.
  unfold cell_set. destruct (Z.leb_spec 0 i), (Z.ltb_spec i bound); simpl; naive_solver.
Qed.
End int_arrays.

(** ** Loops

    [foldM f l a] runs the body [f] for every element of [l] in order and
    stops at the first undefined behaviour: [for (i = 0; i < n; i++) body]
    is [foldM body (seqZ 0 n) a]. *)

Fixpoint foldM {A B} (f : A -> B -> option A) (l : list B) (a : A) : option A :=
  match l with
  | [] => Some a
  | b :: l => a ← f a b; foldM f l a
  end.

Section loops.
Context {A B : Type}.
Implicit Types (f : A -> B -> option A) (l : list B) (a : A).

Lemma foldM_app f l1 l2 a :
  foldM f (l1 ++ l2) a = foldM f l1 a ≫= foldM f l2.
Proof.
  revert a. induction l1 as [|b l1 IH]; intros a; simpl; [done|].
  destruct (f a b); simpl; auto.
Qed.

(** Loop rule: an invariant indexed by the elements already processed. *)
Lemma foldM_ind (P : list B -> A -> Prop) f l a :
  P [] a ->
  (forall done b rest a, l = done ++ b :: rest -> P done a ->
     exists a', f a b = Some a' /\ P (done ++ [b]) a') ->
  exists a', foldM f l a = Some a' /\ P l a'.
Proof.
  intros H0 Hs.
  assert (forall suf pre a, l = pre ++ suf -> P pre a ->
    exists a', foldM f suf a = Some a' /\ P l a') as H.
  { induction suf as [|b suf IH]; intros pre a1 -> HP; simpl.
    - rewrite app_nil_r in *. eauto.
    - destruct (Hs pre b suf a1) as (a2 & -> & HP2); [done..|]. simpl.
      apply (IH (pre ++ [b])); [by rewrite <- app_assoc|done]. }
  by apply (H l []).
Qed.

(** The same rule for a loop known to have finished. *)
Lemma foldM_inv (P : list B -> A -> Prop) f l a a' :
  foldM f l a = Some a' ->
  P [] a ->
  (forall done b rest a a', l = done ++ b :: rest -> P done a ->
     f a b = Some a' -> P (done ++ [b]) a') ->
  P l a'.
Proof.
  intros Hf H0 Hs.
  assert (forall suf pre a, l = pre ++ suf -> P pre a ->
    foldM f suf a = Some a' -> P l a') as H.
  { induction suf as [|b suf IH]; intros pre a1 -> HP; simpl.
    - intros [= ->]. by rewrite app_nil_r in *.
    - destruct (f a1 b) as [a2|] eqn:E; simpl; [|done].
      apply (IH (pre ++ [b])); [by rewrite <- app_assoc|].
      by eapply Hs. }
  by eapply (H l []).
Qed.

Lemma foldM_ext f g l a :
  (forall a b, b ∈ l -> f a b = g a b) -> foldM f l a = foldM g l a.
Proof.
  revert a. induction l as [|b l IH]; intros a H; simpl; [done|].
  rewrite H by left. destruct (g a b); simpl; [|done]. apply IH. intros. apply H. by right.
Qed.

Lemma foldM_pure (g : A -> B -> A) l a :
  foldM (fun a b => Some (g a b)) l a = Some (foldl g a l).
Proof. revert a. induction l; intros; simpl; auto. Qed.
End loops.

Section counted_loops.
Context {A : Type}.
Implicit Types (f : A -> Z -> option A) (a : A) (P : Z -> A -> Prop).
#[local] Open Scope Z_scope.

Lemma seqZ_split n pre x post :
  seqZ 0 n = pre ++ x :: post -> pre = seqZ 0 x /\ x = Z.of_nat (length pre) /\ 0 <= x < n.
Proof.
  intros H. assert (seqZ 0 n !! length pre = Some x) as Hx
    by (rewrite H; by apply list_lookup_middle).
  apply lookup_seqZ in Hx as [-> Hx]. rewrite Z.add_0_l. split_and!; [|done|lia..].
  replace n with (Z.of_nat (length pre) + (n - Z.of_nat (length pre))) in H by lia.
  rewrite seqZ_app in H by lia.
  apply app_inj_1 in H as [H _]; [done|]. rewrite length_seqZ. lia.
Qed.

(** [for (i = 0; i < n; i++) f] establishes [P n] when the body moves [P]
    from [i] to [i + 1]. *)
Lemma for_seqZ P f n a :
  0 <= n -> P 0 a ->
  (forall i a, 0 <= i < n -> P i a -> exists a', f a i = Some a' /\ P (i + 1) a') ->
  exists a', foldM f (seqZ 0 n) a = Some a' /\ P n a'.
Proof.
  intros Hn H0 Hs.
  destruct (foldM_ind (fun done a => P (Z.of_nat (length done)) a) f (seqZ 0 n) a)
    as (a' & ? & HP); [done| |].
  - intros done x rest a1 (_ & Hx & Hr)%seqZ_split HP. rewrite <- Hx in HP.
    destruct (Hs x a1 Hr HP) as (a2 & ? & HP2). exists a2. split; [done|].
    rewrite length_app. simpl. by replace (Z.of_nat (_ + 1)) with (x + 1) by lia.
  - exists a'. split; [done|]. rewrite length_seqZ in HP.
    by replace (Z.of_nat _) with n in HP by lia.
Qed.

Lemma for_seqZ_inv P f n a a' :
  foldM f (seqZ 0 n) a = Some a' ->
  0 <= n -> P 0 a ->
  (forall i a a', 0 <= i < n -> P i a -> f a i = Some a' -> P (i + 1) a') ->
  P n a'.
Proof.
  intros Hf Hn H0 Hs.
  enough (P (Z.of_nat (length (seqZ 0 n))) a') as H
    by (by rewrite length_seqZ, Z2Nat.id in H by lia).
  apply (foldM_inv (fun done a => P (Z.of_nat (length done)) a) f (seqZ 0 n) a a' Hf H0).
  intros done x rest a1 a2 (_ & Hx & Hr)%seqZ_split HP Hb. rewrite <- Hx in HP.
  rewrite length_app. simpl. replace (Z.of_nat (_ + 1)) with (x + 1) by lia. by eapply Hs.
Qed.
(** The same rules for a loop over [i, i + m) in either direction. *)
Lemma for_up P f i m a :
  0 <= m -> P i a ->
  (forall j a, i <= j < i + m -> P j a -> exists a', f a j = Some a' /\ P (j + 1) a') ->
  exists a', foldM f (seqZ i m) a = Some a' /\ P (i + m) a'.
Proof.
  intros Hm. rewrite <- (Z2Nat.id m) by done. generalize (Z.to_nat m) as n. clear m Hm.
  intros n. revert i a. induction n as [|n IH]; intros i a H0 Hs.
  - exists a. simpl. by rewrite Z.add_0_r.
  - rewrite seqZ_cons by lia. destruct (Hs i a) as (a1 & E1 & H1); [lia|done|].
    simpl. rewrite E1. simpl. replace (Z.pred (Z.of_nat (S n))) with (Z.of_nat n) by lia.
    destruct (IH (Z.succ i) a1 H1) as (a2 & E2 & H2).
    + intros j b Hj. apply Hs. lia.
    + exists a2. split; [done|]. by replace (i + Z.of_nat (S n)) with (Z.succ i + Z.of_nat n) by lia.
Qed.

Lemma for_down P f i m a :
  0 <= m -> P (i + m) a ->
  (forall j a, i <= j < i + m -> P (j + 1) a -> exists a', f a j = Some a' /\ P j a') ->
  exists a', foldM f (reverse (seqZ i m)) a = Some a' /\ P i a'.
Proof.
  intros Hm. rewrite <- (Z2Nat.id m) by done. generalize (Z.to_nat m) as n. clear m Hm.
  intros n. revert a. induction n as [|n IH]; intros a H0 Hs.
  - exists a. simpl in *. by rewrite Z.add_0_r in H0.
  - rewrite seqZ_S, reverse_app. simpl.
    destruct (Hs (i + Z.of_nat n) a) as (a1 & E1 & H1);
      [lia|by replace (i + Z.of_nat n + 1) with (i + Z.of_nat (S n)) by lia|].
    rewrite E1. simpl. apply IH; [done|]. intros j b Hj. apply Hs. lia.
Qed.
End counted_loops.

(** ** Partial and total correctness

    [wp tot m Q]: if [m] is defined its value satisfies [Q]; with [tot = true]
    it is also defined.  One proof of a loop serves both readings. *)

Definition wp {A} (tot : bool) (m : option A) (Q : A -> Prop) : Prop :=
  match m with Some a => Q a | None => tot = false end.

Section wp.
Context (tot : bool).
#[local] Open Scope Z_scope.

Lemma wp_mono {A} (m : option A) (Q Q' : A -> Prop) :
  wp tot m Q -> (forall a, Q a -> Q' a) -> wp tot m Q'.
Proof. destruct m; simpl; auto. Qed.

Lemma wp_bind {A B} (m : option A) (k : A -> option B) (Q : B -> Prop) :
  wp tot m (fun a => wp tot (k a) Q) -> wp tot (m ≫= k) Q.
Proof. by destruct m. Qed.

Lemma wp_some {A} (m : option A) (a : A) (Q : A -> Prop) :
  m = Some a -> Q a -> wp tot m Q.
Proof. by intros ->. Qed.

Lemma wp_for {A} (P : Z -> A -> Prop) (f : A -> Z -> option A) n a :
  0 <= n -> P 0 a ->
  (forall i a, 0 <= i < n -> P i a -> wp tot (f a i) (P (i + 1))) ->
  wp tot (foldM f (seqZ 0 n) a) (P n).
Proof.
  intros Hn H0 Hs. destruct tot.
  - destruct (for_seqZ P f n a Hn H0) as (a' & -> & ?); [|done].
    intros i a1 Hi HP. specialize (Hs i a1 Hi HP).
    destruct (f a1 i); simpl in Hs; [eauto|done].
  - destruct (foldM f (seqZ 0 n) a) as [a'|] eqn:E; simpl; [|done].
    apply (for_seqZ_inv P f n a a' E Hn H0).
    intros i a1 a2 Hi HP Hf. specialize (Hs i a1 Hi HP). by rewrite Hf in Hs.
Qed.

Lemma wp_partial {A} (m : option A) (Q : A -> Prop) a :
  wp false m Q -> m = Some a -> Q a.
Proof. by intros H ->. Qed.

Lemma wp_total {A} (m : option A) (Q : A -> Prop) :
  wp true m Q -> exists a, m = Some a /\ Q a.
Proof. destruct m; simpl; [eauto|done]. Qed.
End wp.

(** A search loop with an early [return]: the first index of [l] whose
    element satisfies [P]. *)
Fixpoint first_index {A} (P : A -> bool) (l : list A) : option nat :=
  match l with
  | [] => None
  | x :: l => if P x then Some 0 else S <$> first_index P l
  end.

Section first_index.
Context {A : Type}.
Implicit Types (P : A -> bool) (l : list A).

Lemma first_index_Some P l i :
  first_index P l = Some i <->
  exists x, l !! i = Some x /\ P x = true /\
    forall j y, j < i -> l !! j = Some y -> P y = false.
Proof.
  revert i. induction l as [|x l IH]; intros i; simpl.
  { split; [done|]. intros (?&?&_). done. }
  destruct (P x) eqn:Hx.
  - split.
    + intros [= <-]. exists x. split_and!; [done..|]. intros; lia.
    + intros (y & Hy & HP & Hlt). destruct i as [|i]; [done|].
      rewrite (Hlt 0 x) in Hx; [done|lia|done].
  - rewrite fmap_Some. split.
    + intros (k & (y & Hy & HP & Hlt)%IH & ->). exists y. split_and!; [done..|].
      intros [|j] z Hj Hz; [simpl in Hz; congruence|]. apply (Hlt j z); [lia|done].
    + intros (y & Hy & HP & Hlt). destruct i as [|i]; [simpl in Hy; congruence|].
      exists i. split; [|done]. apply IH. exists y. split_and!; [done..|].
      intros j z Hj Hz. apply (Hlt (S j) z); [lia|done].
Qed.

Lemma first_index_None P l :
  first_index P l = None <-> forall j y, l !! j = Some y -> P y = false.
Proof.
  induction l as [|x l IH]; simpl.
  { split; [|done]. intros _ j y. by rewrite lookup_nil. }
  destruct (P x) eqn:Hx.
  - split; [done|]. intros H. by rewrite (H 0 x) in Hx.
  - rewrite fmap_None, IH. split.
    + intros H [|j] y Hy; [simpl in Hy; congruence|]. by apply (H j).
    + intros H j y Hy. by apply (H (S j)).
Qed.

Lemma first_index_lt P l i : first_index P l = Some i -> i < length l.
Proof. intros (x & Hx & _)%first_index_Some. by eapply lookup_lt_Some. Qed.
End first_index.

(** A loop whose body may [return] a value. *)
Fixpoint for_ret {A B} (f : A -> option B) (l : list A) : option B :=
  match l with
  | [] => None
  | x :: l => match f x with Some v => Some v | None => for_ret f l end
  end.

Section for_ret.
Context {A B : Type}.
Implicit Types (f : A -> option B) (l : list A).

Lemma for_ret_None f l : for_ret f l = None <-> forall x, x ∈ l -> f x = None.
Proof.
  induction l as [|x l IH]; simpl.
  { split; [|done]. intros _ x Hx. by apply elem_of_nil in Hx. }
  destruct (f x) eqn:E.
  - split; [done|]. intros H. by rewrite H in E by constructor.
  - rewrite IH. split.
    + intros H y [-> | Hy]%elem_of_cons; auto.
    + intros H y Hy. apply H. by constructor.
Qed.

Lemma for_ret_Some f l v :
  for_ret f l = Some v ->
  exists pre x post, l = pre ++ x :: post /\ f x = Some v /\ for_ret f pre = None.
Proof.
  induction l as [|x l IH]; simpl; [done|]. destruct (f x) eqn:E.
  - intros [= <-]. by exists [], x, l.
  - intros (pre & y & post & -> & Hy & Hpre)%IH. exists (x :: pre), y, post.
    split_and!; [done..|]. simpl. by rewrite E.
Qed.

Lemma for_ret_app f l1 l2 :
  for_ret f (l1 ++ l2) = match for_ret f l1 with Some v => Some v | None => for_ret f l2 end.
Proof. induction l1 as [|x l1 IH]; simpl; [done|]. by destruct (f x). Qed.
End for_ret.

(** The same when evaluating the body can be undefined. *)
Fixpoint searchM {A B} (f : A -> option (option B)) (l : list A) : option (option B) :=
  match l with
  | [] => Some None
  | x :: l => r ← f x; match r with Some v => Some (Some v) | None => searchM f l end
  end.

Lemma searchM_pure {A B} (f : A -> option (option B)) (g : A -> option B) l :
  (forall x, x ∈ l -> f x = Some (g x)) -> searchM f l = Some (for_ret g l).
Proof.
  induction l as [|x l IH]; intros H; simpl; [done|].
  rewrite H by left. simpl. rewrite IH by (intros; apply H; by right). by destruct (g x).
Qed.

(** A loop that appends its answers to an array of [max] elements; [wrap]
    adds the rest of the loop's state. *)
Lemma collect_loop {A X I} (wrap : list X -> A) (g : I -> option X) (max : Z)
    (body : A -> I -> option A) (l : list I) (out : list X) :
  (forall out i, i ∈ l -> body (wrap out) i = match g i with
    | Some x => _ ← guard_ub (Z.of_nat (length out) <? max)%Z; Some (wrap (out ++ [x]))
    | None => Some (wrap out) end) ->
  (Z.of_nat (length out) <= max)%Z ->
  foldM body l (wrap out) =
  if (Z.of_nat (length (out ++ omap g l)) <=? max)%Z then Some (wrap (out ++ omap g l)) else None.
Proof.
  revert out. induction l as [|i l IH]; intros out Hb Ho; simpl.
  - rewrite app_nil_r, (proj2 (Z.leb_le _ _)) by done. done.
  - rewrite Hb by left. specialize (IH (out ++ (match g i with Some x => [x] | None => [] end))).
    destruct (g i) as [x|]; simpl.
    + destruct (Z.ltb_spec (Z.of_nat (length out)) max) as [Hlt|Hge]; simpl.
      * rewrite IH by ((intros; apply Hb; by right) || (rewrite length_app; simpl; lia)).
        by rewrite <- app_assoc.
      * rewrite (proj2 (Z.leb_gt _ _)); [done|]. rewrite length_app. simpl. lia.
    + rewrite app_nil_r in IH. apply IH; [intros; apply Hb; by right|done].
Qed.

(** ** Return codes: [fre_t] of src/code/include/frc_types.h *)
Definition FRE_SUCCESS : Z := 0.
Definition FRE_FAIL : Z := 1.
Definition FRE_INIT : Z := 2.
Definition FRE_MEMORY : Z := 3.
Definition FRE_UNSUPPORT : Z := 4.
Definition FRE_UNREGISTER : Z := 5.
Definition FRE_EXIST : Z := 6.
Definition FRE_DMA : Z := 7.
Definition FRE_NOSPACE : Z := 8.
Definition FRE_PARAM : Z := 12.
Definition FRE_EXCEED : Z := 14.
Definition FRE_NOTFOUND : Z := 15.

(** ** Automation *)

(** Turn boolean comparisons of [Z] in hypotheses and goal into propositions. *)
Ltac zb :=
  repeat match goal with
  | H : (_ <? _)%Z = true |- _ => apply Z.ltb_lt in H
  | H : (_ <? _)%Z = false |- _ => apply Z.ltb_ge in H
  | H : (_ <=? _)%Z = true |- _ => apply Z.leb_le in H
  | H : (_ <=? _)%Z = false |- _ => apply Z.leb_gt in H
  | H : (_ =? _)%Z = true |- _ => apply Z.eqb_eq in H
  | H : (_ =? _)%Z = false |- _ => apply Z.eqb_neq in H
  | H : _ && _ = true |- _ => apply andb_true_iff in H; destruct H
  | H : _ || _ = false |- _ => apply orb_false_iff in H; destruct H
  | H : negb _ = true |- _ => apply negb_true_iff in H
  | H : negb _ = false |- _ => apply negb_false_iff in H
  end.

(** Decide the comparison scrutinised by an [if]. *)
Ltac zcase :=
  match goal with
  | |- context [if (?x <? ?y)%Z then _ else _] => destruct (Z.ltb_spec x y)
  | |- context [if (?x <=? ?y)%Z then _ else _] => destruct (Z.leb_spec x y)
  | |- context [if (?x =? ?y)%Z then _ else _] => destruct (Z.eqb_spec x y)
  end.

(** Invert a chain of monadic binds that is known to have returned. *)
Ltac inv_bind :=
  repeat match goal with
  | H : mbind _ _ = Some _ |- _ => apply bind_Some in H as (? & ? & ?)
  | H : guard_ub ?b = Some _ |- _ => destruct b eqn:?; simpl in H; [|done]
  | H : Some _ = Some _ |- _ => injection H; clear H; intros; subst
  | H : (match ?x with (_, _) => _ end) = Some _ |- _ => destruct x eqn:?
  end.

(** Literal indices of array accesses. *)
Ltac nat_literals :=
  change (Z.to_nat 0) with 0%nat; change (Z.to_nat 1) with 1%nat;
  change (Z.to_nat 2) with 2%nat; change (Z.to_nat 3) with 3%nat;
  change (Z.to_nat 4) with 4%nat; change (Z.to_nat 5) with 5%nat;
  change (Z.to_nat 6) with 6%nat; change (Z.to_nat 7) with 7%nat.

Create HintDb barley.
Create Rewrite HintDb barley.
#[export] Hint Resolve wrapu_range wraps_range : barley.
#[export] Hint Rewrite wrapu_idemp wrapu_add_l wrapu_add_r : barley.
