(* ===== verification/Alg.v ===== *)
(** * VLAN hashing: src/code/frcore/frcore_alg.c

    The load balancer in front of the card tags every packet with a VLAN id
    computed from its addresses; the card recomputes the id to check it.
    [ip4_to_eid]/[ip6_to_eid] select address bits through the [ip4b8], [ip4b4],
    [ip6b8], [ip6b4] position tables and, for the source-and-destination hash,
    map the two nibbles to a class through [sdip_vlan_index];
    [ip4_to_eid_new]/[ip6_to_eid_new] (the configured build, FRC_CONFIG_VLAN_IV)
    mask and fold the addresses; [ip4_calc_vlan]/[ip6_calc_vlan] map the result
    into the VLAN range.  An IPv6 address is its list of 16 bytes and is read as
    four big-endian words, as on the big-endian Octeon cores. *)

From S2P Require Import Prelude.
#[local] Open Scope Z_scope.

(** ** Data of frcore_alg.h *)

Inductive HASH_EM : Type := FS_HSEL_NULL | FS_HSEL_SIP | FS_HSEL_DIP | FS_HSEL_SDIP
  | FS_HSEL_other (* any other value of the underlying integer *).
Inductive IP_TYPE : Type := IPV4 | IPV6.

Record ip4_pkt_t : Type := Ip4Pkt { sip_data : Z; dip_data : Z }.
Record ip6_pkt_t : Type := Ip6Pkt { sip6_data : list Z; dip6_data : list Z }.

(** [#define BIT(b) (1ULL<<b)] and its readers and writers, on 64-bit words. *)
Definition BIT (b : Z) : Z := u64 (Z.shiftl 1 b).
Definition BIT_GET (v b : Z) : Z := if Z.land v (BIT b) =? 0 then 0 else 1.
Definition BIT_SET (v b val : Z) : Z :=
  if val =? 0 then Z.land v (Z.lnot (BIT b)) else Z.lor v (BIT b).

(** ** Tables *)

Definition ip4b8 : list Z := [0; 2; 4; 6; 8; 12; 16; 24].
Definition ip4b4 : list Z := [0; 4; 8; 16].
Definition ip6b8 : list Z := [0; 2; 4; 8; 16; 24; 32; 48].
Definition ip6b4 : list Z := [0; 4; 8; 16].

Definition SDIP_MAX_NUM : Z := 256.

Definition sdip_vlan_index : list Z :=
  [
     0;   1;   2;   3;   4;   5;   6;   7;   8;   9;  10;  11;  12;  13;  14;  15;
     1;  16;  17;  18;  19;  20;  21;  22;  23;  24;  25;  26;  27;  28;  29;  30;
     2;  17;  31;  32;  33;  34;  35;  36;  37;  38;  39;  40;  41;  42;  43;  44;
     3;  18;  32;  45;  46;  47;  48;  49;  50;  51;  52;  53;  54;  55;  56;  57;
     4;  19;  33;  46;  58;  59;  60;  61;  62;  63;  64;  65;  66;  67;  68;  69;
     5;  20;  34;  47;  59;  70;  71;  72;  73;  74;  75;  76;  77;  78;  79;  80;
     6;  21;  35;  48;  60;  71;  81;  82;  83;  84;  85;  86;  87;  88;  89;  90;
     7;  22;  36;  49;  61;  72;  82;  91;  92;  93;  94;  95;  96;  97;  98;  99;
     8;  23;  37;  50;  62;  73;  83;  92;   0; 100; 101; 102; 103; 104; 105; 106;
     9;  24;  38;  51;  63;  74;  84;  93; 100;  16; 107; 108; 109; 110; 111; 112;
    10;  25;  39;  52;  64;  75;  85;  94; 101; 107;  31; 113; 114; 115; 116; 117;
    11;  26;  40;  53;  65;  76;  86;  95; 102; 108; 113;  45; 118; 119; 120; 121;
    12;  27;  41;  54;  66;  77;  87;  96; 103; 109; 114; 118;  58; 122; 123; 124;
    13;  28;  42;  55;  67;  78;  88;  97; 104; 110; 115; 119; 122;  70; 125; 126;
    14;  29;  43;  56;  68;  79;  89;  98; 105; 111; 116; 120; 123; 125;  81; 127;
    15;  30;  44;  57;  69;  80;  90;  99; 106; 112; 117; 121; 124; 126; 127;  91 ].

Definition E0 : Z := 2001.
Definition EMAX4 : Z := 256.

(** [for (i = 0; i < n; i++) BIT_SET(eid, i, BIT_GET(src, tbl[i]))], with
    [src] the word the position falls in; the write is to a C [int]. *)
Definition gather (get : Z -> Z) (tbl : list Z) (n eid : Z) : Z :=
  foldl (fun eid i => s32 (BIT_SET (u64 eid) i (get (nthZ tbl i)))) eid (seqZ 0 n).

(** Bit [pos] of a 32-bit word. *)
Definition get4 (ip pos : Z) : Z := BIT_GET ip pos.

(** Big-endian word [k] of a 16-byte address, and bit [pos] of the address:
    [BIT_GET(ip32[3 - pos/32], pos%32)]. *)
Definition be32_at (a : list Z) (k : Z) : Z :=
  Z.lor (Z.shiftl (nthZ a (4 * k)) 24)
    (Z.lor (Z.shiftl (nthZ a (4 * k + 1)) 16)
      (Z.lor (Z.shiftl (nthZ a (4 * k + 2)) 8) (nthZ a (4 * k + 3)))).

Definition get6 (a : list Z) (pos : Z) : Z :=
  BIT_GET (be32_at a (3 - pos / 32)) (pos `mod` 32).

(** Source-and-destination hash: two nibbles, then the class table. *)
Definition sdip_eid (gs gd : Z -> Z) (tbl : list Z) : Z :=
  let eid := gather gs tbl 4 0 in
  let eid := s32 (Z.shiftl eid 4) in
  let eid := gather gd tbl 4 eid in
  nthZ sdip_vlan_index (Z.rem eid SDIP_MAX_NUM).

Definition ip4_to_eid (p : ip4_pkt_t) (hash : HASH_EM) : Z :=
  u32 match hash with
      | FS_HSEL_NULL => -1
      | FS_HSEL_SIP => gather (get4 (sip_data p)) ip4b8 7 0
      | FS_HSEL_DIP => gather (get4 (dip_data p)) ip4b8 7 0
      | FS_HSEL_SDIP => sdip_eid (get4 (sip_data p)) (get4 (dip_data p)) ip4b4
      | FS_HSEL_other => 0
      end.

Definition ip6_to_eid (p : ip6_pkt_t) (hash : HASH_EM) : Z :=
  u32 match hash with
      | FS_HSEL_NULL => -1
      | FS_HSEL_SIP => gather (get6 (sip6_data p)) ip6b8 7 0
      | FS_HSEL_DIP => gather (get6 (dip6_data p)) ip6b8 7 0
      | FS_HSEL_SDIP => sdip_eid (get6 (sip6_data p)) (get6 (dip6_data p)) ip6b4
      | FS_HSEL_other => 0
      end.

(** ** The configured build (FRC_CONFIG_VLAN_IV): masked, folded addresses *)

Record hash_masks : Type := HashMasks {
  hash_sip4_mask : Z; hash_dip4_mask : Z;
  hash_sip6_mask : list Z; hash_dip6_mask : list Z }.

Definition ip4_to_eid_new (m : hash_masks) (p : ip4_pkt_t) (hash : HASH_EM) : Z :=
  let sip := Z.land (sip_data p) (hash_sip4_mask m) in
  let dip := Z.land (dip_data p) (hash_dip4_mask m) in
  u32 match hash with
      | FS_HSEL_NULL => -1
      | FS_HSEL_SIP => s32 sip
      | FS_HSEL_DIP => s32 dip
      | FS_HSEL_SDIP => s32 (u32 (sip + dip))
      | FS_HSEL_other => 0
      end.

(** [UNPACK_U32(p, sip32[i])] reads the next four bytes; every word is xored
    with the one before, so the last one is the fold of all four. *)
Definition fold_words (a : list Z) : Z :=
  let step acc i :=
    let w := u32 (be32_at a i) in
    if i =? 0 then w else Z.lxor w acc in
  foldl step 0 (seqZ 0 4).

Definition ip6_to_eid_new (m : hash_masks) (p : ip6_pkt_t) (hash : HASH_EM) : Z :=
  let sip := zip_with Z.land (sip6_data p) (hash_sip6_mask m) in
  let dip := zip_with Z.land (dip6_data p) (hash_dip6_mask m) in
  let sw_sip := fold_words sip in
  let sw_dip := fold_words dip in
  u32 match hash with
      | FS_HSEL_NULL => -1
      | FS_HSEL_SIP => s32 sw_sip
      | FS_HSEL_DIP => s32 sw_dip
      | FS_HSEL_SDIP => s32 (u32 (sw_sip + sw_dip))
      | FS_HSEL_other => 0
      end.

(** ** From the hash to the VLAN id *)

Definition eid_to_vlan_new (eid : Z) (IPTP : IP_TYPE) (vlan_n vlan_0 : Z)
    (hash : HASH_EM) : option Z :=
  r ← umod eid vlan_n; Some (s32 (u32 (r + vlan_0))).

Definition eid_to_vlan (eid : Z) (IPTP : IP_TYPE) (vlan_n vlan_0 : Z)
    (hash : HASH_EM) : option Z :=
  match hash with
  | FS_HSEL_SDIP => r ← umod eid vlan_n; Some (s32 (u32 (r + vlan_0)))
  | _ =>
    match IPTP with
    | IPV4 => r ← umod (u32 (eid + E0)) vlan_n; Some (s32 (u32 (r + vlan_0)))
    | IPV6 => r ← umod (u32 (u32 (eid + E0) + EMAX4)) vlan_n;
              Some (s32 (u32 (r + vlan_0)))
    end
  end.

(** [iv] is FRC_CONFIG_VLAN_IV; the repository configures it to 1. *)
Definition ip4_calc_vlan (iv : bool) (m : hash_masks) (p : ip4_pkt_t)
    (hash : HASH_EM) (vlan_n vlan_0 : Z) : option Z :=
  let eid := s32 (if iv then ip4_to_eid_new m p hash else ip4_to_eid p hash) in
  if eid =? -1 then Some (u32 (-1)) else
  vlanid ← (if iv then eid_to_vlan_new else eid_to_vlan) (u32 eid) IPV4 vlan_n vlan_0 hash;
  if 4095 <? vlanid then Some (u32 (-1)) else Some (u32 vlanid).

Definition ip6_calc_vlan (iv : bool) (m : hash_masks) (p : ip6_pkt_t)
    (hash : HASH_EM) (vlan_n vlan_0 : Z) : option Z :=
  let eid := s32 (if iv then ip6_to_eid_new m p hash else ip6_to_eid p hash) in
  if eid =? -1 then Some (u32 (-1)) else
  vlanid ← (if iv then eid_to_vlan_new else eid_to_vlan) (u32 eid) IPV6 vlan_n vlan_0 hash;
  if 4095 <? vlanid then Some (u32 (-1)) else Some (u32 vlanid).

(** ** Bit selection *)

Lemma BIT_GET_cases v b : BIT_GET v b = 0 \/ BIT_GET v b = 1.
Proof. unfold BIT_GET. case_match; auto. Qed.

Lemma get4_cases a pos : get4 a pos = 0 \/ get4 a pos = 1.
Proof. apply BIT_GET_cases. Qed.

Lemma get6_cases a pos : get6 a pos = 0 \/ get6 a pos = 1.
Proof. apply BIT_GET_cases. Qed.

(** Name every selected bit, then decide each combination by computation. *)
Ltac name_bits g Hg :=
  repeat match goal with
  | |- context [g (nthZ ?t ?i)] =>
      let H := fresh "H" in
      pose proof (Hg (nthZ t i)) as H; revert H; generalize (g (nthZ t i))
  end.
Ltac split_bits g Hg :=
  name_bits g Hg; intros;
  repeat match goal with H : _ = 0 \/ _ = 1 |- _ => destruct H as [-> | ->] end.

Ltac unroll_gather :=
  unfold gather; change (seqZ 0 7) with [0; 1; 2; 3; 4; 5; 6];
  change (seqZ 0 4) with [0; 1; 2; 3]; cbn [foldl].

(** Case analysis on a nibble. *)
Ltac split_nibble H :=
  apply elem_of_seqZ in H;
  match type of H with _ <= ?h < _ =>
    let E := fresh in
    assert (h = 0 \/ h = 1 \/ h = 2 \/ h = 3 \/ h = 4 \/ h = 5 \/ h = 6 \/ h = 7 \/
      h = 8 \/ h = 9 \/ h = 10 \/ h = 11 \/ h = 12 \/ h = 13 \/ h = 14 \/ h = 15) as E by lia;
    clear H; destruct_or! E; subst h
  end.

Section gather.
Context (g : Z -> Z) (Hg : forall i, g i = 0 \/ g i = 1).

Lemma gather7_range tbl : 0 <= gather g tbl 7 0 < 128.
Proof using Hg.
  unroll_gather. split_bits g Hg; vm_compute; split; congruence.
Qed.

Lemma gather4_nibble tbl : gather g tbl 4 0 ∈ seqZ 0 16.
Proof using Hg.
  apply elem_of_seqZ. unroll_gather.
  split_bits g Hg; vm_compute; split; congruence.
Qed.

(** The second pass fills the low nibble that the shift has cleared. *)
Lemma gather4_shift tbl h :
  h ∈ seqZ 0 16 ->
  gather g tbl 4 (s32 (Z.shiftl h 4)) = 16 * h + gather g tbl 4 0.
Proof using Hg.
  intros Hh. unroll_gather. split_bits g Hg; split_nibble Hh; reflexivity.
Qed.
End gather.

Lemma sdip_eid_nibbles g g' tbl :
  (forall i, g i = 0 \/ g i = 1) -> (forall i, g' i = 0 \/ g' i = 1) ->
  sdip_eid g g' tbl =
    nthZ sdip_vlan_index (16 * gather g tbl 4 0 + gather g' tbl 4 0).
Proof.
  intros Hg Hg'. unfold sdip_eid.
  rewrite (gather4_shift g' Hg' tbl) by (by apply gather4_nibble).
  pose proof (gather4_nibble g Hg tbl) as H1%elem_of_seqZ.
  pose proof (gather4_nibble g' Hg' tbl) as H2%elem_of_seqZ.
  unfold SDIP_MAX_NUM. by rewrite Z.rem_small by lia.
Qed.

(** ** The class table *)

(** The class value of the comment above the table: equal nibbles fold
    to [17 * (h mod 8)], different ones are ordered. *)
Definition sdip_val (h l : Z) : Z :=
  if h =? l then 17 * (h `mod` 8) else 16 * Z.min h l + Z.max h l.

Definition nibble_pairs : list (Z * Z) :=
  h ← seqZ 0 16; l ← seqZ 0 16; [(h, l)].

(** Every class value once. *)
Definition sdip_vals : list Z :=
  foldr (fun v acc => if existsb (Z.eqb v) acc then acc else v :: acc) []
    (uncurry sdip_val <$> nibble_pairs).

Definition rank (v : Z) : Z :=
  Z.of_nat (length (List.filter (fun x => x <? v) sdip_vals)).

Lemma nibble_pairs_elem h l : h ∈ seqZ 0 16 -> l ∈ seqZ 0 16 -> (h, l) ∈ nibble_pairs.
Proof.
  intros Hh Hl. apply list_elem_of_bind. exists h. split; [|done].
  apply list_elem_of_bind. exists l. split; [|done]. by constructor.
Qed.

(** A property of the nibble pairs, decided by computation. *)
Lemma nibble_pairs_forall (P : Z -> Z -> bool) h l :
  forallb (uncurry P) nibble_pairs = true ->
  h ∈ seqZ 0 16 -> l ∈ seqZ 0 16 -> P h l = true.
Proof.
  intros HP Hh Hl. pose proof (nibble_pairs_elem h l Hh Hl) as Hin.
  rewrite forallb_forall in HP. by apply (HP (h, l)), list_elem_of_In.
Qed.

Lemma sdip_vlan_index_sym h l :
  h ∈ seqZ 0 16 -> l ∈ seqZ 0 16 ->
  nthZ sdip_vlan_index (16 * h + l) = nthZ sdip_vlan_index (16 * l + h).
Proof.
  intros Hh Hl. apply Z.eqb_eq.
  apply (nibble_pairs_forall (fun h l => nthZ sdip_vlan_index (16 * h + l) =?
    nthZ sdip_vlan_index (16 * l + h))); [by vm_compute|done..].
Qed.

Lemma sdip_vlan_index_range h l :
  h ∈ seqZ 0 16 -> l ∈ seqZ 0 16 -> 0 <= nthZ sdip_vlan_index (16 * h + l) < 128.
Proof.
  intros Hh Hl.
  pose proof (nibble_pairs_forall (fun h l => (0 <=? nthZ sdip_vlan_index (16 * h + l)) &&
    (nthZ sdip_vlan_index (16 * h + l) <? 128)) h l ltac:(by vm_compute) Hh Hl) as H.
  cbv beta in H. zb. lia.
Qed.

Lemma sdip_eid_range g g' tbl :
  (forall i, g i = 0 \/ g i = 1) -> (forall i, g' i = 0 \/ g' i = 1) ->
  0 <= sdip_eid g g' tbl < 128.
Proof.
  intros. rewrite sdip_eid_nibbles by done.
  by apply sdip_vlan_index_range; apply gather4_nibble.
Qed.

Lemma sdip_eid_sym g g' tbl :
  (forall i, g i = 0 \/ g i = 1) -> (forall i, g' i = 0 \/ g' i = 1) ->
  sdip_eid g g' tbl = sdip_eid g' g tbl.
Proof.
  intros. rewrite !sdip_eid_nibbles by done.
  by apply sdip_vlan_index_sym; apply gather4_nibble.
Qed.

#[export] Hint Resolve get4_cases get6_cases gather7_range sdip_eid_range : barley.

(** ** Properties *)

Definition swap4 (p : ip4_pkt_t) : ip4_pkt_t := Ip4Pkt (dip_data p) (sip_data p).
Definition swap6 (p : ip6_pkt_t) : ip6_pkt_t := Ip6Pkt (dip6_data p) (sip6_data p).

(** the class table is the ranking of the class values of the comment: two
    nibble pairs share an entry exactly when they share a class value, and the
    128 classes are numbered in increasing order of the class value. *)
Theorem sdip_vlan_index_rank (h l : Z) :
  h ∈ seqZ 0 16 -> l ∈ seqZ 0 16 ->
  nthZ sdip_vlan_index (16 * h + l) = rank (sdip_val h l).
Proof.
  intros Hh Hl. apply Z.eqb_eq.
  apply (nibble_pairs_forall (fun h l => nthZ sdip_vlan_index (16 * h + l) =?
    rank (sdip_val h l))); [by vm_compute|done..].
Qed.

Lemma u32_small x : 0 <= x < 128 -> 0 <= u32 x < 128.
Proof. intros. by rewrite wrapu_id by (simpl; lia). Qed.
#[local] Hint Resolve u32_small : barley.

(** the selected-bit hashes give a class below 128 for every packet. *)
Theorem to_eid_range (p4 : ip4_pkt_t) (p6 : ip6_pkt_t) (hash : HASH_EM) :
  hash <> FS_HSEL_NULL ->
  0 <= ip4_to_eid p4 hash < 128 /\ 0 <= ip6_to_eid p6 hash < 128.
Proof.
  intros Hh. unfold ip4_to_eid, ip6_to_eid.
  destruct hash; [done|..]; split; auto 7 with barley.
  all: by vm_compute.
Qed.

Lemma to_eid_range_witness :
  0 <= ip4_to_eid (Ip4Pkt 0x0a000001 0xc0a80102) FS_HSEL_SDIP < 128.
Proof.
  exact (proj1 (to_eid_range (Ip4Pkt 0x0a000001 0xc0a80102) (Ip6Pkt [] [])
    FS_HSEL_SDIP ltac:(discriminate))).
Defined.

Lemma fold_words_range a : 0 <= fold_words a < 2 ^ 32.
Proof.
  unfold fold_words. change (seqZ 0 4) with [0; 1; 2; 3]. cbn [foldl Z.eqb].
  assert (forall x y, 0 <= x < 2 ^ 32 -> 0 <= y < 2 ^ 32 -> 0 <= Z.lxor x y < 2 ^ 32) as Hx.
  { intros x y Hx Hy. rewrite <- (Z.mod_small x (2 ^ 32)), <- (Z.mod_small y (2 ^ 32)) by done.
    rewrite <- Z.land_ones, <- Z.land_ones by lia.
    replace (Z.lxor _ _) with (Z.land (Z.lxor x y) (Z.ones 32))
      by (apply Z.bits_inj'; intros; rewrite !Z.lxor_spec, !Z.land_spec, !Z.lxor_spec;
          by destruct (Z.testbit x n), (Z.testbit y n), (Z.testbit _ n)).
    rewrite Z.land_ones by lia. by apply Z.mod_pos_bound. }
  repeat apply Hx; apply wrapu_range; lia.
Qed.

(** under the source-and-destination hash both directions of a flow get the
    same VLAN id, for IPv4 and IPv6 and in both builds (in the masked build when
    the two masks are the same). *)
Theorem sdip_direction_independent (iv : bool) (m : hash_masks) (p4 : ip4_pkt_t)
    (p6 : ip6_pkt_t) (vlan_n vlan_0 : Z) :
  (iv = true -> hash_sip4_mask m = hash_dip4_mask m /\ hash_sip6_mask m = hash_dip6_mask m) ->
  ip4_calc_vlan iv m (swap4 p4) FS_HSEL_SDIP vlan_n vlan_0 =
    ip4_calc_vlan iv m p4 FS_HSEL_SDIP vlan_n vlan_0 /\
  ip6_calc_vlan iv m (swap6 p6) FS_HSEL_SDIP vlan_n vlan_0 =
    ip6_calc_vlan iv m p6 FS_HSEL_SDIP vlan_n vlan_0.
Proof.
  intros Hm. unfold ip4_calc_vlan, ip6_calc_vlan. destruct iv.
  - destruct (Hm eq_refl) as [E4 E6].
    unfold ip4_to_eid_new, ip6_to_eid_new, swap4, swap6;
      cbn [sip_data dip_data sip6_data dip6_data].
    rewrite E4, E6.
    by rewrite (Z.add_comm (Z.land (dip_data p4) _)),
      (Z.add_comm (fold_words (zip_with _ (dip6_data p6) _))).
  - unfold ip4_to_eid, ip6_to_eid, swap4, swap6;
      cbn [sip_data dip_data sip6_data dip6_data].
    rewrite (sdip_eid_sym (get4 (dip_data p4))), (sdip_eid_sym (get6 (dip6_data p6)))
      by auto with barley.
    done.
Qed.

Lemma sdip_direction_independent_witness :
  ip4_calc_vlan true (HashMasks 0xffffff00 0xffffff00 [] [])
    (swap4 (Ip4Pkt 0x0a000001 0xc0a80102)) FS_HSEL_SDIP 128 1024 = Some 1024.
Proof.
  rewrite (proj1 (sdip_direction_independent true (HashMasks 0xffffff00 0xffffff00 [] [])
    (Ip4Pkt 0x0a000001 0xc0a80102) (Ip6Pkt [] []) 128 1024 ltac:(by intros))).
  vm_compute. reflexivity.
Defined.

Lemma vlan_of_residue r vlan_n vlan_0 :
  0 <= r < vlan_n -> 0 <= vlan_0 -> vlan_0 + vlan_n <= 2 ^ 31 ->
  s32 (u32 (r + vlan_0)) = r + vlan_0.
Proof.
  intros. rewrite wrapu_id by (simpl; lia). apply wraps_id; simpl; lia.
Qed.

Lemma eid_to_vlan_both_range (iv : bool) eid t vlan_n vlan_0 hash :
  0 < vlan_n -> 0 <= vlan_0 -> vlan_0 + vlan_n <= 2 ^ 31 ->
  exists v, (if iv then eid_to_vlan_new else eid_to_vlan) eid t vlan_n vlan_0 hash = Some v /\
    vlan_0 <= v < vlan_0 + vlan_n.
Proof.
  intros Hn H0 Hs.
  assert (forall x, exists v, (r ← umod x vlan_n; Some (s32 (u32 (r + vlan_0)))) = Some v /\
    vlan_0 <= v < vlan_0 + vlan_n) as Hx.
  { intros x. unfold umod. rewrite (proj2 (Z.eqb_neq _ _)) by lia. simpl.
    pose proof (Z.mod_pos_bound x vlan_n Hn).
    eexists. split; [done|]. rewrite (vlan_of_residue _ vlan_n) by lia. lia. }
  destruct iv; [apply Hx|]. unfold eid_to_vlan. destruct hash, t; apply Hx.
Qed.

Lemma calc_vlan_total iv m p4 p6 hash vlan_n vlan_0 :
  0 < vlan_n -> 0 <= vlan_0 -> vlan_0 + vlan_n <= 2 ^ 31 ->
  is_Some (ip4_calc_vlan iv m p4 hash vlan_n vlan_0) /\
  is_Some (ip6_calc_vlan iv m p6 hash vlan_n vlan_0).
Proof.
  intros. split; unfold ip4_calc_vlan, ip6_calc_vlan; (zcase; [by eauto|]);
    match goal with |- context [(if iv then eid_to_vlan_new else eid_to_vlan) ?e ?t] =>
      destruct (eid_to_vlan_both_range iv e t vlan_n vlan_0 hash) as (v & -> & ?) end;
    try done; simpl; (zcase; by eauto).
Qed.

Lemma calc_vlan_cases (iv : bool) (m : hash_masks) (p4 : ip4_pkt_t) (p6 : ip6_pkt_t)
    (hash : HASH_EM) (vlan_n vlan_0 : Z) :
  0 < vlan_n -> 0 <= vlan_0 -> vlan_0 + vlan_n <= 2 ^ 31 ->
  forall r, r = ip4_calc_vlan iv m p4 hash vlan_n vlan_0 \/
            r = ip6_calc_vlan iv m p6 hash vlan_n vlan_0 ->
  r = Some (2 ^ 32 - 1) \/
  exists v, r = Some v /\ vlan_0 <= v < vlan_0 + vlan_n /\ v <= 4095.
Proof.
  intros Hn H0 Hs r [-> | ->]; unfold ip4_calc_vlan, ip6_calc_vlan;
    (zcase; [by left|]);
    match goal with |- context [(if iv then eid_to_vlan_new else eid_to_vlan) ?e ?t] =>
      destruct (eid_to_vlan_both_range iv e t vlan_n vlan_0 hash) as (v & -> & ?) end;
    try done; simpl; (zcase; [by left|]); right;
    (exists v; rewrite wrapu_id by (simpl; lia); split_and!; [done|lia..]).
Qed.

(** for a non-empty VLAN range the computed id is either the invalid id
    [(uint32_t)-1] or a valid 12-bit id inside the configured range. *)
Theorem calc_vlan_range (iv : bool) (m : hash_masks) (p4 : ip4_pkt_t) (p6 : ip6_pkt_t)
    (hash : HASH_EM) (vlan_n vlan_0 : Z) :
  0 < vlan_n -> 0 <= vlan_0 -> vlan_0 + vlan_n <= 2 ^ 31 ->
  forall r, r = ip4_calc_vlan iv m p4 hash vlan_n vlan_0 \/
            r = ip6_calc_vlan iv m p6 hash vlan_n vlan_0 ->
  r = Some (2 ^ 32 - 1) \/
  exists v, r = Some v /\ vlan_0 <= v < vlan_0 + vlan_n /\ v <= 4095.
Proof. apply calc_vlan_cases. Qed.

Lemma calc_vlan_range_witness :
  Some 1032 = Some (2 ^ 32 - 1) \/
  exists v, Some 1032 = Some v /\ 1024 <= v < 1024 + 128 /\ v <= 4095.
Proof.
  apply (calc_vlan_range true (HashMasks 0xffffffff 0xffffffff [] [])
    (Ip4Pkt 0x01010101 0x7) (Ip6Pkt [] []) FS_HSEL_SDIP 128 1024);
    [lia|lia|lia|left; vm_compute; reflexivity].
Defined.

Lemma sdip_vlan_index_rank_witness :
  3 ∈ seqZ 0 16 /\ 12 ∈ seqZ 0 16 /\ nthZ sdip_vlan_index (16 * 3 + 12) = rank (sdip_val 3 12).
Proof.
  assert (3 ∈ seqZ 0 16) as H1 by (apply elem_of_seqZ; lia).
  assert (12 ∈ seqZ 0 16) as H2 by (apply elem_of_seqZ; lia).
  exact (conj H1 (conj H2 (sdip_vlan_index_rank 3 12 H1 H2))).
Defined.
