(* ===== verification/Bytes.v ===== *)
(** * Bytes and structures in memory

    Integers as the bytes of a big-endian card and of a little-endian host, the
    readers of packet headers, and the exchange of byte order word by word. *)

From S2P Require Import Prelude.
#[local] Open Scope Z_scope.

(** The bytes of an [n]-byte integer, the most significant first. *)
Fixpoint be_bytes (n : nat) (v : Z) : list Z :=
  match n with O => [] | S n => (v / 2 ^ (8 * Z.of_nat n)) `mod` 256 :: be_bytes n v end.

(** The value of bytes, the least significant first. *)
Fixpoint le_value (bs : list Z) : Z :=
  match bs with [] => 0 | b :: bs => b + 256 * le_value bs end.
Definition le_field (bs : list Z) (o n : nat) : Z := le_value (take n (drop o bs)).

(** ** Packet readers: [UP16], [UP32] of frcore_pkt.h *)

Definition UP16 (b : list Z) (o : Z) : option Z :=
  b0 ← arr_get b o; b1 ← arr_get b (o + 1);
  Some (Z.lor (Z.shiftl (Z.land b0 0xff) 8) (Z.land b1 0xff)).

Definition UP32 (b : list Z) (o : Z) : option Z :=
  b0 ← arr_get b o; b1 ← arr_get b (o + 1); b2 ← arr_get b (o + 2); b3 ← arr_get b (o + 3);
  Some (u32 (Z.lor (Z.lor (Z.lor (Z.shiftl (Z.land b0 0xff) 24) (Z.shiftl (Z.land b1 0xff) 16))
    (Z.shiftl (Z.land b2 0xff) 8)) (Z.land b3 0xff))).

(** [memcpy] of [n] bytes from offset [o]. *)
Definition read_bytes (b : list Z) (o n : Z) : option (list Z) :=
  if (0 <=? o) && (o + n <=? Z.of_nat (length b))
  then Some (take (Z.to_nat n) (drop (Z.to_nat o) b)) else None.

(** A field in the card's memory. *)
Definition card_get (bs : list Z) (o n : Z) : option Z := b ← read_bytes bs o n; Some (le_value (reverse b)).

(** [memcpy] to offset [o]; outside the buffer it is undefined. *)
Definition write_bytes (b : list Z) (o : nat) (bs : list Z) : option (list Z) :=
  if (o + length bs <=? length b)%nat then Some (take o b ++ bs ++ drop (o + length bs) b) else None.

(** ** Exchange of byte order *)

(** [swap_buff(len, buff)] reverses each of the first [len] 8-byte words. *)
Fixpoint swap_buff (len : nat) (buff : list Z) : list Z :=
  match len with
  | O => buff
  | S len => reverse (take 8 buff) ++ swap_buff len (drop 8 buff)
  end.

(** ** Structures: fields in declaration order, with their sizes

    The little-endian declaration of a group of eight bytes is the reverse of the
    big-endian one. *)
Definition fields : Type := list (nat * Z).
Definition host_struct (fs : fields) : list Z := concat ((fun f => reverse (be_bytes f.1 f.2)) <$> fs).
Definition card_struct (fs : fields) : list Z := concat ((fun f => be_bytes f.1 f.2) <$> fs).

Definition host_bytes (gs : list fields) : list Z := concat (host_struct <$> gs).
Definition card_bytes (gs : list fields) : list Z := concat ((fun g => card_struct (reverse g)) <$> gs).

(** ** Lemmas *)

Lemma length_be_bytes n v : length (be_bytes n v) = n.
Proof. induction n; simpl; congruence. Qed.

Lemma be_bytes_snoc n v : be_bytes (S n) v = be_bytes n (v / 256) ++ [v `mod` 256].
Proof.
  induction n as [|n IH]; [simpl; by rewrite Z.div_1_r|].
  change (be_bytes (S (S n)) v) with ((v / 2 ^ (8 * Z.of_nat (S n))) `mod` 256 :: be_bytes (S n) v).
  rewrite IH. simpl. f_equal. rewrite Z.div_div by lia. do 2 f_equal.
  change 256 with (2 ^ 8). rewrite <- Z.pow_add_r by lia. f_equal. lia.
Qed.

Lemma le_value_be n v : le_value (reverse (be_bytes n v)) = v `mod` 2 ^ (8 * Z.of_nat n).
Proof.
  revert v. induction n as [|n IH]; intros v; [by rewrite Z.mod_1_r|].
  rewrite be_bytes_snoc, reverse_app. simpl. rewrite IH.
  replace (2 ^ (8 * Z.of_nat (S n))) with (256 * 2 ^ (8 * Z.of_nat n)).
  2: { replace (8 * Z.of_nat (S n)) with (8 + 8 * Z.of_nat n) by lia. by rewrite Z.pow_add_r by lia. }
  symmetry. rewrite Z.rem_mul_r by lia. done.
Qed.

(** A field of [n] bytes holds [v]. *)
Definition in_field (n : nat) (v : Z) : Prop := 0 <= v < 2 ^ (8 * Z.of_nat n).

Lemma le_value_field n v : in_field n v -> le_value (reverse (be_bytes n v)) = v.
Proof. intros Hv. rewrite le_value_be. by apply Z.mod_small. Qed.

Lemma read_bytes_eq b o n : 0 <= o -> o + n <= Z.of_nat (length b) ->
  read_bytes b o n = Some (take (Z.to_nat n) (drop (Z.to_nat o) b)).
Proof. intros. unfold read_bytes. by rewrite !(proj2 (Z.leb_le _ _)) by lia. Qed.

(** ** Structures as sequences of fields *)
Lemma card_get_here n v rest : card_get (be_bytes n v ++ rest) 0 (Z.of_nat n) = Some (wrapu (8 * Z.of_nat n) v).
Proof.
  unfold card_get. rewrite read_bytes_eq by (rewrite ?length_app, ?length_be_bytes; lia). cbn [mbind option_bind].
  change (Z.to_nat 0) with 0%nat. rewrite drop_0, Nat2Z.id, take_app_le, take_ge by (rewrite length_be_bytes; lia).
  by rewrite le_value_be.
Qed.

Lemma card_get_skip bs rest o k : Z.of_nat (length bs) <= o -> 0 <= k -> card_get (bs ++ rest) o k = card_get rest (o - Z.of_nat (length bs)) k.
Proof.
  intros Ho Hk. unfold card_get, read_bytes. rewrite length_app, Nat2Z.inj_add.
  destruct (Z.leb_spec 0 o); [|lia]. destruct (Z.leb_spec 0 (o - Z.of_nat (length bs))); [|lia]. cbn [andb].
  destruct (Z.leb_spec (o + k) (Z.of_nat (length bs) + Z.of_nat (length rest))), (Z.leb_spec (o - Z.of_nat (length bs) + k) (Z.of_nat (length rest)));
    try lia; [|done]. cbn [mbind option_bind]. rewrite drop_app_ge by lia. do 4 f_equal. f_equal. lia.
Qed.

Lemma card_get_prefix bs rest o k : 0 <= o -> 0 <= k -> o + k <= Z.of_nat (length bs) -> card_get (bs ++ rest) o k = card_get bs o k.
Proof.
  intros Ho Hk Hl. unfold card_get. rewrite !read_bytes_eq by (rewrite ?length_app; lia). cbn [mbind option_bind].
  rewrite drop_app_le by lia. by rewrite take_app_le by (rewrite length_drop; lia).
Qed.

Lemma card_get_defined bs o k : 0 <= o -> o + k <= Z.of_nat (length bs) -> exists v, card_get bs o k = Some v.
Proof. intros Ho Hk. unfold card_get. rewrite read_bytes_eq by done. by eexists. Qed.

Lemma le_value_range bs : Forall (fun b => 0 <= b < 256) bs -> 0 <= le_value bs < 2 ^ (8 * Z.of_nat (length bs)).
Proof.
  induction 1 as [|b bs Hb _ IH]; [done|]. cbn [le_value length].
  replace (8 * Z.of_nat (S (length bs))) with (8 + 8 * Z.of_nat (length bs)) by lia. rewrite Z.pow_add_r by lia. lia.
Qed.

Lemma card_get_range bs o k v : Forall (fun b => 0 <= b < 256) bs -> 0 <= k -> card_get bs o k = Some v -> 0 <= v < 2 ^ (8 * k).
Proof.
  intros Hb Hk. unfold card_get, read_bytes. destruct ((0 <=? o) && _) eqn:E; [|done]. cbn [mbind option_bind].
  apply andb_true_iff in E as [E1%Z.leb_le E2%Z.leb_le]. intros [= <-].
  assert (length (take (Z.to_nat k) (drop (Z.to_nat o) bs)) = Z.to_nat k) as Hl by (rewrite length_take, length_drop; lia).
  pose proof (le_value_range (reverse (take (Z.to_nat k) (drop (Z.to_nat o) bs)))) as Hr.
  rewrite length_reverse, Hl, Z2Nat.id in Hr by lia. apply Hr. apply Forall_reverse, Forall_take, Forall_drop, Hb.
Qed.

(** Writes and reads of a buffer. *)
Lemma write_bytes_eq b o bs : (o + length bs <= length b)%nat -> write_bytes b o bs = Some (take o b ++ bs ++ drop (o + length bs) b).
Proof. intros. unfold write_bytes. by rewrite (proj2 (Nat.leb_le _ _)). Qed.

Lemma length_written b o bs b' : write_bytes b o bs = Some b' -> length b' = length b.
Proof.
  unfold write_bytes. destruct (Nat.leb_spec (o + length bs) (length b)); [|done]. intros [= <-].
  rewrite !length_app, length_take, length_drop. lia.
Qed.

Lemma written_front b o bs b' : write_bytes b o bs = Some b' -> take o b' = take o b.
Proof.
  unfold write_bytes. destruct (Nat.leb_spec (o + length bs) (length b)); [|done]. intros [= <-].
  rewrite take_app_le, take_ge by (rewrite length_take; lia). done.
Qed.

Lemma written_here b o bs b' : write_bytes b o bs = Some b' -> take (length bs) (drop o b') = bs.
Proof.
  unfold write_bytes. destruct (Nat.leb_spec (o + length bs) (length b)); [|done]. intros [= <-].
  rewrite drop_app_ge by (rewrite length_take; lia). rewrite length_take, Nat.min_l, Nat.sub_diag, drop_0 by lia.
  by rewrite take_app_le, take_ge by lia.
Qed.

(** A field before what is written, and one inside it. *)
Lemma card_get_before b o bs b' q k : write_bytes b o bs = Some b' -> 0 <= q -> 0 <= k -> q + k <= Z.of_nat o ->
  card_get b' q k = card_get b q k.
Proof.
  intros Hw Hq Hk Ho. pose proof (length_written _ _ _ _ Hw) as El. apply written_front in Hw.
  unfold card_get, read_bytes. rewrite El. destruct (_ && _); [|done]. cbn [mbind option_bind]. do 3 f_equal.
  rewrite !take_drop_commute. f_equal.
  replace (Z.to_nat q + Z.to_nat k)%nat with (Nat.min (Z.to_nat q + Z.to_nat k) o) by lia. by rewrite <- !take_take, Hw.
Qed.

Lemma card_get_inside b o bs b' q k : write_bytes b o bs = Some b' -> 0 <= q -> 0 <= k -> q + k <= Z.of_nat (length bs) ->
  card_get b' (Z.of_nat o + q) k = card_get bs q k.
Proof.
  intros Hw Hq Hk Hl. unfold write_bytes in Hw. destruct (Nat.leb_spec (o + length bs) (length b)); [|done]. injection Hw as <-.
  rewrite card_get_skip by (rewrite ?length_take; lia). rewrite length_take, Nat.min_l by lia.
  replace (Z.of_nat o + q - Z.of_nat o) with q by lia. by apply card_get_prefix.
Qed.

Lemma card_get_behind b o bs b' q k : write_bytes b o bs = Some b' -> Z.of_nat (o + length bs) <= q -> 0 <= k ->
  card_get b' q k = card_get b q k.
Proof.
  intros Hw Hq Hk. unfold write_bytes in Hw. destruct (Nat.leb_spec (o + length bs) (length b)); [|done]. injection Hw as <-.
  rewrite app_assoc, card_get_skip by (rewrite ?length_app, ?length_take; lia). rewrite length_app, length_take, Nat.min_l by lia.
  rewrite <- (take_drop (o + length bs) b) at 2. rewrite card_get_skip by (rewrite ?length_take; lia).
  by rewrite length_take, Nat.min_l by lia.
Qed.

(** A field written is the field read. *)
Lemma card_put b o n v : (o + n <= length b)%nat ->
  exists b', write_bytes b o (be_bytes n v) = Some b' /\ length b' = length b /\
    card_get b' (Z.of_nat o) (Z.of_nat n) = Some (wrapu (8 * Z.of_nat n) v).
Proof.
  intros Hl. rewrite write_bytes_eq by (rewrite length_be_bytes; lia). eexists. split; [done|].
  assert (write_bytes b o (be_bytes n v) = Some (take o b ++ be_bytes n v ++ drop (o + length (be_bytes n v)) b)) as Hw
    by (apply write_bytes_eq; rewrite length_be_bytes; lia).
  split; [by apply length_written in Hw|]. pose proof (card_get_inside _ _ _ _ 0 (Z.of_nat n) Hw) as I.
  rewrite Z.add_0_r in I. rewrite I by (rewrite ?length_be_bytes; lia). rewrite <- (app_nil_r (be_bytes n v)). apply card_get_here.
Qed.

(** ** Fields of words *)

(** A field of [k] bits at [s]. *)
Lemma land_field x k s : 0 <= k -> 0 <= s -> Z.shiftr (Z.land x (Z.shiftl (Z.ones k) s)) s = (x / 2 ^ s) `mod` 2 ^ k.
Proof.
  intros Hk Hs. rewrite Z.shiftr_land, Z.shiftr_shiftl_l, Z.sub_diag, Z.shiftl_0_r by lia. by rewrite Z.land_ones, Z.shiftr_div_pow2.
Qed.

Lemma shift_disjoint a b s : 0 <= s -> 0 <= b < 2 ^ s -> Z.land (Z.shiftl a s) b = 0.
Proof.
  intros Hs Hb. apply Z.bits_inj'. intros i Hi. rewrite Z.land_spec, Z.bits_0.
  destruct (Z.ltb_spec i s) as [Hl|Hl]; [by rewrite Z.shiftl_spec_low|].
  rewrite <- (Z.mod_small b (2 ^ s)) by done. by rewrite Z.mod_pow2_bits_high, andb_false_r by lia.
Qed.

(** Fields put together. *)
Lemma lor_shift a b s : 0 <= s -> 0 <= b < 2 ^ s -> Z.lor (Z.shiftl a s) b = a * 2 ^ s + b.
Proof.
  intros Hs Hb. pose proof (shift_disjoint a b s Hs Hb) as Hd.
  rewrite <- Z.lxor_lor, <- Z.add_nocarry_lxor by done. by rewrite Z.shiftl_mul_pow2.
Qed.

Lemma lor_fields a b s : 0 <= s -> 0 <= b < 2 ^ s -> Z.lor (a * 2 ^ s) b = a * 2 ^ s + b.
Proof. intros. rewrite <- lor_shift, Z.shiftl_mul_pow2 by done. done. Qed.

Lemma land_small b d s : 0 <= s -> 0 <= b < 2 ^ s -> 0 <= Z.land b d < 2 ^ s.
Proof.
  intros Hs Hb. assert (Z.land b d = (Z.land b d) `mod` 2 ^ s) as ->; [|apply Z.mod_pos_bound; lia].
  rewrite <- Z.land_ones by done. rewrite <- Z.land_assoc, (Z.land_comm d), Z.land_assoc, Z.land_ones, Z.mod_small by done. done.
Qed.

(** A mask over two fields is a mask over each. *)
Lemma land_fields a b c d s : 0 <= s -> 0 <= b < 2 ^ s -> 0 <= d < 2 ^ s ->
  Z.land (a * 2 ^ s + b) (c * 2 ^ s + d) = Z.land a c * 2 ^ s + Z.land b d.
Proof.
  intros Hs Hb Hd. rewrite <- !lor_shift by (first [done|by apply land_small]).
  rewrite Z.land_lor_distr_l, !Z.land_lor_distr_r, Z.shiftl_land, (Z.land_comm b (Z.shiftl c s)), (shift_disjoint a d), (shift_disjoint c b) by done.
  by rewrite Z.lor_0_r, Z.lor_0_l.
Qed.

Lemma land_high x c s : 0 <= s -> Z.land x (c * 2 ^ s) = Z.land (x / 2 ^ s) c * 2 ^ s.
Proof.
  intros Hs. assert (0 < 2 ^ s) by lia. pose proof (Z.mod_pos_bound x (2 ^ s) ltac:(done)).
  replace x with (x / 2 ^ s * 2 ^ s + x `mod` 2 ^ s) at 1 by (pose proof (Z.div_mod x (2 ^ s)); lia).
  replace (c * 2 ^ s) with (c * 2 ^ s + 0) by lia. rewrite land_fields by lia. rewrite Z.land_0_r. lia.
Qed.

(** ** Structures of both sides *)

Lemma reverse_host_struct g : reverse (host_struct g) = card_struct (reverse g).
Proof.
  induction g as [|f g IH]; [done|]. unfold host_struct, card_struct in *. rewrite fmap_cons. cbn [concat].
  rewrite reverse_app, reverse_involutive, IH, reverse_cons, fmap_app. cbn [fmap list_fmap]. rewrite concat_app. cbn [concat]. by rewrite app_nil_r.
Qed.

Lemma length_host_struct g : length (host_struct g) = sum_list g.*1.
Proof.
  induction g as [|f g IH]; [done|]. unfold host_struct in *. rewrite !fmap_cons. cbn [concat sum_list].
  by rewrite length_app, length_reverse, length_be_bytes, IH.
Qed.

Definition words (gs : list fields) : Prop := Forall (fun g => sum_list g.*1 = 8%nat) gs.

(** The exchange of byte order turns the structure of one side into that of the other. *)
Lemma swap_host gs rest : words gs -> swap_buff (length gs) (host_bytes gs ++ rest) = card_bytes gs ++ rest.
Proof.
  induction 1 as [|g gs Hg _ IH]; [done|]. unfold host_bytes, card_bytes in *. rewrite !fmap_cons. cbn [concat length swap_buff].
  rewrite <- !app_assoc. rewrite take_app_le, take_ge, reverse_host_struct by (rewrite length_host_struct, Hg; done).
  rewrite drop_app_ge, length_host_struct, Hg, Nat.sub_diag, drop_0 by (rewrite length_host_struct, Hg; done). by rewrite IH.
Qed.

Lemma swap_card gs rest : words gs -> swap_buff (length gs) (card_bytes gs ++ rest) = host_bytes gs ++ rest.
Proof.
  induction 1 as [|g gs Hg _ IH]; [done|]. unfold host_bytes, card_bytes in *. rewrite !fmap_cons. cbn [concat length swap_buff].
  rewrite <- !app_assoc, <- !reverse_host_struct.
  rewrite take_app_le, take_ge, reverse_involutive by (rewrite length_reverse, length_host_struct, Hg; done).
  rewrite drop_app_ge, length_reverse, length_host_struct, Hg, Nat.sub_diag, drop_0 by (rewrite length_reverse, length_host_struct, Hg; done).
  by rewrite IH.
Qed.

Lemma length_host_bytes gs : words gs -> length (host_bytes gs) = (8 * length gs)%nat.
Proof.
  induction 1 as [|g gs Hg _ IH]; [done|]. unfold host_bytes in *. rewrite fmap_cons. cbn [concat length].
  rewrite length_app, IH, length_host_struct, Hg. lia.
Qed.

Lemma length_card_bytes gs : words gs -> length (card_bytes gs) = (8 * length gs)%nat.
Proof.
  induction 1 as [|g gs Hg _ IH]; [done|]. unfold card_bytes in *. rewrite fmap_cons. cbn [concat length].
  rewrite length_app, IH, <- reverse_host_struct, length_reverse, length_host_struct, Hg. lia.
Qed.
