(* ===== verification/FrcList.v ===== *)
(** * Doubly linked lists: src/code/include/frc_list.h

    The intrusive lists of the driver, on a heap of nodes.  A list is a ring
    through its head; [list_rep h head ns] says that the nodes after [head] are
    [ns], and every operation of the header is related to it. *)

From S2P Require Import Prelude.
#[local] Open Scope Z_scope.

Record frc_list_t : Type := FrcList { le_next : Z; le_prev : Z }.

(** The nodes in memory; an address outside it is [NULL] or dangling. *)
Abbreviation node_heap := (gmap Z frc_list_t).

(** [p->le_next = v], [p->le_prev = v] *)
Definition set_next (p v : Z) (h : node_heap) : option node_heap :=
  n ← h !! p; Some (<[p := FrcList v (le_prev n)]> h).
Definition set_prev (p v : Z) (h : node_heap) : option node_heap :=
  n ← h !! p; Some (<[p := FrcList (le_next n) v]> h).

Definition FRC_INIT_LIST_HEAD (ptr : Z) (h : node_heap) : option node_heap :=
  h ← set_next ptr ptr h; set_prev ptr ptr h.

Definition frc_list_add_head (node head : Z) (h : node_heap) : option node_heap :=
  hd ← h !! head;
  h ← set_prev (le_next hd) node h;
  hd ← h !! head;
  h ← set_next node (le_next hd) h;
  h ← set_next head node h;
  set_prev node head h.

Definition frc_list_add_tail (node head : Z) (h : node_heap) : option node_heap :=
  hd ← h !! head;
  h ← set_next (le_prev hd) node h;
  hd ← h !! head;
  h ← set_prev node (le_prev hd) h;
  h ← set_prev head node h;
  set_next node head h.

Definition frc_list_move (list1 list2 : Z) (h : node_heap) : option node_heap :=
  n2 ← h !! list2;
  h ← (if negb (le_next n2 =? list2) then
         h ← set_next list1 (le_next n2) h;
         n1 ← h !! list1;
         h ← set_prev (le_next n1) list1 h;
         n2 ← h !! list2;
         h ← set_prev list1 (le_prev n2) h;
         n1 ← h !! list1;
         set_next (le_prev n1) list1 h
       else Some h);
  h ← set_prev list2 list2 h;
  set_next list2 list2 h.

(** [None] inside the result is the [NULL] of an empty list. *)
Definition frc_list_get_head (root : Z) (h : node_heap) : option (option Z) :=
  n ← h !! root;
  Some (if (le_prev n =? root) && (le_next n =? root) then None else Some (le_next n)).

Definition frc_list_get_tail (root : Z) (h : node_heap) : option (option Z) :=
  n ← h !! root;
  Some (if (le_prev n =? root) && (le_next n =? root) then None else Some (le_prev n)).

Definition frc_list_del (node : Z) (h : node_heap) : option node_heap :=
  n ← h !! node;
  h ← set_prev (le_next n) (le_prev n) h;
  n ← h !! node;
  set_next (le_prev n) (le_next n) h.

Definition frc_list_delete_head (root : Z) (h : node_heap) : option (option Z * node_heap) :=
  node ← frc_list_get_head root h;
  match node with
  | Some node => h ← frc_list_del node h; Some (Some node, h)
  | None => Some (None, h)
  end.

(** [frc_list_for_each(tmp, head)]: the nodes visited, in order.  [None] is a
    node outside the heap or a walk longer than the fuel. *)
Fixpoint visit (fuel : nat) (tmp head : Z) (h : node_heap) : option (list Z) :=
  match fuel with
  | O => None
  | S fuel =>
    if tmp =? head then Some []
    else n ← h !! tmp; l ← visit fuel (le_next n) head h; Some (tmp :: l)
  end.
Definition frc_list_for_each (fuel : nat) (head : Z) (h : node_heap) : option (list Z) :=
  n ← h !! head; visit fuel (le_next n) head h.

(** ** What a heap means *)

(** The two pointers of a node. *)
Definition nx (h : node_heap) (p : Z) : option Z := le_next <$> h !! p.
Definition pv (h : node_heap) (p : Z) : option Z := le_prev <$> h !! p.

(** [p] and [q] are neighbours. *)
Definition link (h : node_heap) (p q : Z) : Prop := nx h p = Some q /\ pv h q = Some p.

(** From [p] through [ns] to [q]. *)
Fixpoint dseg (h : node_heap) (p : Z) (ns : list Z) (q : Z) : Prop :=
  match ns with
  | [] => link h p q
  | x :: ns => link h p x /\ dseg h x ns q
  end.

Definition list_rep (h : node_heap) (head : Z) (ns : list Z) : Prop :=
  NoDup (head :: ns) /\ dseg h head ns head.

Section links.
Implicit Types (h : node_heap) (p q x a b : Z) (ns : list Z).

Lemma lookup_ptr h p : is_Some (h !! p) -> exists n, h !! p = Some n /\ nx h p = Some (le_next n) /\ pv h p = Some (le_prev n).
Proof. intros [n E]. exists n. unfold nx, pv. by rewrite E. Qed.

Lemma nx_some h p v : nx h p = Some v -> exists n, h !! p = Some n /\ le_next n = v.
Proof. unfold nx. intros (n & -> & ?)%fmap_Some. eauto. Qed.
Lemma pv_some h p v : pv h p = Some v -> exists n, h !! p = Some n /\ le_prev n = v.
Proof. unfold pv. intros (n & -> & ?)%fmap_Some. eauto. Qed.

(** What the two stores change. *)
Lemma set_next_spec p v h : is_Some (h !! p) -> exists h', set_next p v h = Some h' /\
  (forall a, nx h' a = if decide (a = p) then Some v else nx h a) /\ (forall a, pv h' a = pv h a) /\
  dom h' = dom h.
Proof.
  intros [n E]. unfold set_next. rewrite E. cbn [mbind option_bind]. eexists; split; [done|].
  unfold nx, pv. split_and!; [intros a; rewrite lookup_insert; by repeat case_decide; subst; simplify_eq| |].
  - intros a. rewrite lookup_insert. case_decide; subst; [by rewrite E|done].
  - apply dom_insert_lookup_L. eauto.
Qed.

Lemma set_prev_spec p v h : is_Some (h !! p) -> exists h', set_prev p v h = Some h' /\
  (forall a, pv h' a = if decide (a = p) then Some v else pv h a) /\ (forall a, nx h' a = nx h a) /\
  dom h' = dom h.
Proof.
  intros [n E]. unfold set_prev. rewrite E. cbn [mbind option_bind]. eexists; split; [done|].
  unfold nx, pv. split_and!; [intros a; rewrite lookup_insert; by repeat case_decide; subst; simplify_eq| |].
  - intros a. rewrite lookup_insert. case_decide; subst; [by rewrite E|done].
  - apply dom_insert_lookup_L. eauto.
Qed.

Lemma dseg_app h p ns1 x ns2 q :
  dseg h p (ns1 ++ x :: ns2) q <-> dseg h p ns1 x /\ dseg h x ns2 q.
Proof. revert p. induction ns1 as [|y ns1 IH]; intros p; simpl; [done|]. rewrite IH. tauto. Qed.

(** A segment survives changes to the pointers that are not its own. *)
Lemma dseg_same h h' p ns q :
  (forall a, a ∈ p :: ns -> nx h' a = nx h a) -> (forall b, b ∈ ns ++ [q] -> pv h' b = pv h b) ->
  dseg h p ns q -> dseg h' p ns q.
Proof.
  revert p. induction ns as [|x ns IH]; intros p Hn Hp; unfold dseg; fold dseg; unfold link.
  - by rewrite Hn, Hp by (rewrite ?elem_of_app, ?elem_of_cons; auto).
  - intros [[H1 H2] H3]. rewrite Hn, Hp by (rewrite ?elem_of_app, ?elem_of_cons; auto). split; [done|].
    apply IH; [intros; apply Hn; by right|intros; apply Hp; by right|done].
Qed.

(** The last node before the end of a segment, and the first. *)
Lemma dseg_last h p ns q : dseg h p ns q -> link h (default p (last ns)) q.
Proof.
  revert p. induction ns as [|x ns IH]; intros p; simpl; [done|]. intros [_ Hd].
  apply IH in Hd. rewrite last_cons. by destruct (last ns).
Qed.
Lemma dseg_first h p ns q : dseg h p ns q -> link h p (default q (head ns)).
Proof. destruct ns; simpl; [done|by intros [? _]]. Qed.

Lemma dseg_alloc h p ns q : dseg h p ns q -> forall x, x ∈ p :: ns ++ [q] -> is_Some (h !! x).
Proof.
  revert p. induction ns as [|y ns IH]; intros p; simpl.
  - intros [(n & ? & _)%nx_some (m & ? & _)%pv_some] x [->|[->|[]%elem_of_nil]%elem_of_cons]%elem_of_cons; eauto.
  - intros [[(n & ? & _)%nx_some _] Hd] x [->|Hx]%elem_of_cons; [eauto|by apply (IH _ Hd)].
Qed.

Lemma list_rep_alloc h head ns x : list_rep h head ns -> x ∈ head :: ns -> is_Some (h !! x).
Proof. intros [_ Hd] Hx. apply (dseg_alloc _ _ _ _ Hd). rewrite app_comm_cons, elem_of_app. by left. Qed.
End links.

(** ** The operations on the represented list *)

Section operations.
Implicit Types (h : node_heap) (p q x a b head root node : Z) (ns : list Z).

(** One pointer store: name the new heap and what it changed. *)
#[local] Ltac store h' n p := match goal with
  | |- context [set_next ?q ?v ?h] =>
    let E := fresh "E" in let D := fresh "D" in
    assert (is_Some (h !! q)) as D; [|destruct (set_next_spec q v h D) as (h' & E & n & p & ?); rewrite E]
  | |- context [set_prev ?q ?v ?h] =>
    let E := fresh "E" in let D := fresh "D" in
    assert (is_Some (h !! q)) as D; [|destruct (set_prev_spec q v h D) as (h' & E & p & n & ?); rewrite E]
  end; cbn [mbind option_bind].

Lemma alloc_dom h h' a : dom h' = dom h -> is_Some (h !! a) -> is_Some (h' !! a).
Proof. intros E. rewrite <- !elem_of_dom, E. done. Qed.

Theorem init_head_spec ptr h : is_Some (h !! ptr) ->
  exists h', FRC_INIT_LIST_HEAD ptr h = Some h' /\ list_rep h' ptr [] /\ dom h' = dom h /\
    forall a, a <> ptr -> nx h' a = nx h a /\ pv h' a = pv h a.
Proof.
  intros D0. unfold FRC_INIT_LIST_HEAD. store h1 M1 P1; [done|]. store h2 M2 P2; [by eapply alloc_dom|].
  exists h2. split_and!; [done| |congruence|].
  - split; [apply NoDup_singleton|]. simpl. unfold link. rewrite M2, M1, P2. by rewrite !decide_True.
  - intros a Ha. by rewrite M2, M1, P2, P1, !decide_False.
Qed.

(** The two ends of a segment may be attached elsewhere. *)
Lemma dseg_end h h' p ns q q' : NoDup (p :: ns) -> dseg h p ns q ->
  (forall a, a ∈ p :: ns -> a <> default p (last ns) -> nx h' a = nx h a) ->
  (forall b, b ∈ ns -> pv h' b = pv h b) ->
  link h' (default p (last ns)) q' -> dseg h' p ns q'.
Proof.
  revert p. induction ns as [|x ns IH]; intros p Hd Hs Hn Hp Hl; [done|]. destruct Hs as [[H1 H2] Hs].
  assert (default p (last (x :: ns)) = default x (last ns)) as El by (rewrite last_cons; by destruct (last ns)).
  rewrite El in Hn, Hl. apply NoDup_cons in Hd as [Hd1 Hd2].
  assert (default x (last ns) ∈ x :: ns) as Hin.
  { destruct (last ns) as [y|] eqn:E; simpl; [|left]. right. apply last_Some in E as [? ->]. set_solver. }
  split; [split|apply IH; try done].
  - rewrite Hn; [done|left|]. intros ->. done.
  - rewrite Hp; [done|left].
  - intros a ? ?. apply Hn; [by right|done].
  - intros b ?. apply Hp. by right.
Qed.

Lemma dseg_begin h h' p p' ns q : NoDup (ns ++ [q]) -> dseg h p ns q ->
  (forall a, a ∈ ns -> nx h' a = nx h a) ->
  (forall b, b ∈ ns ++ [q] -> b <> default q (head ns) -> pv h' b = pv h b) ->
  link h' p' (default q (head ns)) -> dseg h' p' ns q.
Proof.
  destruct ns as [|x ns]; intros Hd Hs Hn Hp Hl; [done|]. destruct Hs as [_ Hs]. split; [done|].
  cbn [app] in Hd. apply NoDup_cons in Hd as [Hd _]. revert Hs. apply dseg_same; [done|].
  intros b Hb. apply Hp; [by right|]. simpl. intros ->. done.
Qed.

#[local] Ltac load n M P := match goal with
  | |- context [?h !! ?p] =>
    let E := fresh "E" in let D := fresh "D" in
    assert (is_Some (h !! p)) as D; [|destruct (lookup_ptr h p D) as (n & E & M & P); rewrite E]
  end; cbn [mbind option_bind].
#[local] Hint Resolve alloc_dom : core.

Lemma NoDup_ring head ns : NoDup (head :: ns) -> NoDup (ns ++ [head]).
Proof. intros. by rewrite <- Permutation_cons_append. Qed.

(** The distinctness facts of a represented list and a node outside it. *)
Lemma ring_facts head node ns : NoDup (head :: ns) -> node ∉ head :: ns ->
  node <> head /\ (forall a, a ∈ ns -> a <> head) /\ (forall a, a ∈ ns -> a <> node).
Proof.
  intros [Hd _]%NoDup_cons Hn. apply not_elem_of_cons in Hn as [Hn1 Hn2].
  split_and!; [done|by intros a ? ->|by intros a ? ->].
Qed.

Lemma elem_of_ring a head ns : a ∈ ns ++ [head] -> a = head \/ a ∈ ns.
Proof. intros [?|?%list_elem_of_singleton]%elem_of_app; auto. Qed.

Lemma first_in head ns : default head (list.head ns) = head \/ default head (list.head ns) ∈ ns.
Proof. destruct ns; simpl; [by left|right; left]. Qed.
Lemma last_in head ns : default head (last ns) = head \/ default head (last ns) ∈ ns.
Proof.
  destruct (last ns) as [y|] eqn:E; simpl; [|by left]. right. apply last_Some in E as [? ->].
  rewrite elem_of_app. right. left.
Qed.

(** A new node at the front. *)
Theorem add_head_spec node head h ns :
  list_rep h head ns -> is_Some (h !! node) -> node ∉ head :: ns ->
  exists h', frc_list_add_head node head h = Some h' /\ list_rep h' head (node :: ns) /\ dom h' = dom h /\
    forall a, a ∉ node :: head :: ns -> nx h' a = nx h a /\ pv h' a = pv h a.
Proof.
  intros R Dn Hnew. pose proof (fun a => list_rep_alloc h head ns a R) as Al. destruct R as [Hd Hs].
  destruct (ring_facts _ _ _ Hd Hnew) as (Hnh & Hh & Hn).
  assert (is_Some (h !! head)) as Dh by (apply Al; left). set (f := default head (list.head ns)).
  assert (f = head \/ f ∈ ns) as Hf by apply first_in.
  assert (is_Some (h !! f)) as Df by (destruct Hf as [->|]; [done|apply Al; by right]).
  assert (f <> node) as Nf by (destruct Hf as [->|]; auto).
  pose proof (dseg_first _ _ _ _ Hs) as [Hf1 Hf2]. fold f in Hf1, Hf2.
  unfold frc_list_add_head. load n0 M0 P0; [done|]. rewrite Hf1 in M0. injection M0 as <-.
  store h1 M1 P1; [done|]. load n1 M1' P1'; [eauto|]. rewrite M1, Hf1 in M1'. injection M1' as <-.
  store h2 M2 P2; [eauto|]. store h3 M3 P3; [eauto|]. store h4 M4 P4; [eauto|].
  exists h4. split_and!; [done| |congruence|].
  - split.
    { apply NoDup_cons in Hd as [? ?]. apply not_elem_of_cons in Hnew as [? ?].
      rewrite !NoDup_cons, not_elem_of_cons. auto. }
    split; [split; [by rewrite M4, M3, decide_True|by rewrite P4, decide_True]|].
    apply (dseg_begin h _ head); [by apply NoDup_ring|done| | |].
    + intros a Ha. by rewrite M4, M3, M2, M1, !decide_False by auto.
    + intros b Hb Hne. rewrite P4, P3, P2, P1, !decide_False; [done|done|].
      apply elem_of_ring in Hb as [->|]; auto.
    + split; [by rewrite M4, M3, M2, decide_False, decide_True|by rewrite P4, P3, P2, P1, decide_False, decide_True].
  - intros a Ha. rewrite !not_elem_of_cons in Ha. destruct Ha as (? & ? & ?).
    rewrite M4, M3, M2, M1, P4, P3, P2, P1, !decide_False; try done. destruct Hf as [->|]; [done|]. by intros ->.
Qed.

(** A new node at the back. *)
Theorem add_tail_spec node head h ns :
  list_rep h head ns -> is_Some (h !! node) -> node ∉ head :: ns ->
  exists h', frc_list_add_tail node head h = Some h' /\ list_rep h' head (ns ++ [node]) /\ dom h' = dom h /\
    forall a, a ∉ node :: head :: ns -> nx h' a = nx h a /\ pv h' a = pv h a.
Proof.
  intros R Dn Hnew. pose proof (fun a => list_rep_alloc h head ns a R) as Al. destruct R as [Hd Hs].
  destruct (ring_facts _ _ _ Hd Hnew) as (Hnh & Hh & Hn).
  assert (is_Some (h !! head)) as Dh by (apply Al; left). set (l := default head (last ns)).
  assert (l = head \/ l ∈ ns) as Hl by apply last_in.
  assert (is_Some (h !! l)) as Dl by (destruct Hl as [->|]; [done|apply Al; by right]).
  assert (l <> node) as Nl by (destruct Hl as [->|]; auto).
  pose proof (dseg_last _ _ _ _ Hs) as [Hl1 Hl2]. fold l in Hl1, Hl2.
  unfold frc_list_add_tail. load n0 M0 P0; [done|]. rewrite Hl2 in P0. injection P0 as <-.
  store h1 M1 P1; [done|]. load n1 M1' P1'; [eauto|]. rewrite P1, Hl2 in P1'. injection P1' as <-.
  store h2 M2 P2; [eauto|]. store h3 M3 P3; [eauto|]. store h4 M4 P4; [eauto|].
  exists h4. split_and!; [done| |congruence|].
  - split.
    { rewrite app_comm_cons, <- Permutation_cons_append. by apply NoDup_cons. }
    apply dseg_app. split; [|split; [by rewrite M4, decide_True|by rewrite P4, P3, decide_True]].
    apply (dseg_end h _ head ns head); [done|done| | |].
    + intros a Ha Hne. rewrite M4, M3, M2, M1, !decide_False; [done|done|].
      apply elem_of_cons in Ha as [->|]; auto.
    + intros b Hb. by rewrite P4, P3, P2, P1, !decide_False by auto.
    + split; [by rewrite M4, M3, M2, M1, decide_False, decide_True|by rewrite P4, P3, P2, decide_False, decide_True].
  - intros a Ha. rewrite !not_elem_of_cons in Ha. destruct Ha as (? & ? & ?).
    rewrite M4, M3, M2, M1, P4, P3, P2, P1, !decide_False; try done. destruct Hl as [->|]; [done|]. by intros ->.
Qed.

(** Unlinking any node of the list. *)
Theorem list_del_spec x head h ns1 ns2 :
  list_rep h head (ns1 ++ x :: ns2) ->
  exists h', frc_list_del x h = Some h' /\ list_rep h' head (ns1 ++ ns2) /\ dom h' = dom h /\
    forall a, a ∉ head :: ns1 ++ ns2 -> nx h' a = nx h a /\ pv h' a = pv h a.
Proof.
  intros R. pose proof (fun a => list_rep_alloc h head _ a R) as Al. destruct R as [Hd Hs].
  apply dseg_app in Hs as [Hs1 Hs2]. set (p := default head (last ns1)). set (s := default head (list.head ns2)).
  pose proof (dseg_last _ _ _ _ Hs1) as [Hp1 Hp2]. pose proof (dseg_first _ _ _ _ Hs2) as [Hn1 Hn2].
  fold p in Hp1, Hp2. fold s in Hn1, Hn2.
  assert (p = head \/ p ∈ ns1) as Hp by apply last_in. assert (s = head \/ s ∈ ns2) as Hs' by apply first_in.
  assert (head :: ns1 ++ x :: ns2 ≡ₚ x :: head :: ns1 ++ ns2) as Ep
    by (rewrite <- Permutation_middle; apply perm_swap).
  rewrite Ep in Hd. apply NoDup_cons in Hd as [Hx Hd']. apply not_elem_of_cons in Hx as [Hxh Hx].
  apply not_elem_of_app in Hx as [Hx1 Hx2].
  assert (NoDup (head :: ns1)) as Hd1.
  { rewrite app_comm_cons in Hd'. by apply NoDup_app in Hd' as [? _]. }
  assert (forall a, a ∈ head :: ns1 -> a ∉ ns2) as Hd12.
  { rewrite app_comm_cons in Hd'. by apply NoDup_app in Hd' as (_ & ? & _). }
  assert (p <> x) as Hpx by (by destruct Hp as [->|]; [|intros ->]).
  assert (s <> x) as Hsx by (by destruct Hs' as [->|]; [|intros ->]).
  assert (is_Some (h !! x)) as Dx by (apply Al; rewrite Ep; left).
  assert (is_Some (h !! p)) as Dp by (destruct Hp as [->|]; apply Al; [left|right; rewrite elem_of_app; by left]).
  assert (is_Some (h !! s)) as Ds
    by (destruct Hs' as [->|]; apply Al; [left|right; rewrite elem_of_app; right; by right]).
  unfold frc_list_del. load n0 M0 P0; [done|]. rewrite Hp2 in P0. injection P0 as <-.
  rewrite Hn1 in M0. injection M0 as <-.
  store h1 M1 P1; [done|]. load n1 M1' P1'; [eauto|]. rewrite M1, Hn1 in M1'. injection M1' as <-.
  rewrite P1, decide_False, Hp2 in P1' by done. injection P1' as <-.
  store h2 M2 P2; [eauto|].
  assert (link h2 p s) as Hl by (split; [by rewrite M2, decide_True|by rewrite P2, P1, decide_True]).
  exists h2. split_and!; [done|split; [done|]|congruence|].
  - assert (dseg h2 head ns1 s) as S1.
    { apply (dseg_end h _ head ns1 x); [done|done| | |done].
      - intros a _ Hne. by rewrite M2, M1, decide_False.
      - intros b Hb. rewrite P2, P1, decide_False; [done|]. intros ->. destruct Hs' as [Hs'|Hs'].
        + rewrite Hs' in Hb. by apply NoDup_cons in Hd1 as [? _].
        + apply (Hd12 s); [by right|done]. }
    subst s. destruct ns2 as [|y ns2]; [by rewrite app_nil_r|]. apply dseg_app. split; [done|].
    destruct Hs2 as [_ Hs2]. revert Hs2. apply dseg_same.
    + intros a Ha. rewrite M2, M1, decide_False; [done|]. intros ->. destruct Hp as [Hp|Hp].
      * rewrite Hp in Ha. apply (Hd12 head); [left|done].
      * apply (Hd12 p); [by right|done].
    + intros b Hb. rewrite P2, P1, decide_False; [done|]. simpl. intros ->.
      apply elem_of_ring in Hb as [->|Hb].
      * apply (Hd12 head); left.
      * rewrite app_comm_cons in Hd'. apply NoDup_app in Hd' as (_ & _ & Hd'). by apply NoDup_cons in Hd' as [? _].
  - intros a Ha. rewrite not_elem_of_cons, not_elem_of_app in Ha. destruct Ha as (? & ? & ?).
    rewrite M2, M1, P2, P1, !decide_False; [done| |].
    + by destruct Hs' as [->|]; [|intros ->].
    + by destruct Hp as [->|]; [|intros ->].
Qed.

(** The two ends, and taking the first node off. *)
Theorem get_head_spec head h ns : list_rep h head ns -> frc_list_get_head head h = Some (list.head ns).
Proof.
  intros R. pose proof (list_rep_alloc _ _ _ head R ltac:(left)) as D. destruct R as [Hd Hs].
  unfold frc_list_get_head. load n M P; [done|]. pose proof (dseg_first _ _ _ _ Hs) as [Hf _].
  rewrite Hf in M. injection M as <-. f_equal.
  pose proof (dseg_last _ _ _ _ Hs) as [_ Hl]. rewrite Hl in P. injection P as <-.
  destruct ns as [|x ns]; simpl; [by rewrite !Z.eqb_refl|].
  apply NoDup_cons in Hd as [Hd _]. apply not_elem_of_cons in Hd as [Hd _].
  by rewrite (proj2 (Z.eqb_neq x head)), andb_false_r.
Qed.

Theorem get_tail_spec head h ns : list_rep h head ns -> frc_list_get_tail head h = Some (last ns).
Proof.
  intros R. pose proof (list_rep_alloc _ _ _ head R ltac:(left)) as D. destruct R as [Hd Hs].
  unfold frc_list_get_tail. load n M P; [done|]. pose proof (dseg_first _ _ _ _ Hs) as [Hf _].
  rewrite Hf in M. injection M as <-. f_equal.
  pose proof (dseg_last _ _ _ _ Hs) as [_ Hl]. rewrite Hl in P. injection P as <-.
  destruct ns as [|x ns]; simpl; [by rewrite !Z.eqb_refl|].
  apply NoDup_cons in Hd as [Hd _]. apply not_elem_of_cons in Hd as [Hd _].
  rewrite (proj2 (Z.eqb_neq x head)), andb_false_r by done. rewrite last_cons. by destruct (last ns).
Qed.

Theorem delete_head_spec head h ns : list_rep h head ns ->
  exists h', frc_list_delete_head head h = Some (list.head ns, h') /\ list_rep h' head (tail ns) /\ dom h' = dom h.
Proof.
  intros R. unfold frc_list_delete_head. rewrite (get_head_spec _ _ _ R). cbn [mbind option_bind].
  destruct ns as [|x ns]; simpl; [by exists h|].
  destruct (list_del_spec x head h [] ns R) as (h' & -> & R' & Dm & _). by exists h'.
Qed.

(** The walk visits the nodes in order, and nothing else. *)
Lemma visit_spec h p ns q fuel : dseg h p ns q -> q ∉ ns -> (length ns < fuel)%nat ->
  (n ← h !! p; visit fuel (le_next n) q h) = Some ns.
Proof.
  revert p fuel. induction ns as [|x ns IH]; intros p fuel Hs Hq Hf; destruct fuel as [|fuel]; [simpl in Hf; lia..| |simpl in Hf; lia|].
  - destruct Hs as [(n & -> & <-)%nx_some _]. simpl. by rewrite Z.eqb_refl.
  - destruct Hs as [[(n & -> & <-)%nx_some _] Hs]. apply not_elem_of_cons in Hq as [Hq1 Hq2].
    cbn [mbind option_bind visit]. rewrite (proj2 (Z.eqb_neq _ _)) by done.
    specialize (IH (le_next n) fuel Hs Hq2 ltac:(simpl in Hf; lia)).
    destruct (h !! le_next n) as [m|]; [|done]. cbn [mbind option_bind] in IH |- *. by rewrite IH.
Qed.

Theorem for_each_spec head h ns fuel : list_rep h head ns -> (length ns < fuel)%nat ->
  frc_list_for_each fuel head h = Some ns.
Proof. intros [[? _]%NoDup_cons Hs] Hf. by apply visit_spec. Qed.

(** All nodes move to the empty list [list1]. *)
Theorem list_move_spec list1 list2 h ns : list_rep h list2 ns -> is_Some (h !! list1) -> list1 ∉ list2 :: ns ->
  exists h', frc_list_move list1 list2 h = Some h' /\ list_rep h' list2 [] /\ dom h' = dom h /\
    (ns <> [] -> list_rep h' list1 ns).
Proof.
  intros R D1 Hnew. pose proof (fun a => list_rep_alloc h list2 ns a R) as Al. destruct R as [Hd Hs].
  destruct (ring_facts _ _ _ Hd Hnew) as (H12 & Hh & Hn).
  assert (is_Some (h !! list2)) as D2 by (apply Al; left).
  pose proof (dseg_first _ _ _ _ Hs) as [Hf1 Hf2]. pose proof (dseg_last _ _ _ _ Hs) as [Hl1 Hl2].
  unfold frc_list_move. load n2 M P; [done|]. rewrite Hf1 in M. injection M as <-.
  destruct ns as [|x ns]; simpl in Hf1, Hf2.
  { simpl. rewrite Z.eqb_refl. simpl. store h1 M1 P1; [done|]. store h2 M2 P2; [eauto|].
    exists h2. split_and!; [done| |congruence|done]. split; [done|]. simpl. unfold link.
    by rewrite M2, P2, P1, !decide_True. }
  assert (x <> list2) as Hx by (apply Hh; left). assert (x <> list1) as Hx1 by (apply Hn; left).
  cbn [default list.head]. rewrite (proj2 (Z.eqb_neq _ _)) by done. cbn [negb].
  set (l := default list2 (last (x :: ns))).
  assert (default x (last ns) = l) as El by (subst l; rewrite last_cons; by destruct (last ns)).
  assert (l ∈ x :: ns) as Hl by (rewrite <- El; destruct (last_in x ns) as [->|]; [left|by right]).
  fold l in Hl1, Hl2.
  store h1 M1 P1; [done|]. load n1 M1' P1'; [eauto|]. rewrite M1, decide_True in M1' by done. injection M1' as <-.
  assert (is_Some (h !! x)) as Dx by (apply Al; right; left). assert (is_Some (h !! l)) as Dl by (apply Al; by right).
  store h2 M2 P2; [eauto|]. load n3 M3' P3'; [eauto|].
  rewrite P2, P1, decide_False, Hl2 in P3' by done. injection P3' as <-.
  store h3 M3 P3; [eauto|]. load n4 M4' P4'; [eauto|].
  rewrite P3, decide_True in P4' by done. injection P4' as <-.
  store h4 M4 P4; [eauto|]. store h5 M5 P5; [eauto|]. store h6 M6 P6; [eauto 10|].
  exists h6. split_and!; [done| |congruence|intros _; split].
  - split; [apply NoDup_singleton|]. simpl. unfold link. by rewrite M6, P6, P5, !decide_True.
  - apply NoDup_cons in Hd as [? ?]. apply not_elem_of_cons in Hnew as [? ?]. by apply NoDup_cons.
  - destruct Hs as [Hs0 Hs]. split.
    + split.
      * rewrite M6, decide_False, M5, M4 by done. rewrite decide_False by (intros ->; by apply (Hn l)).
        by rewrite M3, M2, M1, decide_True.
      * by rewrite P6, P5, decide_False, P4, P3, decide_False, P2, decide_True.
    + apply NoDup_cons in Hd as [Hd0 Hd]. apply (dseg_end h _ x ns list2); [done|done| | |].
      * rewrite El. intros a Ha Hne. rewrite M6, decide_False, M5, M4, decide_False, M3, M2, M1, decide_False; auto.
      * intros b Hb. apply NoDup_cons in Hd as [Hd _].
        rewrite P6, P5, decide_False, P4, P3, decide_False, P2, decide_False, P1; [done| | |].
        -- by intros ->.
        -- apply Hn. by right.
        -- apply Hh. by right.
      * rewrite El. split.
        -- rewrite M6, decide_False, M5, M4, decide_True; auto.
        -- by rewrite P6, P5, decide_False, P4, P3, decide_True.
Qed.
End operations.
