(* ===== verification/Cmd.v ===== *)
(** * Commands between host and card: src/code/frcore/frcore_cmd.c,
    src/code/frcdrv/frcdrv_cmd.c, the dispatch of src/code/frcdrv/frcdrv_dev.c and
    [frcapi_ioctl] of src/code/frcapi/frc_api.c

    A command is a header and parameters in one packet to the card; the card finds
    its handler in a table of registered handlers and sends an answer, which the
    driver gives to the request with the same sequence number. *)

From S2P Require Import Prelude Bytes FrcList.
#[local] Open Scope Z_scope.

(** ** Constants of frc_cmd.h, frcore_ctrl.h and frc_types.h *)
Definition CMD_TYPE_RESV : Z := 0.
Definition CMD_TYPE_TEST : Z := 1.
Definition CMD_TYPE_CTRL : Z := 2.
Definition CMD_TYPE_USER : Z := 3.
Definition CMD_TYPE_DRV : Z := 4.
Definition CMD_TYPE_MAX : Z := 5.
Definition TEST_CMD_MAX : Z := 6.
Definition CTRL_CMD_MAX : Z := 6.
Definition FRC_CORE_CMD_ARG_MAX : Z := 512.
Definition FRCORE_CMD_INPUT_MAX : Z := 64.
Definition FRC_CMD_RESPOND_DATA_SZ : Z := 1024.
Definition FRCDRV_CORE_REQ_TIMEOUT : Z := 300.
Definition FRE_IOCTL : Z := 9.
Definition FRE_OPEN : Z := 10.
Definition FRE_TIMEOUT : Z := 13.

(** ** The two headers, one 64-bit word each

    [frcore_cmd_t] and the first word of [frc_cmd_respond_t]: the declarations for the
    two byte orders name the same bits of the word. *)
Record frcore_cmd_t : Type := FrcoreCmd { c_type : Z; c_cmd : Z; c_len : Z; c_seq : Z }.

Definition cmd_word (c : frcore_cmd_t) : Z :=
  (c_cmd c `mod` 2 ^ 12) * 2 ^ 52 + (c_type c `mod` 2 ^ 4) * 2 ^ 48 + (c_len c `mod` 2 ^ 16) * 2 ^ 32 + c_seq c `mod` 2 ^ 32.
Definition cmd_of_word (w : Z) : frcore_cmd_t :=
  FrcoreCmd ((w / 2 ^ 48) `mod` 2 ^ 4) ((w / 2 ^ 52) `mod` 2 ^ 12) ((w / 2 ^ 32) `mod` 2 ^ 16) (w `mod` 2 ^ 32).

Record frc_cmd_respond_t : Type := FrcCmdRespond { r_ret : Z; r_len : Z; r_seq : Z; r_data : list Z }.

Definition respond_word (r : frc_cmd_respond_t) : Z :=
  (r_seq r `mod` 2 ^ 32) * 2 ^ 32 + (r_len r `mod` 2 ^ 16) * 2 ^ 16 + r_ret r `mod` 2 ^ 16.
Definition respond_of (bs : list Z) : frc_cmd_respond_t :=
  let w := le_field bs 0 8 in
  FrcCmdRespond (w `mod` 2 ^ 16) ((w / 2 ^ 16) `mod` 2 ^ 16) (w / 2 ^ 32) (drop 8 bs).

(** The answer in the card's memory. *)
Definition respond_bytes (r : frc_cmd_respond_t) : list Z := be_bytes 8 (respond_word r) ++ r_data r.

(** ** The card: frcore_cmd.c *)
Section card.
Context {S : Type}.   (* the state of the card's components *)
Variable USER_CMD_MAX : Z.   (* depends on the configuration *)

(** [frcore_cmd_fn_t]: length and bytes of the parameters ([None] is [NULL]), the output
    buffer; the result is the code, [*olen] (0 before the call) and the buffer. *)
Definition frcore_cmd_fn_t : Type :=
  Z -> option (list Z) -> list Z -> S -> option (Z * Z * list Z * S).

(** [frcore_cmd_set_t]: 16 bytes, [max] and [num] first.  [None] is memory nobody wrote. *)
Record frcore_cmd_set_t : Type := FrcoreCmdSet {
  set_max : option Z; set_num : option Z; vector : option (list (option frcore_cmd_fn_t)) }.

(** [frcore_cmdset], [frcore_cmd_respond_buf] ([NULL] or not) and the components. *)
Record card : Type := Card {
  frcore_cmdset : list frcore_cmd_set_t; respond_buf : bool; components : S }.

(** A set with an allocated, cleared vector. *)
Definition empty_set (max : Z) : frcore_cmd_set_t :=
  FrcoreCmdSet (Some max) (Some 0) (Some (replicate (Z.to_nat max) None)).

(** [cvmx_bootmem_alloc] may fail ([oks]) and does not clear.  [memset] clears
    [sizeof(sizeof(frcore_cmd_set_t) * CMD_TYPE_MAX)] bytes, the size of a [size_t]:
    [max] and [num] of the first set. *)
Definition frcore_cmd_init (oks : nat -> bool) (st : card) : Z * card :=
  let fresh := FrcoreCmdSet None None None in
  if negb (oks 0%nat) then (FRE_FAIL, Card [] false (components st)) else
  let sets := <[0%nat := FrcoreCmdSet (Some 0) (Some 0) None]> (replicate 5 fresh) in
  if negb (oks 1%nat) then (FRE_FAIL, Card sets false (components st)) else
  let sets := <[1%nat := empty_set TEST_CMD_MAX]> sets in
  if negb (oks 2%nat) then (FRE_FAIL, Card sets false (components st)) else
  let sets := <[2%nat := empty_set CTRL_CMD_MAX]> sets in
  if negb (oks 3%nat) then (FRE_FAIL, Card sets false (components st)) else
  let sets := <[3%nat := empty_set USER_CMD_MAX]> sets in
  if negb (oks 4%nat) then (FRE_FAIL, Card sets false (components st))
  else (FRE_SUCCESS, Card sets true (components st)).

Definition frcore_cmd_register (type cmd : Z) (fn : frcore_cmd_fn_t) (st : card) : option (Z * card) :=
  if type >=? CMD_TYPE_MAX then Some (FRE_UNSUPPORT, st) else
  cmd_set ← arr_get (frcore_cmdset st) type;
  max ← set_max cmd_set;
  if cmd >=? max then Some (FRE_UNSUPPORT, st) else
  v ← vector cmd_set;
  cb ← arr_get v cmd;
  match cb with
  | Some _ => Some (FRE_EXIST, st)
  | None =>
    v ← arr_set v cmd (Some fn);
    num ← set_num cmd_set;
    sets ← arr_set (frcore_cmdset st) type (FrcoreCmdSet (Some max) (Some (u32 (num + 1))) (Some v));
    Some (FRE_SUCCESS, Card sets (respond_buf st) (components st))
  end.

(** A sequence of [FRCORE_REGISTER_CMD] of user commands: the first failure ends it. *)
Fixpoint register_all (l : list (Z * frcore_cmd_fn_t)) (st : card) : option (Z * card) :=
  match l with
  | [] => Some (0, st)
  | (cmd, f) :: l =>
    '(rv, st) ← frcore_cmd_register CMD_TYPE_USER cmd f st;
    if negb (rv =? 0) then Some (rv, st) else register_all l st
  end.

(** The handler of a command, or the code for it: the lookup of [frcore_process_frc_cmd]. *)
Definition find_handler (cmd : frcore_cmd_t) (st : card) : option (Z + frcore_cmd_fn_t) :=
  if c_type cmd >=? CMD_TYPE_MAX then Some (inl FRE_UNSUPPORT) else
  cmd_set ← arr_get (frcore_cmdset st) (c_type cmd);
  max ← set_max cmd_set;
  if c_cmd cmd >=? max then Some (inl FRE_UNSUPPORT) else
  v ← vector cmd_set;
  cb ← arr_get v (c_cmd cmd);
  Some (match cb with Some fn => inr fn | None => inl FRE_UNREGISTER end).

(** [packet] is what follows the raw front of the work entry.  The result is the answer
    put on the wire, if any. *)
Definition frcore_process_frc_cmd (pko_ready : bool) (packet : list Z) (st : card)
    : option (option (list Z) * card) :=
  if negb pko_ready then Some (None, st) else
  if negb (respond_buf st) then Some (None, st) else
  let data := replicate (Z.to_nat FRC_CMD_RESPOND_DATA_SZ) 0 in
  hd ← read_bytes packet 0 8;
  let cmd := cmd_of_word (le_value (reverse hd)) in
  let param := if c_len cmd =? 0 then None else Some (drop 8 packet) in
  h ← find_handler cmd st;
  '(retval, olen, data, s) ← match h with
    | inr fn => fn (c_len cmd) param data (components st)
    | inl rv => Some (rv, 0, data, components st)
    end;
  Some (Some (respond_bytes (FrcCmdRespond retval olen (c_seq cmd) data)),
        Card (frcore_cmdset st) (respond_buf st) s).
End card.
Arguments frcore_cmd_fn_t : clear implicits.
Arguments card : clear implicits.

(** ** The driver: frcdrv_cmd.c *)
Section driver.
(** [octeon_swap_8B_data] of the SDK, and the address of [frcdrv_core_req_head]. *)
Variable octeon_swap_8B_data : nat -> list Z -> list Z.
Variable frcdrv_core_req_head : Z.

Definition CORE_REQ_WAITING : Z := 0.
Definition CORE_REQ_RESPOND : Z := 1.

(** [frcdrv_core_req_t] without its node, which is in the heap of nodes under the same
    address. *)
Record frcdrv_core_req_t : Type := CoreReq { q_seq : Z; q_state : Z; q_respond : frc_cmd_respond_t }.

Record driver : Type := Driver {
  nodes : node_heap; reqs : gmap Z frcdrv_core_req_t; frcdrv_core_requset_seq : Z }.

Definition zero_respond : frc_cmd_respond_t :=
  FrcCmdRespond 0 0 0 (replicate (Z.to_nat FRC_CMD_RESPOND_DATA_SZ) 0).

(** [frcdrv_malloc] and [memset] of a request, and [frcdrv_free]. *)
Definition core_req_malloc (p : Z) (d : driver) : driver :=
  Driver (<[p := FrcList 0 0]> (nodes d)) (<[p := CoreReq 0 0 zero_respond]> (reqs d)) (frcdrv_core_requset_seq d).
Definition core_req_free (p : Z) (d : driver) : driver :=
  Driver (delete p (nodes d)) (delete p (reqs d)) (frcdrv_core_requset_seq d).

Definition frcdrv_core_req_add (p : Z) (d : driver) : option driver :=
  h ← frc_list_add_tail p frcdrv_core_req_head (nodes d);
  let seq := u32 (frcdrv_core_requset_seq d + 1) in
  r ← reqs d !! p;
  Some (Driver h (<[p := CoreReq seq CORE_REQ_WAITING (q_respond r)]> (reqs d)) seq).

Definition frcdrv_core_req_remove (p : Z) (d : driver) : option driver :=
  h ← frc_list_del p (nodes d); Some (Driver h (reqs d) (frcdrv_core_requset_seq d)).

(** One request of the walk; [timeout] is cleared by a match. *)
Definition respond_one (respond : frc_cmd_respond_t) (s : Z * gmap Z frcdrv_core_req_t) (p : Z)
    : option (Z * gmap Z frcdrv_core_req_t) :=
  r ← s.2 !! p;
  Some (if q_seq r =? r_seq respond then (0, <[p := CoreReq (q_seq r) CORE_REQ_RESPOND respond]> s.2) else s).

Definition frcdrv_core_req_respond (respond : frc_cmd_respond_t) (d : driver) : option (Z * driver) :=
  ps ← frc_list_for_each (S (size (nodes d))) frcdrv_core_req_head (nodes d);
  '(timeout, rs) ← foldM (respond_one respond) ps (1, reqs d);
  Some (timeout, Driver (nodes d) rs (frcdrv_core_requset_seq d)).

(** The buffers of a received packet, whole ones only, up to the size of the structure. *)
Definition RESPOND_SIZE : Z := 8 + FRC_CMD_RESPOND_DATA_SZ.
Fixpoint copy_buffers (sum : Z) (bufs : list (list Z)) : list Z :=
  match bufs with
  | [] => []
  | b :: bufs =>
    let size := Z.of_nat (length b) in
    if sum + size <=? RESPOND_SIZE then b ++ copy_buffers (sum + size) bufs else []
  end.

Definition received (bufs : list (list Z)) : frc_cmd_respond_t :=
  let got := copy_buffers 0 bufs in
  respond_of (octeon_swap_8B_data 1 (got ++ replicate (Z.to_nat RESPOND_SIZE - length got) 0)).

Definition frcdrv_core_respond_dispatch (bufs : list (list Z)) (d : driver) : option (Z * driver) :=
  frcdrv_core_req_respond (received bufs) d.

(** [frcdrv_alloc_cmd_si]: the [dlengsz] bytes at [dptr]. *)
Definition frcdrv_alloc_cmd_si (cmd : frcore_cmd_t) (param : option (list Z)) : option (list Z) :=
  let len := c_len cmd `mod` 2 ^ 16 in
  let hd := octeon_swap_8B_data 1 (reverse (be_bytes 8 (cmd_word cmd))) in
  p ← match param with
      | Some input => if len =? 0 then Some [] else
          bs ← read_bytes input 0 len; Some (octeon_swap_8B_data (Z.to_nat (Z.shiftr len 3)) bs)
      | None => Some (replicate (Z.to_nat len) 0)
      end;
  Some (hd ++ p).

(** The arguments of [frcdrv_core_cmd]; [k_olen] is [*olen] or [NULL]. *)
Record call : Type := Call {
  k_type : Z; k_cmd : Z; k_ilen : Z; k_input : option (list Z); k_olen : option Z; k_output : bool }.

(** What it returns: the code, and [*olen] with the bytes of [output] when it sets them. *)
Definition result : Type := Z * option (Z * list Z).

Definition req_cmd (c : call) (seq : Z) : frcore_cmd_t := FrcoreCmd (k_type c) (k_cmd c) (k_ilen c) seq.

(** [frcdrv_core_cmd_error]: [core_req] is taken off the list and freed. *)
Definition core_cmd_error (p : Z) (d : driver) : option driver :=
  d ← frcdrv_core_req_remove p d; Some (core_req_free p d).

(** [frcdrv_core_cmd] up to the packet.  [core_req] is what the first allocation gives,
    [cpkt_ok] and [sent] say whether the second allocation and [frcdrv_send_cmd_pkt]
    succeed.  The result is a return code, or the packet on its way. *)
Definition frcdrv_core_cmd_start (c : call) (core_req : option Z) (cpkt_ok sent : bool) (d : driver)
    : option ((Z + list Z) * driver) :=
  if k_ilen c >? FRC_CORE_CMD_ARG_MAX then Some (inl FRE_PARAM, d) else
  if k_ilen c >? FRCORE_CMD_INPUT_MAX then Some (inl FRE_PARAM, d) else
  match core_req with
  | None => Some (inl FRE_MEMORY, d)
  | Some p =>
    let d := core_req_malloc p d in
    if negb cpkt_ok then d ← core_cmd_error p d; Some (inl FRE_MEMORY, d) else
    d ← frcdrv_core_req_add p d;
    r ← reqs d !! p;
    packet ← frcdrv_alloc_cmd_si (req_cmd c (q_seq r)) (k_input c);
    if sent then Some (inr packet, d)
    else d ← core_cmd_error p d; Some (inl FRE_FAIL, d)
  end.

(** The code for an answer that has arrived. *)
Definition core_cmd_answer (c : call) (respond : frc_cmd_respond_t) : option result :=
  if default 0 (k_olen c) <? r_len respond then Some (FRE_EXCEED, None) else
  match k_olen c with
  | Some _ =>
    if (r_ret respond =? FRE_SUCCESS) && k_output c then
      data ← read_bytes (r_data respond) 0 (r_len respond);
      Some (r_ret respond, Some (r_len respond, data))
    else Some (r_ret respond, None)
  | None => Some (r_ret respond, None)
  end.

(** Round [i] of the waiting loop, after the delay, and what follows the loop. *)
Definition frcdrv_core_cmd_poll (c : call) (p i : Z) (d : driver) : option (option result * driver) :=
  r ← reqs d !! p;
  if q_state r =? CORE_REQ_RESPOND then
    rv ← core_cmd_answer c (q_respond r);
    d ← core_cmd_error p d; Some (Some rv, d)
  else if i + 1 =? FRCDRV_CORE_REQ_TIMEOUT then
    d ← core_cmd_error p d; Some (Some (FRE_TIMEOUT, None), d)
  else Some (None, d).

Definition frcdrv_cmd_init (h : node_heap) : option driver :=
  h ← FRC_INIT_LIST_HEAD frcdrv_core_req_head h; Some (Driver h ∅ 0).
End driver.

(** ** The library: [frcapi_ioctl] and the dispatch of [frcdrv_ioctl] *)
Inductive ioctl_request : Type := IOCTL_FRCDRV_REQUEST | IOCTL_FRCORE_REQUEST.

(** Where a call goes: a code when the device cannot be opened, the request otherwise.
    For any other type the variable [rv] is read without a value. *)
Definition frcapi_ioctl_request (open_ok : bool) (type : Z) : option (Z + ioctl_request) :=
  if negb open_ok then Some (inl FRE_OPEN) else
  if type =? CMD_TYPE_USER then Some (inr IOCTL_FRCORE_REQUEST) else
  if type =? CMD_TYPE_DRV then Some (inr IOCTL_FRCDRV_REQUEST) else None.

(** What the library makes of the return of [ioctl] and of [arg->rv]. *)
Definition frcapi_ioctl_return (rv arg_rv : Z) : Z :=
  if negb (rv =? FRE_SUCCESS) then FRE_IOCTL else
  if negb (arg_rv =? FRE_SUCCESS) then arg_rv else FRE_SUCCESS.

(** ** Command numbers of frc_cmd.h, in the configured build *)
Definition USER_CMD_GET_BDD_STATUS : Z := 1.
Definition USER_CMD_BDD_PORT_ENABLE : Z := 3.
Definition USER_CMD_CONFIG_LOG_SW : Z := 4.
Definition USER_CMD_GET_BDD_INFO : Z := 5.
Definition USER_CMD_GET_STAT : Z := 6.
Definition USER_CMD_CLEAR_STAT : Z := 7.
Definition USER_CMD_GET_PHY : Z := 12.
Definition USER_CMD_SET_PHY : Z := 13.
Definition USER_CMD_SET_CPLD : Z := 14.
Definition USER_CMD_GET_CPLD : Z := 15.
Definition USER_CMD_SET_LOOPBACK_MODE : Z := 17.
Definition USER_CMD_SET_WORK_MODE : Z := 18.
Definition USER_CMD_FORCE_LINK : Z := 19.
Definition USER_CMD_GET_SYSINFO : Z := 20.
Definition USER_CMD_SET_AGE_TIME : Z := 21.
Definition USER_CMD_POWEROFF : Z := 22.
Definition USER_CMD_SET_DISORDER_DEPTH : Z := 24.
Definition USER_CMD_GET_FR_STATUS : Z := 25.
Definition USER_CMD_FR_ENABLE : Z := 26.
Definition USER_CMD_SSN_GET_FIVETUPLE : Z := 27.
Definition USER_CMD_SSN_BUCKET_GET : Z := 28.
Definition USER_CMD_SSN_MATCH : Z := 29.
Definition USER_CMD_GET_RULE_STATUS : Z := 30.
Definition USER_CMD_RULE_ENABLE : Z := 31.
Definition USER_CMD_ADD_RULE : Z := 32.
Definition USER_CMD_CLEAN_ALL_RULE : Z := 33.
Definition USER_CMD_DEL_RULE : Z := 36.
Definition USER_CMD_GET_RULE : Z := 37.
Definition USER_CMD_CLEAN_RULE_STAT : Z := 38.
Definition USER_CMD_UPDATE_RULE : Z := 39.
Definition USER_CMD_GET_RULE_NUM : Z := 40.
Definition USER_CMD_SET_DMA_BLOCK_SIZE : Z := 41.
Definition USER_CMD_READ_DMA : Z := 42.
Definition USER_CMD_SET_VLAN_CHECK_PARAMETER : Z := 43.
Definition USER_CMD_GET_VLAN_CHECK_PARAMETER : Z := 44.
Definition USER_CMD_GET_VLAN_CHECK_STAT : Z := 45.
Definition USER_CMD_CLEAR_VLAN_CHECK_STAT : Z := 46.
Definition USER_CMD_VLAN_V4_HASH_MASK_SET : Z := 47.
Definition USER_CMD_VLAN_V6_HASH_MASK_SET : Z := 48.
Definition USER_CMD_IPC_CUR_GET : Z := 49.
Definition USER_CMD_IPC_CUR_SET : Z := 50.
Definition USER_CMD_IPC_MISC_GET : Z := 51.
Definition USER_CMD_IPC_MISC_SET : Z := 52.
Definition USER_CMD_IPC_EXP_GET : Z := 53.
Definition USER_CMD_IPC_EXP_SET : Z := 54.
Definition USER_CMD_IPC_INSTR_GET : Z := 55.
Definition USER_CMD_IPC_INSTR_SET : Z := 56.
Definition USER_CMD_IPC_INSTR_PAYLOAD_SET : Z := 57.
Definition USER_CMD_MAX : Z := 58.
Definition DRV_CMD_GET_VERSION : Z := 1.
Definition DRV_CMD_GET_FEATURE : Z := 6.
Definition DRV_CMD_GET_POOL_AND_RING_ADDR : Z := 7.
Definition TEST_CMD_SIMPLE_PACKET_CHAN : Z := 5.
