(* ===== verification/CmdProps.v ===== *)
(** * Commands: the two headers, the packet and the list of requests

    What the driver encodes the card decodes and back, and what the operations on the
    list of waiting requests do to it. *)

From stdpp Require Import list gmap.
From S2P Require Import Prelude Bytes FrcList Cmd.
#[local] Open Scope Z_scope.

(** ** The headers *)

(** A field of [b] bits below a multiple of [2 ^ b]. *)
Lemma low_field x y b : 0 <= b -> 0 <= y < 2 ^ b -> (x * 2 ^ b + y) `mod` 2 ^ b = y.
Proof. intros Hb Hy. rewrite Z.add_comm, Z_mod_plus_full. by apply Z.mod_small. Qed.
Lemma high_field x y b : 0 <= b -> 0 <= y < 2 ^ b -> (x * 2 ^ b + y) / 2 ^ b = x.
Proof. intros Hb Hy. rewrite Z.div_add_l by lia. rewrite Z.div_small by done. lia. Qed.

Record cmd_ok (c : frcore_cmd_t) : Prop := CmdOk {
  ok_type : 0 <= c_type c < 2 ^ 4; ok_cmd : 0 <= c_cmd c < 2 ^ 12; ok_len : 0 <= c_len c < 2 ^ 16; ok_seq : 0 <= c_seq c < 2 ^ 32 }.

Lemma cmd_word_roundtrip c : cmd_ok c -> cmd_of_word (cmd_word c) = c /\ 0 <= cmd_word c < 2 ^ 64.
Proof.
  intros [H1 H2 H3 H4]. destruct c as [t m l s]. cbn [c_type c_cmd c_len c_seq] in *.
  unfold cmd_word, cmd_of_word. cbn [c_type c_cmd c_len c_seq].
  rewrite (Z.mod_small m), (Z.mod_small t), (Z.mod_small l), (Z.mod_small s) by done.
  assert (m * 2 ^ 52 + t * 2 ^ 48 + l * 2 ^ 32 + s = ((m * 2 ^ 4 + t) * 2 ^ 16 + l) * 2 ^ 32 + s) as -> by lia.
  split; [|lia].
  change (2 ^ 52) with (2 ^ 32 * 2 ^ 16 * 2 ^ 4). change (2 ^ 48) with (2 ^ 32 * 2 ^ 16).
  rewrite <- !Z.div_div, !high_field, !low_field, !(Z.mod_small m) by lia. done.
Qed.

(** The answer's first word, truncated to its fields. *)
Definition stored (r : frc_cmd_respond_t) : frc_cmd_respond_t :=
  FrcCmdRespond (u16 (r_ret r)) (u16 (r_len r)) (u32 (r_seq r)) (r_data r).

Lemma respond_word_fields r : let w := respond_word r in
  w `mod` 2 ^ 16 = u16 (r_ret r) /\ (w / 2 ^ 16) `mod` 2 ^ 16 = u16 (r_len r) /\ w / 2 ^ 32 = u32 (r_seq r) /\ 0 <= w < 2 ^ 64.
Proof.
  unfold respond_word. pose proof (wrapu_range 16 (r_ret r)). pose proof (wrapu_range 16 (r_len r)).
  pose proof (wrapu_range 32 (r_seq r)). unfold wrapu in *.
  set (a := r_ret r `mod` 2 ^ 16) in *. set (b := r_len r `mod` 2 ^ 16) in *. set (s := r_seq r `mod` 2 ^ 32) in *.
  assert (s * 2 ^ 32 + b * 2 ^ 16 + a = (s * 2 ^ 16 + b) * 2 ^ 16 + a) as -> by lia.
  split_and!; [by rewrite low_field by lia|by rewrite high_field, low_field by lia| |lia..].
  change (2 ^ 32) with (2 ^ 16 * 2 ^ 16). by rewrite <- Z.div_div, !high_field by lia.
Qed.

(** ** Packets *)

(** [octeon_swap_8B_data] exchanges the byte order of words, as [swap_buff] does. *)
Definition swap_law (swap : nat -> list Z -> list Z) : Prop :=
  forall n bs, (8 * n <= length bs)%nat -> swap n bs = swap_buff n bs.

Lemma length_swap_buff n bs : (8 * n <= length bs)%nat -> length (swap_buff n bs) = length bs.
Proof.
  revert bs. induction n as [|n IH]; intros bs Hn; [done|]. cbn [swap_buff].
  rewrite length_app, length_reverse, IH by (rewrite length_drop; lia).
  rewrite length_take, length_drop. lia.
Qed.

(** Exchanging twice changes nothing. *)
Lemma swap_buff_twice n bs : (8 * n <= length bs)%nat -> swap_buff n (swap_buff n bs) = bs.
Proof.
  revert bs. induction n as [|n IH]; intros bs Hn; [done|]. cbn [swap_buff].
  assert (length (reverse (take 8 bs)) = 8%nat) as E by (rewrite length_reverse, length_take; lia).
  rewrite take_app_le, take_ge, drop_app_ge, E by lia.
  rewrite reverse_involutive, drop_0, IH by (rewrite length_drop; lia). apply take_drop.
Qed.

(** The header word in front of other bytes. *)
Lemma swap_word w bs : swap_buff 1 (reverse (be_bytes 8 w) ++ bs) = be_bytes 8 w ++ bs.
Proof.
  cbn [swap_buff]. assert (length (reverse (be_bytes 8 w)) = 8%nat) as E by by rewrite length_reverse, length_be_bytes.
  rewrite take_app_le, take_ge, drop_app_ge, E by lia. by rewrite reverse_involutive, drop_0.
Qed.

Lemma swap_word_back w bs : swap_buff 1 (be_bytes 8 w ++ bs) = reverse (be_bytes 8 w) ++ bs.
Proof.
  cbn [swap_buff]. rewrite take_app_le, take_ge, drop_app_ge, length_be_bytes by (rewrite length_be_bytes; lia). by rewrite drop_0.
Qed.

Section codec.
Variable octeon_swap_8B_data : nat -> list Z -> list Z.
Hypothesis Hswap : swap_law octeon_swap_8B_data.

(** The parameters as the card finds them behind the header. *)
Definition sent_param (len : Z) (param : option (list Z)) : list Z :=
  match param with
  | Some input => swap_buff (Z.to_nat (len / 8)) (take (Z.to_nat len) input)
  | None => replicate (Z.to_nat len) 0
  end.

(** The driver reads no further than the caller's buffer. *)
Definition input_ok (len : Z) (param : option (list Z)) : Prop :=
  forall input, param = Some input -> len <= Z.of_nat (length input).

Lemma alloc_cmd_si_spec cmd param : cmd_ok cmd -> input_ok (c_len cmd) param ->
  frcdrv_alloc_cmd_si octeon_swap_8B_data cmd param = Some (be_bytes 8 (cmd_word cmd) ++ sent_param (c_len cmd) param).
Proof using Hswap.
  intros Hc Hi. pose proof (ok_len _ Hc) as Hl. unfold frcdrv_alloc_cmd_si.
  rewrite (Z.mod_small (c_len cmd)) by done. rewrite (Hswap 1%nat) by (rewrite length_reverse, length_be_bytes; lia).
  rewrite <- (app_nil_r (reverse _)), swap_word, app_nil_r.
  destruct param as [input|]; [|done]. specialize (Hi input eq_refl). unfold sent_param.
  destruct (Z.eqb_spec (c_len cmd) 0) as [E|E]; [by rewrite E|].
  rewrite read_bytes_eq by lia. cbn [mbind option_bind]. rewrite drop_0. rewrite Z.shiftr_div_pow2 by lia. change (2 ^ 3) with 8.
    rewrite Hswap; [done|]. rewrite length_take. pose proof (Z.mul_div_le (c_len cmd) 8). lia.
Qed.

(** The answer as the driver receives it, however it is cut into buffers. *)
Lemma copy_buffers_all bufs sum : 0 <= sum -> sum + Z.of_nat (length (concat bufs)) <= RESPOND_SIZE ->
  copy_buffers sum bufs = concat bufs.
Proof.
  revert sum. induction bufs as [|b bufs IH]; intros sum Hs Hl; [done|]. simpl in *.
  rewrite length_app in Hl. rewrite (proj2 (Z.leb_le _ _)) by lia. rewrite IH by lia. done.
Qed.

Lemma received_spec bufs r : concat bufs = respond_bytes r -> length (r_data r) = Z.to_nat FRC_CMD_RESPOND_DATA_SZ ->
  received octeon_swap_8B_data bufs = stored r.
Proof using Hswap.
  intros Hb Hd. unfold received.
  assert (length (respond_bytes r) = Z.to_nat RESPOND_SIZE) as El
    by (unfold respond_bytes; rewrite length_app, length_be_bytes, Hd; done).
  rewrite copy_buffers_all by (rewrite ?Hb, ?El; unfold RESPOND_SIZE, FRC_CMD_RESPOND_DATA_SZ; lia).
  rewrite Hb, El, Nat.sub_diag, app_nil_r. rewrite Hswap by (rewrite El; unfold RESPOND_SIZE, FRC_CMD_RESPOND_DATA_SZ; lia).
  unfold respond_bytes, respond_of, stored, le_field. rewrite swap_word_back, drop_0.
  assert (length (reverse (be_bytes 8 (respond_word r))) = 8%nat) as E8 by by rewrite length_reverse, length_be_bytes.
  rewrite take_app_le, take_ge, drop_app_ge, E8, drop_0 by lia.
  destruct (respond_word_fields r) as (F1 & F2 & F3 & F4). rewrite le_value_field by done. by rewrite F1, F2, F3.
Qed.
End codec.

(** ** The list of waiting requests *)
Section requests.
Variable head : Z.   (* the address of [frcdrv_core_req_head] *)

(** The requests [ps] wait; nothing else is in the memory of the driver. *)
Record drv_ok (d : driver) (ps : list Z) : Prop := DrvOk {
  d_list : list_rep (nodes d) head ps;
  d_nodes : dom (nodes d) = {[head]} ∪ list_to_set ps;
  d_reqs : dom (reqs d) = list_to_set ps }.

Lemma list_rep_other h h' ns : list_rep h head ns ->
  (forall a, a ∈ head :: ns -> h' !! a = h !! a) -> list_rep h' head ns.
Proof.
  intros [Hd Hs] Ha. split; [done|]. revert Hs. apply dseg_same; intros a Hin; unfold nx, pv; rewrite Ha; try done.
  apply elem_of_app in Hin as [?| ->%list_elem_of_singleton]; [by right|left].
Qed.

Lemma init_ok h : head ∈ dom h -> dom h = {[head]} ->
  exists d, frcdrv_cmd_init head h = Some d /\ drv_ok d [] /\ frcdrv_core_requset_seq d = 0 /\ reqs d = ∅.
Proof.
  intros Hd Hs. apply elem_of_dom in Hd. destruct (init_head_spec head h Hd) as (h' & E & R & D & _).
  unfold frcdrv_cmd_init. rewrite E. cbn [mbind option_bind]. eexists. split; [done|].
  split; [|done]. constructor; [done|simpl; by rewrite D, Hs, (right_id_L ∅ (∪))|done].
Qed.

Definition next_seq (d : driver) : Z := u32 (frcdrv_core_requset_seq d + 1).

Lemma add_ok d ps p : drv_ok d ps -> p ∉ head :: ps ->
  exists d', frcdrv_core_req_add head p (core_req_malloc p d) = Some d' /\ drv_ok d' (ps ++ [p]) /\
    reqs d' = <[p := CoreReq (next_seq d) CORE_REQ_WAITING zero_respond]> (reqs d) /\
    frcdrv_core_requset_seq d' = next_seq d.
Proof.
  intros [Hl Hn Hr] Hp. unfold frcdrv_core_req_add, core_req_malloc. cbn [nodes reqs frcdrv_core_requset_seq].
  set (h := <[p := FrcList 0 0]> (nodes d)).
  assert (list_rep h head ps) as Hl'.
  { apply (list_rep_other (nodes d)); [done|]. intros a Ha. apply lookup_insert_ne. by intros ->. }
  destruct (add_tail_spec p head h ps Hl') as (h' & -> & R & D & _); [subst h; by rewrite lookup_insert_eq|done|].
  cbn [mbind option_bind]. rewrite lookup_insert_eq. cbn [mbind option_bind].
  eexists. split; [done|]. cbn [nodes reqs frcdrv_core_requset_seq q_respond]. split; [|by rewrite insert_insert_eq].
  constructor; cbn [nodes reqs]; [done| |].
  - rewrite D. subst h. rewrite dom_insert_L, Hn, list_to_set_app_L. simpl. clear. set_solver.
  - rewrite !dom_insert_L, Hr, list_to_set_app_L. simpl. clear. set_solver.
Qed.

Lemma error_ok d ps1 ps2 p : drv_ok d (ps1 ++ p :: ps2) ->
  exists d', core_cmd_error p d = Some d' /\ drv_ok d' (ps1 ++ ps2) /\
    reqs d' = delete p (reqs d) /\ frcdrv_core_requset_seq d' = frcdrv_core_requset_seq d.
Proof.
  intros [Hl Hn Hr]. unfold core_cmd_error, frcdrv_core_req_remove.
  destruct (list_del_spec p head _ _ _ Hl) as (h' & -> & R & D & _). cbn [mbind option_bind].
  eexists. split; [done|]. unfold core_req_free. cbn [nodes reqs frcdrv_core_requset_seq]. split; [|done].
  assert (p ∉ head :: ps1 ++ ps2) as Hp.
  { destruct Hl as [Hd _]. assert (head :: ps1 ++ p :: ps2 ≡ₚ p :: head :: ps1 ++ ps2) as E
      by (rewrite <- Permutation_middle; apply perm_swap).
    rewrite E in Hd. by apply NoDup_cons in Hd as [? _]. }
  apply not_elem_of_cons in Hp as [Hp1 Hp2].
  constructor; cbn [nodes reqs].
  - apply (list_rep_other h'); [done|]. intros a Ha. apply lookup_delete_ne. intros ->.
    apply elem_of_cons in Ha as [?|?]; done.
  - rewrite dom_delete_L, D, Hn, !list_to_set_app_L, list_to_set_cons.
    apply not_elem_of_app in Hp2 as [Hp2 Hp3]. 
    assert (p ∉ list_to_set (C := gset Z) ps1) by by rewrite elem_of_list_to_set.
    assert (p ∉ list_to_set (C := gset Z) ps2) by by rewrite elem_of_list_to_set. clear - Hp1 H H0. set_solver.
  - rewrite dom_delete_L, Hr, !list_to_set_app_L, list_to_set_cons.
    apply not_elem_of_app in Hp2 as [Hp2 Hp3]. 
    assert (p ∉ list_to_set (C := gset Z) ps1) by by rewrite elem_of_list_to_set.
    assert (p ∉ list_to_set (C := gset Z) ps2) by by rewrite elem_of_list_to_set. clear - Hp1 H H0. set_solver.
Qed.

(** An answer changes the requests with its number, and only those. *)
Definition answered (r : frc_cmd_respond_t) (q : frcdrv_core_req_t) : frcdrv_core_req_t :=
  if q_seq q =? r_seq r then CoreReq (q_seq q) CORE_REQ_RESPOND r else q.

Lemma respond_all r ps t rs : NoDup ps -> (forall p, p ∈ ps -> is_Some (rs !! p)) ->
  exists t', foldM (respond_one r) ps (t, rs) = Some (t', map_imap (fun p q => Some (if decide (p ∈ ps) then answered r q else q)) rs) /\
    (t' = t \/ t' = 0).
Proof.
  revert t rs. induction ps as [|p ps IH]; intros t rs Hd Hs; cbn [foldM].
  - exists t. split; [|by left]. do 2 f_equal. apply map_eq. intros a. rewrite map_lookup_imap.
    destruct (rs !! a); cbn [mbind option_bind]; [|done].
    rewrite (decide_False (P := a ∈ [])); [done|apply not_elem_of_nil].
  - apply NoDup_cons in Hd as [Hp Hd]. destruct (Hs p) as [q Eq]; [left|].
    assert (exists t1, respond_one r (t, rs) p = Some (t1, <[p := answered r q]> rs) /\ (t1 = t \/ t1 = 0)) as (t1 & -> & Ht).
    { unfold respond_one, answered. cbn [fst snd]. rewrite Eq. cbn [mbind option_bind].
      destruct (q_seq q =? r_seq r); [eauto|]. rewrite insert_id by done. eauto. }
    cbn [mbind option_bind].
    destruct (IH t1 (<[p := answered r q]> rs) Hd) as (t' & -> & Ht').
    { intros a Ha. destruct (decide (a = p)) as [->|]; [by rewrite lookup_insert_eq|].
      rewrite lookup_insert_ne by done. apply Hs. by right. }
    exists t'. split; [|destruct Ht' as [->|]; auto]. do 2 f_equal. apply map_eq. intros a. rewrite !map_lookup_imap.
    destruct (decide (a = p)) as [->|Ha].
    + rewrite lookup_insert_eq, Eq. cbn [mbind option_bind]. rewrite (decide_False (P := p ∈ ps)) by done.
      by rewrite (decide_True (P := p ∈ p :: ps)) by left.
    + rewrite lookup_insert_ne by done. destruct (rs !! a); cbn [mbind option_bind]; [|done]. f_equal.
      destruct (decide (a ∈ ps)); [by rewrite (decide_True (P := a ∈ p :: ps)) by by right|].
      rewrite (decide_False (P := a ∈ p :: ps)); [done|]. by intros [?|?]%elem_of_cons.
Qed.

Lemma respond_ok d ps r : drv_ok d ps ->
  exists t d', frcdrv_core_req_respond head r d = Some (t, d') /\ drv_ok d' ps /\ reqs d' = answered r <$> reqs d /\
    frcdrv_core_requset_seq d' = frcdrv_core_requset_seq d.
Proof.
  intros [Hl Hn Hr]. unfold frcdrv_core_req_respond.
  assert (NoDup (head :: ps)) as Hnd by by destruct Hl.
  assert (length ps < S (size (nodes d)))%nat as Hf.
  { rewrite <- size_dom, Hn. change ({[head]} ∪ list_to_set ps) with (list_to_set (C := gset Z) (head :: ps)).
    rewrite size_list_to_set by done. simpl. lia. }
  rewrite (for_each_spec _ _ _ _ Hl Hf). cbn [mbind option_bind]. apply NoDup_cons in Hnd as [_ Hnd].
  destruct (respond_all r ps 1 (reqs d) Hnd) as (t & -> & _).
  { intros p Hp. apply elem_of_dom. rewrite Hr. by apply elem_of_list_to_set. }
  cbn [mbind option_bind]. do 2 eexists. split; [done|]. cbn [nodes reqs frcdrv_core_requset_seq].
  assert (map_imap (fun p q => Some (if decide (p ∈ ps) then answered r q else q)) (reqs d) = answered r <$> reqs d) as E.
  { apply map_eq. intros a. rewrite map_lookup_imap, lookup_fmap. destruct (reqs d !! a) as [q|] eqn:Eq; simpl; [|done].
    rewrite decide_True; [done|]. apply (elem_of_list_to_set (C := gset Z)). rewrite <- Hr. by apply elem_of_dom. }
  rewrite E. split; [|done]. constructor; cbn [nodes reqs]; [done..|]. by rewrite dom_fmap_L.
Qed.
End requests.
