(* ===== verification/CmdSys.v ===== *)
(** * Commands: callers, driver, card and the messages between them

    Any number of callers are inside [frcdrv_core_cmd] at once; packets and answers
    are on their way and are handled in any order, answers may be lost.  The history
    of a run is kept beside the state: the numbers given out, what the card handled
    in which order, and what the calls returned. *)

From stdpp Require Import list gmap.
From S2P Require Import Prelude Bytes FrcList Cmd CmdProps.
#[local] Open Scope Z_scope.

(** The packet of a call, and its parameters as a handler gets them. *)
Definition packet_of (c : call) (seq : Z) : list Z :=
  be_bytes 8 (cmd_word (req_cmd c seq)) ++ sent_param (k_ilen c) (k_input c).
Definition param_of (c : call) : option (list Z) :=
  if k_ilen c =? 0 then None else Some (sent_param (k_ilen c) (k_input c)).

(** What a caller must respect: fields that fit, a readable input, and no more output
    than an answer can carry. *)
Record call_ok (c : call) : Prop := CallOk {
  co_type : 0 <= k_type c < 2 ^ 4; co_cmd : 0 <= k_cmd c < 2 ^ 12; co_ilen : 0 <= k_ilen c < 2 ^ 16;
  co_input : input_ok (k_ilen c) (k_input c); co_olen : default 0 (k_olen c) <= FRC_CMD_RESPOND_DATA_SZ }.

Section system.
Context {S : Type}.
Variable octeon_swap_8B_data : nat -> list Z -> list Z.
Variable head : Z.

(** A request waits with the number of rounds of its loop already done. *)
Record world : Type := World {
  w_drv : driver; w_card : card S;
  w_packets : list (list Z); w_answers : list (list Z); w_calls : gmap Z (call * Z);
  w_issued : list (Z * call);                  (* history: number and call of every packet *)
  w_log : list (list Z * option (list Z));     (* history: packets handled, and the answers *)
  w_done : list (Z * call * result) }.         (* history: calls returned after waiting *)

Inductive event : Type :=
| EStart (c : call) (core_req : option Z) (cpkt_ok sent : bool)
| ECard (i : nat) (pko_ready sent : bool)      (* the card handles packet [i] *)
| EAnswer (i : nat) (bufs : list (list Z))     (* answer [i] arrives, cut into buffers *)
| EPoll (p : Z).                               (* one round of a waiting call *)

Definition world_do (e : event) (w : world) : option world :=
  match e with
  | EStart c core_req cpkt_ok sent =>
    '(r, d) ← frcdrv_core_cmd_start octeon_swap_8B_data head c core_req cpkt_ok sent (w_drv w);
    match r, core_req with
    | inr packet, Some p =>
      Some (World d (w_card w) (w_packets w ++ [packet]) (w_answers w) (<[p := (c, 0)]> (w_calls w))
        (w_issued w ++ [(frcdrv_core_requset_seq d, c)]) (w_log w) (w_done w))
    | _, _ => Some (World d (w_card w) (w_packets w) (w_answers w) (w_calls w) (w_issued w) (w_log w) (w_done w))
    end
  | ECard i pko_ready sent =>
    packet ← w_packets w !! i;
    '(a, st) ← frcore_process_frc_cmd pko_ready packet (w_card w);
    Some (World (w_drv w) st (delete i (w_packets w))
      (w_answers w ++ match a with Some a => if sent then [a] else [] | None => [] end) (w_calls w)
      (w_issued w) (w_log w ++ [(packet, a)]) (w_done w))
  | EAnswer i bufs =>
    _ ← w_answers w !! i;
    '(_, d) ← frcdrv_core_respond_dispatch octeon_swap_8B_data head bufs (w_drv w);
    Some (World d (w_card w) (w_packets w) (delete i (w_answers w)) (w_calls w) (w_issued w) (w_log w) (w_done w))
  | EPoll p =>
    '(c, i) ← w_calls w !! p;
    q ← reqs (w_drv w) !! p;
    '(r, d) ← frcdrv_core_cmd_poll c p i (w_drv w);
    match r with
    | Some res => Some (World d (w_card w) (w_packets w) (w_answers w) (delete p (w_calls w)) (w_issued w) (w_log w)
        (w_done w ++ [(q_seq q, c, res)]))
    | None => Some (World d (w_card w) (w_packets w) (w_answers w) (<[p := (c, i + 1)]> (w_calls w)) (w_issued w) (w_log w) (w_done w))
    end
  end.

Definition world_run (es : list event) (w : world) : option world := foldM (fun w e => world_do e w) es w.

(** The answer of the card to the packet of a call, as the driver sees it. *)
Definition answer_to (log : list (list Z * option (list Z))) (s : Z) (c : call) (r : frc_cmd_respond_t) : Prop :=
  exists r0, (packet_of c s, Some (respond_bytes r0)) ∈ log /\ r_seq r0 = s /\
    length (r_data r0) = Z.to_nat FRC_CMD_RESPOND_DATA_SZ /\ r = stored r0.

(** The card alone, one command after the other; [None] is a packet it ignored. *)
Fixpoint card_trace (log : list (list Z * option (list Z))) (st : card S) : option (card S) :=
  match log with
  | [] => Some st
  | (packet, None) :: log => card_trace log st
  | (packet, Some a) :: log =>
    '(a', st') ← frcore_process_frc_cmd true packet st;
    if decide (a' = Some a) then card_trace log st' else None
  end.

(** What is asked of the events: addresses from [malloc] are fresh, an answer arrives
    whole, the second allocation of a call succeeds. *)
Variable legal : call -> Prop.
Definition event_ok (e : event) (w : world) : Prop :=
  match e with
  | EStart c core_req cpkt_ok sent => call_ok c /\ legal c /\ cpkt_ok = true /\
      (forall p, core_req = Some p -> p ∉ dom (nodes (w_drv w)))
  | ECard i _ _ => (i < length (w_packets w))%nat
  | EAnswer i bufs => w_answers w !! i = Some (concat bufs)
  | EPoll p => p ∈ dom (w_calls w)
  end.

Fixpoint events_ok (es : list event) (w : world) : Prop :=
  match es with
  | [] => True
  | e :: es => event_ok e w /\ forall w', world_do e w = Some w' -> events_ok es w'
  end.

(** What is asked of the card: a legal command has an entry in its table, and the
    handler of one is defined in every good state and leaves one. *)
Variable good : S -> Prop.
Definition handler_ok (c : call) (fn : frcore_cmd_fn_t S) : Prop :=
  forall s, good s -> exists rv olen data s',
    fn (k_ilen c) (param_of c) (replicate (Z.to_nat FRC_CMD_RESPOND_DATA_SZ) 0) s = Some (rv, olen, data, s') /\
    length data = Z.to_nat FRC_CMD_RESPOND_DATA_SZ /\ good s'.

Definition table_ok (sets : list (frcore_cmd_set_t (S := S))) : Prop :=
  forall c seq (s : S), call_ok c -> legal c -> exists h, find_handler (req_cmd c seq) (Card sets true s) = Some h /\
    forall fn, h = inr fn -> handler_ok c fn.
End system.
