(* ===== verification/CmdThm.v ===== *)
(** * Commands: every answer reaches its own caller

    The invariant of the running system, its preservation by every event, and what it
    says about the calls that return. *)

From stdpp Require Import list gmap.
From S2P Require Import Prelude Bytes FrcList Cmd CmdProps CmdSys.
#[local] Open Scope Z_scope.

Lemma length_sent_param len p : 0 <= len -> input_ok len p -> length (sent_param len p) = Z.to_nat len.
Proof.
  intros Hl Hi. destruct p as [input|]; [|apply length_replicate]. specialize (Hi _ eq_refl). unfold sent_param.
  pose proof (Z.mul_div_le len 8). rewrite length_swap_buff; rewrite length_take; lia.
Qed.

Section theorems.
Context {S : Type}.
Variable octeon_swap_8B_data : nat -> list Z -> list Z.
Hypothesis Hswap : swap_law octeon_swap_8B_data.
Variable head : Z.
Variable legal : call -> Prop.
Variable good : S -> Prop.
Variable sets : list (frcore_cmd_set_t (S := S)).
Hypothesis Hsets : table_ok legal good sets.

Abbreviation world := (CmdSys.world (S := S)).
Abbreviation world_do := (CmdSys.world_do octeon_swap_8B_data head).
Abbreviation world_run := (CmdSys.world_run octeon_swap_8B_data head).
Abbreviation event_ok := (CmdSys.event_ok legal).
Abbreviation events_ok := (CmdSys.events_ok octeon_swap_8B_data head legal).

(** ** The card on the packet of a legal call *)

Lemma read_header w bs : 0 <= w < 2 ^ 64 -> read_bytes (be_bytes 8 w ++ bs) 0 8 = Some (be_bytes 8 w).
Proof.
  intros Hw. rewrite read_bytes_eq by (rewrite ?length_app, ?length_be_bytes; lia).
  change (Z.to_nat 0) with 0%nat. rewrite drop_0, take_app_le, take_ge by (rewrite length_be_bytes; lia). done.
Qed.

Lemma req_cmd_ok c seq : call_ok c -> 0 <= seq < 2 ^ 32 -> cmd_ok (req_cmd c seq).
Proof. intros [] ?. constructor; done. Qed.

Lemma card_process_spec c seq s : call_ok c -> legal c -> 0 <= seq < 2 ^ 32 -> good s ->
  exists r s', frcore_process_frc_cmd true (packet_of c seq) (Card sets true s) = Some (Some (respond_bytes r), Card sets true s') /\
    r_seq r = seq /\ length (r_data r) = Z.to_nat FRC_CMD_RESPOND_DATA_SZ /\ good s'.
Proof using Hsets.
  intros Hc Hl Hs Hg. unfold frcore_process_frc_cmd, packet_of. cbn [negb respond_buf].
  destruct (cmd_word_roundtrip _ (req_cmd_ok c seq Hc Hs)) as [E Hw].
  rewrite read_header by done. cbn [mbind option_bind]. rewrite le_value_field by done. rewrite E.
  destruct (Hsets c seq s Hc Hl) as (h & -> & Hh). cbn [mbind option_bind req_cmd c_len c_seq components frcore_cmdset respond_buf].
  rewrite drop_app_ge, length_be_bytes by (rewrite length_be_bytes; lia). change (8 - 8)%nat with 0%nat. rewrite drop_0.
  destruct h as [rv|fn].
  - cbn [mbind option_bind]. do 2 eexists. split; [done|]. cbn [r_seq r_data]. split_and!; [done|apply length_replicate|done].
  - destruct (Hh fn eq_refl s Hg) as (rv & olen & data & s' & Ef & Hd & Hg'). unfold param_of in Ef. rewrite Ef.
    cbn [mbind option_bind]. do 2 eexists. split; [done|]. done.
Qed.

(** ** The invariant; [n] bounds the calls so far *)
Record inv (n : Z) (w : world) : Prop := Inv {
  i_drv : exists ps, drv_ok head (w_drv w) ps /\ forall p, p ∈ ps <-> p ∈ dom (w_calls w);
  i_seq : 0 <= frcdrv_core_requset_seq (w_drv w) <= n;
  i_nodup : NoDup (w_issued w).*1;
  i_issued : forall s c, (s, c) ∈ w_issued w -> 0 < s <= frcdrv_core_requset_seq (w_drv w) /\ legal c /\ call_ok c;
  i_flow : w_packets w ++ (w_log w).*1 ≡ₚ (fun x => packet_of x.2 x.1) <$> w_issued w;
  i_log : forall pkt a, (pkt, Some a) ∈ w_log w -> exists s c r, (s, c) ∈ w_issued w /\ pkt = packet_of c s /\
    a = respond_bytes r /\ r_seq r = s /\ length (r_data r) = Z.to_nat FRC_CMD_RESPOND_DATA_SZ;
  i_answers : forall a, a ∈ w_answers w -> exists pkt, (pkt, Some a) ∈ w_log w;
  i_calls : forall p c i, w_calls w !! p = Some (c, i) -> 0 <= i < FRCDRV_CORE_REQ_TIMEOUT /\
    exists q, reqs (w_drv w) !! p = Some q /\ (q_seq q, c) ∈ w_issued w /\
      (q_state q = CORE_REQ_WAITING \/ q_state q = CORE_REQ_RESPOND /\ answer_to (w_log w) (q_seq q) c (q_respond q));
  i_card : exists s, w_card w = Card sets true s /\ good s;
  i_done : forall s c res, (s, c, res) ∈ w_done w -> (s, c) ∈ w_issued w /\
    (res = (FRE_TIMEOUT, None) \/ exists r, answer_to (w_log w) s c r /\ core_cmd_answer c r = Some res) }.

Lemma answer_to_mono log log' s c r : (forall x, x ∈ log -> x ∈ log') -> answer_to log s c r -> answer_to log' s c r.
Proof. intros Hi (r0 & ? & ?). exists r0. auto. Qed.

(** ** Each event *)
Lemma cmd_start_ok n w c core_req cpkt_ok sent : inv n w -> n + 1 < 2 ^ 32 -> event_ok (EStart c core_req cpkt_ok sent) w ->
  exists w', world_do (EStart c core_req cpkt_ok sent) w = Some w' /\ inv (n + 1) w'.
Proof using Hswap.
  intros I Hn (Hc & Hl & -> & Hp). pose proof I as [(ps & Hd & Hps) Hs Hnd Hi Hf Hlog Ha Hcalls Hcard Hdone].
  cbn [CmdSys.world_do]. unfold frcdrv_core_cmd_start.
  assert (inv (n + 1) (World (w_drv w) (w_card w) (w_packets w) (w_answers w) (w_calls w) (w_issued w) (w_log w) (w_done w))) as I'.
  { destruct w. constructor; cbn in *; eauto. lia. }
  destruct (k_ilen c >? FRC_CORE_CMD_ARG_MAX); [cbn [mbind option_bind]; destruct core_req; eauto|].
  destruct (k_ilen c >? FRCORE_CMD_INPUT_MAX); [cbn [mbind option_bind]; destruct core_req; eauto|].
  destruct core_req as [p|]; [|cbn [mbind option_bind]; eauto]. specialize (Hp p eq_refl).
  assert (p ∉ head :: ps) as Hnew.
  { destruct Hd as [_ Hdn _]. rewrite Hdn in Hp. rewrite not_elem_of_union, not_elem_of_singleton, elem_of_list_to_set in Hp.
    by rewrite not_elem_of_cons. }
  cbn [negb]. destruct (add_ok head (w_drv w) ps p Hd Hnew) as (d & -> & Hd' & Er & Es). cbn [mbind option_bind].
  assert (next_seq (w_drv w) = frcdrv_core_requset_seq (w_drv w) + 1) as En.
  { unfold next_seq. apply wrapu_id. lia. }
  rewrite Er, lookup_insert_eq. cbn [mbind option_bind q_seq].
  rewrite (alloc_cmd_si_spec _ Hswap) by first [apply req_cmd_ok; [done|lia]|apply Hc].
  assert (reqs (w_drv w) !! p = None) as Hnone.
  { apply not_elem_of_dom. rewrite (d_reqs _ _ _ Hd), elem_of_list_to_set. by apply not_elem_of_cons in Hnew as [_ ?]. }
  cbn [mbind option_bind]. destruct sent; cbn [mbind option_bind].
  - eexists. split; [done|]. fold (packet_of c (next_seq (w_drv w))).
    assert (forall s' c', (s', c') ∈ w_issued w -> s' <> next_seq (w_drv w)) as Hfresh by (intros s' c' (? & _)%Hi; lia).
    constructor; cbn [w_drv w_card w_packets w_answers w_calls w_issued w_log w_done].
    + exists (ps ++ [p]). split; [done|]. intros a. rewrite elem_of_app, list_elem_of_singleton, dom_insert_L, Hps. clear. set_solver.
    + lia.
    + rewrite fmap_app, list_fmap_singleton, <- Permutation_cons_append. cbn [fst]. apply NoDup_cons. split; [|done]. rewrite Es.
      intros (x & E & Hin)%list_elem_of_fmap. destruct x as [s' c']. by apply (Hfresh s' c' Hin).
    + intros s' c' [Hin|[= -> ->]%list_elem_of_singleton]%elem_of_app.
      * destruct (Hi s' c' Hin) as (? & ? & ?). split_and!; [lia|lia|done|done].
      * rewrite Es. split_and!; [lia|lia|done|done].
    + rewrite fmap_app, list_fmap_singleton, <- Hf, Es. cbn [fst snd]. rewrite <- !app_assoc. f_equiv. apply Permutation_app_comm.
    + intros pkt a Hin. destruct (Hlog pkt a Hin) as (s' & c' & r & ? & ?). exists s', c', r. rewrite elem_of_app. auto.
    + done.
    + intros a c' i [[<- [= <- <-]]|[Hne Hin]]%lookup_insert_Some.
      * split; [done|]. rewrite Er, lookup_insert_eq. eexists. split; [done|]. cbn [q_seq q_state]. split; [|by left].
        rewrite Es. apply elem_of_app. right. left.
      * destruct (Hcalls a c' i Hin) as (? & q & ? & ? & ?). split; [done|]. exists q. rewrite Er, lookup_insert_ne by done.
        rewrite elem_of_app. auto.
    + done.
    + intros s' c' res Hin. destruct (Hdone s' c' res Hin) as (? & ?). rewrite elem_of_app. auto.
  - destruct (error_ok head d ps [] p Hd') as (d'' & -> & Hd'' & Er' & Es'). cbn [mbind option_bind].
    rewrite app_nil_r in Hd''. eexists. split; [done|].
    rewrite Er, delete_insert_id in Er' by done.
    constructor; cbn [w_drv w_card w_packets w_answers w_calls w_issued w_log w_done]; [|lia| | | | | | | |]; try done.
    + by exists ps.
    + intros s' c' Hin. destruct (Hi s' c' Hin) as (? & ? & ?). split_and!; [lia|lia|done|done].
    + by rewrite Er'.
Qed.

Lemma card_ok_step n w i pko_ready sent : inv n w -> n + 1 < 2 ^ 32 -> event_ok (ECard i pko_ready sent) w ->
  exists w', world_do (ECard i pko_ready sent) w = Some w' /\ inv (n + 1) w' /\
    (pko_ready = true -> exists a, w_log w' = w_log w ++ a /\ card_trace a (w_card w) = Some (w_card w')) /\
    (pko_ready = false -> w_card w' = w_card w /\ exists p, w_log w' = w_log w ++ [(p, None)]).
Proof using Hsets.
  intros I Hn Hlt. pose proof I as [(ps & Hd & Hps) Hs Hnd Hi Hf Hlog Ha Hcalls (s & Ec & Hg) Hdone].
  cbn [CmdSys.world_do CmdSys.event_ok] in *. destruct (lookup_lt_is_Some_2 _ _ Hlt) as [pkt Ep]. rewrite Ep. cbn [mbind option_bind].
  assert (exists sq c, (sq, c) ∈ w_issued w /\ pkt = packet_of c sq) as (sq & c & Hin & ->).
  { assert (pkt ∈ w_packets w ++ (w_log w).*1) as Hp by (apply elem_of_app; left; by eapply list_elem_of_lookup_2).
    rewrite Hf in Hp. apply list_elem_of_fmap in Hp as ([sq c] & -> & ?). eauto. }
  destruct (Hi sq c Hin) as (Hsq & Hleg & Hok).
  assert (w_packets w ≡ₚ packet_of c sq :: delete i (w_packets w)) as Epk by (apply delete_Permutation; done).
  assert (forall lg cd ans, (forall x, x ∈ w_log w -> x ∈ lg) -> lg.*1 = (w_log w).*1 ++ [packet_of c sq] ->
    (forall p a, (p, Some a) ∈ lg -> (p, Some a) ∈ w_log w \/ exists r, p = packet_of c sq /\ a = respond_bytes r /\ r_seq r = sq /\
      length (r_data r) = Z.to_nat FRC_CMD_RESPOND_DATA_SZ) ->
    (forall a, a ∈ ans -> exists p, (p, Some a) ∈ lg) -> (exists s, cd = Card sets true s /\ good s) ->
    inv (n + 1) (World (w_drv w) cd (delete i (w_packets w)) ans (w_calls w) (w_issued w) lg (w_done w))) as Hinv.
  { intros lg cd ans Hmono Efst Hlg Hans Hcd. constructor; cbn [w_drv w_card w_packets w_answers w_calls w_issued w_log w_done]; try done.
    - by exists ps.
    - lia.
    - by rewrite Efst, <- Hf, app_assoc, <- Permutation_cons_append, app_comm_cons, <- Epk.
    - intros p a Hpa. destruct (Hlg p a Hpa) as [Hpa'|(r & -> & -> & ? & ?)]; [by apply Hlog|]. by exists sq, c, r.
    - intros p c' j Hpc. destruct (Hcalls p c' j Hpc) as (? & q & ? & ? & Hst). split; [done|]. exists q. split_and!; [done..|].
      destruct Hst as [?|[? ?]]; [by left|right]. split; [done|]. by eapply answer_to_mono.
    - intros s' c' res Hres. destruct (Hdone s' c' res Hres) as (? & Hr). split; [done|].
      destruct Hr as [?|(r & ? & ?)]; [by left|right]. exists r. split; [|done]. by eapply answer_to_mono. }
  destruct pko_ready.
  - destruct (card_process_spec c sq s Hok Hleg ltac:(lia) Hg) as (r & s' & Epr & Hr1 & Hr2 & Hg'). rewrite Ec, Epr.
    cbn [mbind option_bind]. eexists. split; [done|]. split_and!; [|intros _|done].
    + apply Hinv.
      * intros x Hx. rewrite elem_of_app. by left.
      * by rewrite fmap_app.
      * intros p a [Hpa|[= -> ->]%list_elem_of_singleton]%elem_of_app; [by left|right; by exists r].
      * intros a [Hia|Hia]%elem_of_app.
        -- destruct (Ha a Hia) as [p Hp]. exists p. rewrite elem_of_app. by left.
        -- exists (packet_of c sq). rewrite elem_of_app. right. destruct sent; [|by apply elem_of_nil in Hia].
           apply list_elem_of_singleton in Hia as ->. left.
      * eauto.
    + exists [(packet_of c sq, Some (respond_bytes r))]. split; [done|]. cbn [card_trace w_card]. rewrite Epr.
      cbn [mbind option_bind]. by rewrite decide_True.
  - cbn [frcore_process_frc_cmd negb mbind option_bind]. eexists. split; [done|]. split_and!; [|done|eauto].
    apply Hinv.
    + intros x Hx. rewrite elem_of_app. by left.
    + by rewrite fmap_app.
    + intros p a [Hpa|[= -> ?]%list_elem_of_singleton]%elem_of_app; by left.
    + intros a [Hia|[]%elem_of_nil]%elem_of_app. destruct (Ha a Hia) as [p Hp]. exists p. rewrite elem_of_app. by left.
    + eauto.
Qed.

Lemma issued_inj (w : world) s c1 c2 : NoDup (w_issued w).*1 -> (s, c1) ∈ w_issued w -> (s, c2) ∈ w_issued w -> c1 = c2.
Proof.
  intros Hnd H1 H2. apply list_elem_of_lookup in H1 as [i1 H1]. apply list_elem_of_lookup in H2 as [i2 H2].
  assert (i1 = i2) as ->; [|congruence].
  eapply NoDup_lookup; [exact Hnd| |]; rewrite list_lookup_fmap; [by rewrite H1|by rewrite H2].
Qed.

Lemma answer_ok n w i bufs : inv n w -> n + 1 < 2 ^ 32 -> event_ok (EAnswer i bufs) w ->
  exists w', world_do (EAnswer i bufs) w = Some w' /\ inv (n + 1) w' /\ w_card w' = w_card w /\ w_log w' = w_log w.
Proof using Hswap.
  intros I Hn He. pose proof I as [(ps & Hd & Hps) Hs Hnd Hi Hf Hlog Ha Hcalls Hcard Hdone].
  cbn [CmdSys.world_do CmdSys.event_ok] in *. rewrite He. cbn [mbind option_bind].
  destruct (Ha (concat bufs)) as [pkt Hpkt]; [by eapply list_elem_of_lookup_2|].
  destruct (Hlog _ _ Hpkt) as (s & c & r & Hin & -> & Eb & Hr1 & Hr2).
  unfold frcdrv_core_respond_dispatch. rewrite (received_spec _ Hswap bufs r Eb Hr2).
  destruct (respond_ok head (w_drv w) ps (stored r) Hd) as (t & d' & -> & Hd' & Er & Es). cbn [mbind option_bind].
  eexists. split; [done|]. split; [|done]. destruct (Hi s c Hin) as (Hsq & _).
  constructor; cbn [w_drv w_card w_packets w_answers w_calls w_issued w_log w_done]; try done.
  - by exists ps.
  - rewrite Es. lia.
  - intros s' c' Hin'. rewrite Es. by apply Hi.
  - intros a Ha'. apply Ha. eapply elem_of_sublist; [exact Ha'|apply sublist_delete].
  - intros p c' j Hp. destruct (Hcalls p c' j Hp) as (? & q & Eq & Hq & Hst). split; [done|].
    rewrite Er, lookup_fmap, Eq. cbn [fmap option_fmap option_map]. eexists. split; [done|]. unfold answered.
    destruct (Z.eqb_spec (q_seq q) (r_seq (stored r))) as [E|E]; [|done].
    cbn [q_seq q_state q_respond]. split; [done|right; split; [done|]].
    assert (q_seq q = s) as Esq.
    { rewrite E. unfold stored. cbn [r_seq]. rewrite Hr1. apply wrapu_id. lia. }
    rewrite Esq in Hq |- *. rewrite (issued_inj w s c' c Hnd Hq Hin). exists r. by rewrite <- Eb.
Qed.

Lemma read_answer c r : call_ok c -> length (r_data r) = Z.to_nat FRC_CMD_RESPOND_DATA_SZ -> 0 <= r_len r ->
  exists res, core_cmd_answer c r = Some res.
Proof.
  intros Hc Hd Hl. pose proof (co_olen _ Hc) as Ho. unfold core_cmd_answer.
  destruct (Z.ltb_spec (default 0 (k_olen c)) (r_len r)); [eauto|].
  destruct (k_olen c); simpl in *; [|eauto]. destruct (_ && _); [|eauto].
  rewrite read_bytes_eq by (rewrite ?Hd; lia). cbn [mbind option_bind]. eauto.
Qed.

Lemma poll_ok n w p : inv n w -> n + 1 < 2 ^ 32 -> event_ok (EPoll p) w ->
  exists w', world_do (EPoll p) w = Some w' /\ inv (n + 1) w' /\ w_card w' = w_card w /\ w_log w' = w_log w.
Proof.
  intros I Hn He. pose proof I as [(ps & Hd & Hps) Hs Hnd Hi Hf Hlog Ha Hcalls Hcard Hdone].
  cbn [CmdSys.world_do CmdSys.event_ok] in *. pose proof He as Hp. apply elem_of_dom in He as [[c i] Ec].
  rewrite Ec. cbn [mbind option_bind]. destruct (Hcalls p c i Ec) as (Hi300 & q & Eq & Hq & Hst).
  rewrite Eq. cbn [mbind option_bind]. unfold frcdrv_core_cmd_poll. rewrite Eq. cbn [mbind option_bind].
  apply Hps, list_elem_of_split in Hp as (ps1 & ps2 & ->).
  destruct (error_ok head (w_drv w) ps1 ps2 p Hd) as (d' & Ed & Hd' & Er & Es).
  assert (p ∉ ps1 ++ ps2) as Hp.
  { pose proof (d_list _ _ _ Hd) as [Hnd' _]. apply NoDup_cons in Hnd' as [_ Hnd'].
    rewrite <- Permutation_middle in Hnd'. by apply NoDup_cons in Hnd' as [? _]. }
  assert (forall res, (res = (FRE_TIMEOUT, None) \/ exists r, answer_to (w_log w) (q_seq q) c r /\ core_cmd_answer c r = Some res) ->
    inv (n + 1) (World d' (w_card w) (w_packets w) (w_answers w) (delete p (w_calls w)) (w_issued w) (w_log w)
      (w_done w ++ [(q_seq q, c, res)]))) as Hend.
  { intros res Hres. constructor; cbn [w_drv w_card w_packets w_answers w_calls w_issued w_log w_done]; try done.
    - exists (ps1 ++ ps2). split; [done|]. intros a. rewrite dom_delete_L, elem_of_difference, not_elem_of_singleton, <- Hps.
      rewrite !elem_of_app, elem_of_cons. split; [|tauto]. intros Hin. split; [tauto|]. intros ->. apply Hp. by apply elem_of_app.
    - lia.
    - intros s' c' Hin. rewrite Es. by apply Hi.
    - intros a c' j [Hne Hin]%lookup_delete_Some. destruct (Hcalls a c' j Hin) as (? & q' & ? & ? & ?). split; [done|].
      exists q'. rewrite Er, lookup_delete_ne by done. done.
    - intros s' c' res' [Hin|[= -> -> ->]%list_elem_of_singleton]%elem_of_app; [by apply Hdone|done]. }
  destruct Hst as [Hw|[Hw Hans]]; rewrite Hw.
  - change (CORE_REQ_WAITING =? CORE_REQ_RESPOND) with false. cbv iota.
    destruct (Z.eqb_spec (i + 1) FRCDRV_CORE_REQ_TIMEOUT) as [E|E].
    + rewrite Ed. cbn [mbind option_bind]. eexists. split; [done|]. split; [apply Hend; by left|done].
    + cbn [mbind option_bind]. eexists. split; [done|]. split; [|done].
      constructor; cbn [w_drv w_card w_packets w_answers w_calls w_issued w_log w_done]; try done.
      * exists (ps1 ++ p :: ps2). split; [done|]. intros a. rewrite dom_insert_lookup_L by eauto. apply Hps.
      * lia.
      * intros a c' j [[<- [= <- <-]]|[Hne Hin]]%lookup_insert_Some; [|by apply Hcalls].
        split; [lia|]. exists q. split_and!; [done|done|by left].
  - change (CORE_REQ_RESPOND =? CORE_REQ_RESPOND) with true. cbv iota.
    destruct (Hi _ _ Hq) as (_ & _ & Hc).
    destruct (read_answer c (q_respond q) Hc) as [res Eres].
    { destruct Hans as (r0 & _ & _ & ? & ->). done. }
    { destruct Hans as (r0 & _ & _ & _ & ->). unfold stored. cbn [r_len]. apply wrapu_range. lia. }
    rewrite Eres, Ed. cbn [mbind option_bind]. eexists. split; [done|]. split; [apply Hend; right; eauto|done].
Qed.

Lemma event_step n w e : inv n w -> n + 1 < 2 ^ 32 -> event_ok e w ->
  exists w' lg, world_do e w = Some w' /\ inv (n + 1) w' /\ w_log w' = w_log w ++ lg /\ card_trace lg (w_card w) = Some (w_card w').
Proof using Hswap Hsets.
  intros I Hn He. destruct e as [c core_req cpkt_ok sent|i pko_ready sent|i bufs|p].
  - destruct (cmd_start_ok n w c core_req cpkt_ok sent I Hn He) as (w' & E & I'). exists w', []. split_and!; [done|done| |].
    all: cbn [CmdSys.world_do] in E; destruct (frcdrv_core_cmd_start _ _ _ _ _ _ _) as [[[] d]|]; cbn [mbind option_bind] in E; [|
      destruct core_req|]; try discriminate E; injection E as <-; by rewrite ?app_nil_r.
  - destruct (card_ok_step n w i pko_ready sent I Hn He) as (w' & E & I' & H1 & H2). exists w'. destruct pko_ready.
    + destruct (H1 eq_refl) as (a & ? & ?). by exists a.
    + destruct (H2 eq_refl) as (Ec & p & El). exists [(p, None)]. split_and!; try done. cbn [card_trace]. by rewrite Ec.
  - destruct (answer_ok n w i bufs I Hn He) as (w' & E & I' & Ec & El). exists w', []. by rewrite app_nil_r, Ec.
  - destruct (poll_ok n w p I Hn He) as (w' & E & I' & Ec & El). exists w', []. by rewrite app_nil_r, Ec.
Qed.

Lemma card_trace_app l1 l2 (st : card S) : card_trace (l1 ++ l2) st = card_trace l1 st ≫= card_trace l2.
Proof.
  revert st. induction l1 as [|[p [a|]] l1 IH]; intros st; cbn [app card_trace]; [done| |apply IH].
  destruct (frcore_process_frc_cmd true p st) as [[a' st']|]; cbn [mbind option_bind]; [|done].
  destruct (decide (a' = Some a)); [apply IH|done].
Qed.

Lemma cmd_run_ok es n w : inv n w -> n + Z.of_nat (length es) < 2 ^ 32 -> events_ok es w ->
  exists w' lg, world_run es w = Some w' /\ inv (n + Z.of_nat (length es)) w' /\
    w_log w' = w_log w ++ lg /\ card_trace lg (w_card w) = Some (w_card w').
Proof using Hswap Hsets.
  revert n w. induction es as [|e es IH]; intros n w I Hn He; unfold CmdSys.world_run.
  - cbn [foldM length]. exists w, []. rewrite Z.add_0_r, app_nil_r. done.
  - destruct He as [He Hes]. cbn [length] in Hn. destruct (event_step n w e I ltac:(lia) He) as (w1 & l1 & E1 & I1 & L1 & T1).
    destruct (IH (n + 1) w1 I1 ltac:(lia) (Hes w1 E1)) as (w2 & l2 & E2 & I2 & L2 & T2). unfold CmdSys.world_run in E2.
    exists w2, (l1 ++ l2). cbn [foldM]. rewrite E1. cbn [mbind option_bind]. split_and!; [done| | |].
    + replace (n + Z.of_nat (length (e :: es))) with (n + 1 + Z.of_nat (length es)) by (cbn [length]; lia). done.
    + by rewrite L2, L1, app_assoc.
    + rewrite card_trace_app, T1. cbn [mbind option_bind]. done.
Qed.

(** ** What a run shows *)
Definition start_world (d : driver) (st : card S) : world := World d st [] [] ∅ [] [] [].

Lemma start_inv d s : drv_ok head d [] -> frcdrv_core_requset_seq d = 0 -> good s -> inv 0 (start_world d (Card sets true s)).
Proof.
  intros Hd Hs Hg. unfold start_world.
  constructor; cbn [w_drv w_card w_packets w_answers w_calls w_issued w_log w_done].
  - exists []. split; [done|]. intros p. rewrite dom_empty_L. by rewrite elem_of_nil, elem_of_empty.
  - lia.
  - apply NoDup_nil_2.
  - by intros s' c ?%elem_of_nil.
  - done.
  - by intros pkt a ?%elem_of_nil.
  - by intros a ?%elem_of_nil.
  - intros p c i. by rewrite lookup_empty.
  - eauto.
  - by intros s' c res ?%elem_of_nil.
Qed.

(** C5: from the initialised driver, with any number of callers, packets and answers in any
    order and answers lost, over less than 2^32 events (the sequence numbers do not come round), when the
    allocation of a command's packet succeeds ([event_ok]: its failure goes through a null pointer,
    [cmd_malloc_failure_null]), the answers the card receives are whole and the handlers of the commands
    called are defined on a good state and keep it ([handler_ok]): the system is defined and every call
    that returns after waiting either timed out or returns what the card answered to its own packet; the
    card has handled commands one after the other, each issued packet at most once. *)
Theorem cmd_own_answer d s es :
  drv_ok head d [] -> frcdrv_core_requset_seq d = 0 -> good s ->
  events_ok es (start_world d (Card sets true s)) -> Z.of_nat (length es) < 2 ^ 32 ->
  exists w, world_run es (start_world d (Card sets true s)) = Some w /\
    (forall sq c res, (sq, c, res) ∈ w_done w -> (sq, c) ∈ w_issued w /\
       (res = (FRE_TIMEOUT, None) \/ exists r, answer_to (w_log w) sq c r /\ core_cmd_answer c r = Some res)) /\
    NoDup (w_issued w).*1 /\
    w_packets w ++ (w_log w).*1 ≡ₚ (fun x => packet_of x.2 x.1) <$> w_issued w /\
    card_trace (w_log w) (Card sets true s) = Some (w_card w).
Proof using Hswap Hsets.
  intros Hd Hs Hg He Hn. destruct (cmd_run_ok es 0 _ (start_inv d s Hd Hs Hg) Hn He) as (w & lg & E & I & L & T).
  exists w. destruct I. cbn [w_log start_world app w_card] in L, T. rewrite <- L in T. done.
Qed.

(** C16: the driver's list of requests is well formed after every run and holds exactly the
    calls that still wait; no answer is written anywhere else. *)
Theorem cmd_requests_listed d s es :
  drv_ok head d [] -> frcdrv_core_requset_seq d = 0 -> good s ->
  events_ok es (start_world d (Card sets true s)) -> Z.of_nat (length es) < 2 ^ 32 ->
  exists w ps, world_run es (start_world d (Card sets true s)) = Some w /\
    drv_ok head (w_drv w) ps /\ forall p, p ∈ ps <-> p ∈ dom (w_calls w).
Proof using Hswap Hsets.
  intros Hd Hs Hg He Hn. destruct (cmd_run_ok es 0 _ (start_inv d s Hd Hs Hg) Hn He) as (w & lg & E & I & _).
  destruct (i_drv _ _ I) as (ps & ? & ?). by exists w, ps.
Qed.

(** A waiting call only counts its rounds up, until it returns. *)
Lemma polls_end n w p c i k : inv n w -> n + Z.of_nat k < 2 ^ 32 -> w_calls w !! p = Some (c, i) ->
  FRCDRV_CORE_REQ_TIMEOUT - i <= Z.of_nat k ->
  exists j w', (j <= k)%nat /\ world_run (replicate j (EPoll p)) w = Some w' /\ p ∉ dom (w_calls w').
Proof.
  revert n w i. induction k as [|k IH]; intros n w i I Hn Hc Hk.
  - destruct (i_calls _ _ I p c i Hc). lia.
  - assert (event_ok (EPoll p) w) as He by (apply elem_of_dom; eauto).
    destruct (poll_ok n w p I ltac:(lia) He) as (w1 & E1 & I1 & _).
    destruct (i_calls _ _ I p c i Hc) as (_ & q & Eq & _).
    assert (p ∉ dom (w_calls w1) \/ w_calls w1 !! p = Some (c, i + 1)) as [Hp|Hp].
    { cbn [CmdSys.world_do] in E1. rewrite Hc in E1. cbn [mbind option_bind] in E1. rewrite Eq in E1. cbn [mbind option_bind] in E1.
      destruct (frcdrv_core_cmd_poll c p i (w_drv w)) as [[[res|] d]|]; cbn [mbind option_bind] in E1; [| |done]; injection E1 as <-; cbn [w_calls].
      - left. rewrite dom_delete_L. clear. set_solver.
      - right. by rewrite lookup_insert_eq. }
    + exists 1%nat, w1. split_and!; [lia| |done]. unfold CmdSys.world_run. cbn [replicate foldM]. by rewrite E1.
    + destruct (IH (n + 1) w1 (i + 1) I1 ltac:(lia) Hp ltac:(lia)) as (j & w2 & Hj & E2 & Hout).
      exists (Datatypes.S j), w2. split_and!; [lia| |done]. unfold CmdSys.world_run in E2 |- *. cbn [replicate foldM].
      rewrite E1. cbn [mbind option_bind]. done.
Qed.

(** no call waits for ever: after at most 300 rounds of its loop it has returned. *)
Theorem cmd_call_returns d s es w p :
  drv_ok head d [] -> frcdrv_core_requset_seq d = 0 -> good s ->
  events_ok es (start_world d (Card sets true s)) -> Z.of_nat (length es) + 300 < 2 ^ 32 ->
  world_run es (start_world d (Card sets true s)) = Some w -> p ∈ dom (w_calls w) ->
  exists j w', (j <= 300)%nat /\ world_run (replicate j (EPoll p)) w = Some w' /\ p ∉ dom (w_calls w').
Proof using Hswap Hsets.
  intros Hd Hs Hg He Hn Hw Hp. destruct (cmd_run_ok es 0 _ (start_inv d s Hd Hs Hg) ltac:(lia) He) as (w0 & lg & E & I & _).
  rewrite Hw in E. injection E as <-. apply elem_of_dom in Hp as [[c i] Hc].
  apply (polls_end _ w p c i 300 I); [lia|done|]. destruct (i_calls _ _ I p c i Hc) as [? _].
  unfold FRCDRV_CORE_REQ_TIMEOUT in *. lia.
Qed.
End theorems.

(** when the second allocation of a call fails, the error path takes a request off a list
    it was never put on, through the null pointers of its cleared node. *)
Theorem cmd_malloc_failure_null swap head c p sent d :
  k_ilen c <= 64 -> p <> 0 -> 0 ∉ dom (nodes d) ->
  frcdrv_core_cmd_start swap head c (Some p) false sent d = None.
Proof.
  intros Hl Hp H0. unfold frcdrv_core_cmd_start, FRC_CORE_CMD_ARG_MAX, FRCORE_CMD_INPUT_MAX.
  rewrite Z.gtb_ltb, (proj2 (Z.ltb_ge _ _)), Z.gtb_ltb, (proj2 (Z.ltb_ge _ _)) by lia. cbn [negb].
  unfold core_cmd_error, frcdrv_core_req_remove, frc_list_del, core_req_malloc. cbn [nodes].
  rewrite lookup_insert_eq. cbn [mbind option_bind le_next le_prev]. unfold set_prev.
  rewrite lookup_insert_ne by done. by rewrite (not_elem_of_dom_1 _ _ H0).
Qed.

(** ** The table of handlers *)
Section table.
Context {S : Type}.
Variable USER_CMD_MAX : Z.
Abbreviation init := (frcore_cmd_init (S := S) USER_CMD_MAX).

(** The sets of the three types commands are registered for. *)
Definition max_of (t : Z) : option Z :=
  if t =? CMD_TYPE_TEST then Some TEST_CMD_MAX else if t =? CMD_TYPE_CTRL then Some CTRL_CMD_MAX
  else if t =? CMD_TYPE_USER then Some USER_CMD_MAX else None.

(** The table holds exactly the handlers [f] for them; what [memset] and the rest left is there too. *)
Definition table_is (f : Z -> Z -> option (frcore_cmd_fn_t S)) (sets : list (frcore_cmd_set_t (S := S))) : Prop :=
  length sets = 5%nat /\ sets !! 0%nat = Some (FrcoreCmdSet (Some 0) (Some 0) None) /\
  sets !! 4%nat = Some (FrcoreCmdSet None None None) /\
  forall t max, max_of t = Some max -> exists num v,
    sets !! Z.to_nat t = Some (FrcoreCmdSet (Some max) (Some num) (Some v)) /\
    length v = Z.to_nat max /\ forall m, 0 <= m < max -> v !! Z.to_nat m = Some (f t m).

Lemma max_of_type t max : max_of t = Some max -> t = 1 \/ t = 2 \/ t = 3.
Proof.
  unfold max_of, CMD_TYPE_TEST, CMD_TYPE_CTRL, CMD_TYPE_USER.
  destruct (Z.eqb_spec t 1), (Z.eqb_spec t 2), (Z.eqb_spec t 3); auto; done.
Qed.

Lemma init_table oks st : (forall n, oks n = true) -> exists st', init oks st = (FRE_SUCCESS, st') /\
  table_is (fun _ _ => None) (frcore_cmdset st') /\ respond_buf st' = true /\ components st' = components st.
Proof.
  intros Ho. unfold frcore_cmd_init. rewrite !Ho. cbn [negb]. eexists. split; [done|]. split; [|done].
  cbn [frcore_cmdset]. split_and!; [done|done|done|].
  intros t max Hm. pose proof Hm as [-> |[-> | ->]]%max_of_type; injection Hm as <-; unfold empty_set;
    do 2 eexists; (split; [reflexivity|]); (split; [apply length_replicate|]);
    intros m Hm; rewrite lookup_replicate; (split; [done|lia]).
Qed.

Definition update (f : Z -> Z -> option (frcore_cmd_fn_t S)) (t m : Z) (fn : frcore_cmd_fn_t S) : Z -> Z -> option (frcore_cmd_fn_t S) :=
  fun t' m' => if decide (t' = t /\ m' = m) then Some fn else f t' m'.

Lemma in_set t (l : list (frcore_cmd_set_t (S := S))) : 0 <= t -> arr_get l t = l !! Z.to_nat t.
Proof. intros. unfold arr_get. by rewrite (proj2 (Z.leb_le _ _)). Qed.

Lemma register_ok f st t max m fn :
  table_is f (frcore_cmdset st) -> max_of t = Some max -> 0 <= m ->
  exists rv st', frcore_cmd_register t m fn st = Some (rv, st') /\ components st' = components st /\
    respond_buf st' = respond_buf st /\
    if m >=? max then rv = FRE_UNSUPPORT /\ st' = st
    else match f t m with
         | Some _ => rv = FRE_EXIST /\ st' = st
         | None => rv = FRE_SUCCESS /\ table_is (update f t m fn) (frcore_cmdset st')
         end.
Proof.
  intros (H5 & H0 & H4 & Ht) Hm Hm0. destruct (Ht t max Hm) as (num & v & Es & Hv & Hf).
  pose proof (max_of_type _ _ Hm) as Htt. unfold frcore_cmd_register.
  rewrite Z.geb_leb. unfold CMD_TYPE_MAX. rewrite (proj2 (Z.leb_gt _ _)) by lia.
  rewrite in_set, Es by lia. cbn [mbind option_bind set_max vector set_num].
  rewrite Z.geb_leb. destruct (Z.leb_spec max m) as [Hge|Hlt]; [eauto 10|].
  unfold arr_get. rewrite (proj2 (Z.leb_le _ _)) by lia. rewrite (Hf m) by lia. cbn [mbind option_bind].
  destruct (f t m) as [g|] eqn:Ef; [eauto 10|].
  rewrite arr_set_eq by lia. cbn [mbind option_bind]. rewrite arr_set_eq by lia. cbn [mbind option_bind].
  do 2 eexists. split; [done|]. cbn [components respond_buf frcore_cmdset]. split_and!; [done..|].
  split_and!; [by rewrite length_insert|rewrite list_lookup_insert_ne; [done|lia]|rewrite list_lookup_insert_ne; [done|lia]|].
  intros t' max' Hm'. pose proof (max_of_type _ _ Hm') as Htt'. destruct (decide (t' = t)) as [->|Hne].
  - rewrite Hm in Hm'. injection Hm' as <-. rewrite list_lookup_insert_eq by lia. do 2 eexists. split; [done|].
    split; [by rewrite length_insert|]. intros m' Hm'. unfold update. destruct (decide (m' = m)) as [->|Hmm].
    + rewrite list_lookup_insert_eq by lia. by rewrite decide_True.
    + rewrite list_lookup_insert_ne by lia. rewrite decide_False by naive_solver. by apply Hf.
  - rewrite list_lookup_insert_ne by lia. destruct (Ht t' max' Hm') as (num' & v' & E' & L' & F').
    exists num', v'. split_and!; [done|done|]. intros m' Hmm. rewrite F' by done. unfold update. by rewrite decide_False by naive_solver.
Qed.

(** registering a handler takes a free entry of its table, and only that; an entry that is
    taken is kept, and a command beyond the table is refused. *)
Theorem cmd_register_spec f st t max m fn :
  table_is f (frcore_cmdset st) -> max_of t = Some max -> 0 <= m ->
  exists rv st', frcore_cmd_register t m fn st = Some (rv, st') /\ components st' = components st /\
    respond_buf st' = respond_buf st /\
    if m >=? max then rv = FRE_UNSUPPORT /\ st' = st
    else match f t m with
         | Some _ => rv = FRE_EXIST /\ st' = st
         | None => rv = FRE_SUCCESS /\ table_is (update f t m fn) (frcore_cmdset st')
         end.
Proof. apply register_ok. Qed.

(** The handler found for a command. *)
Lemma find_handler_spec f sets c b s : table_is f sets -> cmd_ok c -> c_type c <> CMD_TYPE_DRV ->
  find_handler c (Card sets b s) = Some (
    match max_of (c_type c) with
    | Some max => if c_cmd c >=? max then inl FRE_UNSUPPORT
                  else match f (c_type c) (c_cmd c) with Some fn => inr fn | None => inl FRE_UNREGISTER end
    | None => inl FRE_UNSUPPORT
    end).
Proof.
  intros (H5 & H0 & H4 & Ht) [H1 H2 _ _] Hd. unfold find_handler, CMD_TYPE_DRV, CMD_TYPE_MAX in *. cbn [frcore_cmdset].
  rewrite Z.geb_leb. destruct (Z.leb_spec 5 (c_type c)) as [Hge|Hlt].
  { unfold max_of, CMD_TYPE_TEST, CMD_TYPE_CTRL, CMD_TYPE_USER.
    by rewrite !(proj2 (Z.eqb_neq _ _)) by lia. }
  rewrite in_set by lia. destruct (max_of (c_type c)) as [max|] eqn:Em.
  - destruct (Ht _ _ Em) as (num & v & -> & Hv & Hf). cbn [mbind option_bind set_max vector].
    destruct (c_cmd c >=? max) eqn:Ec; [done|]. rewrite Z.geb_leb in Ec. apply Z.leb_gt in Ec.
    unfold arr_get. rewrite (proj2 (Z.leb_le _ _)) by lia. by rewrite Hf by lia.
  - assert (c_type c = 0) as ->.
    { revert Em. unfold max_of, CMD_TYPE_TEST, CMD_TYPE_CTRL, CMD_TYPE_USER.
      destruct (Z.eqb_spec (c_type c) 1), (Z.eqb_spec (c_type c) 2), (Z.eqb_spec (c_type c) 3); try done. lia. }
    change (Z.to_nat 0) with 0%nat. rewrite H0. cbn [mbind option_bind set_max]. rewrite Z.geb_leb.
    by rewrite (proj2 (Z.leb_le _ _)) by lia.
Qed.

(** a packet for the type [CMD_TYPE_DRV] makes the card read a table nobody wrote, because
    only the first eight bytes of the tables are cleared. *)
Theorem cmd_drv_type_uninitialised f st c param : table_is f (frcore_cmdset st) -> respond_buf st = true ->
  cmd_ok c -> c_type c = CMD_TYPE_DRV ->
  frcore_process_frc_cmd true (be_bytes 8 (cmd_word c) ++ param) st = None.
Proof.
  intros (H5 & H0 & H4 & Ht) Hb Hc Hd. unfold frcore_process_frc_cmd. rewrite Hb. cbn [negb].
  destruct (cmd_word_roundtrip _ Hc) as [E Hw]. rewrite read_header by done. cbn [mbind option_bind].
  rewrite le_value_field by done. rewrite E. unfold find_handler. rewrite Hd. unfold CMD_TYPE_DRV, CMD_TYPE_MAX.
  change (4 >=? 5) with false. cbv iota. rewrite in_set by lia. change (Z.to_nat 4) with 4%nat. by rewrite H4.
Qed.
End table.

(** ** Witnesses: one caller, one command that counts its calls *)
Definition count_fn : frcore_cmd_fn_t Z := fun plen param outbuf s => Some (FRE_SUCCESS, 1, (s + 1) :: drop 1 outbuf, s + 1).
Definition count_call : call := Call CMD_TYPE_USER 1 0 None (Some 1) true.
Definition count_card : card Z :=
  match frcore_cmd_register CMD_TYPE_USER 1 count_fn (frcore_cmd_init 2 (fun _ => true) (Card [] false 5)).2 with
  | Some (_, st) => st | None => Card [] false 0 end.
Definition count_heap : node_heap := {[100 := FrcList 0 0]}.
Definition count_drv : driver := match frcdrv_cmd_init 100 count_heap with Some d => d | None => Driver ∅ ∅ 0 end.
Definition count_legal (c : call) : Prop := c = count_call.
Definition count_good (s : Z) : Prop := True.
Definition count_events : list event :=
  [EStart count_call (Some 5000) true true; ECard 0 true true;
   EAnswer 0 [respond_bytes (FrcCmdRespond FRE_SUCCESS 1 1 (6 :: replicate 1023 0))]].
Definition count_world : world := start_world count_drv count_card.
Definition swap_demo (n : nat) (bs : list Z) : list Z := swap_buff n bs.

Lemma swap_demo_law : swap_law swap_demo.
Proof. by intros n bs _. Qed.

Lemma count_drv_ok : drv_ok 100 count_drv [].
Proof.
  destruct (init_ok 100 count_heap) as (d & E & Hd & _); [apply elem_of_dom; by eexists|apply dom_singleton_L|].
  unfold count_drv. by rewrite E.
Qed.

Lemma count_table : table_ok count_legal count_good (frcore_cmdset count_card).
Proof.
  intros c seq s _ ->. exists (inr count_fn). split; [reflexivity|]. intros fn [= <-] s' _.
  do 4 eexists. split; [reflexivity|]. split; [reflexivity|exact I].
Qed.

Lemma count_table_is : table_is 2 (update (fun _ _ => None) CMD_TYPE_USER 1 count_fn) (frcore_cmdset count_card).
Proof.
  destruct (init_table 2 (fun _ => true) (Card [] false 5)) as (st' & E & Ht & _); [done|].
  destruct (register_ok 2 _ st' CMD_TYPE_USER 2 1 count_fn Ht) as (rv & st1 & E1 & _ & _ & _ & H); [done|done|].
  unfold count_card. rewrite E. cbn [snd]. by rewrite E1.
Qed.

Lemma events_ok_cons {S} swap head legal e es (w w1 : world (S := S)) : event_ok legal e w -> world_do swap head e w = Some w1 ->
  events_ok swap head legal es w1 -> events_ok swap head legal (e :: es) w.
Proof. intros H E H1. split; [done|]. intros w' E'. rewrite E in E'. by injection E' as <-. Qed.

Lemma count_events_ok : events_ok swap_demo 100 count_legal count_events count_world.
Proof.
  eapply events_ok_cons; [|vm_compute; reflexivity|].
  - split_and!; [|done|done|].
    + split; unfold count_call, CMD_TYPE_USER, FRC_CMD_RESPOND_DATA_SZ; cbn; [lia..|by intros input|lia].
    + intros p [= <-]. apply (bool_decide_unpack _). vm_compute. exact I.
  - eapply events_ok_cons; [apply Nat.ltb_lt; vm_compute; reflexivity|vm_compute; reflexivity|].
    eapply events_ok_cons; [vm_compute; reflexivity|vm_compute; reflexivity|exact I].
Qed.

Lemma cmd_own_answer_witness : exists w, CmdSys.world_run swap_demo 100 count_events count_world = Some w /\ NoDup (w_issued w).*1.
Proof.
  destruct (cmd_own_answer swap_demo swap_demo_law 100 count_legal count_good (frcore_cmdset count_card) count_table
    count_drv 5 count_events count_drv_ok eq_refl I count_events_ok ltac:(reflexivity)) as (w & E & _ & Hn & _).
  exists w. split; [exact E|exact Hn].
Defined.

Lemma cmd_requests_listed_witness : exists w ps, CmdSys.world_run swap_demo 100 count_events count_world = Some w /\ drv_ok 100 (w_drv w) ps.
Proof.
  destruct (cmd_requests_listed swap_demo swap_demo_law 100 count_legal count_good (frcore_cmdset count_card) count_table
    count_drv 5 count_events count_drv_ok eq_refl I count_events_ok ltac:(reflexivity)) as (w & ps & E & Hd & _).
  exists w, ps. split; [exact E|exact Hd].
Defined.

(** Here the answer has come, and one round is enough. *)
Lemma cmd_call_returns_witness : exists w j w', CmdSys.world_run swap_demo 100 count_events count_world = Some w /\
  (j <= 300)%nat /\ CmdSys.world_run swap_demo 100 (replicate j (EPoll 5000)) w = Some w' /\ 5000 ∉ dom (w_calls w').
Proof.
  destruct (cmd_run_ok swap_demo swap_demo_law 100 count_legal count_good (frcore_cmdset count_card) count_table count_events 0 count_world
    (start_inv 100 count_legal count_good (frcore_cmdset count_card) count_drv 5 count_drv_ok eq_refl I) ltac:(reflexivity) count_events_ok) as (w & lg & E & _).
  assert (5000 ∈ dom (w_calls w)) as Hp.
  { apply (bool_decide_unpack _). vm_compute in E. injection E as <-. vm_compute. exact I. }
  destruct (cmd_call_returns swap_demo swap_demo_law 100 count_legal count_good (frcore_cmdset count_card) count_table
    count_drv 5 count_events w 5000 count_drv_ok eq_refl I count_events_ok ltac:(reflexivity) E Hp) as (j & w' & Hj & E' & Hout).
  exists w, j, w'. split; [exact E|]. split; [exact Hj|]. split; [exact E'|exact Hout].
Defined.

Lemma cmd_malloc_failure_null_witness : frcdrv_core_cmd_start swap_demo 100 count_call (Some 5000) false true count_drv = None.
Proof.
  apply cmd_malloc_failure_null; [cbn; lia|lia|]. rewrite (d_nodes _ _ _ count_drv_ok). apply (bool_decide_unpack _). vm_compute. exact I.
Defined.

Lemma cmd_register_spec_witness : exists rv st', frcore_cmd_register CMD_TYPE_USER 1 count_fn count_card = Some (rv, st') /\ rv = FRE_EXIST.
Proof.
  destruct (cmd_register_spec 2 _ count_card CMD_TYPE_USER 2 1 count_fn count_table_is eq_refl ltac:(lia)) as (rv & st' & E & _ & _ & H & _).
  exists rv, st'. split; [exact E|exact H].
Defined.

Lemma cmd_drv_type_uninitialised_witness :
  frcore_process_frc_cmd true (be_bytes 8 (cmd_word (FrcoreCmd CMD_TYPE_DRV 1 0 7)) ++ []) count_card = None.
Proof.
  apply (cmd_drv_type_uninitialised 2 _ count_card (FrcoreCmd CMD_TYPE_DRV 1 0 7) [] count_table_is); [reflexivity| |reflexivity].
  split; unfold CMD_TYPE_DRV; cbn; lia.
Defined.
