(* ===== verification/CmdTable.v ===== *)
(** * Tables of commands

    What is common to the components with commands: their registration, and the way of a
    call from the packet to the handler and of its answer to the caller. *)

From stdpp Require Import list gmap.
From S2P Require Import Prelude Bytes FrcList Cmd CmdProps CmdSys CmdThm.
#[local] Open Scope Z_scope.

Lemma write_front b bs : (length bs <= length b)%nat ->
  exists data, write_bytes b 0 bs = Some data /\ take (length bs) data = bs /\ length data = length b.
Proof.
  intros Hl. unfold write_bytes. rewrite Nat.add_0_l, (proj2 (Nat.leb_le _ _)) by done. eexists. split; [done|].
  rewrite take_0. cbn [app]. rewrite take_app_le, take_ge by lia. split; [done|]. rewrite length_app, length_drop. lia.
Qed.

Section table.
Context {S : Type}.

(** [fn] answers [out] with code [rv] and leaves [st']. *)
Definition answers (fn : frcore_cmd_fn_t S) (c : call) (st : S) (rv : Z) (out : list Z) (st' : S) : Prop :=
  forall buf, length buf = Z.to_nat FRC_CMD_RESPOND_DATA_SZ ->
  exists data, fn (k_ilen c) (param_of c) buf st = Some (rv, Z.of_nat (length out), data, st') /\
    take (length out) data = out /\ length data = length buf.

(** ** Registration *)
Fixpoint table_of (l : list (Z * frcore_cmd_fn_t S)) (f : Z -> Z -> option (frcore_cmd_fn_t S)) :
    Z -> Z -> option (frcore_cmd_fn_t S) :=
  match l with [] => f | (cmd, fn) :: l => table_of l (update f CMD_TYPE_USER cmd fn) end.

Lemma register_all_spec max l f st : table_is max f (frcore_cmdset st) ->
  (forall cmd fn, (cmd, fn) ∈ l -> 0 <= cmd < max) -> NoDup l.*1 -> (forall cmd, cmd ∈ l.*1 -> f CMD_TYPE_USER cmd = None) ->
  exists st', register_all l st = Some (FRE_SUCCESS, st') /\ table_is max (table_of l f) (frcore_cmdset st') /\
    components st' = components st /\ respond_buf st' = respond_buf st.
Proof.
  revert f st. induction l as [|[cmd fn] l IH]; intros f st Ht Hc Hn Hf; [by exists st|].
  cbn [register_all table_of]. rewrite fmap_cons in Hn, Hf. apply NoDup_cons in Hn as [Hnew Hn].
  destruct (Hc cmd fn ltac:(left)) as [Hc0 Hcm].
  destruct (register_ok max f st CMD_TYPE_USER max cmd fn Ht ltac:(done) Hc0) as (rv & st1 & -> & Ec & Eb & Hr).
  rewrite Z.geb_leb, (proj2 (Z.leb_gt max cmd)) in Hr by lia. rewrite Hf in Hr by (simpl; left). destruct Hr as [-> Ht1]. cbn [mbind option_bind].
  change (negb (FRE_SUCCESS =? 0)) with false. cbv iota.
  destruct (IH _ st1 Ht1) as (st2 & -> & Ht2 & Ec2 & Eb2).
  - intros c g Hin. apply (Hc c g). by right.
  - done.
  - intros c Hin. unfold update. rewrite decide_False by (intros [_ ->]; done). apply Hf. by right.
  - exists st2. by rewrite Ec2, Eb2.
Qed.

(** ** A call from the packet to the answer *)

(** A user command in the table gets its parameters and the caller its answer. *)
Lemma process_answer max f sets c seq fn st rv out st' : table_is max f sets -> call_ok c -> 0 <= seq < 2 ^ 32 ->
  k_type c = CMD_TYPE_USER -> k_cmd c < max -> f CMD_TYPE_USER (k_cmd c) = Some fn -> answers fn c st rv out st' ->
  exists data, frcore_process_frc_cmd true (packet_of c seq) (Card sets true st) =
      Some (Some (respond_bytes (FrcCmdRespond rv (Z.of_nat (length out)) seq data)), Card sets true st') /\
    take (length out) data = out /\ length data = Z.to_nat FRC_CMD_RESPOND_DATA_SZ.
Proof.
  intros Ht Hc Hs Hty Hk Hf Ha.
  destruct (Ha (replicate (Z.to_nat FRC_CMD_RESPOND_DATA_SZ) 0) (length_replicate _ _)) as (data & Ef & Et & El).
  exists data. split; [|by rewrite El, length_replicate]. pose proof (req_cmd_ok _ seq Hc Hs) as Hrc.
  unfold frcore_process_frc_cmd, packet_of. cbn [negb respond_buf].
  destruct (cmd_word_roundtrip _ Hrc) as [E Hw]. rewrite read_header by done. cbn [mbind option_bind].
  rewrite le_value_field, E by done.
  rewrite (find_handler_spec max f) by (first [done|change (k_type c <> CMD_TYPE_DRV); by rewrite Hty]).
  change (c_type (req_cmd c seq)) with (k_type c). rewrite Hty. pose proof (co_cmd _ Hc) as Hc0.
  change (max_of max CMD_TYPE_USER) with (Some max). cbv iota. change (c_cmd (req_cmd c seq)) with (k_cmd c).
  rewrite Z.geb_leb, (proj2 (Z.leb_gt _ _)), Hf by lia. cbn [mbind option_bind req_cmd c_len c_seq components frcore_cmdset respond_buf].
  rewrite drop_app_ge, length_be_bytes by (rewrite length_be_bytes; lia). change (8 - 8)%nat with 0%nat. rewrite drop_0.
  fold (param_of c). by rewrite Ef.
Qed.

End table.

(** What the caller of [frcdrv_core_cmd] gets for the answer [(rv, out)]. *)
Definition caller_result (c : call) (rv : Z) (out : list Z) : result :=
  (u16 rv, if (u16 rv =? FRE_SUCCESS) && k_output c then Some (Z.of_nat (length out), out) else None).

Lemma answer_result c rv out seq data : (exists n, k_olen c = Some n) -> Z.of_nat (length out) <= default 0 (k_olen c) <= FRC_CMD_RESPOND_DATA_SZ ->
  take (length out) data = out -> length data = Z.to_nat FRC_CMD_RESPOND_DATA_SZ ->
  core_cmd_answer c (stored (FrcCmdRespond rv (Z.of_nat (length out)) seq data)) = Some (caller_result c rv out).
Proof.
  intros [n En] Hl Et El. rewrite En in Hl. cbn [from_option id] in Hl. unfold core_cmd_answer, stored, caller_result.
  cbn [r_ret r_len r_seq r_data]. rewrite En. cbn [from_option id]. unfold FRC_CMD_RESPOND_DATA_SZ in *.
  rewrite (wrapu_id 16 (Z.of_nat _)) by (simpl; lia). rewrite (proj2 (Z.ltb_ge _ _)) by lia.
  destruct (_ && _); [|done]. rewrite read_bytes_eq by (rewrite ?El; lia). cbn [mbind option_bind].
  change (Z.to_nat 0) with 0%nat. by rewrite drop_0, Nat2Z.id, Et.
Qed.

