(* ===== verification/Api.v ===== *)
(** * The library: src/code/frcapi/frc_api.c

    Every function of the library is one call of the driver: a command, the memory the
    caller points to as its parameters, and room for the answer.  What is compiled out of
    the configured build ([FRC_CONFIG_TWO_TUPLE], [UDP], [MAC_STATISTICS],
    [TIMESTAMP_CHECK]) has no command number and is left out; the calls about rules are in
    [CmdRule]. *)

From stdpp Require Import list.
From S2P Require Import Prelude Bytes FrcList Cmd CmdProps CmdSys CmdThm CmdTable.
#[local] Open Scope Z_scope.

(** ** Calls *)

(** A call of a user command with the structure [input] as its parameters. *)
Definition api_call (cmd : Z) (input : option (list Z)) (olen : Z) (output : bool) : call :=
  Call CMD_TYPE_USER cmd (Z.of_nat (length (default [] input))) input (Some olen) output.

(** Calls that read [olen] bytes, and that send the [ilen] bytes at [input]. *)
Definition api_get (cmd olen : Z) : call := Call CMD_TYPE_USER cmd 0 None (Some olen) true.
Definition api_set (cmd ilen : Z) (input : list Z) : call := Call CMD_TYPE_USER cmd ilen (Some input) (Some 0) false.
Definition api_do (cmd : Z) : call := Call CMD_TYPE_USER cmd 0 None (Some 0) false.
Definition api_query (cmd ilen : Z) (input : list Z) (olen : Z) : call := Call CMD_TYPE_USER cmd ilen (Some input) (Some olen) true.


(** Flow recovery *)
Definition frcapi_fr_status_get : call := api_get USER_CMD_GET_FR_STATUS 4.
Definition frcapi_fr_enable (enable : Z) : call := api_set USER_CMD_FR_ENABLE 1 [u8 enable].
Definition frcapi_fr_age_time_set (age : Z) : call := api_set USER_CMD_SET_AGE_TIME 1 [u8 age].
Definition frcapi_fr_disorder_depth_set (disorder : Z) : call := api_set USER_CMD_SET_DISORDER_DEPTH 1 [u8 disorder].
Definition frcapi_ssn_get (fr_tuple : list Z) : call := api_query USER_CMD_SSN_GET_FIVETUPLE 16 fr_tuple 8.
Definition frcapi_ssn_bucket_get (hash : Z) : call := api_query USER_CMD_SSN_BUCKET_GET 4 (reverse (be_bytes 4 hash)) 100.
Definition frcapi_ssn_match (ssn_match : list Z) : call := api_query USER_CMD_SSN_MATCH 24 ssn_match 8.

(** The card *)
Definition frcapi_bdd_info_get : call := api_get USER_CMD_GET_BDD_INFO 28.
Definition frcapi_frcdrv_version_get : call := Call CMD_TYPE_DRV DRV_CMD_GET_VERSION 0 None (Some 4) true.
Definition frcapi_bdd_status_get : call := api_get USER_CMD_GET_BDD_STATUS 80.
Definition frcapi_bdd_poweroff : call := api_do USER_CMD_POWEROFF.
Definition frcapi_bdd_port_enable (set_port : list Z) : call := api_set USER_CMD_BDD_PORT_ENABLE 2 set_port.
Definition frcapi_bdd_port_loopback_set (mode : list Z) : call := api_set USER_CMD_SET_LOOPBACK_MODE 2 mode.
Definition frcapi_bdd_log_config_set (log_in : list Z) : call := api_set USER_CMD_CONFIG_LOG_SW 2 log_in.
(** [op] is the first byte of the argument, the rest starts at its alignment. *)
Definition frcapi_bdd_phy (op : Z) (phy : list Z) : call :=
  if op =? 0 then api_query USER_CMD_GET_PHY 8 phy 8 else api_set USER_CMD_SET_PHY 8 phy.
Definition frcapi_bdd_cpld (op : Z) (cpld : list Z) : call :=
  if op =? 0 then api_query USER_CMD_GET_CPLD 8 cpld 8 else api_set USER_CMD_SET_CPLD 8 cpld.
Definition frcapi_bdd_workmode_set (workmode : list Z) : call := api_set USER_CMD_SET_WORK_MODE 2 workmode.
Definition frcapi_bdd_force_link (force_link : list Z) : call := api_set USER_CMD_FORCE_LINK 2 force_link.
Definition frcapi_sysinfo_get : call := api_get USER_CMD_GET_SYSINFO 112.

(** Transfers, counters and channels; the length of an answer is a 16-bit field *)
Definition frcapi_dma_block_set (size : Z) : call := api_set USER_CMD_SET_DMA_BLOCK_SIZE 1 [u8 size].
Definition frcapi_dma_mem_read (addr size : Z) : call :=
  api_query USER_CMD_READ_DMA 8 (reverse (be_bytes 4 addr) ++ reverse (be_bytes 4 size)) (u16 size).
Definition frcapi_stat_clear : call := api_do USER_CMD_CLEAR_STAT.
Definition frcapi_pkt_stat_get (index num : Z) : call :=
  api_query USER_CMD_GET_STAT 8 (reverse (be_bytes 4 index) ++ reverse (be_bytes 4 num)) (u16 (8 * num)).
Definition frcapi_chan_or_pr_ssn_start (type : Z) : call :=
  Call CMD_TYPE_DRV DRV_CMD_GET_POOL_AND_RING_ADDR 8 (Some (reverse (be_bytes 8 type))) (Some 56) true.
Definition frcapi_chan_or_pr_rule_or_udp_start (type : Z) : call :=
  Call CMD_TYPE_DRV DRV_CMD_GET_POOL_AND_RING_ADDR 8 (Some (reverse (be_bytes 8 type))) (Some 40) true.
(** The variable [output] is a null pointer, so no room is ever given. *)
Definition frcapi_chan_test_start (chan : list Z) : call := Call CMD_TYPE_TEST TEST_CMD_SIMPLE_PACKET_CHAN 8 (Some chan) (Some 0) false.

(** VLAN check *)
Definition frcapi_vlan_check_status_get : call := api_get USER_CMD_GET_VLAN_CHECK_PARAMETER 8.
Definition frcapi_vlan_check_set_parameter (vlan_check_para : list Z) : call := api_set USER_CMD_SET_VLAN_CHECK_PARAMETER 8 vlan_check_para.
Definition frcapi_vlan_check_stat_clear : call := api_do USER_CMD_CLEAR_VLAN_CHECK_STAT.
Definition frcapi_vlan_check_stat_get (index num port reserv : Z) : call :=
  api_query USER_CMD_GET_VLAN_CHECK_STAT 16
    (reverse (be_bytes 4 index) ++ reverse (be_bytes 4 num) ++ reverse (be_bytes 4 port) ++ reverse (be_bytes 4 reserv)) (u16 (8 * num)).
Definition frctweak_ipc_hash4_mask_set (mask_set : list Z) : call := api_set USER_CMD_VLAN_V4_HASH_MASK_SET 24 mask_set.
Definition frctweak_ipc_hash6_mask_set (mask_set : list Z) : call := api_set USER_CMD_VLAN_V6_HASH_MASK_SET 24 mask_set.

(** Inter-chassis packets *)
Definition frcapi_ipc_misc_get : call := api_get USER_CMD_IPC_MISC_GET 8.
Definition frcapi_ipc_misc_set (misc : list Z) : call := api_set USER_CMD_IPC_MISC_SET 8 misc.
Definition frcapi_ipc_cur_get : call := api_get USER_CMD_IPC_CUR_GET 16.
Definition frcapi_ipc_cur_set (cur : list Z) : call := api_set USER_CMD_IPC_CUR_SET 16 cur.
Definition frcapi_ipc_exp_get : call := api_get USER_CMD_IPC_EXP_GET 24.
Definition frcapi_ipc_exp_set (exp : list Z) : call := api_set USER_CMD_IPC_EXP_SET 24 exp.
Definition frcapi_ipc_instr_get : call := api_get USER_CMD_IPC_INSTR_GET 32.
Definition frcapi_ipc_instr_set (instr : list Z) : call := api_set USER_CMD_IPC_INSTR_SET 32 instr.
Definition frcapi_ipc_instr_payload_set (payload_set : list Z) : call := api_set USER_CMD_IPC_INSTR_PAYLOAD_SET 40 payload_set.

(** [frcapi_ioctl]; [ioctl] gives the return of the system call and what it leaves in
    [arg->rv].  For a type that is neither of the two the variable [rv] has no value. *)
Definition frcapi_ioctl (open_ok : bool) (c : call) (ioctl : ioctl_request -> Z * Z) : option Z :=
  r ← frcapi_ioctl_request open_ok (k_type c);
  Some (match r with
    | inl rv => rv
    | inr request => let '(rv, arg_rv) := ioctl request in frcapi_ioctl_return rv arg_rv
    end).

(** ** Every call fits the driver *)

(** What [frcdrv_core_cmd] asks of its arguments. *)
Definition fits (c : call) : Prop := call_ok c /\ k_ilen c <= FRCORE_CMD_INPUT_MAX.

Lemma get_fits cmd olen : 0 <= cmd < 2 ^ 12 -> olen <= FRC_CMD_RESPOND_DATA_SZ -> fits (api_get cmd olen).
Proof. intros Hc Ho. split; [split; try done; by unfold api_get|done]. Qed.

Lemma do_fits cmd : 0 <= cmd < 2 ^ 12 -> fits (api_do cmd).
Proof. intros Hc. split; [split; try done; by unfold api_do|done]. Qed.

Lemma query_fits cmd ilen input olen : 0 <= cmd < 2 ^ 12 -> 0 <= ilen <= FRCORE_CMD_INPUT_MAX -> ilen <= Z.of_nat (length input) ->
  olen <= FRC_CMD_RESPOND_DATA_SZ -> fits (api_query cmd ilen input olen).
Proof.
  intros Hc Hi Hl Ho. split; [|apply Hi]. unfold FRCORE_CMD_INPUT_MAX in Hi. split; cbn; [done|lia|lia| |done]. by intros ? [= <-].
Qed.

Lemma set_fits cmd ilen input : 0 <= cmd < 2 ^ 12 -> 0 <= ilen <= FRCORE_CMD_INPUT_MAX -> ilen <= Z.of_nat (length input) ->
  fits (api_set cmd ilen input).
Proof.
  intros Hc Hi Hl. split; [|apply Hi]. unfold FRCORE_CMD_INPUT_MAX in Hi. split; cbn; [done|lia|lia| |done]. by intros ? [= <-].
Qed.

(** The calls whose sizes are fixed, on arguments of the sizes of their structures. *)
Definition fixed_calls (v : Z) (s : nat -> list Z) : list call :=
  [frcapi_fr_status_get; frcapi_fr_enable v; frcapi_fr_age_time_set v; frcapi_fr_disorder_depth_set v; frcapi_ssn_get (s 16%nat);
   frcapi_ssn_bucket_get v; frcapi_ssn_match (s 24%nat); frcapi_bdd_info_get; frcapi_bdd_status_get; frcapi_bdd_poweroff;
   frcapi_bdd_port_enable (s 2%nat); frcapi_bdd_port_loopback_set (s 2%nat); frcapi_bdd_log_config_set (s 2%nat);
   frcapi_bdd_phy v (s 8%nat); frcapi_bdd_cpld v (s 8%nat); frcapi_bdd_workmode_set (s 2%nat); frcapi_bdd_force_link (s 2%nat);
   frcapi_sysinfo_get; frcapi_dma_block_set v; frcapi_stat_clear; frcapi_chan_test_start (s 8%nat); frcapi_vlan_check_status_get;
   frcapi_vlan_check_set_parameter (s 8%nat); frcapi_vlan_check_stat_clear; frctweak_ipc_hash4_mask_set (s 24%nat);
   frctweak_ipc_hash6_mask_set (s 24%nat); frcapi_ipc_misc_get; frcapi_ipc_misc_set (s 8%nat); frcapi_ipc_cur_get;
   frcapi_ipc_cur_set (s 16%nat); frcapi_ipc_exp_get; frcapi_ipc_exp_set (s 24%nat); frcapi_ipc_instr_get;
   frcapi_ipc_instr_set (s 32%nat); frcapi_ipc_instr_payload_set (s 40%nat); frcapi_frcdrv_version_get;
   frcapi_chan_or_pr_ssn_start v; frcapi_chan_or_pr_rule_or_udp_start v].

Lemma query_fits_iff cmd ilen input n : 0 <= cmd < 2 ^ 12 -> 0 <= ilen <= FRCORE_CMD_INPUT_MAX -> ilen = Z.of_nat (length input) ->
  fits (api_query cmd ilen input n) <-> n <= FRC_CMD_RESPOND_DATA_SZ.
Proof. intros Hc Hi Hl. split; [intros [[_ _ _ _ Ho] _]; exact Ho|]. intros Ho. apply query_fits; [done|done|lia|done]. Qed.

(** every call of the library has parameters the driver accepts and asks for no more than an
    answer can carry; for the calls that read counters or transfer memory this holds exactly
    up to 128 counters or 1024 bytes - modulo the 16 bits of the length. *)
Theorem api_calls_fit v s : (forall n, length (s n) = n) ->
  Forall fits (fixed_calls v s) /\
  (forall index num, fits (frcapi_pkt_stat_get index num) <-> u16 (8 * num) <= 1024) /\
  (forall index num port reserv, fits (frcapi_vlan_check_stat_get index num port reserv) <-> u16 (8 * num) <= 1024) /\
  (forall addr size, fits (frcapi_dma_mem_read addr size) <-> u16 size <= 1024).
Proof.
  intros Hs. split; [|split; [|split]].
  - unfold fixed_calls, frcapi_bdd_phy, frcapi_bdd_cpld. destruct (v =? 0).
    all: repeat (apply Forall_cons; split); [..|apply Forall_nil; done].
    all: first [apply get_fits; done|apply do_fits; done
      |apply set_fits; [done|done|rewrite ?Hs; done]
      |apply query_fits; [done|done|rewrite ?Hs, ?length_reverse, ?length_be_bytes; done|done]
      |split; [split; try done; intros input [= <-]; rewrite ?Hs, ?length_reverse, ?length_be_bytes; done|done]].
  - intros index num. apply query_fits_iff; [done|done|]. by rewrite length_app, !length_reverse, !length_be_bytes.
  - intros index num port reserv. apply query_fits_iff; [done|done|]. by rewrite !length_app, !length_reverse, !length_be_bytes.
  - intros addr size. apply query_fits_iff; [done|done|]. by rewrite length_app, !length_reverse, !length_be_bytes.
Qed.

(** ** What a caller gets *)

(** a call that fits, whose command is in the card's table with a handler that answers with
    a code and some bytes, brings the code to the caller and, for success, the bytes. *)
Theorem api_call_served {S} max f sets c seq (fn : frcore_cmd_fn_t S) st rv out st' : table_is max f sets -> fits c -> 0 <= seq < 2 ^ 32 ->
  k_type c = CMD_TYPE_USER -> k_cmd c < max -> f CMD_TYPE_USER (k_cmd c) = Some fn -> answers fn c st rv out st' ->
  (exists n, k_olen c = Some n /\ Z.of_nat (length out) <= n) ->
  exists a, frcore_process_frc_cmd true (packet_of c seq) (Card sets true st) = Some (Some (respond_bytes a), Card sets true st') /\ r_seq a = seq /\
    core_cmd_answer c (stored a) = Some (caller_result c rv out) /\
    frcapi_ioctl true c (fun _ => (0, (caller_result c rv out).1)) = Some (u16 rv).
Proof.
  intros Ht [Hc Hi] Hs Hty Hk Hf Ha (n & En & Hn).
  destruct (process_answer max f sets c seq fn st rv out st' Ht Hc Hs Hty Hk Hf Ha) as (data & E & Et & El).
  exists (FrcCmdRespond rv (Z.of_nat (length out)) seq data). split; [exact E|]. split; [done|]. split.
  - apply answer_result; [by eexists| |done|done]. rewrite En. cbn [from_option id]. pose proof (co_olen _ Hc) as Ho. rewrite En in Ho. cbn in Ho. lia.
  - unfold frcapi_ioctl, frcapi_ioctl_request. rewrite Hty. cbn. unfold frcapi_ioctl_return, FRE_SUCCESS.
    destruct (Z.eqb_spec (u16 rv) 0) as [E0|]; cbn; [|done]. by rewrite E0.
Qed.

Lemma api_calls_fit_witness : fits (frcapi_pkt_stat_get 0 128) /\ ~ fits (frcapi_pkt_stat_get 0 129).
Proof.
  destruct (api_calls_fit 1 (fun n => replicate n 0)) as (_ & H & _); [intros; apply length_replicate|].
  split; [apply H; vm_compute; discriminate|]. intros Hf. apply H in Hf. by vm_compute in Hf.
Defined.
