(* ===== verification/VlanCheck.v ===== *)
(** * VLAN checking of received packets: src/code/frcore/frcore_vlan_check.c

    Every tagged packet is checked against the id recomputed by [Alg]; the
    result is counted per port and per id in [vlan_id_stat].  The shared
    variables of the file are the fields of [vlan_state]; packets are lists of
    bytes addressed from the ethernet header and from the IP header. *)

From S2P Require Import Prelude Bytes Alg.
#[local] Open Scope Z_scope.

(** ** Counter indices: [frc_vlan_stat_e] of src/code/include/frc_types.h *)
Definition xe0_stat_vlan_id_total : Z := 2.
Definition xe0_stat_vlan_id_error : Z := 3.
Definition xe0_stat_vlan_id_0 : Z := 4.
Definition stat_vlan_id_max : Z := 520.

Definition FRCORE_ACT_FORWARD : Z := 2.

(** The shared variables of frcore_vlan_check.c. *)
Record vlan_state : Type := VlanState {
  vlan_id_stat : list Z;
  vlan_id_start : Z;          (* uint16_t *)
  vlan_id_num : Z;            (* uint16_t *)
  vlan_check_hash_type : Z;   (* uint8_t *)
  vlan_masks : hash_masks }.

Definition vlan_init : vlan_state :=
  VlanState (replicate 520 0) 1024 128 1
    (HashMasks 0xffffffff 0xffffffff (replicate 16 0xff) (replicate 16 0xff)).

Definition set_stat (st : vlan_state) (s : list Z) : vlan_state :=
  VlanState s (vlan_id_start st) (vlan_id_num st) (vlan_check_hash_type st) (vlan_masks st).

(** The conversion of the stored [uint8_t] to the [HASH_EM] parameter. *)
Definition hash_em (t : Z) : HASH_EM :=
  if t =? 0 then FS_HSEL_NULL else if t =? 1 then FS_HSEL_SIP
  else if t =? 2 then FS_HSEL_DIP else if t =? 3 then FS_HSEL_SDIP else FS_HSEL_other.

(** ** Counters: the macros of frcore_vlan_check.h *)

Definition FRCORE_VLAN_STAT_INC (cnt : Z) (st : vlan_state) : option vlan_state :=
  v ← arr_get (vlan_id_stat st) cnt;
  s ← arr_set (vlan_id_stat st) cnt (wraps 64 (v + 1));
  Some (set_stat st s).

Definition FRCORE_PORT_VLAN_STAT_INC (port cnt : Z) (st : vlan_state) : option vlan_state :=
  if port =? 0 then FRCORE_VLAN_STAT_INC cnt st
  else FRCORE_VLAN_STAT_INC (cnt + stat_vlan_id_max / 2) st.

(** [void stat_vlan_check(uint8_t vid, uint64_t port)]: the argument is
    converted to [uint8_t]. *)
Definition stat_vlan_check (vid port : Z) (st : vlan_state) : option vlan_state :=
  let vid := u8 vid in
  st ← FRCORE_PORT_VLAN_STAT_INC port (xe0_stat_vlan_id_0 + vid) st;
  FRCORE_PORT_VLAN_STAT_INC port xe0_stat_vlan_id_total st.

(** ** Packet handlers *)

Definition count_check (ok : bool) (vlan_id ipprt : Z) (st : vlan_state) : option vlan_state :=
  if ok then stat_vlan_check (u16 (vlan_id - vlan_id_start st)) ipprt st
  else FRCORE_PORT_VLAN_STAT_INC ipprt xe0_stat_vlan_id_error st.

Definition frcore_vlan_check_v4 (ipprt : Z) (eth_ptr ip_ptr : list Z) (st : vlan_state)
    : option (Z * vlan_state) :=
  sip ← UP32 ip_ptr 12;
  dip ← UP32 ip_ptr 16;
  vlan_id ← UP16 eth_ptr 14;
  let vlan_id := Z.land vlan_id 0xfff in
  id_check ← ip4_calc_vlan true (vlan_masks st) (Ip4Pkt sip dip)
    (hash_em (vlan_check_hash_type st)) (vlan_id_num st) (vlan_id_start st);
  st ← count_check (id_check =? vlan_id) vlan_id ipprt st;
  Some (FRCORE_ACT_FORWARD, st).

(** Here [id_check] is a [uint16_t]; the addresses are bytes 8-23 and 24-39 of
    the IPv6 header. *)
Definition frcore_vlan_check_v6 (ipprt : Z) (eth_ptr ip_ptr : list Z) (st : vlan_state)
    : option (Z * vlan_state) :=
  vlan_id ← UP16 eth_ptr 14;
  let vlan_id := Z.land vlan_id 0xfff in
  saddr ← read_bytes ip_ptr 8 16;
  daddr ← read_bytes ip_ptr 24 16;
  r ← ip6_calc_vlan true (vlan_masks st) (Ip6Pkt saddr daddr)
    (hash_em (vlan_check_hash_type st)) (vlan_id_num st) (vlan_id_start st);
  let id_check := u16 r in
  st ← count_check (id_check =? vlan_id) vlan_id ipprt st;
  Some (FRCORE_ACT_FORWARD, st).

(** ** Commands *)

Definition FRC_VLAN_CHECK_SIP : Z := 1.
Definition FRC_VLAN_CHECK_DIP : Z := 2.

Definition set_masks (st : vlan_state) (m : hash_masks) : vlan_state :=
  VlanState (vlan_id_stat st) (vlan_id_start st) (vlan_id_num st) (vlan_check_hash_type st) m.

Definition frcore_cmd_vlan_v4_set_hash_mask (hash_type ip4 : Z) (st : vlan_state)
    : Z * vlan_state :=
  let m := vlan_masks st in
  if hash_type =? FRC_VLAN_CHECK_SIP then
    (FRE_SUCCESS, set_masks st
      (HashMasks ip4 (hash_dip4_mask m) (hash_sip6_mask m) (hash_dip6_mask m)))
  else if hash_type =? FRC_VLAN_CHECK_DIP then
    (FRE_SUCCESS, set_masks st
      (HashMasks (hash_sip4_mask m) ip4 (hash_sip6_mask m) (hash_dip6_mask m)))
  else (FRE_PARAM, st).

Definition frcore_cmd_vlan_v6_set_hash_mask (hash_type : Z) (ip6 : list Z) (st : vlan_state)
    : Z * vlan_state :=
  let m := vlan_masks st in
  let ip6 := swap_buff 2 ip6 in
  if hash_type =? FRC_VLAN_CHECK_SIP then
    (FRE_SUCCESS, set_masks st
      (HashMasks (hash_sip4_mask m) (hash_dip4_mask m) ip6 (hash_dip6_mask m)))
  else if hash_type =? FRC_VLAN_CHECK_DIP then
    (FRE_SUCCESS, set_masks st
      (HashMasks (hash_sip4_mask m) (hash_dip4_mask m) (hash_sip6_mask m) ip6))
  else (FRE_PARAM, st).

(** The fields of [frc_vlan_check_para_t]: type, start_id, num. *)
Definition frcore_cmd_vlan_check_get_para (st : vlan_state) : Z * (Z * Z * Z) :=
  (FRE_SUCCESS, (vlan_check_hash_type st, vlan_id_start st, vlan_id_num st)).

Definition frcore_cmd_vlan_check_set_para (ty start_id num : Z) (st : vlan_state)
    : Z * vlan_state :=
  (FRE_SUCCESS, VlanState (vlan_id_stat st) (u16 start_id) (u16 num) (u8 ty) (vlan_masks st)).

(** [index], [num], [port] of [frc_vlan_op_in_t]; the result is the list of
    values written to [outbuf] and [olen]. *)
Definition frcore_cmd_vlan_check_get_stat (index num port : Z) (st : vlan_state)
    : option (Z * list Z * Z) :=
  let cnt_offset := if port =? 16 then stat_vlan_id_max / 2 else 0 in
  vs ← foldM (fun acc i =>
      v ← arr_get (vlan_id_stat st) (u32 (u32 (index + i) + cnt_offset));
      Some (acc ++ [v])) (seqZ 0 num) [];
  Some (0, vs, u16 (num * 8)).

(** [for (i = 0; i < stat_vlan_id_max; i++) FRCORE_VLAN_STAT_CLEAR(i)] *)
Definition frcore_vlan_check_stat_clear (st : vlan_state) : option vlan_state :=
  s ← foldM (fun s i => arr_set s i 0) (seqZ 0 stat_vlan_id_max) (vlan_id_stat st);
  Some (set_stat st s).

Definition frcore_cmd_vlan_check_clear_stat (st : vlan_state) : option (Z * Z * vlan_state) :=
  st ← frcore_vlan_check_stat_clear st; Some (FRE_SUCCESS, 0, st).

(** ** Sums over a counter range *)

Fixpoint range_sum (f : Z -> Z) (b : Z) (n : nat) : Z :=
  match n with O => 0 | S n => f b + range_sum f (b + 1) n end.

Lemma range_sum_upd f f' b n j d :
  (forall i, f' i = f i + if i =? j then d else 0) ->
  range_sum f' b n =
    range_sum f b n + if (b <=? j) && (j <? b + Z.of_nat n) then d else 0.
Proof.
  intros Hf. revert b. induction n as [|n IH]; intros b.
  - simpl range_sum. destruct (_ && _) eqn:E; zb; lia.
  - simpl range_sum. rewrite IH, Hf.
    destruct (Z.eqb_spec b j), (Z.leb_spec (b + 1) j), (Z.leb_spec b j),
      (Z.ltb_spec j (b + 1 + Z.of_nat n)), (Z.ltb_spec j (b + Z.of_nat (S n)));
      simpl andb; cbv iota; lia.
Qed.

Lemma range_sum_zero b n : range_sum (fun _ => 0) b n = 0.
Proof. revert b. induction n as [|n IH]; intros b; simpl; [done|by rewrite IH]. Qed.

Lemma range_sum_ext f g b n :
  (forall i, b <= i < b + Z.of_nat n -> f i = g i) -> range_sum f b n = range_sum g b n.
Proof.
  revert b. induction n as [|n IH]; intros b H; simpl; [done|].
  rewrite H, IH by (intros; try apply H; lia). done.
Qed.

(** ** The counter invariant

    For both ports the per-id counters add up to the total counter, modulo the
    width of a counter, and the table has its declared size. *)
Definition id_sum (s : list Z) (off : Z) : Z :=
  range_sum (nthZ s) (off + xe0_stat_vlan_id_0) 256.

Definition stat_inv (st : vlan_state) : Prop :=
  Z.of_nat (length (vlan_id_stat st)) = stat_vlan_id_max /\
  forall off, off = 0 \/ off = 260 -> exists k,
    id_sum (vlan_id_stat st) off =
      nthZ (vlan_id_stat st) (off + xe0_stat_vlan_id_total) + k * 2 ^ 64.

(** The base of a port's half of the table. *)
Definition port_off (port : Z) : Z := if port =? 0 then 0 else 260.

Definition inc_at (s : list Z) (j : Z) : list Z :=
  <[Z.to_nat j := wraps 64 (nthZ s j + 1)]> s.

Lemma length_inc_at s j : length (inc_at s j) = length s.
Proof. apply length_insert. Qed.

Lemma wraps64_congr x : exists k, wraps 64 x = x + k * 2 ^ 64.
Proof.
  unfold wraps. pose proof (Z.div_mod x (2 ^ 64) ltac:(lia)).
  case_match; [exists (- (x / 2 ^ 64))|exists (- (x / 2 ^ 64) - 1)]; lia.
Qed.

Lemma nthZ_inc_at s j i :
  0 <= j < Z.of_nat (length s) ->
  exists k, nthZ (inc_at s j) i = nthZ s i + (if i =? j then 1 + k * 2 ^ 64 else 0).
Proof.
  intros Hj. destruct (wraps64_congr (nthZ s j + 1)) as [k Hk]. exists k.
  unfold inc_at. rewrite nthZ_insert by done. destruct (Z.eqb_spec i j); subst; lia.
Qed.

Lemma id_sum_inc_at s j off :
  0 <= j < Z.of_nat (length s) ->
  exists k, id_sum (inc_at s j) off = id_sum s off +
    (if (off + 4 <=? j) && (j <? off + 260) then 1 + k * 2 ^ 64 else 0).
Proof.
  intros Hj. destruct (wraps64_congr (nthZ s j + 1)) as [k Hk]. exists k.
  unfold id_sum, xe0_stat_vlan_id_0.
  rewrite (range_sum_upd (nthZ s) _ _ _ j (1 + k * 2 ^ 64)).
  - replace (off + 4 + Z.of_nat 256) with (off + 260) by lia. done.
  - intros i. unfold inc_at. rewrite nthZ_insert by done.
    destruct (Z.eqb_spec i j); subst; lia.
Qed.

Lemma port_stat_inc port cnt st :
  Z.of_nat (length (vlan_id_stat st)) = stat_vlan_id_max -> 0 <= cnt < 260 ->
  FRCORE_PORT_VLAN_STAT_INC port cnt st =
    Some (set_stat st (inc_at (vlan_id_stat st) (port_off port + cnt))).
Proof.
  intros Hl Hc. unfold stat_vlan_id_max in Hl.
  assert (forall j, 0 <= j < 520 -> FRCORE_VLAN_STAT_INC j st =
    Some (set_stat st (inc_at (vlan_id_stat st) j))) as H.
  { intros j Hj. unfold FRCORE_VLAN_STAT_INC. rewrite arr_get_nthZ by lia. simpl.
    rewrite arr_set_eq by lia. done. }
  unfold FRCORE_PORT_VLAN_STAT_INC, port_off. destruct (port =? 0).
  - rewrite H by lia. done.
  - change (stat_vlan_id_max / 2) with 260. rewrite H by lia. by rewrite Z.add_comm.
Qed.

Lemma u8_range x : 0 <= u8 x < 256.
Proof. apply wrapu_range. lia. Qed.

(** The effect of a verdict on the counters. *)
Definition counted (ok : bool) (vlan_id ipprt : Z) (st : vlan_state) : list Z :=
  let s := vlan_id_stat st in
  if ok then
    inc_at (inc_at s (port_off ipprt + (4 + u8 (u16 (vlan_id - vlan_id_start st)))))
      (port_off ipprt + 2)
  else inc_at s (port_off ipprt + 3).

Lemma count_check_eq ok vlan_id ipprt st :
  Z.of_nat (length (vlan_id_stat st)) = stat_vlan_id_max ->
  count_check ok vlan_id ipprt st = Some (set_stat st (counted ok vlan_id ipprt st)).
Proof.
  intros Hl. unfold count_check, counted, stat_vlan_check. destruct ok.
  - pose proof (u8_range (u16 (vlan_id - vlan_id_start st))) as Hr.
    unfold xe0_stat_vlan_id_0, xe0_stat_vlan_id_total.
    rewrite port_stat_inc by (done || lia). simpl.
    rewrite port_stat_inc by (simpl; rewrite ?length_inc_at; done || lia). done.
  - by rewrite port_stat_inc by (done || unfold xe0_stat_vlan_id_error; lia).
Qed.

Lemma port_off_cases port : port_off port = 0 \/ port_off port = 260.
Proof. unfold port_off. case_match; auto. Qed.

Lemma counted_inv ok vlan_id ipprt st :
  stat_inv st -> stat_inv (set_stat st (counted ok vlan_id ipprt st)).
Proof.
  intros [Hl Hs]. unfold stat_inv, counted, stat_vlan_id_max in *. simpl.
  destruct (port_off_cases ipprt) as [Ep | Ep].
  all: rewrite Ep; destruct ok.
  all: (split; [by rewrite ?length_inc_at|]); intros off Hoff;
    destruct (Hs off Hoff) as [k0 Hk0].
  all: unfold xe0_stat_vlan_id_total in *.
  1,3: set (c := u8 _);
    assert (0 <= c < 256) as Hc by apply u8_range; clearbody c.
  all: match goal with
  | |- context [inc_at (inc_at ?s ?j) ?j'] =>
      destruct (id_sum_inc_at (inc_at s j) j' off) as [k1 ->]; [rewrite length_inc_at; lia|];
      destruct (id_sum_inc_at s j off) as [k2 ->]; [lia|];
      destruct (nthZ_inc_at (inc_at s j) j' (off + 2)) as [k3 ->]; [rewrite length_inc_at; lia|];
      destruct (nthZ_inc_at s j (off + 2)) as [k4 ->]; [lia|]
  | |- context [inc_at ?s ?j] =>
      destruct (id_sum_inc_at s j off) as [k1 ->]; [lia|];
      destruct (nthZ_inc_at s j (off + 2)) as [k3 ->]; [lia|]
  end.
  all: destruct Hoff; subst off;
    repeat match goal with
    | |- context [?x <=? ?y] => destruct (Z.leb_spec x y); try lia
    | |- context [?x <? ?y] => destruct (Z.ltb_spec x y); try lia
    | |- context [?x =? ?y] => destruct (Z.eqb_spec x y); try lia
    end; simpl andb; cbv iota.
  all: rewrite Hk0; first [exists k0; lia | exists (k0 + k2 - k3); lia].
Qed.

(** ** Transitions

    The packet handlers and the commands that write the shared variables, as a
    step relation; a step exists only where the handler has no undefined
    behaviour. *)
Inductive vlan_step : vlan_state -> vlan_state -> Prop :=
  | step_v4 ipprt eth ip st rv st' :
      frcore_vlan_check_v4 ipprt eth ip st = Some (rv, st') -> vlan_step st st'
  | step_v6 ipprt eth ip st rv st' :
      frcore_vlan_check_v6 ipprt eth ip st = Some (rv, st') -> vlan_step st st'
  | step_mask4 ty ip4 st :
      vlan_step st (frcore_cmd_vlan_v4_set_hash_mask ty ip4 st).2
  | step_mask6 ty ip6 st :
      vlan_step st (frcore_cmd_vlan_v6_set_hash_mask ty ip6 st).2
  | step_para ty start_id num st :
      vlan_step st (frcore_cmd_vlan_check_set_para ty start_id num st).2
  | step_clear st rv olen st' :
      frcore_cmd_vlan_check_clear_stat st = Some (rv, olen, st') -> vlan_step st st'.

(** The parameters keep the width of their C types. *)
Definition para_ok (st : vlan_state) : Prop :=
  (0 <= vlan_id_start st < 2 ^ 16) /\ (0 <= vlan_id_num st < 2 ^ 16).

Definition vlan_wf (st : vlan_state) : Prop := stat_inv st /\ para_ok st.

Lemma stat_inv_same st st' :
  vlan_id_stat st' = vlan_id_stat st -> stat_inv st -> stat_inv st'.
Proof. unfold stat_inv. by intros ->. Qed.

Lemma count_check_wf ok vlan_id ipprt st st' :
  count_check ok vlan_id ipprt st = Some st' -> vlan_wf st -> vlan_wf st'.
Proof.
  intros H [Hi Hp]. rewrite count_check_eq in H by apply Hi. inv_bind.
  split; [by apply counted_inv|done].
Qed.

Lemma stat_clear_eq st :
  Z.of_nat (length (vlan_id_stat st)) = stat_vlan_id_max ->
  exists s, frcore_vlan_check_stat_clear st = Some (set_stat st s) /\
    Z.of_nat (length s) = stat_vlan_id_max /\ forall i, nthZ s i = 0.
Proof.
  intros Hl. unfold frcore_vlan_check_stat_clear.
  destruct (foldM_ind (fun done s => Z.of_nat (length s) = stat_vlan_id_max /\
      forall i, 0 <= i < Z.of_nat (length done) -> nthZ s i = 0)
    (fun s i => arr_set s i 0) (seqZ 0 stat_vlan_id_max) (vlan_id_stat st))
    as (s & -> & Hls & Hz).
  - split; [done|]. intros i Hi. simpl in Hi. lia.
  - intros done b rest s Hseq [Hls Hz].
    assert (b = Z.of_nat (length done) /\ b < stat_vlan_id_max) as [-> Hb].
    { assert (seqZ 0 stat_vlan_id_max !! length done = Some b) as Hb
        by (rewrite Hseq; by apply list_lookup_middle).
      apply lookup_seqZ in Hb. lia. }
    exists (<[Z.to_nat (Z.of_nat (length done)) := 0]> s). rewrite arr_set_eq by lia.
    split; [done|]. rewrite length_insert, length_app. split; [done|].
    intros i Hi. rewrite nthZ_insert by lia.
    destruct (Z.eqb_spec i (Z.of_nat (length done))); [done|]. apply Hz. simpl in Hi. lia.
  - exists s. split_and!; [done..|]. intros i.
    rewrite length_seqZ in Hz.
    destruct (decide (0 <= i < stat_vlan_id_max)); [apply Hz; lia|].
    unfold nthZ, arr_get. destruct (Z.leb_spec 0 i); [|done].
    rewrite lookup_ge_None_2; [done|lia].
Qed.

Lemma stat_inv_zero st :
  Z.of_nat (length (vlan_id_stat st)) = stat_vlan_id_max ->
  (forall i, nthZ (vlan_id_stat st) i = 0) -> stat_inv st.
Proof.
  intros Hl Hz. split; [done|]. intros off _. exists 0. unfold id_sum.
  rewrite (range_sum_ext _ (fun _ => 0)) by auto.
  by rewrite range_sum_zero, Hz.
Qed.

Lemma vlan_init_wf : vlan_wf vlan_init.
Proof.
  split; [|by unfold para_ok; simpl; lia].
  apply stat_inv_zero; [done|]. intros i. unfold nthZ, arr_get, vlan_init. cbn [vlan_id_stat].
  destruct (0 <=? i); [|done].
  assert (forall n x, default 0 (replicate n 0 !! x) = 0) as H.
  { intros n x. destruct (replicate n 0 !! x) eqn:E; [|done].
    by apply lookup_replicate in E as [-> _]. }
  apply H.
Qed.

(** in every state the module can reach from its initial variables, the
    counter table has its declared size, the parameters keep the width of
    their types, and on both ports the per-id counters sum to the total
    counter modulo 2^64. *)
Theorem vlan_reachable_wf (st : vlan_state) : rtc vlan_step vlan_init st -> vlan_wf st.
Proof.
  intros H. remember vlan_init as st0 eqn:E.
  assert (vlan_wf st0) as Hwf by (subst; apply vlan_init_wf). clear E.
  induction H as [|st0 st1 st2 Hstep _ IH]; [done|]. apply IH. clear IH.
  destruct Hstep as [? ? ? ? ? ? H|? ? ? ? ? ? H| | | |? ? ? ? H].
  - unfold frcore_vlan_check_v4 in H. inv_bind. by eapply count_check_wf.
  - unfold frcore_vlan_check_v6 in H. inv_bind. by eapply count_check_wf.
  - unfold frcore_cmd_vlan_v4_set_hash_mask. destruct Hwf. repeat zcase; by split.
  - unfold frcore_cmd_vlan_v6_set_hash_mask. destruct Hwf. repeat zcase; by split.
  - destruct Hwf. split; [done|]. split; apply wrapu_range; lia.
  - destruct Hwf as [[Hl _] Hp]. destruct (stat_clear_eq _ Hl) as (s & E & Hls & Hz).
    unfold frcore_cmd_vlan_check_clear_stat in H. rewrite E in H. inv_bind.
    split; [by apply stat_inv_zero|done].
Qed.

Lemma UP16_Some b o : 0 <= o -> o + 2 <= Z.of_nat (length b) -> is_Some (UP16 b o).
Proof.
  intros. unfold UP16. rewrite !arr_get_nthZ by lia. simpl. eauto.
Qed.

Lemma UP32_Some b o : 0 <= o -> o + 4 <= Z.of_nat (length b) -> is_Some (UP32 b o).
Proof.
  intros. unfold UP32. rewrite !arr_get_nthZ by lia. simpl. eauto.
Qed.

Lemma read_bytes_Some b o n : 0 <= o -> o + n <= Z.of_nat (length b) -> is_Some (read_bytes b o n).
Proof.
  intros. unfold read_bytes. rewrite (proj2 (Z.leb_le _ _)), (proj2 (Z.leb_le _ _)) by lia.
  simpl. eauto.
Qed.

(** The checks keep the size of the range. *)
Lemma count_check_num ok id port v v' : count_check ok id port v = Some v' -> vlan_id_num v' = vlan_id_num v.
Proof.
  unfold count_check, stat_vlan_check, FRCORE_PORT_VLAN_STAT_INC, FRCORE_VLAN_STAT_INC.
  destruct ok, (port =? 0); intros; inv_bind; done.
Qed.

Lemma vlan_v4_num port eth ip v r : frcore_vlan_check_v4 port eth ip v = Some r -> vlan_id_num r.2 = vlan_id_num v.
Proof. unfold frcore_vlan_check_v4. intros. inv_bind. by eapply count_check_num. Qed.
Lemma vlan_v6_num port eth ip v r : frcore_vlan_check_v6 port eth ip v = Some r -> vlan_id_num r.2 = vlan_id_num v.
Proof. unfold frcore_vlan_check_v6. intros. inv_bind. by eapply count_check_num. Qed.

(** With a non-empty VLAN range every packet long enough to hold its
    headers is processed without undefined behaviour: the handlers forward it
    and keep the state well formed, whatever its tag and addresses are. *)
Theorem vlan_check_safe (ipprt : Z) (eth ip4 ip6 : list Z) (st : vlan_state) :
  vlan_wf st -> 0 < vlan_id_num st ->
  (16 <= length eth)%nat -> (20 <= length ip4)%nat -> (40 <= length ip6)%nat ->
  (exists st', frcore_vlan_check_v4 ipprt eth ip4 st = Some (FRCORE_ACT_FORWARD, st') /\
     vlan_wf st') /\
  (exists st', frcore_vlan_check_v6 ipprt eth ip6 st = Some (FRCORE_ACT_FORWARD, st') /\
     vlan_wf st').
Proof.
  intros Hwf Hn He H4 H6. destruct Hwf as [Hi Hp]. pose proof Hi as [Hl _].
  pose proof Hp as [Hs1 Hs2].
  unfold frcore_vlan_check_v4, frcore_vlan_check_v6.
  destruct (UP16_Some eth 14) as [v ->]; [lia..|].
  split.
  - destruct (UP32_Some ip4 12) as [a ->]; [lia..|].
    destruct (UP32_Some ip4 16) as [b ->]; [lia..|]. simpl mbind.
    destruct (calc_vlan_total true (vlan_masks st) (Ip4Pkt a b) (Ip6Pkt [] [])
      (hash_em (vlan_check_hash_type st)) (vlan_id_num st) (vlan_id_start st)) as [[r ->] _]; [lia..|].
    simpl. rewrite count_check_eq by done. simpl. eexists. split; [done|].
    split; [by apply counted_inv|done].
  - destruct (read_bytes_Some ip6 8 16) as [a ->]; [lia..|].
    destruct (read_bytes_Some ip6 24 16) as [b ->]; [lia..|]. simpl mbind.
    destruct (calc_vlan_total true (vlan_masks st) (Ip4Pkt 0 0) (Ip6Pkt a b)
      (hash_em (vlan_check_hash_type st)) (vlan_id_num st) (vlan_id_start st)) as [_ [r ->]]; [lia..|].
    simpl. rewrite count_check_eq by done. simpl. eexists. split; [done|].
    split; [by apply counted_inv|done].
Qed.

Lemma vlan_check_safe_witness :
  exists st', frcore_vlan_check_v4 0 (replicate 16 0) (replicate 20 0) vlan_init =
    Some (FRCORE_ACT_FORWARD, st') /\ vlan_wf st'.
Proof.
  apply (vlan_check_safe 0 (replicate 16 0) (replicate 20 0) (replicate 40 0) vlan_init);
    [apply vlan_init_wf|reflexivity|vm_compute; lia..].
Defined.

Lemma vlan_reachable_wf_witness : vlan_wf (frcore_cmd_vlan_check_set_para 3 100 64 vlan_init).2.
Proof. apply (vlan_reachable_wf _). eapply rtc_l; [apply step_para|apply rtc_refl]. Defined.

(** What a packet with tag [tag] whose addresses give the id [v] does: nothing but counting. *)
Definition verdict (ipprt v tag : Z) (st st' : vlan_state) : Prop :=
  st' = set_stat st
    (if v =? Z.land tag 0xfff
     then inc_at (inc_at (vlan_id_stat st) (port_off ipprt + xe0_stat_vlan_id_0 + (v - vlan_id_start st) `mod` 256))
            (port_off ipprt + xe0_stat_vlan_id_total)
     else inc_at (vlan_id_stat st) (port_off ipprt + xe0_stat_vlan_id_error)) /\
  (v = Z.land tag 0xfff -> 0 <= v - vlan_id_start st < vlan_id_num st).

Lemma calc_id st p4 p6 r tag : vlan_wf st -> 0 < vlan_id_num st ->
  r = ip4_calc_vlan true (vlan_masks st) p4 (hash_em (vlan_check_hash_type st)) (vlan_id_num st) (vlan_id_start st) \/
  r = ip6_calc_vlan true (vlan_masks st) p6 (hash_em (vlan_check_hash_type st)) (vlan_id_num st) (vlan_id_start st) ->
  exists v, r = Some v /\ (v =? Z.land tag 0xfff) = (u16 v =? Z.land tag 0xfff) /\
    (v = Z.land tag 0xfff -> 0 <= v - vlan_id_start st < vlan_id_num st).
Proof.
  intros [_ [H0 H1]] Hn Hr. assert (0 <= Z.land tag 0xfff < 2 ^ 12) as Ht.
  { change 0xfff with (Z.ones 12). rewrite Z.land_ones by lia. apply Z.mod_pos_bound. lia. }
  destruct (calc_vlan_cases true (vlan_masks st) p4 p6 (hash_em (vlan_check_hash_type st)) (vlan_id_num st) (vlan_id_start st) Hn) with r
    as [->|(v & -> & Hv & Hv')]; [lia|lia|done| |].
  - eexists. split; [done|]. split; [|lia]. change (u16 (2 ^ 32 - 1)) with 65535.
    rewrite (proj2 (Z.eqb_neq (2 ^ 32 - 1) _)), (proj2 (Z.eqb_neq 65535 _)) by lia. done.
  - exists v. rewrite wrapu_id by lia. split_and!; [done..|lia].
Qed.

Lemma counted_verdict ipprt v tag st : (v = Z.land tag 0xfff -> 0 <= v - vlan_id_start st < vlan_id_num st) ->
  verdict ipprt v tag st (set_stat st (counted (v =? Z.land tag 0xfff) (Z.land tag 0xfff) ipprt st)).
Proof.
  intros Hv. split; [|done]. unfold counted. destruct (Z.eqb_spec v (Z.land tag 0xfff)) as [->|]; [|done].
  rewrite Z.add_assoc. do 3 f_equal. unfold wrapu. by rewrite Z.mod_mod_divide by (by exists 256).
Qed.

(** C31: a packet of either IP version, long enough for its headers, is forwarded, and nothing
    but its counters changes: if its tag is the id computed from its own addresses with the
    current parameters, the total and the counter of the id go up - the id lies in the
    range, and its counter is its place in it modulo 256 -, and else the error counter.  The
    range is any that is not empty. *)
Theorem vlan_check_verdict (ipprt : Z) (eth ip : list Z) (st : vlan_state) (tag : Z) :
  vlan_wf st -> 0 < vlan_id_num st -> UP16 eth 14 = Some tag ->
  (forall sip dip, UP32 ip 12 = Some sip -> UP32 ip 16 = Some dip ->
    exists v st', ip4_calc_vlan true (vlan_masks st) (Ip4Pkt sip dip) (hash_em (vlan_check_hash_type st)) (vlan_id_num st) (vlan_id_start st) = Some v /\
      frcore_vlan_check_v4 ipprt eth ip st = Some (FRCORE_ACT_FORWARD, st') /\ verdict ipprt v tag st st') /\
  (forall saddr daddr, read_bytes ip 8 16 = Some saddr -> read_bytes ip 24 16 = Some daddr ->
    exists v st', ip6_calc_vlan true (vlan_masks st) (Ip6Pkt saddr daddr) (hash_em (vlan_check_hash_type st)) (vlan_id_num st) (vlan_id_start st) = Some v /\
      frcore_vlan_check_v6 ipprt eth ip st = Some (FRCORE_ACT_FORWARD, st') /\ verdict ipprt v tag st st').
Proof.
  intros Hwf Hn Ht. pose proof (proj1 (proj1 Hwf)) as Hl. split.
  - intros sip dip Hs Hd. destruct (calc_id st (Ip4Pkt sip dip) (Ip6Pkt [] []) _ tag Hwf Hn (or_introl eq_refl)) as (v & Ev & _ & Hv).
    exists v. unfold frcore_vlan_check_v4. rewrite Hs, Hd, Ht. simpl mbind. rewrite Ev. simpl. rewrite count_check_eq by done. simpl.
    eexists. split_and!; [done..|by apply counted_verdict].
  - intros sa da Hs Hd. destruct (calc_id st (Ip4Pkt 0 0) (Ip6Pkt sa da) _ tag Hwf Hn (or_intror eq_refl)) as (v & Ev & Eu & Hv).
    exists v. unfold frcore_vlan_check_v6. rewrite Ht, Hs, Hd. simpl mbind. rewrite Ev. simpl. rewrite count_check_eq by done. simpl.
    rewrite <- Eu. eexists. split_and!; [done..|by apply counted_verdict].
Qed.

Lemma vlan_check_verdict_witness :
  (exists st', frcore_vlan_check_v4 0 (replicate 14 0 ++ [4; 1]) (replicate 12 0 ++ [10; 0; 0; 1; 192; 168; 1; 2]) vlan_init = Some (FRCORE_ACT_FORWARD, st') /\
    vlan_id_stat st' = inc_at (inc_at (vlan_id_stat vlan_init) 5) 2) /\
  (exists st', frcore_vlan_check_v6 0 (replicate 14 0 ++ [3; 1]) (replicate 40 1) vlan_init = Some (FRCORE_ACT_FORWARD, st') /\
    vlan_id_stat st' = inc_at (vlan_id_stat vlan_init) 3).
Proof.
  split.
  - destruct (proj1 (vlan_check_verdict 0 (replicate 14 0 ++ [4; 1]) (replicate 12 0 ++ [10; 0; 0; 1; 192; 168; 1; 2]) vlan_init 0x401
      vlan_init_wf eq_refl eq_refl) 0x0a000001 0xc0a80102 eq_refl eq_refl) as (v & st' & Ev & E & Hv & _).
    vm_compute in Ev. injection Ev as <-. exists st'. split; [exact E|]. rewrite Hv. reflexivity.
  - destruct (proj2 (vlan_check_verdict 0 (replicate 14 0 ++ [3; 1]) (replicate 40 1) vlan_init 0x301
      vlan_init_wf eq_refl eq_refl) (replicate 16 1) (replicate 16 1) eq_refl eq_refl) as (v & st' & Ev & E & Hv & _).
    vm_compute in Ev. injection Ev as <-. exists st'. split; [exact E|]. rewrite Hv. reflexivity.
Defined.

(** the parameter command accepts an empty range, and the next packet of any
    hash type that selects an address then divides by zero. *)
Theorem vlan_num_zero_ub (ipprt : Z) (eth ip : list Z) (ty start_id : Z) (st : vlan_state)
    (sip dip : Z) :
  u8 ty = 3 ->
  UP32 ip 12 = Some sip -> UP32 ip 16 = Some dip ->
  s32 (ip4_to_eid_new (vlan_masks st) (Ip4Pkt sip dip) FS_HSEL_SDIP) <> -1 ->
  (frcore_cmd_vlan_check_set_para ty start_id 0 st).1 = FRE_SUCCESS /\
  frcore_vlan_check_v4 ipprt eth ip (frcore_cmd_vlan_check_set_para ty start_id 0 st).2 = None.
Proof.
  intros Hty Hs Hd He. split; [done|].
  unfold frcore_vlan_check_v4. rewrite Hs, Hd. simpl mbind.
  destruct (UP16 eth 14); [|done]. simpl mbind. unfold frcore_cmd_vlan_check_set_para.
  cbn [snd vlan_masks vlan_check_hash_type vlan_id_num vlan_id_start]. rewrite Hty.
  unfold ip4_calc_vlan. change (hash_em 3) with FS_HSEL_SDIP.
  by rewrite (proj2 (Z.eqb_neq _ _)).
Qed.

Lemma vlan_num_zero_ub_witness :
  frcore_vlan_check_v4 0 (replicate 16 0) (replicate 20 0)
    (frcore_cmd_vlan_check_set_para 3 1024 0 vlan_init).2 = None.
Proof.
  apply (vlan_num_zero_ub 0 (replicate 16 0) (replicate 20 0) 3 1024 vlan_init 0 0);
    vm_compute; [reflexivity..|discriminate].
Defined.
