(* ===== verification/Ipc.v ===== *)
(** * Inter-chassis packets: src/code/frcore/frcore_ipc.c

    With [FRC_CONFIG_IPC] every packet of a port goes to [frcore_ipc_work_process]: the
    source addresses and packet numbers of a test stream are checked for order, the
    header that takes the place of the ethernet addresses is compared with an expected
    one, VLAN tags are checked ([VlanCheck]), and packets of chosen addresses answered
    with an instruction packet.  The commands set and read the parameters; they act on
    bytes, the structures of frc_types.h in the memory of the big-endian card.  The
    prints and dumps are left out; the words of the FPA, PKO and port configuration are
    parameters. *)

From stdpp Require Import list functions.
From S2P Require Import Prelude Bytes Alg VlanCheck Cmd.
#[local] Open Scope Z_scope.

(** ** Constants *)
Definition FRCORE_ACT_DROP : Z := 1.
Definition FRCORE_ACT_FREE : Z := 5.
Definition PROTO_VLAN : Z := 0x8100.
Definition PROTO_IPV4 : Z := 0x0800.
Definition PROTO_IPV6 : Z := 0x86DD.
Definition IPC_INSTR_PROTOCOL : Z := 0x8062.
Definition IPC_INSTR_OUI : Z := 0x2145.
Definition INSTR_PAYLOAD_SZ : Z := 32.
Definition IPC_IP_LEN_MAX : Z := 2048.
Definition IPC_IIF_MAX : Z := 0x400.

(** ** Data *)

(** The fields of [ipc_dpkt_hd_t]. *)
Record ipc_dpkt_hd_t : Type := Dpkt {
  oui : Z; pid_l : Z; chassis : Z; resv : Z; ori_vid : Z; pid_h : Z; slot : Z; card : Z; ifid : Z }.

(** [ipc_misc_t] *)
Record ipc_misc_t : Type := Misc {
  smac_check : Z; pktid_check : Z; exp_check : Z; invalid_dump : Z; instr_send : Z }.

(** [ipc_instr_cfg_t] *)
Record ipc_instr_cfg_t : Type := InstrCfg {
  tx_port : Z; action : Z; i_type : Z; ip_len : Z; sip_data : Z; sip_mask : Z; dip_data : Z; dip_mask : Z }.

(** The packet counters used here, of [frc_stat_e]. *)
Inductive pkt_stat : Type :=
| stat_pkts_below_64 | stat_very_short_pkts | stat_pkts_between_64_128 | stat_pkts_between_128_256
| stat_pkts_between_256_512 | stat_pkts_between_512_1024 | stat_pkts_between_1024_1500
| stat_pkts_between_1500_1600 | stat_pkts_above_1600 | stat_very_long_pkts | stat_normal_pkts
| stat_drop_port_off | stat_rx_errs | stat_drop_rx_error | stat_rx_pkts | stat_rx_bytes
| stat_ipc_drop_smac_zero | stat_ipc_smac_ordered | stat_ipc_smac_disorder
| stat_ipc_pktid_ordered | stat_ipc_pktid_disorder | stat_ipc_pktid_repeat
| stat_ipc_head_valid | stat_ipc_head_invalid | stat_vlan | stat_ip_option | stat_drop_ip_option
| stat_ip_v6 | stat_drop_ip_v6.

#[export] Instance pkt_stat_eq_dec : EqDecision pkt_stat.
Proof. solve_decision. Defined.

(** The shared variables of the file, with the counters, the variables of the VLAN check
    and the packets handed to the output unit.  The table of instruction buffers is empty
    before its allocation; a buffer that could not be allocated is [None]. *)
Record ipc_sys : Type := IpcSys {
  ipc_exp_data : ipc_dpkt_hd_t; ipc_exp_mask : ipc_dpkt_hd_t; cur_smac : Z; cur_pktid : Z;
  ipc_misc : ipc_misc_t; instr_cfg : ipc_instr_cfg_t; payload : list Z;
  ipc_instr_table : list (option (list Z)); vlan : vlan_state; stats : pkt_stat -> Z; sent : list (list Z) }.

Definition set_exp (d m : ipc_dpkt_hd_t) (st : ipc_sys) : ipc_sys :=
  IpcSys d m (cur_smac st) (cur_pktid st) (ipc_misc st) (instr_cfg st) (payload st) (ipc_instr_table st) (vlan st) (stats st) (sent st).
Definition set_cur (smac pktid : Z) (st : ipc_sys) : ipc_sys :=
  IpcSys (ipc_exp_data st) (ipc_exp_mask st) smac pktid (ipc_misc st) (instr_cfg st) (payload st) (ipc_instr_table st) (vlan st) (stats st) (sent st).
Definition set_misc (m : ipc_misc_t) (st : ipc_sys) : ipc_sys :=
  IpcSys (ipc_exp_data st) (ipc_exp_mask st) (cur_smac st) (cur_pktid st) m (instr_cfg st) (payload st) (ipc_instr_table st) (vlan st) (stats st) (sent st).
Definition set_instr (c : ipc_instr_cfg_t) (pl : list Z) (st : ipc_sys) : ipc_sys :=
  IpcSys (ipc_exp_data st) (ipc_exp_mask st) (cur_smac st) (cur_pktid st) (ipc_misc st) c pl (ipc_instr_table st) (vlan st) (stats st) (sent st).
Definition set_table (t : list (option (list Z))) (out : list (list Z)) (st : ipc_sys) : ipc_sys :=
  IpcSys (ipc_exp_data st) (ipc_exp_mask st) (cur_smac st) (cur_pktid st) (ipc_misc st) (instr_cfg st) (payload st) t (vlan st) (stats st) out.
Definition set_vlan (v : vlan_state) (st : ipc_sys) : ipc_sys :=
  IpcSys (ipc_exp_data st) (ipc_exp_mask st) (cur_smac st) (cur_pktid st) (ipc_misc st) (instr_cfg st) (payload st) (ipc_instr_table st) v (stats st) (sent st).
Definition FRCORE_STAT_ADD (c : pkt_stat) (v : Z) (st : ipc_sys) : ipc_sys :=
  IpcSys (ipc_exp_data st) (ipc_exp_mask st) (cur_smac st) (cur_pktid st) (ipc_misc st) (instr_cfg st) (payload st) (ipc_instr_table st) (vlan st)
    (<[c := u64 (stats st c + v)]> (stats st)) (sent st).
Definition FRCORE_STAT_INC (c : pkt_stat) : ipc_sys -> ipc_sys := FRCORE_STAT_ADD c 1.

(** [FRCORE_DROP] *)
Definition FRCORE_DROP (c : pkt_stat) (st : ipc_sys) : option (Z * ipc_sys) := Some (FRCORE_ACT_DROP, FRCORE_STAT_INC c st).

(** ** Commands *)
Abbreviation ipc_fn := (frcore_cmd_fn_t ipc_sys).

Definition SIZEOF_IPC_CUR : Z := 16.
Definition SIZEOF_IPC_EXP : Z := 24.
Definition SIZEOF_IPC_MISC : Z := 8.
Definition SIZEOF_IPC_INSTR_CFG : Z := 32.
Definition SIZEOF_IPC_PAYLOAD_SET : Z := 40.

Definition frcore_cmd_ipc_cur_set : ipc_fn := fun plen param outbuf st =>
  if negb (plen =? SIZEOF_IPC_CUR) then Some (FRE_FAIL, 0, outbuf, st) else
  p ← param; smac ← card_get p 0 8; pktid ← card_get p 8 8;
  Some (FRE_SUCCESS, 0, outbuf, set_cur smac pktid st).

Definition frcore_cmd_ipc_cur_get : ipc_fn := fun plen param outbuf st =>
  out ← write_bytes outbuf 0 (be_bytes 8 (cur_smac st) ++ be_bytes 8 (cur_pktid st));
  Some (FRE_SUCCESS, SIZEOF_IPC_CUR, out, st).

(** The header kept for one half of [ipc_exp_t]: 64 bits of packet id, the OUI and the
    interface. *)
Definition exp_of (pid ouid iif : Z) : ipc_dpkt_hd_t :=
  Dpkt ouid (Z.land pid 0xffffffff) (Z.shiftr (u8 (Z.land (Z.shiftr iif 8) 0xf0)) 4) (u8 (Z.land (Z.shiftr iif 8) 0xf))
    (u16 (Z.shiftr (Z.land (Z.shiftr pid 32) 0xffff0000) 16)) (u16 (Z.land (Z.shiftr pid 32) 0xffff))
    (Z.shiftr (u8 (Z.land iif 0xf8)) 3) (Z.shiftr (u8 (Z.land iif 0x4)) 2) (u8 (Z.land iif 0x3)).

Definition frcore_cmd_ipc_exp_set : ipc_fn := fun plen param outbuf st =>
  if negb (plen =? SIZEOF_IPC_EXP) then Some (FRE_FAIL, 0, outbuf, st) else
  p ← param;
  iifm ← card_get p 0 2; iifd ← card_get p 2 2; ouim ← card_get p 4 2; ouid ← card_get p 6 2;
  pidd ← card_get p 8 8; pidm ← card_get p 16 8;
  Some (FRE_SUCCESS, 0, outbuf, set_exp (exp_of pidd ouid iifd) (exp_of pidm ouim iifm) st).

(** The shift of a 16-bit field is one of an [int]; the word is sign-extended. *)
Definition pid_of (d : ipc_dpkt_hd_t) : Z :=
  Z.lor (u64 (Z.shiftl (u64 (s32 (Z.lor (Z.shiftl (ori_vid d) 16) (pid_h d)))) 32)) (pid_l d).
Definition iif_of (d : ipc_dpkt_hd_t) : Z :=
  u16 (Z.lor (Z.lor (Z.lor (Z.lor (Z.shiftl (chassis d) 12) (Z.shiftl (resv d) 8)) (Z.shiftl (slot d) 3)) (Z.shiftl (card d) 2)) (ifid d)).

Definition frcore_cmd_ipc_exp_get : ipc_fn := fun plen param outbuf st =>
  let d := ipc_exp_data st in let m := ipc_exp_mask st in
  out ← write_bytes outbuf 0 (be_bytes 2 (iif_of m) ++ be_bytes 2 (iif_of d) ++ be_bytes 2 (oui m) ++ be_bytes 2 (oui d) ++
    be_bytes 8 (pid_of d) ++ be_bytes 8 (pid_of m));
  Some (FRE_SUCCESS, SIZEOF_IPC_EXP, out, st).

Definition frcore_cmd_ipc_misc_set : ipc_fn := fun plen param outbuf st =>
  if negb (plen =? SIZEOF_IPC_MISC) then Some (FRE_FAIL, 0, outbuf, st) else
  p ← param;
  instr ← card_get p 3 1; dump ← card_get p 4 1; exp ← card_get p 5 1; pktid ← card_get p 6 1; smac ← card_get p 7 1;
  Some (FRE_SUCCESS, 0, outbuf, set_misc (Misc smac pktid exp dump instr) st).

(** The reserved bytes of the answer are not written. *)
Definition frcore_cmd_ipc_misc_get : ipc_fn := fun plen param outbuf st =>
  let m := ipc_misc st in
  out ← write_bytes outbuf 3 (be_bytes 1 (instr_send m) ++ be_bytes 1 (invalid_dump m) ++ be_bytes 1 (exp_check m) ++
    be_bytes 1 (pktid_check m) ++ be_bytes 1 (smac_check m));
  Some (FRE_SUCCESS, SIZEOF_IPC_MISC, out, st).

(** The index is not checked; the product is one of 64-bit integers. *)
Definition frcore_cmd_ipc_instr_payload_set : ipc_fn := fun plen param outbuf st =>
  if negb (plen =? SIZEOF_IPC_PAYLOAD_SET) then Some (FRE_FAIL, 0, outbuf, st) else
  p ← param; data ← read_bytes p 0 INSTR_PAYLOAD_SZ; index ← card_get p 32 8;
  pl ← write_bytes (payload st) (Z.to_nat (u64 (index * INSTR_PAYLOAD_SZ))) (swap_buff 4 data);
  Some (FRE_SUCCESS, 0, outbuf, set_instr (instr_cfg st) pl st).

Definition frcore_cmd_ipc_instr_set : ipc_fn := fun plen param outbuf st =>
  if negb (plen =? SIZEOF_IPC_INSTR_CFG) then Some (FRE_FAIL, 0, outbuf, st) else
  p ← param;
  act ← card_get p 0 4; tx ← card_get p 4 4; len ← card_get p 8 4; ty ← card_get p 12 4;
  sm ← card_get p 16 4; sd ← card_get p 20 4; dm ← card_get p 24 4; dd ← card_get p 28 4;
  if len >? IPC_IP_LEN_MAX then Some (FRE_PARAM, 0, outbuf, st) else
  Some (FRE_SUCCESS, 0, outbuf, set_instr (InstrCfg tx act ty len sd sm dd dm) (payload st) st).

Definition instr_cfg_bytes (c : ipc_instr_cfg_t) : list Z :=
  be_bytes 4 (action c) ++ be_bytes 4 (tx_port c) ++ be_bytes 4 (ip_len c) ++ be_bytes 4 (i_type c) ++
  be_bytes 4 (sip_mask c) ++ be_bytes 4 (sip_data c) ++ be_bytes 4 (dip_mask c) ++ be_bytes 4 (dip_data c).
Definition frcore_cmd_ipc_instr_get : ipc_fn := fun plen param outbuf st =>
  out ← write_bytes outbuf 0 (instr_cfg_bytes (instr_cfg st));
  Some (FRE_SUCCESS, SIZEOF_IPC_INSTR_CFG, out, st).

(** ** The table of instruction packets *)

(** [ipc_instr_hd_t] on the big-endian card: 24 bits [oui], 8 reserved, 5 reserved bits and
    11 of [iif], [smac], [protocol], [cmd_number].  The memory is not cleared. *)
Definition SIZEOF_INSTR_HD : Z := 16.
Definition init_instr_hd (i : Z) (mem : list Z) : option (list Z) :=
  mem ← write_bytes mem 0 (be_bytes 3 IPC_INSTR_OUI);
  mem ← write_bytes mem 12 (be_bytes 2 IPC_INSTR_PROTOCOL);
  old ← card_get mem 4 2;
  write_bytes mem 4 (be_bytes 2 (Z.lor (Z.land old 0xf800) (Z.land i 0x7ff))).

(** [mem i] is what the allocation of buffer [i] gives: 2048 bytes, or nothing.  The code
    ends at the first failure. *)
Fixpoint init_entries (mem : Z -> option (list Z)) (ks : list Z) (table : list (option (list Z))) : option (Z * list (option (list Z))) :=
  match ks with
  | [] => Some (FRE_SUCCESS, table)
  | i :: ks =>
    match mem i with
    | None => Some (1, table)
    | Some m => b ← init_instr_hd i m; table ← arr_set table i (Some b); init_entries mem ks table
    end
  end.
Definition frcore_ipc_instr_table_init (table_ok : bool) (mem : Z -> option (list Z)) (st : ipc_sys) : option (Z * ipc_sys) :=
  if negb table_ok then Some (1, set_table [] (sent st) st) else
  '(rv, t) ← init_entries mem (seqZ 0 IPC_IIF_MAX) (replicate (Z.to_nat IPC_IIF_MAX) None);
  Some (rv, set_table t (sent st) st).

(** ** Packets *)
Section packets.
Variable rx_on : Z -> bool.        (* [octnic->port[ipprt].rx_on] *)
Variable cmd_padding : list Z.     (* the six bytes of padding of an [ipc_cmd_t] on the stack *)

(** The work entry: port, receive error, length, number of buffers and offset of the IP
    header, and the memory from [packet_data] and from [packet_ptr] on. *)
Record work : Type := Work {
  ipprt : Z; rcv_error : bool; w_len : Z; bufs : Z; ip_offset : Z; packet_data : list Z; packet_ptr : list Z }.

Definition kinds_of_pkt_len_stat (len : Z) (st : ipc_sys) : ipc_sys :=
  let st :=
    if len <? 60 then FRCORE_STAT_INC stat_very_short_pkts (FRCORE_STAT_INC stat_pkts_below_64 st)
    else if (60 <=? len) && (len <? 124) then FRCORE_STAT_INC stat_pkts_between_64_128 st
    else if (124 <=? len) && (len <? 252) then FRCORE_STAT_INC stat_pkts_between_128_256 st
    else if (252 <=? len) && (len <? 508) then FRCORE_STAT_INC stat_pkts_between_256_512 st
    else if (508 <=? len) && (len <? 1020) then FRCORE_STAT_INC stat_pkts_between_512_1024 st
    else if (1020 <=? len) && (len <? 1496) then FRCORE_STAT_INC stat_pkts_between_1024_1500 st
    else if (1496 <=? len) && (len <=? 1596) then FRCORE_STAT_INC stat_pkts_between_1500_1600 st
    else if 1596 <? len then FRCORE_STAT_INC stat_very_long_pkts (FRCORE_STAT_INC stat_pkts_above_1600 st)
    else st in
  if (60 <=? len) && (len <=? 1596) then FRCORE_STAT_INC stat_normal_pkts st else st.

(** [memcpy] of six bytes into a cleared 64-bit variable of the card, then [swap_buff]. *)
Definition mac_value (ether_ptr : list Z) (o : Z) : option Z :=
  mac ← read_bytes ether_ptr o 6; Some (le_value (reverse (swap_buff 1 (mac ++ [0; 0])))).

(** The check of the source address: [false] drops the packet. *)
Definition check_smac (ether_ptr : list Z) (st : ipc_sys) : option (bool * ipc_sys) :=
  if smac_check (ipc_misc st) =? 0 then Some (true, st) else
  _ ← mac_value ether_ptr 0;
  psmac ← mac_value ether_ptr 6;
  if psmac =? 0 then Some (false, FRCORE_STAT_INC stat_rx_errs st) else
  let csmac := cur_smac st in
  Some (true,
    if csmac =? 0 then FRCORE_STAT_INC stat_ipc_smac_ordered (set_cur psmac (cur_pktid st) st)
    else if psmac =? u64 (csmac + 1) then FRCORE_STAT_INC stat_ipc_smac_ordered (set_cur psmac (cur_pktid st) st)
    else FRCORE_STAT_INC stat_ipc_smac_disorder st).

(** The header in place of the two addresses. *)
Definition read_dpkt (p : list Z) : option ipc_dpkt_hd_t :=
  o ← card_get p 0 2; pl ← card_get p 2 4; vare ← card_get p 6 1; vid ← card_get p 7 2; ph ← card_get p 9 2; iifv ← card_get p 11 1;
  Some (Dpkt o pl (Z.shiftr (Z.land vare 0xf0) 4) 0 vid ph
    (Z.shiftr (Z.land iifv 0xf8) 3) (Z.shiftr (Z.land iifv 0x4) 2) (Z.land iifv 0x3)).

Definition differs (f : ipc_dpkt_hd_t -> Z) (dpkt : ipc_dpkt_hd_t) (st : ipc_sys) : bool :=
  negb (Z.land (f (ipc_exp_data st)) (f (ipc_exp_mask st)) =? Z.land (f dpkt) (f (ipc_exp_mask st))).

Definition check_exp (dpkt : ipc_dpkt_hd_t) (st : ipc_sys) : ipc_sys :=
  if exp_check (ipc_misc st) =? 0 then st else
  if differs oui dpkt st then FRCORE_STAT_INC stat_ipc_head_invalid st
  else if differs chassis dpkt st then FRCORE_STAT_INC stat_ipc_head_invalid st
  else if differs pid_h dpkt st then FRCORE_STAT_INC stat_ipc_head_invalid st
  else if differs pid_l dpkt st then FRCORE_STAT_INC stat_ipc_head_invalid st
  else if differs slot dpkt st then FRCORE_STAT_INC stat_ipc_head_invalid st
  else if differs card dpkt st then FRCORE_STAT_INC stat_ipc_head_invalid st
  else if differs ifid dpkt st then FRCORE_STAT_INC stat_ipc_head_invalid st
  else if differs ori_vid dpkt st then FRCORE_STAT_INC stat_ipc_head_invalid st
  else FRCORE_STAT_INC stat_ipc_head_valid st.

Definition pktid_of (dpkt : ipc_dpkt_hd_t) : Z := Z.lor (Z.shiftl (pid_h dpkt) 32) (pid_l dpkt).

Definition check_pktid (dpkt : ipc_dpkt_hd_t) (st : ipc_sys) : ipc_sys :=
  if pktid_check (ipc_misc st) =? 0 then st else
  let ppid := pktid_of dpkt in
  let cpid := cur_pktid st in
  if cpid =? 0 then
    if ppid =? cpid then FRCORE_STAT_INC stat_ipc_pktid_repeat st
    else set_cur (cur_smac st) ppid (FRCORE_STAT_INC stat_ipc_pktid_ordered st)
  else if ppid =? cpid then FRCORE_STAT_INC stat_ipc_pktid_repeat st
  else if ppid >? cpid then FRCORE_STAT_INC stat_ipc_pktid_ordered (set_cur (cur_smac st) ppid st)
  else FRCORE_STAT_INC stat_ipc_pktid_disorder st.

(** One or two tags: whether there is one, the protocol and the offset behind it. *)
Definition vlan_tags (ether_ptr : list Z) (st : ipc_sys) : option (bool * Z * Z * ipc_sys) :=
  protocol ← card_get ether_ptr 12 2;
  if protocol =? PROTO_VLAN then
    let st := FRCORE_STAT_INC stat_vlan st in
    protocol ← card_get ether_ptr 16 2;
    if protocol =? PROTO_VLAN
    then protocol ← card_get ether_ptr 20 2; Some (true, protocol, 22, st)
    else Some (true, protocol, 18, st)
  else Some (false, protocol, 14, st).

(** [ipc_cmd_t]: the packet id, four bits [dtype] and twelve bits [ip_len], padding. *)
Definition cmd_bytes (pktid dtype len : Z) : list Z :=
  be_bytes 8 pktid ++ be_bytes 2 (Z.lor (Z.shiftl (Z.land dtype 0xf) 12) (Z.land len 0xfff)) ++ cmd_padding.

(** [cmd_len] is 16 in both branches of the test of [dtype].  [frcore_send_instr_packet]
    hands the first [output_len] bytes of the buffer to the output unit. *)
Definition frcore_ipc_cmd_insert (iif pktid dtype len : Z) (st : ipc_sys) : option ipc_sys :=
  entry ← arr_get (ipc_instr_table st) iif;
  buf ← entry;
  let len := Z.land len 0xfff in
  buf ← write_bytes buf 16 (cmd_bytes pktid dtype len);
  buf ← (if 0 <? len then pl ← read_bytes (payload st) 0 len; write_bytes buf 32 pl else Some buf);
  table ← arr_set (ipc_instr_table st) iif (Some buf);
  Some (set_table table (sent st ++ [take (Z.to_nat (32 + len)) buf]) st).

Definition frcore_ipc_ipv4_instr_sample (dpkt : ipc_dpkt_hd_t) (sip dip : Z) (st : ipc_sys) : option (Z * ipc_sys) :=
  let c := instr_cfg st in
  if negb (Z.land (Z.land sip (sip_mask c)) (Z.land (sip_data c) (sip_mask c)) =? 0) ||
     negb (Z.land (Z.land dip (dip_mask c)) (Z.land (dip_data c) (dip_mask c)) =? 0)
  then
    let pktid := if negb (Z.land (i_type c) (action c) =? 0) then 0xffffffffffffffff else pktid_of dpkt in
    let iif := u16 (Z.lor (Z.lor (Z.lor (Z.shiftl (chassis dpkt) 8) (Z.shiftl (slot dpkt) 3)) (Z.shiftl (card dpkt) 2)) (ifid dpkt)) in
    st ← frcore_ipc_cmd_insert iif pktid (i_type c) (ip_len c) st;
    Some (FRCORE_ACT_FREE, st)
  else Some (FRCORE_ACT_FREE, st).

(** The words of the IP header: [ih] is bits 24-27 of the first, the addresses are the last
    two. *)
Definition frcore_ipc_ipv4_process (dpkt : ipc_dpkt_hd_t) (p : list Z) (st : ipc_sys) : option (Z * ipc_sys) :=
  w0 ← card_get p 0 4; _ ← card_get p 4 4; _ ← card_get p 8 4; saddr ← card_get p 12 4; daddr ← card_get p 16 4;
  if negb (Z.land (Z.shiftr w0 24) 0xf =? 5) then FRCORE_DROP stat_drop_ip_option (FRCORE_STAT_INC stat_ip_option st) else
  if negb (instr_send (ipc_misc st) =? 0) then frcore_ipc_ipv4_instr_sample dpkt saddr daddr st
  else Some (FRCORE_ACT_FREE, st).

Definition frcore_ipc_ipv6_process (st : ipc_sys) : option (Z * ipc_sys) :=
  FRCORE_DROP stat_drop_ip_v6 (FRCORE_STAT_INC stat_ip_v6 st).

Definition ether_of (w : work) : list Z := if bufs w =? 0 then packet_data w else packet_ptr w.
Definition ip_of (w : work) : list Z :=
  if bufs w =? 0 then drop (Z.to_nat (ip_offset w + 6)) (packet_data w) else drop (Z.to_nat (ip_offset w)) (packet_ptr w).

(** The switch on the protocol. *)
Definition ipc_dispatch (w : work) (dpkt : ipc_dpkt_hd_t) (st : ipc_sys) : option (Z * ipc_sys) :=
  let ether_ptr := ether_of w in
  '(vlan_dist, protocol, off, st) ← vlan_tags ether_ptr st;
  if protocol =? PROTO_IPV4 then
    st ← (if vlan_dist : bool then '(_, v) ← frcore_vlan_check_v4 (ipprt w) ether_ptr (ip_of w) (vlan st); Some (set_vlan v st) else Some st);
    frcore_ipc_ipv4_process dpkt (drop (Z.to_nat off) ether_ptr) st
  else if protocol =? PROTO_IPV6 then
    st ← (if vlan_dist : bool then '(_, v) ← frcore_vlan_check_v6 (ipprt w) ether_ptr (ip_of w) (vlan st); Some (set_vlan v st) else Some st);
    frcore_ipc_ipv6_process st
  else Some (FRCORE_ACT_FREE, st).

Definition frcore_ipc_work_process (w : work) (st : ipc_sys) : option (Z * ipc_sys) :=
  let st := kinds_of_pkt_len_stat (w_len w) st in
  if negb (rx_on (ipprt w)) then FRCORE_DROP stat_drop_port_off st else
  if rcv_error w then FRCORE_DROP stat_drop_rx_error (FRCORE_STAT_INC stat_rx_errs st) else
  let st := FRCORE_STAT_ADD stat_rx_bytes (w_len w + 4) (FRCORE_STAT_INC stat_rx_pkts st) in
  '(ok, st) ← check_smac (ether_of w) st;
  if negb ok then FRCORE_DROP stat_ipc_drop_smac_zero st else
  dpkt ← read_dpkt (ether_of w);
  ipc_dispatch w dpkt (check_pktid dpkt (check_exp dpkt st)).
End packets.

(** ** Registration *)

Definition ipc_handlers : list (Z * ipc_fn) :=
  [(USER_CMD_IPC_CUR_SET, frcore_cmd_ipc_cur_set); (USER_CMD_IPC_CUR_GET, frcore_cmd_ipc_cur_get);
   (USER_CMD_IPC_MISC_SET, frcore_cmd_ipc_misc_set); (USER_CMD_IPC_MISC_GET, frcore_cmd_ipc_misc_get);
   (USER_CMD_IPC_EXP_SET, frcore_cmd_ipc_exp_set); (USER_CMD_IPC_EXP_GET, frcore_cmd_ipc_exp_get);
   (USER_CMD_IPC_INSTR_SET, frcore_cmd_ipc_instr_set); (USER_CMD_IPC_INSTR_PAYLOAD_SET, frcore_cmd_ipc_instr_payload_set);
   (USER_CMD_IPC_INSTR_GET, frcore_cmd_ipc_instr_get)].

(** The result of the table is not looked at; the registrations end at the first failure. *)
Definition frcore_ipc_init (table_ok : bool) (mem : Z -> option (list Z)) (st : Cmd.card ipc_sys) : option (Z * Cmd.card ipc_sys) :=
  '(_, sys) ← frcore_ipc_instr_table_init table_ok mem (components st);
  register_all ipc_handlers (Card (frcore_cmdset st) (respond_buf st) sys).

(** The variables after the load of the program: all zero. *)
Definition zero_dpkt : ipc_dpkt_hd_t := Dpkt 0 0 0 0 0 0 0 0 0.
Definition ipc_load : ipc_sys :=
  IpcSys zero_dpkt zero_dpkt 0 0 (Misc 0 0 0 0 0) (InstrCfg 0 0 0 0 0 0 0 0) (replicate (Z.to_nat IPC_IP_LEN_MAX) 0) [] vlan_init (fun _ => 0) [].
