(* ===== verification/IpcProps.v ===== *)
(** * Inter-chassis packets: expected headers, packet numbers, instruction packets *)

From stdpp Require Import list functions.
From S2P Require Import Prelude Bytes Alg VlanCheck Cmd Ipc.
#[local] Open Scope Z_scope.

(** ** The expected header *)

Lemma exp_of_fields pid ouid iif : exp_of pid ouid iif =
  Dpkt ouid (pid `mod` 2 ^ 32) ((iif / 2 ^ 12) `mod` 2 ^ 4) ((iif / 2 ^ 8) `mod` 2 ^ 4) ((pid / 2 ^ 48) `mod` 2 ^ 16)
    ((pid / 2 ^ 32) `mod` 2 ^ 16) ((iif / 2 ^ 3) `mod` 2 ^ 5) ((iif / 2 ^ 2) `mod` 2 ^ 1) (iif `mod` 2 ^ 2).
Proof.
  assert (forall x, 0 <= x `mod` 2 ^ 4 < 2 ^ 4 /\ 0 <= x `mod` 2 ^ 16 < 2 ^ 16 /\ 0 <= x `mod` 2 ^ 2 < 2 ^ 2) as Hr
    by (intros; repeat split; apply Z.mod_pos_bound; lia).
  assert (forall x n, 0 <= x < 2 ^ 8 -> Z.shiftr (u8 x) n = Z.shiftr x n) as H8 by (intros; by rewrite wrapu_id).
  assert (forall x y, 0 <= y < 256 -> 0 <= Z.land x y < 2 ^ 8) as Hl by (intros; rewrite Z.land_comm; by apply land_small).
  unfold exp_of. rewrite !H8 by (apply Hl; lia). f_equal.
  - change 0xffffffff with (Z.ones 32). by rewrite Z.land_ones.
  - change 0xf0 with (Z.shiftl (Z.ones 4) 4). rewrite land_field by lia. rewrite Z.shiftr_div_pow2, Z.div_div by lia. done.
  - change 0xf with (Z.ones 4). rewrite Z.land_ones, Z.shiftr_div_pow2 by lia. apply wrapu_id. specialize (Hr (iif / 2 ^ 8)). lia.
  - change 0xffff0000 with (Z.shiftl (Z.ones 16) 16). rewrite land_field, Z.shiftr_div_pow2, Z.div_div by lia.
    change (2 ^ 48) with (2 ^ 32 * 2 ^ 16). apply wrapu_id. specialize (Hr (pid / (2 ^ 32 * 2 ^ 16))). lia.
  - change 0xffff with (Z.ones 16). rewrite Z.land_ones, Z.shiftr_div_pow2 by lia. apply wrapu_id. specialize (Hr (pid / 2 ^ 32)). lia.
  - change 0xf8 with (Z.shiftl (Z.ones 5) 3). by rewrite land_field by lia.
  - change 0x4 with (Z.shiftl (Z.ones 1) 2). by rewrite land_field by lia.
  - change 0x3 with (Z.ones 2). rewrite Z.land_ones by lia. apply wrapu_id. specialize (Hr iif). lia.
Qed.

(** The two numbers a header is made of; the fields are in range. *)
Record dpkt_ok (d : ipc_dpkt_hd_t) : Prop := DpktOk {
  do_oui : 0 <= oui d < 2 ^ 16; do_pid_l : 0 <= pid_l d < 2 ^ 32; do_chassis : 0 <= chassis d < 2 ^ 4; do_resv : 0 <= resv d < 2 ^ 4;
  do_vid : 0 <= ori_vid d < 2 ^ 16; do_pid_h : 0 <= pid_h d < 2 ^ 16; do_slot : 0 <= slot d < 2 ^ 5; do_card : 0 <= card d < 2 ^ 1;
  do_ifid : 0 <= ifid d < 2 ^ 2 }.

Lemma exp_of_ok pid ouid iif : 0 <= ouid < 2 ^ 16 -> dpkt_ok (exp_of pid ouid iif).
Proof. intros Ho. rewrite exp_of_fields. split; cbn; try (apply Z.mod_pos_bound; lia). done. Qed.

Lemma pid_of_eq d : dpkt_ok d -> pid_of d = (ori_vid d * 2 ^ 16 + pid_h d) * 2 ^ 32 + pid_l d.
Proof.
  intros [_ Hl _ _ Hv Hh _ _ _]. unfold pid_of. rewrite lor_shift by lia. set (w := _ + pid_h d).
  assert (u64 (Z.shiftl (u64 (s32 w)) 32) = Z.shiftl w 32) as ->; [|by apply lor_shift].
  rewrite !Z.shiftl_mul_pow2 by lia. assert (0 <= w < 2 ^ 32) as Hw by (unfold w; lia). unfold wraps, wrapu.
  rewrite (Z.mod_small w) by lia. rewrite Z.mul_mod_idemp_l by lia.
  destruct (Z.ltb_spec w (2 ^ (32 - 1))); [apply Z.mod_small; lia|].
  replace ((w - 2 ^ 32) * 2 ^ 32) with (w * 2 ^ 32 + -1 * 2 ^ 64) by lia. rewrite Z.mod_add by lia. apply Z.mod_small. lia.
Qed.

Lemma iif_of_eq d : dpkt_ok d -> iif_of d = (((chassis d * 2 ^ 4 + resv d) * 2 ^ 5 + slot d) * 2 + card d) * 2 ^ 2 + ifid d.
Proof.
  intros [_ _ Hc Hr _ _ Hs Hd Hi]. unfold iif_of.
  rewrite !Z.shiftl_mul_pow2 by lia.
  rewrite (lor_fields (chassis d) (resv d * 2 ^ 8) 12) by lia.
  replace (chassis d * 2 ^ 12 + resv d * 2 ^ 8) with ((chassis d * 2 ^ 4 + resv d) * 2 ^ 8) by lia.
  rewrite (lor_fields _ (slot d * 2 ^ 3) 8) by lia.
  replace ((chassis d * 2 ^ 4 + resv d) * 2 ^ 8 + slot d * 2 ^ 3) with (((chassis d * 2 ^ 4 + resv d) * 2 ^ 5 + slot d) * 2 ^ 3) by lia.
  rewrite (lor_fields _ (card d * 2 ^ 2) 3) by lia.
  replace (((chassis d * 2 ^ 4 + resv d) * 2 ^ 5 + slot d) * 2 ^ 3 + card d * 2 ^ 2)
    with ((((chassis d * 2 ^ 4 + resv d) * 2 ^ 5 + slot d) * 2 + card d) * 2 ^ 2) by lia.
  rewrite (lor_fields _ (ifid d) 2) by lia. apply wrapu_id. lia.
Qed.

Lemma div_mod_eq x n : n <> 0 -> x / n * n + x `mod` n = x.
Proof. intros Hn. pose proof (Z.div_mod x n Hn). lia. Qed.

(** Setting and reading back. *)
Lemma pid_of_exp pid ouid iif : 0 <= pid < 2 ^ 64 -> 0 <= ouid < 2 ^ 16 -> pid_of (exp_of pid ouid iif) = pid.
Proof.
  intros Hp Ho. rewrite pid_of_eq by by apply exp_of_ok. rewrite exp_of_fields. cbn [ori_vid pid_h pid_l].
  change (2 ^ 48) with (2 ^ 32 * 2 ^ 16). rewrite <- Z.div_div by lia.
  assert (0 <= pid / 2 ^ 32 < 2 ^ 32) by (split; [apply Z.div_pos; lia|apply Z.div_lt_upper_bound; lia]).
  rewrite (Z.mod_small (pid / 2 ^ 32 / 2 ^ 16)) by (split; [apply Z.div_pos; lia|apply Z.div_lt_upper_bound; lia]).
  pose proof (Z.div_mod pid (2 ^ 32) ltac:(lia)). pose proof (Z.div_mod (pid / 2 ^ 32) (2 ^ 16) ltac:(lia)). lia.
Qed.

Lemma iif_of_exp pid ouid iif : 0 <= iif < 2 ^ 16 -> 0 <= ouid < 2 ^ 16 -> iif_of (exp_of pid ouid iif) = iif.
Proof.
  intros Hp Ho. rewrite iif_of_eq by by apply exp_of_ok. rewrite exp_of_fields. cbn [chassis resv slot card ifid].
  change (2 ^ 12) with (2 ^ 2 * 2 * 2 ^ 5 * 2 ^ 4). change (2 ^ 8) with (2 ^ 2 * 2 * 2 ^ 5). change (2 ^ 3) with (2 ^ 2 * 2).
  rewrite <- !Z.div_div by lia. change (2 ^ 1) with 2.
  rewrite (Z.mod_small (iif / 2 ^ 2 / 2 / 2 ^ 5 / 2 ^ 4)) by (rewrite !Z.div_div by lia; split; [apply Z.div_pos; lia|apply Z.div_lt_upper_bound; lia]).
  by rewrite !div_mod_eq by lia.
Qed.

(** ** The check of a header *)

Lemma masked_eq a b c d m n s : 0 <= s -> 0 <= b < 2 ^ s -> 0 <= d < 2 ^ s -> 0 <= n < 2 ^ s ->
  Z.land (a * 2 ^ s + b) (m * 2 ^ s + n) = Z.land (c * 2 ^ s + d) (m * 2 ^ s + n) <->
  Z.land a m = Z.land c m /\ Z.land b n = Z.land d n.
Proof.
  intros Hs Hb Hd Hn. rewrite !land_fields by done.
  pose proof (land_small b n s Hs Hb). pose proof (land_small d n s Hs Hd). split; [|by intros [-> ->]].
  intros E. assert (0 < 2 ^ s) by lia. assert (Z.land a m = Z.land c m) as Ea; [|split; [done|rewrite Ea in E; lia]].
  apply (f_equal (fun x => x / 2 ^ s)) in E. rewrite !Z.div_add_l, !(Z.div_small (Z.land _ n)) in E by lia. lia.
Qed.

(** The bits of an interface that are compared: all but the reserved ones. *)
Definition IIF_BITS : Z := 0xf0ff.

(** The header [d] agrees with the expected one where the masks have ones. *)
Definition head_matches (ouid ouim iifd iifm pidd pidm : Z) (d : ipc_dpkt_hd_t) : Prop :=
  Z.land ouid ouim = Z.land (oui d) ouim /\ Z.land pidd pidm = Z.land (pid_of d) pidm /\
  Z.land iifd (Z.land iifm IIF_BITS) = Z.land (iif_of d) (Z.land iifm IIF_BITS).

#[export] Instance head_matches_dec a b c d e f h : Decision (head_matches a b c d e f h).
Proof. unfold head_matches. solve_decision. Defined.

Definition fields_match (x m d : ipc_dpkt_hd_t) : Prop :=
  Z.land (oui x) (oui m) = Z.land (oui d) (oui m) /\ Z.land (chassis x) (chassis m) = Z.land (chassis d) (chassis m) /\
  Z.land (pid_h x) (pid_h m) = Z.land (pid_h d) (pid_h m) /\ Z.land (pid_l x) (pid_l m) = Z.land (pid_l d) (pid_l m) /\
  Z.land (slot x) (slot m) = Z.land (slot d) (slot m) /\ Z.land (card x) (card m) = Z.land (card d) (card m) /\
  Z.land (ifid x) (ifid m) = Z.land (ifid d) (ifid m) /\ Z.land (ori_vid x) (ori_vid m) = Z.land (ori_vid d) (ori_vid m).

Lemma check_exp_eq d st : exp_check (ipc_misc st) <> 0 ->
  (fields_match (ipc_exp_data st) (ipc_exp_mask st) d /\ check_exp d st = FRCORE_STAT_INC stat_ipc_head_valid st) \/
  (~ fields_match (ipc_exp_data st) (ipc_exp_mask st) d /\ check_exp d st = FRCORE_STAT_INC stat_ipc_head_invalid st).
Proof.
  intros He. unfold check_exp, fields_match. rewrite (proj2 (Z.eqb_neq _ 0)) by done. unfold differs.
  repeat match goal with
  | |- context [negb (?x =? ?y)] => destruct (Z.eqb_spec x y); cbn [negb]; [|right; split; [tauto|done]]
  end. left. by repeat split.
Qed.

Lemma iif_matches x m d : dpkt_ok x -> dpkt_ok m -> dpkt_ok d ->
  Z.land (iif_of x) (Z.land (iif_of m) IIF_BITS) = Z.land (iif_of d) (Z.land (iif_of m) IIF_BITS) <->
  Z.land (chassis x) (chassis m) = Z.land (chassis d) (chassis m) /\ Z.land (slot x) (slot m) = Z.land (slot d) (slot m) /\
  Z.land (card x) (card m) = Z.land (card d) (card m) /\ Z.land (ifid x) (ifid m) = Z.land (ifid d) (ifid m).
Proof.
  intros Hx Hm Hd. assert (Z.land (iif_of m) IIF_BITS = (((chassis m * 2 ^ 4 + 0) * 2 ^ 5 + slot m) * 2 ^ 1 + card m) * 2 ^ 2 + ifid m) as ->.
  { rewrite iif_of_eq by done. destruct Hm. set (low := (slot m * 2 + card m) * 2 ^ 2 + ifid m).
    replace ((((chassis m * 2 ^ 4 + resv m) * 2 ^ 5 + slot m) * 2 + card m) * 2 ^ 2 + ifid m)
      with ((chassis m * 2 ^ 4 + resv m) * 2 ^ 8 + low) by (unfold low; lia).
    assert (0 <= low < 2 ^ 8) as Hl by (unfold low; lia).
    change IIF_BITS with ((Z.ones 4 * 2 ^ 4 + 0) * 2 ^ 8 + Z.ones 8). rewrite !land_fields by (lia || (split; vm_compute; congruence)).
    rewrite !Z.land_ones, !Z.mod_small, Z.land_0_r by lia. unfold low. lia. }
  rewrite !iif_of_eq by done. destruct Hx, Hm, Hd. change (?x * 2 + ?y) with (x * 2 ^ 1 + y). rewrite !masked_eq by lia.
  rewrite !Z.land_0_r. tauto.
Qed.

Lemma pid_matches x m d : dpkt_ok x -> dpkt_ok m -> dpkt_ok d ->
  Z.land (pid_of x) (pid_of m) = Z.land (pid_of d) (pid_of m) <->
  Z.land (ori_vid x) (ori_vid m) = Z.land (ori_vid d) (ori_vid m) /\ Z.land (pid_h x) (pid_h m) = Z.land (pid_h d) (pid_h m) /\
  Z.land (pid_l x) (pid_l m) = Z.land (pid_l d) (pid_l m).
Proof.
  intros Hx Hm Hd. rewrite !pid_of_eq by done. destruct Hx, Hm, Hd. rewrite !masked_eq by lia. tauto.
Qed.

Lemma head_matches_fields ouid ouim iifd iifm pidd pidm d : 0 <= ouid < 2 ^ 16 -> 0 <= ouim < 2 ^ 16 -> 0 <= iifd < 2 ^ 16 ->
  0 <= iifm < 2 ^ 16 -> 0 <= pidd < 2 ^ 64 -> 0 <= pidm < 2 ^ 64 -> dpkt_ok d ->
  fields_match (exp_of pidd ouid iifd) (exp_of pidm ouim iifm) d <-> head_matches ouid ouim iifd iifm pidd pidm d.
Proof.
  intros Ho Hom Hi Him Hp Hpm Hd. pose proof (exp_of_ok pidd ouid iifd Ho) as Hx. pose proof (exp_of_ok pidm ouim iifm Hom) as Hm.
  unfold head_matches. pose proof (iif_matches _ _ d Hx Hm Hd) as Hiif. pose proof (pid_matches _ _ d Hx Hm Hd) as Hpid.
  rewrite !iif_of_exp in Hiif by done. rewrite !pid_of_exp in Hpid by done. rewrite Hiif, Hpid. unfold fields_match. 
  change (oui (exp_of pidd ouid iifd)) with ouid. change (oui (exp_of pidm ouim iifm)) with ouim. tauto.
Qed.

(** The header of a packet is well formed. *)
Lemma read_dpkt_ok p d : Forall (fun b => 0 <= b < 256) p -> read_dpkt p = Some d -> dpkt_ok d.
Proof.
  intros Hb. unfold read_dpkt.
  destruct (card_get p 0 2) as [o|] eqn:Eo; [|done]. destruct (card_get p 2 4) as [l|] eqn:El; [|done].
  destruct (card_get p 6 1) as [v|] eqn:Ev; [|done]. destruct (card_get p 7 2) as [vi|] eqn:Evi; [|done].
  destruct (card_get p 9 2) as [h|] eqn:Eh; [|done]. destruct (card_get p 11 1) as [i|] eqn:Ei; [|done].
  cbn [mbind option_bind]. intros [= <-].
  apply (card_get_range _ _ _ _ Hb) in Eo; [|lia]. apply (card_get_range _ _ _ _ Hb) in El; [|lia].
  apply (card_get_range _ _ _ _ Hb) in Evi; [|lia]. apply (card_get_range _ _ _ _ Hb) in Eh; [|lia].
  split; cbn; try done.
  - change 0xf0 with (Z.shiftl (Z.ones 4) 4). rewrite land_field by lia. apply Z.mod_pos_bound. lia.
  - change 0xf8 with (Z.shiftl (Z.ones 5) 3). rewrite land_field by lia. apply Z.mod_pos_bound. lia.
  - change 4 with (Z.shiftl (Z.ones 1) 2). rewrite land_field by lia. apply Z.mod_pos_bound. lia.
  - change 3 with (Z.ones 2). rewrite Z.land_ones by lia. apply Z.mod_pos_bound. lia.
Qed.

(** ** The state in use *)

(** A buffer of the table with the header of its interface. *)
Record instr_buf (i : Z) (b : list Z) : Prop := InstrBuf {
  ib_length : Z.of_nat (length b) = 2048; ib_oui : card_get b 0 3 = Some IPC_INSTR_OUI;
  ib_iif : exists v, card_get b 4 2 = Some v /\ Z.land v 0x7ff = i; ib_protocol : card_get b 12 2 = Some IPC_INSTR_PROTOCOL }.

Definition table_ready (t : list (option (list Z))) : Prop :=
  Z.of_nat (length t) = IPC_IIF_MAX /\ forall i b, t !! i = Some b -> exists buf, b = Some buf /\ instr_buf (Z.of_nat i) buf.

Record ipc_inv (st : ipc_sys) : Prop := IpcInv {
  ii_payload : Z.of_nat (length (payload st)) = IPC_IP_LEN_MAX; ii_table : table_ready (ipc_instr_table st);
  ii_len : 0 <= ip_len (instr_cfg st) <= IPC_IP_LEN_MAX; ii_vlan : vlan_wf (vlan st) }.

(** What a packet may change. *)
Record same_config (st st' : ipc_sys) : Prop := SameConfig {
  sc_data : ipc_exp_data st' = ipc_exp_data st; sc_mask : ipc_exp_mask st' = ipc_exp_mask st;
  sc_misc : ipc_misc st' = ipc_misc st; sc_instr : instr_cfg st' = instr_cfg st; sc_payload : payload st' = payload st }.

Lemma same_config_refl st : same_config st st. Proof. by split. Qed.
Lemma same_config_trans s1 s2 s3 : same_config s1 s2 -> same_config s2 s3 -> same_config s1 s3.
Proof. intros [] []. split; congruence. Qed.

(** Counters, current values: the rest is as before. *)
Record only_counts (st st' : ipc_sys) : Prop := OnlyCounts {
  oc_config : same_config st st'; oc_table : ipc_instr_table st' = ipc_instr_table st; oc_vlan : vlan st' = vlan st;
  oc_sent : sent st' = sent st }.

Lemma only_counts_refl st : only_counts st st. Proof. by split. Qed.
Lemma only_counts_trans s1 s2 s3 : only_counts s1 s2 -> only_counts s2 s3 -> only_counts s1 s3.
Proof. intros [C1] [C2]. split; [by eapply same_config_trans|congruence..]. Qed.
Lemma only_counts_add c v st : only_counts st (FRCORE_STAT_ADD c v st). Proof. by split. Qed.
Lemma only_counts_cur a b st : only_counts st (set_cur a b st). Proof. by split. Qed.

Create HintDb ipc.
#[export] Hint Resolve only_counts_refl only_counts_add only_counts_cur : ipc.

Ltac counts :=
  repeat case_match; try done;
  repeat first [apply only_counts_refl|apply only_counts_add|apply only_counts_cur
    |eapply only_counts_trans; [|first [apply only_counts_add|apply only_counts_cur]]].

Lemma counts_inv st st' : only_counts st st' -> ipc_inv st -> ipc_inv st'.
Proof. intros [[] Ht Hv _] []. split; congruence. Qed.

Lemma kinds_counts len st : only_counts st (kinds_of_pkt_len_stat len st).
Proof. unfold kinds_of_pkt_len_stat, FRCORE_STAT_INC. counts. Qed.

Lemma check_exp_counts d st : only_counts st (check_exp d st).
Proof. unfold check_exp, FRCORE_STAT_INC. counts. Qed.

Lemma check_pktid_counts d st : only_counts st (check_pktid d st).
Proof. unfold check_pktid, FRCORE_STAT_INC. counts. Qed.

Lemma check_smac_counts p st : (12 <= length p)%nat -> exists ok st', check_smac p st = Some (ok, st') /\ only_counts st st'.
Proof.
  intros Hl. unfold check_smac, mac_value. destruct (_ =? 0); [by eexists _, _|].
  rewrite !read_bytes_eq by lia. cbn [mbind option_bind]. destruct (_ =? 0); do 2 eexists; (split; [done|]); unfold FRCORE_STAT_INC; counts.
Qed.

Lemma vlan_tags_counts p st : (22 <= length p)%nat ->
  exists d pr off st', vlan_tags p st = Some (d, pr, off, st') /\ only_counts st st' /\ 14 <= off <= 22.
Proof.
  intros Hl. unfold vlan_tags. destruct (card_get_defined p 12 2) as [v ->]; [lia..|]. cbn [mbind option_bind].
  destruct (v =? PROTO_VLAN).
  - destruct (card_get_defined p 16 2) as [v' ->]; [lia..|]. cbn [mbind option_bind]. destruct (v' =? PROTO_VLAN).
    + destruct (card_get_defined p 20 2) as [v'' ->]; [lia..|]. cbn [mbind option_bind]. do 4 eexists. split; [done|].
      split; [apply only_counts_add|lia].
    + do 4 eexists. split; [done|]. split; [apply only_counts_add|lia].
  - do 4 eexists. split; [done|]. split; [apply only_counts_refl|lia].
Qed.

Lemma read_dpkt_defined p : (12 <= length p)%nat -> exists d, read_dpkt p = Some d.
Proof.
  intros Hl. unfold read_dpkt. destruct (card_get_defined p 0 2) as [? ->]; [lia..|]. destruct (card_get_defined p 2 4) as [? ->]; [lia..|].
  destruct (card_get_defined p 6 1) as [? ->]; [lia..|]. destruct (card_get_defined p 7 2) as [? ->]; [lia..|].
  destruct (card_get_defined p 9 2) as [? ->]; [lia..|]. destruct (card_get_defined p 11 1) as [? ->]; [lia..|]. by eexists.
Qed.

(** ** Instruction packets *)


(** ** Instruction packets *)

Lemma card_get_take b n o k : 0 <= o -> 0 <= k -> o + k <= Z.of_nat n -> (n <= length b)%nat -> card_get (take n b) o k = card_get b o k.
Proof.
  intros Ho Hk Hn Hl. rewrite <- (take_drop n b) at 2. symmetry. apply card_get_prefix; [done..|]. rewrite length_take. lia.
Qed.

(** What an instruction packet says. *)
Record instr_packet (iif pktid dtype len : Z) (pl pkt : list Z) : Prop := InstrPacket {
  ip_size : Z.of_nat (length pkt) = 32 + len;
  ip_oui : card_get pkt 0 3 = Some IPC_INSTR_OUI;
  ip_iif : exists v, card_get pkt 4 2 = Some v /\ Z.land v 0x7ff = iif;
  ip_protocol : card_get pkt 12 2 = Some IPC_INSTR_PROTOCOL;
  ip_pktid : card_get pkt 16 8 = Some (u64 pktid);
  ip_word : card_get pkt 24 2 = Some (dtype `mod` 16 * 4096 + len);
  ip_data : take (Z.to_nat len) (drop 32 pkt) = take (Z.to_nat len) pl }.

Definition instr_len (len : Z) : Z := Z.land len 0xfff.

Lemma instr_len_range len : 0 <= instr_len len < 2 ^ 12.
Proof. unfold instr_len. change 0xfff with (Z.ones 12). rewrite Z.land_ones by lia. apply Z.mod_pos_bound. lia. Qed.

Lemma instr_len_id len : 0 <= len < 2 ^ 12 -> instr_len len = len.
Proof. intros Hl. unfold instr_len. change 0xfff with (Z.ones 12). rewrite Z.land_ones by lia. by apply Z.mod_small. Qed.

Lemma instr_len_idem len : Z.land (instr_len len) 0xfff = instr_len len.
Proof. apply instr_len_id, instr_len_range. Qed.

Lemma table_set t i b : table_ready t -> 0 <= i < IPC_IIF_MAX -> instr_buf i b -> table_ready (<[Z.to_nat i := Some b]> t).
Proof.
  intros [Hl Ht] Hi Hb. split; [by rewrite length_insert|]. intros j e. destruct (decide (j = Z.to_nat i)) as [->|Hne].
  - rewrite list_lookup_insert_eq by lia. intros [= <-]. exists b. split; [done|]. by rewrite Z2Nat.id by lia.
  - rewrite list_lookup_insert_ne by done. apply Ht.
Qed.

Lemma table_entry t i : table_ready t -> 0 <= i < IPC_IIF_MAX -> exists b, arr_get t i = Some (Some b) /\ instr_buf i b.
Proof.
  intros [Hl Ht] Hi. destruct (arr_get_is_Some t i) as [e He]; [lia|]. rewrite He.
  apply arr_get_Some in He as [_ He]. destruct (Ht _ _ He) as (b & -> & Hb). rewrite Z2Nat.id in Hb by lia. by exists b.
Qed.

(** What an insert leaves as it is. *)
Record only_sends (st st' : ipc_sys) : Prop := OnlySends {
  os_config : same_config st st'; os_vlan : vlan st' = vlan st; os_stats : stats st' = stats st; os_pktid : cur_pktid st' = cur_pktid st }.

Section instr.
Variable cmd_padding : list Z.
Hypothesis Hpad : length cmd_padding = 6%nat.

Lemma length_cmd_bytes pktid dtype len : length (cmd_bytes cmd_padding pktid dtype len) = 16%nat.
Proof using Hpad. unfold cmd_bytes. by rewrite !length_app, !length_be_bytes, Hpad. Qed.

Lemma cmd_bytes_fields pktid dtype len : 0 <= len < 2 ^ 12 ->
  card_get (cmd_bytes cmd_padding pktid dtype len) 0 8 = Some (u64 pktid) /\
  card_get (cmd_bytes cmd_padding pktid dtype len) 8 2 = Some (dtype `mod` 16 * 4096 + len).
Proof using cmd_padding.
  clear Hpad.
  intros Hl. unfold cmd_bytes. split; [exact (card_get_here 8 _ _)|].
  rewrite card_get_skip by (rewrite ?length_be_bytes; lia). rewrite length_be_bytes. change (8 - Z.of_nat 8) with 0.
  rewrite (card_get_here 2). f_equal. fold (instr_len len). rewrite instr_len_id by done.
  change 0xf with (Z.ones 4). rewrite Z.land_ones by lia. change 16 with (2 ^ 4).
  assert (0 <= dtype `mod` 2 ^ 4 < 2 ^ 4) by (apply Z.mod_pos_bound; lia).
  rewrite lor_shift by lia. change (2 ^ 12) with 4096 in *. apply wrapu_id. simpl. lia.
Qed.

(** The buffer with a command and its payload. *)
Lemma instr_write i b pktid dtype len pl : instr_buf i b -> Z.of_nat (length pl) = IPC_IP_LEN_MAX -> 0 <= len <= 2016 ->
  exists b1 b2, write_bytes b 16 (cmd_bytes cmd_padding pktid dtype len) = Some b1 /\
    (if 0 <? len then pl ← read_bytes pl 0 len; write_bytes b1 32 pl else Some b1) = Some b2 /\
    instr_buf i b2 /\ instr_packet i pktid dtype len pl (take (Z.to_nat (32 + len)) b2).
Proof using Hpad.
  intros [Hl Ho (v & Hv & Hi) Hp] Hpl Hlen. unfold IPC_IP_LEN_MAX in *.
  destruct (write_bytes b 16 (cmd_bytes cmd_padding pktid dtype len)) as [b1|] eqn:E1;
    [|rewrite write_bytes_eq in E1 by (rewrite length_cmd_bytes; lia); done].
  pose proof (length_written _ _ _ _ E1) as L1. destruct (cmd_bytes_fields pktid dtype len) as [C1 C2]; [lia|].
  pose proof (card_get_inside _ _ _ _ 0 8 E1) as I1. pose proof (card_get_inside _ _ _ _ 8 2 E1) as I2. rewrite length_cmd_bytes in I1, I2.
  exists b1. set (pd := take (Z.to_nat len) pl).
  assert (exists b2, (if 0 <? len then pl ← read_bytes pl 0 len; write_bytes b1 32 pl else Some b1) = Some b2 /\ length b2 = length b /\
    (forall q k, 0 <= q -> 0 <= k -> q + k <= 32 -> card_get b2 q k = card_get b1 q k) /\ take (Z.to_nat len) (drop 32 b2) = pd) as (b2 & -> & L2 & Hq & Hd).
  { destruct (Z.ltb_spec 0 len).
    - rewrite read_bytes_eq by lia. cbn [mbind option_bind]. rewrite drop_0. fold pd.
      assert (length pd = Z.to_nat len) as Hpd by (unfold pd; rewrite length_take; lia).
      destruct (write_bytes b1 32 pd) as [b2|] eqn:E2; [|rewrite write_bytes_eq in E2 by lia; done].
      exists b2. split; [done|]. split; [by rewrite (length_written _ _ _ _ E2)|]. split; [intros; by eapply card_get_before|].
      pose proof (written_here _ _ _ _ E2) as Hw. by rewrite Hpd in Hw.
    - exists b1. split; [done|]. split; [done|]. split; [done|]. unfold pd. replace len with 0 by lia. by rewrite !take_0. }
  exists b2. split; [done|]. split; [done|].
  assert (forall q k, 0 <= q -> 0 <= k -> q + k <= 16 -> card_get b2 q k = card_get b q k) as Hb.
  { intros q k ? ? ?. rewrite Hq by lia. apply (card_get_before _ _ _ _ _ _ E1); lia. }
  assert (instr_buf i b2) as [Hl2 Ho2 Hi2 Hp2].
  { split; [lia|by rewrite Hb by lia|exists v; by rewrite Hb by lia|by rewrite Hb by lia]. }
  split; [by split|]. assert (Z.to_nat (32 + len) <= length b2)%nat by lia.
  split; rewrite ?card_get_take by lia; try done.
  - rewrite length_take. lia.
  - rewrite Hq by lia. rewrite <- C1. apply I1; lia.
  - rewrite Hq by lia. rewrite <- C2. apply I2; lia.
  - fold pd. rewrite <- Hd. replace (Z.to_nat (32 + len)) with (32 + Z.to_nat len)%nat by lia.
    by rewrite take_drop_commute, (take_drop_commute b2), take_take, Nat.min_id.
Qed.

Lemma insert_packet_ok iif pktid dtype len st : ipc_inv st -> 0 <= iif < IPC_IIF_MAX -> instr_len len <= 2016 ->
  exists st' pkt, frcore_ipc_cmd_insert cmd_padding iif pktid dtype len st = Some st' /\ ipc_inv st' /\ only_sends st st' /\
    sent st' = sent st ++ [pkt] /\ instr_packet iif pktid dtype (instr_len len) (payload st) pkt.
Proof using Hpad.
  intros Hinv Hi Hl. pose proof (instr_len_range len) as Hr. unfold frcore_ipc_cmd_insert.
  destruct (table_entry _ _ (ii_table _ Hinv) Hi) as (b & -> & Hb). cbn [mbind option_bind]. fold (instr_len len).
  destruct (instr_write iif b pktid dtype (instr_len len) (payload st) Hb (ii_payload _ Hinv)) as (b1 & b2 & -> & E2 & Hb2 & Hp); [lia|].
  cbn [mbind option_bind] in E2 |- *. rewrite E2. cbn [mbind option_bind].
  rewrite arr_set_eq by (rewrite (proj1 (ii_table _ Hinv)); lia). cbn [mbind option_bind].
  do 2 eexists. split; [reflexivity|]. destruct Hinv as [? Ht ? ?]. split; [|by split].
  split; try done. by apply table_set.
Qed.

(** Beyond the table, or with more payload than the buffer holds, memory is overrun. *)
Lemma insert_none iif pktid dtype len st : ipc_inv st -> IPC_IIF_MAX <= iif \/ 2016 < instr_len len ->
  frcore_ipc_cmd_insert cmd_padding iif pktid dtype len st = None.
Proof using Hpad.
  intros Hinv Hc. pose proof (instr_len_range len) as Hr. unfold frcore_ipc_cmd_insert.
  destruct (arr_get (ipc_instr_table st) iif) as [e|] eqn:Ee; [|done]. cbn [mbind option_bind].
  assert (0 <= iif < IPC_IIF_MAX) as Hi by (rewrite <- (proj1 (ii_table _ Hinv)); by eapply arr_get_range).
  destruct (table_entry _ _ (ii_table _ Hinv) Hi) as (b & E & [Hb _ _ _]). rewrite Ee in E. injection E as ->. cbn [mbind option_bind].
  fold (instr_len len). destruct (write_bytes b 16 _) as [b1|] eqn:E1; [|done]. apply length_written in E1. cbn [mbind option_bind].
  rewrite (proj2 (Z.ltb_lt _ _)) by lia. unfold read_bytes. destruct (_ && _) eqn:Eb; [|done].
  apply andb_prop in Eb as [_ Eb]. apply Z.leb_le in Eb. cbn [mbind option_bind]. unfold write_bytes.
  rewrite (proj2 (Nat.leb_gt _ _)); [done|]. rewrite length_take, length_drop. lia.
Qed.
End instr.

(** ** Packets *)

(** The index of a sampled packet in the table. *)
Definition sample_iif (d : ipc_dpkt_hd_t) : Z := ((chassis d * 2 ^ 5 + slot d) * 2 + card d) * 2 ^ 2 + ifid d.

Lemma sample_iif_eq d : dpkt_ok d ->
  u16 (Z.lor (Z.lor (Z.lor (Z.shiftl (chassis d) 8) (Z.shiftl (slot d) 3)) (Z.shiftl (card d) 2)) (ifid d)) = sample_iif d.
Proof.
  intros [_ _ Hc _ _ _ Hs Hd Hi]. unfold sample_iif. rewrite !Z.shiftl_mul_pow2 by lia.
  rewrite (lor_fields (chassis d) (slot d * 2 ^ 3) 8) by lia.
  replace (chassis d * 2 ^ 8 + slot d * 2 ^ 3) with ((chassis d * 2 ^ 5 + slot d) * 2 ^ 3) by lia.
  rewrite (lor_fields _ (card d * 2 ^ 2) 3) by lia.
  replace ((chassis d * 2 ^ 5 + slot d) * 2 ^ 3 + card d * 2 ^ 2) with (((chassis d * 2 ^ 5 + slot d) * 2 + card d) * 2 ^ 2) by lia.
  rewrite (lor_fields _ (ifid d) 2) by lia. apply wrapu_id. lia.
Qed.

Lemma sample_iif_bound d : dpkt_ok d -> 0 <= sample_iif d < 2 ^ 12 /\ (sample_iif d < IPC_IIF_MAX <-> chassis d < 4).
Proof. intros []. unfold sample_iif, IPC_IIF_MAX. lia. Qed.

(** Whether a packet from [sip] to [dip] is sampled. *)
Definition sampled (c : ipc_instr_cfg_t) (sip dip : Z) : bool :=
  negb (Z.land (Z.land sip (sip_mask c)) (Z.land (sip_data c) (sip_mask c)) =? 0) ||
  negb (Z.land (Z.land dip (dip_mask c)) (Z.land (dip_data c) (dip_mask c)) =? 0).

(** The packet id an instruction packet carries. *)
Definition sample_pktid (c : ipc_instr_cfg_t) (d : ipc_dpkt_hd_t) : Z :=
  if Z.land (i_type c) (action c) =? 0 then pktid_of d else 0xffffffffffffffff.

Section process.
Context (rx_on : Z -> bool) (cmd_padding : list Z).
Hypothesis Hpad : length cmd_padding = 6%nat.

Lemma sample_eq d sip dip st : dpkt_ok d -> frcore_ipc_ipv4_instr_sample cmd_padding d sip dip st =
  if sampled (instr_cfg st) sip dip
  then st' ← frcore_ipc_cmd_insert cmd_padding (sample_iif d) (sample_pktid (instr_cfg st) d) (i_type (instr_cfg st)) (ip_len (instr_cfg st)) st;
    Some (FRCORE_ACT_FREE, st')
  else Some (FRCORE_ACT_FREE, st).
Proof using.
  clear Hpad. intros Hd. unfold frcore_ipc_ipv4_instr_sample, sampled. destruct (_ || _); [|done].
  rewrite sample_iif_eq by done. unfold sample_pktid. by destruct (Z.land (i_type _) _ =? 0).
Qed.

Lemma sample_ok d sip dip st : dpkt_ok d -> ipc_inv st -> chassis d < 4 -> ip_len (instr_cfg st) <= 2016 -> sampled (instr_cfg st) sip dip = true ->
  exists st' pkt, frcore_ipc_ipv4_instr_sample cmd_padding d sip dip st = Some (FRCORE_ACT_FREE, st') /\ ipc_inv st' /\ only_sends st st' /\
    sent st' = sent st ++ [pkt] /\
    instr_packet (sample_iif d) (sample_pktid (instr_cfg st) d) (i_type (instr_cfg st)) (ip_len (instr_cfg st)) (payload st) pkt.
Proof using Hpad.
  intros Hd Hinv Hc Hl Hs. rewrite sample_eq, Hs by done. destruct (sample_iif_bound d Hd) as [Hi Hb].
  pose proof (ii_len _ Hinv) as Hlr.
  destruct (insert_packet_ok cmd_padding Hpad (sample_iif d) (sample_pktid (instr_cfg st) d) (i_type (instr_cfg st)) (ip_len (instr_cfg st)) st Hinv)
    as (st' & pkt & -> & Hinv' & Hos & Hse & Hp); [lia|rewrite instr_len_id by lia; lia|].
  rewrite instr_len_id in Hp by lia. by exists st', pkt.
Qed.

Lemma sample_none d sip dip st : dpkt_ok d -> ipc_inv st -> 4 <= chassis d \/ 2016 < ip_len (instr_cfg st) -> sampled (instr_cfg st) sip dip = true ->
  frcore_ipc_ipv4_instr_sample cmd_padding d sip dip st = None.
Proof using Hpad.
  intros Hd Hinv Hc Hs. rewrite sample_eq, Hs by done. destruct (sample_iif_bound d Hd) as [Hi Hb].
  pose proof (ii_len _ Hinv) as Hlr. unfold IPC_IP_LEN_MAX in Hlr. rewrite (insert_none cmd_padding Hpad); [done..|]. rewrite instr_len_id by lia. lia.
Qed.

Lemma sample_inv d sip dip st rv st' : dpkt_ok d -> ipc_inv st -> frcore_ipc_ipv4_instr_sample cmd_padding d sip dip st = Some (rv, st') -> ipc_inv st'.
Proof using Hpad.
  intros Hd Hinv E. destruct (sampled (instr_cfg st) sip dip) eqn:Hs; [|rewrite sample_eq, Hs in E by done; by injection E as <- <-].
  destruct (decide (chassis d < 4 /\ ip_len (instr_cfg st) <= 2016)) as [[Hc Hl]|Hn].
  - destruct (sample_ok d sip dip st Hd Hinv Hc Hl Hs) as (st1 & pkt & E1 & Hi & _). rewrite E in E1. by injection E1 as -> ->.
  - rewrite sample_none in E by (done || lia). done.
Qed.

(** Dropping a packet counts it. *)
Lemma drop_inv c st rv st' : FRCORE_DROP c st = Some (rv, st') -> ipc_inv st -> ipc_inv st'.
Proof using. clear Hpad. intros [= _ <-]. apply counts_inv, only_counts_add. Qed.

Lemma inc_inv c st : ipc_inv st -> ipc_inv (FRCORE_STAT_INC c st).
Proof using. clear Hpad. apply counts_inv, only_counts_add. Qed.

Lemma set_vlan_inv v st : ipc_inv st -> vlan_wf v -> ipc_inv (set_vlan v st).
Proof using. clear Hpad. intros [] Hv. by split. Qed.

Lemma ipv4_inv d p st rv st' : dpkt_ok d -> ipc_inv st -> frcore_ipc_ipv4_process cmd_padding d p st = Some (rv, st') -> ipc_inv st'.
Proof using Hpad.
  intros Hd Hinv E. unfold frcore_ipc_ipv4_process in E.
  repeat match type of E with context [card_get ?p ?o ?k ≫= _] => destruct (card_get p o k); [cbn [mbind option_bind] in E|done] end.
  destruct (negb (Z.land _ 0xf =? 5)); [eapply drop_inv; [exact E|by apply inc_inv]|].
  destruct (negb _); [by eapply sample_inv|by injection E as <- <-].
Qed.

Lemma vlan_tags_inv p st r : vlan_tags p st = Some r -> only_counts st r.2.
Proof using.
  clear Hpad. unfold vlan_tags. destruct (card_get p 12 2) as [v|]; [|done]. cbn [mbind option_bind].
  destruct (v =? PROTO_VLAN); [|intros [= <-]; apply only_counts_refl].
  destruct (card_get p 16 2) as [v'|]; [|done]. cbn [mbind option_bind].
  destruct (v' =? PROTO_VLAN); [|intros [= <-]; apply only_counts_add].
  destruct (card_get p 20 2) as [v''|]; [|done]. cbn [mbind option_bind]. intros [= <-]. apply only_counts_add.
Qed.

(** A VLAN check keeps its state well formed. *)
Lemma vlan_v4_wf port eth ip v r : vlan_wf v -> frcore_vlan_check_v4 port eth ip v = Some r -> vlan_wf r.2.
Proof using. clear Hpad. intros Hv H. unfold frcore_vlan_check_v4 in H. inv_bind. by eapply count_check_wf. Qed.
Lemma vlan_v6_wf port eth ip v r : vlan_wf v -> frcore_vlan_check_v6 port eth ip v = Some r -> vlan_wf r.2.
Proof using. clear Hpad. intros Hv H. unfold frcore_vlan_check_v6 in H. inv_bind. by eapply count_check_wf. Qed.

Lemma dispatch_inv w d st rv st' : dpkt_ok d -> ipc_inv st -> ipc_dispatch cmd_padding w d st = Some (rv, st') -> ipc_inv st'.
Proof using Hpad.
  intros Hd Hinv E. unfold ipc_dispatch in E. destruct (vlan_tags _ st) as [[[[vd pr] off] s1]|] eqn:Ev; [|done].
  apply vlan_tags_inv in Ev. cbn [snd] in Ev. apply (counts_inv _ _ Ev) in Hinv. cbn [mbind option_bind] in E.
  destruct (pr =? PROTO_IPV4); [|destruct (pr =? PROTO_IPV6); [|by injection E as <- <-]].
  - destruct vd; [|by eapply ipv4_inv]. destruct (frcore_vlan_check_v4 _ _ _ _) as [[a v]|] eqn:Ec; [|done].
    apply vlan_v4_wf in Ec; [|apply Hinv]. eapply ipv4_inv; [done| |exact E]. by apply set_vlan_inv.
  - assert (forall s, ipc_inv s -> frcore_ipc_ipv6_process s = Some (rv, st') -> ipc_inv st') as Hd6.
    { intros s Hs. unfold frcore_ipc_ipv6_process. intros Hp. eapply drop_inv; [exact Hp|]. by apply inc_inv. }
    destruct vd; [|by eapply Hd6]. destruct (frcore_vlan_check_v6 _ _ _ _) as [[a v]|] eqn:Ec; [|done].
    apply vlan_v6_wf in Ec; [|apply Hinv]. eapply Hd6; [|exact E]. by apply set_vlan_inv.
Qed.

Lemma check_smac_inv p st r : check_smac p st = Some r -> only_counts st r.2.
Proof using.
  clear Hpad. unfold check_smac, FRCORE_STAT_INC. intros E. repeat case_match; inv_bind; repeat case_match; simplify_eq/=; counts.
Qed.

(** Up to the switch on the protocol only counters and current values change. *)
Lemma work_inv w st rv st' : Forall (fun b => 0 <= b < 256) (ether_of w) -> ipc_inv st ->
  frcore_ipc_work_process rx_on cmd_padding w st = Some (rv, st') -> ipc_inv st'.
Proof using Hpad.
  intros Hb Hinv E. unfold frcore_ipc_work_process in E. pose proof (counts_inv _ _ (kinds_counts (w_len w) st) Hinv) as H1.
  destruct (negb (rx_on _)); [by eapply drop_inv|]. destruct (rcv_error w); [eapply drop_inv; [exact E|by apply inc_inv]|].
  match type of E with context [check_smac _ ?s] => set (s2 := s) in E; assert (ipc_inv s2) as H2 end.
  { eapply counts_inv; [apply only_counts_add|]. by apply inc_inv. }
  clearbody s2. destruct (check_smac _ s2) as [[ok s3]|] eqn:Es; [|done]. apply check_smac_inv in Es. cbn [snd] in Es. cbn [mbind option_bind] in E.
  apply (counts_inv _ _ Es) in H2. destruct ok; cbn [negb] in E; [|by eapply drop_inv].
  destruct (read_dpkt _) as [d|] eqn:Er; [|done]. apply read_dpkt_ok in Er; [|done]. cbn [mbind option_bind] in E.
  eapply dispatch_inv; [done| |exact E]. eapply counts_inv; [apply check_pktid_counts|]. by eapply counts_inv; [apply check_exp_counts|].
Qed.
End process.

(** ** Packets that can be processed *)

(** The memory of a packet holds the headers that are read. *)
Definition packet_fits (w : work) : Prop :=
  (42 <= length (ether_of w))%nat /\ (40 <= length (ip_of w))%nat /\ Forall (fun b => 0 <= b < 256) (ether_of w).

Section defined.
Context (rx_on : Z -> bool) (cmd_padding : list Z).
Hypothesis Hpad : length cmd_padding = 6%nat.

(** A packet is not sampled, or its interface is in the table and the payload in the buffer. *)
Definition sample_fits (d : ipc_dpkt_hd_t) (st : ipc_sys) : Prop :=
  instr_send (ipc_misc st) = 0 \/ (chassis d < 4 /\ ip_len (instr_cfg st) <= 2016).

Lemma ipv4_defined d p st : dpkt_ok d -> ipc_inv st -> sample_fits d st -> (20 <= length p)%nat ->
  exists r, frcore_ipc_ipv4_process cmd_padding d p st = Some r.
Proof using Hpad.
  intros Hd Hinv Hs Hl. unfold frcore_ipc_ipv4_process.
  repeat match goal with |- context [card_get ?p ?o ?k ≫= _] => destruct (card_get_defined p o k) as [? ->]; [lia..|]; cbn [mbind option_bind] end.
  destruct (negb _); [by eexists|]. destruct (Z.eqb_spec (instr_send (ipc_misc st)) 0) as [Hz|Hz]; cbn [negb]; [by eexists|].
  destruct Hs as [Hs|[Hc Hlen]]; [done|]. destruct (sampled (instr_cfg st) x2 x3) eqn:E; [|rewrite sample_eq, E by done; by eexists].
  destruct (sample_ok cmd_padding Hpad d x2 x3 st Hd Hinv Hc Hlen E) as (st' & pkt & -> & _). by eexists.
Qed.

Lemma dispatch_defined w d st : dpkt_ok d -> ipc_inv st -> packet_fits w -> sample_fits d st -> 0 < vlan_id_num (vlan st) ->
  exists r, ipc_dispatch cmd_padding w d st = Some r.
Proof using Hpad.
  intros Hd Hinv [He [Hi _]] Hs Hn. unfold ipc_dispatch.
  destruct (vlan_tags_counts (ether_of w) st) as (vd & pr & off & s1 & -> & Hc & Ho); [lia|]. cbn [mbind option_bind].
  pose proof (counts_inv _ _ Hc Hinv) as H1. destruct Hc as [[_ _ Em Ei _] _ Ev _].
  assert (sample_fits d s1) as Hs1 by (unfold sample_fits in *; by rewrite Em, Ei). rewrite <- Ev in Hn.
  pose proof (vlan_check_safe (ipprt w) (ether_of w) (ip_of w) (ip_of w) (vlan s1) (ii_vlan _ H1) Hn) as Hv.
  destruct Hv as [(v4 & Hv4 & Hw4) (v6 & Hv6 & Hw6)]; [lia..|].
  assert (20 <= length (drop (Z.to_nat off) (ether_of w)))%nat as Hp by (rewrite length_drop; lia).
  destruct (pr =? PROTO_IPV4); [|destruct (pr =? PROTO_IPV6); [|by eexists]].
  - destruct vd; [|by apply ipv4_defined]. rewrite Hv4. cbn [mbind option_bind]. apply ipv4_defined; try done. by apply set_vlan_inv.
  - destruct vd; [|by eexists]. rewrite Hv6. by eexists.
Qed.

Lemma work_defined w d st : ipc_inv st -> packet_fits w -> read_dpkt (ether_of w) = Some d -> sample_fits d st -> 0 < vlan_id_num (vlan st) ->
  exists r, frcore_ipc_work_process rx_on cmd_padding w st = Some r.
Proof using Hpad.
  intros Hinv Hf Hr Hs Hn. pose proof Hf as [He [_ Hb]]. unfold frcore_ipc_work_process.
  destruct (negb _); [by eexists|]. destruct (rcv_error w); [by eexists|].
  match goal with |- context [check_smac _ ?s] => set (s2 := s); assert (only_counts st s2) as H2 end.
  { unfold s2, FRCORE_STAT_INC. eapply only_counts_trans; [|apply only_counts_add]. eapply only_counts_trans; [apply kinds_counts|apply only_counts_add]. }
  clearbody s2. destruct (check_smac_counts (ether_of w) s2) as (ok & s3 & -> & H3); [lia|]. cbn [mbind option_bind].
  destruct ok; cbn [negb]; [|by eexists]. rewrite Hr. cbn [mbind option_bind].
  assert (only_counts st (check_pktid d (check_exp d s3))) as H4.
  { eapply only_counts_trans; [exact H2|]. eapply only_counts_trans; [exact H3|].
    eapply only_counts_trans; [apply check_exp_counts|apply check_pktid_counts]. }
  apply dispatch_defined; [by eapply read_dpkt_ok|by eapply counts_inv|done| |].
  - destruct H4 as [[_ _ Em Ei _] _ _ _]. unfold sample_fits in *. by rewrite Em, Ei.
  - destruct H4 as [_ _ Ev _]. by rewrite Ev.
Qed.
End defined.

(** ** Start-up *)
Definition byte_list (l : list Z) : Prop := Forall (fun b => 0 <= b < 256) l.

(** The low eleven bits of a 16-bit word replaced. *)
Lemma low_bits old i : 0 <= i < 2 ^ 11 -> Z.land (u16 (Z.lor (Z.land old 0xf800) (Z.land i 0x7ff))) 0x7ff = i.
Proof.
  intros Hi. change 0x7ff with (Z.ones 11). rewrite !Z.land_ones, (Z.mod_small i) by lia.
  change 0xf800 with (Z.ones 5 * 2 ^ 11). rewrite land_high, lor_fields by lia.
  rewrite Z.land_ones by lia. pose proof (Z.mod_pos_bound (old / 2 ^ 11) (2 ^ 5) ltac:(lia)).
  rewrite wrapu_id by (simpl in *; lia). rewrite Z.add_comm, Z.mod_add by lia. by apply Z.mod_small.
Qed.

Lemma init_instr_hd_ok i m : 0 <= i < IPC_IIF_MAX -> Z.of_nat (length m) = 2048 -> exists b, init_instr_hd i m = Some b /\ instr_buf i b.
Proof.
  intros Hi Hm. unfold init_instr_hd, IPC_IIF_MAX in *.
  destruct (card_put m 0 3 IPC_INSTR_OUI) as (m1 & E1 & L1 & G1); [lia|]. rewrite E1. cbn [mbind option_bind].
  destruct (card_put m1 12 2 IPC_INSTR_PROTOCOL) as (m2 & E2 & L2 & G2); [lia|]. rewrite E2. cbn [mbind option_bind].
  destruct (card_get_defined m2 4 2) as [old ->]; [lia..|]. cbn [mbind option_bind]. set (v := Z.lor _ _).
  destruct (card_put m2 4 2 v) as (m3 & E3 & L3 & G3); [lia|]. exists m3. split; [done|]. split.
  - lia.
  - rewrite (card_get_before _ _ _ _ _ _ E3), (card_get_before _ _ _ _ _ _ E2) by lia. exact G1.
  - exists (u16 v). split; [exact G3|]. apply low_bits. lia.
  - rewrite (card_get_behind _ _ _ _ _ _ E3) by (rewrite ?length_be_bytes; lia). exact G2.
Qed.

(** The buffers before the first that cannot be allocated are ready, the others absent. *)
Definition table_upto (k : Z) (t : list (option (list Z))) : Prop :=
  Z.of_nat (length t) = IPC_IIF_MAX /\ forall i b, t !! i = Some b ->
    (Z.of_nat i < k -> exists buf, b = Some buf /\ instr_buf (Z.of_nat i) buf) /\ (k <= Z.of_nat i -> b = None).

Lemma init_entries_upto mem n k t : table_upto k t -> 0 <= k -> k + Z.of_nat n = IPC_IIF_MAX ->
  (forall i m, mem i = Some m -> Z.of_nat (length m) = 2048) ->
  exists rv k' t', init_entries mem (seqZ k (Z.of_nat n)) t = Some (rv, t') /\ table_upto k' t' /\
    ((rv = FRE_SUCCESS /\ k' = IPC_IIF_MAX) \/ (rv = 1 /\ k <= k' < IPC_IIF_MAX /\ mem k' = None)) /\
    forall i, k <= i < k' -> mem i <> None.
Proof.
  intros Ht Hk Hn Hm. revert k t Ht Hk Hn. induction n as [|n IH]; intros k t Ht Hk Hn.
  - exists FRE_SUCCESS, k, t. split; [done|]. split; [done|]. split; [left; split; [done|lia]|lia].
  - rewrite seqZ_cons by lia. replace (Z.pred (Z.of_nat (S n))) with (Z.of_nat n) by lia. rewrite <- Z.add_1_r. cbn [init_entries].
    destruct (mem k) as [m|] eqn:Em; [|exists 1, k, t; split; [done|]; split; [done|]; split; [right; by repeat split; try lia|lia]].
    destruct (init_instr_hd_ok k m) as (b & -> & Hb); [lia|by eapply Hm|]. cbn [mbind option_bind].
    destruct Ht as [Hl Ht]. rewrite arr_set_eq by lia. cbn [mbind option_bind].
    destruct (IH (k + 1) (<[Z.to_nat k := Some b]> t)) as (rv & k' & t' & -> & Ht' & Hc & Hs); [|lia..|].
    + split; [by rewrite length_insert|]. intros i e. destruct (decide (i = Z.to_nat k)) as [->|Hne].
      * rewrite list_lookup_insert_eq by lia. intros [= <-]. rewrite Z2Nat.id by lia. split; [by exists b|lia].
      * rewrite list_lookup_insert_ne by done. intros He. destruct (Ht _ _ He) as [H1 H2]. split; intros; [apply H1; lia|apply H2; lia].
    + exists rv, k', t'. split; [done|]. split; [done|].
      split; [destruct Hc as [?|(? & ? & ?)]; [by left|right]; repeat split; try done; lia|].
      intros i Hi. destruct (decide (i = k)) as [->|]; [by rewrite Em|]. apply Hs. lia.
Qed.

Lemma table_init_upto mem st : (forall i m, mem i = Some m -> Z.of_nat (length m) = 2048) ->
  exists rv k t, frcore_ipc_instr_table_init true mem st = Some (rv, set_table t (sent st) st) /\ table_upto k t /\
    ((rv = FRE_SUCCESS /\ k = IPC_IIF_MAX) \/ (rv = 1 /\ 0 <= k < IPC_IIF_MAX /\ mem k = None)) /\ forall i, 0 <= i < k -> mem i <> None.
Proof.
  intros Hm. unfold frcore_ipc_instr_table_init. cbn [negb].
  destruct (init_entries_upto mem (Z.to_nat IPC_IIF_MAX) 0 (replicate (Z.to_nat IPC_IIF_MAX) None)) as (rv & k & t & E & Ht & Hc & Hs); [|done..|].
  - split; [by rewrite length_replicate|]. intros i b Hb. apply lookup_replicate in Hb as [-> _]. split; [lia|done].
  - rewrite Z2Nat.id in E by done. rewrite E. cbn [mbind option_bind]. by exists rv, k, t.
Qed.

Lemma upto_ready t : table_upto IPC_IIF_MAX t -> table_ready t.
Proof. intros [Hl Ht]. split; [done|]. intros i b Hi. apply (proj1 (Ht i b Hi)). apply lookup_lt_Some in Hi. lia. Qed.
