(* ===== verification/IpcThm.v ===== *)
(** * Inter-chassis packets: what the code makes sure of

    The invariant of every command and packet, which packets are processed and which
    overrun memory, the check of the expected header, the order of packet numbers, and the
    contents of an instruction packet. *)

From stdpp Require Import list functions relations.
From S2P Require Import Prelude Bytes Alg FrcList VlanCheck Cmd CmdProps CmdSys CmdThm CmdTable Ipc IpcProps.
#[local] Open Scope Z_scope.

(** ** Commands *)

Lemma set_exp_inv d m st : ipc_inv st -> ipc_inv (set_exp d m st). Proof. intros []. by split. Qed.
Lemma set_cur_inv a b st : ipc_inv st -> ipc_inv (set_cur a b st). Proof. intros []. by split. Qed.
Lemma set_misc_inv m st : ipc_inv st -> ipc_inv (set_misc m st). Proof. intros []. by split. Qed.

Lemma instr_set_inv c pl st : ipc_inv st -> 0 <= ip_len c <= IPC_IP_LEN_MAX -> length pl = length (payload st) -> ipc_inv (set_instr c pl st).
Proof. intros [] Hl Hp. split; cbn [payload set_instr ipc_instr_table instr_cfg vlan]; by rewrite ?Hp. Qed.

Ltac step_bind E := repeat match type of E with
  | (?m ≫= _) = _ => destruct m eqn:?; [cbn [mbind option_bind] in E|done]
  | (if ?b then _ else _) = _ => destruct b eqn:?; [by simplify_eq/=|]
  end; simplify_eq/=.

(** Every command keeps the invariant, whatever it is sent. *)
Lemma handler_inv cmd fn plen param out st rv olen out' st' : (cmd, fn) ∈ ipc_handlers ->
  (forall p, param = Some p -> byte_list p) -> ipc_inv st -> fn plen param out st = Some (rv, olen, out', st') -> ipc_inv st'.
Proof.
  intros Hin Hb Hinv E. unfold ipc_handlers in Hin.
  repeat (apply elem_of_cons in Hin as [[= -> ->]|Hin]); [..|by apply elem_of_nil in Hin].
  - unfold frcore_cmd_ipc_cur_set in E. step_bind E. by apply set_cur_inv.
  - unfold frcore_cmd_ipc_cur_get in E. by step_bind E.
  - unfold frcore_cmd_ipc_misc_set in E. step_bind E. by apply set_misc_inv.
  - unfold frcore_cmd_ipc_misc_get in E. by step_bind E.
  - unfold frcore_cmd_ipc_exp_set in E. step_bind E. by apply set_exp_inv.
  - unfold frcore_cmd_ipc_exp_get in E. by step_bind E.
  - unfold frcore_cmd_ipc_instr_set in E. destruct (negb _); [by simplify_eq/=|]. destruct param as [p|]; [|done]. cbn [mbind option_bind] in E.
    destruct (card_get p 0 4); [|done]. destruct (card_get p 4 4); [|done]. destruct (card_get p 8 4) as [len|] eqn:El; [|done].
    apply card_get_range in El; [|by apply Hb|lia]. cbn [mbind option_bind] in E. rewrite Z.gtb_ltb in E.
    repeat match type of E with (card_get ?p ?o ?k ≫= _) = _ => destruct (card_get p o k); [cbn [mbind option_bind] in E|done] end.
    destruct (Z.ltb_spec IPC_IP_LEN_MAX len); simplify_eq/=; [done|]. apply instr_set_inv; try done. cbn [ip_len]. lia.
  - unfold frcore_cmd_ipc_instr_payload_set in E. step_bind E. apply instr_set_inv; [done|by apply Hinv|by eapply length_written].
  - unfold frcore_cmd_ipc_instr_get in E. by step_bind E.
Qed.

(** ** The life of the component *)
Section life.
Context (rx_on : Z -> bool) (cmd_padding : list Z).

Inductive ipc_step : ipc_sys -> ipc_sys -> Prop :=
| step_command cmd fn plen param out st rv olen out' st' : (cmd, fn) ∈ ipc_handlers -> (forall p, param = Some p -> byte_list p) ->
    fn plen param out st = Some (rv, olen, out', st') -> ipc_step st st'
| step_packet w st rv st' : byte_list (ether_of w) -> frcore_ipc_work_process rx_on cmd_padding w st = Some (rv, st') -> ipc_step st st'.

Lemma step_inv st st' : length cmd_padding = 6%nat -> ipc_inv st -> ipc_step st st' -> ipc_inv st'.
Proof.
  intros Hp Hinv Hs. destruct Hs as [cmd fn plen param out s rv olen out' s' Hin Hb E|w s rv s' Hb E].
  - exact (handler_inv _ _ _ _ _ _ _ _ _ _ Hin Hb Hinv E).
  - exact (work_inv _ _ Hp _ _ _ _ Hb Hinv E).
Qed.

Lemma steps_inv st st' : length cmd_padding = 6%nat -> ipc_inv st -> rtc ipc_step st st' -> ipc_inv st'.
Proof. intros Hp Hinv. induction 1 as [|s1 s2 s3 Hs _ IH]; [done|]. apply IH. by eapply step_inv. Qed.
End life.

Lemma load_inv t : table_ready t -> ipc_inv (set_table t (sent ipc_load) ipc_load).
Proof.
  intros Ht. split; [|done|cbn; unfold IPC_IP_LEN_MAX; lia|apply vlan_init_wf].
  unfold ipc_load, set_table. cbn [payload]. rewrite length_replicate. reflexivity.
Qed.

(** The table of commands after [frcore_ipc_init]. *)
Definition ipc_table : Z -> Z -> option (frcore_cmd_fn_t ipc_sys) := table_of ipc_handlers (fun _ _ => None).

Lemma init_table_spec max oks table_ok mem st sys rv : 57 < max -> (forall n, oks n = true) ->
  frcore_ipc_instr_table_init table_ok mem (components st) = Some (rv, sys) ->
  exists st0 st', frcore_cmd_init max oks st = (FRE_SUCCESS, st0) /\ frcore_ipc_init table_ok mem st0 = Some (FRE_SUCCESS, st') /\
    table_is max ipc_table (frcore_cmdset st') /\ components st' = sys.
Proof.
  intros Hm Ho Ei. destruct (init_table max oks st Ho) as (st0 & E & Ht & Eb & Ec).
  destruct (register_all_spec max ipc_handlers _ (Card (frcore_cmdset st0) (respond_buf st0) sys) Ht) as (st' & E' & Ht' & Ec' & Eb').
  - intros cmd fn Hin. unfold ipc_handlers in Hin.
    repeat (apply elem_of_cons in Hin as [[= -> _]|Hin];
      [unfold USER_CMD_IPC_CUR_GET, USER_CMD_IPC_CUR_SET, USER_CMD_IPC_MISC_GET, USER_CMD_IPC_MISC_SET, USER_CMD_IPC_EXP_GET,
         USER_CMD_IPC_EXP_SET, USER_CMD_IPC_INSTR_GET, USER_CMD_IPC_INSTR_SET, USER_CMD_IPC_INSTR_PAYLOAD_SET; lia|]).
    by apply elem_of_nil in Hin.
  - by apply (bool_decide_unpack _); vm_compute.
  - done.
  - exists st0, st'. split; [done|]. split; [|done]. unfold frcore_ipc_init. rewrite Ec, Ei. cbn [mbind option_bind]. exact E'.
Qed.

(** C21: a start of the card whose allocations all succeed succeeds, and puts the commands of the
    component into the table of commands.  From then on, along any run of its commands and of
    packets that are defined (those that leave the memory are not: an index beyond the
    payload, a packet from a chassis above 3 or longer than its buffer that is sampled), the
    table keeps a buffer with the header of its interface for each of the 1024 interfaces, the
    payload its size, the length of the payload its bound, and the VLAN counters add up. *)
Theorem ipc_life_invariant rx_on cmd_padding max oks mem st : length cmd_padding = 6%nat -> 57 < max -> (forall n, oks n = true) ->
  (forall i, 0 <= i < IPC_IIF_MAX -> mem i <> None) -> (forall i m, mem i = Some m -> Z.of_nat (length m) = 2048) -> components st = ipc_load ->
  exists st0 st', frcore_cmd_init max oks st = (FRE_SUCCESS, st0) /\ frcore_ipc_init true mem st0 = Some (FRE_SUCCESS, st') /\
    table_is max ipc_table (frcore_cmdset st') /\ forall s, rtc (ipc_step rx_on cmd_padding) (components st') s -> ipc_inv s.
Proof.
  intros Hp Hmax Ho Hmem Hsz Hc. destruct (table_init_upto mem ipc_load Hsz) as (rv & k & t & E & Ht & Hk & _).
  rewrite <- Hc in E at 1. destruct (init_table_spec max oks true mem st _ _ Hmax Ho E) as (st0 & st' & E0 & E1 & Htab & Ec).
  exists st0, st'. do 3 (split; [done|]). intros s Hs. eapply steps_inv; [done| |exact Hs]. rewrite Ec.
  destruct Hk as [[_ ->]|(_ & Hr & Hn)]; [by apply load_inv, upto_ready|]. by destruct (Hmem k Hr).
Qed.

(** when a buffer of the table cannot be allocated the start-up still succeeds, all
    commands in place; the packets of that interface, when sampled, write through a null
    pointer. *)
Theorem ipc_init_failure_ignored max oks mem st k cmd_padding pktid dtype len : 57 < max -> (forall n, oks n = true) ->
  0 <= k < IPC_IIF_MAX -> mem k = None -> (forall i m, mem i = Some m -> Z.of_nat (length m) = 2048) ->
  exists st0 st', frcore_cmd_init max oks st = (FRE_SUCCESS, st0) /\ frcore_ipc_init true mem st0 = Some (FRE_SUCCESS, st') /\
    table_is max ipc_table (frcore_cmdset st') /\ frcore_ipc_cmd_insert cmd_padding k pktid dtype len (components st') = None.
Proof.
  intros Hmax Ho Hk Hn Hsz. destruct (table_init_upto mem (components st) Hsz) as (rv & k' & t & E & [Hl Ht] & _ & Hk').
  destruct (init_table_spec max oks true mem st _ _ Hmax Ho E) as (st0 & st' & E0 & E1 & Htab & Ec).
  exists st0, st'. do 3 (split; [done|]). rewrite Ec. unfold frcore_ipc_cmd_insert. cbn [ipc_instr_table set_table].
  destruct (arr_get t k) as [e|] eqn:Ee; [|done]. apply arr_get_Some in Ee as [_ Ee]. destruct (Ht _ _ Ee) as [H1 H2].
  rewrite Z2Nat.id in H1, H2 by lia. destruct (Z.lt_ge_cases k k') as [Hlt|Hge]; [|by rewrite (H2 Hge)].
  destruct (Hk' k (conj (proj1 Hk) Hlt) Hn).
Qed.

(** ** Which packets are processed *)

(** a packet that reaches from the ethernet address to the end of its IP header is processed
    without undefined behaviour, and keeps the invariant, when no packets are sampled or its
    chassis number is below four and the payload at most 2016 bytes, as long as the range of
    VLAN numbers is not empty. *)
Theorem ipc_work_safe rx_on cmd_padding w d st : length cmd_padding = 6%nat -> ipc_inv st -> packet_fits w ->
  read_dpkt (ether_of w) = Some d -> sample_fits d st -> 0 < vlan_id_num (vlan st) ->
  exists rv st', frcore_ipc_work_process rx_on cmd_padding w st = Some (rv, st') /\ ipc_inv st'.
Proof.
  intros Hp Hinv Hf Hr Hs Hn. destruct (work_defined rx_on cmd_padding Hp w d st Hinv Hf Hr Hs Hn) as [[rv st'] E].
  exists rv, st'. split; [done|]. eapply work_inv; [done| |done|exact E]. apply Hf.
Qed.

(** these bounds are exact: a packet chosen by its addresses is answered without overrunning
    memory exactly when its chassis number is below four and the payload has at most 2016
    bytes, although the commands take up to 2048 and the chassis field has four bits. *)
Theorem ipc_sample_bounds cmd_padding d sip dip st : length cmd_padding = 6%nat -> ipc_inv st -> dpkt_ok d ->
  sampled (instr_cfg st) sip dip = true ->
  is_Some (frcore_ipc_ipv4_instr_sample cmd_padding d sip dip st) <-> chassis d < 4 /\ ip_len (instr_cfg st) <= 2016.
Proof.
  intros Hp Hinv Hd Hs. split.
  - intros [r Hr]. destruct (decide (chassis d < 4 /\ ip_len (instr_cfg st) <= 2016)) as [|Hn]; [done|].
    rewrite sample_none in Hr by (done || lia). done.
  - intros [Hc Hl]. destruct (sample_ok cmd_padding Hp d sip dip st Hd Hinv Hc Hl Hs) as (st' & pkt & -> & _). by eexists.
Qed.

(** a block of the payload is stored within the payload exactly for the offsets
    [32 * index] modulo 2^64 up to 2016; any other index overruns the array. *)
Theorem ipc_payload_bounds data index buf st : ipc_inv st -> length data = 32%nat -> 0 <= index < 2 ^ 64 ->
  is_Some (frcore_cmd_ipc_instr_payload_set SIZEOF_IPC_PAYLOAD_SET (Some (data ++ be_bytes 8 index)) buf st) <->
  (index * 32) `mod` 2 ^ 64 <= 2016.
Proof.
  intros Hinv Hd Hi. unfold frcore_cmd_ipc_instr_payload_set. cbn [mbind option_bind]. rewrite Z.eqb_refl. cbn [negb].
  unfold INSTR_PAYLOAD_SZ. rewrite read_bytes_eq by (rewrite ?length_app; lia). cbn [mbind option_bind].
  rewrite drop_0, take_app_le, take_ge by (rewrite Hd; simpl; lia).
  rewrite card_get_skip by (rewrite ?Hd; lia). rewrite Hd. change (32 - Z.of_nat 32) with 0.
  pose proof (card_get_here 8 index []) as Hg. rewrite app_nil_r in Hg. change (Z.of_nat 8) with 8 in Hg. rewrite Hg. cbn [mbind option_bind].
  rewrite (wrapu_id (8 * 8) index) by (simpl; lia). unfold wrapu. pose proof (Z.mod_pos_bound (index * 32) (2 ^ 64) ltac:(lia)) as Hm.
  assert (length (swap_buff 4 data) = 32%nat) as Hsw by (rewrite length_swap_buff, Hd by lia; done).
  unfold write_bytes. rewrite Hsw. pose proof (ii_payload _ Hinv) as Hpl. unfold IPC_IP_LEN_MAX in Hpl.
  destruct (Nat.leb_spec (Z.to_nat ((index * 32) `mod` 2 ^ 64) + 32) (length (payload st))); cbn [mbind option_bind].
  - split; [lia|by eexists].
  - split; [by intros [? ?]|lia].
Qed.

(** ** The expected header *)

(** [ipc_exp_t] in the memory of the card *)
Definition exp_bytes (ouid ouim iifd iifm pidd pidm : Z) : list Z :=
  be_bytes 2 iifm ++ be_bytes 2 iifd ++ be_bytes 2 ouim ++ be_bytes 2 ouid ++ be_bytes 8 pidd ++ be_bytes 8 pidm.

Definition exp_range (ouid ouim iifd iifm pidd pidm : Z) : Prop :=
  (0 <= ouid < 2 ^ 16 /\ 0 <= ouim < 2 ^ 16) /\ (0 <= iifd < 2 ^ 16 /\ 0 <= iifm < 2 ^ 16) /\ (0 <= pidd < 2 ^ 64 /\ 0 <= pidm < 2 ^ 64).

(** A field at the front, and one behind others. *)
Lemma card_field n v rest o k : o = 0 -> k = Z.of_nat n -> card_get (be_bytes n v ++ rest) o k = Some (wrapu (8 * k) v).
Proof. intros -> ->. apply card_get_here. Qed.

Ltac field_at := rewrite <- ?app_assoc; repeat (rewrite card_get_skip by (rewrite ?length_be_bytes; lia); rewrite length_be_bytes);
  rewrite card_field by reflexivity; rewrite wrapu_id; done.

Lemma exp_set_eq ouid ouim iifd iifm pidd pidm rest buf st : exp_range ouid ouim iifd iifm pidd pidm ->
  frcore_cmd_ipc_exp_set SIZEOF_IPC_EXP (Some (exp_bytes ouid ouim iifd iifm pidd pidm ++ rest)) buf st =
  Some (FRE_SUCCESS, 0, buf, set_exp (exp_of pidd ouid iifd) (exp_of pidm ouim iifm) st).
Proof.
  intros ([] & [] & []). unfold frcore_cmd_ipc_exp_set. rewrite Z.eqb_refl. cbn [negb mbind option_bind]. set (p := _ ++ rest).
  assert (card_get p 0 2 = Some iifm) as -> by (unfold p, exp_bytes; field_at).
  assert (card_get p 2 2 = Some iifd) as -> by (unfold p, exp_bytes; field_at).
  assert (card_get p 4 2 = Some ouim) as -> by (unfold p, exp_bytes; field_at).
  assert (card_get p 6 2 = Some ouid) as -> by (unfold p, exp_bytes; field_at).
  assert (card_get p 8 8 = Some pidd) as -> by (unfold p, exp_bytes; field_at).
  assert (card_get p 16 8 = Some pidm) as -> by (unfold p, exp_bytes; field_at).
  done.
Qed.

(** after the command that sets the expected header, the check counts a packet as valid
    exactly when its vendor code, packet id and interface agree with the expected ones on
    every bit of their masks, the four reserved bits of the interface aside. *)
Theorem ipc_exp_check_correct ouid ouim iifd iifm pidd pidm rest buf st d : exp_range ouid ouim iifd iifm pidd pidm ->
  exp_check (ipc_misc st) <> 0 -> dpkt_ok d ->
  exists st', frcore_cmd_ipc_exp_set SIZEOF_IPC_EXP (Some (exp_bytes ouid ouim iifd iifm pidd pidm ++ rest)) buf st = Some (FRE_SUCCESS, 0, buf, st') /\
    check_exp d st' =
      FRCORE_STAT_INC (if decide (head_matches ouid ouim iifd iifm pidd pidm d) then stat_ipc_head_valid else stat_ipc_head_invalid) st'.
Proof.
  intros Hr He Hd. rewrite exp_set_eq by done. eexists. split; [reflexivity|]. set (st' := set_exp _ _ st).
  destruct Hr as ([] & [] & []). pose proof (head_matches_fields ouid ouim iifd iifm pidd pidm d) as Hm.
  destruct (check_exp_eq d st' He) as [[Hf ->]|[Hf ->]].
  - by rewrite decide_True by by apply Hm.
  - rewrite decide_False; [done|]. intros Hh. by apply Hf, Hm.
Qed.

(** ** The order of packet numbers *)

(** The numbers above all earlier ones, those that repeat the largest, and the others. *)
Fixpoint above (c : Z) (ps : list Z) : Z := match ps with [] => 0 | p :: ps => (if c <? p then 1 else 0) + above (c `max` p) ps end.
Fixpoint equal (c : Z) (ps : list Z) : Z := match ps with [] => 0 | p :: ps => (if c =? p then 1 else 0) + equal (c `max` p) ps end.
Fixpoint below (c : Z) (ps : list Z) : Z := match ps with [] => 0 | p :: ps => (if p <? c then 1 else 0) + below (c `max` p) ps end.

Lemma above_all c ps : above c ps + equal c ps + below c ps = Z.of_nat (length ps).
Proof.
  revert c. induction ps as [|p ps IH]; intros c; [done|]. cbn [above equal below length]. specialize (IH (c `max` p)).
  destruct (Z.ltb_spec c p), (Z.eqb_spec c p), (Z.ltb_spec p c); lia.
Qed.

Lemma above_le c ps : above c ps <= Z.of_nat (length ps).
Proof. revert c. induction ps as [|p ps IH]; intros c; [done|]. cbn [above length]. specialize (IH (c `max` p)). case_match; lia. Qed.

(** Only an increasing stream counts wholly as ordered. *)
Fixpoint increasing (c : Z) (ps : list Z) : Prop := match ps with [] => True | p :: ps => c < p /\ increasing p ps end.

Lemma above_increasing c ps : above c ps = Z.of_nat (length ps) <-> increasing c ps.
Proof.
  revert c. induction ps as [|p ps IH]; intros c; [done|]. cbn [above length increasing]. pose proof (above_le (c `max` p) ps).
  destruct (Z.ltb_spec c p).
  - rewrite Z.max_r in * by lia. rewrite <- IH. lia.
  - split; [lia|intros [? _]; lia].
Qed.

Definition check_pktids (ds : list ipc_dpkt_hd_t) (st : ipc_sys) : ipc_sys := foldl (fun st d => check_pktid d st) st ds.

Lemma pktid_of_range d : dpkt_ok d -> 0 <= pktid_of d.
Proof. intros []. unfold pktid_of. rewrite lor_shift by lia. lia. Qed.

Lemma check_pktid_eq d st : dpkt_ok d -> 0 <= cur_pktid st -> pktid_check (ipc_misc st) <> 0 ->
  let st' := check_pktid d st in let p := pktid_of d in let c := cur_pktid st in
  cur_pktid st' = c `max` p /\ ipc_misc st' = ipc_misc st /\
  stats st' stat_ipc_pktid_ordered = (if c <? p then u64 (stats st stat_ipc_pktid_ordered + 1) else stats st stat_ipc_pktid_ordered) /\
  stats st' stat_ipc_pktid_repeat = (if c =? p then u64 (stats st stat_ipc_pktid_repeat + 1) else stats st stat_ipc_pktid_repeat) /\
  stats st' stat_ipc_pktid_disorder = (if p <? c then u64 (stats st stat_ipc_pktid_disorder + 1) else stats st stat_ipc_pktid_disorder).
Proof.
  intros Hd Hc Hk. pose proof (pktid_of_range d Hd) as Hp. unfold check_pktid. rewrite (proj2 (Z.eqb_neq _ 0)) by done.
  cbv zeta. rewrite Z.gtb_ltb, (Z.eqb_sym (pktid_of d)).
  destruct (Z.eqb_spec (cur_pktid st) (pktid_of d)), (Z.ltb_spec (cur_pktid st) (pktid_of d)), (Z.ltb_spec (pktid_of d) (cur_pktid st)),
    (Z.eqb_spec (cur_pktid st) 0); try lia; cbn; repeat split; try lia; try done.
Qed.

Lemma u64_add_l a b : u64 (u64 a + b) = u64 (a + b).
Proof. unfold wrapu. by rewrite Z.add_mod_idemp_l by lia. Qed.

Definition counter_ok (c : pkt_stat) (st : ipc_sys) : Prop := 0 <= stats st c < 2 ^ 64.
Definition pktid_counters_ok (st : ipc_sys) : Prop :=
  counter_ok stat_ipc_pktid_ordered st /\ counter_ok stat_ipc_pktid_repeat st /\ counter_ok stat_ipc_pktid_disorder st.

Lemma pktid_trace ds st : Forall dpkt_ok ds -> 0 <= cur_pktid st -> pktid_check (ipc_misc st) <> 0 -> pktid_counters_ok st ->
  let ps := pktid_of <$> ds in let st' := check_pktids ds st in
  cur_pktid st' = foldl Z.max (cur_pktid st) ps /\
  stats st' stat_ipc_pktid_ordered = u64 (stats st stat_ipc_pktid_ordered + above (cur_pktid st) ps) /\
  stats st' stat_ipc_pktid_repeat = u64 (stats st stat_ipc_pktid_repeat + equal (cur_pktid st) ps) /\
  stats st' stat_ipc_pktid_disorder = u64 (stats st stat_ipc_pktid_disorder + below (cur_pktid st) ps).
Proof.
  intros Hds. cbv zeta. revert st. induction Hds as [|d ds Hd _ IH]; intros st Hc Hk (S1 & S2 & S3).
  - cbn. rewrite !Z.add_0_r, !wrapu_id by done. done.
  - destruct (check_pktid_eq d st Hd Hc Hk) as (E1 & E2 & E3 & E4 & E5). set (st1 := check_pktid d st) in *.
    change (check_pktids (d :: ds) st) with (check_pktids ds st1). rewrite !fmap_cons. cbn [foldl above equal below].
    pose proof (pktid_of_range d Hd). destruct (IH st1) as (H1 & H2 & H3 & H4); [lia|by rewrite E2| |].
    { unfold pktid_counters_ok, counter_ok in *. rewrite E3, E4, E5. clear E3 E4 E5. split; [|split]; case_match; first [done|apply wrapu_range; lia]. }
    rewrite E1 in *. split; [done|]. rewrite H2, H3, H4, E3, E4, E5.
    clear E3 E4 E5. split; [|split]; case_match; rewrite ?u64_add_l; apply (f_equal (wrapu 64)); lia.
Qed.

(** the current packet number is the largest seen, a number above all earlier ones counts as
    ordered, one that repeats the largest as a repeat and any other as disorder, with every
    packet counted once; the stream counts wholly as ordered exactly when it increases. *)
Theorem ipc_pktid_order ds st : Forall dpkt_ok ds -> 0 <= cur_pktid st -> pktid_check (ipc_misc st) <> 0 -> pktid_counters_ok st ->
  let ps := pktid_of <$> ds in let st' := check_pktids ds st in
  (cur_pktid st' = foldl Z.max (cur_pktid st) ps /\
   stats st' stat_ipc_pktid_ordered = u64 (stats st stat_ipc_pktid_ordered + above (cur_pktid st) ps) /\
   stats st' stat_ipc_pktid_repeat = u64 (stats st stat_ipc_pktid_repeat + equal (cur_pktid st) ps) /\
   stats st' stat_ipc_pktid_disorder = u64 (stats st stat_ipc_pktid_disorder + below (cur_pktid st) ps)) /\
  above (cur_pktid st) ps + equal (cur_pktid st) ps + below (cur_pktid st) ps = Z.of_nat (length ds) /\
  (above (cur_pktid st) ps = Z.of_nat (length ds) <-> increasing (cur_pktid st) ps).
Proof.
  intros Hds Hc Hk Hs. cbv zeta. split; [by apply pktid_trace|]. rewrite <- (length_fmap pktid_of ds).
  split; [apply above_all|apply above_increasing].
Qed.

(** ** A sampled packet *)

(** The states before and behind the checks have the same configuration. *)
Lemma work_untagged rx_on cmd_padding w d st p : rx_on (ipprt w) = true -> rcv_error w = false -> smac_check (ipc_misc st) = 0 ->
  read_dpkt (ether_of w) = Some d -> card_get (ether_of w) 12 2 = Some PROTO_IPV4 -> p = drop 14 (ether_of w) ->
  exists st1, only_counts st st1 /\ frcore_ipc_work_process rx_on cmd_padding w st = frcore_ipc_ipv4_process cmd_padding d p st1.
Proof.
  intros Hrx He Hm Hd Hp ->. unfold frcore_ipc_work_process. rewrite Hrx, He. cbn [negb].
  match goal with |- context [check_smac _ ?s] => set (s2 := s); assert (only_counts st s2) as H2 end.
  { unfold s2, FRCORE_STAT_INC. eapply only_counts_trans; [|apply only_counts_add]. eapply only_counts_trans; [apply kinds_counts|apply only_counts_add]. }
  clearbody s2. unfold check_smac. rewrite (sc_misc _ _ (oc_config _ _ H2)), Hm. cbn [Z.eqb mbind option_bind negb]. rewrite Hd. cbn [mbind option_bind].
  eexists. split; [|unfold ipc_dispatch, vlan_tags; rewrite Hp; cbn [mbind option_bind]; reflexivity].
  eapply only_counts_trans; [exact H2|]. eapply only_counts_trans; [apply check_exp_counts|apply check_pktid_counts].
Qed.

(** an untagged IPv4 packet whose addresses are chosen is answered with exactly one
    instruction packet: it names the vendor, the protocol and the interface of the packet,
    repeats its packet number - or all ones for the chosen actions - the kind of instruction
    and the length, and carries that much of the payload. *)
Theorem ipc_sampled_packet rx_on cmd_padding w d st w0 sip dip : length cmd_padding = 6%nat -> ipc_inv st -> byte_list (ether_of w) ->
  rx_on (ipprt w) = true -> rcv_error w = false -> smac_check (ipc_misc st) = 0 -> instr_send (ipc_misc st) <> 0 ->
  read_dpkt (ether_of w) = Some d -> card_get (ether_of w) 12 2 = Some PROTO_IPV4 -> (34 <= length (ether_of w))%nat ->
  card_get (drop 14 (ether_of w)) 0 4 = Some w0 -> (w0 / 2 ^ 24) `mod` 2 ^ 4 = 5 ->
  card_get (drop 14 (ether_of w)) 12 4 = Some sip -> card_get (drop 14 (ether_of w)) 16 4 = Some dip ->
  sampled (instr_cfg st) sip dip = true -> chassis d < 4 -> ip_len (instr_cfg st) <= 2016 ->
  exists st' pkt, frcore_ipc_work_process rx_on cmd_padding w st = Some (FRCORE_ACT_FREE, st') /\ ipc_inv st' /\ sent st' = sent st ++ [pkt] /\
    instr_packet (sample_iif d) (sample_pktid (instr_cfg st) d) (i_type (instr_cfg st)) (ip_len (instr_cfg st)) (payload st) pkt.
Proof.
  intros Hpad Hinv Hb Hrx He Hm Hi Hd Hp Hlen Hw Hih Hsip Hdip Hs Hc Hl.
  destruct (work_untagged rx_on cmd_padding w d st _ Hrx He Hm Hd Hp eq_refl) as (s1 & Hoc & ->).
  unfold frcore_ipc_ipv4_process. rewrite Hw, Hsip, Hdip. cbn [mbind option_bind].
  destruct (card_get_defined (drop 14 (ether_of w)) 4 4) as [? ->]; [lia|rewrite length_drop; lia|].
  destruct (card_get_defined (drop 14 (ether_of w)) 8 4) as [? ->]; [lia|rewrite length_drop; lia|]. cbn [mbind option_bind].
  change 0xf with (Z.ones 4). rewrite Z.land_ones, Z.shiftr_div_pow2, Hih by lia. cbn [Z.eqb negb].
  pose proof (counts_inv _ _ Hoc Hinv) as H1. destruct Hoc as [[_ _ Em Ei Ep] _ _ Es].
  rewrite Em, (proj2 (Z.eqb_neq _ _)) by done. cbn [negb]. rewrite <- Ei in *.
  destruct (sample_ok cmd_padding Hpad d sip dip s1 (read_dpkt_ok _ _ Hb Hd) H1 Hc Hl Hs) as (st' & pkt & -> & Hinv' & _ & Hse & Hpk).
  rewrite <- Ep, <- Es. by exists st', pkt.
Qed.

(** ** Witnesses *)

Definition zero_mem (i : Z) : option (list Z) := Some (replicate (Z.to_nat 2048) 0).

Lemma zero_mem_size i m : zero_mem i = Some m -> Z.of_nat (length m) = 2048.
Proof. intros H. apply (inj Some) in H. by rewrite <- H, length_replicate. Qed.

Lemma some_table : exists t, table_ready t.
Proof.
  destruct (table_init_upto zero_mem ipc_load zero_mem_size) as (rv & k & t & _ & Ht & [[_ ->]|(_ & _ & Hn)] & _); [|done].
  exists t. by apply upto_ready.
Qed.

Definition sample_pad : list Z := replicate 6 0.
Definition sample_cfg : ipc_instr_cfg_t := InstrCfg 0 1 2 64 0x0a000001 0xffffffff 0 0.

(** A running component that answers packets from 10.0.0.1. *)
Definition running (t : list (option (list Z))) : ipc_sys :=
  set_misc (Misc 0 1 1 0 1) (set_instr sample_cfg (payload ipc_load) (set_table t [] ipc_load)).

Lemma running_inv t : table_ready t -> ipc_inv (running t).
Proof.
  intros Ht. apply set_misc_inv, instr_set_inv; [by apply load_inv|cbn; unfold IPC_IP_LEN_MAX; lia|done].
Qed.

Definition sample_ether : list Z :=
  [0x21; 0x45; 0; 0; 0; 9; 0x20; 0; 1; 0; 3; 0x0d] ++ [8; 0] ++ [0x45; 0; 0; 40; 0; 0; 0; 0; 64; 6; 0; 0; 10; 0; 0; 1; 10; 0; 0; 2] ++ replicate 20 0.
Definition sample_work : work := Work 0 false 60 1 14 [] sample_ether.
Definition sample_dpkt : ipc_dpkt_hd_t := Dpkt 0x2145 9 2 0 1 3 1 1 1.

Lemma sample_dpkt_ok : dpkt_ok sample_dpkt.
Proof. split; cbn; lia. Qed.

(** A packet, and then the command that switches the checks on. *)
Definition misc_param : list Z := [0; 0; 0; 0; 0; 1; 1; 1].

Lemma two_steps t : table_ready t -> exists s1,
  rtc (ipc_step (fun _ => true) sample_pad) (set_table t [] ipc_load) (set_misc (Misc 1 1 1 0 0) s1).
Proof.
  intros Ht. destruct (work_defined (fun _ => true) sample_pad ltac:(reflexivity) sample_work sample_dpkt (set_table t [] ipc_load)) as [[rv s1] E].
  - by apply load_inv.
  - split; [vm_compute; lia|]. split; [vm_compute; lia|]. repeat constructor; vm_compute; congruence.
  - reflexivity.
  - right. cbn. lia.
  - reflexivity.
  - exists s1. eapply rtc_l; [eapply step_packet; [|exact E]; repeat constructor; vm_compute; congruence|].
    eapply rtc_l; [|apply rtc_refl]. eapply (step_command _ _ USER_CMD_IPC_MISC_SET frcore_cmd_ipc_misc_set 8 (Some misc_param) []).
    + do 2 right. by left.
    + intros p [= <-]. repeat constructor; vm_compute; congruence.
    + reflexivity.
Qed.

Lemma ipc_life_invariant_witness : exists (st' : Cmd.card ipc_sys) s, rtc (ipc_step (fun _ => true) sample_pad) (components st') s /\
  ipc_inv s /\ ipc_misc s = Misc 1 1 1 0 0 /\ table_is 58 ipc_table (frcore_cmdset st').
Proof.
  destruct (ipc_life_invariant (fun _ => true) sample_pad 58 (fun _ => true) zero_mem (Card [] false ipc_load)) as (st0 & st' & E0 & E1 & Ht & H);
    [reflexivity|lia|reflexivity|discriminate|exact zero_mem_size|reflexivity|].
  destruct (table_init_upto zero_mem ipc_load zero_mem_size) as (rv & k & t & E & Hup & Hk & _).
  destruct (init_table_spec 58 (fun _ => true) true zero_mem (Card [] false ipc_load) _ _ ltac:(lia) ltac:(reflexivity) E) as (st0' & st'' & E0' & E1' & _ & Ec).
  assert (st'' = st') as -> by congruence. destruct Hk as [[_ ->]|(_ & _ & Hn)]; [|discriminate Hn].
  destruct (two_steps t (upto_ready _ Hup)) as [s1 Hs]. exists st', (set_misc (Misc 1 1 1 0 0) s1). rewrite Ec.
  split; [exact Hs|]. split; [apply H; rewrite Ec; exact Hs|]. split; [reflexivity|exact Ht].
Defined.

Lemma ipc_init_failure_ignored_witness : exists st' : Cmd.card ipc_sys, frcore_ipc_cmd_insert sample_pad 7 0 0 0 (components st') = None.
Proof.
  destruct (ipc_init_failure_ignored 58 (fun _ => true) (fun i => if i =? 7 then None else zero_mem i) (Card [] false ipc_load) 7 sample_pad 0 0 0)
    as (st0 & st' & _ & _ & _ & H); [lia|reflexivity|unfold IPC_IIF_MAX; lia|reflexivity| |exists st'; exact H].
  intros i m. destruct (i =? 7); [discriminate|apply zero_mem_size].
Defined.

Lemma ipc_work_safe_witness : exists t rv st', frcore_ipc_work_process (fun _ => true) sample_pad sample_work (running t) = Some (rv, st') /\ ipc_inv st'.
Proof.
  destruct some_table as [t Ht]. exists t.
  apply (ipc_work_safe (fun _ => true) sample_pad sample_work sample_dpkt (running t)); [reflexivity|by apply running_inv| |reflexivity|right; cbn; lia|cbn; lia].
  split; [vm_compute; lia|]. split; [vm_compute; lia|]. repeat constructor; vm_compute; congruence.
Defined.

Lemma ipc_sample_bounds_witness : exists t, table_ready t /\
  (is_Some (frcore_ipc_ipv4_instr_sample sample_pad sample_dpkt 0x0a000001 0 (running t)) <-> chassis sample_dpkt < 4 /\ ip_len (instr_cfg (running t)) <= 2016).
Proof.
  destruct some_table as [t Ht]. exists t. split; [exact Ht|].
  apply (ipc_sample_bounds sample_pad sample_dpkt 0x0a000001 0 (running t)); [reflexivity|by apply running_inv|exact sample_dpkt_ok|reflexivity].
Defined.

Lemma ipc_payload_bounds_witness : exists t, table_ready t /\
  (is_Some (frcore_cmd_ipc_instr_payload_set SIZEOF_IPC_PAYLOAD_SET (Some (replicate 32 1 ++ be_bytes 8 64)) [] (running t)) <-> (64 * 32) `mod` 2 ^ 64 <= 2016).
Proof.
  destruct some_table as [t Ht]. exists t. split; [exact Ht|].
  apply (ipc_payload_bounds (replicate 32 1) 64 [] (running t)); [by apply running_inv|reflexivity|lia].
Defined.

Lemma ipc_exp_check_correct_witness : exists st', check_exp sample_dpkt st' = FRCORE_STAT_INC stat_ipc_head_valid st' /\ ipc_exp_data st' <> zero_dpkt.
Proof.
  destruct (ipc_exp_check_correct 0x2145 0xffff 0x200d 0xff0f 0x0001000300000009 0xffffffffffffffff [] [] (running []) sample_dpkt)
    as (st' & E & H); [repeat split; lia|discriminate|exact sample_dpkt_ok|].
  exists st'. split; [rewrite H; rewrite decide_True; [reflexivity|vm_compute; auto]|].
  injection E as <-. discriminate.
Defined.

Lemma ipc_pktid_order_witness : let st := running [] in let st' := check_pktids [sample_dpkt; sample_dpkt] st in
  stats st' stat_ipc_pktid_ordered = 1 /\ stats st' stat_ipc_pktid_repeat = 1.
Proof.
  cbv zeta. destruct (ipc_pktid_order [sample_dpkt; sample_dpkt] (running [])) as [(_ & H1 & H2 & _) _];
    [repeat constructor; cbn; lia|cbn; lia|discriminate|repeat split; cbn; lia|].
  rewrite H1, H2. split; reflexivity.
Defined.

Lemma ipc_sampled_packet_witness : exists t st' pkt, frcore_ipc_work_process (fun _ => true) sample_pad sample_work (running t) = Some (FRCORE_ACT_FREE, st') /\
  sent st' = [pkt] /\ Z.of_nat (length pkt) = 96 /\ card_get pkt 16 8 = Some 0x300000009.
Proof.
  destruct some_table as [t Ht]. exists t.
  destruct (ipc_sampled_packet (fun _ => true) sample_pad sample_work sample_dpkt (running t) 0x45000028 0x0a000001 0x0a000002)
    as (st' & pkt & E & _ & Hs & Hp);
    [reflexivity|by apply running_inv|repeat constructor; vm_compute; congruence|reflexivity|reflexivity|reflexivity|discriminate|reflexivity|reflexivity
    |vm_compute; lia|reflexivity|reflexivity|reflexivity|reflexivity|reflexivity|cbn; lia|cbn; lia|].
  exists st', pkt. split; [exact E|]. split; [exact Hs|]. split; [exact (ip_size _ _ _ _ _ _ Hp)|exact (ip_pktid _ _ _ _ _ _ Hp)].
Defined.
