(* ===== verification/IpcCmd.v ===== *)
(** * The settings of inter-chassis packets, from the tool to the card and back

    The structures of the library (src/code/include/frc_types.h), the calls of
    src/code/frcapi/frc_api.c and the handlers of src/code/frcore/frcore_ipc.c together. *)

From stdpp Require Import list functions.
From S2P Require Import Prelude Bytes Alg FrcList VlanCheck Cmd CmdProps CmdSys CmdThm CmdTable Api Ipc IpcProps IpcThm.
#[local] Open Scope Z_scope.

(** What the tool sets: [ipc_cur_t], [ipc_exp_t], [ipc_instr_cfg_t]. *)
Inductive setting : Type :=
| Cur (smac pktid : Z)
| Exp (ouid ouim iifd iifm pidd pidm : Z)
| Instr (c : ipc_instr_cfg_t).

(** The structure of the library, by groups of eight bytes. *)
Definition setting_groups (s : setting) : list fields :=
  match s with
  | Cur smac pktid => [[(8%nat, smac)]; [(8%nat, pktid)]]
  | Exp ouid ouim iifd iifm pidd pidm => [[(2%nat, ouid); (2%nat, ouim); (2%nat, iifd); (2%nat, iifm)]; [(8%nat, pidd)]; [(8%nat, pidm)]]
  | Instr c => [[(4%nat, tx_port c); (4%nat, action c)]; [(4%nat, i_type c); (4%nat, ip_len c)];
      [(4%nat, sip_data c); (4%nat, sip_mask c)]; [(4%nat, dip_data c); (4%nat, dip_mask c)]]
  end.
Definition setting_bytes (s : setting) : list Z := host_bytes (setting_groups s).

Definition set_call (s : setting) : call :=
  match s with
  | Cur _ _ => frcapi_ipc_cur_set (setting_bytes s) | Exp _ _ _ _ _ _ => frcapi_ipc_exp_set (setting_bytes s)
  | Instr _ => frcapi_ipc_instr_set (setting_bytes s)
  end.
Definition get_call (s : setting) : call :=
  match s with Cur _ _ => frcapi_ipc_cur_get | Exp _ _ _ _ _ _ => frcapi_ipc_exp_get | Instr _ => frcapi_ipc_instr_get end.

Definition word_field (w v : Z) : Prop := 0 <= v < 2 ^ w.
Definition setting_ok (s : setting) : Prop :=
  match s with
  | Cur smac pktid => word_field 64 smac /\ word_field 64 pktid
  | Exp ouid ouim iifd iifm pidd pidm => exp_range ouid ouim iifd iifm pidd pidm
  | Instr c => (word_field 32 (tx_port c) /\ word_field 32 (action c) /\ word_field 32 (i_type c) /\ 0 <= ip_len c <= IPC_IP_LEN_MAX) /\
      (word_field 32 (sip_data c) /\ word_field 32 (sip_mask c) /\ word_field 32 (dip_data c) /\ word_field 32 (dip_mask c))
  end.

(** What it means on the card. *)
Definition apply_setting (s : setting) (st : ipc_sys) : ipc_sys :=
  match s with
  | Cur smac pktid => set_cur smac pktid st
  | Exp ouid ouim iifd iifm pidd pidm => set_exp (exp_of pidd ouid iifd) (exp_of pidm ouim iifm) st
  | Instr c => set_instr c (payload st) st
  end.

Definition set_handler (s : setting) : frcore_cmd_fn_t ipc_sys :=
  match s with Cur _ _ => frcore_cmd_ipc_cur_set | Exp _ _ _ _ _ _ => frcore_cmd_ipc_exp_set | Instr _ => frcore_cmd_ipc_instr_set end.
Definition get_handler (s : setting) : frcore_cmd_fn_t ipc_sys :=
  match s with Cur _ _ => frcore_cmd_ipc_cur_get | Exp _ _ _ _ _ _ => frcore_cmd_ipc_exp_get | Instr _ => frcore_cmd_ipc_instr_get end.

Lemma setting_words s : words (setting_groups s).
Proof. destruct s; repeat constructor. Qed.

Lemma set_fits_card s : fits (set_call s).
Proof.
  pose proof (length_host_bytes _ (setting_words s)) as Hl. fold (setting_bytes s) in Hl.
  destruct s; apply set_fits; try done; rewrite Hl; done.
Qed.

Lemma get_fits_card s : fits (get_call s).
Proof. by destruct s; apply get_fits. Qed.

(** The handler gets the structure of the card. *)
Lemma set_param s : param_of (set_call s) = Some (card_bytes (setting_groups s)).
Proof.
  pose proof (length_host_bytes _ (setting_words s)) as Hl. fold (setting_bytes s) in Hl.
  pose proof (swap_host (setting_groups s) [] (setting_words s)) as Hs. rewrite !app_nil_r in Hs. fold (setting_bytes s) in Hs.
  rewrite <- Hs. unfold param_of. destruct s; cbn [set_call frcapi_ipc_cur_set frcapi_ipc_exp_set frcapi_ipc_instr_set api_set k_ilen k_input];
    unfold sent_param; rewrite take_ge by (rewrite Hl; done); reflexivity.
Qed.

(** ** The handlers *)

(** The structure of the card, spelled out. *)
Lemma card_setting s : card_bytes (setting_groups s) =
  match s with
  | Cur smac pktid => be_bytes 8 smac ++ be_bytes 8 pktid
  | Exp ouid ouim iifd iifm pidd pidm => exp_bytes ouid ouim iifd iifm pidd pidm
  | Instr c => instr_cfg_bytes c
  end.
Proof.
  destruct s; unfold card_bytes, card_struct, reverse, exp_bytes, instr_cfg_bytes; cbn [rev_append fmap list_fmap concat setting_groups fst snd];
    by rewrite !app_nil_r, <- ?app_assoc.
Qed.

Ltac last_field := rewrite <- ?app_assoc; repeat (rewrite card_get_skip by (rewrite ?length_be_bytes; lia); rewrite length_be_bytes);
  rewrite <- (app_nil_r (be_bytes _ _)), card_field by reflexivity; rewrite wrapu_id; done.

Lemma set_answers s st : setting_ok s -> answers (set_handler s) (set_call s) st FRE_SUCCESS [] (apply_setting s st).
Proof.
  intros Hs buf Hb. exists buf. rewrite set_param, card_setting. split; [|done]. destruct s as [smac pktid|ouid ouim iifd iifm pidd pidm|c].
  - destruct Hs as [H1 H2]. unfold set_handler, frcore_cmd_ipc_cur_set. cbn [mbind option_bind]. change (negb _) with false. cbv iota.
    assert (card_get (be_bytes 8 smac ++ be_bytes 8 pktid) 0 8 = Some smac) as -> by field_at.
    assert (card_get (be_bytes 8 smac ++ be_bytes 8 pktid) 8 8 = Some pktid) as -> by last_field.
    done.
  - pose proof (exp_set_eq ouid ouim iifd iifm pidd pidm [] buf st Hs) as E. rewrite app_nil_r in E. exact E.
  - destruct Hs as [(H1 & H2 & H3 & H4) (H5 & H6 & H7 & H8)]. unfold set_handler, frcore_cmd_ipc_instr_set. cbn [mbind option_bind].
    change (negb _) with false. cbv iota. set (p := instr_cfg_bytes c). unfold IPC_IP_LEN_MAX in H4.
    assert (card_get p 0 4 = Some (action c)) as -> by (unfold p, instr_cfg_bytes; field_at).
    assert (card_get p 4 4 = Some (tx_port c)) as -> by (unfold p, instr_cfg_bytes; field_at).
    assert (card_get p 8 4 = Some (ip_len c)) as ->.
    { unfold p, instr_cfg_bytes. do 2 (rewrite card_get_skip by (rewrite ?length_be_bytes; lia); rewrite length_be_bytes).
      rewrite card_field by reflexivity. rewrite wrapu_id; [done|simpl; lia]. }
    assert (card_get p 12 4 = Some (i_type c)) as -> by (unfold p, instr_cfg_bytes; field_at).
    assert (card_get p 16 4 = Some (sip_mask c)) as -> by (unfold p, instr_cfg_bytes; field_at).
    assert (card_get p 20 4 = Some (sip_data c)) as -> by (unfold p, instr_cfg_bytes; field_at).
    assert (card_get p 24 4 = Some (dip_mask c)) as -> by (unfold p, instr_cfg_bytes; field_at).
    assert (card_get p 28 4 = Some (dip_data c)) as -> by (unfold p, instr_cfg_bytes; last_field).
    cbn [mbind option_bind]. rewrite Z.gtb_ltb, (proj2 (Z.ltb_ge _ _)) by (unfold IPC_IP_LEN_MAX; lia). by destruct c.
Qed.

Lemma get_answers s st : setting_ok s ->
  answers (get_handler s) (get_call s) (apply_setting s st) FRE_SUCCESS (card_bytes (setting_groups s)) (apply_setting s st).
Proof.
  intros Hs buf Hb. pose proof (length_card_bytes _ (setting_words s)) as Hl.
  destruct (write_front buf (card_bytes (setting_groups s))) as (data & Ew & Et & El).
  { rewrite Hl, Hb. destruct s; cbn [setting_groups length]; unfold FRC_CMD_RESPOND_DATA_SZ; lia. }
  exists data. split; [|by rewrite El]. rewrite Hl. rewrite card_setting in Ew. destruct s as [smac pktid|ouid ouim iifd iifm pidd pidm|c].
  - unfold get_handler, frcore_cmd_ipc_cur_get, apply_setting. cbn [cur_smac cur_pktid set_cur]. by rewrite Ew.
  - destruct Hs as ([] & [] & []). unfold get_handler, frcore_cmd_ipc_exp_get, apply_setting. cbn [ipc_exp_data ipc_exp_mask set_exp].
    rewrite !iif_of_exp, !pid_of_exp by done. change (oui (exp_of _ ?o _)) with o. unfold exp_bytes in Ew. by rewrite Ew.
  - unfold get_handler, frcore_cmd_ipc_instr_get, apply_setting. cbn [instr_cfg set_instr]. by rewrite Ew.
Qed.

Lemma set_table_handler s : ipc_table CMD_TYPE_USER (k_cmd (set_call s)) = Some (set_handler s).
Proof. by destruct s. Qed.
Lemma get_table_handler s : ipc_table CMD_TYPE_USER (k_cmd (get_call s)) = Some (get_handler s).
Proof. by destruct s. Qed.

Lemma setting_cmd s max : 57 < max -> k_cmd (set_call s) < max /\ k_cmd (get_call s) < max.
Proof.
  destruct s; cbn [set_call get_call frcapi_ipc_cur_set frcapi_ipc_exp_set frcapi_ipc_instr_set frcapi_ipc_cur_get frcapi_ipc_exp_get
    frcapi_ipc_instr_get api_set api_get k_cmd]; unfold USER_CMD_IPC_CUR_SET, USER_CMD_IPC_CUR_GET, USER_CMD_IPC_EXP_SET,
    USER_CMD_IPC_EXP_GET, USER_CMD_IPC_INSTR_SET, USER_CMD_IPC_INSTR_GET; lia.
Qed.

(** C22: what the library sets - the current values, the expected header with its masks, the
    parameters of instruction packets - is what the card works with, and what the library
    reads back and puts into its own byte order is the structure that was set, byte for byte. *)
Theorem ipc_settings_roundtrip max sets s st seq1 seq2 : table_is max ipc_table sets -> 57 < max -> setting_ok s ->
  0 <= seq1 < 2 ^ 32 -> 0 <= seq2 < 2 ^ 32 ->
  exists a1 a2 n data,
    frcore_process_frc_cmd true (packet_of (set_call s) seq1) (Card sets true st) =
      Some (Some (respond_bytes a1), Card sets true (apply_setting s st)) /\
    frcore_process_frc_cmd true (packet_of (get_call s) seq2) (Card sets true (apply_setting s st)) =
      Some (Some (respond_bytes a2), Card sets true (apply_setting s st)) /\
    core_cmd_answer (set_call s) (stored a1) = Some (FRE_SUCCESS, None) /\
    core_cmd_answer (get_call s) (stored a2) = Some (FRE_SUCCESS, Some (n, data)) /\
    swap_buff (Z.to_nat (n / 8)) data = setting_bytes s.
Proof.
  intros Ht Hm Hs Hq1 Hq2. destruct (set_fits_card s) as [Hc1 _]. destruct (get_fits_card s) as [Hc2 _].
  pose proof (length_card_bytes _ (setting_words s)) as Hl.
  destruct (process_answer max ipc_table sets (set_call s) seq1 (set_handler s) st FRE_SUCCESS [] (apply_setting s st) Ht Hc1 Hq1)
    as (d1 & E1 & T1 & L1); [by destruct s|by apply setting_cmd|apply set_table_handler|by apply set_answers|].
  destruct (process_answer max ipc_table sets (get_call s) seq2 (get_handler s) (apply_setting s st) FRE_SUCCESS
    (card_bytes (setting_groups s)) (apply_setting s st) Ht Hc2 Hq2)
    as (d2 & E2 & T2 & L2); [by destruct s|by apply setting_cmd|apply get_table_handler|by apply get_answers|].
  eexists _, _, _, _. split; [exact E1|]. split; [exact E2|].
  split; [rewrite (answer_result _ FRE_SUCCESS []); [by destruct s|by destruct s; eexists|by destruct s|done|done]|].
  split; [rewrite (answer_result _ FRE_SUCCESS (card_bytes (setting_groups s)));
    [unfold caller_result; change (u16 FRE_SUCCESS) with FRE_SUCCESS; by destruct s|by destruct s; eexists|rewrite Hl; by destruct s|done|done]|].
  pose proof (swap_card (setting_groups s) [] (setting_words s)) as Hw. rewrite !app_nil_r in Hw.
  rewrite Hl. replace (Z.to_nat _) with (length (setting_groups s)); [exact Hw|].
  rewrite Nat2Z.inj_mul, Z.mul_comm, Z.div_mul by lia. by rewrite Nat2Z.id.
Qed.

Lemma ipc_settings_roundtrip_witness : exists sets a2 n data,
  core_cmd_answer (get_call (Exp 0x2145 0xffff 0x200d 0xff0f 9 0xff)) (stored a2) = Some (FRE_SUCCESS, Some (n, data)) /\
  swap_buff (Z.to_nat (n / 8)) data = setting_bytes (Exp 0x2145 0xffff 0x200d 0xff0f 9 0xff) /\ table_is 58 ipc_table sets.
Proof.
  destruct (table_init_upto zero_mem ipc_load zero_mem_size) as (rv & k & t & E & _ & _).
  destruct (init_table_spec 58 (fun _ => true) true zero_mem (Card [] false ipc_load) _ _ ltac:(lia) ltac:(reflexivity) E)
    as (st0 & st' & _ & _ & Ht & _).
  destruct (ipc_settings_roundtrip 58 (frcore_cmdset st') (Exp 0x2145 0xffff 0x200d 0xff0f 9 0xff) (running []) 1 2)
    as (a1 & a2 & n & data & _ & _ & _ & H1 & H2); [exact Ht|lia|repeat split; lia|lia|lia|].
  exists (frcore_cmdset st'), a2, n, data. split; [exact H1|]. split; [exact H2|exact Ht].
Defined.
