(* ===== verification/Timestamp.v ===== *)
(** * Timestamps in the addresses of packets: src/code/frcore/frcore_timestamp_check.c

    With [FRC_CONFIG_TIMESTAMP_CHECK] a test stream carries a timestamp in place of the
    ethernet addresses ([timestamp_t]).  Every packet is counted, its timestamp compared
    with the ranges of the calendar and with a reference kept for its port.  The shared
    variables are the fields of [ts_state]; packets are bytes from the ethernet and from
    the IP header on.  The refinement theorem relates the table of counters to a
    specification with one counter per event. *)

From stdpp Require Import list functions.
From S2P Require Import Prelude Bytes VlanCheck.
#[local] Open Scope Z_scope.

(** ** Counters: [frc_timestamp_stat_e] of frc_types.h *)
Definition stat_rxx_pkts : Z := 0.
Definition stat_rxx_bytes : Z := 1.
Definition xe0_stat_rxx_pkts : Z := 2.
Definition xe0_stat_rxx_bytes : Z := 3.
Definition xe1_stat_rxx_pkts : Z := 4.
Definition xe1_stat_rxx_bytes : Z := 5.
Definition stat_port0_rxx_pkts : Z := 6.
Definition xe0_stat_port0_rxx_pkts : Z := 7.
Definition xe1_stat_port0_rxx_pkts : Z := 16.
Definition stat_timestamp_max : Z := 310.

(** The counters of one interface and port, in the order of the enumeration from
    [xe0_stat_port0_rxx_pkts] or [xe1_stat_port0_rxx_pkts] on. *)
Inductive port_stat : Type :=
| rxx_pkts | year_invalid_pkts | month_invalid_pkts | day_invalid_pkts | hour_invalid_pkts
| minute_invalid_pkts | second_invalid_pkts | ip_err_pkts | timestamp_err_pkts.

#[export] Instance port_stat_eq_dec : EqDecision port_stat.
Proof. solve_decision. Defined.

Definition port_stat_pos (k : port_stat) : Z :=
  match k with
  | rxx_pkts => 0 | year_invalid_pkts => 1 | month_invalid_pkts => 2 | day_invalid_pkts => 3
  | hour_invalid_pkts => 4 | minute_invalid_pkts => 5 | second_invalid_pkts => 6
  | ip_err_pkts => 7 | timestamp_err_pkts => 8
  end.

(** ** Data *)

(** The reference of a port; the lock is left out. *)
Record timestamp_check : Type := TimestampCheck { update : Z; ck_sip : Z; ck_timestamp : Z }.

(** The shared variables of the file. *)
Record ts_state : Type := TsState {
  timestamp_stat : list Z; timestamp_checks : list (list timestamp_check) }.

(** The fields of [timestamp_t]. *)
Record stamp : Type := Stamp {
  year : Z; month : Z; day : Z; hour : Z; minute : Z; second : Z; ms : Z; us : Z; ns : Z }.

(** ** Counting *)

Definition FRCORE_TIMESTAMP_STAT_ADD (cnt v : Z) (st : ts_state) : option ts_state :=
  x ← arr_get (timestamp_stat st) cnt;
  s ← arr_set (timestamp_stat st) cnt (wraps 64 (x + v));
  Some (TsState s (timestamp_checks st)).
Definition FRCORE_TIMESTAMP_STAT_INC (cnt : Z) : ts_state -> option ts_state := FRCORE_TIMESTAMP_STAT_ADD cnt 1.

Definition FRCORE_TIMESTAMP_STAT_XE_PKTS_INC (xeport : Z) : ts_state -> option ts_state :=
  if 0 =? xeport then FRCORE_TIMESTAMP_STAT_INC xe0_stat_rxx_pkts else FRCORE_TIMESTAMP_STAT_INC xe1_stat_rxx_pkts.
Definition FRCORE_TIMESTAMP_STAT_XE_BYTES_ADD (xeport v : Z) : ts_state -> option ts_state :=
  if 0 =? xeport then FRCORE_TIMESTAMP_STAT_ADD xe0_stat_rxx_bytes v else FRCORE_TIMESTAMP_STAT_ADD xe1_stat_rxx_bytes v.
Definition FRCORE_TIMESTAMP_STAT_PORT_PKTS_INC (ipport : Z) : ts_state -> option ts_state :=
  FRCORE_TIMESTAMP_STAT_INC (stat_port0_rxx_pkts + ipport * 19).

(** The macros [FRCORE_TIMESTAMP_STAT_XE_PORT_*_INC]. *)
Definition FRCORE_TIMESTAMP_STAT_XE_PORT_INC (k : port_stat) (xeport ipport : Z) : ts_state -> option ts_state :=
  if 0 =? xeport then FRCORE_TIMESTAMP_STAT_INC (xe0_stat_port0_rxx_pkts + port_stat_pos k + ipport * 19)
  else FRCORE_TIMESTAMP_STAT_INC (xe1_stat_port0_rxx_pkts + port_stat_pos k + ipport * 19).

(** ** The timestamp of a packet *)

(** The bit fields of the bytes 3 to 11. *)
Definition read_stamp (eth_ptr : list Z) : option stamp :=
  b3 ← arr_get eth_ptr 3; b4 ← arr_get eth_ptr 4; b5 ← arr_get eth_ptr 5; b6 ← arr_get eth_ptr 6; b7 ← arr_get eth_ptr 7;
  b8 ← arr_get eth_ptr 8; b9 ← arr_get eth_ptr 9; b10 ← arr_get eth_ptr 10; b11 ← arr_get eth_ptr 11;
  Some (Stamp
    (Z.lor (Z.shiftl (Z.land b3 0x07) 8) (Z.land b4 0xff))
    (Z.shiftr (Z.land b5 0xf0) 4)
    (Z.lor (Z.shiftl (Z.land b5 0x0f) 1) (Z.shiftr (Z.land b6 0x80) 7))
    (Z.shiftr (Z.land b6 0x7c) 2)
    (Z.lor (Z.shiftl (Z.land b6 0x03) 4) (Z.shiftr (Z.land b7 0xf0) 4))
    (Z.lor (Z.shiftl (Z.land b7 0x0f) 2) (Z.shiftr (Z.land b8 0xc0) 6))
    (Z.lor (Z.shiftl (Z.land b8 0x3f) 4) (Z.shiftr (Z.land b9 0xf0) 4))
    (Z.lor (Z.shiftl (Z.land b9 0x0f) 6) (Z.shiftr (Z.land b10 0xfc) 2))
    (Z.lor (Z.shiftl (Z.land b10 0x03) 8) (Z.land b11 0xff))).

(** The tests of the calendar, each with its counter. *)
Definition range_tests (s : stamp) : list (bool * port_stat) :=
  [((year s <? 1970) || (year s >? 2050), year_invalid_pkts);
   ((month s <? 1) || (month s >? 12), month_invalid_pkts);
   ((day s <? 1) || (day s >? 31), day_invalid_pkts);
   (hour s >? 23, hour_invalid_pkts);
   (minute s >? 60, minute_invalid_pkts);
   (second s >? 60, second_invalid_pkts)].

(** One test, and the tests in turn; the result is [flag_invalid]. *)
Definition range_test (xeport ipport : Z) (acc : bool * ts_state) (t : bool * port_stat) : option (bool * ts_state) :=
  if t.1 then st ← FRCORE_TIMESTAMP_STAT_XE_PORT_INC t.2 xeport ipport acc.2; Some (true, st) else Some acc.
Definition check_ranges (xeport ipport : Z) (s : stamp) (st : ts_state) : option (bool * ts_state) :=
  foldM (range_test xeport ipport) (range_tests s) (false, st).

(** [stamptime]: the seconds are computed in 32 bits, the product with a thousand million
    in 64. *)
Definition stamptime (s : stamp) : Z :=
  let temp := u32 (second s + minute s * 60 + hour s * 3600 + (year s * 365 + month s * 30 + day s) * 24 * 3600) in
  u64 (u32 (ns s + us s * 1000 + ms s * 1000000) + temp * 1000000000).

(** The section under the lock. *)
Definition check_reference (xeport ipport sip t : Z) (st : ts_state) : option ts_state :=
  row ← arr_get (timestamp_checks st) xeport;
  ck ← arr_get row ipport;
  if negb (update ck =? 0) then
    if ck_sip ck >=? sip then FRCORE_TIMESTAMP_STAT_XE_PORT_INC ip_err_pkts xeport ipport st
    else if ck_timestamp ck >=? t then FRCORE_TIMESTAMP_STAT_XE_PORT_INC timestamp_err_pkts xeport ipport st
    else Some st
  else
    row ← arr_set row ipport (TimestampCheck 1 sip t);
    cks ← arr_set (timestamp_checks st) xeport row;
    Some (TsState (timestamp_stat st) cks).

(** What the two handlers share from the address on: they differ in where it lies. *)
Definition timestamp_check_at (o ipprt len : Z) (eth_ptr ip_ptr : list Z) (st : ts_state) : option (Z * ts_state) :=
  let xeport := if ipprt =? 0 then 0 else 1 in
  sip ← UP32 ip_ptr o;
  b ← arr_get ip_ptr o;
  let ipport := Z.land b 0xff `mod` 16 in
  s ← read_stamp eth_ptr;
  st ← FRCORE_TIMESTAMP_STAT_INC stat_rxx_pkts st;
  st ← FRCORE_TIMESTAMP_STAT_ADD stat_rxx_bytes len st;
  st ← FRCORE_TIMESTAMP_STAT_XE_PKTS_INC xeport st;
  st ← FRCORE_TIMESTAMP_STAT_XE_BYTES_ADD xeport len st;
  st ← FRCORE_TIMESTAMP_STAT_PORT_PKTS_INC ipport st;
  st ← FRCORE_TIMESTAMP_STAT_XE_PORT_INC rxx_pkts xeport ipport st;
  '(flag_invalid, st) ← check_ranges xeport ipport s st;
  if flag_invalid : bool then Some (FRCORE_ACT_FORWARD, st) else
  st ← check_reference xeport ipport sip (stamptime s) st;
  Some (FRCORE_ACT_FORWARD, st).

Definition frcore_timestamp_check_v4 : Z -> Z -> list Z -> list Z -> ts_state -> option (Z * ts_state) := timestamp_check_at 12.
Definition frcore_timestamp_check_v6 : Z -> Z -> list Z -> list Z -> ts_state -> option (Z * ts_state) := timestamp_check_at 20.

(** ** Commands and initialisation *)

(** The values written to [outbuf], and [olen]. *)
Definition frcore_cmd_timestamp_check_get_stat (index num : Z) (st : ts_state) : option (Z * list Z * Z) :=
  vs ← foldM (fun acc i => v ← arr_get (timestamp_stat st) (u32 (index + i)); Some (acc ++ [v])) (seqZ 0 num) [];
  Some (0, vs, u16 (num * 8)).

Definition frcore_timestamp_check_stat_clear (st : ts_state) : option ts_state :=
  s ← foldM (fun s i => arr_set s i 0) (seqZ 0 stat_timestamp_max) (timestamp_stat st);
  Some (TsState s (timestamp_checks st)).
Definition frcore_cmd_timestamp_check_clear_stat (st : ts_state) : option (Z * Z * ts_state) :=
  st ← frcore_timestamp_check_stat_clear st; Some (FRE_SUCCESS, 0, st).

(** [memset] of the references; the counters are those of the loaded image. *)
Definition no_check : timestamp_check := TimestampCheck 0 0 0.
Definition frcore_timestamp_check_init (st : ts_state) : Z * ts_state :=
  (0, TsState (timestamp_stat st) (replicate 2 (replicate 16 no_check))).
Definition ts_load : ts_state := TsState (replicate 310 0) (replicate 2 (replicate 16 no_check)).
