(* ===== verification/TimestampProps.v ===== *)
(** * What the timestamp check counts

    A specification counts events over the history of a run: [tally] gives, for every
    event, how many packets of the history had it, the first valid packet of an interface
    and port being the reference of the later ones.  The table of frcore_timestamp_check.c
    refines it.  The other theorems are about the timestamp itself: its layout in the
    packet and the order of the computed times. *)

From stdpp Require Import list functions.
From S2P Require Import Prelude Bytes VlanCheck Timestamp.
#[local] Open Scope Z_scope.

(** ** The layout of [timestamp_t] *)

Definition stamp_ok (s : stamp) : Prop :=
  0 <= year s < 2048 /\ 0 <= month s < 16 /\ 0 <= day s < 32 /\ 0 <= hour s < 32 /\ 0 <= minute s < 64 /\
  0 <= second s < 64 /\ 0 <= ms s < 1024 /\ 0 <= us s < 1024 /\ 0 <= ns s < 1024.

(** The nine bytes behind [reserved]: the bit fields from the most significant bit on. *)
Definition stamp_bytes (s : stamp) : list Z :=
  [year s / 2 ^ 8; year s `mod` 2 ^ 8;
   month s * 2 ^ 4 + day s / 2;
   day s `mod` 2 * 2 ^ 7 + hour s * 2 ^ 2 + minute s / 2 ^ 4;
   minute s `mod` 2 ^ 4 * 2 ^ 4 + second s / 2 ^ 2;
   second s `mod` 2 ^ 2 * 2 ^ 6 + ms s / 2 ^ 4;
   ms s `mod` 2 ^ 4 * 2 ^ 4 + us s / 2 ^ 6;
   us s `mod` 2 ^ 6 * 2 ^ 2 + ns s / 2 ^ 8;
   ns s `mod` 2 ^ 8].

(** A field at the end of a byte, and one that ends at bit [s]. *)
Lemma byte_low_field x k m : m = Z.ones k -> 0 <= k -> Z.land x m = x `mod` 2 ^ k.
Proof. intros ->. apply Z.land_ones. Qed.
Lemma byte_high_field x k s m : m = Z.shiftl (Z.ones k) s -> 0 <= k -> 0 <= s -> Z.shiftr (Z.land x m) s = (x / 2 ^ s) `mod` 2 ^ k.
Proof. intros ->. apply land_field. Qed.

(** the bit operations of the check read back every field of a timestamp from the
    bytes that the structure lays out. *)
Theorem timestamp_fields_roundtrip (a b c : Z) (s : stamp) (rest : list Z) :
  stamp_ok s -> read_stamp (a :: b :: c :: stamp_bytes s ++ rest) = Some s.
Proof.
  intros Hs. unfold stamp_ok in Hs. destruct s as [y mo d h mi se m u n]; simpl in *. unfold read_stamp. simpl.
  rewrite (byte_high_field _ 4 4 0xf0), (byte_high_field _ 1 7 0x80), (byte_high_field _ 5 2 0x7c) by done.
  rewrite !(byte_high_field _ 4 4 0xf0), (byte_high_field _ 2 6 0xc0), (byte_high_field _ 6 2 0xfc) by done.
  rewrite (byte_low_field _ 3 0x07), !(byte_low_field _ 8 0xff), !(byte_low_field _ 4 0x0f), !(byte_low_field _ 2 0x03), (byte_low_field _ 6 0x3f) by done.
  rewrite !lor_shift by (try apply Z.mod_pos_bound; lia).
  change (2 ^ 1) with 2. change (2 ^ 2) with 4. change (2 ^ 3) with 8. change (2 ^ 4) with 16. change (2 ^ 5) with 32.
  change (2 ^ 6) with 64. change (2 ^ 7) with 128. change (2 ^ 8) with 256.
  do 2 f_equal; Z.div_mod_to_equations; lia.
Qed.

(** ** The order of the computed times *)

Definition stamp_fields (s : stamp) : list Z :=
  [year s; month s; day s; hour s; minute s; second s; ms s; us s; ns s].

(** The order of dates and times: the first field that differs decides. *)
Fixpoint lex_lt (a b : list Z) : bool :=
  match a, b with
  | x :: a, y :: b => (x <? y) || ((x =? y) && lex_lt a b)
  | _, _ => false
  end.

(** Dates before 2042 and not on a 31st, with a time of the day. *)
Definition ordinary (s : stamp) : Prop :=
  1970 <= year s < 2042 /\ 1 <= month s <= 12 /\ 1 <= day s <= 30 /\ 0 <= hour s <= 23 /\ 0 <= minute s <= 59 /\
  0 <= second s <= 59 /\ 0 <= ms s <= 999 /\ 0 <= us s <= 999 /\ 0 <= ns s <= 999.

(** The number without the wrap-around: for ordinary times the 32 bits have wrapped
    fourteen times. *)
Lemma stamptime_ordinary s : ordinary s ->
  stamptime s = (((((year s * 365 + month s * 30 + day s) * 24 + hour s) * 60 + minute s) * 60 + second s - 14 * 2 ^ 32) * 1000
    + ms s) * 1000000 + us s * 1000 + ns s.
Proof.
  intros (? & ? & ? & ? & ? & ? & ? & ? & ?). unfold stamptime.
  set (T := second s + minute s * 60 + hour s * 3600 + (year s * 365 + month s * 30 + day s) * 24 * 3600).
  assert (u32 T = T - 14 * 2 ^ 32) as ->.
  { unfold wrapu. rewrite <- (Z_mod_plus_full T (-14)). rewrite Z.mod_small by (unfold T; lia). lia. }
  rewrite (wrapu_id 32), wrapu_id by (unfold T; lia). unfold T. lia.
Qed.

(** One digit of a mixed-radix number. *)
Lemma lex_digit (x y u v n : Z) : 0 <= u < n -> 0 <= v < n ->
  (x * n + u < y * n + v <-> x < y \/ x = y /\ u < v).
Proof. nia. Qed.

(** for ordinary times the computed numbers are ordered as the dates and times are. *)
Theorem timestamp_order (s t : stamp) :
  ordinary s -> ordinary t -> (stamptime s <? stamptime t) = lex_lt (stamp_fields s) (stamp_fields t).
Proof.
  intros Hs Ht. rewrite !stamptime_ordinary by done. destruct s, t. unfold ordinary in *. simpl in *.
  apply eq_iff_eq_true. rewrite ?orb_true_iff, ?andb_true_iff, ?Z.ltb_lt, ?Z.eqb_eq.
  repeat (rewrite ?orb_true_iff, ?andb_true_iff, ?Z.ltb_lt, ?Z.eqb_eq). lia.
Qed.

Definition noon : stamp := Stamp 2014 5 6 12 30 15 10 20 30.
Lemma timestamp_order_witness :
  ordinary noon /\ ordinary (Stamp 2014 6 1 0 0 0 0 0 0) /\
  (stamptime noon <? stamptime (Stamp 2014 6 1 0 0 0 0 0 0)) = lex_lt (stamp_fields noon) (stamp_fields (Stamp 2014 6 1 0 0 0 0 0 0)).
Proof.
  assert (ordinary noon) as H1 by (unfold ordinary; simpl; lia).
  assert (ordinary (Stamp 2014 6 1 0 0 0 0 0 0)) as H2 by (unfold ordinary; simpl; lia).
  split_and!; [done..|]. by apply timestamp_order.
Defined.

Lemma timestamp_fields_roundtrip_witness :
  stamp_ok noon /\ read_stamp ([1; 2; 3] ++ stamp_bytes noon ++ [8; 0]) = Some noon.
Proof.
  assert (stamp_ok noon) as H by (unfold stamp_ok; simpl; lia).
  split; [done|]. exact (timestamp_fields_roundtrip 1 2 3 noon [8; 0] H).
Defined.

(** Outside: the last of January and the first of February are one day, and the 32 bits
    wrap in November 2042. *)
Theorem timestamp_order_fails :
  (forall h, stamptime (Stamp 2014 1 31 h 0 0 0 0 0) = stamptime (Stamp 2014 2 1 h 0 0 0 0 0)) /\
  stamptime (Stamp 2043 1 1 0 0 0 0 0 0) < stamptime (Stamp 2042 1 1 0 0 0 0 0 0).
Proof. split; [intros h; unfold stamptime; simpl; do 3 f_equal; lia|vm_compute; done]. Qed.

(** ** Counting the events of a history *)

(** A received packet: the port it came in on, its length, its address and timestamp. *)
Record seen : Type := Seen { s_xe : bool; s_len : Z; s_sip : Z; s_port : Z; s_stamp : stamp }.

Inductive ts_event : Type :=
| RxPkts | RxBytes | XePkts (xe : bool) | XeBytes (xe : bool) | PortPkts (p : Z) | XePort (xe : bool) (p : Z) (k : port_stat).

Definition ts_event_ok (e : ts_event) : Prop :=
  match e with PortPkts p | XePort _ p _ => 0 <= p < 16 | _ => True end.

Definition countZ (P : seen -> bool) (l : list seen) : Z := Z.of_nat (length (filter P l)).
Definition sumZ (l : list seen) : Z := foldr (fun pk n => s_len pk + n) 0 l.

Definition at_port (xe : bool) (p : Z) (pk : seen) : bool := eqb (s_xe pk) xe && (s_port pk =? p).
Definition valid_seen (pk : seen) : bool := forallb (fun t => negb t.1) (range_tests (s_stamp pk)).
Definition fails_test (k : port_stat) (pk : seen) : bool :=
  existsb (fun t => t.1 && bool_decide (t.2 = k)) (range_tests (s_stamp pk)).

(** The valid packets of one interface and port; the first is the reference. *)
Definition valids (xe : bool) (p : Z) (ps : list seen) : list seen :=
  filter (fun pk => at_port xe p pk && valid_seen pk) ps.

Definition late_ip (r pk : seen) : bool := s_sip r >=? s_sip pk.
Definition late_time (r pk : seen) : bool := negb (late_ip r pk) && (stamptime (s_stamp r) >=? stamptime (s_stamp pk)).

(** The packets behind the reference that are late by [late]. *)
Definition late_count (late : seen -> seen -> bool) (l : list seen) : Z :=
  match l with [] => 0 | r :: l => countZ (late r) l end.

Definition tally (e : ts_event) (ps : list seen) : Z :=
  match e with
  | RxPkts => countZ (fun _ => true) ps
  | RxBytes => sumZ ps
  | XePkts xe => countZ (fun pk => eqb (s_xe pk) xe) ps
  | XeBytes xe => sumZ (filter (fun pk => eqb (s_xe pk) xe) ps)
  | PortPkts p => countZ (fun pk => s_port pk =? p) ps
  | XePort xe p rxx_pkts => countZ (at_port xe p) ps
  | XePort xe p ip_err_pkts => late_count late_ip (valids xe p ps)
  | XePort xe p timestamp_err_pkts => late_count late_time (valids xe p ps)
  | XePort xe p k => countZ (fun pk => at_port xe p pk && fails_test k pk) ps
  end.

(** The place of an event in the table. *)
Definition ts_index (e : ts_event) : Z :=
  match e with
  | RxPkts => 0 | RxBytes => 1
  | XePkts false => 2 | XeBytes false => 3 | XePkts true => 4 | XeBytes true => 5
  | PortPkts p => 6 + p * 19
  | XePort false p k => 7 + port_stat_pos k + p * 19
  | XePort true p k => 16 + port_stat_pos k + p * 19
  end.

#[export] Instance ts_event_eq_dec : EqDecision ts_event.
Proof. solve_decision. Defined.

Lemma port_stat_pos_range k : 0 <= port_stat_pos k <= 8.
Proof. destruct k; simpl; lia. Qed.

Lemma port_stat_pos_inj k k' : port_stat_pos k = port_stat_pos k' -> k = k'.
Proof. by destruct k, k'. Qed.

Lemma ts_index_range e : ts_event_ok e -> 0 <= ts_index e < 310.
Proof.
  destruct e as [| |[]|[]|p|[] p k]; simpl; try lia; intros; pose proof (port_stat_pos_range k); lia.
Qed.

Lemma ts_index_inj e e' : ts_event_ok e -> ts_event_ok e' -> ts_index e = ts_index e' -> e = e'.
Proof.
  destruct e as [| |[]|[]|p|[] p k], e' as [| |[]|[]|p'|[] p' k']; simpl; try (done || lia); intros;
    try pose proof (port_stat_pos_range k); try pose proof (port_stat_pos_range k'); try lia.
  - f_equal; lia.
  - assert (p = p') as -> by lia. f_equal. apply port_stat_pos_inj. lia.
  - assert (p = p') as -> by lia. f_equal. apply port_stat_pos_inj. lia.
Qed.

(** The table holds the numbers [c]. *)
Definition holds (c : ts_event -> Z) (st : ts_state) : Prop :=
  Z.of_nat (length (timestamp_stat st)) = 310 /\
  forall e, ts_event_ok e -> nthZ (timestamp_stat st) (ts_index e) = wraps 64 (c e).

Definition plus (e : ts_event) (v : Z) (c : ts_event -> Z) (e' : ts_event) : Z := c e' + if decide (e' = e) then v else 0.

Lemma wraps_add w x v : 0 <= w -> wraps w (wraps w x + v) = wraps w (x + v).
Proof.
  intros Hw. assert ((wraps w x + v) `mod` 2 ^ w = (x + v) `mod` 2 ^ w) as E.
  { pose proof (wrapu_wraps w x Hw) as H. unfold wrapu in H.
    rewrite <- Zplus_mod_idemp_l, H, Zplus_mod_idemp_l. done. }
  unfold wraps at 1 3. by rewrite E.
Qed.

Lemma stat_add_holds e v c st i : ts_event_ok e -> i = ts_index e -> holds c st ->
  exists st', FRCORE_TIMESTAMP_STAT_ADD i v st = Some st' /\ timestamp_checks st' = timestamp_checks st /\ holds (plus e v c) st'.
Proof.
  intros He -> [Hl Hc]. pose proof (ts_index_range e He). unfold FRCORE_TIMESTAMP_STAT_ADD.
  rewrite arr_get_nthZ by lia. simpl. rewrite arr_set_eq by lia. simpl. eexists. split_and!; [done..|].
  split; [simpl; by rewrite length_insert|]. intros e' He'. simpl. rewrite nthZ_insert by lia. unfold plus.
  destruct (Z.eqb_spec (ts_index e') (ts_index e)) as [E|E].
  - apply ts_index_inj in E as ->; [|done..]. rewrite decide_True, Hc, wraps_add by done. done.
  - rewrite decide_False, Z.add_0_r by congruence. by apply Hc.
Qed.

(** ** One packet *)

(** What a packet adds to an event when [l] are the valid packets of its port before. *)
Definition share (pk : seen) (l : list seen) (e : ts_event) : Z :=
  let here xe p := at_port xe p pk in
  match e with
  | RxPkts => 1 | RxBytes => s_len pk
  | XePkts xe => if eqb (s_xe pk) xe then 1 else 0
  | XeBytes xe => if eqb (s_xe pk) xe then s_len pk else 0
  | PortPkts p => if s_port pk =? p then 1 else 0
  | XePort xe p rxx_pkts => if here xe p then 1 else 0
  | XePort xe p ip_err_pkts =>
      if here xe p && valid_seen pk then match l with [] => 0 | r :: _ => if late_ip r pk then 1 else 0 end else 0
  | XePort xe p timestamp_err_pkts =>
      if here xe p && valid_seen pk then match l with [] => 0 | r :: _ => if late_time r pk then 1 else 0 end else 0
  | XePort xe p k => if here xe p && fails_test k pk then 1 else 0
  end.

Lemma countZ_snoc P l pk : countZ P (l ++ [pk]) = countZ P l + if P pk then 1 else 0.
Proof.
  unfold countZ. rewrite filter_app, length_app. simpl. unfold filter at 2. simpl.
  destruct (P pk); simpl; lia.
Qed.

Lemma sumZ_snoc l pk : sumZ (l ++ [pk]) = sumZ l + s_len pk.
Proof. unfold sumZ. induction l as [|x l IH]; simpl; lia. Qed.

Lemma filter_snoc (P : seen -> bool) l pk : filter P (l ++ [pk]) = filter P l ++ if P pk then [pk] else [].
Proof. rewrite filter_app. unfold filter at 2. simpl. by destruct (P pk). Qed.

Lemma late_count_snoc late l pk :
  late_count late (l ++ [pk]) = late_count late l + match l with [] => 0 | r :: _ => if late r pk then 1 else 0 end.
Proof. destruct l as [|r l]; simpl; [done|]. apply countZ_snoc. Qed.

Lemma at_port_own xe p pk : at_port xe p pk = true -> xe = s_xe pk /\ p = s_port pk.
Proof. unfold at_port. intros [->%eqb_prop ->%Z.eqb_eq]%andb_true_iff. done. Qed.

Lemma tally_snoc e ps pk : tally e (ps ++ [pk]) = tally e ps + share pk (valids (s_xe pk) (s_port pk) ps) e.
Proof.
  assert (forall late xe p, late_count late (valids xe p (ps ++ [pk])) = late_count late (valids xe p ps) +
    if at_port xe p pk && valid_seen pk then
      match valids (s_xe pk) (s_port pk) ps with [] => 0 | r :: _ => if late r pk then 1 else 0 end else 0) as Hv.
  { intros late xe p. unfold valids at 1. rewrite filter_snoc. fold (valids xe p ps).
    destruct (at_port xe p pk) eqn:E; simpl; [|rewrite app_nil_r; lia].
    apply at_port_own in E as [-> ->]. destruct (valid_seen pk); [apply late_count_snoc|rewrite app_nil_r; lia]. }
  destruct e as [| |xe|xe|p|xe p []]; simpl; rewrite ?countZ_snoc, ?sumZ_snoc, ?filter_snoc, ?Hv; try done.
  destruct (eqb (s_xe pk) xe); [by rewrite sumZ_snoc|]. rewrite app_nil_r. lia.
Qed.

(** The check of a packet whose fields have been read. *)
Definition check_seen (pk : seen) (st : ts_state) : option (Z * ts_state) :=
  let xeport := if s_xe pk then 1 else 0 in
  st ← FRCORE_TIMESTAMP_STAT_INC stat_rxx_pkts st;
  st ← FRCORE_TIMESTAMP_STAT_ADD stat_rxx_bytes (s_len pk) st;
  st ← FRCORE_TIMESTAMP_STAT_XE_PKTS_INC xeport st;
  st ← FRCORE_TIMESTAMP_STAT_XE_BYTES_ADD xeport (s_len pk) st;
  st ← FRCORE_TIMESTAMP_STAT_PORT_PKTS_INC (s_port pk) st;
  st ← FRCORE_TIMESTAMP_STAT_XE_PORT_INC rxx_pkts xeport (s_port pk) st;
  '(flag_invalid, st) ← check_ranges xeport (s_port pk) (s_stamp pk) st;
  if flag_invalid : bool then Some (FRCORE_ACT_FORWARD, st) else
  st ← check_reference xeport (s_port pk) (s_sip pk) (stamptime (s_stamp pk)) st;
  Some (FRCORE_ACT_FORWARD, st).

Definition seen_at (o ipprt len : Z) (eth_ptr ip_ptr : list Z) : option seen :=
  sip ← UP32 ip_ptr o; b ← arr_get ip_ptr o; s ← read_stamp eth_ptr;
  Some (Seen (negb (ipprt =? 0)) len sip (Z.land b 0xff `mod` 16) s).

Lemma timestamp_check_at_seen o ipprt len eth ip st :
  timestamp_check_at o ipprt len eth ip st = pk ← seen_at o ipprt len eth ip; check_seen pk st.
Proof.
  unfold timestamp_check_at, seen_at. destruct (UP32 ip o); simpl; [|done].
  destruct (arr_get ip o); simpl; [|done]. destruct (read_stamp eth); simpl; [|done].
  unfold check_seen. simpl. by destruct (ipprt =? 0).
Qed.

Lemma seen_at_port o ipprt len eth ip pk : seen_at o ipprt len eth ip = Some pk -> 0 <= s_port pk < 16.
Proof. unfold seen_at. intros. inv_bind. simpl. apply Z.mod_pos_bound. lia. Qed.

(** ** The counters of one packet *)

Definition xe_num (xe : bool) : Z := if xe then 1 else 0.

Lemma bind_add {X} e v c st i (k : ts_state -> option X) (Q : X -> Prop) :
  ts_event_ok e -> i = ts_index e -> holds c st ->
  (forall st', timestamp_checks st' = timestamp_checks st -> holds (plus e v c) st' -> exists r, k st' = Some r /\ Q r) ->
  exists r, (st' ← FRCORE_TIMESTAMP_STAT_ADD i v st; k st') = Some r /\ Q r.
Proof. intros He Hi Hc Hk. destruct (stat_add_holds e v c st i He Hi Hc) as (st' & -> & Hs & Hc'). by apply Hk. Qed.

Lemma xe_port_inc k xe p : FRCORE_TIMESTAMP_STAT_XE_PORT_INC k (xe_num xe) p = FRCORE_TIMESTAMP_STAT_ADD (ts_index (XePort xe p k)) 1.
Proof. by destruct xe. Qed.

Lemma xe_pkts_inc xe : FRCORE_TIMESTAMP_STAT_XE_PKTS_INC (xe_num xe) = FRCORE_TIMESTAMP_STAT_ADD (ts_index (XePkts xe)) 1.
Proof. by destruct xe. Qed.
Lemma xe_bytes_add xe v : FRCORE_TIMESTAMP_STAT_XE_BYTES_ADD (xe_num xe) v = FRCORE_TIMESTAMP_STAT_ADD (ts_index (XeBytes xe)) v.
Proof. by destruct xe. Qed.

(** The failed tests of a list. *)
Definition add_tests (xe : bool) (p : Z) (ts : list (bool * port_stat)) (c : ts_event -> Z) : ts_event -> Z :=
  foldl (fun c (t : bool * port_stat) => if t.1 then plus (XePort xe p t.2) 1 c else c) c ts.

Lemma check_tests_holds xe p (ts : list (bool * port_stat)) flag c st : 0 <= p < 16 -> holds c st ->
  exists st', foldM (range_test (xe_num xe) p) ts (flag, st) = Some (flag || existsb fst ts, st') /\
    timestamp_checks st' = timestamp_checks st /\ holds (add_tests xe p ts c) st'.
Proof.
  intros Hp. revert flag c st. induction ts as [|[[] k] ts IH]; intros flag c st Hc; unfold range_test; simpl; fold (range_test (xe_num xe) p).
  - exists st. by rewrite orb_false_r.
  - rewrite xe_port_inc. destruct (stat_add_holds (XePort xe p k) 1 c st _ Hp eq_refl Hc) as (st' & -> & Hs & Hc'). simpl.
    destruct (IH true _ st' Hc') as (st2 & -> & Hs2 & H2). exists st2. rewrite orb_true_r. split_and!; [done|congruence|done].
  - apply IH. done.
Qed.

(** The references of the ports. *)
Definition ref_of (l : list seen) : timestamp_check :=
  match l with [] => no_check | r :: _ => TimestampCheck 1 (s_sip r) (stamptime (s_stamp r)) end.
Definition refs (ps : list seen) (st : ts_state) : Prop :=
  length (timestamp_checks st) = 2%nat /\
  forall xe, exists row, arr_get (timestamp_checks st) (xe_num xe) = Some row /\ length row = 16%nat /\
    forall p, 0 <= p < 16 -> arr_get row p = Some (ref_of (valids xe p ps)).

(** The table and the references after a history [ps], the counters cleared after [qs]. *)
Definition ts_inv (qs ps : list seen) (st : ts_state) : Prop := holds (fun e => tally e ps - tally e qs) st /\ refs ps st.

Lemma invalid_tests (s : stamp) : existsb fst (range_tests s) = negb (forallb (fun t => negb t.1) (range_tests s)).
Proof. unfold range_tests. simpl. rewrite ?negb_andb, ?negb_involutive. done. Qed.

Lemma plus_same c c' e v : (forall e', c e' = c' e') -> forall e', plus e v c e' = plus e v c' e'.
Proof. intros H e'. unfold plus. by rewrite H. Qed.

Lemma holds_same c c' st : (forall e, c e = c' e) -> holds c st -> holds c' st.
Proof. intros H [Hl Hc]. split; [done|]. intros e He. rewrite <- H. by apply Hc. Qed.

(** The numbers after the counting of a packet, before the reference. *)
Definition count_seen (pk : seen) (c : ts_event -> Z) : ts_event -> Z :=
  add_tests (s_xe pk) (s_port pk) (range_tests (s_stamp pk))
    (plus (XePort (s_xe pk) (s_port pk) rxx_pkts) 1 (plus (PortPkts (s_port pk)) 1
      (plus (XeBytes (s_xe pk)) (s_len pk) (plus (XePkts (s_xe pk)) 1 (plus RxBytes (s_len pk) (plus RxPkts 1 c)))))).

Lemma check_seen_counts pk c st : 0 <= s_port pk < 16 -> holds c st ->
  exists st', timestamp_checks st' = timestamp_checks st /\ holds (count_seen pk c) st' /\
    check_seen pk st = if valid_seen pk
      then st ← check_reference (xe_num (s_xe pk)) (s_port pk) (s_sip pk) (stamptime (s_stamp pk)) st'; Some (FRCORE_ACT_FORWARD, st)
      else Some (FRCORE_ACT_FORWARD, st').
Proof.
  intros Hp H0. unfold check_seen. fold (xe_num (s_xe pk)). rewrite xe_port_inc, xe_pkts_inc, xe_bytes_add.
  change (FRCORE_TIMESTAMP_STAT_INC stat_rxx_pkts st) with (FRCORE_TIMESTAMP_STAT_ADD (ts_index RxPkts) 1 st).
  change stat_rxx_bytes with (ts_index RxBytes).
  change (FRCORE_TIMESTAMP_STAT_PORT_PKTS_INC (s_port pk)) with (FRCORE_TIMESTAMP_STAT_ADD (ts_index (PortPkts (s_port pk))) 1).
  destruct (stat_add_holds RxPkts 1 c st _ I eq_refl H0) as (s1 & -> & E1 & H1). cbn [mbind option_bind].
  destruct (stat_add_holds RxBytes (s_len pk) _ s1 _ I eq_refl H1) as (s2 & -> & E2 & H2). cbn [mbind option_bind].
  destruct (stat_add_holds (XePkts (s_xe pk)) 1 _ s2 _ I eq_refl H2) as (s3 & -> & E3 & H3). cbn [mbind option_bind].
  destruct (stat_add_holds (XeBytes (s_xe pk)) (s_len pk) _ s3 _ I eq_refl H3) as (s4 & -> & E4 & H4). cbn [mbind option_bind].
  destruct (stat_add_holds (PortPkts (s_port pk)) 1 _ s4 _ Hp eq_refl H4) as (s5 & -> & E5 & H5). cbn [mbind option_bind].
  destruct (stat_add_holds (XePort (s_xe pk) (s_port pk) rxx_pkts) 1 _ s5 _ Hp eq_refl H5) as (s6 & Hs6 & E6 & H6).
  rewrite Hs6. simpl. unfold check_ranges.
  destruct (check_tests_holds (s_xe pk) (s_port pk) (range_tests (s_stamp pk)) false _ s6 Hp H6) as (s7 & Hs7 & E7 & H7).
  rewrite Hs7. cbn [mbind option_bind orb]. exists s7. split_and!; [congruence|done|].
  rewrite invalid_tests. fold (valid_seen pk). by destruct (valid_seen pk).
Qed.

(** ** The reference of a packet *)

(** What the section under the lock counts. *)
Definition count_late (pk : seen) (l : list seen) (c : ts_event -> Z) : ts_event -> Z :=
  match l with
  | [] => c
  | r :: _ => if late_ip r pk then plus (XePort (s_xe pk) (s_port pk) ip_err_pkts) 1 c
              else if late_time r pk then plus (XePort (s_xe pk) (s_port pk) timestamp_err_pkts) 1 c else c
  end.

Lemma check_reference_counts pk l c row st : 0 <= s_port pk < 16 -> holds c st ->
  length (timestamp_checks st) = 2%nat -> arr_get (timestamp_checks st) (xe_num (s_xe pk)) = Some row -> length row = 16%nat ->
  arr_get row (s_port pk) = Some (ref_of l) ->
  exists st', check_reference (xe_num (s_xe pk)) (s_port pk) (s_sip pk) (stamptime (s_stamp pk)) st = Some st' /\
    holds (count_late pk l c) st' /\
    timestamp_checks st' = match l with
      | [] => <[Z.to_nat (xe_num (s_xe pk)) := <[Z.to_nat (s_port pk) := ref_of [pk]]> row]> (timestamp_checks st)
      | _ => timestamp_checks st end.
Proof.
  intros Hp Hc Hl Hrow Hrl Hck. unfold check_reference. rewrite Hrow. simpl. rewrite Hck. simpl.
  destruct l as [|r l]; simpl.
  - rewrite arr_set_eq by (rewrite Hrl; lia). simpl. rewrite arr_set_eq by (rewrite Hl; destruct (s_xe pk); simpl; lia).
    simpl. eexists. split_and!; [done| |done]. destruct Hc. by split.
  - rewrite !xe_port_inc. unfold late_time. change (s_sip r >=? s_sip pk) with (late_ip r pk). destruct (late_ip r pk); cbn [negb andb].
    { destruct (stat_add_holds (XePort (s_xe pk) (s_port pk) ip_err_pkts) 1 c st _ Hp eq_refl Hc) as (st' & -> & E & H). eauto. }
    destruct (_ >=? _); [|eauto].
    destruct (stat_add_holds (XePort (s_xe pk) (s_port pk) timestamp_err_pkts) 1 c st _ Hp eq_refl Hc) as (st' & -> & E & H). eauto.
Qed.

Lemma plus_eq e v c e' : plus e v c e' = c e' + if bool_decide (e' = e) then v else 0.
Proof. unfold plus. by destruct (decide _), (bool_decide_reflect (e' = e)). Qed.

Lemma cond_plus_eq (b : bool) e v c e' : (if b then plus e v c else c) e' = c e' + if b && bool_decide (e' = e) then v else 0.
Proof. destruct b; [apply plus_eq|]. simpl. lia. Qed.

Lemma port_event_eq xe xe' p p' k k' : bool_decide (XePort xe p k = XePort xe' p' k') = eqb xe' xe && (p' =? p) && bool_decide (k = k').
Proof.
  apply eq_iff_eq_true. rewrite !andb_true_iff, !bool_decide_eq_true, eqb_true_iff, Z.eqb_eq. naive_solver.
Qed.

Lemma other_event_eq xe p k e : (forall xe p k, e <> XePort xe p k) -> bool_decide (e = XePort xe p k) = false.
Proof. intros H. apply bool_decide_eq_false. apply H. Qed.

(** Together the numbers of a packet are its shares. *)
Lemma count_seen_share pk l c e :
  (if valid_seen pk then count_late pk l (count_seen pk c) else count_seen pk c) e = c e + share pk l e.
Proof.
  assert (forall c, (if valid_seen pk then count_late pk l c else c) e = c e +
    match e with
    | XePort xe p ip_err_pkts => if at_port xe p pk && valid_seen pk then match l with [] => 0 | r :: _ => if late_ip r pk then 1 else 0 end else 0
    | XePort xe p timestamp_err_pkts => if at_port xe p pk && valid_seen pk then match l with [] => 0 | r :: _ => if late_time r pk then 1 else 0 end else 0
    | _ => 0 end) as ->.
  { intros c'. unfold count_late, late_time. destruct (valid_seen pk); [|destruct e as [| | | | |? ? []]; rewrite ?andb_false_r; lia].
    destruct l as [|r l]; [destruct e as [| | | | |xe p []]; rewrite ?andb_true_r; try lia; destruct (at_port _ _ _); lia|].
    destruct (late_ip r pk), (stamptime (s_stamp r) >=? stamptime (s_stamp pk)); simpl; rewrite ?plus_eq;
      destruct e as [| | | | |xe p []]; rewrite ?andb_true_r, ?port_event_eq, ?(bool_decide_eq_false_2 (_ = _)) by done;
      rewrite ?andb_false_r, ?bool_decide_true, ?andb_true_r by done; unfold at_port; try destruct (_ && _); lia. }
  unfold count_seen, add_tests, range_tests. cbn [foldl fst snd]. rewrite !cond_plus_eq, !plus_eq.
  destruct e as [| |xe|xe|p|xe p k].
  1-5: unfold share; rewrite ?(bool_decide_eq_false_2 (_ = XePort _ _ _)), ?andb_false_r by done;
    repeat case_bool_decide; simplify_eq;
    rewrite ?eqb_reflx, ?Z.eqb_refl; try lia;
    try (destruct (eqb (s_xe pk) xe) eqn:E; [apply eqb_prop in E; naive_solver|lia]);
    try (destruct (Z.eqb_spec (s_port pk) p); [naive_solver|lia]).
  rewrite !port_event_eq, !(bool_decide_eq_false_2 (XePort _ _ _ = _)) by done.
  unfold share, fails_test, range_tests. cbn [existsb fst snd]. fold (at_port xe p pk).
  destruct k; rewrite ?bool_decide_true, ?(bool_decide_eq_false_2 (_ = _)) by done;
    rewrite ?andb_false_r, ?andb_true_r, ?orb_false_r, ?orb_false_l, ?(andb_comm (at_port xe p pk)); try lia.

Qed.

(** ** A run *)

Lemma ref_of_app l l' : ref_of (l ++ l') = match l with [] => ref_of l' | _ => ref_of l end.
Proof. by destruct l. Qed.

Lemma valids_snoc xe p ps pk :
  valids xe p (ps ++ [pk]) = valids xe p ps ++ if at_port xe p pk && valid_seen pk then [pk] else [].
Proof. apply filter_snoc. Qed.

Lemma at_port_here pk : at_port (s_xe pk) (s_port pk) pk = true.
Proof. unfold at_port. by rewrite eqb_reflx, Z.eqb_refl. Qed.

(** A packet keeps the references when it is invalid or its port has one. *)
Lemma refs_kept ps pk st st' : timestamp_checks st' = timestamp_checks st -> refs ps st ->
  valid_seen pk = false \/ valids (s_xe pk) (s_port pk) ps <> [] -> refs (ps ++ [pk]) st'.
Proof.
  intros E [Hl Hr] Hkeep. unfold refs. rewrite E. split; [done|]. intros xe. destruct (Hr xe) as (row & Hrow & Hrl & Hp).
  exists row. split_and!; [done..|]. intros p Hpr. rewrite Hp by done. f_equal. rewrite valids_snoc, ref_of_app.
  destruct (at_port xe p pk) eqn:Ea; [|by destruct (valids xe p ps)]. apply at_port_own in Ea as [-> ->].
  destruct Hkeep as [-> | Hne]; [by destruct (valids _ _ ps)|]. by destruct (valids _ _ ps).
Qed.

(** The first valid packet of a port becomes its reference. *)
Lemma refs_first ps pk st st' row : 0 <= s_port pk < 16 -> refs ps st -> valid_seen pk = true ->
  arr_get (timestamp_checks st) (xe_num (s_xe pk)) = Some row -> valids (s_xe pk) (s_port pk) ps = [] ->
  timestamp_checks st' = <[Z.to_nat (xe_num (s_xe pk)) := <[Z.to_nat (s_port pk) := ref_of [pk]]> row]> (timestamp_checks st) ->
  refs (ps ++ [pk]) st'.
Proof.
  intros Hp [Hl Hr] Hv Hrow Hnil E. unfold refs. rewrite E, length_insert. split; [done|]. intros xe.
  destruct (Hr (s_xe pk)) as (row' & Hrow' & Hrl & Hrp). rewrite Hrow in Hrow'. injection Hrow' as <-.
  assert (arr_set (timestamp_checks st) (xe_num (s_xe pk)) (<[Z.to_nat (s_port pk) := ref_of [pk]]> row) =
    Some (<[Z.to_nat (xe_num (s_xe pk)) := <[Z.to_nat (s_port pk) := ref_of [pk]]> row]> (timestamp_checks st))) as Hset
    by (apply arr_set_eq; rewrite Hl; destruct (s_xe pk); simpl; lia).
  apply (arr_get_set _ _ _ _ (xe_num xe)) in Hset. rewrite Hset. case_decide as Hx.
  - assert (xe = s_xe pk) as -> by (destruct xe, (s_xe pk); done). eexists. split_and!; [done|by rewrite length_insert|].
    intros p Hpr. pose proof (arr_set_eq row (s_port pk) (ref_of [pk]) ltac:(lia)) as Hs. apply (arr_get_set _ _ _ _ p) in Hs. rewrite Hs.
    rewrite valids_snoc, ref_of_app, Hv. case_decide as Hd; [subst p; by rewrite Hnil, at_port_here|].
    rewrite (Hrp p Hpr). destruct (at_port _ p pk) eqn:Ea; [apply at_port_own in Ea as [_ ->]; done|].
    by destruct (valids _ p ps).
  - destruct (Hr xe) as (row' & Hrow' & Hrl' & Hrp'). exists row'. split_and!; [done..|]. intros p Hpr. rewrite (Hrp' p Hpr).
    rewrite valids_snoc, ref_of_app. destruct (at_port xe p pk) eqn:Ea; [apply at_port_own in Ea as [-> _]; done|].
    by destruct (valids xe p ps).
Qed.

Lemma check_seen_inv qs ps pk st : 0 <= s_port pk < 16 -> ts_inv qs ps st ->
  exists st', check_seen pk st = Some (FRCORE_ACT_FORWARD, st') /\ ts_inv qs (ps ++ [pk]) st'.
Proof.
  intros Hp [Hc Hr]. destruct (check_seen_counts pk _ st Hp Hc) as (st1 & E1 & H1 & ->).
  assert (forall c st', holds c st' -> (forall e, c e = tally e ps - tally e qs + share pk (valids (s_xe pk) (s_port pk) ps) e) ->
    refs (ps ++ [pk]) st' -> ts_inv qs (ps ++ [pk]) st') as Hfin.
  { intros c st' Hh He Href. split; [|done]. eapply holds_same; [|exact Hh]. intros e. rewrite He, tally_snoc. lia. }
  pose proof (count_seen_share pk (valids (s_xe pk) (s_port pk) ps) (fun e => tally e ps - tally e qs)) as Hs.
  destruct (valid_seen pk) eqn:Hv.
  - pose proof Hr as [Hl Hrows]. destruct (Hrows (s_xe pk)) as (row & Hrow & Hrl & Hrp). rewrite <- E1 in Hl, Hrow.
    destruct (check_reference_counts pk (valids (s_xe pk) (s_port pk) ps) _ row st1 Hp H1 Hl Hrow Hrl (Hrp _ Hp)) as (st2 & -> & H2 & E2).
    simpl. exists st2. split; [done|]. eapply Hfin; [exact H2|exact Hs|].
    destruct (valids _ _ ps) eqn:Hval; [|eapply refs_kept; [by rewrite E2|done|right; by rewrite Hval]].
    eapply refs_first; [done|exact Hr|done|by rewrite <- E1|done|by rewrite E2, E1].
  - exists st1. split; [done|]. eapply Hfin; [exact H1|exact Hs|]. by eapply refs_kept; [|done|left].
Qed.

(** One packet to the check of its IP version. *)
Record ts_input : Type := TsInput { in_v6 : bool; in_port : Z; in_len : Z; in_eth : list Z; in_ip : list Z }.

(** What happens to the table: a packet, or the command that clears the counters. *)
Inductive ts_op : Type := Packet (x : ts_input) | Clear.

Definition ts_check (st : ts_state) (x : ts_input) : option ts_state :=
  '(_, st) ← (if in_v6 x then frcore_timestamp_check_v6 else frcore_timestamp_check_v4) (in_port x) (in_len x) (in_eth x) (in_ip x) st; Some st.
Definition ts_step (st : ts_state) (o : ts_op) : option ts_state :=
  match o with Packet x => ts_check st x | Clear => '(_, _, st) ← frcore_cmd_timestamp_check_clear_stat st; Some st end.

(** The packets of a run, and those before its last clearing. *)
Definition history (os : list ts_op) : list ts_input * list ts_input :=
  fold_left (fun h o => match o with Packet x => (h.1 ++ [x], h.2) | Clear => (h.1, h.1) end) os ([], []).
Definition addr_at (x : ts_input) : Z := if in_v6 x then 20 else 12.
Definition seen_of (x : ts_input) : option seen := seen_at (addr_at x) (in_port x) (in_len x) (in_eth x) (in_ip x).
Definition long_enough (x : ts_input) : Prop := (12 <= length (in_eth x))%nat /\ addr_at x + 4 <= Z.of_nat (length (in_ip x)).

Lemma read_stamp_defined eth : (12 <= length eth)%nat -> is_Some (read_stamp eth).
Proof. intros H. do 12 (destruct eth as [|? eth]; [simpl in H; lia|]). unfold read_stamp. simpl. eauto. Qed.

Lemma seen_of_defined x : long_enough x -> is_Some (seen_of x).
Proof.
  intros [He Hi]. unfold seen_of, seen_at. assert (0 <= addr_at x) by (unfold addr_at; destruct (in_v6 x); lia).
  destruct (UP32_Some (in_ip x) (addr_at x)) as [? ->]; [lia..|]. rewrite arr_get_nthZ by lia.
  destruct (read_stamp_defined (in_eth x) He) as [? ->]. simpl. eauto.
Qed.

Lemma ts_check_inv qs ps st x : long_enough x -> ts_inv qs ps st ->
  exists pk st', seen_of x = Some pk /\ ts_check st x = Some st' /\ ts_inv qs (ps ++ [pk]) st'.
Proof.
  intros Hx Hi. destruct (seen_of_defined x Hx) as [pk Hpk]. exists pk.
  destruct (check_seen_inv qs ps pk st) as (st' & E & H'); [by eapply seen_at_port|done|].
  exists st'. split_and!; [done| |done]. unfold ts_check, seen_of, addr_at in *.
  destruct (in_v6 x); [unfold frcore_timestamp_check_v6|unfold frcore_timestamp_check_v4]; rewrite timestamp_check_at_seen, Hpk; simpl; by rewrite E.
Qed.

(** The clearing sets the counters to zero and leaves the references. *)
Lemma ts_clear_inv qs ps st : ts_inv qs ps st -> exists st', ts_step st Clear = Some st' /\ ts_inv ps ps st'.
Proof.
  intros [[Hl Hc] Hr]. cbn [ts_step]. unfold frcore_cmd_timestamp_check_clear_stat, frcore_timestamp_check_stat_clear.
  destruct (for_seqZ (fun i s => Z.of_nat (length s) = 310 /\ forall j, 0 <= j < i -> nthZ s j = 0) (fun s i => arr_set s i 0) stat_timestamp_max (timestamp_stat st))
    as (s & -> & Hs & H0).
  - done.
  - split; [done|lia].
  - intros i s Hi [Hs H0]. rewrite arr_set_eq by (unfold stat_timestamp_max in *; lia). eexists. split; [done|]. split; [by rewrite length_insert|].
    intros j Hj. rewrite nthZ_insert by (unfold stat_timestamp_max in *; lia). destruct (Z.eqb_spec j i); [done|]. apply H0. lia.
  - cbn [mbind option_bind]. eexists. split; [done|]. split; [|exact Hr]. split; [done|]. intros e He. rewrite Z.sub_diag. apply H0.
    by apply ts_index_range.
Qed.

Lemma ts_inv_init : ts_inv [] [] (frcore_timestamp_check_init ts_load).2.
Proof.
  split; [split; [done|]|split; [done|]].
  - intros e He. assert (tally e [] = 0) as -> by (by destruct e as [| | | | |? ? []]).
    pose proof (ts_index_range e He). change (wraps 64 0) with 0. change (nthZ (replicate (Z.to_nat 310) 0) (ts_index e) = 0). unfold nthZ, arr_get.
    rewrite (proj2 (Z.leb_le _ _)) by lia. by rewrite lookup_replicate_2 by lia.
  - intros xe. exists (replicate 16 no_check). split_and!; [by destruct xe|done|]. intros p Hp. unfold arr_get.
    rewrite (proj2 (Z.leb_le _ _)) by lia. by rewrite lookup_replicate_2 by lia.
Qed.

(** C36: from the initialisation on, every run of packets long enough for their headers and of
    clearings is defined; every counter of the table is the number of the packets with its
    event since the last clearing, modulo its width.  The references survive the clearings:
    the reference of a port is the first valid packet it ever received, and the events that
    compare with it do so even when it came before the clearing. *)
Theorem timestamp_run_refines (os : list ts_op) :
  (forall x, Packet x ∈ os -> long_enough x) ->
  exists ps qs st, mapM seen_of (history os).1 = Some ps /\ mapM seen_of (history os).2 = Some qs /\
    foldM ts_step os (frcore_timestamp_check_init ts_load).2 = Some st /\
    (forall e, ts_event_ok e -> nthZ (timestamp_stat st) (ts_index e) = wraps 64 (tally e ps - tally e qs)) /\
    (forall xe p, 0 <= p < 16 -> (row ← arr_get (timestamp_checks st) (xe_num xe); arr_get row p) = Some (ref_of (valids xe p ps))).
Proof.
  intros Hos. enough (exists ps qs st, mapM seen_of (history os).1 = Some ps /\ mapM seen_of (history os).2 = Some qs /\
    foldM ts_step os (frcore_timestamp_check_init ts_load).2 = Some st /\ ts_inv qs ps st) as (ps & qs & st & H1 & H2 & H3 & [Hc [_ Hr]]).
  { exists ps, qs, st. split_and!; [done..|apply Hc|]. intros xe p Hp. destruct (Hr xe) as (row & -> & _ & Hrp). by apply Hrp. }
  induction os as [|o os IH] using rev_ind; [exists [], [], (frcore_timestamp_check_init ts_load).2; split_and!; [done..|apply ts_inv_init]|].
  destruct IH as (ps & qs & st & H1 & H2 & H3 & Hi); [intros x Hx; apply Hos, elem_of_app; by left|].
  unfold history in *. rewrite fold_left_app, foldM_app, H3. cbn [fold_left mbind option_bind foldM]. destruct o as [x|]; cbn [fst snd].
  - destruct (ts_check_inv qs ps st x) as (pk & st' & Hpk & Hst & Hi'); [apply Hos, elem_of_app; right; left|done|].
    exists (ps ++ [pk]), qs, st'. split_and!; [|done|cbn [ts_step]; by rewrite Hst|done].
    apply mapM_Some. apply Forall2_app; [by apply mapM_Some|by constructor].
  - destruct (ts_clear_inv qs ps st Hi) as (st' & Hst & Hi'). exists ps, ps, st'. rewrite Hst. by split_and!.
Qed.

(** A packet of port 3 with address 10.0.0.[n], and a later one. *)
Definition demo_input (v6 : bool) (s : stamp) (a : Z) : ts_input :=
  TsInput v6 0 60 ([0; 0; 0] ++ stamp_bytes s ++ [8; 0]) (replicate (if v6 then 20 else 12) 0 ++ [3; 0; 0; a] ++ replicate 4 0).

Lemma demo_long v6 s a : long_enough (demo_input v6 s a).
Proof. destruct v6; (split; [cbn; lia|by vm_compute]). Qed.

(** Three packets, the counters cleared after the first. *)
Definition demo_run : list ts_op := [Packet (demo_input false noon 1); Clear; Packet (demo_input true noon 2); Packet (demo_input false noon 1)].

Lemma timestamp_run_refines_witness :
  exists st, foldM ts_step demo_run (frcore_timestamp_check_init ts_load).2 = Some st /\
    nthZ (timestamp_stat st) (ts_index (XePort false 3 ip_err_pkts)) = 1 /\
    nthZ (timestamp_stat st) (ts_index (XePort false 3 timestamp_err_pkts)) = 1 /\
    nthZ (timestamp_stat st) (ts_index RxBytes) = 120.
Proof.
  assert (forall x, Packet x ∈ demo_run -> long_enough x) as H.
  { intros x. unfold demo_run. rewrite !elem_of_cons, elem_of_nil.
    intros [E|[E|[E|[E|[]]]]]; try discriminate E; injection E as ->; apply demo_long. }
  destruct (timestamp_run_refines _ H) as (ps & qs & st & Hps & Hqs & Hst & Hc & _). exists st. split; [done|].
  assert (mapM seen_of (history demo_run).1 = Some
    [Seen false 60 50331649 3 noon; Seen false 60 50331650 3 noon; Seen false 60 50331649 3 noon]) as E by (vm_compute; reflexivity).
  assert (mapM seen_of (history demo_run).2 = Some [Seen false 60 50331649 3 noon]) as E' by (vm_compute; reflexivity).
  rewrite E in Hps. injection Hps as <-. rewrite E' in Hqs. injection Hqs as <-.
  rewrite !Hc by (simpl; lia). split_and!; vm_compute; reflexivity.
Defined.

(** the reference of a port is never renewed: a stream whose addresses all exceed the
    first one's is counted without an address error even when they fall from packet to
    packet. *)
Theorem timestamp_reference_stale (r : seen) (ps : list seen) :
  Forall (fun pk => s_sip r < s_sip pk /\ stamptime (s_stamp r) < stamptime (s_stamp pk)) ps ->
  forall xe p, Forall (fun pk => at_port xe p pk = true) (r :: ps) -> valid_seen r = true ->
    tally (XePort xe p ip_err_pkts) (r :: ps) = 0 /\ tally (XePort xe p timestamp_err_pkts) (r :: ps) = 0.
Proof.
  intros Hps xe p Hat Hv. apply Forall_cons in Hat as [Hr _]. simpl. unfold valids.
  rewrite filter_cons_True by (by rewrite Hr, Hv). simpl.
  assert (forall late : seen -> seen -> bool, (forall pk, s_sip r < s_sip pk /\ stamptime (s_stamp r) < stamptime (s_stamp pk) -> late r pk = false) ->
    countZ (late r) (filter (fun pk => at_port xe p pk && valid_seen pk) ps) = 0) as H.
  { intros late Hl. unfold countZ. induction Hps as [|pk ps Hpk _ IH]; [done|]. unfold filter. simpl.
    case_match; [|done]. simpl. rewrite (Hl pk Hpk). done. }
  split; apply H; intros pk [H1 H2]; unfold late_time, late_ip; rewrite !Z.geb_leb.
  - by apply Z.leb_gt.
  - rewrite (proj2 (Z.leb_gt (s_sip pk) (s_sip r))), (proj2 (Z.leb_gt _ _)) by lia. done.
Qed.
