(* ===== verification/MacStat.v ===== *)
(** * Statistics by ethernet address: src/code/frcore/frcore_mac_statistics.c

    With [FRC_CONFIG_MAC_STATISTICS] packets are sent back to the wire and counted: a hash
    of their addresses chooses the address of a table they are expected to carry.  The
    commands act on bytes, as every handler of [Cmd] does; the shared variables are the
    fields of [mac_state].  The structures lie in the memory of the big-endian card. *)

From stdpp Require Import list.
From S2P Require Import Prelude Bytes Cmd.
#[local] Open Scope Z_scope.

(** ** Constants of the file, its header and frcore_proto.h *)
Definition MAX_MAC_NUM : Z := 512.
Definition HASH_SIP : Z := 0.
Definition HASH_DIP : Z := 1.
Definition HASH_SIP_DIP : Z := 2.
Definition HASH_FIVE_TUPLE : Z := 3.
Definition HEART_BEAT_ON : Z := 1.
Definition HEART_BEAT_ON_WITH_DROP : Z := 2.
Definition IP_TOS : Z := 1.
Definition IP_TTL : Z := 2.
Definition ETH_P_IP : Z := 0x0800.
Definition IP_P_TCP : Z := 0x6.
Definition IP_P_UDP : Z := 0x11.
Definition SIZEOF_ETHHDR : Z := 14.

(** ** Data *)

(** [struct frc_mac_stat], and the shared variables. *)
Record frc_mac_stat : Type := MacStat { mac : Z; total : Z; errors : Z }.
Definition no_stat : frc_mac_stat := MacStat 0 0 0.

Record mac_state : Type := MacState {
  mac_num : Z; hash_mode : Z; heart_beat : Z; global_mac_stat : list frc_mac_stat; ip_tos : Z; ip_ttl : Z }.

Definition mac_load : mac_state := MacState 0 HASH_SIP HEART_BEAT_ON (replicate 512 no_stat) (-1) (-1).

Definition set_macs (n : Z) (t : list frc_mac_stat) (st : mac_state) : mac_state :=
  MacState n (hash_mode st) (heart_beat st) t (ip_tos st) (ip_ttl st).
Definition set_tab (t : list frc_mac_stat) (st : mac_state) : mac_state := set_macs (mac_num st) t st.

(** ** The hash *)

Definition fold32 (a : Z) : Z := u16 (u32 (Z.shiftr a 16 + Z.land a 0xffff)).

(** The remainders are of [int]; the divisor is not zero behind the first test. *)
Definition frcore_mac_statistics_hash (sip dip sp dp proto : Z) (st : mac_state) : option Z :=
  let hash := MAX_MAC_NUM + 1 in
  if mac_num st =? 0 then Some hash else
  if hash_mode st =? HASH_SIP then umod (fold32 sip) (mac_num st)
  else if hash_mode st =? HASH_DIP then umod (fold32 dip) (mac_num st)
  else if hash_mode st =? HASH_SIP_DIP then umod (fold32 sip + fold32 dip) (mac_num st)
  else if hash_mode st =? HASH_FIVE_TUPLE then umod (fold32 sip + fold32 dip + sp + dp + proto) (mac_num st)
  else Some hash.

(** ** Commands *)
Abbreviation mac_fn := (frcore_cmd_fn_t mac_state).

(** [frc_mac_stat_in_t] and [frc_mac_stat_out_t]. *)
Definition in_mac (param : option (list Z)) : option Z := p ← param; card_get p 0 8.
Definition in_counter (param : option (list Z)) : option Z := p ← param; card_get p 8 8.
Definition SIZEOF_MAC_STAT_OUT : Z := 24.
Definition mac_out_bytes (s : frc_mac_stat) : list Z := be_bytes 8 (mac s) ++ be_bytes 8 (total s) ++ be_bytes 8 (errors s).

Definition frcore_mac_statistics_add_mac : mac_fn := fun plen param outbuf st =>
  m ← in_mac param;
  if m =? 0 then Some (FRE_FAIL, 0, outbuf, st) else
  if mac_num st =? MAX_MAC_NUM then Some (FRE_NOSPACE, 0, outbuf, st) else
  t ← arr_set (global_mac_stat st) (mac_num st) (MacStat m 0 0);
  Some (FRE_SUCCESS, 0, outbuf, set_macs (u16 (mac_num st + 1)) t st).

(** The entries behind a deleted one move up. *)
Definition move_up (t : list frc_mac_stat) (i : Z) : option (list frc_mac_stat) :=
  e ← arr_get t (i + 1); arr_set t i e.

(** Both branches of the body return: only the first entry is looked at.  [mac == 0] is a
    comparison without effect, the entry keeps its address. *)
Definition frcore_mac_statistics_del_mac : mac_fn := fun plen param outbuf st =>
  m ← in_mac param;
  if m =? 0 then Some (FRE_FAIL, 0, outbuf, st) else
  match seqZ 0 (mac_num st) with
  | [] => Some (FRE_FAIL, 0, outbuf, st)
  | i :: _ =>
    e ← arr_get (global_mac_stat st) i;
    if mac e =? m then
      t ← arr_set (global_mac_stat st) i (MacStat (mac e) 0 0);
      let n := u16 (mac_num st - 1) in
      t ← foldM move_up (seqZ i (n - i)) t;
      Some (FRE_SUCCESS, 0, outbuf, set_macs n t st)
    else Some (FRE_NOTFOUND, 0, outbuf, st)
  end.

Definition frcore_mac_statistics_del_all : mac_fn := fun plen param outbuf st =>
  t ← foldM (fun t i => arr_set t i no_stat) (seqZ 0 (mac_num st)) (global_mac_stat st);
  Some (FRE_SUCCESS, 0, outbuf, set_macs 0 t st).

(** The first entry with the address. *)
Definition scan_mac {A} (m : Z) (st : mac_state) (k : Z -> frc_mac_stat -> option A) : option (option A) :=
  searchM (fun i => e ← arr_get (global_mac_stat st) i; if mac e =? m then r ← k i e; Some (Some r) else Some None)
    (seqZ 0 (mac_num st)).

Definition frcore_mac_statistics_clear_counter : mac_fn := fun plen param outbuf st =>
  m ← in_mac param;
  r ← scan_mac m st (fun i e => arr_set (global_mac_stat st) i (MacStat (mac e) 0 0));
  Some (match r with
        | Some t => (FRE_SUCCESS, 0, outbuf, set_tab t st)
        | None => (FRE_NOTFOUND, 0, outbuf, st)
        end).

Definition clear_one (t : list frc_mac_stat) (i : Z) : option (list frc_mac_stat) :=
  e ← arr_get t i; arr_set t i (MacStat (mac e) 0 0).
Definition frcore_mac_statistics_clear_all_counter : mac_fn := fun plen param outbuf st =>
  t ← foldM clear_one (seqZ 0 (mac_num st)) (global_mac_stat st);
  Some (FRE_SUCCESS, 0, outbuf, set_tab t st).

Definition frcore_mac_statistics_show_by_mac : mac_fn := fun plen param outbuf st =>
  m ← in_mac param;
  if m =? 0 then Some (FRE_PARAM, SIZEOF_MAC_STAT_OUT, outbuf, st) else
  r ← scan_mac m st (fun i e => write_bytes outbuf 0 (mac_out_bytes (MacStat m (total e) (errors e))));
  Some (match r with
        | Some out => (FRE_SUCCESS, SIZEOF_MAC_STAT_OUT, out, st)
        | None => (FRE_NOTFOUND, SIZEOF_MAC_STAT_OUT, outbuf, st)
        end).

Definition frcore_mac_statistics_show_by_index : mac_fn := fun plen param outbuf st =>
  index ← in_mac param;
  if index >=? mac_num st then Some (FRE_FAIL, SIZEOF_MAC_STAT_OUT, outbuf, st) else
  e ← arr_get (global_mac_stat st) index;
  out ← write_bytes outbuf 0 (mac_out_bytes e);
  Some (FRE_SUCCESS, SIZEOF_MAC_STAT_OUT, out, st).

Definition frcore_mac_statistics_set_hash_mode : mac_fn := fun plen param outbuf st =>
  m ← in_mac param;
  Some (FRE_SUCCESS, 0, outbuf, MacState (mac_num st) (u16 m) (heart_beat st) (global_mac_stat st) (ip_tos st) (ip_ttl st)).
Definition frcore_mac_statistics_set_heart_beat : mac_fn := fun plen param outbuf st =>
  m ← in_mac param;
  Some (FRE_SUCCESS, 0, outbuf, MacState (mac_num st) (hash_mode st) (u16 m) (global_mac_stat st) (ip_tos st) (ip_ttl st)).

Definition frcore_mac_statistics_set_ip : mac_fn := fun plen param outbuf st =>
  ty ← in_mac param;
  if ty =? IP_TOS then
    c ← in_counter param;
    Some (FRE_SUCCESS, 0, outbuf, MacState (mac_num st) (hash_mode st) (heart_beat st) (global_mac_stat st) (wraps 64 c) (ip_ttl st))
  else if ty =? IP_TTL then
    c ← in_counter param;
    Some (FRE_SUCCESS, 0, outbuf, MacState (mac_num st) (hash_mode st) (heart_beat st) (global_mac_stat st) (ip_tos st) (wraps 64 c))
  else Some (FRE_FAIL, 0, outbuf, st).

(** ** Packets *)

(** The loop of [check_sum] for [count] bytes: the pointer advances by one byte. *)
Fixpoint sum_words (n : nat) (p : list Z) (o : Z) (sum : Z) : option Z :=
  match n with
  | O => Some sum
  | S n => w ← card_get p o 2; sum_words n p (o + 1) (u32 (sum + w))
  end.
Definition check_sum (p : list Z) (o count : Z) : option Z :=
  sum ← sum_words (Z.to_nat (count / 2)) p o 0;
  sum ← (if 0 <? count `mod` 2 then w ← card_get p (o + count / 2) 2; Some (u32 (sum + w)) else Some sum);
  let sum := u32 (Z.land sum 0xffff + Z.shiftr sum 16) in
  let sum := u32 (sum + Z.shiftr sum 16) in
  Some (u16 (Z.lnot sum)).

(** [struct iphdr] at [o]: [tos] at 1, [tot_len] at 2, [ttl] at 8, [check] at 10. *)
Definition frcore_mac_statistics_set_ip_pkt (o : Z) (p : list Z) (st : mac_state) : option (list Z) :=
  p ← (if ip_tos st >=? 0 then write_bytes p (Z.to_nat (o + 1)) [u8 (ip_tos st)] else Some p);
  p ← (if ip_ttl st >=? 0 then write_bytes p (Z.to_nat (o + 8)) [u8 (ip_ttl st)] else Some p);
  p ← write_bytes p (Z.to_nat (o + 10)) [0; 0];
  tot_len ← card_get p (o + 2) 2;
  c ← check_sum p o tot_len;
  write_bytes p (Z.to_nat (o + 10)) (be_bytes 2 c).

(** A packet for the entry [hash]. *)
Definition count_packet (hash m : Z) (st : mac_state) : option (Z * mac_state) :=
  if hash =? MAX_MAC_NUM + 1 then Some (FRE_FAIL, st) else
  e ← arr_get (global_mac_stat st) hash;
  if mac e =? 0 then Some (FRE_FAIL, st) else
  t ← arr_set (global_mac_stat st) hash
    (MacStat (mac e) (u64 (total e + 1)) (if mac e =? m then errors e else u64 (errors e + 1)));
  Some (FRE_SUCCESS, set_tab t st).

(** The result, the packet and the variables.  The ethernet header is behind sixteen bytes
    of the user. *)
Definition frcore_mac_statistics_counter_inc (ether : list Z) (st : mac_state) : option (Z * list Z * mac_state) :=
  w ← card_get ether 0 8;
  let m := Z.shiftr w 16 in
  proto ← card_get ether 28 2;
  if negb (proto =? ETH_P_IP) then Some (FRE_FAIL, ether, st) else
  let ip := 16 + SIZEOF_ETHHDR in
  ether ← frcore_mac_statistics_set_ip_pkt ip ether st;
  b0 ← card_get ether ip 1;
  if negb (Z.shiftr b0 4 =? 4) then Some (FRE_FAIL, ether, st) else
  sip ← card_get ether (ip + 12) 4; dip ← card_get ether (ip + 16) 4; proto ← card_get ether (ip + 9) 1;
  if (proto =? IP_P_TCP) || (proto =? IP_P_UDP) then
    let l4 := ip + Z.land b0 0xf * 4 in
    sp ← card_get ether l4 2; dp ← card_get ether (l4 + 2) 2;
    hash ← frcore_mac_statistics_hash sip dip sp dp proto st;
    '(rv, st) ← count_packet hash m st;
    Some (rv, ether, st)
  else Some (FRE_FAIL, ether, st).

(** The commands registered by [frcore_mac_statistics_init], in its order. *)
Definition mac_handlers : list mac_fn :=
  [frcore_mac_statistics_add_mac; frcore_mac_statistics_del_mac; frcore_mac_statistics_del_all;
   frcore_mac_statistics_clear_counter; frcore_mac_statistics_clear_all_counter; frcore_mac_statistics_show_by_mac;
   frcore_mac_statistics_show_by_index; frcore_mac_statistics_set_hash_mode; frcore_mac_statistics_set_heart_beat;
   frcore_mac_statistics_set_ip].
