(* ===== verification/MacStatProps.v ===== *)
(** * The table of addresses as a list

    The commands of frcore_mac_statistics.c refine operations on the list of the entries in
    use; a packet is counted on the entry its hash names and on no other. *)

From stdpp Require Import list.
From S2P Require Import Prelude Bytes Cmd MacStat.
#[local] Open Scope Z_scope.

(** ** The list and the invariant *)
Definition macs (st : mac_state) : list frc_mac_stat := take (Z.to_nat (mac_num st)) (global_mac_stat st).

Record mac_inv (st : mac_state) : Prop := MacInv {
  mi_table : length (global_mac_stat st) = 512%nat;
  mi_num : 0 <= mac_num st <= 512;
  mi_used : Forall (fun e => mac e <> 0) (macs st) }.

Lemma length_macs st : mac_inv st -> Z.of_nat (length (macs st)) = mac_num st.
Proof. intros [Hl Hn _]. unfold macs. rewrite length_take, Hl. lia. Qed.

Lemma macs_get st i : mac_inv st -> 0 <= i < mac_num st -> arr_get (global_mac_stat st) i = macs st !! Z.to_nat i.
Proof.
  intros [Hl Hn _] Hi. unfold arr_get, macs. rewrite (proj2 (Z.leb_le _ _)) by lia. rewrite lookup_take_lt by lia. done.
Qed.

(** A state whose table is the list [l] followed by anything. *)
Lemma macs_set l rest st : Z.of_nat (length l) <= 512 -> length (l ++ rest) = 512%nat -> Forall (fun e => mac e <> 0) l ->
  let st' := set_macs (Z.of_nat (length l)) (l ++ rest) st in macs st' = l /\ mac_inv st'.
Proof.
  intros Hl Ht Hu st'. assert (macs st' = l) as E.
  { unfold st', macs, set_macs. simpl. by rewrite Nat2Z.id, take_app_length. }
  split; [done|]. split; [done|simpl; lia|by rewrite E].
Qed.

(** The table of a state is its list and a rest. *)
Lemma table_split st : mac_inv st -> exists rest, global_mac_stat st = macs st ++ rest /\ mac_num st = Z.of_nat (length (macs st)).
Proof.
  intros Hi. exists (drop (Z.to_nat (mac_num st)) (global_mac_stat st)). split; [unfold macs; by rewrite take_drop|]. by rewrite length_macs.
Qed.

(** ** The specification *)
Inductive mac_cmd : Type :=
| Add (m : Z) | Del (m : Z) | DelAll | Clear (m : Z) | ClearAll.

Definition reset (e : frc_mac_stat) : frc_mac_stat := MacStat (mac e) 0 0.

(** Clear the first entry with the address. *)
Fixpoint clear_first (m : Z) (l : list frc_mac_stat) : option (list frc_mac_stat) :=
  match l with
  | [] => None
  | e :: l => if mac e =? m then Some (reset e :: l) else cons e <$> clear_first m l
  end.

Definition spec_do (c : mac_cmd) (l : list frc_mac_stat) : Z * list frc_mac_stat :=
  match c with
  | Add m => if m =? 0 then (FRE_FAIL, l) else if Z.of_nat (length l) =? 512 then (FRE_NOSPACE, l) else (FRE_SUCCESS, l ++ [MacStat m 0 0])
  | Del m =>
    if m =? 0 then (FRE_FAIL, l) else
    match l with [] => (FRE_FAIL, l) | e :: l' => if mac e =? m then (FRE_SUCCESS, l') else (FRE_NOTFOUND, l) end
  | DelAll => (FRE_SUCCESS, [])
  | Clear m => match clear_first m l with Some l' => (FRE_SUCCESS, l') | None => (FRE_NOTFOUND, l) end
  | ClearAll => (FRE_SUCCESS, reset <$> l)
  end.

Definition handler_of (c : mac_cmd) : mac_fn :=
  match c with
  | Add _ => frcore_mac_statistics_add_mac | Del _ => frcore_mac_statistics_del_mac | DelAll => frcore_mac_statistics_del_all
  | Clear _ => frcore_mac_statistics_clear_counter | ClearAll => frcore_mac_statistics_clear_all_counter
  end.
Definition arg_of (c : mac_cmd) : Z := match c with Add m | Del m | Clear m => m | DelAll | ClearAll => 0 end.
Definition cmd_ok (c : mac_cmd) : Prop := 0 <= arg_of c < 2 ^ 64.
Definition mac_param (m counter : Z) : list Z := be_bytes 8 m ++ be_bytes 8 counter.

Lemma in_mac_param m counter : 0 <= m < 2 ^ 64 -> in_mac (Some (mac_param m counter)) = Some m.
Proof.
  intros Hm. pose proof (card_get_here 8 m (be_bytes 8 counter)) as H. unfold in_mac, mac_param. cbn [mbind option_bind].
  change (Z.of_nat 8) with 8 in H. rewrite H. f_equal. by apply wrapu_id.
Qed.

(** ** The loops *)

Lemma arr_get_app_here {A} (l r : list A) e : arr_get (l ++ e :: r) (Z.of_nat (length l)) = Some e.
Proof. unfold arr_get. rewrite (proj2 (Z.leb_le _ _)) by lia. rewrite Nat2Z.id. by apply list_lookup_middle. Qed.

Lemma arr_set_app_here {A} (l r : list A) e e' : arr_set (l ++ e :: r) (Z.of_nat (length l)) e' = Some (l ++ e' :: r).
Proof.
  rewrite arr_set_eq by (rewrite length_app; simpl; lia). rewrite Nat2Z.id. by rewrite insert_app_r_alt, Nat.sub_diag by lia.
Qed.

Lemma move_up_step pre x y rest : move_up (pre ++ x :: y :: rest) (Z.of_nat (length pre)) = Some (pre ++ y :: y :: rest).
Proof.
  unfold move_up. replace (Z.of_nat (length pre) + 1) with (Z.of_nat (length (pre ++ [x]))) by (rewrite length_app; simpl; lia).
  replace (pre ++ x :: y :: rest) with ((pre ++ [x]) ++ y :: rest) at 1 by (by rewrite <- app_assoc).
  rewrite arr_get_app_here. cbn [mbind option_bind]. apply arr_set_app_here.
Qed.

(** Moving up: the first entry is overwritten and the last one doubled. *)
Lemma move_up_loop l pre x rest :
  foldM move_up (seqZ (Z.of_nat (length pre)) (Z.of_nat (length l))) (pre ++ x :: l ++ rest) =
  Some (pre ++ l ++ default x (last l) :: rest).
Proof.
  revert pre x. induction l as [|y l IH]; intros pre x; [done|].
  rewrite seqZ_cons by (simpl; lia). cbn [foldM]. simpl app. rewrite move_up_step. cbn [mbind option_bind].
  replace (Z.succ (Z.of_nat (length pre))) with (Z.of_nat (length (pre ++ [y]))) by (rewrite length_app; simpl; lia).
  replace (Z.pred (Z.of_nat (length (y :: l)))) with (Z.of_nat (length l)) by (simpl; lia).
  specialize (IH (pre ++ [y]) y). rewrite <- !app_assoc in IH. simpl in IH. simpl. rewrite IH.
  destruct l as [|f l]; [done|]. change (last (y :: f :: l)) with (last (f :: l)).
  destruct (last (f :: l)) eqn:E; [done|]. by apply last_None in E.
Qed.

(** A loop that rewrites every entry of the list. *)
Lemma map_loop (f : list frc_mac_stat -> Z -> option (list frc_mac_stat)) (g : frc_mac_stat -> frc_mac_stat) l pre rest :
  (forall p e r, f (p ++ e :: r) (Z.of_nat (length p)) = Some (p ++ g e :: r)) ->
  foldM f (seqZ (Z.of_nat (length pre)) (Z.of_nat (length l))) (pre ++ l ++ rest) = Some (pre ++ (g <$> l) ++ rest).
Proof.
  intros Hf. revert pre. induction l as [|e l IH]; intros pre; [done|].
  rewrite seqZ_cons by (simpl; lia). cbn [foldM]. simpl app. rewrite Hf. cbn [mbind option_bind].
  replace (Z.succ (Z.of_nat (length pre))) with (Z.of_nat (length (pre ++ [g e]))) by (rewrite length_app; simpl; lia).
  replace (Z.pred (Z.of_nat (length (e :: l)))) with (Z.of_nat (length l)) by (simpl; lia).
  specialize (IH (pre ++ [g e])). rewrite <- !app_assoc in IH. exact IH.
Qed.

(** The scan for an address. *)
Lemma scan_loop {A} m st (k : Z -> frc_mac_stat -> option A) l pre rest :
  global_mac_stat st = pre ++ l ++ rest ->
  searchM (fun i => e ← arr_get (global_mac_stat st) i; if mac e =? m then r ← k i e; Some (Some r) else Some None)
    (seqZ (Z.of_nat (length pre)) (Z.of_nat (length l))) =
  match first_index (fun e => mac e =? m) l with
  | Some i => match l !! i with Some e => Some <$> k (Z.of_nat (length pre + i)) e | None => None end
  | None => Some None
  end.
Proof.
  revert pre. induction l as [|e l IH]; intros pre Ht; [done|].
  rewrite seqZ_cons by (simpl; lia). cbn [searchM]. rewrite Ht. simpl app. rewrite arr_get_app_here. cbn [mbind option_bind].
  simpl first_index. destruct (mac e =? m).
  - simpl. rewrite Nat.add_0_r. by destruct (k _ e).
  - specialize (IH (pre ++ [e])). rewrite <- app_assoc in IH. specialize (IH Ht). cbn [mbind option_bind].
    replace (Z.succ (Z.of_nat (length pre))) with (Z.of_nat (length (pre ++ [e]))) by (rewrite length_app; simpl; lia).
    replace (Z.pred (Z.of_nat (length (e :: l)))) with (Z.of_nat (length l)) by (simpl; lia).
    rewrite Ht in IH. simpl app in IH. rewrite IH. destruct (first_index _ l) as [i|]; [|done]. simpl.
    destruct (l !! i); [|done]. rewrite length_app. simpl. by replace (length pre + S i)%nat with (length pre + 1 + i)%nat by lia.
Qed.

(** ** The commands *)

Lemma clear_first_index m l :
  clear_first m l = match first_index (fun e => mac e =? m) l with
    | Some i => (fun e => <[i := reset e]> l) <$> l !! i | None => None end.
Proof.
  induction l as [|e l IH]; [done|]. simpl. destruct (mac e =? m); [done|]. rewrite IH.
  destruct (first_index _ l) as [i|]; simpl; [|done]. by destruct (l !! i).
Qed.

Lemma clear_first_used m l l' : clear_first m l = Some l' -> Forall (fun e => mac e <> 0) l -> Forall (fun e => mac e <> 0) l' /\ length l' = length l.
Proof.
  revert l'. induction l as [|e l IH]; [done|]. simpl. intros l' H [He Hl]%Forall_cons. destruct (mac e =? m).
  - injection H as <-. split; [by constructor|done].
  - apply fmap_Some in H as (l1 & H1 & ->). destruct (IH l1 H1 Hl) as [Hu Hle]. split; [by constructor|simpl; by rewrite Hle].
Qed.

(** What a command does to the list. *)
Definition refines_cmd (c : mac_cmd) (counter : Z) (outbuf : list Z) (plen : Z) (st : mac_state) : Prop :=
  exists st', handler_of c plen (Some (mac_param (arg_of c) counter)) outbuf st = Some ((spec_do c (macs st)).1, 0, outbuf, st') /\
    macs st' = (spec_do c (macs st)).2 /\ mac_inv st'.

(** The common end: the state after is a list and a rest. *)
Lemma refines_end c counter outbuf plen st l rest :
  mac_inv st -> handler_of c plen (Some (mac_param (arg_of c) counter)) outbuf st =
    Some ((spec_do c (macs st)).1, 0, outbuf, set_macs (Z.of_nat (length l)) (l ++ rest) st) ->
  l = (spec_do c (macs st)).2 -> Z.of_nat (length l) <= 512 -> length (l ++ rest) = 512%nat -> Forall (fun e => mac e <> 0) l ->
  refines_cmd c counter outbuf plen st.
Proof.
  intros Hi H El Hl Ht Hu. destruct (macs_set l rest st Hl Ht Hu) as [E Hi']. eexists. split_and!; [exact H|by rewrite E|done].
Qed.

(** A refused command. *)
Lemma refines_same c counter outbuf plen st :
  mac_inv st -> handler_of c plen (Some (mac_param (arg_of c) counter)) outbuf st = Some ((spec_do c (macs st)).1, 0, outbuf, st) ->
  (spec_do c (macs st)).2 = macs st -> refines_cmd c counter outbuf plen st.
Proof. intros Hi H E. exists st. by rewrite E. Qed.

Lemma refines_add m counter outbuf plen st : cmd_ok (Add m) -> mac_inv st -> refines_cmd (Add m) counter outbuf plen st.
Proof.
  intros Hm Hi. destruct (table_split st Hi) as (rest & Ht & Hn). pose proof (mi_num st Hi) as Hr. pose proof (mi_table st Hi) as Hl512.
  destruct (Z.eqb_spec m 0) as [->|Hm0]; [apply refines_same; [done| |done]; cbn [handler_of arg_of]; unfold frcore_mac_statistics_add_mac; by rewrite in_mac_param|].
  destruct (Z.eqb_spec (mac_num st) 512) as [Hf|Hf].
  { assert (spec_do (Add m) (macs st) = (FRE_NOSPACE, macs st)) as E.
    { simpl. rewrite (proj2 (Z.eqb_neq m 0)), <- Hn, Hf by done. done. }
    apply refines_same; [done| |by rewrite E]. rewrite E. cbn [handler_of arg_of]. unfold frcore_mac_statistics_add_mac. rewrite in_mac_param by done. cbn [mbind option_bind].
    rewrite (proj2 (Z.eqb_neq m 0)), Hf by done. done. }
  assert (spec_do (Add m) (macs st) = (FRE_SUCCESS, macs st ++ [MacStat m 0 0])) as E.
  { simpl. rewrite (proj2 (Z.eqb_neq m 0)), <- Hn, (proj2 (Z.eqb_neq (mac_num st) 512)) by done. done. }
  destruct rest as [|e rest]; [rewrite app_nil_r in Ht; rewrite Ht in Hl512; lia|].
  apply (refines_end _ _ _ _ st (macs st ++ [MacStat m 0 0]) rest); [done| |by rewrite E|rewrite length_app; simpl; lia| |].
  - rewrite E. cbn [handler_of arg_of fst]. unfold frcore_mac_statistics_add_mac. rewrite in_mac_param by done. cbn [mbind option_bind].
    rewrite (proj2 (Z.eqb_neq m 0)), (proj2 (Z.eqb_neq (mac_num st) MAX_MAC_NUM)), Ht, Hn, arr_set_app_here by done. cbn [mbind option_bind].
    rewrite wrapu_id by lia. rewrite length_app, <- app_assoc. simpl. by replace (Z.of_nat (length (macs st) + 1)) with (Z.of_nat (length (macs st)) + 1) by lia.
  - rewrite <- app_assoc. rewrite <- Hl512, Ht, !length_app. done.
  - apply Forall_app. split; [apply Hi|]. by repeat constructor.
Qed.

Lemma refines_del m counter outbuf plen st : cmd_ok (Del m) -> mac_inv st -> refines_cmd (Del m) counter outbuf plen st.
Proof.
  intros Hm Hi. destruct (table_split st Hi) as (rest & Ht & Hn). pose proof (mi_num st Hi) as Hr. pose proof (mi_table st Hi) as Hl512.
  pose proof (mi_used st Hi) as Hu. destruct (Z.eqb_spec m 0) as [->|Hm0].
  { apply refines_same; [done| |done]. cbn [handler_of arg_of]. unfold frcore_mac_statistics_del_mac. by rewrite in_mac_param. }
  assert (forall q, (match seqZ 0 (mac_num st) with
    | [] => Some (FRE_FAIL, 0, outbuf, st)
    | i :: _ => e ← arr_get (global_mac_stat st) i;
      if mac e =? m then
        t ← arr_set (global_mac_stat st) i (MacStat (mac e) 0 0);
        t ← foldM move_up (seqZ i (u16 (mac_num st - 1) - i)) t;
        Some (FRE_SUCCESS, 0, outbuf, set_macs (u16 (mac_num st - 1)) t st)
      else Some (FRE_NOTFOUND, 0, outbuf, st) end) = q ->
    handler_of (Del m) plen (Some (mac_param (arg_of (Del m)) counter)) outbuf st = q) as Hrun.
  { intros q <-. cbn [handler_of arg_of]. unfold frcore_mac_statistics_del_mac. rewrite in_mac_param by done. cbn [mbind option_bind].
    by rewrite (proj2 (Z.eqb_neq m 0)). }
  destruct (macs st) as [|e l] eqn:El.
  { assert (spec_do (Del m) (macs st) = (FRE_FAIL, macs st)) as Hspec by (rewrite El; simpl; by rewrite (proj2 (Z.eqb_neq m 0))).
    apply refines_same; [done| |by rewrite Hspec]. apply Hrun. rewrite Hspec, Hn. done. }
  assert (spec_do (Del m) (macs st) = if mac e =? m then (FRE_SUCCESS, l) else (FRE_NOTFOUND, macs st)) as Hspec
    by (rewrite El; simpl; by rewrite (proj2 (Z.eqb_neq m 0))).
  simpl length in Hn. rewrite seqZ_cons in Hrun by lia. rewrite Ht in Hrun.
  change (arr_get ((e :: l) ++ rest) 0) with (Some e) in Hrun. cbn [mbind option_bind] in Hrun. destruct (mac e =? m).
  - pose proof (arr_set_app_here [] (l ++ rest) e (MacStat (mac e) 0 0)) as Hs. simpl in Hs. simpl app in Hrun.
    change (Z.of_nat 0) with 0 in Hs. rewrite Hs in Hrun. cbn [mbind option_bind] in Hrun. rewrite wrapu_id, Z.sub_0_r in Hrun by lia.
    replace (mac_num st - 1) with (Z.of_nat (length l)) in Hrun by lia.
    pose proof (move_up_loop l [] (MacStat (mac e) 0 0) rest) as Hmv. simpl app in Hmv. change (Z.of_nat (length [])) with 0 in Hmv. rewrite Hmv in Hrun. cbn [mbind option_bind] in Hrun.
    apply (refines_end _ _ _ _ st l (default (MacStat (mac e) 0 0) (last l) :: rest)); [done| |by rewrite Hspec|lia| |by apply Forall_cons in Hu as [_ Hu]].
    + rewrite Hspec. by apply Hrun.
    + rewrite <- Hl512, Ht, !length_app. simpl. lia.
  - apply refines_same; [done| |by rewrite Hspec]. rewrite Hspec. by apply Hrun.
Qed.

Lemma refines_del_all counter outbuf plen st : mac_inv st -> refines_cmd DelAll counter outbuf plen st.
Proof.
  intros Hi. destruct (table_split st Hi) as (rest & Ht & Hn). pose proof (mi_table st Hi) as Hl512.
  pose proof (map_loop (fun t i => arr_set t i no_stat) (fun _ => no_stat) (macs st) [] rest ltac:(intros; apply arr_set_app_here)) as H.
  simpl app in H. change (Z.of_nat (length [])) with 0 in H. apply (refines_end _ _ _ _ st [] (((fun _ => no_stat) <$> macs st) ++ rest)); [done| |done|simpl; lia| |done].
  - cbn [handler_of]. unfold frcore_mac_statistics_del_all. by rewrite Ht, Hn, H.
  - simpl. by rewrite <- Hl512, Ht, !length_app, length_fmap.
Qed.

Lemma refines_clear_all counter outbuf plen st : mac_inv st -> refines_cmd ClearAll counter outbuf plen st.
Proof.
  intros Hi. destruct (table_split st Hi) as (rest & Ht & Hn). pose proof (mi_table st Hi) as Hl512.
  assert (forall p e r, clear_one (p ++ e :: r) (Z.of_nat (length p)) = Some (p ++ reset e :: r)) as Hone.
  { intros. unfold clear_one. rewrite arr_get_app_here. cbn [mbind option_bind]. apply arr_set_app_here. }
  pose proof (map_loop clear_one reset (macs st) [] rest Hone) as H. simpl app in H. change (Z.of_nat (length [])) with 0 in H.
  apply (refines_end _ _ _ _ st (reset <$> macs st) rest); [done| |done|rewrite length_fmap; pose proof (mi_num st Hi); lia| |].
  - cbn [handler_of]. unfold frcore_mac_statistics_clear_all_counter. rewrite Ht, Hn, H. cbn [mbind option_bind].
    unfold set_tab. by rewrite length_fmap, Hn.
  - by rewrite <- Hl512, Ht, !length_app, length_fmap.
  - apply Forall_fmap. eapply Forall_impl; [apply Hi|done].
Qed.

Lemma refines_clear m counter outbuf plen st : cmd_ok (Clear m) -> mac_inv st -> refines_cmd (Clear m) counter outbuf plen st.
Proof.
  intros Hm Hi. destruct (table_split st Hi) as (rest & Ht & Hn).
  assert (forall q, (r ← match first_index (fun e => mac e =? m) (macs st) with
      | Some i => match macs st !! i with Some e => Some <$> arr_set (global_mac_stat st) (Z.of_nat i) (MacStat (mac e) 0 0) | None => None end
      | None => Some None end;
    Some (match r with Some t => (FRE_SUCCESS, 0, outbuf, set_tab t st) | None => (FRE_NOTFOUND, 0, outbuf, st) end)) = q ->
    handler_of (Clear m) plen (Some (mac_param (arg_of (Clear m)) counter)) outbuf st = q) as Hrun.
  { intros q <-. cbn [handler_of arg_of]. unfold frcore_mac_statistics_clear_counter, scan_mac. rewrite in_mac_param by done. cbn [mbind option_bind].
    rewrite Hn. pose proof (scan_loop m st (fun i e => arr_set (global_mac_stat st) i (MacStat (mac e) 0 0)) (macs st) [] rest Ht) as H.
    change (Z.of_nat (length [])) with 0 in H. by rewrite H. }
  pose proof (clear_first_index m (macs st)) as Hc. destruct (first_index _ (macs st)) as [i|] eqn:Ef.
  - pose proof Ef as (e & He & _)%first_index_Some. rewrite He in Hc, Hrun. simpl in Hc.
    destruct (clear_first_used _ _ _ Hc (mi_used st Hi)) as [Hu Hle]. pose proof (lookup_lt_Some _ _ _ He) as Hlt.
    apply (refines_end _ _ _ _ st (<[i := reset e]> (macs st)) rest); [done| |by simpl; rewrite Hc| | |done].
    + simpl spec_do. rewrite Hc. apply Hrun. rewrite arr_set_eq by (rewrite Ht, length_app; lia). simpl. rewrite Nat2Z.id, Ht.
      rewrite insert_app_l by done. unfold set_tab. by rewrite length_insert, Hn.
    + rewrite length_insert, <- Hn. apply Hi.
    + rewrite length_app, length_insert, <- length_app, <- Ht. apply Hi.
  - apply refines_same; [done| |by simpl; rewrite Hc]. simpl spec_do. rewrite Hc. by apply Hrun.
Qed.

(** C37: every command that changes the table acts on the list of the entries in use as its
    specification says, keeps the table well formed and answers the specified code. *)
Theorem mac_commands_refine (c : mac_cmd) (plen counter : Z) (outbuf : list Z) (st : mac_state) :
  cmd_ok c -> mac_inv st ->
  exists st', handler_of c plen (Some (mac_param (arg_of c) counter)) outbuf st = Some ((spec_do c (macs st)).1, 0, outbuf, st') /\
    macs st' = (spec_do c (macs st)).2 /\ mac_inv st'.
Proof.
  intros Hc Hi. destruct c; [by apply refines_add|by apply refines_del|by apply refines_del_all|by apply refines_clear|by apply refines_clear_all].
Qed.

Definition two_macs : mac_state := MacState 2 HASH_SIP 1 ([MacStat 5 7 1; MacStat 9 4 4] ++ replicate 510 no_stat) (-1) (-1).
Lemma two_macs_inv : mac_inv two_macs.
Proof. split; [done|simpl; lia|]. unfold macs. simpl. repeat constructor; done. Qed.

Lemma mac_commands_refine_witness :
  cmd_ok (Del 5) /\ mac_inv two_macs /\
  exists st', handler_of (Del 5) 16 (Some (mac_param 5 0)) [] two_macs = Some (FRE_SUCCESS, 0, [], st') /\ macs st' = [MacStat 9 4 4].
Proof.
  assert (cmd_ok (Del 5)) as Hc by (unfold cmd_ok; simpl; lia). pose proof two_macs_inv as Hi. split_and!; [done..|].
  destruct (mac_commands_refine (Del 5) 16 0 [] two_macs Hc Hi) as (st' & H & E & _). exists st'. by split.
Defined.

(** An address behind the first is never deleted. *)
Theorem mac_delete_only_first (m plen counter : Z) (outbuf : list Z) (e : frc_mac_stat) (l : list frc_mac_stat) (st : mac_state) :
  0 < m < 2 ^ 64 -> mac_inv st -> macs st = e :: l -> mac e <> m ->
  handler_of (Del m) plen (Some (mac_param m counter)) outbuf st = Some (FRE_NOTFOUND, 0, outbuf, st).
Proof.
  intros Hm Hi El Hne. destruct (table_split st Hi) as (rest & Ht & Hn). cbn [handler_of]. unfold frcore_mac_statistics_del_mac.
  rewrite in_mac_param by lia. cbn [mbind option_bind]. rewrite (proj2 (Z.eqb_neq m 0)) by lia. rewrite El in *. simpl length in Hn.
  rewrite seqZ_cons by lia. rewrite Ht. change (arr_get ((e :: l) ++ rest) 0) with (Some e). cbn [mbind option_bind].
  by rewrite (proj2 (Z.eqb_neq _ _)).
Qed.

(** ** Packets *)

(** The entry after a packet that carries [m]. *)
Definition counted_on (m : Z) (e : frc_mac_stat) : frc_mac_stat :=
  MacStat (mac e) (u64 (total e + 1)) (if mac e =? m then errors e else u64 (errors e + 1)).

Lemma mac_hash_range sip dip sp dp proto st : 0 < mac_num st ->
  exists h, frcore_mac_statistics_hash sip dip sp dp proto st = Some h /\ (h = 513 \/ 0 <= h < mac_num st).
Proof.
  intros Hn. unfold frcore_mac_statistics_hash, umod. rewrite (proj2 (Z.eqb_neq (mac_num st) 0)) by lia.
  repeat zcase; eexists; (split; [reflexivity|]); try (right; apply Z.mod_pos_bound; lia). by left.
Qed.

(** The hash is defined and names an entry in use, or none; the packet is counted on that
    entry alone. *)
Theorem mac_packet_counted (sip dip sp dp proto m : Z) (st : mac_state) : mac_inv st ->
  exists h, frcore_mac_statistics_hash sip dip sp dp proto st = Some h /\
    ((h = 513 /\ count_packet h m st = Some (FRE_FAIL, st)) \/
     (0 <= h < mac_num st /\ exists e st', macs st !! Z.to_nat h = Some e /\ count_packet h m st = Some (FRE_SUCCESS, st') /\
        macs st' = <[Z.to_nat h := counted_on m e]> (macs st) /\ mac_inv st' /\ mac_num st' = mac_num st /\ hash_mode st' = hash_mode st)).
Proof.
  intros Hi. pose proof (mi_num st Hi) as Hr. destruct (Z.eq_dec (mac_num st) 0) as [E|E].
  { exists 513. unfold frcore_mac_statistics_hash. rewrite E. split; [done|by left]. }
  destruct (mac_hash_range sip dip sp dp proto st ltac:(lia)) as (h & Hh & [-> | Hin]); [exists 513; split; [done|by left]|].
  exists h. split; [done|]. right. split; [done|]. destruct (table_split st Hi) as (rest & Ht & Hn).
  destruct (lookup_lt_is_Some_2 (macs st) (Z.to_nat h) ltac:(lia)) as [e He]. exists e.
  pose proof (Forall_lookup_1 _ _ _ _ (mi_used st Hi) He) as Hne.
  assert (set_tab (<[Z.to_nat h := counted_on m e]> (global_mac_stat st)) st =
    set_macs (Z.of_nat (length (<[Z.to_nat h := counted_on m e]> (macs st)))) (<[Z.to_nat h := counted_on m e]> (macs st) ++ rest) st) as Eset.
  { unfold set_tab. rewrite length_insert, <- Hn, Ht. f_equal. apply insert_app_l. lia. }
  destruct (macs_set (<[Z.to_nat h := counted_on m e]> (macs st)) rest st) as [Em Hi'].
  - rewrite length_insert. lia.
  - rewrite length_app, length_insert, <- length_app, <- Ht. apply Hi.
  - apply Forall_insert; [apply Hi|done].
  - rewrite <- Eset in Em, Hi'. eexists. split_and!; [done| |exact Em|exact Hi'|done..]. unfold count_packet.
    rewrite (proj2 (Z.eqb_neq h _)) by (unfold MAX_MAC_NUM; lia). rewrite (macs_get st h Hi Hin), He. cbn [mbind option_bind].
    rewrite (proj2 (Z.eqb_neq (mac e) 0)) by done. rewrite arr_set_eq by (rewrite (mi_table st Hi); lia). done.
Qed.

(** The fields of a packet the count depends on. *)
Record mac_header : Type := MacHeader { h_sip : Z; h_dip : Z; h_sp : Z; h_dp : Z; h_proto : Z; h_mac : Z }.
Definition hash_of (k : mac_header) : mac_state -> option Z := frcore_mac_statistics_hash (h_sip k) (h_dip k) (h_sp k) (h_dp k) (h_proto k).
Definition count_header (st : mac_state) (k : mac_header) : option mac_state :=
  h ← hash_of k st; '(_, st) ← count_packet h (h_mac k) st; Some st.

(** The packets for entry [i], and those with another address than [m] among them. *)
Definition packets_for (st : mac_state) (i : nat) (ks : list mac_header) : list mac_header :=
  filter (fun k => hash_of k st = Some (Z.of_nat i)) ks.
Definition wrong_for (st : mac_state) (i : nat) (m : Z) (ks : list mac_header) : list mac_header :=
  filter (fun k => h_mac k <> m) (packets_for st i ks).
Definition num {A} (l : list A) : Z := Z.of_nat (length l).

Lemma hash_same k st st' : mac_num st' = mac_num st -> hash_mode st' = hash_mode st -> hash_of k st' = hash_of k st.
Proof. unfold hash_of, frcore_mac_statistics_hash. by intros -> ->. Qed.

Definition entry_after (st : mac_state) (ks : list mac_header) (i : nat) (e : frc_mac_stat) : frc_mac_stat :=
  MacStat (mac e) (u64 (total e + num (packets_for st i ks))) (u64 (errors e + num (wrong_for st i (mac e) ks))).

(** One packet and the entry [i]. *)
Lemma count_header_entry st k : mac_inv st -> Forall (fun e => 0 <= total e < 2 ^ 64 /\ 0 <= errors e < 2 ^ 64) (macs st) ->
  exists st', count_header st k = Some st' /\ mac_inv st' /\ mac_num st' = mac_num st /\ hash_mode st' = hash_mode st /\
    macs st' = imap (entry_after st [k]) (macs st).
Proof.
  intros Hi Hw. assert (forall i e, macs st !! i = Some e -> hash_of k st <> Some (Z.of_nat i) -> entry_after st [k] i e = e) as Hother.
  { intros i e He Hne. destruct (Forall_lookup_1 _ _ _ _ Hw He). unfold entry_after, wrong_for, packets_for, num.
    rewrite filter_cons_False by done. simpl. rewrite !Z.add_0_r, !wrapu_id by done. by destruct e. }
  destruct (mac_packet_counted (h_sip k) (h_dip k) (h_sp k) (h_dp k) (h_proto k) (h_mac k) st Hi)
    as (h & Hh & [[-> Hf] | (Hr & e & st' & He & Hf & Hm & Hi' & Hn & Hmode)]); fold (hash_of k st) in Hh.
  - exists st. unfold count_header. rewrite Hh. cbn [mbind option_bind]. rewrite Hf. split_and!; [done..|]. apply list_eq. intros i.
    rewrite list_lookup_imap. destruct (macs st !! i) as [e|] eqn:He; [|done]. simpl. rewrite (Hother i e He); [done|].
    rewrite Hh. pose proof (lookup_lt_Some _ _ _ He). pose proof (length_macs st Hi). pose proof (mi_num st Hi). intros [= E]. lia.
  - exists st'. unfold count_header. rewrite Hh. cbn [mbind option_bind]. rewrite Hf. split_and!; [done..|]. rewrite Hm. apply list_eq. intros i.
    rewrite list_lookup_imap. destruct (decide (i = Z.to_nat h)) as [->|Hne].
    + rewrite list_lookup_insert_eq by (by eapply lookup_lt_Some). rewrite He. simpl. f_equal.
      assert (hash_of k st = Some (Z.of_nat (Z.to_nat h))) as Hk by (rewrite Hh; f_equal; lia).
      destruct (Forall_lookup_1 _ _ _ _ Hw He). unfold entry_after, counted_on, wrong_for, packets_for, num.
      rewrite filter_cons_True by done. simpl. f_equal. destruct (Z.eqb_spec (mac e) (h_mac k)) as [Em|Em].
      * rewrite filter_cons_False by (by intros ?; apply H1). simpl. by rewrite Z.add_0_r, wrapu_id.
      * rewrite filter_cons_True by done. done.
    + rewrite list_lookup_insert_ne by done. destruct (macs st !! i) as [e'|] eqn:He'; [|done]. simpl. f_equal. symmetry. apply Hother; [done|].
      rewrite Hh. intros [= E]. lia.
Qed.

Lemma imap_imap_entry st st1 k ks : hash_mode st1 = hash_mode st -> mac_num st1 = mac_num st ->
  imap (entry_after st1 ks) (imap (entry_after st [k]) (macs st)) = imap (entry_after st (k :: ks)) (macs st).
Proof.
  intros Hm Hn. apply list_eq. intros i. rewrite !list_lookup_imap. destruct (macs st !! i) as [e|]; [|done]. simpl. f_equal.
  assert (packets_for st1 i ks = packets_for st i ks) as E.
  { unfold packets_for. apply list_filter_iff. intros k'. by rewrite (hash_same k' st st1). }
  unfold entry_after, wrong_for. simpl. rewrite E.
  assert (packets_for st i (k :: ks) = packets_for st i [k] ++ packets_for st i ks) as -> by (unfold packets_for; by rewrite <- filter_app).
  rewrite filter_app. unfold num. rewrite !length_app, !Nat2Z.inj_add, !wrapu_add_l, !Z.add_assoc. done.
Qed.

Lemma entry_after_range st ks i e : 0 <= total (entry_after st ks i e) < 2 ^ 64 /\ 0 <= errors (entry_after st ks i e) < 2 ^ 64.
Proof. split; apply wrapu_range; lia. Qed.

(** over any sequence of packets the counters of an entry grow by the number of the
    packets its hash gets and by the number of those that carry another address, modulo
    their width; the addresses stay. *)
Theorem mac_run_counts (ks : list mac_header) (st : mac_state) :
  mac_inv st -> Forall (fun e => 0 <= total e < 2 ^ 64 /\ 0 <= errors e < 2 ^ 64) (macs st) ->
  exists st', foldM count_header ks st = Some st' /\ mac_inv st' /\ macs st' = imap (entry_after st ks) (macs st).
Proof.
  revert st. induction ks as [|k ks IH]; intros st Hi Hw.
  - exists st. split_and!; [done..|]. apply list_eq. intros i. rewrite list_lookup_imap.
    destruct (macs st !! i) as [e|] eqn:He; [|done]. simpl. f_equal. destruct (Forall_lookup_1 _ _ _ _ Hw He).
    unfold entry_after, num, wrong_for, packets_for. simpl. rewrite !Z.add_0_r, !wrapu_id by done. by destruct e.
  - destruct (count_header_entry st k Hi Hw) as (st1 & H1 & Hi1 & Hn & Hm & E1). cbn [foldM]. rewrite H1. cbn [mbind option_bind].
    destruct (IH st1 Hi1) as (st2 & H2 & Hi2 & E2).
    + rewrite E1. apply Forall_lookup_2. intros i e He. rewrite list_lookup_imap in He. apply fmap_Some in He as (e0 & _ & ->). apply entry_after_range.
    + exists st2. split_and!; [done..|]. rewrite E2, E1. by apply imap_imap_entry.
Qed.

Definition two_packets : list mac_header := [MacHeader 4 9 1 2 6 5; MacHeader 5 9 1 2 6 5; MacHeader 7 9 1 2 17 9].
Lemma mac_run_counts_witness :
  mac_inv two_macs /\ exists st', foldM count_header two_packets two_macs = Some st' /\ macs st' = [MacStat 5 8 1; MacStat 9 6 5].
Proof.
  split; [apply two_macs_inv|]. destruct (mac_run_counts two_packets two_macs two_macs_inv) as (st' & H & _ & E).
  - unfold macs. simpl. repeat constructor; simpl; lia.
  - exists st'. split; [done|]. rewrite E. vm_compute. reflexivity.
Defined.

(** ** The checksum *)

(** The one's complement sum of the ten words of a header without options is all ones. *)
Fixpoint word_sum (n : nat) (p : list Z) (o : Z) : option Z :=
  match n with O => Some 0 | S n => w ← card_get p o 2; r ← word_sum n p (o + 2); Some (w + r) end.
Definition checksum_ok (p : list Z) (o : Z) : bool :=
  match word_sum 10 p o with Some s => s `mod` 65535 =? 0 | None => false end.

Definition ipv4_packet : list Z :=
  replicate 28 0 ++ [8; 0] ++ [0x45; 0; 0; 28; 0; 1; 0; 0; 64; 17; 0x66; 0xce; 10; 0; 0; 1; 10; 0; 0; 2] ++ [0; 53; 0; 53; 0; 8; 0; 0].

(** A packet whose header has a right checksum leaves with a wrong one, although neither
    field of the header was to be changed. *)
Theorem mac_checksum_spoiled :
  checksum_ok ipv4_packet 30 = true /\
  exists p, frcore_mac_statistics_counter_inc ipv4_packet two_macs = Some (FRE_SUCCESS, p, set_tab ([MacStat 5 7 1; MacStat 9 5 5] ++ replicate 510 no_stat) two_macs) /\
    checksum_ok p 30 = false.
Proof. split; [vm_compute; reflexivity|]. eexists. split; vm_compute; reflexivity. Qed.
