(* ===== verification/Rfc.v ===== *)
(** * Recursive flow classification: src/code/frcore/frcore_rfc.c

    The classifier of the ACL component.  Every dimension of the rule set
    (two halves of each address, two ports, the protocol) is a number line cut
    into equivalence classes; a class is the bitmap of the rules that contain
    its points.  Phase 0 labels every point of every line with its class;
    phases 1 to 3 cross two tables at a time, intersecting the bitmaps, until
    one table gives the rule of highest priority.  The structures are those of
    frcore_rfc.h; a table cell is written before it is read, and an unwritten
    one is absent from the [cells] map. *)

From S2P Require Import Prelude.
#[local] Open Scope Z_scope.

(** ** Constants: frcore_rfc.h and frcore_config.h *)
Definition LENGTH : Z := 32.
Definition SIZE : Z := 64.
Definition MPP_MAX_FILTERS : Z := 2048.
Definition ACL_ENABLE : Z := 2.
Definition ACL_DISABLE : Z := 1.
Definition ACL_UNSET : Z := 0.
Definition ACL_ERROR : Z := -1.
Definition ACL_OK : Z := 1.
Definition ACL_SYNC : Z := 1.
Definition ACL_NOSYNC : Z := 0.
Definition ACL_MAX_CELL : Z := 1000000.

(** ** Data *)

(** [dim[7][2]] is the list of the seven [(from, to)] ranges. *)
Record FILTER : Type := Filter {
  cost : Z; sync : Z; state : Z; op : Z; action : Z; rule_type : Z; rule_source : Z;
  dim : list (Z * Z) }.

Record FILTSET : Type := Filtset {
  numFilters : Z;
  filtArr : list FILTER;
  pkt_num : list Z;
  pkt_bytes : list Z }.

Record CES : Type := Ces { eqID : Z; cbm : list Z }.
Record LISTEqS : Type := ListEqS { nCES : Z; ces : list CES }.
Record Pnode : Type := PNode { cell : cells; listEqs : LISTEqS }.
Record Pnoder : Type := PNoder { ncells : Z; rcell : cells; rlistEqs : LISTEqS }.

(** ** Bitmaps *)

Definition SetBmpBit (tbmp : list Z) (i : Z) (value : bool) : option (list Z) :=
  let k := u32 (SIZE - 1 - i / LENGTH) in
  let pos := i `mod` LENGTH in
  let tempInt := u32 (Z.shiftl 1 pos) in
  w ← arr_get tbmp k;
  if value then arr_set tbmp k (Z.lor w tempInt)
  else arr_set tbmp k (Z.land w (u32 (Z.lnot tempInt))).

Definition InitListEqs (l : LISTEqS) : LISTEqS := ListEqS 0 (ces l).

(** The [SIZE] words are compared in order. *)
Definition CompareBmp (abmp bbmp : list Z) : bool :=
  forallb (uncurry Z.eqb) (zip abmp bbmp).

Definition SearchBmp (l : LISTEqS) (tbmp : list Z) : Z :=
  match first_index (fun c => CompareBmp (cbm c) tbmp) (take (Z.to_nat (nCES l)) (ces l)) with
  | Some i => Z.of_nat i
  | None => -1
  end.

Definition AddListEqsCES (l : LISTEqS) (tbmp : list Z) : option (Z * LISTEqS) :=
  if nCES l =? 0 then
    c ← arr_set (ces l) 0 (Ces 0 tbmp);
    Some (0, ListEqS 1 c)
  else
    c ← arr_set (ces l) (nCES l) (Ces (nCES l) tbmp);
    let n := u16 (nCES l + 1) in
    Some (n - 1, ListEqS n c).

(** Words from the last one down, bits from the lowest one up. *)
Definition GetRuleCost (tbmp : list Z) : Z :=
  default (MPP_MAX_FILTERS - 1)
    (for_ret (fun k =>
      for_ret (fun pos =>
        if Z.land (nthZ tbmp k) (Z.shiftl 1 pos) =? 0 then None
        else Some (LENGTH * (SIZE - 1 - k) + pos)) (seqZ 0 LENGTH))
    (reverse (seqZ 0 SIZE))).

Definition set_state (f : FILTER) (st : Z) : FILTER :=
  Filter (cost f) (sync f) st (op f) (action f) (rule_type f) (rule_source f) (dim f).

Definition set_sync (f : FILTER) (sy : Z) : FILTER :=
  Filter (cost f) sy (state f) (op f) (action f) (rule_type f) (rule_source f) (dim f).

Definition set_filtArr (fs : FILTSET) (a : list FILTER) : FILTSET :=
  Filtset (numFilters fs) a (pkt_num fs) (pkt_bytes fs).

Definition set_filt_sync (fs : FILTSET) : option FILTSET :=
  a ← foldM (fun a i =>
      f ← arr_get a i;
      arr_set a i (set_sync f (if state f =? ACL_ENABLE then ACL_SYNC else ACL_NOSYNC)))
    (seqZ 0 (numFilters fs)) (filtArr fs);
  Some (set_filtArr fs a).

(** The shared step of all phases: the id of a bitmap, added when new. *)
Definition search_or_add (l : LISTEqS) (tbmp : list Z) : option (Z * LISTEqS) :=
  let tempeqID := SearchBmp l tbmp in
  if tempeqID =? -1 then AddListEqsCES l tbmp else Some (tempeqID, l).

(** ** Phase 0 *)

Definition NLINE : Z := 65536.

(** See if filter [i] starts or ends at [n]. *)
Definition phase0_filter (fs : FILTSET) (com n : Z) (bmp : list Z) (i : Z) : option (list Z) :=
  f ← arr_get (filtArr fs) i;
  if negb (state f =? ACL_ENABLE) then Some bmp else
  '(tempstart, tempend) ← arr_get (dim f) com;
  bmp ← (if tempstart =? n then SetBmpBit bmp i true else Some bmp);
  if u32 (tempend + 1) =? n then SetBmpBit bmp i false else Some bmp.

Definition phase0_point (fs : FILTSET) (com : Z) (s : list Z * Pnode) (n : Z)
    : option (list Z * Pnode) :=
  let '(bmp, node) := s in
  bmp ← foldM (phase0_filter fs com n) (seqZ 0 (numFilters fs)) bmp;
  '(tempeqID, l) ← search_or_add (listEqs node) bmp;
  c ← cell_set NLINE (cell node) n (u16 tempeqID);
  Some (bmp, PNode c l).

Definition phase0_node (fs : FILTSET) (com : Z) (node : Pnode) : option Pnode :=
  '(_, node) ← foldM (phase0_point fs com) (seqZ 0 NLINE)
     (replicate (Z.to_nat SIZE) 0, PNode (cell node) (InitListEqs (listEqs node)));
  Some node.

Definition SetPhase0_Cell (nodes : list Pnode) (fs : FILTSET)
    : option (Z * list Pnode * FILTSET) :=
  nodes ← foldM (fun nodes com =>
      node ← arr_get nodes com;
      node ← phase0_node fs com node;
      arr_set nodes com node) (seqZ 0 7) nodes;
  fs ← set_filt_sync fs;
  Some (ACL_OK, nodes, fs).

(** ** Phases 1 and 2: crossing two class lists *)

Definition intersect (a b : list Z) : list Z := zip_with Z.land a b.

(** The double loop over [tnode1] and [tnode2]; [indx] is carried along. *)
Definition cross_step (b1 b2 : list Z) (s : Z * Pnoder) : option (Z * Pnoder) :=
  let '(indx, node) := s in
  '(tempeqID, l) ← search_or_add (rlistEqs node) (intersect b1 b2);
  c ← cell_set ACL_MAX_CELL (rcell node) indx (u16 tempeqID);
  Some (u32 (indx + 1), PNoder (ncells node) c l).

Definition pair_loop {S} (body : list Z -> list Z -> S -> option S) (l1 l2 : LISTEqS) (s : S)
    : option S :=
  foldM (fun s i =>
      c1 ← arr_get (ces l1) i;
      foldM (fun s j => c2 ← arr_get (ces l2) j; body (cbm c1) (cbm c2) s)
        (seqZ 0 (nCES l2)) s)
    (seqZ 0 (nCES l1)) s.

Definition cross_loop : LISTEqS -> LISTEqS -> Z * Pnoder -> option (Z * Pnoder) :=
  pair_loop cross_step.

(** One chunk of a phase: reset the list, check the table size, fill it. *)
Definition cross_node (l1 l2 : LISTEqS) (node : Pnoder) : option (Z * Pnoder) :=
  let node := PNoder (ncells node) (rcell node) (InitListEqs (rlistEqs node)) in
  let cellNum := u32 (nCES l1 * nCES l2) in
  if ACL_MAX_CELL <? cellNum then Some (ACL_ERROR, node) else
  '(_, node) ← cross_loop l1 l2 (0, PNoder cellNum (rcell node) (rlistEqs node));
  Some (ACL_OK, node).

(** A loop over chunks that returns at the first error. *)
Fixpoint run_chunks (chunk : Z -> list Pnoder -> option (Z * list Pnoder)) (l : list Z)
    (nodes : list Pnoder) : option (Z * list Pnoder) :=
  match l with
  | [] => Some (ACL_OK, nodes)
  | com :: l =>
    '(ret, nodes) ← chunk com nodes;
    if ret =? ACL_ERROR then Some (ACL_ERROR, nodes) else run_chunks chunk l nodes
  end.

Definition phase1_chunk (phase0 : list Pnode) (com : Z) (nodes : list Pnoder)
    : option (Z * list Pnoder) :=
  tnode1 ← arr_get phase0 (2 * com);
  tnode2 ← arr_get phase0 (2 * com + 1);
  node ← arr_get nodes com;
  '(ret, node) ← cross_node (listEqs tnode1) (listEqs tnode2) node;
  nodes ← arr_set nodes com node;
  Some (ret, nodes).

Definition SetPhase1_Cell (phase0 : list Pnode) (phase1 : list Pnoder)
    : option (Z * list Pnoder) :=
  run_chunks (phase1_chunk phase0) (seqZ 0 3) phase1.

Definition phase2_chunk (phase0 : list Pnode) (phase1 : list Pnoder) (com : Z)
    (nodes : list Pnoder) : option (Z * list Pnoder) :=
  l1 ← (if com =? 0 then rlistEqs <$> arr_get phase1 0 else rlistEqs <$> arr_get phase1 2);
  l2 ← (if com =? 0 then rlistEqs <$> arr_get phase1 1 else listEqs <$> arr_get phase0 6);
  node ← arr_get nodes com;
  '(ret, node) ← cross_node l1 l2 node;
  nodes ← arr_set nodes com node;
  Some (ret, nodes).

Definition SetPhase2_Cell (phase0 : list Pnode) (phase1 phase2 : list Pnoder)
    : option (Z * list Pnoder) :=
  run_chunks (phase2_chunk phase0 phase1) (seqZ 0 2) phase2.

(** ** Phase 3: the rule of highest priority *)

(** [acl_get_tagid_by_ruleid] of frcore_acl.c *)
Definition acl_get_tagid_by_ruleid (fs : FILTSET) (ruleid : Z) : option Z :=
  f ← arr_get (filtArr fs) (u16 ruleid);
  Some (u16 (cost f)).

Definition phase3_step (fs : FILTSET) (b1 b2 : list Z) (s : Z * cells) : option (Z * cells) :=
  let '(indx, c) := s in
  tag ← acl_get_tagid_by_ruleid fs (GetRuleCost (intersect b1 b2));
  c ← cell_set ACL_MAX_CELL c indx (u16 tag);
  Some (u32 (indx + 1), c).

Definition SetPhase3_Cell (fs : FILTSET) (phase2 : list Pnoder) (node : Pnoder)
    : option (Z * Pnoder) :=
  tnode1 ← arr_get phase2 0;
  tnode2 ← arr_get phase2 1;
  let l := InitListEqs (rlistEqs node) in
  let l1 := rlistEqs tnode1 in
  let l2 := rlistEqs tnode2 in
  let cellNum := u32 (nCES l1 * nCES l2) in
  if ACL_MAX_CELL <? cellNum then Some (ACL_ERROR, PNoder (ncells node) (rcell node) l) else
  '(_, c) ← pair_loop (phase3_step fs) l1 l2 (0, rcell node);
  Some (ACL_OK, PNoder cellNum c l).

(** ** The missing bound *)

(** nothing bounds the number of classes: adding to a class list that already
    holds [MPP_MAX_FILTERS] of them writes past the end of its array. *)
Theorem AddListEqsCES_overflow l b :
  Z.of_nat (length (ces l)) = MPP_MAX_FILTERS -> nCES l = MPP_MAX_FILTERS ->
  AddListEqsCES l b = None.
Proof.
  intros Hc Hn. unfold AddListEqsCES. rewrite Hn. unfold MPP_MAX_FILTERS in *. simpl.
  unfold arr_set. by rewrite Hc.
Qed.

Lemma AddListEqsCES_overflow_witness :
  let l := ListEqS MPP_MAX_FILTERS (replicate (Z.to_nat MPP_MAX_FILTERS) (Ces 0 [])) in
  nCES l = MPP_MAX_FILTERS /\ AddListEqsCES l [] = None.
Proof.
  split; [reflexivity|]. apply AddListEqsCES_overflow; [|reflexivity].
  cbn [ces]. rewrite length_replicate. reflexivity.
Defined.
