(* ===== verification/RfcBitmap.v ===== *)
(** * Bitmaps and class lists of the classifier

    What the bitmap operations of [Rfc] mean: a bitmap is a set of rule
    numbers, [SetBmpBit] adds or removes one, [intersect] is intersection,
    [GetRuleCost] is the least element, and a [LISTEqS] is a duplicate-free
    list of bitmaps that [search_or_add] extends. *)

From S2P Require Import Prelude Rfc.
#[local] Open Scope Z_scope.

(** ** Bits of a bitmap *)

Definition NBITS : Z := SIZE * LENGTH.

(** Rule [i] is in the bitmap. *)
Definition bit (b : list Z) (i : Z) : bool :=
  Z.testbit (nthZ b (SIZE - 1 - i / LENGTH)) (i `mod` LENGTH).

Record bmp_ok (b : list Z) : Prop := BmpOk {
  bmp_len : length b = 64%nat;
  bmp_word : forall k, 0 <= nthZ b k < 2 ^ 32 }.

Lemma word_index i : 0 <= i < NBITS -> 0 <= SIZE - 1 - i / LENGTH < 64 /\ 0 <= i `mod` LENGTH < 32.
Proof.
  unfold NBITS, SIZE, LENGTH. intros.
  pose proof (Z.mod_pos_bound i 32 ltac:(lia)).
  assert (0 <= i / 32 < 64) by (split; [apply Z.div_pos; lia|apply Z.div_lt_upper_bound; lia]).
  lia.
Qed.

Lemma word_index_inj i j :
  i / LENGTH = j / LENGTH -> i `mod` LENGTH = j `mod` LENGTH -> i = j.
Proof.
  unfold LENGTH. intros. rewrite (Z.div_mod i 32), (Z.div_mod j 32) by lia. lia.
Qed.

Lemma testbit_high w n : 0 <= w < 2 ^ 32 -> 32 <= n -> Z.testbit w n = false.
Proof.
  intros Hw Hn. destruct (decide (w = 0)) as [-> |]; [apply Z.testbit_0_l|].
  apply Z.bits_above_log2; [lia|]. apply Z.lt_le_trans with 32; [|done].
  apply Z.log2_lt_pow2; lia.
Qed.

Lemma word_bound w : 0 <= w -> (forall n, 32 <= n -> Z.testbit w n = false) -> w < 2 ^ 32.
Proof.
  intros H0 H. destruct (decide (w = 0)) as [-> |]; [lia|].
  apply Z.log2_lt_pow2; [lia|]. apply Z.nle_gt. intros Hle.
  pose proof (Z.bit_log2 w ltac:(lia)) as Hb. by rewrite H in Hb.
Qed.

Lemma u32_bit pos : 0 <= pos < 32 -> u32 (Z.shiftl 1 pos) = 2 ^ pos.
Proof.
  intros. rewrite Z.shiftl_1_l, wrapu_id; [done|].
  split; [lia|]. apply Z.pow_lt_mono_r; lia.
Qed.

Lemma u32_lnot_testbit x n : 0 <= n < 32 -> Z.testbit (u32 (Z.lnot x)) n = negb (Z.testbit x n).
Proof. intros. unfold wrapu. rewrite Z.mod_pow2_bits_low, Z.lnot_spec by lia. done. Qed.

Lemma land_range a b : 0 <= a < 2 ^ 32 -> 0 <= b < 2 ^ 32 -> 0 <= Z.land a b < 2 ^ 32.
Proof.
  intros Ha Hb. assert (0 <= Z.land a b) by (apply Z.land_nonneg; lia). split; [done|].
  apply word_bound; [done|]. intros. by rewrite Z.land_spec, testbit_high.
Qed.

Lemma lor_range a b : 0 <= a < 2 ^ 32 -> 0 <= b < 2 ^ 32 -> 0 <= Z.lor a b < 2 ^ 32.
Proof.
  intros Ha Hb. assert (0 <= Z.lor a b) by (apply Z.lor_nonneg; lia). split; [done|].
  apply word_bound; [done|]. intros. by rewrite Z.lor_spec, !testbit_high.
Qed.

Lemma nthZ_overflow l i : Z.of_nat (length l) <= i -> nthZ l i = 0.
Proof.
  intros. unfold nthZ, arr_get. case_match; [|done].
  rewrite lookup_ge_None_2 by lia. done.
Qed.

Lemma nthZ_neg l i : i < 0 -> nthZ l i = 0.
Proof. intros. unfold nthZ, arr_get. by rewrite (proj2 (Z.leb_gt _ _)). Qed.

(** ** [SetBmpBit] *)

Lemma SetBmpBit_spec b i v :
  bmp_ok b -> 0 <= i < NBITS ->
  exists b', SetBmpBit b i v = Some b' /\ bmp_ok b' /\
    forall j, 0 <= j < NBITS -> bit b' j = if j =? i then v else bit b j.
Proof.
  intros [Hl Hw] Hi. destruct (word_index i Hi) as [Hk Hp].
  unfold SetBmpBit. rewrite (wrapu_id 32 (SIZE - 1 - i / LENGTH)) by (simpl; lia).
  rewrite u32_bit by done.
  set (k := SIZE - 1 - i / LENGTH) in *. set (p := i `mod` LENGTH) in *.
  rewrite arr_get_nthZ by lia. simpl.
  set (w' := if v then Z.lor (nthZ b k) (2 ^ p)
             else Z.land (nthZ b k) (u32 (Z.lnot (2 ^ p)))).
  assert (0 <= w' < 2 ^ 32) as Hw'.
  { assert (0 <= 2 ^ p < 2 ^ 32) by (split; [lia|apply Z.pow_lt_mono_r; lia]).
    subst w'. destruct v; [by apply lor_range|].
    apply land_range; [done|apply wrapu_range; lia]. }
  assert (forall n, 0 <= n < 32 ->
    Z.testbit w' n = if n =? p then v else Z.testbit (nthZ b k) n) as Hbits.
  { intros n Hn. subst w'. destruct v.
    - rewrite Z.lor_spec, Z.pow2_bits_eqb, Z.eqb_sym by lia.
      destruct (n =? p); [apply orb_true_r|apply orb_false_r].
    - rewrite Z.land_spec, u32_lnot_testbit, Z.pow2_bits_eqb, Z.eqb_sym by lia.
      destruct (n =? p); [apply andb_false_r|apply andb_true_r]. }
  exists (<[Z.to_nat k := w']> b). split_and!.
  - subst w'. destruct v; rewrite arr_set_eq by lia; done.
  - split; [by rewrite length_insert|]. intros k'. rewrite nthZ_insert by lia.
    by destruct (k' =? k).
  - intros j Hj. destruct (word_index j Hj) as [Hk' Hp'].
    unfold bit. rewrite nthZ_insert by lia.
    destruct (Z.eqb_spec (SIZE - 1 - j / LENGTH) k) as [E|E].
    + rewrite Hbits by done.
      destruct (Z.eqb_spec j i) as [-> | Hne]; [subst p; by rewrite Z.eqb_refl|].
      destruct (Z.eqb_spec (j `mod` LENGTH) p) as [E'|]; [|by rewrite E].
      exfalso. apply Hne. apply word_index_inj; [subst k; lia|done].
    + destruct (Z.eqb_spec j i); [by subst|done].
Qed.

(** ** Intersection, equality *)

Lemma lookup_nthZ l n : (n < length l)%nat -> l !! n = Some (nthZ l (Z.of_nat n)).
Proof. intros. rewrite <- arr_get_nat. apply arr_get_nthZ. lia. Qed.

Lemma nthZ_ext l1 l2 :
  length l1 = length l2 -> (forall i, 0 <= i < Z.of_nat (length l1) -> nthZ l1 i = nthZ l2 i) ->
  l1 = l2.
Proof.
  intros Hl H. apply list_eq_same_length with (length l1); [done..|].
  intros n x y Hn Hx Hy. rewrite lookup_nthZ in Hx, Hy by lia.
  rewrite H in Hx by lia. congruence.
Qed.

Lemma intersect_nthZ a b k :
  bmp_ok a -> bmp_ok b -> nthZ (intersect a b) k = Z.land (nthZ a k) (nthZ b k).
Proof.
  intros [Ha _] [Hb _]. unfold intersect.
  assert (length (zip_with Z.land a b) = 64%nat) as Hl by (rewrite length_zip_with; lia).
  destruct (Z.leb_spec 0 k); [|by rewrite !nthZ_neg].
  destruct (Z.ltb_spec k 64); [|by rewrite !nthZ_overflow by lia].
  pose proof (arr_get_nthZ (zip_with Z.land a b) k ltac:(lia)) as E.
  apply arr_get_Some in E as [_ E]. rewrite lookup_zip_with in E.
  rewrite !lookup_nthZ, Z2Nat.id in E by lia. simpl in E. congruence.
Qed.

Lemma intersect_ok a b : bmp_ok a -> bmp_ok b -> bmp_ok (intersect a b).
Proof.
  intros Ha Hb. split.
  - unfold intersect. rewrite length_zip_with. destruct Ha, Hb. lia.
  - intros k. rewrite intersect_nthZ by done. destruct Ha, Hb. by apply land_range.
Qed.

Lemma intersect_bit a b i :
  bmp_ok a -> bmp_ok b -> bit (intersect a b) i = bit a i && bit b i.
Proof. intros. unfold bit. by rewrite intersect_nthZ, Z.land_spec. Qed.

(** A bitmap is determined by its bits. *)
Lemma bmp_ext a b :
  bmp_ok a -> bmp_ok b -> (forall i, 0 <= i < NBITS -> bit a i = bit b i) -> a = b.
Proof.
  intros [Ha Wa] [Hb Wb] H. apply nthZ_ext; [lia|]. intros k Hk.
  apply Z.bits_inj'. intros n Hn. destruct (Z.ltb_spec n 32); [|by rewrite !testbit_high].
  assert (0 <= 32 * (63 - k) + n < NBITS) as Hi by (unfold NBITS, SIZE, LENGTH; lia).
  specialize (H _ Hi). unfold bit, SIZE, LENGTH in H.
  rewrite (Z.mul_comm 32), Z.div_add_l, (Z.add_comm _ n), Z.mod_add in H by lia.
  rewrite Z.div_small, Z.mod_small in H by lia.
  by replace (64 - 1 - (63 - k + 0)) with k in H by lia.
Qed.

Lemma CompareBmp_true a b : bmp_ok a -> bmp_ok b -> CompareBmp a b = true <-> a = b.
Proof.
  intros [Ha _] [Hb _]. unfold CompareBmp. rewrite forallb_forall. split.
  - intros H. apply nthZ_ext; [lia|]. intros k Hk.
    assert ((nthZ a k, nthZ b k) ∈ zip a b) as Hin.
    { apply list_elem_of_lookup. exists (Z.to_nat k). rewrite lookup_zip_with.
      rewrite !lookup_nthZ, Z2Nat.id by lia. done. }
    apply list_elem_of_In, H in Hin. by apply Z.eqb_eq.
  - intros -> [x y] Hin%list_elem_of_In%list_elem_of_lookup.
    destruct Hin as (n & Hn). rewrite lookup_zip_with in Hn.
    destruct (b !! n) eqn:E; simpl in Hn; [|done]. simplify_eq. apply Z.eqb_refl.
Qed.

Definition bmp_empty : list Z := replicate (Z.to_nat SIZE) 0.

Lemma bmp_empty_nthZ k : nthZ bmp_empty k = 0.
Proof.
  unfold nthZ, arr_get. case_match; [|done].
  destruct (bmp_empty !! Z.to_nat k) eqn:E; [|done].
  by apply lookup_replicate in E as [-> _].
Qed.

Lemma bmp_empty_ok : bmp_ok bmp_empty.
Proof. split; [done|]. intros k. rewrite bmp_empty_nthZ. lia. Qed.

Lemma bmp_empty_bit i : bit bmp_empty i = false.
Proof. unfold bit. by rewrite bmp_empty_nthZ, Z.testbit_0_l. Qed.

(** ** [GetRuleCost]: the least rule of a bitmap *)

Lemma word_test w pos : 0 <= pos ->
  (Z.land w (Z.shiftl 1 pos) =? 0) = negb (Z.testbit w pos).
Proof.
  intros. rewrite Z.shiftl_1_l. destruct (Z.testbit w pos) eqn:E; simpl.
  - apply Z.eqb_neq. intros H0. apply (f_equal (fun x => Z.testbit x pos)) in H0.
    by rewrite Z.land_spec, Z.pow2_bits_true, E, Z.testbit_0_l in H0 by lia.
  - apply Z.eqb_eq, Z.bits_inj'. intros n Hn. rewrite Z.land_spec, Z.pow2_bits_eqb by lia.
    rewrite Z.testbit_0_l. destruct (Z.eqb_spec pos n); [subst; by rewrite E|apply andb_false_r].
Qed.

Definition cost_word (b : list Z) (k : Z) : option Z :=
  for_ret (fun pos =>
    if Z.land (nthZ b k) (Z.shiftl 1 pos) =? 0 then None
    else Some (LENGTH * (SIZE - 1 - k) + pos)) (seqZ 0 LENGTH).

Lemma bit_at b k pos : 0 <= pos < LENGTH ->
  bit b (LENGTH * (SIZE - 1 - k) + pos) = Z.testbit (nthZ b k) pos.
Proof.
  unfold bit, LENGTH, SIZE. intros. rewrite (Z.mul_comm 32).
  rewrite Z.div_add_l, (Z.add_comm _ pos), Z.mod_add, Z.div_small, Z.mod_small by lia.
  do 2 f_equal. lia.
Qed.

Lemma cost_word_None b k :
  cost_word b k = None -> forall pos, 0 <= pos < LENGTH ->
  bit b (LENGTH * (SIZE - 1 - k) + pos) = false.
Proof.
  unfold cost_word. rewrite for_ret_None. intros H pos Hpos.
  specialize (H pos ltac:(apply elem_of_seqZ; lia)).
  rewrite word_test in H by lia. rewrite bit_at by done.
  by destruct (Z.testbit _ pos).
Qed.

Lemma cost_word_Some b k r :
  cost_word b k = Some r -> bit b r = true /\
  exists pos, r = LENGTH * (SIZE - 1 - k) + pos /\ 0 <= pos < LENGTH /\
  forall p, 0 <= p < pos -> bit b (LENGTH * (SIZE - 1 - k) + p) = false.
Proof.
  unfold cost_word. intros (pre & pos & post & Hl & Hf & Hpre)%for_ret_Some.
  apply seqZ_split in Hl as (-> & _ & Hr). rewrite word_test in Hf by lia.
  destruct (Z.testbit _ pos) eqn:E; simpl in Hf; [|done]. simplify_eq.
  split; [by rewrite bit_at|]. exists pos. split_and!; [done|lia..|].
  intros p Hp. rewrite for_ret_None in Hpre. specialize (Hpre p ltac:(apply elem_of_seqZ; lia)).
  rewrite word_test in Hpre by lia. rewrite bit_at by lia. by destruct (Z.testbit _ p).
Qed.

Lemma reverse_seqZ_split n pre k post :
  reverse (seqZ 0 n) = pre ++ k :: post ->
  0 <= k < n /\ forall k', k < k' < n -> k' ∈ pre.
Proof.
  intros H. apply (f_equal reverse) in H.
  rewrite reverse_involutive, reverse_app, reverse_cons, <- app_assoc in H. simpl in H.
  pose proof (seqZ_split _ _ _ _ H) as (Hpre & _ & Hk). split; [done|].
  intros k' Hk'. assert (k' ∈ seqZ 0 n) as Hin by (apply elem_of_seqZ; lia).
  rewrite H, Hpre in Hin. apply elem_of_app in Hin as [Hin|Hin].
  - apply elem_of_seqZ in Hin. lia.
  - apply elem_of_cons in Hin as [|Hin]; [lia|]. by apply elem_of_reverse.
Qed.

Theorem GetRuleCost_spec b :
  0 <= GetRuleCost b < NBITS /\
  ((bit b (GetRuleCost b) = true /\ forall j, 0 <= j < GetRuleCost b -> bit b j = false) \/
   (GetRuleCost b = MPP_MAX_FILTERS - 1 /\ forall j, 0 <= j < NBITS -> bit b j = false)).
Proof.
  unfold GetRuleCost. change (for_ret _ (reverse _)) with
    (for_ret (cost_word b) (reverse (seqZ 0 SIZE))).
  assert (forall j, 0 <= j < NBITS -> exists k pos, 0 <= k < SIZE /\ 0 <= pos < LENGTH /\
    j = LENGTH * (SIZE - 1 - k) + pos) as Hdec.
  { intros j Hj. destruct (word_index j Hj). exists (SIZE - 1 - j / LENGTH), (j `mod` LENGTH).
    unfold SIZE, LENGTH in *. split_and!; try lia.
    rewrite (Z.div_mod j 32) at 1 by lia. lia. }
  destruct (for_ret _ _) as [r|] eqn:E; simpl.
  - apply for_ret_Some in E as (pre & k & post & Hl & Hf & Hpre).
    apply reverse_seqZ_split in Hl as [Hk Hgt].
    apply cost_word_Some in Hf as (Hb & pos & -> & Hpos & Hlt).
    split; [unfold NBITS, SIZE, LENGTH in *; lia|]. left. split; [done|].
    intros j Hj. destruct (Hdec j) as (k' & p' & Hk' & Hp' & ->);
      [unfold NBITS, SIZE, LENGTH in *; lia|].
    assert (k <= k') by (unfold SIZE, LENGTH in *; lia).
    destruct (decide (k' = k)) as [-> |]; [apply Hlt; unfold SIZE, LENGTH in *; lia|].
    rewrite for_ret_None in Hpre. apply cost_word_None; [|done]. apply Hpre, Hgt. lia.
  - split; [unfold NBITS, MPP_MAX_FILTERS, SIZE, LENGTH; lia|]. right. split; [done|].
    intros j Hj. destruct (Hdec j Hj) as (k & p & Hk & Hp & ->).
    rewrite for_ret_None in E. apply cost_word_None; [|done].
    apply E, elem_of_reverse, elem_of_seqZ. lia.
Qed.
