(* ===== verification/RfcCorrect.v ===== *)
(** * Correctness of the classification tables

    Each phase is verified against the meaning of its bitmaps.  [rule_on fs com
    n i] says that rule [i] is enabled and contains point [n] of dimension
    [com]; a phase-0 node labels every point with the bitmap of its rules, a
    crossed node labels every pair of classes with the intersection. The rules
    are stated with [wp], for any set [U] of bitmaps that is closed under
    intersection and, for total correctness, has at most 2048 elements: the
    code does not check the bound of a [LISTEqS]. *)

From S2P Require Import Prelude Rfc RfcBitmap.
#[local] Open Scope Z_scope.

(** ** Class lists *)

Record reps (l : LISTEqS) (bs : list (list Z)) : Prop := Reps {
  reps_n : nCES l = Z.of_nat (length bs);
  reps_cap : Z.of_nat (length (ces l)) = MPP_MAX_FILTERS;
  reps_le : Z.of_nat (length bs) <= MPP_MAX_FILTERS;
  reps_at : forall i b, bs !! i = Some b -> ces l !! i = Some (Ces (Z.of_nat i) b);
  reps_nodup : NoDup bs }.

Lemma reps_init l : Z.of_nat (length (ces l)) = MPP_MAX_FILTERS -> reps (InitListEqs l) [].
Proof. intros. split; simpl; try done. apply NoDup_nil_2. Qed.

Lemma reps_take l bs :
  reps l bs -> take (Z.to_nat (nCES l)) (ces l) = imap (fun i b => Ces (Z.of_nat i) b) bs.
Proof.
  intros [Hn Hc Hle Hat _]. rewrite Hn, Nat2Z.id. unfold MPP_MAX_FILTERS in *.
  apply list_eq_same_length with (length bs); [by rewrite length_imap|rewrite length_take; lia|].
  intros i x y Hi Hx Hy. rewrite lookup_take in Hx. case_decide; [|lia].
  rewrite list_lookup_imap in Hy. destruct (bs !! i) eqn:E; [|done].
  apply Hat in E. simpl in Hy. congruence.
Qed.

Lemma SearchBmp_spec l bs b :
  reps l bs -> Forall bmp_ok bs -> bmp_ok b ->
  (exists i, SearchBmp l b = Z.of_nat i /\ bs !! i = Some b) \/
  (SearchBmp l b = -1 /\ b ∉ bs).
Proof.
  intros Hr Hok Hb. unfold SearchBmp. rewrite (reps_take l bs Hr).
  destruct (first_index _ _) as [i|] eqn:E.
  - left. exists i. split; [done|]. apply first_index_Some in E as (c & Hc & Hcmp & _).
    rewrite list_lookup_imap in Hc. destruct (bs !! i) as [b'|] eqn:Eb; [|done].
    simpl in Hc. simplify_eq. simpl in Hcmp.
    apply CompareBmp_true in Hcmp; [by subst| |done]. by eapply Forall_lookup_1.
  - right. split; [done|]. intros (i & Hi)%list_elem_of_lookup.
    rewrite first_index_None in E. specialize (E i (Ces (Z.of_nat i) b)).
    rewrite list_lookup_imap, Hi in E. specialize (E eq_refl). simpl in E.
    apply not_true_iff_false in E. apply E. by apply CompareBmp_true.
Qed.

Lemma AddListEqsCES_eq l bs b :
  reps l bs -> Z.of_nat (length bs) < MPP_MAX_FILTERS -> b ∉ bs ->
  exists l', AddListEqsCES l b = Some (Z.of_nat (length bs), l') /\ reps l' (bs ++ [b]).
Proof.
  intros [Hn Hc Hle Hat Hnd] Hlt Hb. unfold MPP_MAX_FILTERS in *.
  assert (forall l', nCES l' = Z.of_nat (length bs) + 1 ->
    ces l' = <[length bs := Ces (Z.of_nat (length bs)) b]> (ces l) -> reps l' (bs ++ [b])) as Hmk.
  { intros l' Hn' Hc'. split; rewrite ?Hn', ?Hc', ?length_insert, ?length_app; simpl;
      unfold MPP_MAX_FILTERS; try lia.
    - intros i x Hx. destruct (decide (i = length bs)) as [-> |].
      + rewrite list_lookup_insert_eq by lia.
        rewrite list_lookup_middle in Hx by done. congruence.
      + rewrite list_lookup_insert_ne by done. apply Hat.
        apply lookup_app_Some in Hx as [|[? Hx]]; [done|].
        apply list_lookup_singleton_Some in Hx. lia.
    - apply NoDup_app. split_and!; [done| |apply NoDup_singleton].
      intros x Hx ->%list_elem_of_singleton. done. }
  unfold AddListEqsCES. destruct (Z.eqb_spec (nCES l) 0) as [H0|H0].
  - rewrite arr_set_eq by lia. simpl.
    assert (length bs = 0%nat) as E by lia. rewrite E.
    eexists. split; [done|]. apply Hmk; simpl; rewrite E; done.
  - rewrite arr_set_eq by lia. simpl. rewrite wrapu_id by (simpl; lia).
    eexists. rewrite Hn. split; [f_equal; f_equal; lia|]. apply Hmk; simpl; [lia|].
    by rewrite Nat2Z.id.
Qed.

Lemma AddListEqsCES_full l bs b :
  reps l bs -> Z.of_nat (length bs) = MPP_MAX_FILTERS -> AddListEqsCES l b = None.
Proof.
  intros [Hn Hc _ _ _] Hf. unfold AddListEqsCES, MPP_MAX_FILTERS in *.
  rewrite (proj2 (Z.eqb_neq _ _)) by lia. unfold arr_set.
  rewrite (proj2 (Z.ltb_ge _ _)) by lia. by rewrite andb_false_r.
Qed.

(** Class [id] of a list is the bitmap [b]. *)
Definition class_at (l : LISTEqS) (id : Z) (b : list Z) : Prop :=
  0 <= id < nCES l /\ ces l !! Z.to_nat id = Some (Ces id b).

(** The table of [node] maps a pair of classes to the class of their
    intersection. *)
Definition crossed_node (l1 l2 : LISTEqS) (node : Pnoder) : Prop :=
  forall id1 id2 b1 b2, class_at l1 id1 b1 -> class_at l2 id2 b2 ->
    0 <= id1 * nCES l2 + id2 < ACL_MAX_CELL /\
    exists id, rcell node !! (id1 * nCES l2 + id2) = Some id /\
      class_at (rlistEqs node) id (intersect b1 b2).

(** ** The universe of bitmaps *)

Section correctness.
Context (tot : bool) (U : list Z -> Prop).
Context (U_ok : forall b, U b -> bmp_ok b)
  (U_intersect : forall a b, U a -> U b -> U (intersect a b))
  (U_card : tot = true -> forall bs, NoDup bs -> Forall U bs ->
    Z.of_nat (length bs) <= MPP_MAX_FILTERS).

(** A class list of bitmaps of [U]. *)
Definition classes (l : LISTEqS) (bs : list (list Z)) : Prop := reps l bs /\ Forall U bs.

Lemma search_or_add_wp l bs b :
  classes l bs -> U b ->
  wp tot (search_or_add l b) (fun '(id, l') => exists bs',
    classes l' bs' /\ bs `prefix_of` bs' /\ 0 <= id < MPP_MAX_FILTERS /\
    bs' !! Z.to_nat id = Some b).
Proof using U_ok U_card.
  intros [Hr HU] Hb. unfold search_or_add.
  assert (Forall bmp_ok bs) as Hok by (eapply Forall_impl; eauto).
  destruct (SearchBmp_spec l bs b Hr Hok (U_ok b Hb)) as [(i & -> & Hi)|[-> Hn]].
  - rewrite (proj2 (Z.eqb_neq _ _)) by lia. simpl. exists bs.
    pose proof (reps_le _ _ Hr). apply lookup_lt_Some in Hi as Hlt.
    split; [by split|]. split; [done|]. split; [unfold MPP_MAX_FILTERS in *; lia|].
    by rewrite Nat2Z.id.
  - simpl. destruct (decide (Z.of_nat (length bs) < MPP_MAX_FILTERS)) as [Hlt|Hge].
    + destruct (AddListEqsCES_eq l bs b Hr Hlt Hn) as (l' & -> & Hr'). simpl.
      exists (bs ++ [b]). split; [split; [done|apply Forall_app_2; auto]|].
      split; [by apply prefix_app_r|]. split; [lia|]. rewrite Nat2Z.id. by apply list_lookup_middle.
    + pose proof (reps_le _ _ Hr). rewrite (AddListEqsCES_full l bs b Hr) by lia. simpl.
      destruct tot eqn:Et; [|done]. exfalso.
      assert (Z.of_nat (length (b :: bs)) <= MPP_MAX_FILTERS) as Hc.
      { apply U_card; [done| |by constructor].
        apply NoDup_cons. split; [done|apply Hr]. }
      simpl in Hc. lia.
Qed.

(** ** Crossing two class lists *)

(** Cell [k] of a table names bitmap [b]. *)
Definition labels (c : cells) (bs : list (list Z)) (k : Z) (b : list Z) : Prop :=
  exists id, c !! k = Some id /\ 0 <= id /\ bs !! Z.to_nat id = Some b.

Lemma labels_mono c bs bs' k k' v b :
  labels c bs k b -> bs `prefix_of` bs' -> k <> k' -> labels (<[k' := v]> c) bs' k b.
Proof.
  intros (id & Hc & Hid & Hb) [l ->] Hne. exists id.
  rewrite lookup_insert_ne by done. split_and!; [done..|]. by apply lookup_app_l_Some.
Qed.

Lemma labels_new c bs k b id :
  0 <= id -> bs !! Z.to_nat id = Some b -> labels (<[k := id]> c) bs k b.
Proof. intros. exists id. by rewrite lookup_insert_eq. Qed.

(** The first [indx] cells of the table of [bs1] and [bs2] are labelled. *)
Definition crossed (bs1 bs2 : list (list Z)) (indx : Z) (c : cells) (bs : list (list Z)) : Prop :=
  forall i j b1 b2, bs1 !! i = Some b1 -> bs2 !! j = Some b2 ->
    Z.of_nat i * Z.of_nat (length bs2) + Z.of_nat j < indx ->
    labels c bs (Z.of_nat i * Z.of_nat (length bs2) + Z.of_nat j) (intersect b1 b2).

Lemma crossed_index i j i' j' n :
  0 <= j < n -> 0 <= j' < n -> i * n + j = i' * n + j' -> i = i' /\ j = j'.
Proof. intros. assert (i = i') by nia. nia. Qed.

Lemma crossed_step bs1 bs2 indx c bs bs' i j b1 b2 id :
  crossed bs1 bs2 indx c bs -> bs `prefix_of` bs' ->
  bs1 !! i = Some b1 -> bs2 !! j = Some b2 ->
  indx = Z.of_nat i * Z.of_nat (length bs2) + Z.of_nat j ->
  0 <= id -> bs' !! Z.to_nat id = Some (intersect b1 b2) ->
  crossed bs1 bs2 (indx + 1) (<[indx := id]> c) bs'.
Proof.
  intros Hc Hpre H1 H2 -> Hid Hb i' j' x1 x2 Hx1 Hx2 Hlt.
  apply lookup_lt_Some in H2 as Hj. apply lookup_lt_Some in Hx2 as Hj'.
  destruct (decide (Z.of_nat i' * Z.of_nat (length bs2) + Z.of_nat j' =
    Z.of_nat i * Z.of_nat (length bs2) + Z.of_nat j)) as [E|E].
  - rewrite E. apply crossed_index in E as [->%Nat2Z.inj ->%Nat2Z.inj]; [|lia..].
    simplify_eq. by apply labels_new.
  - eapply labels_mono; [|done|done]. apply Hc; [done..|lia].
Qed.

Definition cross_inv (bs1 bs2 : list (list Z)) (n : Z) (indx : Z) (s : Z * Pnoder) : Prop :=
  s.1 = indx /\ ncells s.2 = n /\ exists bs, classes (rlistEqs s.2) bs /\
    crossed bs1 bs2 indx (rcell s.2) bs.

Lemma cross_step_wp bs1 bs2 n i j b1 b2 s :
  let indx := Z.of_nat i * Z.of_nat (length bs2) + Z.of_nat j in
  bs1 !! i = Some b1 -> bs2 !! j = Some b2 -> U b1 -> U b2 -> indx < ACL_MAX_CELL ->
  cross_inv bs1 bs2 n indx s ->
  wp tot (cross_step b1 b2 s) (cross_inv bs1 bs2 n (indx + 1)).
Proof using U_ok U_card U_intersect.
  intros indx H1 H2 HU1 HU2 Hmax. destruct s as [x node]. intros (Hx & Hn & bs & Hcl & Hcr).
  simpl in *. subst x. unfold cross_step. apply wp_bind.
  eapply wp_mono; [apply (search_or_add_wp _ bs); [done|by apply U_intersect]|].
  intros [id l'] (bs' & Hcl' & Hpre & Hid & Hb). unfold MPP_MAX_FILTERS in Hid.
  rewrite (wrapu_id 16) by (simpl; lia).
  rewrite cell_set_eq by (unfold ACL_MAX_CELL in *; lia). simpl.
  unfold ACL_MAX_CELL in Hmax. unfold cross_inv; simpl. split_and!.
  - rewrite wrapu_id by (simpl; lia). done.
  - done.
  - exists bs'. split; [done|]. eapply crossed_step; [done..|lia|done].
Qed.

(** The double loop, for any invariant indexed by the cell reached. *)
Lemma pair_loop_wp {S} (P : Z -> S -> Prop) body l1 l2 bs1 bs2 s :
  classes l1 bs1 -> classes l2 bs2 -> P 0 s ->
  (forall i j b1 b2 s, bs1 !! i = Some b1 -> bs2 !! j = Some b2 ->
     let indx := Z.of_nat i * Z.of_nat (length bs2) + Z.of_nat j in
     indx < Z.of_nat (length bs1) * Z.of_nat (length bs2) ->
     P indx s -> wp tot (body b1 b2 s) (P (indx + 1))) ->
  wp tot (pair_loop body l1 l2 s) (P (Z.of_nat (length bs1) * Z.of_nat (length bs2))).
Proof.
  intros [Hr1 HU1] [Hr2 HU2] H0 Hstep. unfold pair_loop.
  rewrite (reps_n _ _ Hr1), (reps_n _ _ Hr2).
  apply (wp_for tot (fun i => P (i * Z.of_nat (length bs2)))); [lia|done|].
  intros i s1 Hi Hs1. destruct (lookup_lt_is_Some_2 bs1 (Z.to_nat i)) as [b1 Hb1]; [lia|].
  pose proof (reps_at _ _ Hr1 _ _ Hb1) as Hc1. rewrite Z2Nat.id in Hc1 by lia.
  apply wp_bind. eapply wp_some; [apply arr_get_Some; split; [lia|done]|].
  eapply wp_mono; [apply (wp_for tot (fun j => P (i * Z.of_nat (length bs2) + j)));
    [lia|by rewrite Z.add_0_r|]|].
  2: { intros s2. by replace ((i + 1) * Z.of_nat (length bs2))
         with (i * Z.of_nat (length bs2) + Z.of_nat (length bs2)) by lia. }
  intros j s2 Hj Hs2. destruct (lookup_lt_is_Some_2 bs2 (Z.to_nat j)) as [b2 Hb2]; [lia|].
  pose proof (reps_at _ _ Hr2 _ _ Hb2) as Hc2. rewrite Z2Nat.id in Hc2 by lia.
  apply wp_bind. eapply wp_some; [apply arr_get_Some; split; [lia|done]|]. simpl.
  specialize (Hstep (Z.to_nat i) (Z.to_nat j) b1 b2 s2 Hb1 Hb2). simpl in Hstep.
  rewrite !Z2Nat.id in Hstep by lia. rewrite Z.add_assoc. apply Hstep; [nia|done].
Qed.

Lemma cross_loop_wp l1 l2 bs1 bs2 n s :
  classes l1 bs1 -> classes l2 bs2 ->
  Z.of_nat (length bs1) * Z.of_nat (length bs2) <= ACL_MAX_CELL ->
  cross_inv bs1 bs2 n 0 s ->
  wp tot (cross_loop l1 l2 s)
    (cross_inv bs1 bs2 n (Z.of_nat (length bs1) * Z.of_nat (length bs2))).
Proof using U_ok U_card U_intersect.
  intros H1 H2 Hmax H0. apply pair_loop_wp; [done..|].
  intros i j b1 b2 s1 Hb1 Hb2 indx Hlt Hs1. apply cross_step_wp; [done|done| | |lia|done].
  - exact (Forall_lookup_1 _ _ _ _ (proj2 H1) Hb1).
  - exact (Forall_lookup_1 _ _ _ _ (proj2 H2) Hb2).
Qed.

(** ** Tables as lookups *)

Lemma classes_at l bs id b :
  classes l bs -> class_at l id b <-> 0 <= id /\ bs !! Z.to_nat id = Some b.
Proof.
  intros [Hr _]. unfold class_at. rewrite (reps_n _ _ Hr). split.
  - intros [Hid Hc]. split; [lia|].
    destruct (lookup_lt_is_Some_2 bs (Z.to_nat id)) as [b' Hb']; [lia|].
    pose proof (reps_at _ _ Hr _ _ Hb') as Hc'. congruence.
  - intros [Hid Hb]. pose proof (reps_at _ _ Hr _ _ Hb) as Hc.
    rewrite Z2Nat.id in Hc by lia. apply lookup_lt_Some in Hb. split; [lia|done].
Qed.

Lemma crossed_node_intro l1 l2 bs1 bs2 n node :
  classes l1 bs1 -> classes l2 bs2 ->
  Z.of_nat (length bs1) * Z.of_nat (length bs2) <= ACL_MAX_CELL ->
  cross_inv bs1 bs2 n (Z.of_nat (length bs1) * Z.of_nat (length bs2)) 
    (Z.of_nat (length bs1) * Z.of_nat (length bs2), node) ->
  crossed_node l1 l2 node.
Proof.
  intros H1 H2 Hmax (_ & _ & bs & Hbs & Hc) id1 id2 b1 b2 Hb1 Hb2. simpl in *.
  rewrite (classes_at _ _ _ _ H1) in Hb1. rewrite (classes_at _ _ _ _ H2) in Hb2.
  destruct Hb1 as [Hid1 Hb1], Hb2 as [Hid2 Hb2].
  apply lookup_lt_Some in Hb1 as Hl1. apply lookup_lt_Some in Hb2 as Hl2.
  assert (id1 * Z.of_nat (length bs2) + id2 < Z.of_nat (length bs1) * Z.of_nat (length bs2))
    as Hlt by nia.
  pose proof (Hc _ _ _ _ Hb1 Hb2) as Hlab. rewrite !Z2Nat.id in Hlab by lia.
  destruct (Hlab Hlt) as (id & Hcell & Hid & Hb).
  destruct H2 as [Hr2 HU2]. rewrite (reps_n _ _ Hr2). split; [nia|].
  exists id. split; [done|]. by apply (classes_at _ _ _ _ Hbs).
Qed.

(** One chunk of phase 1 or 2: the size error, or a table of intersections. *)
Lemma cross_node_wp l1 l2 bs1 bs2 node :
  classes l1 bs1 -> classes l2 bs2 -> Z.of_nat (length (ces (rlistEqs node))) = MPP_MAX_FILTERS ->
  wp tot (cross_node l1 l2 node) (fun '(ret, node') =>
    Z.of_nat (length (ces (rlistEqs node'))) = MPP_MAX_FILTERS /\
    ((ret = ACL_ERROR /\ ACL_MAX_CELL < Z.of_nat (length bs1) * Z.of_nat (length bs2)) \/
     (ret = ACL_OK /\ crossed_node l1 l2 node' /\ exists bs, classes (rlistEqs node') bs))).
Proof using U_ok U_card U_intersect.
  intros H1 H2 Hcap. unfold cross_node.
  rewrite (reps_n _ _ (proj1 H1)), (reps_n _ _ (proj1 H2)).
  pose proof (reps_le _ _ (proj1 H1)). pose proof (reps_le _ _ (proj1 H2)).
  unfold MPP_MAX_FILTERS in *. rewrite (wrapu_id 32) by (simpl; nia). simpl.
  destruct (Z.ltb_spec ACL_MAX_CELL (Z.of_nat (length bs1) * Z.of_nat (length bs2))).
  { simpl. split; [done|]. by left. }
  apply wp_bind. eapply wp_mono.
  - apply (cross_loop_wp l1 l2 bs1 bs2 (Z.of_nat (length bs1) * Z.of_nat (length bs2)));
      [done..|]. unfold cross_inv; simpl. split_and!; [done..|]. exists [].
    split; [split; [by apply reps_init|constructor]|].
    intros i j b1 b2 _ _ ?. lia.
  - intros [indx node'] Hinv. simpl. pose proof Hinv as (Hx & _ & bs & Hbs & _). simpl in *.
    subst indx. split; [apply (reps_cap _ _ (proj1 Hbs))|]. right. split; [done|].
    split; [by eapply crossed_node_intro|eauto].
Qed.
End correctness.
