(* ===== verification/RfcPhases.v ===== *)
(** * The phases of the classifier

    What the phases of [Rfc] compute on a well-formed rule set [fs]: phase 0
    labels point [n] of dimension [com] with the set of the enabled rules whose
    range contains [n] ([rule_on]), phases 1 and 2 intersect classes, phase 3
    stores the tag of the least rule.  With at most eleven rules no class list
    can outgrow its array ([U_few]), which gives total correctness. *)

From S2P Require Import Prelude Rfc RfcBitmap RfcCorrect.
#[local] Open Scope Z_scope.

(** ** Well-formed rule sets *)

Definition range_ok (r : Z * Z) : Prop := 0 <= r.1 <= r.2 /\ r.2 < NLINE.

Record filter_ok (f : FILTER) : Prop := FilterOk {
  f_dims : length (dim f) = 7%nat;
  f_ranges : Forall range_ok (dim f) }.

Record fs_ok (fs : FILTSET) : Prop := FsOk {
  fs_num : 0 <= numFilters fs <= MPP_MAX_FILTERS;
  fs_arr : Z.of_nat (length (filtArr fs)) = MPP_MAX_FILTERS;
  fs_filters : Forall filter_ok (filtArr fs) }.

(** The rule contains point [n] of dimension [com]. *)
Definition in_dim (f : FILTER) (com n : Z) : bool :=
  match arr_get (dim f) com with Some (s, e) => (s <=? n) && (n <=? e) | None => false end.

Definition filter_on (f : FILTER) (com n : Z) : bool :=
  (state f =? ACL_ENABLE) && in_dim f com n.

Definition rule_on (fs : FILTSET) (com n i : Z) : bool :=
  (i <? numFilters fs) &&
  match arr_get (filtArr fs) i with Some f => filter_on f com n | None => false end.

Lemma filter_dim f com :
  filter_ok f -> 0 <= com < 7 -> exists r, arr_get (dim f) com = Some r /\ range_ok r.
Proof.
  intros [Hd Hr] Hc. destruct (arr_get_is_Some (dim f) com) as [r E]; [lia|].
  exists r. split; [done|]. apply arr_get_Some in E as [_ E]. exact (Forall_lookup_1 _ _ _ _ Hr E).
Qed.

Lemma fs_filter fs i :
  fs_ok fs -> 0 <= i < numFilters fs ->
  exists f, arr_get (filtArr fs) i = Some f /\ filter_ok f.
Proof.
  intros [Hn Ha Hf] Hi. destruct (arr_get_is_Some (filtArr fs) i) as [f E]; [lia|].
  exists f. split; [done|]. apply arr_get_Some in E as [_ E]. exact (Forall_lookup_1 _ _ _ _ Hf E).
Qed.

(** ** The bitmaps of a rule set *)

(** Bitmaps of rules of [fs]: nothing above [numFilters]. *)
Definition UB (n : Z) (b : list Z) : Prop :=
  bmp_ok b /\ forall j, n <= j < NBITS -> bit b j = false.

Lemma UB_intersect n a b : UB n a -> UB n b -> UB n (intersect a b).
Proof.
  intros [Ha Ha'] [Hb Hb']. split; [by apply intersect_ok|].
  intros j Hj. by rewrite intersect_bit, Ha'.
Qed.

Fixpoint all_bools (n : nat) : list (list bool) :=
  match n with
  | O => [[]]
  | S n => (cons true <$> all_bools n) ++ (cons false <$> all_bools n)
  end.

Lemma all_bools_length n : length (all_bools n) = (2 ^ n)%nat.
Proof. induction n; simpl; [done|]. rewrite length_app, !length_fmap, IHn. lia. Qed.

Lemma all_bools_elem l : l ∈ all_bools (length l).
Proof.
  induction l as [|x l IH]; simpl; [by left|].
  rewrite elem_of_app, !list_elem_of_fmap. destruct x; eauto.
Qed.

Definition signature (n : Z) (b : list Z) : list bool := bit b <$> seqZ 0 n.

Lemma signature_inj n a b :
  0 <= n <= NBITS -> UB n a -> UB n b -> signature n a = signature n b -> a = b.
Proof.
  intros Hn [Ha Ha'] [Hb Hb'] E. apply bmp_ext; [done..|]. intros i Hi.
  destruct (Z.ltb_spec i n); [|by rewrite Ha', Hb' by lia].
  apply (f_equal (lookup (Z.to_nat i))) in E. unfold signature in E.
  rewrite !list_lookup_fmap, !lookup_seqZ_lt in E by lia. simpl in E.
  rewrite Z2Nat.id in E by lia. by injection E.
Qed.

Lemma UB_card n bs :
  0 <= n <= NBITS -> NoDup bs -> Forall (UB n) bs -> (length bs <= 2 ^ Z.to_nat n)%nat.
Proof.
  intros Hn Hnd HU. rewrite <- (length_fmap (signature n)), <- all_bools_length.
  apply submseteq_length, NoDup_submseteq.
  - clear -Hn Hnd HU. induction Hnd as [|b bs Hb Hnd IH]; simpl; [constructor|].
    apply Forall_cons in HU as [HUb HU]. apply NoDup_cons. split; [|by apply IH].
    intros (b' & E & Hin)%list_elem_of_fmap. rewrite Forall_forall in HU.
    apply (signature_inj n) in E; [by subst|done..|]. by apply HU.
  - intros x (b & -> & _)%list_elem_of_fmap.
    pose proof (all_bools_elem (signature n b)) as H.
    unfold signature in H at 2. by rewrite length_fmap, length_seqZ in H.
Qed.

Lemma U_few n bs :
  0 <= n <= 11 -> NoDup bs -> Forall (UB n) bs -> Z.of_nat (length bs) <= MPP_MAX_FILTERS.
Proof.
  intros Hn Hnd HU. pose proof (UB_card n bs ltac:(unfold NBITS, SIZE, LENGTH; lia) Hnd HU).
  assert (2 ^ Z.to_nat n <= 2 ^ 11)%nat by (apply Nat.pow_le_mono_r; lia).
  change MPP_MAX_FILTERS with (Z.of_nat (2 ^ 11)). lia.
Qed.

Lemma UB_card_small n bs :
  0 <= n <= 9 -> NoDup bs -> Forall (UB n) bs -> Z.of_nat (length bs) <= 512.
Proof.
  intros Hn Hnd HU. pose proof (UB_card n bs ltac:(unfold NBITS, SIZE, LENGTH; lia) Hnd HU).
  assert (2 ^ Z.to_nat n <= 2 ^ 9)%nat by (apply Nat.pow_le_mono_r; lia).
  change 512 with (Z.of_nat (2 ^ 9)). lia.
Qed.

(** The two readings of the class-list bound. *)
Lemma UB_bound (tot : bool) n :
  0 <= n -> (tot = true -> n <= 11) ->
  tot = true -> forall bs, NoDup bs -> Forall (UB n) bs ->
  Z.of_nat (length bs) <= MPP_MAX_FILTERS.
Proof. intros. apply (U_few n); auto with lia. Qed.

(** ** Phase 0 *)

(** The bitmap of point [n] while the rules are scanned: the first [i] rules
    are up to date, the others still describe point [n - 1]. *)
Definition scan (fs : FILTSET) (com n i j : Z) : bool :=
  rule_on fs com (if j <? i then n else n - 1) j.

(** A class list whose class [id] is the set of the rules selected by [P]. *)
Definition names (l : LISTEqS) (id : Z) (P : Z -> bool) : Prop :=
  exists b, class_at l id b /\ bmp_ok b /\ forall j, 0 <= j < NBITS -> bit b j = P j.

(** Phase-0 node [com] labels every point with the set of its rules. *)
Definition phase0_ok (fs : FILTSET) (com : Z) (node : Pnode) : Prop :=
  forall n, 0 <= n < NLINE ->
    exists id, cell node !! n = Some id /\ names (listEqs node) id (rule_on fs com n).

Definition cap (l : LISTEqS) : Prop := Z.of_nat (length (ces l)) = MPP_MAX_FILTERS.

Lemma rule_on_in fs com n i f :
  arr_get (filtArr fs) i = Some f -> i < numFilters fs -> rule_on fs com n i = filter_on f com n.
Proof. intros E Hi. unfold rule_on. by rewrite (proj2 (Z.ltb_lt _ _) Hi), E. Qed.

Lemma rule_on_out fs com n i : numFilters fs <= i -> rule_on fs com n i = false.
Proof. intros. unfold rule_on. by rewrite (proj2 (Z.ltb_ge _ _)). Qed.

Section phase0.
Context (fs : FILTSET) (Hfs : fs_ok fs) (com : Z) (Hcom : 0 <= com < 7).

Lemma numFilters_nbits : numFilters fs <= NBITS.
Proof using Hfs. pose proof (fs_num _ Hfs). unfold NBITS, SIZE, LENGTH, MPP_MAX_FILTERS in *. lia. Qed.

(** One rule: starts set its bit, the point after its end clears it. *)
Lemma phase0_filter_spec n i bmp :
  0 <= n < NLINE -> 0 <= i < numFilters fs -> bmp_ok bmp ->
  (forall j, 0 <= j < NBITS -> bit bmp j = scan fs com n i j) ->
  exists bmp', phase0_filter fs com n bmp i = Some bmp' /\ bmp_ok bmp' /\
    forall j, 0 <= j < NBITS -> bit bmp' j = scan fs com n (i + 1) j.
Proof using Hfs Hcom.
  intros Hn Hi Hok Hbit. pose proof numFilters_nbits as HN.
  destruct (fs_filter fs i Hfs Hi) as (f & Ef & Hf).
  destruct (filter_dim f com Hf Hcom) as ([s e] & Er & [Hse He]). simpl in Hse, He.
  unfold NLINE in *.
  assert (forall b', bmp_ok b' -> bit b' i = filter_on f com n ->
    (forall j, 0 <= j < NBITS -> j <> i -> bit b' j = bit bmp j) ->
    forall j, 0 <= j < NBITS -> bit b' j = scan fs com n (i + 1) j) as Hfin.
  { intros b' _ Hbi Hne j Hj. unfold scan. destruct (decide (j = i)) as [-> |Hji].
    - by rewrite (proj2 (Z.ltb_lt _ _)), (rule_on_in _ _ _ _ _ Ef) by lia.
    - rewrite Hne, Hbit by done. unfold scan.
      by destruct (Z.ltb_spec j i), (Z.ltb_spec j (i + 1)); try lia. }
  assert (bit bmp i = filter_on f com (n - 1)) as Hold.
  { rewrite Hbit by lia. unfold scan. rewrite Z.ltb_irrefl. by apply rule_on_in; [|lia]. }
  unfold phase0_filter. rewrite Ef. simpl. unfold filter_on, in_dim in *. rewrite Er in *. simpl.
  destruct (state f =? ACL_ENABLE); simpl in *; [|by exists bmp; auto].
  rewrite (wrapu_id 32) by (simpl; lia).
  destruct (Z.eqb_spec s n) as [Hs|Hs].
  - destruct (SetBmpBit_spec bmp i true Hok ltac:(lia)) as (b1 & -> & Hb1 & Hbit1). simpl.
    rewrite (proj2 (Z.eqb_neq _ _)) by lia. exists b1. split_and!; [done..|].
    apply Hfin; [done| |].
    + rewrite Hbit1, Z.eqb_refl by lia. zb; lia.
    + intros j Hj Hji. by rewrite Hbit1, (proj2 (Z.eqb_neq _ _)) by lia.
  - simpl. destruct (Z.eqb_spec (e + 1) n) as [He'|He'].
    + destruct (SetBmpBit_spec bmp i false Hok ltac:(lia)) as (b1 & -> & Hb1 & Hbit1).
      exists b1. split_and!; [done..|]. apply Hfin; [done| |].
      * rewrite Hbit1, Z.eqb_refl by lia. zb; lia.
      * intros j Hj Hji. by rewrite Hbit1, (proj2 (Z.eqb_neq _ _)) by lia.
    + exists bmp. split_and!; [done..|]. apply Hfin; [done| |done].
      rewrite Hold. zb; lia.
Qed.

(** All rules at one point: the bitmap moves from [n - 1] to [n]. *)
Lemma phase0_scan n bmp :
  0 <= n < NLINE -> bmp_ok bmp ->
  (forall j, 0 <= j < NBITS -> bit bmp j = rule_on fs com (n - 1) j) ->
  exists bmp', foldM (phase0_filter fs com n) (seqZ 0 (numFilters fs)) bmp = Some bmp' /\
    bmp_ok bmp' /\ forall j, 0 <= j < NBITS -> bit bmp' j = rule_on fs com n j.
Proof using Hfs Hcom.
  intros Hn Hok Hbit. pose proof (fs_num _ Hfs) as HN.
  destruct (for_seqZ (fun i b => bmp_ok b /\
    forall j, 0 <= j < NBITS -> bit b j = scan fs com n i j)
    (phase0_filter fs com n) (numFilters fs) bmp) as (b' & E & Hb' & Hbit'); [lia| | |].
  - split; [done|]. intros j Hj. unfold scan. rewrite (proj2 (Z.ltb_ge _ _)) by lia. auto.
  - intros i b Hi [Hb Hbb]. by apply phase0_filter_spec.
  - exists b'. split_and!; [done..|]. intros j Hj. rewrite Hbit' by done. unfold scan.
    destruct (Z.ltb_spec j (numFilters fs)); [done|]. by rewrite !rule_on_out.
Qed.

Context (tot : bool) (Htot : tot = true -> numFilters fs <= 11).
Abbreviation cls := (classes (UB (numFilters fs))).

(** After the points below [n]. *)
Definition point_inv (n : Z) (s : list Z * Pnode) : Prop :=
  (bmp_ok s.1 /\ forall j, 0 <= j < NBITS -> bit s.1 j = rule_on fs com (n - 1) j) /\
  exists bs, cls (listEqs s.2) bs /\
    forall k, 0 <= k < n -> exists b, labels (cell s.2) bs k b /\ bmp_ok b /\
      forall j, 0 <= j < NBITS -> bit b j = rule_on fs com k j.

Lemma phase0_point_wp n s :
  0 <= n < NLINE -> point_inv n s -> wp tot (phase0_point fs com s n) (point_inv (n + 1)).
Proof using Hfs Hcom Htot.
  intros Hn. destruct s as [bmp node]. intros ([Hok Hbit] & bs & Hcl & Hlab). simpl in *.
  destruct (phase0_scan n bmp Hn Hok Hbit) as (bmp' & E & Hok' & Hbit').
  unfold phase0_point. rewrite E. simpl. apply wp_bind. pose proof (fs_num _ Hfs).
  eapply wp_mono; [apply (search_or_add_wp tot (UB (numFilters fs)))
    with (bs := bs) (b := bmp')|].
  - by intros b [? _].
  - apply UB_bound; [lia|done].
  - done.
  - split; [done|]. intros j Hj. rewrite Hbit' by lia. apply rule_on_out. lia.
  - intros [id l'] (bs' & Hcl' & Hpre & Hid & Hb). unfold MPP_MAX_FILTERS in *.
    rewrite (wrapu_id 16) by (simpl; lia). rewrite cell_set_eq by done. simpl. split; simpl.
    { split; [done|]. by replace (n + 1 - 1) with n by lia. }
    exists bs'. split; [done|]. intros k Hk. destruct (decide (k = n)) as [-> |Hne].
    + exists bmp'. split; [apply labels_new; [lia|done]|done].
    + destruct (Hlab k ltac:(lia)) as (b & Hl & Hbb). exists b. split; [|done].
      by eapply labels_mono.
Qed.

Lemma phase0_node_wp node :
  cap (listEqs node) ->
  wp tot (phase0_node fs com node) (fun node' =>
    phase0_ok fs com node' /\ exists bs, cls (listEqs node') bs).
Proof using Hfs Hcom Htot.
  intros Hcap. unfold phase0_node. apply wp_bind. eapply wp_mono.
  - apply (wp_for tot point_inv (phase0_point fs com) NLINE); [done| |by apply phase0_point_wp].
    split; simpl.
    + split; [apply bmp_empty_ok|]. intros j Hj. rewrite bmp_empty_bit. symmetry.
      unfold rule_on. destruct (Z.ltb_spec j (numFilters fs)); [|done]. simpl.
      destruct (fs_filter fs j Hfs ltac:(lia)) as (f & -> & Hf). unfold filter_on, in_dim.
      destruct (filter_dim f com Hf Hcom) as ([s e] & -> & [Hse _]). simpl in Hse.
      rewrite (proj2 (Z.leb_gt s _)) by lia. apply andb_false_r.
    + exists []. split; [split; [by apply reps_init|constructor]|]. intros. lia.
  - intros [bmp node'] (_ & bs & Hcl & Hlab). simpl in *. split; [|by exists bs].
    intros n Hn. destruct (Hlab n Hn) as (b & (id & Hc & Hid & Hb) & Hok).
    exists id. split; [done|]. exists b. split; [|done]. by apply (classes_at _ _ _ _ _ Hcl).
Qed.
End phase0.

(** ** All the nodes of a phase *)

(** Loop over an array whose [i]-th cell is rebuilt by step [i]. *)
Lemma each_wp (tot : bool) {A} (f : Z -> A -> option A) (pre : A -> Prop) (P : Z -> A -> Prop)
    n (l : list A) :
  Z.of_nat (length l) = n -> Forall pre l ->
  (forall i a, 0 <= i < n -> pre a -> wp tot (f i a) (P i)) ->
  wp tot (foldM (fun l i => a ← arr_get l i; a ← f i a; arr_set l i a) (seqZ 0 n) l)
    (fun l' => length l' = length l /\
       forall i, 0 <= i < n -> exists a, arr_get l' i = Some a /\ P i a).
Proof.
  intros Hlen Hpre Hf. eapply wp_mono.
  - apply (wp_for tot (fun m l' => length l' = length l /\
      (forall i a, m <= i -> arr_get l' i = Some a -> pre a) /\
      forall i, 0 <= i < m -> exists a, arr_get l' i = Some a /\ P i a)); [lia| |].
    + split_and!; [done| |intros; lia]. intros i a _ [_ Ha]%arr_get_Some.
      exact (Forall_lookup_1 _ _ _ _ Hpre Ha).
    + intros i l' Hi (Hl & Hp & HP). destruct (arr_get_is_Some l' i) as [a Ha]; [lia|].
      rewrite Ha. simpl. apply wp_bind. eapply wp_mono; [apply Hf; [done|by eapply Hp]|].
      intros a' Ha'. pose proof (arr_set_eq l' i a' ltac:(lia)) as Es. rewrite Es. simpl.
      split_and!; [by rewrite length_insert| |].
      * intros k x Hk Hx. rewrite (arr_get_set _ _ _ _ _ Es) in Hx. case_decide; [lia|].
        apply (Hp k); [lia|done].
      * intros k Hk. rewrite (arr_get_set _ _ _ _ _ Es). case_decide; [subst; eauto|].
        apply HP. lia.
  - intros l' (? & _ & ?). done.
Qed.

(** [SetPhase0_Cell] also marks the rules as synchronised: nothing that
    classification reads changes. *)
Definition same_rules (fs fs' : FILTSET) : Prop :=
  numFilters fs' = numFilters fs /\ pkt_num fs' = pkt_num fs /\ pkt_bytes fs' = pkt_bytes fs /\
  length (filtArr fs') = length (filtArr fs) /\
  forall i f, arr_get (filtArr fs) i = Some f -> exists sy,
    arr_get (filtArr fs') i = Some (set_sync f sy).

Definition mark_sync (f : FILTER) : FILTER :=
  set_sync f (if state f =? ACL_ENABLE then ACL_SYNC else ACL_NOSYNC).

Lemma set_filt_sync_spec fs :
  fs_ok fs -> exists fs', set_filt_sync fs = Some fs' /\ same_rules fs fs' /\
    forall i, arr_get (filtArr fs') i =
      (if decide (i < numFilters fs) then mark_sync else id) <$> arr_get (filtArr fs) i.
Proof.
  intros [Hn Ha _]. unfold set_filt_sync.
  destruct (for_seqZ (fun n a => length a = length (filtArr fs) /\
    forall i, arr_get a i = (if decide (i < n) then mark_sync else id) <$> arr_get (filtArr fs) i)
    (fun a i => f ← arr_get a i;
      arr_set a i (set_sync f (if state f =? ACL_ENABLE then ACL_SYNC else ACL_NOSYNC)))
    (numFilters fs) (filtArr fs)) as (a' & E & Hl & Hs); [lia| | |].
  - split; [done|]. intros i. case_decide; [|by rewrite option_fmap_id].
    unfold arr_get. by rewrite (proj2 (Z.leb_gt 0 i)).
  - intros i a Hi [Hl Hs]. destruct (arr_get_is_Some (filtArr fs) i) as [f Hf]; [lia|].
    pose proof (Hs i) as Ei. rewrite Hf in Ei. rewrite Ei. case_decide; [lia|]. simpl.
    eexists. split; [apply arr_set_eq; lia|]. split; [by rewrite length_insert|].
    intros k. pose proof (arr_set_eq a i (mark_sync f) ltac:(lia)) as Es.
    unfold mark_sync in Es. rewrite (arr_get_set _ _ _ _ k Es), Hs.
    case_decide as Ek; [subst k; rewrite Hf; case_decide; [done|lia]|].
    by repeat case_decide; try lia.
  - rewrite E. simpl. eexists. split; [done|]. split; [|done].
    split_and!; [done..|]. intros i f Hf. simpl. rewrite Hs, Hf. simpl.
    case_decide; [by eexists|]. exists (sync f). by destruct f.
Qed.

Section phases.
Context (fs : FILTSET) (Hfs : fs_ok fs) (tot : bool) (Htot : tot = true -> numFilters fs <= 11).
Abbreviation cls := (classes (UB (numFilters fs))).

(** Phase-0 node [com] is built. *)
Definition node0_ok (com : Z) (node : Pnode) : Prop :=
  phase0_ok fs com node /\ exists bs, cls (listEqs node) bs.

Lemma SetPhase0_Cell_wp nodes :
  length nodes = 7%nat -> Forall (fun n => cap (listEqs n)) nodes ->
  wp tot (SetPhase0_Cell nodes fs) (fun '(ret, nodes', fs') =>
    ret = ACL_OK /\ set_filt_sync fs = Some fs' /\ length nodes' = 7%nat /\
    forall com, 0 <= com < 7 -> exists node, arr_get nodes' com = Some node /\ node0_ok com node).
Proof using Hfs Htot.
  intros Hl Hcap. unfold SetPhase0_Cell. apply wp_bind. eapply wp_mono.
  - apply (each_wp tot (fun com => phase0_node fs com) (fun n => cap (listEqs n)) node0_ok);
      [lia|done|]. intros com node Hcom Hn. by apply phase0_node_wp.
  - intros nodes' [Hl' Hn]. destruct (set_filt_sync_spec fs Hfs) as (fs' & E & _).
    rewrite E. simpl. split_and!; [done..|lia|done].
Qed.

(** A node of phase 1 or 2 that crosses [l1] and [l2]. *)
Definition node_ok (l1 l2 : LISTEqS) (node : Pnoder) : Prop :=
  crossed_node l1 l2 node /\ exists bs, cls (rlistEqs node) bs.

Definition rcap (node : Pnoder) : Prop := cap (rlistEqs node).

Lemma cls_length l bs : cls l bs -> numFilters fs <= 9 -> Z.of_nat (length bs) <= 512.
Proof using Hfs.
  intros [Hr HU] Hn. pose proof (fs_num _ Hfs). apply (UB_card_small (numFilters fs)); [lia| |done].
  apply Hr.
Qed.

Lemma node_wp l1 l2 node :
  (exists bs, cls l1 bs) -> (exists bs, cls l2 bs) -> rcap node ->
  wp tot (cross_node l1 l2 node) (fun '(ret, node') => rcap node' /\
    ((ret = ACL_ERROR /\ 9 < numFilters fs) \/ (ret = ACL_OK /\ node_ok l1 l2 node'))).
Proof using Hfs Htot.
  intros [bs1 H1] [bs2 H2] Hc. pose proof (fs_num _ Hfs). eapply wp_mono.
  - apply (cross_node_wp tot (UB (numFilters fs))) with (bs1 := bs1) (bs2 := bs2);
      [by intros b [? _]|apply UB_intersect|apply UB_bound; [lia|done]|done..].
  - intros [ret node'] [Hc' Hret]. split; [done|].
    destruct Hret as [[-> Hmax]|(-> & Hcr & Hbs)]; [left|by right].
    split; [done|]. apply Z.nle_gt. intros Hn.
    pose proof (cls_length _ _ H1 Hn). pose proof (cls_length _ _ H2 Hn).
    unfold ACL_MAX_CELL in Hmax. nia.
Qed.

(** The chunks of phases 1 and 2 cross the lists [L1 com] and [L2 com]. *)
Definition chunk_of (L1 L2 : Z -> LISTEqS) (com : Z) (nodes : list Pnoder)
    : option (Z * list Pnoder) :=
  node ← arr_get nodes com;
  '(ret, node) ← cross_node (L1 com) (L2 com) node;
  nodes ← arr_set nodes com node;
  Some (ret, nodes).

Lemma chunks_wp (L1 L2 : Z -> LISTEqS) chunk n nodes :
  0 <= n ->
  (forall com nodes, 0 <= com < n -> chunk com nodes = chunk_of L1 L2 com nodes) ->
  (forall com, 0 <= com < n -> (exists bs, cls (L1 com) bs) /\ (exists bs, cls (L2 com) bs)) ->
  Z.of_nat (length nodes) = n -> Forall rcap nodes ->
  wp tot (run_chunks chunk (seqZ 0 n) nodes) (fun '(ret, nodes') =>
    length nodes' = length nodes /\ Forall rcap nodes' /\
    ((ret = ACL_ERROR /\ 9 < numFilters fs) \/
     (ret = ACL_OK /\ forall com, 0 <= com < n -> exists node,
        arr_get nodes' com = Some node /\ node_ok (L1 com) (L2 com) node))).
Proof using Hfs Htot.
  intros Hn Hchunk HL Hlen Hcap.
  assert (forall k nodes', (k <= Z.to_nat n)%nat -> length nodes' = length nodes -> Forall rcap nodes' ->
    (forall com, 0 <= com < n - Z.of_nat k -> exists node,
        arr_get nodes' com = Some node /\ node_ok (L1 com) (L2 com) node) ->
    wp tot (run_chunks chunk (seqZ (n - Z.of_nat k) (Z.of_nat k)) nodes') (fun '(ret, nodes') =>
    length nodes' = length nodes /\ Forall rcap nodes' /\
    ((ret = ACL_ERROR /\ 9 < numFilters fs) \/
     (ret = ACL_OK /\ forall com, 0 <= com < n -> exists node,
        arr_get nodes' com = Some node /\ node_ok (L1 com) (L2 com) node)))) as Hgen.
  - induction k as [|k IH]; intros nodes' Hk Hl Hc Hd.
    { simpl. split_and!; [done..|]. right. split; [done|]. intros. apply Hd. lia. }
    rewrite seqZ_cons by lia. simpl. set (com := n - Z.of_nat (S k)) in *.
    rewrite Hchunk by lia. unfold chunk_of.
    destruct (arr_get_is_Some nodes' com) as [node En]; [lia|]. rewrite En. simpl.
    destruct (HL com) as [HL1 HL2]; [lia|].
    assert (rcap node) as Hcn.
    { apply arr_get_Some in En as [_ En]. exact (Forall_lookup_1 _ _ _ _ Hc En). }
    pose proof (node_wp (L1 com) (L2 com) node HL1 HL2 Hcn) as Hw.
    destruct (cross_node _ _ _) as [[ret node']|]; simpl in *; [|done].
    destruct Hw as [Hc' Hret].
    pose proof (arr_set_eq nodes' com node' ltac:(lia)) as Es. rewrite Es. simpl.
    assert (Forall rcap (<[Z.to_nat com:=node']> nodes')) as Hc2 by by apply Forall_insert.
    destruct Hret as [[-> Hbig]|[-> Hok]]; simpl.
    { split_and!; [by rewrite length_insert|done|by left]. }
    replace (Z.succ com) with (n - Z.of_nat k) by lia.
    replace (Z.pred (Z.of_nat (S k))) with (Z.of_nat k) by lia.
    apply IH; [lia|by rewrite length_insert|done|].
    intros k' Hk'. rewrite (arr_get_set _ _ _ _ _ Es). case_decide; [subst; eauto|].
    apply Hd. lia.
  - specialize (Hgen (Z.to_nat n) nodes). rewrite Z2Nat.id, Z.sub_diag in Hgen by lia.
    apply Hgen; [done..|]. intros. lia.
Qed.
End phases.
