(* ===== verification/Acl.v ===== *)
(** * The ACL rule store: src/code/frcore/frcore_acl.c, frcore_acl.h, frcore_rule.c

    The configured build (FRCORE_ACL_API_INTERFACE, RFC4_DEBUG).  There is one
    group ([MPP_MAX_ACL_NUM] is 1) and every caller passes [gid = 0], so the
    functions work on [acl_data[0]]: the rule set [FILTSET], an array sorted by
    tag ([cost]) with the counters [pkt_num] and [pkt_bytes] indexed by tag, and
    the tables that [pre_acl_lookup_by_tuple] compiles it to. *)

From S2P Require Import Prelude Rfc.
#[local] Open Scope Z_scope.

Definition MC_ERROR : Z := -1.
Definition ACL_PROTOCOL_ANY : Z := 0.

Record mpp_acl_filtset : Type := MppAclFiltset {
  filtset : FILTSET;
  phase0_Nodes : list Pnode;
  phase1_Nodes : list Pnoder;
  phase2_Nodes : list Pnoder;
  phase3_Node : Pnoder }.

Definition with_filtset (d : mpp_acl_filtset) (fs : FILTSET) : mpp_acl_filtset :=
  MppAclFiltset fs (phase0_Nodes d) (phase1_Nodes d) (phase2_Nodes d) (phase3_Node d).

(** ** Field updates *)

Definition set_numFilters (fs : FILTSET) (n : Z) : FILTSET :=
  Filtset (u32 n) (filtArr fs) (pkt_num fs) (pkt_bytes fs).

Definition set_filter (fs : FILTSET) (i : Z) (f : FILTER) : option FILTSET :=
  a ← arr_set (filtArr fs) i f; Some (set_filtArr fs a).

Definition set_pkt_num (fs : FILTSET) (tag v : Z) : option FILTSET :=
  p ← arr_set (pkt_num fs) tag v; Some (Filtset (numFilters fs) (filtArr fs) p (pkt_bytes fs)).

Definition set_pkt_bytes (fs : FILTSET) (tag v : Z) : option FILTSET :=
  p ← arr_set (pkt_bytes fs) tag v; Some (Filtset (numFilters fs) (filtArr fs) (pkt_num fs) p).

Definition ZERO_DIM : list (Z * Z) := replicate 7 (0, 0).
Definition ZERO_FILTER : FILTER := Filter 0 ACL_NOSYNC ACL_UNSET 0 0 0 0 ZERO_DIM.

(** ** Reading the store *)

(** [int count = filtset->numFilters] *)
Definition count (fs : FILTSET) : Z := s32 (numFilters fs).

(** The loop that looks for a tag and returns the index. *)
Definition find_tag (fs : FILTSET) (tag : Z) : option (option Z) :=
  searchM (fun i => f ← arr_get (filtArr fs) i;
                    Some (if tag =? cost f then Some i else None)) (seqZ 0 (count fs)).

Definition acl_getfilter_count (fs : FILTSET) : Z := u16 (numFilters fs).

Definition acl_getfilter_state (fs : FILTSET) (targetid : Z) : option Z :=
  r ← find_tag fs targetid;
  match r with
  | Some i => f ← arr_get (filtArr fs) i; Some (state f)
  | None => Some ACL_UNSET
  end.

Definition acl_getfilter_ruleid_by_tagid (fs : FILTSET) (tagid : Z) : option Z :=
  r ← find_tag fs tagid; Some (default MC_ERROR r).

Definition acl_enable_one_filter_by_tagid (fs : FILTSET) (targetid enable : Z)
    : option (Z * FILTSET) :=
  r ← find_tag fs targetid;
  match r with
  | Some i =>
    f ← arr_get (filtArr fs) i;
    fs ← set_filter fs i (set_state f (u8 enable));
    Some (1, fs)
  | None => Some (0, fs)
  end.

Definition acl_enable_all_filter (fs : FILTSET) (enable : Z) : option (Z * FILTSET) :=
  fs ← foldM (fun fs i => f ← arr_get (filtArr fs) i; set_filter fs i (set_state f (u8 enable)))
    (seqZ 0 (count fs)) fs;
  Some (1, fs).

(** The outputs of [getfileter] and [acl_getfilter_by_tagid]. *)
Record tuple5 : Type := Tuple5 { t_sip : Z; t_dip : Z; t_sp : Z; t_dp : Z; t_proto : Z }.

Record filter_info : Type := FilterInfo {
  i_rulenum : Z; i_state : Z; i_sync : Z; i_tuple : tuple5; i_pkts : Z; i_bytes : Z;
  i_op : Z; i_action : Z; i_rule_type : Z; i_rule_source : Z }.

Definition dim_lo (f : FILTER) (com : Z) : option Z := fst <$> arr_get (dim f) com.

Definition hi_lo (hi lo : Z) : Z :=
  Z.lor (Z.land (u32 (Z.shiftl hi 16)) 0xFFFF0000) (Z.land lo 0x0000FFFF).

Definition getfileter (f : FILTER) : option tuple5 :=
  d0 ← dim_lo f 0; d1 ← dim_lo f 1; d2 ← dim_lo f 2; d3 ← dim_lo f 3;
  d4 ← dim_lo f 4; d5 ← dim_lo f 5; d6 ← dim_lo f 6;
  Some (Tuple5 (hi_lo d0 d1) (hi_lo d2 d3) (Z.land d4 0xFFFF) (Z.land d5 0xFFFF)
          (Z.land d6 0xFFFF)).

Definition acl_get_statistic_hit (fs : FILTSET) (tagid : Z) : option Z :=
  v ← arr_get (pkt_num fs) tagid; Some (u64 v).
Definition acl_get_pkt_bytes (fs : FILTSET) (tagid : Z) : option Z :=
  v ← arr_get (pkt_bytes fs) tagid; Some (u64 v).

Definition acl_getfilter_by_tagid (fs : FILTSET) (tagid : Z) : option (Z * option filter_info) :=
  r ← find_tag fs tagid;
  match r with
  | None => Some (FRE_FAIL, None)
  | Some i =>
    f ← arr_get (filtArr fs) i;
    pkts ← acl_get_statistic_hit fs tagid;
    bytes ← acl_get_pkt_bytes fs tagid;
    t ← getfileter f;
    Some (FRE_SUCCESS, Some (FilterInfo (u16 i) (state f) (sync f) t (u32 pkts) (u32 bytes)
      (op f) (action f) (rule_type f) (rule_source f)))
  end.

(** ** Counters *)

Definition acl_statistic_hit (fs : FILTSET) (tagid : Z) : option FILTSET :=
  v ← arr_get (pkt_num fs) tagid; set_pkt_num fs tagid (wraps 64 (v + 1)).
Definition acl_init_statistic_hit (fs : FILTSET) (tagid : Z) : option FILTSET :=
  set_pkt_num fs tagid 0.
Definition acl_pkt_bytes_add (fs : FILTSET) (tagid pkt_len : Z) : option FILTSET :=
  v ← arr_get (pkt_bytes fs) tagid; set_pkt_bytes fs tagid (wraps 64 (v + pkt_len)).
Definition acl_init_pkt_bytes (fs : FILTSET) (tagid : Z) : option FILTSET :=
  set_pkt_bytes fs tagid 0.

Definition acl_initfilter_statistics_by_tagid (fs : FILTSET) (tagid : Z) : option FILTSET :=
  fs ← acl_init_statistic_hit fs tagid; acl_init_pkt_bytes fs tagid.

Definition swap_filt_statistics (fs : FILTSET) (stag_id dtag_id : Z) : option FILTSET :=
  tmp ← arr_get (pkt_num fs) stag_id;
  v ← arr_get (pkt_num fs) dtag_id;
  fs ← set_pkt_num fs stag_id v;
  set_pkt_num fs dtag_id tmp.

(** ** Moving filters *)

Definition acl_initOneFilter_by_index (fs : FILTSET) (index : Z) : option FILTSET :=
  f ← arr_get (filtArr fs) index;
  fs ← set_pkt_num fs (cost f) 0;
  fs ← set_pkt_bytes fs (cost f) 0;
  set_filter fs index ZERO_FILTER.

(** The body shared by the shifting loops: entry [dst] takes every field of
    [src], and the counters of [dst]'s tag those of [src]'s tag. *)
Definition shift_one (fs : FILTSET) (dst src : Z) : option FILTSET :=
  fd ← arr_get (filtArr fs) dst;
  f ← arr_get (filtArr fs) src;
  n ← arr_get (pkt_num fs) (cost f);
  fs ← set_pkt_num fs (cost fd) n;
  b ← arr_get (pkt_bytes fs) (cost f);
  fs ← set_pkt_bytes fs (cost fd) b;
  set_filter fs dst f.

(** [j] from [index] to [count - 2]. *)
Definition move_Forward_Filter_from_index (fs : FILTSET) (index : Z) : option FILTSET :=
  let c := count fs in
  fs ← foldM (fun fs j => shift_one fs j (j + 1)) (seqZ index (c - 1 - index)) fs;
  acl_initOneFilter_by_index fs (c - 1).

(** [j] from [count - 1] down to [index]. *)
Definition move_Back_Filter_from_index (fs : FILTSET) (index : Z) : option FILTSET :=
  foldM (fun fs j => shift_one fs (j + 1) j) (reverse (seqZ index (count fs - index))) fs.

Definition remove_at (fs : FILTSET) (i : Z) : option FILTSET :=
  fs ← (if i =? count fs - 1 then acl_initOneFilter_by_index fs i
        else move_Forward_Filter_from_index fs i);
  Some (set_numFilters fs (numFilters fs - 1)).

Definition acl_DeleteOneFilter_by_tagid (fs : FILTSET) (tagid : Z) : option (Z * FILTSET) :=
  r ← find_tag fs tagid;
  match r with
  | Some i => fs ← remove_at fs i; Some (FRE_SUCCESS, fs)
  | None => Some (FRE_NOTFOUND, fs)
  end.

(** ** Renumbering a filter *)

(** The four groups of fields that [copy_one_filter], [restore_one_filter] and
    [cover_one_filter] move: the others stay as they are in the destination. *)
Definition take_core (dst src : FILTER) : FILTER :=
  Filter (cost src) (sync src) (state src) (op dst) (action dst) (rule_type dst)
    (rule_source dst) (dim src).

Definition set_cost (f : FILTER) (c : Z) : FILTER :=
  Filter c (sync f) (state f) (op f) (action f) (rule_type f) (rule_source f) (dim f).

Definition copy_one_filter (filt : FILTER) (fs : FILTSET) (index : Z) : option FILTER :=
  f ← arr_get (filtArr fs) index; Some (take_core filt f).

Definition restore_one_filter (fs : FILTSET) (index : Z) (filt : FILTER) : option FILTSET :=
  f ← arr_get (filtArr fs) index; set_filter fs index (take_core f filt).

Definition cover_one_filter (fs : FILTSET) (sindex dindex : Z) : option FILTSET :=
  f ← arr_get (filtArr fs) dindex; restore_one_filter fs sindex f.

(** Both tags exist: exchange the two filters. *)
Definition updatefiltertagid_by_stagid (fs : FILTSET) (stagid dtagid : Z)
    : option (Z * FILTSET) :=
  s1 ← acl_getfilter_state fs stagid;
  s2 ← acl_getfilter_state fs dtagid;
  if negb (s1 =? ACL_UNSET) && negb (s2 =? ACL_UNSET) then
    '(filt, sindex, dindex) ← foldM (fun '(filt, sindex, dindex) i =>
        f ← arr_get (filtArr fs) i;
        '(filt, sindex) ← (if stagid =? cost f
                           then filt ← copy_one_filter filt fs i; Some (filt, i)
                           else Some (filt, sindex));
        Some (filt, sindex, if dtagid =? cost f then i else dindex))
      (seqZ 0 (count fs)) (ZERO_FILTER, 0, 0);
    fs ← cover_one_filter fs sindex dindex;
    fs ← restore_one_filter fs dindex filt;
    f ← arr_get (filtArr fs) sindex;
    fs ← set_filter fs sindex (set_cost f stagid);
    f ← arr_get (filtArr fs) dindex;
    fs ← set_filter fs dindex (set_cost f dtagid);
    fs ← swap_filt_statistics fs stagid dtagid;
    Some (1, fs)
  else Some (0, fs).

(** The index of the first filter with a tag greater than [tag]. *)
Definition find_greater (fs : FILTSET) (tag : Z) : option (option Z) :=
  searchM (fun i => f ← arr_get (filtArr fs) i;
                    Some (if tag <? cost f then Some i else None)) (seqZ 0 (count fs)).

Definition acl_updatefiltertagid_by_stagid (fs : FILTSET) (stagid dtagid : Z)
    : option (Z * FILTSET) :=
  '(ret, fs) ← updatefiltertagid_by_stagid fs stagid dtagid;
  if negb (ret =? 0) then Some (1, fs) else
  r ← find_tag fs stagid;
  '(filt, fs) ← match r with
    | Some i =>
      filt ← copy_one_filter ZERO_FILTER fs i;
      fs ← remove_at fs i;
      Some (set_cost filt dtagid, fs)
    | None => Some (ZERO_FILTER, fs)
    end;
  r ← find_greater fs dtagid;
  fs ← match r with
    | Some i =>
      (* int index = 0 *)
      fs ← move_Back_Filter_from_index fs 0;
      restore_one_filter fs i filt
    | None => restore_one_filter fs (count fs) filt
    end;
  Some (1, set_numFilters fs (numFilters fs + 1)).

(** ** Setting a filter *)

(** [ptrange[i] = v] for [i = 3; i > 3 - masklit1; i--] *)
Definition fill_low (r : list Z) (masklit1 v : Z) : option (list Z) :=
  foldM (fun r k => arr_set r (3 - k) v) (seqZ 0 masklit1) r.

Definition pair16 (a b : Z) : Z := u32 (u32 (Z.shiftl a 8) + b).

(** [(highRange, lowRange)]; the mask is 32 for an address, 0 for 0. *)
Definition acl_readiprange (ip : Z) : option ((Z * Z) * (Z * Z)) :=
  let mask := if ip =? 0 then 0 else 32 in
  let trange := (fun i => Z.land (Z.shiftr ip ((3 - i) * 8)) 0xff) <$> seqZ 0 4 in
  let mask := u32 (32 - mask) in
  let masklit1 := mask / 8 in
  let masklit2 := mask `mod` 8 in
  let low := u32 (Z.shiftl 1 masklit2) - 1 in
  p ← fill_low trange masklit1 0;
  p ← (if masklit2 =? 0 then Some p else
       x ← arr_get p (3 - masklit1); arr_set p (3 - masklit1) (Z.land x (u32 (Z.lnot low))));
  p0 ← arr_get p 0; p1 ← arr_get p 1; p2 ← arr_get p 2; p3 ← arr_get p 3;
  let h0 := pair16 p0 p1 in
  let l0 := pair16 p2 p3 in
  p ← fill_low p masklit1 255;
  p ← (if masklit2 =? 0 then Some p else
       x ← arr_get p (3 - masklit1); arr_set p (3 - masklit1) (Z.lor x low));
  p0 ← arr_get p 0; p1 ← arr_get p 1; p2 ← arr_get p 2; p3 ← arr_get p 3;
  Some ((h0, pair16 p0 p1), (l0, pair16 p2 p3)).

Definition acl_ReadProtocol (proto : Z) : Z * Z :=
  if proto =? ACL_PROTOCOL_ANY then (0, 255) else (proto, proto).

Definition acl_ReadPort (port : Z) : Z * Z :=
  if negb (port =? 0) then (port, port) else (0, 65535).

(** The arguments of a rule: [frc_rule_t]. *)
Record frc_rule_t : Type := FrcRule {
  r_sip : Z; r_dip : Z; r_sp : Z; r_dp : Z; r_proto : Z; r_index : Z;
  r_rule_source : Z; r_rule_type : Z; r_action : Z; r_op : Z }.

Definition filter_of (targetid : Z) (r : frc_rule_t) : option FILTER :=
  '(h1, l1) ← acl_readiprange (r_sip r);
  '(h2, l2) ← acl_readiprange (r_dip r);
  Some (Filter targetid ACL_NOSYNC ACL_ENABLE (r_op r) (r_action r) (r_rule_type r)
    (r_rule_source r)
    [h1; l1; h2; l2; acl_ReadPort (r_sp r); acl_ReadPort (r_dp r); acl_ReadProtocol (r_proto r)]).

Definition setfilter (fs : FILTSET) (index targetid : Z) (r : frc_rule_t) (cover : bool)
    : option FILTSET :=
  f ← filter_of targetid r;
  fs ← set_filter fs (u16 index) f;
  fs ← set_pkt_num fs targetid 0;
  fs ← set_pkt_bytes fs targetid 0;
  Some (if cover then fs else set_numFilters fs (numFilters fs + 1)).

(** Where the scan of [acl_setfilter] stops: before a greater tag or on an
    equal one. *)
Inductive position : Type := Before (i : Z) | At (i : Z).

Definition find_position (fs : FILTSET) (tag : Z) : option (option position) :=
  searchM (fun i => f ← arr_get (filtArr fs) i;
      Some (if tag <? cost f then Some (Before i)
            else if tag =? cost f then Some (At i) else None)) (seqZ 0 (count fs)).

Definition acl_setfilter (fs : FILTSET) (targetid : Z) (r : frc_rule_t) : option FILTSET :=
  p ← find_position fs targetid;
  match p with
  | Some (Before i) =>
    fs ← move_Back_Filter_from_index fs i;
    setfilter fs i targetid r false
  | Some (At i) => setfilter fs i targetid r true
  | None => setfilter fs (count fs) targetid r false
  end.

(** ** Compilation and lookup *)

Definition pre_acl_lookup_by_tuple (d : mpp_acl_filtset) : option (Z * mpp_acl_filtset) :=
  '(_, p0, fs) ← SetPhase0_Cell (phase0_Nodes d) (filtset d);
  '(ret, p1) ← SetPhase1_Cell p0 (phase1_Nodes d);
  if ret =? ACL_ERROR
  then Some (MC_ERROR, MppAclFiltset fs p0 p1 (phase2_Nodes d) (phase3_Node d)) else
  '(ret, p2) ← SetPhase2_Cell p0 p1 (phase2_Nodes d);
  if ret =? ACL_ERROR
  then Some (MC_ERROR, MppAclFiltset fs p0 p1 p2 (phase3_Node d)) else
  '(ret, p3) ← SetPhase3_Cell fs p2 (phase3_Node d);
  if ret =? ACL_ERROR
  then Some (MC_ERROR, MppAclFiltset fs p0 p1 p2 p3) else
  Some (FRE_SUCCESS, MppAclFiltset fs p0 p1 p2 p3).

(** [cell[i]] of a table: unwritten and out-of-range cells are [None]. *)
Definition read_cell (c : cells) (i : Z) : option Z := c !! i.

Definition acl_lookup_by_tuple (d : mpp_acl_filtset) (siph sipl diph dipl sp dp proto : Z)
    : option Z :=
  let p0 com v := node ← arr_get (phase0_Nodes d) com; read_cell (cell node) v in
  let n0 com := nCES ∘ listEqs <$> arr_get (phase0_Nodes d) com in
  let pr nodes com v := node ← arr_get nodes com; read_cell (rcell node) v in
  let nr nodes com := nCES ∘ rlistEqs <$> arr_get nodes com in
  cid0 ← p0 0 siph; cid1 ← p0 1 sipl; cid2 ← p0 2 diph; cid3 ← p0 3 dipl;
  cid4 ← p0 4 sp; cid5 ← p0 5 dp; cid6 ← p0 6 proto;
  n1 ← n0 1; n3 ← n0 3; n5 ← n0 5;
  cid7 ← pr (phase1_Nodes d) 0 (u32 (cid0 * n1 + cid1));
  cid8 ← pr (phase1_Nodes d) 1 (u32 (cid2 * n3 + cid3));
  cid9 ← pr (phase1_Nodes d) 2 (u32 (cid4 * n5 + cid5));
  n8 ← nr (phase1_Nodes d) 1; n6 ← n0 6;
  cid10 ← pr (phase2_Nodes d) 0 (u32 (cid7 * n8 + cid8));
  cid11 ← pr (phase2_Nodes d) 1 (u32 (cid9 * n6 + cid6));
  n11 ← nr (phase2_Nodes d) 1;
  read_cell (rcell (phase3_Node d)) (u32 (cid10 * n11 + cid11)).
