(* ===== verification/AclClassify.v ===== *)
(** * Correctness of the compiled classifier

    The specification is [classify]: scan the live filters in order, the first
    enabled one whose seven ranges contain the packet decides.  The tables that
    [pre_acl_lookup_by_tuple] builds answer exactly that ([compile_correct]),
    and building them is defined, and succeeds, whenever the number of filters
    is small enough for the fixed arrays. *)

From S2P Require Import Prelude Rfc RfcBitmap RfcCorrect RfcPhases Acl.
#[local] Open Scope Z_scope.

(** ** Specification *)

(** The seven classification fields of a packet. *)
Definition packet : Type := Z -> Z.

Definition packet_of (siph sipl diph dipl sp dp proto : Z) : packet := fun com =>
  nthZ [siph; sipl; diph; dipl; sp; dp; proto] com.

Definition filter_match (p : packet) (f : FILTER) : bool :=
  (state f =? ACL_ENABLE) && forallb (fun com => in_dim f com (p com)) (seqZ 0 7).

Definition live (fs : FILTSET) : list FILTER := take (Z.to_nat (numFilters fs)) (filtArr fs).

(** The tag of the first match, of the last array entry when none matches. *)
Definition classify (fs : FILTSET) (p : packet) : Z :=
  let i := match first_index (filter_match p) (live fs) with
           | Some i => Z.of_nat i | None => MPP_MAX_FILTERS - 1 end in
  u16 (from_option cost 0 (arr_get (filtArr fs) i)).

(** The memory of the tables: arrays of the declared sizes. *)
Record tables_alloc (d : mpp_acl_filtset) : Prop := TablesAlloc {
  ta_0 : length (phase0_Nodes d) = 7%nat /\ Forall (fun n => cap (listEqs n)) (phase0_Nodes d);
  ta_1 : length (phase1_Nodes d) = 3%nat /\ Forall rcap (phase1_Nodes d);
  ta_2 : length (phase2_Nodes d) = 2%nat /\ Forall rcap (phase2_Nodes d) }.

(** ** From bitmaps to the first match *)

Definition all_on (fs : FILTSET) (p : packet) (i : Z) : bool :=
  forallb (fun com => rule_on fs com (p com) i) (seqZ 0 7).

Lemma all_on_live fs p i :
  fs_ok fs -> 0 <= i ->
  all_on fs p i = from_option (filter_match p) false (live fs !! Z.to_nat i).
Proof.
  intros Hfs Hi. pose proof (fs_num _ Hfs). pose proof (fs_arr _ Hfs).
  unfold all_on, live, rule_on. destruct (Z.ltb_spec i (numFilters fs)) as [Hlt|Hge].
  - rewrite lookup_take_lt by lia. unfold arr_get. rewrite (proj2 (Z.leb_le 0 i) Hi).
    destruct (filtArr fs !! Z.to_nat i) as [f|] eqn:E; simpl; [|done].
    unfold filter_on, filter_match. destruct (state f =? ACL_ENABLE); simpl; [done|done].
  - rewrite lookup_take_ge by lia. done.
Qed.

Lemma classify_bitmap fs p b :
  fs_ok fs -> bmp_ok b -> (forall j, 0 <= j < NBITS -> bit b j = all_on fs p j) ->
  acl_get_tagid_by_ruleid fs (GetRuleCost b) = Some (classify fs p).
Proof.
  intros Hfs Hb Hbit. pose proof (fs_num _ Hfs). pose proof (fs_arr _ Hfs) as Ha.
  destruct (GetRuleCost_spec b) as [Hr Hspec].
  assert (NBITS = MPP_MAX_FILTERS) as HN by done. unfold MPP_MAX_FILTERS in *.
  assert (GetRuleCost b = match first_index (filter_match p) (live fs) with
           | Some i => Z.of_nat i | None => 2048 - 1 end) as E.
  { destruct (first_index _ _) as [i|] eqn:Ei.
    - apply first_index_lt in Ei as Hlt. unfold live in Hlt. rewrite length_take in Hlt.
      apply first_index_Some in Ei as (f & Hf & Hm & Hbefore).
      assert (bit b (Z.of_nat i) = true) as Hbi.
      { rewrite Hbit, all_on_live by (done || lia). by rewrite Nat2Z.id, Hf. }
      destruct Hspec as [[Ht Hlow]|[_ Hnone]]; [|rewrite Hnone in Hbi by lia; done].
      destruct (Z.lt_trichotomy (GetRuleCost b) (Z.of_nat i)) as [Hl|[?|Hg]]; [|done|].
      + rewrite Hbit, all_on_live in Ht by (done || lia).
        destruct (live fs !! _) as [g|] eqn:Eg; [|done].
        simpl in Ht. by rewrite (Hbefore (Z.to_nat (GetRuleCost b)) g ltac:(lia) Eg) in Ht.
      + rewrite (Hlow (Z.of_nat i)) in Hbi by lia. done.
    - rewrite first_index_None in Ei. destruct Hspec as [[Ht _]|[-> _]]; [|done].
      rewrite Hbit, all_on_live in Ht by (done || lia).
      destruct (live fs !! _) as [g|] eqn:Eg; [|done]. simpl in Ht. by rewrite (Ei _ _ Eg) in Ht. }
  unfold acl_get_tagid_by_ruleid, classify, MPP_MAX_FILTERS. rewrite <- E, wrapu_id by (simpl; lia).
  destruct (arr_get_is_Some (filtArr fs) (GetRuleCost b)) as [f ->]; [lia|]. done.
Qed.

(** ** Phase 3 and the lookup chain *)

(** A class whose bitmap is a set of rules. *)
Lemma names_intersect l id P1 P2 b1 b2 :
  class_at l id (intersect b1 b2) -> bmp_ok b1 -> bmp_ok b2 ->
  (forall j, 0 <= j < NBITS -> bit b1 j = P1 j) -> (forall j, 0 <= j < NBITS -> bit b2 j = P2 j) ->
  names l id (fun j => P1 j && P2 j).
Proof.
  intros Hc H1 H2 E1 E2. eexists. split; [done|]. split; [by apply intersect_ok|].
  intros j Hj. by rewrite intersect_bit, E1, E2.
Qed.

Lemma crossed_names l1 l2 node id1 id2 P1 P2 :
  crossed_node l1 l2 node -> names l1 id1 P1 -> names l2 id2 P2 ->
  exists id, read_cell (rcell node) (u32 (id1 * nCES l2 + id2)) = Some id /\
    names (rlistEqs node) id (fun j => P1 j && P2 j).
Proof.
  intros Hc (b1 & Hc1 & Ho1 & E1) (b2 & Hc2 & Ho2 & E2).
  destruct (Hc _ _ _ _ Hc1 Hc2) as (Hr & id & Hcell & Hid).
  exists id. unfold read_cell. unfold ACL_MAX_CELL in Hr. rewrite wrapu_id by (simpl; lia).
  split; [done|]. by eapply names_intersect.
Qed.

(** The last table maps a pair of classes to the tag of the least rule. *)
Definition final_ok (fs : FILTSET) (l1 l2 : LISTEqS) (node : Pnoder) : Prop :=
  forall id1 id2 b1 b2, class_at l1 id1 b1 -> class_at l2 id2 b2 ->
    exists tag, acl_get_tagid_by_ruleid fs (GetRuleCost (intersect b1 b2)) = Some tag /\
      read_cell (rcell node) (u32 (id1 * nCES l2 + id2)) = Some tag.

Definition same_tags (fs fs' : FILTSET) : Prop :=
  numFilters fs' = numFilters fs /\ length (filtArr fs') = length (filtArr fs) /\
  forall i f, arr_get (filtArr fs) i = Some f -> exists sy,
    arr_get (filtArr fs') i = Some (set_sync f sy).

Section compile.
Context (fs : FILTSET) (Hfs : fs_ok fs) (tot : bool) (Htot : tot = true -> numFilters fs <= 11).
Context (fs' : FILTSET) (Hsame : same_rules fs fs').
Abbreviation cls := (classes (UB (numFilters fs))).

Lemma tag_same i : acl_get_tagid_by_ruleid fs' i = acl_get_tagid_by_ruleid fs i.
Proof using Hsame.
  destruct Hsame as (_ & _ & _ & Hl & Hs). unfold acl_get_tagid_by_ruleid.
  destruct (arr_get (filtArr fs) (u16 i)) as [f|] eqn:E.
  - destruct (Hs _ _ E) as (sy & ->). done.
  - unfold arr_get in *. destruct (0 <=? u16 i); [|done].
    rewrite lookup_ge_None in E. rewrite <- Hl in E. by rewrite (proj2 (lookup_ge_None _ _)).
Qed.

Lemma rule_cost_defined b : exists tag, 
  acl_get_tagid_by_ruleid fs' (GetRuleCost b) = Some tag /\ 0 <= tag < 2 ^ 16.
Proof using Hfs Hsame.
  destruct (GetRuleCost_spec b) as [Hr _]. pose proof (fs_arr _ Hfs).
  rewrite tag_same. unfold acl_get_tagid_by_ruleid. unfold NBITS, SIZE, LENGTH in Hr.
  rewrite wrapu_id by (simpl; lia). unfold MPP_MAX_FILTERS in *.
  destruct (arr_get_is_Some (filtArr fs) (GetRuleCost b)) as [f ->]; [lia|].
  eexists. split; [done|]. by apply wrapu_range.
Qed.

Lemma SetPhase3_Cell_wp nodes node n1 n2 :
  arr_get nodes 0 = Some n1 -> arr_get nodes 1 = Some n2 ->
  (exists bs, cls (rlistEqs n1) bs) -> (exists bs, cls (rlistEqs n2) bs) ->
  wp tot (SetPhase3_Cell fs' nodes node) (fun '(ret, node') =>
    (ret = ACL_ERROR /\ 9 < numFilters fs) \/
    (ret = ACL_OK /\ final_ok fs' (rlistEqs n1) (rlistEqs n2) node')).
Proof using Hfs Hsame.
  intros E1 E2 [bs1 H1] [bs2 H2]. unfold SetPhase3_Cell. rewrite E1, E2. simpl.
  rewrite (reps_n _ _ (proj1 H1)), (reps_n _ _ (proj1 H2)).
  pose proof (reps_le _ _ (proj1 H1)). pose proof (reps_le _ _ (proj1 H2)).
  unfold MPP_MAX_FILTERS in *. rewrite (wrapu_id 32) by (simpl; nia).
  destruct (Z.ltb_spec ACL_MAX_CELL (Z.of_nat (length bs1) * Z.of_nat (length bs2))) as [Hm|Hm].
  { simpl. left. split; [done|]. apply Z.nle_gt. intros Hn.
    pose proof (cls_length fs Hfs _ _ H1 Hn). pose proof (cls_length fs Hfs _ _ H2 Hn).
    unfold ACL_MAX_CELL in Hm. nia. }
  apply wp_bind. eapply wp_mono.
  - apply (pair_loop_wp tot (UB (numFilters fs)) (fun indx s => s.1 = indx /\
      forall i j b1 b2, bs1 !! i = Some b1 -> bs2 !! j = Some b2 ->
        let k := Z.of_nat i * Z.of_nat (length bs2) + Z.of_nat j in
        k < indx -> s.2 !! k = acl_get_tagid_by_ruleid fs' (GetRuleCost (intersect b1 b2)))
      (phase3_step fs') _ _ bs1 bs2); [done|done| |].
    { split; [done|]. intros. lia. }
    intros i j b1 b2 [x c] Hb1 Hb2 indx Hlt [Hx Hc]. simpl in Hx, Hc. subst x.
    unfold phase3_step. destruct (rule_cost_defined (intersect b1 b2)) as (tag & Et & Htag).
    rewrite Et. simpl. rewrite (wrapu_id 16) by done.
    unfold ACL_MAX_CELL in *. rewrite cell_set_eq by lia. simpl. split.
    { simpl. rewrite wrapu_id by (simpl; lia). done. }
    intros i' j' x1 x2 Hx1 Hx2 Hlt'. simpl.
    apply lookup_lt_Some in Hb2 as Hj. apply lookup_lt_Some in Hx2 as Hj'.
    destruct (decide (Z.of_nat i' * Z.of_nat (length bs2) + Z.of_nat j' = indx)) as [E|E].
    + rewrite E, lookup_insert_eq. subst indx.
      apply crossed_index in E as [->%Nat2Z.inj ->%Nat2Z.inj]; [|lia..]. by simplify_eq.
    + rewrite lookup_insert_ne by done. apply Hc; [done..|lia].
  - intros [x c] [_ Hc]. simpl. right. split; [done|].
    intros id1 id2 b1 b2 Hb1 Hb2. rewrite (classes_at _ _ _ _ _ H1) in Hb1.
    rewrite (classes_at _ _ _ _ _ H2) in Hb2. destruct Hb1 as [Hid1 Hb1], Hb2 as [Hid2 Hb2].
    destruct (rule_cost_defined (intersect b1 b2)) as (tag & Et & _). exists tag.
    split; [done|]. rewrite (reps_n _ _ (proj1 H2)). unfold read_cell. simpl.
    pose proof (Hc _ _ _ _ Hb1 Hb2) as Hk. simpl in Hk. rewrite !Z2Nat.id in Hk by lia.
    apply lookup_lt_Some in Hb1. apply lookup_lt_Some in Hb2. unfold ACL_MAX_CELL in *.
    rewrite wrapu_id by (simpl; nia). rewrite Hk by nia. done.
Qed.
End compile.

(** ** The whole compilation *)

Definition list0 (nodes : list Pnode) (k : Z) : LISTEqS :=
  from_option listEqs (ListEqS 0 []) (arr_get nodes k).
Definition listr (nodes : list Pnoder) (k : Z) : LISTEqS :=
  from_option rlistEqs (ListEqS 0 []) (arr_get nodes k).

(** Every lookup in the tables of [d] gives the classification by [fs]. *)
Definition compiled (fs : FILTSET) (d : mpp_acl_filtset) : Prop :=
  forall siph sipl diph dipl sp dp proto,
    0 <= siph < NLINE -> 0 <= sipl < NLINE -> 0 <= diph < NLINE -> 0 <= dipl < NLINE ->
    0 <= sp < NLINE -> 0 <= dp < NLINE -> 0 <= proto < 256 ->
    acl_lookup_by_tuple d siph sipl diph dipl sp dp proto =
    Some (classify fs (packet_of siph sipl diph dipl sp dp proto)).

Section lookup.
Context (fs : FILTSET) (Hfs : fs_ok fs) (fs' : FILTSET) (Hsame : same_rules fs fs').

Lemma lookup_correct d :
  (forall com, 0 <= com < 7 -> exists n, arr_get (phase0_Nodes d) com = Some n /\ phase0_ok fs com n) ->
  (forall com, 0 <= com < 3 -> exists n, arr_get (phase1_Nodes d) com = Some n /\
     crossed_node (list0 (phase0_Nodes d) (2 * com)) (list0 (phase0_Nodes d) (2 * com + 1)) n) ->
  (exists n, arr_get (phase2_Nodes d) 0 = Some n /\
     crossed_node (listr (phase1_Nodes d) 0) (listr (phase1_Nodes d) 1) n) ->
  (exists n, arr_get (phase2_Nodes d) 1 = Some n /\
     crossed_node (listr (phase1_Nodes d) 2) (list0 (phase0_Nodes d) 6) n) ->
  final_ok fs' (listr (phase2_Nodes d) 0) (listr (phase2_Nodes d) 1) (phase3_Node d) ->
  compiled fs d.
Proof using Hfs Hsame.
  intros H0 H1 (m0 & Em0 & Cm0) (m1 & Em1 & Cm1) Hfin
    siph sipl diph dipl sp dp proto R0 R1 R2 R3 R4 R5 R6.
  set (p := packet_of siph sipl diph dipl sp dp proto).
  assert (forall com v, 0 <= com < 7 -> p com = v -> 0 <= v < NLINE -> exists n,
    arr_get (phase0_Nodes d) com = Some n /\ list0 (phase0_Nodes d) com = listEqs n /\
    exists id, cell n !! v = Some id /\ names (listEqs n) id (rule_on fs com (p com))) as Hp0.
  { intros com v Hcom Hv Hr. destruct (H0 com Hcom) as (n & En & Hn).
    destruct (Hn v Hr) as (id & Hc & Hid). exists n. unfold list0. rewrite En, Hv. eauto. }
  destruct (Hp0 0 siph) as (n0 & E0 & L0 & i0 & C0 & N0); [lia|done|done|].
  destruct (Hp0 1 sipl) as (n1 & E1 & L1 & i1 & C1 & N1); [lia|done|done|].
  destruct (Hp0 2 diph) as (n2 & E2 & L2 & i2 & C2 & N2); [lia|done|done|].
  destruct (Hp0 3 dipl) as (n3 & E3 & L3 & i3 & C3 & N3); [lia|done|done|].
  destruct (Hp0 4 sp) as (n4 & E4 & L4 & i4 & C4 & N4); [lia|done|done|].
  destruct (Hp0 5 dp) as (n5 & E5 & L5 & i5 & C5 & N5); [lia|done|done|].
  destruct (Hp0 6 proto) as (n6 & E6 & L6 & i6 & C6 & N6); [lia|done|unfold NLINE; lia|].
  destruct (H1 0 ltac:(lia)) as (q0 & F0 & G0). destruct (H1 1 ltac:(lia)) as (q1 & F1 & G1).
  destruct (H1 2 ltac:(lia)) as (q2 & F2 & G2).
  change (crossed_node (list0 (phase0_Nodes d) 0) (list0 (phase0_Nodes d) 1) q0) in G0.
  change (crossed_node (list0 (phase0_Nodes d) 2) (list0 (phase0_Nodes d) 3) q1) in G1.
  change (crossed_node (list0 (phase0_Nodes d) 4) (list0 (phase0_Nodes d) 5) q2) in G2.
  rewrite L0, L1 in G0. rewrite L2, L3 in G1. rewrite L4, L5 in G2.
  unfold listr in *. rewrite F0, F1 in Cm0. rewrite F2, L6 in Cm1.
  rewrite Em0, Em1 in Hfin. unfold from_option in *.
  destruct (crossed_names _ _ _ _ _ _ _ G0 N0 N1) as (i7 & C7 & N7).
  destruct (crossed_names _ _ _ _ _ _ _ G1 N2 N3) as (i8 & C8 & N8).
  destruct (crossed_names _ _ _ _ _ _ _ G2 N4 N5) as (i9 & C9 & N9).
  destruct (crossed_names _ _ _ _ _ _ _ Cm0 N7 N8) as (i10 & C10 & (b1 & A1 & O1 & B1)).
  destruct (crossed_names _ _ _ _ _ _ _ Cm1 N9 N6) as (i11 & C11 & (b2 & A2 & O2 & B2)).
  destruct (Hfin _ _ _ _ A1 A2) as (tag & Et & Ct).
  rewrite (tag_same fs fs' Hsame) in Et.
  rewrite (classify_bitmap fs p) in Et; [|done|by apply intersect_ok|].
  - unfold acl_lookup_by_tuple, read_cell in *.
    repeat (rewrite ?E0, ?E1, ?E2, ?E3, ?E4, ?E5, ?E6, ?F0, ?F1, ?F2, ?Em0, ?Em1,
      ?C0, ?C1, ?C2, ?C3, ?C4, ?C5, ?C6, ?C7, ?C8, ?C9, ?C10, ?C11; simpl).
    rewrite Ct. symmetry. exact Et.
  - intros j Hj. rewrite intersect_bit, B1, B2 by done. unfold all_on.
    change (seqZ 0 7) with [0; 1; 2; 3; 4; 5; 6]. simpl. rewrite andb_true_r, !andb_assoc.
    done.
Qed.
End lookup.

Lemma arr_get_head {A} (l : list A) k x : arr_get l k = Some x -> 0 <= k.
Proof. by intros [? _]%arr_get_Some. Qed.

Lemma compile_wp (tot : bool) d :
  fs_ok (filtset d) -> tables_alloc d -> (tot = true -> numFilters (filtset d) <= 11) ->
  wp tot (pre_acl_lookup_by_tuple d) (fun '(rc, d') =>
    set_filt_sync (filtset d) = Some (filtset d') /\ tables_alloc d' /\
    ((rc = MC_ERROR /\ 9 < numFilters (filtset d)) \/
     (rc = FRE_SUCCESS /\ compiled (filtset d) d'))).
Proof.
  intros Hfs [[Hl0 Ha0] [Hl1 Ha1] [Hl2 Ha2]] Htot. unfold pre_acl_lookup_by_tuple.
  set (fs := filtset d) in *. apply wp_bind.
  eapply wp_mono; [by apply (SetPhase0_Cell_wp fs Hfs tot Htot)|].
  intros [[r p0] fs'] (_ & Efs & Hlen0 & H0). apply wp_bind.
  destruct (set_filt_sync_spec fs Hfs) as (fs1 & E1 & Hsame & _).
  assert (fs1 = fs') as -> by congruence.
  assert (forall k, 0 <= k < 7 -> exists bs, classes (UB (numFilters fs)) (list0 p0 k) bs) as HL0.
  { intros k Hk. destruct (H0 k Hk) as (n & En & _ & bs & Hbs). unfold list0. rewrite En. eauto. }
  assert (Forall (fun n => cap (listEqs n)) p0) as Hc0.
  { apply Forall_lookup. intros k n Hn. apply lookup_lt_Some in Hn as Hk.
    destruct (H0 (Z.of_nat k) ltac:(lia)) as (n' & En & _ & bs & [Hbs _]).
    rewrite arr_get_nat in En. simplify_eq. exact (reps_cap _ _ Hbs). }
  eapply wp_mono.
  { apply (chunks_wp fs Hfs tot Htot (fun com => list0 p0 (2 * com))
      (fun com => list0 p0 (2 * com + 1)) (phase1_chunk p0) 3); [lia| | |lia|done].
    - intros com nodes Hcom. unfold phase1_chunk, chunk_of, list0.
      destruct (H0 (2 * com) ltac:(lia)) as (x & -> & _).
      destruct (H0 (2 * com + 1) ltac:(lia)) as (y & -> & _). done.
    - intros com Hcom. split; apply HL0; lia. }
  intros [rc p1] (Hlen1 & Hc1 & Hrc). destruct Hrc as [[-> Hbig]|[-> H1]]; simpl.
  { split; [done|]. split; [split; (split; [simpl; lia|done])|]. by left. }
  assert (forall k, 0 <= k < 3 -> exists bs, classes (UB (numFilters fs)) (listr p1 k) bs) as HL1.
  { intros k Hk. destruct (H1 k Hk) as (n & En & _ & bs & Hbs). unfold listr. rewrite En. eauto. }
  apply wp_bind. eapply wp_mono.
  { apply (chunks_wp fs Hfs tot Htot (fun com => if com =? 0 then listr p1 0 else listr p1 2)
      (fun com => if com =? 0 then listr p1 1 else list0 p0 6) (phase2_chunk p0 p1) 2);
      [lia| | |lia|done].
    - intros com nodes Hcom. unfold phase2_chunk, chunk_of, list0, listr.
      destruct (H1 0 ltac:(lia)) as (x0 & -> & _). destruct (H1 1 ltac:(lia)) as (x1 & -> & _).
      destruct (H1 2 ltac:(lia)) as (x2 & -> & _). destruct (H0 6 ltac:(lia)) as (y & -> & _).
      by destruct (com =? 0).
    - intros com Hcom. destruct (com =? 0); split; (apply HL1 || apply HL0); lia. }
  intros [rc p2] (Hlen2 & Hc2 & Hrc). destruct Hrc as [[-> Hbig]|[-> H2]]; simpl.
  { split; [done|]. split; [split; (split; [simpl; lia|done])|]. by left. }
  destruct (H2 0 ltac:(lia)) as (m0 & Em0 & Cm0 & Bm0).
  destruct (H2 1 ltac:(lia)) as (m1 & Em1 & Cm1 & Bm1). simpl in Cm0, Cm1.
  apply wp_bind. eapply wp_mono; [by apply (SetPhase3_Cell_wp fs Hfs tot fs' Hsame p2 _ m0 m1)|].
  intros [rc p3] [[-> Hbig]|[-> H3]]; simpl; (split; [done|]);
    (split; [split; (split; [simpl; lia|done])|]); [by left|right].
  split; [done|]. apply (lookup_correct fs Hfs fs' Hsame); simpl.
  - intros com Hcom. destruct (H0 com Hcom) as (n & En & Hn & _). eauto.
  - intros com Hcom. destruct (H1 com Hcom) as (n & En & Hn & _). eauto.
  - eauto.
  - eauto.
  - unfold listr. by rewrite Em0, Em1.
Qed.

(** Zero-initialised memory. *)
Definition zero_list : LISTEqS := ListEqS 0 (replicate (Z.to_nat MPP_MAX_FILTERS) (Ces 0 [])).
Definition zero_acl (fs : FILTSET) : mpp_acl_filtset :=
  MppAclFiltset fs (replicate 7 (PNode ∅ zero_list)) (replicate 3 (PNoder 0 ∅ zero_list))
    (replicate 2 (PNoder 0 ∅ zero_list)) (PNoder 0 ∅ zero_list).

Lemma zero_cap : cap zero_list.
Proof. unfold cap, zero_list. cbn [ces]. by rewrite length_replicate. Qed.

Lemma zero_acl_alloc fs : tables_alloc (zero_acl fs).
Proof.
  split; simpl; (split; [done|]); repeat (constructor; [exact zero_cap|]); constructor.
Qed.

(** A rule set of the given filters, in the first entries of the array. *)
Definition filtset_of (l : list FILTER) : FILTSET :=
  Filtset (Z.of_nat (length l)) (l ++ replicate (2048 - length l) ZERO_FILTER)
    (replicate 2048 0) (replicate 2048 0).

Lemma zero_filter_ok : filter_ok ZERO_FILTER.
Proof. split; [done|]. repeat constructor; simpl; unfold NLINE; lia. Qed.

Lemma filtset_of_ok l :
  (length l <= 2048)%nat -> Forall filter_ok l -> fs_ok (filtset_of l).
Proof.
  intros Hl Hf. split; simpl; unfold MPP_MAX_FILTERS.
  - lia.
  - rewrite length_app, length_replicate. lia.
  - apply Forall_app_2; [done|]. apply Forall_replicate, zero_filter_ok.
Qed.

(** ** Properties *)

(** C8: Whenever [pre_acl_lookup_by_tuple] compiles a well-formed rule set, either it
    reports the size error (only possible with ten or more filters), or every
    later lookup of any packet returns the tag of the first enabled filter
    that matches it in all seven dimensions (the tag of the last array entry
    when none does). *)
Theorem compile_correct d rc d' :
  fs_ok (filtset d) -> tables_alloc d -> pre_acl_lookup_by_tuple d = Some (rc, d') ->
  (rc = MC_ERROR /\ 9 < numFilters (filtset d)) \/
  (rc = FRE_SUCCESS /\ forall siph sipl diph dipl sp dp proto,
    0 <= siph < NLINE -> 0 <= sipl < NLINE -> 0 <= diph < NLINE -> 0 <= dipl < NLINE ->
    0 <= sp < NLINE -> 0 <= dp < NLINE -> 0 <= proto < 256 ->
    acl_lookup_by_tuple d' siph sipl diph dipl sp dp proto =
    Some (classify (filtset d) (packet_of siph sipl diph dipl sp dp proto))).
Proof.
  intros Hfs Ha E. pose proof (compile_wp false d Hfs Ha ltac:(done)) as Hw.
  rewrite E in Hw. by destruct Hw as (_ & _ & H).
Qed.

(** C29: Compilation never indexes out of an array, and succeeds, for up to nine
    filters; up to eleven filters it is free of undefined behaviour. *)
Theorem compile_total d :
  fs_ok (filtset d) -> tables_alloc d -> numFilters (filtset d) <= 11 ->
  exists rc d', pre_acl_lookup_by_tuple d = Some (rc, d') /\
    (numFilters (filtset d) <= 9 -> rc = FRE_SUCCESS).
Proof.
  intros Hfs Ha Hn. pose proof (compile_wp true d Hfs Ha ltac:(done)) as Hw.
  apply wp_total in Hw as ([rc d'] & E & _ & _ & Hrc). exists rc, d'. split; [done|].
  intros H9. destruct Hrc as [[_ ?]|[? _]]; [lia|done].
Qed.

(** Compiling changes nothing but the synchronisation marks of the rule set
    and keeps the tables well-formed, so it can be repeated. *)
Theorem compile_stable d rc d' :
  fs_ok (filtset d) -> tables_alloc d -> pre_acl_lookup_by_tuple d = Some (rc, d') ->
  tables_alloc d' /\ same_rules (filtset d) (filtset d') /\
  forall i f, i < numFilters (filtset d) -> arr_get (filtArr (filtset d')) i = Some f ->
    sync f = if state f =? ACL_ENABLE then ACL_SYNC else ACL_NOSYNC.
Proof.
  intros Hfs Ha E. pose proof (compile_wp false d Hfs Ha ltac:(done)) as Hw.
  rewrite E in Hw. destruct Hw as (Es & Ha' & _).
  destruct (set_filt_sync_spec _ Hfs) as (fs' & Es' & Hsame & Hsync).
  rewrite Es in Es'. injection Es' as <-. split; [done|]. split; [done|].
  intros i f Hi Hf. rewrite Hsync in Hf. case_decide; [|lia].
  apply fmap_Some in Hf as (g & _ & ->). done.
Qed.

Definition two_filters : list FILTER :=
  [Filter 5 0 ACL_ENABLE 0 0 0 0
     [(2570, 2570); (1, 1); (0, 65535); (0, 65535); (0, 65535); (80, 80); (0, 255)];
   Filter 9 0 ACL_ENABLE 0 0 0 0
     [(0, 65535); (0, 65535); (0, 65535); (0, 65535); (0, 65535); (0, 65535); (6, 6)]].

Lemma two_filters_ok : fs_ok (filtset_of two_filters).
Proof.
  apply filtset_of_ok; [simpl; lia|]. repeat constructor; simpl; unfold NLINE; lia.
Qed.

Lemma compile_total_witness :
  exists rc d', pre_acl_lookup_by_tuple (zero_acl (filtset_of two_filters)) = Some (rc, d') /\
    (2 <= 9 -> rc = FRE_SUCCESS).
Proof.
  exact (compile_total (zero_acl (filtset_of two_filters)) two_filters_ok
    (zero_acl_alloc _) ltac:(simpl; lia)).
Defined.

Lemma compile_two : exists d',
  pre_acl_lookup_by_tuple (zero_acl (filtset_of two_filters)) = Some (FRE_SUCCESS, d').
Proof.
  pose proof (compile_wp true (zero_acl (filtset_of two_filters)) two_filters_ok
    (zero_acl_alloc _) ltac:(simpl; lia)) as Hw.
  apply wp_total in Hw as ([rc d'] & E & _ & _ & [[_ Hb]|[-> _]]); [simpl in Hb; lia|eauto].
Qed.

Lemma compile_correct_witness : exists d',
  pre_acl_lookup_by_tuple (zero_acl (filtset_of two_filters)) = Some (FRE_SUCCESS, d') /\
  acl_lookup_by_tuple d' 2570 1 7 7 1000 80 17 = Some 5.
Proof.
  destruct compile_two as [d' E]. exists d'. split; [exact E|].
  destruct (compile_correct (zero_acl (filtset_of two_filters)) _ d' two_filters_ok (zero_acl_alloc _) E) as [[H _]|[_ H]];
    [discriminate H|]. apply H; unfold NLINE; lia.
Defined.

Lemma compile_stable_witness : exists d',
  pre_acl_lookup_by_tuple (zero_acl (filtset_of two_filters)) = Some (FRE_SUCCESS, d') /\
  tables_alloc d'.
Proof.
  destruct compile_two as [d' E]. exists d'. split; [exact E|].
  exact (proj1 (compile_stable (zero_acl (filtset_of two_filters)) _ d' two_filters_ok (zero_acl_alloc _) E)).
Defined.
