(* ===== verification/AclStore.v ===== *)
(** * The rule store implements a finite map from tags to filters

    [store_ok] is the invariant of the rule array: its sizes, tags below
    [MPP_MAX_FILTERS] in strictly increasing order, unused entries zeroed.
    [abs] is the abstract state, a finite map from tags to filters; the
    operations of [Acl] refine insertion, deletion and lookup on it. *)

From S2P Require Import Prelude Rfc RfcPhases Acl AclClassify.
#[local] Open Scope Z_scope.

(** ** The invariant *)

Definition at_ (fs : FILTSET) (k : Z) : option FILTER := arr_get (filtArr fs) k.

Definition entry_ok (f : FILTER) : Prop := filter_ok f /\ 0 <= cost f < MPP_MAX_FILTERS.

Record store_ok (fs : FILTSET) : Prop := StoreOk {
  so_num : 0 <= numFilters fs <= MPP_MAX_FILTERS;
  so_len : Z.of_nat (length (filtArr fs)) = MPP_MAX_FILTERS;
  so_pkts : Z.of_nat (length (pkt_num fs)) = MPP_MAX_FILTERS;
  so_bytes : Z.of_nat (length (pkt_bytes fs)) = MPP_MAX_FILTERS;
  so_entry : forall k f, at_ fs k = Some f -> entry_ok f;
  so_sorted : forall j k f g, j < k < numFilters fs ->
    at_ fs j = Some f -> at_ fs k = Some g -> cost f < cost g;
  so_free : forall k f, numFilters fs <= k -> at_ fs k = Some f -> f = ZERO_FILTER }.

Lemma store_fs_ok fs : store_ok fs -> fs_ok fs.
Proof.
  intros []. split; [done..|]. apply Forall_lookup. intros i f Hf.
  destruct (so_entry0 (Z.of_nat i) f) as [? _]; [|done]. unfold at_. by rewrite arr_get_nat.
Qed.

Lemma at_some fs k : store_ok fs -> 0 <= k < MPP_MAX_FILTERS -> exists f, at_ fs k = Some f.
Proof. intros H Hk. apply arr_get_is_Some. by rewrite (so_len _ H). Qed.

Lemma at_range fs k f : store_ok fs -> at_ fs k = Some f -> 0 <= k < MPP_MAX_FILTERS.
Proof. intros H Hk%arr_get_range. by rewrite (so_len _ H) in Hk. Qed.

(** The index of a tag is unique. *)
Lemma tag_unique fs j k f g :
  store_ok fs -> at_ fs j = Some f -> at_ fs k = Some g -> cost f = cost g ->
  j < numFilters fs -> k < numFilters fs -> j = k.
Proof.
  intros H Hj Hk E Hjn Hkn. destruct (Z.lt_trichotomy j k) as [Hl|[?|Hl]]; [|done|].
  - pose proof (so_sorted _ H j k f g ltac:(lia) Hj Hk). lia.
  - pose proof (so_sorted _ H k j g f ltac:(lia) Hk Hj). lia.
Qed.

(** ** The abstract state *)

Definition abs (fs : FILTSET) : gmap Z FILTER := list_to_map ((fun f => (cost f, f)) <$> live fs).

Lemma live_lookup fs k f :
  store_ok fs -> live fs !! k = Some f <-> Z.of_nat k < numFilters fs /\ at_ fs (Z.of_nat k) = Some f.
Proof.
  intros H. pose proof (so_num _ H). unfold live, at_. rewrite arr_get_nat, lookup_take.
  case_decide; [split; [split; [lia|done]|tauto]|]. split; [done|lia].
Qed.

Lemma live_nodup fs : store_ok fs -> NoDup ((fun f => (cost f, f)) <$> live fs).*1.
Proof.
  intros H. rewrite <- list_fmap_compose. apply NoDup_alt. intros i j c Hi Hj.
  rewrite list_lookup_fmap in Hi, Hj.
  destruct (live fs !! i) as [f|] eqn:Ei; [|done]. destruct (live fs !! j) as [g|] eqn:Ej; [|done].
  apply live_lookup in Ei as [? Ei]; [|done]. apply live_lookup in Ej as [? Ej]; [|done].
  simpl in *. apply Nat2Z.inj, (tag_unique fs _ _ f g); congruence.
Qed.

Lemma abs_lookup fs t f :
  store_ok fs ->
  abs fs !! t = Some f <-> exists k, k < numFilters fs /\ at_ fs k = Some f /\ cost f = t.
Proof.
  intros H. unfold abs. rewrite <- elem_of_list_to_map by by apply live_nodup.
  rewrite list_elem_of_fmap. split.
  - intros (g & E & (k & Hk)%list_elem_of_lookup). injection E as -> ->.
    apply live_lookup in Hk as [? ?]; [|done]. by exists (Z.of_nat k).
  - intros (k & Hn & Hk & <-). exists f. split; [done|]. apply list_elem_of_lookup.
    pose proof (at_range _ _ _ H Hk). exists (Z.to_nat k). apply live_lookup; [done|].
    by rewrite Z2Nat.id by lia.
Qed.

Lemma abs_None fs t :
  store_ok fs ->
  abs fs !! t = None <-> forall k f, k < numFilters fs -> at_ fs k = Some f -> cost f <> t.
Proof.
  intros H. rewrite eq_None_not_Some. split.
  - intros Hn k f Hk Hf E. apply Hn. exists f. apply abs_lookup; eauto.
  - intros Hk [f (k & ? & ? & ?)%abs_lookup]; [|done]. by eapply Hk.
Qed.

(** Two stores with the entries of a given map. *)
Lemma abs_ext fs m :
  store_ok fs ->
  (forall t f, m !! t = Some f <-> exists k, k < numFilters fs /\ at_ fs k = Some f /\ cost f = t) ->
  abs fs = m.
Proof.
  intros H E. apply map_eq. intros t. apply option_eq. intros f.
  by rewrite E, abs_lookup by done.
Qed.

(** A tag that is not in use leaves room in the array. *)
Lemma free_slot fs t :
  store_ok fs -> 0 <= t < MPP_MAX_FILTERS -> abs fs !! t = None -> numFilters fs < MPP_MAX_FILTERS.
Proof.
  intros H Ht Hn. pose proof (so_num _ H). pose proof (so_len _ H).
  assert (NoDup (t :: (cost <$> live fs))) as Hnd.
  { apply NoDup_cons. split.
    - intros (f & E & (k & Hk)%list_elem_of_lookup)%list_elem_of_fmap.
      apply live_lookup in Hk as [? Hk]; [|done]. rewrite abs_None in Hn by done. by eapply Hn.
    - pose proof (live_nodup fs H) as Hl. by rewrite <- list_fmap_compose in Hl. }
  assert (t :: (cost <$> live fs) ⊆ seqZ 0 MPP_MAX_FILTERS) as Hsub.
  { intros x [-> | (f & -> & (k & Hk)%list_elem_of_lookup)%list_elem_of_fmap]%elem_of_cons;
      apply elem_of_seqZ; [lia|].
    apply live_lookup in Hk as [? Hk]; [|done].
    destruct (so_entry _ H _ _ Hk) as [_ Hc]. lia. }
  pose proof (submseteq_length _ _ (NoDup_submseteq _ _ Hnd Hsub)) as Hle.
  rewrite length_seqZ in Hle. simpl in Hle. unfold live in Hle.
  rewrite length_fmap, length_take in Hle. unfold MPP_MAX_FILTERS in *. lia.
Qed.

(** ** Searches *)

Lemma count_ok fs : store_ok fs -> count fs = numFilters fs.
Proof.
  intros H. pose proof (so_num _ H). unfold MPP_MAX_FILTERS in *.
  apply wraps_id; [simpl; lia|lia].
Qed.

(** A search loop of the store stops at the first index whose filter satisfies
    the test. *)
Lemma search_store {B} fs (g : Z -> FILTER -> option B) :
  store_ok fs ->
  (exists i f v, 0 <= i < numFilters fs /\ at_ fs i = Some f /\ g i f = Some v /\
     (forall j h, j < i -> at_ fs j = Some h -> g j h = None) /\
     searchM (fun i => f ← arr_get (filtArr fs) i; Some (g i f)) (seqZ 0 (count fs)) = Some (Some v)) \/
  ((forall j h, j < numFilters fs -> at_ fs j = Some h -> g j h = None) /\
     searchM (fun i => f ← arr_get (filtArr fs) i; Some (g i f)) (seqZ 0 (count fs)) = Some None).
Proof.
  intros H. pose proof (so_num _ H). rewrite count_ok by done.
  set (h := fun i => arr_get (filtArr fs) i ≫= g i).
  rewrite (searchM_pure _ h).
  2: { intros x Hx%elem_of_seqZ. destruct (at_some fs x H) as [f Hf]; [lia|].
       unfold at_ in Hf. unfold h. by rewrite Hf. }
  destruct (for_ret h (seqZ 0 (numFilters fs))) as [v|] eqn:E.
  - left. apply for_ret_Some in E as (pre & i & post & Hl & Hi & Hpre).
    apply seqZ_split in Hl as (-> & _ & Hr). unfold h in Hi.
    destruct (arr_get (filtArr fs) i) as [f|] eqn:Ef; [|done]. simpl in Hi.
    exists i, f, v. split_and!; [lia|lia|done..| |done]. intros j x Hj Hx.
    pose proof (at_range _ _ _ H Hx).
    rewrite for_ret_None in Hpre. specialize (Hpre j ltac:(apply elem_of_seqZ; lia)).
    unfold h in Hpre. unfold at_ in Hx. by rewrite Hx in Hpre.
  - right. split; [|done]. intros j x Hj Hx. pose proof (at_range _ _ _ H Hx).
    rewrite for_ret_None in E. specialize (E j ltac:(apply elem_of_seqZ; lia)).
    unfold h in E. unfold at_ in Hx. by rewrite Hx in E.
Qed.

Lemma find_tag_spec fs t :
  store_ok fs ->
  (exists i f, find_tag fs t = Some (Some i) /\ 0 <= i < numFilters fs /\ at_ fs i = Some f /\
     cost f = t /\ abs fs !! t = Some f) \/
  (find_tag fs t = Some None /\ abs fs !! t = None).
Proof.
  intros H. unfold find_tag.
  destruct (search_store fs (fun i f => if t =? cost f then Some i else None) H)
    as [(i & f & v & Hi & Hf & Hg & _ & E)|[Hn E]]; rewrite E.
  - destruct (Z.eqb_spec t (cost f)); [|done]. simplify_eq. left. exists v, f.
    split_and!; [done|lia|lia|done..|]. apply abs_lookup; [done|]. exists v. split_and!; [lia|done..].
  - right. split; [done|]. apply abs_None; [done|]. intros k f Hk Hf Hc.
    specialize (Hn k f Hk Hf). simpl in Hn. rewrite Hc, Z.eqb_refl in Hn. done.
Qed.

(** ** Updates of one entry *)

(** The array sizes and the number of filters are kept. *)
Record same_shape (fs fs' : FILTSET) : Prop := SameShape {
  ss_num : numFilters fs' = numFilters fs;
  ss_len : length (filtArr fs') = length (filtArr fs);
  ss_pkts : length (pkt_num fs') = length (pkt_num fs);
  ss_bytes : length (pkt_bytes fs') = length (pkt_bytes fs) }.

#[export] Instance same_shape_preorder : PreOrder same_shape.
Proof. split; [by split|]. intros x y z [] []. split; congruence. Qed.

(** Entry [i] of the array becomes [f]. *)
Definition entry_set (fs fs' : FILTSET) (i : Z) (f : FILTER) : Prop :=
  same_shape fs fs' /\ forall k, at_ fs' k = if decide (k = i) then Some f else at_ fs k.

Lemma set_filter_spec fs i f :
  0 <= i < Z.of_nat (length (filtArr fs)) ->
  exists fs', set_filter fs i f = Some fs' /\ entry_set fs fs' i f /\
    pkt_num fs' = pkt_num fs /\ pkt_bytes fs' = pkt_bytes fs.
Proof.
  intros Hi. unfold set_filter. pose proof (arr_set_eq (filtArr fs) i f Hi) as E. rewrite E. simpl.
  eexists. split; [done|]. split; [|done]. split.
  - split; simpl; [done|by rewrite length_insert|done|done].
  - intros k. unfold at_. simpl. by rewrite (arr_get_set _ _ _ _ k E).
Qed.

Lemma set_pkt_num_spec fs t v :
  0 <= t < Z.of_nat (length (pkt_num fs)) ->
  exists fs', set_pkt_num fs t v = Some fs' /\ same_shape fs fs' /\ filtArr fs' = filtArr fs /\
    pkt_num fs' = <[Z.to_nat t := v]> (pkt_num fs) /\ pkt_bytes fs' = pkt_bytes fs.
Proof.
  intros Hi. unfold set_pkt_num. rewrite arr_set_eq by done. simpl.
  eexists. split; [done|]. split; [|done]. split; simpl; by rewrite ?length_insert.
Qed.

Lemma set_pkt_bytes_spec fs t v :
  0 <= t < Z.of_nat (length (pkt_bytes fs)) ->
  exists fs', set_pkt_bytes fs t v = Some fs' /\ same_shape fs fs' /\ filtArr fs' = filtArr fs /\
    pkt_num fs' = pkt_num fs /\ pkt_bytes fs' = <[Z.to_nat t := v]> (pkt_bytes fs).
Proof.
  intros Hi. unfold set_pkt_bytes. rewrite arr_set_eq by done. simpl.
  eexists. split; [done|]. split; [|done]. split; simpl; by rewrite ?length_insert.
Qed.

Lemma shift_one_spec fs dst src fd f :
  at_ fs dst = Some fd -> at_ fs src = Some f ->
  0 <= cost fd < MPP_MAX_FILTERS -> 0 <= cost f < MPP_MAX_FILTERS ->
  Z.of_nat (length (pkt_num fs)) = MPP_MAX_FILTERS ->
  Z.of_nat (length (pkt_bytes fs)) = MPP_MAX_FILTERS ->
  exists fs', shift_one fs dst src = Some fs' /\ entry_set fs fs' dst f.
Proof.
  unfold at_. intros Hd Hs Hcd Hcs Hpn Hpb. unfold shift_one. rewrite Hd, Hs. simpl.
  destruct (arr_get_is_Some (pkt_num fs) (cost f)) as [n En]; [lia|]. rewrite En. simpl.
  destruct (set_pkt_num_spec fs (cost fd) n) as (f1 & -> & S1 & A1 & _ & B1); [lia|]. simpl.
  rewrite B1. destruct (arr_get_is_Some (pkt_bytes fs) (cost f)) as [b Eb]; [lia|].
  rewrite Eb. simpl.
  destruct (set_pkt_bytes_spec f1 (cost fd) b) as (f2 & -> & S2 & A2 & _);
    [rewrite (ss_bytes _ _ S1); lia|]. simpl.
  apply arr_get_range in Hd as Hr.
  destruct (set_filter_spec f2 dst f) as (f3 & -> & [S3 A3] & _);
    [rewrite A2, A1; done|].
  exists f3. split; [done|]. split; [by do 2 (etrans; [eassumption|])|].
  intros k. rewrite A3. unfold at_. by rewrite A2, A1.
Qed.

(** The parts of the invariant that the shifting loops need. *)
Record sized (fs : FILTSET) : Prop := Sized {
  sz_len : Z.of_nat (length (filtArr fs)) = MPP_MAX_FILTERS;
  sz_pkts : Z.of_nat (length (pkt_num fs)) = MPP_MAX_FILTERS;
  sz_bytes : Z.of_nat (length (pkt_bytes fs)) = MPP_MAX_FILTERS;
  sz_entry : forall k f, at_ fs k = Some f -> entry_ok f }.

Lemma store_sized fs : store_ok fs -> sized fs.
Proof. intros []. by split. Qed.

Lemma sized_entries fs fs' :
  sized fs -> same_shape fs fs' -> (forall k f, at_ fs' k = Some f -> entry_ok f) -> sized fs'.
Proof. intros [] [] ?. split; [congruence..|done]. Qed.

Lemma sized_at fs k : sized fs -> 0 <= k < MPP_MAX_FILTERS -> exists f, at_ fs k = Some f /\ entry_ok f.
Proof.
  intros H Hk. destruct (arr_get_is_Some (filtArr fs) k) as [f Hf]; [by rewrite (sz_len _ H)|].
  exists f. split; [done|]. by apply (sz_entry _ H k).
Qed.

Lemma entry_set_sized fs fs' i f : sized fs -> entry_ok f -> entry_set fs fs' i f -> sized fs'.
Proof.
  intros H Hf [Hs Ha]. apply (sized_entries fs); [done..|]. intros k g. rewrite Ha.
  case_decide; [congruence|apply (sz_entry _ H)].
Qed.

Lemma shift_sized fs dst src :
  sized fs -> 0 <= dst < MPP_MAX_FILTERS -> 0 <= src < MPP_MAX_FILTERS ->
  exists fs' f, shift_one fs dst src = Some fs' /\ at_ fs src = Some f /\
    entry_set fs fs' dst f /\ sized fs'.
Proof.
  intros H Hd Hs. destruct (sized_at fs dst H Hd) as (fd & Ed & [_ Hcd]).
  destruct (sized_at fs src H Hs) as (f & Es & Hf). pose proof (proj2 Hf) as Hcs.
  destruct (shift_one_spec fs dst src fd f) as (fs' & E & Hset); [done..|apply H|apply H|].
  exists fs', f. split_and!; [done..|]. by eapply entry_set_sized.
Qed.

(** [move_Back]: entries [index..] move up by one. *)
Lemma move_Back_spec fs i :
  sized fs -> count fs = numFilters fs -> 0 <= i <= numFilters fs -> numFilters fs < MPP_MAX_FILTERS ->
  exists fs', move_Back_Filter_from_index fs i = Some fs' /\ same_shape fs fs' /\ sized fs' /\
    forall k, at_ fs' k = if decide (i < k <= numFilters fs) then at_ fs (k - 1) else at_ fs k.
Proof.
  intros H Hc Hi Hn. unfold move_Back_Filter_from_index. rewrite Hc.
  destruct (for_down (fun j x => same_shape fs x /\ sized x /\
    forall k, at_ x k = if decide (j < k <= numFilters fs) then at_ fs (k - 1) else at_ fs k)
    (fun x j => shift_one x (j + 1) j) i (numFilters fs - i) fs) as (x & E & Hx); [lia| | |eauto].
  - split_and!; [done..|]. intros k. case_decide; [lia|done].
  - intros j x Hj (Hsh & Hsz & Hat).
    destruct (shift_sized x (j + 1) j Hsz ltac:(lia) ltac:(lia)) as (x' & f & E & Hf & [Hs Hset] & Hsz').
    exists x'. split; [done|]. split_and!; [by etrans|done|]. intros k. rewrite Hset.
    case_decide as Ek.
    + subst k. case_decide; [|lia]. replace (j + 1 - 1) with j by lia.
      rewrite <- Hf, Hat. case_decide; [lia|done].
    + rewrite Hat. by repeat case_decide; try lia.
Qed.

(** [move_Forward]: entries above [index] move down by one. *)
Lemma move_Forward_loop fs i :
  sized fs -> 0 <= i < numFilters fs -> numFilters fs <= MPP_MAX_FILTERS ->
  exists fs', foldM (fun fs j => shift_one fs j (j + 1)) (seqZ i (numFilters fs - 1 - i)) fs = Some fs' /\
    same_shape fs fs' /\ sized fs' /\
    forall k, at_ fs' k = if decide (i <= k < numFilters fs - 1) then at_ fs (k + 1) else at_ fs k.
Proof.
  intros H Hi Hn.
  destruct (for_up (fun j x => same_shape fs x /\ sized x /\
    forall k, at_ x k = if decide (i <= k < j) then at_ fs (k + 1) else at_ fs k)
    (fun x j => shift_one x j (j + 1)) i (numFilters fs - 1 - i) fs) as (x & E & Hx); [lia| | |].
  - split_and!; [done..|]. intros k. case_decide; [lia|done].
  - intros j x Hj (Hsh & Hsz & Hat).
    destruct (shift_sized x j (j + 1) Hsz ltac:(lia) ltac:(lia)) as (x' & f & E & Hf & [Hs Hset] & Hsz').
    exists x'. split; [done|]. split_and!; [by etrans|done|]. intros k. rewrite Hset.
    case_decide as Ek.
    + subst k. rewrite <- Hf, Hat. by repeat case_decide; try lia.
    + rewrite Hat. by repeat case_decide; try lia.
  - exists x. replace (i + (numFilters fs - 1 - i)) with (numFilters fs - 1) in Hx by lia. done.
Qed.

Lemma initOne_spec fs i :
  sized fs -> 0 <= i < MPP_MAX_FILTERS ->
  exists fs', acl_initOneFilter_by_index fs i = Some fs' /\ entry_set fs fs' i ZERO_FILTER.
Proof.
  intros H Hi. destruct (sized_at fs i H Hi) as (f & Ef & [_ Hc]). unfold at_ in Ef.
  pose proof (sz_len _ H). pose proof (sz_pkts _ H). pose proof (sz_bytes _ H).
  unfold acl_initOneFilter_by_index. rewrite Ef. simpl.
  destruct (set_pkt_num_spec fs (cost f) 0) as (f1 & -> & S1 & A1 & _); [lia|]. simpl.
  destruct (set_pkt_bytes_spec f1 (cost f) 0) as (f2 & -> & S2 & A2 & _);
    [rewrite (ss_bytes _ _ S1); lia|]. simpl.
  destruct (set_filter_spec f2 i ZERO_FILTER) as (f3 & -> & [S3 A3] & _); [rewrite A2, A1; lia|].
  exists f3. split; [done|]. split; [by do 2 (etrans; [eassumption|])|].
  intros k. rewrite A3. unfold at_. by rewrite A2, A1.
Qed.

Lemma zero_entry_ok : entry_ok ZERO_FILTER.
Proof. split; [apply zero_filter_ok|simpl; unfold MPP_MAX_FILTERS; lia]. Qed.

(** Deleting entry [i] closes the gap and zeroes the last entry. *)
Lemma remove_at_spec fs i :
  store_ok fs -> 0 <= i < numFilters fs ->
  exists fs', remove_at fs i = Some fs' /\ numFilters fs' = numFilters fs - 1 /\ sized fs' /\
    forall k, at_ fs' k = if decide (k = numFilters fs - 1) then Some ZERO_FILTER
      else if decide (i <= k < numFilters fs - 1) then at_ fs (k + 1) else at_ fs k.
Proof.
  intros Hst Hi. pose proof (store_sized _ Hst) as H. pose proof (so_num _ Hst) as Hn.
  unfold remove_at.
  assert (exists x, (if i =? count fs - 1 then acl_initOneFilter_by_index fs i
        else move_Forward_Filter_from_index fs i) = Some x /\ same_shape fs x /\ sized x /\
    forall k, at_ x k = if decide (k = numFilters fs - 1) then Some ZERO_FILTER
      else if decide (i <= k < numFilters fs - 1) then at_ fs (k + 1) else at_ fs k)
    as (x & -> & Hs & Hz & Ha).
  { unfold move_Forward_Filter_from_index. rewrite count_ok by done.
    destruct (Z.eqb_spec i (numFilters fs - 1)) as [E|E].
    - destruct (initOne_spec fs i H ltac:(lia)) as (x & Ex & Hset). exists x.
      split; [done|]. pose proof Hset as [Hs Ha]. split; [done|].
      split; [by eapply entry_set_sized; [| apply zero_entry_ok|]|].
      intros k. rewrite Ha. by repeat case_decide; try lia.
    - destruct (move_Forward_loop fs i H Hi ltac:(lia)) as (y & -> & Hsy & Hzy & Hay). simpl.
      destruct (initOne_spec y (numFilters fs - 1) Hzy ltac:(lia)) as (x & Ex & Hset). exists x.
      split; [done|]. pose proof Hset as [Hs Ha]. split; [by etrans|].
      split; [by eapply entry_set_sized; [| apply zero_entry_ok|]|].
      intros k. rewrite Ha. case_decide; [done|]. apply Hay. }
  simpl. eexists. split; [done|]. simpl. unfold MPP_MAX_FILTERS in *.
  split; [rewrite (ss_num _ _ Hs); apply wrapu_id; simpl; lia|].
  split; [by destruct Hz; split|]. exact Ha.
Qed.

(** ** Configuring a filter *)

Definition hi16 (ip : Z) : Z := ip / 2 ^ 16.
Definition lo16 (ip : Z) : Z := ip `mod` 2 ^ 16.

Lemma byte_shift ip s : 0 <= s -> Z.land (Z.shiftr ip s) 0xff = (ip / 2 ^ s) `mod` 256.
Proof. intros. change 0xff with (Z.ones 8). by rewrite Z.land_ones, Z.shiftr_div_pow2 by lia. Qed.

Lemma pair16_bytes a b : 0 <= a < 256 -> 0 <= b < 256 -> pair16 a b = a * 256 + b.
Proof.
  intros. unfold pair16. rewrite Z.shiftl_mul_pow2 by lia.
  rewrite (wrapu_id 32 (a * 2 ^ 8)) by (simpl; lia). apply wrapu_id. simpl. lia.
Qed.

(** An address gives itself, zero gives the full range. *)
Lemma acl_readiprange_spec ip :
  0 <= ip < 2 ^ 32 ->
  acl_readiprange ip = Some
    (if ip =? 0 then ((0, 65535), (0, 65535)) else ((hi16 ip, hi16 ip), (lo16 ip, lo16 ip))).
Proof.
  intros Hip. destruct (Z.eqb_spec ip 0) as [-> |Hne]; [by vm_compute|].
  unfold acl_readiprange. rewrite (proj2 (Z.eqb_neq ip 0) Hne).
  change (u32 (32 - 32)) with 0. cbv zeta. change (0 / 8) with 0. change (0 `mod` 8) with 0.
  change (seqZ 0 4) with [0; 1; 2; 3]. unfold fill_low. change (seqZ 0 0) with (@nil Z).
  cbn -[Z.land Z.shiftr Z.sub Z.mul pair16]. rewrite !byte_shift by lia.
  nat_literals.
  cbn -[Z.modulo Z.div Z.pow Z.sub Z.mul pair16].
  rewrite !pair16_bytes by (apply Z.mod_pos_bound; lia).
  unfold hi16, lo16. f_equal. change (2 ^ 32) with 4294967296 in Hip.
  change (2 ^ ((3 - 0) * 8)) with 16777216. change (2 ^ ((3 - 1) * 8)) with 65536.
  change (2 ^ ((3 - 2) * 8)) with 256. change (2 ^ ((3 - 3) * 8)) with 1.
  change (2 ^ 16) with 65536.
  assert ((ip / 16777216) `mod` 256 * 256 + (ip / 65536) `mod` 256 = ip / 65536) as ->
    by (Z.to_euclidean_division_equations; lia).
  assert ((ip / 256) `mod` 256 * 256 + (ip / 1) `mod` 256 = ip `mod` 65536) as ->
    by (Z.to_euclidean_division_equations; lia).
  done.
Qed.

(** The widths of the fields of [frc_rule_t]. *)
Record rule_ok (r : frc_rule_t) : Prop := RuleOk {
  ro_sip : 0 <= r_sip r < 2 ^ 32; ro_dip : 0 <= r_dip r < 2 ^ 32;
  ro_sp : 0 <= r_sp r < 2 ^ 16; ro_dp : 0 <= r_dp r < 2 ^ 16;
  ro_proto : 0 <= r_proto r < 2 ^ 16 }.

Definition any_or (top v : Z) : Z * Z := if v =? 0 then (0, top) else (v, v).

(** The filter of a rule. *)
Definition rule_filter (tag : Z) (r : frc_rule_t) : FILTER :=
  let ip_hi v := if v =? 0 then (0, 65535) else (hi16 v, hi16 v) in
  let ip_lo v := if v =? 0 then (0, 65535) else (lo16 v, lo16 v) in
  Filter tag ACL_NOSYNC ACL_ENABLE (r_op r) (r_action r) (r_rule_type r) (r_rule_source r)
    [ip_hi (r_sip r); ip_lo (r_sip r); ip_hi (r_dip r); ip_lo (r_dip r);
     any_or 65535 (r_sp r); any_or 65535 (r_dp r); any_or 255 (r_proto r)].

Lemma filter_of_spec tag r : rule_ok r -> filter_of tag r = Some (rule_filter tag r).
Proof.
  intros []. unfold filter_of. rewrite !acl_readiprange_spec by done. simpl.
  unfold rule_filter, acl_ReadPort, acl_ReadProtocol, any_or, ACL_PROTOCOL_ANY.
  by destruct (r_sip r =? 0), (r_dip r =? 0), (r_sp r =? 0), (r_dp r =? 0), (r_proto r =? 0).
Qed.

Lemma hi16_range ip : 0 <= ip < 2 ^ 32 -> 0 <= hi16 ip < 65536.
Proof. unfold hi16. intros. Z.to_euclidean_division_equations. lia. Qed.

Lemma lo16_range ip : 0 <= lo16 ip < 65536.
Proof. apply Z.mod_pos_bound. done. Qed.

Lemma rule_filter_ok tag r :
  rule_ok r -> 0 <= tag < MPP_MAX_FILTERS -> entry_ok (rule_filter tag r).
Proof.
  intros [] Ht. split; [|done]. split; [done|].
  pose proof (hi16_range (r_sip r)). pose proof (hi16_range (r_dip r)).
  pose proof (lo16_range (r_sip r)). pose proof (lo16_range (r_dip r)).
  unfold rule_filter, any_or. simpl.
  repeat constructor; unfold NLINE; case_match; simpl; lia.
Qed.

Lemma setfilter_spec fs i tag r cover :
  sized fs -> rule_ok r -> 0 <= tag < MPP_MAX_FILTERS -> 0 <= i < MPP_MAX_FILTERS ->
  0 <= numFilters fs < MPP_MAX_FILTERS \/ cover = true ->
  exists fs', setfilter fs i tag r cover = Some fs' /\
    numFilters fs' = numFilters fs + (if cover then 0 else 1) /\ sized fs' /\
    (forall k, at_ fs' k = if decide (k = i) then Some (rule_filter tag r) else at_ fs k) /\
    pkt_num fs' = <[Z.to_nat tag := 0]> (pkt_num fs) /\
    pkt_bytes fs' = <[Z.to_nat tag := 0]> (pkt_bytes fs).
Proof.
  intros H Hr Ht Hi Hc. unfold setfilter. rewrite filter_of_spec by done. simpl.
  pose proof (sz_len _ H). pose proof (sz_pkts _ H). pose proof (sz_bytes _ H).
  unfold MPP_MAX_FILTERS in *. rewrite (wrapu_id 16) by (simpl; lia).
  destruct (set_filter_spec fs i (rule_filter tag r)) as (f1 & -> & Hset & P1 & B1); [lia|].
  simpl. assert (sized f1) as Hz1 by (apply (entry_set_sized fs f1 i (rule_filter tag r)); [done|by apply rule_filter_ok|done]).
  destruct Hset as [S1 A1].
  destruct (set_pkt_num_spec f1 tag 0) as (f2 & -> & S2 & A2 & P2 & B2); [rewrite P1; lia|]. simpl.
  destruct (set_pkt_bytes_spec f2 tag 0) as (f3 & -> & S3 & A3 & P3 & B3);
    [rewrite B2, B1; lia|]. simpl.
  assert (same_shape f1 f3) as S13 by by etrans.
  assert (sized f3) as Hz3.
  { apply (sized_entries f1); [done..|]. intros k f. unfold at_. rewrite A3, A2.
    apply (sz_entry _ Hz1). }
  assert (forall k, at_ f3 k = if decide (k = i) then Some (rule_filter tag r) else at_ fs k) as A.
  { intros k. rewrite <- A1. unfold at_. by rewrite A3, A2. }
  assert (numFilters f3 = numFilters fs) as N
    by (rewrite (ss_num _ _ S13), (ss_num _ _ S1); done).
  destruct cover; eexists; (split; [done|]).
  - rewrite N, P3, B3, P2, B2, P1, B1. split; [lia|]. by split.
  - simpl. rewrite N, P3, B3, P2, B2, P1, B1. destruct Hc as [Hc|]; [|done].
    split; [apply wrapu_id; simpl; lia|].
    split; [by destruct Hz3; split|done].
Qed.

(** ** Insertion, replacement, removal *)

(** Case analysis on the entry that a pointwise description selects. *)
Ltac at_cases :=
  repeat case_decide; try lia;
  repeat match goal with H : Some _ = Some _ |- _ => injection H as <- end.

(** Two live entries in array order have increasing tags. *)
Ltac by_sorted H :=
  eapply (so_sorted _ H); [|eassumption|eassumption]; lia.

Lemma insert_at_store fs fs' i f :
  store_ok fs -> 0 <= i <= numFilters fs -> numFilters fs < MPP_MAX_FILTERS ->
  (forall j g, j < i -> at_ fs j = Some g -> cost g < cost f) ->
  (forall j g, i <= j < numFilters fs -> at_ fs j = Some g -> cost f < cost g) ->
  numFilters fs' = numFilters fs + 1 -> sized fs' ->
  (forall k, at_ fs' k = if decide (k = i) then Some f
     else if decide (i < k <= numFilters fs) then at_ fs (k - 1) else at_ fs k) ->
  store_ok fs' /\ abs fs' = <[cost f := f]> (abs fs).
Proof.
  intros H Hi Hn Hlo Hhi Hn' Hz Hat.
  assert (store_ok fs') as H'.
  { pose proof (so_num _ H). split; [lia|apply Hz..| |].
    - intros j k x y Hjk Hx Hy. rewrite Hn' in Hjk. rewrite Hat in Hx, Hy.
      at_cases; first [by_sorted H|eapply Hlo; [|eassumption]; lia|eapply Hhi; [|eassumption]; lia].
    - intros k x Hk Hx. rewrite Hn' in Hk. rewrite Hat in Hx. repeat case_decide; try lia.
      apply (so_free _ H k); [lia|done]. }
  split; [done|]. apply abs_ext; [done|]. intros t g. rewrite Hn'. split.
  - rewrite lookup_insert_Some. intros [[<- <-]|[Hne (k & Hk & Hg & Hc)%abs_lookup]]; [| |done].
    + exists i. rewrite Hat. case_decide; [|done]. split_and!; [lia|done..].
    + destruct (decide (k < i)).
      * exists k. rewrite Hat. repeat case_decide; try lia. split_and!; [lia|done..].
      * exists (k + 1). rewrite Hat. repeat case_decide; try lia.
        replace (k + 1 - 1) with k by lia. split_and!; [lia|done..].
  - intros (k & Hk & Hg & <-). rewrite Hat in Hg. at_cases.
    + apply lookup_insert_eq.
    + rewrite lookup_insert_ne by (specialize (Hhi (k - 1) g ltac:(lia) Hg); lia).
      apply abs_lookup; [done|]. exists (k - 1). split_and!; [lia|done..].
    + rewrite lookup_insert_ne.
      2: { assert (cost g < cost f) by (apply (Hlo k); [lia|done]). lia. }
      apply abs_lookup; [done|]. exists k. split_and!; [lia|done..].
Qed.

Lemma replace_at_store fs fs' i f g :
  store_ok fs -> 0 <= i < numFilters fs -> at_ fs i = Some g -> cost f = cost g -> 
  numFilters fs' = numFilters fs -> sized fs' ->
  (forall k, at_ fs' k = if decide (k = i) then Some f else at_ fs k) ->
  store_ok fs' /\ abs fs' = <[cost f := f]> (abs fs).
Proof.
  intros H Hi Hg Hc Hn' Hz Hat.
  assert (store_ok fs') as H'.
  { pose proof (so_num _ H). split; [lia|apply Hz..| |].
    - intros j k x y Hjk Hx Hy. rewrite Hn' in Hjk. rewrite Hat in Hx, Hy.
      at_cases; rewrite ?Hc; by_sorted H.
    - intros k x Hk Hx. rewrite Hn' in Hk. rewrite Hat in Hx. case_decide; [lia|].
      by apply (so_free _ H k). }
  split; [done|]. apply abs_ext; [done|]. intros t x. rewrite Hn'. split.
  - rewrite lookup_insert_Some. intros [[<- <-]|[Hne (k & Hk & Hx & Hcx)%abs_lookup]]; [| |done].
    + exists i. rewrite Hat. case_decide; [|done]. split_and!; [lia|done..].
    + exists k. rewrite Hat. case_decide; [|by split_and!]. subst k. congruence.
  - intros (k & Hk & Hx & <-). rewrite Hat in Hx. at_cases.
    + apply lookup_insert_eq.
    + rewrite lookup_insert_ne; [apply abs_lookup; eauto|].
      intros E. rewrite Hc in E. assert (i = k); [|done].
      apply (tag_unique fs _ _ g x); done || lia.
Qed.

Lemma remove_at_store fs fs' i f :
  store_ok fs -> 0 <= i < numFilters fs -> at_ fs i = Some f ->
  numFilters fs' = numFilters fs - 1 -> sized fs' ->
  (forall k, at_ fs' k = if decide (k = numFilters fs - 1) then Some ZERO_FILTER
      else if decide (i <= k < numFilters fs - 1) then at_ fs (k + 1) else at_ fs k) ->
  store_ok fs' /\ abs fs' = delete (cost f) (abs fs).
Proof.
  intros H Hi Hf Hn' Hz Hat.
  assert (store_ok fs') as H'.
  { pose proof (so_num _ H). split; [lia|apply Hz..| |].
    - intros j k x y Hjk Hx Hy. rewrite Hn' in Hjk. rewrite Hat in Hx, Hy.
      at_cases; by_sorted H.
    - intros k x Hk Hx. rewrite Hn' in Hk. rewrite Hat in Hx. at_cases.
      + done.
      + apply (so_free _ H k); [lia|done]. }
  split; [done|]. apply abs_ext; [done|]. intros t g. rewrite Hn', lookup_delete_Some. split.
  - intros [Hne (k & Hk & Hg & Hc)%abs_lookup]; [|done].
    assert (k <> i) by congruence. destruct (decide (k < i)).
    + exists k. rewrite Hat. repeat case_decide; try lia. split_and!; [lia|done..].
    + exists (k - 1). rewrite Hat. repeat case_decide; try lia.
      replace (k - 1 + 1) with k by lia. split_and!; [lia|done..].
  - intros (k & Hk & Hg & <-). rewrite Hat in Hg. at_cases.
    + assert (cost f < cost g) by (apply (so_sorted _ H i (k + 1)); [lia|done..]).
      split; [lia|]. apply abs_lookup; [done|]. exists (k + 1). split_and!; [lia|done..].
    + split; [|apply abs_lookup; [done|]; exists k; split_and!; [lia|done..]].
      pose proof (at_range _ _ _ H Hg).
      assert (cost g < cost f) by (apply (so_sorted _ H k i); [lia|done..]). lia.
Qed.

(** ** The operations *)

Lemma acl_setfilter_spec fs tag r :
  store_ok fs -> rule_ok r -> 0 <= tag < MPP_MAX_FILTERS ->
  exists fs', acl_setfilter fs tag r = Some fs' /\ store_ok fs' /\
    abs fs' = <[tag := rule_filter tag r]> (abs fs) /\
    arr_get (pkt_num fs') tag = Some 0 /\ arr_get (pkt_bytes fs') tag = Some 0.
Proof.
  intros H Hr Ht. pose proof (so_num _ H) as Hnum. pose proof (store_sized _ H) as Hz.
  unfold acl_setfilter, find_position.
  assert (forall x n i c, sized x -> numFilters x = n -> 0 <= n -> n < MPP_MAX_FILTERS \/ c = true ->
    0 <= i < MPP_MAX_FILTERS -> exists fs', setfilter x i tag r c = Some fs' /\
    numFilters fs' = n + (if c then 0 else 1) /\ sized fs' /\
    (forall k, at_ fs' k = if decide (k = i) then Some (rule_filter tag r) else at_ x k) /\
    arr_get (pkt_num fs') tag = Some 0 /\ arr_get (pkt_bytes fs') tag = Some 0) as Hset.
  { intros x n i c Hzx <- Hn0 Hc Hi.
    destruct (setfilter_spec x i tag r c Hzx Hr Ht Hi) as (fs' & E & N & S & A & P & B);
      [destruct Hc; [left; lia|by right]|].
    exists fs'. split_and!; [done..| |]; rewrite ?P, ?B; apply arr_get_Some; (split; [lia|]);
      apply list_lookup_insert_eq; [pose proof (sz_pkts _ Hzx)|pose proof (sz_bytes _ Hzx)];
      lia. }
  destruct (search_store fs (fun i f => if tag <? cost f then Some (Before i)
    else if tag =? cost f then Some (At i) else None) H)
    as [(i & f & v & Hi & Hf & Hg & Hbefore & ->)|[Hall ->]]; simpl.
  - assert (forall j g, j < i -> at_ fs j = Some g -> cost g < tag) as Hlo.
    { intros j g Hj Hgj. specialize (Hbefore j g Hj Hgj). simpl in Hbefore.
      destruct (Z.ltb_spec tag (cost g)); [done|]. destruct (Z.eqb_spec tag (cost g)); [done|lia]. }
    destruct (Z.ltb_spec tag (cost f)) as [Hlt|Hge]; [|destruct (Z.eqb_spec tag (cost f)) as [E|]; [|done]].
    + simplify_eq. simpl.
      assert (forall j g, i <= j < numFilters fs -> at_ fs j = Some g -> tag < cost g) as Hhi.
      { intros j g Hj Hgj. destruct (decide (j = i)) as [-> |]; [congruence|].
        assert (cost f < cost g) by (apply (so_sorted _ H i j); [lia|done..]). lia. }
      assert (abs fs !! tag = None) as Hnone.
      { apply abs_None; [done|]. intros k g Hk Hgk E. destruct (decide (k < i)) as [Hki|Hki].
        - specialize (Hlo k g Hki Hgk). lia.
        - specialize (Hhi k g ltac:(lia) Hgk). lia. }
      pose proof (free_slot fs tag H Ht Hnone) as Hfree.
      destruct (move_Back_spec fs i Hz (count_ok fs H) ltac:(lia) Hfree) as (x & -> & Sx & Zx & Ax).
      simpl. destruct (Hset x (numFilters fs) i false Zx (ss_num _ _ Sx)) as
        (fs' & E & N & S & A & P & B); [lia|by left|lia|].
      exists fs'. split; [done|]. enough (store_ok fs' /\ abs fs' = <[tag := rule_filter tag r]> (abs fs)) as [? ?] by done.
      apply (insert_at_store fs fs' i (rule_filter tag r)); [done|lia|done..|].
      intros k. rewrite A. case_decide; [done|apply Ax].
    + injection Hg as <-. simpl.
      destruct (Hset fs (numFilters fs) i true Hz eq_refl) as (fs' & E' & N & S & A & P & B);
        [lia|by right|lia|].
      exists fs'. split; [done|]. enough (store_ok fs' /\ abs fs' = <[tag := rule_filter tag r]> (abs fs)) as [? ?] by done.
      apply (replace_at_store fs fs' i (rule_filter tag r) f);
        [done|lia|done|done|rewrite N; lia|done|done].
  - assert (forall j g, j < numFilters fs -> at_ fs j = Some g -> cost g < tag) as Hlo.
    { intros j g Hj Hgj. specialize (Hall j g Hj Hgj). simpl in Hall.
      destruct (Z.ltb_spec tag (cost g)); [done|]. destruct (Z.eqb_spec tag (cost g)); [done|lia]. }
    assert (abs fs !! tag = None) as Hnone.
    { apply abs_None; [done|]. intros k g Hk Hgk E. specialize (Hlo k g Hk Hgk). lia. }
    pose proof (free_slot fs tag H Ht Hnone) as Hfree. rewrite count_ok by done.
    destruct (Hset fs (numFilters fs) (numFilters fs) false Hz eq_refl) as
      (fs' & E & N & S & A & P & B); [lia|by left|lia|].
    exists fs'. split; [done|]. enough (store_ok fs' /\ abs fs' = <[tag := rule_filter tag r]> (abs fs)) as [? ?] by done.
    apply (insert_at_store fs fs' (numFilters fs) (rule_filter tag r)); [done|lia|done|done| |done..|].
    + intros; lia.
    + intros k. rewrite A. by repeat case_decide; try lia.
Qed.
