(* ===== verification/AclProps.v ===== *)
(** * What the rule store and the lookup promise

    The refinement theorems of the store operations against the finite map
    [abs], the invariant of every reachable state, the meaning of a configured
    rule, the lookup from end to end, and the operations that do not keep their
    promise: the counters when filters move, tags beyond the array and
    [acl_updatefiltertagid_by_stagid]. *)

From S2P Require Import Prelude Rfc RfcPhases Acl AclClassify AclStore.
#[local] Open Scope Z_scope.

(** ** Steps of the component *)

(** The commands of frcore_rule.c and the packet path, as steps on the state. *)
Inductive acl_step : mpp_acl_filtset -> mpp_acl_filtset -> Prop :=
| step_set d tag r fs' :
    rule_ok r -> 0 <= tag < MPP_MAX_FILTERS ->
    acl_setfilter (filtset d) tag r = Some fs' -> acl_step d (with_filtset d fs')
| step_delete d tag rc fs' :
    acl_DeleteOneFilter_by_tagid (filtset d) tag = Some (rc, fs') ->
    acl_step d (with_filtset d fs')
| step_enable d tag en rc fs' :
    acl_enable_one_filter_by_tagid (filtset d) tag en = Some (rc, fs') ->
    acl_step d (with_filtset d fs')
| step_clear d tag fs' :
    acl_initfilter_statistics_by_tagid (filtset d) tag = Some fs' ->
    acl_step d (with_filtset d fs')
| step_hit d tag len fs1 fs2 :
    acl_statistic_hit (filtset d) tag = Some fs1 -> acl_pkt_bytes_add fs1 tag len = Some fs2 ->
    acl_step d (with_filtset d fs2)
| step_compile d rc d' :
    pre_acl_lookup_by_tuple d = Some (rc, d') -> acl_step d d'.

Definition acl_ok (d : mpp_acl_filtset) : Prop := store_ok (filtset d) /\ tables_alloc d.

(** The state after start-up: [acl_init] on zeroed memory. *)
Definition acl_start : mpp_acl_filtset := zero_acl (filtset_of []).

(** ** Counters do not touch the filters *)

Lemma counters_store fs fs' :
  store_ok fs -> same_shape fs fs' -> filtArr fs' = filtArr fs -> store_ok fs' /\ abs fs' = abs fs.
Proof.
  intros H [N L P B] E. split.
  - destruct H. unfold at_ in *. split; unfold at_; rewrite ?E, ?P, ?B, ?N; try done.
  - unfold abs, live. by rewrite E, N.
Qed.

Lemma set_pkt_num_inv fs t v fs' :
  set_pkt_num fs t v = Some fs' -> same_shape fs fs' /\ filtArr fs' = filtArr fs.
Proof.
  unfold set_pkt_num. intros (p & Hp & H)%bind_Some. injection H as <-.
  apply arr_set_length in Hp. by repeat split.
Qed.

Lemma set_pkt_bytes_inv fs t v fs' :
  set_pkt_bytes fs t v = Some fs' -> same_shape fs fs' /\ filtArr fs' = filtArr fs.
Proof.
  unfold set_pkt_bytes. intros (p & Hp & H)%bind_Some. injection H as <-.
  apply arr_set_length in Hp. by repeat split.
Qed.

(** ** Deletion, state, enabling *)

Lemma delete_spec fs t :
  store_ok fs ->
  exists fs', acl_DeleteOneFilter_by_tagid fs t =
    Some (match abs fs !! t with Some _ => FRE_SUCCESS | None => FRE_NOTFOUND end, fs') /\
    store_ok fs' /\ abs fs' = delete t (abs fs).
Proof.
  intros H. unfold acl_DeleteOneFilter_by_tagid.
  destruct (find_tag_spec fs t H) as [(i & f & -> & Hi & Hf & <- & ->)|[-> Hn]]; simpl.
  - destruct (remove_at_spec fs i H Hi) as (fs' & -> & N & S & A). simpl.
    exists fs'. split; [done|]. by apply (remove_at_store fs fs' i f).
  - exists fs. rewrite Hn. split; [done|]. split; [done|]. by rewrite delete_id.
Qed.

Lemma set_state_ok f e : entry_ok f -> entry_ok (set_state f e).
Proof. by intros [[? ?] ?]. Qed.

Lemma enable_spec fs t en :
  store_ok fs ->
  exists fs', acl_enable_one_filter_by_tagid fs t en =
    Some (match abs fs !! t with Some _ => 1 | None => 0 end, fs') /\
    store_ok fs' /\ abs fs' = alter (fun f => set_state f (u8 en)) t (abs fs).
Proof.
  intros H. unfold acl_enable_one_filter_by_tagid.
  destruct (find_tag_spec fs t H) as [(i & f & -> & Hi & Hf & <- & E)|[-> Hn]]; simpl.
  - unfold at_ in Hf. rewrite Hf. simpl. pose proof (so_num _ H). pose proof (so_len _ H).
    destruct (set_filter_spec fs i (set_state f (u8 en))) as (fs' & -> & Hset & _); [lia|]. simpl.
    assert (sized fs') as Hz.
    { eapply entry_set_sized; [by apply store_sized| |exact Hset]. by apply set_state_ok, (so_entry _ H i). }
    destruct Hset as [Hs Ha]. exists fs'. rewrite E. split; [done|].
    destruct (replace_at_store fs fs' i (set_state f (u8 en)) f) as [Hok Habs];
      [done|done|done|done|apply Hs|done|done|].
    split; [done|]. rewrite Habs. apply map_eq. intros k. simpl.
    destruct (decide (k = cost f)) as [-> |Hne].
    + by rewrite lookup_insert_eq, lookup_alter_eq, E.
    + by rewrite lookup_insert_ne, lookup_alter_ne by done.
  - exists fs. rewrite Hn. split; [done|]. split; [done|]. apply map_eq. intros k.
    destruct (decide (k = t)) as [-> |Hne]; [by rewrite lookup_alter_eq, Hn|by rewrite lookup_alter_ne].
Qed.

Lemma entry_mark f : entry_ok f -> entry_ok (mark_sync f).
Proof. by intros [[? ?] ?]. Qed.

(** Compilation keeps the store and marks its filters. *)
Lemma sync_store fs fs' :
  store_ok fs -> set_filt_sync fs = Some fs' -> store_ok fs' /\ abs fs' = mark_sync <$> abs fs.
Proof.
  intros H E. destruct (set_filt_sync_spec fs (store_fs_ok fs H)) as (x & E' & Hsame & Hat).
  rewrite E in E'. injection E' as <-. destruct Hsame as (Hn & Hp & Hb & Hl & _).
  destruct (store_sized fs H) as [? ? ? He].
  assert (store_ok fs') as H'.
  { pose proof (so_num _ H). split; unfold at_; try congruence.
    - intros k f. rewrite Hat. intros (g & Hg & ->)%fmap_Some. apply He in Hg.
      case_decide; [by apply entry_mark|done].
    - intros j k f g Hjk. rewrite !Hat. rewrite Hn in Hjk.
      intros (x & Hx & ->)%fmap_Some (y & Hy & ->)%fmap_Some.
      pose proof (so_sorted _ H j k x y Hjk Hx Hy). by repeat case_decide.
    - intros k f. rewrite Hat, Hn. intros Hk (g & Hg & ->)%fmap_Some. case_decide; [lia|].
      by apply (so_free _ H k). }
  split; [done|]. apply abs_ext; [done|]. intros t f. rewrite lookup_fmap, fmap_Some. split.
  - intros (g & (k & Hk & Hg & <-)%abs_lookup & ->); [|done]. exists k. unfold at_ in *.
    rewrite Hn, Hat, Hg. by case_decide.
  - intros (k & Hk & Hf & <-). unfold at_ in Hf. rewrite Hn in Hk. rewrite Hat in Hf.
    apply fmap_Some in Hf as (g & Hg & ->). case_decide; [|lia]. exists g. split; [|done].
    apply abs_lookup; eauto.
Qed.

(** ** The meaning of a rule *)

(** The packet of an address and port tuple: the arguments that
    [frcore_rule_process] passes to the lookup. *)
Definition tuple_packet (sip dip sp dp proto : Z) : packet :=
  packet_of (hi16 sip) (lo16 sip) (hi16 dip) (lo16 dip) sp dp proto.

(** A field of a rule: zero matches everything. *)
Definition field (v x : Z) : bool := (v =? 0) || (v =? x).

Definition rule_match (r : frc_rule_t) (sip dip sp dp proto : Z) : bool :=
  field (r_sip r) sip && field (r_dip r) dip && field (r_sp r) sp && field (r_dp r) dp &&
  field (r_proto r) proto.

Lemma any_or_match top v x :
  0 <= x <= top -> (let '(s, e) := any_or top v in (s <=? x) && (x <=? e)) = field v x.
Proof. intros. unfold any_or, field. destruct (Z.eqb_spec v 0); simpl; lia. Qed.

Lemma halves_match v x :
  0 <= v < 2 ^ 32 -> 0 <= x < 2 ^ 32 ->
  (let '(s, e) := if v =? 0 then (0, 65535) else (hi16 v, hi16 v) in
     (s <=? hi16 x) && (hi16 x <=? e)) &&
  (let '(s, e) := if v =? 0 then (0, 65535) else (lo16 v, lo16 v) in
     (s <=? lo16 x) && (lo16 x <=? e)) = field v x.
Proof.
  intros Hv Hx. pose proof (hi16_range x Hx). pose proof (lo16_range x).
  unfold field. destruct (Z.eqb_spec v 0); simpl; [lia|].
  assert (v = hi16 v * 65536 + lo16 v) as E1 by (unfold hi16, lo16; Z.to_euclidean_division_equations; lia).
  assert (x = hi16 x * 65536 + lo16 x) as E2 by (unfold hi16, lo16; Z.to_euclidean_division_equations; lia).
  pose proof (lo16_range v). destruct (Z.eqb_spec v x); [subst; lia|lia].
Qed.

Lemma rule_filter_match tag r sip dip sp dp proto :
  rule_ok r -> 0 <= sip < 2 ^ 32 -> 0 <= dip < 2 ^ 32 -> 0 <= sp < 2 ^ 16 -> 0 <= dp < 2 ^ 16 ->
  0 <= proto < 256 ->
  filter_match (tuple_packet sip dip sp dp proto) (rule_filter tag r) =
  rule_match r sip dip sp dp proto.
Proof.
  intros [] Hs Hd Hsp Hdp Hp. unfold filter_match.
  change (seqZ 0 7) with [0; 1; 2; 3; 4; 5; 6]. unfold rule_match.
  rewrite <- (halves_match (r_sip r) sip), <- (halves_match (r_dip r) dip) by done.
  rewrite <- (any_or_match 65535 (r_sp r) sp), <- (any_or_match 65535 (r_dp r) dp),
    <- (any_or_match 255 (r_proto r) proto) by lia.
  cbn -[Z.leb any_or hi16 lo16 Z.eqb andb]. rewrite !andb_true_l, andb_true_r, !andb_assoc. done.
Qed.

(** ** Properties of the store *)

(** C26: Configuring a rule is insertion in the map from tags to filters: for every
    tag below [MPP_MAX_FILTERS] [acl_setfilter] is defined, keeps the array
    sorted and well formed, and only changes the filter of that tag, whose
    counters start at zero. *)
Theorem acl_setfilter_refines fs tag r :
  store_ok fs -> rule_ok r -> 0 <= tag < MPP_MAX_FILTERS ->
  exists fs', acl_setfilter fs tag r = Some fs' /\ store_ok fs' /\
    abs fs' = <[tag := rule_filter tag r]> (abs fs) /\
    arr_get (pkt_num fs') tag = Some 0 /\ arr_get (pkt_bytes fs') tag = Some 0.
Proof. apply acl_setfilter_spec. Qed.

(** Deleting a tag is deletion from the map; the return code tells whether the
    tag was configured. *)
Theorem acl_delete_refines fs tag :
  store_ok fs ->
  exists fs', acl_DeleteOneFilter_by_tagid fs tag =
    Some (match abs fs !! tag with Some _ => FRE_SUCCESS | None => FRE_NOTFOUND end, fs') /\
    store_ok fs' /\ abs fs' = delete tag (abs fs).
Proof. apply delete_spec. Qed.

(** The readers and the enable switch look up and alter the map: the state of
    an absent tag is [ACL_UNSET], and switching a filter changes its state
    only. *)
Theorem acl_state_refines fs tag en :
  store_ok fs ->
  acl_getfilter_state fs tag = Some (from_option state ACL_UNSET (abs fs !! tag)) /\
  exists fs', acl_enable_one_filter_by_tagid fs tag en =
    Some (match abs fs !! tag with Some _ => 1 | None => 0 end, fs') /\
    store_ok fs' /\ abs fs' = alter (fun f => set_state f (u8 en)) tag (abs fs).
Proof.
  intros H. split; [|by apply enable_spec]. unfold acl_getfilter_state.
  destruct (find_tag_spec fs tag H) as [(i & f & -> & Hi & Hf & <- & ->)|[-> ->]]; simpl; [|done].
  unfold at_ in Hf. by rewrite Hf.
Qed.

Lemma hi_lo_spec v : 0 <= v < 2 ^ 32 ->
  hi_lo (if v =? 0 then 0 else hi16 v) (if v =? 0 then 0 else lo16 v) = v.
Proof.
  intros Hv. destruct (Z.eqb_spec v 0) as [-> |]; [done|].
  unfold hi_lo. pose proof (hi16_range v Hv). pose proof (lo16_range v).
  rewrite Z.shiftl_mul_pow2, (wrapu_id 32) by (simpl; lia).
  change 0x0000FFFF with (Z.ones 16). rewrite Z.land_ones by lia.
  change 0xFFFF0000 with (Z.shiftl (Z.ones 16) 16).
  rewrite <- Z.shiftl_mul_pow2, <- Z.shiftl_land, Z.land_ones by lia.
  rewrite (Z.mod_small (hi16 v)), (Z.mod_small (lo16 v)) by (simpl; lia).
  unfold lo16, hi16. apply Z.bits_inj'. intros m Hm.
  rewrite Z.lor_spec, Z.shiftl_spec by lia. destruct (Z.ltb_spec m 16).
  - rewrite Z.testbit_neg_r, Z.mod_pow2_bits_low by lia. done.
  - rewrite Z.div_pow2_bits, Z.mod_pow2_bits_high by lia.
    rewrite orb_false_r. f_equal. lia.
Qed.

Lemma any_or_lo top v : (any_or top v).1 = v.
Proof. unfold any_or. destruct (Z.eqb_spec v 0); simpl; congruence. Qed.

Lemma ite_fst (v a : Z) : (if v =? 0 then (0, 65535) else (a, a)).1 = if v =? 0 then 0 else a.
Proof. by destruct (v =? 0). Qed.

Lemma getfileter_rule tag r :
  rule_ok r -> getfileter (rule_filter tag r) =
    Some (Tuple5 (r_sip r) (r_dip r) (r_sp r) (r_dp r) (r_proto r)).
Proof.
  intros []. unfold getfileter, dim_lo, rule_filter.
  cbn -[Z.eqb any_or hi16 lo16 hi_lo Z.land fst]. nat_literals.
  cbn -[Z.eqb any_or hi16 lo16 hi_lo Z.land fst]. rewrite !any_or_lo, !ite_fst, !hi_lo_spec by done.
  change 0xFFFF with (Z.ones 16). rewrite !Z.land_ones by lia.
  by rewrite (Z.mod_small (r_sp r)), (Z.mod_small (r_dp r)), (Z.mod_small (r_proto r)).
Qed.

Lemma setfilter_query fs tag r fs' :
  store_ok fs -> rule_ok r -> 0 <= tag < MPP_MAX_FILTERS -> acl_setfilter fs tag r = Some fs' ->
  exists ruleid, acl_getfilter_by_tagid fs' tag = Some (FRE_SUCCESS, Some (FilterInfo
    ruleid ACL_ENABLE ACL_NOSYNC
    (Tuple5 (r_sip r) (r_dip r) (r_sp r) (r_dp r) (r_proto r)) 0 0
    (r_op r) (r_action r) (r_rule_type r) (r_rule_source r))).
Proof.
  intros H Hr Ht E. destruct (acl_setfilter_spec fs tag r H Hr Ht) as (x & E' & Hx & Habs & P & B).
  rewrite E in E'. injection E' as <-. unfold acl_getfilter_by_tagid.
  destruct (find_tag_spec fs' tag Hx) as [(i & f & -> & Hi & Hf & Hc & Hl)|[_ Hl]];
    rewrite Habs, lookup_insert_eq in Hl; [|done].
  injection Hl as <-. unfold at_ in Hf. unfold acl_get_statistic_hit, acl_get_pkt_bytes.
  rewrite P, B. cbn [mbind option_bind]. rewrite Hf. cbn [mbind option_bind].
  rewrite getfileter_rule by done. eexists. reflexivity.
Qed.

(** A configured rule reads back as it was written: the query by tag finds it
    and returns the addresses, ports, protocol and attributes of the rule, state
    enabled, not yet synchronised, and zero counters. *)
Theorem acl_set_get_roundtrip fs tag r fs' :
  store_ok fs -> rule_ok r -> 0 <= tag < MPP_MAX_FILTERS -> acl_setfilter fs tag r = Some fs' ->
  exists ruleid, acl_getfilter_by_tagid fs' tag = Some (FRE_SUCCESS, Some (FilterInfo
    ruleid ACL_ENABLE ACL_NOSYNC
    (Tuple5 (r_sip r) (r_dip r) (r_sp r) (r_dp r) (r_proto r)) 0 0
    (r_op r) (r_action r) (r_rule_type r) (r_rule_source r))).
Proof. apply setfilter_query. Qed.

(** A rule matches the packets that agree with it in every field that is not
    zero, zero being the wildcard for addresses, ports and protocol. *)
Theorem rule_wildcard_match tag r f sip dip sp dp proto :
  rule_ok r -> filter_of tag r = Some f ->
  0 <= sip < 2 ^ 32 -> 0 <= dip < 2 ^ 32 -> 0 <= sp < 2 ^ 16 -> 0 <= dp < 2 ^ 16 ->
  0 <= proto < 256 ->
  filter_match (tuple_packet sip dip sp dp proto) f =
  ((r_sip r =? 0) || (r_sip r =? sip)) && ((r_dip r =? 0) || (r_dip r =? dip)) &&
  ((r_sp r =? 0) || (r_sp r =? sp)) && ((r_dp r =? 0) || (r_dp r =? dp)) &&
  ((r_proto r =? 0) || (r_proto r =? proto)).
Proof.
  intros Hr Hf ? ? ? ? ?. rewrite filter_of_spec in Hf by done. injection Hf as <-.
  by rewrite rule_filter_match.
Qed.

(** The classification in terms of the map: the least matching tag, 0 if none. *)
Lemma classify_abs fs p :
  store_ok fs -> numFilters fs < MPP_MAX_FILTERS ->
  (exists f, abs fs !! classify fs p = Some f /\ filter_match p f = true /\
     forall t g, abs fs !! t = Some g -> filter_match p g = true -> classify fs p <= t) \/
  (classify fs p = 0 /\ forall t g, abs fs !! t = Some g -> filter_match p g = false).
Proof.
  intros H Hn. unfold classify. destruct (first_index _ _) as [i|] eqn:E.
  - left. apply first_index_Some in E as (f & Hf & Hm & Hbefore).
    apply live_lookup in Hf as [Hi Hf]; [|done].
    destruct (so_entry _ H _ _ Hf) as [_ Hc]. unfold MPP_MAX_FILTERS in Hc.
    unfold at_ in Hf. rewrite Hf. simpl. rewrite wrapu_id by (simpl; lia). exists f.
    split; [apply abs_lookup; eauto|]. split; [done|].
    intros t g (k & Hk & Hg & <-)%abs_lookup Hmg; [|done].
    destruct (Z.lt_trichotomy k (Z.of_nat i)) as [Hl|[-> |Hg']].
    + exfalso. pose proof (at_range _ _ _ H Hg). rewrite (Hbefore (Z.to_nat k) g) in Hmg; [done|lia|].
      apply live_lookup; [done|]. by rewrite Z2Nat.id by lia.
    + unfold at_ in Hg. assert (f = g) as -> by congruence. lia.
    + assert (cost f < cost g) by (apply (so_sorted _ H (Z.of_nat i) k); [lia|done..]). lia.
  - right. rewrite first_index_None in E. pose proof (so_num _ H). split.
    + destruct (at_some fs (MPP_MAX_FILTERS - 1) H) as [f Hf]; [unfold MPP_MAX_FILTERS in *; lia|].
      pose proof Hf as Hz. apply (so_free _ H) in Hz; [|lia]. unfold at_ in Hf. by rewrite Hf, Hz.
    + intros t g (k & Hk & Hg & <-)%abs_lookup; [|done]. pose proof (at_range _ _ _ H Hg).
      apply (E (Z.to_nat k)), live_lookup; [done|]. by rewrite Z2Nat.id by lia.
Qed.

(** C1: The compiled lookup, from end to end: on a packet it returns the least tag
    whose filter is enabled and contains the packet, and 0 when there is none. *)
Theorem acl_lookup_least d d' sip dip sp dp proto :
  store_ok (filtset d) -> tables_alloc d -> numFilters (filtset d) < MPP_MAX_FILTERS ->
  pre_acl_lookup_by_tuple d = Some (FRE_SUCCESS, d') ->
  0 <= sip < 2 ^ 32 -> 0 <= dip < 2 ^ 32 -> 0 <= sp < 2 ^ 16 -> 0 <= dp < 2 ^ 16 ->
  0 <= proto < 256 ->
  exists tag,
    acl_lookup_by_tuple d' (hi16 sip) (lo16 sip) (hi16 dip) (lo16 dip) sp dp proto = Some tag /\
    ((exists f, abs (filtset d) !! tag = Some f /\
        filter_match (tuple_packet sip dip sp dp proto) f = true /\
        forall t g, abs (filtset d) !! t = Some g ->
          filter_match (tuple_packet sip dip sp dp proto) g = true -> tag <= t) \/
     (tag = 0 /\ forall t g, abs (filtset d) !! t = Some g ->
        filter_match (tuple_packet sip dip sp dp proto) g = false)).
Proof.
  intros H Ha Hn E Hs Hd Hsp Hdp Hp.
  pose proof (compile_wp false d (store_fs_ok _ H) Ha ltac:(done)) as Hw. rewrite E in Hw.
  destruct Hw as (_ & _ & [[Hbad _]|[_ Hc]]); [done|].
  eexists. split; [|by apply classify_abs].
  pose proof (hi16_range sip Hs). pose proof (hi16_range dip Hd).
  pose proof (lo16_range sip). pose proof (lo16_range dip).
  apply Hc; unfold NLINE; simpl in *; lia.
Qed.

(** A sorted list of filters in zeroed memory. *)
Lemma filtset_of_at l k f :
  at_ (filtset_of l) k = Some f ->
  (0 <= k < Z.of_nat (length l) /\ l !! Z.to_nat k = Some f) \/
  (Z.of_nat (length l) <= k /\ f = ZERO_FILTER).
Proof.
  unfold at_, filtset_of. cbn [filtArr]. intros [Hk Hf]%arr_get_Some.
  apply lookup_app_Some in Hf as [Hf|[Hl [-> _]%lookup_replicate]]; [left|right].
  - apply lookup_lt_Some in Hf as Hlt. split; [lia|done].
  - split; [lia|done].
Qed.

Lemma filtset_of_store l :
  (length l <= 2048)%nat -> Forall entry_ok l ->
  (forall j k f g, (j < k)%nat -> l !! j = Some f -> l !! k = Some g -> cost f < cost g) ->
  store_ok (filtset_of l).
Proof.
  intros Hl He Hs. split; unfold MPP_MAX_FILTERS; cbn [numFilters filtset_of pkt_num pkt_bytes filtArr].
  - lia.
  - rewrite length_app, length_replicate. lia.
  - by rewrite length_replicate.
  - by rewrite length_replicate.
  - intros k f [[_ Hf]|[_ ->]]%filtset_of_at; [|apply zero_entry_ok].
    exact (Forall_lookup_1 _ _ _ _ He Hf).
  - intros j k f g Hjk [[Hj Hf]|[? _]]%filtset_of_at [[Hk Hg]|[? _]]%filtset_of_at; [|lia..].
    apply (Hs (Z.to_nat j) (Z.to_nat k)); [lia|done..].
  - intros k f Hk [[? _]|[_ ->]]%filtset_of_at; [lia|done].
Qed.

Lemma filtset_zero_ok : store_ok (filtset_of []).
Proof. apply filtset_of_store; [simpl; lia|constructor|intros j k f g _ Hj; done]. Qed.

(** Whatever sequence of configuration, deletion, enabling, counting and
    compilation steps runs from the state after start-up, the rule array stays
    sorted, within its bounds and consistent with the map, and the tables keep
    their sizes. *)
Theorem acl_reachable_ok d : rtc acl_step acl_start d -> acl_ok d.
Proof.
  intros Hr. assert (acl_ok acl_start) as H0 by (split; [apply filtset_zero_ok|apply zero_acl_alloc]).
  induction Hr as [|d1 d2 d3 Hst _ IH]; [done|]. apply IH. clear IH. destruct H0 as [H Ha].
  destruct Hst as [d tag r fs' Hrule Ht E|d tag rc fs' E|d tag en rc fs' E|d tag fs' E
    |d tag len fs1 fs2 E1 E2|d rc d' E].
  - destruct (acl_setfilter_spec _ tag r H Hrule Ht) as (x & E' & Hx & _).
    assert (x = fs') as -> by congruence. by split; [|destruct Ha].
  - destruct (delete_spec _ tag H) as (x & E' & Hx & _).
    assert (x = fs') as -> by congruence. by split; [|destruct Ha].
  - destruct (enable_spec _ tag en H) as (x & E' & Hx & _).
    assert (x = fs') as -> by congruence. by split; [|destruct Ha].
  - apply bind_Some in E as (y & [S1 A1]%set_pkt_num_inv & [S2 A2]%set_pkt_bytes_inv).
    split; [|by destruct Ha]. apply (counters_store (filtset d)); [done|by etrans|].
    simpl. by rewrite A2.
  - apply bind_Some in E1 as (v & _ & [S1 A1]%set_pkt_num_inv).
    apply bind_Some in E2 as (w & _ & [S2 A2]%set_pkt_bytes_inv).
    split; [|by destruct Ha]. apply (counters_store (filtset d)); [done|by etrans|].
    simpl. by rewrite A2.
  - pose proof (compile_wp false d (store_fs_ok _ H) Ha ltac:(done)) as Hw. rewrite E in Hw.
    destruct Hw as (Es & Ha' & _). split; [|done]. by apply (sync_store (filtset d)).
Qed.

(** ** Operations that break the promise *)

Definition any_rule : frc_rule_t := FrcRule 0 0 0 0 0 0 0 0 0 0.

Definition hit_times (n : nat) (tag : Z) (fs : FILTSET) : option FILTSET :=
  foldM (fun fs _ => acl_statistic_hit fs tag) (replicate n 0) fs.

(** Rules 5 and 9, hit once and three times. *)
Definition two_hit_rules : option FILTSET :=
  fs ← acl_setfilter (filtset_of []) 5 any_rule;
  fs ← acl_setfilter fs 9 any_rule;
  fs ← hit_times 1 5 fs;
  hit_times 3 9 fs.

(** The counters are indexed by tag but moved with the array entries: when rule
    3 is configured below rules 5 and 9, rule 9 loses its three hits and shows
    the single hit of rule 5. *)
Theorem setfilter_moves_counters :
  (fs ← two_hit_rules; acl_get_statistic_hit fs 9) = Some 3 /\
  (fs ← two_hit_rules; fs ← acl_setfilter fs 3 any_rule; acl_get_statistic_hit fs 9) = Some 1.
Proof. split; vm_compute; reflexivity. Qed.

Definition four_rules : option FILTSET :=
  fs ← acl_setfilter (filtset_of []) 5 any_rule;
  fs ← acl_setfilter fs 7 any_rule;
  fs ← acl_setfilter fs 9 any_rule;
  acl_setfilter fs 11 any_rule.

Definition tags (n : nat) (fs : FILTSET) : list Z := cost <$> take n (filtArr fs).

(** Renumbering a filter loses another one: [acl_updatefiltertagid_by_stagid]
    shifts from index 0 instead of from the insertion point, so moving tag 11
    to 8 in 5, 7, 9, 11 duplicates tag 5 and drops tag 7. *)
Theorem updatetagid_loses_filter :
  (tags 4 <$> four_rules) = Some [5; 7; 9; 11] /\
  (fs ← four_rules; '(ret, fs) ← acl_updatefiltertagid_by_stagid fs 11 8; Some (ret, tags 4 fs)) =
    Some (1, [5; 5; 8; 9]).
Proof. split; vm_compute; reflexivity. Qed.

(** A tag of [MPP_MAX_FILTERS] or more, which the rule command does not
    reject, makes [acl_setfilter] write its counters out of their arrays. *)
Theorem setfilter_tag_overflow fs tag r :
  store_ok fs -> MPP_MAX_FILTERS <= tag -> acl_setfilter fs tag r = None.
Proof.
  intros H Ht. assert (forall k f, at_ fs k = Some f -> cost f < tag) as Hlt.
  { intros k f Hf. destruct (so_entry _ H k f Hf) as [_ Hc]. lia. }
  unfold acl_setfilter, find_position.
  destruct (search_store fs (fun i f => if tag <? cost f then Some (Before i)
    else if tag =? cost f then Some (At i) else None) H)
    as [(i & f & v & _ & Hf & Hg & _)|[_ ->]].
  - specialize (Hlt _ _ Hf). rewrite (proj2 (Z.ltb_ge _ _)), (proj2 (Z.eqb_neq _ _)) in Hg by lia.
    done.
  - simpl. unfold setfilter. destruct (filter_of tag r); simpl; [|done].
    destruct (set_filter fs _ _) as [x|] eqn:E; simpl; [|done].
    assert (pkt_num x = pkt_num fs) as Ep.
    { apply bind_Some in E as (a & _ & E). by injection E as <-. }
    unfold set_pkt_num, arr_set. rewrite Ep, (so_pkts _ H), (proj2 (Z.ltb_ge _ _)) by lia.
    by rewrite andb_false_r.
Qed.

(** ** Witnesses *)

Definition sample_rule : frc_rule_t := FrcRule 167772161 0 0 80 6 12 1 2 3 4.

Lemma sample_rule_ok : rule_ok sample_rule.
Proof. split; simpl; lia. Qed.

Lemma two_filters_store : store_ok (filtset_of two_filters).
Proof.
  apply filtset_of_store.
  - simpl. lia.
  - repeat constructor; simpl; unfold NLINE; lia.
  - intros [|[|[|j]]] [|[|[|k]]] f g Hjk Hf Hg; simpl in *; simplify_eq; simpl; lia.
Qed.

Lemma acl_setfilter_refines_witness :
  exists fs', acl_setfilter (filtset_of two_filters) 7 sample_rule = Some fs' /\
    abs fs' !! 7 = Some (rule_filter 7 sample_rule).
Proof.
  destruct (acl_setfilter_refines _ 7 _ two_filters_store sample_rule_ok) as (fs' & E & _ & A & _).
  - unfold MPP_MAX_FILTERS. lia.
  - exists fs'. split; [exact E|]. rewrite A. apply lookup_insert_eq.
Defined.

Lemma acl_delete_refines_witness :
  exists rc fs', acl_DeleteOneFilter_by_tagid (filtset_of two_filters) 5 = Some (rc, fs') /\
    abs fs' !! 5 = None.
Proof.
  destruct (acl_delete_refines _ 5 two_filters_store) as (fs' & E & _ & A).
  eexists _, fs'. split; [exact E|]. rewrite A. apply lookup_delete_eq.
Defined.

Lemma acl_state_refines_witness :
  acl_getfilter_state (filtset_of two_filters) 5 =
    Some (from_option state ACL_UNSET (abs (filtset_of two_filters) !! 5)).
Proof. exact (proj1 (acl_state_refines _ 5 0 two_filters_store)). Defined.

Lemma acl_set_get_roundtrip_witness :
  exists fs' ruleid, acl_setfilter (filtset_of two_filters) 7 sample_rule = Some fs' /\
    acl_getfilter_by_tagid fs' 7 = Some (FRE_SUCCESS, Some (FilterInfo ruleid ACL_ENABLE
      ACL_NOSYNC (Tuple5 167772161 0 0 80 6) 0 0 4 3 2 1)).
Proof.
  assert (0 <= 7 < MPP_MAX_FILTERS) as H7 by (unfold MPP_MAX_FILTERS; lia).
  destruct (acl_setfilter_spec _ 7 _ two_filters_store sample_rule_ok H7) as (fs' & E & _).
  destruct (acl_set_get_roundtrip _ 7 _ fs' two_filters_store sample_rule_ok H7 E) as [i Hi].
  exists fs', i. split; [exact E|exact Hi].
Defined.

Lemma rule_wildcard_match_witness : exists f,
  filter_of 7 sample_rule = Some f /\
  filter_match (tuple_packet 167772161 9 1234 80 6) f = true.
Proof.
  pose proof (filter_of_spec 7 sample_rule sample_rule_ok) as E.
  exists (rule_filter 7 sample_rule). split; [exact E|].
  exact (rule_wildcard_match 7 sample_rule _ 167772161 9 1234 80 6 sample_rule_ok E
    ltac:(lia) ltac:(lia) ltac:(lia) ltac:(lia) ltac:(lia)).
Defined.

Lemma acl_lookup_least_witness : exists d' tag,
  pre_acl_lookup_by_tuple (zero_acl (filtset_of two_filters)) = Some (FRE_SUCCESS, d') /\
  acl_lookup_by_tuple d' (hi16 3232235777) (lo16 3232235777) (hi16 9) (lo16 9) 1 80 6 = Some tag.
Proof.
  destruct compile_two as [d' E].
  destruct (acl_lookup_least (zero_acl (filtset_of two_filters)) d' 3232235777 9 1 80 6
    two_filters_store (zero_acl_alloc _) ltac:(reflexivity) E
    ltac:(lia) ltac:(lia) ltac:(lia) ltac:(lia) ltac:(lia)) as (tag & Et & _).
  exists d', tag. split; [exact E|exact Et].
Defined.

Lemma acl_reachable_ok_witness : exists fs',
  acl_setfilter (filtset_of []) 7 sample_rule = Some fs' /\ acl_ok (with_filtset acl_start fs').
Proof.
  assert (0 <= 7 < MPP_MAX_FILTERS) as H7 by (unfold MPP_MAX_FILTERS; lia).
  destruct (acl_setfilter_spec _ 7 _ filtset_zero_ok sample_rule_ok H7) as (fs' & E & _).
  exists fs'. split; [exact E|]. apply acl_reachable_ok. eapply rtc_l; [|apply rtc_refl].
  exact (step_set acl_start 7 sample_rule fs' sample_rule_ok H7 E).
Defined.

Lemma setfilter_tag_overflow_witness :
  acl_setfilter (filtset_of two_filters) 2048 sample_rule = None.
Proof. apply setfilter_tag_overflow; [exact two_filters_store|reflexivity || (unfold MPP_MAX_FILTERS; lia)]. Defined.
