(* ===== verification/Rule.v ===== *)
(** * Rule commands and rule processing: src/code/frcore/frcore_rule.c

    The command handlers of the rule component on the ACL store of [Acl], and
    the packet path up to the record handed to the output FIFO.  A handler
    takes the fields of its [param] structure and returns its return code, what
    it writes to [outbuf], and the state; [MAX_RULE] bounds the answer of the
    statistics query. *)

From S2P Require Import Prelude Bytes Rfc RfcPhases Acl AclClassify AclStore AclProps VlanCheck.
#[local] Open Scope Z_scope.

Definition MAX_RULE : Z := 4.
Definition PROTO_TCP : Z := 0x06.
Definition PROTO_UDP : Z := 0x11.
Definition FRCORE_ACT_DROP : Z := 1.

(** The static switch, the ACL and the counters of frcore_stat.h. *)
Record rule_state : Type := RuleState {
  rule_enable : Z;
  acl : mpp_acl_filtset;
  stat_rule_matched_pkts : Z; stat_rule_matched_bytes : Z;
  stat_rule_not_matched_pkts : Z; stat_rule_not_matched_bytes : Z;
  stat_rule_malformed_packet : Z }.

Definition with_acl (st : rule_state) (fs : FILTSET) : rule_state :=
  RuleState (rule_enable st) (with_filtset (acl st) fs) (stat_rule_matched_pkts st)
    (stat_rule_matched_bytes st) (stat_rule_not_matched_pkts st)
    (stat_rule_not_matched_bytes st) (stat_rule_malformed_packet st).

Definition rules (st : rule_state) : FILTSET := filtset (acl st).

(** ** Commands *)

Definition frcore_cmd_rule_enable (enable : Z) (st : rule_state) : Z * rule_state :=
  (FRE_SUCCESS, RuleState (u8 enable) (acl st) (stat_rule_matched_pkts st)
    (stat_rule_matched_bytes st) (stat_rule_not_matched_pkts st)
    (stat_rule_not_matched_bytes st) (stat_rule_malformed_packet st)).

Definition frcore_cmd_rule_status_get (st : rule_state) : Z * Z := (FRE_SUCCESS, rule_enable st).

Definition frcore_cmd_rule_add (r : frc_rule_t) (st : rule_state) : option (Z * rule_state) :=
  fs ← acl_setfilter (rules st) (r_index r) r;
  Some (FRE_SUCCESS, with_acl st fs).

(** One round of the deletion loops: [tagid + i] is passed as a [uint16_t]. *)
Definition rule_del_one (tagid : Z) (s : Z * Z * FILTSET) (i : Z) : option (Z * Z * FILTSET) :=
  let '(rv, num, fs) := s in
  '(rv, fs) ← acl_DeleteOneFilter_by_tagid fs (u16 (tagid + i));
  Some (rv, if rv =? 0 then u16 (num + 1) else num, fs).

(** Returns the last code and the number of deleted rules. *)
Definition frcore_cmd_rule_del (index num : Z) (st : rule_state)
    : option (Z * Z * rule_state) :=
  '(rv, n, fs) ← foldM (rule_del_one (u16 index)) (seqZ 0 (s32 num)) (0, 0, rules st);
  Some (rv, n, with_acl st fs).

(** [outbuf] is only written on success. *)
Definition frcore_cmd_rule_clear_all (index num : Z) (st : rule_state)
    : option (Z * option Z * rule_state) :=
  let n := acl_getfilter_count (rules st) in
  '(_, _, fs) ← foldM (rule_del_one (u16 index)) (seqZ 0 (s32 num)) (0, 0, rules st);
  if acl_getfilter_count fs =? 0
  then Some (FRE_SUCCESS, Some n, with_acl st fs)
  else Some (FRE_FAIL, None, with_acl st fs).

Definition frcore_cmd_rule_update (st : rule_state) : option (Z * rule_state) :=
  '(rv, d) ← pre_acl_lookup_by_tuple (acl st);
  Some (rv, RuleState (rule_enable st) d (stat_rule_matched_pkts st)
    (stat_rule_matched_bytes st) (stat_rule_not_matched_pkts st)
    (stat_rule_not_matched_bytes st) (stat_rule_malformed_packet st)).

(** One entry of [frc_rule_stat_out_t]. *)
Record rule_stat : Type := RuleStat { rs_rule : frc_rule_t; rs_pkts : Z; rs_bytes : Z }.

Definition rule_stat_of (tagid : Z) (i : filter_info) : rule_stat :=
  let t := i_tuple i in
  RuleStat (FrcRule (t_sip t) (t_dip t) (t_sp t) (t_dp t) (t_proto t) tagid
    (i_rule_source i) (i_rule_type i) (i_action i) (i_op i)) (i_pkts i) (i_bytes i).

(** The entries found so far fill [output.rule_stat] in order. *)
Definition rule_stat_one (fs : FILTSET) (index : Z) (out : list rule_stat) (i : Z)
    : option (list rule_stat) :=
  let tagid := u16 (index + i) in
  '(rv, info) ← acl_getfilter_by_tagid fs tagid;
  match info with
  | Some info =>
    _ ← guard_ub (Z.of_nat (length out) <? MAX_RULE);
    Some (out ++ [rule_stat_of tagid info])
  | None => Some out
  end.

Definition frcore_cmd_rule_stat_get (index num : Z) (st : rule_state)
    : option (Z * list rule_stat) :=
  out ← foldM (rule_stat_one (rules st) index) (seqZ 0 (s32 num)) [];
  Some (FRE_SUCCESS, out).

Definition frcore_cmd_rule_stat_clear (index num : Z) (st : rule_state)
    : option (Z * Z * rule_state) :=
  fs ← foldM (fun fs i => acl_initfilter_statistics_by_tagid fs (u16 (index + i)))
    (seqZ 0 (s32 num)) (rules st);
  Some (FRE_SUCCESS, u16 (Z.max 0 (s32 num)), with_acl st fs).

Definition frcore_cmd_rule_get_num (st : rule_state) : Z * Z :=
  (FRE_SUCCESS, acl_getfilter_count (rules st)).

(** ** Packets *)

(** The fields of [frc_dma_hdr_t] and [frc_dma_pkt_info_t] that are filled. *)
Record submit : Type := Submit {
  s_tag : Z; s_sip : Z; s_dip : Z; s_sport : Z; s_dport : Z; s_protocol : Z; s_hash : Z;
  s_pkt_num : Z; s_total_paylen : Z; s_data_offset : Z; s_payload_len : Z; s_sequence : Z;
  s_ack_seq : Z; s_smac : Z; s_dmac : Z }.

(** What the packet path decides: an early return, or the record for the FIFO. *)
Inductive rule_outcome : Type :=
| Return (rv : Z)
| ToFifo (s : submit).

(** The parsed fields of the packet: address tuple, IP header length and total
    length, TCP data offset and sequence numbers, work length and tag, offset of
    the transport header in the frame, IP payload length and MAC addresses. *)
Record rule_pkt : Type := RulePkt {
  k_sip : Z; k_dip : Z; k_sp : Z; k_dp : Z; k_proto : Z;
  k_ihl : Z; k_tot_len : Z; k_doff : Z; k_seq : Z; k_ack_seq : Z;
  k_len : Z; k_work_tag : Z; k_l4_off : Z; k_ip_paylen : Z; k_smac : Z; k_dmac : Z }.

Definition submit_of (tag : Z) (p : rule_pkt) : submit :=
  let doff := Z.shiftl (k_doff p) 2 in
  let s off pay seq ack := Submit tag (k_sip p) (k_dip p) (k_sp p) (k_dp p) (k_proto p)
    (Z.land (k_work_tag p) 0xffffff) 1 (u16 (k_len p)) off pay seq ack (k_smac p) (k_dmac p) in
  if k_proto p =? PROTO_TCP
  then s (u32 (k_l4_off p + doff)) (u16 (k_ip_paylen p - doff)) (k_seq p) (k_ack_seq p)
  else if k_proto p =? PROTO_UDP
  then s (u32 (k_l4_off p + 8)) (u16 (k_ip_paylen p - 8)) 0 0
  else s 0 0 0 0.

Definition frcore_rule_process (p : rule_pkt) (st : rule_state)
    : option (rule_outcome * rule_state) :=
  if rule_enable st =? 0 then Some (Return 0, st) else
  if (k_proto p =? PROTO_TCP) && (k_tot_len p <? Z.shiftl (k_ihl p + k_doff p) 2) then
    Some (Return FRCORE_ACT_DROP,
      RuleState (rule_enable st) (acl st) (stat_rule_matched_pkts st)
        (stat_rule_matched_bytes st) (stat_rule_not_matched_pkts st)
        (stat_rule_not_matched_bytes st) (u64 (stat_rule_malformed_packet st + 1)))
  else
  tag ← acl_lookup_by_tuple (acl st)
    (Z.land (Z.shiftr (k_sip p) 16) 0xFFFF) (Z.land (k_sip p) 0xFFFF)
    (Z.land (Z.shiftr (k_dip p) 16) 0xFFFF) (Z.land (k_dip p) 0xFFFF)
    (k_sp p) (k_dp p) (k_proto p);
  if negb (tag =? 0) then
    if negb (tag =? MPP_MAX_FILTERS - 1) then
      fs ← acl_statistic_hit (rules st) tag;
      fs ← acl_pkt_bytes_add fs tag (u16 (k_len p));
      Some (ToFifo (submit_of tag p),
        RuleState (rule_enable st) (with_filtset (acl st) fs)
          (u64 (stat_rule_matched_pkts st + 1)) (u64 (stat_rule_matched_bytes st + k_len p))
          (stat_rule_not_matched_pkts st) (stat_rule_not_matched_bytes st)
          (stat_rule_malformed_packet st))
    else Some (Return 0, st)
  else
    Some (Return 0,
      RuleState (rule_enable st) (acl st) (stat_rule_matched_pkts st)
        (stat_rule_matched_bytes st) (u64 (stat_rule_not_matched_pkts st + 1))
        (u64 (stat_rule_not_matched_bytes st + k_len p)) (stat_rule_malformed_packet st)).

(** ** Deletion of a range of tags *)

Definition in_range (index num t : Z) : Prop := index <= t < index + num.

#[export] Instance in_range_dec index num t : Decision (in_range index num t).
Proof. unfold in_range. apply _. Defined.

(** The map without the tags of a range. *)
Definition drop_range (index num : Z) (m : gmap Z FILTER) : gmap Z FILTER :=
  filter (fun p => ~ in_range index num p.1) m.

Lemma drop_range_succ index n m :
  0 <= n -> drop_range index (n + 1) m = delete (index + n) (drop_range index n m).
Proof.
  intros Hn. apply map_eq. intros t. apply option_eq. intros f. unfold drop_range.
  rewrite lookup_delete_Some, !map_lookup_filter_Some. unfold in_range. simpl.
  split; [intros [? ?]; split_and!; [lia|done|lia]|intros [? [? ?]]; split; [done|lia]].
Qed.

Lemma drop_range_lookup index n m t :
  ~ in_range index n t -> drop_range index n m !! t = m !! t.
Proof.
  intros Ht. apply option_eq. intros f. unfold drop_range.
  rewrite map_lookup_filter_Some. simpl. tauto.
Qed.

Lemma size_drop index n m : (size (drop_range index n m) <= size m)%nat.
Proof. apply map_subseteq_size, map_filter_subseteq. Qed.

(** The number of filters is the size of the map. *)
Lemma abs_size fs : store_ok fs -> Z.of_nat (size (abs fs)) = numFilters fs.
Proof.
  intros H. unfold abs. rewrite map_size_list_to_map by by apply live_nodup.
  rewrite length_fmap. unfold live. rewrite length_take.
  pose proof (so_len _ H). pose proof (so_num _ H). lia.
Qed.

Lemma getfilter_count_size fs : store_ok fs -> acl_getfilter_count fs = Z.of_nat (size (abs fs)).
Proof.
  intros H. rewrite abs_size by done. pose proof (so_num _ H). unfold MPP_MAX_FILTERS in *.
  apply wrapu_id. simpl. lia.
Qed.

(** The loop shared by the two deletion commands. *)
Lemma rule_del_loop fs index num :
  store_ok fs -> 0 <= index -> 0 <= num -> index + num <= 2 ^ 16 ->
  exists rv fs', foldM (rule_del_one index) (seqZ 0 num) (0, 0, fs) =
      Some (rv, Z.of_nat (size (abs fs)) - Z.of_nat (size (abs fs')), fs') /\
    store_ok fs' /\ abs fs' = drop_range index num (abs fs).
Proof.
  intros H Hi Hn Hb. pose proof (abs_size fs H) as Hsz. pose proof (so_num _ H) as Hnum.
  unfold MPP_MAX_FILTERS in *.
  destruct (for_seqZ (fun i '(rv, n, x) => store_ok x /\ abs x = drop_range index i (abs fs) /\
      n = Z.of_nat (size (abs fs)) - Z.of_nat (size (abs x)))
    (rule_del_one index) num (0, 0, fs)) as ([[rv n] x] & E & Hx & Ha & ->); [done| | |eauto].
  - split; [done|]. split; [|lia]. apply map_eq. intros t. symmetry. apply drop_range_lookup.
    unfold in_range. lia.
  - intros i [[rv n] x] Hir (Hx & Ha & ->). unfold rule_del_one.
    rewrite (wrapu_id 16 (index + i)) by lia.
    destruct (delete_spec x (index + i) Hx) as (x' & -> & Hx' & Ha'). simpl.
    eexists. split; [done|]. split; [done|]. split; [by rewrite drop_range_succ, <- Ha by lia|].
    rewrite Ha'. pose proof (size_drop index i (abs fs)) as Hle. rewrite <- Ha in Hle.
    destruct (abs x !! (index + i)) as [f|] eqn:Ef; simpl.
    + rewrite map_size_delete_Some by (by exists f).
      assert (size (abs x) <> 0%nat) as Hnz.
      { intros Hz. apply map_size_empty_inv in Hz. by rewrite Hz, lookup_empty in Ef. }
      rewrite wrapu_id by (simpl; lia). lia.
    + rewrite delete_id by done. lia.
Qed.

(** The start index is cut to 16 bits; an empty loop does not use it. *)
Lemma loop_index fs index num :
  0 <= index -> 0 <= num -> index + num <= 65536 ->
  foldM (rule_del_one (u16 index)) (seqZ 0 num) (0, 0, fs) =
  foldM (rule_del_one index) (seqZ 0 num) (0, 0, fs).
Proof.
  intros. destruct (decide (num = 0)) as [-> |]; [done|].
  rewrite (wrapu_id 16 index); [done|]. simpl. lia.
Qed.

(** Deleting [num] rules from [index] removes exactly the tags of that range from
    the map and reports how many of them were configured. *)
Theorem rule_del_range index num st :
  store_ok (rules st) -> 0 <= index -> 0 <= num -> index + num <= 2 ^ 16 ->
  exists rv n st', frcore_cmd_rule_del index num st = Some (rv, n, st') /\ store_ok (rules st') /\
    (forall t f, abs (rules st') !! t = Some f <->
       abs (rules st) !! t = Some f /\ ~ index <= t < index + num) /\
    n = Z.of_nat (size (abs (rules st))) - Z.of_nat (size (abs (rules st'))).
Proof.
  intros H Hi Hn Hb. change (2 ^ 16) with 65536 in Hb. unfold frcore_cmd_rule_del.
  destruct (rule_del_loop (rules st) index num H Hi Hn Hb) as (rv & fs' & E & Hok & Ha).
  rewrite (wraps_id 32), loop_index by (simpl; lia). rewrite E. simpl.
  eexists _, _, _. split; [done|]. split; [done|]. split; [|done].
  intros t f. change (rules (with_acl st fs')) with fs'. rewrite Ha. unfold drop_range. by rewrite map_lookup_filter_Some.
Qed.

(** Clearing succeeds exactly when every configured tag lies in the range, and
    then leaves no rule and returns how many there were. *)
Theorem rule_clear_all_spec index num st :
  store_ok (rules st) -> 0 <= index -> 0 <= num -> index + num <= 2 ^ 16 ->
  exists st', store_ok (rules st') /\
    ((frcore_cmd_rule_clear_all index num st =
        Some (FRE_SUCCESS, Some (Z.of_nat (size (abs (rules st)))), st') /\ abs (rules st') = ∅) \/
     (frcore_cmd_rule_clear_all index num st = Some (FRE_FAIL, None, st') /\
      exists t f, abs (rules st) !! t = Some f /\ ~ index <= t < index + num)).
Proof.
  intros H Hi Hn Hb. change (2 ^ 16) with 65536 in Hb. unfold frcore_cmd_rule_clear_all.
  rewrite (wraps_id 32) by (simpl; lia). rewrite getfilter_count_size by done.
  rewrite loop_index by lia.
  destruct (rule_del_loop (rules st) index num H Hi Hn Hb) as (rv & fs' & E & Hok & Ha).
  rewrite E. simpl. rewrite getfilter_count_size by done. exists (with_acl st fs').
  split; [done|]. destruct (Z.eqb_spec (Z.of_nat (size (abs fs'))) 0) as [Hz|Hz].
  - left. split; [done|]. apply map_size_empty_inv. change (rules (with_acl st fs')) with fs'. lia.
  - right. split; [done|]. destruct (map_choose (abs fs')) as (t & f & Hf).
    { intros E0. by rewrite E0, map_size_empty in Hz. }
    rewrite Ha in Hf. apply map_lookup_filter_Some in Hf as [Hf Hr]. by exists t, f.
Qed.

(** ** Packets *)

Record rule_pkt_ok (p : rule_pkt) : Prop := RulePktOk {
  ko_sip : 0 <= k_sip p < 2 ^ 32; ko_dip : 0 <= k_dip p < 2 ^ 32;
  ko_sp : 0 <= k_sp p < 2 ^ 16; ko_dp : 0 <= k_dp p < 2 ^ 16; ko_proto : 0 <= k_proto p < 256 }.

Definition pkt_of (p : rule_pkt) : packet :=
  tuple_packet (k_sip p) (k_dip p) (k_sp p) (k_dp p) (k_proto p).

Lemma halves_bits ip : 0 <= ip < 2 ^ 32 ->
  Z.land (Z.shiftr ip 16) 0xFFFF = hi16 ip /\ Z.land ip 0xFFFF = lo16 ip.
Proof.
  intros Hip. change 0xFFFF with (Z.ones 16). rewrite !Z.land_ones, Z.shiftr_div_pow2 by lia.
  split; [|done]. apply Z.mod_small. by apply hi16_range.
Qed.

(** After a successful update, an enabled rule component decides every well-formed
    packet by the least matching tag: no match is counted as such, tag
    [MPP_MAX_FILTERS - 1] is ignored, and any other tag gets its packet counted
    and submitted under that tag. *)
Theorem rule_process_verdict p st0 st :
  store_ok (rules st0) -> tables_alloc (acl st0) -> numFilters (rules st0) < MPP_MAX_FILTERS ->
  frcore_cmd_rule_update st0 = Some (FRE_SUCCESS, st) -> rule_enable st0 <> 0 ->
  rule_pkt_ok p -> (k_proto p = PROTO_TCP -> Z.shiftl (k_ihl p + k_doff p) 2 <= k_tot_len p) ->
  exists out st' tag, frcore_rule_process p st = Some (out, st') /\
    tag = classify (rules st0) (pkt_of p) /\
    (tag = 0 -> out = Return 0 /\
       stat_rule_not_matched_pkts st' = u64 (stat_rule_not_matched_pkts st0 + 1) /\ acl st' = acl st) /\
    (tag = MPP_MAX_FILTERS - 1 -> out = Return 0 /\ st' = st) /\
    (tag <> 0 -> tag <> MPP_MAX_FILTERS - 1 -> out = ToFifo (submit_of tag p) /\
       (exists n, arr_get (pkt_num (rules st0)) tag = Some n /\
          arr_get (pkt_num (rules st')) tag = Some (wraps 64 (n + 1))) /\
       stat_rule_matched_pkts st' = u64 (stat_rule_matched_pkts st0 + 1)).
Proof.
  intros H Ha Hn Eu Hen [] Hmal. unfold frcore_cmd_rule_update in Eu.
  apply bind_Some in Eu as ([rv d] & E & Eu). injection Eu as -> <-.
  pose proof (compile_wp false (acl st0) (store_fs_ok _ H) Ha ltac:(done)) as Hw.
  rewrite E in Hw. destruct Hw as (Es & Ha' & [[Hbad _]|[_ Hc]]); [done|].
  destruct (set_filt_sync_spec _ (store_fs_ok _ H)) as (x & Ex & Hsame & _).
  assert (x = filtset d) as -> by (unfold rules in *; congruence).
  destruct Hsame as (_ & Hpn & Hpb & _).
  destruct (halves_bits _ ko_sip0) as [S1 S2]. destruct (halves_bits _ ko_dip0) as [D1 D2].
  pose proof (hi16_range _ ko_sip0). pose proof (hi16_range _ ko_dip0).
  pose proof (lo16_range (k_sip p)). pose proof (lo16_range (k_dip p)).
  unfold frcore_rule_process. simpl. rewrite (proj2 (Z.eqb_neq _ 0) Hen).
  assert ((k_proto p =? PROTO_TCP) && (k_tot_len p <? Z.shiftl (k_ihl p + k_doff p) 2) = false) as ->.
  { destruct (Z.eqb_spec (k_proto p) PROTO_TCP); [|done]. simpl. apply Z.ltb_ge. auto. }
  rewrite S1, S2, D1, D2, Hc by (unfold NLINE; lia). simpl.
  fold (tuple_packet (k_sip p) (k_dip p) (k_sp p) (k_dp p) (k_proto p)). fold (pkt_of p).
  set (tag := classify _ _).
  assert (0 <= tag < MPP_MAX_FILTERS) as Htag.
  { destruct (classify_abs (rules st0) (pkt_of p) H Hn) as [(f & Hf & _)|[Hz _]].
    - apply abs_lookup in Hf as (k & _ & Hf & Hcf); [|done]. subst tag. unfold rules in *.
      rewrite <- Hcf. apply (so_entry _ H k f Hf).
    - subst tag. unfold rules in *. rewrite Hz. unfold MPP_MAX_FILTERS. lia. }
  destruct (Z.eqb_spec tag 0) as [Hz|Hz]; simpl.
  { eexists _, _, tag. split; [done|]. split; [done|]. simpl.
    split; [done|]. split; intros; [unfold MPP_MAX_FILTERS in *; lia|done]. }
  destruct (Z.eqb_spec tag (MPP_MAX_FILTERS - 1)) as [Hl|Hl]; simpl.
  { eexists _, _, tag. split; [done|]. split; [done|]. by split. }
  unfold acl_statistic_hit, rules in *. simpl. rewrite Hpn.
  destruct (arr_get_is_Some (pkt_num (filtset (acl st0))) tag) as [n En];
    [by rewrite (so_pkts _ H)|].
  rewrite En. simpl.
  destruct (set_pkt_num_spec (filtset d) tag (wraps 64 (n + 1))) as (f1 & -> & S & A & P & B);
    [rewrite Hpn, (so_pkts _ H); lia|]. simpl.
  unfold acl_pkt_bytes_add. rewrite B, Hpb.
  destruct (arr_get_is_Some (pkt_bytes (filtset (acl st0))) tag) as [b Eb];
    [by rewrite (so_bytes _ H)|].
  rewrite Eb. simpl.
  destruct (set_pkt_bytes_spec f1 tag (wraps 64 (b + u16 (k_len p)))) as (f2 & -> & _ & _ & P2 & _);
    [rewrite B, Hpb, (so_bytes _ H); lia|]. simpl.
  eexists _, _, tag. split; [done|]. split; [done|]. split; [done|]. split; [done|].
  intros _ _. split; [done|]. simpl. split; [|done]. exists n. split; [done|].
  rewrite P2, P, Hpn. apply arr_get_Some. split; [lia|]. apply list_lookup_insert_eq.
  pose proof (so_pkts _ H). lia.
Qed.

(** ** The statistics query *)

Definition info_of (fs : FILTSET) (t : Z) : option filter_info :=
  acl_getfilter_by_tagid fs t ≫= snd.

Lemma getfilter_total fs t :
  store_ok fs -> exists rc, acl_getfilter_by_tagid fs t = Some (rc, info_of fs t) /\
    (is_Some (info_of fs t) <-> is_Some (abs fs !! t)).
Proof.
  intros H. unfold info_of, acl_getfilter_by_tagid.
  destruct (find_tag_spec fs t H) as [(i & f & -> & Hi & Hf & Hc & ->)|[-> ->]]; simpl.
  - pose proof (so_entry _ H i f Hf) as [[Hd _] Hcost]. unfold at_ in Hf. rewrite Hf. simpl.
    unfold acl_get_statistic_hit, acl_get_pkt_bytes. rewrite Hc in Hcost.
    destruct (arr_get_is_Some (pkt_num fs) t) as [n ->]; [by rewrite (so_pkts _ H)|].
    destruct (arr_get_is_Some (pkt_bytes fs) t) as [b ->]; [by rewrite (so_bytes _ H)|]. simpl.
    assert (exists tu, getfileter f = Some tu) as [tu ->].
    { unfold getfileter, dim_lo. destruct (dim f) as [|d0 [|d1 [|d2 [|d3 [|d4 [|d5 [|d6 [|]]]]]]]];
        try discriminate Hd. unfold arr_get. simpl. nat_literals. simpl. eauto. }
    simpl. eexists. split; [done|]. split; intros; eauto.
  - eexists. split; [done|]. done.
Qed.

(** The answers the query should give: the configured tags of the range, in order. *)
Definition configured (fs : FILTSET) (index num : Z) : list rule_stat :=
  omap (fun i => rule_stat_of (index + i) <$> info_of fs (index + i)) (seqZ 0 num).

(** The statistics query answers the configured rules of the range in order when
    there are at most [MAX_RULE] of them; with one more it writes past
    [output.rule_stat]. *)
Theorem rule_stat_get_spec index num st :
  store_ok (rules st) -> 0 <= index -> 0 <= num -> index + num <= 2 ^ 16 ->
  frcore_cmd_rule_stat_get index num st =
    if Z.of_nat (length (configured (rules st) index num)) <=? MAX_RULE
    then Some (FRE_SUCCESS, configured (rules st) index num) else None.
Proof.
  intros H Hi Hn Hb. change (2 ^ 16) with 65536 in Hb. unfold frcore_cmd_rule_stat_get, configured.
  rewrite (wraps_id 32) by (simpl; lia).
  rewrite (collect_loop (fun out => out) (fun i => rule_stat_of (index + i) <$> info_of (rules st) (index + i)) MAX_RULE).
  - simpl. by destruct (_ <=? _).
  - intros out i Hi'%elem_of_seqZ. unfold rule_stat_one. rewrite (wrapu_id 16) by (simpl; lia).
    destruct (getfilter_total (rules st) (index + i) H) as (rc & -> & _). simpl.
    by destruct (info_of (rules st) (index + i)).
  - done.
Qed.

(** Clearing the counters of a range that leaves the tag space writes out of the
    counter arrays; the command checks neither bound. *)
Theorem rule_stat_clear_overflow index num st :
  store_ok (rules st) -> 0 <= index <= MPP_MAX_FILTERS -> index + num <= 2 ^ 16 ->
  MPP_MAX_FILTERS < index + num -> frcore_cmd_rule_stat_clear index num st = None.
Proof.
  intros H Hi Hb Hn. change (2 ^ 16) with 65536 in Hb. unfold frcore_cmd_rule_stat_clear.
  unfold MPP_MAX_FILTERS in *. rewrite (wraps_id 32) by (simpl; lia).
  destruct (foldM _ _ _) as [fs'|] eqn:E; [|done]. exfalso.
  replace num with ((2048 - index) + (1 + (num - (2048 - index) - 1))) in E by lia.
  rewrite seqZ_app, seqZ_app, !foldM_app in E by lia.
  destruct (foldM _ (seqZ 0 (2048 - index)) (rules st)) as [x|] eqn:Ex; [|done]. simpl in E.
  assert (length (pkt_num x) = length (pkt_num (rules st))) as Hl.
  { apply (foldM_inv (fun _ x => length (pkt_num x) = length (pkt_num (rules st))) _ _ _ _ Ex);
      [done|].
    intros pre i post a a' _ Ha Hs. apply bind_Some in Hs as (y & [S1 _]%set_pkt_num_inv & [S2 _]%set_pkt_bytes_inv).
    by rewrite (ss_pkts _ _ S2), (ss_pkts _ _ S1). }
  change (seqZ (0 + (2048 - index)) 1) with [0 + (2048 - index)] in E. simpl in E.
  rewrite (wrapu_id 16) in E by (simpl; lia).
  unfold acl_initfilter_statistics_by_tagid, acl_init_statistic_hit, set_pkt_num, arr_set in E.
  pose proof (so_pkts _ H) as Hp. unfold MPP_MAX_FILTERS in Hp.
  rewrite Hl, Hp, (proj2 (Z.ltb_ge _ 2048)), andb_false_r in E by lia. done.
Qed.

(** ** Witnesses *)

Definition two_rules : rule_state := RuleState 1 (zero_acl (filtset_of two_filters)) 0 0 0 0 0.

Lemma rule_del_range_witness : exists rv n st',
  frcore_cmd_rule_del 5 2 two_rules = Some (rv, n, st') /\ ~ abs (rules st') !! 6 = Some ZERO_FILTER.
Proof.
  destruct (rule_del_range 5 2 two_rules two_filters_store ltac:(lia) ltac:(lia) ltac:(lia))
    as (rv & n & st' & E & _ & Hm & _).
  exists rv, n, st'. split; [exact E|]. intros H6. apply Hm in H6 as [_ Hr]. apply Hr. lia.
Defined.

Lemma rule_clear_all_spec_witness : exists st', store_ok (rules st').
Proof.
  destruct (rule_clear_all_spec 0 10 two_rules two_filters_store ltac:(lia) ltac:(lia) ltac:(lia))
    as (st' & Hok & _).
  exists st'. exact Hok.
Defined.

Definition sample_pkt : rule_pkt := RulePkt 3232235777 167772161 4000 53 PROTO_UDP 5 60 0 0 0 74 0 34 40 1 2.

Lemma rule_process_verdict_witness : exists st out st',
  frcore_cmd_rule_update two_rules = Some (FRE_SUCCESS, st) /\
  frcore_rule_process sample_pkt st = Some (out, st').
Proof.
  destruct compile_two as [d E].
  assert (frcore_cmd_rule_update two_rules = Some (FRE_SUCCESS, RuleState 1 d 0 0 0 0 0)) as Eu.
  { unfold frcore_cmd_rule_update. simpl acl. rewrite E. reflexivity. }
  destruct (rule_process_verdict sample_pkt two_rules _ two_filters_store (zero_acl_alloc _)
    ltac:(reflexivity) Eu ltac:(discriminate)) as (out & st' & tag & Ep & _).
  - split; simpl; unfold PROTO_UDP; lia.
  - discriminate.
  - exists (RuleState 1 d 0 0 0 0 0), out, st'. split; [exact Eu|exact Ep].
Defined.

Lemma rule_stat_get_spec_witness :
  frcore_cmd_rule_stat_get 4 3 two_rules =
    if Z.of_nat (length (configured (rules two_rules) 4 3)) <=? MAX_RULE
    then Some (FRE_SUCCESS, configured (rules two_rules) 4 3) else None.
Proof. exact (rule_stat_get_spec 4 3 two_rules two_filters_store ltac:(lia) ltac:(lia) ltac:(lia)). Defined.

Lemma rule_stat_clear_overflow_witness : frcore_cmd_rule_stat_clear 2000 100 two_rules = None.
Proof.
  apply rule_stat_clear_overflow; [exact two_filters_store|unfold MPP_MAX_FILTERS; lia|lia|
    unfold MPP_MAX_FILTERS; lia].
Defined.
