(* ===== verification/CmdRule.v ===== *)
(** * Rule commands from the library to the rule store

    The calls of src/code/frcapi/frc_api.c about rules, the structures both sides lay out
    in their own byte order (src/code/include/frc_types.h), the reading of the answers
    (src/code/include/frc_pack.h), and the handlers of src/code/frcore/frcore_rule.c on
    bytes, registered as [frcore_rule_init] does. *)

From stdpp Require Import list gmap.
From S2P Require Import Prelude Bytes FrcList Cmd CmdProps CmdSys CmdThm CmdTable Api.
From S2P Require Import Rfc Acl AclStore AclProps Rule.
#[local] Open Scope Z_scope.

(** ** Structures *)

(** [frc_rule_t], [frc_rule_op_in_t] and [frc_rule_pkt_stat_t] on the host, by groups *)
Definition rule_groups (r : frc_rule_t) : list fields :=
  [[(2%nat, r_rule_source r); (2%nat, r_rule_type r); (2%nat, r_action r); (2%nat, r_op r)];
   [(4%nat, r_sip r); (4%nat, r_dip r)];
   [(2%nat, r_sp r); (2%nat, r_dp r); (2%nat, r_proto r); (2%nat, r_index r)]].
Definition op_in_groups (index num : Z) : list fields := [[(4%nat, index); (4%nat, num)]].
Definition pkt_stat_groups (pkts bytes : Z) : list fields := [[(4%nat, pkts); (4%nat, bytes)]].

Definition card_rule (bs : list Z) : option frc_rule_t :=
  op ← card_get bs 0 2; action ← card_get bs 2 2; type ← card_get bs 4 2; source ← card_get bs 6 2;
  dip ← card_get bs 8 4; sip ← card_get bs 12 4;
  index ← card_get bs 16 2; proto ← card_get bs 18 2; dp ← card_get bs 20 2; sp ← card_get bs 22 2;
  Some (FrcRule sip dip sp dp proto index source type action op).

(** [index] and [num] of [frc_rule_op_in_t] *)
Definition card_op_in (bs : list Z) : option (Z * Z) :=
  num ← card_get bs 0 4; index ← card_get bs 4 4; Some (index, num).

(** ** frc_pack.h on the little-endian host: byte by byte, most significant first *)
Definition UNPACK (n : nat) (buf : list Z) : option (Z * list Z) :=
  b ← read_bytes buf 0 (Z.of_nat n); Some (le_value (reverse b), drop n buf).

Definition frc_rule_unpack (buf : list Z) : option (frc_rule_t * list Z) :=
  '(op, buf) ← UNPACK 2 buf; '(action, buf) ← UNPACK 2 buf;
  '(type, buf) ← UNPACK 2 buf; '(source, buf) ← UNPACK 2 buf;
  '(dip, buf) ← UNPACK 4 buf; '(sip, buf) ← UNPACK 4 buf;
  '(index, buf) ← UNPACK 2 buf; '(proto, buf) ← UNPACK 2 buf;
  '(dp, buf) ← UNPACK 2 buf; '(sp, buf) ← UNPACK 2 buf;
  Some (FrcRule sip dip sp dp proto index source type action op, buf).

Definition frc_rule_stat_unpack (buf : list Z) : option (rule_stat * list Z) :=
  '(r, buf) ← frc_rule_unpack buf;
  '(bytes, buf) ← UNPACK 4 buf; '(pkts, buf) ← UNPACK 4 buf;
  Some (RuleStat r pkts bytes, buf).

(** What the tool does with an answer to [USER_CMD_GET_RULE] (frctweak_rule.c): the number,
    then that many entries. *)
Fixpoint unpack_stats (n : nat) (buf : list Z) : option (list rule_stat) :=
  match n with
  | O => Some []
  | S n => '(s, buf) ← frc_rule_stat_unpack buf; l ← unpack_stats n buf; Some (s :: l)
  end.
Definition rule_stat_out_unpack (buf : list Z) : option (list rule_stat) :=
  '(num, buf) ← UNPACK 4 buf; unpack_stats (Z.to_nat num) buf.

(** ** The library: frc_api.c *)
Definition frcapi_rule_status_get : call := api_call USER_CMD_GET_RULE_STATUS None 1 true.
Definition frcapi_rule_enable (enable : Z) : call := api_call USER_CMD_RULE_ENABLE (Some [enable]) 0 false.
Definition frcapi_rule_add (r : frc_rule_t) : call := api_call USER_CMD_ADD_RULE (Some (host_bytes (rule_groups r))) 0 false.
Definition frcapi_rule_del (index num : Z) : call := api_call USER_CMD_DEL_RULE (Some (host_bytes (op_in_groups index num))) 2 true.
Definition SIZEOF_RULE_STAT_OUT : Z := 132.
Definition frcapi_rule_stat_get (index num : Z) : call :=
  api_call USER_CMD_GET_RULE (Some (host_bytes (op_in_groups index num))) SIZEOF_RULE_STAT_OUT true.
Definition frcapi_rule_stat_clear (index num : Z) : call :=
  api_call USER_CMD_CLEAN_RULE_STAT (Some (host_bytes (op_in_groups index num))) 2 true.
Definition frcapi_rule_clear (index num : Z) : call :=
  api_call USER_CMD_CLEAN_ALL_RULE (Some (host_bytes (op_in_groups index num))) 2 true.
Definition frcapi_rule_update : call := api_call USER_CMD_UPDATE_RULE None 0 false.
Definition frcapi_rule_num_get : call := api_call USER_CMD_GET_RULE_NUM None 2 true.

(** What the library returns: [rv] of [frcapi_ioctl], and for the update, a time-out is
    taken for success. *)
Definition frcapi_rule_update_return (rv : Z) : Z := if rv =? FRE_TIMEOUT then FRE_SUCCESS else rv.

(** The two bytes at [num] after the call: those of the answer, if any came, over the old
    ones.  [frcapi_rule_del] leaves them so, the other calls read them with [UP16]. *)
Definition frcapi_num_bytes (old : list Z) (out : option (Z * list Z)) : list Z :=
  match out with Some (_, data) => data ++ drop (length data) old | None => old end.
Definition frcapi_num_out (old : list Z) (out : option (Z * list Z)) : option Z := UP16 (frcapi_num_bytes old out) 0.

(** ** The handlers of frcore_rule.c, on bytes *)
Section handlers.
Variable stack : list Z.   (* what the stack held where [frc_rule_stat_out_t output] is *)

Abbreviation fn := (frcore_cmd_fn_t rule_state).

Definition fn_rule_enable : fn := fun plen param outbuf st =>
  p ← param; e ← arr_get p 0;
  let '(rv, st) := frcore_cmd_rule_enable e st in Some (rv, 0, outbuf, st).
Definition fn_rule_status_get : fn := fun plen param outbuf st =>
  let '(rv, e) := frcore_cmd_rule_status_get st in
  out ← write_bytes outbuf 0 [e]; Some (rv, 1, out, st).
Definition fn_rule_add : fn := fun plen param outbuf st =>
  p ← param; r ← card_rule p;
  '(rv, st) ← frcore_cmd_rule_add r st; Some (rv, 0, outbuf, st).
Definition fn_rule_del : fn := fun plen param outbuf st =>
  p ← param; '(index, num) ← card_op_in p;
  '(rv, n, st) ← frcore_cmd_rule_del index num st;
  out ← write_bytes outbuf 0 (be_bytes 2 n); Some (rv, 0, out, st).
Definition fn_rule_clear_all : fn := fun plen param outbuf st =>
  p ← param; '(index, num) ← card_op_in p;
  '(rv, n, st) ← frcore_cmd_rule_clear_all index num st;
  out ← match n with Some n => write_bytes outbuf 0 (be_bytes 2 n) | None => Some outbuf end;
  Some (rv, 0, out, st).
Definition fn_rule_update : fn := fun plen param outbuf st =>
  '(rv, st) ← frcore_cmd_rule_update st; Some (rv, 0, outbuf, st).

(** An entry of the answer in the card's memory. *)
Definition stat_bytes (s : rule_stat) : list Z :=
  card_bytes (rule_groups (rs_rule s)) ++ card_bytes (pkt_stat_groups (rs_pkts s) (rs_bytes s)).
Definition stat_out_bytes (l : list rule_stat) : list Z :=
  let used := be_bytes 4 (Z.of_nat (length l)) ++ concat (stat_bytes <$> l) in
  used ++ drop (length used) stack.
Definition fn_rule_stat_get : fn := fun plen param outbuf st =>
  p ← param; '(index, num) ← card_op_in p;
  '(rv, l) ← frcore_cmd_rule_stat_get index num st;
  out ← write_bytes outbuf 0 (stat_out_bytes l); Some (rv, SIZEOF_RULE_STAT_OUT, out, st).
Definition fn_rule_stat_clear : fn := fun plen param outbuf st =>
  p ← param; '(index, num) ← card_op_in p;
  '(rv, n, st) ← frcore_cmd_rule_stat_clear index num st;
  out ← write_bytes outbuf 0 (be_bytes 2 n); Some (rv, 2, out, st).
Definition fn_rule_get_num : fn := fun plen param outbuf st =>
  let '(rv, n) := frcore_cmd_rule_get_num st in
  out ← write_bytes outbuf 0 (be_bytes 2 n); Some (rv, 2, out, st).

(** [frcore_rule_init] *)
Definition rule_handlers : list (Z * fn) :=
  [(USER_CMD_RULE_ENABLE, fn_rule_enable); (USER_CMD_GET_RULE_STATUS, fn_rule_status_get);
   (USER_CMD_ADD_RULE, fn_rule_add); (USER_CMD_DEL_RULE, fn_rule_del);
   (USER_CMD_CLEAN_ALL_RULE, fn_rule_clear_all); (USER_CMD_UPDATE_RULE, fn_rule_update);
   (USER_CMD_GET_RULE, fn_rule_stat_get); (USER_CMD_CLEAN_RULE_STAT, fn_rule_stat_clear);
   (USER_CMD_GET_RULE_NUM, fn_rule_get_num)].

Definition frcore_rule_init : card rule_state -> option (Z * card rule_state) := register_all rule_handlers.
End handlers.
