(* ===== verification/CmdRuleProps.v ===== *)
(** * Rule commands: what a caller of the library gets

    The structures survive the exchange of byte order, the handlers are registered and
    defined in every good state of the rule store, and a call of the library reaches the
    store and brings its contents back. *)

From stdpp Require Import list gmap.
From S2P Require Import Prelude Bytes Rfc Acl AclClassify AclStore AclProps Rule.
From S2P Require Import FrcList Cmd CmdProps CmdSys CmdThm CmdTable Api CmdRule.
#[local] Open Scope Z_scope.

(** ** Structures on both sides *)

(** What a field of the structure keeps of a value. *)
Definition kept_rule (r : frc_rule_t) : frc_rule_t :=
  FrcRule (u32 (r_sip r)) (u32 (r_dip r)) (u16 (r_sp r)) (u16 (r_dp r)) (u16 (r_proto r)) (u16 (r_index r))
    (u16 (r_rule_source r)) (u16 (r_rule_type r)) (u16 (r_action r)) (u16 (r_op r)).
Definition kept_stat (s : rule_stat) : rule_stat := RuleStat (kept_rule (rs_rule s)) (u32 (rs_pkts s)) (u32 (rs_bytes s)).

Lemma two_bytes v : exists a b, be_bytes 2 v = [a; b] /\ le_value [b; a] = u16 v.
Proof.
  do 2 eexists. split; [reflexivity|]. pose proof (le_value_be 2 v) as E. cbn [be_bytes] in E.
  change (reverse [?a; ?b]) with [b; a] in E. exact E.
Qed.

Lemma four_bytes v : exists a b c d, be_bytes 4 v = [a; b; c; d] /\ le_value [d; c; b; a] = u32 v.
Proof.
  do 4 eexists. split; [reflexivity|]. pose proof (le_value_be 4 v) as E. cbn [be_bytes] in E.
  change (reverse [?a; ?b; ?c; ?d]) with [d; c; b; a] in E. exact E.
Qed.

(** Replaces the bytes of every field of the goal by variables, with their value. *)
Ltac split_fields :=
  repeat match goal with
  | |- context [be_bytes 2 ?v] =>
    let E := fresh "E" in let V := fresh "V" in destruct (two_bytes v) as (? & ? & E & V); rewrite !E; clear E
  | |- context [be_bytes 4 ?v] =>
    let E := fresh "E" in let V := fresh "V" in destruct (four_bytes v) as (? & ? & ? & ? & E & V); rewrite !E; clear E
  end.

Lemma card_rule_host r rest : card_rule (swap_buff 3 (host_bytes (rule_groups r)) ++ rest) = Some (kept_rule r).
Proof.
  unfold host_bytes, rule_groups, host_struct, kept_rule. cbn [fmap list_fmap concat fst snd]. split_fields.
  repeat match goal with V : le_value _ = _ |- _ => rewrite <- V; clear V end. unfold card_rule, card_get.
  rewrite !read_bytes_eq by (rewrite ?length_app; cbn; lia). reflexivity.
Qed.

Lemma card_op_in_host index num rest :
  card_op_in (swap_buff 1 (host_bytes (op_in_groups index num)) ++ rest) = Some (u32 index, u32 num).
Proof.
  unfold host_bytes, op_in_groups, host_struct. cbn [fmap list_fmap concat fst snd]. split_fields.
  repeat match goal with V : le_value _ = _ |- _ => rewrite <- V; clear V end. unfold card_op_in, card_get.
  rewrite !read_bytes_eq by (rewrite ?length_app; cbn; lia). reflexivity.
Qed.

Lemma unpack_app n v rest : (0 < n)%nat -> UNPACK n (be_bytes n v ++ rest) = Some (wrapu (8 * Z.of_nat n) v, rest).
Proof.
  intros Hn. unfold UNPACK. rewrite read_bytes_eq by (rewrite ?length_app, ?length_be_bytes; lia).
  rewrite Nat2Z.id. change (Z.to_nat 0) with 0%nat. rewrite drop_0.
  cbn [mbind option_bind]. rewrite take_app_le, take_ge by (rewrite length_be_bytes; lia).
  rewrite le_value_be, drop_app_ge, length_be_bytes, Nat.sub_diag, drop_0 by (rewrite length_be_bytes; lia). done.
Qed.

Lemma stat_unpack s rest : frc_rule_stat_unpack (stat_bytes s ++ rest) = Some (kept_stat s, rest).
Proof.
  unfold frc_rule_stat_unpack, frc_rule_unpack, stat_bytes, card_bytes, rule_groups, pkt_stat_groups, card_struct.
  unfold reverse. cbn [rev_append fmap list_fmap concat fst snd]. rewrite <- !app_assoc. cbn [app].
  repeat (rewrite unpack_app by lia; cbn [mbind option_bind]). done.
Qed.

Lemma stats_unpack l rest : unpack_stats (length l) (concat (stat_bytes <$> l) ++ rest) = Some (kept_stat <$> l).
Proof.
  revert rest. induction l as [|s l IH]; intros rest; [done|]. cbn [length fmap list_fmap concat unpack_stats].
  rewrite <- app_assoc, stat_unpack. cbn [mbind option_bind]. by rewrite IH.
Qed.

(** what the card writes into an answer about rules the tools read back: every entry, in
    order, each field cut to the width of the structure. *)
Theorem rule_stat_roundtrip stack l : Z.of_nat (length l) < 2 ^ 32 ->
  rule_stat_out_unpack (stat_out_bytes stack l) = Some (kept_stat <$> l).
Proof.
  intros Hl. unfold rule_stat_out_unpack, stat_out_bytes. rewrite <- app_assoc, unpack_app by lia. cbn [mbind option_bind].
  rewrite wrapu_id, Nat2Z.id by (simpl; lia). apply stats_unpack.
Qed.

(** ** The requests and what they mean *)
Inductive rule_request : Type :=
| Enable (e : Z) | Status | Add (r : frc_rule_t) | Del (index num : Z) | Clear (index num : Z) | Update
| StatGet (index num : Z) | StatClear (index num : Z) | GetNum.

Definition call_of (q : rule_request) : call :=
  match q with
  | Enable e => frcapi_rule_enable e | Status => frcapi_rule_status_get | Add r => frcapi_rule_add r
  | Del index num => frcapi_rule_del index num | Clear index num => frcapi_rule_clear index num
  | Update => frcapi_rule_update | StatGet index num => frcapi_rule_stat_get index num
  | StatClear index num => frcapi_rule_stat_clear index num | GetNum => frcapi_rule_num_get
  end.

(** What a caller must respect: values that fit their fields, and the ranges the handlers
    do not check. *)
Definition request_ok (q : rule_request) : Prop :=
  match q with
  | Enable e => 0 <= e < 256
  | Add r => kept_rule r = r /\ rule_ok r /\ 0 <= r_index r < MPP_MAX_FILTERS
  | Del index num | Clear index num => 0 <= index /\ 0 <= num /\ index + num <= 2 ^ 16
  | StatGet index num => 0 <= index /\ 0 <= num <= MAX_RULE /\ index + num <= 2 ^ 16
  | StatClear index num => 0 <= index /\ 0 <= num /\ index + num <= MPP_MAX_FILTERS
  | Status | Update | GetNum => True
  end.

Section requests.
Variable stack : list Z.

(** The code, the bytes the caller gets and the new state.  The numbers of deleted and of
    cleared rules are not among the bytes. *)
Definition rule_spec (q : rule_request) (st : rule_state) : option (Z * list Z * rule_state) :=
  match q with
  | Enable e => let '(rv, st) := frcore_cmd_rule_enable e st in Some (rv, [], st)
  | Status => let '(rv, e) := frcore_cmd_rule_status_get st in Some (rv, [e], st)
  | Add r => '(rv, st) ← frcore_cmd_rule_add r st; Some (rv, [], st)
  | Del index num => '(rv, _, st) ← frcore_cmd_rule_del index num st; Some (rv, [], st)
  | Clear index num => '(rv, _, st) ← frcore_cmd_rule_clear_all index num st; Some (rv, [], st)
  | Update => '(rv, st) ← frcore_cmd_rule_update st; Some (rv, [], st)
  | StatGet index num => '(rv, l) ← frcore_cmd_rule_stat_get index num st; Some (rv, stat_out_bytes stack l, st)
  | StatClear index num => '(rv, n, st) ← frcore_cmd_rule_stat_clear index num st; Some (rv, be_bytes 2 n, st)
  | GetNum => let '(rv, n) := frcore_cmd_rule_get_num st in Some (rv, be_bytes 2 n, st)
  end.

Definition handler_of (q : rule_request) : frcore_cmd_fn_t rule_state :=
  match q with
  | Enable _ => fn_rule_enable | Status => fn_rule_status_get | Add _ => fn_rule_add | Del _ _ => fn_rule_del
  | Clear _ _ => fn_rule_clear_all | Update => fn_rule_update | StatGet _ _ => fn_rule_stat_get stack
  | StatClear _ _ => fn_rule_stat_clear | GetNum => fn_rule_get_num
  end.

Definition good (st : rule_state) : Prop := acl_ok (acl st).

(** ** The parameters as the handlers read them *)

Lemma length_card_struct fs : length (card_struct fs) = sum_list fs.*1.
Proof.
  induction fs as [|f fs IH]; [done|]. unfold card_struct. rewrite !fmap_cons. cbn [concat sum_list].
  by rewrite length_app, length_be_bytes, <- IH.
Qed.

Lemma length_rule_host r : length (host_bytes (rule_groups r)) = 24%nat.
Proof. unfold host_bytes, rule_groups, host_struct. cbn [fmap list_fmap concat fst snd]. by rewrite !length_app, !length_reverse, !length_be_bytes. Qed.
Lemma length_op_host index num : length (host_bytes (op_in_groups index num)) = 8%nat.
Proof. unfold host_bytes, op_in_groups, host_struct. cbn [fmap list_fmap concat fst snd]. by rewrite !length_app, !length_reverse, !length_be_bytes. Qed.

Lemma param_add r : param_of (frcapi_rule_add r) = Some (swap_buff 3 (host_bytes (rule_groups r))).
Proof.
  unfold param_of, frcapi_rule_add, api_call. cbn [k_ilen k_input from_option id]. rewrite length_rule_host.
  change (Z.of_nat 24 =? 0) with false. cbn [sent_param]. change (Z.to_nat (Z.of_nat 24 / 8)) with 3%nat.
  by rewrite take_ge by (rewrite length_rule_host; done).
Qed.

Lemma param_op cmd index num olen output :
  param_of (api_call cmd (Some (host_bytes (op_in_groups index num))) olen output) =
  Some (swap_buff 1 (host_bytes (op_in_groups index num))).
Proof.
  unfold param_of, api_call. cbn [k_ilen k_input from_option id]. rewrite length_op_host.
  change (Z.of_nat 8 =? 0) with false. cbn [sent_param]. change (Z.to_nat (Z.of_nat 8 / 8)) with 1%nat.
  by rewrite take_ge by (rewrite length_op_host; done).
Qed.

Lemma op_in_param index num : 0 <= index < 2 ^ 32 -> 0 <= num < 2 ^ 32 ->
  card_op_in (swap_buff 1 (host_bytes (op_in_groups index num))) = Some (index, num).
Proof.
  intros Hi Hn. rewrite <- (app_nil_r (swap_buff _ _)), card_op_in_host. by rewrite !wrapu_id.
Qed.

(** ** Every handler does what its request means *)

(** Clearing counters within the tag space. *)
Lemma stat_clear_total fs index num : store_ok fs -> 0 <= index -> 0 <= num -> index + num <= MPP_MAX_FILTERS ->
  exists fs', foldM (fun fs i => acl_initfilter_statistics_by_tagid fs (u16 (index + i))) (seqZ 0 num) fs = Some fs' /\ store_ok fs'.
Proof.
  intros H Hi Hn Hb. unfold MPP_MAX_FILTERS in Hb.
  destruct (for_seqZ (fun _ x => store_ok x) (fun fs i => acl_initfilter_statistics_by_tagid fs (u16 (index + i))) num fs)
    as (x & E & Hx); [done|done| |by exists x].
  intros i x Hir Hx. rewrite (wrapu_id 16) by (simpl; lia).
  unfold acl_initfilter_statistics_by_tagid, acl_init_statistic_hit, acl_init_pkt_bytes.
  destruct (set_pkt_num_spec x (index + i) 0) as (f1 & -> & S1 & A1 & P1 & B1); [rewrite (so_pkts _ Hx); unfold MPP_MAX_FILTERS; lia|].
  cbn [mbind option_bind].
  destruct (set_pkt_bytes_spec f1 (index + i) 0) as (f2 & -> & S2 & A2 & _); [rewrite B1, (so_bytes _ Hx); unfold MPP_MAX_FILTERS; lia|].
  eexists. split; [done|]. destruct (counters_store _ _ Hx S1 A1) as [H1 _]. by apply (counters_store _ _ H1 S2 A2).
Qed.

Lemma configured_length fs index num : 0 <= num -> (Z.of_nat (length (configured fs index num)) <= num).
Proof.
  intros Hn. unfold configured. assert (forall l, length (omap (fun i => rule_stat_of (index + i) <$> info_of fs (index + i)) l) <= length l)%nat as H.
  { induction l as [|x l IH]; [done|]. cbn [omap list_omap length]. destruct (rule_stat_of _ <$> _); simpl; unfold omap in *; lia. }
  specialize (H (seqZ 0 num)). rewrite length_seqZ in H. lia.
Qed.

Lemma good_acl st fs : good st -> store_ok fs -> good (with_acl st fs).
Proof using. intros [_ [? ? ?]] Hs. split; [done|]. by split. Qed.

(** ** The table of the rule commands *)
Definition rule_table : Z -> Z -> option (frcore_cmd_fn_t rule_state) := table_of (rule_handlers stack) (fun _ _ => None).

Lemma rule_init_table max oks st : 40 < max -> (forall n, oks n = true) ->
  exists st0 st', frcore_cmd_init max oks st = (FRE_SUCCESS, st0) /\ frcore_rule_init stack st0 = Some (FRE_SUCCESS, st') /\
    table_is max rule_table (frcore_cmdset st') /\ respond_buf st' = true /\ components st' = components st.
Proof.
  intros Hm Ho. destruct (init_table max oks st Ho) as (st0 & E & Ht & Eb & Ec).
  destruct (register_all_spec max (rule_handlers stack) _ st0 Ht) as (st' & E' & Ht' & Ec' & Eb').
  - intros cmd fn Hin. unfold rule_handlers in Hin.
    repeat (apply elem_of_cons in Hin as [[= -> _]|Hin];
      [unfold USER_CMD_RULE_ENABLE, USER_CMD_GET_RULE_STATUS, USER_CMD_ADD_RULE, USER_CMD_DEL_RULE, USER_CMD_CLEAN_ALL_RULE,
        USER_CMD_UPDATE_RULE, USER_CMD_GET_RULE, USER_CMD_CLEAN_RULE_STAT, USER_CMD_GET_RULE_NUM; lia|]).
    by apply elem_of_nil in Hin.
  - unfold rule_handlers. cbn [fmap list_fmap fst]. apply (bool_decide_unpack _). vm_compute. exact I.
  - done.
  - exists st0, st'. rewrite Ec', Eb'. done.
Qed.

Lemma rule_table_handler q : rule_table CMD_TYPE_USER (k_cmd (call_of q)) = Some (handler_of q).
Proof. by destruct q. Qed.

Lemma call_of_ok q : call_ok (call_of q).
Proof.
  destruct q; (split; [done..| |]); unfold call_of, frcapi_rule_enable, frcapi_rule_status_get, frcapi_rule_add,
    frcapi_rule_del, frcapi_rule_clear, frcapi_rule_update, frcapi_rule_stat_get, frcapi_rule_stat_clear, frcapi_rule_num_get,
    api_call; cbn [k_type k_cmd k_ilen k_input k_olen from_option id];
    rewrite ?length_rule_host, ?length_op_host; try (intros input [= <-]); try done;
    rewrite ?length_rule_host, ?length_op_host; try done.
Qed.

(** ** A request from the packet to the answer *)
Hypothesis Hstack : length stack = Z.to_nat SIZEOF_RULE_STAT_OUT.

Lemma length_stat_out l : Z.of_nat (length l) <= MAX_RULE -> length (stat_out_bytes stack l) = Z.to_nat SIZEOF_RULE_STAT_OUT.
Proof using Hstack.
  intros Hl. unfold stat_out_bytes. rewrite length_app, length_drop, Hstack, length_app, length_be_bytes.
  assert (length (concat (stat_bytes <$> l)) = 32 * length l)%nat as ->.
  { clear. induction l as [|s l IH]; [done|]. rewrite fmap_cons. cbn [concat length]. rewrite length_app, IH.
    unfold stat_bytes, card_bytes, rule_groups, pkt_stat_groups. cbn [fmap list_fmap concat].
    rewrite !length_app, !length_card_struct. simpl. lia. }
  unfold SIZEOF_RULE_STAT_OUT, MAX_RULE in *. lia.
Qed.

Lemma handler_spec q st : request_ok q -> good st -> (q = Update -> numFilters (rules st) <= 11) ->
  exists rv out st', rule_spec q st = Some (rv, out, st') /\ good st' /\
    (Z.of_nat (length out) <= default 0 (k_olen (call_of q))) /\ answers (handler_of q) (call_of q) st rv out st'.
Proof using Hstack.
  intros Hq Hg Hu. pose proof Hg as [Hs Ht]. unfold answers, FRC_CMD_RESPOND_DATA_SZ.
  destruct q as [e| |r|index num|index num| |index num|index num|]; cbn [request_ok call_of handler_of rule_spec] in *.
  - do 3 eexists. split; [reflexivity|]. split; [done|]. split; [done|]. intros buf Hb. exists buf. done.
  - do 3 eexists. split; [reflexivity|]. split; [done|]. split; [done|]. intros buf Hb.
    unfold fn_rule_status_get, frcore_cmd_rule_status_get. destruct (write_front buf [rule_enable st]) as (data & -> & ? & ?); [rewrite Hb; simpl; lia|].
    cbn [mbind option_bind]. by exists data.
  - destruct Hq as (Hk & Hr & Hi). unfold frcore_cmd_rule_add.
    destruct (acl_setfilter_spec (rules st) (r_index r) r Hs Hr Hi) as (fs' & E & Hs' & _). rewrite E. cbn [mbind option_bind].
    do 3 eexists. split; [reflexivity|]. split; [by apply good_acl|]. split; [done|]. intros buf Hb. exists buf. split; [|done].
    unfold fn_rule_add. rewrite param_add. cbn [mbind option_bind].
    rewrite <- (app_nil_r (swap_buff _ _)), card_rule_host. cbn [mbind option_bind]. rewrite Hk.
    unfold frcore_cmd_rule_add. rewrite E. done.
  - destruct Hq as (Hi & Hn & Hb). change (2 ^ 16) with 65536 in Hb.
    destruct (rule_del_loop (rules st) index num Hs Hi Hn Hb) as (rv & fs' & E & Hs' & _).
    assert (frcore_cmd_rule_del index num st = Some (rv, Z.of_nat (size (abs (rules st))) - Z.of_nat (size (abs fs')), with_acl st fs')) as Ec.
    { unfold frcore_cmd_rule_del. by rewrite (wraps_id 32), loop_index, E by (simpl; lia). }
    rewrite Ec. cbn [mbind option_bind]. do 3 eexists. split; [reflexivity|]. split; [by apply good_acl|]. split; [done|].
    intros buf Hbuf. unfold fn_rule_del, frcapi_rule_del. rewrite param_op. cbn [mbind option_bind].
    rewrite op_in_param by (simpl; lia). cbn [mbind option_bind]. rewrite Ec. cbn [mbind option_bind].
    destruct (write_front buf (be_bytes 2 (Z.of_nat (size (abs (rules st))) - Z.of_nat (size (abs fs'))))) as (data & -> & _ & ?); [rewrite Hbuf; simpl; lia|].
    by exists data.
  - destruct Hq as (Hi & Hn & Hb). 
    assert (exists rv n fs', frcore_cmd_rule_clear_all index num st = Some (rv, n, with_acl st fs') /\ store_ok fs') as (rv & n & fs' & Ec & Hs').
    { change (2 ^ 16) with 65536 in Hb. destruct (rule_del_loop (rules st) index num Hs Hi Hn Hb) as (rv & fs' & E & Hs' & _).
      unfold frcore_cmd_rule_clear_all. rewrite (wraps_id 32), loop_index, E by (simpl; lia). cbn [mbind option_bind].
      destruct (acl_getfilter_count fs' =? 0); eauto. }
    rewrite Ec. cbn [mbind option_bind]. do 3 eexists. split; [reflexivity|]. split; [by apply good_acl|]. split; [done|].
    intros buf Hbuf. unfold fn_rule_clear_all, frcapi_rule_clear. rewrite param_op. cbn [mbind option_bind].
    rewrite op_in_param by (simpl; lia). cbn [mbind option_bind]. rewrite Ec. cbn [mbind option_bind].
    destruct n as [n|]; [|by exists buf].
    destruct (write_front buf (be_bytes 2 n)) as (data & -> & _ & ?); [rewrite Hbuf; simpl; lia|]. by exists data.
  - unfold frcore_cmd_rule_update.
    pose proof (compile_wp true (acl st) (store_fs_ok _ Hs) Ht (fun _ => Hu eq_refl)) as Hw.
    apply wp_total in Hw as ([rc d] & E & Es & Ht' & _). rewrite E. cbn [mbind option_bind].
    do 3 eexists. split; [reflexivity|]. split.
    { split; [|done]. by apply (sync_store (filtset (acl st))). }
    split; [done|]. intros buf Hb. exists buf. split; [|done]. unfold fn_rule_update, frcore_cmd_rule_update. by rewrite E.
  - destruct Hq as (Hi & Hn & Hb). pose proof (configured_length (rules st) index num ltac:(lia)) as Hl.
    pose proof (rule_stat_get_spec index num st Hs ltac:(lia) ltac:(lia) Hb) as Ec. rewrite (proj2 (Z.leb_le _ _)) in Ec by lia.
    rewrite Ec. cbn [mbind option_bind]. pose proof (length_stat_out (configured (rules st) index num) ltac:(lia)) as Hlo.
    do 3 eexists. split; [reflexivity|]. split; [done|]. split; [by rewrite Hlo|].
    intros buf Hbuf. unfold fn_rule_stat_get, frcapi_rule_stat_get. rewrite param_op. cbn [mbind option_bind].
    rewrite op_in_param by (unfold MAX_RULE in *; simpl in *; lia). cbn [mbind option_bind]. rewrite Ec. cbn [mbind option_bind].
    destruct (write_front buf (stat_out_bytes stack (configured (rules st) index num))) as (data & -> & ? & ?); [rewrite Hbuf, Hlo; unfold SIZEOF_RULE_STAT_OUT; lia|].
    exists data. by rewrite Hlo at 1.
  - destruct Hq as (Hi & Hn & Hb).
    destruct (stat_clear_total (rules st) index num Hs Hi Hn Hb) as (fs' & E & Hs').
    assert (exists n, frcore_cmd_rule_stat_clear index num st = Some (FRE_SUCCESS, n, with_acl st fs')) as [n Ec].
    { unfold frcore_cmd_rule_stat_clear. unfold MPP_MAX_FILTERS in *. rewrite (wraps_id 32), E by (simpl; lia). cbn [mbind option_bind]. eauto. }
    rewrite Ec. cbn [mbind option_bind]. do 3 eexists. split; [reflexivity|]. split; [by apply good_acl|]. split; [done|].
    intros buf Hbuf. unfold fn_rule_stat_clear, frcapi_rule_stat_clear. rewrite param_op. cbn [mbind option_bind].
    unfold MPP_MAX_FILTERS in *. rewrite op_in_param by (simpl; lia). cbn [mbind option_bind]. rewrite Ec. cbn [mbind option_bind].
    destruct (write_front buf (be_bytes 2 n)) as (data & -> & ? & ?); [rewrite Hbuf; simpl; lia|]. by exists data.
  - do 3 eexists. split; [reflexivity|]. split; [done|]. split; [done|]. intros buf Hbuf.
    unfold fn_rule_get_num, frcore_cmd_rule_get_num.
    destruct (write_front buf (be_bytes 2 (acl_getfilter_count (rules st)))) as (data & -> & ? & ?); [rewrite Hbuf; simpl; lia|]. by exists data.
Qed.

Lemma process_request max sets q seq st : table_is max rule_table sets -> 40 < max -> request_ok q -> good st ->
  (q = Update -> numFilters (rules st) <= 11) -> 0 <= seq < 2 ^ 32 ->
  exists rv out st' data, frcore_process_frc_cmd true (packet_of (call_of q) seq) (Card sets true st) =
      Some (Some (respond_bytes (FrcCmdRespond rv (Z.of_nat (length out)) seq data)), Card sets true st') /\
    rule_spec q st = Some (rv, out, st') /\ good st' /\ take (length out) data = out /\
    length data = Z.to_nat FRC_CMD_RESPOND_DATA_SZ /\ Z.of_nat (length out) <= default 0 (k_olen (call_of q)).
Proof using Hstack.
  intros Ht Hm Hq Hg Hu Hs. destruct (handler_spec q st Hq Hg Hu) as (rv & out & st' & Esp & Hg' & Hl & Ha).
  destruct (process_answer max rule_table sets (call_of q) seq (handler_of q) st rv out st' Ht (call_of_ok q) Hs) as (data & E & Et & El);
    [by destruct q|assert (k_cmd (call_of q) <= 40) as Hk by (by destruct q); lia|apply rule_table_handler|exact Ha|].
  exists rv, out, st', data. by rewrite E.
Qed.
End requests.

(** C10: a call of the library about rules - status, enable, add, del, clear, update, stat_get,
    stat_clear or num_get; not frcapi_rule_cnt_get - whose values the handlers can take
    ([request_ok]: an added rule has an index below 2048, stat_get asks for at most 4 rules,
    stat_clear for rules below 2048, del and clear for indices of 16 bits; an update meets at most 11
    rules), sent to a card with the table of
    [frcore_rule_init], runs the operation it names on the rule store and gives the caller its
    code and its answer; the store stays well formed and the table as it is.  The numbers of rules that del and
    clear count are not in the answer: the handlers set no length for them. *)
Theorem rule_call_refines stack max sets q seq st : length stack = Z.to_nat SIZEOF_RULE_STAT_OUT ->
  table_is max (rule_table stack) sets -> 40 < max -> request_ok q -> good st ->
  (q = Update -> numFilters (rules st) <= 11) -> 0 <= seq < 2 ^ 32 ->
  exists rv out st' a, frcore_process_frc_cmd true (packet_of (call_of q) seq) (Card sets true st) =
      Some (Some (respond_bytes a), Card sets true st') /\
    rule_spec stack q st = Some (rv, out, st') /\ good st' /\ r_seq a = seq /\
    core_cmd_answer (call_of q) (stored a) = Some (caller_result (call_of q) rv out).
Proof.
  intros Hst Ht Hm Hq Hg Hu Hs. destruct (process_request stack Hst max sets q seq st Ht Hm Hq Hg Hu Hs)
    as (rv & out & st' & data & E & Esp & Hg' & Et & El & Hl).
  exists rv, out, st', (FrcCmdRespond rv (Z.of_nat (length out)) seq data). split_and!; [done..|].
  apply answer_result; [by destruct q; eexists|split; [done|apply call_of_ok]|done|done].
Qed.

(** a rule added through the library is what the library reads back: the query for its
    index answers, in one entry, the same rule with counters at zero. *)
Theorem rule_add_query_end_to_end stack max sets r st seq1 seq2 : length stack = Z.to_nat SIZEOF_RULE_STAT_OUT ->
  table_is max (rule_table stack) sets -> 40 < max -> good st -> request_ok (Add r) -> 0 <= seq1 < 2 ^ 32 -> 0 <= seq2 < 2 ^ 32 ->
  exists a1 a2 st' data,
    frcore_process_frc_cmd true (packet_of (frcapi_rule_add r) seq1) (Card sets true st) = Some (Some (respond_bytes a1), Card sets true st') /\
    frcore_process_frc_cmd true (packet_of (frcapi_rule_stat_get (r_index r) 1) seq2) (Card sets true st') =
      Some (Some (respond_bytes a2), Card sets true st') /\
    core_cmd_answer (frcapi_rule_add r) (stored a1) = Some (FRE_SUCCESS, None) /\
    core_cmd_answer (frcapi_rule_stat_get (r_index r) 1) (stored a2) = Some (FRE_SUCCESS, Some (SIZEOF_RULE_STAT_OUT, data)) /\
    rule_stat_out_unpack data = Some [RuleStat r 0 0].
Proof.
  intros Hst Ht Hm Hg Hq Hs1 Hs2. pose proof Hq as (Hk & Hr & Hi). unfold MPP_MAX_FILTERS in Hi.
  destruct (process_request stack Hst max sets (Add r) seq1 st Ht Hm Hq Hg ltac:(done) Hs1)
    as (rv1 & out1 & st1 & data1 & E1 & Esp1 & Hg1 & Et1 & El1 & Hl1).
  cbn [rule_spec] in Esp1. unfold frcore_cmd_rule_add in Esp1.
  destruct (acl_setfilter (rules st) (r_index r) r) as [fs'|] eqn:Ef; [|done]. cbn [mbind option_bind] in Esp1.
  injection Esp1 as <- <- <-.
  assert (request_ok (StatGet (r_index r) 1)) as Hq2 by (cbn [request_ok]; unfold MAX_RULE; lia).
  destruct (process_request stack Hst max sets (StatGet (r_index r) 1) seq2 _ Ht Hm Hq2 Hg1 ltac:(done) Hs2)
    as (rv2 & out2 & st2 & data2 & E2 & Esp2 & Hg2 & Et2 & El2 & Hl2).
  cbn [rule_spec] in Esp2.
  rewrite rule_stat_get_spec in Esp2 by (first [apply Hg1|lia|change (2 ^ 16) with 65536; lia]).
  assert (configured fs' (r_index r) 1 = [RuleStat r 0 0]) as Ec.
  { unfold configured, info_of. change (seqZ 0 1) with [0]. cbn [omap list_omap]. rewrite Z.add_0_r.
    destruct (setfilter_query (rules st) (r_index r) r fs' (proj1 Hg) Hr) as [ruleid ->]; [unfold MPP_MAX_FILTERS; lia|done|].
    cbn [mbind option_bind snd]. by destruct r. }
  change (rules (with_acl st fs')) with fs' in Esp2. rewrite Ec in Esp2. cbn [mbind option_bind] in Esp2.
  change (Z.of_nat (length [RuleStat r 0 0]) <=? MAX_RULE) with true in Esp2. cbv iota in Esp2. cbn [mbind option_bind] in Esp2.
  injection Esp2 as <- <- <-.
  do 3 eexists. exists (stat_out_bytes stack [RuleStat r 0 0]). split; [exact E1|]. split; [exact E2|].
  pose proof (length_stat_out stack Hst [RuleStat r 0 0] ltac:(unfold MAX_RULE; simpl; lia)) as Hlo. split_and!.
  - rewrite answer_result by (first [by eexists|done]). done.
  - rewrite answer_result; [|by eexists|split; [exact Hl2|done]|done|done]. unfold caller_result. rewrite Hlo. done.
  - unfold rule_stat_out_unpack, stat_out_bytes. rewrite <- app_assoc, unpack_app by lia. cbn [mbind option_bind].
    pose proof (stats_unpack [RuleStat r 0 0]) as Eu.
    change (Z.to_nat (wrapu (8 * Z.of_nat 4) (Z.of_nat (length [RuleStat r 0 0])))) with (length [RuleStat r 0 0]).
    rewrite Eu. cbn [fmap list_fmap]. unfold kept_stat. cbn [rs_rule rs_pkts rs_bytes]. by rewrite Hk.
Qed.

(** the numbers of deleted rules never reach a caller: after [frcapi_rule_del]
    the two bytes of [*num] are what they were, and after [frcapi_rule_clear] the same
    bytes read in the other byte order. *)
Theorem rule_del_count_lost stack max sets q seq st old : length stack = Z.to_nat SIZEOF_RULE_STAT_OUT ->
  table_is max (rule_table stack) sets -> 40 < max -> request_ok q -> good st -> 0 <= seq < 2 ^ 32 ->
  (exists index num, q = Del index num \/ q = Clear index num) ->
  exists a st' rv out, frcore_process_frc_cmd true (packet_of (call_of q) seq) (Card sets true st) =
      Some (Some (respond_bytes a), Card sets true st') /\
    core_cmd_answer (call_of q) (stored a) = Some (rv, out) /\ frcapi_num_bytes old out = old /\ frcapi_num_out old out = UP16 old 0.
Proof.
  intros Hst Ht Hm Hq Hg Hs Hd. destruct (process_request stack Hst max sets q seq st Ht Hm Hq Hg ltac:(by destruct Hd as (? & ? & [-> | ->])) Hs)
    as (rv & out & st' & data & E & Esp & Hg' & Et & El & Hl).
  do 4 eexists. split; [exact E|]. split.
  { apply answer_result; [by destruct q; eexists|split; [done|apply call_of_ok]|done|done]. }
  assert (out = []) as ->.
  { destruct Hd as (index & num & [-> | ->]); cbn [rule_spec] in Esp.
    - destruct (frcore_cmd_rule_del index num st) as [[[? ?] ?]|]; [|done]. cbn [mbind option_bind] in Esp. by injection Esp.
    - destruct (frcore_cmd_rule_clear_all index num st) as [[[? ?] ?]|]; [|done]. cbn [mbind option_bind] in Esp. by injection Esp. }
  destruct ((u16 rv =? FRE_SUCCESS) && k_output (call_of q)); [|done]. done.
Qed.

(** ** The rule commands in the running system *)

(** The calls that need nothing of the state. *)
Definition rule_legal (c : call) : Prop := exists q, c = call_of q /\ request_ok q /\ q <> Update.

Lemma rule_table_ok stack max sets : length stack = Z.to_nat SIZEOF_RULE_STAT_OUT -> table_is max (rule_table stack) sets -> 40 < max ->
  table_ok rule_legal good sets.
Proof.
  intros Hst Ht Hm c seq s Hc (q & -> & Hq & Hne). exists (inr (handler_of stack q)). split.
  - change (find_handler (req_cmd (call_of q) seq) (Card sets true s)) with (find_handler (req_cmd (call_of q) 0) (Card sets true s)).
    rewrite (find_handler_spec max (rule_table stack)) by (first [done|apply req_cmd_ok; done|by destruct q]).
    assert (c_type (req_cmd (call_of q) 0) = CMD_TYPE_USER) as -> by by destruct q.
    assert (0 <= k_cmd (call_of q) <= 40) as Hk by by destruct q.
    change (max_of max CMD_TYPE_USER) with (Some max). cbv iota. change (c_cmd (req_cmd (call_of q) 0)) with (k_cmd (call_of q)).
    by rewrite Z.geb_leb, (proj2 (Z.leb_gt _ _)), rule_table_handler by lia.
  - intros fn [= <-] st Hg. destruct (handler_spec stack Hst q st Hq Hg ltac:(done)) as (rv & out & st' & _ & Hg' & _ & Ha).
    destruct (Ha (replicate (Z.to_nat FRC_CMD_RESPOND_DATA_SZ) 0) (length_replicate _ _)) as (data & E & _ & El).
    exists rv, (Z.of_nat (length out)), data, st'. by rewrite El, length_replicate.
Qed.

(** from start-up on, with the rule commands registered: any number of rule calls at once,
    in any interleaving and with answers lost, leave a well-formed rule store, and every call
    that did not time out returns the answer of the card to its own packet. *)
Theorem rule_calls_served stack max oks swap head h s0 es : length stack = Z.to_nat SIZEOF_RULE_STAT_OUT -> 40 < max ->
  (forall n, oks n = true) -> swap_law swap -> dom h = {[head]} -> good (components s0) ->
  exists d st0 st, frcdrv_cmd_init head h = Some d /\ frcore_cmd_init max oks s0 = (FRE_SUCCESS, st0) /\
    frcore_rule_init stack st0 = Some (FRE_SUCCESS, st) /\
    (events_ok swap head rule_legal es (start_world d st) -> Z.of_nat (length es) < 2 ^ 32 ->
     exists w, world_run swap head es (start_world d st) = Some w /\ good (components (w_card w)) /\
       forall sq c res, (sq, c, res) ∈ w_done w ->
         res = (FRE_TIMEOUT, None) \/ exists r, answer_to (w_log w) sq c r /\ core_cmd_answer c r = Some res).
Proof.
  intros Hst Hm Ho Hsw Hh Hg. destruct (init_ok head h) as (d & Ed & Hd & Es & _); [rewrite Hh; set_solver|done|].
  destruct (rule_init_table stack max oks s0 Hm Ho) as (st0 & st & E0 & E1 & Ht & Eb & Ec).
  exists d, st0, st. split_and!; [done..|]. intros He Hn. destruct st as [sets b c]. cbn in Ht, Eb, Ec. subst b c.
  destruct (cmd_run_ok swap Hsw head rule_legal good sets (rule_table_ok stack max sets Hst Ht Hm) es 0 _
    (start_inv head rule_legal good sets d (components s0) Hd Es Hg) Hn He) as (w & lg & E & I & _).
  exists w. split; [done|]. destruct (i_card _ _ _ _ _ _ I) as (s & -> & Hgs). split; [done|].
  intros sq c res Hin. by destruct (i_done _ _ _ _ _ _ I sq c res Hin).
Qed.

(** ** Witnesses *)
Definition zero_stack : list Z := replicate (Z.to_nat SIZEOF_RULE_STAT_OUT) 0.

Lemma two_rules_good : good two_rules.
Proof. split; [exact two_filters_store|apply zero_acl_alloc]. Qed.

(** A card with two rules and the table of the rule commands. *)
Lemma rule_card : exists sets, table_is 64 (rule_table zero_stack) sets.
Proof.
  destruct (rule_init_table zero_stack 64 (fun _ => true) (Card [] false two_rules)) as (st0 & st & _ & _ & Ht & _); [lia|done|].
  by eexists.
Qed.

Lemma rule_stat_roundtrip_witness :
  rule_stat_out_unpack (stat_out_bytes zero_stack [RuleStat sample_rule 7 420]) = Some [kept_stat (RuleStat sample_rule 7 420)].
Proof. apply (rule_stat_roundtrip zero_stack [RuleStat sample_rule 7 420]). reflexivity. Defined.

Lemma rule_call_refines_witness : exists sets rv out st' a,
  frcore_process_frc_cmd true (packet_of (call_of (Del 5 2)) 9) (Card sets true two_rules) = Some (Some (respond_bytes a), Card sets true st') /\
  rule_spec zero_stack (Del 5 2) two_rules = Some (rv, out, st').
Proof.
  destruct rule_card as [sets Ht]. exists sets.
  destruct (rule_call_refines zero_stack 64 sets (Del 5 2) 9 two_rules) as (rv & out & st' & a & E & Es & _);
    [reflexivity|exact Ht|lia|cbn; lia|exact two_rules_good|discriminate|lia|].
  exists rv, out, st', a. split; [exact E|exact Es].
Defined.

Lemma rule_add_query_end_to_end_witness : exists data, rule_stat_out_unpack data = Some [RuleStat sample_rule 0 0].
Proof.
  destruct rule_card as [sets Ht].
  destruct (rule_add_query_end_to_end zero_stack 64 sets sample_rule two_rules 1 2) as (a1 & a2 & st' & data & _ & _ & _ & _ & E);
    [reflexivity|exact Ht|lia|exact two_rules_good|
     split; [reflexivity|]; split; [exact sample_rule_ok|unfold MPP_MAX_FILTERS; cbn; lia]|lia|lia|].
  exists data. exact E.
Defined.

Lemma rule_del_count_lost_witness : exists out, frcapi_num_bytes [7; 8] out = [7; 8] /\ frcapi_num_out [7; 8] out = UP16 [7; 8] 0.
Proof.
  destruct rule_card as [sets Ht].
  destruct (rule_del_count_lost zero_stack 64 sets (Clear 0 5) 3 two_rules [7; 8]) as (a & st' & rv & out & _ & _ & E);
    [reflexivity|exact Ht|lia|cbn; lia|exact two_rules_good|lia|exists 0, 5; right; reflexivity|].
  exists out. exact E.
Defined.

Lemma rule_calls_served_witness : exists d st0 st, frcdrv_cmd_init 100 {[100 := FrcList 0 0]} = Some d /\
  frcore_cmd_init 64 (fun _ => true) (Card [] false two_rules) = (FRE_SUCCESS, st0) /\
  frcore_rule_init zero_stack st0 = Some (FRE_SUCCESS, st).
Proof.
  destruct (rule_calls_served zero_stack 64 (fun _ => true) swap_buff 100 {[100 := FrcList 0 0]} (Card [] false two_rules) [])
    as (d & st0 & st & E & E0 & E1 & _);
    [reflexivity|lia|reflexivity|intros n bs _; reflexivity|apply dom_singleton_L|exact two_rules_good|].
  exists d, st0, st. split; [exact E|]. split; [exact E0|exact E1].
Defined.
