(* ===== verification/Filter.v ===== *)
(** * Two-tuple filters: src/code/frcore/frcore_filter.c and frcore_filter.h

    The table of filters indexed from 1 and the hash table that finds them: per
    field type 2048 buckets, each a list of filter indices with its counters.  A
    bucket's linked list is the list of the indices in its cells, in order; the
    FPA pool the cells come from is its number of free cells.  Printing
    is left out, and the table pointers are never [NULL].  What runs under the lock of one
    bucket is one definition, and the atomic counters are their own: the cores interleave
    them ([FilterProps.filter_step]).

    The contract is a list of filters in the order in which they were
    configured: [sim] relates a state to it and every operation refines its
    counterpart on the list. *)

From S2P Require Import Prelude.
From stdpp Require Import list functions.
#[local] Open Scope Z_scope.

Definition FRCORE_MAX_FILTERS : Z := 2048.
Definition FRCORE_ACL_HASH_CELL_BUF_NUMS : Z := FRCORE_MAX_FILTERS.
Definition FRCORE_ACL_HASH_MASK : Z := FRCORE_ACL_HASH_CELL_BUF_NUMS - 1.
Definition FRCORE_ACL_HASH_TABLE_SIZE : Z := FRCORE_ACL_HASH_CELL_BUF_NUMS * 4.
Definition ACL_MAX : Z := 2000.
Definition ACL_INDEX_START : Z := 1.
Definition FRC_ACL_UNKNOWN : Z := 0.
Definition FRC_ACL_SIP : Z := 1.
Definition FRC_ACL_DIP : Z := 2.
Definition FRC_ACL_SP : Z := 3.
Definition FRC_ACL_DP : Z := 4.

Record TwoTupleFilter : Type := MkFilter {
  enable : Z; acl_type : Z; action : Z; op : Z; acl_source : Z; proto : Z;
  one_tuple : Z; index : Z; hash : Z; pkt_num : Z; pkt_bytes : Z }.

#[export] Instance TwoTupleFilter_eq_dec : EqDecision TwoTupleFilter.
Proof. solve_decision. Defined.

(** A bucket: the [acl_index] of its cells from the head, and its counters. *)
Record frcore_acl_hash_table_t : Type := MkBucket {
  head : list Z; bucket_depth : Z; total_cell : Z; del_cell : Z }.

(** The statistics counters this component bumps. *)
Inductive acl_stat : Type :=
| stat_acl_type_error | stat_acl_hash_error | stat_acl_del_rule_num | stat_acl_add_rule_num
| stat_acl_entry_exception | stat_acl_del_hash_cell | stat_acl_not_found_index
| stat_acl_hash_cell_alloc_fail | stat_acl_add_hash_cell.

#[export] Instance acl_stat_eq_dec : EqDecision acl_stat.
Proof. solve_decision. Defined.

Record filter_state : Type := FilterState {
  numFilters : Z;
  filterArr : list TwoTupleFilter;
  acl_hash_table : list frcore_acl_hash_table_t;
  pool : Z;
  stats : acl_stat -> Z }.

Definition with_table n a st := FilterState n a (acl_hash_table st) (pool st) (stats st).
Definition with_buckets h p st := FilterState (numFilters st) (filterArr st) h p (stats st).

Definition STAT_INC (c : acl_stat) (st : filter_state) : filter_state :=
  FilterState (numFilters st) (filterArr st) (acl_hash_table st) (pool st)
    (<[c := u64 (stats st c + 1)]> (stats st)).

Definition no_filter : TwoTupleFilter := MkFilter 0 0 0 0 0 0 0 0 0 0 0.
Definition empty_bucket : frcore_acl_hash_table_t := MkBucket [] 0 0 0.

(** After [frcore_filter_init] and the allocation of the cell pool. *)
Definition frcore_filter_init (s : acl_stat -> Z) : filter_state :=
  FilterState 0 (replicate (Z.to_nat FRCORE_MAX_FILTERS) no_filter)
    (replicate (Z.to_nat FRCORE_ACL_HASH_TABLE_SIZE) empty_bucket)
    FRCORE_ACL_HASH_CELL_BUF_NUMS s.

(** ** Counters of a filter *)

(** [filterArr[index - 1]] and its update. *)
Definition filter_at (st : filter_state) (i : Z) : option TwoTupleFilter :=
  arr_get (filterArr st) (i - 1).

Definition filter_upd (f : TwoTupleFilter -> TwoTupleFilter) (i : Z) (st : filter_state)
    : option filter_state :=
  e ← filter_at st i;
  a ← arr_set (filterArr st) (i - 1) (f e);
  Some (with_table (numFilters st) a st).

Definition set_counters (n b : Z) (e : TwoTupleFilter) : TwoTupleFilter :=
  MkFilter (enable e) (acl_type e) (action e) (op e) (acl_source e) (proto e)
    (one_tuple e) (index e) (hash e) n b.

Definition filter_statistic_hit (i : Z) : filter_state -> option filter_state :=
  filter_upd (fun e => set_counters (u64 (pkt_num e + 1)) (pkt_bytes e) e) i.

Definition filter_init_statistic_hit (i : Z) : filter_state -> option filter_state :=
  filter_upd (fun e => set_counters 0 (pkt_bytes e) e) i.

Definition filter_get_statistic_hit (i : Z) (st : filter_state) : option Z :=
  pkt_num <$> filter_at st i.

Definition filter_pkt_bytes_add (i pkt_len : Z) : filter_state -> option filter_state :=
  filter_upd (fun e => set_counters (pkt_num e) (u64 (pkt_bytes e + pkt_len)) e) i.

Definition filter_init_pkt_bytes (i : Z) : filter_state -> option filter_state :=
  filter_upd (fun e => set_counters (pkt_num e) 0 e) i.

Definition filter_get_pkt_bytes (i : Z) (st : filter_state) : option Z :=
  pkt_bytes <$> filter_at st i.

Definition filter_init_filter_statistics (i : Z) (st : filter_state) : option filter_state :=
  st ← filter_init_statistic_hit i st; filter_init_pkt_bytes i st.

(** ** The filter table *)

(** [numFilters] is read through a [uint16_t]. *)
Definition acl_get_filter_count (st : filter_state) : Z := u16 (numFilters st).

Definition acl_get_hash (i : Z) (st : filter_state) : option Z := hash <$> filter_at st i.
Definition acl_get_type (i : Z) (st : filter_state) : option Z := acl_type <$> filter_at st i.
Definition acl_get_status (i : Z) (st : filter_state) : option Z := enable <$> filter_at st i.

Definition acl_delete_one_filter (i : Z) (st : filter_state) : option (Z * filter_state) :=
  st ← filter_upd (fun e => MkFilter 0 FRC_ACL_UNKNOWN 0 0 0 0 0 0 0 (pkt_num e) (pkt_bytes e)) i
    (with_table (u32 (numFilters st - 1)) (filterArr st) st);
  st ← filter_init_filter_statistics i st;
  Some (FRE_SUCCESS, STAT_INC stat_acl_del_rule_num st).

Definition acl_add_one_filter (i one_tuple proto op action acl_type acl_source hash : Z)
    (st : filter_state) : option (Z * filter_state) :=
  st ← filter_upd (fun e => MkFilter 1 acl_type action op acl_source proto one_tuple i hash
    (pkt_num e) (pkt_bytes e)) i st;
  Some (FRE_SUCCESS,
    STAT_INC stat_acl_add_rule_num (with_table (u32 (numFilters st + 1)) (filterArr st) st)).

(** ** The hash table *)

(** The bucket's position in the table, [None] for [NULL]. *)
Definition acl_get_hash_table (acl_type hash : Z) (st : filter_state)
    : option Z * filter_state :=
  if (acl_type <=? FRC_ACL_UNKNOWN) || (FRC_ACL_DP <? acl_type)
  then (None, STAT_INC stat_acl_type_error st)
  else if FRCORE_MAX_FILTERS <=? hash
  then (None, STAT_INC stat_acl_hash_error st)
  else (Some (FRCORE_MAX_FILTERS * (acl_type - 1) + hash), st).

(** The traversal that stops at the cell of index [i], and its removal. *)
Fixpoint unlink (i : Z) (l : list Z) : option (list Z) :=
  match l with
  | [] => None
  | x :: l => if x =? i then Some l else cons x <$> unlink i l
  end.

Definition acl_delete_one_filter_from_hash_table (i k : Z) (st : filter_state)
    : option (Z * filter_state) :=
  b ← arr_get (acl_hash_table st) k;
  if (bucket_depth b =? 0) || bool_decide (head b = [])
  then Some (FRE_FAIL, STAT_INC stat_acl_entry_exception st)
  else match unlink i (head b) with
  | Some l =>
    h ← arr_set (acl_hash_table st) k
      (MkBucket l (u64 (bucket_depth b - 1)) (total_cell b) (u64 (del_cell b + 1)));
    Some (FRE_SUCCESS, STAT_INC stat_acl_del_hash_cell (with_buckets h (pool st + 1) st))
  | None => Some (FRE_FAIL, STAT_INC stat_acl_not_found_index st)
  end.

Definition acl_add_one_filter_to_hash_table (i : Z) (st : filter_state)
    : option (Z * filter_state) :=
  hash ← acl_get_hash i st;
  acl_type ← acl_get_type i st;
  match acl_get_hash_table acl_type hash st with
  | (None, st) => Some (FRE_FAIL, st)
  | (Some k, st) =>
    if pool st <=? 0 then Some (FRE_FAIL, STAT_INC stat_acl_hash_cell_alloc_fail st) else
    b ← arr_get (acl_hash_table st) k;
    h ← arr_set (acl_hash_table st) k
      (MkBucket (head b ++ [i]) (u64 (bucket_depth b + 1)) (u64 (total_cell b + 1)) (del_cell b));
    Some (FRE_SUCCESS, STAT_INC stat_acl_add_hash_cell (with_buckets h (pool st - 1) st))
  end.

(** The answers of the two readers; the counters of a filter are read as
    32-bit numbers. *)
Definition acl_get_one_filter (i : Z) (st : filter_state)
    : option (Z * option TwoTupleFilter * filter_state) :=
  e ← filter_at st i;
  if enable e =? 0 then Some (FRE_INIT, None, st) else
  match acl_get_hash_table (acl_type e) (hash e) st with
  | (None, st) => Some (FRE_FAIL, None, st)
  | (Some _, st) =>
    n ← filter_get_statistic_hit i st;
    b ← filter_get_pkt_bytes i st;
    Some (FRE_SUCCESS, Some (set_counters (u32 n) (u32 b) e), st)
  end.

Definition acl_get_one_hash_table (acl_type tagid : Z) (st : filter_state)
    : option (Z * option (Z * Z * Z) * filter_state) :=
  match acl_get_hash_table acl_type tagid st with
  | (None, st) => Some (FRE_FAIL, None, st)
  | (Some k, st) =>
    b ← arr_get (acl_hash_table st) k;
    Some (FRE_SUCCESS,
      Some (u32 (bucket_depth b), u32 (total_cell b), u32 (del_cell b)), st)
  end.

(** ** Configuration *)

(** Removal of an enabled filter, shared by the two operations below: the
    cell is unlinked and freed, then the entry is cleared. *)
Definition drop_filter (i : Z) (st : filter_state) : option (Z * filter_state) :=
  hash ← acl_get_hash i st;
  acl_type ← acl_get_type i st;
  match acl_get_hash_table acl_type hash st with
  | (None, st) => Some (FRE_FAIL, st)
  | (Some k, st) =>
    '(rv, st) ← acl_delete_one_filter_from_hash_table i k st;
    if negb (rv =? 0) then Some (rv, st) else acl_delete_one_filter i st
  end.

Definition acl_del_filter (i : Z) (st : filter_state) : option (Z * filter_state) :=
  if (i <? ACL_INDEX_START) || (ACL_MAX <? i) then Some (FRE_PARAM, st) else
  status ← acl_get_status i st;
  if status =? 0 then Some (FRE_INIT, st) else drop_filter i st.

(** A packet's addresses, ports and protocol. *)
Record mpp_tuple : Type := MppTuple { sip : Z; dip : Z; sp : Z; dp : Z; tproto : Z }.

Section crc.
(** The CRC unit fed with a word and a half-word. *)
Variable crc : Z -> Z -> Z.

Definition acl_hash_crc (one_tuple proto : Z) : Z :=
  Z.land (crc one_tuple proto) FRCORE_ACL_HASH_MASK.

(** The first half, under the lock of the old bucket: what is configured at the index is
    removed.  Any code but [FRE_SUCCESS] is returned. *)
Definition acl_set_begin (i acl_type : Z) (st : filter_state) : option (Z * filter_state) :=
  if (i <? ACL_INDEX_START) || (ACL_MAX <? i) then Some (FRE_PARAM, st) else
  if (acl_type <? FRC_ACL_SIP) || (FRC_ACL_DP <? acl_type) then Some (FRE_PARAM, st) else
  status ← acl_get_status i st;
  if status =? 0 then Some (FRE_SUCCESS, st) else drop_filter i st.

(** The second half, under the lock of the new bucket. *)
Definition acl_set_end (i one_tuple proto op action acl_type acl_source : Z)
    (st : filter_state) : option (Z * filter_state) :=
  let hash := acl_hash_crc one_tuple proto in
  match acl_get_hash_table acl_type hash st with
  | (None, st) => Some (FRE_FAIL, st)
  | (Some _, st) =>
    '(rv, st) ← acl_add_one_filter i one_tuple proto op action acl_type acl_source hash st;
    if negb (rv =? 0) then Some (rv, st) else acl_add_one_filter_to_hash_table i st
  end.

Definition acl_set_filter (i one_tuple proto op action acl_type acl_source : Z)
    (st : filter_state) : option (Z * filter_state) :=
  '(rv, st) ← acl_set_begin i acl_type st;
  if negb (rv =? 0) then Some (rv, st) else acl_set_end i one_tuple proto op action acl_type acl_source st.

(** ** Lookup *)

(** One bucket: the first cell whose filter has this value and protocol. *)
Definition scan_bucket (st : filter_state) (v p : Z) (l : list Z) : option (option Z) :=
  searchM (fun i =>
    e ← filter_at st i;
    Some (if (one_tuple e =? v) && (proto e =? p) then Some (u16 i) else None)) l.

(** One turn, under the lock of the bucket; without a result the next field is tried. *)
Definition lookup_one (v t p : Z) (st : filter_state) : option (option Z * filter_state) :=
  match acl_get_hash_table t (acl_hash_crc v p) st with
  | (None, st) => Some (Some FRE_FAIL, st)
  | (Some k, st) =>
    b ← arr_get (acl_hash_table st) k;
    if bool_decide (head b = []) && (bucket_depth b =? 0) then Some (None, st)
    else r ← scan_bucket st v p (head b); Some (r, st)
  end.

(** The loop over the fields: [vs] are the values still to try, [t] the type of the first. *)
Fixpoint lookup_loop (vs : list Z) (t p : Z) (st : filter_state)
    : option (Z * filter_state) :=
  match vs with
  | [] => Some (0, st)
  | v :: vs =>
    '(r, st) ← lookup_one v t p st;
    match r with Some tag => Some (tag, st) | None => lookup_loop vs (t + 1) p st end
  end.

Definition filter_lookup_by_tuple (x : mpp_tuple) (st : filter_state)
    : option (Z * filter_state) :=
  lookup_loop [sip x; dip x; sp x; dp x] FRC_ACL_SIP (tproto x) st.
End crc.

(** The abstract specification: the filters in the order in which they
    were configured. *)
Abbreviation spec := (list TwoTupleFilter).

Definition spec_del (i : Z) (L : spec) : spec := filter (fun e => index e <> i) L.
Definition spec_set (e : TwoTupleFilter) (L : spec) : spec := spec_del (index e) L ++ [e].

Definition spec_upd (f : TwoTupleFilter -> TwoTupleFilter) (i : Z) (L : spec) : spec :=
  (fun e => if index e =? i then f e else e) <$> L.

(** The first filter of type [t] for the value [v] and protocol [p]. *)
Definition spec_match (t v p : Z) (L : spec) : option Z :=
  for_ret (fun e => if (acl_type e =? t) && (one_tuple e =? v) && (proto e =? p)
    then Some (index e) else None) L.

Definition spec_lookup (x : mpp_tuple) (L : spec) : Z :=
  default 0 (for_ret (fun tv => spec_match tv.1 tv.2 (tproto x) L)
    [(FRC_ACL_SIP, sip x); (FRC_ACL_DIP, dip x); (FRC_ACL_SP, sp x); (FRC_ACL_DP, dp x)]).
