(* ===== verification/FilterProps.v ===== *)
(** * Two-tuple filters: correctness of [Filter] *)

From stdpp Require Import list functions.
From S2P Require Import Prelude Filter.
#[local] Open Scope Z_scope.

(** The bucket of a filter. *)
Definition bucket_of (e : TwoTupleFilter) : Z :=
  FRCORE_MAX_FILTERS * (acl_type e - 1) + hash e.

Section crc.
Variable crc : Z -> Z -> Z.

(** A configured filter. *)
Record filter_valid (e : TwoTupleFilter) : Prop := FilterValid {
  v_enable : enable e = 1;
  v_index : ACL_INDEX_START <= index e <= ACL_MAX;
  v_type : FRC_ACL_SIP <= acl_type e <= FRC_ACL_DP;
  v_hash : hash e = acl_hash_crc crc (one_tuple e) (proto e) }.

(** What is known of the entries that are not configured. *)
Class OffOk (off : TwoTupleFilter -> Prop) : Prop := {
  off_none : off no_filter;
  off_num e : off e -> off (set_counters 0 (pkt_bytes e) e);
  off_bytes e : off e -> off (set_counters (pkt_num e) 0 e) }.

(** The state [st] represents the configured filters [L]; [off] holds for the other entries. *)
Record sim_by {off : TwoTupleFilter -> Prop} (st : filter_state) (L : spec) : Prop := Sim {
  r_len : Z.of_nat (length (filterArr st)) = 2048;
  r_blen : Z.of_nat (length (acl_hash_table st)) = 8192;
  r_nodup : NoDup (index <$> L);
  r_in : forall e, e ∈ L -> filter_valid e /\ filter_at st (index e) = Some e;
  r_off : forall i e, filter_at st i = Some e -> i ∉ index <$> L ->
    enable e = 0 /\ off e;
  r_bucket : forall k b, arr_get (acl_hash_table st) k = Some b ->
    head b = index <$> filter (fun e => bucket_of e = k) L /\
    bucket_depth b = Z.of_nat (length (head b));
  r_num : numFilters st = Z.of_nat (length L);
  r_pool : pool st = 2048 - Z.of_nat (length L) }.

Context {off : TwoTupleFilter -> Prop} {Hoff : OffOk off}.
#[local] Abbreviation sim := (sim_by (off := off)).

Lemma acl_hash_range v p : 0 <= acl_hash_crc crc v p < FRCORE_MAX_FILTERS.
Proof.
  unfold acl_hash_crc. change FRCORE_ACL_HASH_MASK with (Z.ones 11).
  rewrite Z.land_ones by lia. apply Z.mod_pos_bound. unfold FRCORE_MAX_FILTERS. lia.
Qed.

Lemma get_hash_table_ok t h st :
  FRC_ACL_SIP <= t <= FRC_ACL_DP -> 0 <= h < FRCORE_MAX_FILTERS ->
  acl_get_hash_table t h st = (Some (FRCORE_MAX_FILTERS * (t - 1) + h), st).
Proof.
  intros Ht Hh. unfold acl_get_hash_table, FRC_ACL_SIP, FRC_ACL_DP, FRC_ACL_UNKNOWN in *.
  rewrite (proj2 (Z.leb_gt t 0)), (proj2 (Z.ltb_ge 4 t)), (proj2 (Z.leb_gt _ h)) by lia. done.
Qed.

Lemma bucket_range e : filter_valid e -> 0 <= bucket_of e < 8192.
Proof.
  intros []. unfold bucket_of. rewrite v_hash0.
  pose proof (acl_hash_range (one_tuple e) (proto e)).
  unfold FRCORE_MAX_FILTERS, FRC_ACL_SIP, FRC_ACL_DP in *. lia.
Qed.

Lemma get_hash_table_valid e st :
  filter_valid e -> acl_get_hash_table (acl_type e) (hash e) st = (Some (bucket_of e), st).
Proof.
  intros []. rewrite v_hash0. rewrite get_hash_table_ok by (done || apply acl_hash_range).
  unfold bucket_of. by rewrite v_hash0.
Qed.

(** *** The specification list *)

Lemma index_inj (L : spec) e e' :
  NoDup (index <$> L) -> e ∈ L -> e' ∈ L -> index e = index e' -> e = e'.
Proof.
  intros Hn (i & Hi)%list_elem_of_lookup (j & Hj)%list_elem_of_lookup E.
  assert (i = j) as ->; [|congruence].
  eapply NoDup_lookup; [done|..]; rewrite list_lookup_fmap.
  - by rewrite Hi. - by rewrite Hj, E.
Qed.

Lemma spec_del_elem i L e : e ∈ spec_del i L <-> index e <> i /\ e ∈ L.
Proof. apply (list_elem_of_filter (fun e => index e <> i)). Qed.

Lemma spec_del_id i L : i ∉ index <$> L -> spec_del i L = L.
Proof.
  intros Hi. unfold spec_del. induction L as [|x L IH]; [done|].
  rewrite fmap_cons, not_elem_of_cons in Hi. destruct Hi as [Hx Hi].
  rewrite filter_cons, decide_True by congruence. by rewrite IH.
Qed.

Lemma unlink_fmap e (l : spec) :
  NoDup (index <$> l) -> e ∈ l ->
  unlink (index e) (index <$> l) = Some (index <$> spec_del (index e) l).
Proof.
  induction l as [|x l IH]; intros Hn He; [by apply elem_of_nil in He|].
  rewrite fmap_cons in Hn |- *. cbn [unlink]. pose proof (NoDup_cons_1_1 _ _ Hn).
  apply elem_of_cons in He as [-> |He]; unfold spec_del.
  - rewrite Z.eqb_refl, filter_cons, decide_False by (by intros []). fold (spec_del (index x) l).
    by rewrite spec_del_id.
  - apply NoDup_cons in Hn as [_ Hn]. destruct (Z.eqb_spec (index x) (index e)) as [E|E].
    + exfalso. apply H. rewrite E. by apply list_elem_of_fmap_2.
    + rewrite filter_cons, decide_True by done. by rewrite (IH Hn He).
Qed.

Lemma NoDup_filter_index P `{!forall e, Decision (P e)} (L : spec) :
  NoDup (index <$> L) -> NoDup (index <$> filter P L).
Proof.
  induction L as [|x L IH]; intros Hn; [done|]. rewrite fmap_cons in Hn.
  apply NoDup_cons in Hn as [Hx Hn]. rewrite filter_cons. case_decide; [|auto].
  rewrite fmap_cons. apply NoDup_cons. split; [|auto].
  intros (e & E & He)%list_elem_of_fmap. apply Hx. rewrite E.
  apply list_elem_of_filter in He as [_ He]. by apply list_elem_of_fmap_2.
Qed.

Lemma spec_del_length L e :
  NoDup (index <$> L) -> e ∈ L -> S (length (spec_del (index e) L)) = length L.
Proof.
  induction L as [|x L IH]; intros Hn He; [by apply elem_of_nil in He|].
  rewrite fmap_cons in Hn. pose proof (NoDup_cons_1_1 _ _ Hn). apply NoDup_cons in Hn as [_ Hn].
  unfold spec_del. rewrite filter_cons. fold (spec_del (index e) L). case_decide as E; simpl.
  - apply elem_of_cons in He as [-> |He]; [done|]. by rewrite IH.
  - rewrite spec_del_id; [done|]. by rewrite <- E.
Qed.

Lemma filter_spec_del_ne k i (L : spec) :
  (forall e, e ∈ L -> index e = i -> bucket_of e <> k) ->
  filter (fun e => bucket_of e = k) (spec_del i L) = filter (fun e => bucket_of e = k) L.
Proof.
  intros H. unfold spec_del. induction L as [|x L IH]; [done|].
  assert (forall e, e ∈ L -> index e = i -> bucket_of e <> k) as H' by (intros; apply H; [by right|done]).
  rewrite (filter_cons (fun e => index e <> i)). case_decide as E.
  - rewrite !(filter_cons (fun e => bucket_of e = k)), IH by done. done.
  - rewrite IH by done. rewrite (filter_cons (fun e => bucket_of e = k)), decide_False; [done|]. apply H; [left|done].
Qed.

Lemma filter_comm P Q `{!forall e, Decision (P e), !forall e, Decision (Q e)} (L : spec) :
  filter P (filter Q L) = filter Q (filter P L).
Proof. rewrite !list_filter_filter. apply list_filter_iff. tauto. Qed.

Lemma sim_size st L : sim st L -> (length L <= 2000)%nat.
Proof.
  intros H. rewrite <- (length_fmap index). transitivity (length (seqZ 1 2000)); [|done].
  apply submseteq_length, NoDup_submseteq; [apply (r_nodup _ _ H)|].
  intros i (e & -> & He)%list_elem_of_fmap. apply (r_in _ _ H) in He as [[] _].
  apply elem_of_seqZ. unfold ACL_INDEX_START, ACL_MAX in *. lia.
Qed.

Lemma sim_filter_at st L i :
  sim st L -> ACL_INDEX_START <= i <= 2048 -> exists e, filter_at st i = Some e.
Proof.
  intros H Hi. apply arr_get_is_Some. rewrite (r_len _ _ H). unfold ACL_INDEX_START in *. lia.
Qed.

(** A filter is enabled exactly when it is configured. *)
Lemma sim_enabled st L i e :
  sim st L -> filter_at st i = Some e -> enable e <> 0 -> e ∈ L /\ index e = i.
Proof.
  intros H He Hen. destruct (decide (i ∈ index <$> L)) as [(e' & -> & Hin)%list_elem_of_fmap|Hin].
  - destruct (r_in _ _ H _ Hin) as [_ Hat]. rewrite He in Hat. by injection Hat as ->.
  - by apply (r_off _ _ H i e) in Hin as (? & _).
Qed.

(** *** The primitives *)

(** [st'] has the hash part of [st]. *)
Definition same_hash (st st' : filter_state) : Prop :=
  acl_hash_table st' = acl_hash_table st /\ pool st' = pool st /\
  length (filterArr st') = length (filterArr st).

Lemma filter_upd_ok f i st e :
  filter_at st i = Some e ->
  exists st', filter_upd f i st = Some st' /\ same_hash st st' /\ numFilters st' = numFilters st /\
    forall j, filter_at st' j = if decide (j = i) then Some (f e) else filter_at st j.
Proof.
  intros He. unfold filter_upd. rewrite He. simpl.
  pose proof (arr_get_range _ _ _ He) as Hr. rewrite (arr_set_eq _ _ _ Hr). simpl.
  eexists. split; [done|]. split; [|split; [done|]].
  { unfold same_hash. simpl. by rewrite length_insert. }
  intros j. unfold filter_at. simpl.
  rewrite (arr_get_set _ _ _ _ (j - 1) (arr_set_eq _ _ (f e) Hr)).
  repeat case_decide; by (lia || done).
Qed.

Lemma acl_delete_one_ok i st e :
  filter_at st i = Some e ->
  exists st', acl_delete_one_filter i st = Some (FRE_SUCCESS, st') /\ same_hash st st' /\
    numFilters st' = u32 (numFilters st - 1) /\
    forall j, filter_at st' j = if decide (j = i) then Some no_filter else filter_at st j.
Proof.
  intros He. unfold acl_delete_one_filter.
  destruct (filter_upd_ok (fun e => MkFilter 0 FRC_ACL_UNKNOWN 0 0 0 0 0 0 0 (pkt_num e) (pkt_bytes e))
    i (with_table (u32 (numFilters st - 1)) (filterArr st) st) e He) as (s1 & -> & (H1 & H1' & H1l) & H1n & H1a).
  simpl. unfold filter_init_filter_statistics, filter_init_statistic_hit.
  edestruct (filter_upd_ok (fun e => set_counters 0 (pkt_bytes e) e) i s1)
    as (s2 & -> & (H2 & H2' & H2l) & H2n & H2a); [by rewrite H1a, decide_True|].
  simpl. unfold filter_init_pkt_bytes.
  edestruct (filter_upd_ok (fun e => set_counters (pkt_num e) 0 e) i s2)
    as (s3 & -> & (H3 & H3' & H3l) & H3n & H3a); [by rewrite H2a, decide_True|].
  simpl in *. eexists. split; [done|]. split; [unfold same_hash; simpl; split_and!; congruence|].
  split; [simpl; congruence|]. intros j. unfold filter_at in *. simpl. rewrite H3a.
  case_decide; [done|]. rewrite H2a, decide_False, H1a, decide_False by done. done.
Qed.

Lemma acl_add_one_ok i v p o a t s h st e :
  filter_at st i = Some e ->
  exists st', acl_add_one_filter i v p o a t s h st = Some (FRE_SUCCESS, st') /\ same_hash st st' /\
    numFilters st' = u32 (numFilters st + 1) /\
    forall j, filter_at st' j = if decide (j = i)
      then Some (MkFilter 1 t a o s p v i h (pkt_num e) (pkt_bytes e)) else filter_at st j.
Proof.
  intros He. unfold acl_add_one_filter.
  destruct (filter_upd_ok (fun e => MkFilter 1 t a o s p v i h (pkt_num e) (pkt_bytes e)) i st e He)
    as (s1 & -> & (H1 & H1' & H1l) & H1n & H1a).
  simpl. eexists. split; [done|]. split; [done|]. split; [simpl; by rewrite H1n|]. done.
Qed.

(** Removing a configured filter's cell. *)
Lemma unlink_ok st L e :
  sim st L -> e ∈ L ->
  exists b st', arr_get (acl_hash_table st) (bucket_of e) = Some b /\
    acl_delete_one_filter_from_hash_table (index e) (bucket_of e) st = Some (FRE_SUCCESS, st') /\
    filterArr st' = filterArr st /\ numFilters st' = numFilters st /\ pool st' = pool st + 1 /\
    length (acl_hash_table st') = length (acl_hash_table st) /\
    forall k, arr_get (acl_hash_table st') k = if decide (k = bucket_of e)
      then Some (MkBucket (index <$> filter (fun x => bucket_of x = k) (spec_del (index e) L))
        (u64 (bucket_depth b - 1)) (total_cell b) (u64 (del_cell b + 1)))
      else arr_get (acl_hash_table st) k.
Proof.
  intros H He. destruct (r_in _ _ H _ He) as [Hv Hat].
  pose proof (bucket_range e Hv) as Hr.
  destruct (arr_get_is_Some (acl_hash_table st) (bucket_of e)) as [b Hb].
  { by rewrite (r_blen _ _ H). }
  pose proof (r_bucket _ _ H _ _ Hb) as [Hh Hd]. exists b.
  assert (e ∈ filter (fun x => bucket_of x = bucket_of e) L) as Hef by (by apply list_elem_of_filter).
  assert (length (head b) <> 0%nat) as Hnz.
  { rewrite Hh. intros Hz%nil_length_inv. apply fmap_nil_inv in Hz. rewrite Hz in Hef.
    by apply elem_of_nil in Hef. }
  unfold acl_delete_one_filter_from_hash_table. rewrite Hb. cbn [mbind option_bind].
  rewrite (proj2 (Z.eqb_neq (bucket_depth b) 0)) by lia.
  rewrite bool_decide_eq_false_2 by (intros E; by rewrite E in Hnz).
  simpl. rewrite Hh, unlink_fmap by (done || apply NoDup_filter_index, (r_nodup _ _ H)).
  rewrite arr_set_eq by (by rewrite (r_blen _ _ H)). simpl. eexists.
  split; [done|]. split; [done|]. split_and!; [done..| |].
  { apply length_insert. }
  intros k. simpl.
  erewrite arr_get_set by (apply arr_set_eq; by rewrite (r_blen _ _ H)).
  case_decide as E; [|done]. subst k. unfold spec_del at 1. by rewrite filter_comm.
Qed.

(** Removal and addition of a configured filter. *)
Lemma drop_filter_ok st L e :
  sim st L -> e ∈ L ->
  exists st', drop_filter (index e) st = Some (FRE_SUCCESS, st') /\ sim st' (spec_del (index e) L).
Proof using Hoff.
  intros H He. destruct (r_in _ _ H _ He) as [Hv Hat].
  destruct (unlink_ok _ _ _ H He) as (b & s1 & Hb & E1 & Ha & Hn & Hp & Hl & Hk).
  unfold drop_filter, acl_get_hash, acl_get_type. rewrite Hat. cbn [fmap option_fmap option_map mbind option_bind].
  rewrite get_hash_table_valid, E1 by done. cbn [mbind option_bind negb Z.eqb].
  assert (filter_at s1 (index e) = Some e) as Hat1 by (unfold filter_at; by rewrite Ha).
  destruct (acl_delete_one_ok _ _ _ Hat1) as (s2 & E2 & (Sh & Sp & Sl) & Sn & Sa).
  simpl. rewrite E2. exists s2. split; [done|].
  pose proof (spec_del_length L e (r_nodup _ _ H) He) as Hlen. pose proof (sim_size _ _ H).
  pose proof (r_num _ _ H). pose proof (r_pool _ _ H). split.
  - rewrite Sl, Ha. apply (r_len _ _ H).
  - rewrite Sh, Hl. apply (r_blen _ _ H).
  - apply NoDup_filter_index, (r_nodup _ _ H).
  - intros x [Hx Hin]%spec_del_elem. destruct (r_in _ _ H _ Hin) as [Hvx Hax].
    split; [done|]. rewrite Sa, decide_False by done. unfold filter_at in *. by rewrite Ha.
  - intros j x Hx Hj. rewrite Sa in Hx. case_decide as E; [injection Hx as <-; split; [done|apply off_none]|].
    apply (r_off _ _ H j); [unfold filter_at in *; by rewrite Ha in Hx|].
    intros (y & -> & Hy)%list_elem_of_fmap. apply Hj, list_elem_of_fmap_2, spec_del_elem. done.
  - intros k c Hc. rewrite Sh, Hk in Hc. case_decide as E.
    + injection Hc as <-. split; [done|]. simpl. subst k.
      pose proof (r_bucket _ _ H _ _ Hb) as [Hh ->].
      rewrite Hh, !length_fmap. unfold spec_del at 1. rewrite filter_comm. fold (spec_del (index e) (filter (fun x => bucket_of x = bucket_of e) L)).
      pose proof (spec_del_length (filter (fun x => bucket_of x = bucket_of e) L) e
        (NoDup_filter_index _ _ (r_nodup _ _ H))) as HL.
      rewrite list_elem_of_filter in HL. specialize (HL (conj eq_refl He)).
      pose proof (length_filter (fun x => bucket_of x = bucket_of e) L).
      rewrite wrapu_id by (simpl; lia). lia.
    + pose proof (r_bucket _ _ H _ _ Hc) as [-> ->]. split; [|done].
      rewrite filter_spec_del_ne; [done|]. intros x Hx Ex.
      rewrite (index_inj L x e (r_nodup _ _ H) Hx He Ex). congruence.
  - rewrite Sn, Hn, wrapu_id by (simpl; lia). lia.
  - lia.
Qed.

Lemma add_to_hash_ok st e b :
  filter_valid e -> filter_at st (index e) = Some e -> 0 < pool st ->
  Z.of_nat (length (acl_hash_table st)) = 8192 ->
  arr_get (acl_hash_table st) (bucket_of e) = Some b ->
  exists st', acl_add_one_filter_to_hash_table (index e) st = Some (FRE_SUCCESS, st') /\
    filterArr st' = filterArr st /\ numFilters st' = numFilters st /\ pool st' = pool st - 1 /\
    length (acl_hash_table st') = length (acl_hash_table st) /\
    forall k, arr_get (acl_hash_table st') k = if decide (k = bucket_of e)
      then Some (MkBucket (head b ++ [index e]) (u64 (bucket_depth b + 1)) (u64 (total_cell b + 1)) (del_cell b))
      else arr_get (acl_hash_table st) k.
Proof.
  intros Hv Hat Hp Hl Hb. unfold acl_add_one_filter_to_hash_table, acl_get_hash, acl_get_type.
  rewrite Hat. cbn [fmap option_fmap option_map mbind option_bind].
  rewrite get_hash_table_valid by done. rewrite (proj2 (Z.leb_gt (pool st) 0)) by done.
  rewrite Hb. cbn [mbind option_bind]. pose proof (bucket_range e Hv). rewrite arr_set_eq by lia.
  cbn [mbind option_bind]. eexists. split; [done|]. split_and!; [done..| |].
  { simpl. by rewrite length_insert. }
  intros k. simpl. by erewrite arr_get_set by (apply arr_set_eq; lia).
Qed.

Lemma add_filter_ok st L e e0 :
  sim st L -> filter_valid e -> index e ∉ index <$> L -> filter_at st (index e) = Some e0 ->
  pkt_num e = pkt_num e0 -> pkt_bytes e = pkt_bytes e0 ->
  exists st1 st', acl_add_one_filter (index e) (one_tuple e) (proto e) (op e) (action e) (acl_type e)
      (acl_source e) (hash e) st = Some (FRE_SUCCESS, st1) /\
    acl_add_one_filter_to_hash_table (index e) st1 = Some (FRE_SUCCESS, st') /\ sim st' (L ++ [e]).
Proof.
  intros H Hv Hni H0 Hpn Hpb.
  destruct (acl_add_one_ok (index e) (one_tuple e) (proto e) (op e) (action e) (acl_type e)
    (acl_source e) (hash e) _ _ H0) as (s1 & E1 & (Sh & Sp & Sl) & Sn & Sa).
  assert (MkFilter 1 (acl_type e) (action e) (op e) (acl_source e) (proto e) (one_tuple e) (index e)
    (hash e) (pkt_num e0) (pkt_bytes e0) = e) as Ee.
  { rewrite <- Hpn, <- Hpb. pose proof (v_enable _ Hv). destruct e; simpl in *; congruence. }
  rewrite Ee in Sa. pose proof (bucket_range e Hv) as Hr.
  destruct (arr_get_is_Some (acl_hash_table st) (bucket_of e)) as [b Hb]; [by rewrite (r_blen _ _ H)|].
  pose proof (sim_size _ _ H). pose proof (r_num _ _ H). pose proof (r_pool _ _ H).
  destruct (add_to_hash_ok s1 e b Hv) as (s2 & E2 & Ta & Tn & Tp & Tl & Tk).
  { by rewrite Sa, decide_True. } { lia. } { rewrite Sh. apply (r_blen _ _ H). } { by rewrite Sh. }
  exists s1, s2. split; [done|]. split; [done|].
  assert (forall j, filter_at s2 j = filter_at s1 j) as Ts by (intros; unfold filter_at; by rewrite Ta).
  split.
  - rewrite Ta, Sl. apply (r_len _ _ H).
  - rewrite Tl, Sh. apply (r_blen _ _ H).
  - rewrite fmap_app. apply NoDup_app. split; [apply (r_nodup _ _ H)|]. split; [|apply NoDup_singleton].
    intros j Hj ->%list_elem_of_singleton. done.
  - intros x [Hx| ->%list_elem_of_singleton]%elem_of_app; rewrite Ts, Sa; [|by rewrite decide_True].
    destruct (r_in _ _ H _ Hx) as [Hvx Hax]. split; [done|].
    rewrite decide_False; [done|]. intros E. apply Hni. rewrite <- E. by apply list_elem_of_fmap_2.
  - intros j x Hx Hj. rewrite fmap_app, not_elem_of_app in Hj. destruct Hj as [Hj Hj'].
    rewrite Ts, Sa, decide_False in Hx by (intros ->; apply Hj'; by left).
    by apply (r_off _ _ H j).
  - intros k c Hc. rewrite Tk, Sh in Hc. rewrite filter_app, filter_cons, fmap_app.
    case_decide as E.
    + injection Hc as <-. pose proof (r_bucket _ _ H _ _ Hb) as [Hh Hd]. subst k. simpl.
      rewrite decide_True, Hh by done. split; [done|]. rewrite Hd, Hh, length_app, length_fmap.
      pose proof (length_filter (fun x => bucket_of x = bucket_of e) L).
      rewrite wrapu_id by (simpl; lia). simpl. lia.
    + rewrite decide_False by congruence. rewrite app_nil_r. by apply (r_bucket _ _ H).
  - rewrite Tn, Sn, length_app, wrapu_id by (simpl; lia). simpl. lia.
  - rewrite length_app. simpl. lia.
Qed.

(** The configured filter of these parameters. *)
Definition mk_filter (i v p o a t s : Z) : TwoTupleFilter :=
  MkFilter 1 t a o s p v i (acl_hash_crc crc v p) 0 0.

Definition params_ok (i t : Z) : Prop :=
  ACL_INDEX_START <= i <= ACL_MAX /\ FRC_ACL_SIP <= t <= FRC_ACL_DP.

#[export] Instance params_ok_dec i t : Decision (params_ok i t).
Proof. unfold params_ok. apply _. Defined.

Lemma index_check i :
  (i <? ACL_INDEX_START) || (ACL_MAX <? i) = false <-> ACL_INDEX_START <= i <= ACL_MAX.
Proof. rewrite orb_false_iff, !Z.ltb_ge. done. Qed.

(** The two halves: the index is freed, and the filter takes over the counters of its entry. *)
Lemma begin_spec st L i t : sim st L -> params_ok i t ->
  exists st', acl_set_begin i t st = Some (FRE_SUCCESS, st') /\ sim st' (spec_del i L).
Proof using Hoff.
  intros H [Hi Ht]. unfold acl_set_begin. rewrite (proj2 (index_check i) Hi).
  assert ((t <? FRC_ACL_SIP) || (FRC_ACL_DP <? t) = false) as ->
    by (rewrite orb_false_iff, !Z.ltb_ge; lia).
  destruct (sim_filter_at st L i H) as [e0 H0]; [unfold ACL_MAX in *; lia|].
  unfold acl_get_status. rewrite H0. cbn [fmap option_fmap option_map mbind option_bind].
  destruct (Z.eqb_spec (enable e0) 0) as [Ez|Ez].
  - exists st. split; [done|]. rewrite spec_del_id; [done|].
    intros (x & -> & Hx)%list_elem_of_fmap. destruct (r_in _ _ H _ Hx) as [[] Hax]. congruence.
  - destruct (sim_enabled _ _ _ _ H H0 Ez) as [Hin <-]. by apply drop_filter_ok.
Qed.

(** Bad parameters are refused. *)
Lemma begin_refused i t st : ~ params_ok i t -> acl_set_begin i t st = Some (FRE_PARAM, st).
Proof.
  intros Hb. unfold acl_set_begin. destruct (_ || _) eqn:E1; [done|]. apply index_check in E1.
  destruct ((t <? _) || _) eqn:E2; [done|]. exfalso. apply Hb. split; [done|].
  apply orb_false_iff in E2 as [?%Z.ltb_ge ?%Z.ltb_ge]. lia.
Qed.

Lemma del_refused i st : ~ ACL_INDEX_START <= i <= ACL_MAX -> acl_del_filter i st = Some (FRE_PARAM, st).
Proof.
  intros Hb. unfold acl_del_filter. destruct (_ || _) eqn:E1; [done|]. by apply index_check in E1.
Qed.

Lemma end_spec st L i v p o a t s : sim st L -> params_ok i t -> i ∉ index <$> L ->
  exists e0 st', filter_at st i = Some e0 /\ off e0 /\ acl_set_end crc i v p o a t s st = Some (FRE_SUCCESS, st') /\
    sim st' (L ++ [set_counters (pkt_num e0) (pkt_bytes e0) (mk_filter i v p o a t s)]).
Proof.
  intros H [Hi Ht] Hni. destruct (sim_filter_at st L i H) as [e0 H0]; [unfold ACL_MAX in *; lia|].
  exists e0. unfold acl_set_end. rewrite get_hash_table_ok by (done || apply acl_hash_range).
  set (e := set_counters (pkt_num e0) (pkt_bytes e0) (mk_filter i v p o a t s)).
  destruct (add_filter_ok st L e e0 H) as (st2 & st3 & E2 & E3 & H3); [done..|].
  simpl in E2, E3. rewrite E2. simpl. rewrite E3. exists st3. split_and!; [done| |done..]. by apply (r_off _ _ H _ _ H0 Hni).
Qed.

Lemma spec_del_notin i L : i ∉ index <$> spec_del i L.
Proof. intros (x & Ex & Hx)%list_elem_of_fmap. apply spec_del_elem in Hx as [Hx _]. by apply Hx. Qed.

Lemma config_spec st L i v p o a t s :
  sim st L -> params_ok i t ->
  exists e0 st', off e0 /\ acl_set_filter crc i v p o a t s st = Some (FRE_SUCCESS, st') /\
    sim st' (spec_set (set_counters (pkt_num e0) (pkt_bytes e0) (mk_filter i v p o a t s)) L).
Proof using Hoff.
  intros H Hp. unfold acl_set_filter. destruct (begin_spec st L i t H Hp) as (st1 & -> & H1).
  destruct (end_spec st1 _ i v p o a t s H1 Hp (spec_del_notin i L)) as (e0 & st2 & _ & Ho & E & H2).
  exists e0, st2. split; [done|]. split; [exact E|exact H2].
Qed.

Lemma del_filter_spec st L i :
  sim st L -> ACL_INDEX_START <= i <= ACL_MAX ->
  exists rv st', acl_del_filter i st = Some (rv, st') /\ sim st' (spec_del i L) /\
    rv = (if bool_decide (i ∈ index <$> L) then FRE_SUCCESS else FRE_INIT) /\
    (i ∉ index <$> L -> st' = st).
Proof using Hoff.
  intros H Hi. unfold acl_del_filter. rewrite (proj2 (index_check i) Hi).
  destruct (sim_filter_at st L i H) as [e0 H0]; [unfold ACL_MAX in *; lia|].
  unfold acl_get_status. rewrite H0. cbn [fmap option_fmap option_map mbind option_bind].
  case_bool_decide as Hin.
  - pose proof Hin as (e & -> & He)%list_elem_of_fmap. destruct (r_in _ _ H _ He) as [[] Hat].
    rewrite Hat in H0. injection H0 as <-. rewrite v_enable0. simpl.
    destruct (drop_filter_ok _ _ _ H He) as (st' & -> & H'). by exists FRE_SUCCESS, st'.
  - destruct (r_off _ _ H _ _ H0 Hin) as (-> & _). simpl. exists FRE_INIT, st.
    by rewrite spec_del_id.
Qed.

(** *** Lookup *)

Lemma scan_ok st L k v p :
  sim st L ->
  scan_bucket st v p (index <$> filter (fun e => bucket_of e = k) L) =
  Some (for_ret (fun e => if (one_tuple e =? v) && (proto e =? p) then Some (index e) else None)
    (filter (fun e => bucket_of e = k) L)).
Proof.
  intros H. unfold scan_bucket.
  assert (forall e, e ∈ filter (fun e => bucket_of e = k) L -> e ∈ L) as Hsub
    by (intros e [_ ?]%list_elem_of_filter; done).
  induction (filter (fun e => bucket_of e = k) L) as [|e l IH]; [done|].
  destruct (r_in _ _ H e) as [[] Hat]; [apply Hsub; by left|].
  rewrite fmap_cons. cbn [searchM for_ret]. rewrite Hat. cbn [mbind option_bind].
  unfold ACL_INDEX_START, ACL_MAX in *. rewrite (wrapu_id 16) by (simpl; lia).
  destruct (_ && _); [done|]. apply IH. intros. apply Hsub. by right.
Qed.

(** Only filters of the type with this value can match in its bucket. *)
Lemma match_bucket L t v p :
  (forall e, e ∈ L -> filter_valid e) -> FRC_ACL_SIP <= t <= FRC_ACL_DP ->
  for_ret (fun e => if (one_tuple e =? v) && (proto e =? p) then Some (index e) else None)
    (filter (fun e => bucket_of e = FRCORE_MAX_FILTERS * (t - 1) + acl_hash_crc crc v p) L) =
  spec_match t v p L.
Proof.
  intros HL Ht. unfold spec_match. induction L as [|e L IH]; [done|].
  assert (forall e, e ∈ L -> filter_valid e) as HL' by (intros; apply HL; by right).
  destruct (HL e) as [_ _ Hte Hhe]; [by left|]. specialize (IH HL').
  pose proof (acl_hash_range v p). pose proof (acl_hash_range (one_tuple e) (proto e)).
  rewrite filter_cons. cbn [for_ret]. case_decide as E; cbn [for_ret].
  - unfold bucket_of in E. rewrite Hhe in E. unfold FRCORE_MAX_FILTERS in *.
    assert (acl_type e = t) as -> by lia. rewrite Z.eqb_refl. simpl.
    destruct (_ && _); [done|exact IH].
  - assert ((acl_type e =? t) && (one_tuple e =? v) && (proto e =? p) = false) as ->; [|exact IH].
    apply not_true_iff_false. intros Hm. zb. subst. apply E. unfold bucket_of. rewrite Hhe. reflexivity.
Qed.

Lemma lookup_one_spec st L v t p :
  sim st L -> FRC_ACL_SIP <= t <= FRC_ACL_DP ->
  lookup_one crc v t p st = Some (spec_match t v p L, st).
Proof.
  intros H Ht. unfold lookup_one. rewrite get_hash_table_ok by (done || apply acl_hash_range).
  pose proof (acl_hash_range v p). destruct (arr_get_is_Some (acl_hash_table st)
    (FRCORE_MAX_FILTERS * (t - 1) + acl_hash_crc crc v p)) as [b Hb].
  { rewrite (r_blen _ _ H). unfold FRCORE_MAX_FILTERS, FRC_ACL_SIP, FRC_ACL_DP in *. lia. }
  rewrite Hb. cbn [mbind option_bind]. destruct (r_bucket _ _ H _ _ Hb) as [Hh _].
  assert (scan_bucket st v p (head b) = Some (spec_match t v p L)) as Hs.
  { rewrite Hh, scan_ok by done. f_equal. apply match_bucket; [|done].
    intros e He. by destruct (r_in _ _ H _ He). }
  destruct (_ && _) eqn:E; [|by rewrite Hs].
  apply andb_true_iff in E as [E%bool_decide_eq_true _]. rewrite E in Hs. by injection Hs as <-.
Qed.

Lemma lookup_spec st L x :
  sim st L -> filter_lookup_by_tuple crc x st = Some (spec_lookup x L, st).
Proof.
  intros H. unfold filter_lookup_by_tuple, spec_lookup.
  cbn [lookup_loop for_ret fst snd].
  change (FRC_ACL_SIP + 1) with FRC_ACL_DIP. change (FRC_ACL_DIP + 1) with FRC_ACL_SP.
  change (FRC_ACL_SP + 1) with FRC_ACL_DP.
  do 4 (rewrite (lookup_one_spec st L) by (done || by vm_compute); cbn [mbind option_bind];
    destruct (spec_match _ _ _ L); [done|]). done.
Qed.

Lemma spec_match_Some t v p L r :
  spec_match t v p L = Some r <->
  exists L1 e L2, L = L1 ++ e :: L2 /\ index e = r /\ acl_type e = t /\ one_tuple e = v /\ proto e = p /\
    forall x, x ∈ L1 -> ~ (acl_type x = t /\ one_tuple x = v /\ proto x = p).
Proof.
  unfold spec_match. split.
  - intros (L1 & e & L2 & -> & He & HL)%for_ret_Some.
    destruct (_ && _) eqn:E in He; [|done]. injection He as <-. zb.
    exists L1, e, L2. split_and!; [done..|]. intros x Hx (E1 & E2 & E3).
    pose proof (proj1 (for_ret_None _ _) HL x Hx) as Hn. simpl in Hn.
    by rewrite E1, E2, E3, !Z.eqb_refl in Hn.
  - intros (L1 & e & L2 & -> & <- & <- & <- & <- & HL). rewrite for_ret_app.
    rewrite (proj2 (for_ret_None _ _)). { simpl. by rewrite !Z.eqb_refl. }
    intros x Hx. destruct (_ && _) eqn:E; [|done]. zb. exfalso. by apply (HL x Hx).
Qed.

Lemma spec_match_None t v p L :
  spec_match t v p L = None <->
  forall x, x ∈ L -> ~ (acl_type x = t /\ one_tuple x = v /\ proto x = p).
Proof.
  unfold spec_match. rewrite for_ret_None. split; intros H x Hx.
  - intros (E1 & E2 & E3). specialize (H x Hx). simpl in H.
    by rewrite E1, E2, E3, !Z.eqb_refl in H.
  - destruct (_ && _) eqn:E; [|done]. zb. exfalso. by apply (H x Hx).
Qed.

Lemma spec_lookup_elem x L : spec_lookup x L <> 0 -> spec_lookup x L ∈ index <$> L.
Proof.
  unfold spec_lookup. destruct (for_ret _ _) as [r|] eqn:Er; [|done]. intros _. simpl.
  apply for_ret_Some in Er as (? & [t v] & ? & _ & Em & _). simpl in Em.
  apply spec_match_Some in Em as (L1 & e & L2 & -> & <- & _).
  apply list_elem_of_fmap_2. rewrite elem_of_app, elem_of_cons. auto.
Qed.

(** The value a filter of type [t] looks at, and whether it matches. *)
Definition field (x : mpp_tuple) (t : Z) : Z :=
  if t =? FRC_ACL_SIP then sip x else if t =? FRC_ACL_DIP then dip x
  else if t =? FRC_ACL_SP then sp x else dp x.

Definition matches (x : mpp_tuple) (e : TwoTupleFilter) : Prop :=
  one_tuple e = field x (acl_type e) /\ proto e = tproto x.

(** C40: The lookup returns 0 exactly when no configured filter matches the packet,
    and otherwise the first configured one among those of the first field type
    (source address, destination address, source port, destination port). *)
Theorem lookup_first st L x :
  sim st L ->
  exists r, filter_lookup_by_tuple crc x st = Some (r, st) /\
    (r = 0 <-> forall e, e ∈ L -> ~ matches x e) /\
    (r <> 0 -> exists L1 e L2, L = L1 ++ e :: L2 /\ index e = r /\ matches x e /\
       (forall y, y ∈ L -> matches x y -> acl_type e <= acl_type y) /\
       (forall y, y ∈ L1 -> matches x y -> acl_type y <> acl_type e)).
Proof.
  intros H. exists (spec_lookup x L). split; [by apply lookup_spec|].
  assert (forall e, e ∈ L -> 1 <= index e /\ FRC_ACL_SIP <= acl_type e <= FRC_ACL_DP) as HL.
  { intros e He. destruct (r_in _ _ H _ He) as [[] _]. unfold ACL_INDEX_START in *. lia. }
  clear H. unfold spec_lookup.
  assert (forall t, FRC_ACL_SIP <= t <= FRC_ACL_DP -> spec_match t (field x t) (tproto x) L = None ->
    forall e, e ∈ L -> matches x e -> acl_type e <> t) as Hno.
  { intros t Ht Hn e He [H1 H2] E. eapply spec_match_None in Hn; [|done]. apply Hn. by subst t. }
  assert (forall t r, FRC_ACL_SIP <= t <= FRC_ACL_DP -> spec_match t (field x t) (tproto x) L = Some r ->
    (forall e, e ∈ L -> matches x e -> t <= acl_type e) ->
    (r = 0 <-> forall e, e ∈ L -> ~ matches x e) /\
    (r <> 0 -> exists L1 e L2, L = L1 ++ e :: L2 /\ index e = r /\ matches x e /\
       (forall y, y ∈ L -> matches x y -> acl_type e <= acl_type y) /\
       (forall y, y ∈ L1 -> matches x y -> acl_type y <> acl_type e))) as Hyes.
  { intros t r Ht (L1 & e & L2 & E & <- & E1 & E2 & E3 & HL1)%spec_match_Some Hle.
    assert (e ∈ L) as Hin by (rewrite E, elem_of_app, elem_of_cons; auto).
    assert (matches x e) as Hm by (split; [by rewrite E1|done]). split.
    - destruct (HL e Hin). split; [lia|]. intros Hn. by destruct (Hn e Hin).
    - intros _. exists L1, e, L2. rewrite E1. split_and!; [done..| |]; [by apply Hle|].
      intros y Hy [H1 H2] Et. apply (HL1 y Hy). by rewrite <- Et. }
  cbn [for_ret fst snd].
  unfold FRC_ACL_SIP, FRC_ACL_DIP, FRC_ACL_SP, FRC_ACL_DP in *.
  destruct (spec_match 1 (sip x) _ _) eqn:M1; [apply (Hyes 1); [lia|done|intros; apply HL; done]|].
  destruct (spec_match 2 (dip x) _ _) eqn:M2.
  { apply (Hyes 2); [lia|done|]. intros e He Hm. pose proof (Hno 1 ltac:(lia) M1 e He Hm).
    destruct (HL e He). lia. }
  destruct (spec_match 3 (sp x) _ _) eqn:M3.
  { apply (Hyes 3); [lia|done|]. intros e He Hm. pose proof (Hno 1 ltac:(lia) M1 e He Hm).
    pose proof (Hno 2 ltac:(lia) M2 e He Hm). destruct (HL e He). lia. }
  assert (forall e, e ∈ L -> matches x e -> acl_type e = 4) as H4.
  { intros e He Hm. pose proof (Hno 1 ltac:(lia) M1 e He Hm).
    pose proof (Hno 2 ltac:(lia) M2 e He Hm). pose proof (Hno 3 ltac:(lia) M3 e He Hm).
    destruct (HL e He). lia. }
  destruct (spec_match 4 (dp x) _ _) eqn:M4.
  { apply (Hyes 4); [lia|done|]. intros e He Hm. by rewrite (H4 e He Hm). }
  simpl. split; [|done]. split; [|done]. intros _ e He Hm.
  apply (Hno 4 ltac:(lia) M4 e He Hm). by apply H4.
Qed.

(** *** Counters *)

(** An update that touches only the counters of filter [i]. *)
Lemma spec_upd_ok st L i f :
  sim st L -> ACL_INDEX_START <= i <= 2048 -> (forall e, exists n b, f e = set_counters n b e) ->
  (i ∈ index <$> L \/ forall e, off e -> off (f e)) ->
  exists st', filter_upd f i st = Some st' /\ sim st' (spec_upd f i L).
Proof.
  intros H Hi Hf Hoff'. destruct (sim_filter_at st L i H Hi) as [e Hat].
  destruct (filter_upd_ok f _ _ _ Hat) as (st' & -> & (Sh & Sp & Sl) & Sn & Sa).
  exists st'. split; [done|].
  set (g := fun x => if index x =? i then f x else x).
  assert (forall x, exists n b, g x = set_counters n b x) as Hg.
  { intros x. unfold g. destruct (_ =? _); [apply Hf|]. exists (pkt_num x), (pkt_bytes x). by destruct x. }
  assert (forall x, index (g x) = index x) as Hgi by (intros x; by destruct (Hg x) as (n & b & ->)).
  assert (forall x, bucket_of (g x) = bucket_of x) as Hgb by (intros x; by destruct (Hg x) as (n & b & ->)).
  assert (index <$> spec_upd f i L = index <$> L) as Hidx.
  { unfold spec_upd. rewrite <- list_fmap_compose. apply list_fmap_ext. intros ? x _. apply Hgi. }
  split.
  - rewrite Sl. apply (r_len _ _ H).
  - rewrite Sh. apply (r_blen _ _ H).
  - rewrite Hidx. apply (r_nodup _ _ H).
  - intros y (x & -> & Hx)%list_elem_of_fmap. fold (g x). rewrite Hgi.
    destruct (r_in _ _ H _ Hx) as [[] Hxat]. split.
    + destruct (Hg x) as (n & b & ->). by split.
    + rewrite Sa. unfold g. case_decide as E; [|by rewrite (proj2 (Z.eqb_neq _ _))].
      rewrite E, Z.eqb_refl. congruence.
  - intros j x Hx Hj. rewrite Hidx in Hj. rewrite Sa in Hx.
    case_decide as E; [subst j|by apply (r_off _ _ H j)]. injection Hx as <-.
    destruct (r_off _ _ H i e Hat Hj) as [He Ho]. destruct (Hf e) as (n & b & Efe).
    split; [by rewrite Efe|]. destruct Hoff' as [Hin|Hok]; [done|by apply Hok].
  - intros k b Hb. rewrite Sh in Hb. destruct (r_bucket _ _ H _ _ Hb) as [-> ->]. split; [|done].
    unfold spec_upd. fold g. clear - Hgi Hgb. induction L as [|x L IH]; [done|].
    rewrite fmap_cons, !filter_cons. fold (g x).
    destruct (decide (bucket_of x = k)), (decide (bucket_of (g x) = k)); rewrite Hgb in *; try done.
    rewrite !fmap_cons, Hgi. by f_equal.
  - unfold spec_upd. rewrite Sn, length_fmap. apply (r_num _ _ H).
  - unfold spec_upd. rewrite Sp, length_fmap. apply (r_pool _ _ H).
Qed.

(** What the packet path does to the counters of the filter it found. *)
Definition count_packet (len : Z) (e : TwoTupleFilter) : TwoTupleFilter :=
  set_counters (u64 (pkt_num e + 1)) (u64 (pkt_bytes e + len)) e.

Lemma spec_upd_comp f g i L :
  (forall e, index (g e) = index e) ->
  spec_upd f i (spec_upd g i L) = spec_upd (fun e => f (g e)) i L.
Proof.
  intros Hg. unfold spec_upd. rewrite <- list_fmap_compose. apply list_fmap_ext. intros ? x _.
  simpl. destruct (index x =? i) eqn:E; [by rewrite Hg, E|by rewrite E].
Qed.

Lemma spec_upd_index f i L : (forall e, index (f e) = index e) -> index <$> spec_upd f i L = index <$> L.
Proof.
  intros Hf. unfold spec_upd. rewrite <- list_fmap_compose. apply list_fmap_ext. intros ? x _.
  simpl. by destruct (_ =? _).
Qed.

Lemma configured_range st L i : sim st L -> i ∈ index <$> L -> ACL_INDEX_START <= i <= ACL_MAX.
Proof. intros H (e & -> & He)%list_elem_of_fmap. by destruct (r_in _ _ H _ He) as [[] _]. Qed.

Lemma count_spec st L i len :
  sim st L -> i ∈ index <$> L ->
  exists st1 st2, filter_statistic_hit i st = Some st1 /\ filter_pkt_bytes_add i len st1 = Some st2 /\
    sim st2 (spec_upd (count_packet len) i L).
Proof.
  intros H Hi. pose proof (configured_range _ _ _ H Hi). unfold ACL_MAX in *.
  destruct (spec_upd_ok st L i (fun e => set_counters (u64 (pkt_num e + 1)) (pkt_bytes e) e) H)
    as (st1 & E1 & H1); [lia|eauto..|].
  destruct (spec_upd_ok st1 _ i (fun e => set_counters (pkt_num e) (u64 (pkt_bytes e + len)) e) H1)
    as (st2 & E2 & H2); [lia|eauto|left; by rewrite spec_upd_index|].
  exists st1, st2. split; [exact E1|]. split; [exact E2|]. by rewrite spec_upd_comp in H2.
Qed.

Lemma clear_spec st L i :
  sim st L -> ACL_INDEX_START <= i <= 2048 ->
  exists st', filter_init_filter_statistics i st = Some st' /\ sim st' (spec_upd (set_counters 0 0) i L).
Proof using Hoff.
  intros H Hi. destruct (spec_upd_ok st L i (fun e => set_counters 0 (pkt_bytes e) e) H Hi)
    as (st1 & E1 & H1); [eauto|right; apply off_num|].
  destruct (spec_upd_ok st1 _ i (fun e => set_counters (pkt_num e) 0 e) H1 Hi)
    as (st2 & E2 & H2); [eauto|right; apply off_bytes|].
  exists st2. unfold filter_init_filter_statistics, filter_init_statistic_hit. rewrite E1.
  split; [exact E2|]. by rewrite spec_upd_comp in H2.
Qed.

(** *** Initially *)

Lemma sim_init s : sim (frcore_filter_init s) [].
Proof using Hoff.
  unfold frcore_filter_init.
  split; cbn [filterArr acl_hash_table numFilters pool].
  - by rewrite length_replicate, Z2Nat.id.
  - by rewrite length_replicate, Z2Nat.id.
  - constructor.
  - intros e He. by apply elem_of_nil in He.
  - intros i e He _. unfold filter_at in He. cbn [filterArr] in He.
    apply arr_get_Some in He as [_ He]. apply lookup_replicate in He as [-> _].
    split; [done|apply off_none].
  - intros k b Hb. apply arr_get_Some in Hb as [_ Hb]. by apply lookup_replicate in Hb as [-> _].
  - done.
  - done.
Qed.

(** *** Readers *)

Lemma get_one_spec st L i :
  sim st L -> 1 <= i <= 2048 ->
  (forall e, e ∈ L -> index e = i -> acl_get_one_filter i st =
     Some (FRE_SUCCESS, Some (set_counters (u32 (pkt_num e)) (u32 (pkt_bytes e)) e), st)) /\
  (i ∉ index <$> L -> acl_get_one_filter i st = Some (FRE_INIT, None, st)).
Proof.
  intros H Hi. unfold acl_get_one_filter. split.
  - intros e He <-. destruct (r_in _ _ H _ He) as [Hv Hat]. rewrite Hat. cbn [mbind option_bind].
    rewrite (v_enable _ Hv), get_hash_table_valid by done. simpl.
    unfold filter_get_statistic_hit, filter_get_pkt_bytes. by rewrite Hat.
  - intros Hni. destruct (sim_filter_at st L i H Hi) as [e He]. rewrite He. cbn [mbind option_bind].
    by destruct (r_off _ _ H _ _ He Hni) as (-> & _).
Qed.

Lemma get_one_ub st L i : sim st L -> ~ 1 <= i <= 2048 -> acl_get_one_filter i st = None.
Proof.
  intros H Hi. unfold acl_get_one_filter. destruct (filter_at st i) eqn:E; [|done].
  apply arr_get_range in E. rewrite (r_len _ _ H) in E. lia.
Qed.

End crc.

(** ** One operation after another

    Without packets between the lookup and the counting of others, an entry that is not
    configured has no counts: a new filter starts at zero. *)

Definition no_count (e : TwoTupleFilter) : Prop := pkt_num e = 0 /\ pkt_bytes e = 0.

#[export] Instance no_count_ok : OffOk no_count.
Proof. by split; [|intros e []..]. Qed.

#[export] Instance true_ok : OffOk (fun _ => True).
Proof. done. Qed.

Abbreviation sim crc := (sim_by crc (off := no_count)).

Section alone.
Variable crc : Z -> Z -> Z.
Abbreviation sim := (sim_by crc (off := no_count)).
Abbreviation mk_filter := (mk_filter crc).

Lemma set_spec st L i v p o a t s :
  sim st L -> params_ok i t ->
  exists st', acl_set_filter crc i v p o a t s st = Some (FRE_SUCCESS, st') /\
    sim st' (spec_set (mk_filter i v p o a t s) L).
Proof.
  intros H Hp. destruct (config_spec crc st L i v p o a t s H Hp) as (e0 & st' & [E1 E2] & E & H').
  exists st'. split; [exact E|]. by rewrite E1, E2 in H'.
Qed.

(** Configuring a filter replaces the one at its index by the new filter with
    cleared counters, configured last; bad parameters change nothing. *)
Theorem set_filter_refines st L i v p o a t s :
  sim st L ->
  (params_ok i t -> exists st', acl_set_filter crc i v p o a t s st = Some (FRE_SUCCESS, st') /\
     sim st' (spec_set (mk_filter i v p o a t s) L)) /\
  (~ params_ok i t -> acl_set_filter crc i v p o a t s st = Some (FRE_PARAM, st)).
Proof.
  intros H. split; [by apply set_spec|]. intros Hb. unfold acl_set_filter. by rewrite begin_refused.
Qed.

(** Deleting a filter removes it from the configured ones; the return code says
    whether it was configured, and a failing deletion changes nothing. *)
Theorem del_filter_refines st L i :
  sim st L ->
  (ACL_INDEX_START <= i <= ACL_MAX -> exists rv st', acl_del_filter i st = Some (rv, st') /\
     sim st' (spec_del i L) /\
     rv = (if bool_decide (i ∈ index <$> L) then FRE_SUCCESS else FRE_INIT) /\
     (i ∉ index <$> L -> st' = st)) /\
  (~ ACL_INDEX_START <= i <= ACL_MAX -> acl_del_filter i st = Some (FRE_PARAM, st)).
Proof.
  intros H. split; [apply (del_filter_spec crc st L i H)|]. apply del_refused.
Qed.

(** A configured filter reads back as written, with cleared counters, and no other
    index reads differently than before. *)
Theorem set_get_roundtrip st L i v p o a t s :
  sim st L -> params_ok i t ->
  exists st', acl_set_filter crc i v p o a t s st = Some (FRE_SUCCESS, st') /\
    acl_get_one_filter i st' = Some (FRE_SUCCESS, Some (mk_filter i v p o a t s), st') /\
    forall j r, 1 <= j <= 2048 -> j <> i -> acl_get_one_filter j st = Some (r, st) ->
      acl_get_one_filter j st' = Some (r, st').
Proof.
  intros H Hp. destruct (set_spec st L i v p o a t s H Hp) as (st' & E & H').
  exists st'. split; [done|]. set (e := mk_filter i v p o a t s) in *. split.
  - destruct (get_one_spec crc _ _ i H') as [Hg _]; [destruct Hp; unfold ACL_INDEX_START, ACL_MAX in *; lia|].
    rewrite (Hg e); [done| |done]. unfold spec_set. apply elem_of_app. right. by left.
  - intros j r Hj Hne Hr. destruct (get_one_spec crc _ _ j H Hj) as [Hy Hn].
    destruct (get_one_spec crc _ _ j H' Hj) as [Hy' Hn'].
    destruct (decide (j ∈ index <$> L)) as [(x & -> & Hx)%list_elem_of_fmap|Hni].
    + rewrite (Hy x) in Hr by done. injection Hr as <-. apply Hy'; [|done].
      apply elem_of_app. left. by apply spec_del_elem.
    + rewrite Hn in Hr by done. injection Hr as <-. apply Hn'.
      intros (x & -> & [Hx| ->%list_elem_of_singleton]%elem_of_app)%list_elem_of_fmap; [|done].
      apply spec_del_elem in Hx as [_ Hx]. apply Hni. by apply list_elem_of_fmap_2.
Qed.

(** The depth reported for a bucket is the number of configured filters with its
    type and hash. *)
Theorem bucket_depth_counts st L t h :
  sim st L -> FRC_ACL_SIP <= t <= FRC_ACL_DP -> 0 <= h < FRCORE_MAX_FILTERS ->
  exists total del, acl_get_one_hash_table t h st = Some (FRE_SUCCESS,
    Some (Z.of_nat (length (filter (fun e => acl_type e = t /\ hash e = h) L)), total, del), st).
Proof.
  intros H Ht Hh. unfold acl_get_one_hash_table. rewrite get_hash_table_ok by done.
  destruct (arr_get_is_Some (acl_hash_table st) (FRCORE_MAX_FILTERS * (t - 1) + h)) as [b Hb].
  { rewrite (r_blen _ _ _ H). unfold FRCORE_MAX_FILTERS, FRC_ACL_SIP, FRC_ACL_DP in *. lia. }
  rewrite Hb. cbn [mbind option_bind]. destruct (r_bucket _ _ _ H _ _ Hb) as [Hd ->].
  exists (u32 (total_cell b)), (u32 (del_cell b)). rewrite Hd, length_fmap.
  pose proof (sim_size crc _ _ H). pose proof (length_filter (fun e => bucket_of e = FRCORE_MAX_FILTERS * (t - 1) + h) L).
  rewrite wrapu_id by (simpl; lia). do 4 f_equal.
  enough (filter (fun e => bucket_of e = FRCORE_MAX_FILTERS * (t - 1) + h) L =
    filter (fun e => acl_type e = t /\ hash e = h) L) as -> by done.
  assert (forall e, e ∈ L -> filter_valid crc e) as HL by (intros e He; by destruct (r_in _ _ _ H _ He)).
  clear - HL Ht Hh. induction L as [|e L IH]; [done|]. rewrite !filter_cons.
  rewrite IH by (intros; apply HL; by right). apply decide_ext.
  destruct (HL e) as [_ _ Hte Hhe]; [by left|]. pose proof (acl_hash_range crc (one_tuple e) (proto e)).
  unfold bucket_of, FRCORE_MAX_FILTERS, FRC_ACL_SIP, FRC_ACL_DP in *. lia.
Qed.
End alone.

(** ** Packets and configuration at the same time *)

(** What a call of [acl_set_filter] is given. *)
Record filter_cfg : Type := FilterCfg {
  c_index : Z; c_one_tuple : Z; c_proto : Z; c_op : Z; c_action : Z; c_type : Z; c_source : Z }.

(** A packet of length [len] on its way: the values still to look up and the type of the
    first; found under [tag] and not counted; its bytes not counted; gone. *)
Inductive packet_phase : Type :=
| Looking (vs : list Z) (t p len : Z)
| Found (tag len : Z)
| Hit (tag len : Z)
| Done.

(** The tables, the call of [acl_set_filter] between its two locks, and the packets. *)
Record filter_sys : Type := FilterSys {
  tables : filter_state; pending : option filter_cfg; packets : list packet_phase }.

(** What a core does next: one section under one lock, or one atomic access. *)
Inductive filter_event : Type :=
| SetBegin (c : filter_cfg) | SetEnd | Delete (i : Z) | ClearHits (i : Z) | ClearBytes (i : Z)
| Arrive (x : mpp_tuple) (len : Z) | Advance (j : nat).

Section shared.
Variable crc : Z -> Z -> Z.
Abbreviation mk_filter := (mk_filter crc).

Definition set_end (c : filter_cfg) : filter_state -> option (Z * filter_state) :=
  acl_set_end crc (c_index c) (c_one_tuple c) (c_proto c) (c_op c) (c_action c) (c_type c) (c_source c).

Definition packet_turn (ph : packet_phase) (st : filter_state) : option (packet_phase * filter_state) :=
  match ph with
  | Looking [] _ _ _ | Done => Some (Done, st)
  | Looking (v :: vs) t p len =>
    '(r, st) ← lookup_one crc v t p st;
    Some (match r with Some tag => if tag =? 0 then Done else Found tag len
          | None => Looking vs (t + 1) p len end, st)
  | Found tag len => st ← filter_statistic_hit tag st; Some (Hit tag len, st)
  | Hit tag len => st ← filter_pkt_bytes_add tag len st; Some (Done, st)
  end.

Definition filter_exec (ev : filter_event) (s : filter_sys) : option filter_sys :=
  let '(FilterSys st pend pkts) := s in
  match ev with
  | SetBegin c =>
    '(rv, st) ← acl_set_begin (c_index c) (c_type c) st;
    Some (FilterSys st (if rv =? 0 then Some c else None) pkts)
  | SetEnd => c ← pend; '(_, st) ← set_end c st; Some (FilterSys st None pkts)
  | Delete i => '(_, st) ← acl_del_filter i st; Some (FilterSys st pend pkts)
  | ClearHits i => st ← filter_init_statistic_hit i st; Some (FilterSys st pend pkts)
  | ClearBytes i => st ← filter_init_pkt_bytes i st; Some (FilterSys st pend pkts)
  | Arrive x len => Some (FilterSys st pend
      (pkts ++ [Looking [sip x; dip x; sp x; dp x] FRC_ACL_SIP (tproto x) len]))
  | Advance j =>
    ph ← pkts !! j; '(ph, st) ← packet_turn ph st; Some (FilterSys st pend (<[j := ph]> pkts))
  end.

(** What may happen: a call that configures waits for the one before, counters are cleared
    inside the table, packets come and go on as they like. *)
Definition enabled (ev : filter_event) (s : filter_sys) : Prop :=
  match ev with
  | SetBegin _ | Delete _ => pending s = None
  | SetEnd => is_Some (pending s)
  | ClearHits i | ClearBytes i => ACL_INDEX_START <= i <= 2048
  | Arrive _ _ => True
  | Advance j => (j < length (packets s))%nat
  end.

Inductive filter_reach : list filter_event -> filter_sys -> Prop :=
| reach_init z : filter_reach [] (FilterSys (frcore_filter_init z) None [])
| reach_step evs s ev s' : filter_reach evs s -> enabled ev s -> filter_exec ev s = Some s' ->
    filter_reach (evs ++ [ev]) s'.

(** The filters the calls ask for, oldest first, without counts, and the call under way. *)
Definition ask (a : spec * option filter_cfg) (ev : filter_event) : spec * option filter_cfg :=
  let '(L, c) := a in
  match ev with
  | SetBegin c => if decide (params_ok (c_index c) (c_type c))
      then (spec_del (c_index c) L, Some c) else (L, None)
  | SetEnd => match c with
      | Some c => (L ++ [mk_filter (c_index c) (c_one_tuple c) (c_proto c) (c_op c) (c_action c)
          (c_type c) (c_source c)], None)
      | None => a
      end
  | Delete i => (if decide (ACL_INDEX_START <= i <= ACL_MAX) then spec_del i L else L, c)
  | _ => a
  end.

Definition asked (evs : list filter_event) : spec * option filter_cfg := foldl ask ([], None) evs.

Definition uncounted (L : spec) : spec := set_counters 0 0 <$> L.

Abbreviation weak := (sim_by crc (off := fun _ => True)).

(** The tag a packet found is an index of the table, the field it looks at is one of the four. *)
Definition phase_ok (ph : packet_phase) : Prop :=
  match ph with
  | Looking vs t _ _ => FRC_ACL_SIP <= t /\ t + Z.of_nat (length vs) <= FRC_ACL_DP + 1
  | Found tag _ | Hit tag _ => ACL_INDEX_START <= tag <= ACL_MAX
  | Done => True
  end.

Record sys_ok (evs : list filter_event) (s : filter_sys) (L : spec) : Prop := SysOk {
  y_sim : weak (tables s) L;
  y_asked : asked evs = (uncounted L, pending s);
  y_pending : forall c, pending s = Some c ->
    params_ok (c_index c) (c_type c) /\ c_index c ∉ index <$> L;
  y_packets : Forall phase_ok (packets s) }.

Lemma uncounted_del i L : uncounted (spec_del i L) = spec_del i (uncounted L).
Proof.
  unfold uncounted, spec_del. induction L as [|e L IH]; [done|].
  rewrite fmap_cons, !filter_cons. cbn [index set_counters]. case_decide; [|done].
  by rewrite fmap_cons, IH.
Qed.

Lemma uncounted_upd f i L : (forall e, exists n b, f e = set_counters n b e) ->
  uncounted (spec_upd f i L) = uncounted L.
Proof.
  intros Hf. unfold uncounted, spec_upd. rewrite <- list_fmap_compose. apply list_fmap_ext.
  intros ? e _. simpl. destruct (_ =? _); [|done]. by destruct (Hf e) as (n & b & ->).
Qed.

(** Clearing and counting, on any entry of the table. *)
Lemma count_any f i st L :
  weak st L -> ACL_INDEX_START <= i <= 2048 -> (forall e, exists n b, f e = set_counters n b e) ->
  exists st' L', filter_upd f i st = Some st' /\ weak st' L' /\ uncounted L' = uncounted L /\
    index <$> L' = index <$> L.
Proof.
  intros H Hi Hf. destruct (spec_upd_ok crc st L i f H Hi Hf) as (st' & E & H'); [by right|].
  exists st', (spec_upd f i L). split_and!; [done..|by apply uncounted_upd|].
  apply spec_upd_index. intros e. by destruct (Hf e) as (n & b & ->).
Qed.

Lemma packet_turn_ok ph st L :
  weak st L -> phase_ok ph ->
  exists ph' st' L', packet_turn ph st = Some (ph', st') /\ phase_ok ph' /\ weak st' L' /\
    uncounted L' = uncounted L /\ index <$> L' = index <$> L.
Proof.
  intros H. destruct ph as [[|v vs] t p len|tag len|tag len|]; cbn [packet_turn phase_ok]; intros Hp.
  - by exists Done, st, L.
  - rewrite length_cons in Hp.
    rewrite (lookup_one_spec crc st L) by (done || (unfold FRC_ACL_SIP, FRC_ACL_DP in *; lia)).
    cbn [mbind option_bind]. eexists _, st, L. split; [done|]. split; [|done].
    destruct (spec_match t v p L) as [r|] eqn:E; cbn [phase_ok]; [|lia].
    destruct (Z.eqb_spec r 0); [done|]. cbn [phase_ok]. apply (configured_range crc st L r H).
    apply spec_match_Some in E as (L1 & e & L2 & -> & <- & _).
    apply list_elem_of_fmap_2. rewrite elem_of_app, elem_of_cons. auto.
  - destruct (count_any (fun e => set_counters (u64 (pkt_num e + 1)) (pkt_bytes e) e) tag st L H)
      as (st' & L' & E & ?); [unfold ACL_MAX in *; lia|eauto|].
    unfold filter_statistic_hit. rewrite E. by exists (Hit tag len), st', L'.
  - destruct (count_any (fun e => set_counters (pkt_num e) (u64 (pkt_bytes e + len)) e) tag st L H)
      as (st' & L' & E & ?); [unfold ACL_MAX in *; lia|eauto|].
    unfold filter_pkt_bytes_add. rewrite E. by exists Done, st', L'.
  - by exists Done, st, L.
Qed.

Lemma asked_snoc evs ev : asked (evs ++ [ev]) = ask (asked evs) ev.
Proof. unfold asked. by rewrite foldl_app. Qed.

(** Every event that may happen is defined and keeps the invariant. *)
Lemma sys_step evs s L ev :
  sys_ok evs s L -> enabled ev s ->
  exists s' L', filter_exec ev s = Some s' /\ sys_ok (evs ++ [ev]) s' L'.
Proof.
  intros [H Ha Hc Hp] He. destruct s as [st pend pkts].
  destruct ev as [c| |i|i|i|x len|j]; cbn [tables pending packets enabled filter_exec] in *.
  - subst pend. destruct (decide (params_ok (c_index c) (c_type c))) as [Hk|Hk].
    + destruct (begin_spec crc st L _ _ H Hk) as (st' & -> & H'). cbn [mbind option_bind].
      eexists _, _. split; [done|]. split; [done| |intros ? [= <-]; split; [done|apply spec_del_notin]|done].
      rewrite asked_snoc, Ha. simpl. by rewrite decide_True, uncounted_del.
    + rewrite begin_refused by done. eexists _, L. split; [done|]. split; [done| |done..].
      rewrite asked_snoc, Ha. simpl. by rewrite decide_False.
  - destruct He as [c ->]. destruct (Hc c eq_refl) as [Hk Hni]. cbn [mbind option_bind].
    destruct (end_spec crc st L _ (c_one_tuple c) (c_proto c) (c_op c) (c_action c) _ (c_source c) H Hk Hni)
      as (e0 & st' & _ & _ & E & H').
    unfold set_end. rewrite E. eexists _, _. split; [done|]. split; [exact H'| |done..].
    rewrite asked_snoc, Ha. simpl. unfold uncounted. by rewrite fmap_app.
  - subst pend. destruct (decide (ACL_INDEX_START <= i <= ACL_MAX)) as [Hi|Hi].
    + destruct (del_filter_spec crc st L i H Hi) as (rv & st' & -> & H' & _).
      eexists _, _. split; [done|]. split; [exact H'| |done..].
      rewrite asked_snoc, Ha. simpl. by rewrite decide_True, uncounted_del.
    + rewrite del_refused by done. eexists _, L. split; [done|]. split; [done| |done..].
      rewrite asked_snoc, Ha. simpl. by rewrite decide_False.
  - destruct (count_any (fun e => set_counters 0 (pkt_bytes e) e) i st L H He)
      as (st' & L' & E & H' & Hu & Hx); [eauto|].
    unfold filter_init_statistic_hit. rewrite E. eexists _, L'. split; [done|].
    split; [done|by rewrite asked_snoc, Ha, Hu| |done]. by rewrite Hx.
  - destruct (count_any (fun e => set_counters (pkt_num e) 0 e) i st L H He)
      as (st' & L' & E & H' & Hu & Hx); [eauto|].
    unfold filter_init_pkt_bytes. rewrite E. eexists _, L'. split; [done|].
    split; [done|by rewrite asked_snoc, Ha, Hu| |done]. by rewrite Hx.
  - eexists _, L. split; [done|]. split; [done|by rewrite asked_snoc, Ha|done|].
    apply Forall_app. split; [done|]. by repeat constructor.
  - destruct (lookup_lt_is_Some_2 _ _ He) as [ph Hph]. rewrite Hph. cbn [mbind option_bind].
    destruct (packet_turn_ok ph st L H) as (ph' & st' & L' & -> & Hp' & H' & Hu & Hx).
    { by eapply Forall_lookup_1 in Hp. }
    eexists _, L'. split; [done|]. split; [done|by rewrite asked_snoc, Ha, Hu| |by apply Forall_insert].
    by rewrite Hx.
Qed.

(** C27: tables shared by a core that configures filters and cores that handle packets:
    the calls that configure come one after another (a call waits for the one before),
    and between any two sections under a lock or atomic accesses of any of them the
    others go on; clearing stays inside the table.  After every such run the
    tables hold exactly the filters asked for, oldest first, each in the table and once in
    the bucket of its hash, the buckets in that order, the number of filters and the free
    cells in agreement; whatever may happen next is defined, and a lookup of a
    field would find the first of these filters that matches.  Nothing is
    said of the counts: a packet that found a filter may count it after its
    deletion (see [late_hit]). *)
Theorem filter_reachable_sim evs s :
  filter_reach evs s ->
  exists L, sim_by crc (off := fun _ => True) (tables s) L /\
    asked evs = (uncounted L, pending s) /\
    (forall ev, enabled ev s -> is_Some (filter_exec ev s)) /\
    (forall v t p, FRC_ACL_SIP <= t <= FRC_ACL_DP ->
      lookup_one crc v t p (tables s) = Some (spec_match t v p L, tables s)).
Proof.
  intros Hr. assert (exists L, sys_ok evs s L) as [L Hs].
  { induction Hr as [z|evs s ev s' _ [L IH] He E].
    - exists []. split; [apply (sim_init crc (off := fun _ => True))|done..].
    - destruct (sys_step _ _ _ ev IH He) as (s2 & L' & E2 & H2). rewrite E in E2. injection E2 as ->.
      by exists L'. }
  exists L. pose proof Hs as [H Ha _ _]. split_and!; [done..| |].
  - intros ev He. destruct (sys_step _ _ _ ev Hs He) as (s' & _ & -> & _). done.
  - intros v t p Ht. by apply (lookup_one_spec crc _ L v t p H).
Qed.
End shared.

(** ** Concrete instances *)

Definition demo_crc (v p : Z) : Z := v + 7 * p.

(** A source-address and a destination-port filter, and a packet both match. *)
Definition demo_sip : TwoTupleFilter := mk_filter demo_crc 5 0x0A000001 6 0 0 FRC_ACL_SIP 0.
Definition demo_dp : TwoTupleFilter := mk_filter demo_crc 2 80 6 0 0 FRC_ACL_DP 0.
Definition demo_tuple : mpp_tuple := MppTuple 0x0A000001 0x0A000002 4000 80 6.

Lemma demo_params i t : 1 <= i <= 2000 -> 1 <= t <= 4 -> params_ok i t.
Proof. by split. Qed.

Lemma demo_sim : exists st, sim demo_crc st [demo_dp; demo_sip].
Proof.
  destruct (set_spec demo_crc _ [] 2 80 6 0 0 FRC_ACL_DP 0 (sim_init _ (off := no_count) (fun _ => 0))
    ltac:(apply demo_params; unfold FRC_ACL_DP; lia)) as (s1 & _ & H1).
  destruct (set_spec demo_crc s1 _ 5 0x0A000001 6 0 0 FRC_ACL_SIP 0 H1
    ltac:(apply demo_params; unfold FRC_ACL_SIP; lia)) as (s2 & _ & H2).
  by exists s2.
Qed.

Lemma set_filter_refines_witness : exists st st',
  acl_set_filter demo_crc 2 443 6 0 0 FRC_ACL_DP 0 st = Some (FRE_SUCCESS, st') /\
  sim demo_crc st' [demo_sip; mk_filter demo_crc 2 443 6 0 0 FRC_ACL_DP 0].
Proof.
  destruct demo_sim as [st H]. exists st.
  destruct (proj1 (set_filter_refines demo_crc st _ 2 443 6 0 0 FRC_ACL_DP 0 H)) as (st' & E & H').
  - apply demo_params; unfold FRC_ACL_DP; lia.
  - exists st'. split; [exact E|exact H'].
Defined.

Lemma del_filter_refines_witness : exists st st',
  acl_del_filter 5 st = Some (FRE_SUCCESS, st') /\ sim demo_crc st' [demo_dp] /\
  acl_del_filter 2001 st = Some (FRE_PARAM, st).
Proof.
  destruct demo_sim as [st H]. exists st.
  destruct (del_filter_refines demo_crc st _ 5 H) as [Hd _].
  destruct Hd as (rv & st' & E & H' & -> & _); [unfold ACL_INDEX_START, ACL_MAX; lia|].
  exists st'. split; [exact E|]. split; [exact H'|].
  apply (del_filter_refines demo_crc st _ 2001 H). unfold ACL_INDEX_START, ACL_MAX. lia.
Defined.

Lemma lookup_first_witness : exists st r,
  filter_lookup_by_tuple demo_crc demo_tuple st = Some (r, st) /\ r <> 0.
Proof.
  destruct demo_sim as [st H]. exists st.
  destruct (lookup_first demo_crc st _ demo_tuple H) as (r & E & Hz & _).
  exists r. split; [exact E|]. intros Hr. apply (proj1 Hz Hr demo_sip).
  - right; left.
  - split; reflexivity.
Defined.

(** A filter is configured, a packet finds it, the filter is deleted before the packet is
    counted, and another one is configured at its index. *)
Definition demo_cfg (i v t : Z) : filter_cfg := FilterCfg i v 6 0 0 t 0.
Definition demo_before : list filter_event :=
  [SetBegin (demo_cfg 5 0x0A000001 FRC_ACL_SIP); SetEnd; Arrive demo_tuple 74; Advance 0].
Definition demo_after : list filter_event :=
  [Delete 5; Advance 0; SetBegin (demo_cfg 5 80 FRC_ACL_DP); Arrive demo_tuple 90; Advance 0;
   Advance 1; Advance 1; SetEnd; Advance 1; Advance 1; ClearBytes 7].

#[local] Instance enabled_dec ev s : Decision (enabled ev s).
Proof. destruct ev; simpl; apply _. Defined.

(** One event after another, each when it may happen. *)
Definition filter_try (s : filter_sys) (ev : filter_event) : option filter_sys :=
  if decide (enabled ev s) then filter_exec demo_crc ev s else None.

Lemma filter_try_reach evs evs0 s s' :
  filter_reach demo_crc evs0 s -> foldM filter_try evs s = Some s' ->
  filter_reach demo_crc (evs0 ++ evs) s'.
Proof.
  revert evs0 s. induction evs as [|ev evs IH]; intros evs0 s H E; cbn [foldM] in E.
  { injection E as <-. by rewrite app_nil_r. }
  apply bind_Some in E as (s1 & E1 & E). unfold filter_try in E1. case_decide as He; [|done].
  rewrite cons_middle, (app_assoc evs0 [ev] evs). eapply IH; [|exact E]. by econstructor.
Qed.

Definition demo_start : filter_sys := FilterSys (frcore_filter_init (fun _ => 0)) None [].
Definition demo_end : filter_sys :=
  default demo_start (foldM filter_try (demo_before ++ demo_after) demo_start).

(** The late hit: the packet that found the deleted filter is counted in the
    entry, and the next filter at the index starts with its count. *)
Example late_hit : foldM filter_try (demo_before ++ demo_after) demo_start = Some demo_end /\
  filter_at (tables demo_end) 5 =
    Some (set_counters 1 74 (mk_filter demo_crc 5 80 6 0 0 FRC_ACL_DP 0)) /\
  packets demo_end = [Done; Found 5 90].
Proof. split; [|split]; vm_compute; reflexivity. Qed.

Lemma filter_reachable_sim_witness : exists L,
  filter_reach demo_crc (demo_before ++ demo_after) demo_end /\
  asked demo_crc (demo_before ++ demo_after) = (uncounted L, None) /\
  uncounted L = [mk_filter demo_crc 5 80 6 0 0 FRC_ACL_DP 0] /\
  is_Some (filter_exec demo_crc (Advance 1) demo_end).
Proof.
  assert (filter_reach demo_crc (demo_before ++ demo_after) demo_end) as Hr.
  { apply (filter_try_reach _ [] demo_start); [apply reach_init|apply late_hit]. }
  destruct (filter_reachable_sim demo_crc _ _ Hr) as (L & _ & Ha & Hd & _).
  assert (pending demo_end = None) as Hp by (vm_compute; reflexivity).
  exists L. split; [exact Hr|]. rewrite Hp in Ha. split; [exact Ha|]. split.
  - transitivity (fst (asked demo_crc (demo_before ++ demo_after))); [by rewrite Ha|vm_compute; reflexivity].
  - apply Hd. vm_compute. lia.
Defined.

Lemma set_get_roundtrip_witness : exists st st',
  acl_set_filter demo_crc 7 53 17 0 0 FRC_ACL_SP 0 st = Some (FRE_SUCCESS, st') /\
  acl_get_one_filter 7 st' = Some (FRE_SUCCESS, Some (mk_filter demo_crc 7 53 17 0 0 FRC_ACL_SP 0), st').
Proof.
  destruct demo_sim as [st H]. exists st.
  destruct (set_get_roundtrip demo_crc st _ 7 53 17 0 0 FRC_ACL_SP 0 H) as (st' & E & G & _).
  - apply demo_params; unfold FRC_ACL_SP; lia.
  - exists st'. split; [exact E|exact G].
Defined.

Lemma bucket_depth_counts_witness : exists st total del,
  acl_get_one_hash_table FRC_ACL_DP 122 st = Some (FRE_SUCCESS, Some (1, total, del), st).
Proof.
  destruct demo_sim as [st H]. exists st.
  destruct (bucket_depth_counts demo_crc st _ FRC_ACL_DP 122 H) as (total & del & E);
    [unfold FRC_ACL_SIP, FRC_ACL_DP; lia|unfold FRCORE_MAX_FILTERS; lia|].
  exists total, del. exact E.
Defined.
