(* ===== verification/TwoTuple.v ===== *)
(** * Two-tuple commands and packets: src/code/frcore/frcore_twotuple.c

    The command handlers over [Filter] and the packet path up to the record for
    the output FIFO, which has the layout of the one in [Rule].  A handler takes
    the fields of its [param] structure and returns its code, what it writes to
    [outbuf], and the state. *)

From stdpp Require Import list functions.
From S2P Require Import Prelude Bytes Rule Filter FilterProps.
#[local] Open Scope Z_scope.

Record acl_state : Type := AclState {
  acl_enable : Z;
  filters : filter_state;
  stat_acl_matched_pkts : Z; stat_acl_matched_bytes : Z;
  stat_acl_not_matched_pkts : Z; stat_acl_not_matched_bytes : Z;
  stat_acl_malformed_packet : Z }.

Definition with_filters (st : acl_state) (f : filter_state) : acl_state :=
  AclState (acl_enable st) f (stat_acl_matched_pkts st) (stat_acl_matched_bytes st)
    (stat_acl_not_matched_pkts st) (stat_acl_not_matched_bytes st) (stat_acl_malformed_packet st).

(** ** Commands *)

Definition frcore_cmd_acl_enable (enable : Z) (st : acl_state) : Z * acl_state :=
  (FRE_SUCCESS, AclState (u8 enable) (filters st) (stat_acl_matched_pkts st)
    (stat_acl_matched_bytes st) (stat_acl_not_matched_pkts st)
    (stat_acl_not_matched_bytes st) (stat_acl_malformed_packet st)).

Definition frcore_cmd_acl_status_get (st : acl_state) : Z * Z := (FRE_SUCCESS, acl_enable st).

(** [frc_acl_t] as the user sends it. *)
Record frc_acl_t : Type := FrcAcl {
  a_index : Z; a_one_tuple : Z; a_proto : Z; a_op : Z; a_action : Z; a_acl_type : Z;
  a_acl_source : Z; a_hash : Z }.

Section crc.
Variable crc : Z -> Z -> Z.

(** The code of [acl_set_filter] is not looked at. *)
Definition frcore_cmd_acl_add (a : frc_acl_t) (st : acl_state) : option (Z * acl_state) :=
  '(_, f) ← acl_set_filter crc (a_index a) (a_one_tuple a) (a_proto a) (a_op a)
    (a_action a) (a_acl_type a) (a_acl_source a) (filters st);
  Some (FRE_SUCCESS, with_filters st f).

(** One round of the deletion loops: [tagid + i] is passed as a [uint16_t]. *)
Definition acl_del_one (tagid : Z) (s : Z * Z * filter_state) (i : Z)
    : option (Z * Z * filter_state) :=
  let '(rv, num, f) := s in
  '(rv, f) ← acl_del_filter (u16 (tagid + i)) f;
  Some (rv, if rv =? 0 then u16 (num + 1) else num, f).

Definition frcore_cmd_acl_del (index num : Z) (st : acl_state) : option (Z * Z * acl_state) :=
  '(rv, n, f) ← foldM (acl_del_one (u16 index)) (seqZ 0 (s32 num)) (0, 0, filters st);
  Some (rv, n, with_filters st f).

Definition frcore_cmd_acl_clear_all (index num : Z) (st : acl_state)
    : option (Z * option Z * acl_state) :=
  let num_old := acl_get_filter_count (filters st) in
  '(_, _, f) ← foldM (acl_del_one (u16 index)) (seqZ 0 (s32 num)) (0, 0, filters st);
  if acl_get_filter_count f =? 0
  then Some (FRE_SUCCESS, Some num_old, with_filters st f)
  else Some (FRE_FAIL, None, with_filters st f).

(** One entry of [frc_acl_stat_out_t]: the filter and its counters. *)
Record frc_acl_stat_t : Type := FrcAclStat { st_acl : frc_acl_t; st_pkts : Z; st_bytes : Z }.

Definition acl_stat_of (tagid : Z) (e : TwoTupleFilter) : frc_acl_stat_t :=
  FrcAclStat (FrcAcl tagid (one_tuple e) (proto e) (op e) (action e) (acl_type e)
    (acl_source e) (hash e)) (pkt_num e) (pkt_bytes e).

(** The entries found so far fill the array of the answer in order. *)
Definition acl_stat_one (index : Z) (s : list frc_acl_stat_t * filter_state) (i : Z)
    : option (list frc_acl_stat_t * filter_state) :=
  let '(out, f) := s in
  let tagid := u16 (index + i) in
  '(rv, r, f) ← acl_get_one_filter tagid f;
  match r with
  | Some e =>
    _ ← guard_ub (Z.of_nat (length out) <? MAX_RULE);
    Some (out ++ [acl_stat_of tagid e], f)
  | None => Some (out, f)
  end.

Definition frcore_cmd_acl_stat_get (index num : Z) (st : acl_state)
    : option (Z * list frc_acl_stat_t * acl_state) :=
  '(out, f) ← foldM (acl_stat_one index) (seqZ 0 (s32 num)) ([], filters st);
  Some (FRE_SUCCESS, out, with_filters st f).

(** [frc_acl_hash_table_t]: hash, depth, cells added and deleted. *)
Record frc_acl_hash_t : Type := FrcAclHash {
  h_hash : Z; h_bucket_depth : Z; h_total_cell : Z; h_del_cell : Z }.

Definition acl_hash_one (acl_type index : Z) (s : list frc_acl_hash_t * filter_state) (i : Z)
    : option (list frc_acl_hash_t * filter_state) :=
  let '(out, f) := s in
  let tagid := u16 (index + i) in
  '(rv, r, f) ← acl_get_one_hash_table (u16 acl_type) tagid f;
  match r with
  | Some (depth, total, del) =>
    _ ← guard_ub (Z.of_nat (length out) <? MAX_RULE);
    Some (out ++ [FrcAclHash tagid depth total del], f)
  | None => Some (out, f)
  end.

Definition frcore_cmd_acl_hash_table_get (acl_type index num : Z) (st : acl_state)
    : option (Z * list frc_acl_hash_t * acl_state) :=
  '(out, f) ← foldM (acl_hash_one acl_type index) (seqZ 0 (s32 num)) ([], filters st);
  Some (FRE_SUCCESS, out, with_filters st f).

Definition frcore_cmd_acl_stat_clear (index num : Z) (st : acl_state)
    : option (Z * Z * acl_state) :=
  f ← foldM (fun f i => filter_init_filter_statistics (u16 (index + i)) f)
    (seqZ 0 (s32 num)) (filters st);
  Some (FRE_SUCCESS, u16 (Z.max 0 (s32 num)), with_filters st f).

Definition frcore_cmd_acl_get_num (st : acl_state) : Z * Z :=
  (FRE_SUCCESS, acl_get_filter_count (filters st)).

(** ** Packets *)

Definition tuple_of (p : rule_pkt) : mpp_tuple :=
  MppTuple (k_sip p) (k_dip p) (k_sp p) (k_dp p) (k_proto p).

Definition frcore_acl_process (p : rule_pkt) (st : acl_state)
    : option (rule_outcome * acl_state) :=
  if acl_enable st =? 0 then Some (Return 0, st) else
  if (k_proto p =? PROTO_TCP) && (k_tot_len p <? Z.shiftl (k_ihl p + k_doff p) 2) then
    Some (Return FRCORE_ACT_DROP,
      AclState (acl_enable st) (filters st) (stat_acl_matched_pkts st)
        (stat_acl_matched_bytes st) (stat_acl_not_matched_pkts st)
        (stat_acl_not_matched_bytes st) (u64 (stat_acl_malformed_packet st + 1)))
  else
  '(tag, f) ← filter_lookup_by_tuple crc (tuple_of p) (filters st);
  if negb (tag =? 0) then
    f ← filter_statistic_hit tag f;
    f ← filter_pkt_bytes_add tag (u16 (k_len p)) f;
    Some (ToFifo (submit_of tag p),
      AclState (acl_enable st) f
        (u64 (stat_acl_matched_pkts st + 1)) (u64 (stat_acl_matched_bytes st + k_len p))
        (stat_acl_not_matched_pkts st) (stat_acl_not_matched_bytes st)
        (stat_acl_malformed_packet st))
  else
    Some (Return 0,
      AclState (acl_enable st) f (stat_acl_matched_pkts st)
        (stat_acl_matched_bytes st) (u64 (stat_acl_not_matched_pkts st + 1))
        (u64 (stat_acl_not_matched_bytes st + k_len p)) (stat_acl_malformed_packet st)).

(** ** Deletion of a range *)

Abbreviation simf := (sim crc).

(** The configured filters whose index is outside the range. *)
Definition del_range (i n : Z) (L : spec) : spec :=
  filter (fun e => ~ (i <= Filter.index e < i + n /\ ACL_INDEX_START <= Filter.index e <= ACL_MAX)) L.

Lemma del_range_succ i n L :
  0 <= n -> ACL_INDEX_START <= i + n <= ACL_MAX ->
  del_range i (n + 1) L = spec_del (i + n) (del_range i n L).
Proof.
  intros Hn Hi. unfold del_range, spec_del. rewrite list_filter_filter.
  apply list_filter_iff. intros e. lia.
Qed.

Lemma del_range_out i n L :
  0 <= n -> ~ ACL_INDEX_START <= i + n <= ACL_MAX -> del_range i (n + 1) L = del_range i n L.
Proof. intros Hn Hi. apply list_filter_iff. intros e. lia. Qed.

Lemma acl_del_loop f L i n :
  simf f L -> 0 <= i -> 0 <= n -> i + n <= 2 ^ 16 ->
  exists rv f', foldM (acl_del_one i) (seqZ 0 n) (0, 0, f) =
      Some (rv, Z.of_nat (length L - length (del_range i n L)), f') /\ simf f' (del_range i n L).
Proof.
  intros H Hi Hn Hb. pose proof (sim_size _ _ _ H) as Hsz.
  destruct (for_seqZ (fun j '(rv, num, x) => simf x (del_range i j L) /\
      num = Z.of_nat (length L - length (del_range i j L))) (acl_del_one i) n (0, 0, f))
    as ([[rv num] x] & E & Hx & ->); [done| | |eauto].
  - replace (del_range i 0 L) with L; [split; [done|lia]|].
    unfold del_range. clear. induction L as [|e L IH]; [done|].
    rewrite filter_cons, decide_True by lia. by f_equal.
  - intros j [[rv num] x] Hj (Hx & ->). unfold acl_del_one.
    rewrite (wrapu_id 16 (i + j)) by lia.
    pose proof (length_filter (fun e => ~ (i <= Filter.index e < i + j /\
      ACL_INDEX_START <= Filter.index e <= ACL_MAX)) L) as Hle. fold (del_range i j L) in Hle.
    destruct (decide (ACL_INDEX_START <= i + j <= ACL_MAX)) as [Hr|Hr].
    + destruct (del_filter_spec _ x _ (i + j) Hx Hr) as (rv' & x' & -> & Hx' & -> & _). simpl.
      rewrite del_range_succ by lia. eexists. split; [done|]. split; [done|].
      case_bool_decide as Hin.
      * apply list_elem_of_fmap in Hin as (e & Ee & He). rewrite Ee.
        pose proof (spec_del_length _ e (r_nodup _ _ _ Hx) He). simpl.
        rewrite wrapu_id by (simpl; lia). lia.
      * simpl. by rewrite spec_del_id.
    + unfold acl_del_filter. destruct (_ || _) eqn:E; [|by apply index_check in E].
      simpl. eexists. split; [done|]. by rewrite del_range_out by lia.
Qed.

(** The start index is cut to 16 bits; an empty loop does not use it. *)
Lemma acl_loop_index f i n :
  0 <= i -> 0 <= n -> i + n <= 65536 ->
  foldM (acl_del_one (u16 i)) (seqZ 0 n) (0, 0, f) = foldM (acl_del_one i) (seqZ 0 n) (0, 0, f).
Proof.
  intros. destruct (decide (n = 0)) as [-> |]; [done|].
  rewrite (wrapu_id 16 i); [done|]. simpl. lia.
Qed.

(** The range deletion removes exactly the configured filters whose index lies in
    the range, keeps the others in order, and reports how many it removed. *)
Theorem acl_del_range i n st L :
  simf (filters st) L -> 0 <= i -> 0 <= n -> i + n <= 2 ^ 16 ->
  exists rv st', frcore_cmd_acl_del i n st =
      Some (rv, Z.of_nat (length L - length (del_range i n L)), st') /\
    simf (filters st') (del_range i n L).
Proof.
  intros H Hi Hn Hb. unfold frcore_cmd_acl_del. rewrite (wraps_id 32), acl_loop_index by (simpl in *; lia).
  destruct (acl_del_loop _ _ i n H Hi Hn Hb) as (rv & f' & -> & H'). simpl. by eexists _, _.
Qed.

Lemma filter_count_ok f L : simf f L -> acl_get_filter_count f = Z.of_nat (length L).
Proof.
  intros H. unfold acl_get_filter_count. rewrite (r_num _ _ _ H). pose proof (sim_size _ _ _ H).
  apply wrapu_id. simpl. lia.
Qed.

(** Clearing succeeds exactly when every configured index lies in the range: it then
    leaves no filter and returns how many there were; otherwise it fails after
    deleting those of the range. *)
Theorem acl_clear_all_spec i n st L :
  simf (filters st) L -> 0 <= i -> 0 <= n -> i + n <= 2 ^ 16 ->
  exists st', simf (filters st') (del_range i n L) /\
    frcore_cmd_acl_clear_all i n st =
      if bool_decide (del_range i n L = []) then Some (FRE_SUCCESS, Some (Z.of_nat (length L)), st')
      else Some (FRE_FAIL, None, st').
Proof.
  intros H Hi Hn Hb. unfold frcore_cmd_acl_clear_all.
  rewrite (wraps_id 32), acl_loop_index by (simpl in *; lia).
  destruct (acl_del_loop _ _ i n H Hi Hn Hb) as (rv & f' & -> & H'). simpl.
  rewrite (filter_count_ok _ _ H), (filter_count_ok _ _ H'). exists (with_filters st f').
  split; [done|]. by destruct (del_range i n L).
Qed.

(** The filter configured at an index. *)
Definition configured_at (L : spec) (i : Z) : option TwoTupleFilter :=
  for_ret (fun e => if Filter.index e =? i then Some e else None) L.

Lemma configured_at_spec f L i :
  simf f L -> 1 <= i <= 2048 ->
  acl_get_one_filter i f = Some (match configured_at L i with
    | Some e => (FRE_SUCCESS, Some (set_counters (u32 (pkt_num e)) (u32 (pkt_bytes e)) e), f)
    | None => (FRE_INIT, None, f) end).
Proof.
  intros H Hi. destruct (get_one_spec _ _ _ i H Hi) as [Hy Hn].
  destruct (configured_at L i) as [e|] eqn:E; unfold configured_at in E.
  - apply for_ret_Some in E as (L1 & x & L2 & -> & E & _).
    destruct (Z.eqb_spec (Filter.index x) i); [|done]. injection E as ->.
    apply Hy; [rewrite elem_of_app, elem_of_cons; auto|done].
  - apply Hn. intros (x & -> & Hx)%list_elem_of_fmap.
    pose proof (proj1 (for_ret_None _ _) E x Hx) as Hc. simpl in Hc. by rewrite Z.eqb_refl in Hc.
Qed.

(** The answers the statistics query should give. *)
Definition acl_answers (L : spec) (i n : Z) : list frc_acl_stat_t :=
  omap (fun j => (fun e => acl_stat_of (i + j) (set_counters (u32 (pkt_num e)) (u32 (pkt_bytes e)) e))
    <$> configured_at L (i + j)) (seqZ 0 n).

(** Inside the table the statistics query answers the configured filters of the range
    in index order when there are at most [MAX_RULE]; with one more it writes
    past the answer's array. *)
Theorem acl_stat_get_spec i n st L :
  simf (filters st) L -> 1 <= i -> 0 <= n -> i + n <= 2049 ->
  frcore_cmd_acl_stat_get i n st =
    if Z.of_nat (length (acl_answers L i n)) <=? MAX_RULE
    then Some (FRE_SUCCESS, acl_answers L i n, st) else None.
Proof.
  intros H Hi Hn Hb. unfold frcore_cmd_acl_stat_get, acl_answers. rewrite (wraps_id 32) by (simpl; lia).
  rewrite (collect_loop (fun out => (out, filters st)) (fun j => (fun e => acl_stat_of (i + j)
    (set_counters (u32 (pkt_num e)) (u32 (pkt_bytes e)) e)) <$> configured_at L (i + j)) MAX_RULE).
  - simpl. destruct (_ <=? _); [|done]. by destruct st.
  - intros out j Hj%elem_of_seqZ. unfold acl_stat_one. rewrite (wrapu_id 16) by (simpl; lia).
    rewrite (configured_at_spec _ L) by (done || lia). by destruct (configured_at L (i + j)).
  - done.
Qed.

(** A statistics query that starts at index 0 reads before the filter table. *)
Theorem acl_stat_get_zero_ub n st L :
  simf (filters st) L -> 0 < n < 2 ^ 31 -> frcore_cmd_acl_stat_get 0 n st = None.
Proof.
  intros H Hn. unfold frcore_cmd_acl_stat_get. rewrite (wraps_id 32) by (simpl in *; lia).
  rewrite seqZ_cons by lia. cbn [foldM]. assert (acl_stat_one 0 ([], filters st) 0 = None) as ->; [|done].
  unfold acl_stat_one. rewrite (get_one_ub crc _ L) by (done || (vm_compute; intuition discriminate)).
  done.
Qed.

(** The add command reports success whatever happens: parameters that
    [acl_set_filter] refuses leave the filters unchanged and still answer
    [FRE_SUCCESS]. *)
Theorem acl_add_reports_success a st L :
  simf (filters st) L -> exists st', frcore_cmd_acl_add a st = Some (FRE_SUCCESS, st') /\
    (~ params_ok (a_index a) (a_acl_type a) -> st' = st).
Proof.
  intros H. unfold frcore_cmd_acl_add.
  destruct (decide (params_ok (a_index a) (a_acl_type a))) as [Hp|Hp].
  - destruct (set_spec crc _ L _ (a_one_tuple a) (a_proto a) (a_op a) (a_action a)
      _ (a_acl_source a) H Hp) as (f & -> & _). by eexists.
  - unfold acl_set_filter. rewrite begin_refused by done. exists st. split; [by destruct st|done].
Qed.

(** With the switch on, a packet that is not malformed is submitted and counted, in
    the totals and at its filter, under the first filter that matches it, and
    counted as unmatched when there is none. *)
Theorem acl_process_verdict p st L :
  simf (filters st) L -> acl_enable st <> 0 ->
  (k_proto p = PROTO_TCP -> Z.shiftl (k_ihl p + k_doff p) 2 <= k_tot_len p) ->
  exists out st', frcore_acl_process p st = Some (out, st') /\
    let tag := spec_lookup (tuple_of p) L in
    (tag = 0 -> out = Return 0 /\ filters st' = filters st /\
       stat_acl_not_matched_pkts st' = u64 (stat_acl_not_matched_pkts st + 1)) /\
    (tag <> 0 -> out = ToFifo (submit_of tag p) /\
       simf (filters st') (spec_upd (count_packet (u16 (k_len p))) tag L) /\
       stat_acl_matched_pkts st' = u64 (stat_acl_matched_pkts st + 1) /\
       stat_acl_matched_bytes st' = u64 (stat_acl_matched_bytes st + k_len p)).
Proof.
  intros H Hen Hmal. unfold frcore_acl_process. rewrite (proj2 (Z.eqb_neq _ 0) Hen).
  assert ((k_proto p =? PROTO_TCP) && (k_tot_len p <? Z.shiftl (k_ihl p + k_doff p) 2) = false) as ->.
  { destruct (Z.eqb_spec (k_proto p) PROTO_TCP); [|done]. simpl. apply Z.ltb_ge. auto. }
  rewrite (lookup_spec _ _ _ _ H). cbn [mbind option_bind].
  destruct (Z.eqb_spec (spec_lookup (tuple_of p) L) 0) as [Ez|Ez]; cbn [negb].
  - eexists _, _. split; [done|]. simpl. by rewrite Ez.
  - destruct (count_spec _ _ _ _ (u16 (k_len p)) H (spec_lookup_elem _ _ Ez)) as (s1 & s2 & -> & E2 & H2).
    cbn [mbind option_bind]. rewrite E2. eexists _, _. split; [done|]. simpl. by split.
Qed.
End crc.

(** ** Concrete instances *)

Definition demo_state (f : filter_state) : acl_state := AclState 1 f 0 0 0 0 0.
Definition demo_pkt : rule_pkt :=
  RulePkt 0x0A000001 0x0A000002 4000 80 PROTO_TCP 5 60 5 1 1 74 0 34 40 1 2.

Lemma acl_del_range_witness : exists f rv st',
  frcore_cmd_acl_del 0 4 (demo_state f) = Some (rv, 1, st') /\ sim demo_crc (filters st') [demo_sip].
Proof.
  destruct demo_sim as [f H]. exists f.
  destruct (acl_del_range demo_crc 0 4 (demo_state f) _ H ltac:(lia) ltac:(lia) ltac:(lia))
    as (rv & st' & E & H').
  exists rv, st'. split; [exact E|exact H'].
Defined.

Lemma acl_clear_all_spec_witness : exists f st',
  frcore_cmd_acl_clear_all 1 2000 (demo_state f) = Some (FRE_SUCCESS, Some 2, st').
Proof.
  destruct demo_sim as [f H]. exists f.
  destruct (acl_clear_all_spec demo_crc 1 2000 (demo_state f) _ H ltac:(lia) ltac:(lia) ltac:(lia))
    as (st' & _ & E).
  exists st'. exact E.
Defined.

Lemma acl_stat_get_spec_witness : exists f,
  frcore_cmd_acl_stat_get 1 6 (demo_state f) =
    Some (FRE_SUCCESS, [acl_stat_of 2 demo_dp; acl_stat_of 5 demo_sip], demo_state f).
Proof.
  destruct demo_sim as [f H]. exists f.
  exact (acl_stat_get_spec demo_crc 1 6 (demo_state f) _ H ltac:(lia) ltac:(lia) ltac:(lia)).
Defined.

Lemma acl_stat_get_zero_ub_witness : exists f, frcore_cmd_acl_stat_get 0 4 (demo_state f) = None.
Proof.
  destruct demo_sim as [f H]. exists f.
  apply (acl_stat_get_zero_ub demo_crc 4 (demo_state f) _ H). lia.
Defined.

Lemma acl_add_reports_success_witness : exists f,
  frcore_cmd_acl_add demo_crc (FrcAcl 0 80 6 0 0 FRC_ACL_DP 0 0) (demo_state f) =
    Some (FRE_SUCCESS, demo_state f).
Proof.
  destruct demo_sim as [f H]. exists f.
  destruct (acl_add_reports_success demo_crc (FrcAcl 0 80 6 0 0 FRC_ACL_DP 0 0) (demo_state f) _ H)
    as (st' & E & Hst).
  rewrite E, Hst; [reflexivity|]. intros [Hi _]. unfold ACL_INDEX_START in Hi. simpl in Hi. lia.
Defined.

Lemma acl_process_verdict_witness : exists f st',
  frcore_acl_process demo_crc demo_pkt (demo_state f) = Some (ToFifo (submit_of 5 demo_pkt), st').
Proof.
  destruct demo_sim as [f H]. exists f.
  destruct (acl_process_verdict demo_crc demo_pkt (demo_state f) _ H) as (out & st' & E & _ & Hs).
  - discriminate.
  - intros _. vm_compute. discriminate.
  - destruct Hs as [-> _]; [vm_compute; discriminate|]. exists st'. exact E.
Defined.
