(* ===== verification/Ring.v ===== *)
(** * Descriptor rings between host and card: src/code/include/frc_dma.h

    The rings of block addresses of the simple-package and session channels.
    Indices and cells lie in memory as big-endian words, whatever the byte order
    of the processor that runs the code; a word of memory is modelled by its
    big-endian value.  [put_step] and [get_step] are the memory accesses of the
    two functions, one at a time; [spsc] interleaves a producer and a consumer. *)

From stdpp Require Import list.
From S2P Require Import Prelude.
#[local] Open Scope Z_scope.

(** ** Byte order *)

Inductive endian : Type := LE | BE.

Definition SWAP_8_BYTE (i : Z) : Z :=
  let byte s d := Z.shiftl (Z.land (Z.shiftr i s) 0xff) d in
  Z.lor (byte 0 56) (Z.lor (byte 8 48) (Z.lor (byte 16 40) (Z.lor (byte 24 32)
    (Z.lor (byte 32 24) (Z.lor (byte 40 16) (Z.lor (byte 48 8) (byte 56 0))))))).

(** What a processor loads from, and stores to, a word of memory. *)
Definition mem_load (e : endian) (m : Z) : Z := match e with BE => m | LE => SWAP_8_BYTE m end.
Definition mem_store (e : endian) (v : Z) : Z := match e with BE => v | LE => SWAP_8_BYTE v end.

Lemma testbit_byte i s d n :
  0 <= s -> 0 <= d -> 0 <= n ->
  Z.testbit (Z.shiftl (Z.land (Z.shiftr i s) 0xff) d) n =
  (d <=? n) && (n <? d + 8) && Z.testbit i (n - d + s).
Proof.
  intros Hs Hd Hn. rewrite Z.shiftl_spec by done.
  destruct (Z.leb_spec d n); simpl; [|by rewrite Z.testbit_neg_r by lia].
  change 0xff with (Z.ones 8). rewrite Z.land_spec, Z.shiftr_spec, Z.testbit_ones_nonneg by lia.
  rewrite andb_comm. f_equal. destruct (Z.ltb_spec (n - d) 8), (Z.ltb_spec n (d + 8)); done || lia.
Qed.

(** Bit [n] of the swapped word is the bit at the same place of the mirrored byte. *)
Lemma swap_testbit i n :
  0 <= n -> Z.testbit (SWAP_8_BYTE i) n =
    (n <? 64) && Z.testbit i (8 * (7 - n / 8) + n `mod` 8).
Proof.
  intros Hn. unfold SWAP_8_BYTE. rewrite !Z.lor_spec, !testbit_byte by lia.
  pose proof (Z.div_mod n 8 ltac:(lia)) as Hd. pose proof (Z.mod_pos_bound n 8 ltac:(lia)) as Hm.
  set (q := n / 8) in *. set (r := n `mod` 8) in *. clearbody q r. subst n.
  destruct (Z.ltb_spec (8 * q + r) 64) as [Hlt|Hge]; simpl.
  - assert (q = 0 \/ q = 1 \/ q = 2 \/ q = 3 \/ q = 4 \/ q = 5 \/ q = 6 \/ q = 7) as Hq by lia.
    destruct Hq as [->|[->|[->|[->|[->|[->|[->| ->]]]]]]];
      repeat (match goal with
      | |- context [?a <=? ?b] => destruct (Z.leb_spec a b); [|try lia]
      | |- context [?a <? ?b] => destruct (Z.ltb_spec a b); [|try lia]
      end; try lia; simpl); rewrite ?orb_false_r; f_equal; lia.
  - repeat match goal with
    | |- context [?a <? ?b] => destruct (Z.ltb_spec a b); [lia|]
    end.
    by rewrite !andb_false_r.
Qed.

Lemma swap_range i : 0 <= SWAP_8_BYTE i < 2 ^ 64.
Proof.
  assert (SWAP_8_BYTE i = Z.land (SWAP_8_BYTE i) (Z.ones 64)) as ->.
  { apply Z.bits_inj'. intros n Hn. rewrite Z.land_spec, swap_testbit, Z.testbit_ones_nonneg by lia.
    by destruct (n <? 64); rewrite ?andb_true_r, ?andb_false_r. }
  rewrite Z.land_ones by lia. by apply Z.mod_pos_bound.
Qed.

Lemma swap_swap i : SWAP_8_BYTE (SWAP_8_BYTE i) = u64 i.
Proof.
  apply Z.bits_inj'. intros n Hn. unfold wrapu. rewrite <- Z.land_ones by lia.
  rewrite swap_testbit, Z.land_spec, Z.testbit_ones_nonneg by lia.
  destruct (Z.ltb_spec n 64) as [Hlt|]; simpl; [|by rewrite andb_false_r].
  rewrite andb_true_r. pose proof (Z.div_mod n 8 ltac:(lia)) as Hd.
  pose proof (Z.mod_pos_bound n 8 ltac:(lia)). set (q := n / 8) in *. set (r := n `mod` 8) in *.
  rewrite swap_testbit by lia. rewrite (proj2 (Z.ltb_lt _ 64)) by lia. simpl.
  replace (8 * (7 - q) + r) with (r + (7 - q) * 8) by lia.
  rewrite Z.div_add, Z_mod_plus_full, Z.div_small, (Z.mod_small r) by lia. f_equal. lia.
Qed.

Lemma swap_u64 i : 0 <= i < 2 ^ 64 -> SWAP_8_BYTE (SWAP_8_BYTE i) = i.
Proof. intros. rewrite swap_swap. by apply wrapu_id. Qed.

(** ** The rings *)

Record ring : Type := Ring { m_widx : Z; m_ridx : Z; m_buff : list Z }.

(** The accessors of both ring types. *)
Definition simple_package_ring_ridx (e : endian) (r : ring) : Z :=
  match e with BE => mem_load BE (m_ridx r) | LE => SWAP_8_BYTE (mem_load LE (m_ridx r)) end.
Definition simple_package_ring_widx (e : endian) (r : ring) : Z :=
  match e with BE => mem_load BE (m_widx r) | LE => SWAP_8_BYTE (mem_load LE (m_widx r)) end.

(** A word as the code writes it: swapped by a little-endian processor. *)
Definition put_word (e : endian) (v : Z) : Z :=
  match e with LE => mem_store LE (SWAP_8_BYTE v) | BE => mem_store BE v end.
Definition get_word (e : endian) (m : Z) : Z :=
  match e with LE => SWAP_8_BYTE (mem_load LE m) | BE => mem_load BE m end.

Section ring.
(** The number of cells. *)
Variable N : Z.

(** The producer between two memory accesses of [__simple_package_ring_put]. *)
Inductive ppc : Type :=
| PIdle
| PRidx (v : Z)
| PWidx (v ridx : Z)
| PTest (v ridx widx : Z)
| PStore (v widx : Z)
| PDone (len : Z).

Definition put_step (e : endian) (r : ring) (pc : ppc) : option (ring * ppc) :=
  match pc with
  | PIdle => Some (r, PIdle)
  | PRidx v => Some (r, PWidx v (simple_package_ring_ridx e r))
  | PWidx v ridx => Some (r, PTest v ridx (simple_package_ring_widx e r))
  | PTest v ridx widx =>
    if (ridx <=? widx) && (u64 (widx - ridx) <? N) then
      i ← umod widx N;
      b ← arr_set (m_buff r) i (put_word e v);
      Some (Ring (m_widx r) (m_ridx r) b, PStore v (u64 (widx + 1)))
    else Some (r, PDone 0)
  | PStore _ widx => Some (Ring (put_word e widx) (m_ridx r) (m_buff r), PDone 1)
  | PDone len => Some (r, PDone len)
  end.

(** The consumer of [__simple_package_ring_get]. *)
Inductive cpc : Type :=
| CIdle
| CRidx
| CWidx (ridx : Z)
| CTest (ridx widx : Z)
| CStore (v ridx : Z)
| CDone (v : option Z).

Definition get_step (e : endian) (r : ring) (pc : cpc) : option (ring * cpc) :=
  match pc with
  | CIdle => Some (r, CIdle)
  | CRidx => Some (r, CWidx (simple_package_ring_ridx e r))
  | CWidx ridx => Some (r, CTest ridx (simple_package_ring_widx e r))
  | CTest ridx widx =>
    if (ridx <? widx) && (u64 (widx - ridx) <=? N) then
      i ← umod ridx N;
      m ← arr_get (m_buff r) i;
      Some (r, CStore (get_word e m) (u64 (ridx + 1)))
    else Some (r, CDone None)
  | CStore v ridx => Some (Ring (m_widx r) (put_word e ridx) (m_buff r), CDone (Some v))
  | CDone v => Some (r, CDone v)
  end.

(** The two functions, run without interference. *)
Definition ring_put (e : endian) (v : Z) (r : ring) : option (Z * ring) :=
  let ridx := simple_package_ring_ridx e r in
  let widx := simple_package_ring_widx e r in
  if (ridx <=? widx) && (u64 (widx - ridx) <? N) then
    i ← umod widx N;
    b ← arr_set (m_buff r) i (put_word e v);
    Some (1, Ring (put_word e (u64 (widx + 1))) (m_ridx r) b)
  else Some (0, r).

Definition ring_get (e : endian) (r : ring) : option (Z * option Z * ring) :=
  let ridx := simple_package_ring_ridx e r in
  let widx := simple_package_ring_widx e r in
  if (ridx <? widx) && (u64 (widx - ridx) <=? N) then
    i ← umod ridx N;
    m ← arr_get (m_buff r) i;
    Some (1, Some (get_word e m), Ring (m_widx r) (put_word e (u64 (ridx + 1))) (m_buff r))
  else Some (0, None, r).

Definition put_steps (e : endian) (s : option (ring * ppc)) : option (ring * ppc) :=
  '(r, pc) ← s; put_step e r pc.
Definition get_steps (e : endian) (s : option (ring * cpc)) : option (ring * cpc) :=
  '(r, pc) ← s; get_step e r pc.

Lemma put_runs e v r :
  put_steps e (put_steps e (put_steps e (put_steps e (Some (r, PRidx v))))) =
  '(len, r') ← ring_put e v r; Some (r', PDone len).
Proof.
  unfold ring_put. simpl. destruct (_ && _); [|done]. destruct (umod _ _) as [i|]; [|done].
  simpl. by destruct (arr_set _ _ _).
Qed.

Lemma get_runs e r :
  get_steps e (get_steps e (get_steps e (get_steps e (Some (r, CRidx))))) =
  '(_, v, r') ← ring_get e r; Some (r', CDone v).
Proof.
  unfold ring_get. simpl. destruct (_ && _); [|done]. destruct (umod _ _) as [i|]; [|done].
  simpl. by destruct (arr_get _ _).
Qed.

(** ** A producer and a consumer *)

(** The system: the ring, both processors, the values whose put has been
    published and those whose get has been acknowledged. *)
Record spsc : Type := Spsc { s_ring : ring; s_ppc : ppc; s_cpc : cpc; sent : list Z; recv : list Z }.

(** A value is published by the store of [widx] and consumed by the store of [ridx]. *)
Definition published (pc : ppc) (l : list Z) : list Z :=
  match pc with PStore v _ => l ++ [v] | _ => l end.
Definition consumed (pc : cpc) (l : list Z) : list Z :=
  match pc with CStore v _ => l ++ [v] | _ => l end.

Variables ep ec : endian.

Inductive spsc_step : spsc -> spsc -> Prop :=
| step_put r c s l v : 0 <= v < 2 ^ 64 ->
    spsc_step (Spsc r PIdle c s l) (Spsc r (PRidx v) c s l)
| step_producer r p c s l r' p' : put_step ep r p = Some (r', p') ->
    spsc_step (Spsc r p c s l) (Spsc r' p' c (published p s) l)
| step_put_return r c s l len : spsc_step (Spsc r (PDone len) c s l) (Spsc r PIdle c s l)
| step_get r p s l : spsc_step (Spsc r p CIdle s l) (Spsc r p CRidx s l)
| step_consumer r p c s l r' c' : get_step ec r c = Some (r', c') ->
    spsc_step (Spsc r p c s l) (Spsc r' p c' s (consumed c l))
| step_get_return r p s l v : spsc_step (Spsc r p (CDone v) s l) (Spsc r p CIdle s l).

(** An empty ring with any contents in its cells. *)
Inductive spsc_reachable : spsc -> Prop :=
| spsc_init b : Z.of_nat (length b) = N ->
    spsc_reachable (Spsc (Ring 0 0 b) PIdle CIdle [] [])
| spsc_next s s' : spsc_reachable s -> spsc_step s s' -> spsc_reachable s'.

(** The steps as a function of a schedule. *)
Inductive action : Type := APut (v : Z) | AProd | APutRet | AGet | ACons | AGetRet.

Definition act (a : action) (x : spsc) : option spsc :=
  let '(Spsc r p c s l) := x in
  match a, p, c with
  | APut v, PIdle, _ => if (0 <=? v) && (v <? 2 ^ 64) then Some (Spsc r (PRidx v) c s l) else None
  | AProd, _, _ => '(r', p') ← put_step ep r p; Some (Spsc r' p' c (published p s) l)
  | APutRet, PDone _, _ => Some (Spsc r PIdle c s l)
  | AGet, _, CIdle => Some (Spsc r p CRidx s l)
  | ACons, _, _ => '(r', c') ← get_step ec r c; Some (Spsc r' p c' s (consumed c l))
  | AGetRet, _, CDone _ => Some (Spsc r p CIdle s l)
  | _, _, _ => None
  end.

Fixpoint run (acts : list action) (x : spsc) : option spsc :=
  match acts with [] => Some x | a :: acts => y ← act a x; run acts y end.

Lemma act_step a x y : act a x = Some y -> spsc_step x y.
Proof.
  destruct x as [r p c s l]. destruct a as [v| | | | |]; cbn [act]; intros H.
  - destruct p, c; try done; (destruct (_ && _) eqn:E; [|done]; injection H as <-; zb; by constructor).
  - destruct (put_step ep r p) as [[r' p']|] eqn:E; [|done]. injection H as <-. by constructor.
  - destruct p, c; try done; injection H as <-; apply step_put_return.
  - destruct p, c; try done; injection H as <-; apply step_get.
  - destruct (get_step ec r c) as [[r' c']|] eqn:E; [|done]. injection H as <-. by constructor.
  - destruct p, c; try done; injection H as <-; apply step_get_return.
Qed.

Lemma run_reachable acts x y : spsc_reachable x -> run acts x = Some y -> spsc_reachable y.
Proof.
  revert x. induction acts as [|a acts IH]; intros x Hx; simpl; [by intros [= <-]|].
  destruct (act a x) as [z|] eqn:E; [|done]. simpl. apply IH. eapply spsc_next; [done|]. by apply act_step in E.
Qed.

(** What each processor knows between its accesses. *)
Definition ppc_inv (r : ring) (k w : Z) (pc : ppc) : Prop :=
  match pc with
  | PIdle | PDone _ => True
  | PRidx v => 0 <= v < 2 ^ 64
  | PWidx v ridx => 0 <= v < 2 ^ 64 /\ 0 <= ridx <= k
  | PTest v ridx widx => 0 <= v < 2 ^ 64 /\ 0 <= ridx <= k /\ widx = w
  | PStore v widx => 0 <= v < 2 ^ 64 /\ w - k < N /\ widx = u64 (w + 1) /\
      m_buff r !! Z.to_nat (w `mod` N) = Some v
  end.

Definition cpc_inv (sent : list Z) (k w : Z) (pc : cpc) : Prop :=
  match pc with
  | CIdle | CRidx | CDone _ => True
  | CWidx ridx => ridx = k
  | CTest ridx widx => ridx = k /\ widx <= w
  | CStore v ridx => k < w /\ ridx = k + 1 /\ sent !! Z.to_nat k = Some v
  end.

Record spsc_inv (x : spsc) : Prop := SpscInv {
  i_widx : m_widx (s_ring x) = Z.of_nat (length (sent x));
  i_ridx : m_ridx (s_ring x) = Z.of_nat (length (recv x));
  i_len : Z.of_nat (length (m_buff (s_ring x))) = N;
  i_room : Z.of_nat (length (recv x)) <= Z.of_nat (length (sent x)) <= Z.of_nat (length (recv x)) + N;
  i_recv : recv x = take (length (recv x)) (sent x);
  i_cells : forall i v, sent x !! i = Some v -> (length (recv x) <= i)%nat ->
    m_buff (s_ring x) !! Z.to_nat (Z.of_nat i `mod` N) = Some v;
  i_range : Forall (fun v => 0 <= v < 2 ^ 64) (sent x);
  i_ppc : ppc_inv (s_ring x) (Z.of_nat (length (recv x))) (Z.of_nat (length (sent x))) (s_ppc x);
  i_cpc : cpc_inv (sent x) (Z.of_nat (length (recv x))) (Z.of_nat (length (sent x))) (s_cpc x) }.

Lemma put_word_id e v : 0 <= v < 2 ^ 64 -> put_word e v = v.
Proof. intros. destruct e; [|done]. by apply swap_u64. Qed.

Lemma get_word_id e v : 0 <= v < 2 ^ 64 -> get_word e v = v.
Proof. intros. destruct e; [|done]. by apply swap_u64. Qed.

Lemma ridx_id e r : 0 <= m_ridx r < 2 ^ 64 -> simple_package_ring_ridx e r = m_ridx r.
Proof. apply (get_word_id e). Qed.

Lemma widx_id e r : 0 <= m_widx r < 2 ^ 64 -> simple_package_ring_widx e r = m_widx r.
Proof. apply (get_word_id e). Qed.

Lemma mod_ne i w : 0 < N -> w - N < i < w -> i `mod` N <> w `mod` N.
Proof.
  intros HN Hi E. pose proof (Z.div_mod i N ltac:(lia)). pose proof (Z.div_mod w N ltac:(lia)).
  assert (N * (w / N - i / N) = w - i) as Hd by lia.
  assert (0 < w / N - i / N < 1); [|lia]. split; nia.
Qed.

Hypothesis HN : 0 < N < 2 ^ 64.

(** The producer's step, on its part of the invariant. *)
Lemma producer_inv r p c s l r' p' :
  spsc_inv (Spsc r p c s l) -> put_step ep r p = Some (r', p') ->
  Z.of_nat (length (published p s)) < 2 ^ 64 -> spsc_inv (Spsc r' p' c (published p s) l).
Proof using HN.
  intros H E Hb. destruct H as [Hw Hk Hl Hr Hrecv Hc Hrg Hp Hcp]. cbn [s_ring sent recv s_ppc s_cpc] in *.
  assert (Z.of_nat (length s) < 2 ^ 64) as Hb' by (destruct p; simpl in Hb; rewrite ?length_app in Hb; simpl in *; lia).
  destruct p as [|v|v ridx|v ridx widx|v widx|len]; cbn [put_step] in E.
  - injection E as <- <-. by split.
  - injection E as <- <-. simpl in Hp. split; simpl; try done.
    rewrite ridx_id by lia. lia.
  - injection E as <- <-. simpl in Hp. split; simpl; try done.
    rewrite widx_id by lia. lia.
  - destruct Hp as (Hv & Hri & ->). destruct (_ && _) eqn:Et; [|injection E as <- <-; by split].
    zb. rewrite wrapu_id in * by (simpl; lia). unfold umod in E.
    rewrite (proj2 (Z.eqb_neq N 0)) in E by lia. simpl in E.
    pose proof (Z.mod_pos_bound (Z.of_nat (length s)) N ltac:(lia)) as Hm.
    rewrite arr_set_eq in E by lia. injection E as <- <-. rewrite put_word_id by done.
    split; cbn [s_ring sent recv s_ppc s_cpc m_widx m_ridx m_buff published]; try done.
    + by rewrite length_insert.
    + intros i x Hi Hle. pose proof (lookup_lt_Some _ _ _ Hi).
      rewrite list_lookup_insert_ne; [by apply Hc|].
      pose proof (Z.mod_pos_bound (Z.of_nat i) N ltac:(lia)).
      pose proof (mod_ne (Z.of_nat i) (Z.of_nat (length s)) ltac:(lia) ltac:(lia)). lia.
    + simpl. split_and!; try done; try lia. apply list_lookup_insert_eq. lia.
  - injection E as <- <-. destruct Hp as (Hv & Hroom & -> & Hcell). simpl published in *.
    rewrite length_app in Hb. cbn [length] in Hb.
    rewrite wrapu_id, put_word_id by (simpl; lia).
    split; cbn [s_ring sent recv s_ppc s_cpc m_widx m_ridx m_buff]; rewrite ?length_app; cbn [length]; try (done || lia).
    + rewrite take_app_le by lia. done.
    + intros i x Hi Hle. apply lookup_app_Some in Hi as [Hi|[Hle' Hi]]; [by apply Hc|].
      apply list_lookup_singleton_Some in Hi as [Hi <-]. by replace i with (length s) by lia.
    + apply Forall_app. by rewrite Forall_singleton.
    + destruct c; simpl in *; try done; try lia. split_and!; [lia|lia|]. apply lookup_app_l_Some. tauto.
  - injection E as <- <-. by split.
Qed.

Lemma consumer_inv r p c s l r' c' :
  spsc_inv (Spsc r p c s l) -> get_step ec r c = Some (r', c') ->
  Z.of_nat (length s) < 2 ^ 64 -> spsc_inv (Spsc r' p c' s (consumed c l)).
Proof using HN.
  intros H E Hb. destruct H as [Hw Hk Hl Hr Hrecv Hc Hrg Hp Hcp]. cbn [s_ring sent recv s_ppc s_cpc] in *.
  destruct c as [| |ridx|ridx widx|v ridx|v]; cbn [get_step] in E.
  - injection E as <- <-. by split.
  - injection E as <- <-. split; simpl; try done. rewrite ridx_id by lia. lia.
  - injection E as <- <-. simpl in Hcp. split; simpl; try done. rewrite widx_id by lia. lia.
  - destruct Hcp as (-> & Hwi). destruct (_ && _) eqn:Et; [|injection E as <- <-; by split].
    zb. unfold umod in E. rewrite (proj2 (Z.eqb_neq N 0)) in E by lia. simpl in E.
    destruct (lookup_lt_is_Some_2 s (length l)) as [x Hx]; [lia|].
    pose proof (Hc _ _ Hx ltac:(lia)) as Hcell.
    pose proof (Z.mod_pos_bound (Z.of_nat (length l)) N ltac:(lia)) as Hm.
    unfold arr_get in E. rewrite (proj2 (Z.leb_le 0 _)) in E by lia. rewrite Hcell in E. simpl in E.
    injection E as <- <-. rewrite Forall_lookup in Hrg. rewrite get_word_id by (by eapply Hrg).
    rewrite wrapu_id by (simpl; lia).
    split; simpl; try done; [by apply Forall_lookup|]. rewrite Nat2Z.id. split_and!; [lia|lia|done].
  - injection E as <- <-. destruct Hcp as (Hlt & -> & Hv). rewrite Nat2Z.id in Hv. simpl consumed.
    rewrite put_word_id by lia.
    split; cbn [s_ring sent recv s_ppc s_cpc m_widx m_ridx m_buff]; rewrite ?length_app; cbn [length]; try (done || lia).
    + rewrite Nat.add_1_r. rewrite (take_S_r _ _ v) by done. by rewrite <- Hrecv.
    + intros i x Hi Hle. apply Hc; [done|lia].
    + destruct p; simpl in *; try done; try lia.
      destruct Hp as (? & ? & ? & ?). split_and!; try done; lia.
  - injection E as <- <-. by split.
Qed.

Lemma spsc_step_inv x y :
  spsc_inv x -> spsc_step x y -> Z.of_nat (length (sent y)) < 2 ^ 64 -> spsc_inv y.
Proof using HN.
  intros H Hs Hb. destruct Hs as [r c s l v Hv|r p c s l r' p' E|r c s l len|r p s l|r p c s l r' c' E|r p s l v].
  - by destruct H; split.
  - by eapply producer_inv.
  - by destruct H; split.
  - by destruct H; split.
  - by eapply consumer_inv.
  - by destruct H; split.
Qed.

Lemma spsc_step_sent x y : spsc_step x y -> (length (sent x) <= length (sent y))%nat.
Proof.
  destruct 1; simpl; try lia. destruct p; simpl; rewrite ?length_app; lia.
Qed.

Lemma spsc_reachable_inv x :
  spsc_reachable x -> Z.of_nat (length (sent x)) < 2 ^ 64 -> spsc_inv x.
Proof using HN.
  induction 1 as [b Hb|x y Hx IH Hs]; intros Hlen.
  - split; simpl; by (done || lia).
  - pose proof (spsc_step_sent _ _ Hs). eapply spsc_step_inv; [apply IH; lia|done..].
Qed.

(** C19: Under any interleaving of one producer and one consumer, of either byte order,
    the values received are the first values sent, in order, and at most [N]
    are in flight. *)
Theorem spsc_fifo x :
  spsc_reachable x -> Z.of_nat (length (sent x)) < 2 ^ 64 ->
  recv x = take (length (recv x)) (sent x) /\
  Z.of_nat (length (recv x)) <= Z.of_nat (length (sent x)) <= Z.of_nat (length (recv x)) + N.
Proof using HN.
  intros H Hb. destruct (spsc_reachable_inv x H Hb). by split.
Qed.

(** No interleaving makes either processor access a cell outside the ring: the next
    access of both is always defined. *)
Theorem spsc_safe x :
  spsc_reachable x -> Z.of_nat (length (sent x)) < 2 ^ 64 ->
  is_Some (put_step ep (s_ring x) (s_ppc x)) /\ is_Some (get_step ec (s_ring x) (s_cpc x)).
Proof using HN.
  intros H Hb. destruct (spsc_reachable_inv x H Hb) as [_ _ Hl _ _ _ _ _ _].
  assert (forall i, exists j, umod i N = Some j /\ 0 <= j < Z.of_nat (length (m_buff (s_ring x)))) as Hi.
  { intros i. exists (i `mod` N). unfold umod. rewrite (proj2 (Z.eqb_neq N 0)), Hl by lia.
    split; [done|]. apply Z.mod_pos_bound. lia. }
  split.
  - destruct (s_ppc x) as [|v|v ridx|v ridx widx|v widx|len]; simpl; eauto.
    destruct (_ && _); [|eauto]. destruct (Hi widx) as (j & -> & Hj). simpl. rewrite arr_set_eq by done. simpl. eauto.
  - destruct (s_cpc x) as [| |ridx|ridx widx|v ridx|v]; simpl; eauto.
    destruct (_ && _); [|eauto]. destruct (Hi ridx) as (j & -> & Hj). simpl.
    destruct (arr_get_is_Some (m_buff (s_ring x)) j) as [m ->]; [done|]. simpl. eauto.
Qed.

(** *** The functions as operations on a bounded queue *)

(** [r] holds the queue [q]; [n] values have gone through it. *)
Definition ring_holds (r : ring) (q : list Z) (n : nat) : Prop :=
  exists s l, spsc_inv (Spsc r PIdle CIdle s l) /\ q = drop (length l) s /\ n = length s.

Lemma holds_length r q n : ring_holds r q n -> Z.of_nat (length q) <= N /\ (length q <= n)%nat.
Proof using HN.
  intros (s & l & [] & -> & ->). cbn [sent recv] in *. rewrite length_drop. lia.
Qed.

Lemma ring_put_spec v r q n :
  ring_holds r q n -> 0 <= v < 2 ^ 64 -> Z.of_nat n + 1 < 2 ^ 64 ->
  exists r', ring_put ep v r = Some (if Z.of_nat (length q) <? N then 1 else 0, r') /\
    ring_holds r' (if Z.of_nat (length q) <? N then q ++ [v] else q)
      (if Z.of_nat (length q) <? N then S n else n).
Proof using HN.
  intros (s & l & H & -> & ->) Hv Hb.
  pose proof H as [Hw Hk Hl Hr _ _ _ _ _]. cbn [s_ring sent recv] in *. rewrite length_drop.
  assert (spsc_inv (Spsc r (PTest v (Z.of_nat (length l)) (Z.of_nat (length s))) CIdle s l)) as H1
    by (destruct H; split; simpl in *; try done; lia).
  unfold ring_put. rewrite ridx_id, widx_id, Hw, Hk by lia.
  rewrite (proj2 (Z.leb_le _ _)), wrapu_id by (simpl; lia). simpl.
  replace (Z.of_nat (length s - length l)) with (Z.of_nat (length s) - Z.of_nat (length l)) by lia.
  destruct (Z.ltb_spec (Z.of_nat (length s) - Z.of_nat (length l)) N) as [Hlt|Hge].
  2: { eexists. split; [done|]. by exists s, l. }
  unfold umod. rewrite (proj2 (Z.eqb_neq N 0)) by lia. simpl.
  pose proof (Z.mod_pos_bound (Z.of_nat (length s)) N ltac:(lia)) as Hm.
  rewrite arr_set_eq by lia. simpl. eexists. split; [done|].
  exists (s ++ [v]), l. rewrite length_app. split; [|split; [|simpl; lia]].
  - assert (put_step ep r (PTest v (Z.of_nat (length l)) (Z.of_nat (length s))) =
      Some (Ring (m_widx r) (m_ridx r) (<[Z.to_nat (Z.of_nat (length s) `mod` N) := put_word ep v]> (m_buff r)),
        PStore v (u64 (Z.of_nat (length s) + 1)))) as E.
    { simpl. rewrite (proj2 (Z.leb_le _ _)), wrapu_id, (proj2 (Z.ltb_lt _ _)) by (simpl; lia).
      unfold umod. rewrite (proj2 (Z.eqb_neq N 0)) by lia. simpl. by rewrite arr_set_eq by lia. }
    apply (producer_inv _ _ _ _ _ _ _ H1) in E; [|simpl; lia].
    assert (Z.of_nat (length (s ++ [v])) < 2 ^ 64) as Hb' by (rewrite length_app; simpl; lia).
    pose proof (producer_inv _ _ _ _ _ _ _ E eq_refl Hb') as Hfin. by destruct Hfin; split.
  - by rewrite drop_app_le by lia.
Qed.

Lemma ring_get_spec r q n :
  ring_holds r q n -> Z.of_nat n < 2 ^ 64 ->
  exists r', ring_get ec r = Some (match q with [] => 0 | _ => 1 end, hd_error q, r') /\
    ring_holds r' (tail q) n.
Proof using HN.
  intros (s & l & H & -> & ->) Hb.
  pose proof H as [Hw Hk Hl Hr _ Hc Hrg _ _]. cbn [s_ring sent recv] in *.
  assert (spsc_inv (Spsc r PIdle (CTest (Z.of_nat (length l)) (Z.of_nat (length s))) s l)) as H1
    by (destruct H; split; simpl in *; try done; lia).
  unfold ring_get. rewrite ridx_id, widx_id, Hw, Hk by lia.
  destruct (drop (length l) s) as [|x q] eqn:Eq.
  - apply (f_equal length) in Eq. rewrite length_drop in Eq. simpl in Eq.
    rewrite (proj2 (Z.ltb_ge _ _)) by lia. simpl. eexists. split; [done|]. exists s, l. split; [done|].
    split; [|done]. symmetry. apply nil_length_inv. rewrite length_drop. lia.
  - assert (s !! length l = Some x) as Hx.
    { pose proof (lookup_drop s (length l) 0) as E0. rewrite Nat.add_0_r, Eq in E0. done. }
    pose proof (lookup_lt_Some _ _ _ Hx).
    rewrite (proj2 (Z.ltb_lt _ _)), wrapu_id, (proj2 (Z.leb_le _ N)) by (simpl; lia). simpl.
    unfold umod. rewrite (proj2 (Z.eqb_neq N 0)) by lia. simpl.
    pose proof (Z.mod_pos_bound (Z.of_nat (length l)) N ltac:(lia)) as Hm.
    pose proof (Hc _ _ Hx ltac:(lia)) as Hcell.
    assert (arr_get (m_buff r) (Z.of_nat (length l) `mod` N) = Some x) as Ea
      by (unfold arr_get; by rewrite (proj2 (Z.leb_le 0 _)) by lia).
    rewrite Ea. simpl. rewrite Forall_lookup in Hrg. pose proof (Hrg _ _ Hx).
    rewrite get_word_id by done. eexists. split; [done|].
    exists s, (l ++ [x]). split; [|split; [|done]].
    + assert (get_step ec r (CTest (Z.of_nat (length l)) (Z.of_nat (length s))) =
        Some (r, CStore x (u64 (Z.of_nat (length l) + 1)))) as E.
      { simpl. rewrite (proj2 (Z.ltb_lt _ _)), wrapu_id, (proj2 (Z.leb_le _ N)) by (simpl; lia).
        unfold umod. rewrite (proj2 (Z.eqb_neq N 0)) by lia. simpl. rewrite Ea. simpl.
        by rewrite get_word_id. }
      apply (consumer_inv _ _ _ _ _ _ _ H1) in E; [|done].
      pose proof (consumer_inv _ _ _ _ _ _ _ E eq_refl Hb) as Hfin. by destruct Hfin; split.
    + rewrite length_app. simpl. by rewrite <- drop_drop, Eq.
Qed.

(** On a ring holding a queue, a put by either processor appends its value unless
    [N] are there, which it reports with 0; a get by either one returns and
    removes the head, and reports an empty ring with 0. *)
Theorem ring_refines_queue r q n v :
  ring_holds r q n -> 0 <= v < 2 ^ 64 -> Z.of_nat n + 1 < 2 ^ 64 ->
  (exists r', ring_put ep v r = Some (if Z.of_nat (length q) <? N then 1 else 0, r') /\
     ring_holds r' (if Z.of_nat (length q) <? N then q ++ [v] else q)
       (if Z.of_nat (length q) <? N then S n else n)) /\
  (exists r', ring_get ec r = Some (match q with [] => 0 | _ => 1 end, hd_error q, r') /\
     ring_holds r' (tail q) n).
Proof using HN. intros H Hv Hb. split; [by apply ring_put_spec|]. apply ring_get_spec; [done|lia]. Qed.
End ring.

(** ** Bulk access

    The card moves several cells at once and advances an index afterwards. *)
Section bulk.
Context (N : Z) (HN : 0 < N < 2 ^ 64).

Definition word_ok (v : Z) : Prop := 0 <= v < 2 ^ 64.

(** [ring_holds], in terms of the memory of the ring. *)
Record holds (r : ring) (q : list Z) (n : nat) : Prop := Holds {
  h_widx : m_widx r = Z.of_nat n;
  h_ridx : m_ridx r = Z.of_nat n - Z.of_nat (length q);
  h_size : Z.of_nat (length (m_buff r)) = N;
  h_room : Z.of_nat (length q) <= N;
  h_past : (length q <= n)%nat;
  h_cells : forall i v, q !! i = Some v ->
    m_buff r !! Z.to_nat ((Z.of_nat n - Z.of_nat (length q) + Z.of_nat i) `mod` N) = Some v;
  h_words : Forall word_ok q }.

Lemma holds_iff r q n : ring_holds N r q n <-> holds r q n.
Proof using HN.
  split.
  - intros (s & l & [Hw Hr Hl Hroom _ Hc Hrg _ _] & -> & ->). cbn [s_ring sent recv] in *.
    split; rewrite ?length_drop; try (done || lia).
    + intros i v Hi. rewrite lookup_drop in Hi. apply Hc in Hi; [|lia]. rewrite <- Hi. do 3 f_equal. lia.
    + by apply Forall_drop.
  - intros [Hw Hr Hl Hroom Hp Hc Hrg].
    exists (replicate (n - length q) 0 ++ q), (replicate (n - length q) 0).
    rewrite drop_app_length, length_app, !length_replicate. split; [|split; [done|lia]].
    split; cbn [s_ring sent recv s_ppc s_cpc]; rewrite ?length_app, ?length_replicate; try (done || lia).
    + by rewrite take_app_length' by (by rewrite length_replicate).
    + intros i v Hi Hle. apply lookup_app_Some in Hi as [Hi|[_ Hi]].
      { apply lookup_lt_Some in Hi. rewrite length_replicate in Hi. lia. }
      rewrite length_replicate in Hi. apply Hc in Hi. rewrite <- Hi. do 3 f_equal. lia.
    + apply Forall_app. split; [apply Forall_replicate; simpl; lia|done].
Qed.

(** The consumer takes [k] values. *)
Lemma holds_drop w r b q n (k : nat) :
  holds (Ring w r b) q n -> (k <= length q)%nat -> holds (Ring w (r + Z.of_nat k) b) (drop k q) n.
Proof using HN.
  intros [Hw Hr Hl Hroom Hp Hc Hrg] Hk. split; simpl in *; rewrite ?length_drop; try (done || lia).
  - intros i v Hi. rewrite lookup_drop in Hi. apply Hc in Hi. rewrite <- Hi. do 3 f_equal. lia.
  - by apply Forall_drop.
Qed.

(** The producer's last [length p] values, not published. *)
Lemma holds_unpublish w r b q p n :
  holds (Ring w r b) (q ++ p) n -> holds (Ring (w - Z.of_nat (length p)) r b) q (n - length p).
Proof using HN.
  intros [Hw Hr Hl Hroom Hp Hc Hrg]. rewrite length_app in *. split; simpl in *; try (done || lia).
  - intros i v Hi. apply (lookup_app_l_Some _ p), Hc in Hi. rewrite <- Hi. do 3 f_equal. lia.
  - by apply Forall_app in Hrg as [? _].
Qed.

(** The cells from [ridx] on, up to the end of the array. *)
Lemma holds_read r q n off (len : nat) :
  holds r q n -> off = (m_ridx r) `mod` N -> off + Z.of_nat len <= N -> (len <= length q)%nat ->
  take len (drop (Z.to_nat off) (m_buff r)) = take len q.
Proof using HN.
  intros [Hw Hr Hl Hroom Hp Hc Hrg] -> Hoff Hlen.
  pose proof (Z.mod_pos_bound (m_ridx r) N ltac:(lia)) as Hm.
  apply list_eq. intros i. destruct (decide (i < len)%nat) as [Hi|Hi].
  - rewrite !lookup_take_lt by done. rewrite lookup_drop.
    destruct (lookup_lt_is_Some_2 q i ltac:(lia)) as [v Hv]. rewrite Hv. apply Hc in Hv. rewrite <- Hv.
    f_equal. rewrite <- Hr. rewrite <- Zplus_mod_idemp_l, (Z.mod_small (_ `mod` _ + _)) by lia. lia.
  - by rewrite !lookup_take_ge by lia.
Qed.

(** Cells written beyond [widx], up to the end of the array, leave the queue alone and
    extend it once [widx] covers them. *)
Lemma holds_write w r b q n ws off :
  holds (Ring w r b) q n -> off = w `mod` N -> off + Z.of_nat (length ws) <= N ->
  Z.of_nat (length q) + Z.of_nat (length ws) <= N -> Forall word_ok ws ->
  holds (Ring (w + Z.of_nat (length ws)) r
    (take (Z.to_nat off) b ++ ws ++ drop (Z.to_nat off + length ws) b)) (q ++ ws) (n + length ws).
Proof using HN.
  intros [Hw Hr Hl Hroom Hp Hc Hrg] -> Hoff Hfit Hws. simpl in *.
  pose proof (Z.mod_pos_bound w N ltac:(lia)) as Hm.
  assert (length (take (Z.to_nat (w `mod` N)) b) = Z.to_nat (w `mod` N)) as Ht by (rewrite length_take; lia).
  split; simpl; rewrite ?length_app, ?Ht, ?length_drop; try (done || lia).
  - intros i v Hi. apply lookup_app_Some in Hi as [Hi|[Hge Hi]].
    + pose proof (lookup_lt_Some _ _ _ Hi) as Hlt. pose proof (Hc _ _ Hi) as Hv.
      replace (Z.of_nat (n + length ws) - Z.of_nat (length q + length ws) + Z.of_nat i)
        with (Z.of_nat n - Z.of_nat (length q) + Z.of_nat i) by lia.
      set (x := Z.of_nat n - Z.of_nat (length q) + Z.of_nat i) in *.
      pose proof (Z.mod_pos_bound x N ltac:(lia)) as Hxm.
      assert (x `mod` N < w `mod` N \/ w `mod` N + Z.of_nat (length ws) <= x `mod` N) as [Hb|Ha].
      { destruct (Z.lt_ge_cases (x `mod` N) (w `mod` N)); [by left|right].
        pose proof (Z.div_mod x N ltac:(lia)). pose proof (Z.div_mod w N ltac:(lia)).
        assert (w / N - x / N = 1 \/ w / N - x / N <= 0) as [E|E] by (destruct (Z.le_gt_cases (w / N - x / N) 0); nia).
        - nia.
        - exfalso. nia. }
      * rewrite lookup_app_l by lia. rewrite lookup_take_lt by lia. done.
      * rewrite lookup_app_r by lia. rewrite lookup_app_r by lia. rewrite lookup_drop.
        rewrite <- Hv. f_equal. lia.
    + pose proof (lookup_lt_Some _ _ _ Hi) as Hlt.
      replace (Z.of_nat (n + length ws) - Z.of_nat (length q + length ws) + Z.of_nat i)
        with (w + (Z.of_nat i - Z.of_nat (length q))) by lia.
      rewrite <- Zplus_mod_idemp_l, Z.mod_small by lia.
      rewrite lookup_app_r by lia. rewrite lookup_app_l by lia. rewrite <- Hi. f_equal. lia.
  - by apply Forall_app.
Qed.

(** Neither index store of one side disturbs what the other relies on. *)
Lemma ring_put_frame e v r len r' :
  ring_put N e v r = Some (len, r') -> m_ridx r' = m_ridx r.
Proof.
  unfold ring_put. destruct (_ && _); [|by intros [= _ <-]].
  destruct (umod _ _); [|done]. simpl. destruct (arr_set _ _ _); [|done]. simpl. by intros [= _ <-].
Qed.

Lemma ring_get_frame e r len v r' :
  ring_get N e r = Some (len, v, r') -> m_widx r' = m_widx r /\ m_buff r' = m_buff r.
Proof.
  unfold ring_get. destruct (_ && _); [|by intros [= _ _ <-]].
  destruct (umod _ _); [|done]. simpl. destruct (arr_get _ _); [|done]. simpl. by intros [= _ _ <-].
Qed.
End bulk.

(** ** The rings of the two channel types *)

Definition FRC_DMA_SIMPLE_PACKAGE_RING_BUFF_SIZE : Z := 2 * 1024 * 10.
Definition FRC_DMA_SSN_RING_BUFF_SIZE : Z := 400896.

Definition __simple_package_ring_put := ring_put FRC_DMA_SIMPLE_PACKAGE_RING_BUFF_SIZE.
Definition __simple_package_ring_get := ring_get FRC_DMA_SIMPLE_PACKAGE_RING_BUFF_SIZE.
Definition __ssn_ring_put := ring_put FRC_DMA_SSN_RING_BUFF_SIZE.
Definition __ssn_ring_get := ring_get FRC_DMA_SSN_RING_BUFF_SIZE.

(** ** Concrete instances *)

Definition small_ring : ring := Ring 0 0 [7; 7; 7].

Lemma small_reachable : spsc_reachable 3 LE BE (Spsc small_ring PIdle CIdle [] []).
Proof. by constructor. Qed.

(** Two values are sent by a little-endian host and one is received by the card,
    the accesses of the get between those of the second put. *)
Definition small_schedule : list action :=
  [APut 10; AProd; AProd; AProd; AProd; APutRet; APut 20; AProd; AGet; ACons; AProd; ACons;
   AProd; ACons; AProd; ACons; AGetRet; APutRet].

Definition small_final : spsc := default (Spsc small_ring PIdle CIdle [] []) (run 3 LE BE small_schedule (Spsc small_ring PIdle CIdle [] [])).

Example small_final_eq :
  small_final = Spsc (Ring 2 1 [10; 20; 7]) PIdle CIdle [10; 20] [10].
Proof. vm_compute. reflexivity. Qed.

Lemma small_final_reachable : spsc_reachable 3 LE BE small_final.
Proof.
  apply (run_reachable 3 LE BE small_schedule _ small_final small_reachable). vm_compute. reflexivity.
Qed.

Lemma spsc_fifo_witness : recv small_final = take 1 (sent small_final).
Proof.
  exact (proj1 (spsc_fifo 3 LE BE ltac:(lia) small_final small_final_reachable ltac:(vm_compute; reflexivity))).
Defined.

Lemma spsc_safe_witness : is_Some (put_step 3 LE (s_ring small_final) (s_ppc small_final)).
Proof.
  exact (proj1 (spsc_safe 3 LE BE ltac:(lia) small_final small_final_reachable ltac:(vm_compute; reflexivity))).
Defined.

Lemma ring_refines_queue_witness : exists r r',
  ring_put 3 LE 30 (Ring 2 1 [10; 20; 7]) = Some (1, r) /\ ring_holds 3 r [20; 30] 3 /\
  ring_get 3 BE (Ring 2 1 [10; 20; 7]) = Some (1, Some 20, r') /\ ring_holds 3 r' [] 2.
Proof.
  assert (ring_holds 3 (Ring 2 1 [10; 20; 7]) [20] 2) as H.
  { exists [10; 20], [10]. split; [|by split].
    pose proof (spsc_reachable_inv 3 LE BE ltac:(lia) _ small_final_reachable ltac:(vm_compute; reflexivity)) as H.
    by rewrite small_final_eq in H. }
  destruct (ring_refines_queue 3 LE BE ltac:(lia) _ _ _ 30 H ltac:(lia) ltac:(lia))
    as [(r & Ep & Hp) (r' & Eg & Hg)].
  exists r, r'. split; [exact Ep|]. split; [exact Hp|]. split; [exact Eg|exact Hg].
Defined.
