(* ===== verification/Dma.v ===== *)
(** * Transfers between card and host: src/code/frcore/frcore_dma.c

    A transfer is cut into the pointers of requests to the DMA engine.  The
    engine is driven by the SDK: what becomes of each request, and the two limits of
    a request, are parameters.  A request that the SDK refuses transfers nothing.  A request
    whose completion word is not written within [DMA_WAIT_INTERVAL] looks is only reported
    on the console: the code answers success although nothing has been moved yet.  What the
    engine may still move after that is not followed. *)

From stdpp Require Import list.
From S2P Require Import Prelude.
#[local] Open Scope Z_scope.

(** The fate of a request: no completion word ([cvm_get_dma_comp_ptr] is
    [NULL]), an error of [cvm_pci_dma_recv_data] or [cvm_pci_dma_send_data], done, or
    taken by the engine but not done when the card stops waiting for the completion word. *)
Inductive outcome : Type := NoCompPtr | EngineError | Transferred | TimedOut.

(** Every request that the engine takes is done in time. *)
Definition timely (os : list outcome) : Prop := Forall (fun o => o <> TimedOut) os.

(** The fates of the coming requests; the later ones are done. *)
Abbreviation outcomes := (list outcome).
Definition next_outcome (os : outcomes) : outcome * outcomes :=
  match os with [] => (Transferred, []) | o :: os => (o, os) end.

(** A local address, a remote one, and a size. *)
Record dma_ptr : Type := DmaPtr { l_addr : Z; r_addr : Z; p_size : Z }.

Section dma.
Variables FRCORE_MAX_DMA_POINTERS MAX_PCI_DMA_LOCAL_BUF_SIZE : Z.

Definition FRCORE_DMA_BUFF_MAX : Z := FRCORE_MAX_DMA_POINTERS * MAX_PCI_DMA_LOCAL_BUF_SIZE.

(** The check of the sizes before a scattered request. *)
Definition size_bad (p : dma_ptr) : bool :=
  (p_size p =? 0) || (MAX_PCI_DMA_LOCAL_BUF_SIZE <? p_size p).

(** The answer; whether an error is counted in [stat_dma_errors]; whether [desc] has been
    moved, all of it or nothing. *)
Definition frcore_dma_scatter (desc : list dma_ptr) (os : outcomes) : Z * bool * bool * outcomes :=
  let number := Z.of_nat (length desc) in
  if number =? 0 then (FRE_PARAM, true, false, os)
  else if FRCORE_MAX_DMA_POINTERS <? number then (FRE_PARAM, true, false, os)
  else
    let '(o, os) := next_outcome os in
    match o with
    | NoCompPtr => (FRE_MEMORY, true, false, os)
    | _ =>
      if existsb size_bad desc then (FRE_PARAM, false, false, os)
      else
        match o with
        | EngineError => (FRE_DMA, true, false, os)
        | TimedOut => (0, false, false, os)
        | _ => (0, false, true, os)
        end
    end.

(** The pointers of a contiguous transfer: the loop [while (size)]. *)
Fixpoint gather_ptrs (fuel : nat) (size local remote : Z) : list dma_ptr :=
  match fuel with
  | O => []
  | S fuel =>
    if size =? 0 then []
    else
      let cur := if MAX_PCI_DMA_LOCAL_BUF_SIZE <? size then MAX_PCI_DMA_LOCAL_BUF_SIZE else size in
      DmaPtr local remote cur :: gather_ptrs fuel (size - cur) (u64 (local + cur)) (u64 (remote + cur))
  end.

(** One request: the answer and the pointers that have been moved. *)
Definition _frcore_dma_gather (size local remote : Z) (os : outcomes) : Z * list dma_ptr * outcomes :=
  if size =? 0 then (FRE_PARAM, [], os)
  else if FRCORE_DMA_BUFF_MAX <? size then (FRE_PARAM, [], os)
  else
    let '(o, os) := next_outcome os in
    match o with
    | NoCompPtr => (FRE_MEMORY, [], os)
    | EngineError => (FRE_DMA, [], os)
    | TimedOut => (0, [], os)
    | Transferred => (0, gather_ptrs (Z.to_nat size) size local remote, os)
    end.

(** A transfer of any size: the answer and what was moved. *)
Fixpoint gather_requests (fuel : nat) (size local remote : Z) (os : outcomes) :
    Z * list dma_ptr * outcomes :=
  match fuel with
  | O => (FRE_SUCCESS, [], os)
  | S fuel =>
    if size =? 0 then (FRE_SUCCESS, [], os)
    else
      let cur := if FRCORE_DMA_BUFF_MAX <? size then FRCORE_DMA_BUFF_MAX else size in
      let '(rv, ps, os) := _frcore_dma_gather cur local remote os in
      if rv =? 0 then
        let '(rv, ps', os) := gather_requests fuel (size - cur) (u64 (local + cur)) (u64 (remote + cur)) os in
        (rv, ps ++ ps', os)
      else (rv, [], os)
  end.

Definition frcore_dma_gather (local remote size : Z) (os : outcomes) : Z * list dma_ptr * outcomes :=
  gather_requests (Z.to_nat size) size local remote os.

(** ** What is moved *)

(** [ps] are, in order and without a gap, the pointers of the [n] bytes from [l] and [r]. *)
Fixpoint tiles (l r n : Z) (ps : list dma_ptr) : Prop :=
  match ps with
  | [] => n = 0
  | p :: ps => l_addr p = l /\ r_addr p = r /\ 0 < p_size p <= MAX_PCI_DMA_LOCAL_BUF_SIZE /\
      tiles (l + p_size p) (r + p_size p) (n - p_size p) ps
  end.

Definition moved_bytes (ps : list dma_ptr) : Z := foldr (fun p n => p_size p + n) 0 ps.

Lemma tiles_app l r n m ps qs :
  tiles l r n ps -> tiles (l + n) (r + n) m qs -> tiles l r (n + m) (ps ++ qs).
Proof.
  revert l r n. induction ps as [|p ps IH]; intros l r n; simpl.
  - intros ->. by rewrite !Z.add_0_r.
  - intros (-> & -> & Hp & Ht) Hq. split_and!; try done; try lia.
    replace (n + m - p_size p) with (n - p_size p + m) by lia. apply IH; [done|].
    replace (l + p_size p + (n - p_size p)) with (l + n) by lia.
    by replace (r + p_size p + (n - p_size p)) with (r + n) by lia.
Qed.

Hypothesis Hptr : 0 < FRCORE_MAX_DMA_POINTERS.
Hypothesis Hbuf : 0 < MAX_PCI_DMA_LOCAL_BUF_SIZE.

Lemma gather_ptrs_tiles fuel size l r :
  0 <= size -> (Z.to_nat size <= fuel)%nat ->
  0 <= l -> l + size < 2 ^ 64 -> 0 <= r -> r + size < 2 ^ 64 ->
  tiles l r size (gather_ptrs fuel size l r).
Proof using Hbuf.
  revert size l r. induction fuel as [|fuel IH]; intros size l r Hs Hf Hl Hl' Hr Hr'; simpl; [lia|].
  destruct (Z.eqb_spec size 0) as [->|]; simpl; [done|].
  set (cur := if _ <? _ then _ else _).
  assert (0 < cur <= size /\ cur <= MAX_PCI_DMA_LOCAL_BUF_SIZE) as Hc
    by (unfold cur; destruct (Z.ltb_spec MAX_PCI_DMA_LOCAL_BUF_SIZE size); lia).
  split_and!; try done; try lia. rewrite !wrapu_id by lia. apply IH; lia.
Qed.

(** The arrays of pointers of a request are never overrun. *)
Lemma gather_ptrs_length fuel size l r (k : nat) :
  0 <= size <= Z.of_nat k * MAX_PCI_DMA_LOCAL_BUF_SIZE -> (length (gather_ptrs fuel size l r) <= k)%nat.
Proof using Hbuf.
  revert size l r k. induction fuel as [|fuel IH]; intros size l r k Hs; simpl; [lia|].
  destruct (Z.eqb_spec size 0); simpl; [lia|]. destruct k as [|k]; [lia|].
  apply le_n_S, IH. destruct (Z.ltb_spec MAX_PCI_DMA_LOCAL_BUF_SIZE size); nia.
Qed.

Lemma next_timely os o os' : timely os -> next_outcome os = (o, os') -> o <> TimedOut /\ timely os'.
Proof. destruct os; simpl; intros H [= <- <-]; [done|]. by apply Forall_cons in H. Qed.

Lemma gather_one size l r os rv ps os' :
  0 < size <= FRCORE_DMA_BUFF_MAX -> 0 <= l -> l + size < 2 ^ 64 -> 0 <= r -> r + size < 2 ^ 64 ->
  timely os -> _frcore_dma_gather size l r os = (rv, ps, os') ->
  timely os' /\ if rv =? 0 then tiles l r size ps /\ Z.of_nat (length ps) <= FRCORE_MAX_DMA_POINTERS else ps = [].
Proof using Hptr Hbuf.
  intros Hs Hl Hl' Hr Hr' Ht. unfold _frcore_dma_gather.
  rewrite (proj2 (Z.eqb_neq size 0)), (proj2 (Z.ltb_ge _ _)) by lia.
  destruct (next_outcome os) as [o os1] eqn:Eo. apply next_timely in Eo as [Ho Hos]; [|done].
  destruct o; intros [= <- <- <-]; simpl; (split; [done|]); [done..| |done].
  split; [by apply gather_ptrs_tiles; lia|].
  pose proof (gather_ptrs_length (Z.to_nat size) size l r (Z.to_nat FRCORE_MAX_DMA_POINTERS)) as H.
  unfold FRCORE_DMA_BUFF_MAX in Hs. rewrite Z2Nat.id in H by lia. specialize (H ltac:(lia)). lia.
Qed.

(** A transfer of at most [FRCORE_DMA_BUFF_MAX] bytes is one request: it moves all or nothing. *)
Lemma gather_single size l r os :
  0 < size <= FRCORE_DMA_BUFF_MAX ->
  frcore_dma_gather l r size os = _frcore_dma_gather size l r os.
Proof using Hptr Hbuf.
  intros Hs. unfold frcore_dma_gather. destruct (Z.to_nat size) as [|fuel] eqn:Ef; [lia|]. simpl.
  rewrite (proj2 (Z.eqb_neq size 0)), (proj2 (Z.ltb_ge FRCORE_DMA_BUFF_MAX size)) by lia.
  destruct (_frcore_dma_gather size l r os) as [[rv ps] os'] eqn:E. destruct (Z.eqb_spec rv 0) as [->|].
  - destruct fuel; cbn [gather_requests]; rewrite ?Z.sub_diag; simpl; by rewrite app_nil_r.
  - unfold _frcore_dma_gather in E. rewrite (proj2 (Z.eqb_neq size 0)), (proj2 (Z.ltb_ge _ _)) in E by lia.
    destruct (next_outcome os) as [[] ?]; injection E as <- <- <-; done.
Qed.

Lemma gather_requests_spec fuel size l r os rv ps os' :
  0 <= size -> (Z.to_nat size <= fuel)%nat ->
  0 <= l -> l + size < 2 ^ 64 -> 0 <= r -> r + size < 2 ^ 64 ->
  timely os -> gather_requests fuel size l r os = (rv, ps, os') ->
  exists n, 0 <= n <= size /\ tiles l r n ps /\ (rv = FRE_SUCCESS <-> n = size).
Proof using Hptr Hbuf.
  revert size l r os rv ps os'. induction fuel as [|fuel IH]; intros size l r os rv ps os' Hs Hf Hl Hl' Hr Hr' Ho; simpl.
  { intros [= <- <- <-]. exists 0. by split_and!; (lia || done || split; intros; lia). }
  destruct (Z.eqb_spec size 0) as [->|]; [intros [= <- <- <-]; exists 0; by split_and!|].
  assert (0 < FRCORE_DMA_BUFF_MAX) by (unfold FRCORE_DMA_BUFF_MAX; nia).
  set (cur := if _ <? _ then _ else _).
  assert (0 < cur <= size /\ cur <= FRCORE_DMA_BUFF_MAX) as Hc
    by (unfold cur; destruct (Z.ltb_spec FRCORE_DMA_BUFF_MAX size); lia).
  clearbody cur. destruct (_frcore_dma_gather cur l r os) as [[rv1 ps1] os1] eqn:E1.
  apply gather_one in E1; [|lia..|done]. destruct E1 as [Ho1 E1]. destruct (Z.eqb_spec rv1 0) as [->|Hne].
  - destruct E1 as [E1 _]. destruct (gather_requests fuel _ _ _ _) as [[rv2 ps2] os2] eqn:E2.
    rewrite !wrapu_id in E2 by lia. apply IH in E2; [|lia..|done]. destruct E2 as (m & Hm & Ht & Hrv).
    intros [= <- <- <-]. exists (cur + m). split_and!; [lia|lia|by apply tiles_app|lia].
  - intros [= <- <- <-]. exists 0. split_and!; done || lia.
Qed.

(** A transfer of which no request runs out of time cuts its range, from the start and without gaps or overlaps, into
    pointers of legal sizes; it answers success exactly when the whole range was moved,
    and a prefix of it was moved otherwise. *)
Theorem dma_gather_moves size l r os rv ps os' :
  0 <= size -> 0 <= l -> l + size < 2 ^ 64 -> 0 <= r -> r + size < 2 ^ 64 ->
  timely os -> frcore_dma_gather l r size os = (rv, ps, os') ->
  exists n, 0 <= n <= size /\ tiles l r n ps /\ (rv = FRE_SUCCESS <-> n = size).
Proof using Hptr Hbuf. intros Hs Hl Hl' Hr Hr' Ht. by apply gather_requests_spec. Qed.

Lemma gather_ptrs_moved fuel size l r :
  0 <= size -> (Z.to_nat size <= fuel)%nat -> moved_bytes (gather_ptrs fuel size l r) = size.
Proof using Hbuf.
  revert size l r. induction fuel as [|fuel IH]; intros size l r Hs Hf; simpl; [unfold moved_bytes; simpl; lia|].
  destruct (Z.eqb_spec size 0) as [->|]; [done|]. unfold moved_bytes in *. cbn [foldr p_size].
  destruct (Z.ltb_spec MAX_PCI_DMA_LOCAL_BUF_SIZE size); rewrite IH; lia.
Qed.

(** What a single request answers and moves when it is in time. *)
Lemma gather_single_timely size l r os :
  0 < size <= FRCORE_DMA_BUFF_MAX -> timely os ->
  let '(rv, ps, _) := frcore_dma_gather l r size os in
  rv = 0 /\ moved_bytes ps = size \/ rv <> 0 /\ ~ Forall (eq Transferred) os.
Proof using Hptr Hbuf.
  intros Hs Ht. rewrite gather_single by done. unfold _frcore_dma_gather.
  rewrite (proj2 (Z.eqb_neq size 0)), (proj2 (Z.ltb_ge _ _)) by lia.
  destruct os as [|o os]; simpl; [left; split; [done|apply gather_ptrs_moved; lia]|].
  apply Forall_cons in Ht as [Ht _]. destruct o; [right..|left|done].
  1-2: split; [done|]; intros Hc; by apply Forall_cons in Hc as [? _].
  split; [done|apply gather_ptrs_moved; lia].
Qed.

(** A scattered request of sound pointers moves everything when the engine takes it and is in
    time, and answers success also when it is not in time. *)
Lemma scatter_ok desc os :
  0 < Z.of_nat (length desc) <= FRCORE_MAX_DMA_POINTERS -> existsb size_bad desc = false ->
  frcore_dma_scatter desc os =
    (match (next_outcome os).1 with
    | NoCompPtr => (FRE_MEMORY, true, false)
    | EngineError => (FRE_DMA, true, false)
    | Transferred => (0, false, true)
    | TimedOut => (0, false, false)
    end, (next_outcome os).2).
Proof.
  intros Hl Hs. unfold frcore_dma_scatter.
  rewrite (proj2 (Z.eqb_neq _ 0)), (proj2 (Z.ltb_ge _ _)) by lia.
  destruct (next_outcome os) as [[] ?]; rewrite ?Hs; done.
Qed.
End dma.

(** ** A concrete instance *)

Example gather_pieces :
  frcore_dma_gather 2 8 100 1000 36 [] =
    (0, [DmaPtr 100 1000 8; DmaPtr 108 1008 8; DmaPtr 116 1016 8; DmaPtr 124 1024 8; DmaPtr 132 1032 4], []).
Proof. vm_compute. reflexivity. Qed.

Lemma dma_gather_moves_witness : exists n, 0 <= n <= 36 /\
  tiles 8 100 1000 n [DmaPtr 100 1000 8; DmaPtr 108 1008 8] /\ (FRE_DMA = FRE_SUCCESS <-> n = 36).
Proof.
  apply (dma_gather_moves 2 8 ltac:(lia) ltac:(lia) 36 100 1000 [Transferred; EngineError] FRE_DMA _ []); try lia.
  - repeat constructor; discriminate.
  - vm_compute. reflexivity.
Defined.

(** A transfer that runs out of time answers success and has moved nothing. *)
Example gather_late : frcore_dma_gather 2 8 100 1000 16 [TimedOut] = (FRE_SUCCESS, [], []).
Proof. reflexivity. Qed.
