(* ===== verification/Chan.v ===== *)
(** * The simple-package channels: src/code/frcore/frcore_chan.c

    A channel carries records from the FIFOs of the card's cores into blocks of host
    memory: a core takes free blocks from the available ring, copies its records
    into them and puts the blocks on the completed ring.  The card reaches the
    rings, structures of the host, only by DMA transfers.  Before every transfer
    the host may run: [script] says what it does and what becomes of the transfer.  The
    transfers of the rings are at most [FRCORE_DMA_BUFF_MAX] bytes, so they move
    all or nothing.  Spin locks are left out: a core's operations are atomic with
    respect to the other cores, not to the host. *)

From stdpp Require Import list functions.
From S2P Require Import Prelude Ring Dma.
#[local] Open Scope Z_scope.

(** ** Constants of frc_dma.h, frcore_dma.h and frcore_defs.h *)
Definition RING_BUFF_CELL_SIZE : Z := 8.
Definition FRC_DMA_OFFSET : Z := 40.
Definition FRC_DMA_SIMPLE_PACKAGE_BLOCK_SIZE : Z := 2 * 1024.
Definition FRC_DMA_SIMPLE_PACKAGE_DATA_SIZE : Z := FRC_DMA_SIMPLE_PACKAGE_BLOCK_SIZE - FRC_DMA_OFFSET.
Definition FRC_DMA_POOL_SIZE : Z := 4096 * 1024.
Definition sizeof_frc_dma_hdr_t : Z := 40.
Definition sizeof_frc_dma_pkt_info_t : Z := 32.
Definition DMA_CHANNEL_REST_DIV : Z := 10.

(** ** Data *)

(** A ring as the card addresses it: [widx], [ridx], then the cells. *)
Definition ring_word (r : ring) (o : Z) : option Z :=
  if o =? 0 then Some (m_widx r) else if o =? 8 then Some (m_ridx r)
  else if (16 <=? o) && ((o - 16) `mod` 8 =? 0) then arr_get (m_buff r) ((o - 16) / 8) else None.

Definition set_ring_word (r : ring) (o v : Z) : option ring :=
  if o =? 0 then Some (Ring v (m_ridx r) (m_buff r))
  else if o =? 8 then Some (Ring (m_widx r) v (m_buff r))
  else if (16 <=? o) && ((o - 16) `mod` 8 =? 0)
  then b ← arr_set (m_buff r) ((o - 16) / 8) v; Some (Ring (m_widx r) (m_ridx r) b) else None.

(** The host: [frc_dma_simple_package_chan_ctrl_t] at address [ctrl], the contents of
    the blocks by the address of their data, the blocks the application holds;
    the addresses put so far and the blocks received, with their contents. *)
Record host : Type := Host {
  ctrl : Z; available_ring : ring; completed_ring : ring; blocks : gmap Z (list Z);
  held : list Z; puts : list Z; received : list (Z * list Z) }.

(** [frcore_simple_package_chan_t] *)
Record simple_chan : Type := Chan {
  ctrl_addr : Z; avail_widx : Z; avail_ridx : Z; compl_widx : Z; compl_ridx : Z }.

(** [frcore_simple_package_fifo_cell_t] *)
Record fifo_cell : Type := Cell { pkt_size : Z; data : list Z }.

(** [frcore_simple_package_fifo_t], with the entries of [udp_block_exhaust] and
    [udp_last_display] (or of the rule arrays) for its core. *)
Record fifo : Type := Fifo {
  local_widx : Z; local_ridx : Z; post_cycle : Z; idx_buff : list Z; fifo_cells : list fifo_cell;
  block_exhaust : Z; last_display : Z }.

Inductive stat : Type :=
| stat_dma_errors | stat_dma_bytes | stat_dma_pkts | stat_dma_pkt_infos | stat_dma_blocks
| stat_avail_get_no_space | stat_avail_get_err | stat_avail_get
| stat_compl_put_no_space | stat_compl_put_err | stat_compl_put
| stat_pkt_post_err | stat_post_err_pkts | stat_pkt_post
| stat_pkt_oversize | stat_queue_no_space | stat_dma_enqueue_errs | stat_dma_enqueue_pkts.

#[export] Instance stat_eq_dec : EqDecision stat.
Proof. solve_decision. Defined.

(** What the host application does: return a block it holds, take a completed one. *)
Inductive host_act : Type := HostPut (b : Z) | HostGet.

(** One channel: the host, the card's [chan] and its FIFOs, the coming host actions and
    transfers, the readings of the cycle counter, the statistics. *)
Record state : Type := St {
  hst : host; chan : simple_chan; fifos : list fifo;
  script : list (list host_act * outcomes); clock : list Z; stats : stat -> Z }.

Definition set_hst (h : host) (s : state) : state :=
  St h (chan s) (fifos s) (script s) (clock s) (stats s).
Definition set_chan (c : simple_chan) (s : state) : state :=
  St (hst s) c (fifos s) (script s) (clock s) (stats s).
Definition set_fifos (l : list fifo) (s : state) : state :=
  St (hst s) (chan s) l (script s) (clock s) (stats s).
Definition set_fifo (f : nat) (x : fifo) (s : state) : state := set_fifos (<[f := x]> (fifos s)) s.
Definition FRCORE_STAT_ADD (c : stat) (v : Z) (s : state) : state :=
  St (hst s) (chan s) (fifos s) (script s) (clock s) (<[c := u64 (stats s c + v)]> (stats s)).
Definition FRCORE_STAT_INC (c : stat) : state -> state := FRCORE_STAT_ADD c 1.

(** [cvmx_get_cycle] *)
Definition get_cycle (s : state) : Z * state :=
  match clock s with
  | [] => (0, s)
  | t :: l => (t, St (hst s) (chan s) (fifos s) (script s) l (stats s))
  end.

(** [memcpy] into, and the elements of, an array. *)
Definition arr_write {A} (l : list A) (i : Z) (ws : list A) : option (list A) :=
  if (0 <=? i) && (i + Z.of_nat (length ws) <=? Z.of_nat (length l))
  then Some (take (Z.to_nat i) l ++ ws ++ drop (Z.to_nat i + length ws) l) else None.
Definition arr_read {A} (l : list A) (i n : Z) : option (list A) :=
  if (0 <=? i) && (0 <=? n) && (i + n <=? Z.of_nat (length l))
  then Some (take (Z.to_nat n) (drop (Z.to_nat i) l)) else None.

(** A list without the first occurrence of [x]. *)
Fixpoint remove_one (x : Z) (l : list Z) : option (list Z) :=
  match l with
  | [] => None
  | y :: l => if x =? y then Some l else l ← remove_one x l; Some (y :: l)
  end.

Section chan.
Variables FRC_SIMPLE_RING_BUFF_SIZE FRCORE_MAX_DMA_POINTERS MAX_PCI_DMA_LOCAL_BUF_SIZE cpu_freq : Z.

Definition FRCORE_CORE_FIFO_NUM : Z := FRCORE_MAX_DMA_POINTERS * 16.
Definition FRCORE_CHAN_POST_LWM : Z := FRCORE_MAX_DMA_POINTERS * 16.

(** ** The host *)

(** [sizeof(frc_simple_package_ring_buff_t)] and the offsets in the control structure *)
Definition sizeof_ring : Z := 16 + FRC_SIMPLE_RING_BUFF_SIZE * 8.
Definition FRC_DMA_SIMPLE_CHAN_AVAIL_WIDX_OFFSET : Z := 0.
Definition FRC_DMA_SIMPLE_CHAN_AVAIL_RIDX_OFFSET : Z := 8.
Definition FRC_DMA_SIMPLE_CHAN_AVAIL_RING_OFFSET : Z := 16.
Definition FRC_DMA_SIMPLE_CHAN_COMPL_WIDX_OFFSET : Z := sizeof_ring + 0.
Definition FRC_DMA_SIMPLE_CHAN_COMPL_RIDX_OFFSET : Z := sizeof_ring + 8.
Definition FRC_DMA_SIMPLE_CHAN_COMPL_RING_OFFSET : Z := sizeof_ring + 16.

Definition host_word (h : host) (a : Z) : option Z :=
  let o := a - ctrl h in
  if o <? sizeof_ring then ring_word (available_ring h) o else ring_word (completed_ring h) (o - sizeof_ring).

Definition set_host_word (h : host) (a v : Z) : option host :=
  let o := a - ctrl h in
  if o <? sizeof_ring
  then r ← set_ring_word (available_ring h) o v;
       Some (Host (ctrl h) r (completed_ring h) (blocks h) (held h) (puts h) (received h))
  else r ← set_ring_word (completed_ring h) (o - sizeof_ring) v;
       Some (Host (ctrl h) (available_ring h) r (blocks h) (held h) (puts h) (received h)).

Definition host_read (h : host) (a n : Z) : option (list Z) :=
  foldM (fun ws k => w ← host_word h (a + 8 * k); Some (ws ++ [w])) (seqZ 0 n) [].

Definition host_write (h : host) (a : Z) (ws : list Z) : option host :=
  foldM (fun h k => w ← arr_get ws k; set_host_word h (a + 8 * k) w) (seqZ 0 (Z.of_nat (length ws))) h.

(** A packet copied into a block replaces the bytes it covers. *)
Definition write_block (m : gmap Z (list Z)) (p : Z * list Z) : gmap Z (list Z) :=
  <[p.1 := p.2 ++ drop (length p.2) (default [] (m !! p.1))]> m.

(** The application works on the rings with the macros of frc_dma.h, on a little-endian
    processor. *)
Definition host_do (h : host) (a : host_act) : option host :=
  match a with
  | HostPut b =>
    match remove_one b (held h) with
    | None => Some h
    | Some l =>
      '(len, r) ← ring_put FRC_SIMPLE_RING_BUFF_SIZE LE b (available_ring h);
      Some (if len =? 1
            then Host (ctrl h) r (completed_ring h) (blocks h) l (puts h ++ [b]) (received h) else h)
    end
  | HostGet =>
    '(_, v, r) ← ring_get FRC_SIMPLE_RING_BUFF_SIZE LE (completed_ring h);
    Some (match v with
          | None => h
          | Some b => Host (ctrl h) (available_ring h) r (blocks h) (held h ++ [b]) (puts h)
              (received h ++ [(b, default [] (blocks h !! (b + FRC_DMA_OFFSET)))])
          end)
  end.

(** ** DMA transfers of the card *)

(** The host runs, then the transfer meets its fate. *)
Definition next_dma (s : state) : option (outcomes * state) :=
  match script s with
  | [] => Some ([], s)
  | (acts, os) :: sc =>
    h ← foldM host_do acts (hst s);
    Some (os, St h (chan s) (fifos s) sc (clock s) (stats s))
  end.

(** The answer of [frcore_dma_gather], and whether the range has been moved: the transfers of
    the channels are single requests, which move all or nothing. *)
Definition gather (a size : Z) (os : outcomes) : Z * bool :=
  let '(rv, ps, _) := frcore_dma_gather FRCORE_MAX_DMA_POINTERS MAX_PCI_DMA_LOCAL_BUF_SIZE 0 a size os in
  (rv, moved_bytes ps =? size).

(** [frcore_copy_from_remote] of [n] words into the local object that [store] sets, which
    keeps its contents when the transfer runs out of time; the failure branch is that of
    the callers. *)
Definition frcore_copy_from_remote (n a : Z) (store : list Z -> state -> option state) (s : state) :
    option (Z * state) :=
  '(os, s) ← next_dma s;
  let '(rv, moved) := gather a (n * RING_BUFF_CELL_SIZE) os in
  if rv =? 0
  then s ← (if moved : bool then ws ← host_read (hst s) a n; store ws s else Some s); Some (FRE_SUCCESS, s)
  else Some (FRE_DMA, FRCORE_STAT_INC stat_dma_errors s).

Definition frcore_copy_to_remote (ws : list Z) (a : Z) (s : state) : option (Z * state) :=
  '(os, s) ← next_dma s;
  let '(rv, moved) := gather a (Z.of_nat (length ws) * RING_BUFF_CELL_SIZE) os in
  if rv =? 0
  then h ← (if moved : bool then host_write (hst s) a ws else Some (hst s)); Some (FRE_SUCCESS, set_hst h s)
  else Some (FRE_DMA, FRCORE_STAT_INC stat_dma_errors s).

(** Continue after success, return the error otherwise. *)
Definition and_then (m : option (Z * state)) (k : state -> option (Z * state)) : option (Z * state) :=
  '(rv, s) ← m; if rv =? 0 then k s else Some (rv, s).

(** ** The rings from the card's side *)

Definition store_avail_widx (ws : list Z) (s : state) : option state :=
  w ← arr_get ws 0; let c := chan s in
  Some (set_chan (Chan (ctrl_addr c) w (avail_ridx c) (compl_widx c) (compl_ridx c)) s).
Definition store_compl_ridx (ws : list Z) (s : state) : option state :=
  w ← arr_get ws 0; let c := chan s in
  Some (set_chan (Chan (ctrl_addr c) (avail_widx c) (avail_ridx c) (compl_widx c) w) s).
Definition store_idx_buff (f : nat) (i : Z) (ws : list Z) (s : state) : option state :=
  x ← fifos s !! f;
  b ← arr_write (idx_buff x) i ws;
  Some (set_fifo f (Fifo (local_widx x) (local_ridx x) (post_cycle x) b (fifo_cells x)
    (block_exhaust x) (last_display x)) s).

Definition frcore_simple_package_chan_avail_get (f : nat) (number : Z) (s : state) : option (Z * state) :=
  let ca := ctrl_addr (chan s) in
  and_then (frcore_copy_from_remote 1 (ca + FRC_DMA_SIMPLE_CHAN_AVAIL_WIDX_OFFSET) store_avail_widx s) (fun s =>
  let ridx := avail_ridx (chan s) in
  let widx := avail_widx (chan s) in
  if u64 (widx - ridx) <? number then Some (FRE_NOSPACE, FRCORE_STAT_INC stat_avail_get_no_space s)
  else
    offset ← umod ridx FRC_SIMPLE_RING_BUFF_SIZE;
    let room := u64 (FRC_SIMPLE_RING_BUFF_SIZE - offset) in
    let len1 := if room <? number then room else number in
    let cells := ca + FRC_DMA_SIMPLE_CHAN_AVAIL_RING_OFFSET in
    and_then (frcore_copy_from_remote len1 (cells + offset * RING_BUFF_CELL_SIZE) (store_idx_buff f 0) s) (fun s =>
    and_then
      (if len1 <? number
       then frcore_copy_from_remote (number - len1) cells (store_idx_buff f len1) s
       else Some (FRE_SUCCESS, s)) (fun s =>
    let ridx := u64 (ridx + number) in
    let c := chan s in
    let s := set_chan (Chan (ctrl_addr c) (avail_widx c) ridx (compl_widx c) (compl_ridx c)) s in
    frcore_copy_to_remote [ridx] (ca + FRC_DMA_SIMPLE_CHAN_AVAIL_RIDX_OFFSET) s))).

Definition frcore_simple_package_chan_compl_put (f : nat) (number : Z) (s : state) : option (Z * state) :=
  let ca := ctrl_addr (chan s) in
  and_then (frcore_copy_from_remote 1 (ca + FRC_DMA_SIMPLE_CHAN_COMPL_RIDX_OFFSET) store_compl_ridx s) (fun s =>
  let ridx := compl_ridx (chan s) in
  let widx := compl_widx (chan s) in
  if u64 (FRC_SIMPLE_RING_BUFF_SIZE - number) <? u64 (widx - ridx)
  then Some (FRE_NOSPACE, FRCORE_STAT_INC stat_compl_put_no_space s)
  else
    offset ← umod widx FRC_SIMPLE_RING_BUFF_SIZE;
    let room := u64 (FRC_SIMPLE_RING_BUFF_SIZE - offset) in
    let len1 := if room <? number then room else number in
    let cells := ca + FRC_DMA_SIMPLE_CHAN_COMPL_RING_OFFSET in
    x ← fifos s !! f;
    ws1 ← arr_read (idx_buff x) 0 len1;
    and_then (frcore_copy_to_remote ws1 (cells + offset * RING_BUFF_CELL_SIZE) s) (fun s =>
    and_then
      (if len1 <? number
       then x ← fifos s !! f; ws2 ← arr_read (idx_buff x) len1 (number - len1); frcore_copy_to_remote ws2 cells s
       else Some (FRE_SUCCESS, s)) (fun s =>
    let widx := u64 (widx + number) in
    let c := chan s in
    let s := set_chan (Chan (ctrl_addr c) (avail_widx c) (avail_ridx c) widx (compl_ridx c)) s in
    frcore_copy_to_remote [widx] (ca + FRC_DMA_SIMPLE_CHAN_COMPL_WIDX_OFFSET) s))).

(** ** Posting *)

(** Entry [cur] of a scattered request: where it goes and the bytes of the cell. *)
Definition post_entry (x : fifo) (cur : Z) : option (Z * list Z) :=
  cur_offset ← umod (u64 (local_ridx x + cur)) FRCORE_CORE_FIFO_NUM;
  remote_addr ← arr_get (idx_buff x) cur;
  c ← arr_get (fifo_cells x) cur_offset;
  bs ← arr_read (data c) 0 (pkt_size c);
  Some (u64 (remote_addr + FRC_DMA_OFFSET), bs).

Definition post_entry_stats (s : state) (p : Z * list Z) : state :=
  FRCORE_STAT_INC stat_dma_pkt_infos (FRCORE_STAT_INC stat_dma_pkts
    (FRCORE_STAT_ADD stat_dma_bytes
      (u64 (Z.of_nat (length p.2) - sizeof_frc_dma_hdr_t - sizeof_frc_dma_pkt_info_t)) s)).

Definition frcore_dma_scatter_send (ps : list (Z * list Z)) (s : state) : option (Z * state) :=
  '(os, s) ← next_dma s;
  let desc := map (fun p => DmaPtr 0 p.1 (Z.of_nat (length p.2))) ps in
  let '(rv, counted, moved, _) := frcore_dma_scatter FRCORE_MAX_DMA_POINTERS MAX_PCI_DMA_LOCAL_BUF_SIZE desc os in
  let s := if counted : bool then FRCORE_STAT_INC stat_dma_errors s else s in
  let h := hst s in
  Some (rv, if moved : bool
            then set_hst (Host (ctrl h) (available_ring h) (completed_ring h)
              (foldl write_block (blocks h) ps) (held h) (puts h) (received h)) s
            else s).

(** The loop [while (pkt_remain)] from cell [cur] on; every round posts at least one. *)
Fixpoint post_loop (fuel : nat) (f : nat) (cur pkt_remain : Z) (s : state) : option (Z * state) :=
  match fuel with
  | O => Some (cur, s)
  | S fuel =>
    if pkt_remain =? 0 then Some (cur, s)
    else
      let pkt_numb := if FRCORE_MAX_DMA_POINTERS <? pkt_remain then FRCORE_MAX_DMA_POINTERS else pkt_remain in
      x ← fifos s !! f;
      ps ← foldM (fun ps i => p ← post_entry x i; Some (ps ++ [p])) (seqZ cur pkt_numb) [];
      '(rv, s) ← frcore_dma_scatter_send ps (foldl post_entry_stats s ps);
      if rv =? 0
      then post_loop fuel f (cur + pkt_numb) (pkt_remain - pkt_numb) (FRCORE_STAT_ADD stat_dma_blocks pkt_numb s)
      else Some (cur, FRCORE_STAT_INC stat_dma_errors s)
  end.

Definition frcore_simple_package_chan_post_pkt (f : nat) (local_num : Z) (s : state) : option (Z * state) :=
  post_loop (Z.to_nat local_num) f 0 local_num s.

Definition set_exhaust (f : nat) (e d : Z) (s : state) : option state :=
  x ← fifos s !! f;
  Some (set_fifo f (Fifo (local_widx x) (local_ridx x) (post_cycle x) (idx_buff x) (fifo_cells x) e d) s).

Definition advance_local_ridx (f : nat) (post_num now : Z) (s : state) : option state :=
  x ← fifos s !! f;
  Some (set_fifo f (Fifo (local_widx x) (u64 (local_ridx x + post_num)) now (idx_buff x) (fifo_cells x)
    (block_exhaust x) (last_display x)) s).

(** The blocks have run out and the time of rest is not over. *)
Definition resting (x : fifo) (s : state) : bool * state :=
  if block_exhaust x =? 0 then (false, s)
  else let '(now, s) := get_cycle s in
       (u64 (now - last_display x) <? cpu_freq / DMA_CHANNEL_REST_DIV, s).

(** The loop [while (local_num)]; every round that continues posts at least one record. *)
Fixpoint fifo_post_loop (fuel : nat) (f : nat) (local_num : Z) (s : state) : option state :=
  match fuel with
  | O => Some s
  | S fuel =>
    if local_num =? 0 then Some s
    else
      let post_num := if local_num <? FRCORE_CHAN_POST_LWM then local_num else FRCORE_CHAN_POST_LWM in
      x ← fifos s !! f;
      let '(rest, s) := resting x s in
      if rest then Some s
      else
        '(rv, s) ← frcore_simple_package_chan_avail_get f post_num s;
        if rv =? FRE_NOSPACE then let '(now, s) := get_cycle s in set_exhaust f 1 now s
        else if negb (rv =? 0) then Some (FRCORE_STAT_INC stat_avail_get_err s)
        else
          s ← set_exhaust f 0 (last_display x) s;
          '(posted_num, s) ← frcore_simple_package_chan_post_pkt f post_num (FRCORE_STAT_INC stat_avail_get s);
          let s := if posted_num <? post_num
                   then FRCORE_STAT_ADD stat_post_err_pkts (post_num - posted_num) (FRCORE_STAT_INC stat_pkt_post_err s)
                   else FRCORE_STAT_INC stat_pkt_post s in
          '(rv, s) ← frcore_simple_package_chan_compl_put f post_num s;
          if negb (rv =? 0) then Some (FRCORE_STAT_INC stat_compl_put_err s)
          else
            let '(now, s) := get_cycle (FRCORE_STAT_INC stat_compl_put s) in
            s ← advance_local_ridx f post_num now s;
            fifo_post_loop fuel f (local_num - post_num) s
  end.

(** [flag]: post a full FIFO only, otherwise post whatever is there. *)
Definition frcore_simple_package_fifo_post (f : nat) (flag : bool) (s : state) : option state :=
  x ← fifos s !! f;
  let local_num := u64 (local_widx x - local_ridx x) in
  if (if flag then negb (local_num =? FRCORE_CHAN_POST_LWM) else local_num =? 0) then Some s
  else fifo_post_loop (Z.to_nat local_num) f local_num s.

(** [frcore_rule_fifo_post] is the same code on the arrays of the rule channel. *)
Definition frcore_rule_fifo_post := frcore_simple_package_fifo_post.

(** ** Queueing *)

(** [memcpy] of the pieces one after the other into [data] of the cell. *)
Definition fill_cell (c : fifo_cell) (size : Z) (pieces : list (list Z)) : option fifo_cell :=
  '(_, d) ← foldM (fun '(i, d) bs => d ← arr_write d i bs; Some (i + Z.of_nat (length bs), d))
              pieces (0, data c);
  Some (Cell (u16 size) d).

(** The part common to [frcore_simple_package_fifo_add] and
    [frcore_rule_packet_fifo_add], which copies the two bytes of the rule tag as well. *)
Definition fifo_add (f : nat) (pkt_len : Z) (pieces : option (list (list Z))) (s : state) : option (Z * state) :=
  if 2048 <? pkt_len then Some (FRE_EXCEED, FRCORE_STAT_INC stat_pkt_oversize s)
  else
    x ← fifos s !! f;
    if FRCORE_CORE_FIFO_NUM <=? u64 (local_widx x - local_ridx x)
    then Some (FRE_NOSPACE, FRCORE_STAT_INC stat_queue_no_space s)
    else
      idx_offset ← umod (local_widx x) FRCORE_CORE_FIFO_NUM;
      c ← arr_get (fifo_cells x) idx_offset;
      bss ← pieces;
      c ← fill_cell c pkt_len bss;
      cs ← arr_set (fifo_cells x) idx_offset c;
      Some (FRE_SUCCESS, set_fifo f (Fifo (u64 (local_widx x + 1)) (local_ridx x) (post_cycle x)
        (idx_buff x) cs (block_exhaust x) (last_display x)) s).

(** A packet: the bytes of its header and information structures and of its payload, of
    which [total_paylen], a 16-bit field of the header, are read. *)
Record pkt : Type := Pkt { hdr : list Z; total_paylen : Z; info : list Z; payload : list Z }.

Definition frcore_simple_package_fifo_add (f : nat) (p : pkt) (s : state) : option (Z * state) :=
  let pkt_len := sizeof_frc_dma_hdr_t + sizeof_frc_dma_pkt_info_t + total_paylen p in
  fifo_add f pkt_len
    (h ← arr_read (hdr p) 0 sizeof_frc_dma_hdr_t;
     b ← arr_read (payload p) 0 (total_paylen p);
     i ← arr_read (info p) 0 sizeof_frc_dma_pkt_info_t; Some [h; b; i]) s.

Definition frcore_rule_packet_fifo_add (f : nat) (tagid : list Z) (p : pkt) (s : state) : option (Z * state) :=
  let pkt_len := sizeof_frc_dma_hdr_t + sizeof_frc_dma_pkt_info_t + total_paylen p + 2 in
  fifo_add f pkt_len
    (h ← arr_read (hdr p) 0 sizeof_frc_dma_hdr_t;
     t ← arr_read tagid 0 2;
     b ← arr_read (payload p) 0 (total_paylen p);
     i ← arr_read (info p) 0 sizeof_frc_dma_pkt_info_t; Some [h; t; b; i]) s.

Definition forward (f : nat) (add : state -> option (Z * state)) (s : state) : option (Z * state) :=
  s ← frcore_simple_package_fifo_post f true s;
  '(num, s) ← add s;
  Some (if num =? 0 then (FRE_SUCCESS, FRCORE_STAT_INC stat_dma_enqueue_pkts s)
        else (FRE_EXCEED, FRCORE_STAT_INC stat_dma_enqueue_errs s)).

Definition frcore_forward_simple_pkt_to_fifo (f : nat) (p : pkt) : state -> option (Z * state) :=
  forward f (frcore_simple_package_fifo_add f p).
Definition frcore_forward_rule_pkt_to_fifo (f : nat) (tagid : list Z) (p : pkt) : state -> option (Z * state) :=
  forward f (frcore_rule_packet_fifo_add f tagid p).

(** The timer of a FIFO. *)
Definition frcore_chan_process (f : nat) (s : state) : option state :=
  frcore_simple_package_fifo_post f false s.

(** ** Set-up *)

(** The command of the host: the card reads the indices of both rings in one request.
    [timers] says whether [cvmx_tim_add_entry] succeeds for every FIFO; the indices stay as
    they were when the request runs out of time. *)
Definition frcore_cmd_setup_simple_package_chans (type addr : Z) (timers : bool) (s : state) :
    option (Z * state) :=
  if 2 <=? type then Some (FRE_EXCEED, s)
  else
    '(os, s) ← next_dma s;
    let desc := map (fun o => DmaPtr 0 (addr + o) 8)
      [FRC_DMA_SIMPLE_CHAN_AVAIL_WIDX_OFFSET; FRC_DMA_SIMPLE_CHAN_AVAIL_RIDX_OFFSET;
       FRC_DMA_SIMPLE_CHAN_COMPL_WIDX_OFFSET; FRC_DMA_SIMPLE_CHAN_COMPL_RIDX_OFFSET] in
    let '(rv, counted, moved, _) := frcore_dma_scatter FRCORE_MAX_DMA_POINTERS MAX_PCI_DMA_LOCAL_BUF_SIZE desc os in
    let s := if counted : bool then FRCORE_STAT_INC stat_dma_errors s else s in
    let answer := if timers : bool then FRE_SUCCESS else FRE_FAIL in
    let c := chan s in
    if negb (rv =? 0) then Some (FRE_DMA, FRCORE_STAT_INC stat_dma_errors s)
    else if negb moved
    then Some (answer, set_chan (Chan addr (avail_widx c) (avail_ridx c) (compl_widx c) (compl_ridx c)) s)
    else
      aw ← host_word (hst s) (addr + FRC_DMA_SIMPLE_CHAN_AVAIL_WIDX_OFFSET);
      ar ← host_word (hst s) (addr + FRC_DMA_SIMPLE_CHAN_AVAIL_RIDX_OFFSET);
      cw ← host_word (hst s) (addr + FRC_DMA_SIMPLE_CHAN_COMPL_WIDX_OFFSET);
      cr ← host_word (hst s) (addr + FRC_DMA_SIMPLE_CHAN_COMPL_RIDX_OFFSET);
      Some (answer, set_chan (Chan addr aw ar cw cr) s).

(** The driver's initialisation of the available ring (frcdrv_chan.c): every block of
    every pool is put; the first refused one ends it. *)
Definition pool_blocks (pool_addr : Z) : list Z :=
  map (fun k => pool_addr + k * FRC_DMA_SIMPLE_PACKAGE_BLOCK_SIZE)
    (seqZ 0 (FRC_DMA_POOL_SIZE / FRC_DMA_SIMPLE_PACKAGE_BLOCK_SIZE)).

Fixpoint avail_put_all (bs : list Z) (h : host) : option (Z * host) :=
  match bs with
  | [] => Some (FRE_SUCCESS, h)
  | b :: bs =>
    '(len, r) ← ring_put FRC_SIMPLE_RING_BUFF_SIZE LE b (available_ring h);
    if len =? 1
    then avail_put_all bs (Host (ctrl h) r (completed_ring h) (blocks h) (held h) (puts h ++ [b]) (received h))
    else Some (FRE_INIT, h)
  end.

Definition frcdrv_simple_package_chan_avail_init (pools : list Z) (h : host) : option (Z * host) :=
  avail_put_all (concat (map pool_blocks pools)) h.
End chan.
