(* ===== verification/ChanMem.v ===== *)
(** * The simple-package channels: memory and transfers

    What the card's transfers do to the rings of the host, and what the host does in the
    meantime. *)

From stdpp Require Import list functions.
From S2P Require Import Prelude Ring Dma Chan.
#[local] Open Scope Z_scope.

(** ** Arrays *)

Lemma arr_write_eq {A} (l : list A) i ws :
  0 <= i -> i + Z.of_nat (length ws) <= Z.of_nat (length l) ->
  arr_write l i ws = Some (take (Z.to_nat i) l ++ ws ++ drop (Z.to_nat i + length ws) l).
Proof. intros. unfold arr_write. by rewrite (proj2 (Z.leb_le 0 i)), (proj2 (Z.leb_le (_ + _) _)) by lia. Qed.

Lemma arr_read_eq {A} (l : list A) i n :
  0 <= i -> 0 <= n -> i + n <= Z.of_nat (length l) ->
  arr_read l i n = Some (take (Z.to_nat n) (drop (Z.to_nat i) l)).
Proof.
  intros. unfold arr_read.
  by rewrite (proj2 (Z.leb_le 0 i)), (proj2 (Z.leb_le 0 n)), (proj2 (Z.leb_le (_ + _) _)) by lia.
Qed.

Lemma length_splice {A} (l ws : list A) i :
  (i + length ws <= length l)%nat -> length (take i l ++ ws ++ drop (i + length ws) l) = length l.
Proof. intros. rewrite !length_app, length_take, length_drop. lia. Qed.

(** Writing the next element after those already written. *)
Lemma splice_snoc {A} (l ws : list A) i w :
  (i + length ws < length l)%nat ->
  <[(i + length ws)%nat := w]> (take i l ++ ws ++ drop (i + length ws) l) =
  take i l ++ (ws ++ [w]) ++ drop (i + length (ws ++ [w])) l.
Proof.
  intros H. assert (length (take i l) = i) as Ht by (rewrite length_take; lia).
  rewrite insert_app_r_alt by lia. f_equal. rewrite Ht. rewrite insert_app_r_alt by lia.
  replace (i + length ws - i - length ws)%nat with 0%nat by lia.
  destruct (lookup_lt_is_Some_2 l (i + length ws) H) as [x Hx].
  rewrite (drop_S l x _ Hx). simpl. rewrite <- app_assoc. simpl. do 3 f_equal.
  rewrite length_app. simpl. lia.
Qed.

(** ** The words of a ring *)

Section mem.
Context (N P B : Z).
#[local] Abbreviation sizeof_ring := (sizeof_ring N).

Hypothesis HN : 0 < N < 2 ^ 63.

Lemma ring_word_widx r : ring_word r 0 = Some (m_widx r).
Proof. done. Qed.

Lemma ring_word_ridx r : ring_word r 8 = Some (m_ridx r).
Proof. done. Qed.

Lemma cell_offset k : 0 <= k ->
  (16 + 8 * k =? 0) = false /\ (16 + 8 * k =? 8) = false /\ (16 <=? 16 + 8 * k) = true /\
  ((16 + 8 * k - 16) `mod` 8 =? 0) = true /\ (16 + 8 * k - 16) / 8 = k.
Proof.
  intros. replace (16 + 8 * k - 16) with (k * 8) by lia.
  rewrite Z_mod_mult, Z.div_mul by lia. split_and!; zb; lia.
Qed.

Lemma ring_word_cell r k : 0 <= k -> ring_word r (16 + 8 * k) = arr_get (m_buff r) k.
Proof.
  intros Hk. destruct (cell_offset k Hk) as (H1 & H2 & H3 & H4 & H5).
  unfold ring_word. by rewrite H1, H2, H3, H4, H5.
Qed.

Lemma set_ring_word_cell r k v b :
  0 <= k -> arr_set (m_buff r) k v = Some b -> set_ring_word r (16 + 8 * k) v = Some (Ring (m_widx r) (m_ridx r) b).
Proof.
  intros Hk Hb. destruct (cell_offset k Hk) as (H1 & H2 & H3 & H4 & H5).
  unfold set_ring_word. by rewrite H1, H2, H3, H4, H5, Hb.
Qed.

(** ** Reads and writes of the host's memory *)

Definition with_avail (h : host) (r : ring) : host :=
  Host (ctrl h) r (completed_ring h) (blocks h) (held h) (puts h) (received h).
Definition with_compl (h : host) (r : ring) : host :=
  Host (ctrl h) (available_ring h) r (blocks h) (held h) (puts h) (received h).

Lemma host_word_avail h o : o < sizeof_ring -> host_word N h (ctrl h + o) = ring_word (available_ring h) o.
Proof.
  intros. unfold host_word. replace (ctrl h + o - ctrl h) with o by lia. by rewrite (proj2 (Z.ltb_lt _ _)).
Qed.

Lemma host_word_compl h o :
  0 <= o -> host_word N h (ctrl h + (sizeof_ring + o)) = ring_word (completed_ring h) o.
Proof.
  intros. unfold host_word. replace (ctrl h + (sizeof_ring + o) - ctrl h) with (sizeof_ring + o) by lia.
  rewrite (proj2 (Z.ltb_ge _ _)) by lia. f_equal. lia.
Qed.

Lemma set_host_word_avail h o v r :
  o < sizeof_ring -> set_ring_word (available_ring h) o v = Some r ->
  set_host_word N h (ctrl h + o) v = Some (with_avail h r).
Proof.
  intros Ho Hr. unfold set_host_word. replace (ctrl h + o - ctrl h) with o by lia.
  by rewrite (proj2 (Z.ltb_lt _ _)), Hr.
Qed.

Lemma set_host_word_compl h o v r :
  0 <= o -> set_ring_word (completed_ring h) o v = Some r ->
  set_host_word N h (ctrl h + (sizeof_ring + o)) v = Some (with_compl h r).
Proof.
  intros Ho Hr. unfold set_host_word. replace (ctrl h + (sizeof_ring + o) - ctrl h) with (sizeof_ring + o) by lia.
  rewrite (proj2 (Z.ltb_ge _ _)) by lia. by replace (sizeof_ring + o - sizeof_ring) with o by lia; rewrite Hr.
Qed.

Lemma host_read_one h a w : host_word N h a = Some w -> host_read N h a 1 = Some [w].
Proof. intros E. unfold host_read. simpl. by rewrite Z.add_0_r, E. Qed.

Lemma host_write_one h a w h' : set_host_word N h a w = Some h' -> host_write N h a [w] = Some h'.
Proof. intros E. unfold host_write. simpl. by rewrite Z.add_0_r, E. Qed.

(** The cells of the available ring from [off] on. *)
Lemma host_read_cells h off n :
  0 <= off -> 0 <= n -> off + n <= N -> Z.of_nat (length (m_buff (available_ring h))) = N ->
  host_read N h (ctrl h + 16 + off * 8) n =
    Some (take (Z.to_nat n) (drop (Z.to_nat off) (m_buff (available_ring h)))).
Proof using HN.
  intros Hoff Hn Hfit Hlen. unfold host_read.
  destruct (for_seqZ (fun k ws => ws = take (Z.to_nat k) (drop (Z.to_nat off) (m_buff (available_ring h))))
    (fun ws k => w ← host_word N h (ctrl h + 16 + off * 8 + 8 * k); Some (ws ++ [w])) n []) as (ws & E & ->);
    [done..| |exact E].
  intros k ws Hk ->. replace (ctrl h + 16 + off * 8 + 8 * k) with (ctrl h + (16 + 8 * (off + k))) by lia.
  rewrite host_word_avail, ring_word_cell by (unfold Chan.sizeof_ring; lia).
  destruct (arr_get_is_Some (m_buff (available_ring h)) (off + k)) as [w Hw]; [lia|]. rewrite Hw. simpl.
  eexists. split; [done|]. apply arr_get_Some in Hw as [_ Hw].
  replace (Z.to_nat (k + 1)) with (S (Z.to_nat k)) by lia. symmetry. apply take_S_r.
  rewrite lookup_drop. rewrite <- Hw. f_equal. lia.
Qed.

(** Cells of the completed ring. *)
Lemma host_write_cells h off ws :
  0 <= off -> off + Z.of_nat (length ws) <= N -> Z.of_nat (length (m_buff (completed_ring h))) = N ->
  host_write N h (ctrl h + (sizeof_ring + 16) + off * 8) ws =
    let c := completed_ring h in
    Some (with_compl h (Ring (m_widx c) (m_ridx c)
      (take (Z.to_nat off) (m_buff c) ++ ws ++ drop (Z.to_nat off + length ws) (m_buff c)))).
Proof using HN.
  intros Hoff Hfit Hlen. cbv zeta. unfold host_write. set (c := completed_ring h) in *.
  set (g := fun k => with_compl h (Ring (m_widx c) (m_ridx c)
    (take (Z.to_nat off) (m_buff c) ++ take (Z.to_nat k) ws ++
     drop (Z.to_nat off + length (take (Z.to_nat k) ws)) (m_buff c)))).
  destruct (for_seqZ (fun k h' => h' = g k)
    (fun h' k => w ← arr_get ws k; set_host_word N h' (ctrl h + (sizeof_ring + 16) + off * 8 + 8 * k) w)
    (Z.of_nat (length ws)) h) as (h' & E & ->); [lia| | |].
  - unfold g. simpl. rewrite Nat.add_0_r, take_drop. unfold with_compl, c. by destruct h as [? ? []].
  - intros k h' Hk ->. destruct (arr_get_is_Some ws k) as [w Hw]; [lia|]. rewrite Hw. simpl.
    eexists. split; [|done].
    replace (ctrl h + (sizeof_ring + 16) + off * 8 + 8 * k)
      with (ctrl (g k) + (sizeof_ring + (16 + 8 * (off + k)))) by (simpl; lia).
    assert (length (take (Z.to_nat k) ws) = Z.to_nat k) as Ht by (rewrite length_take; lia).
    erewrite set_host_word_compl; [|lia|apply set_ring_word_cell; [lia|]].
    2: { apply arr_set_eq. simpl. rewrite length_splice by lia. lia. }
    unfold g, with_compl. simpl. do 3 f_equal. apply arr_get_Some in Hw as [_ Hw].
    replace (Z.to_nat (k + 1)) with (S (Z.to_nat k)) by lia. rewrite (take_S_r _ _ w) by done.
    rewrite <- splice_snoc by lia. f_equal. lia.
  - rewrite E. unfold g. by rewrite Nat2Z.id, firstn_all.
Qed.
End mem.
