(* ===== verification/ChanInv.v ===== *)
(** * The simple-package channels: the rings and their blocks

    [rings_ok] says what the two rings hold, in the host's and in the card's view;
    [evolves] is what a running host may do to it.  On these the card's two ring
    operations are verified, for every behaviour of the host and every failure. *)

From stdpp Require Import list functions.
From S2P Require Import Prelude Ring Dma Chan ChanMem.
#[local] Open Scope Z_scope.

(** ** The contents of blocks *)

Definition contents (m : gmap Z (list Z)) (b : Z) : list Z := default [] (m !! (b + FRC_DMA_OFFSET)).

(** What the host has received and will receive from the blocks [q]. *)
Definition trace (h : host) (q : list Z) : list (list Z) :=
  map snd (received h) ++ map (contents (blocks h)) q.

(** The host ran: it put [add] and took [got]. *)
Record evolves (h h' : host) (add got : list Z) : Prop := Evolves {
  e_ctrl : ctrl h' = ctrl h;
  e_blocks : blocks h' = blocks h;
  e_puts : puts h' = puts h ++ add;
  e_received : received h' = received h ++ map (fun b => (b, contents (blocks h) b)) got;
  e_held : held h' ++ add ≡ₚ held h ++ got }.

Lemma evolves_refl h : evolves h h [] [].
Proof. split; simpl; by rewrite ?app_nil_r. Qed.

Lemma evolves_trans h1 h2 h3 a b g g' :
  evolves h1 h2 a g -> evolves h2 h3 b g' -> evolves h1 h3 (a ++ b) (g ++ g').
Proof.
  intros [H1 H2 H3 H4 H5] [K1 K2 K3 K4 K5]. split.
  - congruence.
  - congruence.
  - by rewrite K3, H3, app_assoc.
  - by rewrite K4, H4, map_app, H2, app_assoc.
  - rewrite (Permutation_app_comm a b), app_assoc, K5.
    rewrite <- app_assoc, (Permutation_app_comm g' a), app_assoc, H5. by rewrite app_assoc.
Qed.

Lemma evolves_trace h h' add got q :
  evolves h h' add got -> trace h' q = trace h (got ++ q).
Proof.
  intros [_ H2 _ H4 _]. unfold trace. rewrite H4, H2, !map_app, map_map, <- app_assoc. done.
Qed.

Lemma remove_one_perm x l l' : remove_one x l = Some l' -> l ≡ₚ x :: l'.
Proof.
  revert l'. induction l as [|y l IH]; intros l'; simpl; [done|].
  destruct (Z.eqb_spec x y) as [->|]; [by intros [= ->]|].
  intros H. apply bind_Some in H as (m & Hm & [= <-]). apply IH in Hm. rewrite Hm. apply Permutation_swap.
Qed.

Section inv.
Context (N P B : Z).
Hypothesis HN : 0 < N < 2 ^ 63.

Lemma HN64 : 0 < N < 2 ^ 64.
Proof using HN. lia. Qed.

(** [lost]: taken by the card without the host being told; [qa]: free for the card;
    [qc]: completed; [p]: put by the card without the host being told; [x]: addresses
    in cells that the card's index does not cover yet.  [nw] is the card's index. *)
Record rings_ok (h : host) (lost qa qc p x : list Z) (nw : nat) : Prop := RingsOk {
  r_avail : holds N (available_ring h) (lost ++ qa) (length (puts h));
  r_compl : holds N (Ring (Z.of_nat (nw + length x)) (m_ridx (completed_ring h)) (m_buff (completed_ring h)))
    (qc ++ p ++ x) (nw + length x);
  r_widx : m_widx (completed_ring h) = Z.of_nat nw - Z.of_nat (length p);
  r_held : Forall word_ok (held h) }.

(** Cells that were not published do not matter. *)
Lemma rings_ok_forget h lost qa qc p x nw :
  rings_ok h lost qa qc p x nw -> rings_ok h lost qa qc p [] nw.
Proof using HN.
  intros [Ha Hc Hw Hh]. split; try done. rewrite app_assoc in Hc.
  apply (holds_unpublish N HN64) in Hc. simpl. rewrite app_nil_r, Nat.add_0_r.
  replace (Z.of_nat (nw + length x) - Z.of_nat (length x)) with (Z.of_nat nw) in Hc by lia.
  by replace (nw + length x - length x)%nat with nw in Hc by lia.
Qed.

(** The completed ring as the host sees it. *)
Lemma rings_ok_host h lost qa qc p x nw :
  rings_ok h lost qa qc p x nw -> holds N (completed_ring h) qc (nw - length p).
Proof using HN.
  intros H. apply rings_ok_forget in H as [_ Hc Hw _]. simpl in Hc.
  rewrite app_nil_r, Nat.add_0_r in Hc. apply (holds_unpublish N HN64) in Hc.
  rewrite <- Hw in Hc. by destruct (completed_ring h).
Qed.

Lemma rings_ok_past h lost qa qc p x nw :
  rings_ok h lost qa qc p x nw -> (length (lost ++ qa) <= length (puts h))%nat /\ (length (qc ++ p) <= nw)%nat.
Proof using HN.
  intros H. split; [apply (h_past _ _ _ _ (r_avail _ _ _ _ _ _ _ H))|].
  apply rings_ok_forget in H as [_ Hc _ _]. apply h_past in Hc. simpl in Hc.
  by rewrite app_nil_r, Nat.add_0_r in Hc.
Qed.

(** ** The host runs *)

Lemma host_do_spec h a lost qa qc p x nw :
  rings_ok h lost qa qc p x nw ->
  Z.of_nat (length (puts h)) + 1 < 2 ^ 64 -> Z.of_nat nw < 2 ^ 64 ->
  exists h' add k, host_do N h a = Some h' /\ evolves h h' add (take k qc) /\ (length add <= 1)%nat /\
    rings_ok h' lost (qa ++ add) (drop k qc) p x nw.
Proof using HN.
  intros H Hp Hn. pose proof H as [Ha Hc Hw Hh]. pose proof HN64 as HN'. destruct a as [b|]; simpl.
  - destruct (remove_one b (held h)) as [l|] eqn:El.
    2: { exists h, [], 0%nat. rewrite app_nil_r. split_and!; try done; [apply evolves_refl|simpl; lia]. }
    pose proof (remove_one_perm _ _ _ El) as Hperm. rewrite Hperm in Hh. apply Forall_cons in Hh as [Hb Hl].
    apply (holds_iff N HN') in Ha.
    destruct (ring_put_spec N LE HN' b _ _ _ Ha Hb Hp) as (r & E & Hr). rewrite E. simpl.
    apply (holds_iff N HN') in Hr. destruct (_ <? N); simpl.
    + exists (Host (ctrl h) r (completed_ring h) (blocks h) l (puts h ++ [b]) (received h)), [b], 0%nat.
      split_and!; try done.
      * split; simpl; rewrite ?app_nil_r; try done. rewrite Hperm. symmetry. apply Permutation_cons_append.
      * split; simpl; try done. rewrite length_app, app_assoc. simpl. by rewrite Nat.add_1_r.
    + exists h, [], 0%nat. rewrite app_nil_r. split_and!; try done; [apply evolves_refl|simpl; lia].
  - pose proof (rings_ok_host _ _ _ _ _ _ _ H) as Hq. apply (holds_iff N HN') in Hq.
    destruct (ring_get_spec N LE HN' _ _ _ Hq ltac:(lia)) as (r & E & Hr). rewrite E. simpl.
    apply (ring_get_frame N) in E as [Ew Eb]. apply (holds_iff N HN') in Hr, Hq.
    destruct qc as [|b qc]; simpl in *.
    { exists h, [], 0%nat. rewrite app_nil_r. split_and!; try done; [apply evolves_refl|simpl; lia]. }
    eexists _, [], 1%nat. rewrite app_nil_r. split; [done|]. simpl. split_and!; [|lia|].
    + split; simpl; rewrite ?app_nil_r; done.
    + split; simpl; try done.
      * rewrite Eb. apply (holds_drop N HN' _ _ _ _ _ 1) in Hc; [|simpl; lia]. simpl in Hc.
        replace (m_ridx r) with (m_ridx (completed_ring h) + Z.of_nat 1); [done|].
        rewrite (h_ridx _ _ _ _ Hr), (h_ridx _ _ _ _ Hq). simpl. lia.
      * by rewrite Ew.
      * apply Forall_app. split; [done|]. apply Forall_singleton.
        apply h_words in Hc. by apply Forall_cons in Hc as [? _].
Qed.

Lemma host_run_spec acts h lost qa qc p x nw :
  rings_ok h lost qa qc p x nw ->
  Z.of_nat (length (puts h)) + Z.of_nat (length acts) < 2 ^ 64 -> Z.of_nat nw < 2 ^ 64 ->
  exists h' add k, foldM (host_do N) acts h = Some h' /\ evolves h h' add (take k qc) /\
    (length add <= length acts)%nat /\ rings_ok h' lost (qa ++ add) (drop k qc) p x nw.
Proof using HN.
  revert h qa qc. induction acts as [|a acts IH]; intros h qa qc H Hp Hn; simpl in *.
  { exists h, [], 0%nat. rewrite app_nil_r. split_and!; try done. apply evolves_refl. }
  destruct (host_do_spec h a _ _ _ _ _ _ H ltac:(lia) Hn) as (h1 & add1 & k1 & E1 & Ev1 & Hl1 & H1).
  rewrite E1. simpl. pose proof (e_puts _ _ _ _ Ev1) as Ep.
  destruct (IH h1 (qa ++ add1) (drop k1 qc) H1) as (h2 & add2 & k2 & E2 & Ev2 & Hl2 & H2);
    [rewrite Ep, length_app; lia|done|].
  exists h2, (add1 ++ add2), (k1 + k2)%nat. rewrite app_assoc, <- drop_drop, length_app.
  split_and!; try done; [|lia].
  replace (take (k1 + k2) qc) with (take k1 qc ++ take k2 (drop k1 qc)); [by eapply evolves_trans|].
  rewrite take_take_drop. done.
Qed.

(** What is left for the card and completed after the host ran. *)
Definition adv (h h' : host) (qa qc qa' qc' : list Z) : Prop :=
  exists add k, evolves h h' add (take k qc) /\ qa' = qa ++ add /\ qc' = drop k qc.

Lemma adv_refl h qa qc : adv h h qa qc qa qc.
Proof. exists [], 0%nat. rewrite app_nil_r. split; [apply evolves_refl|done]. Qed.

Lemma adv_trans h1 h2 h3 qa1 qc1 qa2 qc2 qa3 qc3 :
  adv h1 h2 qa1 qc1 qa2 qc2 -> adv h2 h3 qa2 qc2 qa3 qc3 -> adv h1 h3 qa1 qc1 qa3 qc3.
Proof.
  intros (a1 & k1 & E1 & -> & ->) (a2 & k2 & E2 & -> & ->). exists (a1 ++ a2), (k1 + k2)%nat.
  rewrite app_assoc, drop_drop. split; [|done]. rewrite <- take_take_drop. by eapply evolves_trans.
Qed.

Lemma adv_trace h h' qa qc qa' qc' q :
  adv h h' qa qc qa' qc' -> trace h' (qc' ++ q) = trace h (qc ++ q).
Proof.
  intros (add & k & E & _ & ->). rewrite (evolves_trace _ _ _ _ _ E), app_assoc. by rewrite take_drop.
Qed.

Lemma adv_prefix h h' qa qc qa' qc' : adv h h' qa qc qa' qc' -> qa `prefix_of` qa'.
Proof. intros (add & _ & _ & -> & _). by exists add. Qed.

(** The addresses outside the rings and the host's hands stay there. *)
Lemma adv_owned h h' qa qc qa' qc' :
  adv h h' qa qc qa' qc' -> qa' ++ qc' ++ held h' ≡ₚ qa ++ qc ++ held h.
Proof.
  intros (add & k & [_ _ _ _ Hh] & -> & ->).
  rewrite <- (take_drop k qc) at 2. rewrite <- !app_assoc. f_equiv.
  rewrite (Permutation_app_comm _ (held h')), app_assoc, (Permutation_app_comm add), Hh.
  rewrite <- app_assoc, (Permutation_app_comm (held h)). rewrite <- app_assoc. done.
Qed.

(** ** Transfers *)

Definition script_acts (l : list (list host_act * outcomes)) : nat := sum_list (map (fun e => length e.1) l).

(** No transfer fails. *)
Definition clean (s : state) : Prop := Forall (fun e => Forall (eq Transferred) e.2) (script s).

(** No transfer runs out of time. *)
Definition in_time (s : state) : Prop := Forall (fun e => timely e.2) (script s).

(** The invariant of a channel. *)
Record inv (s : state) (lost qa qc p x : list Z) (nw : nat) : Prop := Inv {
  i_rings : rings_ok (hst s) lost qa qc p x nw;
  i_ctrl : ctrl_addr (chan s) = ctrl (hst s);
  i_ridx : avail_ridx (chan s) = Z.of_nat (length (puts (hst s))) - Z.of_nat (length qa);
  i_widx : compl_widx (chan s) = Z.of_nat nw;
  i_nw : Z.of_nat (nw + length x) <= avail_ridx (chan s);
  i_bound : Z.of_nat (length (puts (hst s)) + script_acts (script s)) < 2 ^ 64;
  i_time : in_time s }.

Lemma inv_ext s s' lost qa qc p x nw :
  hst s' = hst s -> chan s' = chan s -> script s' = script s ->
  inv s lost qa qc p x nw -> inv s' lost qa qc p x nw.
Proof. intros E1 E2 E3 [H1 H2 H3 H4 H5 H6 H7]. split; unfold in_time; by rewrite ?E1, ?E2, ?E3. Qed.

Lemma inv_chan s c lost qa qc p x nw :
  ctrl_addr c = ctrl_addr (chan s) -> avail_ridx c = avail_ridx (chan s) -> compl_widx c = compl_widx (chan s) ->
  inv s lost qa qc p x nw -> inv (set_chan c s) lost qa qc p x nw.
Proof. intros E1 E2 E3 [H1 H2 H3 H4 H5 H6 H7]. split; simpl; by rewrite ?E1, ?E2, ?E3. Qed.

(** The available ring as the card sees it. *)
Lemma card_view s lost qa qc p x nw :
  inv s lost qa qc p x nw ->
  let r := available_ring (hst s) in
  holds N (Ring (m_widx r) (avail_ridx (chan s)) (m_buff r)) qa (length (puts (hst s))).
Proof using HN.
  intros [[Ha _ _ _] _ Hri _ _ _ _]. cbv zeta. pose proof (h_ridx _ _ _ _ Ha) as Hr.
  rewrite length_app in Hr. destruct (available_ring (hst s)) as [w r b]. simpl in *.
  apply (holds_drop N HN64 _ _ _ _ _ (length lost)) in Ha; [|rewrite length_app; lia].
  rewrite drop_app_length in Ha. replace (avail_ridx (chan s)) with (r + Z.of_nat (length lost)) by lia. done.
Qed.

Lemma view_read s lost qa qc p x nw k m off :
  inv s lost qa qc p x nw -> 0 <= k -> 0 <= m -> k + m <= Z.of_nat (length qa) ->
  off = (avail_ridx (chan s) + k) `mod` N -> off + m <= N ->
  host_read N (hst s) (ctrl (hst s) + 16 + off * 8) m = Some (take (Z.to_nat m) (drop (Z.to_nat k) qa)).
Proof using HN.
  intros Hi Hk Hm Hkm -> Hfit. pose proof (card_view _ _ _ _ _ _ _ Hi) as Hv. cbv zeta in Hv.
  pose proof (Z.mod_pos_bound (avail_ridx (chan s) + k) N ltac:(lia)) as Hb.
  pose proof (h_size _ _ _ _ Hv) as Hl. simpl in Hl.
  rewrite host_read_cells by (done || lia). f_equal.
  apply (holds_drop N HN64 _ _ _ _ _ (Z.to_nat k)) in Hv; [|lia].
  apply (holds_read N HN64 _ _ _ ((avail_ridx (chan s) + k) `mod` N) (Z.to_nat m)) in Hv; simpl.
  - exact Hv.
  - f_equal. lia.
  - lia.
  - rewrite length_drop. lia.
Qed.

(** Everything but the host is as before. *)
Definition same (s s' : state) : Prop :=
  chan s' = chan s /\ fifos s' = fifos s /\ clock s' = clock s /\ (clean s -> clean s').

Lemma next_dma_spec s lost qa qc p x nw :
  inv s lost qa qc p x nw ->
  exists os s' qa' qc', next_dma N s = Some (os, s') /\ inv s' lost qa' qc' p x nw /\
    adv (hst s) (hst s') qa qc qa' qc' /\ same s s' /\ timely os /\ (clean s -> Forall (eq Transferred) os).
Proof using HN.
  intros [Hr Hc Hri Hw Hn Hb Htm]. unfold next_dma. unfold in_time in Htm. destruct (script s) as [|[acts os] sc] eqn:Es.
  { exists [], s, qa, qc. split_and!; try done; [by split; unfold in_time; rewrite ?Es|apply adv_refl|constructor]. }
  apply Forall_cons in Htm as [Ht Hsc]. simpl in Hb. unfold script_acts in Hb. simpl in Hb. fold (script_acts sc) in Hb.
  destruct (host_run_spec acts _ _ _ _ _ _ _ Hr) as (h' & add & k & E & Ev & Hl & H'); [lia|lia|].
  rewrite E. simpl. eexists _, _, _, _. split; [done|]. pose proof (e_puts _ _ _ _ Ev) as Ep.
  split_and!.
  - split; unfold in_time; simpl; try done.
    + by rewrite Hc, (e_ctrl _ _ _ _ Ev).
    + rewrite Hri, Ep, !length_app. lia.
    + rewrite Ep, length_app. lia.
  - by exists add, k.
  - split_and!; try done. unfold clean. rewrite Es. intros H. by apply Forall_cons in H as [_ ?].
  - done.
  - unfold clean. rewrite Es. intros H. by apply Forall_cons in H as [? _].
Qed.
End inv.
