(* ===== verification/ChanCard.v ===== *)
(** * The simple-package channels: the card's ring operations

    [frcore_simple_package_chan_avail_get] and [frcore_simple_package_chan_compl_put]
    against the invariant of [ChanInv], whatever the host does between the
    transfers and whichever transfers fail. *)

From stdpp Require Import list functions.
From S2P Require Import Prelude Ring Dma Chan ChanMem ChanInv.
#[local] Open Scope Z_scope.

(** ** Results *)

(** The operation is defined and its answer and state satisfy [Q]. *)
Definition wpc (m : option (Z * state)) (Q : Z -> state -> Prop) : Prop :=
  exists rv s, m = Some (rv, s) /\ Q rv s.

Lemma wpc_ret rv s (Q : Z -> state -> Prop) : Q rv s -> wpc (Some (rv, s)) Q.
Proof. by exists rv, s. Qed.

Lemma wpc_and_then m k (Q : Z -> state -> Prop) :
  wpc m (fun rv s => if rv =? 0 then wpc (k s) Q else Q rv s) -> wpc (and_then m k) Q.
Proof.
  intros (rv & s & -> & H). unfold and_then. simpl. destruct (rv =? 0); [done|by apply wpc_ret].
Qed.

Lemma wpc_mono m (Q Q' : Z -> state -> Prop) : wpc m Q -> (forall rv s, Q rv s -> Q' rv s) -> wpc m Q'.
Proof. intros (rv & s & E & H) HQ. exists rv, s. auto. Qed.

(** The invariant does not depend on FIFOs, clock and statistics. *)
Ltac inv_stat H := eapply inv_ext; [| | |exact H]; done.

Section card.
Context (N P B : Z).
Hypothesis HN : 0 < N < 2 ^ 63.
Hypothesis HP : 0 < P.
Hypothesis HPN : P * 16 <= N.
Hypothesis HB : 128 <= B.

#[local] Abbreviation FIFO_NUM := (FRCORE_CORE_FIFO_NUM P).

Lemma gather_timely a m os : 0 <= m <= FIFO_NUM -> timely os ->
  gather P B a (m * 8) os = (0, true) \/
  exists rv moved, gather P B a (m * 8) os = (rv, moved) /\ rv <> 0 /\ ~ Forall (eq Transferred) os.
Proof using HP HB.
  intros Hm Hos. unfold gather. unfold FRCORE_CORE_FIFO_NUM in Hm.
  destruct (Z.eq_dec m 0) as [->|]; [by left|].
  assert (0 < m * 8 <= FRCORE_DMA_BUFF_MAX P B) as Hs by (unfold FRCORE_DMA_BUFF_MAX; nia).
  pose proof (gather_single_timely P B HP ltac:(lia) (m * 8) 0 a os Hs Hos) as H.
  destruct (frcore_dma_gather P B 0 a (m * 8) os) as [[rv ps] os']. destruct H as [[-> ->]|[Hrv Hc]].
  - left. by rewrite Z.eqb_refl.
  - right. by do 2 eexists.
Qed.

(** ** Single transfers *)

Lemma copy_from_spec m a store s lost qa qc p x nw (Q : Z -> state -> Prop) :
  inv N s lost qa qc p x nw -> 0 <= m <= FIFO_NUM ->
  (forall s1 qa' qc', inv N s1 lost qa' qc' p x nw -> adv (hst s) (hst s1) qa qc qa' qc' -> same s s1 ->
    (exists ws s2, host_read N (hst s1) a m = Some ws /\ store ws s1 = Some s2 /\ Q FRE_SUCCESS s2) /\
    (~ clean s -> Q FRE_DMA (FRCORE_STAT_INC stat_dma_errors s1))) ->
  wpc (frcore_copy_from_remote N P B m a store s) Q.
Proof using HN HP HB.
  intros Hi Hm HQ. destruct (next_dma_spec N HN _ _ _ _ _ _ _ Hi) as (os & s1 & qa' & qc' & E & Hi1 & Ha & Hs & Ht & Hcl).
  unfold frcore_copy_from_remote. rewrite E. cbn [mbind option_bind].
  destruct (HQ s1 qa' qc' Hi1 Ha Hs) as [(ws & s2 & Er & Est & H0) Hf].
  destruct (gather_timely a m os Hm Ht) as [Eg|(rv & moved & Eg & Hrv & Hc)]; unfold RING_BUFF_CELL_SIZE; rewrite Eg.
  - change (0 =? 0) with true. cbv iota. rewrite Er. cbn [mbind option_bind]. rewrite Est. by apply wpc_ret.
  - rewrite (proj2 (Z.eqb_neq rv 0)) by done. apply wpc_ret, Hf. auto.
Qed.

Lemma copy_to_spec ws a s lost qa qc p x nw (Q : Z -> state -> Prop) :
  inv N s lost qa qc p x nw -> Z.of_nat (length ws) <= FIFO_NUM ->
  (forall s1 qa' qc', inv N s1 lost qa' qc' p x nw -> adv (hst s) (hst s1) qa qc qa' qc' -> same s s1 ->
    (exists h, host_write N (hst s1) a ws = Some h /\ Q FRE_SUCCESS (set_hst h s1)) /\
    (~ clean s -> Q FRE_DMA (FRCORE_STAT_INC stat_dma_errors s1))) ->
  wpc (frcore_copy_to_remote N P B ws a s) Q.
Proof using HN HP HB.
  intros Hi Hm HQ. destruct (next_dma_spec N HN _ _ _ _ _ _ _ Hi) as (os & s1 & qa' & qc' & E & Hi1 & Ha & Hs & Ht & Hcl).
  unfold frcore_copy_to_remote. rewrite E. cbn [mbind option_bind].
  destruct (HQ s1 qa' qc' Hi1 Ha Hs) as [(h & Ew & H0) Hf].
  destruct (gather_timely a (Z.of_nat (length ws)) os) as [Eg|(rv & moved & Eg & Hrv & Hc)]; [lia|done|..]; unfold RING_BUFF_CELL_SIZE; rewrite Eg.
  - change (0 =? 0) with true. cbv iota. rewrite Ew. by apply wpc_ret.
  - rewrite (proj2 (Z.eqb_neq rv 0)) by done. apply wpc_ret, Hf. auto.
Qed.

(** ** The state of a core's FIFO during the operations *)

Definition with_idx (y : fifo) (b : list Z) : fifo :=
  Fifo (local_widx y) (local_ridx y) (post_cycle y) b (fifo_cells y) (block_exhaust y) (last_display y).

(** Only the index buffer of FIFO [f] differs from [fs]. *)
Definition idx_only (f : nat) (y : fifo) (fs fs' : list fifo) (b : list Z) : Prop :=
  fs' = <[f := with_idx y b]> fs /\ length b = length (idx_buff y).

Lemma idx_only_refl f y fs : fs !! f = Some y -> idx_only f y fs fs (idx_buff y).
Proof. intros H. split; [|done]. rewrite list_insert_id; [done|]. by destruct y. Qed.

Lemma idx_only_lookup f y fs fs' b :
  fs !! f = Some y -> idx_only f y fs fs' b -> fs' !! f = Some (with_idx y b).
Proof. intros H [-> _]. apply list_lookup_insert_eq. by eapply lookup_lt_Some. Qed.

Lemma store_idx_spec f y fs b s i ws :
  fs !! f = Some y -> idx_only f y fs (fifos s) b -> 0 <= i ->
  i + Z.of_nat (length ws) <= Z.of_nat (length b) ->
  exists s', store_idx_buff f i ws s = Some s' /\ hst s' = hst s /\ chan s' = chan s /\
    script s' = script s /\ clock s' = clock s /\
    idx_only f y fs (fifos s') (take (Z.to_nat i) b ++ ws ++ drop (Z.to_nat i + length ws) b).
Proof.
  intros Hy Hi H0 Hl. unfold store_idx_buff. rewrite (idx_only_lookup _ _ _ _ _ Hy Hi). simpl.
  rewrite arr_write_eq by done. simpl. eexists. split_and!; try done.
  destruct Hi as [Hf Hb]. split; [|rewrite length_splice by lia; done].
  simpl. rewrite Hf. by rewrite list_insert_insert_eq.
Qed.

(** ** Taking free blocks *)

Lemma u64_small z : 0 <= z < 2 ^ 64 -> u64 z = z.
Proof. apply wrapu_id. Qed.

Lemma adv_with_avail h h' r qa qc qa' qc' :
  adv h h' qa qc qa' qc' -> adv h (with_avail h' r) qa qc qa' qc'.
Proof. intros (add & k & [] & ? & ?). exists add, k. by split. Qed.

Lemma adv_with_compl h h' r qa qc qa' qc' :
  adv h h' qa qc qa' qc' -> adv h (with_compl h' r) qa qc qa' qc'.
Proof. intros (add & k & [] & ? & ?). exists add, k. by split. Qed.

Lemma adv_ctrl h h' qa qc qa' qc' : adv h h' qa qc qa' qc' -> ctrl h' = ctrl h.
Proof. intros (add & k & [] & ? & ?). done. Qed.

(** The card takes the next [n] blocks and tells the host. *)
Lemma inv_take s lost qa qc p nw n c :
  inv N s lost qa qc p [] nw -> (n <= length qa)%nat ->
  ctrl_addr c = ctrl_addr (chan s) -> compl_widx c = compl_widx (chan s) ->
  avail_ridx c = avail_ridx (chan s) + Z.of_nat n ->
  inv N (set_chan c s) (lost ++ take n qa) (drop n qa) qc p [] nw.
Proof.
  intros [[Ha Hc Hw Hh] H2 H3 H4 H5 H6 H7] Hn E1 E2 E3. split; simpl; rewrite ?E1, ?E2, ?E3; try done.
  - split; try done. by rewrite <- app_assoc, take_drop.
  - rewrite H3, length_drop. lia.
  - simpl in *. lia.
Qed.

Lemma inv_tell s lost qa qc p nw :
  inv N s lost qa qc p [] nw ->
  let r := available_ring (hst s) in
  inv N (set_hst (with_avail (hst s) (Ring (m_widx r) (avail_ridx (chan s)) (m_buff r))) s) [] qa qc p [] nw.
Proof using HN.
  intros Hi. pose proof (card_view _ HN _ _ _ _ _ _ _ Hi) as Hv. destruct Hi as [[Ha Hc Hw Hh] H2 H3 H4 H5 H6 H7].
  split; simpl; try done.
Qed.

Definition got (n : nat) (s s' : state) (rv : Z) (lost qa1 qc1 p : list Z) (nw : nat) (b : list Z) : Prop :=
  (n <= length qa1)%nat /\ take n b = take n qa1 /\
  (rv = FRE_SUCCESS /\ inv N s' [] (drop n qa1) qc1 p [] nw \/
   rv = FRE_DMA /\ ~ clean s /\ inv N s' (lost ++ take n qa1) (drop n qa1) qc1 p [] nw).

Definition not_got (n : nat) (s s' : state) (rv : Z) (lost qa qa1 qc1 p : list Z) (nw : nat) : Prop :=
  inv N s' lost qa1 qc1 p [] nw /\
  (rv = FRE_NOSPACE /\ (length qa < n)%nat \/ rv = FRE_DMA /\ ~ clean s).

Definition get_post (f : nat) (y : fifo) (n : nat) (s : state) (lost qa qc p : list Z) (nw : nat)
    (rv : Z) (s' : state) : Prop :=
  exists qa1 qc1 b, adv (hst s) (hst s') qa qc qa1 qc1 /\ idx_only f y (fifos s) (fifos s') b /\
    clock s' = clock s /\ (clean s -> clean s') /\
    (not_got n s s' rv lost qa qa1 qc1 p nw \/ got n s s' rv lost qa1 qc1 p nw b).

Lemma take_prefix (n : nat) (l l' : list Z) : (n <= length l)%nat -> l `prefix_of` l' -> take n l' = take n l.
Proof. intros Hn [k ->]. by rewrite take_app_le. Qed.

Lemma prefix_len (l l' : list Z) : l `prefix_of` l' -> (length l <= length l')%nat.
Proof. intros [k ->]. rewrite length_app. lia. Qed.

(** The last part of [avail_get]: advance the index and write it to the host. *)
Lemma get_finish f y n s s1 lost qa qc qa1 qc1 p nw b :
  inv N s1 lost qa1 qc1 p [] nw -> (n <= length qa1)%nat -> take n b = take n qa1 ->
  adv (hst s) (hst s1) qa qc qa1 qc1 -> idx_only f y (fifos s) (fifos s1) b ->
  clock s1 = clock s -> (clean s -> clean s1) ->
  wpc (let ridx := u64 (avail_ridx (chan s1) + Z.of_nat n) in
       let c := chan s1 in
       let s := set_chan (Chan (ctrl_addr c) (avail_widx c) ridx (compl_widx c) (compl_ridx c)) s1 in
       frcore_copy_to_remote N P B [ridx] (ctrl_addr c + FRC_DMA_SIMPLE_CHAN_AVAIL_RIDX_OFFSET) s)
    (get_post f y n s lost qa qc p nw).
Proof using HN HP HB.
  intros Hi Hn Hb Ha Hx Hck Hcl. cbv zeta.
  assert (u64 (avail_ridx (chan s1) + Z.of_nat n) = avail_ridx (chan s1) + Z.of_nat n) as E.
  { apply u64_small. destruct Hi as [_ _ Hr _ Hnw Hbd]. simpl in Hnw. lia. }
  rewrite E. eapply copy_to_spec; [by eapply (inv_take _ _ _ _ _ _ n _ Hi)| |].
  { simpl. unfold FRCORE_CORE_FIFO_NUM. lia. }
  intros s2 qa2 qc2 Hi2 Ha2 (Hch & Hff & Hck2 & Hcl2). simpl in Ha2, Hch, Hff, Hck2.
  assert (adv (hst s) (hst s2) qa qc (take n qa1 ++ qa2) qc2) as Ha'.
  { eapply adv_trans; [done|]. destruct Ha2 as (add & k & Ev & -> & ->).
    exists add, k. by rewrite app_assoc, take_drop. }
  assert (n <= length (take n qa1 ++ qa2))%nat as Hn' by (rewrite length_app, length_take; lia).
  assert (take n b = take n (take n qa1 ++ qa2)) as Hb'.
  { rewrite Hb. rewrite take_app_length'; [done|]. rewrite length_take; lia. }
  assert (drop n (take n qa1 ++ qa2) = qa2) as Hd by (apply drop_app_length'; rewrite length_take; lia).
  split.
  - eexists. split.
    { apply host_write_one. rewrite (i_ctrl _ _ _ _ _ _ _ _ Hi).
      rewrite <- (adv_ctrl _ _ _ _ _ _ Ha2 : ctrl (hst s2) = ctrl (hst s1)).
      apply set_host_word_avail; [unfold sizeof_ring, FRC_DMA_SIMPLE_CHAN_AVAIL_RIDX_OFFSET; lia|done]. }
    exists (take n qa1 ++ qa2), qc2, b. split; [|split; [|split; [|split]]].
    + by apply adv_with_avail.
    + simpl. by rewrite Hff.
    + simpl. by rewrite Hck2.
    + intros Hc. apply (Hcl2 (Hcl Hc)).
    + right. split_and!; try done. left. split; [done|]. rewrite Hd.
      pose proof (inv_tell _ _ _ _ _ _ Hi2) as Hi3. cbv zeta in Hi3. rewrite Hch in Hi3. done.
  - intros Hnc. exists (take n qa1 ++ qa2), qc2, b. split; [done|split; [|split; [|split]]].
    + simpl. by rewrite Hff.
    + simpl. by rewrite Hck2.
    + intros Hc. apply (Hcl2 (Hcl Hc)).
    + right. split_and!; try done. right. split_and!; try done; [intros Hc; by apply Hnc, Hcl|].
      rewrite Hd, <- Hb', Hb. inv_stat Hi2.
Qed.

(** The words from [k] on, as a continuation of the transfer rule. *)
Lemma get_part f y fs b s lost qa qc p nw k m n off (Q : Z -> state -> Prop) :
  fs !! f = Some y -> idx_only f y fs (fifos s) b ->
  inv N s lost qa qc p [] nw -> 0 <= k -> 0 <= m <= FIFO_NUM -> k + m <= Z.of_nat n ->
  k + m <= Z.of_nat (length b) -> (n <= length qa)%nat ->
  off = (avail_ridx (chan s) + k) `mod` N -> off + m <= N ->
  (forall s1 qa' qc' b', inv N s1 lost qa' qc' p [] nw -> adv (hst s) (hst s1) qa qc qa' qc' ->
     idx_only f y fs (fifos s1) b' -> clock s1 = clock s -> (clean s -> clean s1) -> chan s1 = chan s ->
     b' = take (Z.to_nat k) b ++ take (Z.to_nat m) (drop (Z.to_nat k) qa) ++ drop (Z.to_nat (k + m)) b ->
     Q FRE_SUCCESS s1) ->
  (forall s1 qa' qc', inv N s1 lost qa' qc' p [] nw -> adv (hst s) (hst s1) qa qc qa' qc' ->
     idx_only f y fs (fifos s1) b -> clock s1 = clock s -> (clean s -> clean s1) -> ~ clean s -> Q FRE_DMA s1) ->
  wpc (frcore_copy_from_remote N P B m (ctrl_addr (chan s) + FRC_DMA_SIMPLE_CHAN_AVAIL_RING_OFFSET +
         off * RING_BUFF_CELL_SIZE) (store_idx_buff f k) s) Q.
Proof using HN HP HB.
  intros Hy Hx Hi Hk Hm Hkm Hlb Hn Hoff Hfit HQ HF.
  eapply copy_from_spec; [exact Hi|done|]. intros s1 qa' qc' Hi1 Ha (Hch & Hff & Hck & Hcl).
  pose proof (adv_prefix _ _ _ _ _ _ Ha) as Hpre. pose proof (prefix_len _ _ Hpre) as Hlen.
  assert (take (Z.to_nat m) (drop (Z.to_nat k) qa') = take (Z.to_nat m) (drop (Z.to_nat k) qa)) as Eq.
  { destruct Hpre as [t ->]. rewrite drop_app_le by lia. apply take_app_le. rewrite length_drop. lia. }
  assert (length (take (Z.to_nat m) (drop (Z.to_nat k) qa)) = Z.to_nat m) as Elen
    by (rewrite length_take, length_drop; lia).
  split.
  - destruct (store_idx_spec f y fs b s1 k (take (Z.to_nat m) (drop (Z.to_nat k) qa)) Hy)
      as (s2 & Es & Eh & Ec & Esc & Ecl & Hx2); [by rewrite Hff|done|lia|].
    exists (take (Z.to_nat m) (drop (Z.to_nat k) qa)), s2. split; [|split; [exact Es|]].
    + rewrite <- Eq, (i_ctrl _ _ _ _ _ _ _ _ Hi), <- (adv_ctrl _ _ _ _ _ _ Ha).
      apply (view_read _ HN _ _ _ _ _ _ _ _ _ _ Hi1); try (done || lia). by rewrite Hch.
    + eapply HQ; [exact (inv_ext _ _ _ _ _ _ _ _ _ Eh Ec Esc Hi1)| |exact Hx2|congruence| |congruence|].
      * by rewrite Eh.
      * intros Hc. unfold clean. rewrite Esc. by apply Hcl.
      * rewrite Elen. do 3 f_equal. lia.
  - intros Hnc. eapply HF; [inv_stat Hi1|exact Ha|simpl; by rewrite Hff|done|exact Hcl|done].
Qed.

(** The body of [avail_get] once the number of blocks is known to suffice. *)
Definition get_cells (f : nat) (n : nat) (s : state) : option (Z * state) :=
  let ca := ctrl_addr (chan s) in
  let ridx := avail_ridx (chan s) in
  offset ← umod ridx N;
  let room := u64 (N - offset) in
  let len1 := if room <? Z.of_nat n then room else Z.of_nat n in
  let cells := ca + FRC_DMA_SIMPLE_CHAN_AVAIL_RING_OFFSET in
  and_then (frcore_copy_from_remote N P B len1 (cells + offset * RING_BUFF_CELL_SIZE) (store_idx_buff f 0) s) (fun s =>
  and_then
    (if len1 <? Z.of_nat n
     then frcore_copy_from_remote N P B (Z.of_nat n - len1) cells (store_idx_buff f len1) s
     else Some (FRE_SUCCESS, s)) (fun s =>
  let ridx := u64 (ridx + Z.of_nat n) in
  let c := chan s in
  let s := set_chan (Chan (ctrl_addr c) (avail_widx c) ridx (compl_widx c) (compl_ridx c)) s in
  frcore_copy_to_remote N P B [ridx] (ca + FRC_DMA_SIMPLE_CHAN_AVAIL_RIDX_OFFSET) s)).

Lemma get_post_failed f y n s s' lost qa qc qa' qc' p nw b :
  inv N s' lost qa' qc' p [] nw -> adv (hst s) (hst s') qa qc qa' qc' ->
  idx_only f y (fifos s) (fifos s') b -> clock s' = clock s -> (clean s -> clean s') -> ~ clean s ->
  get_post f y n s lost qa qc p nw FRE_DMA s'.
Proof. intros. exists qa', qc', b. do 4 (split; [done|]). left. split; [done|by right]. Qed.

Lemma get_post_later f y n s s1 lost qa qc qa1 qc1 p nw rv s' :
  adv (hst s) (hst s1) qa qc qa1 qc1 -> fifos s1 = fifos s -> clock s1 = clock s -> (clean s -> clean s1) ->
  get_post f y n s1 lost qa1 qc1 p nw rv s' -> get_post f y n s lost qa qc p nw rv s'.
Proof.
  intros Ha Hf Hck Hcl (qa2 & qc2 & b & Ha2 & Hx & Hck2 & Hcl2 & Hg).
  exists qa2, qc2, b. split; [by eapply adv_trans|]. split; [by rewrite <- Hf|]. split; [congruence|]. split; [auto|].
  pose proof (prefix_len _ _ (adv_prefix _ _ _ _ _ _ Ha)).
  destruct Hg as [[Hi Hr]|(Hn & Hb & Hr)]; [left|right].
  - split; [done|]. destruct Hr as [[? ?]|[? ?]]; [left; split; [done|lia]|right; split; [done|auto]].
  - split; [done|]. split; [done|]. destruct Hr as [?|(? & ? & ?)]; [by left|right; split; [done|]; split; [auto|done]].
Qed.

Lemma get_cells_spec f y n s lost qa qc p nw :
  inv N s lost qa qc p [] nw -> fifos s !! f = Some y -> Z.of_nat (length (idx_buff y)) = FIFO_NUM ->
  1 <= Z.of_nat n <= FIFO_NUM -> (n <= length qa)%nat ->
  wpc (get_cells f n s) (get_post f y n s lost qa qc p nw).
Proof using HN HP HB HPN.
  intros Hi Hy Hlb Hn Hnq. unfold get_cells. cbv zeta.
  assert (Z.of_nat n <= N) as HnN by (unfold FRCORE_CORE_FIFO_NUM in Hn; lia).
  pose proof (Z.mod_pos_bound (avail_ridx (chan s)) N ltac:(lia)) as Hoff.
  unfold umod. rewrite (proj2 (Z.eqb_neq N 0)) by lia. simpl mbind.
  set (off := avail_ridx (chan s) `mod` N) in *. rewrite (u64_small (N - off)) by lia.
  set (len1 := if N - off <? Z.of_nat n then N - off else Z.of_nat n).
  assert (1 <= len1 <= Z.of_nat n /\ off + len1 <= N /\ (len1 < Z.of_nat n -> off + len1 = N)) as (Hl1 & Hl2 & Hl3)
    by (unfold len1; zcase; lia).
  clearbody len1. apply wpc_and_then. pose proof (idx_only_refl f y (fifos s) Hy) as Hx.
  eapply (get_part f y (fifos s) (idx_buff y) s _ _ _ _ _ 0 len1 n off); try eassumption; try lia.
  { unfold off. f_equal. lia. }
  2: { intros. by eapply get_post_failed. }
  intros s3 qa3 qc3 b3 Hi3 Ha3 Hx3 Hck3 Hcl3 Hch3 Hb3. simpl (FRE_SUCCESS =? 0). cbv beta iota.
  pose proof (adv_prefix _ _ _ _ _ _ Ha3) as Hpre3. pose proof (prefix_len _ _ Hpre3) as Hlen3.
  assert (length b3 = length (idx_buff y)) as Hlb3 by apply Hx3. simpl in Hb3.
  assert (take (Z.to_nat len1) b3 = take (Z.to_nat len1) qa3) as Hp3.
  { rewrite Hb3, (take_prefix _ qa qa3) by (lia || done). apply take_app_length'. rewrite length_take. lia. }
  rewrite <- Hch3. apply wpc_and_then. destruct (Z.ltb_spec len1 (Z.of_nat n)) as [Hlt|Hge].
  2: { apply wpc_ret. simpl (FRE_SUCCESS =? 0). cbv beta iota. replace len1 with (Z.of_nat n) in * by lia.
       rewrite Nat2Z.id in Hp3. eapply (get_finish f y n s s3); try eassumption. lia. }
  replace (ctrl_addr (chan s3) + FRC_DMA_SIMPLE_CHAN_AVAIL_RING_OFFSET)
    with (ctrl_addr (chan s3) + FRC_DMA_SIMPLE_CHAN_AVAIL_RING_OFFSET + 0 * RING_BUFF_CELL_SIZE) by lia.
  eapply (get_part f y (fifos s) b3 s3 _ _ _ _ _ len1 (Z.of_nat n - len1) n 0); try eassumption; try lia.
  { rewrite Hch3. rewrite <- Zplus_mod_idemp_l. fold off. rewrite Hl3, Z_mod_same_full by lia. done. }
  - intros s4 qa4 qc4 b4 Hi4 Ha4 Hx4 Hck4 Hcl4 Hch4 Hb4. simpl (FRE_SUCCESS =? 0). cbv beta iota.
    pose proof (adv_prefix _ _ _ _ _ _ Ha4) as Hpre4. pose proof (prefix_len _ _ Hpre4) as Hlen4. rewrite <- Hch4.
    eapply (get_finish f y n s s4 lost qa qc qa4 qc4 p nw b4); try eassumption; try lia.
    + rewrite Hb4, Hp3. rewrite (take_prefix n qa3 qa4) by (lia || done).
      rewrite app_assoc, take_app_length'.
      * replace n with (Z.to_nat len1 + Z.to_nat (Z.of_nat n - len1))%nat at 2 by lia. apply take_take_drop.
      * rewrite length_app, !length_take, length_drop. lia.
    + by eapply adv_trans.
    + congruence.
    + auto.
  - intros. eapply get_post_failed; try eassumption; [by eapply adv_trans|congruence|auto|auto].
Qed.

Lemma avail_get_spec f y n s lost qa qc p nw :
  inv N s lost qa qc p [] nw -> fifos s !! f = Some y -> Z.of_nat (length (idx_buff y)) = FIFO_NUM ->
  1 <= Z.of_nat n <= FIFO_NUM ->
  wpc (frcore_simple_package_chan_avail_get N P B f (Z.of_nat n) s) (get_post f y n s lost qa qc p nw).
Proof using HN HP HB HPN.
  intros Hi Hy Hlb Hn. unfold frcore_simple_package_chan_avail_get. apply wpc_and_then.
  eapply copy_from_spec; [exact Hi|unfold FRCORE_CORE_FIFO_NUM; lia|].
  intros s1 qa1 qc1 Hi1 Ha1 (Hch1 & Hff1 & Hck1 & Hcl1).
  pose proof (prefix_len _ _ (adv_prefix _ _ _ _ _ _ Ha1)) as Hlen1.
  assert (idx_only f y (fifos s) (fifos s1) (idx_buff y)) as Hx1 by (rewrite Hff1; by apply idx_only_refl).
  split.
  2: { intros Hnc. simpl. eapply get_post_failed; try eassumption. inv_stat Hi1. }
  eexists [_], _. split; [|split; [done|]].
  { apply host_read_one. rewrite (i_ctrl _ _ _ _ _ _ _ _ Hi), <- (adv_ctrl _ _ _ _ _ _ Ha1).
    rewrite host_word_avail by (unfold sizeof_ring, FRC_DMA_SIMPLE_CHAN_AVAIL_WIDX_OFFSET; lia). done. }
  simpl (FRE_SUCCESS =? 0). cbv beta iota.
  set (c2 := Chan (ctrl_addr (chan s1)) (m_widx (available_ring (hst s1))) (avail_ridx (chan s1))
    (compl_widx (chan s1)) (compl_ridx (chan s1))).
  match goal with |- context [set_chan ?c _] => change c with c2 end.
  pose proof (inv_chan N s1 c2 _ _ _ _ _ _ eq_refl eq_refl eq_refl Hi1) as Hi2.
  set (s2 := set_chan c2 s1) in *.
  assert (u64 (avail_widx (chan s2) - avail_ridx (chan s2)) = Z.of_nat (length qa1)) as Ealen.
  { simpl. pose proof (h_widx _ _ _ _ (r_avail _ _ _ _ _ _ _ _ (i_rings _ _ _ _ _ _ _ _ Hi1))) as Ew.
    pose proof (i_bound _ _ _ _ _ _ _ _ Hi1). pose proof (i_nw _ _ _ _ _ _ _ _ Hi1) as Hnw.
    rewrite Ew, (i_ridx _ _ _ _ _ _ _ _ Hi1) in *. rewrite u64_small; lia. }
  rewrite Ealen. zcase.
  { apply wpc_ret. exists qa1, qc1, (idx_buff y). do 4 (split; [done|]).
    left. split; [inv_stat Hi2|left; split; [done|lia]]. }
  rewrite <- Hch1. change (ctrl_addr (chan s1)) with (ctrl_addr (chan s2)).
  eapply wpc_mono; [eapply (get_cells_spec f y n s2); try eassumption; [simpl; by rewrite Hff1|lia]|].
  intros rv s' Hg. eapply get_post_later; [| | | |exact Hg]; done.
Qed.

(** ** Putting completed blocks *)

Lemma inv_forget s lost qa qc p x nw : inv N s lost qa qc p x nw -> inv N s lost qa qc p [] nw.
Proof using HN.
  intros [H1 H2 H3 H4 H5 H6 H7]. split; try done; [by eapply rings_ok_forget|]. simpl. lia.
Qed.

(** Words written beyond the card's index. *)
Lemma inv_write s lost qa qc p x nw ws off :
  inv N s lost qa qc p x nw -> Forall word_ok ws ->
  off = (compl_widx (chan s) + Z.of_nat (length x)) `mod` N -> off + Z.of_nat (length ws) <= N ->
  Z.of_nat (length (qc ++ p ++ x)) + Z.of_nat (length ws) <= N ->
  Z.of_nat (nw + length (x ++ ws)) <= avail_ridx (chan s) ->
  exists h, host_write N (hst s) (ctrl (hst s) + (sizeof_ring N + 16) + off * 8) ws = Some h /\
    inv N (set_hst h s) lost qa qc p (x ++ ws) nw /\
    (forall h0 qa0 qc0, adv h0 (hst s) qa0 qc0 qa qc -> adv h0 h qa0 qc0 qa qc).
Proof using HN.
  intros [[Ha Hc Hw Hh] H2 H3 H4 H5 H6 H7] Hws Hoff Hfit Hroom Hnw. rewrite H4 in Hoff.
  pose proof (h_size _ _ _ _ Hc) as Hl. simpl in Hl.
  pose proof (Z.mod_pos_bound (Z.of_nat nw + Z.of_nat (length x)) N ltac:(lia)) as Hm. rewrite <- Hoff in Hm.
  eexists. split; [apply host_write_cells; done || lia|]. split; [|intros; by apply adv_with_compl].
  replace (Z.of_nat nw + Z.of_nat (length x)) with (Z.of_nat (nw + length x)) in Hoff by lia.
  apply (holds_write N (HN64 N HN) _ _ _ _ _ ws off) in Hc; try (done || lia).
  split; simpl; try done. split; simpl; try done.
  rewrite <- !app_assoc in Hc. rewrite length_app.
  replace (Z.of_nat (nw + (length x + length ws))) with (Z.of_nat (nw + length x) + Z.of_nat (length ws)) by lia.
  by rewrite Nat.add_assoc.
Qed.

(** The card's index covers the words written. *)
Lemma inv_cover s lost qa qc p x nw c :
  inv N s lost qa qc p x nw -> ctrl_addr c = ctrl_addr (chan s) -> avail_ridx c = avail_ridx (chan s) ->
  compl_widx c = Z.of_nat (nw + length x) -> inv N (set_chan c s) lost qa qc (p ++ x) [] (nw + length x).
Proof.
  intros [[Ha Hc Hw Hh] H2 H3 H4 H5 H6 H7] E1 E2 E3. split; simpl; rewrite ?E1, ?E2, ?E3, ?Nat.add_0_r; try done.
  split; simpl; rewrite ?Nat.add_0_r, ?app_nil_r; try done. rewrite Hw, length_app. lia.
Qed.

Lemma inv_publish s lost qa qc p nw :
  inv N s lost qa qc p [] nw ->
  let r := completed_ring (hst s) in
  inv N (set_hst (with_compl (hst s) (Ring (compl_widx (chan s)) (m_ridx r) (m_buff r))) s) lost qa (qc ++ p) [] [] nw.
Proof.
  intros [[Ha Hc Hw Hh] H2 H3 H4 H5 H6 H7]. split; simpl; try done. split; simpl; try done.
  - by rewrite <- app_assoc.
  - rewrite H4. lia.
Qed.

Definition put_post (n : nat) (ws : list Z) (s : state) (lost qa qc p : list Z) (nw : nat) (rv : Z) (s' : state) : Prop :=
  exists qa1 qc1, adv (hst s) (hst s') qa qc qa1 qc1 /\ fifos s' = fifos s /\
    clock s' = clock s /\ (clean s -> clean s') /\
    (inv N s' lost qa1 qc1 p [] nw /\
       (rv = FRE_NOSPACE /\ N < Z.of_nat (length (qc ++ p)) + Z.of_nat n \/ rv = FRE_DMA /\ ~ clean s) \/
     rv = FRE_SUCCESS /\ inv N s' lost qa1 (qc1 ++ p ++ ws) [] [] (nw + n) \/
     rv = FRE_DMA /\ ~ clean s /\ inv N s' lost qa1 qc1 (p ++ ws) [] (nw + n)).

Lemma put_post_failed n ws s s' lost qa qc p nw qa1 qc1 x :
  inv N s' lost qa1 qc1 p x nw -> adv (hst s) (hst s') qa qc qa1 qc1 -> fifos s' = fifos s ->
  clock s' = clock s -> (clean s -> clean s') -> ~ clean s -> put_post n ws s lost qa qc p nw FRE_DMA s'.
Proof using HN.
  intros Hi **. exists qa1, qc1. do 4 (split; [done|]). left. split; [by eapply inv_forget|by right].
Qed.

(** The last part of [compl_put]. *)
Lemma put_finish n ws s s1 lost qa qc qa1 qc1 p nw :
  inv N s1 lost qa1 qc1 p ws nw -> length ws = n -> adv (hst s) (hst s1) qa qc qa1 qc1 ->
  fifos s1 = fifos s -> clock s1 = clock s -> (clean s -> clean s1) ->
  wpc (let widx := u64 (compl_widx (chan s1) + Z.of_nat n) in
       let c := chan s1 in
       let s := set_chan (Chan (ctrl_addr c) (avail_widx c) (avail_ridx c) widx (compl_ridx c)) s1 in
       frcore_copy_to_remote N P B [widx] (ctrl_addr c + FRC_DMA_SIMPLE_CHAN_COMPL_WIDX_OFFSET N) s)
    (put_post n ws s lost qa qc p nw).
Proof using HN HP HB.
  intros Hi Hn Ha Hff Hck Hcl. cbv zeta. rewrite (i_widx _ _ _ _ _ _ _ _ Hi).
  replace (Z.of_nat nw + Z.of_nat n) with (Z.of_nat (nw + length ws)) by lia.
  rewrite u64_small.
  2: { pose proof (i_nw _ _ _ _ _ _ _ _ Hi). pose proof (i_ridx _ _ _ _ _ _ _ _ Hi).
       pose proof (i_bound _ _ _ _ _ _ _ _ Hi). lia. }
  eapply copy_to_spec; [by eapply (inv_cover _ _ _ _ _ _ _ _ Hi)| |].
  { simpl. unfold FRCORE_CORE_FIFO_NUM. lia. }
  intros s2 qa2 qc2 Hi2 Ha2 (Hch & Hff2 & Hck2 & Hcl2). simpl in Ha2, Hch, Hff2, Hck2. rewrite Hn in *.
  assert (adv (hst s) (hst s2) qa qc qa2 qc2) as Ha' by (by eapply adv_trans).
  split.
  - eexists. split.
    { apply host_write_one. rewrite (i_ctrl _ _ _ _ _ _ _ _ Hi).
      rewrite <- (adv_ctrl _ _ _ _ _ _ Ha2 : ctrl (hst s2) = ctrl (hst s1)).
      unfold FRC_DMA_SIMPLE_CHAN_COMPL_WIDX_OFFSET. apply set_host_word_compl; done. }
    exists qa2, qc2. split; [by apply adv_with_compl|]. split; [simpl; congruence|]. split; [simpl; congruence|].
    split; [intros Hc; apply (Hcl2 (Hcl Hc))|]. right. left. split; [done|].
    pose proof (inv_publish _ _ _ _ _ _ Hi2) as Hi3. cbv zeta in Hi3. rewrite Hch in Hi3. done.
  - intros Hnc. exists qa2, qc2. split; [done|]. split; [simpl; congruence|]. split; [simpl; congruence|].
    split; [intros Hc; apply (Hcl2 (Hcl Hc))|]. right. right. split; [done|].
    split; [intros Hc; by apply Hnc, Hcl|]. inv_stat Hi2.
Qed.

Lemma adv_shrinks h h' qa qc qa' qc' : adv h h' qa qc qa' qc' -> (length qc' <= length qc)%nat.
Proof. intros (add & k & _ & _ & ->). rewrite length_drop. lia. Qed.

Lemma put_part s lost qa qc p x nw ws off (Q : Z -> state -> Prop) :
  inv N s lost qa qc p x nw -> Forall word_ok ws -> Z.of_nat (length ws) <= FIFO_NUM ->
  off = (compl_widx (chan s) + Z.of_nat (length x)) `mod` N -> off + Z.of_nat (length ws) <= N ->
  Z.of_nat (length (qc ++ p ++ x)) + Z.of_nat (length ws) <= N ->
  Z.of_nat (nw + length (x ++ ws)) <= avail_ridx (chan s) ->
  (forall s1 qa' qc', inv N s1 lost qa' qc' p (x ++ ws) nw -> adv (hst s) (hst s1) qa qc qa' qc' ->
     fifos s1 = fifos s -> clock s1 = clock s -> (clean s -> clean s1) -> chan s1 = chan s -> Q FRE_SUCCESS s1) ->
  (forall s1 qa' qc', inv N s1 lost qa' qc' p x nw -> adv (hst s) (hst s1) qa qc qa' qc' ->
     fifos s1 = fifos s -> clock s1 = clock s -> (clean s -> clean s1) -> ~ clean s -> Q FRE_DMA s1) ->
  wpc (frcore_copy_to_remote N P B ws (ctrl_addr (chan s) + FRC_DMA_SIMPLE_CHAN_COMPL_RING_OFFSET N +
         off * RING_BUFF_CELL_SIZE) s) Q.
Proof using HN HP HB.
  intros Hi Hws Hl Hoff Hfit Hroom Hnw HQ HF. eapply copy_to_spec; [exact Hi|done|].
  intros s1 qa' qc' Hi1 Ha (Hch & Hff & Hck & Hcl). pose proof (adv_shrinks _ _ _ _ _ _ Ha) as Hsh. split.
  - rewrite length_app in Hroom.
    destruct (inv_write s1 lost qa' qc' p x nw ws off Hi1) as (h & Ew & Hi2 & Hadv);
      try (by rewrite ?Hch, ?length_app in *; lia || done).
    exists h. split.
    + rewrite (i_ctrl _ _ _ _ _ _ _ _ Hi), <- (adv_ctrl _ _ _ _ _ _ Ha). exact Ew.
    + eapply HQ; [exact Hi2|by apply Hadv|done..].
  - intros Hnc. eapply HF; [inv_stat Hi1|done..].
Qed.

(** The body of [compl_put] once there is room. *)
Definition put_cells (f : nat) (n : nat) (s : state) : option (Z * state) :=
  let ca := ctrl_addr (chan s) in
  let widx := compl_widx (chan s) in
  offset ← umod widx N;
  let room := u64 (N - offset) in
  let len1 := if room <? Z.of_nat n then room else Z.of_nat n in
  let cells := ca + FRC_DMA_SIMPLE_CHAN_COMPL_RING_OFFSET N in
  x ← fifos s !! f;
  ws1 ← arr_read (idx_buff x) 0 len1;
  and_then (frcore_copy_to_remote N P B ws1 (cells + offset * RING_BUFF_CELL_SIZE) s) (fun s =>
  and_then
    (if len1 <? Z.of_nat n
     then x ← fifos s !! f; ws2 ← arr_read (idx_buff x) len1 (Z.of_nat n - len1); frcore_copy_to_remote N P B ws2 cells s
     else Some (FRE_SUCCESS, s)) (fun s =>
  let widx := u64 (widx + Z.of_nat n) in
  let c := chan s in
  let s := set_chan (Chan (ctrl_addr c) (avail_widx c) (avail_ridx c) widx (compl_ridx c)) s in
  frcore_copy_to_remote N P B [widx] (ca + FRC_DMA_SIMPLE_CHAN_COMPL_WIDX_OFFSET N) s)).

Lemma put_post_later n ws s s1 lost qa qc qa1 qc1 p nw rv s' :
  adv (hst s) (hst s1) qa qc qa1 qc1 -> fifos s1 = fifos s -> clock s1 = clock s -> (clean s -> clean s1) ->
  put_post n ws s1 lost qa1 qc1 p nw rv s' -> put_post n ws s lost qa qc p nw rv s'.
Proof.
  intros Ha Hf Hck Hcl (qa2 & qc2 & Ha2 & Hx & Hck2 & Hcl2 & Hg). pose proof (adv_shrinks _ _ _ _ _ _ Ha).
  exists qa2, qc2. split; [by eapply adv_trans|]. split; [congruence|]. split; [congruence|]. split; [auto|].
  destruct Hg as [[Hi Hr]|[?|(? & ? & ?)]]; [left|by right; left|right; right; split; [done|split; [auto|done]]].
  split; [done|]. destruct Hr as [[? ?]|[? ?]]; [left; split; [done|rewrite length_app in *; lia]|right; split; [done|auto]].
Qed.

Lemma put_cells_spec f y n ws s lost qa qc p nw :
  inv N s lost qa qc p [] nw -> fifos s !! f = Some y -> Z.of_nat (length (idx_buff y)) = FIFO_NUM ->
  take n (idx_buff y) = ws -> Forall word_ok ws -> 1 <= Z.of_nat n <= FIFO_NUM ->
  Z.of_nat (nw + n) <= avail_ridx (chan s) -> Z.of_nat (length (qc ++ p)) + Z.of_nat n <= N ->
  wpc (put_cells f n s) (put_post n ws s lost qa qc p nw).
Proof using HN HP HB HPN.
  intros Hi Hy Hlb Hws Hwords Hn Hnw Hroom. unfold put_cells. cbv zeta.
  assert (length ws = n) as Hlws by (rewrite <- Hws, length_take; lia).
  pose proof (Z.mod_pos_bound (compl_widx (chan s)) N ltac:(lia)) as Hoff.
  unfold umod. rewrite (proj2 (Z.eqb_neq N 0)) by lia. simpl mbind.
  set (off := compl_widx (chan s) `mod` N) in *. rewrite (u64_small (N - off)) by lia.
  set (len1 := if N - off <? Z.of_nat n then N - off else Z.of_nat n).
  assert (1 <= len1 <= Z.of_nat n /\ off + len1 <= N /\ (len1 < Z.of_nat n -> off + len1 = N)) as (Hl1 & Hl2 & Hl3)
    by (unfold len1; zcase; lia).
  clearbody len1. rewrite Hy. simpl mbind. rewrite arr_read_eq by lia. simpl mbind.
  assert (take (Z.to_nat len1) (drop (Z.to_nat 0) (idx_buff y)) = take (Z.to_nat len1) ws) as ->
    by (rewrite <- Hws, take_take; simpl; f_equal; lia).
  rewrite length_app in Hroom. apply wpc_and_then.
  eapply (put_part s _ _ _ _ [] _ _ off); try eassumption; rewrite ?length_app, ?length_take; simpl; try lia.
  { by apply Forall_take. }
  { unfold off. f_equal. lia. }
  2: { intros. by eapply put_post_failed. }
  intros s3 qa3 qc3 Hi3 Ha3 Hff3 Hck3 Hcl3 Hch3. cbv beta iota.
  pose proof (adv_shrinks _ _ _ _ _ _ Ha3) as Hsh3. rewrite <- Hch3. apply wpc_and_then.
  destruct (Z.ltb_spec len1 (Z.of_nat n)) as [Hlt|Hge].
  2: { apply wpc_ret. simpl (FRE_SUCCESS =? 0). cbv beta iota. rewrite take_ge in Hi3 by lia.
       by eapply (put_finish n ws s s3). }
  rewrite Hff3, Hy. simpl mbind. rewrite arr_read_eq by lia. simpl mbind.
  assert (take (Z.to_nat (Z.of_nat n - len1)) (drop (Z.to_nat len1) (idx_buff y)) = drop (Z.to_nat len1) ws) as ->
    by (rewrite <- Hws, skipn_firstn_comm; f_equal; lia).
  replace (ctrl_addr (chan s3) + FRC_DMA_SIMPLE_CHAN_COMPL_RING_OFFSET N)
    with (ctrl_addr (chan s3) + FRC_DMA_SIMPLE_CHAN_COMPL_RING_OFFSET N + 0 * RING_BUFF_CELL_SIZE) by lia.
  eapply (put_part s3 _ _ _ _ _ _ _ 0); try eassumption; rewrite ?take_drop, ?length_app, ?length_take, ?length_drop, ?Hch3; try lia.
  - by apply Forall_drop.
  - replace (Z.of_nat (Z.to_nat len1 `min` length ws)) with len1 by lia.
    rewrite <- Zplus_mod_idemp_l. fold off. rewrite Hl3, Z_mod_same_full by lia. done.
  - intros s4 qa4 qc4 Hi4 Ha4 Hff4 Hck4 Hcl4 Hch4. simpl (FRE_SUCCESS =? 0). cbv beta iota.
    rewrite <- Hch4. eapply (put_finish n ws s s4 lost qa qc qa4 qc4 p nw); try eassumption; try congruence.
    + by eapply adv_trans.
    + auto.
  - intros. eapply put_post_failed; try eassumption; [by eapply adv_trans|congruence|congruence|auto|auto].
Qed.

Lemma compl_put_spec f y n ws s lost qa qc p nw :
  inv N s lost qa qc p [] nw -> fifos s !! f = Some y -> Z.of_nat (length (idx_buff y)) = FIFO_NUM ->
  take n (idx_buff y) = ws -> Forall word_ok ws -> 1 <= Z.of_nat n <= FIFO_NUM ->
  Z.of_nat (nw + n) <= avail_ridx (chan s) ->
  wpc (frcore_simple_package_chan_compl_put N P B f (Z.of_nat n) s) (put_post n ws s lost qa qc p nw).
Proof using HN HP HB HPN.
  intros Hi Hy Hlb Hws Hwords Hn Hnw.
  assert (Z.of_nat n <= N) as HnN by (unfold FRCORE_CORE_FIFO_NUM in Hn; lia).
  assert (length ws = n) as Hlws by (rewrite <- Hws, length_take; lia).
  unfold frcore_simple_package_chan_compl_put. apply wpc_and_then.
  eapply copy_from_spec; [exact Hi|unfold FRCORE_CORE_FIFO_NUM; lia|].
  intros s1 qa1 qc1 Hi1 Ha1 (Hch1 & Hff1 & Hck1 & Hcl1). pose proof (adv_shrinks _ _ _ _ _ _ Ha1) as Hsh1.
  split.
  2: { intros Hnc. simpl. eapply put_post_failed; try eassumption; try done. inv_stat Hi1. }
  eexists [_], _. split; [|split; [done|]].
  { apply host_read_one. rewrite (i_ctrl _ _ _ _ _ _ _ _ Hi), <- (adv_ctrl _ _ _ _ _ _ Ha1).
    unfold FRC_DMA_SIMPLE_CHAN_COMPL_RIDX_OFFSET. rewrite host_word_compl by lia. done. }
  simpl (FRE_SUCCESS =? 0). cbv beta iota.
  set (c2 := Chan (ctrl_addr (chan s1)) (avail_widx (chan s1)) (avail_ridx (chan s1))
    (compl_widx (chan s1)) (m_ridx (completed_ring (hst s1)))).
  match goal with |- context [set_chan ?c _] => change c with c2 end.
  pose proof (inv_chan N s1 c2 _ _ _ _ _ _ eq_refl eq_refl eq_refl Hi1) as Hi2.
  set (s2 := set_chan c2 s1) in *.
  assert (u64 (compl_widx (chan s2) - compl_ridx (chan s2)) = Z.of_nat (length (qc1 ++ p))) as Eused.
  { simpl. pose proof (r_compl _ _ _ _ _ _ _ _ (i_rings _ _ _ _ _ _ _ _ Hi1)) as Hc.
    pose proof (h_ridx _ _ _ _ Hc) as Er. pose proof (h_room _ _ _ _ Hc) as Hr. simpl in Er, Hr.
    rewrite (i_widx _ _ _ _ _ _ _ _ Hi1), Er, app_nil_r, Nat.add_0_r in *. rewrite u64_small; lia. }
  rewrite Eused, u64_small by lia. rewrite length_app in *. zcase.
  { apply wpc_ret. exists qa1, qc1. do 4 (split; [done|]).
    left. split; [inv_stat Hi2|left; split; [done|rewrite length_app; lia]]. }
  rewrite <- Hch1. change (ctrl_addr (chan s1)) with (ctrl_addr (chan s2)).
  eapply wpc_mono; [eapply (put_cells_spec f y n ws s2); try eassumption|].
  - simpl. by rewrite Hff1.
  - simpl. rewrite Hch1. lia.
  - rewrite length_app. lia.
  - intros rv s' Hg. eapply put_post_later; [| | | |exact Hg]; done.
Qed.
End card.
