(* ===== verification/ChanPost.v ===== *)
(** * The simple-package channels: FIFOs and posting

    A FIFO as a queue of packets, and the transfer of its packets into blocks. *)

From stdpp Require Import list functions.
From S2P Require Import Prelude Ring Dma Chan ChanMem ChanInv ChanCard.
#[local] Open Scope Z_scope.

(** ** Writing blocks *)

Lemma contents_write_eq m b bs :
  contents (write_block m (b + FRC_DMA_OFFSET, bs)) b = bs ++ drop (length bs) (contents m b).
Proof. unfold contents, write_block. simpl. by rewrite lookup_insert_eq. Qed.

Lemma contents_write_ne m b b' bs :
  b <> b' -> contents (write_block m (b + FRC_DMA_OFFSET, bs)) b' = contents m b'.
Proof. intros H. unfold contents, write_block. simpl. by rewrite lookup_insert_ne by lia. Qed.

(** The requests for the blocks [ws] and the packets [q]. *)
Definition entries (ws : list Z) (q : list (list Z)) : list (Z * list Z) :=
  zip_with (fun b bs => (b + FRC_DMA_OFFSET, bs)) ws q.

Lemma write_entries_ne m ws q b : b ∉ ws -> contents (foldl write_block m (entries ws q)) b = contents m b.
Proof.
  revert m q. induction ws as [|b' ws IH]; intros m q Hb; [done|]. destruct q as [|bs q]; [done|]. simpl.
  apply not_elem_of_cons in Hb as [Hne Hb]. rewrite IH by done. by apply contents_write_ne.
Qed.

Lemma write_entries_at m ws q i b bs :
  NoDup ws -> ws !! i = Some b -> q !! i = Some bs ->
  bs `prefix_of` contents (foldl write_block m (entries ws q)) b.
Proof.
  revert m q i. induction ws as [|b' ws IH]; intros m q i Hnd Hb Hq; [done|].
  destruct q as [|bs' q]; [by destruct i|]. apply NoDup_cons in Hnd as [Hni Hnd]. destruct i as [|i]; simpl in *.
  - injection Hb as ->. injection Hq as ->. rewrite write_entries_ne by done. rewrite contents_write_eq.
    by eexists.
  - by eapply IH.
Qed.

(** ** What the host may do while the card posts *)

(** Blocks change hands; what the host has received and will receive from the
    completed blocks [qc] and the unreported ones [p] stays. *)
Definition mv (p : list Z) (h h' : host) (qa qc qa' qc' : list Z) : Prop :=
  ctrl h' = ctrl h /\ qa `prefix_of` qa' /\ qc' `suffix_of` qc /\
  qa' ++ qc' ++ held h' ≡ₚ qa ++ qc ++ held h /\ trace h' (qc' ++ p) = trace h (qc ++ p).

Lemma mv_refl p h qa qc : mv p h h qa qc qa qc.
Proof. split_and!; done. Qed.

Lemma mv_trans p h1 h2 h3 qa1 qc1 qa2 qc2 qa3 qc3 :
  mv p h1 h2 qa1 qc1 qa2 qc2 -> mv p h2 h3 qa2 qc2 qa3 qc3 -> mv p h1 h3 qa1 qc1 qa3 qc3.
Proof.
  intros (H1 & H2 & H3 & H4 & H5) (K1 & K2 & K3 & K4 & K5).
  split_and!; [congruence|by etrans|by etrans|by etrans|congruence].
Qed.

Lemma adv_mv p h h' qa qc qa' qc' : adv h h' qa qc qa' qc' -> mv p h h' qa qc qa' qc'.
Proof.
  intros H. split_and!.
  - by eapply adv_ctrl.
  - by eapply adv_prefix.
  - destruct H as (add & k & _ & _ & ->). apply suffix_drop.
  - by eapply adv_owned.
  - by eapply adv_trace.
Qed.

Definition with_blocks (m : gmap Z (list Z)) (h : host) : host :=
  Host (ctrl h) (available_ring h) (completed_ring h) m (held h) (puts h) (received h).

Lemma mv_write p h qa qc ws q :
  (forall b, b ∈ ws -> b ∉ qc ++ p) ->
  mv p h (with_blocks (foldl write_block (blocks h) (entries ws q)) h) qa qc qa qc.
Proof.
  intros Hd. split_and!; try done. unfold trace. simpl. f_equal. apply map_ext_in. intros b Hb.
  apply write_entries_ne. intros Hw. apply (Hd b Hw). by apply list_elem_of_In.
Qed.

(** ** FIFOs *)

Section post.
Context (N P B cpu_freq : Z).
Hypothesis HN : 0 < N < 2 ^ 63.
Hypothesis HP : 0 < P.
Hypothesis HPN : P * 16 <= N.
Hypothesis HB : FRC_DMA_SIMPLE_PACKAGE_DATA_SIZE <= B.

#[local] Abbreviation FIFO_NUM := (FRCORE_CORE_FIFO_NUM P).

Definition packet_ok (bs : list Z) : Prop :=
  sizeof_frc_dma_hdr_t + sizeof_frc_dma_pkt_info_t <= Z.of_nat (length bs) <= FRC_DMA_SIMPLE_PACKAGE_DATA_SIZE.

Definition cell_ok (c : fifo_cell) : Prop := Z.of_nat (length (data c)) = FRC_DMA_SIMPLE_PACKAGE_DATA_SIZE.

(** [y] holds the packets [q]; [t] packets have been queued in all. *)
Record fifo_rep (y : fifo) (q : list (list Z)) (t : nat) : Prop := FifoRep {
  f_widx : local_widx y = Z.of_nat t;
  f_ridx : local_ridx y = Z.of_nat t - Z.of_nat (length q);
  f_past : (length q <= t)%nat;
  f_room : Z.of_nat (length q) <= FIFO_NUM;
  f_idx : Z.of_nat (length (idx_buff y)) = FIFO_NUM;
  f_size : Z.of_nat (length (fifo_cells y)) = FIFO_NUM;
  f_cells_ok : Forall cell_ok (fifo_cells y);
  f_packets : Forall packet_ok q;
  f_cells : forall i bs, q !! i = Some bs -> exists c,
    fifo_cells y !! Z.to_nat ((Z.of_nat t - Z.of_nat (length q) + Z.of_nat i) `mod` FIFO_NUM) = Some c /\
    pkt_size c = Z.of_nat (length bs) /\ take (length bs) (data c) = bs }.

Lemma fifo_rep_idx y q t b :
  fifo_rep y q t -> length b = length (idx_buff y) -> fifo_rep (with_idx y b) q t.
Proof. intros [] E. split; simpl; try done. by rewrite E. Qed.

Lemma post_entry_spec y q t i b bs :
  fifo_rep y q t -> Z.of_nat t < 2 ^ 64 -> 0 <= b -> b + FRC_DMA_OFFSET < 2 ^ 64 ->
  idx_buff y !! i = Some b -> q !! i = Some bs ->
  post_entry P y (Z.of_nat i) = Some (b + FRC_DMA_OFFSET, bs).
Proof using HP.
  intros [Hw Hr Hp Hroom Hi Hs Hok Hpk Hc] Ht Hb0 Hb Hx Hq. unfold post_entry.
  pose proof (lookup_lt_Some _ _ _ Hq). destruct (Hc _ _ Hq) as (c & Ec & Es & Ed).
  assert (0 < FIFO_NUM) by (unfold FRCORE_CORE_FIFO_NUM; lia).
  rewrite Hr, u64_small by lia. unfold umod. rewrite (proj2 (Z.eqb_neq FIFO_NUM 0)) by lia. simpl mbind.
  rewrite arr_get_nat, Hx. simpl mbind.
  pose proof (Z.mod_pos_bound (Z.of_nat t - Z.of_nat (length q) + Z.of_nat i) FIFO_NUM ltac:(lia)).
  unfold arr_get. rewrite (proj2 (Z.leb_le 0 _)), Ec by lia. simpl mbind.
  pose proof (proj1 (Forall_lookup _ _) Hok _ _ Ec) as Hd. pose proof (proj1 (Forall_lookup _ _) Hpk _ _ Hq) as Hl.
  unfold cell_ok in Hd. unfold packet_ok in Hl.
  rewrite arr_read_eq by (rewrite ?Es; lia). simpl mbind. rewrite Es, Nat2Z.id.
  change (drop (Z.to_nat 0) (data c)) with (data c). by rewrite Ed, u64_small by (unfold FRC_DMA_OFFSET in *; lia).
Qed.

(** ** Posting *)

Lemma inv_blocks s m lost qa qc p x nw :
  inv N s lost qa qc p x nw -> inv N (set_hst (with_blocks m (hst s)) s) lost qa qc p x nw.
Proof. intros [[H1 H2 H3 H4] H5 H6 H7 H8 H9 H10]. by split. Qed.

Lemma scatter_timely (ps : list (Z * list Z)) os :
  0 < Z.of_nat (length ps) <= P -> Forall (fun p => packet_ok p.2) ps -> timely os ->
  let '(rv, _, moved, _) := frcore_dma_scatter P B (map (fun p => DmaPtr 0 p.1 (Z.of_nat (length p.2))) ps) os in
  moved = (rv =? 0) /\ (Forall (eq Transferred) os -> rv = 0).
Proof using HB.
  intros Hl Hp Ht. rewrite scatter_ok; rewrite ?length_map; try done.
  - destruct os as [|o os]; [done|]. apply Forall_cons in Ht as [Ht _]. cbn [next_outcome fst snd].
    destruct o; [..|done]; (split; [done|]); intros Hos; by apply Forall_cons in Hos as [? _].
  - apply not_true_is_false. intros (x & Hx & Hbad)%existsb_exists.
    apply in_map_iff in Hx as (y & <- & Hy). apply list_elem_of_In in Hy.
    rewrite Forall_forall in Hp. specialize (Hp _ Hy). unfold packet_ok, sizeof_frc_dma_hdr_t, sizeof_frc_dma_pkt_info_t in Hp.
    unfold size_bad in Hbad. simpl in Hbad. apply orb_true_iff in Hbad as [Hz|Hz]; zb; lia.
Qed.

Lemma scatter_send_spec ps s lost qa qc p nw :
  inv N s lost qa qc p [] nw -> 0 < Z.of_nat (length ps) <= P -> Forall (fun p => packet_ok p.2) ps ->
  exists rv s' qa' qc' h1, frcore_dma_scatter_send N P B ps s = Some (rv, s') /\
    inv N s' lost qa' qc' p [] nw /\ same s s' /\ (clean s -> rv = 0) /\
    adv (hst s) h1 qa qc qa' qc' /\
    hst s' = if rv =? 0 then with_blocks (foldl write_block (blocks (hst s)) ps) h1 else h1.
Proof using HN HB.
  intros Hi Hl Hp. destruct (next_dma_spec N HN _ _ _ _ _ _ _ Hi) as (os & s1 & qa' & qc' & E & Hi1 & Ha & Hs & Ht & Hcl).
  unfold frcore_dma_scatter_send. rewrite E. simpl.
  pose proof (scatter_timely ps os Hl Hp Ht) as Hok.
  destruct (frcore_dma_scatter P B _ os) as [[[rv counted] moved] os']. destruct Hok as [-> Hok].
  set (s2 := if counted then FRCORE_STAT_INC stat_dma_errors s1 else s1).
  assert (hst s2 = hst s1 /\ chan s2 = chan s1 /\ script s2 = script s1 /\ fifos s2 = fifos s1 /\ clock s2 = clock s1)
    as (Eh & Ec & Esp & Ef & Eck) by (unfold s2; by destruct counted).
  assert (inv N s2 lost qa' qc' p [] nw) as Hi2 by (by eapply inv_ext; [| | |exact Hi1]).
  assert (blocks (hst s1) = blocks (hst s)) as Eb by (destruct Ha as (? & ? & Ev & _ & _); apply Ev).
  assert (same s s2) as Hs2.
  { destruct Hs as (H1 & H2 & H3 & H4). split_and!; [congruence..|]. intros Hc. unfold clean. rewrite Esp. by apply H4. }
  eexists _, _, qa', qc', (hst s1). split; [done|].
  destruct (rv =? 0) eqn:Er.
  - split; [|split; [|split; [auto|split; [done|]]]].
    + by apply inv_blocks.
    + exact Hs2.
    + simpl. by rewrite Eh, <- Eb.
  - split; [done|]. split; [exact Hs2|]. split; [auto|]. by split.
Qed.

(** The packets from [cur] on are in their blocks. *)
Definition in_blocks (h : host) (ws : list Z) (q : list (list Z)) (lo hi : nat) : Prop :=
  forall i b bs, (lo <= i < hi)%nat -> ws !! i = Some b -> q !! i = Some bs -> bs `prefix_of` contents (blocks h) b.

Lemma stats_frame ps s :
  let s' := foldl post_entry_stats s ps in
  hst s' = hst s /\ chan s' = chan s /\ script s' = script s /\ fifos s' = fifos s /\ clock s' = clock s.
Proof. cbv zeta. revert s. induction ps as [|e ps IH]; intros s; simpl; [done|]. by destruct (IH (post_entry_stats s e)) as (-> & -> & -> & -> & ->). Qed.

Lemma length_entries ws q : length ws = length q -> length (entries ws q) = length q.
Proof. intros H. unfold entries. rewrite length_zip_with. lia. Qed.

(** The entries of one request. *)
Lemma gather_entries y q t ws (cur k : nat) :
  fifo_rep y q t -> Z.of_nat t < 2 ^ 64 -> Forall (fun b => 0 <= b /\ b + FRC_DMA_OFFSET < 2 ^ 64) ws ->
  (cur + k <= length q)%nat -> (cur + k <= length ws)%nat -> (length ws <= length (idx_buff y))%nat ->
  take (length ws) (idx_buff y) = ws ->
  foldM (fun ps i => p ← post_entry P y i; Some (ps ++ [p])) (seqZ (Z.of_nat cur) (Z.of_nat k)) [] =
    Some (entries (take k (drop cur ws)) (take k (drop cur q))).
Proof using HP.
  intros Hf Ht Hw Hq Hl Hli Hx.
  destruct (for_up (fun j ps => ps = entries (take (Z.to_nat j - cur) (drop cur ws)) (take (Z.to_nat j - cur) (drop cur q)))
    (fun ps i => p ← post_entry P y i; Some (ps ++ [p])) (Z.of_nat cur) (Z.of_nat k) []) as (ps & E & ->); [lia| | |].
  - by rewrite Nat2Z.id, Nat.sub_diag.
  - intros j ps Hj ->. destruct (lookup_lt_is_Some_2 ws (Z.to_nat j)) as [b Hb]; [lia|].
    destruct (lookup_lt_is_Some_2 q (Z.to_nat j)) as [bs Hbs]; [lia|].
    assert (idx_buff y !! Z.to_nat j = Some b) as Hib.
    { rewrite <- Hx in Hb. rewrite lookup_take_lt in Hb by (apply lookup_lt_Some in Hb; rewrite length_take in Hb; lia). done. }
    pose proof (proj1 (Forall_lookup _ _) Hw _ _ Hb) as [Hb0 Hb1].
    pose proof (post_entry_spec y q t (Z.to_nat j) b bs Hf Ht Hb0 Hb1 Hib Hbs) as Ee.
    rewrite Z2Nat.id in Ee by lia. rewrite Ee. simpl. eexists. split; [done|].
    replace (Z.to_nat (j + 1) - cur)%nat with (S (Z.to_nat j - cur)) by lia.
    rewrite (take_S_r _ _ b), (take_S_r _ _ bs).
    + unfold entries. rewrite zip_with_app; [done|]. rewrite !length_take, !length_drop. lia.
    + rewrite lookup_drop. rewrite <- Hbs. f_equal. lia.
    + rewrite lookup_drop. rewrite <- Hb. f_equal. lia.
  - rewrite E. by replace (Z.to_nat (Z.of_nat cur + Z.of_nat k) - cur)%nat with k by lia.
Qed.

Lemma NoDup_drop_take {A} (l : list A) (i cur k : nat) x :
  NoDup l -> l !! i = Some x -> (i < cur)%nat -> x ∉ take k (drop cur l).
Proof.
  intros Hnd Hi Hlt (j & Hj)%list_elem_of_lookup. apply lookup_take_Some in Hj as [Hj _].
  rewrite lookup_drop in Hj. pose proof (NoDup_lookup _ _ _ _ Hnd Hi Hj). lia.
Qed.

Lemma elem_of_drop {A} (x : A) n l : x ∈ drop n l -> x ∈ l.
Proof. intros H. rewrite <- (take_drop n l). apply elem_of_app. by right. Qed.

Lemma elem_of_take_1 {A} (x : A) n l : x ∈ take n l -> x ∈ l.
Proof. intros H. rewrite <- (take_drop n l). apply elem_of_app. by left. Qed.

Lemma NoDup_drop {A} (l : list A) n : NoDup l -> NoDup (drop n l).
Proof. intros H. rewrite <- (take_drop n l) in H. by apply NoDup_app in H as (_ & _ & ?). Qed.

Lemma NoDup_take {A} (l : list A) n : NoDup l -> NoDup (take n l).
Proof. intros H. rewrite <- (take_drop n l) in H. by apply NoDup_app in H as (? & _ & _). Qed.

(** One request adds its packets to those in blocks. *)
Lemma in_blocks_write h h1 ws q (cur k : nat) :
  NoDup ws -> in_blocks h ws q 0 cur -> blocks h1 =
    foldl write_block (blocks h) (entries (take k (drop cur ws)) (take k (drop cur q))) ->
  in_blocks h1 ws q 0 (cur + k).
Proof.
  intros Hnd Hin Hb i b bs Hi Hw Hq. rewrite Hb. destruct (decide (i < cur)%nat) as [Hlt|Hge].
  - rewrite write_entries_ne by (by eapply NoDup_drop_take). apply (Hin i); [lia|done..].
  - apply (write_entries_at _ _ _ (i - cur)).
    + by apply NoDup_take, NoDup_drop.
    + rewrite lookup_take_lt, lookup_drop by lia. rewrite <- Hw. f_equal. lia.
    + rewrite lookup_take_lt, lookup_drop by lia. rewrite <- Hq. f_equal. lia.
Qed.

Record posting (f : nat) (y : fifo) (q : list (list Z)) (t : nat) (ws : list Z) (s : state)
    (lost qa qc p : list Z) (nw : nat) : Prop := Posting {
  g_fifo : fifos s !! f = Some y;
  g_rep : fifo_rep y q t;
  g_total : Z.of_nat t < 2 ^ 64;
  g_nodup : NoDup ws;
  g_range : Forall (fun b => 0 <= b /\ b + FRC_DMA_OFFSET < 2 ^ 64) ws;
  g_idx : take (length ws) (idx_buff y) = ws;
  g_few : (length ws <= length (idx_buff y))%nat;
  g_queue : (length ws <= length q)%nat;
  g_inv : inv N s lost qa qc p [] nw;
  g_free : forall b, b ∈ ws -> b ∉ qc ++ p }.

Lemma posting_step f y q t ws s s' lost qa qc qa' qc' p nw :
  posting f y q t ws s lost qa qc p nw -> fifos s' = fifos s -> inv N s' lost qa' qc' p [] nw ->
  mv p (hst s) (hst s') qa qc qa' qc' -> posting f y q t ws s' lost qa' qc' p nw.
Proof.
  intros [] Hf Hi (_ & _ & [l ->] & _ & _). split; try done; [by rewrite Hf|].
  intros b Hb Hin. apply (g_free0 b Hb). rewrite <- app_assoc. by apply elem_of_app; right.
Qed.

Lemma post_loop_spec fuel f y q t ws cur rem s lost qa qc p nw :
  posting f y q t ws s lost qa qc p nw -> length ws = (cur + rem)%nat -> (rem <= fuel)%nat ->
  in_blocks (hst s) ws q 0 cur ->
  exists m s' qa' qc', post_loop N P B fuel f (Z.of_nat cur) (Z.of_nat rem) s = Some (Z.of_nat (cur + m), s') /\
    (m <= rem)%nat /\ posting f y q t ws s' lost qa' qc' p nw /\ mv p (hst s) (hst s') qa qc qa' qc' /\ same s s' /\
    (clean s -> m = rem) /\ in_blocks (hst s') ws q 0 (cur + m).
Proof using HN HP HB.
  revert cur rem s qa qc. induction fuel as [|fuel IH]; intros cur rem s qa qc Hg Hlen Hfuel Hin; simpl.
  { exists 0%nat, s, qa, qc. rewrite Nat.add_0_r. split; [done|]. split; [lia|]. split; [done|]. split; [apply mv_refl|]. split; [by split_and!|]. split; [lia|done]. }
  destruct (Z.eqb_spec (Z.of_nat rem) 0) as [Hz|Hz].
  { exists 0%nat, s, qa, qc. rewrite Nat.add_0_r. split; [done|]. split; [lia|]. split; [done|]. split; [apply mv_refl|]. split; [by split_and!|]. split; [lia|done]. }
  set (k := Z.to_nat (if P <? Z.of_nat rem then P else Z.of_nat rem)).
  assert ((if P <? Z.of_nat rem then P else Z.of_nat rem) = Z.of_nat k) as -> by (unfold k; zcase; lia).
  assert ((1 <= k <= rem)%nat /\ Z.of_nat k <= P) as [Hk HkP] by (unfold k; zcase; lia). clearbody k.
  pose proof Hg as [Hf Hr Ht Hnd Hrg Hx Hfew Hq Hi Hfree]. rewrite Hf. simpl mbind.
  rewrite (gather_entries y q t ws cur k) by (done || lia). simpl mbind.
  set (es := entries (take k (drop cur ws)) (take k (drop cur q))).
  destruct (stats_frame es s) as (Eh & Ec & Esp & Ef & Eck). set (s1 := foldl post_entry_stats s es) in *.
  assert (length es = k) as Hes.
  { unfold es. rewrite length_entries; rewrite !length_take, !length_drop; lia. }
  destruct (scatter_send_spec es s1 lost qa qc p nw) as (rv & s2 & qa2 & qc2 & h1 & E & Hi2 & Hs2 & Hcl & Ha & Eh2).
  { by eapply inv_ext; [| | |exact Hi]. }
  { lia. }
  { apply Forall_forall. intros e He. unfold es, entries in He. apply elem_of_zip_with in He as (b & bs & -> & _ & Hbs).
    simpl. apply (proj1 (Forall_forall _ _) (f_packets _ _ _ Hr)). by eapply elem_of_drop, elem_of_take_1. }
  rewrite E. simpl mbind. rewrite Eh in Ha, Eh2. unfold same, clean in Hs2, Hcl. rewrite Ec, Ef, Eck, Esp in Hs2. rewrite Esp in Hcl.
  destruct Hs2 as (Hch2 & Hff2 & Hck2 & Hcl2). destruct (Z.eqb_spec rv 0) as [->|Hne].
  - simpl in Eh2. assert (mv p (hst s) (hst s2) qa qc qa2 qc2) as Hmv.
    { rewrite Eh2. assert (blocks (hst s) = blocks h1) as -> by (destruct Ha as (? & ? & Ev & _ & _); by rewrite (e_blocks _ _ _ _ Ev)).
      eapply mv_trans; [by apply adv_mv|]. apply mv_write. intros b Hb Hin'.
      apply (Hfree b); [by eapply elem_of_drop, elem_of_take_1|].
      destruct Ha as (? & k' & _ & _ & ->). apply elem_of_app in Hin' as [Hin'|Hin']; apply elem_of_app;
        [left; by eapply elem_of_drop|by right]. }
    set (s3 := FRCORE_STAT_ADD stat_dma_blocks (Z.of_nat k) s2).
    assert (posting f y q t ws s3 lost qa2 qc2 p nw) as Hg3.
    { eapply (posting_step _ _ _ _ _ s); [done|done| |done]. by eapply inv_ext; [| | |exact Hi2]. }
    replace (Z.of_nat cur + Z.of_nat k) with (Z.of_nat (cur + k)) by lia.
    replace (Z.of_nat rem - Z.of_nat k) with (Z.of_nat (rem - k)) by lia.
    destruct (IH (cur + k)%nat (rem - k)%nat s3 qa2 qc2 Hg3) as (m & s4 & qa4 & qc4 & E4 & Hm & Hg4 & Hmv4 & Hs4 & Hcl4 & Hin4);
      [lia|lia| |].
    { eapply (in_blocks_write (hst s)); [done..|]. simpl. by rewrite Eh2. }
    exists (k + m)%nat, s4, qa4, qc4. rewrite Nat.add_assoc. split; [done|]. split; [lia|]. split; [done|].
    split; [by eapply mv_trans|]. split; [|split; [|done]].
    + destruct Hs4 as (? & ? & ? & H4). simpl in *. split_and!; [congruence..|]. intros Hc. apply H4. by apply Hcl2.
    + intros Hc. rewrite (Hcl4 (Hcl2 Hc)). lia.
  - exists 0%nat, (FRCORE_STAT_INC stat_dma_errors s2), qa2, qc2. rewrite Nat.add_0_r. simpl in Eh2.
    replace (rv =? 0) with false in Eh2 by (symmetry; by apply Z.eqb_neq).
    assert (mv p (hst s) (hst s2) qa qc qa2 qc2) as Hmv by (rewrite Eh2; by apply adv_mv).
    split; [done|]. split; [lia|]. split; [|split; [done|split; [done|split; [intros Hc; by apply Hcl in Hc|]]]].
    + eapply (posting_step _ _ _ _ _ s); [done|done| |done]. by eapply inv_ext; [| | |exact Hi2].
    + simpl. rewrite Eh2. destruct Ha as (? & ? & Ev & _ & _). intros i b bs Hi' Hb Hbs.
      rewrite (e_blocks _ _ _ _ Ev). by eapply Hin.
Qed.
End post.
