(* ===== verification/ChanProps.v ===== *)
(** * The simple-package channels: the operations of a FIFO

    Who owns which block ([owned]), and the specifications of posting a FIFO and of
    queueing a packet, for every behaviour of the host and every failure; in an
    [ideal] state, one where nothing fails and nothing was lost, they say more. *)

From stdpp Require Import list functions.
From S2P Require Import Prelude Ring Dma Chan ChanMem ChanInv ChanCard ChanPost.
#[local] Open Scope Z_scope.

Section props.
Context (N P B cpu_freq : Z).
Hypothesis HN : 0 < N < 2 ^ 63.
Hypothesis HP : 0 < P.
Hypothesis HPN : P * 16 <= N.
Hypothesis HB : FRC_DMA_SIMPLE_PACKAGE_DATA_SIZE <= B.

#[local] Abbreviation FIFO_NUM := (FRCORE_CORE_FIFO_NUM P).

(** The blocks of the channel. *)
Context (pool : list Z).
Definition block_ok (b : Z) : Prop := 0 <= b /\ b + FRC_DMA_SIMPLE_PACKAGE_BLOCK_SIZE <= 2 ^ 64.
Hypothesis Hpool : NoDup pool.
Hypothesis Hblocks : Forall block_ok pool.

Lemma HB128 : 128 <= B.
Proof using HB. unfold FRC_DMA_SIMPLE_PACKAGE_DATA_SIZE, FRC_DMA_SIMPLE_PACKAGE_BLOCK_SIZE, FRC_DMA_OFFSET in HB. lia. Qed.

(** ** Ownership *)

(** [out]: blocks in the hands of a core, or dropped by it after a failure. *)
Record owned (s : state) (lost qa qc p out : list Z) (nw : nat) : Prop := Owned {
  o_inv : inv N s lost qa qc p [] nw;
  o_own : (qa ++ qc ++ held (hst s)) ++ p ++ out ≡ₚ pool }.

Lemma owned_ext s s' lost qa qc p out nw :
  hst s' = hst s -> chan s' = chan s -> script s' = script s ->
  owned s lost qa qc p out nw -> owned s' lost qa qc p out nw.
Proof. intros E1 E2 E3 [Hi Ho]. split; [by eapply inv_ext; [| | |exact Hi]|by rewrite E1]. Qed.

Lemma owned_mv s s' lost lost' qa qc p out nw qa' qc' :
  owned s lost qa qc p out nw -> mv p (hst s) (hst s') qa qc qa' qc' -> inv N s' lost' qa' qc' p [] nw ->
  owned s' lost' qa' qc' p out nw.
Proof. intros [_ Ho] (_ & _ & _ & Hp & _) Hi. split; [done|]. by rewrite Hp. Qed.

(** The next [n] free blocks leave for the core. *)
Lemma own_take (qa qc hd p out : list Z) n :
  (qa ++ qc ++ hd) ++ p ++ out ≡ₚ pool ->
  (drop n qa ++ qc ++ hd) ++ p ++ take n qa ++ out ≡ₚ pool.
Proof. intros E. rewrite <- E. rewrite <- (take_drop n qa) at 3. solve_Permutation. Qed.

(** They become unreported, or completed. *)
Lemma own_put (qa qc hd p ws out : list Z) :
  (qa ++ qc ++ hd) ++ p ++ ws ++ out ≡ₚ pool -> (qa ++ qc ++ hd) ++ (p ++ ws) ++ out ≡ₚ pool.
Proof. intros E. by rewrite <- (app_assoc p ws). Qed.

Lemma own_publish (qa qc hd p out : list Z) :
  (qa ++ qc ++ hd) ++ p ++ out ≡ₚ pool -> (qa ++ (qc ++ p) ++ hd) ++ [] ++ out ≡ₚ pool.
Proof. intros E. rewrite <- E. solve_Permutation. Qed.

Lemma own_in (l rest : list Z) : l ++ rest ≡ₚ pool -> NoDup l /\ Forall block_ok l.
Proof using Hpool Hblocks.
  intros E. rewrite <- E in Hpool, Hblocks. apply NoDup_app in Hpool as (? & _ & _). by apply Forall_app in Hblocks as [? _].
Qed.

Lemma block_words l : Forall block_ok l -> Forall word_ok l.
Proof.
  intros H. eapply Forall_impl; [exact H|]. intros b [? ?]. unfold word_ok, FRC_DMA_SIMPLE_PACKAGE_BLOCK_SIZE in *. lia.
Qed.

(** Blocks in hand are not on their way to the host. *)
Lemma own_hand (qa qc hd p ws out : list Z) :
  (qa ++ qc ++ hd) ++ p ++ ws ++ out ≡ₚ pool ->
  NoDup ws /\ Forall block_ok ws /\ (forall b, b ∈ ws -> b ∉ qc ++ p).
Proof using Hpool Hblocks.
  intros E. assert (ws ++ (qc ++ p) ++ qa ++ hd ++ out ≡ₚ pool) as E'.
  { rewrite <- E. solve_Permutation. }
  destruct (own_in _ _ E') as [? ?]. split; [done|]. split; [done|].
  rewrite <- E' in Hpool. apply NoDup_app in Hpool as (_ & Hd & _). intros b Hb Hin. apply (Hd b Hb).
  apply elem_of_app. by left.
Qed.

(** ** Posting a FIFO *)

(** What posting FIFO [f], holding [q], leads to: the FIFO holds [q] as before or
    nothing.  In an [ideal] state nothing gets lost: no transfer fails, no block was
    dropped or left unreported, and the completed ring is large enough. *)
Definition ideal (s : state) (lost p out : list Z) : Prop :=
  clean s /\ lost = [] /\ p = [] /\ out = [] /\ Z.of_nat (length pool) <= N.

Definition posted (f : nat) (q : list (list Z)) (t : nat) (free I : Prop) (s s' : state) (qc : list Z) : Prop :=
  exists lost' qa' qc' p' out' nw' y' q',
    owned s' lost' qa' qc' p' out' nw' /\ fifos s' = <[f := y']> (fifos s) /\ fifo_rep P y' q' t /\
    (q' = q \/ q' = []) /\
    (I -> ideal s' lost' p' out' /\ (free -> q' = []) /\
      exists cs, trace (hst s') qc' = trace (hst s) qc ++ cs /\
        (q' = q /\ cs = [] \/ q' = [] /\ Forall2 prefix q cs)).

Lemma posted_idle f q t (free I : Prop) s s' qc lost' qa' qc' p' out' nw' y' :
  owned s' lost' qa' qc' p' out' nw' -> fifos s' = <[f := y']> (fifos s) -> fifo_rep P y' q t ->
  (I -> ideal s' lost' p' out' /\ (free -> q = []) /\ trace (hst s') qc' = trace (hst s) qc) ->
  posted f q t free I s s' qc.
Proof.
  intros Ho Hf Hr Hi. exists lost', qa', qc', p', out', nw', y', q. do 3 (split; [done|]). split; [by left|].
  intros Hid. destruct (Hi Hid) as (H1 & H2 & H3). split; [done|]. split; [done|].
  exists []. rewrite app_nil_r. split; [done|]. by left.
Qed.

Lemma rep_exhaust y q t e d :
  fifo_rep P y q t ->
  fifo_rep P (Fifo (local_widx y) (local_ridx y) (post_cycle y) (idx_buff y) (fifo_cells y) e d) q t.
Proof. intros []. by split. Qed.

(** The FIFO is empty after the packets were posted. *)
Lemma rep_advance y q t c :
  fifo_rep P y q t -> Z.of_nat t < 2 ^ 64 ->
  fifo_rep P (Fifo (local_widx y) (u64 (local_ridx y + Z.of_nat (length q))) c (idx_buff y) (fifo_cells y)
    (block_exhaust y) (last_display y)) [] t.
Proof using HP.
  intros [Hw Hr Hp Hroom Hi Hs Hok Hpk Hc] Ht. split; simpl; try done.
  - rewrite Hr, u64_small by lia. lia.
  - lia.
  - unfold FRCORE_CORE_FIFO_NUM. lia.
Qed.

Lemma fifo_post_loop_0 fuel f s : fifo_post_loop N P B cpu_freq fuel f 0 s = Some s.
Proof. by destruct fuel. Qed.

Lemma trace_app h a b : trace h (a ++ b) = trace h a ++ map (contents (blocks h)) b.
Proof. unfold trace. by rewrite map_app, app_assoc. Qed.

Lemma in_blocks_Forall2 h ws q n :
  length ws = n -> length q = n -> in_blocks h ws q 0 n -> Forall2 prefix q (map (contents (blocks h)) ws).
Proof.
  intros Hw Hq Hin. apply Forall2_same_length_lookup. rewrite length_map. split; [lia|].
  intros i bs c Hbs Hc. rewrite list_lookup_fmap in Hc. destruct (ws !! i) as [b|] eqn:Hb; [|done].
  injection Hc as <-. pose proof (lookup_lt_Some _ _ _ Hb). eapply Hin; [|done..]. lia.
Qed.

(** The last step of a post: the blocks [ws], which hold the packets, are completed. *)
Definition complete (f n : nat) (s : state) : option state :=
  '(rv, s) ← frcore_simple_package_chan_compl_put N P B f (Z.of_nat n) s;
  if negb (rv =? 0) then Some (FRCORE_STAT_INC stat_compl_put_err s)
  else
    let '(now, s) := get_cycle (FRCORE_STAT_INC stat_compl_put s) in
    advance_local_ridx f (Z.of_nat n) now s.

Lemma get_cycle_frame s :
  let s' := (get_cycle s).2 in
  hst s' = hst s /\ chan s' = chan s /\ fifos s' = fifos s /\ script s' = script s.
Proof. unfold get_cycle. by destruct (clock s). Qed.

Lemma ideal_room s lost qa qc p ws out nw :
  owned s lost qa qc p (ws ++ out) nw -> ideal s lost p out ->
  Z.of_nat (length (qc ++ p)) + Z.of_nat (length ws) <= N.
Proof.
  intros [_ Ho] (_ & _ & -> & -> & Hl). apply Permutation_length in Ho.
  rewrite !length_app in *. simpl in *. lia.
Qed.

Lemma complete_spec f y q t n ws s lost qa qc p out nw (free I : Prop) :
  owned s lost qa qc p (ws ++ out) nw -> fifos s !! f = Some y -> fifo_rep P y q t -> Z.of_nat t < 2 ^ 64 ->
  n = length q -> (0 < n)%nat -> take n (idx_buff y) = ws -> Z.of_nat (nw + n) <= avail_ridx (chan s) ->
  (I -> ideal s lost p out /\ in_blocks (hst s) ws q 0 n) ->
  exists s', complete f n s = Some s' /\ posted f q t free I s s' qc.
Proof using HN HP HPN HB Hpool Hblocks.
  intros Ho Hf Hr Ht Hn H0 Hws Hnw Hin. pose proof (f_idx _ _ _ _ Hr) as Hidx. pose proof (f_room _ _ _ _ Hr) as Hroom.
  assert (length ws = n) as Hlws by (rewrite <- Hws, length_take; lia).
  destruct (own_hand _ _ _ _ _ _ (o_own _ _ _ _ _ _ _ Ho)) as (Hnd & Hok & Hd).
  destruct (compl_put_spec N P B HN HP HPN HB128 f y n ws s lost qa qc p nw) as
    (rv & s1 & E & qa1 & qc1 & Ha & Hff & Hck & Hcl & Hcases);
    [apply Ho|done|done|done|by apply block_words|lia|done|].
  unfold complete. rewrite E. simpl mbind. pose proof (adv_mv p _ _ _ _ _ _ Ha) as Hmv.
  assert (<[f := y]> (fifos s) = fifos s) as Hid by (by apply list_insert_id).
  destruct Hcases as [[Hi Hc]|[[-> Hi]|(-> & Hnc & Hi)]].
  - exists (FRCORE_STAT_INC stat_compl_put_err s1). split.
    { by destruct Hc as [[-> _]|[-> _]]. }
    eapply (posted_idle f q t free I s _ qc lost qa1 qc1 p (ws ++ out) nw y); [|by rewrite Hid|done|].
    + eapply owned_ext; [| | |eapply (owned_mv _ _ _ _ _ _ _ _ _ _ _ Ho Hmv Hi)]; done.
    + intros [Hideal _]%Hin. exfalso. pose proof (ideal_room _ _ _ _ _ _ _ _ Ho Hideal).
      destruct Hc as [[_ ?]|[_ Hnc]]; [lia|]. by apply Hnc, Hideal.
  - simpl (negb _). cbv iota. destruct (get_cycle_frame (FRCORE_STAT_INC stat_compl_put s1)) as (Eh & Ec & Ef & Es).
    destruct (get_cycle (FRCORE_STAT_INC stat_compl_put s1)) as [now s2]. simpl in Eh, Ec, Ef, Es.
    unfold advance_local_ridx. rewrite Ef, Hff, Hf. simpl mbind. eexists. split; [done|].
    exists lost, qa1, (qc1 ++ p ++ ws), [], out, (nw + n)%nat.
    eexists _, []. split; [|split; [simpl; by rewrite Ef, Hff|split; [subst n; by apply rep_advance|split; [by right|]]]].
    + split.
      * eapply inv_ext; [| | |exact Hi]; simpl; done.
      * simpl. rewrite Eh.
        destruct Hmv as (_ & _ & _ & Hp & _). apply own_publish.
        rewrite Hp. apply own_put. apply Ho.
    + intros [(Hc & -> & -> & -> & Hl) Hib]%Hin. split; [|split; [done|]].
      * split_and!; try done. unfold clean. simpl. rewrite Es. by apply Hcl.
      * exists (map (contents (blocks (hst s))) ws). split; [|right; split; [done|]].
        -- simpl. rewrite Eh. simpl. rewrite (adv_trace _ _ _ _ _ _ _ Ha). apply trace_app.
        -- by apply (in_blocks_Forall2 _ _ _ n).
  - exists (FRCORE_STAT_INC stat_compl_put_err s1). split; [done|].
    eapply (posted_idle f q t free I s _ qc lost qa1 qc1 (p ++ ws) out (nw + n) y); [|by rewrite Hid|done|].
    + split; [by eapply inv_ext; [| | |exact Hi]|]. simpl. destruct Hmv as (_ & _ & _ & Hp & _). rewrite Hp.
      apply own_put. apply Ho.
    + intros [Hideal _]%Hin. exfalso. by apply Hnc, Hideal.
Qed.

Lemma posted_later f y1 q t (free I : Prop) s s1 s' qc qc1 :
  posted f q t free I s1 s' qc1 -> fifos s1 = <[f := y1]> (fifos s) ->
  (I -> trace (hst s1) qc1 = trace (hst s) qc) -> posted f q t free I s s' qc.
Proof.
  intros (lost' & qa' & qc' & p' & out' & nw' & y' & q' & Ho & Hf & Hr & Hq & Hid) Hf1 Hid1.
  exists lost', qa', qc', p', out', nw', y', q'. split; [done|]. split; [by rewrite Hf, Hf1, list_insert_insert_eq|].
  split; [done|]. split; [done|]. intros Hi. rewrite <- Hid1 by done. by apply Hid.
Qed.

Lemma adv_past h h' qa qc qa' qc' : adv h h' qa qc qa' qc' ->
  Z.of_nat (length (puts h')) - Z.of_nat (length qa') = Z.of_nat (length (puts h)) - Z.of_nat (length qa).
Proof. intros (add & k & [_ _ Hp _ _] & -> & _). rewrite Hp, !length_app. lia. Qed.

(** The packets of a FIFO are copied into the blocks [ws] it was given and completed. *)
Definition deliver (f n : nat) (s : state) : option state :=
  '(posted_num, s) ← frcore_simple_package_chan_post_pkt N P B f (Z.of_nat n) s;
  complete f n
    (if posted_num <? Z.of_nat n
     then FRCORE_STAT_ADD stat_post_err_pkts (Z.of_nat n - posted_num) (FRCORE_STAT_INC stat_pkt_post_err s)
     else FRCORE_STAT_INC stat_pkt_post s).

Lemma block_addresses ws : Forall block_ok ws -> Forall (fun b => 0 <= b /\ b + FRC_DMA_OFFSET < 2 ^ 64) ws.
Proof.
  intros H. eapply Forall_impl; [exact H|]. intros b [? ?].
  unfold FRC_DMA_OFFSET, FRC_DMA_SIMPLE_PACKAGE_BLOCK_SIZE in *. lia.
Qed.

Lemma deliver_spec f y q t n ws s lost qa qc p out nw (free I : Prop) :
  owned s lost qa qc p (ws ++ out) nw -> fifos s !! f = Some y -> fifo_rep P y q t -> Z.of_nat t < 2 ^ 64 ->
  n = length q -> (0 < n)%nat -> take n (idx_buff y) = ws -> Z.of_nat (nw + n) <= avail_ridx (chan s) ->
  (I -> ideal s lost p out) ->
  exists s', deliver f n s = Some s' /\ posted f q t free I s s' qc.
Proof using HN HP HPN HB Hpool Hblocks.
  intros Ho Hf Hr Ht Hn H0 Hws Hnw HI. pose proof (f_idx _ _ _ _ Hr) as Hidx. pose proof (f_room _ _ _ _ Hr) as Hroom.
  assert (length ws = n) as Hlws by (rewrite <- Hws, length_take; lia).
  destruct (own_hand _ _ _ _ _ _ (o_own _ _ _ _ _ _ _ Ho)) as (Hnd & Hok & Hd).
  assert (posting N P f y q t ws s lost qa qc p nw) as Hg.
  { split; try done; [by apply block_addresses|by rewrite Hlws|lia|lia|apply Ho]. }
  destruct (post_loop_spec N P B HN HP HB n f y q t ws 0 n s lost qa qc p nw Hg) as
    (m & s1 & qa1 & qc1 & E & Hm & Hg1 & Hmv & Hs1 & Hcl & Hin); [lia|lia|intros ? ? ? ?; lia|].
  unfold deliver, frcore_simple_package_chan_post_pkt. rewrite Nat2Z.id. change (Z.of_nat 0) with 0 in E.
  rewrite E. simpl mbind. destruct Hs1 as (Hch & Hff & Hck & Hcl1).
  set (s2 := if Z.of_nat m <? Z.of_nat n then _ else _).
  assert (hst s2 = hst s1 /\ chan s2 = chan s1 /\ fifos s2 = fifos s1 /\ script s2 = script s1) as (Eh & Ec & Ef & Es)
    by (unfold s2; by zcase).
  destruct (complete_spec f y q t n ws s2 lost qa1 qc1 p out nw free I) as (s' & E' & Hp); try done.
  - eapply owned_ext; [done..|]. eapply owned_mv; [exact Ho|done|]. apply Hg1.
  - by rewrite Ef, Hff.
  - by rewrite Ec, Hch.
  - intros (Hc & -> & -> & -> & Hl)%HI. split.
    + split_and!; try done. unfold clean. rewrite Es. by apply Hcl1.
    + rewrite Eh. rewrite (Hcl Hc) in Hin. exact Hin.
  - exists s'. split; [exact E'|]. eapply (posted_later _ y); [exact Hp| |].
    + rewrite Ef, Hff. symmetry. by apply list_insert_id.
    + intros (Hc & -> & -> & -> & Hl)%HI. rewrite Eh. destruct Hmv as (_ & _ & _ & _ & Htr).
      by rewrite !app_nil_r in Htr.
Qed.

(** Once the blocks are there. *)
Lemma round_got f y q t n s s1 lost qa qc qa1 qc1 p out nw b (free I : Prop) :
  owned s lost qa qc p out nw -> fifo_rep P y q t -> Z.of_nat t < 2 ^ 64 -> n = length q -> (0 < n)%nat ->
  (I -> ideal s lost p out) -> (f < length (fifos s))%nat ->
  adv (hst s) (hst s1) qa qc qa1 qc1 -> idx_only f y (fifos s) (fifos s1) b -> (clean s -> clean s1) ->
  (n <= length qa1)%nat -> take n b = take n qa1 -> inv N s1 [] (drop n qa1) qc1 p [] nw ->
  exists s', (s ← set_exhaust f 0 (last_display y) s1; deliver f n (FRCORE_STAT_INC stat_avail_get s)) = Some s' /\
    posted f q t free I s s' qc.
Proof using HN HP HPN HB Hpool Hblocks.
  intros Ho Hr Ht Hn H0 HI Hf Ha Hx Hcl Hnq Hb Hi. pose proof Hx as [Hf1 Hlb].
  assert (fifos s1 !! f = Some (with_idx y b)) as Hy1 by (rewrite Hf1; by apply list_lookup_insert_eq).
  unfold set_exhaust. rewrite Hy1. simpl mbind.
  match goal with |- context [deliver f n ?x] => set (s2 := x) end.
  match goal with s2 := context [set_fifo f ?z s1] |- _ => set (y2 := z) in * end.
  assert ((drop n qa1 ++ qc1 ++ held (hst s1)) ++ p ++ take n qa1 ++ out ≡ₚ pool) as Hown.
  { apply own_take. rewrite (adv_owned _ _ _ _ _ _ Ha). apply Ho. }
  destruct (deliver_spec f y2 q t n (take n qa1) s2 [] (drop n qa1) qc1 p out nw free I) as (s' & E & Hp).
  - split; [|done]. by eapply inv_ext; [| | |exact Hi].
  - simpl. rewrite Hf1, list_insert_insert_eq. by apply list_lookup_insert_eq.
  - exact (rep_exhaust _ _ _ 0 (last_display y) (fifo_rep_idx P _ _ _ b Hr Hlb)).
  - done.
  - done.
  - done.
  - exact Hb.
  - simpl. pose proof (adv_past _ _ _ _ _ _ Ha). pose proof (o_inv _ _ _ _ _ _ _ Ho) as Hi0.
    pose proof (i_nw _ _ _ _ _ _ _ _ Hi0) as Hnw. pose proof (i_ridx _ _ _ _ _ _ _ _ Hi0).
    pose proof (i_ridx _ _ _ _ _ _ _ _ Hi) as Hri. rewrite length_drop in Hri. simpl in Hnw. lia.
  - intros (Hc & -> & -> & -> & Hl)%HI. split_and!; try done. by apply Hcl.
  - exists s'. split; [done|]. eapply (posted_later _ y2); [exact Hp| |].
    + simpl. by rewrite Hf1, list_insert_insert_eq.
    + intros (Hc & -> & -> & -> & Hl)%HI. simpl. pose proof (adv_trace _ _ _ _ _ _ [] Ha) as Htr.
      by rewrite !app_nil_r in Htr.
Qed.

Lemma resting_frame y s :
  let s' := (resting cpu_freq y s).2 in
  hst s' = hst s /\ chan s' = chan s /\ fifos s' = fifos s /\ script s' = script s.
Proof. unfold resting, get_cycle. destruct (block_exhaust y =? 0); [done|]. by destruct (clock s). Qed.

Lemma owned_adv s s' lost lost' qa qc p out nw qa' qc' :
  owned s lost qa qc p out nw -> adv (hst s) (hst s') qa qc qa' qc' -> inv N s' lost' qa' qc' p [] nw ->
  owned s' lost' qa' qc' p out nw.
Proof. intros Ho Ha Hi. eapply owned_mv; [exact Ho|by apply adv_mv|done]. Qed.

Lemma trace_adv h h' qa qc qa' qc' : adv h h' qa qc qa' qc' -> trace h' qc' = trace h qc.
Proof. intros Ha. pose proof (adv_trace _ _ _ _ _ _ [] Ha) as Htr. by rewrite !app_nil_r in Htr. Qed.

(** A post of a FIFO that holds packets. *)
Lemma round_spec fuel f y q t s lost qa qc p out nw (I : Prop) :
  owned s lost qa qc p out nw -> fifos s !! f = Some y -> fifo_rep P y q t -> Z.of_nat t < 2 ^ 64 ->
  (0 < length q)%nat -> (I -> ideal s lost p out) ->
  exists s', fifo_post_loop N P B cpu_freq (S fuel) f (Z.of_nat (length q)) s = Some s' /\
    posted f q t ((resting cpu_freq y s).1 = false /\ (length q <= length qa)%nat) I s s' qc.
Proof using HN HP HPN HB Hpool Hblocks.
  intros Ho Hf Hr Ht H0 HI. set (free := (resting cpu_freq y s).1 = false /\ _). set (n := length q) in *.
  pose proof (f_idx _ _ _ _ Hr) as Hidx. pose proof (f_room _ _ _ _ Hr) as Hroom.
  cbn [fifo_post_loop]. rewrite (proj2 (Z.eqb_neq _ 0)) by lia.
  assert ((if Z.of_nat n <? FRCORE_CHAN_POST_LWM P then Z.of_nat n else FRCORE_CHAN_POST_LWM P) = Z.of_nat n) as ->
    by (unfold FRCORE_CHAN_POST_LWM, FRCORE_CORE_FIFO_NUM in *; zcase; lia).
  rewrite Hf. simpl mbind. destruct (resting_frame y s) as (Eh0 & Ec0 & Ef0 & Es0).
  destruct (resting cpu_freq y s) as [rest s0] eqn:Er. simpl in Eh0, Ec0, Ef0, Es0.
  assert (owned s0 lost qa qc p out nw) as Ho0 by (by eapply owned_ext; [| | |exact Ho]).
  assert (<[f := y]> (fifos s) = fifos s) as Hid by (by apply list_insert_id).
  assert (I -> ideal s0 lost p out) as HI0.
  { intros (Hc & ?)%HI. split; [|done]. unfold clean. by rewrite Es0. }
  destruct rest.
  { exists s0. split; [done|]. eapply (posted_idle f q t _ _ s _ qc lost qa qc p out nw y); [done|by rewrite Hid|done|].
    intros Hi. split; [by apply HI0|]. split; [|by rewrite Eh0]. intros [He _].
    unfold free in He. done. }
  destruct (avail_get_spec N P B HN HP HPN HB128 f y n s0 lost qa qc p nw) as
    (rv & s1 & E & qa1 & qc1 & b & Ha & Hx & Hck & Hcl & Hcases);
    [apply Ho0|by rewrite Ef0|done|lia|].
  rewrite E. simpl mbind. pose proof Hx as [Hf1 Hlb]. pose proof (trace_adv _ _ _ _ _ _ Ha) as Htr.
  pose proof (fifo_rep_idx P _ _ _ b Hr Hlb) as Hrb.
  destruct Hcases as [[Hi Hc]|(Hn & Hb & Hc)].
  - pose proof (owned_adv _ _ _ _ _ _ _ _ _ _ _ Ho0 Ha Hi) as Ho1.
    assert (I -> rv = FRE_NOSPACE /\ (length qa < n)%nat) as HInv.
    { intros Hi'. destruct Hc as [?|[_ Hnc]]; [done|]. exfalso. apply Hnc, (HI0 Hi'). }
    destruct Hc as [[-> Hlt]|[-> Hnc]]; simpl (_ =? FRE_NOSPACE); cbv iota.
    + destruct (get_cycle_frame s1) as (Eh1 & Ec1 & Ef1 & Es1).
      destruct (get_cycle s1) as [now s2]. simpl in Eh1, Ec1, Ef1, Es1.
      unfold set_exhaust. rewrite Ef1, Hf1. rewrite list_lookup_insert_eq by (by eapply lookup_lt_Some; rewrite Ef0).
      simpl mbind. eexists. split; [done|].
      eapply (posted_idle f q t _ _ s _ qc lost qa1 qc1 p out nw); [|simpl; by rewrite Ef1, Hf1, Ef0, list_insert_insert_eq| |].
      * eapply owned_ext; [| | |exact Ho1]; simpl; done.
      * exact (rep_exhaust _ _ _ 1 now Hrb).
      * intros Hi'. split; [|split; [intros [_ ?]; lia|simpl; by rewrite Eh1, Htr, Eh0]].
        destruct (HI0 Hi') as [Hcl0 ?]. split; [|done]. unfold clean. simpl. rewrite Es1. by apply Hcl.
    + eexists. split; [done|].
      eapply (posted_idle f q t _ _ s _ qc lost qa1 qc1 p out nw (with_idx y b)); [|simpl; by rewrite Hf1, Ef0|done|].
      * eapply owned_ext; [| | |exact Ho1]; simpl; done.
      * intros Hi'. by destruct (HInv Hi').
  - destruct Hc as [[-> Hi]|(-> & Hnc & Hi)]; simpl (_ =? FRE_NOSPACE); simpl (negb _); cbv iota.
    + destruct (round_got f y q t n s0 s1 lost qa qc qa1 qc1 p out nw b free I) as (s' & E' & Hp); try done; try lia.
      { rewrite Ef0. by eapply lookup_lt_Some. }
      exists s'. split; [|eapply (posted_later _ y); [exact Hp|by rewrite Ef0, Hid|by rewrite Eh0]].
      rewrite <- E'. apply option_bind_ext; [|done]. intros s2. apply option_bind_ext; [|done].
      intros [m s3]. unfold complete. apply option_bind_ext; [|done]. intros [rv s4].
      destruct (negb (rv =? 0)); [done|]. destruct (get_cycle _) as [now s5].
      destruct (advance_local_ridx f (Z.of_nat n) now s5) as [s6|]; [|done]. simpl.
      by rewrite Z.sub_diag, fifo_post_loop_0.
    + eexists. split; [done|].
      eapply (posted_idle f q t _ _ s _ qc (lost ++ take n qa1) (drop n qa1) qc1 p (take n qa1 ++ out) nw (with_idx y b));
        [|simpl; by rewrite Hf1, Ef0|done|].
      * split; [by eapply inv_ext; [| | |exact Hi]|]. simpl. apply own_take. rewrite (adv_owned _ _ _ _ _ _ Ha). apply Ho0.
      * intros Hi'. exfalso. apply Hnc, (HI0 Hi').
Qed.

(** The whole function; [free]: nothing keeps the packets back. *)
Definition unblocked (flag : bool) (y : fifo) (s : state) (q : list (list Z)) (qa : list Z) : Prop :=
  (resting cpu_freq y s).1 = false /\ (length q <= length qa)%nat /\ (flag = true -> Z.of_nat (length q) = FIFO_NUM).

Lemma posted_weaken f q t (free free' I : Prop) s s' qc :
  (free' -> free) -> posted f q t free I s s' qc -> posted f q t free' I s s' qc.
Proof.
  intros Hw (lost' & qa' & qc' & p' & out' & nw' & y' & q' & Ho & Hf & Hr & Hq & Hid).
  exists lost', qa', qc', p', out', nw', y', q'. do 4 (split; [done|]). intros Hi.
  destruct (Hid Hi) as (? & ? & ?). auto.
Qed.

Lemma fifo_post_spec flag f y q t s lost qa qc p out nw (I : Prop) :
  owned s lost qa qc p out nw -> fifos s !! f = Some y -> fifo_rep P y q t -> Z.of_nat t < 2 ^ 64 ->
  (I -> ideal s lost p out) ->
  exists s', frcore_simple_package_fifo_post N P B cpu_freq f flag s = Some s' /\
    posted f q t (unblocked flag y s q qa) I s s' qc.
Proof using HN HP HPN HB Hpool Hblocks.
  intros Ho Hf Hr Ht HI. unfold frcore_simple_package_fifo_post. rewrite Hf. simpl mbind.
  pose proof (f_past _ _ _ _ Hr). rewrite (f_widx _ _ _ _ Hr), (f_ridx _ _ _ _ Hr).
  replace (Z.of_nat t - (Z.of_nat t - Z.of_nat (length q))) with (Z.of_nat (length q)) by lia.
  rewrite u64_small by lia.
  match goal with |- context [if ?c then Some s else _] => destruct c eqn:Ec end.
  - exists s. split; [done|]. eapply (posted_idle f q t _ _ s _ qc lost qa qc p out nw y); try done.
    { symmetry. by apply list_insert_id. }
    intros Hi. split; [by apply HI|]. split; [|done]. intros (_ & _ & Hfl). apply nil_length_inv.
    destruct flag; zb; [|lia]. exfalso. apply Ec. by apply Hfl.
  - destruct (length q) as [|n] eqn:El.
    { destruct flag; [|done]. zb. unfold FRCORE_CHAN_POST_LWM in Ec. lia. }
    rewrite Nat2Z.id. destruct (round_spec n f y q t s lost qa qc p out nw I Ho Hf Hr Ht) as (s' & E & Hp); [lia|done|].
    rewrite El in E. exists s'. split; [done|]. eapply posted_weaken; [|exact Hp].
    intros (? & ? & _). done.
Qed.

(** ** Queueing a packet *)

Lemma fill_pieces (pieces : list (list Z)) i (d : list Z) :
  0 <= i -> i + Z.of_nat (length (concat pieces)) <= Z.of_nat (length d) ->
  foldM (fun '(i, d) bs => d ← arr_write d i bs; Some (i + Z.of_nat (length bs), d)) pieces (i, d) =
    Some (i + Z.of_nat (length (concat pieces)),
      take (Z.to_nat i) d ++ concat pieces ++ drop (Z.to_nat i + length (concat pieces)) d).
Proof.
  revert i d. induction pieces as [|bs pieces IH]; intros i d Hi Hl; simpl in *.
  { by rewrite Z.add_0_r, Nat.add_0_r, take_drop. }
  rewrite length_app in Hl. rewrite arr_write_eq by lia. simpl.
  rewrite IH by (rewrite ?length_splice; lia). rewrite length_app. f_equal. f_equal; [lia|].
  replace (Z.to_nat (i + Z.of_nat (length bs))) with (Z.to_nat i + length bs)%nat by lia.
  assert (length (take (Z.to_nat i) d) = Z.to_nat i) as Ht by (rewrite length_take; lia).
  rewrite (app_assoc (take _ _) bs). rewrite take_app_length' by (rewrite length_app; lia).
  rewrite <- (drop_drop (_ ++ _) _ (Z.to_nat i + length bs)), drop_app_length' by (rewrite length_app; lia).
  by rewrite drop_drop, Nat.add_assoc, !app_assoc.
Qed.

Lemma fill_cell_spec c size pieces :
  cell_ok c -> packet_ok (concat pieces) -> size = Z.of_nat (length (concat pieces)) ->
  exists d, fill_cell c size pieces = Some (Cell size d) /\
    take (length (concat pieces)) d = concat pieces /\ cell_ok (Cell size d).
Proof.
  intros Hc [Hp1 Hp2] ->. unfold cell_ok, FRC_DMA_SIMPLE_PACKAGE_DATA_SIZE, FRC_DMA_SIMPLE_PACKAGE_BLOCK_SIZE, FRC_DMA_OFFSET in *.
  unfold fill_cell. rewrite fill_pieces by lia. simpl.
  unfold wrapu. rewrite Z.mod_small by (simpl; lia). eexists. split; [done|]. simpl.
  split; [by rewrite take_app_length|]. rewrite length_app, length_drop. lia.
Qed.

Lemma queue_cell (l : list fifo_cell) q t bs c i bs' :
  Z.of_nat (length q) < FIFO_NUM -> (length q <= t)%nat -> Z.of_nat (length l) = FIFO_NUM ->
  (forall i bs, q !! i = Some bs -> exists c,
     l !! Z.to_nat ((Z.of_nat t - Z.of_nat (length q) + Z.of_nat i) `mod` FIFO_NUM) = Some c /\
     pkt_size c = Z.of_nat (length bs) /\ take (length bs) (data c) = bs) ->
  pkt_size c = Z.of_nat (length bs) -> take (length bs) (data c) = bs -> (q ++ [bs]) !! i = Some bs' ->
  exists c', <[Z.to_nat (Z.of_nat t `mod` FIFO_NUM) := c]> l !!
      Z.to_nat ((Z.of_nat t - Z.of_nat (length q) + Z.of_nat i) `mod` FIFO_NUM) = Some c' /\
    pkt_size c' = Z.of_nat (length bs') /\ take (length bs') (data c') = bs'.
Proof using HP.
  intros Hlt Hle Hl Hq Hs Ht Hi. assert (0 < FIFO_NUM) by (unfold FRCORE_CORE_FIFO_NUM; lia).
  pose proof (Z.mod_pos_bound (Z.of_nat t) FIFO_NUM ltac:(lia)).
  apply lookup_app_Some in Hi as [Hi|[Hge Hi]].
  - destruct (Hq _ _ Hi) as (c' & Hc & ?). exists c'. split; [|done]. pose proof (lookup_lt_Some _ _ _ Hi).
    rewrite list_lookup_insert_ne; [done|].
    set (x := Z.of_nat t - Z.of_nat (length q) + Z.of_nat i) in *.
    pose proof (Z.mod_pos_bound x FIFO_NUM ltac:(lia)).
    pose proof (mod_ne FIFO_NUM x (Z.of_nat t) ltac:(lia) ltac:(lia)). lia.
  - apply list_lookup_singleton_Some in Hi as [Hi <-]. exists c. split; [|done].
    replace (Z.of_nat t - Z.of_nat (length q) + Z.of_nat i) with (Z.of_nat t) by lia.
    apply list_lookup_insert_eq. lia.
Qed.

(** A legal packet is appended, or refused because the FIFO is full. *)
Lemma fifo_add_spec f y q t s pieces :
  fifos s !! f = Some y -> fifo_rep P y q t -> Z.of_nat t + 1 < 2 ^ 64 -> packet_ok (concat pieces) ->
  exists y', fifo_add P f (Z.of_nat (length (concat pieces))) (Some pieces) s =
      Some (if Z.of_nat (length q) <? FIFO_NUM then (FRE_SUCCESS, set_fifo f y' s)
            else (FRE_NOSPACE, FRCORE_STAT_INC stat_queue_no_space s)) /\
    (Z.of_nat (length q) < FIFO_NUM -> fifo_rep P y' (q ++ [concat pieces]) (S t)).
Proof using HP.
  intros Hf Hr Ht Hp. pose proof Hr as [Hw Hri Hpast Hroom Hi Hs Hok Hpk Hc]. unfold fifo_add.
  pose proof Hp as [_ Hp2]. unfold FRC_DMA_SIMPLE_PACKAGE_DATA_SIZE, FRC_DMA_SIMPLE_PACKAGE_BLOCK_SIZE, FRC_DMA_OFFSET in Hp2.
  rewrite (proj2 (Z.ltb_ge 2048 _)) by lia. rewrite Hf. simpl mbind. rewrite Hw, Hri.
  replace (Z.of_nat t - (Z.of_nat t - Z.of_nat (length q))) with (Z.of_nat (length q)) by lia.
  rewrite u64_small by lia. destruct (Z.ltb_spec (Z.of_nat (length q)) FIFO_NUM) as [Hlt|Hge].
  2: { rewrite (proj2 (Z.leb_le _ _)) by lia. exists y. split; [done|lia]. }
  rewrite (proj2 (Z.leb_gt _ _)) by lia. assert (0 < FIFO_NUM) by (unfold FRCORE_CORE_FIFO_NUM; lia).
  unfold umod. rewrite (proj2 (Z.eqb_neq FIFO_NUM 0)) by lia. simpl mbind.
  pose proof (Z.mod_pos_bound (Z.of_nat t) FIFO_NUM ltac:(lia)) as Hm.
  destruct (arr_get_is_Some (fifo_cells y) (Z.of_nat t `mod` FIFO_NUM)) as [c Ec]; [lia|]. rewrite Ec. simpl mbind.
  apply arr_get_Some in Ec as [_ Ec]. pose proof (proj1 (Forall_lookup _ _) Hok _ _ Ec) as Hcok.
  destruct (fill_cell_spec c _ pieces Hcok Hp eq_refl) as (d & Ed & Htk & Hd). rewrite Ed. simpl mbind.
  rewrite arr_set_eq by lia. simpl mbind. eexists. split; [done|]. intros _.
  rewrite u64_small by lia. split; simpl; rewrite ?length_app, ?length_insert; simpl; try lia.
  - by apply Forall_insert.
  - apply Forall_app. by rewrite Forall_singleton.
  - intros i bs' Hib. destruct (queue_cell (fifo_cells y) q t (concat pieces) (Cell (Z.of_nat (length (concat pieces))) d) i bs')
      as (c' & Hc' & Hrest); try done. exists c'. split; [|done]. rewrite <- Hc'. do 3 f_equal. lia.
Qed.
End props.
