(* ===== verification/ChanSys.v ===== *)
(** * The simple-package channels: the system of cores, card and host

    Cores forward packets and run timers, one operation after the other, while the host
    works on the rings and transfers fail as the script says.  The invariant of the
    system ([good]) and that every operation keeps it. *)

From stdpp Require Import list functions.
From S2P Require Import Prelude Ring Dma Chan ChanMem ChanInv ChanCard ChanPost ChanProps.
#[local] Open Scope Z_scope.

(** ** Operations of the cores *)

Inductive op : Type :=
| OpUdp (f : nat) (p : pkt)
| OpRule (f : nat) (tagid : list Z) (p : pkt)
| OpTimer (f : nat).

Definition op_fifo (o : op) : nat := match o with OpUdp f _ | OpRule f _ _ | OpTimer f => f end.

(** The pieces of a packet in the order they are copied. *)
Definition udp_pieces (p : pkt) : list (list Z) :=
  [hdr p; take (Z.to_nat (total_paylen p)) (payload p); info p].
Definition rule_pieces (tagid : list Z) (p : pkt) : list (list Z) :=
  [hdr p; tagid; take (Z.to_nat (total_paylen p)) (payload p); info p].

(** The channel and the packets its FIFOs accepted, with the FIFO of each. *)
Record config : Type := Config { sys : state; accepted : list (nat * list Z) }.

(** The packets of FIFO [f] in [l]. *)
Definition packets_of (f : nat) (l : list (nat * list Z)) : list (list Z) :=
  map snd (filter (fun e => e.1 = f) l).

(** The fields have their sizes; what the code copies exists and fits in a block, or is
    refused for its size. *)
Record pkt_ok (extra : Z) (p : pkt) : Prop := PktOk {
  pk_hdr : Z.of_nat (length (hdr p)) = sizeof_frc_dma_hdr_t;
  pk_info : Z.of_nat (length (info p)) = sizeof_frc_dma_pkt_info_t;
  pk_payload : 0 <= total_paylen p <= Z.of_nat (length (payload p));
  pk_fits : let n := sizeof_frc_dma_hdr_t + sizeof_frc_dma_pkt_info_t + total_paylen p + extra in
    n <= FRC_DMA_SIMPLE_PACKAGE_DATA_SIZE \/ FRC_DMA_SIMPLE_PACKAGE_BLOCK_SIZE < n }.

Definition op_ok (nf : nat) (o : op) : Prop :=
  (op_fifo o < nf)%nat /\
  match o with
  | OpUdp _ p => pkt_ok 0 p
  | OpRule _ tagid p => length tagid = 2%nat /\ pkt_ok 2 p
  | OpTimer _ => True
  end.

Lemma packets_of_app f l l' : packets_of f (l ++ l') = packets_of f l ++ packets_of f l'.
Proof. unfold packets_of. by rewrite filter_app, map_app. Qed.

Lemma packets_of_same f q : packets_of f (map (pair f) q) = q.
Proof. unfold packets_of. induction q as [|b q IH]; simpl; [done|]. rewrite filter_cons_True by done. simpl. by rewrite IH. Qed.

Lemma packets_of_other f g q : f <> g -> packets_of g (map (pair f) q) = [].
Proof. intros Hn. unfold packets_of. induction q as [|b q IH]; simpl; [done|]. by rewrite filter_cons_False. Qed.

Section sys.
Context (N P B cpu_freq : Z).
Hypothesis HN : 0 < N < 2 ^ 63.
Hypothesis HP : 0 < P.
Hypothesis HPN : P * 16 <= N.
Hypothesis HB : FRC_DMA_SIMPLE_PACKAGE_DATA_SIZE <= B.
Context (pool : list Z).
Hypothesis Hpool : NoDup pool.
Hypothesis Hblocks : Forall block_ok pool.

(** ** Running operations *)

Definition keep (f : nat) (bs : list Z) (c : config) (r : Z * state) : config :=
  Config r.2 (if r.1 =? 0 then accepted c ++ [(f, bs)] else accepted c).

Definition step (c : config) (o : op) : option config :=
  match o with
  | OpUdp f p => keep f (concat (udp_pieces p)) c <$> frcore_forward_simple_pkt_to_fifo N P B cpu_freq f p (sys c)
  | OpRule f tagid p =>
    keep f (concat (rule_pieces tagid p)) c <$> frcore_forward_rule_pkt_to_fifo N P B cpu_freq f tagid p (sys c)
  | OpTimer f => (fun s => Config s (accepted c)) <$> frcore_chan_process N P B cpu_freq f (sys c)
  end.

Definition run : list op -> config -> option config := fun ops c => foldM step ops c.

(** Where a channel starts: every block is available, everything else is empty, and none of
    the coming transfers runs out of time ([i_time] of its invariant). *)
Record started (s : state) : Prop := Started {
  st_owned : owned N pool s [] pool [] [] [] 0;
  st_received : received (hst s) = [];
  st_fifos : Forall (fun y => fifo_rep P y [] 0) (fifos s) }.

(** ** The invariant *)

(** The FIFOs hold the packets [qs], [k] operations have run. *)
Definition fifos_ok (k : nat) (fs : list fifo) (qs : list (list (list Z))) : Prop :=
  Forall2 (fun y q => exists t, fifo_rep P y q t /\ (t <= k)%nat) fs qs.

(** [log]: the packets in the order they were completed. *)
Definition logged (c : config) (qc : list Z) (qs : list (list (list Z))) : Prop :=
  exists log, Forall2 (fun e b => e.2 `prefix_of` b) log (trace (hst (sys c)) qc) /\
    forall f, packets_of f (accepted c) = packets_of f log ++ default [] (qs !! f).

Definition good (I : Prop) (k : nat) (c : config) (qs : list (list (list Z))) : Prop :=
  exists lost qa qc p out nw, owned N pool (sys c) lost qa qc p out nw /\ fifos_ok k (fifos (sys c)) qs /\
    (I -> ideal N pool (sys c) lost p out /\ logged c qc qs).

Lemma fifos_ok_mono k k' fs qs : (k <= k')%nat -> fifos_ok k fs qs -> fifos_ok k' fs qs.
Proof. intros Hk H. eapply Forall2_impl; [exact H|]. intros y q (t & ? & ?). exists t. split; [done|lia]. Qed.

Lemma logged_post c s' f q q' qc qc' qs cs :
  qs !! f = Some q -> trace (hst s') qc' = trace (hst (sys c)) qc ++ cs ->
  q' = q /\ cs = [] \/ q' = [] /\ Forall2 prefix q cs ->
  logged c qc qs -> logged (Config s' (accepted c)) qc' (<[f := q']> qs).
Proof.
  intros Hq Htr Hcs (log & Hlog & Hacc). pose proof (lookup_lt_Some _ _ _ Hq) as Hlt. unfold logged. simpl. rewrite Htr.
  destruct Hcs as [[-> ->]|[-> Hcs]].
  - exists log. rewrite app_nil_r, list_insert_id by done. done.
  - exists (log ++ map (pair f) q). split.
    + apply Forall2_app; [done|]. by apply Forall2_fmap_l.
    + intros g. rewrite packets_of_app, Hacc, <- app_assoc. f_equal. destruct (decide (f = g)) as [<-|Hn].
      * by rewrite Hq, list_lookup_insert_eq, packets_of_same, app_nil_r.
      * by rewrite list_lookup_insert_ne, packets_of_other.
Qed.

(** A post, by a timer or before a packet is queued; [room]: there are blocks for all of it. *)
Lemma good_post I k c qs f y flag :
  good I k c qs -> fifos (sys c) !! f = Some y -> Z.of_nat k < 2 ^ 64 ->
  exists s' q', frcore_simple_package_fifo_post N P B cpu_freq f flag (sys c) = Some s' /\
    good I k (Config s' (accepted c)) (<[f := q']> qs) /\
    (I -> flag = false -> (resting cpu_freq y (sys c)).1 = false ->
     local_widx y - local_ridx y <= m_widx (available_ring (hst (sys c))) - avail_ridx (chan (sys c)) -> q' = []) /\
    (I -> forall q, qs !! f = Some q -> q' = q \/ q' = []).
Proof using HN HP HPN HB Hpool Hblocks.
  intros (lost & qa & qc & p & out & nw & Ho & Hf & HI) Hy Hk.
  destruct (Forall2_lookup_l _ _ _ _ _ Hf Hy) as (q & Hq & t & Hr & Ht).
  destruct (fifo_post_spec N P B cpu_freq HN HP HPN HB pool Hpool Hblocks flag f y q t (sys c) lost qa qc p out nw I)
    as (s' & E & lost' & qa' & qc' & p' & out' & nw' & y' & q' & Ho' & Hf' & Hr' & Hq' & Hid); try done; try lia.
  { intros Hi. by apply HI. }
  exists s', q'. split; [done|]. split.
  - exists lost', qa', qc', p', out', nw'. split; [done|]. split.
    + simpl. rewrite Hf'. apply Forall2_insert; [done|]. exists t. split; [done|lia].
    + intros Hi. destruct (Hid Hi) as (Hideal & _ & cs & Htr & Hcs). split; [done|].
      destruct (HI Hi) as [_ Hlog]. by eapply logged_post.
  - split; [|intros Hi q0 Hq0; assert (q0 = q) as -> by congruence; destruct (Hid Hi) as (_ & _ & cs & _ & [[-> _]|[-> _]]); auto].
    intros Hi -> Hrest Hroom. apply (Hid Hi). split; [done|]. split; [|done].
    pose proof (i_ridx _ _ _ _ _ _ _ _ (o_inv _ _ _ _ _ _ _ _ _ Ho)) as Hri.
    pose proof (h_widx _ _ _ _ (r_avail _ _ _ _ _ _ _ _ (i_rings _ _ _ _ _ _ _ _ (o_inv _ _ _ _ _ _ _ _ _ Ho)))) as Hw.
    rewrite (f_widx _ _ _ _ Hr), (f_ridx _ _ _ _ Hr) in Hroom. lia.
Qed.

(** ** Queueing *)

Lemma arr_read_all {A} (l : list A) n : Z.of_nat (length l) = n -> arr_read l 0 n = Some l.
Proof.
  intros <-. unfold arr_read. rewrite !(proj2 (Z.leb_le _ _)) by lia. simpl.
  by rewrite Nat2Z.id, take_ge, drop_0 by (rewrite ?length_drop; lia).
Qed.

Lemma arr_read_take {A} (l : list A) n : 0 <= n <= Z.of_nat (length l) -> arr_read l 0 n = Some (take (Z.to_nat n) l).
Proof. intros Hn. unfold arr_read. by rewrite !(proj2 (Z.leb_le _ _)) by lia. Qed.

Lemma udp_add f p s :
  pkt_ok 0 p -> frcore_simple_package_fifo_add P f p s =
    fifo_add P f (Z.of_nat (length (concat (udp_pieces p)))) (Some (udp_pieces p)) s.
Proof.
  intros [Hh Hi Hp _]. unfold frcore_simple_package_fifo_add, udp_pieces.
  rewrite arr_read_all, arr_read_take, arr_read_all by done. simpl. do 2 f_equal.
  rewrite !length_app, length_take. simpl. lia.
Qed.

Lemma rule_add f tagid p s :
  length tagid = 2%nat -> pkt_ok 2 p -> frcore_rule_packet_fifo_add P f tagid p s =
    fifo_add P f (Z.of_nat (length (concat (rule_pieces tagid p)))) (Some (rule_pieces tagid p)) s.
Proof.
  intros Ht [Hh Hi Hp _]. unfold frcore_rule_packet_fifo_add, rule_pieces.
  rewrite arr_read_all, (arr_read_all tagid), arr_read_take, arr_read_all by (done || lia). simpl. do 2 f_equal.
  rewrite !length_app, length_take. simpl. lia.
Qed.

Definition pieces_ok (pieces : list (list Z)) : Prop :=
  packet_ok (concat pieces) \/ FRC_DMA_SIMPLE_PACKAGE_BLOCK_SIZE < Z.of_nat (length (concat pieces)).

Lemma pkt_pieces extra p pieces :
  pkt_ok extra p -> 0 <= extra ->
  Z.of_nat (length (concat pieces)) = sizeof_frc_dma_hdr_t + sizeof_frc_dma_pkt_info_t + total_paylen p + extra ->
  pieces_ok pieces.
Proof. intros [Hh Hi Hp Hf] He Hl. unfold pieces_ok, packet_ok. rewrite Hl. cbv zeta in Hf. lia. Qed.

Lemma udp_pieces_ok p : pkt_ok 0 p -> pieces_ok (udp_pieces p).
Proof.
  intros H. eapply pkt_pieces; [exact H|done|]. destruct H as [Hh Hi Hp _]. simpl.
  rewrite !length_app, length_take. simpl. lia.
Qed.

Lemma rule_pieces_ok tagid p : length tagid = 2%nat -> pkt_ok 2 p -> pieces_ok (rule_pieces tagid p).
Proof.
  intros Ht H. eapply pkt_pieces; [exact H|done|]. destruct H as [Hh Hi Hp _]. simpl.
  rewrite !length_app, length_take. simpl. lia.
Qed.

Lemma owned_frame s s' lost qa qc p out nw :
  hst s' = hst s -> chan s' = chan s -> script s' = script s ->
  owned N pool s lost qa qc p out nw -> owned N pool s' lost qa qc p out nw.
Proof. apply owned_ext. Qed.

(** What an offered packet does to the queue [q] of its FIFO: it is appended, or refused by a
    full FIFO. *)
Definition offered (f : nat) (bs : list Z) (c c' : config) (q : list (list Z)) (qs qs' : list (list (list Z))) : Prop :=
  (Z.of_nat (length q) < FRCORE_CORE_FIFO_NUM P /\ accepted c' = accepted c ++ [(f, bs)] /\ qs' = <[f := q ++ [bs]]> qs) \/
  ((FRCORE_CORE_FIFO_NUM P <= Z.of_nat (length q) \/ FRC_DMA_SIMPLE_PACKAGE_BLOCK_SIZE < Z.of_nat (length bs)) /\
    accepted c' = accepted c /\ qs' = <[f := q]> qs).

(** What is queued goes to its FIFO and to the accepted packets. *)
Lemma good_add I k c qs f pieces :
  good I k c qs -> (f < length (fifos (sys c)))%nat -> Z.of_nat k + 1 < 2 ^ 64 -> pieces_ok pieces ->
  exists rv s' qs', fifo_add P f (Z.of_nat (length (concat pieces))) (Some pieces) (sys c) = Some (rv, s') /\
    good I (S k) (Config s' (if rv =? 0 then accepted c ++ [(f, concat pieces)] else accepted c)) qs' /\
    length (fifos s') = length (fifos (sys c)) /\
    forall q, qs !! f = Some q -> offered f (concat pieces) c (Config s' (if rv =? 0 then accepted c ++ [(f, concat pieces)] else accepted c)) q qs qs'.
Proof using HP.
  intros (lost & qa & qc & p & out & nw & Ho & Hf & HI) Hlt Hk Hp.
  assert (fifos_ok (S k) (fifos (sys c)) qs) as HfS by (eapply fifos_ok_mono; [|exact Hf]; lia).
  assert (forall st, good I (S k) (Config (FRCORE_STAT_INC st (sys c)) (accepted c)) qs) as Hidle.
  { intros st. exists lost, qa, qc, p, out, nw. split; [by eapply owned_frame; [| | |exact Ho]|]. by split. }
  destruct Hp as [Hp|Hbig].
  2: { exists FRE_EXCEED, (FRCORE_STAT_INC stat_pkt_oversize (sys c)), qs.
       split; [|split_and!; [done..|intros q Hq; right; split_and!; [by right|done|by rewrite list_insert_id]]]. unfold fifo_add. unfold FRC_DMA_SIMPLE_PACKAGE_BLOCK_SIZE in Hbig. rewrite (proj2 (Z.ltb_lt 2048 _)) by lia. done. }
  destruct (lookup_lt_is_Some_2 _ _ Hlt) as [y Hy].
  destruct (Forall2_lookup_l _ _ _ _ _ Hf Hy) as (q & Hq & t & Hr & Ht).
  destruct (fifo_add_spec P HP f y q t (sys c) pieces Hy Hr ltac:(lia) Hp) as (y' & E & Hr').
  rewrite E. destruct (Z.ltb_spec (Z.of_nat (length q)) (FRCORE_CORE_FIFO_NUM P)) as [Hroom|].
  2: { exists FRE_NOSPACE, (FRCORE_STAT_INC stat_queue_no_space (sys c)), qs. split_and!; [done..|].
       intros q0 Hq0. assert (q0 = q) as -> by congruence. right. split_and!; [by left|done|by rewrite list_insert_id]. }
  exists FRE_SUCCESS, (set_fifo f y' (sys c)), (<[f := q ++ [concat pieces]]> qs). split; [done|].
  split; [|split; [simpl; by rewrite length_insert|intros q0 Hq0; assert (q0 = q) as -> by congruence; by left]]. simpl.
  exists lost, qa, qc, p, out, nw. split; [by eapply owned_frame; [| | |exact Ho]|]. split.
  - simpl. apply Forall2_insert; [done|]. exists (S t). split; [by apply Hr'|lia].
  - intros Hi. destruct (HI Hi) as (Hid & log & Hlog & Hacc). split; [done|]. exists log. split; [done|]. simpl.
    intros g. rewrite packets_of_app, Hacc, <- app_assoc. f_equal. pose proof (lookup_lt_Some _ _ _ Hq) as Hql.
    change [(f, concat pieces)] with (map (pair f) [concat pieces]). destruct (decide (f = g)) as [<-|Hn].
    + by rewrite list_lookup_insert_eq, packets_of_same, Hq.
    + by rewrite list_lookup_insert_ne, packets_of_other, app_nil_r.
Qed.

(** ** Steps and runs *)

Lemma good_fifos I k c qs : good I k c qs -> length (fifos (sys c)) = length qs.
Proof. intros (? & ? & ? & ? & ? & ? & _ & Hf & _). by eapply Forall2_length. Qed.

Lemma good_mono I k k' c qs : (k <= k')%nat -> good I k c qs -> good I k' c qs.
Proof.
  intros Hk (lost & qa & qc & p & out & nw & Ho & Hf & HI). exists lost, qa, qc, p, out, nw.
  split; [done|]. split; [by eapply fifos_ok_mono|done].
Qed.

(** A post, and then the offer. *)
Definition posted_offered (I : Prop) (f : nat) (bs : list Z) (c c' : config) (qs qs' : list (list (list Z))) : Prop :=
  I -> forall q, qs !! f = Some q -> exists q1, (q1 = q \/ q1 = []) /\ offered f bs c c' q1 qs qs'.

Definition moves (I : Prop) (c : config) (o : op) (c' : config) (qs qs' : list (list (list Z))) : Prop :=
  match o with
  | OpUdp f p => posted_offered I f (concat (udp_pieces p)) c c' qs qs'
  | OpRule f tagid p => posted_offered I f (concat (rule_pieces tagid p)) c c' qs qs'
  | OpTimer f => I -> forall q, qs !! f = Some q -> exists q1, (q1 = q \/ q1 = []) /\ accepted c' = accepted c /\ qs' = <[f := q1]> qs
  end.

Lemma good_forward I k c qs f pieces add :
  good I k c qs -> (f < length qs)%nat -> Z.of_nat k + 1 < 2 ^ 64 -> pieces_ok pieces ->
  (forall s, add s = fifo_add P f (Z.of_nat (length (concat pieces))) (Some pieces) s) ->
  exists c' qs', (keep f (concat pieces) c <$> forward N P B cpu_freq f add (sys c)) = Some c' /\
    good I (S k) c' qs' /\ length qs' = length qs /\ posted_offered I f (concat pieces) c c' qs qs'.
Proof using HN HP HPN HB Hpool Hblocks.
  intros Hg Hf Hk Hp Hadd. pose proof (good_fifos _ _ _ _ Hg) as Hlen.
  destruct (lookup_lt_is_Some_2 (fifos (sys c)) f) as [y Hy]; [lia|].
  destruct (good_post I k c qs f y true Hg Hy) as (s1 & q' & E1 & Hg1 & _ & Hq'); [lia|].
  pose proof (good_fifos _ _ _ _ Hg1) as Hlen1. rewrite length_insert in Hlen1. simpl in Hlen1.
  destruct (good_add I k _ _ f pieces Hg1) as (rv & s2 & qs' & E2 & Hg2 & Hlen2 & Hof); simpl; [lia..|done|].
  unfold forward. rewrite E1. simpl mbind. rewrite Hadd. simpl in E2, Hlen2. rewrite E2. simpl mbind.
  pose proof (good_fifos _ _ _ _ Hg2) as Hlen3. simpl in Hlen3.
  destruct Hg2 as (lost & qa & qc & p & out & nw & Ho & Hfs & HI).
  assert (forall s3 acc, acc = (if rv =? 0 then accepted c ++ [(f, concat pieces)] else accepted c) ->
    posted_offered I f (concat pieces) c (Config s3 acc) qs qs') as Hoff.
  { intros s3 acc -> Hi q Hq. exists q'. split; [by apply Hq'|].
    specialize (Hof q' ltac:(by apply list_lookup_insert_eq)). unfold offered in *. cbn [accepted] in *. by rewrite !list_insert_insert_eq in Hof. }
  destruct (rv =? 0); simpl in *; (eexists _, qs'; split; [done|]; split; [|split; [lia|by apply Hoff]]);
    exists lost, qa, qc, p, out, nw; (split; [by eapply owned_frame; [| | |exact Ho]|]); by split.
Qed.

Lemma good_step I k c qs o :
  good I k c qs -> op_ok (length qs) o -> Z.of_nat k + 1 < 2 ^ 64 ->
  exists c' qs', step c o = Some c' /\ good I (S k) c' qs' /\ length qs' = length qs /\ moves I c o c' qs qs'.
Proof using HN HP HPN HB Hpool Hblocks.
  intros Hg [Hf Ho] Hk. destruct o as [f p|f tagid p|f]; cbn [step op_fifo] in *.
  - apply good_forward; try done; [by apply udp_pieces_ok|]. intros s. by apply udp_add.
  - destruct Ho as [Ht Hp]. apply good_forward; try done; [by apply rule_pieces_ok|]. intros s. by apply rule_add.
  - pose proof (good_fifos _ _ _ _ Hg) as Hlen.
    destruct (lookup_lt_is_Some_2 (fifos (sys c)) f) as [y Hy]; [lia|].
    destruct (good_post I k c qs f y false Hg Hy) as (s1 & q' & E1 & Hg1 & _ & Hq'); [lia|].
    unfold frcore_chan_process. rewrite E1. eexists _, _. split; [done|]. rewrite length_insert.
    split; [eapply good_mono; [|exact Hg1]; lia|]. split; [done|]. intros Hi q Hq. exists q'. split; [by apply Hq'|done].
Qed.

Lemma good_run I ops k c qs :
  good I k c qs -> Forall (op_ok (length qs)) ops -> Z.of_nat (k + length ops) < 2 ^ 64 ->
  exists c' qs', run ops c = Some c' /\ good I (k + length ops) c' qs' /\ length qs' = length qs.
Proof using HN HP HPN HB Hpool Hblocks.
  revert k c qs. induction ops as [|o ops IH]; intros k c qs Hg Hok Hk; simpl in *.
  { exists c, qs. by rewrite Nat.add_0_r. }
  apply Forall_cons in Hok as [Ho Hok].
  destruct (good_step I k c qs o Hg Ho) as (c1 & qs1 & E1 & Hg1 & Hl1 & _); [lia|].
  unfold run. simpl. rewrite E1. simpl. rewrite <- Hl1 in Hok.
  destruct (IH _ _ _ Hg1 Hok) as (c2 & qs2 & E2 & Hg2 & Hl2); [lia|].
  exists c2, qs2. split; [exact E2|]. split; [|congruence]. by rewrite Nat.add_succ_r.
Qed.

(** The largest promise that holds is kept: [I] is what the run starts with. *)
Definition lossless (s : state) : Prop := clean s /\ Z.of_nat (length pool) <= N.

Lemma good_start s : started s -> good (lossless s) 0 (Config s []) (replicate (length (fifos s)) []).
Proof.
  intros [Ho Hr Hf]. exists [], pool, [], [], [], 0%nat. split; [done|]. split.
  - simpl. clear Ho. induction Hf as [|y l Hy Hl IH]; simpl; constructor; [|done]. by exists 0%nat.
  - intros [Hc Hl]. split; [done|]. exists []. unfold trace. simpl. rewrite Hr. split; [done|].
    intros f. unfold packets_of. simpl. by destruct (replicate _ _ !! f) as [q|] eqn:E;
      [apply lookup_replicate in E as [-> _]|].
Qed.

Lemma run_good s ops :
  started s -> Forall (op_ok (length (fifos s))) ops -> Z.of_nat (length ops) < 2 ^ 64 ->
  exists c qs, run ops (Config s []) = Some c /\ good (lossless s) (length ops) c qs /\ length qs = length (fifos s).
Proof using HN HP HPN HB Hpool Hblocks.
  intros Hs Hok Hk.
  destruct (good_run (lossless s) ops 0 (Config s []) (replicate (length (fifos s)) [])) as (c & qs & E & Hg & Hl).
  - by apply good_start.
  - by rewrite length_replicate.
  - done.
  - exists c, qs. by rewrite length_replicate in Hl.
Qed.
End sys.
