(* ===== verification/ChanSetup.v ===== *)
(** * The simple-package channels: set-up

    The driver puts every block of its pools on the available ring and the card reads
    the indices: the channel then starts as [ChanSys] wants it. *)

From stdpp Require Import list functions.
From S2P Require Import Prelude Ring Dma Chan ChanMem ChanInv ChanCard ChanPost ChanProps ChanSys.
#[local] Open Scope Z_scope.

(** ** The blocks of the pools *)

Definition apart (a b : Z) : Prop := FRC_DMA_POOL_SIZE <= Z.abs (a - b).

Definition pool_ok (a : Z) : Prop := 0 <= a /\ a + FRC_DMA_POOL_SIZE <= 2 ^ 64.

Lemma elem_of_pool_blocks a b :
  b ∈ pool_blocks a <-> exists k, b = a + k * FRC_DMA_SIMPLE_PACKAGE_BLOCK_SIZE /\ 0 <= k < 2048.
Proof.
  unfold pool_blocks. change (FRC_DMA_POOL_SIZE / FRC_DMA_SIMPLE_PACKAGE_BLOCK_SIZE) with 2048.
  rewrite list_elem_of_fmap. split; intros (k & -> & Hk); exists k; (split; [done|]).
  - apply elem_of_seqZ in Hk. lia.
  - apply elem_of_seqZ. lia.
Qed.

Lemma pool_blocks_NoDup a : NoDup (pool_blocks a).
Proof.
  unfold pool_blocks. apply NoDup_fmap_2; [|apply NoDup_seqZ].
  intros i j. unfold FRC_DMA_SIMPLE_PACKAGE_BLOCK_SIZE. lia.
Qed.

Lemma pool_blocks_ok a : pool_ok a -> Forall block_ok (pool_blocks a).
Proof.
  intros [H1 H2]. apply Forall_forall. intros b (k & -> & Hk)%elem_of_pool_blocks. unfold block_ok.
  unfold FRC_DMA_SIMPLE_PACKAGE_BLOCK_SIZE, FRC_DMA_POOL_SIZE in *. lia.
Qed.

Lemma pools_NoDup pools : ForallOrdPairs apart pools -> NoDup (concat (map pool_blocks pools)).
Proof.
  induction 1 as [|a pools Ha _ IH]; cbn [map concat]; [constructor|]. apply NoDup_app. split; [apply pool_blocks_NoDup|].
  split; [|done]. intros b (i & -> & Hi)%elem_of_pool_blocks Hin.
  apply list_elem_of_In, in_concat in Hin as (l & Hl & Hb). apply in_map_iff in Hl as (a' & <- & Ha').
  rewrite List.Forall_forall in Ha. specialize (Ha _ Ha'). apply list_elem_of_In in Hb.
  apply elem_of_pool_blocks in Hb as (j & E & Hj). unfold apart, FRC_DMA_POOL_SIZE, FRC_DMA_SIMPLE_PACKAGE_BLOCK_SIZE in *. lia.
Qed.

Lemma pools_ok pools : Forall pool_ok pools -> Forall block_ok (concat (map pool_blocks pools)).
Proof. induction 1 as [|a pools Ha _ IH]; cbn [map concat]; [constructor|]. apply Forall_app. split; [by apply pool_blocks_ok|done]. Qed.

Section setup.
Context (N P B : Z).
Hypothesis HN : 0 < N < 2 ^ 63.
Hypothesis HP : 4 <= P.
Hypothesis HB : FRC_DMA_SIMPLE_PACKAGE_DATA_SIZE <= B.

Definition with_avail (r : ring) (bs : list Z) (h : host) : host :=
  Host (ctrl h) r (completed_ring h) (blocks h) (held h) (puts h ++ bs) (received h).

Lemma avail_put_all_spec bs h q n :
  holds N (available_ring h) q n -> Z.of_nat (length q + length bs) <= N -> Z.of_nat (n + length bs) < 2 ^ 64 ->
  Forall word_ok bs ->
  exists r, avail_put_all N bs h = Some (FRE_SUCCESS, with_avail r bs h) /\ holds N r (q ++ bs) (n + length bs).
Proof using HN.
  assert (0 < N < 2 ^ 64) as HN' by lia.
  revert h q n. induction bs as [|b bs IH]; intros h q n Hh Hl Hn Hw; simpl in *.
  { exists (available_ring h). rewrite app_nil_r, Nat.add_0_r. split; [|done]. unfold with_avail. rewrite app_nil_r. by destruct h. }
  apply Forall_cons in Hw as [Hb Hw]. apply (holds_iff N HN') in Hh.
  destruct (ring_put_spec N LE HN' b _ _ _ Hh Hb) as (r & E & Hr); [lia|]. rewrite E. simpl.
  apply (holds_iff N HN') in Hr. rewrite (proj2 (Z.ltb_lt _ N)) in * by lia. simpl.
  destruct (IH (Host (ctrl h) r (completed_ring h) (blocks h) (held h) (puts h ++ [b]) (received h)) (q ++ [b]) (S n))
    as (r' & E' & Hr'); try done; rewrite ?length_app; simpl; try lia.
  exists r'. rewrite E'. unfold with_avail. simpl. rewrite <- !app_assoc. simpl in Hr'.
  rewrite Nat.add_succ_r. rewrite <- app_assoc in Hr'. done.
Qed.

#[local] Opaque pool_blocks.

(** Memory as it is allocated. *)
Definition zero_ring : ring := Ring 0 0 (replicate (Z.to_nat N) 0).
Definition zero_host (a : Z) (m : gmap Z (list Z)) : host := Host a zero_ring zero_ring m [] [] [].
Definition zero_cell : fifo_cell := Cell 0 (replicate (Z.to_nat FRC_DMA_SIMPLE_PACKAGE_DATA_SIZE) 0).
Definition zero_fifo : fifo :=
  Fifo 0 0 0 (replicate (Z.to_nat (FRCORE_CORE_FIFO_NUM P)) 0) (replicate (Z.to_nat (FRCORE_CORE_FIFO_NUM P)) zero_cell) 0 0.

Lemma zero_ring_holds : holds N zero_ring [] 0.
Proof using HN. split; simpl; rewrite ?length_replicate; try done; lia. Qed.

Lemma zero_fifo_rep : fifo_rep P zero_fifo [] 0.
Proof using HP.
  unfold FRCORE_CORE_FIFO_NUM in *.
  split; unfold zero_fifo; cbn [local_widx local_ridx idx_buff fifo_cells]; rewrite ?length_replicate;
    unfold FRCORE_CORE_FIFO_NUM in *; cbn [length]; try done; try lia.
  apply Forall_replicate. unfold cell_ok, zero_cell. cbn [data]. by rewrite length_replicate.
Qed.

(** The host runs before the command's transfer; there is nothing it could take. *)
Lemma setup_host acts h pool :
  rings_ok N h [] pool [] [] [] 0 -> held h = [] -> received h = [] ->
  Z.of_nat (length (puts h)) + Z.of_nat (length acts) < 2 ^ 64 ->
  exists h', foldM (host_do N) acts h = Some h' /\ rings_ok N h' [] pool [] [] [] 0 /\ held h' = [] /\
    received h' = [] /\ ctrl h' = ctrl h /\ puts h' = puts h.
Proof using HN.
  intros Hr Hh Hrc Hb. destruct (host_run_spec N HN acts h _ _ _ _ _ _ Hr Hb) as (h' & add & k & E & Ev & _ & Hr'); [lia|].
  exists h'. split; [done|]. destruct Ev as [E1 _ E3 E4 E5]. rewrite take_nil in *. rewrite Hh, app_nil_r in E5.
  symmetry in E5. apply Permutation_nil in E5. apply app_nil in E5 as [Hh' ->].
  rewrite app_nil_r in E3, Hr'. rewrite drop_nil in Hr'. simpl in E4. rewrite app_nil_r in E4.
  split_and!; try done. by rewrite E4.
Qed.

Lemma ctrl_words h aw ar cw cr :
  m_widx (available_ring h) = aw -> m_ridx (available_ring h) = ar ->
  m_widx (completed_ring h) = cw -> m_ridx (completed_ring h) = cr ->
  host_word N h (ctrl h + FRC_DMA_SIMPLE_CHAN_AVAIL_WIDX_OFFSET) = Some aw /\
  host_word N h (ctrl h + FRC_DMA_SIMPLE_CHAN_AVAIL_RIDX_OFFSET) = Some ar /\
  host_word N h (ctrl h + FRC_DMA_SIMPLE_CHAN_COMPL_WIDX_OFFSET N) = Some cw /\
  host_word N h (ctrl h + FRC_DMA_SIMPLE_CHAN_COMPL_RIDX_OFFSET N) = Some cr.
Proof using HN.
  intros <- <- <- <-. unfold FRC_DMA_SIMPLE_CHAN_AVAIL_WIDX_OFFSET, FRC_DMA_SIMPLE_CHAN_AVAIL_RIDX_OFFSET,
    FRC_DMA_SIMPLE_CHAN_COMPL_WIDX_OFFSET, FRC_DMA_SIMPLE_CHAN_COMPL_RIDX_OFFSET.
  rewrite !host_word_avail, !host_word_compl by (unfold sizeof_ring; lia).
  by rewrite !ring_word_widx, !ring_word_ridx.
Qed.

Lemma setup_scatter addr os :
  timely os ->
  let '(rv, _, moved, _) := frcore_dma_scatter P B (map (fun o => DmaPtr 0 (addr + o) 8)
      [FRC_DMA_SIMPLE_CHAN_AVAIL_WIDX_OFFSET; FRC_DMA_SIMPLE_CHAN_AVAIL_RIDX_OFFSET;
       FRC_DMA_SIMPLE_CHAN_COMPL_WIDX_OFFSET N; FRC_DMA_SIMPLE_CHAN_COMPL_RIDX_OFFSET N]) os in
  rv = 0 /\ moved = true \/ rv <> 0 /\ ~ Forall (eq Transferred) os.
Proof using HP HB.
  unfold FRC_DMA_SIMPLE_PACKAGE_DATA_SIZE, FRC_DMA_SIMPLE_PACKAGE_BLOCK_SIZE, FRC_DMA_OFFSET in HB.
  intros Ht. unfold frcore_dma_scatter, size_bad. cbn [map length Z.of_nat Pos.of_succ_nat Pos.succ].
  rewrite (proj2 (Z.ltb_ge P _)) by lia. cbn [existsb p_size]. rewrite (proj2 (Z.ltb_ge B 8)) by lia. simpl.
  destruct os as [|o os]; [by left|]. apply Forall_cons in Ht as [Ht _].
  destruct o; simpl; [right..|by left|done]; (split; [done|]); intros H; by apply Forall_cons in H as [? _].
Qed.

(** The host runs before the command's transfer. *)
Lemma setup_dma s pool :
  rings_ok N (hst s) [] pool [] [] [] 0 -> held (hst s) = [] -> received (hst s) = [] -> puts (hst s) = pool ->
  Z.of_nat (length pool + script_acts (script s)) < 2 ^ 64 -> in_time s ->
  exists os h sc, next_dma N s = Some (os, St h (chan s) (fifos s) sc (clock s) (stats s)) /\
    rings_ok N h [] pool [] [] [] 0 /\ held h = [] /\ received h = [] /\ ctrl h = ctrl (hst s) /\ puts h = pool /\
    Z.of_nat (length pool + script_acts sc) < 2 ^ 64 /\ timely os /\ Forall (fun e => timely e.2) sc /\
    (clean s -> Forall (eq Transferred) os).
Proof using HN.
  intros Hr Hh Hrc Hp Hb Ht. unfold next_dma, clean. unfold in_time in Ht. destruct s as [h c fs sc clk st]. cbn in Hr, Hh, Hrc, Hp, Hb, Ht |- *.
  destruct sc as [|[acts os] sc]; [exists [], h, []; split_and!; (done || by constructor)|]. apply Forall_cons in Ht as [Ht Hts]. unfold script_acts in *. simpl in Hb.
  destruct (setup_host acts h pool Hr Hh Hrc) as (h' & -> & H1 & H2 & H3 & H4 & H5); [rewrite Hp; lia|].
  exists os, h', sc. split_and!; try done; [congruence|lia|]. intros H. by apply Forall_cons in H as [? _].
Qed.

Lemma started_intro s pool :
  rings_ok N (hst s) [] pool [] [] [] 0 -> held (hst s) = [] -> received (hst s) = [] -> puts (hst s) = pool ->
  Z.of_nat (length pool + script_acts (script s)) < 2 ^ 64 ->
  ctrl_addr (chan s) = ctrl (hst s) -> avail_ridx (chan s) = m_ridx (available_ring (hst s)) ->
  compl_widx (chan s) = m_widx (completed_ring (hst s)) -> Forall (fun y => fifo_rep P y [] 0) (fifos s) -> in_time s ->
  started N P pool s.
Proof.
  intros Hr Hh Hrc Hp Hb Hc Ha Hw Hf Ht. split; [|done..].
  pose proof (h_ridx _ _ _ _ (r_avail _ _ _ _ _ _ _ _ Hr)) as Hri. simpl in Hri.
  pose proof (r_widx _ _ _ _ _ _ _ _ Hr) as Hwi. simpl in Hwi.
  split; [|by rewrite Hh, !app_nil_r]. rewrite Hp in Hri. split; cbn [length]; rewrite ?Hp; try done; lia.
Qed.

(** The driver's initialisation and the set-up command start the channel: from zeroed
    rings and FIFOs and disjoint pools that fit the ring, every block is put, and the
    command answers success, the channel then being started with all its blocks
    available, or fails with [FRE_DMA] before it changed the channel, which it does
    only when a transfer fails.  No transfer runs out of time. *)
Theorem setup_starts pools a m n type c sc clk st :
  Forall pool_ok pools -> ForallOrdPairs apart pools ->
  let pool := concat (map pool_blocks pools) in
  Z.of_nat (length pool) <= N -> Z.of_nat (length pool + script_acts sc) < 2 ^ 64 -> Forall (fun e => timely e.2) sc -> type < 2 ->
  NoDup pool /\ Forall block_ok pool /\
  exists h rv s,
    frcdrv_simple_package_chan_avail_init N pools (zero_host a m) = Some (FRE_SUCCESS, h) /\ puts h = pool /\
    frcore_cmd_setup_simple_package_chans N P B type a true (St h c (replicate n zero_fifo) sc clk st) = Some (rv, s) /\
    (rv = FRE_SUCCESS /\ started N P pool s \/
     rv = FRE_DMA /\ chan s = c /\ ~ Forall (fun e => Forall (eq Transferred) e.2) sc).
Proof using HN HP HB.
  intros Hok Hap pool Hl Hb Htm Ht. split; [by apply pools_NoDup|]. split; [by apply pools_ok|]. pose proof (block_words _ (pools_ok _ Hok)) as Hw. fold pool in Hw.
  destruct (avail_put_all_spec pool (zero_host a m) [] 0 zero_ring_holds) as (r & E & Hr); [simpl; lia|simpl; lia|done|].
  exists (with_avail r pool (zero_host a m)). unfold frcdrv_simple_package_chan_avail_init. fold pool. rewrite E.
  set (s := St _ c _ sc clk st).
  assert (rings_ok N (hst s) [] pool [] [] [] 0) as Hrs.
  { split; [exact Hr|exact zero_ring_holds|done|constructor]. }
  unfold frcore_cmd_setup_simple_package_chans. rewrite (proj2 (Z.leb_gt 2 type)) by done.
  destruct (setup_dma s pool Hrs) as (os & h' & sc' & E' & Hr' & Hh & Hrc & Hc & Hp & Hs & Hto & Hts & Hos); [done..|].
  change (ctrl (hst s)) with a in Hc.
  rewrite E'. change (chan s) with c. change (fifos s) with (replicate n zero_fifo). simpl mbind.
  pose proof (setup_scatter a os Hto) as Hsc. destruct (frcore_dma_scatter P B _ os) as [[[rv counted] moved] os'].
  set (s0 := St h' c (replicate n zero_fifo) sc' clk st) in *.
  set (s1 := if counted : bool then FRCORE_STAT_INC stat_dma_errors s0 else s0).
  assert (hst s1 = h' /\ chan s1 = c /\ fifos s1 = replicate n zero_fifo /\ script s1 = sc') as (Eh & Ec & Ef & Es)
    by (unfold s1; by destruct counted).
  destruct Hsc as [[-> ->]|[Hrv Hno]]; simpl (negb _); [|rewrite (proj2 (Z.eqb_neq rv 0)) by done; simpl (negb _)]; cbv iota.
  - destruct (ctrl_words h' _ _ _ _ eq_refl eq_refl eq_refl eq_refl) as (W1 & W2 & W3 & W4).
    rewrite Eh. rewrite Hc in W1, W2, W3, W4. rewrite W1, W2, W3, W4. simpl mbind.
    eexists _, _. split; [done|]. split; [done|]. split; [done|]. left. split; [done|].
    apply started_intro; cbn [hst chan script fifos set_chan ctrl_addr avail_ridx compl_widx]; rewrite ?Eh, ?Es, ?Ef; try done.
    + apply Forall_replicate, zero_fifo_rep.
    + unfold in_time. cbn [script set_chan]. by rewrite Es.
  - eexists _, _. split; [done|]. split; [done|]. split; [done|]. right. split; [done|]. split; [exact Ec|].
    intros H. by apply Hno, Hos.
Qed.
End setup.

Lemma setup_starts_witness :
  let pool := concat (map pool_blocks [65536]) in
  NoDup pool /\ Forall block_ok pool /\
  exists h rv s,
    frcdrv_simple_package_chan_avail_init 2048 [65536] (zero_host 2048 4096 ∅) = Some (FRE_SUCCESS, h) /\ puts h = pool /\
    frcore_cmd_setup_simple_package_chans 2048 4 2008 1 4096 true
      (St h (Chan 0 0 0 0 0) (replicate 8 (zero_fifo 4)) [([HostGet], [EngineError])] [] (fun _ => 0)) = Some (rv, s) /\
    (rv = FRE_SUCCESS /\ started 2048 4 pool s \/
     rv = FRE_DMA /\ chan s = Chan 0 0 0 0 0 /\
     ~ Forall (fun e : list host_act * outcomes => Forall (eq Transferred) e.2) [([HostGet], [EngineError])]).
Proof.
  apply (setup_starts 2048 4 2008); try lia.
  - done.
  - constructor; [|constructor]. split; vm_compute; discriminate.
  - constructor; constructor.
  - vm_compute. discriminate.
  - vm_compute. reflexivity.
  - repeat constructor; discriminate.
Defined.

(** ** A concrete channel *)

(** Two blocks, one FIFO. *)
Definition demo_ring : ring := Ring 2 0 (4096 :: 8192 :: replicate 62 0).
Definition demo (sc : list (list host_act * outcomes)) : state :=
  St (with_avail demo_ring [4096; 8192] (zero_host 64 0 ∅)) (Chan 0 2 0 0 0) [zero_fifo 4] sc [] (fun _ => 0).

Lemma demo_ring_holds : holds 64 demo_ring [4096; 8192] 2.
Proof.
  split; [reflexivity..|vm_compute; discriminate|vm_compute; lia| |].
  - intros [|[|i]] v; [intros [= <-]; reflexivity..|done].
  - repeat constructor; vm_compute; discriminate.
Qed.

Lemma demo_started sc : Z.of_nat (script_acts sc) < 2 ^ 63 -> Forall (fun e => timely e.2) sc -> started 64 4 [4096; 8192] (demo sc).
Proof.
  intros Hs Ht. apply started_intro; try done.
  - split; [exact demo_ring_holds|by apply zero_ring_holds|done|constructor].
  - cbn [script demo length]. lia.
  - apply Forall_singleton. by apply zero_fifo_rep.
Qed.

Lemma demo_pool : NoDup [4096; 8192] /\ Forall block_ok [4096; 8192].
Proof. split; [by apply (bool_decide_unpack (NoDup [4096; 8192]))|repeat constructor; vm_compute; discriminate]. Qed.
