(* ===== verification/ChanThm.v ===== *)
(** * The simple-package channels: what they promise

    No block ever has two owners, whatever fails; without failures every accepted packet
    reaches the host once and in the order of its core; a timer empties a FIFO that
    nothing blocks.  The last section shows what the code does with the sizes and
    failures it does not handle. *)

From stdpp Require Import list functions.
From S2P Require Import Prelude Ring Dma Chan ChanMem ChanInv ChanCard ChanPost ChanProps ChanSys ChanSetup.
#[local] Open Scope Z_scope.

Section sys.
Context (N P B cpu_freq : Z).
Hypothesis HN : 0 < N < 2 ^ 63.
Hypothesis HP : 0 < P.
Hypothesis HPN : P * 16 <= N.
Hypothesis HB : FRC_DMA_SIMPLE_PACKAGE_DATA_SIZE <= B.
Context (pool : list Z).
Hypothesis Hpool : NoDup pool.
Hypothesis Hblocks : Forall block_ok pool.

#[local] Abbreviation started := (started N P pool).
#[local] Abbreviation run := (run N P B cpu_freq).
#[local] Abbreviation step := (step N P B cpu_freq).

(** C14: Whatever requests the engine refuses and whatever the host does, as long as no
    request runs out of time ([started] says so) and every packet fits the [data] of a cell or is too large for the
    size check ([op_ok]), every run of the cores' operations is defined, and the blocks free for the card ([qa], the available ring as the card
    reads it), completed for the host ([qc]), held by the application, put without the
    host being told ([p]) and in the hands of a core or dropped ([out]) are together
    exactly the blocks of the channel: none has two owners, none comes from nowhere. *)
Theorem chan_blocks_safe s ops :
  started s -> Forall (op_ok (length (fifos s))) ops -> Z.of_nat (length ops) < 2 ^ 64 ->
  exists c qa qc p out n w, run ops (Config s []) = Some c /\
    holds N (Ring (m_widx (available_ring (hst (sys c)))) (avail_ridx (chan (sys c)))
      (m_buff (available_ring (hst (sys c))))) qa n /\
    holds N (completed_ring (hst (sys c))) qc w /\
    (qa ++ qc ++ held (hst (sys c))) ++ p ++ out ≡ₚ pool.
Proof using HN HP HPN HB Hpool Hblocks.
  intros Hs Hok Hk. destruct (run_good N P B cpu_freq HN HP HPN HB pool Hpool Hblocks s ops Hs Hok Hk) as (c & qs & E & Hg & _).
  destruct Hg as (lost & qa & qc & p & out & nw & [Hi Ho] & _).
  exists c, qa, qc, p, out, (length (puts (hst (sys c)))), (nw - length p)%nat.
  split; [done|]. split; [by eapply (card_view N HN)|]. split; [|done].
  apply (rings_ok_host N HN _ lost qa qc p []), Hi.
Qed.

(** C9: When no transfer fails and the rings can hold every block, the packets a FIFO
    accepted are, in order, the ones completed ([log]) and then the ones it still
    holds; the completed packets are, each once and in the order of the completed
    ring, the first bytes of the blocks the host has received or will receive. *)
Theorem chan_exactly_once s ops :
  started s -> Forall (op_ok (length (fifos s))) ops -> Z.of_nat (length ops) < 2 ^ 64 ->
  clean s -> Z.of_nat (length pool) <= N ->
  exists c log qc w qs, run ops (Config s []) = Some c /\ holds N (completed_ring (hst (sys c))) qc w /\
    Forall2 prefix (map snd log) (map snd (received (hst (sys c))) ++ map (contents (blocks (hst (sys c)))) qc) /\
    Forall2 (fun y q => exists t, fifo_rep P y q t) (fifos (sys c)) qs /\
    forall f, packets_of f (accepted c) = packets_of f log ++ default [] (qs !! f).
Proof using HN HP HPN HB Hpool Hblocks.
  intros Hs Hok Hk Hc Hl. destruct (run_good N P B cpu_freq HN HP HPN HB pool Hpool Hblocks s ops Hs Hok Hk) as (c & qs & E & Hg & _).
  destruct Hg as (lost & qa & qc & p & out & nw & [Hi Ho] & Hf & HI).
  destruct (HI (conj Hc Hl)) as (_ & log & Hlog & Hacc).
  exists c, log, qc, (nw - length p)%nat, qs. split; [done|].
  split; [apply (rings_ok_host N HN _ lost qa qc p []), Hi|].
  split; [by apply Forall2_fmap_l|]. split; [|done].
  eapply Forall2_impl; [exact Hf|]. intros y q (t & ? & _). by exists t.
Qed.

(** C30: In such a run the timer of a FIFO that is not resting, when the available ring
    has as many blocks as the FIFO holds packets, empties it: every packet it ever accepted
    is then completed. *)
Theorem chan_drains s ops c f y :
  started s -> Forall (op_ok (length (fifos s))) ops -> Z.of_nat (length ops) < 2 ^ 64 ->
  clean s -> Z.of_nat (length pool) <= N ->
  run ops (Config s []) = Some c -> fifos (sys c) !! f = Some y ->
  (resting cpu_freq y (sys c)).1 = false ->
  local_widx y - local_ridx y <= m_widx (available_ring (hst (sys c))) - avail_ridx (chan (sys c)) ->
  exists c' log qc w, step c (OpTimer f) = Some c' /\ holds N (completed_ring (hst (sys c'))) qc w /\
    Forall2 prefix (map snd log) (map snd (received (hst (sys c'))) ++ map (contents (blocks (hst (sys c')))) qc) /\
    packets_of f (accepted c) = packets_of f log.
Proof using HN HP HPN HB Hpool Hblocks.
  intros Hs Hok Hk Hc Hl Er Hy Hrest Hroom. destruct (run_good N P B cpu_freq HN HP HPN HB pool Hpool Hblocks s ops Hs Hok Hk) as (c0 & qs & E & Hg & _).
  rewrite Er in E. injection E as <-.
  destruct (good_post N P B cpu_freq HN HP HPN HB pool Hpool Hblocks _ _ _ _ f y false Hg Hy) as (s' & q' & E & Hg' & Hq' & _); [lia|].
  rewrite (Hq' (conj Hc Hl) eq_refl Hrest Hroom) in Hg'.
  destruct Hg' as (lost & qa & qc & p & out & nw & [Hi Ho] & Hf & HI).
  destruct (HI (conj Hc Hl)) as (_ & log & Hlog & Hacc).
  exists (Config s' (accepted c)), log, qc, (nw - length p)%nat. simpl. unfold frcore_chan_process. rewrite E.
  split; [done|]. split; [apply (rings_ok_host N HN _ lost qa qc p []), Hi|].
  split; [by apply Forall2_fmap_l|]. simpl in Hacc. rewrite Hacc.
  assert (f < length qs)%nat as Hlt.
  { rewrite <- (good_fifos N P pool _ _ _ _ Hg). by eapply lookup_lt_Some. }
  rewrite list_lookup_insert_eq by done. simpl. by rewrite app_nil_r.
Qed.
End sys.

(** ** A concrete run *)

Definition demo_pkt : pkt := Pkt (replicate 40 7) 3 (replicate 32 9) [1; 2; 3; 4].
Definition demo_ops : list op := [OpUdp 0 demo_pkt; OpTimer 0; OpRule 0 [5; 6] demo_pkt; OpTimer 0].

Lemma demo_pkt_ok extra : 0 <= extra <= 2 -> pkt_ok extra demo_pkt.
Proof.
  intros H. split; try reflexivity; [split; vm_compute; discriminate|].
  left. cbn [demo_pkt total_paylen]. unfold sizeof_frc_dma_hdr_t, sizeof_frc_dma_pkt_info_t, FRC_DMA_SIMPLE_PACKAGE_DATA_SIZE,
    FRC_DMA_SIMPLE_PACKAGE_BLOCK_SIZE, FRC_DMA_OFFSET. lia.
Qed.

Lemma demo_ops_ok sc : Forall (op_ok (length (fifos (demo sc)))) demo_ops.
Proof.
  change (length (fifos (demo sc))) with 1%nat. pose proof (demo_pkt_ok 0 ltac:(lia)). pose proof (demo_pkt_ok 2 ltac:(lia)).
  unfold demo_ops. repeat (apply Forall_cons; split);
    try apply Forall_nil_2; (split; [cbn [op_fifo]; lia|]); first [assumption|exact Logic.I|split; [reflexivity|assumption]].
Qed.

(** The host returns what it takes; the second round's completion fails. *)
Definition demo_script : list (list host_act * outcomes) :=
  replicate 7 ([], []) ++ [([HostGet; HostPut 4096], [])] ++ replicate 5 ([], []) ++ [([], [EngineError])].

Lemma chan_blocks_safe_witness :
  exists c qa qc p out n w, run 64 4 2008 1000 demo_ops (Config (demo demo_script) []) = Some c /\
    holds 64 (Ring (m_widx (available_ring (hst (sys c)))) (avail_ridx (chan (sys c)))
      (m_buff (available_ring (hst (sys c))))) qa n /\
    holds 64 (completed_ring (hst (sys c))) qc w /\
    (qa ++ qc ++ held (hst (sys c))) ++ p ++ out ≡ₚ [4096; 8192].
Proof.
  destruct demo_pool. apply (chan_blocks_safe 64 4 2008 1000); try done; try lia.
  - apply demo_started; [vm_compute; reflexivity|repeat constructor; discriminate].
  - apply demo_ops_ok.
Defined.

Lemma chan_exactly_once_witness :
  exists c log qc w qs, run 64 4 2008 1000 demo_ops (Config (demo [([HostGet], [])]) []) = Some c /\
    holds 64 (completed_ring (hst (sys c))) qc w /\
    Forall2 prefix (map snd log) (map snd (received (hst (sys c))) ++ map (contents (blocks (hst (sys c)))) qc) /\
    Forall2 (fun y q => exists t, fifo_rep 4 y q t) (fifos (sys c)) qs /\
    forall f, packets_of f (accepted c) = packets_of f log ++ default [] (qs !! f).
Proof.
  destruct demo_pool. apply (chan_exactly_once 64 4 2008 1000) with (pool := [4096; 8192]); try done; try lia.
  - apply demo_started; [done|repeat constructor].
  - apply demo_ops_ok.
  - repeat constructor.
Defined.

(** A packet waits. *)
Definition demo_run (ops : list op) (sc : list (list host_act * outcomes)) : config :=
  default (Config (demo []) []) (run 64 4 2008 1000 ops (Config (demo sc) [])).
Definition demo_fifo (c : config) : fifo := default (zero_fifo 4) (fifos (sys c) !! 0%nat).
Definition demo_queued : config := demo_run [OpUdp 0 demo_pkt] [].

Lemma chan_drains_witness :
  exists c' log qc w, step 64 4 2008 1000 demo_queued (OpTimer 0) = Some c' /\
    holds 64 (completed_ring (hst (sys c'))) qc w /\
    Forall2 prefix (map snd log) (map snd (received (hst (sys c'))) ++ map (contents (blocks (hst (sys c')))) qc) /\
    packets_of 0 (accepted demo_queued) = packets_of 0 log.
Proof.
  destruct demo_pool.
  apply (chan_drains 64 4 2008 1000) with (pool := [4096; 8192]) (s := demo []) (ops := [OpUdp 0 demo_pkt]) (y := demo_fifo demo_queued);
    try done; try lia.
  - apply demo_started; [done|constructor].
  - pose proof (demo_ops_ok []) as H'. apply Forall_cons in H' as [? _]. by apply Forall_singleton.
  - constructor.
Defined.

(** ** Sizes and failures the code does not handle *)

Lemma fill_overflow (pieces : list (list Z)) i (d : list Z) :
  0 <= i <= Z.of_nat (length d) -> Z.of_nat (length d) < i + Z.of_nat (length (concat pieces)) ->
  foldM (fun '(i, d) bs => d ← arr_write d i bs; Some (i + Z.of_nat (length bs), d)) pieces (i, d) = None.
Proof.
  revert i d. induction pieces as [|bs pieces IH]; intros i d Hi Hl; simpl in *; [lia|].
  rewrite length_app in Hl.
  destruct (decide (i + Z.of_nat (length bs) <= Z.of_nat (length d))) as [Hle|Hgt].
  - rewrite arr_write_eq by lia. simpl. apply IH; rewrite length_splice; lia.
  - unfold arr_write. rewrite (proj2 (Z.leb_gt (_ + _) _)) by lia. by rewrite andb_false_r.
Qed.

(** A packet of 2009 to 2048 bytes passes the size check of
    [frcore_simple_package_fifo_add], which admits a whole block of 2048 bytes, and is
    copied past the end of the [data] of its cell, which is 40 bytes smaller. *)
Theorem fifo_add_overflow P f p s y q t :
  0 < P -> fifos s !! f = Some y -> fifo_rep P y q t -> Z.of_nat t < 2 ^ 64 ->
  Z.of_nat (length q) < FRCORE_CORE_FIFO_NUM P ->
  Z.of_nat (length (hdr p)) = sizeof_frc_dma_hdr_t -> Z.of_nat (length (info p)) = sizeof_frc_dma_pkt_info_t ->
  total_paylen p <= Z.of_nat (length (payload p)) ->
  FRC_DMA_SIMPLE_PACKAGE_DATA_SIZE < sizeof_frc_dma_hdr_t + sizeof_frc_dma_pkt_info_t + total_paylen p <= 2048 ->
  frcore_simple_package_fifo_add P f p s = None.
Proof.
  intros HP Hf Hr Ht Hroom Hh Hi Hp Hl. pose proof Hr as [Hw Hri Hpast _ _ Hs Hok _ _].
  unfold frcore_simple_package_fifo_add, fifo_add. rewrite (proj2 (Z.ltb_ge 2048 _)) by lia. rewrite Hf. simpl mbind.
  rewrite Hw, Hri. replace (Z.of_nat t - (Z.of_nat t - Z.of_nat (length q))) with (Z.of_nat (length q)) by lia.
  rewrite u64_small, (proj2 (Z.leb_gt _ _)) by lia. assert (0 < FRCORE_CORE_FIFO_NUM P) by (unfold FRCORE_CORE_FIFO_NUM; lia).
  unfold umod. rewrite (proj2 (Z.eqb_neq (FRCORE_CORE_FIFO_NUM P) 0)) by lia. simpl mbind.
  pose proof (Z.mod_pos_bound (Z.of_nat t) (FRCORE_CORE_FIFO_NUM P) ltac:(lia)).
  destruct (arr_get (fifo_cells y) _) as [c|] eqn:Ec; [simpl mbind|done].
  apply arr_get_Some in Ec as [_ Ec]. pose proof (proj1 (Forall_lookup _ _) Hok _ _ Ec) as Hcok. unfold cell_ok in Hcok.
  assert (0 <= total_paylen p) by (unfold FRC_DMA_SIMPLE_PACKAGE_DATA_SIZE, FRC_DMA_SIMPLE_PACKAGE_BLOCK_SIZE,
    FRC_DMA_OFFSET, sizeof_frc_dma_hdr_t, sizeof_frc_dma_pkt_info_t in *; lia).
  rewrite (arr_read_all (hdr p)), (arr_read_take (payload p)), (arr_read_all (info p)) by (done || lia). simpl mbind.
  unfold fill_cell. rewrite fill_overflow; [done|lia|].
  simpl. rewrite Hcok, !length_app, length_take. simpl. lia.
Qed.

Lemma fifo_add_overflow_witness :
  frcore_simple_package_fifo_add 4 0 (Pkt (replicate 40 7) 1937 (replicate 32 9) (replicate 1937 1)) (demo []) = None.
Proof.
  apply (fifo_add_overflow 4 0 _ (demo []) (zero_fifo 4) [] 0); try done.
  by apply zero_fifo_rep.
Defined.

(** When the transfer that copies a packet into its block fails, the packet is counted
    in [stat_post_err_pkts] but its block is completed all the same and the packet leaves
    the FIFO: the host receives a block that was never written. *)
Example failed_post_completes_block :
  exists c y, run 64 4 2008 1000 [OpUdp 0 demo_pkt; OpTimer 0]
      (Config (demo [([], []); ([], []); ([], []); ([], [EngineError])]) []) = Some c /\
    packets_of 0 (accepted c) = [concat (udp_pieces demo_pkt)] /\
    fifos (sys c) !! 0%nat = Some y /\ local_widx y = local_ridx y /\
    stats (sys c) stat_post_err_pkts = 1 /\ stats (sys c) stat_compl_put = 1 /\
    m_widx (completed_ring (hst (sys c))) = 1 /\ arr_get (m_buff (completed_ring (hst (sys c)))) 0 = Some 4096 /\
    contents (blocks (hst (sys c))) 4096 = [].
Proof.
  set (sc := [([], []); ([], []); ([], []); ([], [EngineError])]).
  exists (demo_run [OpUdp 0 demo_pkt; OpTimer 0] sc), (demo_fifo (demo_run [OpUdp 0 demo_pkt; OpTimer 0] sc)).
  split_and!; vm_compute; reflexivity.
Qed.

(** [frcore_simple_package_chan_compl_put] advances its own index before it writes it to
    the host.  When that last transfer fails the packets stay in the FIFO and are posted
    again, and the next completion publishes both copies: the host receives the packet
    twice. *)
Example failed_completion_duplicates :
  exists c, run 64 4 2008 1000 [OpUdp 0 demo_pkt; OpTimer 0; OpTimer 0]
      (Config (demo (replicate 6 ([], []) ++ [([], [EngineError])])) []) = Some c /\
    accepted c = [(0%nat, concat (udp_pieces demo_pkt))] /\
    m_widx (completed_ring (hst (sys c))) = 2 /\ m_ridx (completed_ring (hst (sys c))) = 0 /\
    take 2 (m_buff (completed_ring (hst (sys c)))) = [4096; 8192] /\
    contents (blocks (hst (sys c))) 4096 = concat (udp_pieces demo_pkt) /\
    contents (blocks (hst (sys c))) 8192 = concat (udp_pieces demo_pkt).
Proof.
  exists (demo_run [OpUdp 0 demo_pkt; OpTimer 0; OpTimer 0] (replicate 6 ([], []) ++ [([], [EngineError])])).
  split_and!; vm_compute; reflexivity.
Qed.

(** A transfer that runs out of time counts as done.  When it is the one that reads the
    addresses of free blocks, the card goes on with those of the round before: both packets
    go to the block 4096, which is completed twice, and the block 8192 is lost. *)
Example late_transfer_reuses_block :
  exists c, run 64 4 2008 1000 [OpUdp 0 demo_pkt; OpTimer 0; OpUdp 0 (Pkt (replicate 40 7) 3 (replicate 32 9) [4; 3; 2; 1]); OpTimer 0]
      (Config (demo (replicate 8 ([], []) ++ [([], [TimedOut])])) []) = Some c /\
    m_widx (completed_ring (hst (sys c))) = 2 /\ m_ridx (completed_ring (hst (sys c))) = 0 /\
    take 2 (m_buff (completed_ring (hst (sys c)))) = [4096; 4096] /\
    m_ridx (available_ring (hst (sys c))) = 2 /\ stats (sys c) stat_dma_errors = 0.
Proof.
  eexists (demo_run [OpUdp 0 demo_pkt; OpTimer 0; OpUdp 0 (Pkt (replicate 40 7) 3 (replicate 32 9) [4; 3; 2; 1]); OpTimer 0]
    (replicate 8 ([], []) ++ [([], [TimedOut])])).
  split_and!; vm_compute; reflexivity.
Qed.
