(* ===== verification/TcpFlow.v ===== *)
(** * TCP flow recovery: src/code/frcore/frcore_tcpflowrec.c

    The two segment queues of a session: insertion with overlap trimming, the
    acknowledgement of the reverse direction and the flushes.  A queue entry is a
    value; the list is its order.  [sbumit_data_to_fifo] takes the packet over, so
    a submitted segment is logged in [submitted] and a freed packet in [freed];
    the FPA pool of entries is its number of free entries. *)

From stdpp Require Import list functions.
From S2P Require Import Prelude.
#[local] Open Scope Z_scope.

Definition K : Z := 1024.
Definition TH_FIN : Z := 0x01.
Definition TH_SYN : Z := 0x02.
Definition TH_RST : Z := 0x04.
Definition PROTO_TCP : Z := 0x06.
Definition FRC_SSN_POSIVTE_FLOW : Z := 0.

(** [SEQ_GT(a, b)] *)
Definition SEQ_GT (a b : Z) : bool := 0 <? s32 (a - b).

(** [tseg_qent]: [seq] is a 32-bit field, [nxt_seq] a 64-bit one; [data] holds the
    [data_len] bytes the entry points at. *)
Record tseg_qent : Type := Qent {
  seq : Z; ack_num : Z; nxt_seq : Z; work : Z; data : list Z; direction : Z }.

Definition data_len (q : tseg_qent) : Z := Z.of_nat (length (data q)).

(** [tcp_flow_data]; the pointer to the reverse flow is set or [NULL]. *)
Record tcp_flow_data : Type := Flow {
  rcv_nxt : Z; tsegs : list tseg_qent; tsegqe_len : Z; f_enable : Z; rev_flow_data : bool }.

Inductive tcp_stat : Type :=
| stat_ssn_drop | stat_tcpflowrec_queue_overflow | stat_tcpflowrec_mem_failed
| stat_tcpflowrec_dup_remove | stat_tcpflowrec_retrans | stat_tcpflowrec_retrans_drop
| stat_tcpflowrec_part_retrans.

#[export] Instance tcp_stat_eq_dec : EqDecision tcp_stat.
Proof. solve_decision. Defined.

(** The session fields the component uses, and its effects. *)
Record tcp_state : Type := TcpState {
  ssn_seq : Z; ssn_ack_seq : Z; ttl : Z; ssn_pkts : Z; ssn_bytes : Z;
  positive : tcp_flow_data; negative : tcp_flow_data;
  qent_pool : Z; freed : list Z; submitted : list tseg_qent; tcp_stats : tcp_stat -> Z }.

Definition flow (d : bool) (st : tcp_state) : tcp_flow_data :=
  if d then positive st else negative st.

Definition set_flow (d : bool) (f : tcp_flow_data) (st : tcp_state) : tcp_state :=
  TcpState (ssn_seq st) (ssn_ack_seq st) (ttl st) (ssn_pkts st) (ssn_bytes st)
    (if d then f else positive st) (if d then negative st else f)
    (qent_pool st) (freed st) (submitted st) (tcp_stats st).

Definition upd_flow (d : bool) (g : tcp_flow_data -> tcp_flow_data) (st : tcp_state) : tcp_state :=
  set_flow d (g (flow d st)) st.

Definition TCP_STAT_INC (c : tcp_stat) (st : tcp_state) : tcp_state :=
  TcpState (ssn_seq st) (ssn_ack_seq st) (ttl st) (ssn_pkts st) (ssn_bytes st)
    (positive st) (negative st) (qent_pool st) (freed st) (submitted st)
    (<[c := u64 (tcp_stats st c + 1)]> (tcp_stats st)).

Definition work_free (w : Z) (st : tcp_state) : tcp_state :=
  TcpState (ssn_seq st) (ssn_ack_seq st) (ttl st) (ssn_pkts st) (ssn_bytes st)
    (positive st) (negative st) (qent_pool st) (freed st ++ [w]) (submitted st) (tcp_stats st).

Definition pool_add (n : Z) (st : tcp_state) : tcp_state :=
  TcpState (ssn_seq st) (ssn_ack_seq st) (ttl st) (ssn_pkts st) (ssn_bytes st)
    (positive st) (negative st) (qent_pool st + n) (freed st) (submitted st) (tcp_stats st).

Definition set_ttl (t : Z) (st : tcp_state) : tcp_state :=
  TcpState (ssn_seq st) (ssn_ack_seq st) t (ssn_pkts st) (ssn_bytes st)
    (positive st) (negative st) (qent_pool st) (freed st) (submitted st) (tcp_stats st).

(** [sbumit_data_to_fifo]: the packet leaves the component. *)
Definition submit_data (q : tseg_qent) (st : tcp_state) : tcp_state :=
  TcpState (ssn_seq st) (ssn_ack_seq st) (ttl st) (ssn_pkts st) (ssn_bytes st)
    (positive st) (negative st) (qent_pool st) (freed st) (submitted st ++ [q]) (tcp_stats st).

(** ** Flushing *)

(** [__send_packet] on the first entry of the queue. *)
Definition send_packet (d : bool) (st : tcp_state) (q : tseg_qent) : tcp_state :=
  pool_add 1 (submit_data q
    (upd_flow d (fun f => Flow (rcv_nxt f) (tail (tsegs f)) (u32 (tsegqe_len f - 1))
      (f_enable f) (rev_flow_data f)) st)).

Definition clear_flow (f : tcp_flow_data) : tcp_flow_data :=
  Flow 0 [] 0 (f_enable f) (rev_flow_data f).

Definition tcp_flow_flush (d : bool) (st : tcp_state) : tcp_state :=
  upd_flow d clear_flow (foldl (send_packet d) st (tsegs (flow d st))).

Definition tcp_flow_flush_lock (st : tcp_state) : tcp_state :=
  let st := foldl (send_packet true) st (tsegs (flow true st)) in
  let st := set_flow true (Flow 0 [] 0 1 false) st in
  let st := foldl (send_packet false) st (tsegs (flow false st)) in
  set_flow false (Flow 0 [] 0 1 false) st.

(** The acknowledged prefix is sent; the first entry beyond it gives [rcv_nxt]. *)
Fixpoint send_acked (d : bool) (l : list tseg_qent) (st : tcp_state) : tcp_state :=
  match l with
  | [] => st
  | q :: l =>
    if nxt_seq q <=? rcv_nxt (flow d st) then send_acked d l (send_packet d st q)
    else upd_flow d (fun f => Flow (seq q) (tsegs f) (tsegqe_len f) (f_enable f) (rev_flow_data f)) st
  end.

Definition advance (r : Z) (q : tseg_qent) : Z :=
  if (seq q =? r) && SEQ_GT (nxt_seq q) r then nxt_seq q else r.

Definition send_reverse_tcpflow (d : bool) (ack : Z) (st : tcp_state) : tcp_state :=
  if negb (s32 (ack - rcv_nxt (flow d st)) =? 0) then tcp_flow_flush d st else
  let st := send_acked d (tsegs (flow d st)) st in
  match tsegs (flow d st) with
  | [] => upd_flow d clear_flow st
  | l => upd_flow d (fun f => Flow (foldl advance (rcv_nxt f) l) (tsegs f) (tsegqe_len f)
      (f_enable f) (rev_flow_data f)) st
  end.

Definition frcore_remove_chain_by_timer (st : tcp_state) : tcp_state :=
  if ttl st =? 0 then st else set_ttl 0 st.

(** ** Reassembly *)

Definition has_flag (flags mask : Z) : bool := negb (Z.land flags mask =? 0).

(** [LIST_FOREACH] up to the first entry that begins after [sequence]: the
    entries before it, whose last one is [p], and the rest, whose first is [q]. *)
Fixpoint split_at (sequence : Z) (l : list tseg_qent) : list tseg_qent * list tseg_qent :=
  match l with
  | [] => ([], [])
  | x :: l' =>
    if SEQ_GT (seq x) sequence then ([], l)
    else let '(a, b) := split_at sequence l' in (x :: a, b)
  end.

(** The loop over the succeeding entries: [len] bytes from [sequence] cover the
    front of the list; [removed] collects the entries that are covered. *)
Fixpoint trim_next (sequence len : Z) (l : list tseg_qent) : list tseg_qent * list tseg_qent :=
  match l with
  | [] => ([], [])
  | q :: l' =>
    let i := s32 (sequence + len - seq q) in
    if i <=? 0 then ([], l)
    else if i <? s32 (data_len q)
    then ([], Qent (u32 (seq q + i)) (ack_num q) (nxt_seq q) (work q) (drop (Z.to_nat i) (data q)) (direction q) :: l')
    else let '(removed, rest) := trim_next sequence len l' in (q :: removed, rest)
  end.

(** Whether the loop ended in a partial overlap. *)
Fixpoint trim_partial (sequence len : Z) (l : list tseg_qent) : bool :=
  match l with
  | [] => false
  | q :: l' =>
    let i := s32 (sequence + len - seq q) in
    if i <=? 0 then false else if i <? s32 (data_len q) then true else trim_partial sequence len l'
  end.

(** The entry freed for a covered segment. *)
Definition drop_covered (st : tcp_state) (q : tseg_qent) : tcp_state :=
  TCP_STAT_INC stat_tcpflowrec_dup_remove (pool_add 1 (work_free (work q) st)).

(** The in-order loop over the entries behind the new one. *)
Fixpoint advance_run (r : Z) (l : list tseg_qent) : Z :=
  match l with
  | [] => r
  | q :: l => if seq q =? r then advance_run (if SEQ_GT (nxt_seq q) r then nxt_seq q else r) l else r
  end.

(** From the trimming of the succeeding entries on: [a] are the preceding ones and
    [b] the succeeding; an entry has been allocated. *)
Definition insert_segment (disorder_depth : Z) (d : bool) (a b : list tseg_qent)
    (w sequence ack : Z) (dat : list Z) (th_flags dir : Z) (st : tcp_state) : tcp_state :=
  let len := Z.of_nat (length dat) in
  let '(removed, b') := trim_next sequence len b in
  let st := foldl drop_covered st removed in
  let st := if trim_partial sequence len b then TCP_STAT_INC stat_tcpflowrec_part_retrans st else st in
  let nxt := u64 (sequence + len + (if has_flag th_flags TH_SYN then 1 else 0)) in
  let st := upd_flow d (fun f =>
    Flow (match a ++ b' with [] => nxt | _ => rcv_nxt f end) (a ++ b')
      (u32 (tsegqe_len f - Z.of_nat (length removed))) (f_enable f) (rev_flow_data f)) st in
  if has_flag th_flags TH_SYN then
    TCP_STAT_INC stat_ssn_drop (pool_add 1 (work_free w st))
  else
  let te := Qent (u32 sequence) ack nxt w dat dir in
  let st := upd_flow d (fun f =>
    Flow (rcv_nxt f) (a ++ te :: b') (u32 (tsegqe_len f + 1)) (f_enable f) (rev_flow_data f)) st in
  if (disorder_depth <=? tsegqe_len (flow d st)) || has_flag th_flags (Z.lor TH_FIN TH_RST)
  then tcp_flow_flush d st
  else if sequence =? rcv_nxt (flow d st) then
    upd_flow d (fun f =>
      Flow (advance_run (if SEQ_GT nxt (rcv_nxt f) then nxt else rcv_nxt f) b') (tsegs f)
        (tsegqe_len f) (f_enable f) (rev_flow_data f)) st
  else st.

(** The work on the forward queue, from the search for the place on; an entry has
    been allocated. *)
Definition reass_queue (disorder_depth : Z) (d : bool) (w sequence ack : Z) (dat : list Z)
    (th_flags dir : Z) (st : tcp_state) : tcp_state :=
  let '(a, b) := split_at sequence (tsegs (flow d st)) in
  match last a with
  | None => insert_segment disorder_depth d a b w sequence ack dat th_flags dir st
  | Some p =>
    if 64 * K <? u64 (sequence - seq p) then
      TCP_STAT_INC stat_ssn_drop (pool_add 1 (work_free w st)) else
    let i := s32 (seq p + data_len p - sequence) in
    if i <=? 0 then insert_segment disorder_depth d a b w sequence ack dat th_flags dir st else
    if s32 (Z.of_nat (length dat)) <? i then
      TCP_STAT_INC stat_tcpflowrec_dup_remove (pool_add 1 (work_free w st))
    else if i =? s32 (Z.of_nat (length dat)) then
      let p' := Qent (u32 sequence) ack (nxt_seq p) w dat (direction p) in
      TCP_STAT_INC stat_tcpflowrec_retrans_drop (TCP_STAT_INC stat_tcpflowrec_retrans
        (upd_flow d (fun f => Flow (rcv_nxt f) (removelast a ++ p' :: b) (tsegqe_len f)
          (f_enable f) (rev_flow_data f)) (work_free (work p) (pool_add 1 st))))
    else
      insert_segment disorder_depth d a b w (u64 (sequence + i)) ack (drop (Z.to_nat i) dat)
        th_flags dir (TCP_STAT_INC stat_tcpflowrec_part_retrans st)
  end.

Definition reass_tcp (disorder_depth w sequence ack : Z) (dat : list Z) (th_flags dir : Z)
    (st : tcp_state) : tcp_state :=
  let d := dir =? FRC_SSN_POSIVTE_FLOW in
  if sequence <? (if d then ssn_seq st else ssn_ack_seq st) then
    TCP_STAT_INC stat_ssn_drop (work_free w st) else
  let st :=
    if rev_flow_data (flow d st) && negb (bool_decide (tsegs (flow (negb d) st) = []))
    then send_reverse_tcpflow (negb d) ack st else st in
  if has_flag th_flags (Z.lor TH_FIN TH_RST) then
    frcore_remove_chain_by_timer (tcp_flow_flush d (TCP_STAT_INC stat_ssn_drop (work_free w st)))
  else if disorder_depth <=? tsegqe_len (flow d st) then
    TCP_STAT_INC stat_tcpflowrec_queue_overflow (work_free w st)
  else if qent_pool st <=? 0 then
    TCP_STAT_INC stat_tcpflowrec_mem_failed (work_free w st)
  else
  reass_queue disorder_depth d w sequence ack dat th_flags dir (pool_add (-1) st).

(** The packet handler on the protocol, length and TCP header fields of the packet;
    [dat] are the bytes behind the TCP header, of which [data_length] are read. *)
Definition tcp_flow_recovery (disorder_depth w len protocol data_length sequence ack : Z)
    (dat : list Z) (th_flags dir : Z) (st : tcp_state) : option tcp_state :=
  if protocol =? PROTO_TCP then
    let st := TcpState (ssn_seq st) (ssn_ack_seq st) (ttl st) (u32 (ssn_pkts st + 1))
      (u32 (ssn_bytes st + len)) (positive st) (negative st) (qent_pool st) (freed st)
      (submitted st) (tcp_stats st) in
    if (data_length =? 0) && negb (has_flag th_flags (Z.lor TH_SYN (Z.lor TH_FIN TH_RST)))
    then Some (TCP_STAT_INC stat_ssn_drop (work_free w st))
    else
      _ ← guard_ub ((0 <=? data_length) && (data_length <=? Z.of_nat (length dat)));
      Some (reass_tcp disorder_depth w sequence ack (take (Z.to_nat data_length) dat) th_flags dir st)
  else Some (TCP_STAT_INC stat_ssn_drop (work_free w st)).
