(* ===== verification/TcpFlowProps.v ===== *)
(** * TCP flow recovery: resources, order and contents *)

From stdpp Require Import list functions gmultiset sorting.
From S2P Require Import Prelude TcpFlow.
#[local] Open Scope Z_scope.

(** ** Accounting of packets and queue entries *)


Definition wset (l : list tseg_qent) : gmultiset Z := list_to_set_disj (work <$> l).

(** The packets the component has been given and not lost: queued, freed or
    submitted, with multiplicity. *)
Definition works (st : tcp_state) : gmultiset Z :=
  wset (tsegs (positive st)) ⊎ wset (tsegs (negative st)) ⊎ list_to_set_disj (freed st) ⊎
  wset (submitted st).

(** The queue entries, free and in use. *)
Definition entries (st : tcp_state) : Z :=
  qent_pool st + Z.of_nat (length (tsegs (positive st))) + Z.of_nat (length (tsegs (negative st))).

Lemma wset_cons q l : wset (q :: l) = {[+ work q +]} ⊎ wset l.
Proof. done. Qed.

Lemma wset_nil : wset [] = ∅.
Proof. done. Qed.

Lemma wset_app a b : wset (a ++ b) = wset a ⊎ wset b.
Proof. unfold wset. by rewrite fmap_app, list_to_set_disj_app. Qed.

(** Equations between sums of multisets, by the multiplicity of each element. *)
Ltac mset :=
  rewrite ?wset_app, ?wset_cons, ?wset_nil in *; simpl work in *;
  apply gmultiset_eq; let x := fresh "x" in intros x;
  repeat match goal with
  | H : @eq (gmultiset _) _ _ |- _ => apply (f_equal (multiplicity x)) in H
  end;
  rewrite ?multiplicity_disj_union, ?multiplicity_empty in *; lia.

Lemma flow_set_flow d f st : flow d (set_flow d f st) = f.
Proof. by destruct d. Qed.

Lemma flow_set_flow_ne d f st : flow (negb d) (set_flow d f st) = flow (negb d) st.
Proof. by destruct d. Qed.

Lemma works_set_flow d f st :
  works (set_flow d f st) ⊎ wset (tsegs (flow d st)) = works st ⊎ wset (tsegs f).
Proof. destruct d; unfold works; simpl; mset. Qed.

Lemma entries_set_flow d f st :
  entries (set_flow d f st) =
  entries st - Z.of_nat (length (tsegs (flow d st))) + Z.of_nat (length (tsegs f)).
Proof. destruct d; unfold entries; simpl; lia. Qed.

Lemma works_free w st : works (work_free w st) = works st ⊎ {[+ w +]}.
Proof. unfold works. simpl. rewrite list_to_set_disj_app. simpl. mset. Qed.

Lemma works_submit q st : works (submit_data q st) = works st ⊎ {[+ work q +]}.
Proof. unfold works. simpl. rewrite wset_app, wset_cons, wset_nil. mset. Qed.

(** [st'] accounts for what [st] does, [ws] more packets and [n] more entries. *)
Definition accounts (st st' : tcp_state) (ws : gmultiset Z) (n : Z) : Prop :=
  works st' = works st ⊎ ws /\ entries st' = entries st + n.

Lemma acc_refl st : accounts st st ∅ 0.
Proof. split; [mset|lia]. Qed.

Lemma acc_trans st1 st2 st3 w1 w2 n1 n2 :
  accounts st1 st2 w1 n1 -> accounts st2 st3 w2 n2 -> accounts st1 st3 (w1 ⊎ w2) (n1 + n2).
Proof. intros [H1 H2] [H3 H4]. split; [rewrite H3, H1; mset|lia]. Qed.

Lemma acc_free w st : accounts st (work_free w st) {[+ w +]} 0.
Proof. split; [apply works_free|]. unfold entries. simpl. lia. Qed.

Lemma acc_pool n st : accounts st (pool_add n st) ∅ n.
Proof. split; [unfold works; simpl; mset|]. unfold entries. simpl. lia. Qed.

Lemma acc_stat c st : accounts st (TCP_STAT_INC c st) ∅ 0.
Proof. split; [unfold works; simpl; mset|]. unfold entries. simpl. lia. Qed.

(** An update of a queue to [l]. *)
Lemma acc_upd d g st l ws n :
  tsegs (g (flow d st)) = l -> wset l = wset (tsegs (flow d st)) ⊎ ws ->
  Z.of_nat (length l) = Z.of_nat (length (tsegs (flow d st))) + n ->
  accounts st (upd_flow d g st) ws n.
Proof.
  intros Hl Hw Hn. split.
  - pose proof (works_set_flow d (g (flow d st)) st) as E. rewrite Hl, Hw in E. unfold upd_flow. mset.
  - unfold upd_flow. rewrite entries_set_flow, Hl. lia.
Qed.

Lemma acc_upd_same d g st : tsegs (g (flow d st)) = tsegs (flow d st) -> accounts st (upd_flow d g st) ∅ 0.
Proof. intros H. apply (acc_upd _ _ _ (tsegs (flow d st))); [done|mset|lia]. Qed.

Lemma acc_send d st q l :
  tsegs (flow d st) = q :: l ->
  accounts st (send_packet d st q) ∅ 0 /\ tsegs (flow d (send_packet d st q)) = l /\
  tsegs (flow (negb d) (send_packet d st q)) = tsegs (flow (negb d) st).
Proof.
  intros Hl. split; [|destruct d; simpl in *; by rewrite Hl]. split.
  - destruct d; unfold works, send_packet; simpl in *; rewrite Hl; simpl;
      rewrite wset_app, !wset_cons, wset_nil; mset.
  - destruct d; unfold entries, send_packet; simpl in *; rewrite Hl; simpl; lia.
Qed.

(** Steps of an accounting proof: one effect at a time, from the outside in. *)
Lemma acc_step st1 st2 st3 ws n w2 n2 w1 n1 :
  accounts st2 st3 w2 n2 -> accounts st1 st2 w1 n1 -> ws = w1 ⊎ w2 -> n = n1 + n2 ->
  accounts st1 st3 ws n.
Proof. intros H2 H1 -> ->. by eapply acc_trans. Qed.

Lemma acc_send_all d st :
  accounts st (foldl (send_packet d) st (tsegs (flow d st))) ∅ 0 /\
  tsegs (flow d (foldl (send_packet d) st (tsegs (flow d st)))) = [].
Proof.
  remember (tsegs (flow d st)) as l eqn:Hl. revert st Hl.
  induction l as [|q l IH]; intros st Hl; simpl; [split; [apply acc_refl|done]|].
  destruct (acc_send d st q l (eq_sym Hl)) as (H1 & H2 & _).
  destruct (IH (send_packet d st q) (eq_sym H2)) as [H3 H4]. split; [|done].
  eapply acc_step; [exact H3|exact H1|mset|lia].
Qed.

Lemma acc_flush d st : accounts st (tcp_flow_flush d st) ∅ 0.
Proof.
  destruct (acc_send_all d st) as [H Hn]. unfold tcp_flow_flush.
  eapply (acc_step _ _ _ _ _ ∅ 0); [eapply (acc_upd _ _ _ []); [done|rewrite Hn; mset|by rewrite Hn]|exact H|mset|lia].
Qed.

Lemma acc_acked d l st :
  tsegs (flow d st) = l -> accounts st (send_acked d l st) ∅ 0.
Proof.
  revert st. induction l as [|q l IH]; intros st Hl; simpl; [apply acc_refl|].
  destruct (_ <=? _); [|by apply acc_upd_same].
  destruct (acc_send d st q l Hl) as (H1 & H2 & _).
  eapply acc_step; [by apply IH|exact H1|mset|lia].
Qed.

Lemma acc_reverse d ack st : accounts st (send_reverse_tcpflow d ack st) ∅ 0.
Proof.
  unfold send_reverse_tcpflow. destruct (negb _); [apply acc_flush|].
  pose proof (acc_acked d _ st eq_refl) as H. destruct (tsegs (flow d (send_acked _ _ _))) as [|q l] eqn:E.
  - eapply (acc_step _ _ _ _ _ ∅ 0); [eapply (acc_upd _ _ _ []); [done|rewrite E; mset|by rewrite E]|exact H|mset|lia].
  - eapply acc_step; [by apply acc_upd_same|exact H|mset|lia].
Qed.

Lemma trim_works sequence len b :
  wset (trim_next sequence len b).1 ⊎ wset (trim_next sequence len b).2 = wset b /\
  (length (trim_next sequence len b).1 + length (trim_next sequence len b).2 = length b)%nat.
Proof.
  induction b as [|q b [IHw IHl]]; simpl; [split; [mset|done]|].
  destruct (_ <=? 0); [simpl; split; [rewrite wset_nil; mset|done]|].
  destruct (_ <? _); [simpl; split; [rewrite !wset_cons, wset_nil; simpl; mset|done]|].
  destruct (trim_next sequence len b) as [x y]. simpl in *. rewrite !wset_cons.
  split; [mset|lia].
Qed.

Lemma acc_covered l st :
  accounts st (foldl drop_covered st l) (wset l) (Z.of_nat (length l)) /\
  forall d, flow d (foldl drop_covered st l) = flow d st.
Proof.
  revert st. induction l as [|q l IH]; intros st; simpl.
  - split; [|done]. rewrite wset_nil. apply acc_refl.
  - destruct (IH (drop_covered st q)) as [H1 H2]. split.
    + apply (acc_step st (drop_covered st q) _ _ _ (wset l) (Z.of_nat (length l)) {[+ work q +]} 1);
        [exact H1| |apply wset_cons|lia].
      unfold drop_covered.
      apply (acc_step st (pool_add 1 (work_free (work q) st)) _ _ _ ∅ 0 {[+ work q +]} 1);
        [apply acc_stat| |mset|lia].
      eapply acc_step; [apply acc_pool|apply acc_free|mset|lia].
    + intros d. rewrite H2. by destruct d.
Qed.

(** The new packet and, from the pool, its entry are accounted for. *)
Lemma acc_insert depth d a b w sequence ack dat th_flags dir st :
  tsegs (flow d st) = a ++ b ->
  accounts st (insert_segment depth d a b w sequence ack dat th_flags dir st) {[+ w +]} 1.
Proof.
  intros Hl. unfold insert_segment.
  destruct (trim_works sequence (Z.of_nat (length dat)) b) as [Hw Hn].
  destruct (trim_next sequence (Z.of_nat (length dat)) b) as [removed b']. simpl in Hw, Hn.
  destruct (acc_covered removed st) as [H1 Hf1].
  set (st1 := foldl drop_covered st removed) in *.
  set (st2 := if trim_partial _ _ _ then _ else st1).
  assert (accounts st st2 (wset removed) (Z.of_nat (length removed)) /\ flow d st2 = flow d st) as [H2 Hf2].
  { unfold st2. destruct (trim_partial _ _ _); [|by split].
    split; [eapply acc_step; [apply acc_stat|exact H1|mset|lia]|]. by rewrite <- Hf1; destruct d. }
  set (nxt := u64 _). set (g := fun f => Flow (match a ++ b' with [] => nxt | _ => rcv_nxt f end) (a ++ b') _ _ _).
  assert (accounts st (upd_flow d g st2) ∅ 0) as H3.
  { destruct H2 as [Hws Hes]. split.
    - pose proof (works_set_flow d (g (flow d st2)) st2) as E. unfold upd_flow.
      rewrite Hf2 in E |- *. rewrite Hl in E. change (tsegs (g (flow d st))) with (a ++ b') in E. mset.
    - unfold upd_flow. rewrite entries_set_flow, Hes, Hf2, Hl. simpl. rewrite !length_app. lia. }
  assert (tsegs (flow d (upd_flow d g st2)) = a ++ b') as Hl3 by (unfold upd_flow; by rewrite flow_set_flow).
  set (st3 := upd_flow d g st2) in *. clearbody st3.
  destruct (has_flag th_flags TH_SYN).
  { eapply (acc_step _ _ _ _ _ ∅ 0 {[+ w +]} 1); [apply acc_stat| |mset|lia].
    eapply (acc_step _ _ _ _ _ ∅ 1 {[+ w +]} 0); [apply acc_pool| |mset|lia].
    eapply acc_step; [apply acc_free|exact H3|mset|lia]. }
  set (te := Qent (u32 sequence) ack nxt w dat dir).
  set (h := fun f => Flow (rcv_nxt f) (a ++ te :: b') _ _ _).
  assert (accounts st (upd_flow d h st3) {[+ w +]} 1) as H4.
  { eapply (acc_step _ _ _ _ _ {[+ w +]} 1); [eapply (acc_upd _ _ _ (a ++ te :: b')); [done| |]|exact H3| |].
    - rewrite Hl3, !wset_app, wset_cons. simpl. mset.
    - rewrite Hl3, !length_app. simpl. lia.
    - mset.
    - done. }
  destruct (_ || _).
  { eapply acc_step; [apply acc_flush|exact H4|mset|lia]. }
  destruct (_ =? _); [|done].
  eapply acc_step; [by apply acc_upd_same|exact H4|mset|lia].
Qed.

Lemma split_app sequence l : (split_at sequence l).1 ++ (split_at sequence l).2 = l.
Proof.
  induction l as [|x l IH]; simpl; [done|]. destruct (SEQ_GT _ _); [done|].
  destruct (split_at sequence l) as [a b]. simpl in *. by rewrite IH.
Qed.

Lemma last_split {A} (a : list A) p : last a = Some p -> a = removelast a ++ [p].
Proof. intros (l & ->)%last_Some. by rewrite removelast_last. Qed.

(** The packet is freed after effects that account for nothing but [n] entries. *)
Lemma acc_drop c w st0 st n :
  accounts st0 st ∅ n -> accounts st0 (TCP_STAT_INC c (work_free w st)) {[+ w +]} n.
Proof.
  intros H. apply (acc_step _ (work_free w st) _ _ _ ∅ 0 {[+ w +]} n); [apply acc_stat| |mset|lia].
  eapply acc_step; [apply acc_free|exact H|mset|lia].
Qed.

Lemma acc_drop_entry c w st0 st n :
  accounts st0 st ∅ n -> accounts st0 (TCP_STAT_INC c (pool_add 1 (work_free w st))) {[+ w +]} (n + 1).
Proof.
  intros H. apply (acc_step _ (pool_add 1 (work_free w st)) _ _ _ ∅ 0 {[+ w +]} (n + 1));
    [apply acc_stat| |mset|lia].
  apply (acc_step _ (work_free w st) _ _ _ ∅ 1 {[+ w +]} n); [apply acc_pool| |mset|lia].
  eapply acc_step; [apply acc_free|exact H|mset|lia].
Qed.

Lemma acc_reass depth w sequence ack dat th_flags dir st :
  accounts st (reass_tcp depth w sequence ack dat th_flags dir st) {[+ w +]} 0.
Proof.
  unfold reass_tcp. generalize (dir =? FRC_SSN_POSIVTE_FLOW) as d; intros d.
  destruct (_ <? _); [apply acc_drop, acc_refl|].
  set (st1 := if _ && _ then _ else st).
  assert (accounts st st1 ∅ 0) as H1 by (unfold st1; destruct (_ && _); [apply acc_reverse|apply acc_refl]).
  clearbody st1. destruct (has_flag _ _).
  { assert (forall s, accounts s (frcore_remove_chain_by_timer s) ∅ 0) as Ht
      by (intros s; unfold frcore_remove_chain_by_timer; destruct (ttl s =? 0); [apply acc_refl|]; split; [unfold works; simpl; mset|unfold entries; simpl; lia]).
    eapply (acc_step _ _ _ _ _ ∅ 0 {[+ w +]} 0); [apply Ht| |mset|lia].
    eapply acc_step; [apply acc_flush|apply acc_drop, H1|mset|lia]. }
  destruct (_ <=? _); [by apply acc_drop|]. destruct (_ <=? 0); [by apply acc_drop|].
  assert (accounts st (pool_add (-1) st1) ∅ (-1)) as H2
    by (eapply acc_step; [apply acc_pool|exact H1|mset|lia]).
  assert (tsegs (flow d (pool_add (-1) st1)) = tsegs (flow d st1)) as Hfl by by destruct d.
  set (st2 := pool_add (-1) st1) in *. clearbody st2. unfold reass_queue.
  pose proof (split_app sequence (tsegs (flow d st2))) as Hs.
  destruct (split_at sequence (tsegs (flow d st2))) as [a b]. simpl in Hs. symmetry in Hs.
  destruct (last a) as [p|] eqn:El.
  2: { eapply acc_step; [by apply acc_insert|exact H2|mset|lia]. }
  destruct (64 * K <? _).
  { by apply (acc_drop_entry stat_ssn_drop w) in H2. }
  destruct (_ <=? 0). { eapply acc_step; [by apply acc_insert|exact H2|mset|lia]. }
  destruct (_ <? _). { by apply (acc_drop_entry stat_tcpflowrec_dup_remove w) in H2. }
  destruct (_ =? _).
  2: { eapply (acc_step _ _ _ _ _ {[+ w +]} 1 ∅ (-1)); [apply acc_insert; by destruct d| |mset|lia].
       eapply acc_step; [apply acc_stat|exact H2|mset|lia]. }
  apply last_split in El. set (p' := Qent _ _ _ _ _ _). set (g := fun f => Flow _ _ _ _ _).
  eapply (acc_step _ _ _ _ _ ∅ 0 {[+ w +]} 0); [apply acc_stat| |mset|lia].
  eapply (acc_step _ _ _ _ _ ∅ 0 {[+ w +]} 0); [apply acc_stat| |mset|lia].
  destruct H2 as [Hw2 He2]. unfold upd_flow. set (st3 := work_free _ _). split.
  - pose proof (works_set_flow d (g (flow d st3)) st3) as E.
    assert (works st3 = works st2 ⊎ {[+ work p +]}) as E3 by (unfold st3; rewrite works_free; done).
    assert (tsegs (flow d st3) = removelast a ++ p :: b) as Ef3.
    { unfold st3. destruct d; simpl in *; rewrite Hs, El at 1; by rewrite <- app_assoc. }
    rewrite Ef3 in E. change (tsegs (g (flow d st3))) with (removelast a ++ p' :: b) in E.
    change (work p') with w in E. rewrite !wset_app, !wset_cons in E. change (work p') with w in E.
    clearbody st3 g. clear - E E3 Hw2. mset.
  - rewrite entries_set_flow. assert (tsegs (flow d st3) = a ++ b) as -> by (by destruct d).
    change (tsegs (g (flow d st3))) with (removelast a ++ p' :: b). rewrite El at 1.
    rewrite !length_app. cbn [length]. unfold st3, entries in *. simpl. lia.
Qed.

Lemma acc_recovery depth w len protocol data_length sequence ack dat th_flags dir st st' :
  tcp_flow_recovery depth w len protocol data_length sequence ack dat th_flags dir st = Some st' ->
  accounts st st' {[+ w +]} 0.
Proof.
  intros E.
  unfold tcp_flow_recovery in E. destruct (_ =? _); [|injection E as <-; apply acc_drop, acc_refl].
  set (st1 := TcpState _ _ _ _ _ _ _ _ _ _ _) in E.
  assert (accounts st st1 ∅ 0) as H1
    by (split; [unfold works; simpl; mset|unfold entries; simpl; lia]).
  clearbody st1.
  destruct (_ && _); [injection E as <-; by apply acc_drop|].
  destruct (_ && _); [|done]. injection E as <-.
  eapply acc_step; [apply acc_reass|exact H1|mset|lia].
Qed.

(** A queue is emptied, whatever else its flow becomes. *)
Lemma acc_empty d f st : tsegs f = [] ->
  accounts st (set_flow d f (foldl (send_packet d) st (tsegs (flow d st)))) ∅ 0.
Proof.
  intros Hf. destruct (acc_send_all d st) as [H Hn]. remember (foldl (send_packet d) st (tsegs (flow d st))) as st1. clear Heqst1.
  change (set_flow d f st1) with (upd_flow d (fun _ => f) st1).
  eapply (acc_step _ _ _ _ _ ∅ 0); [eapply (acc_upd _ _ _ []); [done|rewrite Hn; mset|by rewrite Hn]|exact H|mset|lia].
Qed.

Lemma send_all_other d l st : flow (negb d) (foldl (send_packet d) st l) = flow (negb d) st.
Proof. revert st. induction l as [|q l IH]; intros st; simpl; [done|]. rewrite IH. by destruct d. Qed.

Lemma flush_lock_empty d st : tsegs (flow d (tcp_flow_flush_lock st)) = [].
Proof.
  unfold tcp_flow_flush_lock. destruct d; [|done].
  assert (tsegs (flow true (set_flow true (Flow 0 [] 0 1 false) (foldl (send_packet true) st (tsegs (flow true st))))) = []) as E by done.
  revert E. generalize (set_flow true (Flow 0 [] 0 1 false) (foldl (send_packet true) st (tsegs (flow true st)))).
  intros st1 E. rewrite <- E. exact (f_equal tsegs (send_all_other false (tsegs (flow false st1)) st1)).
Qed.

(** Both queues are flushed. *)
Lemma acc_flush_lock st : accounts st (tcp_flow_flush_lock st) ∅ 0.
Proof.
  unfold tcp_flow_flush_lock.
  pose proof (acc_empty true (Flow 0 [] 0 1 false) st eq_refl) as H1.
  remember (set_flow true (Flow 0 [] 0 1 false) _) as st1. clear Heqst1.
  pose proof (acc_empty false (Flow 0 [] 0 1 false) st1 eq_refl) as H2.
  eapply acc_step; [exact H2|exact H1|mset|lia].
Qed.

(** C23: Every packet given to the component is queued, freed or submitted exactly once,
    and no queue entry is lost: a step adds its packet to the account and keeps
    the number of entries, free and in use. *)
Theorem tcp_conservation depth w len protocol data_length sequence ack dat th_flags dir st st' :
  tcp_flow_recovery depth w len protocol data_length sequence ack dat th_flags dir st = Some st' ->
  works st' = works st ⊎ {[+ w +]} /\ entries st' = entries st.
Proof. intros [Ew En]%acc_recovery. split; [exact Ew|lia]. Qed.

(** ** Order and contents *)

Section stream.
(** What each direction sends: its byte at every sequence number, inside a window
    in which 32-bit sequence numbers do not wrap. *)
Variables (S : bool -> Z -> Z) (lo hi : bool -> Z).
Hypothesis window : forall d, 0 <= lo d /\ hi d < lo d + 2 ^ 31 /\ hi d < 2 ^ 32.

(** A segment that carries its part of the stream. *)
Record seg_ok (d : bool) (q : tseg_qent) : Prop := SegOk {
  g_dir : (direction q =? FRC_SSN_POSIVTE_FLOW) = d;
  g_lo : lo d <= seq q;
  g_pos : 0 < data_len q;
  g_hi : seq q + data_len q <= hi d;
  g_nxt : nxt_seq q = seq q + data_len q;
  g_data : data q = S d <$> seqZ (seq q) (data_len q) }.

Definition before (x y : tseg_qent) : Prop := seq x + data_len x <= seq y.

(** A queue: correct segments in sequence order without overlap. *)
Definition queue_ok (d : bool) (l : list tseg_qent) : Prop :=
  Forall (seg_ok d) l /\ StronglySorted before l.

Lemma queue_nil d : queue_ok d [].
Proof. by split; constructor. Qed.

Lemma queue_cons d x l :
  queue_ok d (x :: l) <-> seg_ok d x /\ Forall (before x) l /\ queue_ok d l.
Proof.
  unfold queue_ok. rewrite Forall_cons. split.
  - intros [[H1 H2] H3]. inversion H3; subst. done.
  - intros (H1 & H2 & H3 & H4). split; [done|]. by constructor.
Qed.

Lemma queue_app d a b :
  queue_ok d (a ++ b) <->
  queue_ok d a /\ queue_ok d b /\ (forall x y, x ∈ a -> y ∈ b -> before x y).
Proof.
  induction a as [|x a IH]; simpl.
  - split; [|by intros (_ & ? & _)]. intros H. split; [apply queue_nil|]. split; [done|].
    intros x y Hx. by apply elem_of_nil in Hx.
  - rewrite !queue_cons, IH, Forall_app. split.
    + intros (H1 & [H2 H3] & H4 & H5 & H6). split_and!; try done.
      intros y z [-> |Hy]%elem_of_cons Hz; [|by apply H6].
      rewrite Forall_forall in H3. by apply H3.
    + intros ((H1 & H2 & H3) & H4 & H5). split_and!; try done.
      * apply Forall_forall. intros z Hz. apply H5; [by left|done].
      * intros y z Hy Hz. apply H5; [by right|done].
Qed.

(** Differences inside the window do not wrap. *)
Lemma s32_window d a b : lo d <= a <= hi d -> lo d <= b <= hi d -> s32 (a - b) = a - b.
Proof using window. intros Ha Hb. pose proof (window d). apply wraps_small; simpl; lia. Qed.

Lemma seq_gt_window d a b : lo d <= a <= hi d -> lo d <= b <= hi d -> SEQ_GT a b = (b <? a).
Proof using window.
  intros Ha Hb. unfold SEQ_GT. rewrite (s32_window d) by done.
  destruct (Z.ltb_spec 0 (a - b)), (Z.ltb_spec b a); done || lia.
Qed.

Lemma split_spec d sequence l :
  queue_ok d l -> lo d <= sequence <= hi d ->
  (forall x, x ∈ (split_at sequence l).1 -> seq x <= sequence) /\
  (forall x, x ∈ (split_at sequence l).2 -> sequence < seq x).
Proof using window.
  induction l as [|x l IH]; intros Hq Hs; simpl.
  { split; intros x Hx; by apply elem_of_nil in Hx. }
  apply queue_cons in Hq as (Hx & Hb & Hl).
  rewrite (seq_gt_window d) by (destruct Hx; lia). destruct (Z.ltb_spec sequence (seq x)) as [Hlt|Hge].
  - split; [intros y Hy; by apply elem_of_nil in Hy|]. intros y [-> |Hy]%elem_of_cons; [done|].
    rewrite Forall_forall in Hb. specialize (Hb y Hy). unfold before in Hb. destruct Hx. lia.
  - destruct (IH Hl Hs) as [H1 H2]. destruct (split_at sequence l) as [a b]. simpl in *. split; [|done].
    intros y [-> |Hy]%elem_of_cons; auto.
Qed.

Lemma drop_seqZ m n i : 0 <= i <= n -> drop (Z.to_nat i) (seqZ m n) = seqZ (m + i) (n - i).
Proof.
  intros Hi. replace n with (i + (n - i)) at 1 by lia. rewrite seqZ_app by lia.
  apply drop_app_length'. rewrite length_seqZ. lia.
Qed.

(** Cutting the front of a segment. *)
Lemma seg_cut d q i :
  seg_ok d q -> 0 <= i < data_len q ->
  seg_ok d (Qent (u32 (seq q + i)) (ack_num q) (nxt_seq q) (work q) (drop (Z.to_nat i) (data q)) (direction q)).
Proof using window.
  intros [] Hi. pose proof (window d). unfold data_len in *.
  assert (Z.of_nat (length (drop (Z.to_nat i) (data q))) = Z.of_nat (length (data q)) - i) as El
    by (rewrite length_drop; lia).
  split; unfold data_len; simpl; rewrite ?El, ?(wrapu_id 32) by (simpl; lia); try (done || lia).
  rewrite g_data0 at 1. rewrite <- fmap_drop. f_equal. apply drop_seqZ. lia.
Qed.

Lemma trim_spec d sequence len l :
  queue_ok d l -> (forall x, x ∈ l -> sequence <= seq x) ->
  lo d <= sequence -> 0 <= len -> sequence + len <= hi d ->
  queue_ok d (trim_next sequence len l).2 /\
  (forall x, x ∈ (trim_next sequence len l).2 -> sequence + len <= seq x) /\
  (forall y, (forall x, x ∈ l -> before y x) -> forall x, x ∈ (trim_next sequence len l).2 -> before y x).
Proof using window.
  intros Hq Hs Hlo Hlen Hhi. induction l as [|q l IH]; simpl.
  { split; [apply queue_nil|]. split; [intros x Hx; by apply elem_of_nil in Hx|]. intros y Hy x Hx. by apply Hy. }
  apply queue_cons in Hq as (Hx & Hb & Hl). pose proof (window d).
  assert (sequence <= seq q) as Hsq by (apply Hs; by left).
  rewrite (s32_window d) by (destruct Hx; lia).
  destruct (Z.leb_spec (sequence + len - seq q) 0) as [Hz|Hz].
  - split; [by apply queue_cons|]. split; [|done].
    intros x [-> |Hy]%elem_of_cons; [lia|]. rewrite Forall_forall in Hb. specialize (Hb x Hy).
    unfold before in Hb. destruct Hx. lia.
  - rewrite (wraps_id 32 (data_len q)) by (destruct Hx; simpl; lia).
    destruct (Z.ltb_spec (sequence + len - seq q) (data_len q)) as [Hlt|Hge]; simpl.
    + set (q' := Qent _ _ _ _ _ _).
      pose proof (seg_cut d q (sequence + len - seq q) Hx ltac:(lia)) as Hq'. fold q' in Hq'.
      assert (seq q' = sequence + len) as Es.
      { simpl. rewrite (wrapu_id 32); [lia|]. destruct Hx. simpl. lia. }
      assert (forall y, before q y -> before q' y) as Hbq.
      { intros y Hy. unfold before in *. destruct Hq', Hx. rewrite <- g_nxt0.
        change (nxt_seq q') with (nxt_seq q). lia. }
      split; [apply queue_cons; split_and!; [done| |done]; eapply Forall_impl; [done|auto]|].
      split.
      * intros x [-> |Hy]%elem_of_cons; [lia|]. rewrite Forall_forall in Hb. specialize (Hb x Hy).
        unfold before in Hb. lia.
      * intros y Hy x [-> |Hx']%elem_of_cons; [|apply Hy; by right].
        specialize (Hy q ltac:(by left)). unfold before in *. lia.
    + destruct (IH Hl) as (H1 & H2 & H3); [intros; apply Hs; by right|].
      destruct (trim_next sequence len l) as [r b]. simpl in *. split_and!; [done..|].
      intros y Hy. apply H3. intros x Hx'. apply Hy. by right.
Qed.

(** *** States *)

(** The configured bound on the length of a queue. *)
Variable disorder_depth : Z.
Hypothesis depth : 1 <= disorder_depth <= 255.

Definition flow_ok (d : bool) (f : tcp_flow_data) : Prop :=
  queue_ok d (tsegs f) /\ tsegqe_len f = Z.of_nat (length (tsegs f)) /\
  Z.of_nat (length (tsegs f)) < disorder_depth.

Definition dir_of (d : bool) (q : tseg_qent) : Prop := (direction q =? FRC_SSN_POSIVTE_FLOW) = d.
#[local] Instance dir_of_dec d q : Decision (dir_of d q).
Proof. unfold dir_of. apply _. Defined.

(** What one step submits: in each direction correct segments, in order and
    without overlap. *)
Definition emits (st st' : tcp_state) (new : list tseg_qent) : Prop :=
  submitted st' = submitted st ++ new /\ forall d, queue_ok d (filter (dir_of d) new).

Lemma filter_dir d (l : list tseg_qent) : queue_ok d l -> filter (dir_of d) l = l.
Proof.
  induction l as [|q l IH]; intros H; [done|]. apply queue_cons in H as ([] & _ & H).
  rewrite filter_cons_True by done. by rewrite IH.
Qed.

Lemma filter_dir_ne d (l : list tseg_qent) : queue_ok d l -> filter (dir_of (negb d)) l = [].
Proof.
  induction l as [|q l IH]; intros H; [done|]. apply queue_cons in H as ([] & _ & H).
  rewrite filter_cons_False; [auto|]. unfold dir_of. rewrite g_dir0. by destruct d.
Qed.

Lemma filter_dir_both d d' (l : list tseg_qent) : queue_ok d l -> queue_ok d' (filter (dir_of d') l).
Proof.
  intros H. destruct (Bool.bool_dec d' d) as [->|Hne]; [by rewrite filter_dir|].
  assert (d' = negb d) as -> by (destruct d, d'; done). rewrite filter_dir_ne by done. apply queue_nil.
Qed.

Lemma send_all_spec d l st :
  tsegs (flow d st) = l ->
  submitted (foldl (send_packet d) st l) = submitted st ++ l /\
  flow (negb d) (foldl (send_packet d) st l) = flow (negb d) st.
Proof.
  revert st. induction l as [|q l IH]; intros st Hl; simpl.
  - by rewrite app_nil_r.
  - destruct (acc_send d st q l Hl) as (_ & H2 & _). destruct (IH (send_packet d st q) H2) as [E1 E2].
    rewrite E1, E2. split; [|by destruct d]. unfold send_packet. destruct d; simpl; by rewrite <- app_assoc.
Qed.

Lemma flush_spec d st :
  submitted (tcp_flow_flush d st) = submitted st ++ tsegs (flow d st) /\
  flow (negb d) (tcp_flow_flush d st) = flow (negb d) st /\
  flow_ok d (flow d (tcp_flow_flush d st)).
Proof using depth.
  unfold tcp_flow_flush. destruct (send_all_spec d _ st eq_refl) as [E1 E2].
  set (st1 := foldl _ _ _) in *. split_and!.
  - by destruct d.
  - unfold upd_flow. by rewrite flow_set_flow_ne.
  - unfold upd_flow. rewrite flow_set_flow. split_and!; [apply queue_nil|done|].
    simpl. lia.
Qed.

Lemma acked_spec d l st :
  tsegs (flow d st) = l -> flow_ok d (flow d st) ->
  exists l1, l = l1 ++ tsegs (flow d (send_acked d l st)) /\
    submitted (send_acked d l st) = submitted st ++ l1 /\
    flow (negb d) (send_acked d l st) = flow (negb d) st /\
    flow_ok d (flow d (send_acked d l st)).
Proof using depth.
  revert st. induction l as [|q l IH]; intros st Hl Hok; simpl.
  { exists []. by rewrite app_nil_r, Hl. }
  destruct (_ <=? _).
  - destruct Hok as (Hq & Hn & Hb). rewrite Hl in Hq, Hn, Hb. apply queue_cons in Hq as (_ & _ & Hq).
    destruct (acc_send d st q l Hl) as (_ & H2 & _).
    destruct (IH (send_packet d st q) H2) as (l1 & E1 & E2 & E3 & E4).
    { split_and!; rewrite ?H2; [done| |cbn [length] in Hb; lia].
      destruct d; simpl in *; rewrite Hn, wrapu_id; simpl; lia. }
    exists (q :: l1). split_and!; [simpl; by f_equal| | |done].
    + rewrite E2. unfold send_packet. destruct d; simpl; by rewrite <- app_assoc.
    + rewrite E3. by destruct d.
  - exists []. unfold upd_flow. rewrite flow_set_flow, flow_set_flow_ne, app_nil_r. simpl.
    split_and!; [by rewrite Hl|by destruct d|done|]. by destruct Hok.
Qed.

(** The reverse queue loses a prefix, which is submitted. *)
Lemma reverse_spec d ack st :
  flow_ok d (flow d st) ->
  exists l1, submitted (send_reverse_tcpflow d ack st) = submitted st ++ l1 /\ queue_ok d l1 /\
    flow (negb d) (send_reverse_tcpflow d ack st) = flow (negb d) st /\
    flow_ok d (flow d (send_reverse_tcpflow d ack st)).
Proof using depth.
  intros Hok. unfold send_reverse_tcpflow. destruct (negb _).
  - destruct (flush_spec d st) as (E1 & E2 & E3). exists (tsegs (flow d st)).
    split_and!; try done. by destruct Hok.
  - destruct (acked_spec d _ st eq_refl Hok) as (l1 & E1 & E2 & E3 & E4).
    set (st1 := send_acked _ _ _) in *. clearbody st1. exists l1.
    assert (queue_ok d l1) as Hl1 by (destruct Hok as [Hq _]; rewrite E1 in Hq; by apply queue_app in Hq as [? _]).
    destruct E4 as (Hq & Hn & Hb).
    destruct (tsegs (flow d st1)) as [|q l] eqn:E; unfold upd_flow; rewrite flow_set_flow, flow_set_flow_ne;
      (split; [by destruct d|split; [done|split; [done|]]]).
    + split; [apply queue_nil|]. simpl. lia.
    + unfold flow_ok. simpl. by rewrite E.
Qed.

(** A packet of the stream of direction [d]. *)
Record packet_ok (d : bool) (sequence : Z) (dat : list Z) (dir : Z) : Prop := PacketOk {
  p_dir : (dir =? FRC_SSN_POSIVTE_FLOW) = d;
  p_lo : lo d <= sequence;
  p_hi : sequence + Z.of_nat (length dat) <= hi d;
  p_data : dat = S d <$> seqZ sequence (Z.of_nat (length dat)) }.

Lemma te_ok d sequence ack dat dir w :
  packet_ok d sequence dat dir -> dat <> [] ->
  seg_ok d (Qent (u32 sequence) ack (sequence + Z.of_nat (length dat)) w dat dir).
Proof using window.
  intros [] Hne. pose proof (window d).
  assert (0 < Z.of_nat (length dat)) by (destruct dat; simpl; [done|lia]).
  split; unfold data_len; simpl; rewrite ?(wrapu_id 32) by (simpl; lia); by (lia || done).
Qed.

Lemma packet_cut d sequence dat dir i :
  packet_ok d sequence dat dir -> 0 <= i <= Z.of_nat (length dat) ->
  packet_ok d (sequence + i) (drop (Z.to_nat i) dat) dir.
Proof.
  intros [] Hi.
  assert (Z.of_nat (length (drop (Z.to_nat i) dat)) = Z.of_nat (length dat) - i) as El
    by (rewrite length_drop; lia).
  split; rewrite ?El; [done|lia|lia|].
  rewrite p_data0 at 1. rewrite <- fmap_drop. f_equal. apply drop_seqZ. lia.
Qed.

(** A flow update of direction [d] that submits [new]. *)
Definition flow_step (d : bool) (st st' : tcp_state) : Prop :=
  exists new, submitted st' = submitted st ++ new /\ queue_ok d new /\
    flow (negb d) st' = flow (negb d) st /\ flow_ok d (flow d st').

Lemma flow_step_keep d g st st' :
  submitted st' = submitted st -> flow (negb d) st' = flow (negb d) st -> flow d st' = flow d st ->
  flow_ok d (g (flow d st)) -> flow_step d st (upd_flow d g st').
Proof.
  intros E1 E2 E3 Hok. exists []. unfold upd_flow. rewrite flow_set_flow, flow_set_flow_ne, app_nil_r, E3.
  split_and!; [by destruct d|apply queue_nil|done|by destruct Hok..].
Qed.

Lemma insert_ok d a b w sequence ack dat th_flags dir st :
  flow_ok d (flow d st) -> tsegs (flow d st) = a ++ b ->
  (forall x, x ∈ a -> seq x + data_len x <= sequence) -> (forall x, x ∈ b -> sequence <= seq x) ->
  packet_ok d sequence dat dir -> (has_flag th_flags TH_SYN = false -> dat <> []) ->
  flow_step d st (insert_segment disorder_depth d a b w sequence ack dat th_flags dir st).
Proof using window depth.
  intros (Hq & Hn & Hb) Hl Ha Hbs Hp Hne. pose proof (window d). rewrite Hl in Hq, Hn, Hb.
  apply queue_app in Hq as (Hqa & Hqb & Hab). unfold insert_segment.
  destruct (trim_spec d sequence (Z.of_nat (length dat)) b Hqb Hbs (p_lo _ _ _ _ Hp) ltac:(lia)
    (p_hi _ _ _ _ Hp)) as (Hqb' & Hbs' & Hbef).
  destruct (trim_works sequence (Z.of_nat (length dat)) b) as [_ Hlen].
  destruct (trim_next sequence (Z.of_nat (length dat)) b) as [removed b']. simpl in Hqb', Hbs', Hbef, Hlen.
  rewrite length_app in Hn, Hb.
  destruct (acc_covered removed st) as [_ Hf1].
  assert (submitted (foldl drop_covered st removed) = submitted st) as Hs1.
  { clear. revert st. induction removed as [|q l IH]; intros st; [done|]. simpl. by rewrite IH. }
  set (st1 := foldl drop_covered st removed) in *. clearbody st1.
  set (st2 := if trim_partial _ _ _ then _ else st1).
  assert (submitted st2 = submitted st /\ forall d, flow d st2 = flow d st) as [Hs2 Hf2].
  { unfold st2. destruct (trim_partial _ _ _); [|by split]. split; [done|]. intros d'. rewrite <- Hf1. by destruct d'. }
  clearbody st2. clear st1 Hs1 Hf1.
  set (nxt := u64 _). set (g := fun f => Flow (match a ++ b' with [] => nxt | _ => rcv_nxt f end) (a ++ b') _ _ _).
  assert (queue_ok d (a ++ b')) as Hqab'.
  { apply queue_app. split_and!; [done..|]. intros x y Hx. apply Hbef. intros z Hz. by apply Hab. }
  assert (flow_step d st (upd_flow d g st2)) as H3.
  { apply flow_step_keep; [done..|]. unfold flow_ok. simpl. rewrite length_app. split; [done|].
    split; [|lia]. rewrite Hn, (wrapu_id 32) by (simpl; lia). lia. }
  destruct (has_flag th_flags TH_SYN) eqn:Hsyn.
  { destruct H3 as (new & E1 & E2 & E3 & E4). exists new. by destruct d. }
  specialize (Hne eq_refl). assert (nxt = sequence + Z.of_nat (length dat)) as Hnxt.
  { unfold nxt. rewrite Z.add_0_r. apply wrapu_id. destruct Hp. simpl. lia. }
  rewrite Hnxt. set (te := Qent (u32 sequence) ack (sequence + Z.of_nat (length dat)) w dat dir).
  pose proof (te_ok d sequence ack dat dir w Hp Hne) as Hte. fold te in Hte.
  assert (seq te = sequence) as Hste by (destruct Hp; apply wrapu_id; simpl; lia).
  assert (queue_ok d (a ++ te :: b')) as Hq4.
  { apply queue_app. apply queue_app in Hqab' as (_ & _ & Hab'). split; [done|]. split.
    - apply queue_cons. split_and!; [done| |by destruct Hqb'..]. apply Forall_forall. intros y Hy.
      specialize (Hbs' y Hy). unfold before, data_len. rewrite Hste. simpl. lia.
    - intros x y Hx [-> |Hy]%elem_of_cons; [|by apply Hab']. unfold before. rewrite Hste. by apply Ha. }
  set (h := fun f => Flow (rcv_nxt f) (a ++ te :: b') _ _ _).
  set (st4 := upd_flow d h (upd_flow d g st2)).
  assert (submitted st4 = submitted st /\ flow (negb d) st4 = flow (negb d) st /\
    tsegs (flow d st4) = a ++ te :: b' /\ tsegqe_len (flow d st4) = Z.of_nat (length (a ++ te :: b')))
    as (E1 & E2 & E3 & E4).
  { unfold st4, upd_flow. rewrite !flow_set_flow, !flow_set_flow_ne, !Hf2. split_and!; [by destruct d|done..|].
    simpl. rewrite ?Hf2, Hn, (wrapu_id 32 (_ - _)) by (simpl; lia).
    rewrite (wrapu_id 32), length_app by (simpl; lia). simpl. lia. }
  clearbody st4. destruct (Z.leb_spec disorder_depth (tsegqe_len (flow d st4))) as [Hge|Hlt]; simpl.
  - destruct (flush_spec d st4) as (F1 & F2 & F3). exists (a ++ te :: b').
    rewrite F1, F2, E1, E2, E3. split; [done|]. split; [exact Hq4|]. split; [done|exact F3].
  - assert (flow_ok d (flow d st4)) as Hok by (unfold flow_ok; rewrite E3; split; [exact Hq4|]; split; [done|by rewrite <- E4]).
    destruct (has_flag th_flags (Z.lor TH_FIN TH_RST)).
    { destruct (flush_spec d st4) as (F1 & F2 & F3). exists (a ++ te :: b').
      rewrite F1, F2, E1, E2, E3. split; [done|]. split; [exact Hq4|]. split; [done|exact F3]. }
    destruct (_ =? _).
    + exists []. unfold upd_flow. rewrite flow_set_flow, flow_set_flow_ne, app_nil_r, E2.
      split; [by destruct d|]. split; [apply queue_nil|]. split; [done|]. by destruct Hok.
    + exists []. rewrite app_nil_r. split; [done|]. split; [apply queue_nil|]. done.
Qed.

(** Both queues are correct. *)
Definition tcp_ok (st : tcp_state) : Prop := forall d, flow_ok d (flow d st).

Lemma flow_step_ok d st st' : tcp_ok st -> flow_step d st st' -> tcp_ok st'.
Proof.
  intros H (new & _ & _ & E & Hd) d'. destruct (Bool.bool_dec d' d) as [-> |Hne]; [done|].
  assert (d' = negb d) as -> by (destruct d, d'; done). rewrite E. apply H.
Qed.

(** Steps that leave the queues and the submissions alone. *)
Lemma flow_step_effect d st st' st'' :
  flow_step d st st' -> submitted st'' = submitted st' -> (forall d, flow d st'' = flow d st') ->
  flow_step d st st''.
Proof.
  intros (new & E1 & E2 & E3 & E4) Hs Hf. exists new. by rewrite Hs, !Hf.
Qed.

Lemma flow_step_refl d st : flow_ok d (flow d st) -> flow_step d st st.
Proof. intros H. exists []. rewrite app_nil_r. split; [done|]. split; [apply queue_nil|]. done. Qed.

(** The replacement of the last preceding segment by one with the same end. *)
Lemma replace_ok d a p b w sequence ack dat dir st st' :
  flow_ok d (flow d st) -> tsegs (flow d st) = a ++ p :: b ->
  packet_ok d sequence dat dir -> seq p <= sequence -> dat <> [] ->
  seq p + data_len p = sequence + Z.of_nat (length dat) ->
  submitted st' = submitted st -> (forall d, flow d st' = flow d st) ->
  flow_step d st (upd_flow d (fun f => Flow (rcv_nxt f)
    (a ++ Qent (u32 sequence) ack (nxt_seq p) w dat (direction p) :: b) (tsegqe_len f)
    (f_enable f) (rev_flow_data f)) st').
Proof using window.
  intros (Hq & Hn & Hb) Hl Hp Hle Hne Hend Hs Hf. rewrite Hl in Hq, Hn, Hb.
  apply queue_app in Hq as (Hqa & Hqb & Hab). apply queue_cons in Hqb as (Hpo & Hpb & Hqb).
  set (te := Qent _ _ _ _ _ _).
  pose proof (te_ok d sequence ack dat dir w Hp Hne) as Hte.
  assert (seq te = sequence /\ data_len te = Z.of_nat (length dat)) as [Es Ed].
  { split; [|done]. pose proof (window d). destruct Hp. apply wrapu_id. simpl. lia. }
  assert (seg_ok d te) as Hok.
  { destruct Hte, Hpo. split; rewrite ?Es, ?Ed; [done|lia| |lia|simpl; lia|exact (p_data _ _ _ _ Hp)].
    destruct dat; simpl; [done|lia]. }
  exists []. unfold upd_flow. rewrite flow_set_flow, flow_set_flow_ne, !Hf, app_nil_r.
  split; [by destruct d|]. split; [apply queue_nil|]. split; [done|].
  unfold flow_ok. cbn [tsegs tsegqe_len]. rewrite Hn, !length_app in *. cbn [length] in *. split; [|lia].
  apply queue_app. split; [done|]. split.
  - apply queue_cons. split; [done|]. split; [|done]. eapply Forall_impl; [done|].
    intros y. unfold before. rewrite Es, Ed. lia.
  - intros x y Hx [-> |Hy]%elem_of_cons; [|apply Hab; [done|by right]].
    specialize (Hab x p Hx ltac:(by left)). unfold before in *. rewrite Es. lia.
Qed.

Lemma reass_queue_ok w sequence ack dat th_flags dir st d :
  packet_ok d sequence dat dir -> (has_flag th_flags TH_SYN = false -> dat <> []) ->
  flow_ok d (flow d st) ->
  flow_step d st (reass_queue disorder_depth d w sequence ack dat th_flags dir st).
Proof using window depth.
  intros Hp Hne Hok. pose proof Hok as (Hq & _ & Hlen). pose proof (window d). unfold reass_queue.
  pose proof (split_app sequence (tsegs (flow d st))) as Hs.
  destruct (split_spec d sequence (tsegs (flow d st)) Hq) as [Ha Hbs]; [destruct Hp; lia|].
  destruct (split_at sequence (tsegs (flow d st))) as [a b]. simpl in Hs, Ha, Hbs. symmetry in Hs.
  pose proof (insert_ok d a b w sequence ack dat th_flags dir st Hok Hs) as Hins.
  assert (forall x, x ∈ b -> sequence <= seq x) as Hbs' by (intros x Hx; specialize (Hbs x Hx); lia).
  destruct (last a) as [p|] eqn:El.
  2: { apply last_None in El. subst a. apply Hins; try done. intros x Hx. by apply elem_of_nil in Hx. }
  apply last_split in El. rewrite Hs in Hq. apply queue_app in Hq as (Hqa & Hqb & Hab).
  rewrite El in Hqa. apply queue_app in Hqa as (Hqr & Hqp & Hrp). apply queue_cons in Hqp as (Hpo & _ & _).
  assert (seq p <= sequence) as Hps by (apply Ha; rewrite El; apply elem_of_app; right; by left).
  assert (forall n, seq p + data_len p <= n -> forall x, x ∈ a -> seq x + data_len x <= n) as Hends.
  { intros n Hn x Hx. rewrite El in Hx. apply elem_of_app in Hx as [Hx| ->%list_elem_of_singleton]; [|done].
    specialize (Hrp x p Hx ltac:(by left)). unfold before in Hrp. destruct Hpo. lia. }
  assert (forall c, flow_step d st (TCP_STAT_INC c (pool_add 1 (work_free w st)))) as Hdrop.
  { intros c. eapply flow_step_effect; [by apply flow_step_refl|done|]. by intros []. }
  destruct (64 * K <? _); [apply Hdrop|].
  rewrite (s32_window d) by (destruct Hpo, Hp; lia).
  destruct (Z.leb_spec (seq p + data_len p - sequence) 0) as [Hi|Hi].
  { apply Hins; try done. apply Hends. lia. }
  rewrite (wraps_id 32 (Z.of_nat (length dat))) by (destruct Hp; simpl; lia).
  destruct (Z.ltb_spec (Z.of_nat (length dat)) (seq p + data_len p - sequence)) as [Hlt|Hge]; [apply Hdrop|].
  destruct (Z.eqb_spec (seq p + data_len p - sequence) (Z.of_nat (length dat))) as [He|He].
  - do 2 (eapply flow_step_effect; [|done|by intros []]).
    apply (replace_ok d (removelast a) p b w sequence ack dat dir st); try done.
    + by rewrite Hs, El at 1; rewrite <- app_assoc.
    + intros ->. simpl in He. lia.
    + lia.
  - rewrite (wrapu_id 64) by (destruct Hp; simpl; lia).
    replace (sequence + (seq p + data_len p - sequence)) with (seq p + data_len p) by lia.
    set (i := seq p + data_len p - sequence) in *.
    set (st1 := TCP_STAT_INC stat_tcpflowrec_part_retrans st).
    assert (forall d, flow d st1 = flow d st) as Hf by by intros [].
    destruct (insert_ok d a b w (seq p + data_len p) ack (drop (Z.to_nat i) dat) th_flags dir st1)
      as (new & E1 & E2 & E3 & E4).
    + by rewrite Hf.
    + by rewrite Hf.
    + by apply Hends.
    + intros x Hx. apply (Hab p x); [rewrite El; apply elem_of_app; right; by left|done].
    + replace (seq p + data_len p) with (sequence + i) by lia. by apply packet_cut; [|lia].
    + intros _ E. apply (f_equal length) in E. rewrite length_drop in E. simpl in E. lia.
    + exists new. by rewrite E1, E3, Hf.
Qed.

Lemma flow_ok_dec d st : tcp_ok st -> flow_ok d (flow d st) /\ flow_ok (negb d) (flow (negb d) st).
Proof. by split. Qed.

(** A step of the reverse direction followed by one of the forward direction. *)
Lemma emits_both d l1 l2 :
  queue_ok (negb d) l1 -> queue_ok d l2 -> forall d', queue_ok d' (filter (dir_of d') (l1 ++ l2)).
Proof.
  intros H1 H2 d'. rewrite filter_app. destruct (Bool.bool_dec d' d) as [-> |Hne].
  - pose proof (filter_dir_ne _ _ H1) as E. rewrite negb_involutive in E. by rewrite E, filter_dir.
  - assert (d' = negb d) as -> by (destruct d, d'; done).
    by rewrite (filter_dir _ l1), (filter_dir_ne _ l2), app_nil_r.
Qed.

Lemma reass_ok w sequence ack dat th_flags dir st d :
  packet_ok d sequence dat dir ->
  (has_flag th_flags TH_SYN = false -> has_flag th_flags (Z.lor TH_FIN TH_RST) = false -> dat <> []) ->
  tcp_ok st ->
  exists new, emits st (reass_tcp disorder_depth w sequence ack dat th_flags dir st) new /\
    tcp_ok (reass_tcp disorder_depth w sequence ack dat th_flags dir st).
Proof using window depth.
  intros Hp Hne Hst. unfold reass_tcp. rewrite (p_dir _ _ _ _ Hp).
  assert (forall st', submitted st' = submitted st -> (forall d, flow d st' = flow d st) ->
    exists new, emits st st' new /\ tcp_ok st') as Hkeep.
  { intros st' Es Ef. exists []. split; [split; [by rewrite app_nil_r|intros; apply queue_nil]|].
    intros d'. rewrite Ef. apply Hst. }
  destruct (_ <? _); [apply Hkeep; [done|by intros []]|].
  set (st1 := if _ && _ then _ else st).
  assert (exists l1, submitted st1 = submitted st ++ l1 /\ queue_ok (negb d) l1 /\ tcp_ok st1) as (l1 & E1 & Hl1 & Hst1).
  { unfold st1. destruct (_ && _).
    - destruct (reverse_spec (negb d) ack st (Hst _)) as (l1 & F1 & F2 & F3 & F4). exists l1.
      split; [done|]. split; [done|]. intros d'. destruct (Bool.bool_dec d' (negb d)) as [-> |]; [done|].
      assert (d' = negb (negb d)) as -> by (destruct d, d'; done). rewrite F3. apply Hst.
    - exists []. rewrite app_nil_r. split; [done|]. split; [apply queue_nil|done]. }
  clearbody st1.
  assert (forall st', flow_step d st1 st' -> exists new, emits st st' new /\ tcp_ok st') as Hstep.
  { intros st' Hs. pose proof (flow_step_ok _ _ _ Hst1 Hs). destruct Hs as (l2 & F1 & F2 & _).
    exists (l1 ++ l2). split; [|done]. split; [by rewrite F1, E1, app_assoc|]. by apply (emits_both d). }
  assert (forall c, flow_step d st1 (TCP_STAT_INC c (work_free w st1))) as Hdrop.
  { intros c. eapply flow_step_effect; [by apply flow_step_refl|done|]. by intros []. }
  destruct (has_flag th_flags (Z.lor TH_FIN TH_RST)) eqn:Hfin.
  { apply Hstep. destruct (flush_spec d (TCP_STAT_INC stat_ssn_drop (work_free w st1))) as (F1 & F2 & F3).
    apply (flow_step_effect d _ (tcp_flow_flush d (TCP_STAT_INC stat_ssn_drop (work_free w st1)))).
    - exists (tsegs (flow d st1)). rewrite F1, F2. split; [by destruct d|].
      split; [by destruct (Hst1 d)|]. split; [by destruct d|done].
    - unfold frcore_remove_chain_by_timer. by destruct (ttl _ =? 0).
    - intros d'. unfold frcore_remove_chain_by_timer. destruct (ttl _ =? 0); by destruct d'. }
  destruct (_ <=? _); [apply Hstep, Hdrop|]. destruct (_ <=? 0); [apply Hstep, Hdrop|].
  apply Hstep. assert (forall d, flow d (pool_add (-1) st1) = flow d st1) as Hf by by intros [].
  destruct (reass_queue_ok w sequence ack dat th_flags dir (pool_add (-1) st1) d Hp) as (new & F1 & F2 & F3 & F4).
  - intros Hs. by apply Hne.
  - rewrite Hf. apply Hst1.
  - exists new. by rewrite F1, F3, Hf.
Qed.

Lemma has_flag_lor f a b : has_flag f (Z.lor a b) = has_flag f a || has_flag f b.
Proof.
  unfold has_flag. rewrite Z.land_lor_distr_r.
  destruct (Z.eqb_spec (Z.land f a) 0) as [->|Ha]; simpl; [done|].
  apply negb_true_iff, Z.eqb_neq. intros [? ?]%Z.lor_eq_0_iff. done.
Qed.

(** C7: For packets of two byte streams inside a window of less than 2^31 sequence numbers that do not
    wrap, both queues always hold
    correct, ordered, disjoint segments, fewer than the configured bound, and
    what a packet makes the component submit is, in each direction, a sequence
    of correct segments in stream order without overlap. *)
Theorem tcp_stream_order w len data_length sequence ack dat th_flags dir st d :
  tcp_ok st -> 0 <= data_length <= Z.of_nat (length dat) ->
  packet_ok d sequence (take (Z.to_nat data_length) dat) dir ->
  exists st' new,
    tcp_flow_recovery disorder_depth w len PROTO_TCP data_length sequence ack dat th_flags dir st = Some st' /\
    tcp_ok st' /\ emits st st' new.
Proof using window depth.
  intros Hst Hl Hp. unfold tcp_flow_recovery. cbn [Z.eqb PROTO_TCP Pos.eqb].
  set (st1 := TcpState _ _ _ _ _ _ _ _ _ _ _).
  assert (tcp_ok st1) as Hst1 by (intros d'; specialize (Hst d'); by destruct d').
  destruct (_ && _) eqn:E.
  - exists (TCP_STAT_INC stat_ssn_drop (work_free w st1)), []. split; [done|]. split.
    + intros d'. specialize (Hst d'). by destruct d'.
    + split; [by rewrite app_nil_r|]. intros. apply queue_nil.
  - rewrite (proj2 (Z.leb_le 0 _)), (proj2 (Z.leb_le _ (Z.of_nat (length dat)))) by lia. simpl.
    destruct (reass_ok w sequence ack (take (Z.to_nat data_length) dat) th_flags dir st1 d Hp) as (new & He & Hok).
    + intros Hs Hf Hnil. apply (f_equal length) in Hnil. rewrite length_take in Hnil. simpl in Hnil.
      apply andb_false_iff in E as [E|E].
      * apply Z.eqb_neq in E. lia.
      * by rewrite has_flag_lor, Hs, Hf in E.
    + done.
    + eexists _, new. split; [done|]. split; [done|]. exact He.
Qed.
End stream.

(** ** A retransmitted tail *)

(** When the last bytes of a queued segment arrive again, the segment is replaced by
    the retransmission alone: its first [k] bytes, accepted before, are neither
    queued nor submitted any more. *)
Theorem retransmitted_tail_loses_head depth p k w ack st :
  tsegs (positive st) = [p] -> tsegs (negative st) = [] -> tsegqe_len (positive st) < depth ->
  0 < qent_pool st -> 0 <= ssn_seq st <= seq p -> 0 <= seq p -> seq p + data_len p < 2 ^ 31 ->
  data_len p <= 64 * K -> 0 < k < data_len p ->
  exists st', reass_tcp depth w (seq p + k) ack (drop (Z.to_nat k) (data p)) 0 0 st = st' /\
    tsegs (positive st') =
      [Qent (seq p + k) ack (nxt_seq p) w (drop (Z.to_nat k) (data p)) (direction p)] /\
    submitted st' = submitted st /\ freed st' = freed st ++ [work p].
Proof.
  intros Hp Hn Hlen Hpool Hseq Hs0 Hend H64 Hk. eexists. split; [reflexivity|].
  assert (Z.of_nat (length (drop (Z.to_nat k) (data p))) = data_len p - k) as El
    by (rewrite length_drop; unfold data_len in *; lia).
  pose proof (wraps_small 32) as Hw. change (2 ^ (32 - 1)) with 2147483648 in Hw.
  change (2 ^ 31) with 2147483648 in Hend. unfold K in H64.
  unfold reass_tcp, FRC_SSN_POSIVTE_FLOW. change (0 =? 0) with true. cbn [flow negb].
  rewrite (proj2 (Z.ltb_ge (seq p + k) (ssn_seq st))) by lia.
  rewrite Hn, andb_false_r. change (has_flag 0 (Z.lor TH_FIN TH_RST)) with false. cbn [flow].
  rewrite (proj2 (Z.leb_gt depth _)), (proj2 (Z.leb_gt (qent_pool st) 0)) by lia.
  unfold reass_queue. cbn [flow pool_add positive]. rewrite Hp. cbn [split_at]. unfold SEQ_GT.
  rewrite Hw by lia. rewrite (proj2 (Z.ltb_ge 0 _)) by lia. cbn [last].
  rewrite (wrapu_id 64) by (simpl; lia). replace (seq p + k - seq p) with k by lia.
  rewrite (proj2 (Z.ltb_ge _ k)) by (unfold K; lia). rewrite El, !Hw by lia.
  replace (seq p + data_len p - (seq p + k)) with (data_len p - k) by lia.
  rewrite (proj2 (Z.leb_gt (data_len p - k) 0)), Z.ltb_irrefl, Z.eqb_refl by lia.
  simpl. rewrite (wrapu_id 32) by (simpl; lia). done.
Qed.

(** ** Concrete instances *)

(** Both directions send their sequence numbers as bytes; the first 1000 of them. *)
Definition demo_stream (d : bool) (n : Z) : Z := n.
Definition demo_lo (d : bool) : Z := 0.
Definition demo_hi (d : bool) : Z := 1000.

Lemma demo_window d : 0 <= demo_lo d /\ demo_hi d < demo_lo d + 2 ^ 31 /\ demo_hi d < 2 ^ 32.
Proof. unfold demo_lo, demo_hi. lia. Qed.

(** A queued segment [100, 104) of the positive direction. *)
Definition demo_seg : tseg_qent := Qent 100 0 104 1 [100; 101; 102; 103] 0.
Definition demo_flow : tcp_flow_data := Flow 104 [demo_seg] 1 1 true.
Definition demo_tcp : tcp_state :=
  TcpState 50 50 2 0 0 demo_flow (Flow 0 [] 0 1 true) 10 [] [] (fun _ => 0).

Lemma demo_tcp_ok : tcp_ok demo_stream demo_lo demo_hi 5 demo_tcp.
Proof.
  intros [|]; (split; [|simpl; split; [done|lia]]).
  - apply queue_cons. split; [|split; [constructor|apply queue_nil]].
    split; unfold data_len, demo_lo, demo_hi; simpl; try lia; reflexivity.
  - apply queue_nil.
Qed.

Lemma tcp_conservation_witness : exists st',
  tcp_flow_recovery 5 2 60 PROTO_TCP 4 102 0 [102; 103; 104; 105] 0 0 demo_tcp = Some st' /\
  works st' = works demo_tcp ⊎ {[+ 2 +]}.
Proof.
  assert (exists st', tcp_flow_recovery 5 2 60 PROTO_TCP 4 102 0 [102; 103; 104; 105] 0 0 demo_tcp = Some st')
    as [st' E] by (eexists; vm_compute; reflexivity).
  exists st'. split; [exact E|]. exact (proj1 (tcp_conservation _ _ _ _ _ _ _ _ _ _ _ _ E)).
Defined.

Lemma tcp_stream_order_witness : exists st' new,
  tcp_flow_recovery 5 2 60 PROTO_TCP 4 102 0 [102; 103; 104; 105] 0 0 demo_tcp = Some st' /\
  tcp_ok demo_stream demo_lo demo_hi 5 st' /\ emits demo_stream demo_lo demo_hi demo_tcp st' new.
Proof.
  apply (tcp_stream_order demo_stream demo_lo demo_hi demo_window 5 ltac:(lia) 2 60 4 102 0
    [102; 103; 104; 105] 0 0 demo_tcp true demo_tcp_ok).
  - simpl. lia.
  - split; unfold demo_lo, demo_hi; simpl; try lia; reflexivity.
Defined.

Lemma retransmitted_tail_loses_head_witness : exists st',
  reass_tcp 5 2 102 0 [102; 103] 0 0 demo_tcp = st' /\
  tsegs (positive st') = [Qent 102 0 104 2 [102; 103] 0] /\ submitted st' = [].
Proof.
  destruct (retransmitted_tail_loses_head 5 demo_seg 2 2 0 demo_tcp) as (st' & E & Hp & Hs & _);
    try reflexivity; unfold data_len, K; simpl; try lia.
  exists st'. split; [exact E|]. split; [exact Hp|exact Hs].
Defined.
