(* ===== verification/SsnBlock.v ===== *)
(** * Packing segments into session blocks: src/code/frcore/frcore_tcpflowrec.c

    [sbumit_data_to_fifo] puts the segments of a session one behind the other into a
    block of host memory, their descriptions one before the other from the end of
    the block down, and the block's header in front when the block is full or the
    session ends.  What it hands to the session channel are cells; the channel is
    an interface, [SsnSink].  Here are also the bytes a cell stands for, and the
    walk of the host's tool through a block (src/code/frctweak/frctweak_pr.c). *)

From stdpp Require Import list functions.
From S2P Require Import Prelude Bytes VlanCheck TcpFlow Chan.
#[local] Open Scope Z_scope.

(** ** Layout of frc_dma.h *)
Definition FRC_DMA_SSN_BLOCK_SIZE : Z := 8 * K.
Definition FRC_DMA_SSN_DATA_SIZE : Z := FRC_DMA_SSN_BLOCK_SIZE - FRC_DMA_OFFSET.
Definition FRC_SSN_FIFO_NUM : Z := 50.

(** [frc_dma_hdr_t]; the last sixteen bytes are not set by this code. *)
Record dma_hdr : Type := DmaHdr {
  h_sip : Z; h_dip : Z; h_sport : Z; h_dport : Z; h_protocol : Z; h_stop_sec : Z;
  h_pkt_num : Z; h_total_paylen : Z; h_hash : Z; h_rest : list Z }.

(** [frc_dma_pkt_info_t] *)
Record pkt_info : Type := PktInfo {
  i_sequence : Z; i_ack_seq : Z; i_data_offset : Z; i_payload_len : Z; i_direction : Z; i_smac : Z; i_dmac : Z }.

(** The structures in the memory of the card, a big-endian processor. *)
Definition hdr_bytes (h : dma_hdr) : list Z :=
  be_bytes 4 (h_dip h) ++ be_bytes 4 (h_sip h) ++
  be_bytes 2 (h_stop_sec h) ++ be_bytes 2 (h_protocol h) ++ be_bytes 2 (h_dport h) ++ be_bytes 2 (h_sport h) ++
  be_bytes 4 (h_hash h) ++ be_bytes 2 (h_total_paylen h) ++ be_bytes 2 (h_pkt_num h) ++ h_rest h.

Definition info_bytes (i : pkt_info) : list Z :=
  be_bytes 4 (i_ack_seq i) ++ be_bytes 4 (i_sequence i) ++
  be_bytes 2 (i_direction i) ++ be_bytes 2 (i_payload_len i) ++ be_bytes 4 (i_data_offset i) ++
  be_bytes 8 (i_smac i) ++ be_bytes 8 (i_dmac i).

(** ** The cells handed to the session channel *)

(** [FRC_SSN_DMA_HEAD] with the header; [FRC_SSN_DMA_PAYLOAD] with description,
    payload, the two offsets and the packet buffer. *)
Inductive ssn_cell : Type :=
| Head (block_addr : Z) (h : dma_hdr)
| Payload (block_addr : Z) (i : pkt_info) (payload : list Z) (info_offset payload_offset wqe : Z).

(** What [frcore_ssn_chan_post_pkt] copies for a cell: remote addresses and bytes. *)
Definition cell_writes (c : ssn_cell) : list (Z * list Z) :=
  match c with
  | Head b h => [(u64 (b + FRC_DMA_OFFSET), hdr_bytes h)]
  | Payload b i bs io po _ => [(u64 (b + po), bs); (u64 (b + io), info_bytes i)]
  end.

(** The session channel: the address of a free block for a FIFO, and queueing a cell
    in the FIFO of a session; both answer a return code. *)
Class SsnSink (S : Type) : Type := {
  frcore_ssn_get_one_block_addr : Z -> S -> option (Z * Z * S);
  frcore_forward_ssn_pkt_to_fifo : Z -> ssn_cell -> S -> option (Z * S) }.

(** ** The state *)

(** [frc_ssn_submit_addr] *)
Record ssn_addr : Type := SsnAddr {
  block_addr : Z; head_offset : Z; info_offset : Z; payload_offset : Z; addr_flag : Z;
  payload_len : Z; pkt_num : Z }.

(** The fields of [mpp_ssn] that do not change here: the index, the key and the two
    words [cont.data_64[1]] and [cont.data_64[2]]. *)
Record ssn_id : Type := SsnId {
  ssn_index : Z; key_sip : Z; key_dip : Z; key_sp : Z; key_dp : Z; key_proto : Z; cont_1 : Z; cont_2 : Z }.

Inductive ssn_stat : Type :=
| stat_ssn_dma_head_fail | stat_ssn_dma_blocks | stat_ssn_packet_blocks (index : Z).

#[export] Instance ssn_stat_eq_dec : EqDecision ssn_stat.
Proof. solve_decision. Defined.

(** One session: where the next segment goes, the entries of [ssn_block_exhaust] and
    [ssn_last_display] for the core, the cycle counter, the channel; the cells it
    took, the packet buffers freed here, the statistics. *)
Record pack (S : Type) : Type := Pack {
  addr : ssn_addr; ssn_block_exhaust : Z; ssn_last_display : Z; cycles : list Z; sink : S;
  taken : list ssn_cell; wqe_freed : list Z; ssn_stats : ssn_stat -> Z }.
#[global] Arguments Pack {S}.
#[global] Arguments addr {S}.
#[global] Arguments ssn_block_exhaust {S}.
#[global] Arguments ssn_last_display {S}.
#[global] Arguments cycles {S}.
#[global] Arguments sink {S}.
#[global] Arguments taken {S}.
#[global] Arguments wqe_freed {S}.
#[global] Arguments ssn_stats {S}.

(** ** The operations *)

Section pack.
Context {S : Type} `{SsnSink S}.
(** The clock frequency, the session, and what the stack holds in the unset part of a
    header. *)
Variables (cpu_freq : Z) (ssn : ssn_id) (hdr_stack : list Z).

Definition set_addr (a : ssn_addr) (st : pack S) : pack S :=
  Pack a (ssn_block_exhaust st) (ssn_last_display st) (cycles st) (sink st) (taken st) (wqe_freed st) (ssn_stats st).
Definition set_ssn_exhaust (e t : Z) (st : pack S) : pack S :=
  Pack (addr st) e t (cycles st) (sink st) (taken st) (wqe_freed st) (ssn_stats st).
Definition set_sink (s : S) (st : pack S) : pack S :=
  Pack (addr st) (ssn_block_exhaust st) (ssn_last_display st) (cycles st) s (taken st) (wqe_freed st) (ssn_stats st).
Definition frcore_work_free (w : Z) (st : pack S) : pack S :=
  Pack (addr st) (ssn_block_exhaust st) (ssn_last_display st) (cycles st) (sink st) (taken st)
    (wqe_freed st ++ [w]) (ssn_stats st).
Definition SSN_STAT_INC (c : ssn_stat) (st : pack S) : pack S :=
  Pack (addr st) (ssn_block_exhaust st) (ssn_last_display st) (cycles st) (sink st) (taken st) (wqe_freed st)
    (<[c := u64 (ssn_stats st c + 1)]> (ssn_stats st)).
Definition get_ssn_cycle (st : pack S) : Z * pack S :=
  match cycles st with
  | [] => (0, st)
  | t :: l => (t, Pack (addr st) (ssn_block_exhaust st) (ssn_last_display st) l (sink st) (taken st)
      (wqe_freed st) (ssn_stats st))
  end.

Definition fifo_id : Z := ssn_index ssn `mod` FRC_SSN_FIFO_NUM.

(** Queue a cell. *)
Definition forward_cell (c : ssn_cell) (st : pack S) : option (Z * pack S) :=
  '(rv, s) ← frcore_forward_ssn_pkt_to_fifo (ssn_index ssn) c (sink st);
  Some (rv, Pack (addr st) (ssn_block_exhaust st) (ssn_last_display st) (cycles st) s
    (if rv =? 0 then taken st ++ [c] else taken st) (wqe_freed st) (ssn_stats st)).

Definition fresh_addr (b : Z) : ssn_addr :=
  SsnAddr b FRC_DMA_OFFSET (FRC_DMA_SSN_BLOCK_SIZE - sizeof_frc_dma_pkt_info_t)
    (FRC_DMA_OFFSET + sizeof_frc_dma_hdr_t) 1 0 0.

Definition check_ssn_addr (st : pack S) : option (Z * pack S) :=
  if addr_flag (addr st) =? 0 then
    let '(rest, st) :=
      if ssn_block_exhaust st =? 0 then (false, st)
      else let '(now, st) := get_ssn_cycle st in
           (u64 (now - ssn_last_display st) <? cpu_freq / DMA_CHANNEL_REST_DIV, st) in
    if rest : bool then Some (FRE_NOSPACE, st)
    else
      '(rv, b, s) ← frcore_ssn_get_one_block_addr fifo_id (sink st);
      let st := set_sink s st in
      if rv =? 0
      then Some (FRE_SUCCESS, set_addr (fresh_addr b) (set_ssn_exhaust 0 (ssn_last_display st) st))
      else let '(now, st) := get_ssn_cycle st in Some (FRE_NOSPACE, set_ssn_exhaust 1 now st)
  else Some (FRE_SUCCESS, st).

(** An index of -1 reaches the counter in front. *)
Definition stat_ssn_block (n : Z) (st : pack S) : pack S :=
  let index := if n <=? 5 then s32 (n - 1) else 5 in
  let c := if index =? -1 then stat_ssn_dma_blocks else stat_ssn_packet_blocks index in
  SSN_STAT_INC stat_ssn_dma_blocks (SSN_STAT_INC c st).

(** The header of the session's current block. *)
Definition block_hdr (a : ssn_addr) : dma_hdr :=
  DmaHdr (key_sip ssn) (key_dip ssn) (key_sp ssn) (key_dp ssn) (key_proto ssn) 0
    (u16 (pkt_num a)) (u16 (payload_len a)) (ssn_index ssn) hdr_stack.

(** The header is queued; the block is then no longer current. *)
Definition submit_head (st : pack S) : option (Z * pack S) :=
  let a := addr st in
  '(rv, st) ← forward_cell (Head (block_addr a) (block_hdr a)) st;
  if rv =? 0
  then
    let st := stat_ssn_block (h_pkt_num (block_hdr a)) st in
    Some (FRE_SUCCESS, set_addr (SsnAddr (block_addr a) (head_offset a) (info_offset a) (payload_offset a) 0
      (payload_len a) (pkt_num a)) st)
  else Some (rv, SSN_STAT_INC stat_ssn_dma_head_fail st).

Definition sbumit_dma_header_to_fifo (st : pack S) : option (Z * pack S) :=
  if addr_flag (addr st) =? 0 then Some (FRE_SUCCESS, st) else submit_head st.

(** After an error the packet buffer is freed and the error returned. *)
Definition or_free (w : Z) (m : option (Z * pack S)) (k : pack S -> option (Z * pack S)) : option (Z * pack S) :=
  '(rv, st) ← m; if rv =? 0 then k st else Some (rv, frcore_work_free w st).

Definition MAC_MASK : Z := 0xffffffffffff.

(** The description of a segment. *)
Definition segment_info (q : tseg_qent) (a : ssn_addr) : pkt_info :=
  let mac d := Z.land (if d : bool then cont_1 ssn else cont_2 ssn) MAC_MASK in
  let pos := u16 (direction q) =? FRC_SSN_POSIVTE_FLOW in
  PktInfo (u32 (seq q)) (u32 (ack_num q)) (u32 (payload_len a)) (u16 (data_len q)) (u16 (direction q))
    (mac pos) (mac (negb pos)).

Definition sbumit_data_to_fifo (q : tseg_qent) (st : pack S) : option (Z * pack S) :=
  let w := work q in
  or_free w (check_ssn_addr st) (fun st =>
  or_free w
    (if info_offset (addr st) <? u64 (payload_offset (addr st) + data_len q)
     then
       '(rv, st) ← submit_head st;
       if rv =? 0 then check_ssn_addr st else Some (rv, st)
     else Some (FRE_SUCCESS, st)) (fun st =>
  let a := addr st in
  let i := segment_info q a in
  or_free w
    (forward_cell (Payload (block_addr a) i (take (Z.to_nat (i_payload_len i)) (TcpFlow.data q))
       (info_offset a) (payload_offset a) w) st) (fun st =>
  Some (FRE_SUCCESS, set_addr (SsnAddr (block_addr a) (head_offset a)
    (u16 (info_offset a - sizeof_frc_dma_pkt_info_t)) (u16 (payload_offset a + data_len q)) (addr_flag a)
    (u64 (payload_len a + data_len q)) (u64 (pkt_num a + 1))) st)))).

(** A sequence of segments, with the answers. *)
Fixpoint submit_all (qs : list tseg_qent) (st : pack S) : option (list Z * pack S) :=
  match qs with
  | [] => Some ([], st)
  | q :: qs =>
    '(rv, st) ← sbumit_data_to_fifo q st;
    '(rvs, st) ← submit_all qs st; Some (rv :: rvs, st)
  end.
End pack.

(** ** The host's tool *)

(** The structures as a little-endian host sees them. *)
Definition read_info (bs : list Z) : pkt_info :=
  PktInfo (le_field bs 0 4) (le_field bs 4 4) (le_field bs 8 4) (le_field bs 12 2) (le_field bs 14 2)
    (le_field bs 16 8) (le_field bs 24 8).

Definition read_hdr (bs : list Z) : dma_hdr :=
  DmaHdr (le_field bs 0 4) (le_field bs 4 4) (le_field bs 8 2) (le_field bs 10 2) (le_field bs 12 2) (le_field bs 14 2)
    (le_field bs 16 2) (le_field bs 18 2) (le_field bs 20 4) (drop 24 bs).

(** [blk] is [frc_ssn_block_t.data]. *)
Definition pr_ssn_dma_head_get (blk : list Z) : option dma_hdr :=
  bs ← arr_read blk 0 sizeof_frc_dma_hdr_t; Some (read_hdr (swap_buff 5 bs)).

(** The loop over the packets; [dmac] is that of the first.  The answer: the packets
    with their payloads, and whether the addresses of one disagree. *)
Fixpoint ssn_pkt_loop (n : nat) (first : bool) (dmac payload_offset pktinfo_offset : Z) (blk : list Z) :
    option (list (pkt_info * list Z) * bool) :=
  match n with
  | O => Some ([], false)
  | S n =>
    bs ← arr_read blk pktinfo_offset sizeof_frc_dma_pkt_info_t;
    let i := read_info (swap_buff 4 bs) in
    payload ← arr_read blk payload_offset (i_payload_len i);
    let mac := Z.land (i_dmac i) MAC_MASK in
    if negb first && negb (dmac =? mac) && negb (dmac =? Z.land (i_smac i) MAC_MASK)
    then Some ([(i, payload)], true)
    else
      '(l, flag) ← ssn_pkt_loop n false (if first then mac else dmac) (u16 (payload_offset + i_payload_len i))
        (u16 (pktinfo_offset - sizeof_frc_dma_pkt_info_t)) blk;
      Some ((i, payload) :: l, flag)
  end.

Definition pr_ssn_pkt_process (blk : list Z) (h : dma_hdr) : option (list (pkt_info * list Z) * bool) :=
  ssn_pkt_loop (Z.to_nat (u8 (h_pkt_num h))) true 0 sizeof_frc_dma_hdr_t
    (FRC_DMA_SSN_DATA_SIZE - sizeof_frc_dma_pkt_info_t) blk.
