(* ===== verification/SsnBlockProps.v ===== *)
(** * Session blocks: layout and round trip

    The cells taken by the channel are always those of a list of blocks, each laid out
    without overlap inside its 8192 bytes; the host, reading a block back, finds the
    segments that were packed, in order. *)

From stdpp Require Import list functions.
From S2P Require Import Prelude Bytes VlanCheck TcpFlow Chan SsnBlock.
#[local] Open Scope Z_scope.

(** ** Bytes of structures *)

Record info_ok (i : pkt_info) : Prop := InfoOk {
  io_seq : in_field 4 (i_sequence i); io_ack : in_field 4 (i_ack_seq i); io_off : in_field 4 (i_data_offset i);
  io_len : in_field 2 (i_payload_len i); io_dir : in_field 2 (i_direction i);
  io_smac : in_field 8 (i_smac i); io_dmac : in_field 8 (i_dmac i) }.

Record hdr_ok (h : dma_hdr) : Prop := HdrOk {
  ho_sip : in_field 4 (h_sip h); ho_dip : in_field 4 (h_dip h); ho_sport : in_field 2 (h_sport h);
  ho_dport : in_field 2 (h_dport h); ho_proto : in_field 2 (h_protocol h); ho_stop : in_field 2 (h_stop_sec h);
  ho_num : in_field 2 (h_pkt_num h); ho_total : in_field 2 (h_total_paylen h); ho_hash : in_field 4 (h_hash h);
  ho_rest : length (h_rest h) = 16%nat }.

#[local] Ltac lengths := rewrite ?length_app, ?length_reverse, ?length_be_bytes; reflexivity.

Lemma length_info_bytes i : length (info_bytes i) = 32%nat.
Proof. unfold info_bytes. lengths. Qed.

Lemma length_hdr_bytes h : length (h_rest h) = 16%nat -> length (hdr_bytes h) = 40%nat.
Proof. intros Hr. unfold hdr_bytes. rewrite !length_app, Hr. lengths. Qed.

(** A field computes to the reversed bytes of the value. *)
#[local] Ltac field n v := transitivity (le_value (reverse (be_bytes n v))); [reflexivity|by apply le_value_field].

(** What the card wrote the host reads. *)
Lemma read_info_bytes i : info_ok i -> read_info (swap_buff 4 (info_bytes i)) = i.
Proof.
  destruct i as [a b c d e f g]. intros [H1 H2 H3 H4 H5 H6 H7]. cbn in H1, H2, H3, H4, H5, H6, H7. unfold read_info.
  f_equal; [field 4%nat a|field 4%nat b|field 4%nat c|field 2%nat d|field 2%nat e|field 8%nat f|field 8%nat g].
Qed.

Lemma read_hdr_bytes h :
  hdr_ok h -> read_hdr (swap_buff 5 (hdr_bytes h)) =
    DmaHdr (h_sip h) (h_dip h) (h_sport h) (h_dport h) (h_protocol h) (h_stop_sec h) (h_pkt_num h) (h_total_paylen h)
      (h_hash h) (swap_buff 2 (h_rest h)).
Proof.
  destruct h as [a b c d e f g i j r]. intros [H1 H2 H3 H4 H5 H6 H7 H8 H9 H10]. cbn in H1, H2, H3, H4, H5, H6, H7, H8, H9, H10.
  unfold read_hdr. cbn [h_sip h_dip h_sport h_dport h_protocol h_stop_sec h_pkt_num h_total_paylen h_hash h_rest].
  f_equal; [field 4%nat a|field 4%nat b|field 2%nat c|field 2%nat d|field 2%nat e|field 2%nat f|field 2%nat g|field 2%nat i|field 4%nat j].
Qed.

(** ** Memory *)

(** The memory of the host, a byte for every address. *)
Definition mem_write (m : Z -> Z) (w : Z * list Z) : Z -> Z := fun x =>
  if (w.1 <=? x) && (x <? w.1 + Z.of_nat (length w.2)) then nth (Z.to_nat (x - w.1)) w.2 0 else m x.
Definition mem_read (m : Z -> Z) (a n : Z) : list Z := map m (seqZ a n).

Definition disjoint_writes (w w' : Z * list Z) : Prop :=
  w.1 + Z.of_nat (length w.2) <= w'.1 \/ w'.1 + Z.of_nat (length w'.2) <= w.1.

Lemma mem_write_other m w x : x < w.1 \/ w.1 + Z.of_nat (length w.2) <= x -> mem_write m w x = m x.
Proof.
  intros Hx. unfold mem_write.
  destruct (Z.leb_spec w.1 x), (Z.ltb_spec x (w.1 + Z.of_nat (length w.2))); simpl; try done; lia.
Qed.

Lemma mem_read_same m a bs : mem_read (mem_write m (a, bs)) a (Z.of_nat (length bs)) = bs.
Proof.
  unfold mem_read. apply list_eq. intros i. rewrite list_lookup_fmap.
  destruct (lt_dec i (length bs)) as [Hi|Hi].
  - rewrite lookup_seqZ_lt by lia. simpl. unfold mem_write. cbn [fst snd].
    rewrite (proj2 (Z.leb_le _ _)), (proj2 (Z.ltb_lt _ _)) by lia. simpl.
    replace (Z.to_nat (a + Z.of_nat i - a)) with i by lia.
    rewrite nth_lookup. by destruct (lookup_lt_is_Some_2 _ _ Hi) as [b ->].
  - rewrite lookup_seqZ_ge, lookup_ge_None_2 by lia. done.
Qed.

Lemma mem_read_other m ws a n :
  (forall w, w ∈ ws -> a + n <= w.1 \/ w.1 + Z.of_nat (length w.2) <= a) ->
  mem_read (foldl mem_write m ws) a n = mem_read m a n.
Proof.
  revert m. induction ws as [|w ws IH]; intros m Hd; simpl; [done|].
  rewrite IH by (intros; apply Hd; by right). unfold mem_read. apply map_ext_in.
  intros x Hx%list_elem_of_In%elem_of_seqZ. apply mem_write_other. pose proof (Hd w ltac:(by left)). lia.
Qed.

(** Disjoint writes are all found again. *)
Lemma mem_read_writes m ws a bs :
  ForallOrdPairs disjoint_writes ws -> (a, bs) ∈ ws ->
  mem_read (foldl mem_write m ws) a (Z.of_nat (length bs)) = bs.
Proof.
  intros Hd. revert m. induction Hd as [|w ws Hw _ IH]; intros m Hin; [by apply not_elem_of_nil in Hin|].
  apply elem_of_cons in Hin as [<-|Hin]; simpl; [|by apply IH].
  rewrite mem_read_other; [apply mem_read_same|]. intros w' Hw'.
  rewrite List.Forall_forall in Hw. apply list_elem_of_In in Hw'. specialize (Hw _ Hw'). unfold disjoint_writes in Hw.
  simpl in Hw. lia.
Qed.

Lemma mem_read_sub m a n o k :
  0 <= o -> 0 <= k -> o + k <= n -> arr_read (mem_read m a n) o k = Some (mem_read m (a + o) k).
Proof.
  intros Ho Hk Hn. unfold arr_read, mem_read. rewrite length_map, length_seqZ.
  rewrite (proj2 (Z.leb_le 0 o)), (proj2 (Z.leb_le 0 k)), (proj2 (Z.leb_le _ _)) by lia. simpl. f_equal.
  replace n with (o + (k + (n - o - k))) by lia. rewrite !seqZ_app, !map_app by lia.
  rewrite drop_app_length' by (rewrite length_map, length_seqZ; lia).
  by rewrite take_app_length' by (rewrite length_map, length_seqZ; lia).
Qed.

(** ** The layout of a block *)

Definition total (qs : list tseg_qent) : Z := foldr (fun q n => data_len q + n) 0 qs.

(** The segments and their descriptions fit between header and end of a block. *)
Definition fits (qs : list tseg_qent) : Prop :=
  FRC_DMA_OFFSET + sizeof_frc_dma_hdr_t + total qs + sizeof_frc_dma_pkt_info_t * Z.of_nat (length qs)
    <= FRC_DMA_SSN_BLOCK_SIZE.

Definition FRC_PAYLOAD_LEN_MAX : Z := 1600.
Definition segment_ok (q : tseg_qent) : Prop :=
  1 <= data_len q <= FRC_PAYLOAD_LEN_MAX /\ (direction q = 0 \/ direction q = 1).

#[local] Ltac sizes := unfold segment_ok, fits, FRC_DMA_SSN_DATA_SIZE, FRC_DMA_OFFSET, sizeof_frc_dma_hdr_t,
  sizeof_frc_dma_pkt_info_t, FRC_DMA_SSN_BLOCK_SIZE, FRC_PAYLOAD_LEN_MAX, K in *.

Lemma total_app a b : total (a ++ b) = total a + total b.
Proof. induction a as [|q a IH]; simpl; lia. Qed.

Lemma data_len_nonneg q : 0 <= data_len q.
Proof. unfold data_len. lia. Qed.

Lemma total_nonneg qs : 0 <= total qs.
Proof. induction qs as [|q qs IH]; simpl; [done|]. pose proof (data_len_nonneg q). lia. Qed.

Lemma total_length qs : Forall segment_ok qs -> Z.of_nat (length qs) <= total qs.
Proof. induction 1 as [|q qs Hq _ IH]; simpl; [done|]. unfold segment_ok in Hq. lia. Qed.

Lemma fits_snoc qs q : fits (qs ++ [q]) -> fits qs.
Proof. sizes. rewrite total_app, length_app. simpl. pose proof (data_len_nonneg q). lia. Qed.

Section layout.
Variables (ssn : ssn_id) (hdr_stack : list Z).

(** Where the next segment goes after [q]. *)
Definition next_addr (a : ssn_addr) (q : tseg_qent) : ssn_addr :=
  SsnAddr (block_addr a) (head_offset a) (info_offset a - sizeof_frc_dma_pkt_info_t) (payload_offset a + data_len q)
    (addr_flag a) (payload_len a + data_len q) (pkt_num a + 1).

Definition payload_cell (a : ssn_addr) (q : tseg_qent) : ssn_cell :=
  Payload (block_addr a) (segment_info ssn q a) (TcpFlow.data q) (info_offset a) (payload_offset a) (work q).

Fixpoint lay (a : ssn_addr) (qs : list tseg_qent) : list ssn_cell :=
  match qs with [] => [] | q :: qs => payload_cell a q :: lay (next_addr a q) qs end.

(** Block [b] after the segments [qs], and all its cells. *)
Definition filled (b : Z) (qs : list tseg_qent) : ssn_addr := foldl next_addr (fresh_addr b) qs.
Definition block_cells (d : Z * list tseg_qent) : list ssn_cell :=
  lay (fresh_addr d.1) d.2 ++ [Head d.1 (block_hdr ssn hdr_stack (filled d.1 d.2))].

Lemma foldl_next_eq a qs :
  foldl next_addr a qs =
    SsnAddr (block_addr a) (head_offset a) (info_offset a - sizeof_frc_dma_pkt_info_t * Z.of_nat (length qs))
      (payload_offset a + total qs) (addr_flag a) (payload_len a + total qs) (pkt_num a + Z.of_nat (length qs)).
Proof.
  revert a. induction qs as [|q qs IH]; intros a; cbn [foldl total foldr length].
  - destruct a. simpl. f_equal; lia.
  - rewrite IH. simpl. fold (total qs). f_equal; lia.
Qed.

Lemma filled_eq b qs :
  filled b qs = SsnAddr b FRC_DMA_OFFSET
    (FRC_DMA_SSN_BLOCK_SIZE - sizeof_frc_dma_pkt_info_t - sizeof_frc_dma_pkt_info_t * Z.of_nat (length qs))
    (FRC_DMA_OFFSET + sizeof_frc_dma_hdr_t + total qs) 1 (total qs) (Z.of_nat (length qs)).
Proof. unfold filled. rewrite foldl_next_eq. reflexivity. Qed.

Lemma lay_snoc a qs q : lay a (qs ++ [q]) = lay a qs ++ [payload_cell (foldl next_addr a qs) q].
Proof. revert a. induction qs as [|q' qs IH]; intros a; simpl; [done|]. by rewrite IH. Qed.

(** ** The state of a session *)

(** The blocks closed so far, with their segments, and the segments of the current one. *)
Record packed {S} (st : pack S) (done : list (Z * list tseg_qent)) (cur : list tseg_qent) : Prop := Packed {
  k_taken : taken st = concat (map block_cells done) ++
    (if addr_flag (addr st) =? 0 then [] else lay (fresh_addr (block_addr (addr st))) cur);
  k_done : Forall (fun d => fits d.2 /\ Forall segment_ok d.2 /\ 0 <= d.1 /\ d.1 + FRC_DMA_SSN_BLOCK_SIZE <= 2 ^ 64) done;
  k_cur : if addr_flag (addr st) =? 0 then cur = []
    else addr st = filled (block_addr (addr st)) cur /\ fits cur /\ Forall segment_ok cur /\
      0 <= block_addr (addr st) /\ block_addr (addr st) + FRC_DMA_SSN_BLOCK_SIZE <= 2 ^ 64 }.
End layout.

(** ** What the channel promises *)

(** The cells the channel takes: the payload is not empty and fits in its buffer. *)
Definition cell_small (c : ssn_cell) : Prop :=
  match c with Head _ h => hdr_ok h | Payload _ i bs _ _ _ => info_ok i /\ 1 <= Z.of_nat (length bs) <= FRC_PAYLOAD_LEN_MAX end.

(** In a state [sink_ok] every operation is defined and leads to such a state; a block
    lies inside the address space. *)
Class SsnSinkLaws (S : Type) `{SsnSink S} (sink_ok : S -> Prop) : Prop := {
  get_block_ok f s : sink_ok s -> exists rv b s', frcore_ssn_get_one_block_addr f s = Some (rv, b, s') /\ sink_ok s' /\
    (rv = 0 -> 0 <= b /\ b + FRC_DMA_SSN_BLOCK_SIZE <= 2 ^ 64);
  forward_ok i c s : sink_ok s -> cell_small c -> exists rv s', frcore_forward_ssn_pkt_to_fifo i c s = Some (rv, s') /\ sink_ok s' }.

(** The key of a session has the width of the header's fields. *)
Record id_ok (ssn : ssn_id) : Prop := IdOk {
  id_index : in_field 4 (ssn_index ssn); id_sip : in_field 4 (key_sip ssn); id_dip : in_field 4 (key_dip ssn);
  id_sp : in_field 2 (key_sp ssn); id_dp : in_field 2 (key_dp ssn); id_proto : in_field 2 (key_proto ssn) }.

Lemma u_field n v : in_field n (wrapu (8 * Z.of_nat n) v).
Proof. unfold in_field, wrapu. apply Z.mod_pos_bound. lia. Qed.

Lemma mac_field v : in_field 8 (Z.land v MAC_MASK).
Proof.
  unfold MAC_MASK, in_field. change 0xffffffffffff with (Z.ones 48). rewrite Z.land_ones by lia.
  pose proof (Z.mod_pos_bound v (2 ^ 48)). lia.
Qed.

(** The code's test for room. *)
Lemma room_test b cur q :
  fits cur -> segment_ok q ->
  (info_offset (filled b cur) <? u64 (payload_offset (filled b cur) + data_len q)) = bool_decide (~ fits (cur ++ [q])).
Proof.
  intros Hf Hq. rewrite filled_eq. simpl. unfold fits in *. rewrite total_app, length_app. simpl.
  pose proof (total_nonneg cur). sizes. unfold wrapu. rewrite Z.mod_small by lia.
  destruct (Z.ltb_spec (8 * 1024 - 32 - 32 * Z.of_nat (length cur)) (40 + 40 + total cur + data_len q));
    symmetry; [apply bool_decide_eq_true|apply bool_decide_eq_false]; lia.
Qed.

Lemma fits_one q : segment_ok q -> fits [q].
Proof. sizes. simpl. lia. Qed.

(** The segments packed so far. *)
Definition packed_segments (done : list (Z * list tseg_qent)) (cur : list tseg_qent) : list tseg_qent :=
  concat (map snd done) ++ cur.

Section packing.
Context {S : Type} `{SsnSinkLaws S}.
Variables (cpu_freq : Z) (ssn : ssn_id) (hdr_stack : list Z).
Hypothesis Hssn : id_ok ssn.
Hypothesis Hstack : length hdr_stack = 16%nat.

#[local] Abbreviation packed := (packed ssn hdr_stack).

Lemma segment_info_ok q a : info_ok (segment_info ssn q a).
Proof. split; try apply (u_field 4); try apply (u_field 2); apply mac_field. Qed.

Lemma block_hdr_ok a : hdr_ok (block_hdr ssn hdr_stack a).
Proof using Hssn Hstack.
  destruct Hssn. split; simpl; try done; apply (u_field 2).
Qed.

Lemma packed_ext (st st' : pack S) done cur :
  addr st' = addr st -> taken st' = taken st -> packed st done cur -> packed st' done cur.
Proof. intros E1 E2 [H1 H2 H3]. split; by rewrite ?E1, ?E2. Qed.

Lemma packed_fresh (st st' : pack S) done cur b :
  packed st done cur -> addr_flag (addr st) = 0 -> addr st' = fresh_addr b -> taken st' = taken st ->
  0 <= b /\ b + FRC_DMA_SSN_BLOCK_SIZE <= 2 ^ 64 -> packed st' done [].
Proof using All.
  intros [H1 H2 _] Hf E1 E2 Hb. rewrite Hf in H1. split; rewrite ?E1, ?E2; [done|done|].
  simpl. split; [done|]. split; [sizes; simpl; lia|done].
Qed.

Lemma get_ssn_cycle_frame (st : pack S) :
  let st' := (get_ssn_cycle st).2 in
  addr st' = addr st /\ taken st' = taken st /\ sink st' = sink st /\ wqe_freed st' = wqe_freed st.
Proof. unfold get_ssn_cycle. by destruct (cycles st). Qed.

Lemma check_spec (st : pack S) done cur :
  packed st done cur -> sink_ok (sink st) ->
  exists rv st', check_ssn_addr cpu_freq ssn st = Some (rv, st') /\ packed st' done cur /\ sink_ok (sink st') /\
    wqe_freed st' = wqe_freed st /\ (rv = 0 -> addr_flag (addr st') <> 0).
Proof using All.
  intros Hp Hs. unfold check_ssn_addr. destruct (Z.eqb_spec (addr_flag (addr st)) 0) as [Hf|Hf].
  2: { exists FRE_SUCCESS, st. by split_and!. }
  pose proof (k_cur _ _ _ _ _ Hp) as Hc. rewrite Hf in Hc. simpl in Hc. subst cur.
  match goal with |- context [let '(rest, st0) := ?e in _] => set (r := e) end.
  assert (addr r.2 = addr st /\ taken r.2 = taken st /\ sink r.2 = sink st /\ wqe_freed r.2 = wqe_freed st) as (E1 & E2 & E3 & E4).
  { unfold r. destruct (_ =? 0); [done|]. pose proof (get_ssn_cycle_frame st). by destruct (get_ssn_cycle st). }
  destruct r as [rest st1]. simpl in E1, E2, E3, E4. destruct rest.
  { exists FRE_NOSPACE, st1. split; [done|]. split; [by eapply packed_ext|]. by rewrite E3, E4. }
  destruct (get_block_ok (fifo_id ssn) (sink st1)) as (rv & b & s & E & Hs' & Hb); [by rewrite E3|].
  rewrite E. simpl mbind. destruct (Z.eqb_spec rv 0) as [Hrv|Hrv].
  - eexists _, _. split; [done|]. split; [|by split_and!].
    eapply (packed_fresh st _ done [] b); try done. by apply Hb.
  - destruct (get_ssn_cycle_frame (set_sink s st1)) as (F1 & F2 & F3 & F4).
    destruct (get_ssn_cycle (set_sink s st1)) as [now st2]. simpl in F1, F2, F3, F4.
    eexists _, _. split; [done|]. split; [|split_and!; simpl; [by rewrite F3|by rewrite F4|done]].
    eapply packed_ext; [| |exact Hp]; simpl; congruence.
Qed.

Lemma submit_head_spec (st : pack S) done cur :
  packed st done cur -> sink_ok (sink st) -> addr_flag (addr st) <> 0 ->
  exists rv st', submit_head ssn hdr_stack st = Some (rv, st') /\ sink_ok (sink st') /\ wqe_freed st' = wqe_freed st /\
    (rv = 0 /\ packed st' (done ++ [(block_addr (addr st), cur)]) [] /\ addr_flag (addr st') = 0 \/
     rv <> 0 /\ packed st' done cur).
Proof using All.
  intros Hp Hs Hf. pose proof (k_taken _ _ _ _ _ Hp) as Ht. pose proof (k_cur _ _ _ _ _ Hp) as Hc.
  rewrite (proj2 (Z.eqb_neq _ 0)) in Ht, Hc by done. destruct Hc as (Ha & Hfit & Hok & Hb).
  unfold submit_head, forward_cell.
  destruct (forward_ok (ssn_index ssn) (Head (block_addr (addr st)) (block_hdr ssn hdr_stack (addr st))) (sink st) Hs) as
    (rv & s & E & Hs'); [apply block_hdr_ok|].
  rewrite E. simpl mbind. destruct (Z.eqb_spec rv 0) as [Hrv|Hrv]; eexists _, _; (split; [done|]); (split; [done|]);
    (split; [done|]).
  - left. split; [done|]. split; [|done]. split; simpl; [|by apply Forall_app, conj; [apply Hp|apply Forall_singleton]|done].
    rewrite Ht, map_app, concat_app, app_nil_r, <- app_assoc. f_equal. simpl. rewrite app_nil_r. unfold block_cells. simpl.
    do 4 f_equal. exact Ha.
  - right. split; [done|]. by eapply packed_ext; [| |exact Hp].
Qed.

Lemma payload_cell_small a q : segment_ok q -> cell_small (payload_cell ssn a q).
Proof. intros [Hq _]. split; [apply segment_info_ok|exact Hq]. Qed.

(** A segment for which there is room in the current block. *)
Lemma put_segment_spec (st : pack S) done cur q :
  packed st done cur -> sink_ok (sink st) -> addr_flag (addr st) <> 0 -> segment_ok q -> fits (cur ++ [q]) ->
  let a := addr st in
  exists rv st', or_free (work q)
      (forward_cell ssn (Payload (block_addr a) (segment_info ssn q a)
        (take (Z.to_nat (i_payload_len (segment_info ssn q a))) (TcpFlow.data q)) (info_offset a) (payload_offset a) (work q)) st)
      (fun st => Some (FRE_SUCCESS, set_addr (SsnAddr (block_addr a) (head_offset a)
        (u16 (info_offset a - sizeof_frc_dma_pkt_info_t)) (u16 (payload_offset a + data_len q)) (addr_flag a)
        (u64 (payload_len a + data_len q)) (u64 (pkt_num a + 1))) st)) = Some (rv, st') /\ sink_ok (sink st') /\
    (rv = 0 /\ packed st' done (cur ++ [q]) /\ wqe_freed st' = wqe_freed st \/
     rv <> 0 /\ packed st' done cur /\ wqe_freed st' = wqe_freed st ++ [work q]).
Proof using All.
  intros Hp Hs Hf Hq Hfit a. pose proof (k_taken _ _ _ _ _ Hp) as Ht. pose proof (k_cur _ _ _ _ _ Hp) as Hc.
  rewrite (proj2 (Z.eqb_neq _ 0)) in Ht, Hc by done. destruct Hc as (Ha & _ & Hok & Hb). fold a in Ha, Ht, Hb.
  assert (take (Z.to_nat (i_payload_len (segment_info ssn q a))) (TcpFlow.data q) = TcpFlow.data q) as ->.
  { apply take_ge. simpl. unfold segment_ok, FRC_PAYLOAD_LEN_MAX in Hq. unfold wrapu. rewrite Z.mod_small by (simpl; lia).
    unfold data_len. lia. }
  change (Payload _ _ _ _ _ _) with (payload_cell ssn a q). unfold or_free, forward_cell.
  destruct (forward_ok (ssn_index ssn) (payload_cell ssn a q) (sink st) Hs (payload_cell_small _ _ Hq)) as (rv & s & E & Hs').
  rewrite E. simpl mbind. destruct (Z.eqb_spec rv 0) as [Hrv|Hrv]; eexists _, _; (split; [done|]); (split; [done|]).
  - left. split; [done|]. split; [|done]. split; simpl; [|apply Hp|].
    + rewrite (proj2 (Z.eqb_neq _ 0)) by done. rewrite Ht, <- app_assoc, lay_snoc. do 3 f_equal. change (payload_cell ssn a q = payload_cell ssn (filled (block_addr a) cur) q). by rewrite <- Ha.
    + rewrite (proj2 (Z.eqb_neq _ 0)) by done. split; [|split; [done|split; [|done]]].
      * unfold filled. rewrite foldl_snoc. change (foldl next_addr (fresh_addr _) cur) with (filled (block_addr a) cur). rewrite <- Ha. unfold next_addr.
        assert (a = filled (block_addr a) cur) as Ha' by done. rewrite filled_eq in Ha'.
        pose proof (f_equal info_offset Ha') as Hio. pose proof (f_equal payload_offset Ha') as Hpo.
        pose proof (f_equal payload_len Ha') as Hpl. pose proof (f_equal pkt_num Ha') as Hn. simpl in Hio, Hpo, Hpl, Hn.
        pose proof (total_nonneg cur). pose proof (data_len_nonneg q). unfold fits in Hfit.
        rewrite total_app, length_app in Hfit. simpl in Hfit. sizes. unfold wrapu.
        rewrite !Z.mod_small by lia. done.
      * apply Forall_app. by rewrite Forall_singleton.
  - right. split; [done|]. split; [|done]. by eapply packed_ext; [| |exact Hp].
Qed.

(** Before a segment that does not fit the header is queued and a new block begun. *)
Lemma make_room_spec (st : pack S) done cur q :
  packed st done cur -> sink_ok (sink st) -> addr_flag (addr st) <> 0 -> segment_ok q ->
  exists rv st' done' cur',
    (if info_offset (addr st) <? u64 (payload_offset (addr st) + data_len q)
     then '(rv, st) ← submit_head ssn hdr_stack st; if rv =? 0 then check_ssn_addr cpu_freq ssn st else Some (rv, st)
     else Some (FRE_SUCCESS, st)) = Some (rv, st') /\
    packed st' done' cur' /\ sink_ok (sink st') /\ wqe_freed st' = wqe_freed st /\
    packed_segments done' cur' = packed_segments done cur /\
    (rv = 0 -> addr_flag (addr st') <> 0 /\ fits (cur' ++ [q])).
Proof using All.
  intros Hp Hs Hf Hq. pose proof (k_cur _ _ _ _ _ Hp) as Hc. rewrite (proj2 (Z.eqb_neq _ 0)) in Hc by done.
  destruct Hc as (Ha & Hfit & _). rewrite Ha, room_test by done. case_bool_decide as Hroom.
  2: { exists FRE_SUCCESS, st, done, cur. by split_and!. }
  destruct (submit_head_spec st done cur Hp Hs Hf) as (rv & st1 & E & Hs1 & Hw1 & [(-> & Hp1 & Hf1)|[Hrv Hp1]]);
    rewrite E; simpl mbind.
  - destruct (check_spec st1 _ _ Hp1 Hs1) as (rv & st2 & E2 & Hp2 & Hs2 & Hw2 & Hf2). simpl. rewrite E2.
    exists rv, st2, (done ++ [(block_addr (addr st), cur)]), []. split_and!; try done; [congruence| |].
    + unfold packed_segments. rewrite map_app, concat_app. simpl. by rewrite !app_nil_r.
    + intros Hrv. split; [by apply Hf2|]. by apply fits_one.
  - rewrite (proj2 (Z.eqb_neq rv 0)) by done. exists rv, st1, done, cur. by split_and!.
Qed.

Lemma submit_spec (st : pack S) done cur q :
  packed st done cur -> sink_ok (sink st) -> segment_ok q ->
  exists rv st' done' cur', sbumit_data_to_fifo cpu_freq ssn hdr_stack q st = Some (rv, st') /\
    packed st' done' cur' /\ sink_ok (sink st') /\
    packed_segments done' cur' = packed_segments done cur ++ (if rv =? 0 then [q] else []) /\
    wqe_freed st' = wqe_freed st ++ (if rv =? 0 then [] else [work q]).
Proof using All.
  intros Hp Hs Hq. unfold sbumit_data_to_fifo. unfold or_free at 1.
  destruct (check_spec st done cur Hp Hs) as (rv & st1 & E & Hp1 & Hs1 & Hw1 & Hf1). rewrite E. simpl mbind.
  destruct (Z.eqb_spec rv 0) as [Hrv|Hrv].
  2: { exists rv, (frcore_work_free (work q) st1), done, cur. rewrite (proj2 (Z.eqb_neq rv 0)), app_nil_r by done.
       split_and!; try done; [by eapply packed_ext; [| |exact Hp1]|by simpl; rewrite Hw1]. }
  unfold or_free at 1.
  destruct (make_room_spec st1 done cur q Hp1 Hs1 (Hf1 Hrv) Hq) as (rv2 & st2 & done2 & cur2 & E2 & Hp2 & Hs2 & Hw2 & Hseg & Hr).
  rewrite E2. simpl mbind. destruct (Z.eqb_spec rv2 0) as [Hrv2|Hrv2].
  2: { exists rv2, (frcore_work_free (work q) st2), done2, cur2. rewrite (proj2 (Z.eqb_neq rv2 0)), app_nil_r by done.
       split_and!; try done; [by eapply packed_ext; [| |exact Hp2]|by simpl; rewrite Hw2, Hw1]. }
  destruct (Hr Hrv2) as [Hf2 Hfit].
  destruct (put_segment_spec st2 done2 cur2 q Hp2 Hs2 Hf2 Hq Hfit) as (rv3 & st3 & E3 & Hs3 & [(-> & Hp3 & Hw3)|(Hrv3 & Hp3 & Hw3)]).
  - exists 0, st3, done2, (cur2 ++ [q]). split; [exact E3|]. split_and!; try done.
    + unfold packed_segments in *. by rewrite app_assoc, Hseg.
    + simpl. by rewrite app_nil_r, Hw3, Hw2.
  - exists rv3, st3, done2, cur2. rewrite (proj2 (Z.eqb_neq rv3 0)), app_nil_r by done. split; [exact E3|].
    split_and!; try done. by rewrite Hw3, Hw2, Hw1.
Qed.

(** The segments answered with success, and the others. *)
Definition packed_of (qs : list tseg_qent) (rvs : list Z) : list tseg_qent :=
  concat (zip_with (fun q rv => if rv =? 0 then [q] else []) qs rvs).
Definition refused_of (qs : list tseg_qent) (rvs : list Z) : list Z :=
  concat (zip_with (fun q rv => if rv =? 0 then [] else [work q]) qs rvs).

Lemma submit_all_spec qs (st : pack S) done cur :
  packed st done cur -> sink_ok (sink st) -> Forall segment_ok qs ->
  exists rvs st' done' cur', submit_all cpu_freq ssn hdr_stack qs st = Some (rvs, st') /\ length rvs = length qs /\
    packed st' done' cur' /\ sink_ok (sink st') /\
    packed_segments done' cur' = packed_segments done cur ++ packed_of qs rvs /\
    wqe_freed st' = wqe_freed st ++ refused_of qs rvs.
Proof using All.
  revert st done cur. induction qs as [|q qs IH]; intros st done cur Hp Hs Hok.
  { exists [], st, done, cur. by rewrite !app_nil_r. }
  apply Forall_cons in Hok as [Hq Hok]. simpl.
  destruct (submit_spec st done cur q Hp Hs Hq) as (rv & st1 & done1 & cur1 & E1 & Hp1 & Hs1 & Hd1 & Hw1).
  destruct (IH st1 done1 cur1 Hp1 Hs1 Hok) as (rvs & st2 & done2 & cur2 & E2 & Hl & Hp2 & Hs2 & Hd2 & Hw2).
  exists (rv :: rvs), st2, done2, cur2. rewrite E1. simpl mbind. rewrite E2. split; [done|]. simpl. split; [congruence|].
  split_and!; try done.
  - rewrite Hd2, Hd1, <- app_assoc. done.
  - rewrite Hw2, Hw1, <- app_assoc. done.
Qed.
End packing.

(** ** Reading a block back *)

Definition cells_writes (l : list ssn_cell) : list (Z * list Z) := concat (map cell_writes l).

(** The packets of the segments [qs] laid out from [a] on, as the host sees them. *)
Fixpoint packets (ssn : ssn_id) (a : ssn_addr) (qs : list tseg_qent) : list (pkt_info * list Z) :=
  match qs with [] => [] | q :: qs => (segment_info ssn q a, TcpFlow.data q) :: packets ssn (next_addr a q) qs end.

Section reading.
Variables (ssn : ssn_id) (hdr_stack : list Z).

(** Room for [qs] in block [b] between the offsets of [a]. *)
Record room (b : Z) (a : ssn_addr) (qs : list tseg_qent) : Prop := Room {
  rm_block : block_addr a = b;
  rm_base : 0 <= b /\ b + FRC_DMA_SSN_BLOCK_SIZE <= 2 ^ 64;
  rm_low : FRC_DMA_OFFSET + sizeof_frc_dma_hdr_t <= payload_offset a;
  rm_high : info_offset a + sizeof_frc_dma_pkt_info_t <= FRC_DMA_SSN_BLOCK_SIZE;
  rm_fits : payload_offset a + total qs + sizeof_frc_dma_pkt_info_t * Z.of_nat (length qs)
    <= info_offset a + sizeof_frc_dma_pkt_info_t }.

Lemma room_next b a q qs : room b a (q :: qs) -> room b (next_addr a q) qs.
Proof.
  intros [H1 H2 H3 H4 H5]. pose proof (data_len_nonneg q). split; simpl in *; try done; sizes; lia.
Qed.

Lemma room_fresh b qs : fits qs -> 0 <= b /\ b + FRC_DMA_SSN_BLOCK_SIZE <= 2 ^ 64 -> room b (fresh_addr b) qs.
Proof. intros Hf Hb. split; simpl; try done; unfold fits in Hf; sizes; lia. Qed.

(** A write between the offsets. *)
Definition inside (b : Z) (a : ssn_addr) (qs : list tseg_qent) (w : Z * list Z) : Prop :=
  b + payload_offset a <= w.1 /\ w.1 + Z.of_nat (length w.2) <= b + payload_offset a + total qs \/
  b + info_offset a - sizeof_frc_dma_pkt_info_t * Z.of_nat (length qs) + sizeof_frc_dma_pkt_info_t <= w.1 /\
  w.1 + Z.of_nat (length w.2) <= b + info_offset a + sizeof_frc_dma_pkt_info_t.

Lemma payload_cell_writes b a q qs :
  room b a (q :: qs) ->
  cell_writes (payload_cell ssn a q) =
    [(b + payload_offset a, TcpFlow.data q); (b + info_offset a, info_bytes (segment_info ssn q a))].
Proof.
  intros [<- H2 H3 H4 H5]. simpl in *. pose proof (data_len_nonneg q). pose proof (total_nonneg qs).
  fold (total qs) in H5. unfold wrapu. sizes. rewrite !Z.mod_small by lia. done.
Qed.

Lemma lay_inside b a qs : room b a qs -> Forall (inside b a qs) (cells_writes (lay ssn a qs)).
Proof.
  revert a. induction qs as [|q qs IH]; intros a Hr; [constructor|].
  unfold cells_writes. simpl (lay _ _ _). rewrite map_cons, concat_cons, (payload_cell_writes b a q qs) by done.
  pose proof (IH _ (room_next _ _ _ _ Hr)) as Hin. destruct Hr as [_ _ H3 H4 H5].
  pose proof (data_len_nonneg q). pose proof (total_nonneg qs). cbn [total foldr length] in H5. fold (total qs) in H5.
  apply Forall_cons. split; [|apply Forall_cons; split].
  - left. cbn [fst snd total foldr]. fold (total qs). unfold data_len. lia.
  - right. cbn [fst snd length]. rewrite length_info_bytes. sizes. lia.
  - eapply Forall_impl; [exact Hin|]. intros w Hw. unfold inside in *. cbn [total foldr length] in *. fold (total qs).
    unfold next_addr in Hw. cbn [payload_offset info_offset] in Hw. sizes. lia.
Qed.

(** The parts of a block do not overlap. *)
Lemma lay_disjoint b a qs : room b a qs -> ForallOrdPairs disjoint_writes (cells_writes (lay ssn a qs)).
Proof.
  revert a. induction qs as [|q qs IH]; intros a Hr; [constructor|].
  unfold cells_writes. simpl (lay _ _ _). rewrite map_cons, concat_cons, (payload_cell_writes b a q qs) by done.
  pose proof (room_next _ _ _ _ Hr) as Hn. pose proof (IH _ Hn) as Hd. pose proof (lay_inside _ _ _ Hn) as Hin.
  destruct Hr as [_ _ H3 H4 H5]. cbn [total foldr length] in H5. fold (total qs) in H5.
  pose proof (data_len_nonneg q). pose proof (total_nonneg qs).
  rewrite Forall_forall in Hin. constructor; [|constructor; [|exact Hd]]; simpl app.
  - apply List.Forall_cons.
    + left. cbn [fst snd]. unfold data_len in *. sizes. lia.
    + apply List.Forall_forall. intros w Hw%list_elem_of_In. specialize (Hin _ Hw). unfold inside, disjoint_writes in *.
      unfold next_addr in Hin. cbn [fst snd payload_offset info_offset] in *. unfold data_len in *. sizes. lia.
  - apply List.Forall_forall. intros w Hw%list_elem_of_In. specialize (Hin _ Hw). unfold inside, disjoint_writes in *.
    unfold next_addr in Hin. cbn [fst snd payload_offset info_offset] in *. rewrite length_info_bytes. sizes. lia.
Qed.

(** The host's loop, when memory [m] has what was written. *)
Lemma loop_spec m b qs : forall a first dmac,
  room b a qs -> Forall segment_ok qs ->
  (forall w, w ∈ cells_writes (lay ssn a qs) -> mem_read m w.1 (Z.of_nat (length w.2)) = w.2) ->
  (first = false -> dmac = Z.land (cont_1 ssn) MAC_MASK \/ dmac = Z.land (cont_2 ssn) MAC_MASK) ->
  ssn_pkt_loop (length qs) first dmac (payload_offset a - FRC_DMA_OFFSET) (info_offset a - FRC_DMA_OFFSET)
    (mem_read m (b + FRC_DMA_OFFSET) FRC_DMA_SSN_DATA_SIZE) = Some (packets ssn a qs, false).
Proof.
  induction qs as [|q qs IH]; intros a first dmac Hr Hok Hm Hd; [done|]. apply Forall_cons in Hok as [Hq Hok].
  cbn [length ssn_pkt_loop packets].
  assert (forall w, w ∈ cell_writes (payload_cell ssn a q) -> mem_read m w.1 (Z.of_nat (length w.2)) = w.2) as Hc.
  { intros w Hw. apply Hm. unfold cells_writes. simpl (lay _ _ _). rewrite map_cons, concat_cons. apply elem_of_app. by left. }
  rewrite (payload_cell_writes b a q qs Hr) in Hc.
  pose proof (Hc _ ltac:(by left)) as Hpay. pose proof (Hc _ ltac:(by right; left)) as Hinf. cbn [fst snd] in Hpay, Hinf.
  rewrite length_info_bytes in Hinf. pose proof (room_next _ _ _ _ Hr) as Hn. pose proof Hr as [_ _ H3 H4 H5].
  cbn [total foldr length] in H5. fold (total qs) in H5. pose proof (total_nonneg qs).
  assert (i_payload_len (segment_info ssn q a) = data_len q) as Hlen.
  { simpl. unfold wrapu. apply Z.mod_small. sizes. lia. }
  rewrite mem_read_sub by (sizes; lia). cbn [mbind option_bind].
  replace (b + FRC_DMA_OFFSET + (info_offset a - FRC_DMA_OFFSET)) with (b + info_offset a) by lia.
  change sizeof_frc_dma_pkt_info_t with (Z.of_nat 32). rewrite Hinf, read_info_bytes by apply segment_info_ok.
  rewrite Hlen, mem_read_sub by (sizes; lia). cbn [mbind option_bind].
  replace (b + FRC_DMA_OFFSET + (payload_offset a - FRC_DMA_OFFSET)) with (b + payload_offset a) by lia.
  fold (data_len q) in Hpay. rewrite Hpay.
  replace (u16 (payload_offset a - FRC_DMA_OFFSET + data_len q)) with (payload_offset (next_addr a q) - FRC_DMA_OFFSET).
  2: { simpl. unfold wrapu. rewrite Z.mod_small by (sizes; simpl; lia). lia. }
  replace (u16 (info_offset a - FRC_DMA_OFFSET - Z.of_nat 32)) with (info_offset (next_addr a q) - FRC_DMA_OFFSET).
  2: { simpl. unfold wrapu. rewrite Z.mod_small by (sizes; simpl; lia). sizes. lia. }
  set (i := segment_info ssn q a) in *.
  assert (i_smac i = Z.land (cont_1 ssn) MAC_MASK /\ i_dmac i = Z.land (cont_2 ssn) MAC_MASK \/
          i_smac i = Z.land (cont_2 ssn) MAC_MASK /\ i_dmac i = Z.land (cont_1 ssn) MAC_MASK) as Hmac.
  { unfold i, segment_info. simpl. by destruct (_ =? FRC_SSN_POSIVTE_FLOW); [left|right]. }
  clearbody i.
  assert (Z.land (i_dmac i) MAC_MASK = i_dmac i /\ Z.land (i_smac i) MAC_MASK = i_smac i) as [-> ->].
  { by destruct Hmac as [[-> ->]|[-> ->]]; rewrite <- !Z.land_assoc, !Z.land_diag. }
  assert (negb first && negb (dmac =? i_dmac i) && negb (dmac =? i_smac i) = false) as ->.
  { destruct first; [done|]. simpl. destruct (Hd eq_refl) as [->| ->], Hmac as [[-> ->]|[-> ->]];
      by rewrite Z.eqb_refl, ?andb_false_r. }
  rewrite (IH (next_addr a q) false); [done|done|done| |].
  - intros w Hw. apply Hm. unfold cells_writes in *. simpl (lay _ _ _). rewrite map_cons, concat_cons. apply elem_of_app. by right.
  - intros _. destruct first; [destruct Hmac as [[_ ->]|[_ ->]]; auto|by apply Hd].
Qed.

Lemma packets_spec a qs : Forall segment_ok qs -> Forall2 (fun p q => p.2 = TcpFlow.data q /\
  i_sequence p.1 = u32 (seq q) /\ i_ack_seq p.1 = u32 (ack_num q) /\ i_direction p.1 = direction q /\
  i_payload_len p.1 = data_len q) (packets ssn a qs) qs.
Proof.
  intros Hok. revert a. induction Hok as [|q qs Hq _ IH]; intros a; constructor; [|apply IH]. simpl.
  unfold segment_ok, FRC_PAYLOAD_LEN_MAX in Hq. unfold wrapu.
  split_and!; try done; apply Z.mod_small; simpl; lia.
Qed.
End reading.

Lemma block_roundtrip ssn hdr_stack m b qs :
  id_ok ssn -> length hdr_stack = 16%nat -> fits qs -> Forall segment_ok qs ->
  0 <= b -> b + FRC_DMA_SSN_BLOCK_SIZE <= 2 ^ 64 ->
  let m' := foldl mem_write m (cells_writes (block_cells ssn hdr_stack (b, qs))) in
  let blk := mem_read m' (b + FRC_DMA_OFFSET) FRC_DMA_SSN_DATA_SIZE in
  exists h l, pr_ssn_dma_head_get blk = Some h /\
    (h_sip h, h_dip h, h_sport h, h_dport h, h_protocol h) =
      (key_sip ssn, key_dip ssn, key_sp ssn, key_dp ssn, key_proto ssn) /\
    h_pkt_num h = Z.of_nat (length qs) /\ h_total_paylen h = total qs /\
    pr_ssn_pkt_process blk h = Some (l, false) /\
    Forall2 (fun p q => p.2 = TcpFlow.data q /\ i_sequence p.1 = u32 (seq q) /\ i_ack_seq p.1 = u32 (ack_num q) /\
      i_direction p.1 = direction q /\ i_payload_len p.1 = data_len q) l qs.
Proof.
  intros Hid Hst Hfit Hok Hb1 Hb2 m' blk. pose proof (room_fresh b qs Hfit (conj Hb1 Hb2)) as Hr.
  pose proof (total_nonneg qs) as Ht. pose proof (total_length qs Hok) as Htl.
  set (h := block_hdr ssn hdr_stack (filled b qs)). pose proof (block_hdr_ok ssn hdr_stack Hid Hst (filled b qs)) as Hho.
  assert (m' = mem_write (foldl mem_write m (cells_writes (lay ssn (fresh_addr b) qs))) (b + FRC_DMA_OFFSET, hdr_bytes h)) as Em.
  { unfold m', block_cells, cells_writes. rewrite map_app, concat_app, foldl_app. simpl. do 2 f_equal.
    unfold wrapu. rewrite Z.mod_small; [done|]. sizes. simpl. lia. }
  assert (Z.of_nat (length qs) = h_pkt_num h /\ total qs = h_total_paylen h) as [En Etot].
  { unfold h. rewrite filled_eq. simpl. unfold wrapu. unfold fits in Hfit. rewrite !Z.mod_small by (sizes; simpl; lia). done. }
  pose proof (length_hdr_bytes h (ho_rest _ Hho)) as Hhl.
  assert (pr_ssn_dma_head_get blk = Some (read_hdr (swap_buff 5 (hdr_bytes h)))) as Ehead.
  { unfold pr_ssn_dma_head_get, blk. rewrite mem_read_sub by (sizes; lia). cbn [mbind option_bind]. rewrite Z.add_0_r, Em.
    change sizeof_frc_dma_hdr_t with (Z.of_nat 40). rewrite <- Hhl, mem_read_same. done. }
  rewrite Ehead, read_hdr_bytes by done. eexists _, (packets ssn (fresh_addr b) qs). split; [done|].
  cbn [h_sip h_dip h_sport h_dport h_protocol h_pkt_num h_total_paylen]. split; [done|]. split; [done|]. split; [done|].
  split; [|by apply packets_spec]. unfold pr_ssn_pkt_process. cbn [h_pkt_num]. rewrite <- En.
  unfold wrapu at 1. rewrite Z.mod_small by (unfold fits in Hfit; sizes; simpl; lia). rewrite Nat2Z.id.
  apply (loop_spec ssn m' b qs (fresh_addr b) true 0 Hr Hok); [|done].
  intros [x bs] Hw. cbn [fst snd]. rewrite Em.
  pose proof (proj1 (Forall_forall _ _) (lay_inside ssn b _ _ Hr) _ Hw) as Hin. unfold inside in Hin. simpl in Hin.
  change (mem_write ?m0 ?w0) with (foldl mem_write m0 [w0]). rewrite mem_read_other.
  - apply mem_read_writes; [by eapply lay_disjoint|done].
  - intros w ->%list_elem_of_singleton. cbn [fst snd]. rewrite Hhl. unfold fits in Hfit. sizes. lia.
Qed.

(** C17: The host reads a block back: when the cells of a block of fitting segments have been
    copied to it, the tool finds the header of the session with the number of segments and of
    their bytes, and its walk finds every segment, in order, with payload, sequence number,
    acknowledgement and direction, and no disagreement of the addresses. *)
Theorem ssn_block_roundtrip ssn hdr_stack m b qs :
  id_ok ssn -> length hdr_stack = 16%nat -> fits qs -> Forall segment_ok qs ->
  0 <= b -> b + FRC_DMA_SSN_BLOCK_SIZE <= 2 ^ 64 ->
  let m' := foldl mem_write m (cells_writes (block_cells ssn hdr_stack (b, qs))) in
  let blk := mem_read m' (b + FRC_DMA_OFFSET) FRC_DMA_SSN_DATA_SIZE in
  exists h l, pr_ssn_dma_head_get blk = Some h /\
    (h_sip h, h_dip h, h_sport h, h_dport h, h_protocol h) =
      (key_sip ssn, key_dip ssn, key_sp ssn, key_dp ssn, key_proto ssn) /\
    h_pkt_num h = Z.of_nat (length qs) /\ h_total_paylen h = total qs /\
    pr_ssn_pkt_process blk h = Some (l, false) /\
    Forall2 (fun p q => p.2 = TcpFlow.data q /\ i_sequence p.1 = u32 (seq q) /\ i_ack_seq p.1 = u32 (ack_num q) /\
      i_direction p.1 = direction q /\ i_payload_len p.1 = data_len q) l qs.
Proof. apply block_roundtrip. Qed.

(** Nothing is written outside the block. *)
Lemma block_writes_inside ssn hdr_stack b qs w : length hdr_stack = 16%nat -> fits qs -> 0 <= b -> b + FRC_DMA_SSN_BLOCK_SIZE <= 2 ^ 64 ->
  w ∈ cells_writes (block_cells ssn hdr_stack (b, qs)) -> b <= w.1 /\ w.1 + Z.of_nat (length w.2) <= b + FRC_DMA_SSN_BLOCK_SIZE.
Proof.
  intros Hst Hfit Hb1 Hb2 Hw. unfold block_cells, cells_writes in Hw. rewrite map_app, concat_app in Hw.
  apply elem_of_app in Hw as [Hw|Hw].
  - pose proof (lay_inside ssn b _ qs (room_fresh b qs Hfit (conj Hb1 Hb2))) as Hin. rewrite Forall_forall in Hin.
    specialize (Hin w Hw). unfold inside in Hin. cbn [payload_offset info_offset fresh_addr] in Hin.
    pose proof (total_nonneg qs). sizes. lia.
  - simpl in Hw. apply list_elem_of_singleton in Hw as ->. cbn [fst snd]. rewrite length_hdr_bytes by done.
    sizes. unfold wrapu. rewrite Z.mod_small by lia. lia.
Qed.

(** ** Packing a session *)

(** C18: Packing loses and repeats nothing, whatever the channel answers: the cells it took
    are those of complete blocks and of the current one, each laid out within its block; the
    segments in them are, in order, those whose submission answered success, and of the
    others the packet buffers are freed.  When the session ends and its last header is
    taken, all blocks are complete. *)
Theorem ssn_packing (S : Type) (sink_ok : S -> Prop) `{SsnSinkLaws S sink_ok} cpu_freq ssn hdr_stack qs (st : pack S) :
  id_ok ssn -> length hdr_stack = 16%nat -> Forall segment_ok qs ->
  sink_ok (sink st) -> addr_flag (addr st) = 0 -> taken st = [] ->
  exists rvs st' blocks cur, submit_all cpu_freq ssn hdr_stack qs st = Some (rvs, st') /\ length rvs = length qs /\
    taken st' = concat (map (block_cells ssn hdr_stack) blocks) ++ lay ssn (fresh_addr (block_addr (addr st'))) cur /\
    Forall (fun d => fits d.2) blocks /\ fits cur /\
    concat (map snd blocks) ++ cur = packed_of qs rvs /\
    wqe_freed st' = wqe_freed st ++ refused_of qs rvs /\
    exists rv st'' blocks', sbumit_dma_header_to_fifo ssn hdr_stack st' = Some (rv, st'') /\
      (rv = 0 -> taken st'' = concat (map (block_cells ssn hdr_stack) blocks') /\
        concat (map snd blocks') = packed_of qs rvs /\ Forall (fun d => fits d.2) blocks').
Proof.
  intros Hid Hst Hok Hs Hf Ht.
  assert (packed ssn hdr_stack st [] []) as Hp by (split; rewrite ?Hf; done).
  destruct (submit_all_spec cpu_freq ssn hdr_stack Hid Hst qs st [] [] Hp Hs Hok) as
    (rvs & st' & done & cur & E & Hl & Hp' & Hs' & Hseg & Hw).
  exists rvs, st', done, cur. split; [done|]. split; [done|]. pose proof Hp' as [Ht' Hd Hc].
  assert (Forall (fun d => fits d.2) done) as Hfits by (eapply Forall_impl; [exact Hd|]; by intros d (? & _)).
  unfold sbumit_dma_header_to_fifo. destruct (Z.eqb_spec (addr_flag (addr st')) 0) as [Hz|Hz].
  - subst cur. split; [done|]. split; [done|]. split; [vm_compute; discriminate|]. split; [done|]. split; [done|].
    exists FRE_SUCCESS, st', done. split; [done|]. intros _. unfold packed_segments in Hseg. simpl in Hseg.
    rewrite app_nil_r in *. done.
  - destruct Hc as (_ & Hfc & _). split; [done|]. split; [done|]. split; [done|]. split; [done|]. split; [done|].
    destruct (submit_head_spec cpu_freq ssn hdr_stack Hid Hst st' done cur Hp' Hs' Hz) as
      (rv & st'' & E2 & _ & _ & [(-> & Hp2 & Hf2)|[Hrv Hp2]]).
    + exists 0, st'', (done ++ [(block_addr (addr st'), cur)]). split; [done|]. intros _.
      destruct Hp2 as [Ht2 _ _]. rewrite Hf2, app_nil_r in Ht2. split; [done|]. split.
      * rewrite map_app, concat_app. simpl. rewrite app_nil_r. exact Hseg.
      * apply Forall_app. by rewrite Forall_singleton.
    + exists rv, st'', []. split; [done|]. by intros ->.
Qed.

(** ** A concrete channel: its free blocks, and the codes it answers *)

Record list_sink : Type := ListSink { free : list Z; codes : list Z }.

#[export] Instance list_ssn_sink : SsnSink list_sink := {
  frcore_ssn_get_one_block_addr _ s :=
    match free s with [] => Some (FRE_NOSPACE, 0, s) | b :: l => Some (FRE_SUCCESS, b, ListSink l (codes s)) end;
  frcore_forward_ssn_pkt_to_fifo _ _ s :=
    match codes s with [] => Some (FRE_SUCCESS, s) | c :: l => Some (c, ListSink (free s) l) end }.

Definition list_sink_ok (s : list_sink) : Prop := Forall (fun b => 0 <= b /\ b + FRC_DMA_SSN_BLOCK_SIZE <= 2 ^ 64) (free s).

#[export] Instance list_ssn_sink_laws : SsnSinkLaws list_sink list_sink_ok.
Proof.
  split.
  - intros f [[|b l] cs] Hs; simpl; eexists _, _, _; (split; [done|]); [done|].
    apply Forall_cons in Hs as [Hb Hl]. by split.
  - intros i c [l [|r cs]] Hs _; simpl; eexists _, _; by split.
Qed.

Definition demo_segments : list tseg_qent :=
  map (fun k => Qent (1000 * k) 77 (1000 * k + 1000) k (replicate 1000 k) (k `mod` 2)) (seqZ 0 12).
Definition demo_ssn : ssn_id := SsnId 5 0x0a000001 0x0a000002 80 1234 6 0x111111111111 0x222222222222.
Definition demo_pack : pack list_sink :=
  Pack (SsnAddr 0 0 0 0 0 0 0) 0 0 [] (ListSink [8192; 16384] [0; 0; 16]) [] [] (fun _ => 0).

Lemma demo_segments_ok : Forall segment_ok demo_segments.
Proof.
  unfold demo_segments. apply Forall_fmap, Forall_seqZ. intros k Hk. unfold segment_ok, data_len. cbn [compose TcpFlow.data direction].
  rewrite length_replicate. split; [vm_compute; split; discriminate|]. pose proof (Z.mod_pos_bound k 2). lia.
Qed.

Lemma demo_ssn_ok : id_ok demo_ssn.
Proof. split; vm_compute; (split; [discriminate|reflexivity]). Qed.

Lemma ssn_packing_witness :
  exists rvs st' blocks cur, submit_all 1000 demo_ssn (replicate 16 0) demo_segments demo_pack = Some (rvs, st') /\
    length rvs = length demo_segments /\
    taken st' = concat (map (block_cells demo_ssn (replicate 16 0)) blocks) ++
      lay demo_ssn (fresh_addr (block_addr (addr st'))) cur /\
    Forall (fun d => fits d.2) blocks /\ fits cur /\
    concat (map snd blocks) ++ cur = packed_of demo_segments rvs /\
    wqe_freed st' = wqe_freed demo_pack ++ refused_of demo_segments rvs /\
    exists rv st'' blocks', sbumit_dma_header_to_fifo demo_ssn (replicate 16 0) st' = Some (rv, st'') /\
      (rv = 0 -> taken st'' = concat (map (block_cells demo_ssn (replicate 16 0)) blocks') /\
        concat (map snd blocks') = packed_of demo_segments rvs /\ Forall (fun d => fits d.2) blocks').
Proof.
  apply (ssn_packing list_sink list_sink_ok); try done; [exact demo_segments_ok|].
  repeat constructor; vm_compute; discriminate.
Defined.

Lemma ssn_block_roundtrip_witness :
  let qs := take 7 demo_segments in
  let m' := foldl mem_write (fun _ => 0) (cells_writes (block_cells demo_ssn (replicate 16 0) (8192, qs))) in
  let blk := mem_read m' (8192 + FRC_DMA_OFFSET) FRC_DMA_SSN_DATA_SIZE in
  exists h l, pr_ssn_dma_head_get blk = Some h /\
    (h_sip h, h_dip h, h_sport h, h_dport h, h_protocol h) =
      (key_sip demo_ssn, key_dip demo_ssn, key_sp demo_ssn, key_dp demo_ssn, key_proto demo_ssn) /\
    h_pkt_num h = Z.of_nat (length qs) /\ h_total_paylen h = total qs /\
    pr_ssn_pkt_process blk h = Some (l, false) /\
    Forall2 (fun p q => p.2 = TcpFlow.data q /\ i_sequence p.1 = u32 (seq q) /\ i_ack_seq p.1 = u32 (ack_num q) /\
      i_direction p.1 = direction q /\ i_payload_len p.1 = data_len q) l qs.
Proof.
  apply (ssn_block_roundtrip demo_ssn (replicate 16 0)); [exact demo_ssn_ok|done| | |done|done].
  - vm_compute. discriminate.
  - apply Forall_take, demo_segments_ok.
Defined.
