(* ===== verification/SsnChan.v ===== *)
(** * The session channel: src/code/frcore/frcore_chan.c

    The cells that packing hands over ([SsnBlock]) wait in one of fifty FIFOs and are
    copied into blocks of host memory; when the header of a block has been copied its
    address goes on the completed ring.  Free blocks come one at a time from the
    available ring (the build with [FRC_CONFIG_SSN_AVAIL_BUFF_GET] 0).  As for the other
    channels the card reaches the host only by DMA, [script] says what the host does and
    what becomes of each transfer, and what a lock protects is atomic. *)

From stdpp Require Import list functions.
From S2P Require Import Prelude Bytes Ring Dma Chan SsnBlock SsnBlockProps.
#[local] Open Scope Z_scope.

(** ** Constants *)
Definition FRC_WORK_SSN : Z := 2.
Definition FRCORE_SSN_AVAIL_BUFF_GET_SIZE : Z := 1000.
Definition FRC_DMA_SSN_AVAIL_WIDX_OFFSET : Z := 0.
Definition FRC_DMA_SSN_AVAIL_RIDX_OFFSET : Z := 8.
Definition FRC_DMA_SSN_AVAIL_RING_OFFSET : Z := 16.
Definition FRC_DMA_SSN_COMPL_WIDX_OFFSET : Z := 0.
Definition FRC_DMA_SSN_COMPL_RIDX_OFFSET : Z := 8.
Definition FRC_DMA_SSN_COMPL_RING_OFFSET : Z := 16.

(** ** Data *)

(** The host: the two rings at their addresses, its memory, and what its application has
    taken from completed blocks. *)
Record ssn_host : Type := SsnHost {
  avail_base : Z; compl_base : Z; avail_ring : ring; compl_ring : ring; host_mem : Z -> Z;
  app_received : list (Z * list Z) }.

(** [frcore_ssn_chan_t].  [avail_buff] is shared by the cores and read after the lock of the
    available ring has been released; [compl_buff] is written and read under its lock, and is
    a value there. *)
Record frcore_ssn_chan_t : Type := SsnChan {
  sc_avail_addr : Z; sc_compl_addr : Z; sc_avail_widx : Z; sc_avail_ridx : Z; sc_compl_widx : Z; sc_compl_ridx : Z;
  sc_avail_buff : list Z }.

Definition set_avail_widx (v : Z) (c : frcore_ssn_chan_t) : frcore_ssn_chan_t :=
  SsnChan (sc_avail_addr c) (sc_compl_addr c) v (sc_avail_ridx c) (sc_compl_widx c) (sc_compl_ridx c) (sc_avail_buff c).
Definition set_avail_ridx (v : Z) (c : frcore_ssn_chan_t) : frcore_ssn_chan_t :=
  SsnChan (sc_avail_addr c) (sc_compl_addr c) (sc_avail_widx c) v (sc_compl_widx c) (sc_compl_ridx c) (sc_avail_buff c).
Definition set_compl_widx (v : Z) (c : frcore_ssn_chan_t) : frcore_ssn_chan_t :=
  SsnChan (sc_avail_addr c) (sc_compl_addr c) (sc_avail_widx c) (sc_avail_ridx c) v (sc_compl_ridx c) (sc_avail_buff c).
Definition set_compl_ridx (v : Z) (c : frcore_ssn_chan_t) : frcore_ssn_chan_t :=
  SsnChan (sc_avail_addr c) (sc_compl_addr c) (sc_avail_widx c) (sc_avail_ridx c) (sc_compl_widx c) v (sc_avail_buff c).
Definition set_avail_buff (b : list Z) (c : frcore_ssn_chan_t) : frcore_ssn_chan_t :=
  SsnChan (sc_avail_addr c) (sc_compl_addr c) (sc_avail_widx c) (sc_avail_ridx c) (sc_compl_widx c) (sc_compl_ridx c) b.

(** [frcore_ssn_fifo_t]; [None] is a cell whose type is still [FRC_SSN_RESV]. *)
Record frcore_ssn_fifo_t : Type := SsnFifo { sf_widx : Z; sf_ridx : Z; sf_cells : list (option ssn_cell) }.

(** [ssn_stat_dma_errors] is [stat_dma_errors], which [frcore_dma_scatter] and the set-up count. *)
Inductive ssn_chan_stat : Type :=
| ssn_stat_dma_errors | stat_ssn_dma_errors | stat_ssn_avail_get_no_space | stat_ssn_avail_get | stat_ssn_compl_put_no_space
| stat_ssn_compl_put | stat_ssn_dma_pkts | stat_ssn_dma_bytes | stat_ssn_dma_pkt_infos | stat_ssn_pkt_post_err
| stat_ssn_post_err_pkts | stat_ssn_pkt_post | stat_ssn_queue_no_space | stat_ssn_dma_enqueue_errs
| stat_ssn_dma_enqueue_pkts.

#[export] Instance ssn_chan_stat_eq_dec : EqDecision ssn_chan_stat.
Proof. solve_decision. Defined.

Record ssn_sys : Type := SsnSys {
  ss_host : ssn_host; ss_chan : frcore_ssn_chan_t; ss_fifos : list frcore_ssn_fifo_t;
  ss_script : list (list host_act * outcomes); ss_freed : list Z; ss_stats : ssn_chan_stat -> Z }.

Definition with_host (h : ssn_host) (s : ssn_sys) : ssn_sys :=
  SsnSys h (ss_chan s) (ss_fifos s) (ss_script s) (ss_freed s) (ss_stats s).
Definition with_chan (c : frcore_ssn_chan_t) (s : ssn_sys) : ssn_sys :=
  SsnSys (ss_host s) c (ss_fifos s) (ss_script s) (ss_freed s) (ss_stats s).
Definition with_fifo (f : nat) (x : frcore_ssn_fifo_t) (s : ssn_sys) : ssn_sys :=
  SsnSys (ss_host s) (ss_chan s) (<[f := x]> (ss_fifos s)) (ss_script s) (ss_freed s) (ss_stats s).
Definition with_freed (w : Z) (s : ssn_sys) : ssn_sys :=
  SsnSys (ss_host s) (ss_chan s) (ss_fifos s) (ss_script s) (ss_freed s ++ [w]) (ss_stats s).
Definition SSN_CHAN_STAT_ADD (c : ssn_chan_stat) (v : Z) (s : ssn_sys) : ssn_sys :=
  SsnSys (ss_host s) (ss_chan s) (ss_fifos s) (ss_script s) (ss_freed s) (<[c := u64 (ss_stats s c + v)]> (ss_stats s)).
Definition SSN_CHAN_STAT_INC (c : ssn_chan_stat) : ssn_sys -> ssn_sys := SSN_CHAN_STAT_ADD c 1.

Section ssn_chan.
Variables FRC_DMA_SSN_RING_BUFF_SIZE FRCORE_MAX_DMA_POINTERS MAX_PCI_DMA_LOCAL_BUF_SIZE : Z.

(** ** The host *)
Definition sizeof_ssn_ring : Z := 16 + FRC_DMA_SSN_RING_BUFF_SIZE * 8.

Definition in_compl (h : ssn_host) (a : Z) : bool := (compl_base h <=? a) && (a <? compl_base h + sizeof_ssn_ring).

Definition ssn_host_word (h : ssn_host) (a : Z) : option Z :=
  if in_compl h a then ring_word (compl_ring h) (a - compl_base h) else ring_word (avail_ring h) (a - avail_base h).

Definition set_avail_ring (r : ring) (h : ssn_host) : ssn_host :=
  SsnHost (avail_base h) (compl_base h) r (compl_ring h) (host_mem h) (app_received h).
Definition set_compl_ring (r : ring) (h : ssn_host) : ssn_host :=
  SsnHost (avail_base h) (compl_base h) (avail_ring h) r (host_mem h) (app_received h).
Definition set_mem (m : Z -> Z) (h : ssn_host) : ssn_host :=
  SsnHost (avail_base h) (compl_base h) (avail_ring h) (compl_ring h) m (app_received h).

Definition set_ssn_host_word (h : ssn_host) (a v : Z) : option ssn_host :=
  if in_compl h a
  then r ← set_ring_word (compl_ring h) (a - compl_base h) v; Some (set_compl_ring r h)
  else r ← set_ring_word (avail_ring h) (a - avail_base h) v; Some (set_avail_ring r h).

Fixpoint ssn_host_read (h : ssn_host) (a : Z) (n : nat) : option (list Z) :=
  match n with O => Some [] | S n => w ← ssn_host_word h a; ws ← ssn_host_read h (a + 8) n; Some (w :: ws) end.

Fixpoint ssn_host_write (h : ssn_host) (a : Z) (ws : list Z) : option ssn_host :=
  match ws with [] => Some h | w :: ws => h ← set_ssn_host_word h a w; ssn_host_write h (a + 8) ws end.

(** The application returns a block, or takes a completed one and reads it. *)
Definition ssn_host_do (h : ssn_host) (a : host_act) : option ssn_host :=
  match a with
  | HostPut b => '(_, r) ← ring_put FRC_DMA_SSN_RING_BUFF_SIZE LE b (avail_ring h); Some (set_avail_ring r h)
  | HostGet =>
    '(_, v, r) ← ring_get FRC_DMA_SSN_RING_BUFF_SIZE LE (compl_ring h);
    Some (match v with
          | None => h
          | Some b => SsnHost (avail_base h) (compl_base h) (avail_ring h) r (host_mem h)
              (app_received h ++ [(b, mem_read (host_mem h) (b + FRC_DMA_OFFSET) FRC_DMA_SSN_DATA_SIZE)])
          end)
  end.

(** ** DMA transfers *)
Definition ssn_next_dma (s : ssn_sys) : option (outcomes * ssn_sys) :=
  match ss_script s with
  | [] => Some ([], s)
  | (acts, os) :: sc =>
    h ← foldM ssn_host_do acts (ss_host s);
    Some (os, SsnSys h (ss_chan s) (ss_fifos s) sc (ss_freed s) (ss_stats s))
  end.

(** The answer of [frcore_dma_gather], and whether the range has been moved: every transfer
    is a single request. *)
Definition ssn_gather (a size : Z) (os : outcomes) : Z * bool :=
  let '(rv, ps, _) := frcore_dma_gather FRCORE_MAX_DMA_POINTERS MAX_PCI_DMA_LOCAL_BUF_SIZE 0 a size os in
  (rv, moved_bytes ps =? size).

(** [frcore_copy_from_remote] into a local object that holds the words [old], with the error
    branch of its callers: the words it holds then, the old ones when the transfer runs out
    of time; [None] after an error. *)
Definition ssn_copy_from_remote (old : list Z) (a : Z) (s : ssn_sys) : option (option (list Z) * ssn_sys) :=
  '(os, s) ← ssn_next_dma s;
  let '(rv, moved) := ssn_gather a (Z.of_nat (length old) * RING_BUFF_CELL_SIZE) os in
  if rv =? 0
  then ws ← (if moved : bool then ssn_host_read (ss_host s) a (length old) else Some old); Some (Some ws, s)
  else Some (None, SSN_CHAN_STAT_INC stat_ssn_dma_errors s).

Definition ssn_copy_to_remote (ws : list Z) (a : Z) (s : ssn_sys) : option (Z * ssn_sys) :=
  '(os, s) ← ssn_next_dma s;
  let '(rv, moved) := ssn_gather a (Z.of_nat (length ws) * RING_BUFF_CELL_SIZE) os in
  if rv =? 0
  then h ← (if moved : bool then ssn_host_write (ss_host s) a ws else Some (ss_host s)); Some (FRE_SUCCESS, with_host h s)
  else Some (FRE_DMA, SSN_CHAN_STAT_INC stat_ssn_dma_errors s).

(** ** The rings from the card's side *)

(** [n] cells from [a] into [chan->avail_buff] at [i]; [false] after an error. *)
Definition ssn_copy_part (i n a : Z) (s : ssn_sys) : option (bool * ssn_sys) :=
  old ← arr_read (sc_avail_buff (ss_chan s)) i n;
  '(ws, s) ← ssn_copy_from_remote old a s;
  match ws with
  | None => Some (false, s)
  | Some ws => b ← arr_write (sc_avail_buff (ss_chan s)) i ws; Some (true, with_chan (set_avail_buff b (ss_chan s)) s)
  end.

(** The cells from [offset] on, in one transfer or in two. *)
Definition ssn_copy_cells (number offset cells : Z) (s : ssn_sys) : option (bool * ssn_sys) :=
  let room := u64 (FRC_DMA_SSN_RING_BUFF_SIZE - offset) in
  let len1 := if room <? number then room else number in
  '(ok, s) ← ssn_copy_part 0 len1 (cells + offset * RING_BUFF_CELL_SIZE) s;
  if negb ok then Some (false, s)
  else if len1 <? number then ssn_copy_part len1 (number - len1) cells s
  else Some (true, s).

(** [frcore_ssn_chan_avail_get] as long as it holds the lock of the available ring: after
    success [avail_buff] begins with the addresses. *)
Definition ssn_avail_fetch (number : Z) (s : ssn_sys) : option (Z * ssn_sys) :=
  let aa := sc_avail_addr (ss_chan s) in
  '(ws, s) ← ssn_copy_from_remote [sc_avail_widx (ss_chan s)] (aa + FRC_DMA_SSN_AVAIL_WIDX_OFFSET) s;
  match ws with
  | None => Some (FRE_DMA, s)
  | Some ws =>
    widx ← arr_get ws 0;
    let ridx := sc_avail_ridx (ss_chan s) in
    let s := with_chan (set_avail_widx widx (ss_chan s)) s in
    if u64 (widx - ridx) <? number then Some (FRE_NOSPACE, SSN_CHAN_STAT_INC stat_ssn_avail_get_no_space s) else
    offset ← umod ridx FRC_DMA_SSN_RING_BUFF_SIZE;
    '(ok, s) ← ssn_copy_cells number offset (aa + FRC_DMA_SSN_AVAIL_RING_OFFSET) s;
    if negb ok then Some (FRE_DMA, s) else
    let ridx := u64 (ridx + number) in
    let s := SSN_CHAN_STAT_ADD stat_ssn_avail_get number s in
    let s := with_chan (set_avail_ridx ridx (ss_chan s)) s in
    ssn_copy_to_remote [ridx] (aa + FRC_DMA_SSN_AVAIL_RIDX_OFFSET) s
  end.

(** The [memcpy] from [avail_buff], which comes after the lock has been released. *)
Definition ssn_avail_copy (number : Z) (s : ssn_sys) : option (list Z) :=
  arr_read (sc_avail_buff (ss_chan s)) 0 number.

(** The two without another core in between: the answer, and the words of [buff] after
    success. *)
Definition frcore_ssn_chan_avail_get (number : Z) (s : ssn_sys) : option (Z * list Z * ssn_sys) :=
  '(rv, s) ← ssn_avail_fetch number s;
  if rv =? 0 then buff ← ssn_avail_copy number s; Some (FRE_SUCCESS, buff, s) else Some (rv, [], s).

(** [frcore_ssn_get_one_block_addr]: the answer and the address. *)
Definition ssn_get_one_block_addr (s : ssn_sys) : option (Z * Z * ssn_sys) :=
  '(rv, buff, s) ← frcore_ssn_chan_avail_get 1 s;
  if rv =? 0 then b ← arr_get buff 0; Some (FRE_SUCCESS, b, s) else Some (FRE_NOSPACE, 0, s).

Definition frcore_ssn_chan_compl_put (buff : list Z) (s : ssn_sys) : option (Z * ssn_sys) :=
  let number := Z.of_nat (length buff) in
  let ca := sc_compl_addr (ss_chan s) in
  '(ws, s) ← ssn_copy_from_remote [sc_compl_ridx (ss_chan s)] (ca + FRC_DMA_SSN_COMPL_RIDX_OFFSET) s;
  match ws with
  | None => Some (FRE_DMA, s)
  | Some ws =>
    ridx ← arr_get ws 0;
    let widx := sc_compl_widx (ss_chan s) in
    let s := with_chan (set_compl_ridx ridx (ss_chan s)) s in
    if u64 (FRC_DMA_SSN_RING_BUFF_SIZE - number) <? u64 (widx - ridx)
    then Some (FRE_NOSPACE, SSN_CHAN_STAT_INC stat_ssn_compl_put_no_space s) else
    _ ← guard_ub (number <=? FRCORE_SSN_AVAIL_BUFF_GET_SIZE);
    offset ← umod widx FRC_DMA_SSN_RING_BUFF_SIZE;
    let room := u64 (FRC_DMA_SSN_RING_BUFF_SIZE - offset) in
    let len1 := if room <? number then room else number in
    let cells := ca + FRC_DMA_SSN_COMPL_RING_OFFSET in
    '(rv, s) ← ssn_copy_to_remote (take (Z.to_nat len1) buff) (cells + offset * RING_BUFF_CELL_SIZE) s;
    if negb (rv =? 0) then Some (rv, s) else
    '(rv, s) ← (if len1 <? number then ssn_copy_to_remote (drop (Z.to_nat len1) buff) cells s else Some (FRE_SUCCESS, s));
    if negb (rv =? 0) then Some (rv, s) else
    let widx := u64 (widx + number) in
    let s := SSN_CHAN_STAT_ADD stat_ssn_compl_put number s in
    let s := with_chan (set_compl_widx widx (ss_chan s)) s in
    ssn_copy_to_remote [widx] (ca + FRC_DMA_SSN_COMPL_WIDX_OFFSET) s
  end.

(** ** Posting *)

Definition ssn_scatter_send (ps : list (Z * list Z)) (s : ssn_sys) : option (bool * ssn_sys) :=
  '(os, s) ← ssn_next_dma s;
  let desc := map (fun p => DmaPtr 0 p.1 (Z.of_nat (length p.2))) ps in
  let '(rv, counted, moved, _) := frcore_dma_scatter FRCORE_MAX_DMA_POINTERS MAX_PCI_DMA_LOCAL_BUF_SIZE desc os in
  let s := if counted : bool then SSN_CHAN_STAT_INC ssn_stat_dma_errors s else s in
  Some (if rv =? 0
        then (true, if moved : bool then with_host (set_mem (foldl mem_write (host_mem (ss_host s)) ps) (ss_host s)) s else s)
        else (false, SSN_CHAN_STAT_INC stat_ssn_dma_errors s)).

(** [dma_numb++] and the transfer of a full request; [acc] are the pointers prepared. *)
Definition add_pointer (p : Z * list Z) (acc : list (Z * list Z)) (s : ssn_sys) : option (option (list (Z * list Z)) * ssn_sys) :=
  let acc := acc ++ [p] in
  if Z.of_nat (length acc) =? FRCORE_MAX_DMA_POINTERS
  then '(ok, s) ← ssn_scatter_send acc s; Some (if ok : bool then Some [] else None, s)
  else Some (Some acc, s).

Definition payload_stats (bs : list Z) (s : ssn_sys) : ssn_sys :=
  SSN_CHAN_STAT_ADD stat_ssn_dma_bytes (Z.of_nat (length bs)) (SSN_CHAN_STAT_INC stat_ssn_dma_pkts s).

(** The pointers of a cell, one or two; for a header also its block.  [None] is an error. *)
Definition post_cell (c : option ssn_cell) (acc : list (Z * list Z)) (s : ssn_sys)
    : option (option (list (Z * list Z) * list Z) * ssn_sys) :=
  match c with
  | None => Some (None, s)
  | Some (Head b h) =>
    '(acc, s) ← add_pointer (u64 (b + FRC_DMA_OFFSET), hdr_bytes h) acc s;
    Some (match acc with Some acc => Some (acc, [b]) | None => None end, s)
  | Some (Payload b i bs io po _) =>
    '(acc, s) ← add_pointer (u64 (b + po), bs) acc (payload_stats bs s);
    match acc with
    | None => Some (None, s)
    | Some acc =>
      '(acc, s) ← add_pointer (u64 (b + io), info_bytes i) acc (SSN_CHAN_STAT_INC stat_ssn_dma_pkt_infos s);
      Some (match acc with Some acc => Some (acc, []) | None => None end, s)
    end
  end.

(** The loop [while (pkt_remain)]: the cells posted and the blocks closed. *)
Fixpoint ssn_post_loop (pkt_remain : nat) (f : nat) (cur : Z) (acc : list (Z * list Z)) (blks : list Z) (s : ssn_sys)
    : option (Z * list Z * ssn_sys) :=
  match pkt_remain with
  | O => Some (cur, blks, s)
  | S pkt_remain =>
    x ← ss_fifos s !! f;
    cur_offset ← umod (u64 (sf_ridx x + cur)) (FRCORE_CORE_FIFO_NUM FRCORE_MAX_DMA_POINTERS);
    c ← arr_get (sf_cells x) cur_offset;
    '(r, s) ← post_cell c acc s;
    match r with
    | None => Some (cur, blks, s)
    | Some (acc, bs) =>
      let blks := blks ++ bs in
      if (pkt_remain =? 0)%nat && negb (length acc =? 0)%nat then
        '(ok, s) ← ssn_scatter_send acc s;
        if ok : bool then ssn_post_loop pkt_remain f (cur + 1) [] blks s else Some (cur, blks, s)
      else ssn_post_loop pkt_remain f (cur + 1) acc blks s
    end
  end.

Definition frcore_ssn_chan_post_pkt (f : nat) (local_num : Z) (s : ssn_sys) : option (Z * list Z * ssn_sys) :=
  ssn_post_loop (Z.to_nat local_num) f 0 [] [] s.

Definition ssn_advance_ridx (f : nat) (n : Z) (s : ssn_sys) : option ssn_sys :=
  x ← ss_fifos s !! f; Some (with_fifo f (SsnFifo (sf_widx x) (u64 (sf_ridx x + n)) (sf_cells x)) s).

(** The loop [while (local_num)].  A round that posts nothing is repeated for ever unless a
    transfer of the completed ring fails. *)
Fixpoint ssn_fifo_post_loop (fuel : nat) (f : nat) (local_num : Z) (s : ssn_sys) : option ssn_sys :=
  match fuel with
  | O => None
  | S fuel =>
    if local_num =? 0 then Some s
    else
      let lwm := FRCORE_CHAN_POST_LWM FRCORE_MAX_DMA_POINTERS in
      let post_num := if local_num <? lwm then local_num else lwm in
      '(posted_num, blks, s) ← frcore_ssn_chan_post_pkt f post_num s;
      let s := if posted_num <? post_num
               then SSN_CHAN_STAT_ADD stat_ssn_post_err_pkts (post_num - posted_num) (SSN_CHAN_STAT_INC stat_ssn_pkt_post_err s)
               else SSN_CHAN_STAT_INC stat_ssn_pkt_post s in
      '(rv, s) ← frcore_ssn_chan_compl_put blks s;
      if negb (rv =? 0) then Some s
      else s ← ssn_advance_ridx f posted_num s; ssn_fifo_post_loop fuel f (local_num - posted_num) s
  end.

(** A round posts a cell or loses a transfer: the fuel is enough while every request of the
    FIFO is one the engine takes. *)
Definition ssn_post_fuel (local_num : Z) (s : ssn_sys) : nat := S (Z.to_nat local_num + length (ss_script s)).

(** [frcore_ssn_fifo_post] and [frcore_ssn_fifo_post_no_lock]. *)
Definition frcore_ssn_fifo_post (f : nat) (flag : bool) (s : ssn_sys) : option ssn_sys :=
  x ← ss_fifos s !! f;
  let local_num := u64 (sf_widx x - sf_ridx x) in
  if (if flag then negb (local_num =? FRCORE_CHAN_POST_LWM FRCORE_MAX_DMA_POINTERS) else local_num =? 0) then Some s
  else ssn_fifo_post_loop (ssn_post_fuel local_num s) f local_num s.

(** ** Queueing *)

(** The copy of a cell; the payload's buffer has [FRC_PAYLOAD_LEN_MAX] bytes, and the packet
    buffer it came in is freed. *)
Definition store_cell (c : ssn_cell) (s : ssn_sys) : option ssn_sys :=
  match c with
  | Head _ _ => Some s
  | Payload _ _ bs _ _ w => _ ← guard_ub (Z.of_nat (length bs) <=? FRC_PAYLOAD_LEN_MAX); Some (with_freed w s)
  end.

Definition frcore_ssn_fifo_add (f : nat) (c : ssn_cell) (s : ssn_sys) : option (Z * ssn_sys) :=
  s ← frcore_ssn_fifo_post f true s;
  x ← ss_fifos s !! f;
  if FRCORE_CORE_FIFO_NUM FRCORE_MAX_DMA_POINTERS <=? u64 (sf_widx x - sf_ridx x)
  then Some (FRE_NOSPACE, SSN_CHAN_STAT_INC stat_ssn_queue_no_space s)
  else
    idx_offset ← umod (sf_widx x) (FRCORE_CORE_FIFO_NUM FRCORE_MAX_DMA_POINTERS);
    s ← store_cell c s;
    cells ← arr_set (sf_cells x) idx_offset (Some c);
    Some (FRE_SUCCESS, with_fifo f (SsnFifo (u64 (sf_widx x + 1)) (sf_ridx x) cells) s).

Definition forward_ssn_pkt_to_fifo (index : Z) (c : ssn_cell) (s : ssn_sys) : option (Z * ssn_sys) :=
  let fifo_id := Z.to_nat (index `mod` FRC_SSN_FIFO_NUM) in
  '(num, s) ← frcore_ssn_fifo_add fifo_id c s;
  Some (if num =? 0 then (FRE_SUCCESS, SSN_CHAN_STAT_INC stat_ssn_dma_enqueue_pkts s)
        else (FRE_EXCEED, SSN_CHAN_STAT_INC stat_ssn_dma_enqueue_errs s)).

(** The timer of a FIFO: [frcore_chan_process] for [FRC_WORK_SSN]. *)
Definition ssn_chan_process (f : nat) (s : ssn_sys) : option ssn_sys := frcore_ssn_fifo_post f false s.

(** What packing sees. *)
#[export] Instance ssn_chan_sink : SsnSink ssn_sys :=
  {| frcore_ssn_get_one_block_addr := fun _ s => ssn_get_one_block_addr s;
     frcore_forward_ssn_pkt_to_fifo := forward_ssn_pkt_to_fifo |}.

(** ** Set-up *)

(** [frc_dma_ssn_chan_desc_t], the fields the card reads. *)
Record ssn_chan_desc : Type := SsnDesc { d_type : Z; d_avail_addr : Z; d_compl_addr : Z }.

(** [frcore_ssn_chan_init]: cleared channel and FIFOs. *)
Definition frcore_ssn_chan_init : frcore_ssn_chan_t * list frcore_ssn_fifo_t :=
  (SsnChan 0 0 0 0 0 0 (replicate (Z.to_nat FRCORE_SSN_AVAIL_BUFF_GET_SIZE) 0),
   replicate (Z.to_nat FRC_SSN_FIFO_NUM) (SsnFifo 0 0 (replicate (Z.to_nat (FRCORE_CORE_FIFO_NUM FRCORE_MAX_DMA_POINTERS)) None))).

(** The four indices arrive in one scattered request; [timers] says whether the timer of
    each FIFO can be armed.  A request that runs out of time leaves the indices as they were. *)
Definition frcore_cmd_setup_ssn_chans (inited : bool) (desc : ssn_chan_desc) (timers : nat -> bool) (s : ssn_sys)
    : option (Z * ssn_sys) :=
  if negb inited then Some (FRE_INIT, s) else
  if d_type desc >? FRC_WORK_SSN then Some (FRE_EXCEED, s) else
  if negb (d_type desc =? FRC_WORK_SSN) then Some (FRE_PARAM, s) else
  let aw := d_avail_addr desc + FRC_DMA_SSN_AVAIL_WIDX_OFFSET in
  let ar := d_avail_addr desc + FRC_DMA_SSN_AVAIL_RIDX_OFFSET in
  let cw := d_compl_addr desc + FRC_DMA_SSN_COMPL_WIDX_OFFSET in
  let cr := d_compl_addr desc + FRC_DMA_SSN_COMPL_RIDX_OFFSET in
  '(os, s) ← ssn_next_dma s;
  let '(rv, counted, moved, _) := frcore_dma_scatter FRCORE_MAX_DMA_POINTERS MAX_PCI_DMA_LOCAL_BUF_SIZE
    ((fun a => DmaPtr 0 a 8) <$> [aw; ar; cw; cr]) os in
  let s := if counted : bool then SSN_CHAN_STAT_INC ssn_stat_dma_errors s else s in
  let answer := if forallb timers (seq 0 (Z.to_nat FRC_SSN_FIFO_NUM)) then FRE_SUCCESS else FRE_FAIL in
  let c := ss_chan s in
  if negb (rv =? 0) then Some (FRE_DMA, SSN_CHAN_STAT_INC ssn_stat_dma_errors s) else
  if negb moved
  then Some (answer, with_chan (SsnChan (d_avail_addr desc) (d_compl_addr desc) (sc_avail_widx c) (sc_avail_ridx c)
    (sc_compl_widx c) (sc_compl_ridx c) (sc_avail_buff c)) s)
  else
  vaw ← ssn_host_word (ss_host s) aw; var ← ssn_host_word (ss_host s) ar;
  vcw ← ssn_host_word (ss_host s) cw; vcr ← ssn_host_word (ss_host s) cr;
  Some (answer, with_chan (SsnChan (d_avail_addr desc) (d_compl_addr desc) vaw var vcw vcr (sc_avail_buff c)) s).
End ssn_chan.
