(* ===== verification/SsnChanProps.v ===== *)
(** * The session channel: no operation goes wrong

    Whatever becomes of the transfers and whatever the host does in between, every
    operation of the channel is defined, terminates and keeps the invariant; so the
    channel is one that packing can rely on. *)

From stdpp Require Import list functions.
From S2P Require Import Prelude Bytes Ring Dma Chan ChanMem SsnBlock SsnBlockProps SsnChan.
#[local] Open Scope Z_scope.

(** The address of a block lies inside the address space. *)
Definition addr_ok (b : Z) : Prop := 0 <= b /\ b + FRC_DMA_SSN_BLOCK_SIZE <= 2 ^ 64.
Definition act_ok (a : host_act) : Prop := match a with HostPut b => addr_ok b | HostGet => True end.

Section inv.
Context (N P B : Z).
Hypothesis HN : 0 < N < 2 ^ 60.

#[local] Abbreviation size := (sizeof_ssn_ring N).
#[local] Abbreviation CAP := (FRCORE_CORE_FIFO_NUM P).

(** ** The host *)
Record host_inv (h : ssn_host) : Prop := HostInv {
  hi_avail : Z.of_nat (length (m_buff (avail_ring h))) = N;
  hi_compl : Z.of_nat (length (m_buff (compl_ring h))) = N;
  hi_cells : Forall addr_ok (m_buff (avail_ring h));
  hi_apart : avail_base h + size <= compl_base h \/ compl_base h + size <= avail_base h }.

(** The host after some of its actions and transfers to it; the rings stay where they are. *)
Definition host_next (h h' : ssn_host) : Prop :=
  host_inv h' /\ avail_base h' = avail_base h /\ compl_base h' = compl_base h.

Lemma host_next_trans h1 h2 h3 : host_next h1 h2 -> host_next h2 h3 -> host_next h1 h3.
Proof. intros (_ & E1 & E2) (H & E3 & E4). split; [done|]. by rewrite E3, E4. Qed.

Lemma addr_word b : addr_ok b -> 0 <= b < 2 ^ 64.
Proof. unfold addr_ok, FRC_DMA_SSN_BLOCK_SIZE, TcpFlow.K. lia. Qed.

Lemma ring_put_inv b r : addr_ok b -> Z.of_nat (length (m_buff r)) = N -> Forall addr_ok (m_buff r) ->
  exists len r', ring_put N LE b r = Some (len, r') /\ Z.of_nat (length (m_buff r')) = N /\ Forall addr_ok (m_buff r').
Proof using HN.
  intros Hb Hl Hf. unfold ring_put. destruct (_ && _); [|by do 2 eexists].
  unfold umod. rewrite (proj2 (Z.eqb_neq N 0)) by lia. cbn [mbind option_bind].
  pose proof (Z.mod_pos_bound (simple_package_ring_widx LE r) N ltac:(lia)) as Hm.
  rewrite arr_set_eq by lia. cbn [mbind option_bind]. do 2 eexists. split; [done|]. cbn [m_buff].
  rewrite length_insert. split; [done|]. apply Forall_insert; [done|]. rewrite put_word_id; [done|by apply addr_word].
Qed.

Lemma ring_get_inv r : Z.of_nat (length (m_buff r)) = N -> exists len v r', ring_get N LE r = Some (len, v, r') /\ m_buff r' = m_buff r.
Proof using HN.
  intros Hl. unfold ring_get. destruct (_ && _); [|by do 3 eexists].
  unfold umod. rewrite (proj2 (Z.eqb_neq N 0)) by lia. cbn [mbind option_bind].
  pose proof (Z.mod_pos_bound (simple_package_ring_ridx LE r) N ltac:(lia)) as Hm.
  rewrite arr_get_nthZ by lia. cbn [mbind option_bind]. by do 3 eexists.
Qed.

Lemma host_do_inv a h : act_ok a -> host_inv h -> exists h', ssn_host_do N h a = Some h' /\ host_next h h'.
Proof using HN.
  intros Ha [H1 H2 H3 H4]. destruct a as [b|]; cbn [ssn_host_do].
  - destruct (ring_put_inv b (avail_ring h) Ha H1 H3) as (len & r' & -> & ? & ?). cbn [mbind option_bind].
    eexists. split; [done|]. split; [|done]. by split.
  - destruct (ring_get_inv (compl_ring h) H2) as (len & v & r' & -> & Eb). cbn [mbind option_bind].
    eexists. split; [done|]. split; [|by destruct v]. destruct v; split; cbn; by rewrite ?Eb.
Qed.

Lemma host_acts_inv acts h : Forall act_ok acts -> host_inv h -> exists h', foldM (ssn_host_do N) acts h = Some h' /\ host_next h h'.
Proof using HN.
  intros Ha. revert h. induction Ha as [|a acts Ha _ IH]; intros h Hh; [by exists h|]. cbn [foldM].
  destruct (host_do_inv a h Ha Hh) as (h1 & -> & H1). cbn [mbind option_bind].
  destruct (IH h1 (proj1 H1)) as (h2 & E & H2). exists h2. split; [exact E|]. by eapply host_next_trans.
Qed.

(** ** Words of the rings *)

Lemma word_avail h o : host_inv h -> 0 <= o < size -> ssn_host_word N h (avail_base h + o) = ring_word (avail_ring h) o.
Proof.
  intros [_ _ _ H] Ho. unfold ssn_host_word, in_compl.
  replace (avail_base h + o - avail_base h) with o by lia.
  destruct (Z.leb_spec (compl_base h) (avail_base h + o)), (Z.ltb_spec (avail_base h + o) (compl_base h + size)); simpl; try done; lia.
Qed.

Lemma word_compl h o : 0 <= o < size -> ssn_host_word N h (compl_base h + o) = ring_word (compl_ring h) o.
Proof.
  intros Ho. unfold ssn_host_word, in_compl. rewrite (proj2 (Z.leb_le _ _)), (proj2 (Z.ltb_lt _ _)) by lia. simpl.
  f_equal. lia.
Qed.

Lemma set_word_avail h o v : host_inv h -> 0 <= o < size ->
  set_ssn_host_word N h (avail_base h + o) v = r ← set_ring_word (avail_ring h) o v; Some (set_avail_ring r h).
Proof.
  intros [_ _ _ H] Ho. unfold set_ssn_host_word, in_compl.
  replace (avail_base h + o - avail_base h) with o by lia.
  destruct (Z.leb_spec (compl_base h) (avail_base h + o)), (Z.ltb_spec (avail_base h + o) (compl_base h + size)); simpl; try done; lia.
Qed.

Lemma set_word_compl h o v : 0 <= o < size ->
  set_ssn_host_word N h (compl_base h + o) v = r ← set_ring_word (compl_ring h) o v; Some (set_compl_ring r h).
Proof.
  intros Ho. unfold set_ssn_host_word, in_compl. rewrite (proj2 (Z.leb_le _ _)), (proj2 (Z.ltb_lt _ _)) by lia. simpl.
  by replace (compl_base h + o - compl_base h) with o by lia.
Qed.

(** Cells [k] to [k + n] of the available ring. *)
Lemma read_cells h k n : host_inv h -> 0 <= k -> k + Z.of_nat n <= N ->
  ssn_host_read N h (avail_base h + 16 + k * 8) n = Some (take n (drop (Z.to_nat k) (m_buff (avail_ring h)))).
Proof using HN.
  intros Hh. revert k. induction n as [|n IH]; intros k Hk Hn; [by rewrite take_0|]. cbn [ssn_host_read].
  replace (avail_base h + 16 + k * 8) with (avail_base h + (16 + 8 * k)) by lia.
  rewrite word_avail by (first [done|unfold sizeof_ssn_ring; lia]). rewrite ring_word_cell by lia.
  pose proof (hi_avail _ Hh) as Hl. destruct (lookup_lt_is_Some_2 (m_buff (avail_ring h)) (Z.to_nat k)) as [v Ev]; [lia|].
  assert (arr_get (m_buff (avail_ring h)) k = Some v) as -> by (apply arr_get_Some; split; [lia|done]). cbn [mbind option_bind].
  replace (avail_base h + (16 + 8 * k) + 8) with (avail_base h + 16 + (k + 1) * 8) by lia. rewrite IH by lia.
  cbn [mbind option_bind]. rewrite (drop_S _ _ _ Ev). by replace (Z.to_nat (k + 1)) with (S (Z.to_nat k)) by lia.
Qed.

(** Cells [k] on of the completed ring. *)
Lemma write_cells h k ws : host_inv h -> 0 <= k -> k + Z.of_nat (length ws) <= N ->
  ssn_host_write N h (compl_base h + 16 + k * 8) ws = Some (set_compl_ring (Ring (m_widx (compl_ring h)) (m_ridx (compl_ring h))
    (take (Z.to_nat k) (m_buff (compl_ring h)) ++ ws ++ drop (Z.to_nat k + length ws) (m_buff (compl_ring h)))) h).
Proof using HN.
  revert h k. induction ws as [|w ws IH]; intros h k Hh Hk Hl; cbn [ssn_host_write length] in *.
  - rewrite Nat.add_0_r. cbn [app]. rewrite take_drop. by destruct h as [? ? ? [] ? ?].
  - replace (compl_base h + 16 + k * 8) with (compl_base h + (16 + 8 * k)) by lia.
    rewrite set_word_compl by (unfold sizeof_ssn_ring; lia). pose proof (hi_compl _ Hh) as Hc.
    rewrite (set_ring_word_cell _ _ _ (<[Z.to_nat k := w]> (m_buff (compl_ring h)))) by (first [lia|apply arr_set_eq; lia]).
    cbn [mbind option_bind]. set (h1 := set_compl_ring _ h).
    assert (host_inv h1) as H1 by (destruct Hh; split; cbn; rewrite ?length_insert; done).
    replace (compl_base h + (16 + 8 * k) + 8) with (compl_base h1 + 16 + (k + 1) * 8) by (cbn; lia).
    rewrite IH by (first [done|lia]). f_equal. unfold h1, set_compl_ring. cbn. f_equal. f_equal.
    replace (Z.to_nat (k + 1)) with (S (Z.to_nat k)) by lia.
    assert (Z.to_nat k < length (m_buff (compl_ring h)))%nat as Hlt by lia.
    rewrite (take_S_r _ _ w) by (by apply list_lookup_insert_eq).
    rewrite take_insert_ge, <- app_assoc by lia. cbn [app]. do 3 f_equal.
    rewrite drop_insert_lt by lia. f_equal. lia.
Qed.

Hypothesis HP : 0 < P.
Hypothesis HPB : P * 16 <= FRCORE_SSN_AVAIL_BUFF_GET_SIZE.
Hypothesis HPN : P * 16 <= N.
Hypothesis HB : FRC_PAYLOAD_LEN_MAX <= B.

(** ** The invariant *)

(** What the interface lets a session queue. *)
Definition cell_valid (c : option ssn_cell) : Prop := match c with Some c => cell_small c | None => True end.

(** The cells between the indices have been written: all cells have, or the indices have
    not yet gone round. *)
Record fifo_safe (x : frcore_ssn_fifo_t) : Prop := FifoSafe {
  fs_widx : 0 <= sf_widx x < 2 ^ 64; fs_ridx : 0 <= sf_ridx x < 2 ^ 64;
  fs_len : Z.of_nat (length (sf_cells x)) = CAP;
  fs_room : u64 (sf_widx x - sf_ridx x) <= CAP;
  fs_valid : Forall cell_valid (sf_cells x);
  fs_full : Forall is_Some (sf_cells x) \/
    (sf_ridx x <= sf_widx x <= CAP /\ forall i, (i < Z.to_nat (sf_widx x))%nat -> exists c, sf_cells x !! i = Some (Some c)) }.

(** The shared buffer holds addresses of blocks (or the zeros of the initialisation). *)
Definition buff_ok (c : frcore_ssn_chan_t) : Prop :=
  Z.of_nat (length (sc_avail_buff c)) = FRCORE_SSN_AVAIL_BUFF_GET_SIZE /\ Forall addr_ok (sc_avail_buff c).

Record sys_inv (s : ssn_sys) : Prop := SysInv {
  si_host : host_inv (ss_host s);
  si_avail : sc_avail_addr (ss_chan s) = avail_base (ss_host s);
  si_compl : sc_compl_addr (ss_chan s) = compl_base (ss_host s);
  si_script : Forall (fun e => Forall act_ok e.1) (ss_script s);
  si_num : Z.of_nat (length (ss_fifos s)) = FRC_SSN_FIFO_NUM;
  si_fifos : Forall fifo_safe (ss_fifos s);
  si_buff : buff_ok (ss_chan s) }.

(** What a transfer may change: the host, the script, the indices and statistics. *)
Record moves (s s' : ssn_sys) : Prop := Moves {
  mv_host : host_next (ss_host s) (ss_host s');
  mv_avail : sc_avail_addr (ss_chan s') = sc_avail_addr (ss_chan s);
  mv_compl : sc_compl_addr (ss_chan s') = sc_compl_addr (ss_chan s);
  mv_script : exists k, ss_script s' = drop k (ss_script s);
  mv_fifos : ss_fifos s' = ss_fifos s;
  mv_buff : buff_ok (ss_chan s) -> buff_ok (ss_chan s') }.

Lemma moves_inv s s' : sys_inv s -> moves s s' -> sys_inv s'.
Proof.
  intros [H1 H2 H3 H4 H5 H6 H7] [(M1 & M2 & M3) M4 M5 (k & M6) M7 M8].
  split; [done|congruence|congruence| |by rewrite M7..|auto]. rewrite M6. by apply Forall_drop.
Qed.

Lemma moves_refl s : host_inv (ss_host s) -> moves s s.
Proof. intros H. split; [by split_and!|done|done|by exists 0%nat|done|done]. Qed.

Lemma moves_trans s1 s2 s3 : moves s1 s2 -> moves s2 s3 -> moves s1 s3.
Proof.
  intros [M1 M2 M3 (k & M4) M5 M6] [L1 L2 L3 (j & L4) L5 L6].
  split; [by eapply host_next_trans|congruence|congruence| |congruence|auto].
  exists (k + j)%nat. by rewrite L4, M4, drop_drop.
Qed.

Lemma moves_script s s' : moves s s' -> (length (ss_script s') <= length (ss_script s))%nat.
Proof. intros [_ _ _ (k & ->) _ _]. rewrite length_drop. lia. Qed.

(** Only the indices and the statistics. *)
Lemma moves_chan s c : host_inv (ss_host s) -> sc_avail_addr c = sc_avail_addr (ss_chan s) ->
  sc_compl_addr c = sc_compl_addr (ss_chan s) -> (buff_ok (ss_chan s) -> buff_ok c) -> moves s (with_chan c s).
Proof. intros H ? ? ?. split; [by split_and!|done|done|by exists 0%nat|done|done]. Qed.

Lemma moves_stat c v s : host_inv (ss_host s) -> moves s (SSN_CHAN_STAT_ADD c v s).
Proof. intros H. split; [by split_and!|done|done|by exists 0%nat|done|done]. Qed.

(** ** Transfers *)
#[local] Abbreviation next_dma := (ssn_next_dma N).
#[local] Abbreviation copy_from := (ssn_copy_from_remote N P B).
#[local] Abbreviation copy_to := (ssn_copy_to_remote N P B).

Lemma next_dma_inv s : sys_inv s -> exists os s', next_dma s = Some (os, s') /\ moves s s' /\ ss_chan s' = ss_chan s /\
  (ss_script s = [] -> os = []) /\ (ss_script s <> [] -> (length (ss_script s') < length (ss_script s))%nat).
Proof using HN.
  intros [H1 _ _ H4 _ _ _]. unfold ssn_next_dma. destruct (ss_script s) as [|[acts os] sc] eqn:Es.
  - exists [], s. split; [done|]. split; [by apply moves_refl|done].
  - apply Forall_cons in H4 as [Ha _]. destruct (host_acts_inv acts (ss_host s) Ha H1) as (h & -> & Hh). cbn [mbind option_bind].
    do 2 eexists. split; [done|]. cbn. split; [|split; [done|split; [done|simpl; lia]]]. split; [done|done|done|by exists 1%nat; rewrite Es|done|done].
Qed.

(** A transfer may fail, move its words or run out of time. *)
Lemma copy_from_inv old a s (Q : list Z -> Prop) : sys_inv s ->
  (forall h, host_next (ss_host s) h -> exists ws, ssn_host_read N h a (length old) = Some ws /\ Q ws) -> Q old ->
  exists r s', copy_from old a s = Some (r, s') /\ moves s s' /\ ss_chan s' = ss_chan s /\ forall ws, r = Some ws -> Q ws.
Proof using HN.
  intros Hs Hr Ho. unfold ssn_copy_from_remote. destruct (next_dma_inv s Hs) as (os & s1 & -> & Hm & Ec & _). cbn [mbind option_bind].
  destruct (ssn_gather P B a _ os) as [rv moved]. destruct (rv =? 0).
  - destruct moved; cbn [mbind option_bind]; [|do 2 eexists; split; [done|]; split; [done|]; split; [done|]; by intros ws [= <-]].
    destruct (Hr _ (mv_host _ _ Hm)) as (ws & -> & Hq). cbn [mbind option_bind]. do 2 eexists. split; [done|].
    split; [done|]. split; [done|]. by intros ws' [= <-].
  - do 2 eexists. split; [done|]. split; [|done]. eapply moves_trans; [exact Hm|]. apply moves_stat, (mv_host _ _ Hm).
Qed.

Lemma copy_to_inv ws a s : sys_inv s ->
  (forall h, host_next (ss_host s) h -> exists h', ssn_host_write N h a ws = Some h' /\ host_next h h') ->
  exists rv s', copy_to ws a s = Some (rv, s') /\ moves s s' /\ ss_chan s' = ss_chan s.
Proof using HN.
  intros Hs Hr. unfold ssn_copy_to_remote. destruct (next_dma_inv s Hs) as (os & s1 & -> & Hm & Ec & _). cbn [mbind option_bind].
  destruct (ssn_gather P B a _ os) as [rv moved]. destruct (rv =? 0).
  - destruct moved; cbn [mbind option_bind].
    + destruct (Hr _ (mv_host _ _ Hm)) as (h & -> & Hq). cbn [mbind option_bind]. do 2 eexists. split; [done|]. split; [|done].
      eapply moves_trans; [exact Hm|]. split; [done|done|done|by exists 0%nat|done|done].
    + do 2 eexists. split; [done|]. split; [|done]. eapply moves_trans; [exact Hm|].
      split; [split; [apply Hm|done]|done|done|by exists 0%nat|done|done].
  - do 2 eexists. split; [done|]. split; [|done]. eapply moves_trans; [exact Hm|]. apply moves_stat, (mv_host _ _ Hm).
Qed.

(** *** The four indices *)
Lemma read_index_avail h a o : host_inv h -> a = avail_base h -> o = 0 \/ o = 8 ->
  exists w, ssn_host_read N h (a + o) 1 = Some [w].
Proof using HN.
  intros Hh -> Ho. cbn [ssn_host_read]. rewrite word_avail by (first [done|unfold sizeof_ssn_ring; lia]).
  destruct Ho as [-> | ->]; by eexists.
Qed.

Lemma read_index_compl h a o : host_inv h -> a = compl_base h -> o = 0 \/ o = 8 ->
  exists w, ssn_host_read N h (a + o) 1 = Some [w].
Proof using HN.
  intros Hh -> Ho. cbn [ssn_host_read]. rewrite word_compl by (unfold sizeof_ssn_ring; lia).
  destruct Ho as [-> | ->]; by eexists.
Qed.

Lemma write_avail_ridx h a v : host_inv h -> a = avail_base h ->
  ssn_host_write N h (a + 8) [v] = Some (set_avail_ring (Ring (m_widx (avail_ring h)) v (m_buff (avail_ring h))) h).
Proof using HN.
  intros Hh ->. cbn [ssn_host_write]. rewrite set_word_avail by (first [done|unfold sizeof_ssn_ring; lia]). done.
Qed.

Lemma write_compl_widx h a v : a = compl_base h ->
  ssn_host_write N h (a + 0) [v] = Some (set_compl_ring (Ring v (m_ridx (compl_ring h)) (m_buff (compl_ring h))) h).
Proof using HN.
  intros ->. cbn [ssn_host_write]. rewrite set_word_compl by (unfold sizeof_ssn_ring; lia). done.
Qed.

Lemma next_avail_ring h w r b : host_inv h -> Z.of_nat (length b) = N -> Forall addr_ok b ->
  host_next h (set_avail_ring (Ring w r b) h).
Proof. intros [] ? ?. by repeat split. Qed.
Lemma next_compl_ring h w r b : host_inv h -> Z.of_nat (length b) = N -> host_next h (set_compl_ring (Ring w r b) h).
Proof. intros [] ?. by repeat split. Qed.

(** ** The rings *)

(** Room before the end of the ring. *)
Lemma ring_room i : let offset := i `mod` N in 0 <= offset < N /\ u64 (N - offset) = N - offset.
Proof using HN.
  cbv zeta. pose proof (Z.mod_pos_bound i N ltac:(lia)). split; [done|]. apply wrapu_id. lia.
Qed.

Lemma write_cells_next h a k ws : host_inv h -> a = compl_base h -> 0 <= k -> k + Z.of_nat (length ws) <= N ->
  exists h', ssn_host_write N h (a + 16 + k * 8) ws = Some h' /\ host_next h h'.
Proof using HN.
  intros Hh -> Hk Hl. rewrite write_cells by done. eexists. split; [done|]. apply next_compl_ring; [done|].
  pose proof (hi_compl _ Hh). rewrite length_splice by lia. lia.
Qed.

(** Cells of the ring into the shared buffer. *)
Lemma copy_part_inv i n k s : sys_inv s -> 0 <= i -> 0 <= n -> i + n <= FRCORE_SSN_AVAIL_BUFF_GET_SIZE -> 0 <= k -> k + n <= N ->
  exists ok s', ssn_copy_part N P B i n (sc_avail_addr (ss_chan s) + FRC_DMA_SSN_AVAIL_RING_OFFSET + k * RING_BUFF_CELL_SIZE) s = Some (ok, s') /\
    moves s s'.
Proof using HN HP HPB HPN.
  intros Hs Hi Hn Hin Hk Hkn. pose proof (si_buff _ Hs) as [Hl Hb]. unfold ssn_copy_part, arr_read.
  rewrite !(proj2 (Z.leb_le _ _)) by lia. cbn [andb mbind option_bind].
  set (old := take _ _).
  assert (length old = Z.to_nat n) as El by (unfold old; rewrite length_take, length_drop; lia).
  destruct (copy_from_inv old (sc_avail_addr (ss_chan s) + FRC_DMA_SSN_AVAIL_RING_OFFSET + k * RING_BUFF_CELL_SIZE) s
    (fun ws => length ws = Z.to_nat n /\ Forall addr_ok ws) Hs) as (r & s1 & -> & M1 & Ec & Hr).
  - intros h (Hh & Eb & _). rewrite (si_avail _ Hs), <- Eb, El. pose proof (hi_avail _ Hh) as Ha.
    eexists. split; [apply read_cells; [done|lia|lia]|]. split; [rewrite length_take, length_drop; lia|].
    apply Forall_take, Forall_drop, Hh.
  - split; [done|]. by apply Forall_take, Forall_drop.
  - cbn [mbind option_bind]. destruct r as [ws|]; [|by do 2 eexists]. destruct (Hr ws eq_refl) as [Hlw Haw].
    rewrite Ec, arr_write_eq by lia. cbn [mbind option_bind]. do 2 eexists. split; [done|].
    eapply moves_trans; [exact M1|]. apply moves_chan; [apply M1|cbn; by rewrite Ec..|]. intros _. split; cbn.
    + rewrite length_splice by lia. done.
    + apply Forall_app. split; [by apply Forall_take|]. apply Forall_app. split; [done|by apply Forall_drop].
Qed.

Lemma copy_cells_inv number k s : sys_inv s -> 1 <= number <= FRCORE_SSN_AVAIL_BUFF_GET_SIZE -> number <= N -> 0 <= k < N ->
  exists ok s', ssn_copy_cells N P B number k (sc_avail_addr (ss_chan s) + FRC_DMA_SSN_AVAIL_RING_OFFSET) s = Some (ok, s') /\ moves s s'.
Proof using HN HP HPB HPN.
  intros Hs Hn HnN Hk. unfold ssn_copy_cells. rewrite (wrapu_id 64 (N - k)) by lia.
  set (len1 := if N - k <? number then N - k else number).
  assert (1 <= len1 <= number /\ k + len1 <= N) as [Hl Hkl] by (unfold len1; destruct (Z.ltb_spec (N - k) number); lia).
  destruct (copy_part_inv 0 len1 k s Hs) as (ok & s1 & E1 & M1); [lia..|]. rewrite E1. cbn [mbind option_bind].
  destruct ok; cbn [negb]; [|by do 2 eexists]. destruct (len1 <? number); [|by do 2 eexists].
  destruct (copy_part_inv len1 (number - len1) 0 s1 (moves_inv _ _ Hs M1)) as (ok & s2 & E2 & M2); [lia..|].
  rewrite (mv_avail _ _ M1) in E2. unfold RING_BUFF_CELL_SIZE in E2. rewrite Z.mul_0_l, Z.add_0_r in E2.
  do 2 eexists. split; [exact E2|]. by eapply moves_trans.
Qed.

(** Free blocks from the available ring into the shared buffer. *)
Lemma avail_fetch_inv number s : sys_inv s -> 1 <= number <= FRCORE_SSN_AVAIL_BUFF_GET_SIZE -> number <= N ->
  exists rv s', ssn_avail_fetch N P B number s = Some (rv, s') /\ moves s s'.
Proof using HN HP HPB HPN.
  intros Hs Hn HnN. unfold ssn_avail_fetch.
  destruct (copy_from_inv [sc_avail_widx (ss_chan s)] (sc_avail_addr (ss_chan s) + FRC_DMA_SSN_AVAIL_WIDX_OFFSET) s (fun ws => exists w, ws = [w]) Hs)
    as (r & s1 & -> & M1 & Ec & Hr).
  { intros h (Hh & Eb & _). rewrite (si_avail _ Hs), <- Eb. destruct (read_index_avail h (avail_base h) 0 Hh eq_refl) as [w E]; [by left|].
    exists [w]. eauto. }
  { by eexists. }
  cbn [mbind option_bind]. destruct r as [ws|]; [|by do 2 eexists].
  destruct (Hr ws eq_refl) as [widx ->]. change (arr_get [widx] 0) with (Some widx). cbn [mbind option_bind].
  set (s2 := with_chan _ s1).
  assert (moves s s2) as M2 by (eapply moves_trans; [exact M1|apply moves_chan; [apply M1|done..]]).
  destruct (_ <? number).
  { do 2 eexists. split; [done|]. eapply moves_trans; [exact M2|]. apply moves_stat, M2. }
  unfold umod. rewrite (proj2 (Z.eqb_neq N 0)) by lia. cbn [mbind option_bind].
  set (offset := sc_avail_ridx (ss_chan s1) `mod` N).
  destruct (ring_room (sc_avail_ridx (ss_chan s1))) as [Ho _]. fold offset in Ho.
  destruct (copy_cells_inv number offset s2 (moves_inv _ _ Hs M2) Hn HnN Ho) as (ok & s3 & E3 & M3).
  rewrite (mv_avail _ _ M2) in E3. rewrite E3. cbn [mbind option_bind].
  assert (moves s s3) as M3' by by eapply moves_trans.
  destruct ok; cbn [negb]; [|by do 2 eexists]. set (s4 := with_chan _ _).
  assert (moves s s4) as M4.
  { eapply moves_trans; [exact M3'|]. eapply moves_trans; [apply (moves_stat stat_ssn_avail_get number), M3|]. apply moves_chan; [apply M3|done..]. }
  destruct (copy_to_inv [u64 (sc_avail_ridx (ss_chan s1) + number)] (sc_avail_addr (ss_chan s) + FRC_DMA_SSN_AVAIL_RIDX_OFFSET) s4 (moves_inv _ _ Hs M4))
    as (rv & s5 & E5 & M5 & _).
  { intros h (Hh & Eb & _). rewrite (si_avail _ Hs), <- (proj1 (proj2 (mv_host _ _ M4))), <- Eb.
    eexists. split; [by apply write_avail_ridx|]. apply next_avail_ring; [done|apply Hh..]. }
  do 2 eexists. split; [exact E5|]. by eapply moves_trans.
Qed.

(** The [memcpy], whenever it happens. *)
Lemma avail_copy_inv number s : sys_inv s -> 0 <= number <= FRCORE_SSN_AVAIL_BUFF_GET_SIZE ->
  exists buff, ssn_avail_copy number s = Some buff /\ length buff = Z.to_nat number /\ Forall addr_ok buff.
Proof using HP HPB HPN.
  intros Hs Hn. pose proof (si_buff _ Hs) as [Hl Hb]. unfold ssn_avail_copy, arr_read.
  rewrite !(proj2 (Z.leb_le _ _)) by lia. eexists. split; [done|]. split; [rewrite length_take, length_drop; lia|].
  by apply Forall_take, Forall_drop.
Qed.

(** One block from the available ring. *)
Lemma avail_get_inv s : sys_inv s -> exists rv buff s', frcore_ssn_chan_avail_get N P B 1 s = Some (rv, buff, s') /\
  moves s s' /\ (rv = 0 -> exists b, buff = [b] /\ addr_ok b).
Proof using HN HP HPB HPN.
  intros Hs. unfold frcore_ssn_chan_avail_get.
  destruct (avail_fetch_inv 1 s Hs ltac:(unfold FRCORE_SSN_AVAIL_BUFF_GET_SIZE; lia) ltac:(lia)) as (rv & s1 & -> & M1). cbn [mbind option_bind].
  destruct (Z.eqb_spec rv 0) as [_|Hrv]; [|by do 3 eexists].
  destruct (avail_copy_inv 1 s1 (moves_inv _ _ Hs M1) ltac:(unfold FRCORE_SSN_AVAIL_BUFF_GET_SIZE; lia)) as (buff & -> & El & Ha). cbn [mbind option_bind].
  do 3 eexists. split; [done|]. split; [done|]. intros _. destruct buff as [|b []]; try discriminate El.
  exists b. split; [done|]. by apply Forall_cons in Ha as [Ha _].
Qed.

Lemma compl_put_inv buff s : sys_inv s -> Z.of_nat (length buff) <= CAP ->
  exists rv s', frcore_ssn_chan_compl_put N P B buff s = Some (rv, s') /\ moves s s'.
Proof using HN HPB HPN.
  intros Hs Hl. unfold FRCORE_CORE_FIFO_NUM in Hl. unfold frcore_ssn_chan_compl_put.
  destruct (copy_from_inv [sc_compl_ridx (ss_chan s)] (sc_compl_addr (ss_chan s) + FRC_DMA_SSN_COMPL_RIDX_OFFSET) s (fun ws => exists w, ws = [w]) Hs)
    as (r & s1 & -> & M1 & _ & Hr).
  { intros h (Hh & _ & Eb). rewrite (si_compl _ Hs), <- Eb. destruct (read_index_compl h (compl_base h) 8 Hh eq_refl) as [w E]; [by right|].
    exists [w]. eauto. }
  { by eexists. }
  cbn [mbind option_bind]. destruct r as [ws|]; [|by do 2 eexists].
  destruct (Hr ws eq_refl) as [ridx ->]. change (arr_get [ridx] 0) with (Some ridx). cbn [mbind option_bind].
  set (s2 := with_chan _ s1).
  assert (moves s s2) as M2 by (eapply moves_trans; [exact M1|apply moves_chan; [apply M1|done..]]).
  destruct (_ <? _).
  { do 2 eexists. split; [done|]. eapply moves_trans; [exact M2|]. apply moves_stat, M2. }
  rewrite (proj2 (Z.leb_le _ _)) by lia. cbn [guard_ub mbind option_bind]. unfold umod. rewrite (proj2 (Z.eqb_neq N 0)) by lia. cbn [mbind option_bind].
  set (offset := sc_compl_widx (ss_chan s1) `mod` N).
  destruct (ring_room (sc_compl_widx (ss_chan s1))) as [Ho Hroom]. fold offset in Ho, Hroom. rewrite Hroom.
  set (len1 := if N - offset <? Z.of_nat (length buff) then N - offset else Z.of_nat (length buff)).
  assert (0 <= len1 <= Z.of_nat (length buff) /\ offset + len1 <= N) as Hl1 by (unfold len1; destruct (Z.ltb_spec (N - offset) (Z.of_nat (length buff))); lia).
  pose proof (moves_inv _ _ Hs M2) as H2.
  destruct (copy_to_inv (take (Z.to_nat len1) buff) (sc_compl_addr (ss_chan s) + FRC_DMA_SSN_COMPL_RING_OFFSET + offset * RING_BUFF_CELL_SIZE) s2 H2)
    as (rv & s3 & -> & M3 & _).
  { intros h (Hh & _ & Eb). apply write_cells_next; [done| |lia|rewrite length_take; lia].
    rewrite (si_compl _ Hs), <- (proj2 (proj2 (mv_host _ _ M2))), <- Eb. done. }
  cbn [mbind option_bind]. assert (moves s s3) as M3' by by eapply moves_trans.
  destruct (negb (rv =? 0)); [by do 2 eexists|].
  assert (exists rv s4, (if len1 <? Z.of_nat (length buff) then copy_to (drop (Z.to_nat len1) buff)
    (sc_compl_addr (ss_chan s) + FRC_DMA_SSN_COMPL_RING_OFFSET) s3 else Some (FRE_SUCCESS, s3)) = Some (rv, s4) /\ moves s s4) as (rv4 & s4 & -> & M4).
  { destruct (len1 <? Z.of_nat (length buff)); [|by do 2 eexists].
    destruct (copy_to_inv (drop (Z.to_nat len1) buff) (sc_compl_addr (ss_chan s) + FRC_DMA_SSN_COMPL_RING_OFFSET) s3 (moves_inv _ _ Hs M3'))
      as (rv4 & s4 & -> & M4 & _).
    - intros h (Hh & _ & Eb). replace (sc_compl_addr (ss_chan s) + FRC_DMA_SSN_COMPL_RING_OFFSET) with (compl_base h + 16 + 0 * 8).
      + apply write_cells_next; [done|done|lia|rewrite length_drop; lia].
      + rewrite (si_compl _ Hs), <- (proj2 (proj2 (mv_host _ _ M3'))), <- Eb. unfold FRC_DMA_SSN_COMPL_RING_OFFSET. lia.
    - do 2 eexists. split; [done|]. by eapply moves_trans. }
  cbn [mbind option_bind]. destruct (negb (rv4 =? 0)); [by do 2 eexists|]. set (s5 := with_chan _ _).
  assert (moves s s5) as M5.
  { eapply moves_trans; [exact M4|]. eapply moves_trans; [apply (moves_stat stat_ssn_compl_put (Z.of_nat (length buff))), M4|].
    apply moves_chan; [apply M4|done..]. }
  destruct (copy_to_inv [u64 (sc_compl_widx (ss_chan s1) + Z.of_nat (length buff))] (sc_compl_addr (ss_chan s) + FRC_DMA_SSN_COMPL_WIDX_OFFSET) s5 (moves_inv _ _ Hs M5))
    as (rv6 & s6 & E6 & M6 & _).
  { intros h (Hh & _ & Eb). rewrite (si_compl _ Hs), <- (proj2 (proj2 (mv_host _ _ M5))), <- Eb.
    eexists. split; [by apply write_compl_widx|]. apply next_compl_ring; [done|apply Hh]. }
  do 2 eexists. split; [exact E6|]. by eapply moves_trans.
Qed.

(** ** Posting *)
Definition ptr_ok (p : Z * list Z) : Prop := 1 <= Z.of_nat (length p.2) <= B.

(** A failed transfer uses up an entry of the script. *)
Definition shorter (s s' : ssn_sys) : Prop := (length (ss_script s') < length (ss_script s))%nat.

Lemma shorter_l s1 s2 s3 : moves s1 s2 -> shorter s2 s3 -> shorter s1 s3.
Proof. unfold shorter. intros H%moves_script ?. lia. Qed.
Lemma shorter_r s1 s2 s3 : shorter s1 s2 -> moves s2 s3 -> shorter s1 s3.
Proof. unfold shorter. intros ? H%moves_script. lia. Qed.

Lemma sizes_good ps : Forall ptr_ok ps ->
  existsb (size_bad B) (map (fun p => DmaPtr 0 p.1 (Z.of_nat (length p.2))) ps) = false.
Proof.
  induction 1 as [|p ps Hp _ IH]; [done|]. cbn [map existsb]. rewrite IH. unfold size_bad. cbn [p_size].
  unfold ptr_ok in Hp. rewrite (proj2 (Z.eqb_neq _ _)), (proj2 (Z.ltb_ge _ _)) by lia. done.
Qed.

(** What the engine answers to a request of sound pointers. *)
Lemma scatter_rv ps os : Forall ptr_ok ps -> 1 <= Z.of_nat (length ps) <= P ->
  let '(rv, counted, moved, _) := frcore_dma_scatter P B (map (fun p => DmaPtr 0 p.1 (Z.of_nat (length p.2))) ps) os in
  (rv = 0 \/ os <> []) /\ (os = [] -> counted = false /\ moved = true).
Proof.
  intros Hp Hl. rewrite scatter_ok; [|rewrite length_map; lia|by apply sizes_good].
  destruct os as [|o os]; [split; [by left|done]|]. destruct o; (split; [by right|done]).
Qed.

Lemma scatter_inv ps s : sys_inv s -> Forall ptr_ok ps -> 1 <= Z.of_nat (length ps) <= P ->
  exists ok s', ssn_scatter_send N P B ps s = Some (ok, s') /\ moves s s' /\ (ok = false -> shorter s s').
Proof using HN.
  intros Hs Hp Hl. unfold ssn_scatter_send. destruct (next_dma_inv s Hs) as (os & s1 & -> & M1 & _ & Hnil & Hsh). cbn [mbind option_bind].
  pose proof (scatter_rv ps os Hp Hl) as Hrv. destruct (frcore_dma_scatter _ _ _ _) as [[[rv counted] moved] os']. destruct Hrv as [Hrv _].
  set (s2 := if counted then _ else s1).
  assert (moves s s2) as M2.
  { unfold s2. destruct counted; [|done]. eapply moves_trans; [exact M1|]. apply moves_stat, M1. }
  destruct (Z.eqb_spec rv 0) as [E|E]; do 2 eexists; (split; [done|]).
  - split; [|done]. destruct moved; [|done]. eapply moves_trans; [exact M2|]. destruct M2 as [(Hh & _) _ _ _ _ _].
    split; [|done|done|by exists 0%nat|done|done]. split; [|done]. by destruct Hh.
  - split; [eapply moves_trans; [exact M2|]; apply moves_stat, M2|]. intros _. destruct Hrv as [?|Hos]; [done|].
    assert (ss_script s2 = ss_script s1) as Es by (unfold s2; by destruct counted).
    unfold shorter. cbn [SSN_CHAN_STAT_INC SSN_CHAN_STAT_ADD ss_script]. rewrite Es. apply Hsh. intros E0. by apply Hos, Hnil.
Qed.

Definition acc_ok (acc : list (Z * list Z)) : Prop := Forall ptr_ok acc /\ Z.of_nat (length acc) < P.

Lemma add_pointer_inv p acc s : sys_inv s -> acc_ok acc -> ptr_ok p ->
  exists r s', add_pointer N P B p acc s = Some (r, s') /\ moves s s' /\
    match r with Some acc' => acc_ok acc' | None => shorter s s' end.
Proof using HN HP.
  intros Hs [Ha Hl] Hp. unfold add_pointer.
  assert (Forall ptr_ok (acc ++ [p])) as Ha' by (apply Forall_app; by rewrite Forall_singleton).
  assert (Z.of_nat (length (acc ++ [p])) = Z.of_nat (length acc) + 1) as El by (rewrite length_app; simpl; lia).
  destruct (Z.eqb_spec (Z.of_nat (length (acc ++ [p]))) P) as [E|E].
  - destruct (scatter_inv (acc ++ [p]) s Hs Ha' ltac:(lia)) as (ok & s' & -> & M & Hsh). cbn [mbind option_bind].
    do 2 eexists. split; [done|]. split; [done|]. destruct ok; [split; [done|simpl; lia]|by apply Hsh].
  - do 2 eexists. split; [done|]. split; [apply moves_refl, Hs|]. split; [done|lia].
Qed.

Lemma hdr_ptr_ok a h : hdr_ok h -> ptr_ok (a, hdr_bytes h).
Proof using HB.
  intros Hh. unfold ptr_ok. cbn [snd]. rewrite length_hdr_bytes by apply Hh. unfold FRC_PAYLOAD_LEN_MAX in HB. lia.
Qed.
Lemma info_ptr_ok a i : ptr_ok (a, info_bytes i).
Proof using HB. unfold ptr_ok. cbn [snd]. rewrite length_info_bytes. unfold FRC_PAYLOAD_LEN_MAX in HB. lia. Qed.

Lemma post_cell_inv c acc s : sys_inv s -> acc_ok acc -> cell_small c ->
  exists r s', post_cell N P B (Some c) acc s = Some (r, s') /\ moves s s' /\
    match r with Some (acc', bs) => acc_ok acc' /\ (length bs <= 1)%nat | None => shorter s s' end.
Proof using HN HP HB.
  intros Hs Ha Hc. destruct c as [b h|b i bs io po w]; cbn [post_cell cell_small] in *.
  - destruct (add_pointer_inv (u64 (b + FRC_DMA_OFFSET), hdr_bytes h) acc s Hs Ha (hdr_ptr_ok _ _ Hc)) as (r & s' & -> & M & Hr).
    cbn [mbind option_bind]. do 2 eexists. split; [done|]. split; [done|]. destruct r; [split; [done|simpl; lia]|done].
  - destruct Hc as [Hi Hl].
    assert (moves s (payload_stats bs s)) as M0.
    { unfold payload_stats, SSN_CHAN_STAT_INC. eapply moves_trans; apply moves_stat; apply Hs. }
    destruct (add_pointer_inv (u64 (b + po), bs) acc (payload_stats bs s) (moves_inv _ _ Hs M0) Ha) as (r & s1 & -> & M1 & Hr).
    { unfold ptr_ok. cbn [snd]. lia. }
    cbn [mbind option_bind]. assert (moves s s1) as M1' by by eapply moves_trans.
    destruct r as [acc1|]; [|do 2 eexists; split; [done|]; split; [done|exact (shorter_l _ _ _ M0 Hr)]].
    set (s2 := SSN_CHAN_STAT_INC stat_ssn_dma_pkt_infos s1).
    assert (moves s s2) as M2 by (eapply moves_trans; [exact M1'|]; apply moves_stat, M1').
    destruct (add_pointer_inv (u64 (b + io), info_bytes i) acc1 s2 (moves_inv _ _ Hs M2) Hr (info_ptr_ok _ _)) as (r & s3 & -> & M3 & Hr3).
    cbn [mbind option_bind]. do 2 eexists. split; [done|]. split; [by eapply moves_trans|].
    destruct r; [split; [done|simpl; lia]|exact (shorter_l _ _ _ M2 Hr3)].
Qed.

(** The cell a post looks at. *)
Definition queued_at (x : frcore_ssn_fifo_t) (j : Z) : Prop :=
  exists c, arr_get (sf_cells x) (u64 (sf_ridx x + j) `mod` CAP) = Some (Some c) /\ cell_small c.

Lemma queued_safe x j : fifo_safe x -> 0 <= j < u64 (sf_widx x - sf_ridx x) -> queued_at x j.
Proof using HN HP HPB HPN.
  intros [Hw Hr Hl Hroom Hv Hf] Hj. unfold queued_at. unfold FRCORE_CORE_FIFO_NUM, FRCORE_SSN_AVAIL_BUFF_GET_SIZE in *.
  pose proof (Z.mod_pos_bound (u64 (sf_ridx x + j)) (P * 16) ltac:(lia)) as Hm. rewrite Forall_lookup in Hv.
  destruct Hf as [Hf|[Hrw Hf]].
  - destruct (lookup_lt_is_Some_2 (sf_cells x) (Z.to_nat (u64 (sf_ridx x + j) `mod` (P * 16)))) as [c Ec]; [lia|].
    rewrite Forall_lookup in Hf. destruct (Hf _ _ Ec) as [c' ->]. exists c'. split; [apply arr_get_Some; split; [lia|done]|].
    by apply (Hv _ _ Ec).
  - rewrite (wrapu_id 64 (sf_widx x - sf_ridx x)) in Hj by lia. rewrite (wrapu_id 64 (sf_ridx x + j)), Z.mod_small in * by lia.
    destruct (Hf (Z.to_nat (sf_ridx x + j)) ltac:(lia)) as [c Ec]. exists c.
    split; [apply arr_get_Some; split; [lia|done]|]. by apply (Hv _ _ Ec).
Qed.

Lemma post_loop_inv n f x cur acc blks s : sys_inv s -> ss_fifos s !! f = Some x -> acc_ok acc ->
  (forall j, cur <= j < cur + Z.of_nat n -> queued_at x j) ->
  exists cur' blks' s', ssn_post_loop N P B n f cur acc blks s = Some (cur', blks', s') /\ moves s s' /\
    cur <= cur' <= cur + Z.of_nat n /\ (cur' < cur + Z.of_nat n -> shorter s s') /\ (length blks' <= length blks + n)%nat.
Proof using HN HP HB.
  revert cur acc blks s. induction n as [|n IH]; intros cur acc blks s Hs Hx Ha Hq; cbn [ssn_post_loop].
  { do 3 eexists. split; [done|]. split; [apply moves_refl, Hs|]. split; [lia|]. split; [lia|lia]. }
  rewrite Hx. cbn [mbind option_bind]. unfold umod, FRCORE_CORE_FIFO_NUM. rewrite (proj2 (Z.eqb_neq _ 0)) by lia. cbn [mbind option_bind].
  destruct (Hq cur ltac:(lia)) as (c & Ec & Hc). unfold FRCORE_CORE_FIFO_NUM in Ec. rewrite Ec. cbn [mbind option_bind].
  destruct (post_cell_inv c acc s Hs Ha Hc) as (r & s1 & -> & M1 & Hr). cbn [mbind option_bind].
  destruct r as [[acc1 bs]|].
  2: { do 3 eexists. split; [done|]. split; [done|]. split; [lia|]. split; [done|lia]. }
  destruct Hr as [Ha1 Hbs]. pose proof (moves_inv _ _ Hs M1) as H1.
  assert (forall acc2 s2, moves s s2 -> acc_ok acc2 -> exists cur' blks' s',
    ssn_post_loop N P B n f (cur + 1) acc2 (blks ++ bs) s2 = Some (cur', blks', s') /\ moves s s' /\
    cur <= cur' <= cur + Z.of_nat (S n) /\ (cur' < cur + Z.of_nat (S n) -> shorter s s') /\ (length blks' <= length blks + S n)%nat) as Hrec.
  { intros acc2 s2 M2 Ha2. destruct (IH (cur + 1) acc2 (blks ++ bs) s2 (moves_inv _ _ Hs M2)) as (cur' & blks' & s' & E & M & Hcur & Hsh & Hlb).
    - by rewrite (mv_fifos _ _ M2).
    - done.
    - intros j Hj. apply Hq. lia.
    - rewrite length_app in Hlb. exists cur', blks', s'. split; [exact E|]. split; [by eapply moves_trans|]. split; [lia|]. split; [|lia].
      intros Hlt. apply (shorter_l _ _ _ M2), Hsh. lia. }
  destruct ((n =? 0)%nat && negb (length acc1 =? 0)%nat) eqn:Ec'; [|by apply Hrec].
  apply andb_true_iff in Ec' as [_ Hne]. apply negb_true_iff, Nat.eqb_neq in Hne. destruct Ha1 as [Hp1 Hl1].
  destruct (scatter_inv acc1 s1 H1 Hp1 ltac:(lia)) as (ok & s2 & -> & M2 & Hsh). cbn [mbind option_bind].
  assert (moves s s2) as M2' by by eapply moves_trans. destruct ok.
  - apply Hrec; [done|]. split; [done|simpl; lia].
  - do 3 eexists. split; [done|]. split; [done|]. split; [lia|]. split; [|rewrite length_app; lia].
    intros _. by apply (shorter_l _ _ _ M1), Hsh.
Qed.

(** The FIFO after [k] of its cells have gone. *)
Lemma advance_safe x k : fifo_safe x -> 0 <= k <= u64 (sf_widx x - sf_ridx x) ->
  fifo_safe (SsnFifo (sf_widx x) (u64 (sf_ridx x + k)) (sf_cells x)) /\
  u64 (sf_widx x - u64 (sf_ridx x + k)) = u64 (sf_widx x - sf_ridx x) - k.
Proof using HN HP HPB HPN.
  intros [Hw Hr Hl Hroom Hv Hf] Hk. unfold FRCORE_CORE_FIFO_NUM, FRCORE_SSN_AVAIL_BUFF_GET_SIZE in *.
  assert (u64 (sf_widx x - u64 (sf_ridx x + k)) = u64 (sf_widx x - sf_ridx x) - k) as E.
  { unfold wrapu in *. rewrite Zminus_mod_idemp_r. replace (sf_widx x - (sf_ridx x + k)) with (sf_widx x - sf_ridx x - k) by lia.
    rewrite <- (Zminus_mod_idemp_l (sf_widx x - sf_ridx x)). apply Z.mod_small. lia. }
  split; [|exact E]. split; cbn [sf_widx sf_ridx sf_cells]; try done.
  - apply wrapu_range. lia.
  - rewrite E. unfold FRCORE_CORE_FIFO_NUM. lia.
  - destruct Hf as [Hf|[Hrw Hf]]; [by left|right]. unfold FRCORE_CORE_FIFO_NUM. rewrite (wrapu_id 64 (sf_widx x - sf_ridx x)) in Hk by lia.
    rewrite wrapu_id by lia. split; [lia|done].
Qed.

(** What an operation on FIFO [f] may change besides. *)
Definition fifos_move (f : nat) (s s' : ssn_sys) : Prop :=
  sys_inv s' /\ (length (ss_script s') <= length (ss_script s))%nat.

Lemma with_fifo_inv f x s : sys_inv s -> fifo_safe x -> sys_inv (with_fifo f x s).
Proof. intros [] Hx. split; cbn; rewrite ?length_insert; try done. by apply Forall_insert. Qed.

Lemma fifo_post_loop_inv fuel f x s : sys_inv s -> ss_fifos s !! f = Some x ->
  (Z.to_nat (u64 (sf_widx x - sf_ridx x)) + length (ss_script s) < fuel)%nat ->
  exists s', ssn_fifo_post_loop N P B fuel f (u64 (sf_widx x - sf_ridx x)) s = Some s' /\ sys_inv s' /\
    (length (ss_script s') <= length (ss_script s))%nat.
Proof using HN HP HPB HPN HB.
  revert x s. induction fuel as [|fuel IH]; intros x s Hs Hx Hfuel; [lia|]. cbn [ssn_fifo_post_loop].
  destruct (Z.eqb_spec (u64 (sf_widx x - sf_ridx x)) 0) as [E0|E0]; [by exists s|].
  pose proof (wrapu_range 64 (sf_widx x - sf_ridx x) ltac:(lia)) as Hrg.
  assert (fifo_safe x) as Hsafe by (pose proof (si_fifos _ Hs) as Hf; rewrite Forall_lookup in Hf; by eapply Hf).
  set (num := u64 (sf_widx x - sf_ridx x)) in *. unfold FRCORE_CHAN_POST_LWM.
  set (post_num := if num <? P * 16 then num else P * 16).
  assert (0 < post_num <= num /\ post_num <= P * 16) as Hpn by (unfold post_num; destruct (Z.ltb_spec num (P * 16)); lia).
  unfold frcore_ssn_chan_post_pkt.
  destruct (post_loop_inv (Z.to_nat post_num) f x 0 [] [] s Hs Hx) as (cur & blks & s1 & -> & M1 & Hcur & Hsh & Hlb).
  { split; [done|simpl; lia]. }
  { intros j Hj. apply queued_safe; [done|]. fold num. lia. }
  cbn [mbind option_bind]. rewrite Z2Nat.id in Hcur, Hsh by lia. simpl in Hlb.
  match goal with |- context [frcore_ssn_chan_compl_put N P B blks ?s0] => set (s2 := s0) end.
  assert (moves s s2) as M2.
  { eapply moves_trans; [exact M1|]. unfold s2. destruct (cur <? post_num); unfold SSN_CHAN_STAT_INC.
    - eapply moves_trans; [|apply moves_stat]; [apply moves_stat, M1|]. apply M1.
    - apply moves_stat, M1. }
  destruct (compl_put_inv blks s2 (moves_inv _ _ Hs M2)) as (rv & s3 & -> & M3).
  { unfold FRCORE_CORE_FIFO_NUM. lia. }
  cbn [mbind option_bind]. assert (moves s s3) as M by by eapply moves_trans. pose proof (moves_inv _ _ Hs M) as H3.
  destruct (negb (rv =? 0)).
  { exists s3. split; [done|]. split; [done|]. by apply moves_script. }
  unfold ssn_advance_ridx. rewrite (mv_fifos _ _ M), Hx. cbn [mbind option_bind].
  destruct (advance_safe x cur Hsafe) as [Hsafe' En]; [fold num; lia|]. fold num in En.
  set (x' := SsnFifo (sf_widx x) (u64 (sf_ridx x + cur)) (sf_cells x)) in *.
  assert (sys_inv (with_fifo f x' s3)) as H4 by by apply with_fifo_inv.
  assert (length (ss_script s3) <= length (ss_script s))%nat as Hls by by apply moves_script.
  destruct (IH x' (with_fifo f x' s3) H4) as (s5 & E5 & H5 & Hl5).
  - cbn. apply list_lookup_insert_eq. rewrite (mv_fifos _ _ M). by eapply lookup_lt_Some.
  - change (sf_widx x') with (sf_widx x). change (sf_ridx x') with (u64 (sf_ridx x + cur)). rewrite En. cbn [ss_script with_fifo].
    destruct (Z.eq_dec cur post_num) as [->|Hne]; [lia|].
    pose proof (Hsh ltac:(lia)) as Hlt. unfold shorter in Hlt.
    pose proof (moves_script _ _ M) as Hms. assert (length (ss_script s3) < length (ss_script s))%nat; [|lia].
    assert (moves s1 s3) as M13.
    { eapply moves_trans; [|exact M3]. unfold s2. destruct (cur <? post_num); unfold SSN_CHAN_STAT_INC.
      - eapply moves_trans; [|apply moves_stat]; [apply moves_stat, M1|]. apply M1.
      - apply moves_stat, M1. }
    apply moves_script in M13. lia.
  - change (sf_widx x') with (sf_widx x) in E5. change (sf_ridx x') with (u64 (sf_ridx x + cur)) in E5. rewrite En in E5.
    exists s5. split; [exact E5|]. split; [done|]. cbn [ss_script with_fifo] in Hl5. lia.
Qed.

Lemma fifo_post_inv f flag s : sys_inv s -> (f < length (ss_fifos s))%nat ->
  exists s', frcore_ssn_fifo_post N P B f flag s = Some s' /\ sys_inv s'.
Proof using HN HP HPB HPN HB.
  intros Hs Hf. destruct (lookup_lt_is_Some_2 _ _ Hf) as [x Hx]. unfold frcore_ssn_fifo_post. rewrite Hx. cbn [mbind option_bind].
  destruct (if flag then _ else _); [by exists s|].
  destruct (fifo_post_loop_inv (ssn_post_fuel (u64 (sf_widx x - sf_ridx x)) s) f x s Hs Hx) as (s' & E & H & _); [unfold ssn_post_fuel; lia|].
  by exists s'.
Qed.

(** ** Queueing *)
Lemma fifo_add_inv f c s : sys_inv s -> (f < length (ss_fifos s))%nat -> cell_small c ->
  exists rv s', frcore_ssn_fifo_add N P B f c s = Some (rv, s') /\ sys_inv s'.
Proof using HN HP HPB HPN HB.
  intros Hs Hf Hc. unfold frcore_ssn_fifo_add. destruct (fifo_post_inv f true s Hs Hf) as (s1 & -> & H1). cbn [mbind option_bind].
  destruct (lookup_lt_is_Some_2 (ss_fifos s1) f) as [x Hx].
  { pose proof (si_num _ Hs). pose proof (si_num _ H1). lia. }
  rewrite Hx. cbn [mbind option_bind].
  destruct (Z.leb_spec (CAP) (u64 (sf_widx x - sf_ridx x))) as [Hfull|Hroom].
  { do 2 eexists. split; [done|]. destruct H1. by split. }
  assert (fifo_safe x) as Hsafe by (pose proof (si_fifos _ H1) as Hfs; rewrite Forall_lookup in Hfs; by eapply Hfs).
  pose proof Hsafe as [Hw Hr Hl Hrm Hv Hfu]. unfold FRCORE_CORE_FIFO_NUM, FRCORE_SSN_AVAIL_BUFF_GET_SIZE in *.
  unfold umod. rewrite (proj2 (Z.eqb_neq _ 0)) by lia. cbn [mbind option_bind].
  assert (exists s2, store_cell c s1 = Some s2 /\ sys_inv s2 /\ ss_fifos s2 = ss_fifos s1) as (s2 & -> & H2 & E2).
  { destruct c as [b h|b i bs io po w]; cbn [store_cell cell_small] in *; [by exists s1|]. destruct Hc as [_ Hlen].
    rewrite (proj2 (Z.leb_le _ _)) by lia. eexists. split; [done|]. split; [|done]. destruct H1. by split. }
  cbn [mbind option_bind]. pose proof (Z.mod_pos_bound (sf_widx x) (P * 16) ltac:(lia)) as Hm.
  rewrite arr_set_eq by lia. cbn [mbind option_bind]. do 2 eexists. split; [done|].
  apply with_fifo_inv; [done|].
  assert (u64 (u64 (sf_widx x + 1) - sf_ridx x) = u64 (sf_widx x - sf_ridx x) + 1) as En.
  { unfold wrapu in *. rewrite Zminus_mod_idemp_l. replace (sf_widx x + 1 - sf_ridx x) with (sf_widx x - sf_ridx x + 1) by lia.
    rewrite <- (Zplus_mod_idemp_l (sf_widx x - sf_ridx x)). apply Z.mod_small. pose proof (Z.mod_pos_bound (sf_widx x - sf_ridx x) (2 ^ 64)). lia. }
  split; cbn [sf_widx sf_ridx sf_cells]; unfold FRCORE_CORE_FIFO_NUM.
  - apply wrapu_range. lia.
  - done.
  - by rewrite length_insert.
  - rewrite En. lia.
  - by apply Forall_insert.
  - destruct Hfu as [Hfu|[Hrw Hfu]].
    { left. by apply Forall_insert; [|eexists]. }
    rewrite (wrapu_id 64 (sf_widx x - sf_ridx x)) in Hroom by lia.
    destruct (Z.eq_dec (sf_widx x) (P * 16)) as [Efull|Hne].
    + left. apply Forall_insert; [|by eexists]. apply Forall_lookup. intros i y Hy.
      pose proof (lookup_lt_Some _ _ _ Hy). destruct (Hfu i ltac:(lia)) as [c' Ec']. rewrite Hy in Ec'. injection Ec' as ->. by eexists.
    + right. rewrite wrapu_id by lia. split; [lia|]. intros i Hi. rewrite Z.mod_small by lia.
      destruct (decide (i = Z.to_nat (sf_widx x))) as [->|Hni].
      * exists c. apply list_lookup_insert_eq. lia.
      * rewrite list_lookup_insert_ne by done. apply Hfu. lia.
Qed.

(** ** The channel as packing sees it *)
#[export] Instance ssn_chan_laws : SsnSinkLaws ssn_sys (H := ssn_chan_sink N P B) sys_inv.
Proof using HN HP HPB HPN HB.
  split.
  - intros f s Hs. cbn [frcore_ssn_get_one_block_addr ssn_chan_sink]. unfold ssn_get_one_block_addr.
    destruct (avail_get_inv s Hs) as (rv & buff & s' & -> & M & Hb). cbn [mbind option_bind].
    pose proof (moves_inv _ _ Hs M) as H'. destruct (Z.eqb_spec rv 0) as [E|E].
    + destruct (Hb E) as (b & -> & Hb'). change (arr_get [b] 0) with (Some b). cbn [mbind option_bind].
      do 3 eexists. split; [done|]. by split.
    + do 3 eexists. split; [done|]. by split.
  - intros i c s Hs Hc. cbn [frcore_forward_ssn_pkt_to_fifo ssn_chan_sink]. unfold forward_ssn_pkt_to_fifo.
    destruct (fifo_add_inv (Z.to_nat (i `mod` FRC_SSN_FIFO_NUM)) c s Hs) as (rv & s' & -> & H'); [|done|].
    { pose proof (si_num _ Hs). unfold FRC_SSN_FIFO_NUM in *. pose proof (Z.mod_pos_bound i 50). lia. }
    cbn [mbind option_bind]. destruct (rv =? 0); do 2 eexists; (split; [done|]); destruct H'; by split.
Qed.
End inv.
