(* ===== verification/SsnDeliver.v ===== *)
(** * The session channel: what it takes it delivers

    While every transfer succeeds, the cells a FIFO took are copied to the host in the
    order they were queued, and the completed ring has the blocks whose header was
    among them. *)

From stdpp Require Import list functions.
From S2P Require Import Prelude Bytes Ring Dma Chan ChanMem SsnBlock SsnBlockProps SsnChan SsnChanProps.
#[local] Open Scope Z_scope.

(** The blocks closed by a list of cells. *)
Definition heads (cs : list ssn_cell) : list Z := omap (fun c => match c with Head b _ => Some b | _ => None end) cs.

Lemma heads_app a b : heads (a ++ b) = heads a ++ heads b.
Proof. apply omap_app. Qed.

Lemma cells_writes_app a b : cells_writes (a ++ b) = cells_writes a ++ cells_writes b.
Proof. unfold cells_writes. by rewrite map_app, concat_app. Qed.

Abbreviation mem s := (host_mem (ss_host s)).

(** Only memory and statistics have changed. *)
Definition wrote (s s' : ssn_sys) (m : Z -> Z) : Prop :=
  exists st, s' = SsnSys (set_mem m (ss_host s)) (ss_chan s) (ss_fifos s) (ss_script s) (ss_freed s) st.

Lemma wrote_stat c v s : wrote s (SSN_CHAN_STAT_ADD c v s) (mem s).
Proof. unfold wrote. destruct s as [[] ? ? ? ? ?]. by eexists. Qed.

Lemma wrote_trans s1 s2 s3 m m' : wrote s1 s2 m -> wrote s2 s3 m' -> wrote s1 s3 m'.
Proof. intros [st ->] [st' ->]. by eexists. Qed.

Lemma wrote_mem s s' m : wrote s s' m -> mem s' = m.
Proof. by intros [st ->]. Qed.

Lemma wrote_refl s : wrote s s (mem s).
Proof. unfold wrote. destruct s as [[] ? ? ? ? ?]. by eexists. Qed.

Section clean.
Context (N P B : Z).
Hypothesis HP : 0 < P.
Hypothesis HB : FRC_PAYLOAD_LEN_MAX <= B.

(** ** Transfers *)
Lemma clean_dma s : ss_script s = [] -> ssn_next_dma N s = Some ([], s).
Proof. intros E. unfold ssn_next_dma. by rewrite E. Qed.

Lemma clean_gather a n : 0 <= n <= P * 16 -> ssn_gather P B a (n * RING_BUFF_CELL_SIZE) [] = (0, true).
Proof using HP HB.
  intros Hn. unfold ssn_gather, RING_BUFF_CELL_SIZE, FRC_PAYLOAD_LEN_MAX in *. destruct (Z.eq_dec n 0) as [->|Hne]; [done|].
  assert (0 < n * 8 <= FRCORE_DMA_BUFF_MAX P B) as Hs by (unfold FRCORE_DMA_BUFF_MAX; nia).
  pose proof (gather_single_timely P B HP ltac:(lia) (n * 8) 0 a [] Hs ltac:(constructor)) as H.
  destruct (frcore_dma_gather P B 0 a (n * 8) []) as [[rv ps] os']. destruct H as [[-> ->]|[_ Hc]]; [by rewrite Z.eqb_refl|].
  by destruct Hc.
Qed.

Lemma clean_from old a s ws : ss_script s = [] -> Z.of_nat (length old) <= P * 16 -> ssn_host_read N (ss_host s) a (length old) = Some ws ->
  ssn_copy_from_remote N P B old a s = Some (Some ws, s).
Proof using HP HB.
  intros Es Hn Er. unfold ssn_copy_from_remote. rewrite clean_dma by done. cbn [mbind option_bind].
  rewrite clean_gather by lia. change (0 =? 0) with true. cbv iota. by rewrite Er.
Qed.

Lemma clean_to ws a s h : ss_script s = [] -> Z.of_nat (length ws) <= P * 16 -> ssn_host_write N (ss_host s) a ws = Some h ->
  ssn_copy_to_remote N P B ws a s = Some (FRE_SUCCESS, with_host h s).
Proof using HP HB.
  intros Es Hn Er. unfold ssn_copy_to_remote. rewrite clean_dma by done. cbn [mbind option_bind].
  rewrite clean_gather by lia. change (0 =? 0) with true. cbv iota. by rewrite Er.
Qed.

Lemma ssn_scatter_clean ps s : ss_script s = [] -> Forall (ptr_ok B) ps -> 1 <= Z.of_nat (length ps) <= P ->
  exists s', ssn_scatter_send N P B ps s = Some (true, s') /\ wrote s s' (foldl mem_write (mem s) ps).
Proof.
  intros Es Hp Hl. unfold ssn_scatter_send. rewrite clean_dma by done. cbn [mbind option_bind].
  pose proof (scatter_rv P B ps [] Hp Hl) as Hrv. destruct (frcore_dma_scatter _ _ _ _) as [[[rv counted] moved] os'].
  destruct Hrv as [[->|?] Hm]; [|done]. destruct (Hm eq_refl) as [-> ->]. change (0 =? 0) with true. cbv iota.
  eexists. split; [done|]. by exists (ss_stats s).
Qed.

Lemma add_pointer_clean p acc s : ss_script s = [] -> acc_ok P B acc -> ptr_ok B p ->
  exists acc' s' m, add_pointer N P B p acc s = Some (Some acc', s') /\ wrote s s' m /\ acc_ok P B acc' /\
    foldl mem_write m acc' = foldl mem_write (mem s) (acc ++ [p]).
Proof using HP.
  intros Es [Ha Hl] Hp. unfold add_pointer.
  assert (Forall (ptr_ok B) (acc ++ [p])) as Ha' by (apply Forall_app; by rewrite Forall_singleton).
  assert (Z.of_nat (length (acc ++ [p])) = Z.of_nat (length acc) + 1) as El by (rewrite length_app; simpl; lia).
  destruct (Z.eqb_spec (Z.of_nat (length (acc ++ [p]))) P) as [E|E].
  - destruct (ssn_scatter_clean (acc ++ [p]) s Es Ha' ltac:(lia)) as (s' & -> & Hw). cbn [mbind option_bind].
    do 3 eexists. split; [done|]. split; [exact Hw|]. split; [split; [done|simpl; lia]|done].
  - do 3 eexists. split; [done|]. split; [apply wrote_refl|]. split; [split; [done|lia]|done].
Qed.

Lemma post_cell_clean c acc s : ss_script s = [] -> acc_ok P B acc -> cell_small c ->
  exists acc' s' m, post_cell N P B (Some c) acc s = Some (Some (acc', heads [c]), s') /\ wrote s s' m /\ acc_ok P B acc' /\
    foldl mem_write m acc' = foldl mem_write (mem s) (acc ++ cell_writes c).
Proof using HP HB.
  intros Es Ha Hc. destruct c as [b h|b i bs io po w]; cbn [post_cell cell_small cell_writes] in *.
  - destruct (add_pointer_clean (u64 (b + FRC_DMA_OFFSET), hdr_bytes h) acc s Es Ha (hdr_ptr_ok B HB _ _ Hc)) as (acc' & s' & m & -> & ? & ? & ?).
    cbn [mbind option_bind]. by do 3 eexists.
  - destruct Hc as [Hi Hl].
    assert (wrote s (payload_stats bs s) (mem s)) as W0.
    { unfold payload_stats, SSN_CHAN_STAT_INC. eapply wrote_trans; [apply (wrote_stat stat_ssn_dma_pkts 1)|]. apply (wrote_stat _ _ (SSN_CHAN_STAT_ADD _ _ _)). }
    destruct (add_pointer_clean (u64 (b + po), bs) acc (payload_stats bs s)) as (acc1 & s1 & m1 & -> & W1 & A1 & F1);
      [done|done|unfold ptr_ok; cbn [snd]; lia|].
    cbn [mbind option_bind]. pose proof (wrote_mem _ _ _ W1) as Em1.
    assert (ss_script s1 = []) as Es1 by (destruct W1 as [? ->]; done).
    destruct (add_pointer_clean (u64 (b + io), info_bytes i) acc1 (SSN_CHAN_STAT_INC stat_ssn_dma_pkt_infos s1)) as (acc2 & s2 & m2 & -> & W2 & A2 & F2);
      [done|done|by apply info_ptr_ok|].
    cbn [mbind option_bind]. exists acc2, s2, m2. split; [done|]. split.
    { eapply wrote_trans; [exact W0|]. eapply wrote_trans; [exact W1|]. eapply wrote_trans; [apply wrote_stat|exact W2]. }
    split; [done|]. rewrite F2. cbn [ss_host SSN_CHAN_STAT_INC SSN_CHAN_STAT_ADD]. rewrite Em1, foldl_app, F1, <- foldl_app.
    by rewrite <- app_assoc.
Qed.

(** The cells of a FIFO from [cur] on. *)
Definition cells_from (x : frcore_ssn_fifo_t) (cur : Z) (cs : list ssn_cell) : Prop :=
  forall (j : nat) c, cs !! j = Some c ->
    arr_get (sf_cells x) (u64 (sf_ridx x + (cur + Z.of_nat j)) `mod` FRCORE_CORE_FIFO_NUM P) = Some (Some c).

Lemma post_loop_clean cs f x cur acc blks s : ss_script s = [] -> ss_fifos s !! f = Some x -> acc_ok P B acc ->
  cells_from x cur cs -> Forall cell_small cs -> (cs = [] -> acc = []) ->
  exists s', ssn_post_loop N P B (length cs) f cur acc blks s = Some (cur + Z.of_nat (length cs), blks ++ heads cs, s') /\
    wrote s s' (foldl mem_write (mem s) (acc ++ cells_writes cs)).
Proof using HP HB.
  revert cur acc blks s. induction cs as [|c cs IH]; intros cur acc blks s Es Hx Ha Hq Hc Hnil; cbn [length ssn_post_loop].
  { rewrite Hnil by done. exists s. rewrite Z.add_0_r, app_nil_r. split; [done|]. apply wrote_refl. }
  rewrite Hx. cbn [mbind option_bind]. unfold umod, FRCORE_CORE_FIFO_NUM. rewrite (proj2 (Z.eqb_neq _ 0)) by lia. cbn [mbind option_bind].
  pose proof (Hq 0%nat c eq_refl) as E0. rewrite Z.add_0_r in E0. unfold FRCORE_CORE_FIFO_NUM in E0. rewrite E0. cbn [mbind option_bind].
  apply Forall_cons in Hc as [Hc Hcs].
  destruct (post_cell_clean c acc s Es Ha Hc) as (acc1 & s1 & m1 & -> & W1 & A1 & F1). cbn [mbind option_bind].
  assert (ss_script s1 = [] /\ ss_fifos s1 !! f = Some x) as [Es1 Hx1] by (destruct W1 as [? ->]; done).
  pose proof (wrote_mem _ _ _ W1) as Em1.
  assert (cells_from x (cur + 1) cs) as Hq1.
  { intros j c' Hj. rewrite <- (Hq (S j) c' Hj). do 3 f_equal. lia. }
  assert (forall acc2 s2 m2, wrote s1 s2 m2 -> acc_ok P B acc2 -> (cs = [] -> acc2 = []) ->
    foldl mem_write m2 acc2 = foldl mem_write m1 acc1 ->
    exists s', ssn_post_loop N P B (length cs) f (cur + 1) acc2 (blks ++ heads [c]) s2 =
      Some (cur + Z.of_nat (S (length cs)), blks ++ heads (c :: cs), s') /\
      wrote s s' (foldl mem_write (mem s) (acc ++ cells_writes (c :: cs)))) as Hrec.
  { intros acc2 s2 m2 W2 A2 Hn2 F2. destruct (IH (cur + 1) acc2 (blks ++ heads [c]) s2) as (s' & E & W).
    - by destruct W2 as [? ->].
    - by destruct W2 as [? ->].
    - done.
    - done.
    - done.
    - done.
    - exists s'. rewrite E. split.
      + do 2 f_equal. rewrite <- app_assoc, <- heads_app. f_equal. lia.
      + eapply wrote_trans; [exact W1|]. eapply wrote_trans; [exact W2|].
        rewrite foldl_app in W. rewrite (wrote_mem _ _ _ W2), F2, F1 in W.
        change (c :: cs) with ([c] ++ cs). rewrite cells_writes_app, app_assoc, foldl_app.
        unfold cells_writes at 1. cbn [map concat]. by rewrite app_nil_r. }
  destruct ((length cs =? 0)%nat && negb (length acc1 =? 0)%nat) eqn:Ec'.
  - apply andb_true_iff in Ec' as [_ Hne]. apply negb_true_iff, Nat.eqb_neq in Hne. destruct A1 as [Hp1 Hl1].
    destruct (ssn_scatter_clean acc1 s1 Es1 Hp1 ltac:(lia)) as (s2 & -> & W2). cbn [mbind option_bind].
    eapply Hrec; [exact W2|split; [done|simpl; lia]|done|]. cbn [foldl]. by rewrite Em1.
  - eapply Hrec; [apply wrote_refl|done| |by rewrite Em1]. intros ->. simpl in Ec'.
    by apply negb_false_iff, Nat.eqb_eq, nil_length_inv in Ec'.
Qed.

(** ** The rings *)
Hypothesis HN : 0 < N < 2 ^ 60.
Hypothesis HPB : P * 16 <= FRCORE_SSN_AVAIL_BUFF_GET_SIZE.
Hypothesis HPN : P * 16 <= N.

(** A put on the completed ring: only that ring, the indices and statistics change. *)
Lemma compl_put_clean buff s q n : sys_inv N P s -> ss_script s = [] -> holds N (compl_ring (ss_host s)) q n ->
  sc_compl_widx (ss_chan s) = Z.of_nat n -> Z.of_nat n + Z.of_nat (length buff) < 2 ^ 64 ->
  Z.of_nat (length buff) <= P * 16 -> Z.of_nat (length q) + Z.of_nat (length buff) <= N -> Forall word_ok buff ->
  exists r c st, frcore_ssn_chan_compl_put N P B buff s =
      Some (FRE_SUCCESS, SsnSys (set_compl_ring r (ss_host s)) c (ss_fifos s) (ss_script s) (ss_freed s) st) /\
    holds N r (q ++ buff) (n + length buff) /\ sc_compl_widx c = Z.of_nat (n + length buff) /\
    sc_avail_ridx c = sc_avail_ridx (ss_chan s).
Proof using HN HP HB HPB HPN.
  intros Hs Es Hh Hw Hn Hl Hq Hok. unfold frcore_ssn_chan_compl_put. pose proof (si_host _ _ _ Hs) as Hhost.
  destruct (compl_ring (ss_host s)) as [w r b] eqn:Er. pose proof (h_widx _ _ _ _ Hh) as Ew. pose proof (h_ridx _ _ _ _ Hh) as Erx.
  pose proof (h_past _ _ _ _ Hh) as Hpast. pose proof (h_size _ _ _ _ Hh) as Hsz. cbn [m_widx m_ridx m_buff] in Ew, Erx, Hsz.
  assert (ssn_host_read N (ss_host s) (sc_compl_addr (ss_chan s) + FRC_DMA_SSN_COMPL_RIDX_OFFSET) 1 = Some [r]) as Eread.
  { rewrite (si_compl _ _ _ Hs). cbn [ssn_host_read].
    rewrite (word_compl N) by (unfold sizeof_ssn_ring, FRC_DMA_SSN_COMPL_RIDX_OFFSET; lia). by rewrite Er. }
  rewrite (clean_from [sc_compl_ridx (ss_chan s)] _ s [r] Es ltac:(simpl; lia) Eread).
  cbn [mbind option_bind]. change (arr_get [r] 0) with (Some r). cbn [mbind option_bind]. rewrite Hw.
  rewrite (wrapu_id 64 (N - _)), (wrapu_id 64 (Z.of_nat n - r)), (proj2 (Z.ltb_ge _ _)) by lia.
  rewrite (proj2 (Z.leb_le _ _)) by lia. cbn [guard_ub mbind option_bind]. unfold umod. rewrite (proj2 (Z.eqb_neq N 0)) by lia. cbn [mbind option_bind].
  set (offset := Z.of_nat n `mod` N). destruct (ring_room N HN (Z.of_nat n)) as [Ho Hroom]. fold offset in Ho, Hroom. rewrite Hroom.
  set (len1 := if N - offset <? Z.of_nat (length buff) then N - offset else Z.of_nat (length buff)).
  assert (0 <= len1 <= Z.of_nat (length buff) /\ offset + len1 <= N) as Hl1 by (unfold len1; destruct (Z.ltb_spec (N - offset) (Z.of_nat (length buff))); lia).
  set (s2 := with_chan _ s).
  assert (length (take (Z.to_nat len1) buff) = Z.to_nat len1) as Et by (rewrite length_take; lia).
  pose proof (write_cells N HN (ss_host s) offset (take (Z.to_nat len1) buff) Hhost ltac:(lia) ltac:(lia)) as Ew1. rewrite Er in Ew1. cbn [m_widx m_ridx m_buff] in Ew1.
  set (b1 := take (Z.to_nat offset) b ++ take (Z.to_nat len1) buff ++ drop (Z.to_nat offset + length (take (Z.to_nat len1) buff)) b) in Ew1.
  assert (Forall word_ok (take (Z.to_nat len1) buff) /\ Forall word_ok (drop (Z.to_nat len1) buff)) as [Hok1 Hok2] by (split; [by apply Forall_take|by apply Forall_drop]).
  pose proof (holds_write N ltac:(lia) w r b q n (take (Z.to_nat len1) buff) offset Hh ltac:(unfold offset; congruence) ltac:(lia) ltac:(lia) Hok1) as Hh1. fold b1 in Hh1.
  assert (sc_compl_addr (ss_chan s) + FRC_DMA_SSN_COMPL_RING_OFFSET + offset * RING_BUFF_CELL_SIZE = compl_base (ss_host s) + 16 + offset * 8) as Ea
    by (rewrite (si_compl _ _ _ Hs); done).
  rewrite Ea, (clean_to _ _ s2 _) by (first [exact Ew1|done|lia]). cbn [mbind option_bind].
  change (negb (FRE_SUCCESS =? 0)) with false. cbv iota.
  assert (exists b2, (if len1 <? Z.of_nat (length buff)
     then ssn_copy_to_remote N P B (drop (Z.to_nat len1) buff) (sc_compl_addr (ss_chan s) + FRC_DMA_SSN_COMPL_RING_OFFSET) (with_host (set_compl_ring (Ring w r b1) (ss_host s)) s2)
     else Some (FRE_SUCCESS, with_host (set_compl_ring (Ring w r b1) (ss_host s)) s2)) =
     Some (FRE_SUCCESS, with_host (set_compl_ring (Ring w r b2) (ss_host s)) s2) /\
     holds N (Ring (w + Z.of_nat (length buff)) r b2) (q ++ buff) (n + length buff)) as (b2 & -> & Hh2).
  { destruct (Z.ltb_spec len1 (Z.of_nat (length buff))) as [Hlt|Hge].
    - assert (len1 = N - offset) as Elen by (unfold len1 in *; destruct (Z.ltb_spec (N - offset) (Z.of_nat (length buff))); lia).
      assert (length (drop (Z.to_nat len1) buff) = (length buff - Z.to_nat len1)%nat) as Ed by apply length_drop.
      assert (host_inv N (set_compl_ring (Ring w r b1) (ss_host s))) as Hhost1.
      { apply next_compl_ring; [done|]. apply (h_size _ _ _ _ Hh1). }
      pose proof (write_cells N HN (set_compl_ring (Ring w r b1) (ss_host s)) 0 (drop (Z.to_nat len1) buff) Hhost1 ltac:(lia) ltac:(lia)) as Ew2.
      cbn [compl_ring set_compl_ring m_widx m_ridx m_buff compl_base] in Ew2.
      assert ((w + Z.of_nat (length (take (Z.to_nat len1) buff))) `mod` N = 0) as Em0.
      { rewrite Et, Z2Nat.id by lia. rewrite Ew. rewrite Elen. unfold offset.
        replace (Z.of_nat n + (N - Z.of_nat n `mod` N)) with (N * (Z.of_nat n / N + 1)).
        - by rewrite Z.mul_comm, Z_mod_mult.
        - pose proof (Z.div_mod (Z.of_nat n) N ltac:(lia)). lia. }
      pose proof (holds_write N ltac:(lia) _ r b1 _ _ (drop (Z.to_nat len1) buff) 0 Hh1 (eq_sym Em0) ltac:(lia)) as Hh2.
      rewrite length_app, Et, Ed in Hh2. specialize (Hh2 ltac:(lia) Hok2).
      eexists. split.
      + rewrite (si_compl _ _ _ Hs). replace (compl_base (ss_host s) + FRC_DMA_SSN_COMPL_RING_OFFSET) with (compl_base (ss_host s) + 16 + 0 * 8) by (unfold FRC_DMA_SSN_COMPL_RING_OFFSET; lia).
        rewrite (clean_to _ _ (with_host _ s2) _) by (first [exact Ew2|done|lia]). done.
      + rewrite <- app_assoc, take_drop in Hh2.
        replace (n + Z.to_nat len1 + (length buff - Z.to_nat len1))%nat with (n + length buff)%nat in Hh2 by lia.
        replace (w + Z.of_nat (Z.to_nat len1) + Z.of_nat (length buff - Z.to_nat len1)) with (w + Z.of_nat (length buff)) in Hh2 by lia. rewrite Ed. exact Hh2.
    - exists b1. split; [done|]. rewrite Et, (take_ge buff) in Hh1 by lia.
      replace (Z.of_nat (Z.to_nat len1)) with (Z.of_nat (length buff)) in Hh1 by lia. by replace (Z.to_nat len1) with (length buff) in Hh1 by lia. }
  cbn [mbind option_bind]. change (negb (FRE_SUCCESS =? 0)) with false. cbv iota.
  rewrite (wrapu_id 64 (Z.of_nat n + _)) by lia. set (s5 := with_chan _ _).
  pose proof (write_compl_widx N HN (ss_host s5) (sc_compl_addr (ss_chan s)) (Z.of_nat n + Z.of_nat (length buff)) (si_compl _ _ _ Hs)) as Ew5.
  change FRC_DMA_SSN_COMPL_WIDX_OFFSET with 0. rewrite (clean_to _ _ s5 _) by (first [exact Ew5|done|simpl; lia]).
  do 3 eexists. split; [reflexivity|]. cbn [ss_host s5 with_chan with_host SSN_CHAN_STAT_ADD compl_ring set_compl_ring m_ridx m_buff].
  split; [|split; [cbn; lia|done]]. replace (Z.of_nat n + Z.of_nat (length buff)) with (w + Z.of_nat (length buff)) by lia. exact Hh2.
Qed.

(** One block from the available ring. *)
Lemma avail_get_clean s b rest na : sys_inv N P s -> ss_script s = [] -> holds N (avail_ring (ss_host s)) (b :: rest) na ->
  Z.of_nat na < 2 ^ 64 -> sc_avail_ridx (ss_chan s) = m_ridx (avail_ring (ss_host s)) ->
  exists r c st, ssn_get_one_block_addr N P B s =
      Some (FRE_SUCCESS, b, SsnSys (set_avail_ring r (ss_host s)) c (ss_fifos s) (ss_script s) (ss_freed s) st) /\
    holds N r rest na /\ sc_avail_ridx c = m_ridx r /\ sc_compl_widx c = sc_compl_widx (ss_chan s).
Proof using HN HP HB HPB HPN.
  intros Hs Es Hh Hna Hr. unfold ssn_get_one_block_addr, frcore_ssn_chan_avail_get, ssn_avail_fetch. pose proof (si_host _ _ _ Hs) as Hhost.
  destruct (avail_ring (ss_host s)) as [w r bf] eqn:Er. pose proof (h_widx _ _ _ _ Hh) as Ew. pose proof (h_ridx _ _ _ _ Hh) as Erx.
  pose proof (h_past _ _ _ _ Hh) as Hpast. pose proof (h_size _ _ _ _ Hh) as Hsz. cbn [m_widx m_ridx m_buff length] in *.
  assert (ssn_host_read N (ss_host s) (sc_avail_addr (ss_chan s) + FRC_DMA_SSN_AVAIL_WIDX_OFFSET) 1 = Some [w]) as Eread.
  { rewrite (si_avail _ _ _ Hs). cbn [ssn_host_read].
    rewrite (word_avail N) by (first [done|unfold sizeof_ssn_ring, FRC_DMA_SSN_AVAIL_WIDX_OFFSET; lia]). by rewrite Er. }
  rewrite (clean_from [sc_avail_widx (ss_chan s)] _ s [w] Es ltac:(simpl; lia) Eread). cbn [mbind option_bind]. change (arr_get [w] 0) with (Some w). cbn [mbind option_bind].
  rewrite Hr, (wrapu_id 64 (w - r)), (proj2 (Z.ltb_ge _ _)) by lia.
  unfold umod. rewrite (proj2 (Z.eqb_neq N 0)) by lia. cbn [mbind option_bind].
  set (offset := r `mod` N). destruct (ring_room N HN r) as [Ho Hroom]. fold offset in Ho, Hroom.
  unfold ssn_copy_cells. rewrite Hroom, (proj2 (Z.ltb_ge (N - offset) 1)) by lia. cbv zeta. set (s2 := with_chan _ s).
  assert (ssn_host_read N (ss_host s2) (sc_avail_addr (ss_chan s) + FRC_DMA_SSN_AVAIL_RING_OFFSET + offset * RING_BUFF_CELL_SIZE) 1 = Some [b]) as Eread2.
  { rewrite (si_avail _ _ _ Hs). change (ss_host s2) with (ss_host s).
    change FRC_DMA_SSN_AVAIL_RING_OFFSET with 16. change RING_BUFF_CELL_SIZE with 8.
    rewrite (read_cells N HN (ss_host s) offset 1 Hhost) by lia. rewrite Er. cbn [m_buff].
    pose proof (holds_read N ltac:(lia) (Ring w r bf) (b :: rest) na offset 1 Hh eq_refl ltac:(lia) ltac:(simpl; lia)) as Hcell.
    cbn [m_buff] in Hcell. by rewrite Hcell. }
  pose proof (si_buff _ _ _ Hs) as [Hlb _]. destruct (sc_avail_buff (ss_chan s)) as [|b0 bs] eqn:Ebuff; [discriminate Hlb|].
  assert (sc_avail_buff (ss_chan s2) = b0 :: bs) as Ebuff2 by done.
  unfold ssn_copy_part. rewrite Ebuff2. change (arr_read (b0 :: bs) 0 1) with (if 1 <=? Z.of_nat (length (b0 :: bs)) then Some [b0] else None).
  rewrite (proj2 (Z.leb_le _ _)) by (simpl; lia). cbn [mbind option_bind].
  rewrite (clean_from [b0] _ s2 [b] Es ltac:(simpl; lia) Eread2). cbn [mbind option_bind]. rewrite Ebuff2, arr_write_eq by (simpl; lia).
  cbn [mbind option_bind negb]. change (1 <? 1) with false. cbv iota. cbn [mbind option_bind negb].
  rewrite (wrapu_id 64 (r + 1)) by lia. set (s4 := with_chan _ _).
  pose proof (write_avail_ridx N HN (ss_host s4) (sc_avail_addr (ss_chan s)) (r + 1) Hhost (si_avail _ _ _ Hs)) as Ew4.
  change FRC_DMA_SSN_AVAIL_RIDX_OFFSET with 8. rewrite (clean_to _ _ s4 _) by (first [exact Ew4|done|simpl; lia]). cbn [mbind option_bind].
  change (FRE_SUCCESS =? 0) with true. cbv iota. unfold ssn_avail_copy, arr_read.
  change (Z.to_nat 0 + length [b])%nat with 1%nat. change (take (Z.to_nat 0) (b0 :: bs) ++ [b] ++ drop 1 (b0 :: bs)) with (b :: bs) in *.
  change (sc_avail_buff (ss_chan (with_host _ s4))) with (b :: bs).
  rewrite !(proj2 (Z.leb_le _ _)) by (simpl in *; lia). cbn [andb mbind option_bind]. change (take (Z.to_nat 1) (drop (Z.to_nat 0) (b :: bs))) with [b].
  change (arr_get [b] 0) with (Some b). cbn [mbind option_bind].
  do 3 eexists. split; [reflexivity|]. cbn [ss_host s4 with_chan with_host SSN_CHAN_STAT_ADD].
  split; [|split; [|done]].
  - cbn. rewrite Er. apply (holds_drop N ltac:(lia) w r bf (b :: rest) na 1 Hh). simpl. lia.
  - done.
Qed.

Lemma length_heads cs : (length (heads cs) <= length cs)%nat.
Proof.
  induction cs as [|c cs IH]; [done|]. destruct c as [b h|b i bs io po w].
  - change (heads (Head b h :: cs)) with (b :: heads cs). simpl. lia.
  - change (heads (Payload b i bs io po w :: cs)) with (heads cs). simpl. lia.
Qed.

(** A round that posts all that is queued. *)
Lemma last_round k f x cs s q n : sys_inv N P s -> ss_script s = [] -> ss_fifos s !! f = Some x -> cells_from x 0 cs ->
  Forall cell_small cs -> cs <> [] -> Z.of_nat (length cs) <= P * 16 -> holds N (compl_ring (ss_host s)) q n ->
  sc_compl_widx (ss_chan s) = Z.of_nat n -> Z.of_nat n + Z.of_nat (length (heads cs)) < 2 ^ 64 ->
  Z.of_nat (length q) + Z.of_nat (length (heads cs)) <= N -> Forall word_ok (heads cs) ->
  exists r c st, ssn_fifo_post_loop N P B (S (S k)) f (Z.of_nat (length cs)) s =
      Some (with_fifo f (SsnFifo (sf_widx x) (u64 (sf_ridx x + Z.of_nat (length cs))) (sf_cells x))
        (SsnSys (set_compl_ring r (set_mem (foldl mem_write (mem s) (cells_writes cs)) (ss_host s))) c (ss_fifos s) [] (ss_freed s) st)) /\
    holds N r (q ++ heads cs) (n + length (heads cs)) /\ sc_compl_widx c = Z.of_nat (n + length (heads cs)) /\
    sc_avail_ridx c = sc_avail_ridx (ss_chan s).
Proof using HN HP HB HPB HPN.
  intros Hs Es Hx Hc Hsm Hne Hl Hh Hw Hn Hq Hok. assert (0 < length cs)%nat as Hpos by (destruct cs; [done|simpl; lia]).
  cbn [ssn_fifo_post_loop]. rewrite (proj2 (Z.eqb_neq (Z.of_nat (length cs)) 0)) by lia. unfold FRCORE_CHAN_POST_LWM.
  assert ((if Z.of_nat (length cs) <? P * 16 then Z.of_nat (length cs) else P * 16) = Z.of_nat (length cs)) as ->.
  { destruct (Z.ltb_spec (Z.of_nat (length cs)) (P * 16)); lia. }
  unfold frcore_ssn_chan_post_pkt. rewrite Nat2Z.id.
  destruct (post_loop_clean cs f x 0 [] [] s Es Hx ltac:(split; [done|simpl; lia]) Hc Hsm ltac:(done)) as (s1 & E1 & W1).
  rewrite E1. cbn [mbind option_bind app]. rewrite Z.add_0_l, Z.ltb_irrefl.
  destruct W1 as [st1 ->]. match goal with |- context [frcore_ssn_chan_compl_put N P B _ ?s0] => set (s2 := s0) end.
  assert (sys_inv N P s2) as I2 by (destruct Hs as [[] ? ? ? ? ? []]; by repeat split).
  pose proof (length_heads cs) as Hlh.
  destruct (compl_put_clean (heads cs) s2 q n I2 Es Hh Hw) as (r & c & st & E2 & Hh2 & Hw2 & Hr2); [lia|lia|lia|done|].
  rewrite E2. cbn [mbind option_bind]. change (negb (FRE_SUCCESS =? 0)) with false. cbv iota.
  unfold ssn_advance_ridx. cbn [ss_fifos s2 SSN_CHAN_STAT_INC SSN_CHAN_STAT_ADD]. rewrite Hx. cbn [mbind option_bind].
  rewrite Z.sub_diag. cbn [ss_script SSN_CHAN_STAT_INC SSN_CHAN_STAT_ADD s2]. rewrite Es. by exists r, c, st.
Qed.

(** ** A session's FIFO *)
Section fifo.
Variables (f : nat) (m0 : Z -> Z).

(** [posted] has been copied to the host, [queued] waits, [rest] are the free blocks. *)
Record delivering (s : ssn_sys) (posted queued : list ssn_cell) (rest : list Z) : Prop := Delivering {
  dl_inv : sys_inv N P s;
  dl_script : ss_script s = [];
  dl_avail : exists na, Z.of_nat na < 2 ^ 64 /\ holds N (avail_ring (ss_host s)) rest na;
  dl_ridx : sc_avail_ridx (ss_chan s) = m_ridx (avail_ring (ss_host s));
  dl_compl : holds N (compl_ring (ss_host s)) (heads posted) (length (heads posted));
  dl_widx : sc_compl_widx (ss_chan s) = Z.of_nat (length (heads posted));
  dl_mem : mem s = foldl mem_write m0 (cells_writes posted);
  dl_fifo : exists x, ss_fifos s !! f = Some x /\ sf_widx x = Z.of_nat (length posted) + Z.of_nat (length queued) /\
    sf_ridx x = Z.of_nat (length posted) /\ cells_from x 0 queued /\ Z.of_nat (length (sf_cells x)) = FRCORE_CORE_FIFO_NUM P;
  dl_room : Z.of_nat (length queued) <= FRCORE_CORE_FIFO_NUM P;
  dl_small : Forall cell_small queued;
  dl_words : Forall word_ok (heads queued) }.

Lemma get_clean s posted queued b rest : delivering s posted queued (b :: rest) ->
  exists s', ssn_get_one_block_addr N P B s = Some (FRE_SUCCESS, b, s') /\ delivering s' posted queued rest.
Proof using HN HP HB HPB HPN.
  intros [H1 H2 (na & Hna & H3) H4 H5 H6 H7 H8 H9 H10 H11].
  destruct (avail_get_clean s b rest na H1 H2 H3 Hna H4) as (r & c & st & E & Hh & Hr & Hw).
  eexists. split; [exact E|]. assert (sys_inv N P (SsnSys (set_avail_ring r (ss_host s)) c (ss_fifos s) (ss_script s) (ss_freed s) st)) as Hinv.
  { pose proof (get_block_ok (S := ssn_sys) (H := ssn_chan_sink N P B) (SsnSinkLaws := ssn_chan_laws N P B HN HP HPB HPN HB) 0 s H1) as (rv & b' & s' & E' & H' & _).
    cbn [frcore_ssn_get_one_block_addr ssn_chan_sink] in E'. rewrite E in E'. injection E' as _ _ <-. exact H'. }
  split; cbn [ss_host ss_chan ss_fifos ss_script set_avail_ring avail_ring compl_ring host_mem]; try done; [by exists na|congruence].
Qed.

(** Everything queued is posted. *)
Lemma post_clean s posted queued rest flag : delivering s posted queued rest ->
  (if flag : bool then Z.of_nat (length queued) = FRCORE_CORE_FIFO_NUM P else True) ->
  Z.of_nat (length (heads (posted ++ queued))) <= N -> Z.of_nat (length (posted ++ queued)) < 2 ^ 64 ->
  exists s', frcore_ssn_fifo_post N P B f flag s = Some s' /\ delivering s' (posted ++ queued) [] rest.
Proof using HN HP HB HPB HPN.
  intros [H1 H2 H3 H4 H5 H6 H7 (x & Hx & Hw & Hr & Hc & Hlc) H9 H10 H11] Hflag Hroom Hbound. rewrite heads_app, !length_app in *.
  destruct (fifo_post_inv N P B HN HP HPB HPN HB f flag s H1) as (s' & E & Hinv); [by eapply lookup_lt_Some|].
  exists s'. split; [exact E|]. unfold frcore_ssn_fifo_post in E. rewrite Hx in E. cbn [mbind option_bind] in E.
  rewrite Hw, Hr in E. replace (Z.of_nat (length posted) + Z.of_nat (length queued) - Z.of_nat (length posted)) with (Z.of_nat (length queued)) in E by lia.
  rewrite (wrapu_id 64) in E by lia. unfold FRCORE_CHAN_POST_LWM, FRCORE_CORE_FIFO_NUM in *.
  destruct (Z.eq_dec (Z.of_nat (length queued)) 0) as [E0|E0].
  { destruct queued; [|simpl in E0; lia]. rewrite !app_nil_r in *.
    destruct flag; [simpl in Hflag; lia|]. change (Z.of_nat (length (@nil ssn_cell)) =? 0) with true in E. injection E as <-.
    split; try done. by exists x. }
  assert ((if flag then negb (Z.of_nat (length queued) =? P * 16) else Z.of_nat (length queued) =? 0) = false) as Ef.
  { destruct flag; [by rewrite Hflag, Z.eqb_refl|by apply Z.eqb_neq]. }
  rewrite Ef in E. unfold ssn_post_fuel in E. rewrite H2 in E. cbn [length] in E. rewrite Nat.add_0_r, Nat2Z.id in E.
  assert (queued <> []) as Hne by (intros ->; done).
  destruct (last_round (pred (length queued)) f x queued s (heads posted) (length (heads posted)) H1 H2 Hx Hc H10 Hne ltac:(lia) H5 H6)
    as (r & c & st & E2 & Hh2 & Hw2 & Hr2); [pose proof (length_heads posted); pose proof (length_heads queued); lia|lia|done|].
  replace (S (pred (length queued))) with (length queued) in E2 by lia. rewrite E2 in E. injection E as <-.
  split; try done; cbn [ss_host ss_chan ss_fifos ss_script with_fifo set_compl_ring set_mem avail_ring compl_ring host_mem] in *.
  - by rewrite Hr2.
  - rewrite heads_app, length_app. exact Hh2.
  - by rewrite heads_app, length_app.
  - rewrite cells_writes_app, foldl_app, <- H7. done.
  - rewrite list_lookup_insert_eq by (by eapply lookup_lt_Some). eexists. split; [done|]. cbn [sf_widx sf_ridx sf_cells length].
    rewrite Hr, wrapu_id, length_app by lia. split; [lia|]. split; [lia|]. split; [|done]. intros j c' Hj. by rewrite lookup_nil in Hj.
  - simpl. unfold FRCORE_CORE_FIFO_NUM. lia.
Qed.

(** A cell is always taken. *)
Lemma add_clean i s posted queued rest c : Z.to_nat (i `mod` FRC_SSN_FIFO_NUM) = f -> delivering s posted queued rest -> cell_small c ->
  Forall word_ok (heads [c]) ->
  Z.of_nat (length (heads (posted ++ queued))) <= N -> Z.of_nat (length (posted ++ queued)) + 1 < 2 ^ 64 ->
  exists s' posted' queued', forward_ssn_pkt_to_fifo N P B i c s = Some (FRE_SUCCESS, s') /\
    delivering s' posted' queued' rest /\ posted' ++ queued' = posted ++ queued ++ [c].
Proof using HN HP HB HPB HPN.
  intros Hf Hd Hc Hcw Hroom Hbound.
  assert (exists s1 p1 q1, frcore_ssn_fifo_post N P B f true s = Some s1 /\ delivering s1 p1 q1 rest /\
    p1 ++ q1 = posted ++ queued /\ Z.of_nat (length q1) < FRCORE_CORE_FIFO_NUM P) as (s1 & p1 & q1 & E1 & D1 & Eq1 & Hl1).
  { pose proof Hd as [_ _ _ _ _ _ _ (x & Hx & Hw & Hr & _) H9 _ _].
    destruct (Z.eq_dec (Z.of_nat (length queued)) (FRCORE_CORE_FIFO_NUM P)) as [Hfull|Hne].
    - destruct (post_clean s posted queued rest true Hd Hfull Hroom ltac:(lia)) as (s1 & E1 & D1).
      exists s1, (posted ++ queued), []. rewrite app_nil_r. split; [done|]. split; [done|]. split; [done|]. simpl. unfold FRCORE_CORE_FIFO_NUM. lia.
    - exists s, posted, queued. split; [|split; [done|split; [done|lia]]]. unfold frcore_ssn_fifo_post. rewrite Hx. cbn [mbind option_bind].
      rewrite Hw, Hr. replace (Z.of_nat (length posted) + Z.of_nat (length queued) - Z.of_nat (length posted)) with (Z.of_nat (length queued)) by lia.
      rewrite length_app in Hbound. rewrite wrapu_id by lia. unfold FRCORE_CHAN_POST_LWM. unfold FRCORE_CORE_FIFO_NUM in Hne.
      by rewrite (proj2 (Z.eqb_neq _ _)). }
  destruct (fifo_add_inv N P B HN HP HPB HPN HB f c s (dl_inv _ _ _ _ Hd)) as (rv & s2 & E2 & I2); [|done|].
  { destruct (dl_fifo _ _ _ _ Hd) as (x & Hx & _). by eapply lookup_lt_Some. }
  unfold forward_ssn_pkt_to_fifo. rewrite Hf. unfold frcore_ssn_fifo_add in *. rewrite E1 in *. cbn [mbind option_bind] in *.
  destruct D1 as [H1 H2 H3 H4 H5 H6 H7 (x & Hx & Hw & Hr & Hcf & Hlc) H9 H10 H11]. rewrite Hx in *. cbn [mbind option_bind] in *.
  rewrite Hw, Hr in *. rewrite <- Eq1, length_app in Hbound.
  replace (Z.of_nat (length p1) + Z.of_nat (length q1) - Z.of_nat (length p1)) with (Z.of_nat (length q1)) in * by lia.
  rewrite (wrapu_id 64 (Z.of_nat (length q1))), (proj2 (Z.leb_gt _ _)) in * by lia.
  unfold umod in *. rewrite (proj2 (Z.eqb_neq (FRCORE_CORE_FIFO_NUM P) 0)) in * by (unfold FRCORE_CORE_FIFO_NUM; lia). cbn [mbind option_bind] in *.
  assert (exists fr, store_cell c s1 = Some (SsnSys (ss_host s1) (ss_chan s1) (ss_fifos s1) (ss_script s1) fr (ss_stats s1))) as [fr Est].
  { destruct c as [b h|b ii bs io po w]; cbn [store_cell cell_small] in *; [exists (ss_freed s1); by destruct s1|].
    destruct Hc as [_ Hlen]. rewrite (proj2 (Z.leb_le _ _)) by lia. by eexists. }
  rewrite Est in *. cbn [mbind option_bind] in *.
  set (idx := (Z.of_nat (length p1) + Z.of_nat (length q1)) `mod` FRCORE_CORE_FIFO_NUM P) in *.
  pose proof (Z.mod_pos_bound (Z.of_nat (length p1) + Z.of_nat (length q1)) (FRCORE_CORE_FIFO_NUM P) ltac:(unfold FRCORE_CORE_FIFO_NUM; lia)) as Hm. fold idx in Hm.
  rewrite arr_set_eq in * by lia. cbn [mbind option_bind] in *. injection E2 as <- <-.
  change (FRE_SUCCESS =? 0) with true. cbv iota. eexists _, p1, (q1 ++ [c]). split; [done|].
  split; [|by rewrite app_assoc, Eq1, <- app_assoc].
  split; cbn [ss_host ss_chan ss_fifos ss_script with_fifo SSN_CHAN_STAT_INC SSN_CHAN_STAT_ADD]; try done.
  - destruct I2. by split.
  - rewrite list_lookup_insert_eq by (by eapply lookup_lt_Some). eexists. split; [done|]. cbn [sf_widx sf_ridx sf_cells].
    rewrite wrapu_id, length_app by lia. split; [simpl; lia|]. split; [done|]. split; [|by rewrite length_insert].
    intros j c' Hj. cbn [sf_ridx sf_cells]. rewrite Z.add_0_l. assert (j < length (q1 ++ [c]))%nat as Hlt by by eapply lookup_lt_Some.
    rewrite length_app in Hlt. simpl in Hlt. unfold FRCORE_CORE_FIFO_NUM in *. rewrite wrapu_id by lia.
    destruct (decide (j = length q1)) as [->|Hne].
    + rewrite list_lookup_middle in Hj by done. injection Hj as <-.
      apply arr_get_Some. split; [lia|]. fold idx. apply list_lookup_insert_eq. lia.
    + rewrite lookup_app_l in Hj by lia. pose proof (Hcf j c' Hj) as Hcj. rewrite Hr, Z.add_0_l in Hcj. rewrite wrapu_id in Hcj by lia.
      unfold FRCORE_CORE_FIFO_NUM in Hcj. apply arr_get_Some in Hcj as [Hge Hcj]. apply arr_get_Some. split; [lia|].
      rewrite list_lookup_insert_ne; [done|]. intros Heq. apply Z2Nat.inj in Heq; [|lia..].
      apply (mod_ne (P * 16) (Z.of_nat (length p1) + Z.of_nat j) (Z.of_nat (length p1) + Z.of_nat (length q1))); [lia|lia|by symmetry].
  - rewrite length_app. simpl. lia.
  - apply Forall_app. by rewrite Forall_singleton.
  - rewrite heads_app. by apply Forall_app.
Qed.
End fifo.
End clean.
