(* ===== verification/SsnHost.v ===== *)
(** * From segments to the host

    Packing ([SsnBlock]) on the session channel ([SsnChan]): the segments of a session,
    submitted one after the other, reach the host's tool in complete blocks, in order. *)

From stdpp Require Import list functions.
From S2P Require Import Prelude Bytes Ring Dma Chan ChanMem TcpFlow SsnBlock SsnBlockProps.
From S2P Require Import SsnChan SsnChanProps SsnDeliver.
#[local] Open Scope Z_scope.

(** ** Cells of blocks *)
Section cells.
Variables (ssn : ssn_id) (hdr_stack : list Z).

Lemma heads_lay a qs : heads (lay ssn a qs) = [].
Proof. revert a. induction qs as [|q qs IH]; intros a; [done|]. exact (IH _). Qed.

Lemma heads_blocks done : heads (concat (map (block_cells ssn hdr_stack) done)) = map fst done.
Proof.
  induction done as [|d done IH]; [done|]. cbn [map concat]. rewrite heads_app, IH. unfold block_cells.
  rewrite heads_app, heads_lay. done.
Qed.

Lemma length_lay a qs : length (lay ssn a qs) = length qs.
Proof. revert a. induction qs as [|q qs IH]; intros a; [done|]. cbn [lay length]. by rewrite IH. Qed.

Lemma length_blocks done : length (concat (map (block_cells ssn hdr_stack) done)) = (length (concat (map snd done)) + length done)%nat.
Proof.
  induction done as [|d done IH]; [done|]. cbn [map concat length]. rewrite !length_app, IH. unfold block_cells.
  rewrite length_app, length_lay. simpl. lia.
Qed.
End cells.

Lemma room_at a cur q : a = filled (block_addr a) cur -> fits cur -> segment_ok q ->
  (info_offset a <? u64 (payload_offset a + data_len q)) = bool_decide (~ fits (cur ++ [q])).
Proof. intros ->. apply room_test. Qed.

Section ship.
Context (N P B : Z).
Hypothesis HN : 0 < N < 2 ^ 60.
Hypothesis HP : 0 < P.
Hypothesis HPB : P * 16 <= FRCORE_SSN_AVAIL_BUFF_GET_SIZE.
Hypothesis HPN : P * 16 <= N.
Hypothesis HB : FRC_PAYLOAD_LEN_MAX <= B.
Variables (cpu_freq : Z) (ssn : ssn_id) (hdr_stack : list Z) (m0 : Z -> Z) (all : list Z) (total_segments : nat).
Hypothesis Hssn : id_ok ssn.
Hypothesis Hstack : length hdr_stack = 16%nat.
Hypothesis Hall : Forall addr_ok all.
Hypothesis Hnum : Z.of_nat (length all) <= N.
Hypothesis Htotal : Z.of_nat total_segments + N + 2 < 2 ^ 64.

#[local] Abbreviation f := (Z.to_nat (ssn_index ssn `mod` FRC_SSN_FIFO_NUM)).
#[local] Existing Instance ssn_chan_sink.
#[local] Abbreviation sink_inst := (ssn_chan_sink N P B).
#[local] Abbreviation laws := (ssn_chan_laws N P B HN HP HPB HPN HB).
#[local] Abbreviation deliv := (delivering N P f m0).

(** The session's blocks: [done] closed, one current with [cur], [rest] still free. *)
Record shipped (st : pack ssn_sys) (done : list (Z * list tseg_qent)) (cur : list tseg_qent) (rest : list Z) : Prop := Shipped {
  sh_packed : packed ssn hdr_stack st done cur;
  sh_deliv : exists posted queued, deliv (sink st) posted queued rest /\ posted ++ queued = taken st;
  sh_blocks : map fst done ++ (if addr_flag (addr st) =? 0 then [] else [block_addr (addr st)]) ++ rest = all;
  sh_exhaust : ssn_block_exhaust st = 0;
  sh_count : (length (packed_segments done cur) <= total_segments)%nat }.

Lemma shipped_sink st done cur rest : shipped st done cur rest -> sys_inv N P (sink st).
Proof. intros [_ (p & q & Hd & _) _ _ _]. apply Hd. Qed.

(** Room on the rings and in the numbers. *)
Lemma shipped_room st done cur rest : shipped st done cur rest ->
  Z.of_nat (length (heads (taken st))) <= N /\ Z.of_nat (length (taken st)) + 1 < 2 ^ 64.
Proof using Hnum Hstack Htotal.
  intros [Hp _ Hb _ Hc]. rewrite (k_taken _ _ _ _ _ Hp), heads_app, !length_app, heads_blocks, length_blocks.
  apply (f_equal length) in Hb. rewrite !length_app, length_map in Hb. unfold packed_segments in Hc. rewrite length_app in Hc.
  rewrite length_map. destruct (addr_flag (addr st) =? 0); [simpl; lia|]. rewrite heads_lay, length_lay. simpl. lia.
Qed.

(** A cell is taken. *)
Lemma forward_ship st done cur rest c : shipped st done cur rest -> cell_small c -> Forall word_ok (heads [c]) ->
  exists s', frcore_forward_ssn_pkt_to_fifo (SsnSink := sink_inst) (ssn_index ssn) c (sink st) = Some (FRE_SUCCESS, s') /\
    exists posted queued, deliv s' posted queued rest /\ posted ++ queued = taken st ++ [c].
Proof using HN HP HPB HPN HB Hssn Hstack Hnum Htotal cpu_freq.
  intros Hs Hc Hw. destruct (shipped_room _ _ _ _ Hs) as [H1 H2]. destruct Hs as [_ (p & q & Hd & Et) _ _ _].
  rewrite <- Et in H1, H2.
  destruct (add_clean N P B HP HB HN HPB HPN f m0 (ssn_index ssn) (sink st) p q rest c eq_refl Hd Hc Hw H1 H2) as (s' & p' & q' & E & Hd' & Eq).
  exists s'. split; [exact E|]. exists p', q'. split; [exact Hd'|]. by rewrite Eq, <- Et, app_assoc.
Qed.

Lemma block_word b : b ∈ all -> word_ok b.
Proof using Hall.
  intros Hb. rewrite Forall_forall in Hall. specialize (Hall b Hb). clear - Hall. unfold addr_ok, word_ok, FRC_DMA_SSN_BLOCK_SIZE, K in *. lia.
Qed.

(** A block is found. *)
Lemma check_ship st done rest b : shipped st done [] (b :: rest) -> addr_flag (addr st) = 0 ->
  exists st', check_ssn_addr (H := sink_inst) cpu_freq ssn st = Some (FRE_SUCCESS, st') /\ shipped st' done [] rest /\ addr_flag (addr st') <> 0.
Proof using HN HP HPB HPN HB Hssn Hstack.
  intros Hs Hf. destruct (check_spec (H := sink_inst) (H0 := laws) cpu_freq ssn hdr_stack Hssn Hstack st done [] (sh_packed _ _ _ _ Hs) (shipped_sink _ _ _ _ Hs))
    as (rv & st' & E & Hp' & _ & _ & Hf').
  destruct Hs as [Hp (p & q & Hd & Et) Hb He Hc]. destruct (get_clean N P B HP HB HN HPB HPN f m0 _ _ _ _ _ Hd) as (s' & Eg & Hd').
  assert (check_ssn_addr (H := sink_inst) cpu_freq ssn st = Some (FRE_SUCCESS, set_addr (fresh_addr b) (set_ssn_exhaust 0 (ssn_last_display st) (set_sink s' st)))) as E2.
  { unfold check_ssn_addr. rewrite Hf, He. change (0 =? 0) with true. cbv iota. cbn [frcore_ssn_get_one_block_addr ssn_chan_sink]. rewrite Eg. done. }
  rewrite E2 in E. injection E as <- <-. eexists. split; [exact E2|]. split; [|by apply Hf'].
  split; [exact Hp'|by exists p, q| |done|exact Hc]. rewrite Hf in Hb. exact Hb.
Qed.

(** The header of the current block is queued. *)
Lemma head_ship st done cur rest : shipped st done cur rest -> addr_flag (addr st) <> 0 ->
  exists st', submit_head (H := sink_inst) ssn hdr_stack st = Some (FRE_SUCCESS, st') /\
    shipped st' (done ++ [(block_addr (addr st), cur)]) [] rest /\ addr_flag (addr st') = 0.
Proof using HN HP HPB HPN HB Hssn Hstack Hnum Htotal Hall cpu_freq.
  intros Hs Hf. destruct (submit_head_spec (H := sink_inst) (H0 := laws) cpu_freq ssn hdr_stack Hssn Hstack st done cur (sh_packed _ _ _ _ Hs) (shipped_sink _ _ _ _ Hs) Hf)
    as (rv & st' & E & _ & _ & Hrv).
  assert (block_addr (addr st) ∈ all) as Hin.
  { rewrite <- (sh_blocks _ _ _ _ Hs), (proj2 (Z.eqb_neq _ 0)) by done. rewrite !elem_of_app. right. left. apply list_elem_of_singleton. done. }
  destruct (forward_ship st done cur rest (Head (block_addr (addr st)) (block_hdr ssn hdr_stack (addr st))) Hs) as (s' & Ef & p' & q' & Hd' & Et').
  { by apply block_hdr_ok. }
  { apply Forall_singleton. by apply block_word. }
  assert (exists st2, submit_head (H := sink_inst) ssn hdr_stack st = Some (FRE_SUCCESS, st2) /\ sink st2 = s' /\
    taken st2 = taken st ++ [Head (block_addr (addr st)) (block_hdr ssn hdr_stack (addr st))] /\ ssn_block_exhaust st2 = ssn_block_exhaust st) as (st2 & E2 & Es2 & Et2 & Ee2).
  { unfold submit_head, forward_cell. rewrite Ef. cbn [mbind option_bind]. change (FRE_SUCCESS =? 0) with true. cbv iota. by eexists. }
  rewrite E2 in E. injection E as <- <-. exists st2. split; [exact E2|].
  destruct Hrv as [(_ & Hp2 & Hf2)|[? _]]; [|done]. split; [|exact Hf2]. destruct Hs as [Hp _ Hb He Hc].
  split; [exact Hp2|exists p', q'; by rewrite Es2, Et2| |congruence|].
  - rewrite Hf2. change (0 =? 0) with true. cbv iota. rewrite (proj2 (Z.eqb_neq _ 0)) in Hb by done.
    rewrite map_app, <- app_assoc. exact Hb.
  - unfold packed_segments in *. rewrite map_app, concat_app, !length_app in *. simpl. rewrite app_nil_r. lia.
Qed.

(** A segment is queued for which the current block has room. *)
Lemma put_ship st done cur rest q : shipped st done cur rest -> addr_flag (addr st) <> 0 -> segment_ok q -> fits (cur ++ [q]) ->
  (length (packed_segments done cur) < total_segments)%nat ->
  let a := addr st in
  exists st', or_free (work q)
      (forward_cell (H := sink_inst) ssn (Payload (block_addr a) (segment_info ssn q a)
        (take (Z.to_nat (i_payload_len (segment_info ssn q a))) (TcpFlow.data q)) (info_offset a) (payload_offset a) (work q)) st)
      (fun st => Some (FRE_SUCCESS, set_addr (SsnAddr (block_addr a) (head_offset a)
        (u16 (info_offset a - sizeof_frc_dma_pkt_info_t)) (u16 (payload_offset a + data_len q)) (addr_flag a)
        (u64 (payload_len a + data_len q)) (u64 (pkt_num a + 1))) st)) = Some (FRE_SUCCESS, st') /\ shipped st' done (cur ++ [q]) rest.
Proof using HN HP HPB HPN HB Hssn Hstack Hnum Htotal cpu_freq.
  intros Hs Hf Hq Hfit Hlt a.
  destruct (put_segment_spec (H := sink_inst) (H0 := laws) cpu_freq ssn hdr_stack Hssn Hstack st done cur q (sh_packed _ _ _ _ Hs) (shipped_sink _ _ _ _ Hs) Hf Hq Hfit)
    as (rv & st' & E & _ & Hrv). fold a in E.
  set (c := Payload _ _ _ _ _ _) in *.
  destruct (forward_ship st done cur rest c Hs) as (s' & Ef & p' & q' & Hd' & Et').
  { pose proof (payload_cell_small ssn a q Hq) as Hsm. unfold c. replace (take _ (TcpFlow.data q)) with (TcpFlow.data q); [exact Hsm|].
    symmetry. apply take_ge. cbn [segment_info i_payload_len]. unfold segment_ok, FRC_PAYLOAD_LEN_MAX in Hq. unfold wrapu.
    rewrite Z.mod_small by (simpl; lia). unfold data_len. lia. }
  { constructor. }
  assert (exists st2, or_free (work q) (forward_cell (H := sink_inst) ssn c st) (fun st => Some (FRE_SUCCESS, set_addr (SsnAddr (block_addr a) (head_offset a)
        (u16 (info_offset a - sizeof_frc_dma_pkt_info_t)) (u16 (payload_offset a + data_len q)) (addr_flag a)
        (u64 (payload_len a + data_len q)) (u64 (pkt_num a + 1))) st)) = Some (FRE_SUCCESS, st2) /\
      sink st2 = s' /\ taken st2 = taken st ++ [c] /\ ssn_block_exhaust st2 = ssn_block_exhaust st /\
      addr_flag (addr st2) = addr_flag (addr st) /\ block_addr (addr st2) = block_addr (addr st)) as (st2 & E2 & Es2 & Et2 & Ee2 & Ef2 & Eb2).
  { unfold or_free, forward_cell. rewrite Ef. cbn [mbind option_bind]. change (FRE_SUCCESS =? 0) with true. cbv iota. by eexists. }
  rewrite E2 in E. injection E as <- <-. exists st2. split; [exact E2|].
  destruct Hrv as [(_ & Hp2 & _)|[? _]]; [|done]. destruct Hs as [Hp _ Hb He Hc].
  split; [exact Hp2|exists p', q'; by rewrite Es2, Et2|by rewrite Ef2, Eb2|congruence|].
  unfold packed_segments in *. rewrite app_assoc, length_app. simpl. lia.
Qed.

(** ** A session *)
Lemma submit_ship st done cur rest q : shipped st done cur rest -> (1 <= length rest)%nat -> segment_ok q ->
  (length (packed_segments done cur) < total_segments)%nat ->
  exists st' done' cur' rest', sbumit_data_to_fifo (H := sink_inst) cpu_freq ssn hdr_stack q st = Some (FRE_SUCCESS, st') /\
    shipped st' done' cur' rest' /\ packed_segments done' cur' = packed_segments done cur ++ [q] /\
    (length rest <= length rest' + 1)%nat.
Proof using HN HP HPB HPN HB Hssn Hstack Hnum Htotal Hall cpu_freq.
  intros Hs Hr Hq Hlt. destruct rest as [|b rest]; [simpl in Hr; lia|]. unfold sbumit_data_to_fifo.
  assert (forall st1 done1 cur1 rest1, shipped st1 done1 cur1 rest1 -> addr_flag (addr st1) <> 0 -> fits (cur1 ++ [q]) ->
    packed_segments done1 cur1 = packed_segments done cur -> (length rest <= length rest1)%nat ->
    exists st' done' cur' rest', (let a := addr st1 in
      or_free (work q)
      (forward_cell (H := sink_inst) ssn (Payload (block_addr a) (segment_info ssn q a)
        (take (Z.to_nat (i_payload_len (segment_info ssn q a))) (TcpFlow.data q)) (info_offset a) (payload_offset a) (work q)) st1)
      (fun st => Some (FRE_SUCCESS, set_addr (SsnAddr (block_addr a) (head_offset a)
        (u16 (info_offset a - sizeof_frc_dma_pkt_info_t)) (u16 (payload_offset a + data_len q)) (addr_flag a)
        (u64 (payload_len a + data_len q)) (u64 (pkt_num a + 1))) st))) = Some (FRE_SUCCESS, st') /\
      shipped st' done' cur' rest' /\ packed_segments done' cur' = packed_segments done cur ++ [q] /\ (length (b :: rest) <= length rest' + 1)%nat) as Hput.
  { intros st1 done1 cur1 rest1 Hs1 Hf1 Hfit Eseg Hl. destruct (put_ship st1 done1 cur1 rest1 q Hs1 Hf1 Hq Hfit ltac:(congruence)) as (st' & E & Hs').
    exists st', done1, (cur1 ++ [q]), rest1. split; [exact E|]. split; [exact Hs'|]. split; [|simpl; lia].
    unfold packed_segments in *. by rewrite app_assoc, Eseg. }
  destruct (Z.eq_dec (addr_flag (addr st)) 0) as [Hf|Hf].
  - pose proof (k_cur _ _ _ _ _ (sh_packed _ _ _ _ Hs)) as Hcur. rewrite Hf in Hcur. simpl in Hcur. subst cur.
    destruct (check_ship st done rest b Hs Hf) as (st1 & E1 & Hs1 & Hf1). unfold or_free at 1. rewrite E1. cbn [mbind option_bind].
    change (FRE_SUCCESS =? 0) with true. cbv iota.
    pose proof (k_cur _ _ _ _ _ (sh_packed _ _ _ _ Hs1)) as Hc. rewrite (proj2 (Z.eqb_neq _ 0)) in Hc by done. destruct Hc as (Ha & Hfit & _).
    rewrite (room_at _ _ q Ha Hfit Hq), bool_decide_false by (pose proof (fits_one q Hq); tauto).
    unfold or_free at 1. cbn [mbind option_bind]. change (FRE_SUCCESS =? 0) with true. cbv iota.
    apply (Hput st1 done [] rest Hs1 Hf1); [by apply fits_one|done|lia].
  - assert (check_ssn_addr (H := sink_inst) cpu_freq ssn st = Some (FRE_SUCCESS, st)) as E0
      by (unfold check_ssn_addr; by rewrite (proj2 (Z.eqb_neq _ 0))).
    unfold or_free at 1. rewrite E0. cbn [mbind option_bind].
    change (FRE_SUCCESS =? 0) with true. cbv iota.
    pose proof (k_cur _ _ _ _ _ (sh_packed _ _ _ _ Hs)) as Hc. rewrite (proj2 (Z.eqb_neq _ 0)) in Hc by done. destruct Hc as (Ha & Hfit & _).
    rewrite (room_at _ _ q Ha Hfit Hq). case_bool_decide as Hroom.
    + destruct (head_ship st done cur (b :: rest) Hs Hf) as (st1 & E1 & Hs1 & Hf1). rewrite E1. cbn [mbind option_bind].
      change (FRE_SUCCESS =? 0) with true. cbv iota.
      destruct (check_ship st1 _ rest b Hs1 Hf1) as (st2 & E2 & Hs2 & Hf2). rewrite E2. unfold or_free at 1. cbn [mbind option_bind].
      change (FRE_SUCCESS =? 0) with true. cbv iota.
      apply (Hput st2 _ [] rest Hs2 Hf2); [by apply fits_one| |lia].
      unfold packed_segments. rewrite map_app, concat_app. simpl. by rewrite !app_nil_r.
    + unfold or_free at 1. cbn [mbind option_bind]. change (FRE_SUCCESS =? 0) with true. cbv iota.
      apply (Hput st done cur (b :: rest) Hs Hf); [|done|simpl; lia]. destruct (decide (fits (cur ++ [q]))) as [?|Hn]; [done|].
      exfalso. by apply Hroom.
Qed.

Lemma submit_all_ship qs : forall st done cur rest, shipped st done cur rest -> (length qs <= length rest)%nat -> Forall segment_ok qs ->
  (length (packed_segments done cur) + length qs <= total_segments)%nat ->
  exists st' done' cur' rest', submit_all (H := sink_inst) cpu_freq ssn hdr_stack qs st = Some (replicate (length qs) FRE_SUCCESS, st') /\
    shipped st' done' cur' rest' /\ packed_segments done' cur' = packed_segments done cur ++ qs.
Proof using HN HP HPB HPN HB Hssn Hstack Hnum Htotal Hall.
  induction qs as [|q qs IH]; intros st done cur rest Hs Hl Hok Hc; cbn [submit_all length replicate].
  { exists st, done, cur, rest. split; [reflexivity|]. split; [exact Hs|]. by rewrite app_nil_r. }
  apply Forall_cons in Hok as [Hq Hok]. cbn [length] in Hl, Hc.
  destruct (submit_ship st done cur rest q Hs ltac:(lia) Hq ltac:(lia)) as (st1 & done1 & cur1 & rest1 & -> & Hs1 & E1 & Hl1).
  cbn [mbind option_bind].
  destruct (IH st1 done1 cur1 rest1 Hs1 ltac:(lia) Hok ltac:(rewrite E1, length_app; simpl; lia)) as (st' & done' & cur' & rest' & -> & Hs' & E').
  cbn [mbind option_bind]. exists st', done', cur', rest'. split; [done|]. split; [done|]. by rewrite E', E1, <- app_assoc.
Qed.

(** The last header closes the last block. *)
Lemma finish_ship st done cur rest : shipped st done cur rest ->
  exists st' done', sbumit_dma_header_to_fifo (H := sink_inst) ssn hdr_stack st = Some (FRE_SUCCESS, st') /\
    shipped st' done' [] rest /\ addr_flag (addr st') = 0 /\ concat (map snd done') = packed_segments done cur.
Proof using HN HP HPB HPN HB Hssn Hstack Hnum Htotal Hall cpu_freq.
  intros Hs. unfold sbumit_dma_header_to_fifo. destruct (Z.eqb_spec (addr_flag (addr st)) 0) as [Hf|Hf].
  - pose proof (k_cur _ _ _ _ _ (sh_packed _ _ _ _ Hs)) as Hc. rewrite Hf in Hc. simpl in Hc. subst cur. exists st, done.
    split; [reflexivity|]. split; [exact Hs|]. split; [exact Hf|]. unfold packed_segments. by rewrite app_nil_r.
  - destruct (head_ship st done cur rest Hs Hf) as (st' & E & Hs' & Hf'). eexists _, _. split; [exact E|]. split; [exact Hs'|].
    split; [exact Hf'|]. unfold packed_segments. rewrite map_app, concat_app. simpl. by rewrite app_nil_r.
Qed.

(** The timer sends what is left. *)
Lemma timer_ship st done rest : shipped st done [] rest -> addr_flag (addr st) = 0 ->
  exists s', ssn_chan_process N P B f (sink st) = Some s' /\ deliv s' (concat (map (block_cells ssn hdr_stack) done)) [] rest.
Proof using HN HP HPB HPN HB Hssn Hstack Hnum Htotal.
  intros Hs Hf. destruct (shipped_room _ _ _ _ Hs) as [H1 H2]. destruct Hs as [Hp (p & q & Hd & Et) _ _ _]. rewrite <- Et in H1, H2.
  destruct (post_clean N P B HP HB HN HPB HPN f m0 (sink st) p q rest false Hd I H1 ltac:(lia)) as (s' & E & Hd').
  exists s'. split; [exact E|]. rewrite Et, (k_taken _ _ _ _ _ Hp), Hf in Hd'. by rewrite app_nil_r in Hd'.
Qed.
End ship.

(** ** The host's view *)

(** What the host's tool reads in a completed block. *)
Definition tool_reads (ssn : ssn_id) (m : Z -> Z) (d : Z * list tseg_qent) : Prop :=
  let blk := mem_read m (d.1 + FRC_DMA_OFFSET) FRC_DMA_SSN_DATA_SIZE in
  exists h l, pr_ssn_dma_head_get blk = Some h /\
    (h_sip h, h_dip h, h_sport h, h_dport h, h_protocol h) =
      (key_sip ssn, key_dip ssn, key_sp ssn, key_dp ssn, key_proto ssn) /\
    h_pkt_num h = Z.of_nat (length d.2) /\ h_total_paylen h = total d.2 /\
    pr_ssn_pkt_process blk h = Some (l, false) /\
    Forall2 (fun p q => p.2 = TcpFlow.data q /\ i_sequence p.1 = u32 (seq q) /\ i_ack_seq p.1 = u32 (ack_num q) /\
      i_direction p.1 = direction q /\ i_payload_len p.1 = data_len q) l d.2.

(** Blocks that do not overlap. *)
Definition apart (b c : Z) : Prop := b + FRC_DMA_SSN_BLOCK_SIZE <= c \/ c + FRC_DMA_SSN_BLOCK_SIZE <= b.
Definition blocks_apart (bs : list Z) : Prop := ForallOrdPairs apart bs.

Lemma apart_app l1 l2 x y : blocks_apart (l1 ++ l2) -> x ∈ l1 -> y ∈ l2 -> apart x y.
Proof.
  unfold blocks_apart. induction l1 as [|a l1 IH]; [by intros _ ?%not_elem_of_nil|]. cbn [app]. intros H. inversion H as [|? ? Ha Hl]; subst.
  intros [->|Hx]%elem_of_cons Hy; [|by apply IH]. rewrite List.Forall_forall in Ha. apply Ha, list_elem_of_In, elem_of_app. by right.
Qed.

(** Writes of blocks leave another block alone. *)
Lemma blocks_writes_other ssn hdr_stack m done b n o : length hdr_stack = 16%nat ->
  Forall (fun d => fits d.2 /\ Forall segment_ok d.2 /\ 0 <= d.1 /\ d.1 + FRC_DMA_SSN_BLOCK_SIZE <= 2 ^ 64) done ->
  (forall d, d ∈ done -> apart d.1 b) -> 0 <= o -> o + n <= FRC_DMA_SSN_BLOCK_SIZE ->
  mem_read (foldl mem_write m (cells_writes (concat (map (block_cells ssn hdr_stack) done)))) (b + o) n = mem_read m (b + o) n.
Proof.
  intros Hst Hok Hap Ho Hn. apply mem_read_other. induction done as [|d done IH]; [by intros w ?%not_elem_of_nil|].
  apply Forall_cons in Hok as [(Hf & _ & Hd1 & Hd2) Hok]. cbn [map concat]. rewrite cells_writes_app. intros w [Hw|Hw]%elem_of_app.
  - destruct d as [d qs]. cbn [fst snd] in *. pose proof (block_writes_inside ssn hdr_stack d qs w Hst Hf Hd1 Hd2 Hw) as Hin.
    pose proof (Hap (d, qs) ltac:(by left)) as [?|?]; cbn [fst] in *; lia.
  - apply IH; [done| |done]. intros d' Hd'. apply Hap. by right.
Qed.

(** Every block among those written is read back. *)
Lemma all_blocks_read ssn hdr_stack m done : id_ok ssn -> length hdr_stack = 16%nat -> blocks_apart (map fst done) ->
  Forall (fun d => fits d.2 /\ Forall segment_ok d.2 /\ 0 <= d.1 /\ d.1 + FRC_DMA_SSN_BLOCK_SIZE <= 2 ^ 64) done ->
  Forall (tool_reads ssn (foldl mem_write m (cells_writes (concat (map (block_cells ssn hdr_stack) done))))) done.
Proof.
  intros Hid Hst Hap Hok. apply Forall_forall. intros d Hd. apply list_elem_of_split in Hd as (l1 & l2 & ->).
  apply Forall_app in Hok as [_ Hok]. apply Forall_cons in Hok as [(Hf & Hq & Hd1 & Hd2) Hok2].
  rewrite map_app, concat_app, cells_writes_app, foldl_app. cbn [map concat]. rewrite cells_writes_app, foldl_app.
  assert (forall e, e ∈ l2 -> apart e.1 d.1) as Hl2.
  { intros e He. rewrite map_app in Hap. change (map fst (d :: l2)) with ([d.1] ++ map fst l2) in Hap. rewrite app_assoc in Hap.
    destruct (apart_app _ _ d.1 e.1 Hap) as [?|?]; [apply elem_of_app; right; by left| |by right|by left].
    apply list_elem_of_In, in_map, list_elem_of_In, He. }
  unfold tool_reads. rewrite (blocks_writes_other ssn hdr_stack _ l2) by (done || vm_compute; discriminate).
  destruct d as [b qs]. by apply block_roundtrip.
Qed.

(** ** From set-up to the host *)
Section reach.
Context (N P B : Z).
Hypothesis HN : 0 < N < 2 ^ 60.
Hypothesis HP : 4 <= P.
Hypothesis HPB : P * 16 <= FRCORE_SSN_AVAIL_BUFF_GET_SIZE.
Hypothesis HPN : P * 16 <= N.
Hypothesis HB : FRC_PAYLOAD_LEN_MAX <= B.

(** The card before the channel is set up, with a host whose application has returned
    [bs] and taken nothing; no transfer fails and the host does nothing meanwhile. *)
Definition idle_card (h : ssn_host) : ssn_sys :=
  SsnSys h (frcore_ssn_chan_init P).1 (frcore_ssn_chan_init P).2 [] [] (fun _ => 0).

Definition host_ready (h : ssn_host) (bs : list Z) : Prop :=
  host_inv N h /\ (exists n : nat, Z.of_nat n < 2 ^ 64 /\ holds N (avail_ring h) bs n) /\ holds N (compl_ring h) [] 0.

Lemma fifo_init_safe : fifo_safe P (SsnFifo 0 0 (replicate (Z.to_nat (FRCORE_CORE_FIFO_NUM P)) None)).
Proof using HP.
  split; cbn [sf_widx sf_ridx sf_cells]; unfold FRCORE_CORE_FIFO_NUM.
  - lia.
  - lia.
  - rewrite length_replicate. lia.
  - unfold wrapu. rewrite Z.mod_small by (simpl; lia). lia.
  - by apply Forall_replicate.
  - right. split; [lia|]. intros i Hi. simpl in Hi. lia.
Qed.

Lemma setup_delivers h bs desc timers f : host_ready h bs -> d_type desc = FRC_WORK_SSN -> (forall k, timers k = true) ->
  d_avail_addr desc = avail_base h -> d_compl_addr desc = compl_base h -> (f < Z.to_nat FRC_SSN_FIFO_NUM)%nat ->
  exists s, frcore_cmd_setup_ssn_chans N P B true desc timers (idle_card h) = Some (FRE_SUCCESS, s) /\
    delivering N P f (host_mem h) s [] [] bs.
Proof using HN HP HB HPB HPN.
  intros (Hh & (n & Hn & Ha) & Hc) Ht Htm Eav Eco Hf.
  unfold frcore_cmd_setup_ssn_chans. cbn [negb]. rewrite Ht. change (FRC_WORK_SSN >? FRC_WORK_SSN) with false.
  change (negb (FRC_WORK_SSN =? FRC_WORK_SSN)) with false. cbv iota. unfold ssn_next_dma. cbn [ss_script idle_card mbind option_bind].
  assert (frcore_dma_scatter P B ((fun a => DmaPtr 0 a 8) <$> [d_avail_addr desc + FRC_DMA_SSN_AVAIL_WIDX_OFFSET; d_avail_addr desc + FRC_DMA_SSN_AVAIL_RIDX_OFFSET;
      d_compl_addr desc + FRC_DMA_SSN_COMPL_WIDX_OFFSET; d_compl_addr desc + FRC_DMA_SSN_COMPL_RIDX_OFFSET]) [] =
      (0, false, true, [])) as ->.
  { unfold frcore_dma_scatter. cbn [fmap list_fmap length]. rewrite (proj2 (Z.ltb_ge P _)) by (simpl; lia). unfold FRC_PAYLOAD_LEN_MAX in HB.
    assert (forall a, size_bad B (DmaPtr 0 a 8) = false) as Hg by (intros a; unfold size_bad; cbn [p_size]; lia).
    cbn [next_outcome existsb]. rewrite !Hg. done. }
  change (negb (0 =? 0)) with false. cbn [negb]. cbv iota. rewrite Eav, Eco.
  rewrite !(word_avail N), !(word_compl N) by (first [done|unfold sizeof_ssn_ring, FRC_DMA_SSN_AVAIL_WIDX_OFFSET, FRC_DMA_SSN_AVAIL_RIDX_OFFSET,
    FRC_DMA_SSN_COMPL_WIDX_OFFSET, FRC_DMA_SSN_COMPL_RIDX_OFFSET; lia]).
  cbn [ss_host idle_card]. unfold ring_word. cbn [Z.eqb FRC_DMA_SSN_AVAIL_WIDX_OFFSET FRC_DMA_SSN_AVAIL_RIDX_OFFSET FRC_DMA_SSN_COMPL_WIDX_OFFSET FRC_DMA_SSN_COMPL_RIDX_OFFSET mbind option_bind].
  assert (forallb timers (List.seq 0 (Z.to_nat FRC_SSN_FIFO_NUM)) = true) as -> by (apply forallb_forall; auto).
  eexists. split; [reflexivity|]. split; cbn [with_chan ss_host ss_chan ss_fifos ss_script sc_avail_ridx sc_compl_widx idle_card].
  - split; cbn [with_chan ss_host ss_chan ss_fifos ss_script sc_avail_addr sc_compl_addr idle_card frcore_ssn_chan_init snd].
    + exact Hh.
    + done.
    + done.
    + by apply Forall_nil.
    + rewrite length_replicate. done.
    + apply Forall_replicate, fifo_init_safe.
    + unfold buff_ok. cbn [sc_avail_buff frcore_ssn_chan_init fst]. split; [by rewrite length_replicate|]. apply Forall_replicate. unfold addr_ok, FRC_DMA_SSN_BLOCK_SIZE, K. lia.
  - done.
  - by exists n.
  - done.
  - exact Hc.
  - by rewrite (h_widx _ _ _ _ Hc).
  - done.
  - eexists. split; [cbn [frcore_ssn_chan_init snd]; by apply lookup_replicate_2|]. cbn [sf_widx sf_ridx sf_cells].
    split; [done|]. split; [done|]. split; [intros j c' Hj; by rewrite lookup_nil in Hj|]. rewrite length_replicate. unfold FRCORE_CORE_FIFO_NUM. lia.
  - unfold FRCORE_CORE_FIFO_NUM. simpl. lia.
  - done.
  - done.
Qed.

#[local] Existing Instance ssn_chan_sink.

(** The packing state of a core at start, on a channel. *)
Definition fresh_pack (s : ssn_sys) : pack ssn_sys := Pack (SsnAddr 0 0 0 0 0 0 0) 0 0 [] s [] [] (fun _ => 0).

(** From the session table to the host's tool: when the session channel has been set up
    by its command and no transfer fails, every segment of a session is taken, and once the
    session's last header and the FIFO's timer have gone through, the completed ring has the
    addresses of blocks, the first of those the application returned, that hold the segments
    of the session, each once and in order; in each block the tool of the host finds the
    session's addresses, the number of segments, their bytes and their descriptions. *)
Lemma ssn_segments_reach_host h bs desc timers cpu_freq ssn hdr_stack qs :
  host_ready h bs -> d_type desc = FRC_WORK_SSN -> (forall k, timers k = true) ->
  d_avail_addr desc = avail_base h -> d_compl_addr desc = compl_base h ->
  id_ok ssn -> length hdr_stack = 16%nat -> Forall segment_ok qs -> Forall addr_ok bs -> blocks_apart bs ->
  (length qs <= length bs)%nat ->
  let f := Z.to_nat (ssn_index ssn `mod` FRC_SSN_FIFO_NUM) in
  exists s st1 st2 s' blocks, frcore_cmd_setup_ssn_chans N P B true desc timers (idle_card h) = Some (FRE_SUCCESS, s) /\
    submit_all (H := ssn_chan_sink N P B) cpu_freq ssn hdr_stack qs (fresh_pack s) = Some (replicate (length qs) FRE_SUCCESS, st1) /\
    sbumit_dma_header_to_fifo (H := ssn_chan_sink N P B) ssn hdr_stack st1 = Some (FRE_SUCCESS, st2) /\
    ssn_chan_process N P B f (sink st2) = Some s' /\
    concat (map snd blocks) = qs /\ map fst blocks `prefix_of` bs /\
    holds N (compl_ring (ss_host s')) (map fst blocks) (length blocks) /\
    Forall (tool_reads ssn (host_mem (ss_host s'))) blocks.
Proof using HN HP HPB HPN HB.
  intros Hready Ht Htm Eav Eco Hid Hst Hqs Hbs Hap Hl f.
  assert (f < Z.to_nat FRC_SSN_FIFO_NUM)%nat as Hf.
  { unfold f. pose proof (Z.mod_pos_bound (ssn_index ssn) FRC_SSN_FIFO_NUM eq_refl). unfold FRC_SSN_FIFO_NUM in *. lia. }
  destruct (setup_delivers h bs desc timers f Hready Ht Htm Eav Eco Hf) as (s & Es & Hd).
  assert (Z.of_nat (length bs) <= N) as Hnum by (destruct Hready as (_ & (n & _ & Ha) & _); exact (h_room _ _ _ _ Ha)).
  assert (Z.of_nat (length qs) + N + 2 < 2 ^ 64) as Htot by lia.
  assert (0 < P) as HP0 by lia.
  assert (shipped N P ssn hdr_stack (host_mem h) bs (length qs) (fresh_pack s) [] [] bs) as Hs.
  { split; [by split|by exists [], []|done|done|]. unfold packed_segments. simpl. lia. }
  destruct (submit_all_ship N P B HN HP0 HPB HPN HB cpu_freq ssn hdr_stack (host_mem h) bs (length qs) Hid Hst Hbs Hnum Htot qs _ _ _ _ Hs Hl Hqs)
    as (st1 & done1 & cur1 & rest1 & E1 & Hs1 & Eseg); [simpl; lia|].
  destruct (finish_ship N P B HN HP0 HPB HPN HB cpu_freq ssn hdr_stack (host_mem h) bs (length qs) Hid Hst Hbs Hnum Htot _ _ _ _ Hs1)
    as (st2 & blocks & E2 & Hs2 & Hf2 & Eseg2).
  destruct (timer_ship N P B HN HP0 HPB HPN HB ssn hdr_stack (host_mem h) bs (length qs) Hid Hst Hnum Htot _ _ _ Hs2 Hf2) as (s' & E3 & Hd3).
  exists s, st1, st2, s', blocks. split; [exact Es|]. split; [exact E1|]. split; [exact E2|]. split; [exact E3|].
  split; [by rewrite Eseg2, Eseg|]. pose proof (sh_blocks _ _ _ _ _ _ _ _ _ _ _ Hs2) as Hb. rewrite Hf2 in Hb. cbn [Z.eqb app] in Hb.
  split; [exists rest1; by rewrite <- Hb|]. split.
  - pose proof (dl_compl _ _ _ _ _ _ _ _ Hd3) as Hc. rewrite heads_blocks in Hc. by rewrite length_map in Hc.
  - rewrite (dl_mem _ _ _ _ _ _ _ _ Hd3). apply all_blocks_read; [done|done| |exact (k_done _ _ _ _ _ (sh_packed _ _ _ _ _ _ _ _ _ _ _ Hs2))].
    rewrite <- Hb in Hap. unfold blocks_apart in *. clear - Hap. induction (map fst blocks) as [|x l IH]; [constructor|].
    inversion Hap as [|? ? Hx Hl]; subst. constructor; [by apply Forall_app in Hx as [? _]|by apply IH].
Qed.
End reach.

(** ** A host with twelve blocks *)
Definition demo_blocks : list Z := map (fun k => 8192 * (k + 1)) (seqZ 0 12).
Definition demo_ring_size : Z := 400896.
Definition demo_ssn_host : ssn_host :=
  SsnHost 0x10000000 0x20000000 (Ring 12 0 (demo_blocks ++ replicate (Z.to_nat (demo_ring_size - 12)) 0))
    (Ring 0 0 (replicate (Z.to_nat demo_ring_size) 0)) (fun _ => 0) [].
Definition demo_desc : ssn_chan_desc := SsnDesc FRC_WORK_SSN 0x10000000 0x20000000.

Lemma demo_cells : Forall addr_ok demo_blocks.
Proof. repeat constructor; vm_compute; discriminate. Qed.

Lemma demo_host_ready : host_ready demo_ring_size demo_ssn_host demo_blocks.
Proof.
  assert (Z.of_nat (length (demo_blocks ++ replicate (Z.to_nat (demo_ring_size - 12)) 0)) = demo_ring_size) as Hl1.
  { rewrite length_app, length_replicate. change (length demo_blocks) with 12%nat. unfold demo_ring_size. lia. }
  assert (Z.of_nat (length (replicate (Z.to_nat demo_ring_size) 0)) = demo_ring_size) as Hl2 by (rewrite length_replicate; unfold demo_ring_size; lia).
  split; [split|split; [exists 12%nat; split|]]; cbn [demo_ssn_host avail_ring compl_ring m_buff avail_base compl_base].
  - exact Hl1.
  - exact Hl2.
  - apply Forall_app. split; [exact demo_cells|]. apply Forall_replicate. vm_compute. split; discriminate.
  - left. vm_compute. discriminate.
  - done.
  - split; cbn [m_widx m_ridx m_buff].
    + done.
    + done.
    + exact Hl1.
    + vm_compute. discriminate.
    + done.
    + intros i v Hi. assert (i < 12)%nat as Hlt by (apply lookup_lt_Some in Hi; exact Hi).
      change (Z.of_nat 12 - Z.of_nat (length demo_blocks) + Z.of_nat i) with (Z.of_nat i). unfold demo_ring_size.
      rewrite Z.mod_small, Nat2Z.id by lia. by apply lookup_app_l_Some.
    + eapply Forall_impl; [exact demo_cells|]. intros b. unfold addr_ok, word_ok, FRC_DMA_SSN_BLOCK_SIZE, K. lia.
  - split; cbn [m_widx m_ridx m_buff].
    + done.
    + done.
    + exact Hl2.
    + vm_compute. discriminate.
    + done.
    + intros i v Hi. by rewrite lookup_nil in Hi.
    + done.
Qed.
