(* ===== verification/SsnChanThm.v ===== *)
(** * The session channel when transfers fail *)

From stdpp Require Import list functions.
From S2P Require Import Prelude Bytes Ring Dma Chan ChanMem TcpFlow SsnBlock SsnBlockProps.
From S2P Require Import SsnChan SsnChanProps SsnDeliver SsnHost.
#[local] Open Scope Z_scope.

(** ** Any sequence of operations *)

(** What the cores ask of the channel.  A core that takes a free block first fetches its
    address under the lock and copies it from the shared buffer after the lock has been
    released, when other cores may have fetched theirs. *)
Inductive ssn_op : Type := OpFetch | OpCopy | OpAdd (index : Z) (c : ssn_cell) | OpTimer (f : nat).

Definition op_ok (o : ssn_op) : Prop :=
  match o with OpFetch | OpCopy => True | OpAdd _ c => cell_small c | OpTimer f => (f < Z.to_nat FRC_SSN_FIFO_NUM)%nat end.

Section ops.
Context (N P B : Z).

(** The state after an operation, with its answer: the address copied for [OpCopy]; the timer
    has none. *)
Definition ssn_op_do (o : ssn_op) (s : ssn_sys) : option (Z * ssn_sys) :=
  match o with
  | OpFetch => ssn_avail_fetch N P B 1 s
  | OpCopy => buff ← ssn_avail_copy 1 s; b ← arr_get buff 0; Some (b, s)
  | OpAdd i c => forward_ssn_pkt_to_fifo N P B i c s
  | OpTimer f => s ← ssn_chan_process N P B f s; Some (FRE_SUCCESS, s)
  end.

Fixpoint ssn_ops_do (os : list ssn_op) (s : ssn_sys) : option (list Z * ssn_sys) :=
  match os with
  | [] => Some ([], s)
  | o :: os => '(rv, s) ← ssn_op_do o s; '(rvs, s) ← ssn_ops_do os s; Some (rv :: rvs, s)
  end.

Hypothesis HN : 0 < N < 2 ^ 60.
Hypothesis HP : 0 < P.
Hypothesis HPB : P * 16 <= FRCORE_SSN_AVAIL_BUFF_GET_SIZE.
Hypothesis HPN : P * 16 <= N.
Hypothesis HB : FRC_PAYLOAD_LEN_MAX <= B.

Lemma op_inv o s : sys_inv N P s -> op_ok o ->
  exists rv s', ssn_op_do o s = Some (rv, s') /\ sys_inv N P s' /\ (o = OpCopy -> addr_ok rv).
Proof using HN HP HPB HPN HB.
  pose proof (ssn_chan_laws N P B HN HP HPB HPN HB) as L. destruct o as [| |i c|f]; intros Hs Ho; cbn [ssn_op_do].
  - destruct (avail_fetch_inv N P B HN HP HPB HPN 1 s Hs) as (rv & s' & E & M); [unfold FRCORE_SSN_AVAIL_BUFF_GET_SIZE; lia|lia|].
    exists rv, s'. split; [exact E|]. split; [by eapply moves_inv|done].
  - destruct (avail_copy_inv N P HP HPB HPN 1 s Hs) as (buff & -> & El & Ha); [unfold FRCORE_SSN_AVAIL_BUFF_GET_SIZE; lia|].
    destruct buff as [|b buff]; [discriminate El|]. apply Forall_cons in Ha as [Ha _]. by exists b, s.
  - destruct (forward_ok (SsnSinkLaws := L) i c s Hs Ho) as (rv & s' & E & Hs'). by exists rv, s'.
  - destruct (fifo_post_inv N P B HN HP HPB HPN HB f false s Hs) as (s' & E & Hs'); [pose proof (si_num _ _ _ Hs); cbn [op_ok] in Ho; lia|].
    unfold ssn_chan_process. rewrite E. by eexists _, _.
Qed.

End ops.

(** ** A request that fails *)
Section lost.
Context (N P B : Z).
Hypothesis HN : 0 < N < 2 ^ 60.
Hypothesis HP : 0 < P.
Hypothesis HPB : P * 16 <= FRCORE_SSN_AVAIL_BUFF_GET_SIZE.
Hypothesis HPN : P * 16 <= N.
Hypothesis HB : FRC_PAYLOAD_LEN_MAX <= B.

Definition with_script (sc : list (list host_act * outcomes)) (s : ssn_sys) : ssn_sys :=
  SsnSys (ss_host s) (ss_chan s) (ss_fifos s) sc (ss_freed s) (ss_stats s).

(** Only statistics have changed. *)
Definition counted (s s' : ssn_sys) : Prop :=
  exists st, s' = SsnSys (ss_host s) (ss_chan s) (ss_fifos s) (ss_script s) (ss_freed s) st.

Lemma counted_refl s : counted s s. Proof. destruct s. by eexists. Qed.
Lemma counted_stat c v s s' : counted s s' -> counted s (SSN_CHAN_STAT_ADD c v s').
Proof. intros [st ->]. by eexists. Qed.

(** The pointers of a cell while the request has room for two. *)
Lemma post_cell_gathers c acc s : Z.of_nat (length acc) + 2 < P ->
  exists s', post_cell N P B (Some c) acc s = Some (Some (acc ++ cell_writes c, heads [c]), s') /\ counted s s'.
Proof.
  intros Hl. assert (forall p acc s, Z.of_nat (length acc) + 1 < P -> add_pointer N P B p acc s = Some (Some (acc ++ [p]), s)) as Ha.
  { intros p a s0 H0. unfold add_pointer. rewrite (proj2 (Z.eqb_neq _ _)); [done|]. rewrite length_app. simpl. lia. }
  destruct c as [b h|b i bs io po w]; cbn [post_cell cell_writes]; rewrite Ha by lia; cbn [mbind option_bind].
  - exists s. split; [done|apply counted_refl].
  - rewrite Ha by (rewrite length_app; simpl; lia). cbn [mbind option_bind]. rewrite <- app_assoc. eexists. split; [done|].
    unfold payload_stats, SSN_CHAN_STAT_INC. do 3 apply counted_stat. apply counted_refl.
Qed.

Lemma length_cell_writes c : (length (cell_writes c) <= 2)%nat.
Proof. destruct c; simpl; lia. Qed.

Lemma engine_error ps : ((frcore_dma_scatter P B ps [EngineError]).1.1.1 =? 0) = false.
Proof.
  unfold frcore_dma_scatter. destruct (Z.of_nat (length ps) =? 0); [done|]. destruct (P <? _); [done|]. cbn [next_outcome].
  by destruct (existsb _ _).
Qed.

(** The only request of a round fails: all cells but the last count as posted, and the block
    of a header at the end is reported. *)
Lemma post_loop_fails cs c f x cur acc blks s : ss_script s = [([], [EngineError])] -> ss_fifos s !! f = Some x ->
  cells_from P x cur (cs ++ [c]) -> Z.of_nat (length acc) + 2 * Z.of_nat (length cs) + 2 < P ->
  exists s', ssn_post_loop N P B (S (length cs)) f cur acc blks s = Some (cur + Z.of_nat (length cs), blks ++ heads (cs ++ [c]), s') /\
    counted (with_script [] s) s'.
Proof using HP.
  revert cur acc blks s. induction cs as [|d cs IH]; intros cur acc blks s Es Hx Hq Hl; cbn [length];
    [set (n := 0%nat)|set (n := S (length cs))].
  all: cbn [ssn_post_loop]; rewrite Hx; cbn [mbind option_bind]; unfold umod, FRCORE_CORE_FIFO_NUM;
    rewrite (proj2 (Z.eqb_neq (P * 16) 0)) by lia; cbn [mbind option_bind].
  - pose proof (Hq 0%nat c eq_refl) as E0. rewrite Z.add_0_r in E0. unfold FRCORE_CORE_FIFO_NUM in E0. rewrite E0. cbn [mbind option_bind].
    cbn [length] in Hl. destruct (post_cell_gathers c acc s ltac:(lia)) as (s1 & -> & [st ->]). cbn [mbind option_bind].
    assert (length (acc ++ cell_writes c) <> 0)%nat as Hne by (rewrite length_app; destruct c; simpl; lia).
    rewrite (proj2 (Nat.eqb_neq _ _) Hne). cbn [Nat.eqb negb andb].
    unfold ssn_scatter_send, ssn_next_dma. cbn [ss_script]. rewrite Es. cbn [foldM mbind option_bind mret option_ret].
    pose proof (engine_error (map (fun p => DmaPtr 0 p.1 (Z.of_nat (length p.2))) (acc ++ cell_writes c))) as He.
    destruct (frcore_dma_scatter _ _ _ _) as [[[rv cnt] mv] os']. cbn [fst] in He. rewrite He. cbn [mbind option_bind].
    rewrite Z.add_0_r. eexists. split; [done|]. apply counted_stat. destruct cnt; by eexists.
  - pose proof (Hq 0%nat d eq_refl) as E0. rewrite Z.add_0_r in E0. unfold FRCORE_CORE_FIFO_NUM in E0. rewrite E0. cbn [mbind option_bind].
    cbn [length] in Hl. destruct (post_cell_gathers d acc s ltac:(lia)) as (s1 & -> & [st ->]). cbn [mbind option_bind].
    change (n =? 0)%nat with false. cbn [andb]. pose proof (length_cell_writes d) as Hd.
    match goal with |- context [ssn_post_loop N P B n f _ ?a ?b ?s0] => destruct (IH (cur + 1) a b s0 Es Hx) as (s' & E & Hc) end.
    + intros j c' Hj. rewrite <- (Hq (S j) c' Hj). do 3 f_equal. lia.
    + rewrite length_app. lia.
    + fold n in E. rewrite E. exists s'. split.
      * do 2 f_equal. rewrite <- app_assoc, <- heads_app. f_equal. lia.
      * destruct Hc as [st' ->]. by eexists.
Qed.

(** The failed round, up to the next one. *)
Lemma failed_round k f m0 s posted cs b hd rest x : delivering N P f m0 s posted (cs ++ [Head b hd]) rest -> heads cs = [] ->
  2 * Z.of_nat (length cs) + 2 < P -> Z.of_nat (length (heads posted)) + 2 <= N -> Z.of_nat (length posted) + P < 2 ^ 64 ->
  ss_fifos s !! f = Some x ->
  exists s1, ssn_fifo_post_loop N P B (S k) f (Z.of_nat (S (length cs))) (with_script [([], [EngineError])] s) = ssn_fifo_post_loop N P B k f 1 s1 /\
    sys_inv N P s1 /\ ss_script s1 = [] /\ host_mem (ss_host s1) = host_mem (ss_host s) /\
    ss_fifos s1 !! f = Some (SsnFifo (sf_widx x) (Z.of_nat (length posted) + Z.of_nat (length cs)) (sf_cells x)) /\
    holds N (compl_ring (ss_host s1)) (heads posted ++ [b]) (length (heads posted) + 1) /\
    sc_compl_widx (ss_chan s1) = Z.of_nat (length (heads posted) + 1).
Proof using HN HP HPB HPN HB.
  intros [H1 H2 _ _ H5 H6 _ (x0 & Hx0 & Hw & Hr & Hc & _) _ H10 H11] Hcs Hl Hroom Hbound Hx. rewrite Hx in Hx0. injection Hx0 as <-.
  rewrite heads_app, Hcs in H11. rewrite length_app in *. cbn [length] in *.
  cbn [ssn_fifo_post_loop]. rewrite (proj2 (Z.eqb_neq _ 0)) by lia. unfold FRCORE_CHAN_POST_LWM.
  rewrite (proj2 (Z.ltb_lt (Z.of_nat (S (length cs))) (P * 16))) by lia. unfold frcore_ssn_chan_post_pkt. rewrite Nat2Z.id.
  destruct (post_loop_fails cs (Head b hd) f x 0 [] [] (with_script [([], [EngineError])] s) eq_refl Hx Hc) as (s1 & E1 & [st1 ->]); [simpl; lia|].
  rewrite E1. cbn [mbind option_bind app]. rewrite Z.add_0_l, (proj2 (Z.ltb_lt (Z.of_nat (length cs)) _)) by lia.
  rewrite heads_app, Hcs. cbn [app]. change (heads [Head b hd]) with [b].
  match goal with |- context [frcore_ssn_chan_compl_put N P B _ ?s0] => set (s2 := s0) end.
  assert (sys_inv N P s2) as I2 by (destruct H1; by split).
  destruct (compl_put_clean N P B HP HB HN HPB HPN [b] s2 (heads posted) (length (heads posted)) I2 eq_refl H5 H6) as (r & c & st & E2 & Hh2 & Hw2 & _);
    [pose proof (length_heads posted); simpl; lia|simpl; lia|simpl; lia|done|].
  destruct (compl_put_inv N P B HN HPB HPN [b] s2 I2) as (rv & s3 & E3 & M); [unfold FRCORE_CORE_FIFO_NUM; simpl; lia|].
  rewrite E2 in E3. injection E3 as <- <-. pose proof (moves_inv _ _ _ _ I2 M) as I3.
  rewrite E2. cbn [mbind option_bind]. change (negb (FRE_SUCCESS =? 0)) with false. cbv iota.
  unfold ssn_advance_ridx. cbn [ss_fifos s2 SSN_CHAN_STAT_INC SSN_CHAN_STAT_ADD with_script]. rewrite Hx. cbn [mbind option_bind].
  replace (Z.of_nat (S (length cs)) - Z.of_nat (length cs)) with 1 by lia. eexists. split; [reflexivity|]. rewrite Hr, (wrapu_id 64) by lia.
  split; [apply with_fifo_inv; [exact I3|]|].
  - pose proof (proj1 (Forall_lookup _ _) (si_fifos _ _ _ H1) f x Hx) as Hsafe.
    destruct (advance_safe N P HN HP HPB HPN x (Z.of_nat (length cs)) Hsafe) as [Ha _]; [rewrite Hw, Hr, wrapu_id; lia|].
    by rewrite Hr, wrapu_id in Ha by lia.
  - split; [done|]. split; [done|]. split; [cbn; by rewrite list_lookup_insert_eq by (by eapply lookup_lt_Some)|]. by split.
Qed.

(** When the one request of a round fails, the cells before the last count as posted all
    the same: they are never copied.  A header that was the last is copied by the next round,
    and its block's address is put on the completed ring twice, with the segments of the lost
    cells missing from the block. *)
Theorem ssn_failed_post_loses f m0 s posted cs b hd rest : delivering N P f m0 s posted (cs ++ [Head b hd]) rest -> heads cs = [] ->
  2 * Z.of_nat (length cs) + 2 < P -> Z.of_nat (length (heads posted)) + 2 <= N -> Z.of_nat (length posted) + P < 2 ^ 64 ->
  exists s', ssn_chan_process N P B f (with_script [([], [EngineError])] s) = Some s' /\
    host_mem (ss_host s') = mem_write (host_mem (ss_host s)) (u64 (b + FRC_DMA_OFFSET), hdr_bytes hd) /\
    holds N (compl_ring (ss_host s')) (heads posted ++ [b; b]) (length (heads posted) + 2) /\
    exists x, ss_fifos s' !! f = Some x /\ sf_ridx x = sf_widx x.
Proof using HN HP HPB HPN HB.
  intros Hd Hcs Hl Hroom Hbound. pose proof Hd as [_ _ _ _ _ _ _ (x & Hx & Hw & Hr & Hc & _) _ H10 H11].
  unfold ssn_chan_process, frcore_ssn_fifo_post. cbn [with_script ss_fifos]. rewrite Hx. cbn [mbind option_bind]. rewrite Hw, Hr.
  replace (Z.of_nat (length posted) + Z.of_nat (length (cs ++ [Head b hd])) - Z.of_nat (length posted)) with (Z.of_nat (S (length cs)))
    by (rewrite length_app; simpl; lia).
  rewrite (wrapu_id 64), (proj2 (Z.eqb_neq _ 0)) by lia. unfold ssn_post_fuel. rewrite Nat2Z.id.
  destruct (failed_round (S (S (length cs))) f m0 s posted cs b hd rest x Hd Hcs Hl Hroom Hbound Hx) as (s1 & E1 & I1 & Es1 & Em1 & Ef1 & Hh1 & Hw1).
  cbn [ss_script with_script length]. replace (S (S (length cs) + 1))%nat with (S (S (S (length cs)))) by lia. rewrite E1.
  apply Forall_app in H10 as [_ H10]. rewrite heads_app, Hcs in H11. rewrite length_app in Hw. cbn [length] in Hw.
  pose proof (length_heads posted) as Hlh.
  destruct (last_round N P B HP HB HN HPB HPN (length cs) f _ [Head b hd] s1 (heads posted ++ [b]) (length (heads posted) + 1) I1 Es1 Ef1) as (r & c & st & E2 & Hh2 & _);
    [|exact H10|done|simpl; lia|exact Hh1|exact Hw1|simpl; lia|rewrite length_app; simpl; lia|exact H11|].
  - intros j c Hj. destruct j as [|j]; [|destruct j; discriminate Hj]. injection Hj as <-. cbn [sf_ridx sf_cells].
    assert ((cs ++ [Head b hd]) !! length cs = Some (Head b hd)) as E0 by by apply list_lookup_middle.
    rewrite <- (Hc _ _ E0), Hr. do 3 f_equal. simpl. lia.
  - eexists. split; [exact E2|]. cbn [with_fifo ss_host ss_fifos set_compl_ring set_mem host_mem compl_ring sf_widx sf_ridx sf_cells].
    split; [by rewrite Em1|]. split; [by rewrite <- app_assoc, <- Nat.add_assoc in Hh2|].
    rewrite list_lookup_insert_eq by (by eapply lookup_lt_Some). eexists. split; [done|]. cbn [sf_ridx sf_widx]. rewrite wrapu_id by (simpl; lia). simpl. lia.
Qed.
End lost.

(** ** Witnesses: one cell and a header wait in FIFO 5, and transfers fail *)
Definition demo_payload : ssn_cell := Payload 8192 (segment_info demo_ssn (Qent 1 2 3 4 [10; 11; 12] 0) (fresh_addr 8192)) [10; 11; 12] 8160 80 9.
Definition demo_head : dma_hdr := block_hdr demo_ssn (replicate 16 0) (filled 8192 [Qent 1 2 3 4 [10; 11; 12] 0]).

Definition demo_card (script : list (list host_act * outcomes)) : ssn_sys :=
  SsnSys demo_ssn_host (SsnChan 0x10000000 0x20000000 12 0 0 0 (replicate (Z.to_nat FRCORE_SSN_AVAIL_BUFF_GET_SIZE) 0))
    (<[5%nat := SsnFifo 2 0 ([Some demo_payload; Some (Head 8192 demo_head)] ++ replicate 238 None)]> (frcore_ssn_chan_init 15).2)
    script [] (fun _ => 0).

Lemma demo_cells_small : cell_small demo_payload /\ cell_small (Head 8192 demo_head).
Proof.
  split.
  - pose proof (payload_cell_small demo_ssn (fresh_addr 8192) (Qent 1 2 3 4 [10; 11; 12] 0)) as H. apply H.
    unfold segment_ok, data_len, FRC_PAYLOAD_LEN_MAX. simpl. lia.
  - apply block_hdr_ok; [exact demo_ssn_ok|done].
Qed.

Lemma demo_card_inv script : Forall (fun e => Forall act_ok e.1) script -> sys_inv demo_ring_size 15 (demo_card script).
Proof.
  intros Hs. split; cbn [demo_card ss_host ss_chan ss_fifos ss_script sc_avail_addr sc_compl_addr].
  - apply demo_host_ready.
  - done.
  - done.
  - exact Hs.
  - rewrite length_insert. cbn [frcore_ssn_chan_init snd]. by rewrite length_replicate.
  - apply Forall_insert; [apply Forall_replicate, fifo_init_safe; lia|].
    split; cbn [sf_widx sf_ridx sf_cells]; try (vm_compute; (discriminate || (split; [discriminate|reflexivity]) || reflexivity)).
    + constructor; [apply demo_cells_small|]. constructor; [apply demo_cells_small|]. by apply Forall_replicate.
    + right. split; [vm_compute; split; discriminate|]. intros i Hi. change (Z.to_nat 2) with 2%nat in Hi.
      destruct i as [|[|i]]; [by eexists|by eexists|lia].
  - unfold buff_ok. cbn [demo_card ss_chan sc_avail_buff]. split; [by rewrite length_replicate|]. apply Forall_replicate.
    unfold addr_ok, FRC_DMA_SSN_BLOCK_SIZE, K. lia.
Qed.


Lemma demo_delivering : delivering demo_ring_size 15 5 (fun _ => 0) (demo_card []) [] ([demo_payload] ++ [Head 8192 demo_head]) demo_blocks.
Proof.
  pose proof demo_host_ready as (_ & Ha & Hc).
  split; cbn [demo_card ss_host ss_chan ss_fifos ss_script sc_avail_ridx sc_compl_widx].
  - by apply demo_card_inv.
  - done.
  - exact Ha.
  - done.
  - exact Hc.
  - done.
  - done.
  - eexists. split; [apply list_lookup_insert_eq; cbn [frcore_ssn_chan_init snd]; rewrite length_replicate; vm_compute; lia|].
    split; [done|]. split; [done|]. split; [|done]. intros j c Hj. destruct j as [|[|j]]; [by injection Hj as <-|by injection Hj as <-|destruct j; discriminate Hj].
  - vm_compute. discriminate.
  - repeat constructor; apply demo_cells_small.
  - repeat constructor; vm_compute; discriminate.
Qed.

Lemma ssn_failed_post_loses_witness :
  exists s', ssn_chan_process demo_ring_size 15 8192 5 (with_script [([], [EngineError])] (demo_card [])) = Some s' /\
    host_mem (ss_host s') = mem_write (fun _ => 0) (u64 (8192 + FRC_DMA_OFFSET), hdr_bytes demo_head) /\
    holds demo_ring_size (compl_ring (ss_host s')) ([] ++ [8192; 8192]) (0 + 2) /\
    exists x, ss_fifos s' !! 5%nat = Some x /\ sf_ridx x = sf_widx x.
Proof.
  apply (ssn_failed_post_loses demo_ring_size 15 8192) with (m0 := fun _ => 0) (posted := []) (cs := [demo_payload]) (rest := demo_blocks)
    (s := demo_card []).
  - done.
  - done.
  - vm_compute. discriminate.
  - vm_compute. discriminate.
  - vm_compute. discriminate.
  - exact demo_delivering.
  - done.
  - done.
  - vm_compute. discriminate.
  - done.
Defined.

(** Two cores fetch a block each; both copy after both have released the lock: they get the
    same address, and the other block is lost. *)
Example copies_after_unlock_collide :
  (fun r : list Z * ssn_sys => (r.1, m_ridx (avail_ring (ss_host r.2)))) <$>
    ssn_ops_do demo_ring_size 15 8192 [OpFetch; OpFetch; OpCopy; OpCopy] (demo_card []) =
    Some ([FRE_SUCCESS; FRE_SUCCESS; 16384; 16384], 2) /\
  take 2 demo_blocks = [8192; 16384].
Proof. split; vm_compute; reflexivity. Qed.
