(* ===== verification/DrvChan.v ===== *)
(** * The channels in the driver: src/code/frcdrv/frcdrv_chan.c

    The driver allocates the pools and the rings of a channel, puts every block on the
    available ring, tells the card where they are, hands their place to the tool and frees
    them.  The pages come from the kernel ([frcdrv_dma_pool_alloc] of frcdrv_dma.c): what
    each request gives is a parameter; a pointer and its physical address are one number.
    The two kinds of channel, compiled with [FRC_CONFIG_SIMPLE_PACKAGE] and
    [FRC_CONFIG_SSN_CHAN], differ in their rings. *)

From stdpp Require Import list.
From S2P Require Import Prelude Bytes Ring Chan TcpFlow SsnBlock SsnChan FrcList Cmd CmdProps CmdSys.
#[local] Open Scope Z_scope.

(** ** Constants of frc_dma.h *)
Definition FRC_DMA_SIMPLE_PACKAGE_CHAN_POOL_NUM : Z := 10.
Definition FRC_DMA_SIMPLE_PACKAGE_CHAN_NUM : Z := 2.
Definition FRC_DMA_SSN_CHAN_POOL_NUM : Z := FRC_DMA_SSN_RING_BUFF_SIZE / (FRC_DMA_POOL_SIZE / FRC_DMA_SSN_BLOCK_SIZE).
Definition FRC_DMA_SSN_CHAN_NUM : Z := 1.
Definition FRC_WORK_UDP : Z := 0.
Definition FRC_WORK_RULE : Z := 1.
Definition FRC_WORK_MAX : Z := 3.
Definition CTRL_CMD_SETUP_SIMPLE_PACKAGE_CHAN : Z := 4.
Definition CTRL_CMD_SETUP_SSN_CHAN : Z := 5.

(** ** Pages of the kernel *)

(** What the coming requests give, what was given and what was freed. *)
Record kpages : Type := KPages { to_give : list (option Z); given : list Z; kfreed : list Z }.

Definition frcdrv_dma_pool_alloc (k : kpages) : option Z * kpages :=
  match to_give k with
  | Some a :: l => (Some a, KPages l (given k ++ [a]) (kfreed k))
  | None :: l => (None, KPages l (given k) (kfreed k))
  | [] => (None, k)
  end.
Definition frcdrv_dma_pool_free (a : Z) (k : kpages) : kpages := KPages (to_give k) (given k) (kfreed k ++ [a]).

(** ** Pools *)

(** [frc_dma_simple_package_pool_t] and [frc_dma_ssn_pool_t], with the page they are in. *)
Record pool_t : Type := Pool { pool_page : Z; pool_num : Z; pool_addr : list Z }.

(** The loop over the buffers of a pool: the first failure ends it. *)
Fixpoint pool_fill (ids : list Z) (addrs : list Z) (k : kpages) : option (Z * list Z * kpages) :=
  match ids with
  | [] => Some (FRE_SUCCESS, addrs, k)
  | i :: ids =>
    let '(buff, k) := frcdrv_dma_pool_alloc k in
    match buff with
    | None => Some (FRE_MEMORY, addrs, k)
    | Some a => addrs ← arr_set addrs i a; pool_fill ids addrs k
    end
  end.

(** The least and the greatest address of the pool. *)
Definition pool_range (addrs : list Z) (n : Z) : option (Z * Z) :=
  a0 ← arr_get addrs 0;
  foldM (fun '(lo, hi) i => a ← arr_get addrs i; Some (if lo >? a then a else lo, if hi <? a then a else hi)) (seqZ 1 (n - 1)) (a0, a0).

(** The common part of [frcdrv_simple_package_chan_pool_init] and [frcdrv_ssn_chan_pool_init]:
    the code, the pool, and for success the range of the descriptor. *)
Definition chan_pool_init (array_size n : Z) (k : kpages) : option (Z * option pool_t * option (Z * Z) * kpages) :=
  let '(page, k) := frcdrv_dma_pool_alloc k in
  match page with
  | None => Some (FRE_MEMORY, None, None, k)
  | Some p =>
    '(rv, addrs, k) ← pool_fill (seqZ 0 n) (replicate (Z.to_nat array_size) 0) k;
    if negb (rv =? FRE_SUCCESS) then Some (rv, Some (Pool p n addrs), None, k) else
    '(lo, hi) ← pool_range addrs n;
    Some (FRE_SUCCESS, Some (Pool p n addrs), Some (lo, u64 (hi - lo + FRC_DMA_POOL_SIZE)), k)
  end.

(** The blocks of a pool on the available ring, and of all pools. *)
Fixpoint put_blocks (N : Z) (bs : list Z) (r : ring) : option (Z * ring) :=
  match bs with
  | [] => Some (FRE_SUCCESS, r)
  | b :: bs => '(len, r) ← ring_put N LE b r; if len =? 1 then put_blocks N bs r else Some (FRE_INIT, r)
  end.
Definition blocks_of (block_size a : Z) : list Z := (fun i => u64 (a + i * block_size)) <$> seqZ 0 (FRC_DMA_POOL_SIZE / block_size).
Fixpoint put_pools (N block_size : Z) (addrs : list Z) (ids : list Z) (r : ring) : option (Z * ring) :=
  match ids with
  | [] => Some (FRE_SUCCESS, r)
  | id :: ids =>
    a ← arr_get addrs id;
    '(rv, r) ← put_blocks N (blocks_of block_size a) r;
    if rv =? FRE_SUCCESS then put_pools N block_size addrs ids r else Some (rv, r)
  end.

(** The pool's buffers and its page freed. *)
Definition free_pool (p : pool_t) (k : kpages) : option kpages :=
  k ← foldM (fun k i => a ← arr_get (pool_addr p) i; Some (frcdrv_dma_pool_free a k)) (seqZ 0 (pool_num p)) k;
  Some (frcdrv_dma_pool_free (pool_page p) k).

(** A ring cleared by [memset]. *)
Definition cleared_ring (N : Z) : ring := Ring 0 0 (replicate (Z.to_nat N) 0).

(** ** The session channel *)

(** [frc_dma_ssn_chan_desc_t] *)
Record ssn_desc_t : Type := SsnDescT {
  sd_type : Z; sd_avail_addr : Z; sd_avail_size : Z; sd_compl_addr : Z; sd_compl_size : Z; sd_pool_addr : Z; sd_pool_size : Z }.

(** [frc_dma_ssn_chan_t]: the rings with their pages. *)
Record drv_ssn_chan : Type := DrvSsnChan {
  s_desc : ssn_desc_t; s_avail : option (Z * ring); s_compl : option (Z * ring); s_pool : option pool_t }.

(** [frc_dma_chan_desc_t] *)
Record simple_desc_t : Type := SimpleDescT { cd_type : Z; cd_ctrl_addr : Z; cd_ctrl_size : Z; cd_pool_addr : Z; cd_pool_size : Z }.

(** [frc_dma_simple_package_chan_t]: [dma_ctrl] is a page with the available and the
    completed ring. *)
Record drv_simple_chan : Type := DrvSimpleChan { p_desc : simple_desc_t; p_ctrl : option (Z * ring * ring); p_pool : option pool_t }.
(** [frcdrv_dma_simple_package_chans] and [frcdrv_dma_ssn_chans], with the pages of the kernel
    and whether the device is registered. *)
Record drv_chans : Type := DrvChans {
  simple_chans : option (list drv_simple_chan); ssn_chans : option (list drv_ssn_chan); pages : kpages; registered : bool }.

Definition set_simple (l : option (list drv_simple_chan)) (k : kpages) (d : drv_chans) : drv_chans := DrvChans l (ssn_chans d) k (registered d).
Definition set_ssn (l : option (list drv_ssn_chan)) (k : kpages) (d : drv_chans) : drv_chans := DrvChans (simple_chans d) l k (registered d).
Definition set_registered (b : bool) (d : drv_chans) : drv_chans := DrvChans (simple_chans d) (ssn_chans d) (pages d) b.

Definition sizeof_ssn_ring_buff : Z := 16 + 8 * FRC_DMA_SSN_RING_BUFF_SIZE.

Definition frcdrv_ssn_chan_init (kmalloc_ok : bool) (d : drv_chans) : Z * drv_chans :=
  if negb kmalloc_ok then (FRE_MEMORY, set_ssn None (pages d) d) else
  (FRE_SUCCESS, set_ssn (Some [DrvSsnChan (SsnDescT FRC_WORK_SSN 0 0 0 0 0 0) None None None]) (pages d) d).

(** The index of the channel in the array; [None] is the null pointer. *)
Definition frcdrv_ssn_chan_get (chan_id : Z) (d : drv_chans) : option Z :=
  if chan_id >? FRC_WORK_MAX - 1 then None else
  match ssn_chans d with None => None | Some _ => Some (chan_id - FRC_WORK_SSN) end.

Definition frcdrv_ssn_chan_pool_init (c : drv_ssn_chan) (pool_num : Z) (k : kpages) : option (Z * drv_ssn_chan * kpages) :=
  '(rv, p, range, k) ← chan_pool_init FRC_DMA_SSN_CHAN_POOL_NUM pool_num k;
  let d := s_desc c in
  let p := match p with Some _ => p | None => s_pool c end in
  let desc := match range with
    | Some (a, size) => SsnDescT (sd_type d) (sd_avail_addr d) (sd_avail_size d) (sd_compl_addr d) (sd_compl_size d) a size
    | None => d end in
  Some (rv, DrvSsnChan desc (s_avail c) (s_compl c) p, k).

Definition frcdrv_ssn_chan_dma_ctrl_init (c : drv_ssn_chan) (k : kpages) : Z * drv_ssn_chan * kpages :=
  match s_pool c with
  | None => (FRE_INIT, c, k)
  | Some _ =>
    let '(a, k) := frcdrv_dma_pool_alloc k in
    match a with
    | None => (FRE_MEMORY, DrvSsnChan (s_desc c) None (s_compl c) (s_pool c), k)
    | Some a =>
      let d := s_desc c in
      let d := SsnDescT (sd_type d) a sizeof_ssn_ring_buff (sd_compl_addr d) (sd_compl_size d) (sd_pool_addr d) (sd_pool_size d) in
      let avail := Some (a, cleared_ring FRC_DMA_SSN_RING_BUFF_SIZE) in
      let '(b, k) := frcdrv_dma_pool_alloc k in
      match b with
      | None => (FRE_MEMORY, DrvSsnChan d avail None (s_pool c), k)
      | Some b =>
        let d := SsnDescT (sd_type d) a sizeof_ssn_ring_buff b sizeof_ssn_ring_buff (sd_pool_addr d) (sd_pool_size d) in
        (FRE_SUCCESS, DrvSsnChan d avail (Some (b, cleared_ring FRC_DMA_SSN_RING_BUFF_SIZE)) (s_pool c), k)
      end
    end
  end.

Definition frcdrv_ssn_chan_avail_init (c : drv_ssn_chan) : option (Z * drv_ssn_chan) :=
  match s_pool c with
  | None => Some (FRE_INIT, c)
  | Some p =>
    '(a, r) ← s_avail c;
    '(rv, r) ← put_pools FRC_DMA_SSN_RING_BUFF_SIZE FRC_DMA_SSN_BLOCK_SIZE (pool_addr p) (seqZ 0 (pool_num p)) r;
    Some (rv, DrvSsnChan (s_desc c) (Some (a, r)) (s_compl c) (s_pool c))
  end.

Definition frcdrv_ssn_chan_setup (c : drv_ssn_chan) (type pool_num : Z) (k : kpages) : option (Z * drv_ssn_chan * kpages) :=
  if pool_num >? FRC_DMA_SSN_CHAN_POOL_NUM then Some (FRE_PARAM, c, k) else
  '(rv, c, k) ← frcdrv_ssn_chan_pool_init c pool_num k;
  if negb (rv =? 0) then Some (FRE_FAIL, c, k) else
  let '(rv, c, k) := frcdrv_ssn_chan_dma_ctrl_init c k in
  if negb (rv =? 0) then Some (FRE_FAIL, c, k) else
  '(rv, c) ← frcdrv_ssn_chan_avail_init c;
  if negb (rv =? 0) then Some (FRE_FAIL, c, k) else
  let d := s_desc c in
  Some (FRE_SUCCESS, DrvSsnChan (SsnDescT (u32 type) (sd_avail_addr d) (sd_avail_size d) (sd_compl_addr d) (sd_compl_size d) (sd_pool_addr d) (sd_pool_size d))
    (s_avail c) (s_compl c) (s_pool c), k).

(** The descriptor in the host's memory, and the command that sends it. *)
Definition ssn_desc_groups (d : ssn_desc_t) : list fields :=
  (fun v => [(8%nat, v)]) <$> [sd_type d; sd_avail_addr d; sd_avail_size d; sd_compl_addr d; sd_compl_size d; sd_pool_addr d; sd_pool_size d].
Definition frcdrv_ssn_chan_set_core (c : drv_ssn_chan) : call :=
  Call CMD_TYPE_CTRL CTRL_CMD_SETUP_SSN_CHAN 56 (Some (host_bytes (ssn_desc_groups (s_desc c)))) None false.
(** What the card reads of it ([frcore_cmd_setup_ssn_chans]). *)
Definition card_ssn_desc (bs : list Z) : option ssn_chan_desc :=
  t ← card_get bs 0 8; a ← card_get bs 8 8; c ← card_get bs 24 8; Some (SsnDesc t a c).

Definition frcdrv_ssn_chans_free (c : drv_ssn_chan) (k : kpages) : option (drv_ssn_chan * kpages) :=
  k ← match s_pool c with Some p => free_pool p k | None => Some k end;
  let k := match s_avail c with Some (a, _) => frcdrv_dma_pool_free a k | None => k end in
  let k := match s_compl c with Some (a, _) => frcdrv_dma_pool_free a k | None => k end in
  Some (DrvSsnChan (s_desc c) None None None, k).

Definition frcdrv_ssn_chan_destroy (d : drv_chans) : option drv_chans :=
  match ssn_chans d with
  | None => Some d
  | Some l =>
    k ← foldM (fun k i => c ← arr_get l i; '(_, k) ← frcdrv_ssn_chans_free c k; Some k) (seqZ 0 FRC_DMA_SSN_CHAN_NUM) (pages d);
    Some (set_ssn None k d)
  end.

(** [frcdrv_ssn_init] and [frcdrv_ssn_start] of frcdrv_tcp.c *)
Definition frcdrv_ssn_init (d : drv_chans) : option (Z * drv_chans) :=
  match frcdrv_ssn_chan_get FRC_WORK_SSN d with
  | None => Some (FRE_FAIL, d)
  | Some i =>
    l ← ssn_chans d; c ← arr_get l i;
    '(rv, c, k) ← frcdrv_ssn_chan_setup c FRC_WORK_SSN FRC_DMA_SSN_CHAN_POOL_NUM (pages d);
    l ← arr_set l i c;
    Some (if negb (rv =? 0) then FRE_FAIL else FRE_SUCCESS, set_ssn (Some l) k d)
  end.
Definition frcdrv_ssn_start (d : drv_chans) : option (Z + call) :=
  match frcdrv_ssn_chan_get FRC_WORK_SSN d with
  | None => Some (inl FRE_FAIL)
  | Some i => l ← ssn_chans d; c ← arr_get l i; Some (inr (frcdrv_ssn_chan_set_core c))
  end.

(** ** The simple-package channels *)


Definition sizeof_simple_package_ctrl : Z := 2 * (16 + 8 * FRC_DMA_SIMPLE_PACKAGE_RING_BUFF_SIZE).

Definition frcdrv_simple_package_chan_init (kmalloc_ok : bool) (d : drv_chans) : Z * drv_chans :=
  if negb kmalloc_ok then (FRE_MEMORY, set_simple None (pages d) d) else
  let chan t := DrvSimpleChan (SimpleDescT t 0 0 0 0) None None in
  (FRE_SUCCESS, set_simple (Some [chan FRC_WORK_UDP; chan FRC_WORK_RULE]) (pages d) d).

Definition frcdrv_simple_pakcage_chan_get (chan_id : Z) (d : drv_chans) : option Z :=
  if chan_id >=? FRC_DMA_SIMPLE_PACKAGE_CHAN_NUM then None else
  match simple_chans d with None => None | Some _ => Some chan_id end.

Definition frcdrv_simple_package_chan_pool_init (c : drv_simple_chan) (pool_num : Z) (k : kpages) : option (Z * drv_simple_chan * kpages) :=
  '(rv, p, range, k) ← chan_pool_init FRC_DMA_SIMPLE_PACKAGE_CHAN_POOL_NUM pool_num k;
  let d := p_desc c in
  let p := match p with Some _ => p | None => p_pool c end in
  let desc := match range with Some (a, size) => SimpleDescT (cd_type d) (cd_ctrl_addr d) (cd_ctrl_size d) a size | None => d end in
  Some (rv, DrvSimpleChan desc (p_ctrl c) p, k).

Definition frcdrv_simple_package_chan_dma_ctrl_init (c : drv_simple_chan) (k : kpages) : Z * drv_simple_chan * kpages :=
  match p_pool c with
  | None => (FRE_INIT, c, k)
  | Some _ =>
    let '(a, k) := frcdrv_dma_pool_alloc k in
    match a with
    | None => (FRE_MEMORY, DrvSimpleChan (p_desc c) None (p_pool c), k)
    | Some a =>
      let d := p_desc c in let r := cleared_ring FRC_DMA_SIMPLE_PACKAGE_RING_BUFF_SIZE in
      (FRE_SUCCESS, DrvSimpleChan (SimpleDescT (cd_type d) a sizeof_simple_package_ctrl (cd_pool_addr d) (cd_pool_size d)) (Some (a, r, r)) (p_pool c), k)
    end
  end.

Definition frcdrv_simple_package_chan_avail_init (c : drv_simple_chan) : option (Z * drv_simple_chan) :=
  match p_pool c with
  | None => Some (FRE_INIT, c)
  | Some p =>
    '(a, avail, compl) ← p_ctrl c;
    '(rv, avail) ← put_pools FRC_DMA_SIMPLE_PACKAGE_RING_BUFF_SIZE FRC_DMA_SIMPLE_PACKAGE_BLOCK_SIZE (pool_addr p) (seqZ 0 (pool_num p)) avail;
    Some (rv, DrvSimpleChan (p_desc c) (Some (a, avail, compl)) (p_pool c))
  end.

Definition frcdrv_simple_package_chan_setup (c : drv_simple_chan) (type pool_num : Z) (k : kpages) : option (Z * drv_simple_chan * kpages) :=
  if pool_num >? FRC_DMA_SIMPLE_PACKAGE_CHAN_POOL_NUM then Some (FRE_PARAM, c, k) else
  '(rv, c, k) ← frcdrv_simple_package_chan_pool_init c pool_num k;
  if negb (rv =? 0) then Some (FRE_FAIL, c, k) else
  let '(rv, c, k) := frcdrv_simple_package_chan_dma_ctrl_init c k in
  if negb (rv =? 0) then Some (FRE_FAIL, c, k) else
  '(rv, c) ← frcdrv_simple_package_chan_avail_init c;
  if negb (rv =? 0) then Some (FRE_FAIL, c, k) else
  let d := p_desc c in
  Some (FRE_SUCCESS, DrvSimpleChan (SimpleDescT (u32 type) (cd_ctrl_addr d) (cd_ctrl_size d) (cd_pool_addr d) (cd_pool_size d)) (p_ctrl c) (p_pool c), k).

Definition simple_desc_groups (d : simple_desc_t) : list fields :=
  (fun v => [(8%nat, v)]) <$> [cd_type d; cd_ctrl_addr d; cd_ctrl_size d; cd_pool_addr d; cd_pool_size d].
Definition frcdrv_simple_package_chan_set_core (c : drv_simple_chan) : call :=
  Call CMD_TYPE_CTRL CTRL_CMD_SETUP_SIMPLE_PACKAGE_CHAN 40 (Some (host_bytes (simple_desc_groups (p_desc c)))) None false.

Definition frcdrv_simple_package_chans_free (c : drv_simple_chan) (k : kpages) : option (drv_simple_chan * kpages) :=
  k ← match p_pool c with Some p => free_pool p k | None => Some k end;
  let k := match p_ctrl c with Some (a, _, _) => frcdrv_dma_pool_free a k | None => k end in
  Some (DrvSimpleChan (p_desc c) None None, k).

Definition frcdrv_simple_package_chan_destroy (d : drv_chans) : option drv_chans :=
  match simple_chans d with
  | None => Some d
  | Some l =>
    k ← foldM (fun k i => c ← arr_get l i; '(_, k) ← frcdrv_simple_package_chans_free c k; Some k) (seqZ 0 FRC_DMA_SIMPLE_PACKAGE_CHAN_NUM) (pages d);
    Some (set_simple None k d)
  end.

(** [frcdrv_udp_chan_init], [frcdrv_rule_chan_init] and the two starts, for the channel [type]. *)
Definition frcdrv_chan_init (type : Z) (d : drv_chans) : option (Z * drv_chans) :=
  match frcdrv_simple_pakcage_chan_get type d with
  | None => Some (FRE_FAIL, d)
  | Some i =>
    l ← simple_chans d; c ← arr_get l i;
    '(rv, c, k) ← frcdrv_simple_package_chan_setup c type FRC_DMA_SIMPLE_PACKAGE_CHAN_POOL_NUM (pages d);
    l ← arr_set l i c;
    Some (if negb (rv =? 0) then FRE_FAIL else FRE_SUCCESS, set_simple (Some l) k d)
  end.
Definition frcdrv_udp_chan_init := frcdrv_chan_init FRC_WORK_UDP.
Definition frcdrv_rule_chan_init := frcdrv_chan_init FRC_WORK_RULE.

Definition frcdrv_chan_start (type : Z) (d : drv_chans) : option (Z + call) :=
  match frcdrv_simple_pakcage_chan_get type d with
  | None => Some (inl FRE_FAIL)
  | Some i => l ← simple_chans d; c ← arr_get l i; Some (inr (frcdrv_simple_package_chan_set_core c))
  end.
Definition frcdrv_udp_chan_start := frcdrv_chan_start FRC_WORK_UDP.
Definition frcdrv_rule_chan_start := frcdrv_chan_start FRC_WORK_RULE.

(** ** Loading and unloading the driver: [frcdrv_base_init_module], [frcdrv_base_exit_module]

    The configuration with both kinds of channels; [reg] is the return of [register_chrdev]. *)
Definition frcdrv_base_init_module (reg : Z) (kmalloc1 kmalloc2 : bool) (d : drv_chans) : option (Z * drv_chans) :=
  if reg <? 0 then Some (reg, d) else
  let d := set_registered true d in
  let fail d := Some (1, set_registered false d) in
  let '(rv, d) := frcdrv_simple_package_chan_init kmalloc1 d in
  if negb (rv =? 0) then fail d else
  '(rv, d) ← frcdrv_udp_chan_init d;
  if negb (rv =? 0) then fail d else
  '(rv, d) ← frcdrv_rule_chan_init d;
  if negb (rv =? 0) then fail d else
  let '(rv, d) := frcdrv_ssn_chan_init kmalloc2 d in
  if negb (rv =? 0) then fail d else
  '(rv, d) ← frcdrv_ssn_init d;
  if negb (rv =? 0) then fail d else Some (0, d).
Definition frcdrv_base_exit_module (d : drv_chans) : option drv_chans :=
  d ← frcdrv_simple_package_chan_destroy (set_registered false d); frcdrv_ssn_chan_destroy d.

(** ** The requests to the driver itself: src/code/frcdrv/frcdrv_dev.c *)

(** The fields of [frc_ioctl_t] a request of this kind uses; the pointers are the memory of
    the tool from there on. *)
Record drv_ioctl : Type := DrvIoctl { io_rv : Z; io_cmd : Z; io_olen : Z; io_input : list Z; io_output : list Z }.
Definition answer_output (olen : Z) (bs : list Z) (a : drv_ioctl) : option (Z * drv_ioctl) :=
  out ← write_bytes (io_output a) 0 bs; Some (FRE_SUCCESS, DrvIoctl (io_rv a) (io_cmd a) olen (io_input a) out).

Definition ENOTTY : Z := 25.
Definition FEATURE_TCP_SINGLE : Z := 1.
Definition FEATURE_OCT1_NETNIC : Z := 2.
Definition REATURE_LOCK_XMIT : Z := 4.

(** [version] is what [frcdrv_version_get] gives. *)
Definition frcdrv_cmd_get_version (version : list Z) (a : drv_ioctl) : option (Z * drv_ioctl) :=
  if negb (io_olen a =? 4) then Some (FRE_PARAM, a) else answer_output 4 version a.
Definition frcdrv_cmd_get_feature (a : drv_ioctl) : option (Z * drv_ioctl) :=
  if negb (io_olen a =? 8) then Some (FRE_PARAM, a) else
  let feature := Z.lor (Z.lor (Z.shiftl 1 FEATURE_TCP_SINGLE) (Z.shiftl 1 FEATURE_OCT1_NETNIC)) (Z.shiftl 1 REATURE_LOCK_XMIT) in
  answer_output 8 (reverse (be_bytes 8 feature)) a.

(** The length of the answer is checked against both descriptors, whichever is asked for. *)
Definition frcdrv_cmd_pool_and_ring_addr_get (d : drv_chans) (a : drv_ioctl) : option (Z * drv_ioctl) :=
  if negb (io_olen a =? 40) && negb (io_olen a =? 56) then Some (FRE_PARAM, a) else
  tb ← read_bytes (io_input a) 0 8; let type := le_value tb in
  if type >? FRC_WORK_MAX then Some (FRE_PARAM, a) else
  if (type =? FRC_WORK_UDP) || (type =? FRC_WORK_RULE) then
    match simple_chans d with
    | None => Some (FRE_INIT, a)
    | Some l => c ← arr_get l type; answer_output 40 (host_bytes (simple_desc_groups (p_desc c))) a
    end
  else if type =? FRC_WORK_SSN then
    match ssn_chans d with
    | None => Some (FRE_INIT, a)
    | Some l => c ← arr_get l (type - FRC_WORK_SSN); answer_output 56 (host_bytes (ssn_desc_groups (s_desc c))) a
    end
  else Some (FRE_SUCCESS, a).

Definition frcdrv_ioctl_frcdrv (version : list Z) (d : drv_chans) (a : drv_ioctl) : option (Z * drv_ioctl) :=
  '(ret, a) ← (if io_cmd a =? DRV_CMD_GET_VERSION then frcdrv_cmd_get_version version a
    else if io_cmd a =? DRV_CMD_GET_FEATURE then frcdrv_cmd_get_feature a
    else if io_cmd a =? DRV_CMD_GET_POOL_AND_RING_ADDR then frcdrv_cmd_pool_and_ring_addr_get d a
    else Some (- ENOTTY, a));
  Some (0, DrvIoctl (u32 ret) (io_cmd a) (io_olen a) (io_input a) (io_output a)).
