(* ===== verification/DrvChanProps.v ===== *)
(** * The channels in the driver: pools, ranges, rings *)

From stdpp Require Import list.
From S2P Require Import Prelude Bytes Ring Chan TcpFlow SsnBlock SsnChan SsnChanProps SsnHost FrcList Cmd CmdProps CmdSys DrvChan.
#[local] Open Scope Z_scope.

(** ** Allocation *)

Definition with_given (l : list (option Z)) (bs : list Z) (k : kpages) : kpages := KPages l (given k ++ bs) (kfreed k).

Lemma alloc_some a l k : to_give k = Some a :: l -> frcdrv_dma_pool_alloc k = (Some a, with_given l [a] k).
Proof. unfold frcdrv_dma_pool_alloc. by intros ->. Qed.

(** The array after the first [i] buffers. *)
Definition filled_addrs (size i : Z) (bs : list Z) : list Z := bs ++ replicate (Z.to_nat (size - i)) 0.

Lemma pool_fill_all size bs rest got k : to_give k = (Some <$> bs) ++ rest -> Z.of_nat (length got + length bs) <= size ->
  pool_fill (seqZ (Z.of_nat (length got)) (Z.of_nat (length bs))) (filled_addrs size (Z.of_nat (length got)) got) k =
  Some (FRE_SUCCESS, filled_addrs size (Z.of_nat (length got + length bs)) (got ++ bs), with_given rest bs k).
Proof.
  revert got k. induction bs as [|b bs IH]; intros got k Hk Hn.
  - rewrite Nat.add_0_r, app_nil_r. cbn [length]. rewrite seqZ_nil by lia. cbn [pool_fill]. do 2 f_equal. unfold with_given. rewrite app_nil_r.
    destruct k as [t g fr]. cbn in *. by subst.
  - cbn [length] in *. rewrite seqZ_cons by lia. replace (Z.pred (Z.of_nat (S (length bs)))) with (Z.of_nat (length bs)) by lia.
    cbn [pool_fill]. rewrite (alloc_some b ((Some <$> bs) ++ rest)) by (by rewrite Hk).
    assert (length (filled_addrs size (Z.of_nat (length got)) got) = (length got + Z.to_nat (size - Z.of_nat (length got)))%nat) as Hl
      by (unfold filled_addrs; by rewrite length_app, length_replicate).
    rewrite arr_set_eq by lia. cbn [mbind option_bind].
    assert (<[Z.to_nat (Z.of_nat (length got)):=b]> (filled_addrs size (Z.of_nat (length got)) got) =
      filled_addrs size (Z.of_nat (length (got ++ [b]))) (got ++ [b])) as ->.
    { unfold filled_addrs. rewrite Nat2Z.id, insert_app_r_alt, Nat.sub_diag, <- app_assoc by lia. f_equal.
      replace (Z.to_nat (size - Z.of_nat (length got))) with (S (Z.to_nat (size - Z.of_nat (length (got ++ [b])))))
        by (rewrite length_app; simpl; lia). done. }
    replace (Z.succ (Z.of_nat (length got))) with (Z.of_nat (length (got ++ [b]))) by (rewrite length_app; simpl; lia).
    rewrite (IH (got ++ [b]) (with_given ((Some <$> bs) ++ rest) [b] k)) by (first [done|rewrite length_app; simpl; lia]).
    rewrite length_app. cbn [length]. replace (length got + 1 + length bs)%nat with (length got + S (length bs))%nat by lia.
    rewrite <- app_assoc. cbn [app]. unfold with_given. cbn [to_give given kfreed]. by rewrite <- app_assoc.
Qed.

(** ** The range of a pool *)
Lemma pool_range_spec bs pad : bs <> [] ->
  exists lo hi, pool_range (bs ++ pad) (Z.of_nat (length bs)) = Some (lo, hi) /\ lo ∈ bs /\ hi ∈ bs /\ Forall (fun b => lo <= b <= hi) bs.
Proof.
  destruct bs as [|b0 bs]; [done|]. intros _. unfold pool_range. cbn [app length].
  change (arr_get (b0 :: bs ++ pad) 0) with (Some b0). cbn [mbind option_bind].
  replace (Z.of_nat (S (length bs)) - 1) with (Z.of_nat (length bs)) by lia.
  destruct (foldM_ind (fun done '(lo, hi) => lo ∈ (b0 :: take (length done) bs) /\ hi ∈ (b0 :: take (length done) bs) /\
      Forall (fun b => lo <= b <= hi) (b0 :: take (length done) bs))
    (fun '(lo, hi) i => a ← arr_get (b0 :: bs ++ pad) i; Some (if lo >? a then a else lo, if hi <? a then a else hi))
    (seqZ 1 (Z.of_nat (length bs))) (b0, b0)) as ([lo hi] & E & Hlo & Hhi & Hall).
  - cbn [length take]. split; [by left|]. split; [by left|]. repeat constructor; lia.
  - intros dn i rest [lo hi] Hs (Hlo & Hhi & Hall).
    assert (seqZ 1 (Z.of_nat (length bs)) !! length dn = Some i) as Hi by (rewrite Hs; by apply list_lookup_middle).
    apply lookup_seqZ in Hi as [-> Hlt]. destruct (lookup_lt_is_Some_2 bs (length dn)) as [a Ha]; [lia|].
    assert (arr_get (b0 :: bs ++ pad) (1 + Z.of_nat (length dn)) = Some a) as ->.
    { unfold arr_get. rewrite (proj2 (Z.leb_le _ _)) by lia. replace (Z.to_nat (1 + Z.of_nat (length dn))) with (S (length dn)) by lia.
      cbn. by apply lookup_app_l_Some. }
    cbn [mbind option_bind]. eexists. split; [done|]. rewrite length_app. cbn [length]. rewrite Nat.add_1_r, (take_S_r _ _ _ Ha).
    rewrite app_comm_cons, !elem_of_app, !Forall_app, !Forall_singleton, !list_elem_of_singleton, Z.gtb_ltb.
    destruct (Z.ltb_spec a lo), (Z.ltb_spec hi a); repeat split; auto; try lia; eapply Forall_impl; try exact Hall; cbn; lia.
  - exists lo, hi. split; [exact E|]. rewrite length_seqZ, Nat2Z.id, take_ge in * by lia. done.
Qed.

(** ** The available ring *)
Section ring.
Context (N : Z) (HN : 0 < N < 2 ^ 63).

Lemma ring_put_holds b r q n : holds N r q n -> word_ok b -> Z.of_nat (length q) < N -> Z.of_nat n + 1 < 2 ^ 64 ->
  exists r', ring_put N LE b r = Some (1, r') /\ holds N r' (q ++ [b]) (S n).
Proof using HN.
  intros Hh Hb Hl Hn. assert (0 < N < 2 ^ 64) as HN' by lia. apply (holds_iff N HN') in Hh.
  destruct (ring_put_spec N LE HN' b _ _ _ Hh Hb Hn) as (r' & E & Hr). rewrite (proj2 (Z.ltb_lt _ N)) in E, Hr by lia.
  exists r'. split; [exact E|]. by apply (holds_iff N HN').
Qed.

Lemma put_blocks_spec bs r q n : holds N r q n -> Forall word_ok bs -> Z.of_nat (length q + length bs) <= N -> Z.of_nat (n + length bs) < 2 ^ 64 ->
  exists r', put_blocks N bs r = Some (FRE_SUCCESS, r') /\ holds N r' (q ++ bs) (n + length bs).
Proof using HN.
  revert r q n. induction bs as [|b bs IH]; intros r q n Hh Hw Hl Hn.
  { exists r. by rewrite app_nil_r, Nat.add_0_r. }
  apply Forall_cons in Hw as [Hb Hw]. cbn [length] in *.
  destruct (ring_put_holds b r q n Hh Hb) as (r1 & E1 & H1); [lia..|].
  destruct (IH r1 (q ++ [b]) (S n) H1 Hw) as (r' & E & H'); [rewrite length_app; simpl; lia|lia|].
  exists r'. cbn [put_blocks]. rewrite E1. cbn [mbind option_bind]. change (1 =? 1) with true. cbv iota. split; [exact E|].
  rewrite <- app_assoc in H'. by replace (n + S (length bs))%nat with (S n + length bs)%nat by lia.
Qed.

Lemma put_pools_spec block_size bs addrs pad r q n : addrs = pad ++ bs ->
  holds N r q n -> Forall (fun a => Forall word_ok (blocks_of block_size a)) bs ->
  Z.of_nat (length q + length (concat (blocks_of block_size <$> bs))) <= N -> Z.of_nat (n + length (concat (blocks_of block_size <$> bs))) < 2 ^ 64 ->
  forall rest, exists r', put_pools N block_size (addrs ++ rest) (seqZ (Z.of_nat (length pad)) (Z.of_nat (length bs))) r = Some (FRE_SUCCESS, r') /\
    holds N r' (q ++ concat (blocks_of block_size <$> bs)) (n + length (concat (blocks_of block_size <$> bs))).
Proof using HN.
  intros ->. revert pad r q n. induction bs as [|b bs IH]; intros pad r q n Hh Hw Hl Hn rest.
  { exists r. split; [done|]. rewrite fmap_nil. cbn [concat length]. by rewrite app_nil_r, Nat.add_0_r. }
  apply Forall_cons in Hw as [Hb Hw]. rewrite fmap_cons in *. cbn [concat] in *. rewrite length_app in *. cbn [length].
  rewrite seqZ_cons by lia. replace (Z.pred (Z.of_nat (S (length bs)))) with (Z.of_nat (length bs)) by lia. cbn [put_pools].
  assert (arr_get ((pad ++ b :: bs) ++ rest) (Z.of_nat (length pad)) = Some b) as ->.
  { rewrite arr_get_nat, <- app_assoc. apply list_lookup_middle. done. }
  cbn [mbind option_bind]. destruct (put_blocks_spec (blocks_of block_size b) r q n Hh Hb) as (r1 & -> & H1); [lia..|].
  cbn [mbind option_bind]. change (FRE_SUCCESS =? FRE_SUCCESS) with true. cbv iota.
  destruct (IH (pad ++ [b]) r1 (q ++ blocks_of block_size b) (n + length (blocks_of block_size b))%nat H1 Hw) with (rest := rest) as (r' & E & H');
    [rewrite length_app; lia|lia|].
  exists r'. replace ((pad ++ [b]) ++ bs) with (pad ++ b :: bs) in E by (by rewrite <- app_assoc). rewrite length_app in E. cbn [length] in E.
  replace (Z.succ (Z.of_nat (length pad))) with (Z.of_nat (length pad + 1)) by lia. rewrite E. split; [done|].
  rewrite <- app_assoc, <- Nat.add_assoc in H'. exact H'.
Qed.

Lemma cleared_holds : holds N (cleared_ring N) [] 0.
Proof using HN.
  split; try done.
  - unfold cleared_ring. cbn [m_buff]. rewrite length_replicate. lia.
  - simpl. lia.
Qed.
End ring.

(** ** Blocks of pages that do not overlap *)
Definition page_ok (a : Z) : Prop := 0 <= a /\ a + FRC_DMA_POOL_SIZE <= 2 ^ 64.
Definition pages_apart (l : list Z) : Prop := ForallOrdPairs (fun a b => FRC_DMA_POOL_SIZE <= Z.abs (a - b)) l.

Definition ssn_blocks (pools : list Z) : list Z := concat (blocks_of FRC_DMA_SSN_BLOCK_SIZE <$> pools).

Lemma ssn_block_eq a : page_ok a -> blocks_of FRC_DMA_SSN_BLOCK_SIZE a = (fun i => a + i * FRC_DMA_SSN_BLOCK_SIZE) <$> seqZ 0 512.
Proof.
  intros [H1 H2]. unfold blocks_of. change (FRC_DMA_POOL_SIZE / FRC_DMA_SSN_BLOCK_SIZE) with 512.
  apply list_fmap_ext. intros i x Hx. apply lookup_seqZ in Hx as [-> Hx]. apply wrapu_id.
  unfold FRC_DMA_POOL_SIZE, FRC_DMA_SSN_BLOCK_SIZE, K in *. lia.
Qed.

Lemma length_ssn_blocks pools : length (ssn_blocks pools) = (length pools * 512)%nat.
Proof.
  unfold ssn_blocks. induction pools as [|a l IH]; [done|]. rewrite fmap_cons. cbn [concat length]. rewrite length_app, IH.
  unfold blocks_of. rewrite length_fmap, length_seqZ. change (Z.to_nat (FRC_DMA_POOL_SIZE / FRC_DMA_SSN_BLOCK_SIZE)) with 512%nat. lia.
Qed.

Lemma elem_of_ssn_block a b : page_ok a -> b ∈ blocks_of FRC_DMA_SSN_BLOCK_SIZE a <-> exists i, b = a + i * FRC_DMA_SSN_BLOCK_SIZE /\ 0 <= i < 512.
Proof.
  intros Ha. rewrite ssn_block_eq, list_elem_of_fmap by done. split; intros (i & -> & Hi); exists i; (split; [done|]).
  - apply elem_of_seqZ in Hi. lia.
  - apply elem_of_seqZ. lia.
Qed.

Lemma ssn_block_addr a : page_ok a -> Forall addr_ok (blocks_of FRC_DMA_SSN_BLOCK_SIZE a).
Proof.
  intros Ha. apply Forall_forall. intros b (i & -> & Hi)%elem_of_ssn_block; [|done]. destruct Ha as [H1 H2].
  unfold addr_ok, FRC_DMA_POOL_SIZE, FRC_DMA_SSN_BLOCK_SIZE, K in *. lia.
Qed.

Lemma ssn_blocks_addr pools : Forall page_ok pools -> Forall addr_ok (ssn_blocks pools).
Proof.
  unfold ssn_blocks. induction 1 as [|a l Ha _ IH]; [constructor|]. rewrite fmap_cons. cbn [concat]. apply Forall_app.
  split; [by apply ssn_block_addr|done].
Qed.

Lemma fop_app {A} (R : A -> A -> Prop) l1 l2 : ForallOrdPairs R l1 -> ForallOrdPairs R l2 -> (forall x y, x ∈ l1 -> y ∈ l2 -> R x y) ->
  ForallOrdPairs R (l1 ++ l2).
Proof.
  intros H1 H2 Hx. induction H1 as [|a l Ha _ IH]; [done|]. cbn [app]. constructor.
  - apply Forall_app. split; [done|]. apply Forall_forall. intros y Hy. apply Hx; [by left|done].
  - apply IH. intros x y Hin. apply Hx. by right.
Qed.

Lemma spaced_apart a s (n : nat) : blocks_apart ((fun i => a + i * FRC_DMA_SSN_BLOCK_SIZE) <$> seqZ s (Z.of_nat n)).
Proof.
  revert s. induction n as [|n IH]; intros s; [constructor|]. rewrite seqZ_cons by lia. replace (Z.pred (Z.of_nat (S n))) with (Z.of_nat n) by lia.
  rewrite fmap_cons. constructor; [|apply IH]. apply Forall_fmap, Forall_forall. intros i Hi%elem_of_seqZ.
  unfold apart, FRC_DMA_SSN_BLOCK_SIZE, K. simpl. left. lia.
Qed.

Lemma one_page_apart a : page_ok a -> blocks_apart (blocks_of FRC_DMA_SSN_BLOCK_SIZE a).
Proof.
  intros Ha. rewrite ssn_block_eq by done. exact (spaced_apart a 0 512).
Qed.

Lemma ssn_blocks_apart pools : Forall page_ok pools -> pages_apart pools -> blocks_apart (ssn_blocks pools).
Proof.
  intros Hok Hap. unfold ssn_blocks. induction Hap as [|a l Ha _ IH]; [constructor|]. rewrite fmap_cons. cbn [concat].
  apply Forall_cons in Hok as [Hoka Hokl]. apply fop_app; [by apply one_page_apart|by apply IH|].
  intros x y (i & -> & Hi)%elem_of_ssn_block Hy; [|done].
  apply list_elem_of_In, in_concat in Hy as (bs & Hbs & Hy). apply list_elem_of_In, list_elem_of_fmap in Hbs as (b & -> & Hb).
  rewrite List.Forall_forall in Ha. apply list_elem_of_In in Hy. rewrite Forall_forall in Hokl. pose proof (Hokl _ Hb) as Hokb.
  apply list_elem_of_In, Ha in Hb. apply elem_of_ssn_block in Hy as (j & -> & Hj); [|done].
  unfold apart, FRC_DMA_POOL_SIZE, FRC_DMA_SSN_BLOCK_SIZE, K in *. lia.
Qed.

(** ** The cells of the available ring *)
Section cells.
Context (N : Z) (HN : 0 < N < 2 ^ 60).

Definition cells_ok (r : ring) : Prop := Z.of_nat (length (m_buff r)) = N /\ Forall addr_ok (m_buff r).

Lemma put_blocks_cells bs r rv r' : Forall addr_ok bs -> cells_ok r -> put_blocks N bs r = Some (rv, r') -> cells_ok r'.
Proof using HN.
  intros Hb. revert r. induction Hb as [|b bs Hb _ IH]; intros r [H1 H2]; cbn [put_blocks]; [by intros [= _ <-]|].
  destruct (ring_put_inv N HN b r Hb H1 H2) as (len & r1 & -> & Hl & Hc). cbn [mbind option_bind].
  destruct (len =? 1); [apply IH; by split|]. by intros [= _ <-].
Qed.

Lemma put_pools_cells block_size addrs ids r rv r' : Forall (fun a => Forall addr_ok (blocks_of block_size a)) addrs -> cells_ok r ->
  put_pools N block_size addrs ids r = Some (rv, r') -> cells_ok r'.
Proof using HN.
  intros Ha. revert r. induction ids as [|i ids IH]; intros r Hr; cbn [put_pools]; [by intros [= _ <-]|].
  destruct (arr_get addrs i) as [a|] eqn:Ei; [|done]. cbn [mbind option_bind]. apply arr_get_Some in Ei as [_ Ei].
  destruct (put_blocks N _ r) as [[rv1 r1]|] eqn:E1; [|done]. cbn [mbind option_bind].
  apply put_blocks_cells in E1; [|exact (Forall_lookup_1 _ _ _ _ Ha Ei)|done]. destruct (rv1 =? FRE_SUCCESS); [by apply IH|]. by intros [= _ <-].
Qed.

Lemma cleared_cells : cells_ok (cleared_ring N).
Proof using HN.
  split; unfold cleared_ring; cbn [m_buff]; [rewrite length_replicate; lia|]. apply Forall_replicate.
  unfold addr_ok, FRC_DMA_SSN_BLOCK_SIZE, K. lia.
Qed.
End cells.

(** ** Setting up the session channel *)

Lemma zero_page : page_ok 0. Proof. split; [done|by vm_compute]. Qed.

Lemma ssn_pool_init_spec c n pools page rest k : to_give k = Some page :: (Some <$> pools) ++ rest -> Z.of_nat (length pools) = n ->
  1 <= n <= FRC_DMA_SSN_CHAN_POOL_NUM ->
  exists lo hi, lo ∈ pools /\ hi ∈ pools /\ Forall (fun a => lo <= a <= hi) pools /\
    frcdrv_ssn_chan_pool_init c n k = Some (FRE_SUCCESS,
      DrvSsnChan (SsnDescT (sd_type (s_desc c)) (sd_avail_addr (s_desc c)) (sd_avail_size (s_desc c)) (sd_compl_addr (s_desc c))
        (sd_compl_size (s_desc c)) lo (u64 (hi - lo + FRC_DMA_POOL_SIZE))) (s_avail c) (s_compl c)
        (Some (Pool page n (filled_addrs FRC_DMA_SSN_CHAN_POOL_NUM n pools))), with_given rest (page :: pools) k).
Proof.
  intros Hk Hl Hn. destruct (pool_range_spec pools (replicate (Z.to_nat (FRC_DMA_SSN_CHAN_POOL_NUM - n)) 0)) as (lo & hi & E & H1 & H2 & H3).
  { intros ->. simpl in Hl. lia. }
  exists lo, hi. do 3 (split; [done|]). unfold frcdrv_ssn_chan_pool_init, chan_pool_init. rewrite (alloc_some page _ k Hk).
  pose proof (pool_fill_all FRC_DMA_SSN_CHAN_POOL_NUM pools rest [] (with_given ((Some <$> pools) ++ rest) [page] k) eq_refl) as Hf.
  cbn [length] in Hf. rewrite Nat.add_0_l, Hl in Hf. change (Z.of_nat 0) with 0 in Hf.
  assert (filled_addrs FRC_DMA_SSN_CHAN_POOL_NUM 0 [] = replicate (Z.to_nat FRC_DMA_SSN_CHAN_POOL_NUM) 0) as E0
    by (unfold filled_addrs; by rewrite Z.sub_0_r).
  rewrite E0 in Hf. rewrite Hf by lia. cbn [mbind option_bind]. change (negb (FRE_SUCCESS =? FRE_SUCCESS)) with false. cbv iota.
  rewrite Hl in E. cbn [app].
  change (pools ++ replicate (Z.to_nat (FRC_DMA_SSN_CHAN_POOL_NUM - n)) 0) with (filled_addrs FRC_DMA_SSN_CHAN_POOL_NUM n pools) in E.
  rewrite E. cbn [mbind option_bind]. do 2 f_equal.
  unfold with_given. cbn [given kfreed]. by rewrite <- app_assoc.
Qed.

Definition ssn_total (pools : list Z) : Z := Z.of_nat (length pools * 512).

Lemma ssn_setup_spec c type n pools page a b rest k : to_give k = Some page :: (Some <$> pools) ++ Some a :: Some b :: rest ->
  Z.of_nat (length pools) = n -> 1 <= n <= FRC_DMA_SSN_CHAN_POOL_NUM -> Forall page_ok pools ->
  exists r lo hi, lo ∈ pools /\ hi ∈ pools /\ Forall (fun a => lo <= a <= hi) pools /\
    holds FRC_DMA_SSN_RING_BUFF_SIZE r (ssn_blocks pools) (length pools * 512) /\ cells_ok FRC_DMA_SSN_RING_BUFF_SIZE r /\
    frcdrv_ssn_chan_setup c type n k = Some (FRE_SUCCESS,
      DrvSsnChan (SsnDescT (u32 type) a sizeof_ssn_ring_buff b sizeof_ssn_ring_buff lo (u64 (hi - lo + FRC_DMA_POOL_SIZE)))
        (Some (a, r)) (Some (b, cleared_ring FRC_DMA_SSN_RING_BUFF_SIZE))
        (Some (Pool page n (filled_addrs FRC_DMA_SSN_CHAN_POOL_NUM n pools))), with_given rest (page :: pools ++ [a; b]) k).
Proof.
  intros Hk Hl Hn Hok. destruct (ssn_pool_init_spec c n pools page _ k Hk Hl Hn) as (lo & hi & H1 & H2 & H3 & E).
  assert (0 < FRC_DMA_SSN_RING_BUFF_SIZE < 2 ^ 63) as HN by (split; reflexivity).
  assert (FRC_DMA_SSN_CHAN_POOL_NUM = 783) as EP by reflexivity.
  assert (Forall (fun a => Forall word_ok (blocks_of FRC_DMA_SSN_BLOCK_SIZE a)) pools) as Hw.
  { eapply Forall_impl; [exact Hok|]. intros p Hp. cbn. eapply Forall_impl; [by apply ssn_block_addr|]. intros x Hx. by apply addr_word. }
  pose proof (length_ssn_blocks pools) as Hlb. unfold ssn_blocks in Hlb.
  destruct (put_pools_spec FRC_DMA_SSN_RING_BUFF_SIZE HN FRC_DMA_SSN_BLOCK_SIZE pools pools [] (cleared_ring FRC_DMA_SSN_RING_BUFF_SIZE) [] 0
    eq_refl (cleared_holds _ HN) Hw) with (rest := replicate (Z.to_nat (FRC_DMA_SSN_CHAN_POOL_NUM - n)) 0) as (r & Ep & Hh).
  { rewrite Hlb. unfold FRC_DMA_SSN_RING_BUFF_SIZE. simpl length. lia. }
  { rewrite Hlb. lia. }
  rewrite Hlb in Hh. cbn [app Nat.add] in Hh. cbn [length] in Ep. change (Z.of_nat 0) with 0 in Ep. rewrite Hl in Ep.
  exists r, lo, hi. do 3 (split; [done|]). split; [exact Hh|]. split.
  { eapply (put_pools_cells FRC_DMA_SSN_RING_BUFF_SIZE (conj eq_refl eq_refl)); [| |exact Ep]; [|apply cleared_cells; exact (conj eq_refl eq_refl)].
    apply Forall_app. split; [eapply Forall_impl; [exact Hok|apply ssn_block_addr]|]. apply Forall_replicate. exact (ssn_block_addr 0 zero_page). }
  unfold frcdrv_ssn_chan_setup. rewrite Z.gtb_ltb, (proj2 (Z.ltb_ge _ _)), E by lia. cbn [mbind option_bind].
  change (negb (FRE_SUCCESS =? 0)) with false. cbv iota. unfold frcdrv_ssn_chan_dma_ctrl_init. cbn [s_pool s_desc s_compl].
  rewrite (alloc_some a (Some b :: rest)), (alloc_some b rest) by done. change (negb (FRE_SUCCESS =? 0)) with false. cbv iota.
  unfold frcdrv_ssn_chan_avail_init. cbn [s_pool s_avail mbind option_bind pool_addr pool_num].
  change (pools ++ replicate (Z.to_nat (FRC_DMA_SSN_CHAN_POOL_NUM - n)) 0) with (filled_addrs FRC_DMA_SSN_CHAN_POOL_NUM n pools) in Ep. rewrite Ep.
  cbn [mbind option_bind]. change (negb (FRE_SUCCESS =? 0)) with false. cbv iota. cbn [s_desc s_avail s_compl s_pool sd_type sd_avail_addr sd_avail_size sd_compl_addr sd_compl_size sd_pool_addr sd_pool_size].
  do 2 f_equal. unfold with_given. cbn [given kfreed to_give]. by rewrite <- !app_assoc.
Qed.
