(* ===== verification/DrvChanThm.v ===== *)
(** * The channels in the driver: what they guarantee

    The set-up of the session channel makes the host the card's command expects, so that
    the segments of a session reach the tool; every page is freed by the unloading, none by
    a failed loading; where the tool is told about a channel. *)

From stdpp Require Import list.
From S2P Require Import Prelude Bytes Ring Dma Chan ChanMem TcpFlow SsnBlock SsnBlockProps.
From S2P Require Import SsnChan SsnChanProps SsnDeliver SsnHost FrcList Cmd CmdProps CmdSys DrvChan DrvChanProps.
#[local] Open Scope Z_scope.

(** ** The descriptor on its way to the card *)

Lemma words_u64 vs : words ((fun v => [(8%nat, v)]) <$> vs).
Proof. unfold words. apply Forall_fmap, Forall_true. done. Qed.

Lemma card_u64 v gs : card_bytes ([(8%nat, v)] :: gs) = be_bytes 8 v ++ card_bytes gs.
Proof. reflexivity. Qed.

Lemma set_core_desc c : word_ok (sd_type (s_desc c)) -> word_ok (sd_avail_addr (s_desc c)) -> word_ok (sd_compl_addr (s_desc c)) ->
  exists p, param_of (frcdrv_ssn_chan_set_core c) = Some p /\
    card_ssn_desc p = Some (SsnDesc (sd_type (s_desc c)) (sd_avail_addr (s_desc c)) (sd_compl_addr (s_desc c))).
Proof.
  intros H1 H2 H3. set (gs := ssn_desc_groups (s_desc c)). pose proof (words_u64 _ : words gs) as Hw.
  pose proof (length_host_bytes gs Hw) as Hl. pose proof (swap_host gs [] Hw) as Hs. rewrite !app_nil_r in Hs.
  exists (card_bytes gs). split.
  { rewrite <- Hs. unfold param_of, frcdrv_ssn_chan_set_core, sent_param. cbn [k_ilen k_input]. fold gs. rewrite take_ge by (rewrite Hl; done). reflexivity. }
  unfold gs, ssn_desc_groups, card_ssn_desc. rewrite !fmap_cons, fmap_nil, !card_u64.
  pose proof (card_get_here 8 (sd_type (s_desc c))) as G1. pose proof (card_get_here 8 (sd_avail_addr (s_desc c))) as G2.
  pose proof (card_get_here 8 (sd_compl_addr (s_desc c))) as G3. change (Z.of_nat 8) with 8 in G1, G2, G3.
  rewrite (G1 _). cbn [mbind option_bind].
  rewrite (card_get_skip _ _ 8 8) by (rewrite ?length_be_bytes; lia). rewrite length_be_bytes. change (8 - Z.of_nat 8) with 0. rewrite (G2 _). cbn [mbind option_bind].
  do 3 (rewrite card_get_skip by (rewrite ?length_be_bytes; lia); rewrite length_be_bytes). change (24 - Z.of_nat 8 - Z.of_nat 8 - Z.of_nat 8) with 0.
  rewrite (G3 _). cbn [mbind option_bind]. by rewrite !wrapu_id.
Qed.

(** ** The host the card meets *)

Lemma setup_host_ready a b r pools mem (n : nat) : holds FRC_DMA_SSN_RING_BUFF_SIZE r (ssn_blocks pools) n -> Z.of_nat n < 2 ^ 64 ->
  cells_ok FRC_DMA_SSN_RING_BUFF_SIZE r -> FRC_DMA_POOL_SIZE <= Z.abs (a - b) ->
  host_ready FRC_DMA_SSN_RING_BUFF_SIZE (SsnHost a b r (cleared_ring FRC_DMA_SSN_RING_BUFF_SIZE) mem []) (ssn_blocks pools).
Proof.
  intros Hh Hn [Hl Hc] Hab. assert (0 < FRC_DMA_SSN_RING_BUFF_SIZE < 2 ^ 63) as HN by (split; reflexivity).
  split; [|split; [exists n; by split|apply cleared_holds; exact HN]]. split; cbn [avail_ring compl_ring avail_base compl_base].
  - exact Hl.
  - apply (cleared_cells FRC_DMA_SSN_RING_BUFF_SIZE). split; reflexivity.
  - exact Hc.
  - unfold FRC_DMA_POOL_SIZE in Hab. change (sizeof_ssn_ring FRC_DMA_SSN_RING_BUFF_SIZE) with 3207184. lia.
Qed.

(** ** From the driver's pages to the tool *)

#[local] Existing Instance ssn_chan_sink.
#[local] Abbreviation NSSN := FRC_DMA_SSN_RING_BUFF_SIZE.

(** C2: From the driver to the tool, from the set-up of the session channel on.  When the kernel gives
    pages that do not overlap for the rings and 1 to 783 pools, the set-up succeeds with every block
    of its pools on the available ring; the descriptor it sends has the addresses the card's command
    needs, and the command succeeds on a card without a channel yet.  Then, while the host does nothing
    but give the blocks and no transfer fails or runs out of time: the segments of one session, no more than 512 for
    each pool, are taken and reach, each once and in order, the blocks whose addresses come back on the
    completed ring, where the tool finds the session's addresses, the segments, their bytes and their
    descriptions. *)
Theorem driver_segments_reach_tool P B c pools page a b rest k mem timers cpu_freq ssn hdr_stack qs :
  4 <= P -> P * 16 <= FRCORE_SSN_AVAIL_BUFF_GET_SIZE -> FRC_PAYLOAD_LEN_MAX <= B ->
  to_give k = Some page :: (Some <$> pools) ++ Some a :: Some b :: rest -> 1 <= Z.of_nat (length pools) <= FRC_DMA_SSN_CHAN_POOL_NUM ->
  Forall page_ok (a :: b :: pools) -> pages_apart (a :: b :: pools) ->
  (forall j, timers j = true) -> id_ok ssn -> length hdr_stack = 16%nat -> Forall segment_ok qs -> (length qs <= length pools * 512)%nat ->
  let f := Z.to_nat (ssn_index ssn `mod` FRC_SSN_FIFO_NUM) in
  exists c' k' ra rc p desc s st1 st2 s' blocks,
    frcdrv_ssn_chan_setup c FRC_WORK_SSN (Z.of_nat (length pools)) k = Some (FRE_SUCCESS, c', k') /\
    s_avail c' = Some (a, ra) /\ s_compl c' = Some (b, rc) /\
    param_of (frcdrv_ssn_chan_set_core c') = Some p /\ card_ssn_desc p = Some desc /\
    frcore_cmd_setup_ssn_chans NSSN P B true desc timers (idle_card P (SsnHost a b ra rc mem [])) = Some (FRE_SUCCESS, s) /\
    submit_all (H := ssn_chan_sink NSSN P B) cpu_freq ssn hdr_stack qs (fresh_pack s) = Some (replicate (length qs) FRE_SUCCESS, st1) /\
    sbumit_dma_header_to_fifo (H := ssn_chan_sink NSSN P B) ssn hdr_stack st1 = Some (FRE_SUCCESS, st2) /\
    ssn_chan_process NSSN P B f (sink st2) = Some s' /\
    concat (map snd blocks) = qs /\ map fst blocks `prefix_of` ssn_blocks pools /\
    holds NSSN (compl_ring (ss_host s')) (map fst blocks) (length blocks) /\ Forall (tool_reads ssn (host_mem (ss_host s'))) blocks.
Proof.
  intros HP HPB HB Hk Hn Hok Hap Htm Hid Hst Hqs Hl f.
  apply Forall_cons in Hok as [Hoka Hok]. apply Forall_cons in Hok as [Hokb Hok].
  inversion Hap as [|? ? Ha Hap']; subst. inversion Hap' as [|? ? Hb Hap'']; subst. apply Forall_cons in Ha as [Hab _].
  destruct (ssn_setup_spec c FRC_WORK_SSN _ pools page a b rest k Hk eq_refl Hn Hok) as (r & lo & hi & _ & _ & _ & Hh & Hc & E).
  set (c' := DrvSsnChan _ _ _ _) in E. assert (forall x, page_ok x -> word_ok x) as Hw.
  { intros x [H1 H2]. unfold word_ok, FRC_DMA_POOL_SIZE in *. lia. }
  destruct (set_core_desc c') as (p & Ep & Ed); [change (word_ok 2); unfold word_ok; lia|by apply Hw|by apply Hw|].
  assert (FRC_DMA_SSN_CHAN_POOL_NUM = 783) as EP by reflexivity.
  destruct (ssn_segments_reach_host NSSN P B (conj eq_refl eq_refl) HP HPB) with (h := SsnHost a b r (cleared_ring NSSN) mem []) (bs := ssn_blocks pools)
    (desc := SsnDesc FRC_WORK_SSN a b) (timers := timers) (cpu_freq := cpu_freq) (ssn := ssn) (hdr_stack := hdr_stack) (qs := qs)
    as (s & st1 & st2 & s' & blocks & E1 & E2 & E3 & E4 & R).
  - unfold FRC_DMA_SSN_RING_BUFF_SIZE. unfold FRCORE_SSN_AVAIL_BUFF_GET_SIZE in HPB. lia.
  - exact HB.
  - apply (setup_host_ready a b r pools mem _ Hh); [lia|exact Hc|exact Hab].
  - reflexivity.
  - exact Htm.
  - reflexivity.
  - reflexivity.
  - exact Hid.
  - exact Hst.
  - exact Hqs.
  - by apply ssn_blocks_addr.
  - by apply ssn_blocks_apart.
  - by rewrite length_ssn_blocks.
  - exists c', (with_given rest (page :: pools ++ [a; b]) k), r, (cleared_ring NSSN), p, (SsnDesc FRC_WORK_SSN a b), s, st1, st2, s', blocks.
    split; [exact E|]. split; [reflexivity|]. split; [reflexivity|]. split; [exact Ep|]. split; [exact Ed|]. split; [exact E1|]. split; [exact E2|].
    split; [exact E3|]. split; [exact E4|exact R].
Qed.

(** the pool range the driver announces covers every page of the pools and begins at the
    first: the tool that maps it reaches every block the card fills. *)
Theorem driver_pool_range c pools page a b rest k n : to_give k = Some page :: (Some <$> pools) ++ Some a :: Some b :: rest ->
  Z.of_nat (length pools) = n -> 1 <= n <= FRC_DMA_SSN_CHAN_POOL_NUM -> Forall page_ok pools -> Forall (Z.lt 0) pools ->
  exists c' k', frcdrv_ssn_chan_setup c FRC_WORK_SSN n k = Some (FRE_SUCCESS, c', k') /\
    let lo := sd_pool_addr (s_desc c') in let size := sd_pool_size (s_desc c') in
    lo ∈ pools /\ lo + size <= 2 ^ 64 /\
    (forall b, b ∈ ssn_blocks pools -> lo <= b /\ b + FRC_DMA_SSN_BLOCK_SIZE <= lo + size) /\
    exists hi, hi ∈ pools /\ lo + size = hi + FRC_DMA_POOL_SIZE.
Proof.
  intros Hk Hl Hn Hok Hpos. destruct (ssn_setup_spec c FRC_WORK_SSN n pools page a b rest k Hk Hl Hn Hok) as (r & lo & hi & H1 & H2 & H3 & _ & _ & E).
  eexists _, _. split; [exact E|]. cbn [s_desc sd_pool_addr sd_pool_size]. rewrite Forall_forall in Hok.
  rewrite Forall_forall in Hpos. pose proof (Hpos lo H1). destruct (Hok lo H1) as [L1 L2]. destruct (Hok hi H2) as [U1 U2]. rewrite Forall_forall in H3. pose proof (H3 hi H2) as Hr. cbn in Hr.
  assert (u64 (hi - lo + FRC_DMA_POOL_SIZE) = hi - lo + FRC_DMA_POOL_SIZE) as -> by (apply wrapu_id; unfold FRC_DMA_POOL_SIZE in *; lia).
  split; [done|]. split; [lia|]. split; [|exists hi; split; [done|lia]].
  intros x Hx. apply list_elem_of_In, in_concat in Hx as (bs & Hbs & Hx). apply list_elem_of_In, list_elem_of_fmap in Hbs as (y & -> & Hy).
  apply list_elem_of_In, elem_of_ssn_block in Hx as (i & -> & Hi); [|by apply Hok]. pose proof (H3 y Hy) as Hy2. cbn in Hy2. destruct (Hok y Hy).
  unfold FRC_DMA_POOL_SIZE, FRC_DMA_SSN_BLOCK_SIZE, K in *. lia.
Qed.

(** ** Pages *)

Lemma free_pool_spec page bs rest k : free_pool (Pool page (Z.of_nat (length bs)) (bs ++ rest)) k =
  Some (KPages (to_give k) (given k) (kfreed k ++ bs ++ [page])).
Proof.
  unfold free_pool. cbn [pool_addr pool_num pool_page].
  destruct (foldM_ind (fun done k' => k' = KPages (to_give k) (given k) (kfreed k ++ take (length done) bs))
    (fun k i => a ← arr_get (bs ++ rest) i; Some (frcdrv_dma_pool_free a k)) (seqZ 0 (Z.of_nat (length bs))) k) as (k' & -> & ->).
  - cbn [length take]. rewrite app_nil_r. by destruct k.
  - intros dn i rest' k' Hs ->.
    assert (seqZ 0 (Z.of_nat (length bs)) !! length dn = Some i) as Hi by (rewrite Hs; by apply list_lookup_middle).
    apply lookup_seqZ in Hi as [-> Hlt]. destruct (lookup_lt_is_Some_2 bs (length dn)) as [a Ha]; [lia|].
    rewrite Z.add_0_l, arr_get_nat, (lookup_app_l_Some _ _ _ _ Ha). cbn [mbind option_bind]. eexists. split; [done|].
    unfold frcdrv_dma_pool_free. cbn [to_give given kfreed]. rewrite length_app. cbn [length]. rewrite Nat.add_1_r, (take_S_r _ _ _ Ha). by rewrite app_assoc.
  - cbn [mbind option_bind]. rewrite length_seqZ, Nat2Z.id, take_ge by lia. unfold frcdrv_dma_pool_free. cbn. by rewrite <- app_assoc.
Qed.

(** the session channel gives back what it took: a successful set-up followed by the freeing of
    the channel frees exactly the pages the kernel gave for it, each once. *)
Theorem driver_pages_balanced c type pools page a b rest k : to_give k = Some page :: (Some <$> pools) ++ Some a :: Some b :: rest ->
  1 <= Z.of_nat (length pools) <= FRC_DMA_SSN_CHAN_POOL_NUM -> Forall page_ok pools ->
  exists c1 k1 c2 k2 got freed, frcdrv_ssn_chan_setup c type (Z.of_nat (length pools)) k = Some (FRE_SUCCESS, c1, k1) /\
    frcdrv_ssn_chans_free c1 k1 = Some (c2, k2) /\ given k2 = given k ++ got /\ kfreed k2 = kfreed k ++ freed /\ freed ≡ₚ got /\
    s_pool c2 = None /\ s_avail c2 = None /\ s_compl c2 = None.
Proof.
  intros Hk Hn Hok. destruct (ssn_setup_spec c type _ pools page a b rest k Hk eq_refl Hn Hok) as (r & lo & hi & _ & _ & _ & _ & _ & E).
  eexists _, _, _, _, (page :: pools ++ [a; b]), (pools ++ [page; a; b]). split; [exact E|]. unfold frcdrv_ssn_chans_free. cbn [s_pool s_avail s_compl].
  unfold filled_addrs. rewrite free_pool_spec. cbn [mbind option_bind]. split; [reflexivity|].
  unfold frcdrv_dma_pool_free, with_given. cbn [given kfreed to_give s_pool s_avail s_compl].
  split; [done|]. split; [by rewrite <- !app_assoc|]. split; [|done]. change (page :: pools ++ [a; b]) with ((page :: pools) ++ [a; b]).
  rewrite (Permutation_cons_append pools page), <- app_assoc. done.
Qed.

(** *** A failed loading *)
Definition grows (k k' : kpages) : Prop := (exists l, given k' = given k ++ l) /\ kfreed k' = kfreed k.

Lemma grows_refl k : grows k k. Proof. split; [exists []; by rewrite app_nil_r|done]. Qed.
Lemma grows_trans k1 k2 k3 : grows k1 k2 -> grows k2 k3 -> grows k1 k3.
Proof. intros [[l1 E1] F1] [[l2 E2] F2]. split; [exists (l1 ++ l2); by rewrite E2, E1, <- app_assoc|congruence]. Qed.

Lemma alloc_grows k : grows k (frcdrv_dma_pool_alloc k).2.
Proof.
  unfold frcdrv_dma_pool_alloc. destruct (to_give k) as [|[a|] l]; cbn; [apply grows_refl|split; [by exists [a]|done]|].
  split; [exists []; cbn; by rewrite app_nil_r|done].
Qed.

Ltac alloc k a k' := pose proof (alloc_grows k); destruct (frcdrv_dma_pool_alloc k) as [a k']; cbn [snd] in *.

Lemma pool_fill_grows ids addrs k rv addrs' k' : pool_fill ids addrs k = Some (rv, addrs', k') -> grows k k'.
Proof.
  revert addrs k. induction ids as [|i ids IH]; intros addrs k; cbn [pool_fill]; [intros [= _ _ <-]; apply grows_refl|].
  alloc k a k1. destruct a as [a|]; [|by intros [= _ _ <-]]. destruct (arr_set addrs i a); [|done]. cbn [mbind option_bind].
  intros E%IH. by eapply grows_trans.
Qed.

Lemma chan_pool_grows size n k rv p r k' : chan_pool_init size n k = Some (rv, p, r, k') -> grows k k'.
Proof.
  unfold chan_pool_init. alloc k a k1. destruct a as [a|]; [|by intros [= _ _ _ <-]].
  destruct (pool_fill _ _ k1) as [[[rv1 addrs] k2]|] eqn:E; [|done]. cbn [mbind option_bind]. apply pool_fill_grows in E.
  destruct (negb _); [intros [= _ _ _ <-]; by eapply grows_trans|]. destruct (pool_range addrs n) as [[lo hi]|]; [|done]. cbn [mbind option_bind].
  intros [= _ _ _ <-]. by eapply grows_trans.
Qed.

Lemma ssn_setup_grows c type n k rv c' k' : frcdrv_ssn_chan_setup c type n k = Some (rv, c', k') -> grows k k'.
Proof.
  unfold frcdrv_ssn_chan_setup. destruct (n >? _); [intros [= _ _ <-]; apply grows_refl|]. unfold frcdrv_ssn_chan_pool_init.
  destruct (chan_pool_init _ n k) as [[[[rv1 p] r] k1]|] eqn:E; [|done]. cbn [mbind option_bind]. apply chan_pool_grows in E.
  destruct (negb (rv1 =? 0)); [by intros [= _ _ <-]|]. match goal with |- context [frcdrv_ssn_chan_dma_ctrl_init ?c k1] => set (c1 := c) end. clearbody c1.
  assert (grows k (frcdrv_ssn_chan_dma_ctrl_init c1 k1).2) as G.
  { unfold frcdrv_ssn_chan_dma_ctrl_init. destruct (s_pool c1); [|done]. alloc k1 a k2. destruct a as [a|]; cbn; [|by eapply grows_trans].
    alloc k2 b k3. destruct b; cbn; eauto using grows_trans. }
  destruct (frcdrv_ssn_chan_dma_ctrl_init c1 k1) as [[rv2 c2] k2]. cbn [snd] in G.
  destruct (negb (rv2 =? 0)); [by intros [= _ _ <-]|]. destruct (frcdrv_ssn_chan_avail_init c2) as [[rv3 c3]|]; [|done]. cbn [mbind option_bind].
  destruct (negb (rv3 =? 0)); by intros [= _ _ <-].
Qed.

Lemma simple_setup_grows c type n k rv c' k' : frcdrv_simple_package_chan_setup c type n k = Some (rv, c', k') -> grows k k'.
Proof.
  unfold frcdrv_simple_package_chan_setup. destruct (n >? _); [intros [= _ _ <-]; apply grows_refl|]. unfold frcdrv_simple_package_chan_pool_init.
  destruct (chan_pool_init _ n k) as [[[[rv1 p] r] k1]|] eqn:E; [|done]. cbn [mbind option_bind]. apply chan_pool_grows in E.
  destruct (negb (rv1 =? 0)); [by intros [= _ _ <-]|]. match goal with |- context [frcdrv_simple_package_chan_dma_ctrl_init ?c k1] => set (c1 := c) end. clearbody c1.
  assert (grows k (frcdrv_simple_package_chan_dma_ctrl_init c1 k1).2) as G.
  { unfold frcdrv_simple_package_chan_dma_ctrl_init. destruct (p_pool c1); [|done]. alloc k1 a k2. destruct a as [a|]; cbn; by eapply grows_trans. }
  destruct (frcdrv_simple_package_chan_dma_ctrl_init c1 k1) as [[rv2 c2] k2]. cbn [snd] in G.
  destruct (negb (rv2 =? 0)); [by intros [= _ _ <-]|]. destruct (frcdrv_simple_package_chan_avail_init c2) as [[rv3 c3]|]; [|done]. cbn [mbind option_bind].
  destruct (negb (rv3 =? 0)); by intros [= _ _ <-].
Qed.

(** [pages] and the registration after the initialisation of a channel. *)
Definition keeps (d d' : drv_chans) : Prop := grows (pages d) (pages d') /\ registered d' = registered d.

Lemma keeps_trans d1 d2 d3 : keeps d1 d2 -> keeps d2 d3 -> keeps d1 d3.
Proof. intros [G1 R1] [G2 R2]. split; [by eapply grows_trans|congruence]. Qed.

Lemma chan_init_keeps type d rv d' : frcdrv_chan_init type d = Some (rv, d') -> keeps d d'.
Proof.
  unfold frcdrv_chan_init. destruct (frcdrv_simple_pakcage_chan_get type d) as [i|]; [|intros [= _ <-]; split; [apply grows_refl|done]].
  destruct (simple_chans d) as [l|]; [|done]. cbn [mbind option_bind]. destruct (arr_get l i) as [c|]; [|done]. cbn [mbind option_bind].
  destruct (frcdrv_simple_package_chan_setup c type _ (pages d)) as [[[rv1 c'] k]|] eqn:E; [|done]. cbn [mbind option_bind]. apply simple_setup_grows in E.
  destruct (arr_set l i c'); [|done]. cbn [mbind option_bind]. by intros [= _ <-].
Qed.

Lemma ssn_init_keeps d rv d' : frcdrv_ssn_init d = Some (rv, d') -> keeps d d'.
Proof.
  unfold frcdrv_ssn_init. destruct (frcdrv_ssn_chan_get FRC_WORK_SSN d) as [i|]; [|intros [= _ <-]; split; [apply grows_refl|done]].
  destruct (ssn_chans d) as [l|]; [|done]. cbn [mbind option_bind]. destruct (arr_get l i) as [c|]; [|done]. cbn [mbind option_bind].
  destruct (frcdrv_ssn_chan_setup c _ _ (pages d)) as [[[rv1 c'] k]|] eqn:E; [|done]. cbn [mbind option_bind]. apply ssn_setup_grows in E.
  destruct (arr_set l i c'); [|done]. cbn [mbind option_bind]. by intros [= _ <-].
Qed.

Lemma arrays_keep k d : keeps d (frcdrv_simple_package_chan_init k d).2 /\ keeps d (frcdrv_ssn_chan_init k d).2.
Proof. destruct k; split; (split; [apply grows_refl|done]). Qed.

(** when the driver cannot be loaded it unregisters the device and returns with every page it
    was given still reserved: nothing is freed. *)
Theorem driver_init_failure_leaks reg kmalloc1 kmalloc2 d rv d' : 0 <= reg -> frcdrv_base_init_module reg kmalloc1 kmalloc2 d = Some (rv, d') ->
  rv <> 0 -> registered d' = false /\ kfreed (pages d') = kfreed (pages d) /\ exists l, given (pages d') = given (pages d) ++ l.
Proof.
  intros Hreg. unfold frcdrv_base_init_module. rewrite (proj2 (Z.ltb_ge _ _)) by done. intros E Hrv.
  assert (forall x, keeps (set_registered true d) x -> kfreed (pages x) = kfreed (pages d) /\ exists l, given (pages x) = given (pages d) ++ l) as Hk.
  { intros x [[Hg Hf] _]. by split. }
  pose proof (proj1 (arrays_keep kmalloc1 (set_registered true d))) as K1.
  destruct (frcdrv_simple_package_chan_init kmalloc1 _) as [r1 d1]. cbn [snd] in K1.
  destruct (negb (r1 =? 0)); [injection E as <- <-; split; [done|exact (Hk _ K1)]|]. unfold frcdrv_udp_chan_init, frcdrv_rule_chan_init in E.
  destruct (frcdrv_chan_init FRC_WORK_UDP d1) as [[r2 d2]|] eqn:E2; [|done]. cbn [mbind option_bind] in E. apply chan_init_keeps in E2.
  pose proof (keeps_trans _ _ _ K1 E2) as K2. destruct (negb (r2 =? 0)); [injection E as <- <-; split; [done|exact (Hk _ K2)]|].
  destruct (frcdrv_chan_init FRC_WORK_RULE d2) as [[r3 d3]|] eqn:E3; [|done]. cbn [mbind option_bind] in E. apply chan_init_keeps in E3.
  pose proof (keeps_trans _ _ _ K2 E3) as K3. destruct (negb (r3 =? 0)); [injection E as <- <-; split; [done|exact (Hk _ K3)]|].
  pose proof (proj2 (arrays_keep kmalloc2 d3)) as E4. destruct (frcdrv_ssn_chan_init kmalloc2 d3) as [r4 d4]. cbn [snd] in E4.
  pose proof (keeps_trans _ _ _ K3 E4) as K4. destruct (negb (r4 =? 0)); [injection E as <- <-; split; [done|exact (Hk _ K4)]|].
  destruct (frcdrv_ssn_init d4) as [[r5 d5]|] eqn:E5; [|done]. cbn [mbind option_bind] in E. apply ssn_init_keeps in E5.
  pose proof (keeps_trans _ _ _ K4 E5) as K5. destruct (negb (r5 =? 0)); injection E as <- <-; [split; [done|exact (Hk _ K5)]|done].
Qed.

(** ** Where the tool is told about a channel *)

Lemma length_u64_groups vs : length (host_bytes ((fun v => [(8%nat, v)]) <$> vs)) = (8 * length vs)%nat.
Proof. rewrite length_host_bytes by apply words_u64. by rewrite length_fmap. Qed.

Lemma answer_output_iff olen bs a : is_Some (answer_output olen bs a) <-> (length bs <= length (io_output a))%nat.
Proof.
  unfold answer_output, write_bytes. rewrite Nat.add_0_l. destruct (Nat.leb_spec (length bs) (length (io_output a))); cbn.
  - split; [done|by eexists].
  - split; [by intros [? ?]|lia].
Qed.

(** the driver's answer about a channel fits the tool's memory unless the session channel is
    asked for with the smaller of the two lengths it accepts: then it writes 56 bytes over 40. *)
Theorem driver_ring_addr_bounds d a type ls lc : simple_chans d = Some ls -> length ls = 2%nat -> ssn_chans d = Some lc -> length lc = 1%nat ->
  io_input a = reverse (be_bytes 8 type) -> 0 <= type < 2 ^ 64 -> Z.of_nat (length (io_output a)) = io_olen a ->
  is_Some (frcdrv_cmd_pool_and_ring_addr_get d a) <-> ~ (type = FRC_WORK_SSN /\ io_olen a = 40).
Proof.
  intros Es Hls Ec Hlc Hin Ht Ho. unfold frcdrv_cmd_pool_and_ring_addr_get. rewrite Hin.
  rewrite read_bytes_eq by (rewrite ?length_reverse, ?length_be_bytes; lia). cbn [mbind option_bind]. rewrite drop_0, take_ge by (rewrite length_reverse, length_be_bytes; done).
  rewrite le_value_field by done.
  destruct (Z.eqb_spec (io_olen a) 40) as [E4|E4], (Z.eqb_spec (io_olen a) 56) as [E5|E5]; cbn [negb andb]; [lia| | |split; [intros _ [_ ?]; lia|by eexists]].
  all: rewrite Z.gtb_ltb; destruct (Z.ltb_spec FRC_WORK_MAX type) as [Hm|Hm]; unfold FRC_WORK_MAX in Hm; [split; [intros _ [-> _]; by unfold FRC_WORK_SSN in Hm|by eexists]|].
  all: destruct (Z.eqb_spec type FRC_WORK_UDP) as [->|E0]; cbn [orb]; [|destruct (Z.eqb_spec type FRC_WORK_RULE) as [->|E1]; cbn [orb]].
  all: try (rewrite Es; match goal with |- context [arr_get ?l ?i] => destruct (arr_get_is_Some l i) as [c ->]; [rewrite Hls; unfold FRC_WORK_UDP, FRC_WORK_RULE; lia|] end;
    cbn [mbind option_bind]; rewrite answer_output_iff; unfold simple_desc_groups; rewrite length_u64_groups; cbn [length]; unfold FRC_WORK_UDP, FRC_WORK_RULE, FRC_WORK_SSN; lia).
  all: destruct (Z.eqb_spec type FRC_WORK_SSN) as [->|E2]; [|split; [intros _ [? _]; done|by eexists]].
  all: rewrite Ec; match goal with |- context [arr_get ?l ?i] => destruct (arr_get_is_Some l i) as [c ->]; [rewrite Hlc; lia|] end.
  all: cbn [mbind option_bind]; rewrite answer_output_iff; unfold ssn_desc_groups; rewrite length_u64_groups; cbn [length]; lia.
Qed.

(** ** Witnesses *)

Definition demo_kernel : kpages :=
  KPages (Some (5 * FRC_DMA_POOL_SIZE) :: (Some <$> [FRC_DMA_POOL_SIZE; 2 * FRC_DMA_POOL_SIZE]) ++ Some (3 * FRC_DMA_POOL_SIZE) :: Some (4 * FRC_DMA_POOL_SIZE) :: []) [] [].
Definition fresh_ssn_chan : drv_ssn_chan := DrvSsnChan (SsnDescT FRC_WORK_SSN 0 0 0 0 0 0) None None None.

Lemma driver_segments_reach_tool_witness : exists s' blocks,
  concat (map snd blocks) = demo_segments /\ Forall (tool_reads demo_ssn (host_mem (ss_host s'))) blocks.
Proof.
  destruct (driver_segments_reach_tool 15 8192 fresh_ssn_chan [FRC_DMA_POOL_SIZE; 2 * FRC_DMA_POOL_SIZE] (5 * FRC_DMA_POOL_SIZE)
    (3 * FRC_DMA_POOL_SIZE) (4 * FRC_DMA_POOL_SIZE) [] demo_kernel (fun _ => 0) (fun _ => true) 1000 demo_ssn (replicate 16 0) demo_segments)
    as (c' & k' & ra & rc & p & desc & s & st1 & st2 & s' & blocks & _ & _ & _ & _ & _ & _ & _ & _ & _ & E & _ & _ & H).
  - lia.
  - vm_compute. discriminate.
  - vm_compute. discriminate.
  - reflexivity.
  - vm_compute. split; discriminate.
  - repeat constructor; vm_compute; discriminate.
  - repeat constructor; vm_compute; discriminate.
  - reflexivity.
  - exact demo_ssn_ok.
  - reflexivity.
  - exact demo_segments_ok.
  - vm_compute. lia.
  - exists s', blocks. split; [exact E|exact H].
Defined.

Lemma driver_pool_range_witness : exists c' k', frcdrv_ssn_chan_setup fresh_ssn_chan FRC_WORK_SSN 2 demo_kernel = Some (FRE_SUCCESS, c', k') /\
  sd_pool_addr (s_desc c') + sd_pool_size (s_desc c') <= 2 ^ 64.
Proof.
  destruct (driver_pool_range fresh_ssn_chan [FRC_DMA_POOL_SIZE; 2 * FRC_DMA_POOL_SIZE] (5 * FRC_DMA_POOL_SIZE) (3 * FRC_DMA_POOL_SIZE)
    (4 * FRC_DMA_POOL_SIZE) [] demo_kernel 2) as (c' & k' & E & _ & H & _);
    [reflexivity|reflexivity|vm_compute; split; discriminate|repeat constructor; vm_compute; discriminate|repeat constructor|].
  exists c', k'. split; [exact E|exact H].
Defined.

Lemma driver_pages_balanced_witness : exists c1 k1 c2 k2 got, frcdrv_ssn_chan_setup fresh_ssn_chan FRC_WORK_SSN 2 demo_kernel = Some (FRE_SUCCESS, c1, k1) /\
  frcdrv_ssn_chans_free c1 k1 = Some (c2, k2) /\ given k2 = got /\ kfreed k2 ≡ₚ got.
Proof.
  destruct (driver_pages_balanced fresh_ssn_chan FRC_WORK_SSN [FRC_DMA_POOL_SIZE; 2 * FRC_DMA_POOL_SIZE] (5 * FRC_DMA_POOL_SIZE) (3 * FRC_DMA_POOL_SIZE)
    (4 * FRC_DMA_POOL_SIZE) [] demo_kernel) as (c1 & k1 & c2 & k2 & got & freed & E1 & E2 & Eg & Ef & Hp & _);
    [reflexivity|vm_compute; split; discriminate|repeat constructor; vm_compute; discriminate|].
  exists c1, k1, c2, k2, got. split; [exact E1|]. split; [exact E2|]. split; [exact Eg|]. rewrite Ef. exact Hp.
Defined.

(** The kernel gives two pages and no third. *)
Definition short_kernel : drv_chans := DrvChans None None (KPages [Some FRC_DMA_POOL_SIZE; Some (2 * FRC_DMA_POOL_SIZE); None] [] []) false.

Lemma driver_init_failure_leaks_witness : exists d', frcdrv_base_init_module 250 true true short_kernel = Some (1, d') /\
  given (pages d') = [FRC_DMA_POOL_SIZE; 2 * FRC_DMA_POOL_SIZE] /\ kfreed (pages d') = [].
Proof.
  destruct (frcdrv_base_init_module 250 true true short_kernel) as [[rv d']|] eqn:E; [|vm_compute in E; discriminate].
  assert (rv = 1 /\ given (pages d') = [FRC_DMA_POOL_SIZE; 2 * FRC_DMA_POOL_SIZE]) as [-> Eg] by (vm_compute in E; injection E as <- <-; split; reflexivity).
  exists d'. split; [reflexivity|]. split; [exact Eg|].
  destruct (driver_init_failure_leaks 250 true true short_kernel 1 d') as (_ & Hf & _); [lia|exact E|discriminate|exact Hf].
Defined.

Definition loaded_drv : drv_chans :=
  DrvChans (Some (replicate 2 (DrvSimpleChan (SimpleDescT 0 0 0 0 0) None None))) (Some [fresh_ssn_chan]) (KPages [] [] []) true.

Lemma driver_ring_addr_bounds_witness :
  frcdrv_cmd_pool_and_ring_addr_get loaded_drv (DrvIoctl 0 DRV_CMD_GET_POOL_AND_RING_ADDR 56 (reverse (be_bytes 8 2)) (replicate 56 0)) <> None.
Proof.
  destruct (driver_ring_addr_bounds loaded_drv (DrvIoctl 0 DRV_CMD_GET_POOL_AND_RING_ADDR 56 (reverse (be_bytes 8 2)) (replicate 56 0)) 2
    (replicate 2 (DrvSimpleChan (SimpleDescT 0 0 0 0 0) None None)) [fresh_ssn_chan]) as [_ H];
    [reflexivity|reflexivity|reflexivity|reflexivity|reflexivity|lia|reflexivity|].
  destruct H as [r ->]; [intros [_ E]; vm_compute in E; discriminate|discriminate].
Defined.
