(* ===== verification/TcpFlowSegs.v ===== *)
(** * The segments of flow recovery: what it queues and submits

    Every segment in a queue or submitted has between one byte and a packet's payload
    and the direction of its packet, whatever the packets: what the packing of
    [SsnBlock] relies on. *)

From stdpp Require Import list.
From S2P Require Import Prelude TcpFlow SsnBlock SsnBlockProps.
#[local] Open Scope Z_scope.

Section segs.
(** What is known of the time to live; flow recovery only ever clears it. *)
Variable T : Z -> Prop.

Record segs_ok (st : tcp_state) : Prop := SegsOk {
  segs_flow d : Forall segment_ok (tsegs (flow d st));
  segs_submitted : Forall segment_ok (submitted st);
  segs_live : T (ttl st) }.

Lemma segs_ext st st' :
  positive st' = positive st -> negative st' = negative st -> submitted st' = submitted st -> ttl st' = ttl st ->
  segs_ok st -> segs_ok st'.
Proof.
  intros E1 E2 E3 E4 [H1 H2 H3]. split; [|by rewrite E3|by rewrite E4].
  intros []; simpl; rewrite ?E1, ?E2; [apply (H1 true)|apply (H1 false)].
Qed.

Lemma segs_free w st : segs_ok st -> segs_ok (work_free w st).
Proof. by apply segs_ext. Qed.
Lemma segs_pool n st : segs_ok st -> segs_ok (pool_add n st).
Proof. by apply segs_ext. Qed.
Lemma segs_stat c st : segs_ok st -> segs_ok (TCP_STAT_INC c st).
Proof. by apply segs_ext. Qed.
Lemma segs_ttl t st : segs_ok st -> T t -> segs_ok (set_ttl t st).
Proof. intros [H1 H2 _] Ht. split; [exact H1|done|done]. Qed.

Lemma segs_submit q st : segs_ok st -> segment_ok q -> segs_ok (submit_data q st).
Proof. intros [H1 H2 H3] Hq. split; [exact H1| |done]. by apply Forall_app, conj; [|apply Forall_singleton]. Qed.

Lemma segs_set d f st : segs_ok st -> Forall segment_ok (tsegs f) -> segs_ok (set_flow d f st).
Proof.
  intros [H1 H2 H3] Hf. split; [|exact H2|exact H3]. intros d'. destruct d, d'; simpl; [exact Hf|apply (H1 false)|apply (H1 true)|exact Hf].
Qed.

Lemma segs_upd d g st : segs_ok st -> Forall segment_ok (tsegs (g (flow d st))) -> segs_ok (upd_flow d g st).
Proof. apply segs_set. Qed.

Lemma segs_same d g st : segs_ok st -> tsegs (g (flow d st)) = tsegs (flow d st) -> segs_ok (upd_flow d g st).
Proof. intros H E. apply segs_upd; [done|]. rewrite E. apply H. Qed.

Create HintDb segs.
#[local] Hint Resolve segs_free segs_pool segs_stat segs_ttl segs_submit segs_set segs_same : segs.
#[local] Hint Resolve segs_flow segs_submitted : segs.

Lemma segs_send d st q : segs_ok st -> segment_ok q -> segs_ok (send_packet d st q).
Proof.
  intros H Hq. unfold send_packet. apply segs_pool, segs_submit; [|done]. apply segs_upd; [done|].
  simpl. pose proof (segs_flow _ H d) as Hd. destruct (tsegs (flow d st)); [done|]. by inversion Hd.
Qed.

Lemma segs_send_all d l st : segs_ok st -> Forall segment_ok l -> segs_ok (foldl (send_packet d) st l).
Proof. revert st. induction l as [|q l IH]; intros st H Hl; simpl; [done|]. inversion Hl; subst. by apply IH; [apply segs_send|]. Qed.

Lemma segs_flush d st : segs_ok st -> segs_ok (tcp_flow_flush d st).
Proof. intros H. apply segs_upd; [|done]. apply segs_send_all; [done|apply H]. Qed.

Lemma segs_flush_lock st : segs_ok st -> segs_ok (tcp_flow_flush_lock st).
Proof.
  intros H. unfold tcp_flow_flush_lock. set (st1 := set_flow true _ _).
  assert (segs_ok st1) as H1 by (apply segs_set; [apply segs_send_all; [done|apply (segs_flow _ H true)]|done]).
  apply segs_set; [|done]. apply segs_send_all; [done|apply (segs_flow _ H1 false)].
Qed.

Lemma segs_acked d l st : segs_ok st -> Forall segment_ok l -> segs_ok (send_acked d l st).
Proof.
  revert st. induction l as [|q l IH]; intros st H Hl; simpl; [done|]. inversion Hl; subst. zcase.
  - by apply IH; [apply segs_send|].
  - by apply segs_same.
Qed.

Lemma segs_reverse d ack st : segs_ok st -> segs_ok (send_reverse_tcpflow d ack st).
Proof.
  intros H. unfold send_reverse_tcpflow. destruct (negb _); [by apply segs_flush|].
  pose proof (segs_acked d _ st H (segs_flow _ H d)) as H1. destruct (tsegs (flow d (send_acked _ _ _))) eqn:E.
  - by apply segs_upd.
  - apply segs_upd; [done|]. simpl. rewrite E. rewrite <- E. apply H1.
Qed.

Lemma split_forall (P : tseg_qent -> Prop) sequence l :
  Forall P l -> Forall P (split_at sequence l).1 /\ Forall P (split_at sequence l).2.
Proof.
  induction 1 as [|q l Hq Hl [IH1 IH2]]; simpl; [done|]. destruct (SEQ_GT _ _); [by split; [|constructor]|].
  destruct (split_at sequence l). by split; [constructor|].
Qed.

Lemma small_s32 n : 0 <= n <= FRC_PAYLOAD_LEN_MAX -> s32 n = n.
Proof. unfold FRC_PAYLOAD_LEN_MAX. intros Hn. apply wraps_id; simpl; lia. Qed.

(** The front of a segment is cut off. *)
Lemma segment_drop q i sq : segment_ok q -> 0 < i < data_len q ->
  segment_ok (Qent sq (ack_num q) (nxt_seq q) (work q) (drop (Z.to_nat i) (data q)) (direction q)).
Proof. intros [Hl Hd] Hi. split; [|done]. unfold data_len in *. simpl. rewrite length_drop. lia. Qed.

Lemma trim_forall sequence len l : Forall segment_ok l ->
  Forall segment_ok (trim_next sequence len l).1 /\ Forall segment_ok (trim_next sequence len l).2.
Proof.
  induction 1 as [|q l Hq Hl [IH1 IH2]]; simpl; [done|].
  destruct (Z.leb_spec (s32 (sequence + len - seq q)) 0); [by split; [|constructor]|].
  pose proof Hq as [Hlen _]. rewrite (small_s32 (data_len q)) by lia.
  destruct (Z.ltb_spec (s32 (sequence + len - seq q)) (data_len q)).
  - split; [done|]. constructor; [|done]. apply segment_drop; [done|lia].
  - destruct (trim_next sequence len l). by split; [constructor|].
Qed.

Lemma segs_covered l st : segs_ok st -> segs_ok (foldl drop_covered st l).
Proof.
  revert st. induction l as [|q l IH]; intros st H; simpl; [done|]. apply IH. unfold drop_covered. eauto with segs.
Qed.

(** A packet's payload and direction. *)
Definition payload_ok (dat : list Z) (dir : Z) : Prop :=
  Z.of_nat (length dat) <= FRC_PAYLOAD_LEN_MAX /\ (dir = 0 \/ dir = 1).

Lemma payload_drop dat dir n : payload_ok dat dir -> payload_ok (drop n dat) dir.
Proof. intros [H1 H2]. split; [|done]. rewrite length_drop. lia. Qed.

(** The outermost test. *)
#[local] Ltac ifb := match goal with |- segs_ok (if ?b then _ else _) => destruct b eqn:? end; zb.

Lemma segs_insert depth d a b w sequence ack dat th_flags dir st :
  segs_ok st -> Forall segment_ok a -> Forall segment_ok b -> payload_ok dat dir ->
  (dat <> [] \/ has_flag th_flags TH_SYN = true) ->
  segs_ok (insert_segment depth d a b w sequence ack dat th_flags dir st).
Proof.
  intros H Ha Hb [Hdat Hdir] Hne. unfold insert_segment.
  destruct (trim_forall sequence (Z.of_nat (length dat)) b Hb) as [Hr Hb'].
  destruct (trim_next sequence (Z.of_nat (length dat)) b) as [removed b']. simpl in Hr, Hb'.
  match goal with |- context [upd_flow d ?g (if ?c then ?x else ?y)] => set (st1 := upd_flow d g (if c then x else y)) end.
  assert (segs_ok st1) as H1.
  { apply segs_upd; [|by apply Forall_app]. destruct (trim_partial _ _ _); [apply segs_stat|]; by apply segs_covered. }
  destruct (has_flag th_flags TH_SYN); [by apply segs_stat, segs_pool, segs_free|].
  destruct Hne as [Hne|]; [|done].
  match goal with |- context [Qent (u32 sequence) ack ?n w dat dir] => set (te := Qent (u32 sequence) ack n w dat dir) end.
  assert (segment_ok te) as Hte.
  { split; [|done]. unfold data_len. simpl. destruct dat; simpl in *; [done|lia]. }
  match goal with |- context [if _ then tcp_flow_flush d ?x else _] => set (st2 := x) end.
  assert (segs_ok st2) as H2 by (apply segs_upd; [done|by apply Forall_app, conj, Forall_cons]).
  destruct (_ || _); [by apply segs_flush|]. zcase; [by apply segs_same|done].
Qed.

Lemma segs_reass_queue depth d w sequence ack dat th_flags dir st :
  segs_ok st -> payload_ok dat dir -> (dat <> [] \/ has_flag th_flags TH_SYN = true) ->
  segs_ok (reass_queue depth d w sequence ack dat th_flags dir st).
Proof.
  intros H Hdat Hne. unfold reass_queue. destruct (split_forall _ sequence _ (segs_flow _ H d)) as [Ha Hb].
  destruct (split_at sequence (tsegs (flow d st))) as [a b]. simpl in Ha, Hb.
  destruct (last a) as [p|] eqn:Ep; [|by apply segs_insert].
  assert (segment_ok p) as [Hp Hpd].
  { apply (proj1 (Forall_forall _ _) Ha). by apply last_Some_elem_of in Ep. }
  ifb; [by apply segs_stat, segs_pool, segs_free|]. ifb; [by apply segs_insert|].
  rewrite (small_s32 (Z.of_nat (length dat))) in * by (destruct Hdat; lia).
  ifb; [by apply segs_stat, segs_pool, segs_free|]. ifb.
  - apply segs_stat, segs_stat, segs_upd; [by apply segs_free, segs_pool|]. simpl. apply Forall_app. split.
    + apply Forall_forall. intros q Hq. apply (proj1 (Forall_forall _ _) Ha). destruct (last_Some a p) as [[a' ->] _]; [done|].
      rewrite removelast_last in Hq. apply elem_of_app. by left.
    + constructor; [|done]. split; [|done]. unfold data_len. simpl. destruct Hdat. lia.
  - apply segs_insert; [by apply segs_stat|done|done|by apply payload_drop|].
    left. intros E. apply (f_equal length) in E. rewrite length_drop in E. simpl in E. lia.
Qed.

Hypothesis T_zero : T 0.

Lemma segs_reass depth w sequence ack dat th_flags dir st :
  segs_ok st -> payload_ok dat dir ->
  (dat <> [] \/ has_flag th_flags (Z.lor TH_SYN (Z.lor TH_FIN TH_RST)) = true) ->
  segs_ok (reass_tcp depth w sequence ack dat th_flags dir st).
Proof using T_zero.
  intros H Hdat Hne. unfold reass_tcp. destruct (_ <? _); [by apply segs_stat, segs_free|].
  match goal with |- context [if ?c then send_reverse_tcpflow ?d ack st else st] =>
    set (st1 := if c then send_reverse_tcpflow d ack st else st) end.
  assert (segs_ok st1) as H1 by (unfold st1; destruct (_ && _); [by apply segs_reverse|done]).
  destruct (has_flag th_flags (Z.lor TH_FIN TH_RST)) eqn:Ef.
  { unfold frcore_remove_chain_by_timer. pose proof (segs_flush (dir =? FRC_SSN_POSIVTE_FLOW) _ (segs_stat stat_ssn_drop _ (segs_free w _ H1))) as H2.
    zcase; [|apply segs_ttl]; done. }
  ifb; [by apply segs_stat, segs_free|]. ifb; [by apply segs_stat, segs_free|].
  apply segs_reass_queue; [by apply segs_pool|done|]. destruct Hne as [|Hne]; [by left|right].
  unfold has_flag in *. rewrite Z.land_lor_distr_r in Hne. apply negb_false_iff, Z.eqb_eq in Ef.
  rewrite Ef, Z.lor_0_r in Hne. exact Hne.
Qed.

Lemma segs_recovery depth w len protocol data_length sequence ack dat th_flags dir st :
  segs_ok st -> 0 <= data_length <= Z.of_nat (length dat) -> data_length <= FRC_PAYLOAD_LEN_MAX -> (dir = 0 \/ dir = 1) ->
  exists st', tcp_flow_recovery depth w len protocol data_length sequence ack dat th_flags dir st = Some st' /\ segs_ok st'.
Proof using T_zero.
  intros H Hl Hm Hdir. unfold tcp_flow_recovery. zcase.
  2: { eexists. split; [done|]. by apply segs_stat, segs_free. }
  match goal with |- context [reass_tcp _ _ _ _ _ _ _ ?x] => set (st1 := x) end.
  assert (segs_ok st1) as H1 by (by eapply segs_ext; [| | | |exact H]).
  destruct ((data_length =? 0) && _) eqn:E; [by eexists; split; [|apply segs_stat, segs_free]|].
  rewrite (proj2 (Z.leb_le _ _)), (proj2 (Z.leb_le data_length _)) by lia. simpl. eexists. split; [done|].
  apply segs_reass; [done| |].
  - split; [|done]. rewrite length_take. lia.
  - apply andb_false_iff in E as [E|E]; [left|right; by apply negb_false_iff in E].
    zb. intros Ht. apply (f_equal length) in Ht. rewrite length_take in Ht. simpl in Ht. lia.
Qed.
End segs.
