(* ===== verification/Ssn.v ===== *)
(** * The session table: src/code/frcore/frcore_ssn.c, frcore_ssn.h, frcore_ssn_priv.h, frcore_tcp.c

    A packet of TCP is looked up by its five-tuple, sorted so that both directions
    meet, in a table of 2^18 entries; an entry that is taken chains further ones from a
    pool.  A packet without a session creates one, with a timer; the packet goes to
    flow recovery ([TcpFlow]), whose segments are packed into blocks ([SsnBlock]).  Each
    time the timer fires the session ages; an expired session is flushed and purged.

    The pool and the unit that computes the CRC belong to the processor: the first is the
    interface [Fpa], the second a parameter.  What the timer unit answers is data of
    the state. *)

From stdpp Require Import list functions.
From S2P Require Import Prelude Bytes VlanCheck TcpFlow Chan SsnBlock.
#[local] Open Scope Z_scope.

Definition SSN_HASH_BUCKET_SIZE_BITS : Z := 18.
Definition SSN_HASH_BUCKET_SIZE : Z := Z.shiftl 1 SSN_HASH_BUCKET_SIZE_BITS.
Definition SSN_HASH_BUCKET_SIZE_MASK : Z := SSN_HASH_BUCKET_SIZE - 1.
Definition SSN_TOTAL_NUM : Z := 300000.
Definition MPP_SSN_HASH_MASK_SNIFFER : Z := 0xffffffffff000000.
Definition MPP_SSN_HASH_MASK_DATA64 : Z := 0xffffffffffff0000.
Definition MPP_SSN_ACTION_TCPFLOWREC : Z := 0x8.
Definition SSN_STATUS_GOOD : Z := 0x00000001.
Definition SSN_STATUS_EMPTY : Z := 0x00000002.
Definition SSN_STATUS_EXPIRED : Z := 0x00000004.
Definition SSN_STATUS_HOST : Z := 0x00000008.
Definition SSN_STATUS_MACHINE_MASK : Z :=
  Z.ldiff (Z.ones 32) (Z.lor SSN_STATUS_EMPTY (Z.lor SSN_STATUS_EXPIRED (Z.lor SSN_STATUS_HOST (Z.shiftl 1 31)))).
Definition SSN_INDEX_INVALID : Z := 0xffffffff.
Definition FRCORE_SSN_AGE_MIN : Z := 1.
Definition FRCORE_SSN_AGE_MAX : Z := 250.
Definition FRCORE_WORK_SSN_AGE : Z := 6.
Definition GROUP_TO_DATA_PLANE_AGING : Z := 13.
Definition SESSION_STAGING : Z := Z.shiftl 0x02 28.
Definition FRCORE_ACT_DROP : Z := 1.
Definition FRCORE_ACT_UNFREE : Z := 4.
Definition FRCORE_SSN_LOOKUP_MAX : Z := 2.

(** ** Tuples *)

(** [mpp_tuple] as its two 64-bit words; a session's key begins with the same words. *)
Record mpp_tuple : Type := Tuple { data_0 : Z; data_1 : Z }.

Definition t_sip (t : mpp_tuple) : Z := Z.shiftr (data_0 t) 32.
Definition t_dip (t : mpp_tuple) : Z := Z.land (data_0 t) 0xffffffff.
Definition t_sp (t : mpp_tuple) : Z := Z.shiftr (data_1 t) 48.
Definition t_dp (t : mpp_tuple) : Z := Z.land (Z.shiftr (data_1 t) 32) 0xffff.
Definition t_proto (t : mpp_tuple) : Z := Z.land (Z.shiftr (data_1 t) 24) 0xff.
(** [data_32[2]], the ports *)
Definition t_ports (t : mpp_tuple) : Z := Z.shiftr (data_1 t) 32.

Definition word_0 (sip dip : Z) : Z := Z.lor (Z.shiftl sip 32) dip.
Definition word_1 (sp dp proto : Z) : Z := Z.lor (Z.shiftl sp 48) (Z.lor (Z.shiftl dp 32) (Z.shiftl proto 24)).

Definition ssn_sort_tuple (src : mpp_tuple) : mpp_tuple :=
  if t_dip src <=? t_sip src
  then Tuple (data_0 src) (word_1 (t_sp src) (t_dp src) (t_proto src))
  else Tuple (word_0 (t_dip src) (t_sip src)) (word_1 (t_dp src) (t_sp src) (t_proto src)).

Definition ssn_direction_tuple (src des : mpp_tuple) : Z :=
  if (data_0 src =? data_0 des) && (t_ports src =? t_ports des) then 0 else 1.

(** ** Sessions *)

(** An entry of the table or a block of the pool. *)
Inductive ssn_ptr : Type := slot (i : Z) | block (a : Z).

#[export] Instance ssn_ptr_eq_dec : EqDecision ssn_ptr.
Proof. solve_decision. Defined.

(** The fields of the work queue entry a session begins with; its tag type is the
    SDK's constant. *)
Record ssn_wqe : Type := SsnWqe { qos : Z; wqe_unused : Z; ipprt : Z; grp : Z; tag : Z }.

(** [mpp_ssn]; of [cont] only the words with the two addresses are used. *)
Record mpp_ssn : Type := MppSsn {
  s_wqe : ssn_wqe; s_key : mpp_tuple; key_2 : Z; key_3 : Z; s_cont_1 : Z; s_cont_2 : Z; s_addr : ssn_addr;
  s_pkts : Z; s_bytes : Z; next_sc : option ssn_ptr; ssn_status : Z; s_index : Z; s_ttl : Z; s_age : Z;
  s_seq : Z; s_ack_seq : Z; tcp_flow_positive_data : tcp_flow_data; tcp_flow_negative_data : tcp_flow_data }.

Definition with_next (n : option ssn_ptr) (e : mpp_ssn) : mpp_ssn :=
  MppSsn (s_wqe e) (s_key e) (key_2 e) (key_3 e) (s_cont_1 e) (s_cont_2 e) (s_addr e) (s_pkts e) (s_bytes e) n
    (ssn_status e) (s_index e) (s_ttl e) (s_age e) (s_seq e) (s_ack_seq e) (tcp_flow_positive_data e)
    (tcp_flow_negative_data e).
Definition with_status (s : Z) (e : mpp_ssn) : mpp_ssn :=
  MppSsn (s_wqe e) (s_key e) (key_2 e) (key_3 e) (s_cont_1 e) (s_cont_2 e) (s_addr e) (s_pkts e) (s_bytes e) (next_sc e)
    s (s_index e) (s_ttl e) (s_age e) (s_seq e) (s_ack_seq e) (tcp_flow_positive_data e) (tcp_flow_negative_data e).
Definition with_ttl (t : Z) (e : mpp_ssn) : mpp_ssn :=
  MppSsn (s_wqe e) (s_key e) (key_2 e) (key_3 e) (s_cont_1 e) (s_cont_2 e) (s_addr e) (s_pkts e) (s_bytes e) (next_sc e)
    (ssn_status e) (s_index e) t (s_age e) (s_seq e) (s_ack_seq e) (tcp_flow_positive_data e) (tcp_flow_negative_data e).
Definition with_addr (a : ssn_addr) (e : mpp_ssn) : mpp_ssn :=
  MppSsn (s_wqe e) (s_key e) (key_2 e) (key_3 e) (s_cont_1 e) (s_cont_2 e) a (s_pkts e) (s_bytes e) (next_sc e)
    (ssn_status e) (s_index e) (s_ttl e) (s_age e) (s_seq e) (s_ack_seq e) (tcp_flow_positive_data e)
    (tcp_flow_negative_data e).
(** The fields flow recovery changes. *)
Definition with_tcp (t : tcp_state) (e : mpp_ssn) : mpp_ssn :=
  MppSsn (s_wqe e) (s_key e) (key_2 e) (key_3 e) (s_cont_1 e) (s_cont_2 e) (s_addr e) (ssn_pkts t) (ssn_bytes t)
    (next_sc e) (ssn_status e) (s_index e) (ttl t) (s_age e) (s_seq e) (s_ack_seq e) (positive t) (negative t).

(** [key.action] and [key.tcpflowrec], one of its bits. *)
Definition key_action (e : mpp_ssn) : Z := Z.land (Z.shiftr (data_1 (s_key e)) 5) 0xf.
Definition key_tcpflowrec (e : mpp_ssn) : bool := Z.testbit (data_1 (s_key e)) 8.
Definition set_key_action (v w : Z) : Z := Z.lor (Z.ldiff w (Z.shiftl 0xf 5)) (Z.shiftl (Z.land v 0xf) 5).

Definition addr_unset (a : ssn_addr) : ssn_addr :=
  SsnAddr (block_addr a) (head_offset a) (info_offset a) (payload_offset a) 0 (payload_len a) (pkt_num a).

Definition ssn_add (e : mpp_ssn) : mpp_ssn :=
  with_status (Z.lor (Z.ldiff (ssn_status e) SSN_STATUS_MACHINE_MASK) SSN_STATUS_GOOD) e.
Definition set_mac (mac w : Z) : Z := Z.lor (Z.ldiff w MAC_MASK) (Z.land mac MAC_MASK).

(** What identifies the session to the packing. *)
Definition id_of (e : mpp_ssn) : ssn_id :=
  SsnId (s_index e) (t_sip (s_key e)) (t_dip (s_key e)) (t_sp (s_key e)) (t_dp (s_key e)) (t_proto (s_key e))
    (s_cont_1 e) (s_cont_2 e).

(** ** The table *)

Inductive table_stat : Type :=
| stat_ssn_tim_failed | stat_ssn_tim_addok | stat_ssn_tim_fired | stat_ssn_purge | stat_ssn_purge_unknown
| stat_ssn_purge_to_fpa | stat_ssn_fpa_free_err | stat_ssn_fpa_alloc_err | stat_ssn_fpa_failed
| stat_ssn_active_num | stat_ssn_fail_fin_or_rst | stat_ssn_fail_overflow | stat_ssn_prepared_by_fpa_alloc
| stat_ssn_fail | stat_ssn_prepare | stat_ssn_fwd_tcpflowrec
| stat_tcp_malformed_packet | stat_tcp_option | stat_tcp_payload_zero.

#[export] Instance table_stat_eq_dec : EqDecision table_stat.
Proof. solve_decision. Defined.

(** The pool of session blocks. *)
Class Fpa (P : Type) : Type := {
  cvmx_fpa_alloc : P -> option (Z * P);
  cvmx_fpa_free : Z -> P -> P;
  cvmx_fpa_is_member : Z -> bool }.

(** Memory, pool, timer unit (armed entries, and its next answers: 0 when it takes an
    entry), the parameters commands set, the pool of queue entries, the packing ([addr]
    and [taken] are of the session being worked on), for each session the cells the
    channel took since its creation, and those of the sessions purged; statistics. *)
Record table (C P : Type) : Type := Table {
  ssn_mem : ssn_ptr -> mpp_ssn; ssn_fpa : P; tim_entries : list ssn_ptr; tim_results : list Z;
  frcore_ssn_age : Z; disorder_depth : Z; qent_free : Z; out : pack C;
  sent : ssn_ptr -> list ssn_cell; closed : list (ssn_id * list ssn_cell);
  tcp_counters : tcp_stat -> Z; tab_stats : table_stat -> Z }.
#[global] Arguments Table {C P}.
#[global] Arguments ssn_mem {C P}.
#[global] Arguments ssn_fpa {C P}.
#[global] Arguments tim_entries {C P}.
#[global] Arguments tim_results {C P}.
#[global] Arguments frcore_ssn_age {C P}.
#[global] Arguments disorder_depth {C P}.
#[global] Arguments qent_free {C P}.
#[global] Arguments out {C P}.
#[global] Arguments sent {C P}.
#[global] Arguments closed {C P}.
#[global] Arguments tcp_counters {C P}.
#[global] Arguments tab_stats {C P}.

(** ** Packets *)

(** A work queue entry with a TCP packet: its name, length and the bytes from the IP
    header on; and the fields of the headers. *)
Record tcp_work : Type := TcpWork { w_name : Z; w_len : Z; w_ip : list Z }.
Record tcp_header : Type := TcpHeader {
  th_ihl : Z; th_tot_len : Z; th_protocol : Z; th_tuple : mpp_tuple; th_seq : Z; th_ack_seq : Z; th_doff : Z;
  th_flags : Z }.

Definition parse_tcp (ip : list Z) : option tcp_header :=
  b0 ← arr_get ip 0; let ihl := Z.land b0 0xf in let th := 4 * ihl in
  tot_len ← UP16 ip 2; proto ← arr_get ip 9; saddr ← UP32 ip 12; daddr ← UP32 ip 16;
  source ← UP16 ip th; dest ← UP16 ip (th + 2); seq ← UP32 ip (th + 4); ack ← UP32 ip (th + 8);
  off ← arr_get ip (th + 12); flags ← arr_get ip (th + 13);
  Some (TcpHeader ihl tot_len proto (Tuple (word_0 saddr daddr) (word_1 source dest proto)) seq ack
    (Z.shiftr off 4) flags).

(** The bytes of the TCP header and of the IP header together, and of the payload. *)
Definition tcp_headers (h : tcp_header) : Z := 4 * (th_ihl h + th_doff h).
Definition tcp_payload (h : tcp_header) : Z := th_tot_len h - tcp_headers h.

Section table.
Context {C P : Type} `{SsnSink C} `{Fpa P}.
(** The CRC unit on two words, the clock frequency, what the stack holds in a header,
    and a bound on the entries of a chain. *)
Variables (crc : Z -> Z -> Z) (cpu_freq : Z) (hdr_stack : list Z) (fuel : nat).

#[local] Abbreviation tab := (table C P).

(** ** Access *)
Definition set_mem (m : ssn_ptr -> mpp_ssn) (st : tab) : tab :=
  Table m (ssn_fpa st) (tim_entries st) (tim_results st) (frcore_ssn_age st) (disorder_depth st) (qent_free st)
    (out st) (sent st) (closed st) (tcp_counters st) (tab_stats st).
Definition set_fpa (p : P) (st : tab) : tab :=
  Table (ssn_mem st) p (tim_entries st) (tim_results st) (frcore_ssn_age st) (disorder_depth st) (qent_free st)
    (out st) (sent st) (closed st) (tcp_counters st) (tab_stats st).
Definition set_tim (l : list ssn_ptr) (r : list Z) (st : tab) : tab :=
  Table (ssn_mem st) (ssn_fpa st) l r (frcore_ssn_age st) (disorder_depth st) (qent_free st)
    (out st) (sent st) (closed st) (tcp_counters st) (tab_stats st).
Definition set_out (q : Z) (c : tcp_stat -> Z) (o : pack C) (st : tab) : tab :=
  Table (ssn_mem st) (ssn_fpa st) (tim_entries st) (tim_results st) (frcore_ssn_age st) (disorder_depth st) q
    o (sent st) (closed st) c (tab_stats st).
Definition set_logs (s : ssn_ptr -> list ssn_cell) (c : list (ssn_id * list ssn_cell)) (st : tab) : tab :=
  Table (ssn_mem st) (ssn_fpa st) (tim_entries st) (tim_results st) (frcore_ssn_age st) (disorder_depth st) (qent_free st)
    (out st) s c (tcp_counters st) (tab_stats st).
Definition stat_add (c : table_stat) (n : Z) (st : tab) : tab :=
  Table (ssn_mem st) (ssn_fpa st) (tim_entries st) (tim_results st) (frcore_ssn_age st) (disorder_depth st) (qent_free st)
    (out st) (sent st) (closed st) (tcp_counters st) (<[c := wraps 64 (tab_stats st c + n)]> (tab_stats st)).
Definition stat_inc (c : table_stat) (st : tab) : tab := stat_add c 1 st.

Definition upd (p : ssn_ptr) (g : mpp_ssn -> mpp_ssn) (st : tab) : tab :=
  set_mem (<[p := g (ssn_mem st p)]> (ssn_mem st)) st.

(** [&gsdata.ssn[i]] *)
Definition ssn_slot (i : Z) : option ssn_ptr :=
  if (0 <=? i) && (i <? SSN_HASH_BUCKET_SIZE) then Some (slot i) else None.

Definition has_status (e : mpp_ssn) (mask : Z) : bool := negb (Z.land (ssn_status e) mask =? 0).

(** ** Lookup *)
Definition ssn_hash_by_tuple (t : mpp_tuple) (mask : Z) : Z := Z.land (u32 (crc (data_0 t) (data_1 t))) mask.

(** The comparison of a session's key with a tuple. *)
Definition same_flow (k t : mpp_tuple) (mask : Z) : bool :=
  ((data_0 k =? data_0 t) && (Z.land (data_1 k) mask =? Z.land (data_1 t) mask)) ||
  ((t_sip k =? t_dip t) && (t_dip k =? t_sip t) && (t_sp k =? t_dp t) && (t_dp k =? t_sp t) && (t_proto k =? t_proto t)).

Fixpoint search_chain (n : nat) (o : option ssn_ptr) (t : mpp_tuple) (mask : Z) (st : tab) : option (option ssn_ptr) :=
  match n, o with
  | O, _ => None
  | _, None => Some None
  | S n, Some p =>
    if same_flow (s_key (ssn_mem st p)) t mask then Some (Some p)
    else search_chain n (next_sc (ssn_mem st p)) t mask st
  end.

Definition ssn_lookup_by_tuple (index : Z) (t : mpp_tuple) (mask : Z) (st : tab) : option (option ssn_ptr) :=
  h ← ssn_slot index;
  let e := ssn_mem st h in
  if negb (has_status e SSN_STATUS_EMPTY) && same_flow (s_key e) t mask then Some (Some h)
  else search_chain fuel (next_sc e) t mask st.

(** ** Working on a session *)

(** The packing with the place of session [p]. *)
Definition load_pack (p : ssn_ptr) (st : tab) : pack C :=
  let o := out st in
  Pack (s_addr (ssn_mem st p)) (ssn_block_exhaust o) (ssn_last_display o) (cycles o) (sink o) (sent st p)
    (wqe_freed o) (ssn_stats o).

(** [f] on the packing of session [p]. *)
Definition on_session (p : ssn_ptr) (f : ssn_id -> pack C -> option (Z * pack C)) (st : tab) : option tab :=
  '(_, o) ← f (id_of (ssn_mem st p)) (load_pack p st);
  Some (set_logs (<[p := taken o]> (sent st)) (closed st)
    (set_out (qent_free st) (tcp_counters st) o (upd p (with_addr (addr o)) st))).

(** The flows of session [p], and what they share. *)
Definition load_tcp (p : ssn_ptr) (st : tab) : tcp_state :=
  let e := ssn_mem st p in
  TcpState (s_seq e) (s_ack_seq e) (s_ttl e) (s_pkts e) (s_bytes e) (tcp_flow_positive_data e)
    (tcp_flow_negative_data e) (qent_free st) [] [] (tcp_counters st).

(** [f] on the flows of session [p]; the segments it submits are packed, whatever the
    answer, in the order of their submission. *)
Definition run_flow (p : ssn_ptr) (f : tcp_state -> option tcp_state) (st : tab) : option tab :=
  t ← f (load_tcp p st);
  let o := foldl (fun o w => frcore_work_free w o) (out st) (freed t) in
  on_session p (fun id o => '(_, o) ← submit_all cpu_freq id hdr_stack (submitted t) o; Some (0, o))
    (set_out (qent_pool t) (tcp_stats t) o (upd p (with_tcp t) st)).

(** ** Timers, creation and purge *)
Definition ssn_add_timer (p : ssn_ptr) (st : tab) : Z * tab :=
  let r := match tim_results st with [] => 0 | r :: _ => r end in
  if r =? 0 then (0, stat_inc stat_ssn_tim_addok (set_tim (tim_entries st ++ [p]) (tail (tim_results st)) st))
  else (-1, stat_inc stat_ssn_tim_failed (set_tim (tim_entries st) (tail (tim_results st)) st)).

(** The entry whose successor is [p]. *)
Fixpoint find_prev (n : nat) (o : option ssn_ptr) (p : ssn_ptr) (st : tab) : option (option ssn_ptr) :=
  match n, o with
  | O, _ => None
  | _, None => Some None
  | S n, Some q =>
    if decide (next_sc (ssn_mem st q) = Some p) then Some (Some q) else find_prev n (next_sc (ssn_mem st q)) p st
  end.

Definition fpa_free (p : ssn_ptr) (st : tab) : option tab :=
  match p with block a => Some (set_fpa (cvmx_fpa_free a (ssn_fpa st)) st) | slot _ => None end.

Definition ssn_purge_ssn_nolock (p : ssn_ptr) (st : tab) : option tab :=
  h ← ssn_slot (s_index (ssn_mem st p));
  if decide (p = h) then Some (upd p (fun e => with_status (Z.lor (ssn_status e) SSN_STATUS_EMPTY) e) st)
  else
    q ← find_prev fuel (Some h) p st;
    let st := match q with None => st | Some q => upd q (with_next (next_sc (ssn_mem st p))) st end in
    fpa_free p (stat_inc stat_ssn_purge_to_fpa st).

(** The session's last block is completed. *)
Definition submit_header (p : ssn_ptr) (st : tab) : option tab :=
  st ← on_session p (fun id => sbumit_dma_header_to_fifo id hdr_stack) st;
  Some (set_logs (<[p := []]> (sent st)) (closed st ++ [(id_of (ssn_mem st p), sent st p)]) st).

Definition ssn_purge_ssn (p : ssn_ptr) (st : tab) : option tab :=
  h ← ssn_slot (s_index (ssn_mem st p));
  let st := stat_inc stat_ssn_purge st in
  if decide (p = h) then
    let st := upd p (fun e =>
      with_status (Z.ldiff (Z.lor (ssn_status e) SSN_STATUS_EMPTY) SSN_STATUS_GOOD) e) st in
    st ← submit_header p st; Some (stat_add stat_ssn_active_num (-1) st)
  else
    q ← find_prev fuel (Some h) p st;
    st ← match q with
         | None => Some (stat_inc stat_ssn_purge_unknown st)
         | Some q => submit_header p (upd q (with_next (next_sc (ssn_mem st p))) st)
         end;
    let st := stat_inc stat_ssn_purge_to_fpa st in
    match p with
    | slot _ => Some (stat_inc stat_ssn_fpa_free_err st)
    | block a =>
      if cvmx_fpa_is_member a
      then st ← fpa_free p st; Some (stat_add stat_ssn_active_num (-1) st)
      else Some (stat_inc stat_ssn_fpa_free_err st)
    end.

(** Where a new session goes: the empty entry of the table or a block in front of the
    chain. *)
Definition prepare_entry (h : ssn_ptr) (st : tab) : option ssn_ptr * tab :=
  let empty := has_status (ssn_mem st h) SSN_STATUS_EMPTY in
  let st := upd h (fun e => with_status (Z.ldiff (ssn_status e) SSN_STATUS_EMPTY) e) st in
  if empty then (Some h, upd h (fun e => with_addr (addr_unset (s_addr e)) e) st) else
  let a := cvmx_fpa_alloc (ssn_fpa st) in
  let st := stat_inc stat_ssn_prepared_by_fpa_alloc st in
  match a with
  | Some (a, fp) =>
    let st := set_fpa fp st in
    if cvmx_fpa_is_member a then
      let st := upd (block a) (fun e => with_next (next_sc (ssn_mem st h)) (with_addr (addr_unset (s_addr e))
        (with_status SSN_STATUS_EMPTY e))) st in
      (Some (block a), upd h (with_next (Some (block a))) st)
    else (None, stat_add stat_ssn_fpa_alloc_err 1 st)
  | None => (None, stat_add stat_ssn_active_num (-1) (stat_add stat_ssn_fpa_failed 1 st))
  end.

(** The fields of a new session. *)
Definition prepare_fields (index : Z) (t : mpp_tuple) (mask seq ack age : Z) (e : mpp_ssn) : mpp_ssn :=
  MppSsn (SsnWqe 1 FRCORE_WORK_SSN_AGE 0 GROUP_TO_DATA_PLANE_AGING (Z.lor index SESSION_STAGING))
    (Tuple (data_0 t) (set_key_action MPP_SSN_ACTION_TCPFLOWREC (Z.land (data_1 t) mask))) (key_2 e) (key_3 e)
    (s_cont_1 e) (s_cont_2 e) (s_addr e) 0 0 (next_sc e) (ssn_status e) index (s32 (u32 (age - 1))) (u32 (age - 1))
    seq ack (tcp_flow_positive_data e) (tcp_flow_negative_data e).

Definition ssn_prepare (index : Z) (t : mpp_tuple) (mask flags seq ack : Z) (st : tab) : option (option ssn_ptr * tab) :=
  if has_flag flags TH_FIN || has_flag flags TH_RST then Some (None, stat_inc stat_ssn_fail_fin_or_rst st) else
  let active := tab_stats st stat_ssn_active_num in
  let st := stat_add stat_ssn_active_num 1 st in
  if SSN_TOTAL_NUM <=? active
  then Some (None, stat_inc stat_ssn_fail_overflow (stat_add stat_ssn_active_num (-1) st)) else
  h ← ssn_slot index;
  let '(o, st) := prepare_entry h st in
  match o with
  | None => Some (None, st)
  | Some p =>
    let st := upd p (prepare_fields index t mask seq ack (frcore_ssn_age st)) st in
    let '(rv, st) := ssn_add_timer p st in
    if rv <? 0 then st ← ssn_purge_ssn_nolock p st; Some (None, st) else Some (Some p, st)
  end.

(** ** Packets *)

Definition ssn_execute_packet (w : tcp_work) (h : tcp_header) (p : ssn_ptr) (dir : Z) (st : tab) : option tab :=
  if negb (has_status (ssn_mem st p) SSN_STATUS_MACHINE_MASK) then Some st else
  let st := upd p (fun e => with_ttl (s32 (s_age e)) e) st in
  if key_action (ssn_mem st p) =? MPP_SSN_ACTION_TCPFLOWREC then
    st ← run_flow p (tcp_flow_recovery (disorder_depth st) (w_name w) (w_len w) (th_protocol h) (tcp_payload h)
      (th_seq h) (th_ack_seq h) (drop (Z.to_nat (tcp_headers h)) (w_ip w)) (th_flags h) dir) st;
    Some (stat_inc stat_ssn_fwd_tcpflowrec st)
  else Some st.

(** The fields of a session created for a packet. *)
Definition init_session (len smac dmac : Z) (e : mpp_ssn) : mpp_ssn :=
  let flow f := Flow 0 [] 0 (f_enable f) true in
  ssn_add (MppSsn (s_wqe e) (Tuple (data_0 (s_key e)) (set_key_action MPP_SSN_ACTION_TCPFLOWREC (data_1 (s_key e)))) 1 len
    (set_mac smac (s_cont_1 e)) (set_mac dmac (s_cont_2 e)) (s_addr e) (s_pkts e) (s_bytes e) (next_sc e)
    (ssn_status e) (s_index e) (s_ttl e) (s_age e) (s_seq e) (s_ack_seq e) (flow (tcp_flow_positive_data e))
    (flow (tcp_flow_negative_data e))).

(** The session of a tuple, found or created. *)
Definition find_or_prepare (w : tcp_work) (h : tcp_header) (smac dmac : Z) (st : tab) : option (option ssn_ptr * tab) :=
  let tuple := th_tuple h in
  let tuple_sort := ssn_sort_tuple tuple in
  let index := ssn_hash_by_tuple tuple_sort SSN_HASH_BUCKET_SIZE_MASK in
  o ← ssn_lookup_by_tuple index tuple_sort MPP_SSN_HASH_MASK_SNIFFER st;
  match o with
  | Some p => Some (Some p, st)
  | None =>
    '(o, st) ← ssn_prepare index tuple MPP_SSN_HASH_MASK_DATA64 (th_flags h) (th_seq h) (th_ack_seq h) st;
    match o with
    | None => Some (None, stat_inc stat_ssn_fail st)
    | Some p =>
      let st := set_logs (<[p := []]> (sent st)) (closed st) (stat_inc stat_ssn_prepare st) in
      Some (Some p, upd p (init_session (w_len w) smac dmac) st)
    end
  end.

Definition count_if (b : bool) (c : table_stat) (st : tab) : tab := if b then stat_inc c st else st.

Definition frcore_tcp_process (w : tcp_work) (smac dmac : Z) (st : tab) : option (Z * tab) :=
  h ← parse_tcp (w_ip w);
  if (Z.land (th_flags h) 0x3f =? 0x3f) || (Z.land (th_flags h) 0x3f =? 0)
  then Some (FRCORE_ACT_DROP, stat_inc stat_tcp_malformed_packet st) else
  if th_tot_len h <? tcp_headers h then Some (FRCORE_ACT_DROP, stat_inc stat_tcp_malformed_packet st) else
  let st := count_if (20 <? 4 * th_doff h) stat_tcp_option st in
  let st := count_if (tcp_payload h =? 0) stat_tcp_payload_zero st in
  '(o, st) ← find_or_prepare w h smac dmac st;
  match o with
  | None => Some (FRCORE_ACT_DROP, st)
  | Some p =>
    let k := s_key (ssn_mem st p) in
    let positive := Tuple (data_0 k) (Z.land (data_1 k) MPP_SSN_HASH_MASK_DATA64) in
    st ← ssn_execute_packet w h p (ssn_direction_tuple (th_tuple h) positive) st;
    Some (FRCORE_ACT_UNFREE, st)
  end.

(** ** Aging *)

(** The timer of [p] fires: whether the session is expired; nothing for work that is not
    of the timer's group. *)
Definition age_tick (p : ssn_ptr) (st : tab) : option (option bool * tab) :=
  if grp (s_wqe (ssn_mem st p)) =? GROUP_TO_DATA_PLANE_AGING then
    _ ← ssn_slot (s_index (ssn_mem st p));
    let st := stat_inc stat_ssn_tim_fired st in
    Some (Some (s_ttl (ssn_mem st p) =? 0), upd p (fun e => with_ttl (s32 (s_ttl e - 1)) e) st)
  else Some (None, st).

Definition age_expire (p : ssn_ptr) (st : tab) : option tab :=
  st ← (if key_tcpflowrec (ssn_mem st p) then run_flow p (fun t => Some (tcp_flow_flush_lock t)) st else Some st);
  ssn_purge_ssn p st.

(** The rest of the work, under the lock of the entry in the table. *)
Definition age_finish (p : ssn_ptr) (expired : bool) (st : tab) : option tab :=
  if expired then age_expire p st
  else let '(rv, st) := ssn_add_timer p st in if rv <? 0 then age_expire p st else Some st.

Definition frcore_ssn_age_process (p : ssn_ptr) (st : tab) : option (Z * tab) :=
  '(o, st) ← age_tick p st;
  match o with
  | Some expired => st ← age_finish p expired st; Some (FRE_SUCCESS, st)
  | None => Some (FRE_FAIL, st)
  end.

(** ** Queries and parameters *)

(** [frcore_ssn_stat_t] *)
Definition ssn_stat_of (e : mpp_ssn) : list Z :=
  [t_sip (s_key e); t_dip (s_key e); t_sp (s_key e); t_dp (s_key e); t_proto (s_key e); s_pkts e; s_bytes e].

(** The table's entry and the first of the chain, [FRCORE_SSN_LOOKUP_MAX] in all. *)
Definition frcore_get_ssn_by_hash (hash : Z) (st : tab) : option (list (list Z)) :=
  h ← ssn_slot (Z.land hash SSN_HASH_BUCKET_SIZE_MASK);
  let stat p := if has_status (ssn_mem st p) SSN_STATUS_GOOD then [ssn_stat_of (ssn_mem st p)] else [] in
  Some (stat h ++ match next_sc (ssn_mem st h) with Some p => stat p | None => [] end).

(** The session of a tuple whose other bits are whatever the stack holds. *)
Definition lookup_good (sip dip sp dp proto rest : Z) (st : tab) : option (option ssn_ptr) :=
  let tuple_sort := ssn_sort_tuple (Tuple (word_0 sip dip) (Z.lor (word_1 sp dp proto) rest)) in
  o ← ssn_lookup_by_tuple (ssn_hash_by_tuple tuple_sort SSN_HASH_BUCKET_SIZE_MASK) tuple_sort MPP_SSN_HASH_MASK_SNIFFER st;
  Some (match o with
        | Some p => if has_status (ssn_mem st p) SSN_STATUS_GOOD then Some p else None
        | None => None
        end).

Definition frcore_get_ssn_by_tuple (sip dip sp dp proto rest : Z) (st : tab) : option (Z * list Z) :=
  o ← lookup_good sip dip sp dp proto rest st;
  Some (match o with Some p => (FRE_SUCCESS, ssn_stat_of (ssn_mem st p)) | None => (FRE_NOTFOUND, []) end).

Definition frcore_match_ssn_by_tuple (sip dip sp dp proto rest : Z) (st : tab) : option Z :=
  o ← lookup_good sip dip sp dp proto rest st;
  Some (match o with Some _ => FRE_SUCCESS | None => FRE_NOTFOUND end).

Definition ssn_isgoodindex (index : Z) (st : tab) : option Z :=
  h ← ssn_slot index; Some (if has_status (ssn_mem st h) SSN_STATUS_GOOD then 1 else 0).

Definition set_params (age depth : Z) (st : tab) : tab :=
  Table (ssn_mem st) (ssn_fpa st) (tim_entries st) (tim_results st) age depth (qent_free st)
    (out st) (sent st) (closed st) (tcp_counters st) (tab_stats st).

Definition frcore_set_ssn_age (age : Z) (st : tab) : Z * tab :=
  if (age <? FRCORE_SSN_AGE_MIN) || (FRCORE_SSN_AGE_MAX <? age) then (FRE_EXCEED, st)
  else (FRE_SUCCESS, set_params age (disorder_depth st) st).
Definition frcore_get_ssn_age (st : tab) : Z := frcore_ssn_age st.

(** frcore_fr.c *)
Definition FRCORE_DISORDER_DEPTH_MIN : Z := 1.
Definition FRCORE_DISORDER_DEPTH_MAX : Z := 15.
Definition frcore_cmd_set_age_time (param : list Z) (st : tab) : option (Z * tab) :=
  b ← arr_get param 0; Some (frcore_set_ssn_age (u8 b) st).
Definition frcore_cmd_set_disorder_depth (param : list Z) (st : tab) : option (Z * tab) :=
  b ← arr_get param 0;
  Some (if (b <? FRCORE_DISORDER_DEPTH_MIN) || (FRCORE_DISORDER_DEPTH_MAX <? b) then (FRE_EXCEED, st)
        else (FRE_SUCCESS, set_params (frcore_ssn_age st) b st)).

(** ** Start-up (frcore_init.c) *)

(** The entries of the table, emptied one by one. *)
Definition init_entry (e : mpp_ssn) : mpp_ssn :=
  let w := s_wqe e in
  MppSsn (SsnWqe 1 (wqe_unused w) (ipprt w) GROUP_TO_DATA_PLANE_AGING (tag w)) (s_key e) (key_2 e) (key_3 e)
    (s_cont_1 e) (s_cont_2 e) (addr_unset (s_addr e)) (s_pkts e) (s_bytes e) None SSN_STATUS_EMPTY SSN_INDEX_INVALID
    (s_ttl e) (s_age e) (s_seq e) (s_ack_seq e) (Flow 0 [] 0 1 false) (Flow 0 [] 0 1 false).
Definition mc_init_data (st : tab) : tab :=
  set_mem (fun p => match p with
    | slot i => if (0 <=? i) && (i <? SSN_HASH_BUCKET_SIZE) then init_entry (ssn_mem st p) else ssn_mem st p
    | block _ => ssn_mem st p
    end) st.
End table.
