(* ===== verification/SsnTuple.v ===== *)
(** * Tuples of the session table

    The fields of a tuple's two words; the flow a tuple belongs to, whichever its
    direction; sorting, masking and comparing tuples as the table does. *)

From stdpp Require Import list.
From S2P Require Import Prelude Bytes Ssn.
#[local] Open Scope Z_scope.

(** Two 64-bit words. *)
Record tuple_ok (t : mpp_tuple) : Prop := TupleOk {
  t_word_0 : 0 <= data_0 t < 2 ^ 64; t_word_1 : 0 <= data_1 t < 2 ^ 64 }.

(** The ends of the connection, the larger first, and the protocol. *)
Definition canon (t : mpp_tuple) : Z * Z * Z :=
  let a := t_sip t * 2 ^ 16 + t_sp t in
  let b := t_dip t * 2 ^ 16 + t_dp t in (Z.max a b, Z.min a b, t_proto t).

(** The same connection seen from the other end. *)
Definition reverse_tuple (t : mpp_tuple) : mpp_tuple :=
  Tuple (word_0 (t_dip t) (t_sip t)) (word_1 (t_dp t) (t_sp t) (t_proto t)).

(** The ports and the protocol: the upper 40 bits of the second word. *)
Definition t_hi (t : mpp_tuple) : Z := Z.shiftr (data_1 t) 24.

Lemma shiftr_div x n : 0 <= n -> Z.shiftr x n = x / 2 ^ n.
Proof. apply Z.shiftr_div_pow2. Qed.

Lemma land_mask x n : 0 <= n -> Z.land x (Z.ones n) = x `mod` 2 ^ n.
Proof. apply Z.land_ones. Qed.

#[local] Ltac euclid := Z.to_euclidean_division_equations; lia.

#[local] Ltac pairs := repeat (apply pair_eq; split); lia.

Ltac fields :=
  unfold t_hi, t_sip, t_dip, t_sp, t_dp, t_proto, t_ports in *;
  change 0xffffffff with (Z.ones 32) in *; change 0xffff with (Z.ones 16) in *; change 0xff with (Z.ones 8) in *;
  rewrite ?land_mask, ?shiftr_div in * by lia.

Lemma hi_fields t : t_hi t = t_sp t * 2 ^ 24 + t_dp t * 2 ^ 8 + t_proto t.
Proof. fields. simpl. euclid. Qed.

Lemma word_0_fields t : data_0 t = t_sip t * 2 ^ 32 + t_dip t.
Proof. fields. simpl. euclid. Qed.

Lemma ports_fields t : t_ports t = t_sp t * 2 ^ 16 + t_dp t.
Proof. fields. simpl. euclid. Qed.

Lemma fields_range t : tuple_ok t ->
  0 <= t_sip t < 2 ^ 32 /\ 0 <= t_dip t < 2 ^ 32 /\ 0 <= t_sp t < 2 ^ 16 /\ 0 <= t_dp t < 2 ^ 16 /\ 0 <= t_proto t < 2 ^ 8.
Proof. intros [H0 H1]. fields. simpl in *. split_and!; euclid. Qed.

Lemma lor_add a b n : 0 <= n -> 0 <= b < 2 ^ n -> Z.lor (Z.shiftl a n) b = a * 2 ^ n + b.
Proof.
  intros Hn Hb. rewrite <- Z.shiftl_mul_pow2 by done. rewrite <- Z.add_lor_land.
  replace (Z.land (Z.shiftl a n) b) with 0; [lia|]. symmetry. apply Z.bits_inj'. intros i Hi.
  rewrite Z.land_spec, Z.bits_0. destruct (Z.lt_ge_cases i n); [by rewrite Z.shiftl_spec_low|].
  rewrite <- (Z.mod_small b (2 ^ n)), Z.mod_pow2_bits_high, andb_false_r by lia. done.
Qed.

Lemma word_0_add sip dip : 0 <= dip < 2 ^ 32 -> word_0 sip dip = sip * 2 ^ 32 + dip.
Proof. by apply lor_add. Qed.

Lemma word_1_hi sp dp proto : 0 <= dp < 2 ^ 16 -> 0 <= proto < 2 ^ 8 ->
  Z.shiftr (word_1 sp dp proto) 24 = sp * 2 ^ 24 + dp * 2 ^ 8 + proto.
Proof.
  intros Hd Hp. unfold word_1. rewrite !Z.shiftr_lor, !Z.shiftr_shiftl_l by lia. simpl Z.sub. rewrite Z.shiftl_0_r.
  rewrite (lor_add dp), lor_add; simpl in *; lia.
Qed.

Lemma word_1_add sp dp proto : 0 <= dp < 2 ^ 16 -> 0 <= proto < 2 ^ 8 ->
  word_1 sp dp proto = sp * 2 ^ 48 + dp * 2 ^ 32 + proto * 2 ^ 24.
Proof.
  intros Hd Hp. unfold word_1. assert (Z.shiftl proto 24 = proto * 2 ^ 24) as -> by (by apply Z.shiftl_mul_pow2).
  rewrite (lor_add dp), lor_add; simpl in *; lia.
Qed.

(** The fields of the tuple put together from fields. *)
Record fields_ok (sip dip sp dp proto : Z) : Prop := FieldsOk {
  r_sip : 0 <= sip < 2 ^ 32; r_dip : 0 <= dip < 2 ^ 32; r_sp : 0 <= sp < 2 ^ 16; r_dp : 0 <= dp < 2 ^ 16;
  r_proto : 0 <= proto < 2 ^ 8 }.

Lemma tuple_fields_ok t : tuple_ok t -> fields_ok (t_sip t) (t_dip t) (t_sp t) (t_dp t) (t_proto t).
Proof. intros H. destruct (fields_range t H) as (? & ? & ? & ? & ?). by split. Qed.

Lemma fields_of_words t sip dip sp dp proto : fields_ok sip dip sp dp proto ->
  data_0 t = word_0 sip dip -> t_hi t = sp * 2 ^ 24 + dp * 2 ^ 8 + proto ->
  t_sip t = sip /\ t_dip t = dip /\ t_sp t = sp /\ t_dp t = dp /\ t_proto t = proto.
Proof.
  intros [? ? ? ? ?] E0 E1. rewrite word_0_add in E0 by done. fields. rewrite E0. simpl in *. split_and!; euclid.
Qed.

Lemma built_ok sip dip sp dp proto : fields_ok sip dip sp dp proto ->
  tuple_ok (Tuple (word_0 sip dip) (word_1 sp dp proto)).
Proof.
  intros [? ? ? ? ?]. split; cbn [data_0 data_1]; [rewrite word_0_add by done|rewrite word_1_add by done]; simpl in *; lia.
Qed.

Lemma built_fields sip dip sp dp proto : fields_ok sip dip sp dp proto ->
  let t := Tuple (word_0 sip dip) (word_1 sp dp proto) in
  t_sip t = sip /\ t_dip t = dip /\ t_sp t = sp /\ t_dp t = dp /\ t_proto t = proto.
Proof. intros H t. apply fields_of_words; [done..|]. unfold t_hi, t. cbn [data_1]. apply word_1_hi; apply H. Qed.

(** ** Masks and equality *)

Lemma sniffer_land x : 0 <= x < 2 ^ 64 -> Z.land x MPP_SSN_HASH_MASK_SNIFFER = Z.shiftr x 24 * 2 ^ 24.
Proof.
  intros Hx. change MPP_SSN_HASH_MASK_SNIFFER with (Z.shiftl (Z.ones 40) 24).
  rewrite <- Z.shiftl_mul_pow2 by lia. apply Z.bits_inj'. intros i Hi.
  rewrite Z.land_spec, !Z.shiftl_spec by lia. destruct (Z.lt_ge_cases i 24).
  { rewrite (Z.testbit_neg_r (Z.ones 40)), (Z.testbit_neg_r (Z.shiftr x 24)) by lia. by rewrite andb_false_r. }
  rewrite Z.shiftr_spec by lia. replace (i - 24 + 24) with i by lia. destruct (Z.lt_ge_cases i 64).
  { rewrite Z.ones_spec_low by lia. by rewrite andb_true_r. }
  rewrite Z.ones_spec_high by lia. rewrite <- (Z.mod_small x (2 ^ 64)), Z.mod_pow2_bits_high by lia. done.
Qed.

Lemma data64_hi x : 0 <= x < 2 ^ 64 -> Z.shiftr (Z.land x MPP_SSN_HASH_MASK_DATA64) 24 = Z.shiftr x 24.
Proof.
  intros Hx. rewrite Z.shiftr_land. change (Z.shiftr MPP_SSN_HASH_MASK_DATA64 24) with (Z.ones 40).
  rewrite land_mask by lia. apply Z.mod_small. rewrite shiftr_div by lia. simpl in *. euclid.
Qed.

Lemma action_hi v w : Z.shiftr (set_key_action v w) 24 = Z.shiftr w 24.
Proof.
  unfold set_key_action. rewrite Z.shiftr_lor, Z.shiftr_ldiff. change (Z.shiftr (Z.shiftl 0xf 5) 24) with 0.
  rewrite Z.ldiff_0_r, Z.shiftr_shiftl_r by lia. change 0xf with (Z.ones 4). rewrite land_mask by lia.
  rewrite (shiftr_div _ (24 - 5)) by lia. rewrite Z.div_small; [apply Z.lor_0_r|].
  pose proof (Z.mod_pos_bound v (2 ^ 4)). simpl in *. lia.
Qed.

Lemma words_eqb k t : tuple_ok k -> tuple_ok t ->
  ((data_0 k =? data_0 t) && (Z.land (data_1 k) MPP_SSN_HASH_MASK_SNIFFER =? Z.land (data_1 t) MPP_SSN_HASH_MASK_SNIFFER))
    = bool_decide ((t_sip k, t_dip k, t_sp k, t_dp k, t_proto k) = (t_sip t, t_dip t, t_sp t, t_dp t, t_proto t)).
Proof.
  intros Hk Ht. rewrite !sniffer_land by (apply Hk || apply Ht). fold (t_hi k) (t_hi t). rewrite !word_0_fields, !hi_fields.
  pose proof (fields_range k Hk). pose proof (fields_range t Ht). apply eq_true_iff_eq.
  rewrite andb_true_iff, !Z.eqb_eq, bool_decide_eq_true. simpl in *. split.
  - intros [E0 E1]. pairs.
  - intros [= -> -> -> -> ->]. done.
Qed.

(** The comparison of the table decides whether two tuples are of the same flow. *)
Lemma same_flow_canon k t : tuple_ok k -> tuple_ok t ->
  same_flow k t MPP_SSN_HASH_MASK_SNIFFER = bool_decide (canon k = canon t).
Proof.
  intros Hk Ht. unfold same_flow. rewrite words_eqb by done. pose proof (fields_range k Hk). pose proof (fields_range t Ht).
  unfold canon. apply eq_true_iff_eq. rewrite orb_true_iff, !andb_true_iff, !Z.eqb_eq, !bool_decide_eq_true. simpl in *. split.
  - intros [[= -> -> -> -> ->]|[[[[-> ->] ->] ->] ->]]; pairs.
  - intros [= E1 E2 E3].
    destruct (Z.le_gt_cases (t_sip k * 65536 + t_sp k) (t_dip k * 65536 + t_dp k));
      destruct (Z.le_gt_cases (t_sip t * 65536 + t_sp t) (t_dip t * 65536 + t_dp t));
      first [left; pairs | right; split_and!; lia].
Qed.

(** ** Sorting *)

Lemma sort_ok t : tuple_ok t -> tuple_ok (ssn_sort_tuple t).
Proof.
  intros Ht. destruct (tuple_fields_ok t Ht) as [? ? ? ? ?]. unfold ssn_sort_tuple. zcase.
  - split; [apply Ht|]. by apply (built_ok (t_sip t) (t_dip t)).
  - by apply built_ok.
Qed.

Lemma sort_canon t : tuple_ok t -> canon (ssn_sort_tuple t) = canon t.
Proof.
  intros Ht. pose proof (tuple_fields_ok t Ht) as Hf. pose proof Hf as [? ? ? ? ?]. unfold ssn_sort_tuple, canon. zcase.
  - destruct (fields_of_words (Tuple (data_0 t) (word_1 (t_sp t) (t_dp t) (t_proto t)))
      (t_sip t) (t_dip t) (t_sp t) (t_dp t) (t_proto t) Hf) as (-> & -> & -> & -> & ->); [| |done].
    + cbn [data_0]. rewrite word_0_add by done. apply word_0_fields.
    + unfold t_hi. cbn [data_1]. by apply word_1_hi.
  - destruct (built_fields (t_dip t) (t_sip t) (t_dp t) (t_sp t) (t_proto t)) as (-> & -> & -> & -> & ->); [by split|].
    pairs.
Qed.

Lemma reverse_ok t : tuple_ok t -> tuple_ok (reverse_tuple t).
Proof. intros Ht. unfold reverse_tuple. apply built_ok. destruct (tuple_fields_ok t Ht). by split. Qed.

Lemma reverse_fields t : tuple_ok t ->
  t_sip (reverse_tuple t) = t_dip t /\ t_dip (reverse_tuple t) = t_sip t /\ t_sp (reverse_tuple t) = t_dp t /\
  t_dp (reverse_tuple t) = t_sp t /\ t_proto (reverse_tuple t) = t_proto t.
Proof. intros Ht. unfold reverse_tuple. apply built_fields. destruct (tuple_fields_ok t Ht). by split. Qed.

Lemma reverse_canon t : tuple_ok t -> canon (reverse_tuple t) = canon t.
Proof.
  intros Ht. unfold canon. destruct (reverse_fields t Ht) as (-> & -> & -> & -> & ->). pairs.
Qed.

(** Both directions sort to the same tuple, unless both ends have one address. *)
Lemma sort_reverse t : tuple_ok t -> t_sip t <> t_dip t -> ssn_sort_tuple (reverse_tuple t) = ssn_sort_tuple t.
Proof.
  intros Ht Hne. unfold ssn_sort_tuple. destruct (reverse_fields t Ht) as (-> & -> & -> & -> & ->).
  destruct (Z.leb_spec (t_sip t) (t_dip t)), (Z.leb_spec (t_dip t) (t_sip t)); try lia; [done|].
  f_equal. unfold reverse_tuple. cbn [data_0]. rewrite word_0_add by apply (fields_range t Ht). symmetry. apply word_0_fields.
Qed.

(** Two tuples of one connection are equal in their fields or each other's reverse. *)
Lemma canon_cases k t : tuple_ok k -> tuple_ok t -> canon k = canon t -> t_proto k = t_proto t /\
  (t_sip k = t_sip t /\ t_sp k = t_sp t /\ t_dip k = t_dip t /\ t_dp k = t_dp t \/
   t_sip k = t_dip t /\ t_sp k = t_dp t /\ t_dip k = t_sip t /\ t_dp k = t_sp t).
Proof.
  intros Hk Ht E. pose proof (same_flow_canon k t Hk Ht) as H. rewrite bool_decide_true in H by done.
  unfold same_flow in H. rewrite words_eqb, orb_true_iff, bool_decide_eq_true, !andb_true_iff, !Z.eqb_eq in H by done.
  destruct H as [[= -> -> -> -> ->]|[[[[-> ->] ->] ->] ->]]; (split; [done|]); [by left|by right].
Qed.

(** They sort alike, unless both ends have one address. *)
Lemma sort_of_canon k t : tuple_ok k -> tuple_ok t -> canon k = canon t -> t_sip t <> t_dip t ->
  ssn_sort_tuple k = ssn_sort_tuple t.
Proof.
  intros Hk Ht E Hne. pose proof (fields_range t Ht). unfold ssn_sort_tuple.
  rewrite !word_0_fields, !word_0_add by (apply (fields_range k Hk) || apply (fields_range t Ht)).
  destruct (canon_cases k t Hk Ht E) as [-> [(-> & -> & -> & ->)|(-> & -> & -> & ->)]]; [done|].
  destruct (Z.leb_spec (t_sip t) (t_dip t)), (Z.leb_spec (t_dip t) (t_sip t)); (done || lia).
Qed.

(** Whether they have is a matter of the connection. *)
Lemma canon_loop k t : tuple_ok k -> tuple_ok t -> canon k = canon t -> (t_sip k =? t_dip k) = (t_sip t =? t_dip t).
Proof.
  intros Hk Ht E. destruct (canon_cases k t Hk Ht E) as [_ [(-> & _ & -> & _)|(-> & _ & -> & _)]]; [done|apply Z.eqb_sym].
Qed.

(** ** The entry of a tuple *)

Lemma hash_range crc t : 0 <= ssn_hash_by_tuple crc t SSN_HASH_BUCKET_SIZE_MASK < SSN_HASH_BUCKET_SIZE.
Proof.
  unfold ssn_hash_by_tuple. change SSN_HASH_BUCKET_SIZE_MASK with (Z.ones 18). rewrite land_mask by lia.
  apply Z.mod_pos_bound. done.
Qed.

(** ** The key of a session *)

Lemma fields_hi t : t_sp t = Z.shiftr (t_hi t) 24 /\ t_dp t = Z.land (Z.shiftr (t_hi t) 8) 0xffff /\ t_proto t = Z.land (t_hi t) 0xff.
Proof. unfold t_sp, t_dp, t_proto, t_hi. rewrite !Z.shiftr_shiftr by lia. split_and!; reflexivity. Qed.

(** Tuples that differ in the lower bits of the second word only. *)
Lemma same_hi_fields k t : data_0 k = data_0 t -> t_hi k = t_hi t ->
  t_sip k = t_sip t /\ t_dip k = t_dip t /\ t_sp k = t_sp t /\ t_dp k = t_dp t /\ t_proto k = t_proto t.
Proof.
  intros E0 Eh. unfold t_sip, t_dip. rewrite E0. destruct (fields_hi k) as (-> & -> & ->), (fields_hi t) as (-> & -> & ->). by rewrite Eh.
Qed.

Lemma same_hi_sort k t : data_0 k = data_0 t -> t_hi k = t_hi t -> ssn_sort_tuple k = ssn_sort_tuple t.
Proof.
  intros E0 Eh. unfold ssn_sort_tuple. destruct (same_hi_fields k t E0 Eh) as (-> & -> & -> & -> & ->). by rewrite E0.
Qed.

Lemma same_hi_canon k t : data_0 k = data_0 t -> t_hi k = t_hi t -> canon k = canon t.
Proof. intros E0 Eh. unfold canon. by destruct (same_hi_fields k t E0 Eh) as (-> & -> & -> & -> & ->). Qed.

Lemma bits_bound x n : 0 <= n -> 0 <= x -> (forall m, n <= m -> Z.testbit x m = false) -> x < 2 ^ n.
Proof.
  intros Hn Hx Hb. replace x with (x `mod` 2 ^ n); [apply Z.mod_pos_bound; lia|]. apply Z.bits_inj'. intros m Hm.
  destruct (Z.lt_ge_cases m n); [by rewrite Z.mod_pow2_bits_low|]. by rewrite Z.mod_pow2_bits_high, Hb by lia.
Qed.

Lemma high_bit x n m : 0 <= x < 2 ^ n -> 0 <= n <= m -> Z.testbit x m = false.
Proof. intros Hx Hm. rewrite <- (Z.mod_small x (2 ^ n)) by done. apply Z.mod_pow2_bits_high. lia. Qed.

Lemma action_range v w : 0 <= w < 2 ^ 64 -> 0 <= set_key_action v w < 2 ^ 64.
Proof.
  intros Hw. unfold set_key_action. change 0xf with (Z.ones 4). rewrite (land_mask v) by lia.
  pose proof (Z.mod_pos_bound v (2 ^ 4) ltac:(done)) as Hv.
  assert (0 <= Z.shiftl (v `mod` 2 ^ 4) 5 < 2 ^ 9) as Hs by (rewrite Z.shiftl_mul_pow2 by lia; simpl in *; lia).
  assert (0 <= Z.lor (Z.ldiff w (Z.shiftl (Z.ones 4) 5)) (Z.shiftl (v `mod` 2 ^ 4) 5)) as H0.
  { apply Z.lor_nonneg. split; [apply Z.ldiff_nonneg; left; lia|lia]. }
  split; [exact H0|]. apply bits_bound; [lia|exact H0|]. intros m Hm.
  rewrite Z.lor_spec, Z.ldiff_spec, (high_bit w 64), (high_bit (Z.shiftl (v `mod` 2 ^ 4) 5) 9) by (done || lia). done.
Qed.

Lemma mask_range w : 0 <= w < 2 ^ 64 -> 0 <= Z.land w MPP_SSN_HASH_MASK_DATA64 < 2 ^ 64.
Proof.
  intros Hw. assert (0 <= Z.land w MPP_SSN_HASH_MASK_DATA64) as H0 by (apply Z.land_nonneg; left; lia).
  split; [exact H0|]. apply bits_bound; [lia|exact H0|]. intros m Hm. by rewrite Z.land_spec, (high_bit w 64) by (done || lia).
Qed.

Lemma action_value v w : Z.land (Z.shiftr (set_key_action v w) 5) 0xf = Z.land v 0xf.
Proof.
  unfold set_key_action. rewrite Z.shiftr_lor, Z.shiftr_ldiff, !Z.shiftr_shiftl_l by lia. change (5 - 5) with 0.
  rewrite !Z.shiftl_0_r, Z.land_lor_distr_l, Z.land_ldiff, Z.lor_0_l, <- Z.land_assoc. reflexivity.
Qed.

Lemma action_bit w : Z.testbit (set_key_action MPP_SSN_ACTION_TCPFLOWREC w) 8 = true.
Proof. unfold set_key_action. rewrite Z.lor_spec. apply orb_true_r. Qed.
