(* ===== verification/SsnInv.v ===== *)
(** * The invariant of the session table

    Chains are lists of blocks of the pool, no two share one; every session has its
    index, one flow and one timer, no flow has two sessions at one entry.  First the chains
    on their own, then what a session's work may change. *)

From stdpp Require Import list functions.
From S2P Require Import Prelude Bytes TcpFlow SsnBlock SsnBlockProps TcpFlowSegs Ssn SsnTuple.
#[local] Open Scope Z_scope.

(** ** The pool of session blocks *)

(** [fpa_ok p l]: [l] are the free blocks of [p]; [blocks] are those the pool was made of. *)
Class FpaLaws (P : Type) `{Fpa P} (blocks : list Z) (fpa_ok : P -> list Z -> Prop) : Prop := {
  fpa_alloc_ok p l : fpa_ok p l ->
    match cvmx_fpa_alloc p with Some (a, p') => exists l', l ≡ₚ a :: l' /\ fpa_ok p' l' | None => True end;
  fpa_free_ok p l a : fpa_ok p l -> a ∈ blocks -> a ∉ l -> fpa_ok (cvmx_fpa_free a p) (a :: l);
  fpa_member_ok a : a ∈ blocks -> cvmx_fpa_is_member a = true }.

(** ** Chains *)

(** [o] points to the list [l], linked by [nx]. *)
Fixpoint linked (nx : ssn_ptr -> option ssn_ptr) (o : option ssn_ptr) (l : list ssn_ptr) : Prop :=
  match l with [] => o = None | p :: l => o = Some p /\ linked nx (nx p) l end.

Lemma linked_ext nx nx' o l : (forall p, p ∈ l -> nx' p = nx p) -> linked nx o l -> linked nx' o l.
Proof.
  revert o. induction l as [|p l IH]; intros o E H; [done|]. destruct H as [-> H]. split; [done|].
  rewrite E by apply list_elem_of_here. apply IH; [|done]. intros q Hq. apply E. by apply list_elem_of_further.
Qed.

(** The entry [p] is taken out behind [q]. *)
Lemma linked_unlink nx o l1 q p l2 : NoDup (l1 ++ q :: p :: l2) -> linked nx o (l1 ++ q :: p :: l2) ->
  linked (<[q := nx p]> nx) o (l1 ++ q :: l2).
Proof.
  revert o. induction l1 as [|x l1 IH]; intros o Hd H; simpl in *.
  - destruct H as (-> & E & H). split; [done|]. rewrite fn_lookup_insert.
    eapply linked_ext; [|exact H]. intros y Hy. apply fn_lookup_insert_ne. intros ->.
    apply NoDup_cons in Hd as [Hd _]. apply Hd. by apply list_elem_of_further.
  - destruct H as [-> H]. apply NoDup_cons in Hd as [Hx Hd]. split; [done|]. rewrite fn_lookup_insert_ne; [by apply IH|].
    intros ->. apply Hx. apply elem_of_app. right. apply list_elem_of_here.
Qed.

(** A new entry [p] in front of what [h] points to. *)
Lemma linked_insert nx h p l : p ∉ l -> h ∉ l -> h <> p -> linked nx (nx h) l ->
  linked (<[h := Some p]> (<[p := nx h]> nx)) (Some p) (p :: l).
Proof.
  intros Hp Hh Hne H. split; [done|]. rewrite fn_lookup_insert_ne, fn_lookup_insert by done.
  eapply linked_ext; [|exact H]. intros q Hq. rewrite !fn_lookup_insert_ne; [done|by intros ->|by intros ->].
Qed.

Section table.
Context {C P : Type} `{SsnSink C} `{Fpa P}.
#[local] Abbreviation tab := (table C P).

Definition next_of (st : tab) (p : ssn_ptr) : option ssn_ptr := next_sc (ssn_mem st p).

Lemma search_chain_spec n o t st l : linked (next_of st) o l -> (length l < n)%nat ->
  exists r, search_chain n o t MPP_SSN_HASH_MASK_SNIFFER st = Some r /\
    match r with
    | Some p => p ∈ l /\ same_flow (s_key (ssn_mem st p)) t MPP_SSN_HASH_MASK_SNIFFER = true
    | None => forall p, p ∈ l -> same_flow (s_key (ssn_mem st p)) t MPP_SSN_HASH_MASK_SNIFFER = false
    end.
Proof.
  revert o n. induction l as [|p l IH]; intros o n Hl Hn; (destruct n as [|n]; [simpl in Hn; lia|]).
  - rewrite Hl. exists None. split; [done|]. intros p Hp. by apply elem_of_nil in Hp.
  - destruct Hl as [-> Hl]. cbn [search_chain]. destruct (same_flow _ _ _) eqn:E.
    + exists (Some p). split; [done|]. split; [apply list_elem_of_here|done].
    + destruct (IH _ n Hl) as (r & Er & Hr); [simpl in Hn; lia|]. exists r. split; [exact Er|]. destruct r as [q|].
      * destruct Hr. split; [by apply list_elem_of_further|done].
      * intros q [->|Hq]%elem_of_cons; [done|by apply Hr].
Qed.

Lemma find_prev_spec n o st l1 q p l2 : linked (next_of st) o (l1 ++ q :: p :: l2) -> NoDup (l1 ++ q :: p :: l2) ->
  (length l1 < n)%nat -> find_prev n o p st = Some (Some q).
Proof.
  revert o n. induction l1 as [|x l1 IH]; intros o n Hl Hd Hn; (destruct n as [|n]; [simpl in Hn; lia|]).
  - destruct Hl as (-> & E & _). cbn [find_prev]. unfold next_of in E. rewrite decide_True by done. done.
  - destruct Hl as [-> Hl]. cbn [find_prev]. rewrite decide_False.
    + apply IH; [done| |simpl in Hn; lia]. by apply NoDup_cons in Hd as [_ ?].
    + simpl in Hd. unfold next_of in Hl at 2. intros E. rewrite E in Hl.
      apply NoDup_cons in Hd as [_ Hd]. destruct l1 as [|y l1]; simpl in *; destruct Hl as [[= ->] _]; apply NoDup_cons in Hd as [Hd _];
        apply Hd; [apply list_elem_of_here|]. apply elem_of_app. right. apply list_elem_of_further, list_elem_of_here.
Qed.

(** ** Updates *)

Lemma upd_same p g (st : tab) : ssn_mem (upd p g st) p = g (ssn_mem st p).
Proof. unfold upd. simpl. apply fn_lookup_insert. Qed.

Lemma upd_other p q g (st : tab) : q <> p -> ssn_mem (upd p g st) q = ssn_mem st q.
Proof. intros Hne. unfold upd. simpl. by apply fn_lookup_insert_ne. Qed.

(** What the work on a session leaves alone in it. *)
Record same_entry (e e' : mpp_ssn) : Prop := SameEntry {
  e_wqe : s_wqe e' = s_wqe e; e_key : s_key e' = s_key e; e_cont_1 : s_cont_1 e' = s_cont_1 e;
  e_cont_2 : s_cont_2 e' = s_cont_2 e; e_next : next_sc e' = next_sc e; e_status : ssn_status e' = ssn_status e;
  e_index : s_index e' = s_index e; e_age : s_age e' = s_age e; e_seq : s_seq e' = s_seq e;
  e_ack : s_ack_seq e' = s_ack_seq e }.

(** Only session [p] is worked on. *)
Record touch (p : ssn_ptr) (st st' : tab) : Prop := Touch {
  o_mem q : q <> p -> ssn_mem st' q = ssn_mem st q;
  o_sent q : q <> p -> sent st' q = sent st q;
  o_entry : same_entry (ssn_mem st p) (ssn_mem st' p);
  o_fpa : ssn_fpa st' = ssn_fpa st; o_tim : tim_entries st' = tim_entries st; o_res : tim_results st' = tim_results st;
  o_age : frcore_ssn_age st' = frcore_ssn_age st; o_depth : disorder_depth st' = disorder_depth st;
  o_active : tab_stats st' stat_ssn_active_num = tab_stats st stat_ssn_active_num }.

Lemma same_entry_refl e : same_entry e e.
Proof. by split. Qed.

Lemma same_entry_trans e1 e2 e3 : same_entry e1 e2 -> same_entry e2 e3 -> same_entry e1 e3.
Proof. intros [] []. split; congruence. Qed.

Lemma touch_refl p st : touch p st st.
Proof. by split. Qed.

Lemma touch_trans p st1 st2 st3 : touch p st1 st2 -> touch p st2 st3 -> touch p st1 st3.
Proof.
  intros [] []. split; try congruence.
  - intros q Hq. transitivity (ssn_mem st2 q); eauto.
  - intros q Hq. transitivity (sent st2 q); eauto.
  - by eapply same_entry_trans.
Qed.

Lemma touch_upd p g (st : tab) : same_entry (ssn_mem st p) (g (ssn_mem st p)) -> touch p st (upd p g st).
Proof. intros Hg. split; try done; [intros q Hq; by apply upd_other|]. by rewrite upd_same. Qed.

Lemma touch_out p q c o (st : tab) : touch p st (set_out q c o st).
Proof. by split. Qed.

Lemma touch_stat p c n (st : tab) : c <> stat_ssn_active_num -> touch p st (stat_add c n st).
Proof. intros Hc. split; try done. simpl. by rewrite fn_lookup_insert_ne. Qed.

Lemma touch_next p st st' q : touch p st st' -> next_of st' q = next_of st q.
Proof. intros Ht. unfold next_of. destruct (decide (q = p)) as [->|Hq]; [apply Ht|]. by rewrite (o_mem _ _ _ Ht). Qed.
End table.

(** ** The invariant *)

Definition in_range (i : Z) : Prop := 0 <= i < SSN_HASH_BUCKET_SIZE.

Lemma slot_in_range i : in_range i -> ssn_slot i = Some (slot i).
Proof.
  intros [H1 H2]. unfold ssn_slot. rewrite (proj2 (Z.leb_le 0 i)), (proj2 (Z.ltb_lt _ _)) by done. done.
Qed.

Section inv.
Context {C P : Type} {channel : SsnSink C} {sink_ok : C -> Prop} {channel_laws : SsnSinkLaws C sink_ok}
  {pool : Fpa P} {blocks : list Z} {fpa_ok : P -> list Z -> Prop} {pool_laws : FpaLaws P blocks fpa_ok}.
Variables (crc : Z -> Z -> Z) (cpu_freq : Z) (hdr_stack : list Z).

#[local] Abbreviation tab := (table C P).
Implicit Types st : tab.
#[local] Abbreviation hash t := (ssn_hash_by_tuple crc t SSN_HASH_BUCKET_SIZE_MASK).

(** The sessions at entry [i]. *)
Definition members (st : tab) (chains : Z -> list Z) (i : Z) : list ssn_ptr :=
  (if has_status (ssn_mem st (slot i)) SSN_STATUS_EMPTY then [] else [slot i]) ++ (block <$> chains i).

(** The fields of a session that do not change. *)
Record static_ok (e : mpp_ssn) (i : Z) : Prop := StaticOk {
  st_index : s_index e = i; st_good : has_status e SSN_STATUS_GOOD = true; st_key : tuple_ok (s_key e);
  st_action : key_action e = MPP_SSN_ACTION_TCPFLOWREC; st_rec : key_tcpflowrec e = true;
  st_hash : hash (ssn_sort_tuple (s_key e)) = i; st_grp : grp (s_wqe e) = GROUP_TO_DATA_PLANE_AGING;
  st_age : 0 <= s_age e <= 249 }.

Definition ttl_from (lo : Z) (t : Z) : Prop := lo <= t <= 249.

(** Its queues, and the cells the channel took for it. *)
Record content_ok (st : tab) (p : ssn_ptr) : Prop := ContentOk {
  c_segs : segs_ok (ttl_from (-1)) (load_tcp p st);
  c_packed : exists done cur, packed (id_of (ssn_mem st p)) hdr_stack (load_pack p st) done cur }.

(** [chains i] is the chain of entry [i], [free] the free blocks of the pool, [busy] the
    sessions whose timer fired and that are being worked on, expired or not; [lost] the
    sessions that are counted as active and do not exist. *)
Record inv (st : tab) (chains : Z -> list Z) (free : list Z) (busy : list (ssn_ptr * bool)) (lost : Z) : Prop := Inv {
  inv_fpa : fpa_ok (ssn_fpa st) free;
  inv_free : NoDup free /\ free ⊆ blocks;
  inv_link i : in_range i -> linked (next_of st) (next_of st (slot i)) (block <$> chains i);
  inv_chain i : NoDup (chains i) /\ chains i ⊆ blocks /\ (forall a, a ∈ chains i -> a ∉ free);
  inv_disj i j a : a ∈ chains i -> a ∈ chains j -> i = j;
  inv_static i p : in_range i -> p ∈ members st chains i -> static_ok (ssn_mem st p) i;
  inv_content i p : in_range i -> p ∈ members st chains i -> content_ok st p;
  inv_uniq i p q : in_range i -> p ∈ members st chains i -> q ∈ members st chains i ->
    canon (s_key (ssn_mem st p)) = canon (s_key (ssn_mem st q)) -> p = q;
  inv_timers : NoDup (tim_entries st ++ busy.*1);
  inv_armed p : p ∈ tim_entries st ++ busy.*1 <-> exists i, in_range i /\ p ∈ members st chains i;
  inv_ttl p : p ∈ tim_entries st \/ (p, false) ∈ busy -> 0 <= s_ttl (ssn_mem st p);
  inv_active : tab_stats st stat_ssn_active_num = Z.of_nat (length (tim_entries st ++ busy.*1)) + lost;
  inv_total : 0 <= lost /\ tab_stats st stat_ssn_active_num <= SSN_TOTAL_NUM;
  inv_params : FRCORE_SSN_AGE_MIN <= frcore_ssn_age st <= FRCORE_SSN_AGE_MAX;
  inv_sink : sink_ok (sink (out st)) }.

Lemma static_same e e' i : same_entry e e' -> static_ok e i -> static_ok e' i.
Proof.
  intros [] []. split; unfold has_status, key_action, key_tcpflowrec in *; congruence.
Qed.

Lemma id_same e e' : same_entry e e' -> id_of e' = id_of e.
Proof. intros []. unfold id_of. congruence. Qed.

Lemma static_id_ok e i : in_range i -> static_ok e i -> id_ok (id_of e).
Proof.
  intros [Hi1 Hi2] [<- _ Hk _ _ _ _ _]. destruct (fields_range _ Hk) as (? & ? & ? & ? & ?).
  change SSN_HASH_BUCKET_SIZE with (2 ^ 18) in Hi2. split; unfold in_field; simpl in *; lia.
Qed.

Lemma content_ext st st' p : ssn_mem st' p = ssn_mem st p -> sent st' p = sent st p -> content_ok st p -> content_ok st' p.
Proof.
  intros E1 E2 [Hs (done & cur & Hp)]. split.
  - destruct Hs as [Ha Hb Hc]. split; simpl in *; rewrite ?E1; [|done|done]. intros d. specialize (Ha d). by destruct d; simpl in *; rewrite E1.
  - exists done, cur. rewrite E1. eapply packed_ext; [| |exact Hp]; simpl; by rewrite ?E1.
Qed.

Lemma members_next st st' chains : (forall i, ssn_status (ssn_mem st' (slot i)) = ssn_status (ssn_mem st (slot i))) ->
  forall i, members st' chains i = members st chains i.
Proof. intros E i. unfold members, has_status. by rewrite E. Qed.

Lemma touch_status p st st' q : touch p st st' -> ssn_status (ssn_mem st' q) = ssn_status (ssn_mem st q).
Proof. intros Ht. destruct (decide (q = p)) as [->|Hq]; [apply Ht|]. by rewrite (o_mem _ _ _ Ht). Qed.

Lemma touch_entry p st st' q : touch p st st' -> same_entry (ssn_mem st q) (ssn_mem st' q).
Proof. intros Ht. destruct (decide (q = p)) as [->|Hq]; [apply Ht|]. rewrite (o_mem _ _ _ Ht) by done. apply same_entry_refl. Qed.

(** What flow recovery reads and changes besides the session; with the packing and the
    log of the sessions purged. *)
Definition shared (st : tab) := (qent_free st, tcp_counters st, disorder_depth st, frcore_ssn_age st).
Definition env (st : tab) := (out st, closed st, shared st).

Lemma env_out st st' : env st' = env st -> out st' = out st.
Proof. by intros [= ? _]. Qed.

(** Work on one session. *)
Lemma inv_touch p st st' chains free busy lost :
  inv st chains free busy lost -> touch p st st' -> content_ok st' p -> sink_ok (sink (out st')) ->
  (p ∈ tim_entries st \/ (p, false) ∈ busy -> 0 <= s_ttl (ssn_mem st' p)) -> inv st' chains free busy lost.
Proof.
  intros Hi Ht Hc Hs Httl. pose proof (members_next st st' chains (fun i => touch_status p st st' (slot i) Ht)) as Em.
  split; try (rewrite ?(o_fpa _ _ _ Ht), ?(o_tim _ _ _ Ht), ?(o_active _ _ _ Ht), ?(o_age _ _ _ Ht); apply Hi).
  - intros i Hr. rewrite (touch_next _ _ _ (slot i) Ht). eapply linked_ext; [|by apply Hi]. intros q _. by eapply touch_next.
  - intros i q Hr Hq. rewrite Em in Hq. eapply static_same; [by eapply touch_entry|by eapply inv_static].
  - intros i q Hr Hq. rewrite Em in Hq. destruct (decide (q = p)) as [->|Hne]; [done|].
    eapply content_ext; [by apply Ht|by apply Ht|by eapply inv_content].
  - intros i q q' Hr Hq Hq' E. rewrite Em in Hq, Hq'. eapply inv_uniq; try done.
    by rewrite <- !(e_key _ _ (touch_entry _ _ _ _ Ht)).
  - intros q. rewrite (o_tim _ _ _ Ht), (inv_armed _ _ _ _ _ Hi q). by setoid_rewrite Em.
  - intros q Hq. rewrite (o_tim _ _ _ Ht) in Hq. destruct (decide (q = p)) as [->|Hne]; [by apply Httl|].
    rewrite (o_mem _ _ _ Ht) by done. by eapply inv_ttl.
  - done.
Qed.

Hypothesis Hstack : length hdr_stack = 16%nat.

(** ** Work on a session *)

Lemma on_session_spec p f st rv o : f (id_of (ssn_mem st p)) (load_pack p st) = Some (rv, o) ->
  exists st', on_session p f st = Some st' /\ touch p st st' /\ addr (load_pack p st') = addr o /\ sent st' p = taken o /\
    out st' = o /\ ssn_mem st' p = with_addr (addr o) (ssn_mem st p) /\ qent_free st' = qent_free st /\
    tcp_counters st' = tcp_counters st /\ closed st' = closed st.
Proof.
  intros E. unfold on_session. rewrite E. cbn [mbind option_bind]. eexists. split; [done|]. split_and!; try done.
  - split; try done; simpl; [intros q Hq; by apply fn_lookup_insert_ne|intros q Hq; by apply fn_lookup_insert_ne|].
    by rewrite fn_lookup_insert.
  - simpl. by rewrite fn_lookup_insert.
  - simpl. by rewrite fn_lookup_insert.
  - simpl. by rewrite fn_lookup_insert.
Qed.

(** The packet buffers in cells. *)
Definition cell_works (cs : list ssn_cell) : list Z :=
  omap (fun c => match c with Payload _ _ _ _ _ w => Some w | Head _ _ => None end) cs.

Lemma lay_works ssn a qs : cell_works (lay ssn a qs) = work <$> qs.
Proof. revert a. induction qs as [|q qs IH]; intros a; [done|]. cbn [lay]. unfold cell_works in *. simpl. by rewrite IH. Qed.

Lemma packed_works ssn (o : pack C) done cur : packed ssn hdr_stack o done cur ->
  cell_works (taken o) = work <$> packed_segments done cur.
Proof.
  intros [-> _ Hc]. unfold packed_segments, cell_works. rewrite omap_app, fmap_app. f_equal.
  - clear Hc. induction done as [|d done IH]; [done|]. cbn [map concat]. rewrite omap_app, fmap_app, IH. f_equal.
    unfold block_cells. rewrite omap_app. simpl. rewrite app_nil_r. apply lay_works.
  - destruct (addr_flag (addr o) =? 0); [by rewrite Hc|apply lay_works].
Qed.

(** What packing segments does to the packet buffers. *)
Record submitted_to (st st' : tab) (p : ssn_ptr) (t : tcp_state) : Prop := SubmittedTo {
  u_entry : exists a, ssn_mem st' p = with_addr a (with_tcp t (ssn_mem st p));
  u_pool : qent_free st' = qent_pool t /\ tcp_counters st' = tcp_stats t /\ closed st' = closed st;
  u_works : exists rvs, length rvs = length (submitted t) /\
    wqe_freed (out st') = wqe_freed (out st) ++ freed t ++ refused_of (submitted t) rvs /\
    cell_works (sent st' p) = cell_works (sent st p) ++ (work <$> packed_of (submitted t) rvs) }.

Lemma work_free_log (l : list Z) (o : pack C) : wqe_freed (foldl (fun o w => frcore_work_free w o) o l) = wqe_freed o ++ l.
Proof. revert o. induction l as [|w l IH]; intros o; simpl; [by rewrite app_nil_r|]. rewrite IH. simpl. by rewrite <- app_assoc. Qed.

Lemma work_free_sink (l : list Z) (o : pack C) : sink (foldl (fun o w => frcore_work_free w o) o l) = sink o.
Proof. revert o. induction l as [|w l IH]; intros o; simpl; [done|]. by rewrite IH. Qed.

(** Flow recovery on a session whose packing is in order. *)
Lemma run_flow_spec (T : Z -> Prop) p f st i :
  in_range i -> static_ok (ssn_mem st p) i -> content_ok st p -> sink_ok (sink (out st)) ->
  segs_ok T (load_tcp p st) ->
  (forall t, segs_ok T t -> exists t', f t = Some t' /\ segs_ok T t') -> (forall t, T t -> ttl_from (-1) t) ->
  exists st', run_flow cpu_freq hdr_stack p f st = Some st' /\ touch p st st' /\ content_ok st' p /\
    sink_ok (sink (out st')) /\ T (s_ttl (ssn_mem st' p)) /\
    exists t, f (load_tcp p st) = Some t /\ submitted_to st st' p t.
Proof using Hstack channel_laws.
  intros Hr Hst [_ (done & cur & Hp)] Hs Hseg Hf HT. destruct (Hf _ Hseg) as (t & Et & [Ht1 Ht2 Ht3]).
  unfold run_flow. rewrite Et. cbn [mbind option_bind].
  set (st1 := set_out _ _ _ _).
  assert (touch p st st1) as H1.
  { eapply touch_trans; [|apply touch_out]. apply touch_upd. by split. }
  assert (ssn_mem st1 p = with_tcp t (ssn_mem st p)) as Em by apply (upd_same p).
  assert (id_of (ssn_mem st1 p) = id_of (ssn_mem st p)) as Eid by (apply id_same, H1).
  destruct (submit_all_spec cpu_freq (id_of (ssn_mem st p)) hdr_stack (static_id_ok _ _ Hr Hst) Hstack (submitted t)
    (load_pack p st1) done cur) as (rvs & o & done' & cur' & Eo & Hlen & Hp' & Hs' & Hseg' & Hfr).
  { eapply packed_ext; [| |exact Hp]; [|done]. simpl. by rewrite fn_lookup_insert. }
  { unfold load_pack. cbn [sink]. unfold st1. cbn [out set_out]. by rewrite work_free_sink. }
  { done. }
  destruct (on_session_spec p (fun id o => '(_, o) ← submit_all cpu_freq id hdr_stack (submitted t) o; Some (0, o)) st1 0 o)
    as (st2 & E2 & H2 & Ea & Et2 & Eout & Em2 & Eq & Ec & Ecl); [rewrite Eid, Eo; done|].
  exists st2. split; [exact E2|]. split; [by eapply touch_trans|]. split; [split|].
  - split; [|done|].
    + intros d. specialize (Ht1 d). destruct d; simpl in *; by rewrite Em2, Em.
    + simpl. rewrite Em2, Em. by apply HT.
  - exists done', cur'. rewrite (id_same _ _ (o_entry _ _ _ H2)), Eid. eapply packed_ext; [| |exact Hp']; [done|exact Et2].
  - split; [by rewrite Eout|]. split; [by rewrite Em2, Em|]. exists t. split; [done|]. split.
    + exists (addr o). by rewrite Em2, Em.
    + by rewrite Eq, Ec, Ecl.
    + exists rvs. split; [exact Hlen|]. split.
      * rewrite Eout, Hfr. unfold load_pack, st1. cbn [wqe_freed out set_out upd set_mem]. by rewrite work_free_log, <- app_assoc.
      * rewrite Et2, (packed_works _ _ _ _ Hp'), Hseg', fmap_app, <- (packed_works _ _ _ _ Hp). done.
Qed.

End inv.
