(* ===== verification/SsnStep.v ===== *)
(** * The operations of the session table preserve its invariant *)

From stdpp Require Import list functions.
From S2P Require Import Prelude TcpFlow SsnBlock SsnBlockProps TcpFlowSegs Ssn SsnTuple SsnInv.
#[local] Open Scope Z_scope.

Section step.
Context {C P : Type} {channel : SsnSink C} {sink_ok : C -> Prop} {channel_laws : SsnSinkLaws C sink_ok}
  {pool : Fpa P} {blocks : list Z} {fpa_ok : P -> list Z -> Prop} {pool_laws : FpaLaws P blocks fpa_ok}.
Variables (crc : Z -> Z -> Z) (cpu_freq : Z) (hdr_stack : list Z) (fuel : nat).

#[local] Abbreviation tab := (table C P).
#[local] Abbreviation inv := (inv (sink_ok := sink_ok) (blocks := blocks) (fpa_ok := fpa_ok) crc hdr_stack).
#[local] Abbreviation hash t := (ssn_hash_by_tuple crc t SSN_HASH_BUCKET_SIZE_MASK).
#[local] Abbreviation static_ok := (static_ok crc).
#[local] Abbreviation content_ok := (content_ok hdr_stack).
Implicit Types st : tab.

(** The sessions other than [p] are what they were, up to the chain. *)
Record others_same (p : ssn_ptr) (st st' : tab) : Prop := OthersSame {
  k_mem q : q <> p -> with_next None (ssn_mem st' q) = with_next None (ssn_mem st q);
  k_sent q : q <> p -> sent st' q = sent st q }.

Lemma erase_static e e' i : with_next None e' = with_next None e -> static_ok e i -> static_ok e' i.
Proof.
  destruct e, e'. unfold with_next. simpl. intros [= -> -> -> -> -> -> -> -> -> -> -> -> -> -> -> -> ->] [].
  by split.
Qed.

Lemma erase_content st st' p : with_next None (ssn_mem st' p) = with_next None (ssn_mem st p) ->
  sent st' p = sent st p -> content_ok st p -> content_ok st' p.
Proof.
  intros E Es [[Ha Hb Hc] (done & cur & Hp)]. unfold with_next in E. injection E as E1 E2 E3 E4 E5 E6 E7 E8 E9 E10 E11 E12 E13 E14 E15 E16 E17.
  split.
  - split; [|done|simpl in *; by rewrite E12]. intros d. specialize (Ha d). by destruct d; simpl in *; rewrite ?E16, ?E17.
  - exists done, cur. unfold id_of. rewrite E2, E5, E6, E11. eapply packed_ext; [| |exact Hp]; [done|exact Es].
Qed.

Lemma erase_ttl e e' : with_next None e' = with_next None e -> s_ttl e' = s_ttl e.
Proof. destruct e, e'. by intros [=]. Qed.

Lemma erase_key e e' : with_next None e' = with_next None e -> s_key e' = s_key e.
Proof. destruct e, e'. by intros [=]. Qed.

Lemma erase_status e e' : with_next None e' = with_next None e -> ssn_status e' = ssn_status e.
Proof. destruct e, e'. by intros [=]. Qed.

Lemma members_range st chains free busy lost i j p : inv st chains free busy lost -> in_range i -> in_range j ->
  p ∈ members st chains i -> p ∈ members st chains j -> i = j.
Proof.
  intros Hi Hr Hr' Hp Hp'. rewrite <- (st_index _ _ _ (inv_static _ _ _ _ _ _ _ Hi i p Hr Hp)).
  apply (st_index _ _ _ (inv_static _ _ _ _ _ _ _ Hi j p Hr' Hp')).
Qed.

(** The chains and the pool fit together. *)
Record heap_ok (st : tab) (chains : Z -> list Z) (free : list Z) : Prop := HeapOk {
  h_fpa : fpa_ok (ssn_fpa st) free;
  h_free : NoDup free /\ free ⊆ blocks;
  h_link i : in_range i -> linked (next_of st) (next_of st (slot i)) (block <$> chains i);
  h_chain i : NoDup (chains i) /\ chains i ⊆ blocks /\ (forall a, a ∈ chains i -> a ∉ free);
  h_disj i j a : a ∈ chains i -> a ∈ chains j -> i = j }.

Lemma inv_heap st chains free busy lost : inv st chains free busy lost -> heap_ok st chains free.
Proof. intros []. by split. Qed.

(** Session [p], whose timer fired, is gone. *)
Lemma inv_remove st chains free busy lost p b st' chains' free' :
  inv st chains free ((p, b) :: busy) lost -> others_same p st st' -> heap_ok st' chains' free' ->
  (forall j q, in_range j -> q ∈ members st' chains' j <-> q ∈ members st chains j /\ q <> p) ->
  tim_entries st' = tim_entries st -> frcore_ssn_age st' = frcore_ssn_age st ->
  tab_stats st' stat_ssn_active_num = tab_stats st stat_ssn_active_num - 1 -> sink_ok (sink (out st')) ->
  inv st' chains' free' busy lost.
Proof.
  intros Hi [Hm Hs] [] Hmem Et Ea Eact Hsink. split; try done.
  - intros j q Hr Hq. apply Hmem in Hq as [Hq Hne]; [|done]. eapply erase_static; [by apply Hm|by eapply inv_static].
  - intros j q Hr Hq. apply Hmem in Hq as [Hq Hne]; [|done].
    eapply erase_content; [by apply Hm|by apply Hs|by eapply inv_content].
  - intros j q q' Hr Hq Hq' E. apply Hmem in Hq as [Hq Hne]; [|done]. apply Hmem in Hq' as [Hq' Hne']; [|done].
    rewrite (erase_key _ _ (Hm _ Hne)), (erase_key _ _ (Hm _ Hne')) in E. by eapply inv_uniq.
  - rewrite Et. pose proof (inv_timers _ _ _ _ _ _ _ Hi) as Hd. rewrite fmap_cons in Hd. simpl in Hd.
    apply NoDup_app in Hd as (? & Hd & [_ ?]%NoDup_cons). apply NoDup_app. split_and!; try done.
    intros q Hq Hq'. by apply (Hd q Hq), list_elem_of_further.
  - intros q. pose proof (inv_timers _ _ _ _ _ _ _ Hi) as Hd. pose proof (inv_armed _ _ _ _ _ _ _ Hi q) as Hq.
    rewrite fmap_cons in Hd, Hq. simpl in Hd, Hq. rewrite Et. split.
    + intros H1. destruct (proj1 Hq) as (j & Hr & Hj).
      { rewrite !elem_of_app in *. destruct H1; [by left|right; by apply list_elem_of_further]. }
      exists j. split; [done|]. apply Hmem; [done|]. split; [done|]. intros ->.
      apply NoDup_app in Hd as (_ & Hd & [Hd' _]%NoDup_cons). apply elem_of_app in H1 as [H1|H1]; [|done].
      by apply (Hd _ H1), list_elem_of_here.
    + intros (j & Hr & Hj). apply Hmem in Hj as [Hj Hne]; [|done].
      assert (q ∈ tim_entries st ++ p :: busy.*1) as H1 by (apply Hq; eauto).
      rewrite !elem_of_app in *. destruct H1 as [H1|[H1|H1]%elem_of_cons]; [by left|done|by right].
  - intros q Hq. rewrite Et in Hq. assert (q ∈ tim_entries st ++ busy.*1) as H1.
    { apply elem_of_app. destruct Hq as [Hq|Hq]; [by left|right]. apply list_elem_of_fmap. by exists (q, false). }
    assert (q <> p) as Hne.
    { intros ->. pose proof (inv_timers _ _ _ _ _ _ _ Hi) as Hd. rewrite fmap_cons in Hd. simpl in Hd.
      apply NoDup_app in Hd as (_ & Hd & [Hd' _]%NoDup_cons). apply elem_of_app in H1 as [H1|H1]; [|done].
      by apply (Hd _ H1), list_elem_of_here. }
    rewrite (erase_ttl _ _ (Hm _ Hne)). apply (inv_ttl _ _ _ _ _ _ _ Hi). destruct Hq; [by left|right].
    by apply list_elem_of_further.
  - rewrite Eact, (inv_active _ _ _ _ _ _ _ Hi), Et, fmap_cons, !length_app. simpl. lia.
  - destruct (inv_total _ _ _ _ _ _ _ Hi). split; [done|lia].
  - rewrite Ea. apply Hi.
Qed.

(** Session [p] is new at entry [i]; its timer is armed. *)
Lemma inv_add st chains free busy lost p i st' chains' free' :
  inv st chains free busy lost -> others_same p st st' -> heap_ok st' chains' free' -> in_range i ->
  (forall j q, in_range j -> q ∈ members st' chains' j <-> q ∈ members st chains j \/ (q = p /\ j = i)) ->
  (forall j, in_range j -> p ∉ members st chains j) ->
  static_ok (ssn_mem st' p) i -> content_ok st' p -> 0 <= s_ttl (ssn_mem st' p) ->
  (forall q, q ∈ members st chains i -> canon (s_key (ssn_mem st q)) <> canon (s_key (ssn_mem st' p))) ->
  tim_entries st' = tim_entries st ++ [p] -> frcore_ssn_age st' = frcore_ssn_age st ->
  tab_stats st' stat_ssn_active_num = tab_stats st stat_ssn_active_num + 1 ->
  tab_stats st stat_ssn_active_num < SSN_TOTAL_NUM -> sink_ok (sink (out st')) ->
  inv st' chains' free' busy lost.
Proof.
  intros Hi [Hm Hs] [] Hri Hmem Hnp Hst Hc Httl Hcan Et Ea Eact Hmax Hsink.
  assert (forall j q, in_range j -> q ∈ members st chains j -> q <> p) as Hne by (intros j q Hr Hq ->; by apply (Hnp j)).
  split; try done.
  - intros j q Hr [Hq|[-> ->]]%Hmem; [|done|done]. eapply erase_static; [by apply Hm, (Hne j)|by eapply inv_static].
  - intros j q Hr [Hq|[-> ->]]%Hmem; [|done|done].
    eapply erase_content; [by apply Hm, (Hne j)|by apply Hs, (Hne j)|by eapply inv_content].
  - intros j q q' Hr [Hq|[-> Hj]]%Hmem [Hq'|[-> Hj']]%Hmem E; try done; subst.
    + rewrite (erase_key _ _ (Hm _ (Hne j _ Hr Hq))), (erase_key _ _ (Hm _ (Hne j _ Hr Hq'))) in E. by eapply inv_uniq.
    + exfalso. apply (Hcan q Hq). by rewrite <- (erase_key _ _ (Hm _ (Hne _ _ Hr Hq))).
    + exfalso. apply (Hcan q' Hq'). by rewrite <- (erase_key _ _ (Hm _ (Hne _ _ Hr Hq'))).
  - rewrite Et, <- app_assoc. pose proof (inv_timers _ _ _ _ _ _ _ Hi) as (H1 & H2 & H3)%NoDup_app.
    assert (p ∉ tim_entries st ++ busy.*1) as H4.
    { intros (j & Hr & Hj)%(inv_armed _ _ _ _ _ _ _ Hi). by apply (Hnp j). }
    rewrite elem_of_app in H4. apply NoDup_app. split; [done|]. split.
    + intros q Hq. simpl. rewrite elem_of_cons. intros [->|Hq']; [tauto|by apply (H2 q)].
    + simpl. apply NoDup_cons. tauto.
  - intros q. rewrite Et, <- app_assoc. pose proof (inv_armed _ _ _ _ _ _ _ Hi q) as Hq. rewrite elem_of_app in Hq.
    rewrite elem_of_app. simpl. rewrite elem_of_cons. split.
    + intros [H1|[->|H1]].
      * destruct (proj1 Hq (or_introl H1)) as (j & ? & ?). exists j. split; [done|]. apply Hmem; tauto.
      * exists i. split; [done|]. apply Hmem; tauto.
      * destruct (proj1 Hq (or_intror H1)) as (j & ? & ?). exists j. split; [done|]. apply Hmem; tauto.
    + intros (j & Hr & [Hj|[-> _]]%Hmem); [|tauto|done]. destruct (proj2 Hq) as [?|?]; [by exists j|tauto|tauto].
  - intros q Hq. destruct (decide (q = p)) as [->|Hqp]; [done|]. rewrite (erase_ttl _ _ (Hm _ Hqp)).
    apply (inv_ttl _ _ _ _ _ _ _ Hi). rewrite Et, elem_of_app, list_elem_of_singleton in Hq. tauto.
  - rewrite Eact, (inv_active _ _ _ _ _ _ _ Hi), Et, !length_app. simpl. lia.
  - destruct (inv_total _ _ _ _ _ _ _ Hi). split; [done|lia].
  - rewrite Ea. apply Hi.
Qed.

(** The sessions are what they were, up to the chains. *)
Record same_sessions (st : tab) (chains : Z -> list Z) (st' : tab) (chains' : Z -> list Z) : Prop := SameSessions {
  y_members j q : in_range j -> q ∈ members st' chains' j <-> q ∈ members st chains j;
  y_mem j q : in_range j -> q ∈ members st chains j -> with_next None (ssn_mem st' q) = with_next None (ssn_mem st q);
  y_sent j q : in_range j -> q ∈ members st chains j -> sent st' q = sent st q }.

Lemma same_sessions_refl st chains : same_sessions st chains st chains.
Proof. by split. Qed.

(** No session comes or goes; [d] more are counted. *)
Lemma inv_keep st chains free busy lost st' chains' free' d :
  inv st chains free busy lost -> same_sessions st chains st' chains' -> heap_ok st' chains' free' ->
  tim_entries st' = tim_entries st -> frcore_ssn_age st' = frcore_ssn_age st ->
  tab_stats st' stat_ssn_active_num = tab_stats st stat_ssn_active_num + d -> 0 <= d ->
  tab_stats st stat_ssn_active_num + d <= SSN_TOTAL_NUM -> sink_ok (sink (out st')) ->
  inv st' chains' free' busy (lost + d).
Proof.
  intros Hi [Hmem Hm Hs] [] Et Ea Eact Hd Hmax Hsink. split; try done.
  - intros j q Hr Hq%Hmem; [|done]. eapply erase_static; [by eapply Hm|by eapply inv_static].
  - intros j q Hr Hq%Hmem; [|done]. eapply erase_content; [by eapply Hm|by eapply Hs|by eapply inv_content].
  - intros j q q' Hr Hq%Hmem Hq'%Hmem E; [|done|done].
    rewrite (erase_key _ _ (Hm _ _ Hr Hq)), (erase_key _ _ (Hm _ _ Hr Hq')) in E. by eapply inv_uniq.
  - rewrite Et. apply Hi.
  - intros q. rewrite Et, (inv_armed _ _ _ _ _ _ _ Hi q). split; intros (j & Hr & Hj); exists j; (split; [done|]); by apply Hmem.
  - intros q Hq. rewrite Et in Hq. assert (exists j, in_range j /\ q ∈ members st chains j) as (j & Hr & Hj).
    { apply (inv_armed _ _ _ _ _ _ _ Hi). rewrite elem_of_app. destruct Hq as [Hq|Hq]; [by left|right].
      apply list_elem_of_fmap. by exists (q, false). }
    rewrite (erase_ttl _ _ (Hm _ _ Hr Hj)). by apply (inv_ttl _ _ _ _ _ _ _ Hi).
  - rewrite Eact, (inv_active _ _ _ _ _ _ _ Hi), Et. lia.
  - destruct (inv_total _ _ _ _ _ _ _ Hi). split; lia.
  - rewrite Ea. apply Hi.
Qed.

(** ** Chains under the operations *)

Lemma elem_of_members st chains i p : p ∈ members st chains i <->
  (p = slot i /\ has_status (ssn_mem st (slot i)) SSN_STATUS_EMPTY = false) \/ (exists a, p = block a /\ a ∈ chains i).
Proof.
  unfold members. rewrite elem_of_app, list_elem_of_fmap. apply or_iff_compat_r.
  destruct (has_status _ _); [rewrite elem_of_nil|rewrite list_elem_of_singleton]; (split; [done|by intros []]).
Qed.

Lemma fn_lookup_insert_dec {A B} `{EqDecision A} (f : A -> B) a b x : (<[a := b]> f) x = if decide (x = a) then b else f x.
Proof. case_decide as E; [rewrite E; apply fn_lookup_insert|by apply fn_lookup_insert_ne]. Qed.

(** An entry of the table and the blocks before some point of its chain: a last one. *)
Lemma last_before (x : ssn_ptr) (l : list ssn_ptr) : exists l', x :: l = l' ++ [List.last l x].
Proof.
  revert x. induction l as [|y l IH]; intros x; [by exists []|]. destruct (IH y) as [l' E]. exists (x :: l').
  simpl. rewrite E. do 3 f_equal. clear. revert y. induction l as [|z l IH]; intros y; [done|]. destruct l; [done|]. apply (IH y).
Qed.

(** The list from the entry of the table on, up to block [a] and behind. *)
Lemma chain_split st chains free i l1 l2 a : heap_ok st chains free -> in_range i -> chains i = l1 ++ a :: l2 ->
  let q := List.last (block <$> l1) (slot i) in
  exists l', slot i :: (block <$> l1) = l' ++ [q] /\
    linked (next_of st) (Some (slot i)) (l' ++ q :: block a :: (block <$> l2)) /\
    NoDup (l' ++ q :: block a :: (block <$> l2)) /\ (length l' <= length blocks)%nat.
Proof.
  intros Hh Hr Ech q. destruct (h_chain _ _ _ Hh i) as (Hci & Hcs & _). rewrite Ech in Hci, Hcs.
  destruct (last_before (slot i) (block <$> l1)) as [l' El]. fold q in El. exists l'. split; [done|].
  rewrite (cons_middle q), app_assoc, <- El. split_and!.
  - split; [done|]. pose proof (h_link _ _ _ Hh i Hr) as Hl. by rewrite Ech, fmap_app, fmap_cons in Hl.
  - simpl. apply NoDup_cons. rewrite <- fmap_cons, <- fmap_app. split.
    + rewrite list_elem_of_fmap. intros (? & ? & _); discriminate.
    + apply NoDup_fmap_2; [by intros ? ? [=]|done].
  - apply (f_equal length) in El. rewrite length_app in El. simpl in El. rewrite length_fmap in El.
    pose proof (submseteq_length _ _ (NoDup_submseteq _ _ Hci Hcs)) as Hlen. rewrite length_app in Hlen. simpl in *. lia.
Qed.

(** Taking block [a] out of the chain of [i] behind [q]. *)
Lemma heap_unlink st st' chains free i l1 l2 a :
  heap_ok st chains free -> in_range i -> chains i = l1 ++ a :: l2 ->
  let q := List.last (block <$> l1) (slot i) in
  (forall p, next_of st' p = if decide (p = q) then next_of st (block a) else next_of st p) ->
  fpa_ok (ssn_fpa st') (a :: free) ->
  heap_ok st' (<[i := l1 ++ l2]> chains) (a :: free).
Proof.
  intros [Hf [Hnd Hsub] Hl Hc Hd] Hr Ech q Hn Hf'. destruct (Hc i) as (Hci & Hcs & Hcd). rewrite Ech in Hci, Hcs, Hcd.
  assert (forall j, j <> i -> a ∉ chains j) as Haj.
  { intros j Hj Ha. apply Hj. apply (Hd j i a); [done|]. rewrite Ech. apply elem_of_app. right. apply list_elem_of_here. }
  assert (forall b, b ∈ l1 ++ l2 -> b ∈ l1 ++ a :: l2 /\ b <> a) as Hin.
  { intros b Hb. split; [rewrite elem_of_app, elem_of_cons; apply elem_of_app in Hb as [Hb|Hb]; [by left|by right; right]|]. intros ->.
    apply NoDup_app in Hci as (_ & H1 & [H2 _]%NoDup_cons). apply elem_of_app in Hb as [Hb|Hb]; [|done].
    by apply (H1 _ Hb), list_elem_of_here. }
  split; [done|split| | |].
  - apply NoDup_cons. split; [|done]. apply Hcd. apply elem_of_app. right. apply list_elem_of_here.
  - intros b [->|Hb]%elem_of_cons; [|by apply Hsub]. apply Hcs, elem_of_app. right. apply list_elem_of_here.
  - intros j Hrj. destruct (decide (j = i)) as [->|Hj].
    + destruct (chain_split st chains free i l1 l2 a) as (l' & El & Hlk & Hdk & _); [by split|done..|]. fold q in El, Hlk, Hdk.
      pose proof (linked_unlink _ _ _ _ _ _ Hdk Hlk) as H1. rewrite (cons_middle q), app_assoc, <- El in H1.
      rewrite fn_lookup_insert, fmap_app. destruct H1 as [_ H1].
      rewrite Hn. fold (next_of st (slot i)) in *. revert H1. rewrite fn_lookup_insert_dec. intros H1.
      eapply linked_ext; [|exact H1]. intros p _. by rewrite Hn, fn_lookup_insert_dec.
    + assert (forall p, p = slot j \/ (exists b, p = block b /\ b ∈ chains j) -> p <> q) as Hpq.
      { intros p Hp ->. destruct (last_before (slot i) (block <$> l1)) as [l' El]. fold q in El.
        assert (q ∈ slot i :: (block <$> l1)) as Hq by (rewrite El, elem_of_app, list_elem_of_singleton; by right).
        apply elem_of_cons in Hq as [Hq|(b & Hq & Hb)%list_elem_of_fmap]; destruct Hp as [Hp|(b' & Hp & Hb')]; rewrite Hq in Hp;
          try discriminate Hp; injection Hp as Hp; [by apply Hj|].
        apply Hj. apply (Hd j i b'); [done|]. rewrite Ech, elem_of_app, <- Hp. by left. }
      rewrite fn_lookup_insert_ne by done. rewrite Hn, decide_False by (apply Hpq; by left).
      eapply linked_ext; [|by apply Hl]. intros p (b & -> & Hb)%list_elem_of_fmap. rewrite Hn, decide_False; [done|].
      apply Hpq. right. by exists b.
  - intros j. destruct (decide (j = i)) as [->|Hj].
    + rewrite fn_lookup_insert. split_and!.
      * apply NoDup_app in Hci as (H1 & H2 & [H3 H4]%NoDup_cons). apply NoDup_app. split_and!; try done.
        intros b Hb Hb'. by apply (H2 b Hb), list_elem_of_further.
      * intros b Hb. by apply Hcs, Hin.
      * intros b Hb [->|Hb']%elem_of_cons; [by apply Hin in Hb as [_ ?]|]. by apply (Hcd b); [apply Hin|].
    + rewrite fn_lookup_insert_ne by done. destruct (Hc j) as (H1 & H2 & H3). split_and!; try done.
      intros b Hb [->|Hb']%elem_of_cons; [by apply (Haj j)|by apply (H3 b)].
  - intros j k b Hj Hk. assert (forall j, b ∈ (<[i:=l1 ++ l2]> chains) j -> b ∈ chains j) as Hin'.
    { intros j'. destruct (decide (j' = i)) as [->|?]; [rewrite fn_lookup_insert, Ech; by intros [? _]%Hin|].
      by rewrite fn_lookup_insert_ne. }
    by apply (Hd j k b); apply Hin'.
Qed.

(** Putting a block of the pool in front of the chain of [i]. *)
Lemma heap_link st st' chains free i a free' :
  heap_ok st chains free -> in_range i -> free ≡ₚ a :: free' ->
  (forall p, next_of st' p = if decide (p = slot i) then Some (block a)
    else if decide (p = block a) then next_of st (slot i) else next_of st p) ->
  fpa_ok (ssn_fpa st') free' ->
  heap_ok st' (<[i := a :: chains i]> chains) free' /\ (a ∈ blocks) /\ (a ∉ free') /\ (forall j, a ∉ chains j).
Proof.
  intros [Hf [Hnd Hsub] Hl Hc Hd] Hr Hperm Hn Hf'. rewrite Hperm in Hnd. apply NoDup_cons in Hnd as [Ha Hnd].
  assert (forall b, b ∈ free <-> b = a \/ b ∈ free') as Hin by (intros b; by rewrite Hperm, elem_of_cons).
  assert (forall j, a ∉ chains j) as Haj.
  { intros j Hj. destruct (Hc j) as (_ & _ & H1). apply (H1 a Hj), Hin. by left. }
  split; [|split_and!; [by apply Hsub, Hin; left|done|done]].
  split; [done|split; [done|]| | |].
  - intros b Hb. apply Hsub, Hin. by right.
  - intros j Hrj. destruct (decide (j = i)) as [->|Hj].
    + rewrite fn_lookup_insert, Hn, decide_True by done. rewrite fmap_cons. split; [done|].
      rewrite Hn, decide_False, decide_True by done. eapply linked_ext; [|by apply Hl].
      intros p (b & -> & Hb)%list_elem_of_fmap. rewrite Hn, decide_False, decide_False; [done| |done].
      intros [= ->]. by apply (Haj i).
    + rewrite fn_lookup_insert_ne, Hn, decide_False, decide_False by (done || by intros [=]).
      eapply linked_ext; [|by apply Hl]. intros p (b & -> & Hb)%list_elem_of_fmap.
      rewrite Hn, decide_False, decide_False; [done| |done]. intros [= ->]. by apply (Haj j).
  - intros j. destruct (decide (j = i)) as [->|Hj].
    + rewrite fn_lookup_insert. destruct (Hc i) as (H1 & H2 & H3). split; [|split].
      * apply NoDup_cons. by split.
      * intros b [->|Hb]%elem_of_cons; [by apply Hsub, Hin; left|by apply H2].
      * intros b [->|Hb]%elem_of_cons; [done|]. intros Hb'. apply (H3 b Hb), Hin. by right.
    + rewrite fn_lookup_insert_ne by done. destruct (Hc j) as (H1 & H2 & H3). split_and!; try done.
      intros b Hb Hb'. apply (H3 b Hb), Hin. by right.
  - assert (forall j b, b ∈ (<[i := a :: chains i]> chains) j -> (b = a /\ j = i) \/ b ∈ chains j) as Hins.
    { intros j b. destruct (decide (j = i)) as [->|Hj]; [rewrite fn_lookup_insert, elem_of_cons|rewrite fn_lookup_insert_ne by done].
      - intros [->|Hb]; [by left|by right].
      - by right. }
    intros j k b [[-> ->]|Hj]%Hins [[E ->]|Hk]%Hins; [done|by apply Haj in Hk|subst b; by apply Haj in Hj|by apply (Hd j k b)].
Qed.

Lemma unlink_elem st chains free i l1 l2 a b j : heap_ok st chains free -> chains i = l1 ++ a :: l2 ->
  b ∈ (<[i := l1 ++ l2]> chains) j <-> b ∈ chains j /\ b <> a.
Proof.
  intros Hh Ech. destruct (decide (j = i)) as [->|Hj].
  - rewrite fn_lookup_insert, Ech. destruct (h_chain _ _ _ Hh i) as (Hd & _). rewrite Ech in Hd.
    apply NoDup_app in Hd as (_ & Hd1 & [Hd2 _]%NoDup_cons). rewrite !elem_of_app, elem_of_cons. split.
    + intros [Hb|Hb]; (split; [first [by left|by right; right]|]); intros ->; [by apply (Hd1 a Hb), list_elem_of_here|done].
    + intros [[Hb|[->|Hb]] Hne]; [by left|done|by right].
  - rewrite fn_lookup_insert_ne by done. split; [|by intros []]. intros Hb. split; [done|]. intros ->.
    apply Hj. apply (h_disj _ _ _ Hh j i a); [done|]. rewrite Ech, elem_of_app. right. apply list_elem_of_here.
Qed.

Lemma members_unlink st st' chains free i l1 l2 a : heap_ok st chains free -> chains i = l1 ++ a :: l2 ->
  (forall j, ssn_status (ssn_mem st' (slot j)) = ssn_status (ssn_mem st (slot j))) ->
  forall j x, x ∈ members st' (<[i := l1 ++ l2]> chains) j <-> x ∈ members st chains j /\ x <> block a.
Proof.
  intros Hh Ech Es j x. rewrite !elem_of_members. unfold has_status. rewrite Es.
  pose proof (fun b => unlink_elem st chains free i l1 l2 a b j Hh Ech) as Hb. split.
  - intros [[-> Hs]|(b' & -> & [Hb1 Hb2]%Hb)]; (split; [|by intros [=]]); [by left|right; by exists b'].
  - intros [[[-> Hs]|(b' & -> & Hb')] Hne]; [by left|right]. exists b'. split; [done|]. apply Hb. split; [done|]. by intros ->.
Qed.

Lemma heap_ext st st' chains free : (forall p, next_of st' p = next_of st p) -> ssn_fpa st' = ssn_fpa st ->
  heap_ok st chains free -> heap_ok st' chains free.
Proof.
  intros En Ef []. split; try done; [by rewrite Ef|]. intros i Hr. rewrite En. eapply linked_ext; [|by apply h_link0]. intros p _. apply En.
Qed.

Lemma active_range st chains free busy lost : inv st chains free busy lost ->
  0 <= tab_stats st stat_ssn_active_num <= SSN_TOTAL_NUM.
Proof. intros Hi. pose proof (inv_active _ _ _ _ _ _ _ Hi). destruct (inv_total _ _ _ _ _ _ _ Hi). lia. Qed.

Lemma wraps_count n : -1 <= n <= SSN_TOTAL_NUM + 1 -> wraps 64 n = n.
Proof. unfold SSN_TOTAL_NUM. intros Hn. apply wraps_small; simpl; lia. Qed.

Lemma has_bit e k : 0 <= k -> has_status e (2 ^ k) = Z.testbit (ssn_status e) k.
Proof.
  intros Hk. unfold has_status. replace (Z.land (ssn_status e) (2 ^ k)) with (if Z.testbit (ssn_status e) k then 2 ^ k else 0).
  - destruct (Z.testbit (ssn_status e) k); [|done]. rewrite (proj2 (Z.eqb_neq _ 0)); [done|]. pose proof (Z.pow_pos_nonneg 2 k). lia.
  - apply Z.bits_inj'. intros n Hn. rewrite Z.land_spec, Z.pow2_bits_eqb by done. destruct (Z.eqb_spec k n) as [<-|Hne].
    + rewrite andb_true_r. destruct (Z.testbit (ssn_status e) k); [by rewrite Z.pow2_bits_true|by rewrite Z.bits_0].
    + rewrite andb_false_r. destruct (Z.testbit (ssn_status e) k); [by rewrite Z.pow2_bits_false|by rewrite Z.bits_0].
Qed.

Lemma good_bit e : has_status e SSN_STATUS_GOOD = Z.testbit (ssn_status e) 0.
Proof. by apply (has_bit e 0). Qed.
Lemma empty_bit e : has_status e SSN_STATUS_EMPTY = Z.testbit (ssn_status e) 1.
Proof. by apply (has_bit e 1). Qed.

(** ** Creation *)

(** [p] is an entry that was not in use and now is at [i]; nothing else changed. *)
Record prepared (st st' : tab) (chains chains' : Z -> list Z) (free' : list Z) (i : Z) (p : ssn_ptr) : Prop := Prepared {
  r_others : others_same p st st';
  r_heap : heap_ok st' chains' free';
  r_members j q : q ∈ members st' chains' j <-> q ∈ members st chains j \/ (q = p /\ j = i);
  r_new j : p ∉ members st chains j;
  r_flag : addr_flag (s_addr (ssn_mem st' p)) = 0;
  r_age : frcore_ssn_age st' = frcore_ssn_age st; r_out : env st' = env st }.

Lemma clear_empty s : Z.testbit s 1 = false -> Z.ldiff s SSN_STATUS_EMPTY = s.
Proof.
  intros Hb. apply Z.bits_inj'. intros n Hn. rewrite Z.ldiff_spec. change SSN_STATUS_EMPTY with (2 ^ 1).
  rewrite Z.pow2_bits_eqb by lia. destruct (Z.eqb_spec 1 n) as [<-|Hne]; [by rewrite Hb|by rewrite andb_true_r].
Qed.

Lemma members_slot st st' chains j : has_status (ssn_mem st' (slot j)) SSN_STATUS_EMPTY = has_status (ssn_mem st (slot j)) SSN_STATUS_EMPTY ->
  members st' chains j = members st chains j.
Proof. intros E. unfold members. by rewrite E. Qed.

(** The entry of the table is empty. *)
Lemma prepare_slot st chains free i : heap_ok st chains free ->
  has_status (ssn_mem st (slot i)) SSN_STATUS_EMPTY = true ->
  let st1 := upd (slot i) (fun e => with_status (Z.ldiff (ssn_status e) SSN_STATUS_EMPTY) e) st in
  prepared st (upd (slot i) (fun e => with_addr (addr_unset (s_addr e)) e) st1) chains chains free i (slot i).
Proof.
  intros Hh He st1. set (st2 := upd _ _ st1).
  assert (forall q, q <> slot i -> ssn_mem st2 q = ssn_mem st q) as Ho.
  { intros q Hq. unfold st2, st1. by rewrite !upd_other. }
  assert (ssn_mem st2 (slot i) = with_addr (addr_unset (s_addr (ssn_mem st (slot i))))
    (with_status (Z.ldiff (ssn_status (ssn_mem st (slot i))) SSN_STATUS_EMPTY) (ssn_mem st (slot i)))) as Em.
  { unfold st2, st1. by rewrite !upd_same. }
  split; try done.
  - split; intros q Hq; [by rewrite Ho|done].
  - apply (heap_ext st); [|done|exact Hh]. intros q. unfold next_of. destruct (decide (q = slot i)) as [->|Hq]; [by rewrite Em|by rewrite Ho].
  - intros j q. rewrite !elem_of_members. destruct (decide (j = i)) as [->|Hj].
    + rewrite He. assert (has_status (ssn_mem st2 (slot i)) SSN_STATUS_EMPTY = false) as ->.
      { rewrite empty_bit, Em. cbn [ssn_status with_addr with_status]. rewrite Z.ldiff_spec. by rewrite andb_false_r. }
      split; [intros [[-> _]|Hb]; [by right|by left; right]|]. intros [[[_ [=]]|Hb]|[-> _]]; [by right|by left].
    + unfold has_status. rewrite Ho by (by intros [=]). split; [by left|]. by intros [?|[_ ?]].
  - intros j. rewrite elem_of_members. intros [[[= <-] He']|(a & [=] & _)]. congruence.
  - by rewrite Em.
Qed.

(** It is in use: a block [a] of the pool, whose free blocks are then [free']. *)
Lemma prepare_block st chains free i a fp free' : heap_ok st chains free -> in_range i ->
  has_status (ssn_mem st (slot i)) SSN_STATUS_EMPTY = false -> free ≡ₚ a :: free' -> fpa_ok fp free' ->
  let st1 := set_fpa fp (stat_inc stat_ssn_prepared_by_fpa_alloc
    (upd (slot i) (fun e => with_status (Z.ldiff (ssn_status e) SSN_STATUS_EMPTY) e) st)) in
  let st2 := upd (block a) (fun e => with_next (next_sc (ssn_mem st1 (slot i))) (with_addr (addr_unset (s_addr e))
    (with_status SSN_STATUS_EMPTY e))) st1 in
  prepared st (upd (slot i) (with_next (Some (block a))) st2) chains (<[i := a :: chains i]> chains) free' i (block a).
Proof.
  intros Hh Hr He Hperm Hfp st1 st2. set (st3 := upd _ _ st2).
  assert (Z.ldiff (ssn_status (ssn_mem st (slot i))) SSN_STATUS_EMPTY = ssn_status (ssn_mem st (slot i))) as Es.
  { apply clear_empty. by rewrite <- empty_bit. }
  assert (forall q, q <> slot i -> q <> block a -> ssn_mem st3 q = ssn_mem st q) as Ho.
  { intros q Hq Hq'. unfold st3, st2. rewrite !upd_other by done. unfold st1. simpl. by rewrite fn_lookup_insert_ne. }
  assert (ssn_mem st3 (slot i) = with_next (Some (block a)) (ssn_mem st (slot i))) as Ei.
  { unfold st3, st2. rewrite upd_same, upd_other by done. unfold st1. simpl. rewrite fn_lookup_insert, Es. by destruct (ssn_mem st (slot i)). }
  assert (ssn_mem st3 (block a) = with_next (next_sc (ssn_mem st (slot i))) (with_addr (addr_unset (s_addr (ssn_mem st (block a))))
    (with_status SSN_STATUS_EMPTY (ssn_mem st (block a))))) as Ea.
  { unfold st3, st2. rewrite upd_other, upd_same by done. unfold st1. simpl. rewrite fn_lookup_insert, fn_lookup_insert_ne by done. done. }
  destruct (heap_link st st3 chains free i a free') as (Hh' & _ & _ & Haj); try done.
  { intros q. unfold next_of. repeat case_decide; subst; [by rewrite Ei|by rewrite Ea|by rewrite Ho]. }
  split; try done.
  - split; [|done]. intros q Hq. destruct (decide (q = slot i)) as [->|Hq']; [|by rewrite Ho].
    rewrite Ei. by destruct (ssn_mem st (slot i)).
  - intros j q. rewrite !elem_of_members. assert (has_status (ssn_mem st3 (slot j)) SSN_STATUS_EMPTY = has_status (ssn_mem st (slot j)) SSN_STATUS_EMPTY) as ->.
    { destruct (decide (j = i)) as [->|Hj]; [by rewrite Ei|]. rewrite Ho; [done|by intros [=]|done]. }
    destruct (decide (j = i)) as [->|Hj].
    + rewrite fn_lookup_insert. setoid_rewrite elem_of_cons. split.
      * intros [Hs|(b & -> & [->|Hb])]; [by left; left|by right|left; right; by exists b].
      * intros [[Hs|(b & -> & Hb)]|[-> _]]; [by left|right|right]; eexists; (split; [done|]); [by right|by left].
    + rewrite fn_lookup_insert_ne by done. split; [by left|]. by intros [?|[_ ?]].
  - intros j. rewrite elem_of_members. intros [[[=] _]|(b & [= <-] & Hb)]. by apply (Haj j).
  - by rewrite Ea.
Qed.

(** The rest of the creation. *)
Lemma prepared_ext st st1 st2 chains chains' free' i p : prepared st st1 chains chains' free' i p ->
  (forall q, q <> p -> ssn_mem st2 q = ssn_mem st1 q) -> next_sc (ssn_mem st2 p) = next_sc (ssn_mem st1 p) ->
  has_status (ssn_mem st2 p) SSN_STATUS_EMPTY = has_status (ssn_mem st1 p) SSN_STATUS_EMPTY ->
  s_addr (ssn_mem st2 p) = s_addr (ssn_mem st1 p) -> (forall q, q <> p -> sent st2 q = sent st1 q) ->
  ssn_fpa st2 = ssn_fpa st1 -> frcore_ssn_age st2 = frcore_ssn_age st1 -> env st2 = env st1 -> prepared st st2 chains chains' free' i p.
Proof.
  intros [] Em En Es Ea Ese Ef Eag Eo. split; try done.
  - split; intros q Hq; [rewrite Em by done; by apply r_others0|rewrite Ese by done; by apply r_others0].
  - apply (heap_ext st1); [|done|done]. intros q. unfold next_of. destruct (decide (q = p)) as [->|Hq]; [done|by rewrite Em].
  - intros j q. rewrite (members_slot st1); [done|]. destruct (decide (slot j = p)) as [<-|Hq]; [done|by rewrite Em].
  - by rewrite Ea.
  - by rewrite Eag.
  - by rewrite Eo.
Qed.

Lemma elem_of_or_l (A B : Prop) : ~ B -> (A \/ B <-> A).
Proof. intros HB. split; [|by left]. by intros [?|?]. Qed.

Lemma set_empty s : Z.testbit (Z.lor s SSN_STATUS_EMPTY) 1 = true.
Proof. rewrite Z.lor_spec. apply orb_true_r. Qed.

(** A session whose timer could not be armed is taken back: the sessions are those from
    before. *)
Lemma purge_slot_nolock st st1 chains chains1 free1 i : prepared st st1 chains chains1 free1 i (slot i) -> in_range i ->
  s_index (ssn_mem st1 (slot i)) = i ->
  exists st2, ssn_purge_ssn_nolock fuel (slot i) st1 = Some st2 /\ heap_ok st2 chains1 free1 /\
    same_sessions st chains st2 chains1 /\ tim_entries st2 = tim_entries st1 /\ frcore_ssn_age st2 = frcore_ssn_age st /\
    env st2 = env st /\ tab_stats st2 stat_ssn_active_num = tab_stats st1 stat_ssn_active_num.
Proof.
  intros [[Hm Hs] Hh Hmem Hnew _ Hage Hout] Hr Ei. unfold ssn_purge_ssn_nolock. rewrite Ei, slot_in_range by done.
  cbn [mbind option_bind]. rewrite decide_True by done. set (st2 := upd _ _ _). exists st2. split; [done|].
  assert (forall q, q <> slot i -> ssn_mem st2 q = ssn_mem st1 q) as Ho by (intros q Hq; by apply upd_other).
  split; [|split_and!; try done].
  - apply (heap_ext st1); [|done|done]. intros q. unfold next_of.
    destruct (decide (q = slot i)) as [->|Hq]; [unfold st2; by rewrite upd_same|by rewrite Ho].
  - assert (forall j q, q ∈ members st chains j -> q <> slot i) as Hne by (intros j q Hq ->; by apply (Hnew j)).
    split.
    + intros j q Hrj. destruct (decide (q = slot i)) as [->|Hq].
      * split; [|by intros ?%Hnew]. rewrite elem_of_members. intros [[[= <-] He]|(a & [=] & _)].
        rewrite empty_bit in He. unfold st2 in He. rewrite upd_same in He. cbn [ssn_status with_status] in He. by rewrite set_empty in He.
      * rewrite elem_of_members. transitivity (q ∈ members st1 chains1 j).
        -- rewrite elem_of_members. apply or_iff_compat_r. split; intros [-> He]; (split; [done|]); [by rewrite Ho in He|by rewrite Ho].
        -- rewrite Hmem. apply elem_of_or_l. by intros [? _].
    + intros j q _ Hq%Hne. rewrite Ho by done. by apply Hm.
    + intros j q _ Hq%Hne. by apply Hs.
Qed.

Lemma purge_block_nolock st st1 chains chains1 free1 i a : prepared st st1 chains chains1 free1 i (block a) -> in_range i ->
  s_index (ssn_mem st1 (block a)) = i -> (length blocks < fuel)%nat ->
  exists st2 chains2, ssn_purge_ssn_nolock fuel (block a) st1 = Some st2 /\ heap_ok st2 chains2 (a :: free1) /\
    same_sessions st chains st2 chains2 /\ tim_entries st2 = tim_entries st1 /\ frcore_ssn_age st2 = frcore_ssn_age st /\
    env st2 = env st /\ tab_stats st2 stat_ssn_active_num = tab_stats st1 stat_ssn_active_num.
Proof using pool_laws.
  intros [[Hm Hs] Hh Hmem Hnew _ Hage Hout] Hr Ei Hlenf. unfold ssn_purge_ssn_nolock. rewrite Ei, slot_in_range by done.
  cbn [mbind option_bind]. rewrite decide_False by done.
  assert (a ∈ chains1 i) as Ha.
  { assert (block a ∈ members st1 chains1 i) as Ha by (apply Hmem; by right).
    apply elem_of_members in Ha as [[[=] _]|(b & [= <-] & ?)]. done. }
  destruct (h_chain _ _ _ Hh i) as (_ & Hsub & Hfr).
  apply list_elem_of_split in Ha as (l1 & l2 & Ech).
  destruct (chain_split st1 chains1 free1 i l1 l2 a Hh Hr Ech) as (l' & El & Hlk & Hdk & Hlen).
  set (q := List.last (block <$> l1) (slot i)) in *.
  rewrite (find_prev_spec _ (Some (slot i)) st1 l' q (block a) (block <$> l2)) by (done || lia).
  cbn [mbind option_bind fpa_free]. set (st2 := set_fpa _ _). exists st2, (<[i := l1 ++ l2]> chains1). split; [done|].
  assert (a ∈ l1 ++ a :: l2) as Ha by (rewrite elem_of_app; right; apply list_elem_of_here). rewrite <- Ech in Ha.
  assert (forall p, ssn_mem st2 p = if decide (p = q) then with_next (next_sc (ssn_mem st1 (block a))) (ssn_mem st1 p) else ssn_mem st1 p) as Em.
  { intros p. case_decide as Hp; [rewrite Hp; apply (upd_same q)|by apply (upd_other q)]. }
  assert (forall p, with_next None (ssn_mem st2 p) = with_next None (ssn_mem st1 p)) as Er by (intros p; rewrite Em; by case_decide).
  split; [|split_and!; try done].
  - eapply heap_unlink; [exact Hh|done|exact Ech| |].
    + intros p. fold q. unfold next_of. rewrite Em. by destruct (decide (p = q)).
    + simpl. apply fpa_free_ok; [apply Hh|by apply Hsub|by apply Hfr].
  - assert (forall j x, x ∈ members st chains j -> x <> block a) as Hne by (intros j x Hx ->; by apply (Hnew j)). split.
    + intros j x Hrj. rewrite (members_unlink st1 st2 chains1 free1 i l1 l2 a Hh Ech) by (intros ?; apply erase_status, Er).
      rewrite Hmem. split; [by intros [[Hx|[-> _]] Hx']|]. intros Hx. split; [by left|by eapply Hne].
    + intros j x _ Hx%Hne. rewrite Er. by apply Hm.
    + intros j x _ Hx%Hne. by apply Hs.
Qed.

Hypothesis Hstack : length hdr_stack = 16%nat.
Hypothesis Hfuel : (length blocks + 1 < fuel)%nat.

(** ** Purge *)

(** The header adds no packet to the cells. *)
Lemma header_works id (o o' : pack C) rv : sbumit_dma_header_to_fifo id hdr_stack o = Some (rv, o') ->
  cell_works (taken o') = cell_works (taken o) /\ wqe_freed o' = wqe_freed o.
Proof.
  unfold sbumit_dma_header_to_fifo. destruct (addr_flag (addr o) =? 0); [by intros [= <- <-]|].
  unfold submit_head, forward_cell. intros E. apply bind_Some in E as ([rv1 o1] & E1 & E).
  apply bind_Some in E1 as ([rv2 s] & _ & E1). injection E1 as -> <-.
  destruct (rv1 =? 0); injection E as <- <-; simpl; [|done]. split; [|done]. unfold cell_works. rewrite omap_app. apply app_nil_r.
Qed.

Lemma header_spec p st done cur : id_ok (id_of (ssn_mem st p)) -> sink_ok (sink (out st)) ->
  packed (id_of (ssn_mem st p)) hdr_stack (load_pack p st) done cur ->
  exists st' cells, submit_header hdr_stack p st = Some st' /\ touch p st st' /\ sink_ok (sink (out st')) /\
    closed st' = closed st ++ [(id_of (ssn_mem st p), cells)] /\ cell_works cells = cell_works (sent st p) /\
    wqe_freed (out st') = wqe_freed (out st) /\ shared st' = shared st.
Proof using Hstack channel_laws.
  intros Hid Hs Hp. unfold submit_header.
  assert (exists rv o, sbumit_dma_header_to_fifo (id_of (ssn_mem st p)) hdr_stack (load_pack p st) = Some (rv, o) /\
    sink_ok (sink o)) as (rv & o & Eo & Hso).
  { unfold sbumit_dma_header_to_fifo. destruct (Z.eqb_spec (addr_flag (addr (load_pack p st))) 0) as [Hz|Hz]; [by eexists _, _|].
    destruct (submit_head_spec 0 _ hdr_stack Hid Hstack (load_pack p st) done cur Hp Hs Hz) as (rv & o & E & Ho & _).
    by exists rv, o. }
  destruct (on_session_spec p (fun id => sbumit_dma_header_to_fifo id hdr_stack) st rv o Eo) as
    (st1 & E1 & Ht & _ & Et1 & Eout & Em & Eq & Ec & Ecl). rewrite E1. cbn [mbind option_bind]. eexists _, _. split; [done|].
  assert (id_of (ssn_mem st1 p) = id_of (ssn_mem st p)) as Eid by (apply id_same, Ht).
  destruct (header_works _ _ _ _ Eo) as [Ew Ef].
  split; [|split; [simpl; by rewrite Eout|split; [|split; [|split; [simpl; rewrite Eout; exact Ef|]]]]].
  - eapply touch_trans; [exact Ht|]. split; try done. intros q Hq. simpl. by apply fn_lookup_insert_ne.
  - simpl. by rewrite Eid, Ecl.
  - rewrite Et1. exact Ew.
  - unfold shared. simpl. by rewrite Eq, Ec, (o_depth _ _ _ Ht), (o_age _ _ _ Ht).
Qed.

(** Session [p] left the table. *)
Record purged (st st' : tab) (chains chains' : Z -> list Z) (free' : list Z) (p : ssn_ptr) : Prop := Purged {
  g_others : others_same p st st'; g_heap : heap_ok st' chains' free';
  g_members j q : q ∈ members st' chains' j <-> q ∈ members st chains j /\ q <> p;
  g_tim : tim_entries st' = tim_entries st; g_res : tim_results st' = tim_results st; g_shared : shared st' = shared st;
  g_active : tab_stats st' stat_ssn_active_num = tab_stats st stat_ssn_active_num - 1; g_sink : sink_ok (sink (out st'));
  g_closed : exists cells, closed st' = closed st ++ [(id_of (ssn_mem st p), cells)] /\ cell_works cells = cell_works (sent st p);
  g_freed : wqe_freed (out st') = wqe_freed (out st) }.

(** Its entry of the table is empty again. *)
Lemma purge_slot st chains free i : heap_ok st chains free -> in_range i ->
  slot i ∈ members st chains i -> static_ok (ssn_mem st (slot i)) i -> content_ok st (slot i) -> sink_ok (sink (out st)) ->
  0 <= tab_stats st stat_ssn_active_num <= SSN_TOTAL_NUM ->
  exists st', ssn_purge_ssn hdr_stack fuel (slot i) st = Some st' /\ purged st st' chains chains free (slot i).
Proof using Hfuel Hstack channel_laws.
  intros Hh Hr Hp Hst [_ (done & cur & Hpk)] Hs Hact. pose proof (static_id_ok _ _ _ Hr Hst) as Hid. unfold ssn_purge_ssn.
  rewrite (st_index _ _ _ Hst), slot_in_range by done. cbn [mbind option_bind]. rewrite decide_True by done. set (st1 := upd _ _ _).
  assert (id_of (ssn_mem st1 (slot i)) = id_of (ssn_mem st (slot i))) as Eid by (unfold st1; by rewrite upd_same).
  destruct (header_spec (slot i) st1 done cur) as (st2 & cells & E2 & Ht & Hs2 & Ecl & Ecw & Efr & Esh).
  { by rewrite Eid. }
  { exact Hs. }
  { rewrite Eid. eapply packed_ext; [| |exact Hpk]; [|done]. simpl. by rewrite fn_lookup_insert. }
  rewrite E2. cbn [mbind option_bind]. set (st3 := stat_add _ _ st2). exists st3. split; [done|].
  assert (others_same (slot i) st st3) as Ho.
  { split; intros q Hq; simpl; [rewrite (o_mem _ _ _ Ht) by done|by apply (o_sent _ _ _ Ht)]. unfold st1. by rewrite upd_other. }
  split; try done; try apply Ht.
  - apply (heap_ext st); [|apply (o_fpa _ _ _ Ht)|exact Hh]. intros q. change (next_of st3 q) with (next_of st2 q).
    rewrite (touch_next _ _ _ _ Ht). unfold next_of, st1. destruct (decide (q = slot i)) as [->|Hq]; [by rewrite upd_same|by rewrite upd_other].
  - assert (has_status (ssn_mem st3 (slot i)) SSN_STATUS_EMPTY = true) as He'.
    { rewrite empty_bit. change (ssn_mem st3 (slot i)) with (ssn_mem st2 (slot i)). rewrite (e_status _ _ (o_entry _ _ _ Ht)).
      unfold st1. rewrite upd_same. cbn [ssn_status with_status]. rewrite Z.ldiff_spec, Z.lor_spec.
      change (Z.testbit SSN_STATUS_EMPTY 1) with true. change (Z.testbit SSN_STATUS_GOOD 1) with false. by rewrite orb_true_r. }
    intros j q. rewrite !elem_of_members. destruct (decide (j = i)) as [->|Hj].
    + rewrite He'. split; [intros [[_ ?]|(a & -> & Ha)]; [done|split; [right; by exists a|done]]|].
      intros [[[-> _]|Hq] Hne]; [done|by right].
    + assert (has_status (ssn_mem st3 (slot j)) SSN_STATUS_EMPTY = has_status (ssn_mem st (slot j)) SSN_STATUS_EMPTY) as ->.
      { unfold has_status. by rewrite (erase_status _ _ (k_mem _ _ _ Ho (slot j) ltac:(by intros [=]))). }
      split; [|by intros [? _]]. intros Hq. split; [done|]. intros ->. destruct Hq as [[[=] _]|(a & ? & _)]; done.
  - unfold st3. simpl. rewrite fn_lookup_insert, (o_active _ _ _ Ht). simpl. apply wraps_count. lia.
  - exists cells. split; [|exact Ecw]. etransitivity; [exact Ecl|]. by rewrite Eid.
Qed.

(** Its block goes back to the pool. *)
Lemma purge_block st chains free i a : heap_ok st chains free -> in_range i ->
  block a ∈ members st chains i -> static_ok (ssn_mem st (block a)) i -> content_ok st (block a) -> sink_ok (sink (out st)) ->
  0 <= tab_stats st stat_ssn_active_num <= SSN_TOTAL_NUM ->
  exists st' chains', ssn_purge_ssn hdr_stack fuel (block a) st = Some st' /\ purged st st' chains chains' (a :: free) (block a).
Proof using Type*.
  intros Hh Hr Hp Hst [_ (done & cur & Hpk)] Hs Hact. pose proof (static_id_ok _ _ _ Hr Hst) as Hid. unfold ssn_purge_ssn.
  rewrite (st_index _ _ _ Hst), slot_in_range by done. cbn [mbind option_bind]. rewrite decide_False by done.
  apply elem_of_members in Hp as [[[=] _]|(b & [= <-] & Ha)]. pose proof (h_chain _ _ _ Hh i) as (_ & Hsub & Hfr).
  pose proof (Hsub _ Ha) as Hab. pose proof (Hfr _ Ha) as Haf. apply list_elem_of_split in Ha as (l1 & l2 & Ech).
  destruct (chain_split st chains free i l1 l2 a) as (l' & El & Hlk & Hdk & Hlen); [done..|].
  set (q := List.last (block <$> l1) (slot i)) in *.
  rewrite (find_prev_spec _ (Some (slot i)) (stat_inc stat_ssn_purge st) l' q (block a) (block <$> l2)) by (done || lia).
  cbn [mbind option_bind]. set (st1 := upd q _ _).
  assert (q <> block a) as Hqa.
  { intros E. rewrite E in Hdk. apply NoDup_app in Hdk as (_ & _ & [Hdk _]%NoDup_cons). apply Hdk, list_elem_of_here. }
  assert (ssn_mem st1 (block a) = ssn_mem st (block a)) as Em by (unfold st1; by rewrite upd_other).
  destruct (header_spec (block a) st1 done cur) as (st2 & cells & E2 & Ht & Hs2 & Ecl & Ecw & Efr & Esh).
  { by rewrite Em. }
  { exact Hs. }
  { rewrite Em. eapply packed_ext; [| |exact Hpk]; [|done]. simpl. by rewrite fn_lookup_insert_ne. }
  rewrite E2, fpa_member_ok by done. cbn [fpa_free mbind option_bind].
  set (st3 := stat_add _ _ (set_fpa _ _)). exists st3, (<[i := l1 ++ l2]> chains). split; [done|].
  assert (others_same (block a) st st3) as Ho.
  { split; intros x Hx; simpl; [rewrite (o_mem _ _ _ Ht) by done|by apply (o_sent _ _ _ Ht)]. unfold st1.
    destruct (decide (x = q)) as [->|Hxq]; [by rewrite upd_same|by rewrite upd_other]. }
  split; try done; try apply Ht.
  - eapply heap_unlink; [done..| |].
    + intros x. change (next_of st3 x) with (next_of st2 x). rewrite (touch_next _ _ _ _ Ht). unfold next_of, st1. fold q.
      destruct (decide (x = q)) as [->|Hx]; [by rewrite upd_same|by rewrite upd_other].
    + simpl. rewrite (o_fpa _ _ _ Ht). apply fpa_free_ok; [apply Hh|done..].
  - apply (members_unlink st st3 chains free); [done..|]. intros j. apply (erase_status _ _ (k_mem _ _ _ Ho (slot j) ltac:(done))).
  - unfold st3. simpl. rewrite fn_lookup_insert, fn_lookup_insert_ne, (o_active _ _ _ Ht) by done. simpl. apply wraps_count. lia.
  - exists cells. split; [|exact Ecw]. etransitivity; [exact Ecl|]. by rewrite Em.
Qed.

(** A session whose timer fired is purged. *)
Lemma purge_spec st chains free busy lost p b i :
  inv st chains free ((p, b) :: busy) lost -> in_range i -> p ∈ members st chains i ->
  exists st' chains' free', ssn_purge_ssn hdr_stack fuel p st = Some st' /\ inv st' chains' free' busy lost /\
    purged st st' chains chains' free' p.
Proof using Type*.
  intros Hi Hr Hp.
  assert (exists st' chains' free', ssn_purge_ssn hdr_stack fuel p st = Some st' /\ purged st st' chains chains' free' p) as
    (st' & chains' & free' & E & Hg).
  { pose proof (inv_heap _ _ _ _ _ Hi) as Hh. pose proof (inv_static _ _ _ _ _ _ _ Hi _ _ Hr Hp) as Hst.
    pose proof (inv_content _ _ _ _ _ _ _ Hi _ _ Hr Hp) as Hc. pose proof (inv_sink _ _ _ _ _ _ _ Hi) as Hs.
    pose proof (active_range _ _ _ _ _ Hi) as Hact. pose proof Hp as [[-> _]|(a & -> & _)]%elem_of_members.
    - destruct (purge_slot st chains free i Hh Hr Hp Hst Hc Hs Hact) as (st' & ?). by exists st', chains, free.
    - destruct (purge_block st chains free i a Hh Hr Hp Hst Hc Hs Hact) as (st' & chains' & ?). by exists st', chains', (a :: free). }
  exists st', chains', free'. split; [done|]. split; [|done].
  eapply inv_remove; [exact Hi|apply Hg|apply Hg|intros j q _; apply Hg|apply Hg| |apply Hg|apply Hg].
  by pose proof (g_shared _ _ _ _ _ _ Hg) as [= _ _ _ ?].
Qed.

(** ** Lookup *)

Lemma members_static st chains free busy lost i p : inv st chains free busy lost -> in_range i ->
  p ∈ members st chains i -> tuple_ok (s_key (ssn_mem st p)).
Proof. intros Hi Hr Hp. apply (st_key _ _ _ (inv_static _ _ _ _ _ _ _ Hi i p Hr Hp)). Qed.

Lemma chain_length st chains free i : heap_ok st chains free -> (length (block <$> chains i) < fuel)%nat.
Proof using Hfuel Hstack.
  intros Hh. destruct (h_chain _ _ _ Hh i) as (Hd & Hs & _). rewrite length_fmap.
  pose proof (submseteq_length _ _ (NoDup_submseteq _ _ Hd Hs)). lia.
Qed.

(** A lookup finds the session of the flow at the entry, if there is one. *)
Lemma ssn_lookup_spec st chains free busy lost i t : inv st chains free busy lost -> in_range i -> tuple_ok t ->
  exists r, ssn_lookup_by_tuple fuel i t MPP_SSN_HASH_MASK_SNIFFER st = Some r /\
    match r with
    | Some p => p ∈ members st chains i /\ canon (s_key (ssn_mem st p)) = canon t
    | None => forall p, p ∈ members st chains i -> canon (s_key (ssn_mem st p)) <> canon t
    end.
Proof using Hfuel Hstack.
  intros Hi Hr Ht. unfold ssn_lookup_by_tuple. rewrite slot_in_range by done. cbn [mbind option_bind].
  assert (forall p, p ∈ members st chains i ->
    same_flow (s_key (ssn_mem st p)) t MPP_SSN_HASH_MASK_SNIFFER = bool_decide (canon (s_key (ssn_mem st p)) = canon t)) as Hsame.
  { intros p Hp. apply same_flow_canon; [by eapply members_static|done]. }
  destruct (negb _ && _) eqn:E.
  - apply andb_true_iff in E as [He E]. apply negb_true_iff in He. exists (Some (slot i)). split; [done|].
    assert (slot i ∈ members st chains i) as Hm by (apply elem_of_members; by left).
    split; [done|]. rewrite Hsame in E by done. by apply bool_decide_eq_true in E.
  - destruct (search_chain_spec fuel _ t st _ (inv_link _ _ _ _ _ _ _ Hi i Hr) (chain_length _ _ _ _ (inv_heap _ _ _ _ _ Hi)))
      as (r & Er & Hrr). exists r. split; [exact Er|].
    assert (forall p, p ∈ block <$> chains i -> p ∈ members st chains i) as Hin.
    { intros p (a & -> & Ha)%list_elem_of_fmap. apply elem_of_members. right. by exists a. }
    destruct r as [p|].
    + destruct Hrr as [Hp Hs]. split; [by apply Hin|]. rewrite Hsame in Hs by (by apply Hin). by apply bool_decide_eq_true in Hs.
    + intros p Hp. pose proof (Hsame p Hp) as Hs. apply elem_of_members in Hp as [[-> He]|(a & -> & Ha)].
      * rewrite He in E. simpl in E. rewrite E in Hs. symmetry in Hs. by apply bool_decide_eq_false in Hs.
      * rewrite Hrr in Hs by (apply list_elem_of_fmap; by exists a). symmetry in Hs. by apply bool_decide_eq_false in Hs.
Qed.

(** ** Packets of a session *)

(** The header's fields and the bytes behind it. *)
Record packet_ok (w : tcp_work) (h : tcp_header) : Prop := PacketOk {
  p_parse : parse_tcp (w_ip w) = Some h; p_tuple : tuple_ok (th_tuple h);
  p_inside : 0 <= tcp_headers h /\ th_tot_len h <= Z.of_nat (length (w_ip w));
  p_small : tcp_payload h <= FRC_PAYLOAD_LEN_MAX }.

Lemma machine_bit e : has_status e SSN_STATUS_GOOD = true -> has_status e SSN_STATUS_MACHINE_MASK = true.
Proof.
  rewrite good_bit. intros Hb. unfold has_status. apply negb_true_iff, Z.eqb_neq. intros E.
  assert (Z.testbit (Z.land (ssn_status e) SSN_STATUS_MACHINE_MASK) 0 = true) as Ht by (rewrite Z.land_spec, Hb; done).
  rewrite E in Ht. done.
Qed.

Lemma execute_spec st p i w h dir :
  in_range i -> static_ok (ssn_mem st p) i -> content_ok st p -> sink_ok (sink (out st)) ->
  packet_ok w h -> 0 <= tcp_payload h -> (dir = 0 \/ dir = 1) ->
  exists st', ssn_execute_packet cpu_freq hdr_stack w h p dir st = Some st' /\ touch p st st' /\ content_ok st' p /\
    sink_ok (sink (out st')) /\ 0 <= s_ttl (ssn_mem st' p) /\
    exists t, tcp_flow_recovery (disorder_depth st) (w_name w) (w_len w) (th_protocol h) (tcp_payload h) (th_seq h)
        (th_ack_seq h) (drop (Z.to_nat (tcp_headers h)) (w_ip w)) (th_flags h) dir
        (set_ttl (s_age (ssn_mem st p)) (load_tcp p st)) = Some t /\ submitted_to st st' p t.
Proof using Hfuel Hstack channel_laws.
  intros Hr Hst Hc Hs Hw Hpay Hdir. unfold ssn_execute_packet. rewrite machine_bit by apply Hst. simpl negb. cbn iota.
  set (st1 := upd _ _ _). assert (touch p st st1) as Ht1 by (apply touch_upd; by split).
  pose proof (st_age _ _ _ Hst) as Hage.
  assert (ssn_mem st1 p = with_ttl (s32 (s_age (ssn_mem st p))) (ssn_mem st p)) as Em by (unfold st1; by rewrite upd_same).
  assert (s32 (s_age (ssn_mem st p)) = s_age (ssn_mem st p)) as E32 by (apply wraps_small; simpl; lia).
  assert (segs_ok (ttl_from 0) (load_tcp p st1)) as Hseg.
  { destruct (c_segs _ _ _ Hc) as [Ha _ _]. split; [|done|].
    - intros d. specialize (Ha d). destruct d; simpl in *; by rewrite fn_lookup_insert.
    - simpl. rewrite fn_lookup_insert. simpl. rewrite E32. unfold ttl_from. lia. }
  assert (content_ok st1 p) as Hc1.
  { split.
    - destruct Hseg as [Ha Hb Hl]. split; try done. revert Hl. unfold ttl_from. lia.
    - destruct (c_packed _ _ _ Hc) as (done & cur & Hp). exists done, cur. rewrite (id_same _ _ (o_entry _ _ _ Ht1)).
      eapply packed_ext; [| |exact Hp]; [|done]. simpl. by rewrite fn_lookup_insert. }
  pose proof (static_same _ _ _ _ (o_entry _ _ _ Ht1) Hst) as Hst1.
  rewrite (st_action _ _ _ Hst1). cbn [Z.eqb]. change (MPP_SSN_ACTION_TCPFLOWREC =? MPP_SSN_ACTION_TCPFLOWREC) with true. cbn iota.
  match goal with |- context [run_flow _ _ _ ?g _] => set (f := g) end.
  destruct (run_flow_spec crc cpu_freq hdr_stack Hstack (ttl_from 0) p f st1 i Hr Hst1 Hc1 Hs Hseg) as
    (st2 & E2 & Ht2 & Hc2 & Hs2 & Httl & t & Et & [[a Ea] Eq Hu]).
  { intros t Htok. apply segs_recovery; [unfold ttl_from; lia|done| |apply Hw|done].
    rewrite length_drop. destruct (p_inside _ _ Hw). unfold tcp_payload in *. lia. }
  { intros t. unfold ttl_from. lia. }
  rewrite E2. cbn [mbind option_bind]. eexists. split; [done|]. split; [|split; [|split; [done|split; [apply Httl|]]]].
  - eapply touch_trans; [exact Ht1|]. eapply touch_trans; [exact Ht2|]. by apply touch_stat.
  - by eapply content_ext; [| |exact Hc2].
  - exists t. split.
    + rewrite <- Et. unfold f. change (disorder_depth st1) with (disorder_depth st). f_equal. unfold load_tcp, set_ttl. rewrite Em. simpl.
      by rewrite E32.
    + split; [exists a|exact Eq|exact Hu]. simpl. by rewrite Ea, Em.
Qed.


(** ** Creating a session *)

Lemma timer_cases p st : exists ok,
  (ssn_add_timer p st).1 = (if ok : bool then 0 else -1) /\
  ssn_mem (ssn_add_timer p st).2 = ssn_mem st /\ ssn_fpa (ssn_add_timer p st).2 = ssn_fpa st /\
  sent (ssn_add_timer p st).2 = sent st /\ frcore_ssn_age (ssn_add_timer p st).2 = frcore_ssn_age st /\
  env (ssn_add_timer p st).2 = env st /\ tim_results (ssn_add_timer p st).2 = tail (tim_results st) /\
  tim_entries (ssn_add_timer p st).2 = (if ok then tim_entries st ++ [p] else tim_entries st) /\
  tab_stats (ssn_add_timer p st).2 stat_ssn_active_num = tab_stats st stat_ssn_active_num.
Proof.
  unfold ssn_add_timer. destruct (_ =? 0); [exists true|exists false]; split_and!; try done; simpl; by rewrite fn_lookup_insert_ne.
Qed.

Lemma prepared_stat st st' c n chains chains' free' i p :
  prepared (stat_add c n st) st' chains chains' free' i p -> prepared st st' chains chains' free' i p.
Proof. intros [[Hm Hs] ? Hmem Hn ? ? ?]. by split. Qed.

(** The fields and the timer of a prepared entry. *)
Definition finish_prepare (index : Z) (t : mpp_tuple) (seq ack : Z) (p : ssn_ptr) (st : tab) : option (option ssn_ptr * tab) :=
  let st := upd p (prepare_fields index t MPP_SSN_HASH_MASK_DATA64 seq ack (frcore_ssn_age st)) st in
  let '(rv, st) := ssn_add_timer p st in
  if rv <? 0 then st ← ssn_purge_ssn_nolock fuel p st; Some (None, st) else Some (Some p, st).

(** What creation leads to: a prepared entry with its timer armed, or the sessions as
    they were, with one more counted when its timer could not be armed. *)
Definition prepare_post st (chains : Z -> list Z) busy lost i t seq ack (r : option ssn_ptr) st' : Prop :=
  match r with
  | Some p => exists chains1 free1 e, prepared st st' chains chains1 free1 i p /\
      ssn_mem st' p = prepare_fields i t MPP_SSN_HASH_MASK_DATA64 seq ack (frcore_ssn_age st) e /\
      tim_entries st' = tim_entries st ++ [p] /\ tab_stats st stat_ssn_active_num < SSN_TOTAL_NUM /\
      tab_stats st' stat_ssn_active_num = tab_stats st stat_ssn_active_num + 1
  | None => exists chains' free' d, inv st' chains' free' busy (lost + d) /\ same_sessions st chains st' chains' /\
      env st' = env st /\ 0 <= d /\ (Forall (fun r => r = 0) (tim_results st) -> d = 0)
  end.

Lemma finish_spec st st1 chains chains1 free1 free busy lost i t seq ack p :
  inv st chains free busy lost -> prepared st st1 chains chains1 free1 i p -> in_range i ->
  tim_entries st1 = tim_entries st -> tim_results st1 = tim_results st ->
  tab_stats st1 stat_ssn_active_num = tab_stats st stat_ssn_active_num + 1 -> tab_stats st stat_ssn_active_num < SSN_TOTAL_NUM ->
  exists r st', finish_prepare i t seq ack p st1 = Some (r, st') /\ prepare_post st chains busy lost i t seq ack r st'.
Proof using Hfuel Hstack pool_laws.
  intros Hi Hp Hr Et1 Er1 Ea1 Hmax. unfold finish_prepare. rewrite (r_age _ _ _ _ _ _ _ Hp). set (st2 := upd p _ st1).
  assert (prepared st st2 chains chains1 free1 i p) as Hp2.
  { eapply prepared_ext; [exact Hp| | | | |done..].
    - intros q Hq. by apply upd_other.
    - unfold st2. by rewrite upd_same.
    - unfold st2. by rewrite upd_same.
    - unfold st2. by rewrite upd_same. }
  destruct (timer_cases p st2) as (ok & E1 & Em & Ef & Es & Ea & Eo & Er & Et & Eact).
  assert (ok = false -> tim_results st2 <> [] /\ hd 0 (tim_results st2) <> 0) as Hfail.
  { intros ->. revert E1. unfold ssn_add_timer. destruct (tim_results st2) as [|r l]; simpl; [done|].
    destruct (Z.eqb_spec r 0); [done|]. by intros _. }
  destruct (ssn_add_timer p st2) as [rv st3]. simpl in E1, Em, Ef, Es, Ea, Eo, Er, Et, Eact.
  assert (prepared st st3 chains chains1 free1 i p) as Hp3.
  { by eapply prepared_ext; [exact Hp2|intros q _; rewrite Em|rewrite Em|rewrite Em|rewrite Em|intros q _; rewrite Es|..]. }
  assert (ssn_mem st3 p = prepare_fields i t MPP_SSN_HASH_MASK_DATA64 seq ack (frcore_ssn_age st) (ssn_mem st1 p)) as Efp.
  { rewrite Em. apply upd_same. }
  destruct ok; rewrite E1; simpl Z.ltb; cbn iota.
  { exists (Some p), st3. split; [done|]. exists chains1, free1, (ssn_mem st1 p). split_and!; try done; [|by rewrite Eact].
    by rewrite Et; simpl; rewrite Et1. }
  assert (s_index (ssn_mem st3 p) = i) as Ei by (by rewrite Efp).
  assert (exists st4 chains4 free4, ssn_purge_ssn_nolock fuel p st3 = Some st4 /\ heap_ok st4 chains4 free4 /\
    same_sessions st chains st4 chains4 /\ tim_entries st4 = tim_entries st3 /\ frcore_ssn_age st4 = frcore_ssn_age st /\
    env st4 = env st /\ tab_stats st4 stat_ssn_active_num = tab_stats st3 stat_ssn_active_num) as
    (st4 & chains4 & free4 & E4 & Hh4 & Hs4 & Et4 & Ea4 & Eo4 & Eact4).
  { assert (p ∈ members st3 chains1 i) as Hpm by (apply Hp3; by right).
    apply elem_of_members in Hpm as [[-> _]|(a & -> & _)].
    - destruct (purge_slot_nolock st st3 chains chains1 free1 i Hp3 Hr Ei) as (st4 & ?). by exists st4, chains1, free1.
    - destruct (purge_block_nolock st st3 chains chains1 free1 i a Hp3 Hr Ei) as (st4 & chains4 & ?); [lia|].
      by exists st4, chains4, (a :: free1). }
  rewrite E4. cbn [mbind option_bind]. exists None, st4. split; [done|]. exists chains4, free4, 1. split; [|split; [done|split; [done|split; [lia|]]]].
  - eapply inv_keep; [exact Hi|exact Hs4|exact Hh4| |done| | |lia|].
    + rewrite Et4, Et. exact Et1.
    + rewrite Eact4, Eact. exact Ea1.
    + lia.
    + rewrite (env_out _ _ Eo4). apply Hi.
  - intros Hall. destruct (Hfail eq_refl) as [Hne Hhd]. change (tim_results st2) with (tim_results st1) in *. rewrite Er1 in *.
    destruct Hall as [|r l Hr0]; [done|]. by simpl in Hhd.
Qed.

Lemma ssn_prepare_spec st chains free busy lost i t flags seq ack :
  inv st chains free busy lost -> in_range i ->
  exists r st', ssn_prepare fuel i t MPP_SSN_HASH_MASK_DATA64 flags seq ack st = Some (r, st') /\
    prepare_post st chains busy lost i t seq ack r st'.
Proof using Hfuel Hstack pool_laws.
  intros Hi Hr. pose proof (active_range _ _ _ _ _ Hi) as Hact. pose proof (inv_heap _ _ _ _ _ Hi) as Hh.
  assert (forall st', (forall q, with_next None (ssn_mem st' q) = with_next None (ssn_mem st q)) ->
    (forall q, next_of st' q = next_of st q) -> sent st' = sent st -> ssn_fpa st' = ssn_fpa st -> tim_entries st' = tim_entries st ->
    frcore_ssn_age st' = frcore_ssn_age st -> env st' = env st ->
    tab_stats st' stat_ssn_active_num = tab_stats st stat_ssn_active_num ->
    exists r st'', Some (None, st') = Some (r, st'') /\ prepare_post st chains busy lost i t seq ack r st'') as Hquiet.
  { intros st' Em En Es Ef Et Ea Eo Eact. exists None, st'. split; [done|]. exists chains, free, 0.
    assert (same_sessions st chains st' chains) as Hsame.
    { split; [|by intros|by intros; rewrite Es]. intros j q _. rewrite (members_slot st); [done|]. unfold has_status. by rewrite (erase_status _ _ (Em _)). }
    split; [|done]. eapply inv_keep; [exact Hi|exact Hsame|by apply (heap_ext st)|done|done| |done|lia|].
    - rewrite Eact. lia.
    - rewrite (env_out _ _ Eo). apply Hi. }
  unfold ssn_prepare. destruct (_ || _); [apply Hquiet; try done; simpl; by rewrite fn_lookup_insert_ne|].
  destruct (Z.leb_spec SSN_TOTAL_NUM (tab_stats st stat_ssn_active_num)) as [Hle|Hlt].
  { apply Hquiet; try done. simpl. rewrite fn_lookup_insert_ne, fn_lookup_insert by done. rewrite fn_lookup_insert.
    rewrite (wraps_count (tab_stats st stat_ssn_active_num + 1)) by lia. rewrite wraps_count; lia. }
  rewrite slot_in_range by done. cbn [mbind option_bind]. set (stA := stat_add stat_ssn_active_num 1 st).
  assert (tab_stats stA stat_ssn_active_num = tab_stats st stat_ssn_active_num + 1) as EA.
  { simpl. rewrite fn_lookup_insert. apply wraps_count. lia. }
  assert (forall p st1 chains1 free1, prepared st st1 chains chains1 free1 i p -> tim_entries st1 = tim_entries st ->
    tim_results st1 = tim_results st -> tab_stats st1 stat_ssn_active_num = tab_stats st stat_ssn_active_num + 1 ->
    exists r st', finish_prepare i t seq ack p st1 = Some (r, st') /\ prepare_post st chains busy lost i t seq ack r st') as Hfin.
  { intros p st1 chains1 free1 Hp Et Er Ea. by eapply finish_spec. }
  unfold prepare_entry. destruct (has_status (ssn_mem stA (slot i)) SSN_STATUS_EMPTY) eqn:He.
  { cbn iota. apply (Hfin (slot i) _ chains free); [|done|done|exact EA]. apply (prepared_stat st _ stat_ssn_active_num 1), prepare_slot; [by apply (heap_ext st)|exact He]. }
  set (stB := upd (slot i) _ stA). pose proof (fpa_alloc_ok _ _ (h_fpa _ _ _ Hh)) as Hal.
  change (ssn_fpa stB) with (ssn_fpa st). destruct (cvmx_fpa_alloc (ssn_fpa st)) as [[a fp]|].
  - destruct Hal as (free' & Hperm & Hfp).
    rewrite fpa_member_ok by (apply (h_free _ _ _ Hh); rewrite Hperm; apply list_elem_of_here). cbn iota.
    apply (Hfin (block a) _ (<[i := a :: chains i]> chains) free'); [|done|done|].
    + by apply (prepared_stat st _ stat_ssn_active_num 1), (prepare_block stA chains free); [apply (heap_ext st)|..].
    + simpl. by rewrite fn_lookup_insert_ne.
  - cbn iota.
    assert (ssn_mem stB (slot i) = ssn_mem st (slot i)) as Em.
    { unfold stB. rewrite upd_same. change (ssn_mem stA) with (ssn_mem st) in *. rewrite clear_empty by (by rewrite <- empty_bit).
      by destruct (ssn_mem st (slot i)). }
    assert (forall q, ssn_mem stB q = ssn_mem st q) as Em'.
    { intros q. destruct (decide (q = slot i)) as [->|Hq]; [done|]. unfold stB. by rewrite upd_other. }
    apply Hquiet; try done; [intros q; exact (f_equal (with_next None) (Em' q))|intros q; exact (f_equal next_sc (Em' q))|].
    simpl. rewrite fn_lookup_insert, !fn_lookup_insert_ne, fn_lookup_insert by done.
    rewrite (wraps_count (tab_stats st stat_ssn_active_num + 1)) by lia. rewrite wraps_count; lia.
Qed.
End step.
