(* ===== verification/SsnOps.v ===== *)
(** * Packets and timers on the session table

    Each handler, from a state that satisfies the invariant: it is defined, the
    invariant holds again, and what became of the sessions. *)

From stdpp Require Import list functions.
From S2P Require Import Prelude TcpFlow SsnBlock SsnBlockProps TcpFlowSegs Ssn SsnTuple SsnInv SsnStep.
#[local] Open Scope Z_scope.

Section ops.
Context {C P : Type} {channel : SsnSink C} {sink_ok : C -> Prop} {channel_laws : SsnSinkLaws C sink_ok}
  {pool : Fpa P} {blocks : list Z} {fpa_ok : P -> list Z -> Prop} {pool_laws : FpaLaws P blocks fpa_ok}.
Variables (crc : Z -> Z -> Z) (cpu_freq : Z) (hdr_stack : list Z) (fuel : nat).

#[local] Abbreviation tab := (table C P).
#[local] Abbreviation inv := (inv (sink_ok := sink_ok) (blocks := blocks) (fpa_ok := fpa_ok) crc hdr_stack).
#[local] Abbreviation hash t := (ssn_hash_by_tuple crc t SSN_HASH_BUCKET_SIZE_MASK).
#[local] Abbreviation static_ok := (static_ok crc).
#[local] Abbreviation content_ok := (content_ok hdr_stack).
#[local] Abbreviation same_sessions := (same_sessions (C := C) (P := P)).
#[local] Abbreviation prepared := (prepared (blocks := blocks) (fpa_ok := fpa_ok)).
Implicit Types st : tab.

(** ** Finding and creating *)

(** A session just created for the tuple [t]. *)
Record fresh_session (t : mpp_tuple) (seq ack age : Z) (e : mpp_ssn) : Prop := FreshSession {
  f_word : data_0 (s_key e) = data_0 t; f_hi : t_hi (s_key e) = t_hi t;
  f_seq : s_seq e = seq; f_ack : s_ack_seq e = ack; f_ttl : s_ttl e = age - 1; f_age : s_age e = age - 1;
  f_pkts : s_pkts e = 0; f_bytes : s_bytes e = 0;
  f_pos : tcp_flow_positive_data e = Flow 0 [] 0 (f_enable (tcp_flow_positive_data e)) true;
  f_neg : tcp_flow_negative_data e = Flow 0 [] 0 (f_enable (tcp_flow_negative_data e)) true;
  f_flag : addr_flag (s_addr e) = 0 }.

Lemma age_value age : FRCORE_SSN_AGE_MIN <= age <= FRCORE_SSN_AGE_MAX ->
  u32 (age - 1) = age - 1 /\ s32 (u32 (age - 1)) = age - 1 /\ 0 <= age - 1 <= 249.
Proof.
  clear. unfold FRCORE_SSN_AGE_MIN, FRCORE_SSN_AGE_MAX. intros Ha. rewrite (wrapu_id 32) by (simpl; lia).
  split; [done|]. split; [apply wraps_small; simpl; lia|lia].
Qed.

(** The entry after its initialisation. *)
Lemma init_fresh t len smac dmac seq ack age e i : tuple_ok t -> hash (ssn_sort_tuple t) = i ->
  FRCORE_SSN_AGE_MIN <= age <= FRCORE_SSN_AGE_MAX -> addr_flag (s_addr e) = 0 ->
  let e' := init_session len smac dmac (prepare_fields i t MPP_SSN_HASH_MASK_DATA64 seq ack age e) in
  static_ok e' i /\ fresh_session t seq ack age e'.
Proof.
  intros Ht Hh Hage Hf e'. destruct (age_value age Hage) as (Eu & Es & Hr).
  assert (t_hi (s_key e') = t_hi t) as Ehi.
  { unfold e', t_hi. cbn [init_session ssn_add with_status prepare_fields s_key data_1].
    rewrite !action_hi. apply data64_hi, Ht. }
  split; [split|split; try done]; try done.
  - rewrite good_bit. unfold e', init_session, ssn_add. cbn [ssn_status with_status]. rewrite Z.lor_spec. apply orb_true_r.
  - split; [apply Ht|]. apply action_range, action_range, mask_range, Ht.
  - apply (action_value MPP_SSN_ACTION_TCPFLOWREC).
  - apply action_bit.
  - by rewrite (same_hi_sort (s_key e') t).
  - unfold e', init_session, ssn_add. cbn [s_age with_status prepare_fields]. lia.
Qed.

Lemma init_empty len smac dmac e :
  has_status (init_session len smac dmac e) SSN_STATUS_EMPTY = has_status e SSN_STATUS_EMPTY.
Proof.
  rewrite !empty_bit. unfold init_session, ssn_add. cbn [ssn_status with_status]. rewrite Z.lor_spec, Z.ldiff_spec.
  change (Z.testbit SSN_STATUS_MACHINE_MASK 1) with false. change (Z.testbit SSN_STATUS_GOOD 1) with false.
  by rewrite andb_true_r, orb_false_r.
Qed.

Lemma fresh_content st p t seq ack age : fresh_session t seq ack age (ssn_mem st p) -> 0 <= age - 1 <= 249 -> sent st p = [] ->
  content_ok st p.
Proof.
  intros [_ _ _ _ Et _ _ _ Ep En Ef] Hage Es. split.
  - split; [|done|].
    + intros []; simpl; [rewrite Ep|rewrite En]; simpl; constructor.
    + simpl. rewrite Et. unfold ttl_from. lia.
  - exists [], []. split; simpl; rewrite ?Ef; done.
Qed.

Lemma inv_stat st chains free busy lost c n : c <> stat_ssn_active_num -> inv st chains free busy lost ->
  inv (stat_add c n st) chains free busy lost.
Proof.
  intros Hc Hi. rewrite <- (Z.add_0_r lost). pose proof (active_range _ _ _ _ _ _ _ Hi).
  assert (tab_stats (stat_add c n st) stat_ssn_active_num = tab_stats st stat_ssn_active_num) as E.
  { simpl. by rewrite fn_lookup_insert_ne. }
  eapply inv_keep; [exact Hi|by split|apply (heap_ext st); [done|done|by eapply inv_heap]|done|done|rewrite E; lia|done|lia|apply Hi].
Qed.

Hypothesis Hstack : length hdr_stack = 16%nat.
Hypothesis Hfuel : (length blocks + 1 < fuel)%nat.

(** What finding a session for tuple [t] leads to. *)
Definition found_post st chains busy lost (t : mpp_tuple) seq ack (r : option ssn_ptr) st' : Prop :=
  let i := hash (ssn_sort_tuple t) in
  match r with
  | Some p => exists chains' free', inv st' chains' free' busy lost /\ p ∈ members st' chains' i /\
      canon (s_key (ssn_mem st' p)) = canon t /\
      env st' = env st /\
      (ssn_mem st' = ssn_mem st /\ sent st' = sent st /\ chains' = chains \/
       others_same p st st' /\ (forall j q, q ∈ members st' chains' j <-> q ∈ members st chains j \/ (q = p /\ j = i)) /\
       (forall j, p ∉ members st chains j) /\ fresh_session t seq ack (frcore_ssn_age st) (ssn_mem st' p) /\ sent st' p = [])
  | None => exists chains' free' d, inv st' chains' free' busy (lost + d) /\ same_sessions st chains st' chains' /\
      env st' = env st /\ 0 <= d /\ (Forall (fun r => r = 0) (tim_results st) -> d = 0) /\
      (forall q, q ∈ members st chains i -> canon (s_key (ssn_mem st q)) <> canon t)
  end.

Lemma find_or_prepare_spec st chains free busy lost w h smac dmac :
  inv st chains free busy lost -> tuple_ok (th_tuple h) ->
  exists r st', find_or_prepare crc fuel w h smac dmac st = Some (r, st') /\
    found_post st chains busy lost (th_tuple h) (th_seq h) (th_ack_seq h) r st'.
Proof using Hfuel Hstack pool_laws.
  intros Hi Ht. unfold find_or_prepare, found_post. set (t := th_tuple h) in *. set (i := hash (ssn_sort_tuple t)).
  assert (in_range i) as Hr by apply hash_range.
  destruct (ssn_lookup_spec crc hdr_stack fuel Hstack Hfuel st chains free busy lost i (ssn_sort_tuple t) Hi Hr (sort_ok _ Ht)) as
    (r & Er & Hlook). rewrite Er. cbn [mbind option_bind]. rewrite sort_canon in Hlook by done.
  destruct r as [p|].
  { exists (Some p), st. split; [done|]. exists chains, free. destruct Hlook as [Hp Hc]. split_and!; try done. by left. }
  destruct (ssn_prepare_spec crc hdr_stack fuel Hstack Hfuel st chains free busy lost i t (th_flags h) (th_seq h) (th_ack_seq h) Hi Hr)
    as (r & st1 & E1 & Hpost). rewrite E1. cbn [mbind option_bind]. destruct r as [p|].
  - destruct Hpost as (chains1 & free1 & e & Hp & Ee & Et & Hmax & Eact).
    set (st2 := set_logs _ _ _). set (st3 := upd p _ st2). exists (Some p), st3. split; [done|].
    assert (ssn_mem st3 p = init_session (w_len w) smac dmac (ssn_mem st1 p)) as Em by (unfold st3; by rewrite upd_same).
    pose proof (r_flag _ _ _ _ _ _ _ Hp) as Hflag. rewrite Ee in Hflag. simpl in Hflag.
    destruct (init_fresh t (w_len w) smac dmac (th_seq h) (th_ack_seq h) (frcore_ssn_age st) e i Ht eq_refl
      (inv_params _ _ _ _ _ _ _ Hi) Hflag) as [Hst Hfr]. rewrite <- Ee, <- Em in Hst, Hfr.
    assert (forall q, q <> p -> ssn_mem st3 q = ssn_mem st1 q) as Ho by (intros q Hq; unfold st3; by rewrite upd_other).
    assert (prepared st st3 chains chains1 free1 i p) as Hp3.
    { eapply prepared_ext; [exact Hp|exact Ho|by rewrite Em|rewrite Em; apply init_empty|by rewrite Em| |done..].
      intros q Hq. simpl. by rewrite fn_lookup_insert_ne. }
    assert (sent st3 p = []) as Es by (simpl; by rewrite fn_lookup_insert).
    destruct (age_value _ (inv_params _ _ _ _ _ _ _ Hi)) as (_ & _ & Hage).
    exists chains1, free1. split; [|split; [|split; [|split; [|right; split; [|split; [|split; [|split]]]]]]]; try done; try apply Hp3.
    + eapply (inv_add crc hdr_stack st); [exact Hi|apply Hp3|apply Hp3|exact Hr| |intros j _; apply Hp3|exact Hst| | | | | | | |].
      * intros j q _. apply Hp3.
      * by eapply fresh_content.
      * rewrite (f_ttl _ _ _ _ _ Hfr). lia.
      * intros q Hq. rewrite (same_hi_canon _ _ (f_word _ _ _ _ _ Hfr) (f_hi _ _ _ _ _ Hfr)). by apply Hlook.
      * exact Et.
      * apply Hp3.
      * simpl. rewrite fn_lookup_insert_ne by done. exact Eact.
      * exact Hmax.
      * rewrite (env_out _ _ (r_out _ _ _ _ _ _ _ Hp3)). apply Hi.
    + by right.
    + by rewrite (same_hi_canon _ _ (f_word _ _ _ _ _ Hfr) (f_hi _ _ _ _ _ Hfr)).
  - exists None, (stat_inc stat_ssn_fail st1). split; [done|]. destruct Hpost as (chains' & free' & d & Hi' & Hs & He & Hd0 & Hd).
    exists chains', free', d. split_and!; try done; [by apply inv_stat|]. destruct Hs as [Hm1 Hm2 Hm3]. by split.
Qed.

(** ** Packets *)

(** No flags, or all, or headers longer than the packet. *)
Definition malformed (h : tcp_header) : bool :=
  ((Z.land (th_flags h) 0x3f =? 0x3f) || (Z.land (th_flags h) 0x3f =? 0)) || (th_tot_len h <? tcp_headers h).

(** What a packet leads to: it is dropped and the sessions are as they were, or the
    session of its flow, found or created, goes through flow recovery with it. *)
Definition process_post st (chains : Z -> list Z) busy lost (w : tcp_work) (h : tcp_header) (rv : Z) st' : Prop :=
  let i := hash (ssn_sort_tuple (th_tuple h)) in
  rv = FRCORE_ACT_DROP /\ (exists chains' free' d, inv st' chains' free' busy (lost + d) /\
    same_sessions st chains st' chains' /\ env st' = env st /\ 0 <= d /\ (Forall (fun r => r = 0) (tim_results st) -> d = 0) /\
    (malformed h = true \/ forall q, q ∈ members st chains i -> canon (s_key (ssn_mem st q)) <> canon (th_tuple h))) \/
  rv = FRCORE_ACT_UNFREE /\ malformed h = false /\ (exists p st1 chains' free' t,
    found_post st chains busy lost (th_tuple h) (th_seq h) (th_ack_seq h) (Some p) st1 /\
    inv st' chains' free' busy lost /\ inv st1 chains' free' busy lost /\ touch p st1 st' /\ p ∈ members st1 chains' i /\
    tcp_flow_recovery (disorder_depth st) (w_name w) (w_len w) (th_protocol h) (tcp_payload h) (th_seq h)
      (th_ack_seq h) (drop (Z.to_nat (tcp_headers h)) (w_ip w)) (th_flags h)
      (ssn_direction_tuple (th_tuple h) (Tuple (data_0 (s_key (ssn_mem st1 p)))
        (Z.land (data_1 (s_key (ssn_mem st1 p))) MPP_SSN_HASH_MASK_DATA64)))
      (set_ttl (s_age (ssn_mem st1 p)) (load_tcp p st1)) = Some t /\
    submitted_to st1 st' p t).

Lemma same_sessions_mem st st0 chains st' chains' : ssn_mem st0 = ssn_mem st -> sent st0 = sent st ->
  same_sessions st0 chains st' chains' -> same_sessions st chains st' chains'.
Proof.
  intros Em Es [H1 H2 H3]. assert (forall j, members st0 chains j = members st chains j) as E by (intros j; unfold members; by rewrite Em).
  split; intros j q; specialize (H1 j q); specialize (H2 j q); specialize (H3 j q); rewrite E, ?Em, ?Es in *; done.
Qed.

Lemma found_post_mem st st0 chains busy lost t seq ack r st' : ssn_mem st0 = ssn_mem st -> sent st0 = sent st ->
  env st0 = env st -> frcore_ssn_age st0 = frcore_ssn_age st -> tim_results st0 = tim_results st ->
  found_post st0 chains busy lost t seq ack r st' -> found_post st chains busy lost t seq ack r st'.
Proof.
  intros Em Es Ee Ea Er. unfold found_post.
  assert (forall j, members st0 chains j = members st chains j) as E by (intros j; unfold members; by rewrite Em).
  destruct r as [p|].
  - intros (chains' & free' & Hi & Hp & Hc & He & Hcase). exists chains', free'. split_and!; try done; [by rewrite He|].
    destruct Hcase as [(E1 & E2 & E3)|([H1 H2] & Hm & Hn & Hf & Hs)]; [left; by rewrite E1, E2|right].
    rewrite <- Ea. split; [split; intros q Hq; [by rewrite H1, Em|by rewrite H2, Es]|].
    split; [intros j q; by rewrite <- E|]. split; [intros j; by rewrite <- E|done].
  - intros (chains' & free' & d & Hi & Hs & He & Hd0 & Hd & Hn). exists chains', free', d. split_and!; try done.
    + by eapply same_sessions_mem.
    + by rewrite He.
    + by rewrite <- Er.
    + intros q Hq. rewrite <- Em. apply Hn. by rewrite E.
Qed.

Lemma inv_count b c st chains free busy lost : c <> stat_ssn_active_num -> inv st chains free busy lost ->
  inv (count_if b c st) chains free busy lost.
Proof. intros Hc Hi. destruct b; [by apply inv_stat|done]. Qed.

Lemma direction_cases t t' : ssn_direction_tuple t t' = 0 \/ ssn_direction_tuple t t' = 1.
Proof. unfold ssn_direction_tuple. destruct (_ && _); auto. Qed.

Lemma process_spec st chains free busy lost w h smac dmac : inv st chains free busy lost -> packet_ok w h ->
  exists rv st', frcore_tcp_process crc cpu_freq hdr_stack fuel w smac dmac st = Some (rv, st') /\
    process_post st chains busy lost w h rv st'.
Proof using Hfuel Hstack channel_laws pool_laws.
  intros Hi Hw. unfold frcore_tcp_process. rewrite (p_parse _ _ Hw). cbn [mbind option_bind].
  assert (forall st', malformed h = true -> ssn_mem st' = ssn_mem st -> sent st' = sent st -> env st' = env st ->
    inv st' chains free busy lost ->
    exists rv st'', Some (FRCORE_ACT_DROP, st') = Some (rv, st'') /\ process_post st chains busy lost w h rv st'') as Hdrop.
  { intros st' Hmal Em Es Ee Hi'. exists FRCORE_ACT_DROP, st'. split; [done|]. left. split; [done|]. exists chains, free, 0.
    rewrite Z.add_0_r. split_and!; try done; [|by left].
    apply (same_sessions_mem st st' chains st' chains); [done|done|by split]. }
  destruct (_ || _) eqn:Efl; [apply Hdrop; try done; [unfold malformed; by rewrite Efl|by apply inv_stat]|].
  destruct (Z.ltb_spec (th_tot_len h) (tcp_headers h)) as [Hlt|Hge].
  { apply Hdrop; try done; [unfold malformed; rewrite Efl; by apply Z.ltb_lt|by apply inv_stat]. }
  set (st0 := count_if _ _ (count_if _ _ st)).
  assert (ssn_mem st0 = ssn_mem st /\ sent st0 = sent st /\ env st0 = env st /\ frcore_ssn_age st0 = frcore_ssn_age st /\
    tim_results st0 = tim_results st) as (Em & Es & Ee & Ea & Er).
  { unfold st0, count_if. by destruct (20 <? 4 * th_doff h), (tcp_payload h =? 0). }
  assert (inv st0 chains free busy lost) as Hi0 by (by apply inv_count; [|apply inv_count]).
  destruct (find_or_prepare_spec st0 chains free busy lost w h smac dmac Hi0 (p_tuple _ _ Hw)) as (r & st1 & E1 & Hf).
  rewrite E1. cbn [mbind option_bind]. apply (found_post_mem st) in Hf; try done.
  destruct r as [p|].
  2: { exists FRCORE_ACT_DROP, st1. split; [done|]. left. split; [done|]. destruct Hf as (chains' & free' & d & ? & ? & ? & ? & ? & ?).
       exists chains', free', d. split_and!; try done. by right. }
  destruct Hf as (chains' & free' & Hi1 & Hp & Hc & He & Hcase). set (i := hash _) in *.
  assert (in_range i) as Hr by apply hash_range.
  destruct (execute_spec crc cpu_freq hdr_stack fuel Hstack Hfuel st1 p i w h
    (ssn_direction_tuple (th_tuple h) (Tuple (data_0 (s_key (ssn_mem st1 p)))
        (Z.land (data_1 (s_key (ssn_mem st1 p))) MPP_SSN_HASH_MASK_DATA64))) Hr) as
    (st2 & E2 & Ht & Hc2 & Hs2 & Httl & t & Et & Hu).
  { by eapply inv_static. }
  { by eapply inv_content. }
  { apply Hi1. }
  { done. }
  { unfold tcp_payload. lia. }
  { apply direction_cases. }
  rewrite E2. cbn [mbind option_bind]. exists FRCORE_ACT_UNFREE, st2. split; [done|]. right. split; [done|].
  split; [unfold malformed; rewrite Efl; by apply Z.ltb_ge|].
  exists p, st1, chains', free', t. split; [by exists chains', free'|]. split; [by eapply inv_touch|]. split; [done|]. split; [done|]. split; [done|].
  split; [|done]. injection He as _ _ _ _ Ed _. by rewrite <- Ed.
Qed.
End ops.
