(* ===== verification/SsnAge.v ===== *)
(** * The timers of sessions

    A timer fires; then the session is armed again or, when it is expired or the timer
    unit refuses it, flushed and purged.  In between, other cores work on the table. *)

From stdpp Require Import list functions.
From S2P Require Import Prelude TcpFlow SsnBlock SsnBlockProps TcpFlowSegs Ssn SsnTuple SsnInv SsnStep SsnOps.
#[local] Open Scope Z_scope.

Section age.
Context {C P : Type} {channel : SsnSink C} {sink_ok : C -> Prop} {channel_laws : SsnSinkLaws C sink_ok}
  {pool : Fpa P} {blocks : list Z} {fpa_ok : P -> list Z -> Prop} {pool_laws : FpaLaws P blocks fpa_ok}.
Variables (crc : Z -> Z -> Z) (cpu_freq : Z) (hdr_stack : list Z) (fuel : nat).

#[local] Abbreviation tab := (table C P).
#[local] Abbreviation inv := (inv (sink_ok := sink_ok) (blocks := blocks) (fpa_ok := fpa_ok) crc hdr_stack).
Implicit Types st : tab.

(** Who has the sessions' timers changes. *)
Lemma inv_set_tim st chains free busy lost l r busy' :
  inv st chains free busy lost -> l ++ busy'.*1 ≡ₚ tim_entries st ++ busy.*1 ->
  (forall p, p ∈ l \/ (p, false) ∈ busy' -> 0 <= s_ttl (ssn_mem st p)) -> inv (set_tim l r st) chains free busy' lost.
Proof.
  intros Hi Hp Httl. split; try done; try apply Hi.
  - intros i q Hr Hq. destruct (inv_content _ _ _ _ _ _ _ Hi i q Hr Hq). by split.
  - simpl. rewrite Hp. apply Hi.
  - intros q. simpl. rewrite Hp. apply (inv_armed _ _ _ _ _ _ _ Hi).
  - simpl. rewrite (Permutation_length Hp). apply Hi.
Qed.

Lemma set_tim_same st : set_tim (tim_entries st) (tim_results st) st = st.
Proof. by destruct st. Qed.

Lemma inv_busy st chains free busy lost busy' :
  inv st chains free busy lost -> busy'.*1 ≡ₚ busy.*1 ->
  (forall p, (p, false) ∈ busy' -> 0 <= s_ttl (ssn_mem st p)) -> inv st chains free busy' lost.
Proof.
  intros Hi Hp Httl. rewrite <- (set_tim_same st). eapply inv_set_tim; [exact Hi|by rewrite Hp|].
  intros p [Hq|Hq]; [|by apply Httl]. apply (inv_ttl _ _ _ _ _ _ _ Hi). by left.
Qed.

(** The order of the list does not matter. *)
Lemma inv_perm st chains free busy lost busy' : inv st chains free busy lost -> busy' ≡ₚ busy -> inv st chains free busy' lost.
Proof.
  intros Hi Hp. eapply inv_busy; [exact Hi|by rewrite Hp|]. intros p. rewrite Hp. intros Hq.
  apply (inv_ttl _ _ _ _ _ _ _ Hi). by right.
Qed.

Lemma session_of_timer st chains free busy lost p : inv st chains free busy lost -> p ∈ tim_entries st ++ busy.*1 ->
  exists i, in_range i /\ p ∈ members st chains i.
Proof. intros Hi. apply (inv_armed _ _ _ _ _ _ _ Hi). Qed.

(** ** A timer fires *)

(** Nothing but the timer and the time to live of session [p] changes. *)
Record ticked (p : ssn_ptr) st st' : Prop := Ticked {
  i_mem q : q <> p -> ssn_mem st' q = ssn_mem st q; i_sent : sent st' = sent st; i_env : env st' = env st;
  i_closed : closed st' = closed st; i_res : tim_results st' = tim_results st;
  i_self : ssn_mem st' p = with_ttl (s_ttl (ssn_mem st p) - 1) (ssn_mem st p) }.

Lemma ttl_small t : 0 <= t <= 249 -> s32 (t - 1) = t - 1.
Proof. intros Ht. apply wraps_small; simpl; lia. Qed.

Lemma content_ttl st st' p t : content_ok hdr_stack st p -> ssn_mem st' p = with_ttl t (ssn_mem st p) ->
  sent st' p = sent st p -> ttl_from (-1) t -> content_ok hdr_stack st' p.
Proof.
  intros [[Ha Hb _] (done & cur & Hp)] Em Es Ht. split.
  - split; [|done|simpl; by rewrite Em]. intros d. specialize (Ha d). by destruct d; simpl in *; rewrite Em.
  - exists done, cur. rewrite Em. eapply packed_ext; [| |exact Hp]; simpl; by rewrite ?Em.
Qed.

Lemma tick_spec st chains free busy lost p l : inv st chains free busy lost -> tim_entries st ≡ₚ p :: l ->
  let expired := s_ttl (ssn_mem st p) =? 0 in
  exists st', age_tick p (set_tim l (tim_results st) st) = Some (Some expired, st') /\
    inv st' chains free ((p, expired) :: busy) lost /\ ticked p st st' /\ tim_entries st' = l.
Proof.
  intros Hi Hl expired.
  destruct (session_of_timer _ _ _ _ _ p Hi) as (i & Hr & Hp); [rewrite Hl; apply list_elem_of_here|].
  pose proof (inv_static _ _ _ _ _ _ _ Hi _ _ Hr Hp) as Hst. pose proof (inv_content _ _ _ _ _ _ _ Hi _ _ Hr Hp) as Hc.
  assert (0 <= s_ttl (ssn_mem st p) <= 249) as Httl.
  { split; [apply (inv_ttl _ _ _ _ _ _ _ Hi); left; rewrite Hl; apply list_elem_of_here|].
    pose proof (segs_live _ _ (c_segs _ _ _ Hc)) as Hlive. unfold ttl_from in Hlive. simpl in Hlive. lia. }
  set (st1 := set_tim l (tim_results st) st).
  assert (inv st1 chains free ((p, true) :: busy) lost) as Hi1.
  { eapply inv_set_tim; [exact Hi|simpl; rewrite Hl; symmetry; apply Permutation_middle|].
    intros q Hq. apply (inv_ttl _ _ _ _ _ _ _ Hi). rewrite Hl. destruct Hq as [Hq|[?|Hq]%elem_of_cons]; [left|done|by right].
    by apply list_elem_of_further. }
  unfold age_tick. change (ssn_mem st1 p) with (ssn_mem st p). rewrite (st_grp _ _ _ Hst), (st_index _ _ _ Hst), slot_in_range by done.
  change (GROUP_TO_DATA_PLANE_AGING =? GROUP_TO_DATA_PLANE_AGING) with true. cbn [mbind option_bind]. cbn iota.
  set (st2 := upd p _ _). exists st2. split; [done|].
  assert (ssn_mem st2 p = with_ttl (s_ttl (ssn_mem st p) - 1) (ssn_mem st p)) as Em.
  { unfold st2. rewrite upd_same. cbn [stat_inc stat_add ssn_mem]. change (ssn_mem st1 p) with (ssn_mem st p). by rewrite ttl_small. }
  assert (inv st2 chains free ((p, true) :: busy) lost) as Hi2.
  { eapply (inv_touch _ _ p st1); [exact Hi1| | |apply Hi|].
    - eapply touch_trans; [apply (touch_stat p stat_ssn_tim_fired 1); done|]. apply touch_upd. by split.
    - eapply (content_ttl st); [exact Hc|exact Em|done|]. unfold ttl_from. lia.
    - intros Hq. exfalso. pose proof (inv_timers _ _ _ _ _ _ _ Hi1) as (_ & H1 & [H2 _]%NoDup_cons)%NoDup_app.
      destruct Hq as [Hq|[?|Hq]%elem_of_cons]; [by apply (H1 p Hq), list_elem_of_here|done|].
      apply H2. apply list_elem_of_fmap. by exists (p, false). }
  split; [|split; [|done]].
  - eapply inv_busy; [exact Hi2|done|]. intros q [[= -> He]|Hq]%elem_of_cons.
    + rewrite Em. unfold expired in He. symmetry in He. apply Z.eqb_neq in He. simpl. lia.
    + apply (inv_ttl _ _ _ _ _ _ _ Hi2). right. by apply list_elem_of_further.
  - split; try done. intros q Hq. unfold st2. by rewrite upd_other.
Qed.

(** ** The end of a session *)

Hypothesis Hstack : length hdr_stack = 16%nat.
Hypothesis Hfuel : (length blocks + 1 < fuel)%nat.

(** Session [p] was flushed, [t] is flow recovery after it, and purged. *)
Record expired_post st st' (chains chains' : Z -> list Z) (p : ssn_ptr) (t : tcp_state) : Prop := ExpiredPost {
  x_flow : t = tcp_flow_flush_lock (load_tcp p st);
  x_others : others_same p st st';
  x_members j q : q ∈ members st' chains' j <-> q ∈ members st chains j /\ q <> p;
  x_tim : tim_entries st' = tim_entries st; x_res : tim_results st' = tim_results st;
  x_shared : shared st' = (qent_pool t, tcp_stats t, disorder_depth st, frcore_ssn_age st);
  x_works : exists cells rvs, closed st' = closed st ++ [(id_of (ssn_mem st p), cells)] /\ length rvs = length (submitted t) /\
    cell_works cells = cell_works (sent st p) ++ (work <$> packed_of (submitted t) rvs) /\
    wqe_freed (out st') = wqe_freed (out st) ++ freed t ++ refused_of (submitted t) rvs }.

Lemma touch_others p st st' : touch p st st' -> others_same p st st'.
Proof. intros Ht. split; intros q Hq; [by rewrite (o_mem _ _ _ Ht)|by apply (o_sent _ _ _ Ht)]. Qed.

Lemma others_trans p st1 st2 st3 : others_same p st1 st2 -> others_same p st2 st3 -> others_same p st1 st3.
Proof. intros [H1 H2] [H3 H4]. split; intros q Hq; [by rewrite H3, H1|by rewrite H4, H2]. Qed.

Lemma expire_spec st chains free busy lost p b : inv st chains free ((p, b) :: busy) lost ->
  exists st' chains' free' t, age_expire cpu_freq hdr_stack fuel p st = Some st' /\ inv st' chains' free' busy lost /\
    expired_post st st' chains chains' p t.
Proof using Hfuel Hstack channel_laws pool_laws.
  intros Hi0. assert (inv st chains free ((p, true) :: busy) lost) as Hi.
  { eapply inv_busy; [exact Hi0|done|]. intros q [?|Hq]%elem_of_cons; [done|]. apply (inv_ttl _ _ _ _ _ _ _ Hi0). right.
    by apply list_elem_of_further. }
  destruct (session_of_timer _ _ _ _ _ p Hi) as (i & Hr & Hp); [apply elem_of_app; right; apply list_elem_of_here|].
  pose proof (inv_static _ _ _ _ _ _ _ Hi _ _ Hr Hp) as Hst. pose proof (inv_content _ _ _ _ _ _ _ Hi _ _ Hr Hp) as Hc.
  unfold age_expire. rewrite (st_rec _ _ _ Hst).
  destruct (run_flow_spec crc cpu_freq hdr_stack Hstack (ttl_from (-1)) p (fun t => Some (tcp_flow_flush_lock t)) st i Hr Hst Hc
    (inv_sink _ _ _ _ _ _ _ Hi) (c_segs _ _ _ Hc)) as (st1 & E1 & Ht1 & Hc1 & Hs1 & _ & t & [= <-] & [[a Ea] (Eq & Ec & Ecl1) (rvs & Hl & Hfr & Hcw)]).
  { intros t Htk. eexists. split; [done|]. by apply segs_flush_lock. }
  { done. }
  rewrite E1. cbn [mbind option_bind].
  assert (inv st1 chains free ((p, true) :: busy) lost) as Hi1.
  { eapply inv_touch; [exact Hi|exact Ht1|exact Hc1|exact Hs1|]. intros Hq. exfalso.
    pose proof (inv_timers _ _ _ _ _ _ _ Hi) as (_ & H1 & [H2 _]%NoDup_cons)%NoDup_app.
    destruct Hq as [Hq|[?|Hq]%elem_of_cons]; [by apply (H1 p Hq), list_elem_of_here|done|].
    apply H2. apply list_elem_of_fmap. by exists (p, false). }
  pose proof (members_next st st1 chains (fun i => touch_status p st st1 (slot i) Ht1)) as Em.
  destruct (purge_spec crc hdr_stack fuel Hstack Hfuel st1 chains free busy lost p true i Hi1 Hr) as (st2 & chains' & free' & E2 & Hi2 & Hg).
  { by rewrite Em. }
  exists st2, chains', free', (tcp_flow_flush_lock (load_tcp p st)). split; [done|]. split; [done|]. split; try done.
  - eapply others_trans; [by apply touch_others|apply Hg].
  - intros j q. rewrite <- Em. apply Hg.
  - rewrite (g_tim _ _ _ _ _ _ Hg). apply Ht1.
  - rewrite (g_res _ _ _ _ _ _ Hg). apply Ht1.
  - rewrite (g_shared _ _ _ _ _ _ Hg). unfold shared. by rewrite Eq, Ec, (o_depth _ _ _ Ht1), (o_age _ _ _ Ht1).
  - destruct (g_closed _ _ _ _ _ _ Hg) as (cells & Ecl & Ecw). exists cells, rvs. split_and!; [|done|by rewrite Ecw|].
    + by rewrite Ecl, Ecl1, (id_same _ _ (o_entry _ _ _ Ht1)).
    + by rewrite (g_freed _ _ _ _ _ _ Hg).
Qed.

(** What the rest of the timer's work leads to. *)
Definition finish_post st (chains : Z -> list Z) (free : list Z) busy lost (p : ssn_ptr) (expired : bool) st' : Prop :=
  (expired = false /\ hd 0 (tim_results st) = 0 /\ inv st' chains free busy lost /\ ssn_mem st' = ssn_mem st /\ sent st' = sent st /\
    env st' = env st /\ closed st' = closed st /\ tim_entries st' = tim_entries st ++ [p]) \/
  ((expired = true \/ hd 0 (tim_results st) <> 0) /\ exists st1 chains' free' t,
    ssn_mem st1 = ssn_mem st /\ sent st1 = sent st /\ env st1 = env st /\ closed st1 = closed st /\ tim_entries st1 = tim_entries st /\
    inv st' chains' free' busy lost /\ expired_post st1 st' chains chains' p t).

Lemma finish_age_spec st chains free busy lost p b : inv st chains free ((p, b) :: busy) lost ->
  exists st', age_finish cpu_freq hdr_stack fuel p b st = Some st' /\ finish_post st chains free busy lost p b st'.
Proof using Hfuel Hstack channel_laws pool_laws.
  intros Hi. unfold age_finish, finish_post. destruct b.
  { destruct (expire_spec st chains free busy lost p true Hi) as (st' & chains' & free' & t & E & Hi' & Hx).
    exists st'. split; [exact E|]. right. split; [by left|]. by exists st, chains', free', t. }
  unfold ssn_add_timer. set (r := match tim_results st with [] => 0 | r :: _ => r end).
  assert (hd 0 (tim_results st) = r) as Er by done. rewrite Er. destruct (Z.eqb_spec r 0) as [Hz|Hz]; cbn iota; simpl Z.ltb; cbn iota.
  - eexists. split; [done|]. left. split_and!; try done. apply (inv_stat crc hdr_stack); [done|].
    eapply inv_set_tim; [exact Hi| |].
    + rewrite fmap_cons. simpl. by rewrite <- app_assoc.
    + intros q. rewrite elem_of_app, list_elem_of_singleton. intros [[Hq| ->]|Hq]; apply (inv_ttl _ _ _ _ _ _ _ Hi);
        [by left|right; apply list_elem_of_here|right; by apply list_elem_of_further].
  - set (st1 := stat_inc _ _).
    assert (inv st1 chains free ((p, false) :: busy) lost) as Hi1.
    { apply (inv_stat crc hdr_stack); [done|]. eapply inv_set_tim; [exact Hi|done|]. apply (inv_ttl _ _ _ _ _ _ _ Hi). }
    destruct (expire_spec st1 chains free busy lost p false Hi1) as (st' & chains' & free' & t & E & Hi' & Hx).
    exists st'. split; [exact E|]. right. split; [by right|]. by exists st1, chains', free', t.
Qed.
End age.
