(* ===== verification/SsnSys.v ===== *)
(** * The session table as a system, and its specification

    The table with the sessions whose timers fired and are being worked on; its events:
    packets, timers, the work that follows them, commands, and whatever the channel, the
    clock and the timer unit do in between.  The specification is a finite map from flows
    to sessions, without entries, chains, blocks and blocks of host memory. *)

From stdpp Require Import list functions gmap gmultiset.
From S2P Require Import Prelude TcpFlow TcpFlowProps Chan SsnBlock SsnBlockProps TcpFlowSegs Ssn SsnTuple SsnInv SsnStep SsnOps SsnAge.
#[local] Open Scope Z_scope.

(** ** The specification *)

(** The flows: a connection, known by its two ends whichever way a packet goes, and the
    protocol.  When both ends have one address a packet's direction cannot be told from the
    addresses, and the table keeps a session for each direction unless both fall into the
    same entry; there the entry tells the flows apart. *)
Abbreviation flow_key := (Z * Z * Z * option Z)%type.

(** A session; its phase is [None] while its timer is armed, otherwise whether it is
    expired. *)
Record session : Type := Session {
  v_words : Z * Z; v_seq : Z; v_ack : Z; v_pkts : Z; v_bytes : Z; v_pos : tcp_flow_data; v_neg : tcp_flow_data;
  v_ttl : Z; v_age : Z; v_phase : option bool }.

(** The sessions, and what flow recovery shares. *)
Record spec : Type := Spec {
  flows : gmap flow_key session; sp_pool : Z; sp_counters : tcp_stat -> Z; sp_depth : Z; sp_age : Z }.

Definition tcp_of (s : spec) (v : session) : tcp_state :=
  TcpState (v_seq v) (v_ack v) (v_ttl v) (v_pkts v) (v_bytes v) (v_pos v) (v_neg v) (sp_pool s) [] [] (sp_counters s).
Definition after (v : session) (t : tcp_state) : session :=
  Session (v_words v) (v_seq v) (v_ack v) (ssn_pkts t) (ssn_bytes t) (positive t) (negative t) (ttl t) (v_age v) (v_phase v).
Definition with_flow (m : gmap flow_key session) (t : tcp_state) (s : spec) : spec :=
  Spec m (qent_pool t) (tcp_stats t) (sp_depth s) (sp_age s).
Definition with_flows (m : gmap flow_key session) (s : spec) : spec :=
  Spec m (sp_pool s) (sp_counters s) (sp_depth s) (sp_age s).
Definition at_phase (p : option bool) (n : Z) (v : session) : session :=
  Session (v_words v) (v_seq v) (v_ack v) (v_pkts v) (v_bytes v) (v_pos v) (v_neg v) n (v_age v) p.

Definition words_of (t : mpp_tuple) : Z * Z := (data_0 t, t_ports t).
Definition new_session (h : tcp_header) (age en en' : Z) : session :=
  Session (words_of (th_tuple h)) (th_seq h) (th_ack_seq h) 0 0 (Flow 0 [] 0 en true) (Flow 0 [] 0 en' true) (age - 1) (age - 1) None.
Definition direction_of (t : mpp_tuple) (v : session) : Z := if decide (words_of t = v_words v) then 0 else 1.

(** A packet of a session. *)
Definition recover (w : tcp_work) (h : tcp_header) (s : spec) (v : session) : option tcp_state :=
  tcp_flow_recovery (sp_depth s) (w_name w) (w_len w) (th_protocol h) (tcp_payload h) (th_seq h) (th_ack_seq h)
    (drop (Z.to_nat (tcp_headers h)) (w_ip w)) (th_flags h) (direction_of (th_tuple h) v) (set_ttl (v_age v) (tcp_of s v)).

(** What an event is to the specification: a packet with its verdict, a timer, the work
    after it and whether the timer unit takes the session again, a command, nothing. *)
Inductive label : Type :=
| Seen (k : flow_key) (w : tcp_work) (h : tcp_header) (rv : Z)
| Ticked (k : flow_key)
| Finished (k : flow_key) (rearm : bool)
| Configured
| Other.

Inductive spec_step (s : spec) : label -> spec -> Prop :=
| spec_drop k w h : malformed h = true \/ flows s !! k = None -> spec_step s (Seen k w h FRCORE_ACT_DROP) s
| spec_packet k w h v t : malformed h = false ->
    flows s !! k = Some v \/ flows s !! k = None /\ (exists en en', v = new_session h (sp_age s) en en') ->
    recover w h s v = Some t ->
    spec_step s (Seen k w h FRCORE_ACT_UNFREE) (with_flow (<[k := after v t]> (flows s)) t s)
| spec_tick k v : flows s !! k = Some v -> v_phase v = None ->
    spec_step s (Ticked k) (with_flows (<[k := at_phase (Some (v_ttl v =? 0)) (v_ttl v - 1) v]> (flows s)) s)
| spec_rearm k v : flows s !! k = Some v -> v_phase v = Some false ->
    spec_step s (Finished k true) (with_flows (<[k := at_phase None (v_ttl v) v]> (flows s)) s)
| spec_expire k v b rearm : flows s !! k = Some v -> v_phase v = Some b -> b = true \/ rearm = false ->
    spec_step s (Finished k rearm) (with_flow (delete k (flows s)) (tcp_flow_flush_lock (tcp_of s v)) s)
| spec_configure depth age : FRCORE_SSN_AGE_MIN <= age <= FRCORE_SSN_AGE_MAX ->
    spec_step s Configured (Spec (flows s) (sp_pool s) (sp_counters s) depth age)
| spec_other : spec_step s Other s.

(** ** The system *)

Fixpoint take_out {A} `{EqDecision A} (x : A) (l : list A) : option (list A) :=
  match l with [] => None | y :: l => if decide (x = y) then Some l else cons y <$> take_out x l end.

Lemma take_out_spec {A} `{EqDecision A} (x : A) l : x ∈ l -> exists l', take_out x l = Some l' /\ l ≡ₚ x :: l'.
Proof.
  induction l as [|y l IH]; [by intros ?%elem_of_nil|]. intros Hx. simpl. case_decide as E; [exists l; by subst|].
  apply elem_of_cons in Hx as [?|Hx]; [done|]. destruct (IH Hx) as (l' & -> & Hl). exists (y :: l'). split; [done|].
  rewrite Hl. apply Permutation_swap.
Qed.

Section sys.
Context {C P : Type} {channel : SsnSink C} {sink_ok : C -> Prop} {channel_laws : SsnSinkLaws C sink_ok}
  {pool : Fpa P} {blocks : list Z} {fpa_ok : P -> list Z -> Prop} {pool_laws : FpaLaws P blocks fpa_ok}.
Variables (crc : Z -> Z -> Z) (cpu_freq : Z) (hdr_stack : list Z) (fuel : nat).

#[local] Abbreviation tab := (table C P).
#[local] Abbreviation hash t := (ssn_hash_by_tuple crc t SSN_HASH_BUCKET_SIZE_MASK).
Implicit Types st : tab.

(** The table, and the sessions whose timer fired, with what was found. *)
Record sys : Type := Sys { tabl : tab; busy : list (ssn_ptr * bool) }.

(** The events; [Env] is whatever the channel's other users, the clock and the timer unit
    do. *)
Inductive event : Type :=
| Packet (w : tcp_work) (smac dmac : Z)
| Fire (p : ssn_ptr)
| Finish (p : ssn_ptr) (expired : bool)
| SetAge (param : list Z)
| SetDepth (param : list Z)
| Env (c : C) (clock : list Z) (answers : list Z).

Definition set_env (c : C) (clock answers : list Z) st : tab :=
  let o := out st in
  set_out (qent_free st) (tcp_counters st)
    (Pack (addr o) (ssn_block_exhaust o) (ssn_last_display o) clock c (taken o) (wqe_freed o) (ssn_stats o))
    (set_tim (tim_entries st) answers st).

(** One event, with its answer. *)
Definition sys_do (e : event) (s : sys) : option (Z * sys) :=
  let st := tabl s in
  match e with
  | Packet w smac dmac =>
    '(rv, st) ← frcore_tcp_process crc cpu_freq hdr_stack fuel w smac dmac st; Some (rv, Sys st (busy s))
  | Fire p =>
    l ← take_out p (tim_entries st);
    '(o, st) ← age_tick p (set_tim l (tim_results st) st);
    Some (match o with
          | Some expired => (FRE_SUCCESS, Sys st ((p, expired) :: busy s))
          | None => (FRE_FAIL, Sys st (busy s))
          end)
  | Finish p expired =>
    l ← take_out (p, expired) (busy s);
    st ← age_finish cpu_freq hdr_stack fuel p expired st; Some (FRE_SUCCESS, Sys st l)
  | SetAge param => '(rv, st) ← frcore_cmd_set_age_time param st; Some (rv, Sys st (busy s))
  | SetDepth param => '(rv, st) ← frcore_cmd_set_disorder_depth param st; Some (rv, Sys st (busy s))
  | Env c clock answers => Some (FRE_SUCCESS, Sys (set_env c clock answers st) (busy s))
  end.

(** When an event can happen. *)
Definition event_ok (e : event) (s : sys) : Prop :=
  match e with
  | Packet w _ _ => exists h, packet_ok w h
  | Fire p => p ∈ tim_entries (tabl s)
  | Finish p expired => (p, expired) ∈ busy s
  | SetAge param | SetDepth param => param <> []
  | Env c _ _ => sink_ok c
  end.

(** ** The abstraction *)

(** The entry of a tuple taken as it is. *)
Definition entry_of (t : mpp_tuple) : Z := hash (Tuple (data_0 t) (word_1 (t_sp t) (t_dp t) (t_proto t))).

(** The flow of a tuple: the unordered pair of the ends and the protocol. *)
Definition key_of (t : mpp_tuple) : flow_key := (canon t, if t_sip t =? t_dip t then Some (entry_of t) else None).

(** The table tells flows apart as they are apart. *)
Lemma key_iff k t : tuple_ok k -> tuple_ok t ->
  key_of k = key_of t <-> canon k = canon t /\ hash (ssn_sort_tuple k) = hash (ssn_sort_tuple t).
Proof.
  intros Hk Ht. unfold key_of.
  assert (forall x, (t_sip x =? t_dip x) = true -> ssn_sort_tuple x = Tuple (data_0 x) (word_1 (t_sp x) (t_dp x) (t_proto x))) as Hs.
  { intros x Hx. apply Z.eqb_eq in Hx. unfold ssn_sort_tuple. by rewrite (proj2 (Z.leb_le _ _)) by lia. }
  split.
  - intros E. assert (canon k = canon t) as Ec by (unfold canon in *; congruence). split; [done|].
    rewrite (canon_loop k t Hk Ht Ec) in E. pose proof (canon_loop k t Hk Ht Ec) as Hl.
    destruct (t_sip t =? t_dip t) eqn:El.
    + rewrite (Hs k Hl), (Hs t El). unfold canon, entry_of in E. congruence.
    + f_equal. apply sort_of_canon; [done..|]. by apply Z.eqb_neq.
  - intros [Ec Eh]. rewrite (canon_loop k t Hk Ht Ec). rewrite Ec. f_equal. destruct (t_sip t =? t_dip t) eqn:El; [|done].
    f_equal. unfold entry_of. rewrite <- (Hs t El), <- Hs; [done|]. by rewrite (canon_loop k t Hk Ht Ec).
Qed.

Lemma key_proto k t : key_of k = key_of t -> t_proto k = t_proto t.
Proof. intros E. exact (f_equal (fun x : flow_key => x.1.2) E). Qed.

Lemma key_same_hi k t : data_0 k = data_0 t -> t_hi k = t_hi t -> key_of k = key_of t.
Proof.
  intros E0 Eh. unfold key_of, entry_of. rewrite (same_hi_canon k t E0 Eh), E0.
  by destruct (same_hi_fields k t E0 Eh) as (-> & -> & -> & -> & ->).
Qed.
Definition session_of (e : mpp_ssn) (ph : option bool) : session :=
  Session (words_of (s_key e)) (s_seq e) (s_ack_seq e) (s_pkts e) (s_bytes e) (tcp_flow_positive_data e)
    (tcp_flow_negative_data e) (s_ttl e) (s_age e) ph.

(** The sessions with their phases. *)
Definition phases (l : list ssn_ptr) (b : list (ssn_ptr * bool)) : list (ssn_ptr * option bool) :=
  ((fun p => (p, None)) <$> l) ++ (prod_map id Some <$> b).

Definition abs (s : sys) : spec :=
  let st := tabl s in
  Spec (list_to_map ((fun x => (key_of (s_key (ssn_mem st x.1)), session_of (ssn_mem st x.1) x.2)) <$>
      phases (tim_entries st) (busy s)))
    (qent_free st) (tcp_counters st) (disorder_depth st) (frcore_ssn_age st).

Definition label_of (e : event) (s : sys) (rv : Z) : label :=
  let key p := key_of (s_key (ssn_mem (tabl s) p)) in
  match e with
  | Packet w _ _ => match parse_tcp (w_ip w) with Some h => Seen (key_of (th_tuple h)) w h rv | None => Other end
  | Fire p => Ticked (key p)
  | Finish p _ => Finished (key p) (hd 0 (tim_results (tabl s)) =? 0)
  | SetAge _ | SetDepth _ => Configured
  | Env _ _ _ => Other
  end.

(** ** The packets and queue entries in the table *)

Definition held_of st (p : ssn_ptr) : gmultiset Z :=
  wset (tsegs (tcp_flow_positive_data (ssn_mem st p))) ⊎ wset (tsegs (tcp_flow_negative_data (ssn_mem st p))) ⊎
  list_to_set_disj (cell_works (sent st p)).
Definition held st (l : list ssn_ptr) : gmultiset Z := foldr (fun p m => held_of st p ⊎ m) ∅ l.

(** Every packet is queued or sent by a session, was sent by a purged one, or was freed. *)
Definition account (s : sys) : gmultiset Z :=
  let st := tabl s in
  held st (tim_entries st ++ (busy s).*1) ⊎ list_to_set_disj (wqe_freed (out st)) ⊎
  list_to_set_disj (concat (map (fun x => cell_works x.2) (closed st))).

Definition queued_of st (p : ssn_ptr) : Z :=
  Z.of_nat (length (tsegs (tcp_flow_positive_data (ssn_mem st p)))) + Z.of_nat (length (tsegs (tcp_flow_negative_data (ssn_mem st p)))).
Definition queued st (l : list ssn_ptr) : Z := foldr (fun p n => queued_of st p + n) 0 l.
Definition qents (s : sys) : Z := qent_free (tabl s) + queued (tabl s) (tim_entries (tabl s) ++ (busy s).*1).

(** ** The invariant *)

Definition sys_ok (s : sys) (lost : Z) : Prop :=
  exists chains free, inv (sink_ok := sink_ok) (blocks := blocks) (fpa_ok := fpa_ok) crc hdr_stack (tabl s) chains free (busy s) lost.
End sys.
#[global] Arguments Sys {C P}.
#[global] Arguments tabl {C P}.
#[global] Arguments busy {C P}.
#[global] Arguments event : clear implicits.
#[global] Arguments Packet {C}.
#[global] Arguments Fire {C}.
#[global] Arguments Finish {C}.
#[global] Arguments SetAge {C}.
#[global] Arguments SetDepth {C}.
#[global] Arguments Env {C}.
