(* ===== verification/SsnSim.v ===== *)
(** * The session table implements its specification

    Every event of the system is a step of the specification, keeps the invariant, and
    accounts for its packet. *)

From stdpp Require Import list functions gmap gmultiset.
From S2P Require Import Prelude TcpFlow TcpFlowProps Chan SsnBlock SsnBlockProps TcpFlowSegs.
From S2P Require Import Ssn SsnTuple SsnInv SsnStep SsnOps SsnAge SsnSys.
#[local] Open Scope Z_scope.

Lemma elem_of_phases l b p ph : (p, ph) ∈ phases l b <->
  match ph with None => p ∈ l | Some x => (p, x) ∈ b end.
Proof.
  unfold phases. rewrite elem_of_app, !list_elem_of_fmap. split.
  - intros [(q & [= -> ->] & ?)|([q x] & [= -> ->] & ?)]; done.
  - destruct ph as [x|]; intros Hp; [right; by exists (p, x)|left; by exists p].
Qed.

Lemma phases_fst l b : (phases l b).*1 = l ++ b.*1.
Proof.
  unfold phases. rewrite fmap_app, <- !list_fmap_compose. f_equal. rewrite <- (list_fmap_id l) at 2. by apply list_fmap_ext.
Qed.

Lemma phase_of l b p : p ∈ l ++ b.*1 -> exists ph, (p, ph) ∈ phases l b.
Proof. rewrite <- phases_fst. by intros ([q ph] & -> & ?)%list_elem_of_fmap; exists ph. Qed.

(** The packets of segments, packed or refused. *)
Lemma packed_refused qs rvs : length rvs = length qs ->
  wset qs = list_to_set_disj (work <$> packed_of qs rvs) ⊎ list_to_set_disj (refused_of qs rvs).
Proof.
  revert rvs. induction qs as [|q qs IH]; intros [|rv rvs] Hl; try done.
  rewrite wset_cons, (IH rvs) by (simpl in Hl; lia). unfold packed_of, refused_of. cbn [zip_with concat].
  destruct (rv =? 0); rewrite ?fmap_app, !list_to_set_disj_app; simpl; mset.
Qed.

Section sim.
Context {C P : Type} {channel : SsnSink C} {sink_ok : C -> Prop} {channel_laws : SsnSinkLaws C sink_ok}
  {pool : Fpa P} {blocks : list Z} {fpa_ok : P -> list Z -> Prop} {pool_laws : FpaLaws P blocks fpa_ok}.
Variables (crc : Z -> Z -> Z) (cpu_freq : Z) (hdr_stack : list Z) (fuel : nat).

#[local] Abbreviation tab := (table C P).
#[local] Abbreviation inv := (inv (sink_ok := sink_ok) (blocks := blocks) (fpa_ok := fpa_ok) crc hdr_stack).
#[local] Abbreviation hash t := (ssn_hash_by_tuple crc t SSN_HASH_BUCKET_SIZE_MASK).
#[local] Abbreviation key st p := (key_of crc (s_key (ssn_mem st p))).
#[local] Abbreviation abs := (abs (C := C) (P := P) crc).
#[local] Abbreviation all st b := (tim_entries st ++ b.*1).
Implicit Types (st : tab) (b : list (ssn_ptr * bool)).

(** ** Sessions and keys *)

Lemma session_at st chains free b lost p : inv st chains free b lost -> p ∈ all st b ->
  p ∈ members st chains (hash (ssn_sort_tuple (s_key (ssn_mem st p)))).
Proof.
  intros Hi (i & Hr & Hp)%(inv_armed _ _ _ _ _ _ _ Hi).
  by rewrite (st_hash _ _ _ (inv_static _ _ _ _ _ _ _ Hi i p Hr Hp)).
Qed.

Lemma member_key st chains free b lost i p t : inv st chains free b lost -> in_range i -> p ∈ members st chains i ->
  tuple_ok t -> canon (s_key (ssn_mem st p)) = canon t -> hash (ssn_sort_tuple t) = i -> p ∈ all st b /\ key st p = key_of crc t.
Proof.
  intros Hi Hr Hp Ht Hc Hh. split; [apply (inv_armed _ _ _ _ _ _ _ Hi); by exists i|].
  pose proof (inv_static _ _ _ _ _ _ _ Hi i p Hr Hp) as Hst.
  apply key_iff; [by apply (st_key _ _ _ Hst)|done|]. split; [done|]. by rewrite Hh, (st_hash _ _ _ Hst).
Qed.

Lemma session_key_ok st chains free b lost p : inv st chains free b lost -> p ∈ all st b -> tuple_ok (s_key (ssn_mem st p)).
Proof.
  intros Hi (i & Hr & Hp)%(inv_armed _ _ _ _ _ _ _ Hi). apply (st_key _ _ _ (inv_static _ _ _ _ _ _ _ Hi i p Hr Hp)).
Qed.

Lemma key_inj st chains free b lost p q : inv st chains free b lost -> p ∈ all st b -> q ∈ all st b ->
  key st p = key st q -> p = q.
Proof.
  intros Hi Hp Hq [Ec Eh]%key_iff; [|by eapply session_key_ok..]. pose proof (session_at _ _ _ _ _ _ Hi Hp) as Hp'. pose proof (session_at _ _ _ _ _ _ Hi Hq) as Hq'.
  rewrite <- Eh in Hq'. eapply (inv_uniq _ _ _ _ _ _ _ Hi); [apply hash_range|done|done|done].
Qed.

Lemma flows_lookup st chains free b lost k v : inv st chains free b lost ->
  flows (abs (Sys st b)) !! k = Some v <->
  exists p ph, (p, ph) ∈ phases (tim_entries st) b /\ key st p = k /\ session_of (ssn_mem st p) ph = v.
Proof.
  intros Hi. unfold abs. simpl. rewrite <- elem_of_list_to_map.
  - rewrite list_elem_of_fmap. split; [intros ([p ph] & [= -> ->] & Hp); by exists p, ph|].
    intros (p & ph & Hp & <- & <-). by exists (p, ph).
  - rewrite <- list_fmap_compose.
    assert (NoDup ((phases (tim_entries st) b).*1)) as Hd by (rewrite phases_fst; apply Hi).
    assert (forall x y, x ∈ (phases (tim_entries st) b).*1 -> y ∈ (phases (tim_entries st) b).*1 -> key st x = key st y -> x = y) as Hk.
    { intros x y. rewrite phases_fst. by apply (key_inj st chains free b lost). }
    rewrite (list_fmap_ext (_ ∘ _) ((fun p => key st p) ∘ fst)) by done. rewrite list_fmap_compose.
    revert Hd Hk. generalize ((phases (tim_entries st) b).*1). induction l as [|x l IH]; intros Hd Hk; [constructor|].
    apply NoDup_cons in Hd as [Hx Hd]. rewrite fmap_cons. apply NoDup_cons. split.
    + intros (y & E & Hy)%list_elem_of_fmap. apply Hx. rewrite (Hk x y); [done|apply list_elem_of_here|by apply list_elem_of_further|done].
    + apply IH; [done|]. intros y z Hy Hz. apply Hk; by apply list_elem_of_further.
Qed.

Lemma flows_some st chains free b lost p ph : inv st chains free b lost -> (p, ph) ∈ phases (tim_entries st) b ->
  flows (abs (Sys st b)) !! key st p = Some (session_of (ssn_mem st p) ph).
Proof. intros Hi Hp. rewrite flows_lookup by done. by exists p, ph. Qed.

Lemma flows_none st chains free b lost t : inv st chains free b lost ->
  tuple_ok t -> (forall q, q ∈ members st chains (hash (ssn_sort_tuple t)) -> canon (s_key (ssn_mem st q)) <> canon t) ->
  flows (abs (Sys st b)) !! key_of crc t = None.
Proof.
  intros Hi Ht Hn. apply eq_None_not_Some. intros [v (p & ph & Hp & E & _)%(flows_lookup _ _ _ _ _ _ _ Hi)].
  assert (p ∈ all st b) as Hpa by (rewrite <- phases_fst; apply list_elem_of_fmap; by exists (p, ph)).
  apply key_iff in E as [Ec Eh]; [|by eapply session_key_ok|done].
  apply (Hn p); [|done]. rewrite <- Eh. by eapply session_at.
Qed.

(** ** Changes of the map *)

(** Session [q] is what it was. *)
Definition same_at st st' (q : ssn_ptr) : Prop :=
  with_next None (ssn_mem st' q) = with_next None (ssn_mem st q) /\ sent st' q = sent st q.

Lemma same_key st st' q : same_at st st' q -> key st' q = key st q.
Proof. intros [E _]. by rewrite (erase_key _ _ E). Qed.

Lemma same_session st st' q ph : same_at st st' q -> session_of (ssn_mem st' q) ph = session_of (ssn_mem st q) ph.
Proof. intros [E _]. destruct (ssn_mem st' q), (ssn_mem st q). unfold session_of. simpl. injection E. congruence. Qed.

(** All sessions but [p] are what they were, in the phases they were in. *)
Definition rest_same (p : ssn_ptr) st b st' b' : Prop :=
  forall q ph, q <> p -> ((q, ph) ∈ phases (tim_entries st') b' <-> (q, ph) ∈ phases (tim_entries st) b) /\
    ((q, ph) ∈ phases (tim_entries st) b -> same_at st st' q).

Lemma flows_update p ph st chains free b lost st' chains' free' b' lost' :
  inv st chains free b lost -> inv st' chains' free' b' lost' -> rest_same p st b st' b' ->
  (p, ph) ∈ phases (tim_entries st') b' -> (p ∈ all st b -> key st p = key st' p) ->
  flows (abs (Sys st' b')) = <[key st' p := session_of (ssn_mem st' p) ph]> (flows (abs (Sys st b))).
Proof.
  intros Hi Hi' Hrest Hp Hkey. apply map_eq. intros k. destruct (decide (k = key st' p)) as [->|Hk].
  - rewrite lookup_insert_eq. by eapply flows_some.
  - rewrite lookup_insert_ne by done. apply option_eq. intros v. rewrite (flows_lookup _ _ _ _ _ _ _ Hi), (flows_lookup _ _ _ _ _ _ _ Hi').
    split; intros (q & ph' & Hq & <- & <-).
    + assert (q <> p) as Hne by (by intros ->). destruct (Hrest q ph' Hne) as [H1 H2]. apply H1 in Hq.
      exists q, ph'. split; [done|]. rewrite (same_key st st'), (same_session st st'); auto.
    + assert (q <> p) as Hne.
      { intros ->. apply Hk, Hkey. rewrite <- phases_fst. apply list_elem_of_fmap. by exists (p, ph'). }
      destruct (Hrest q ph' Hne) as [H1 H2]. exists q, ph'. split; [by apply H1|].
      rewrite (same_key st st'), (same_session st st'); auto.
Qed.

Lemma flows_delete p st chains free b lost st' chains' free' b' lost' :
  inv st chains free b lost -> inv st' chains' free' b' lost' -> rest_same p st b st' b' ->
  p ∈ all st b -> p ∉ all st' b' -> flows (abs (Sys st' b')) = delete (key st p) (flows (abs (Sys st b))).
Proof.
  intros Hi Hi' Hrest Hp Hp'. apply map_eq. intros k. apply option_eq. intros v.
  rewrite lookup_delete_Some, (flows_lookup _ _ _ _ _ _ _ Hi), (flows_lookup _ _ _ _ _ _ _ Hi').
  split.
  - intros (q & ph' & Hq & <- & <-).
    assert (q <> p) as Hne.
    { intros ->. apply Hp'. rewrite <- phases_fst. apply list_elem_of_fmap. by exists (p, ph'). }
    destruct (Hrest q ph' Hne) as [H1 H2]. apply H1 in Hq. pose proof (H2 Hq) as Hs. rewrite (same_key st st') by done. split.
    + intros E. apply Hne. eapply key_inj; [exact Hi| |done|done]. rewrite <- phases_fst. apply list_elem_of_fmap. by exists (q, ph').
    + exists q, ph'. by rewrite (same_session st st').
  - intros [Hk (q & ph' & Hq & <- & <-)]. assert (q <> p) as Hne by (by intros ->).
    destruct (Hrest q ph' Hne) as [H1 H2]. exists q, ph'. split; [by apply H1|].
    rewrite (same_key st st'), (same_session st st'); auto.
Qed.

Lemma flows_same st chains free b lost st' chains' free' lost' :
  inv st chains free b lost -> inv st' chains' free' b lost' ->
  (forall q ph, (q, ph) ∈ phases (tim_entries st') b <-> (q, ph) ∈ phases (tim_entries st) b) ->
  (forall q, q ∈ all st b -> same_at st st' q) ->
  flows (abs (Sys st' b)) = flows (abs (Sys st b)).
Proof.
  intros Hi Hi' Hp Hs. apply map_eq. intros k. apply option_eq. intros v.
  rewrite (flows_lookup _ _ _ _ _ _ _ Hi), (flows_lookup _ _ _ _ _ _ _ Hi').
  assert (forall q ph, (q, ph) ∈ phases (tim_entries st) b -> same_at st st' q) as Hs'.
  { intros q ph Hq. apply Hs. rewrite <- phases_fst. apply list_elem_of_fmap. by exists (q, ph). }
  split; intros (q & ph & Hq & <- & <-); exists q, ph.
  - apply Hp in Hq. split; [done|]. rewrite (same_key st st'), (same_session st st'); eauto.
  - split; [by apply Hp|]. rewrite (same_key st st'), (same_session st st'); eauto.
Qed.

(** The timers follow from the sessions. *)
Lemma timers_of_members st chains free b lost st' chains' free' lost' q :
  inv st chains free b lost -> inv st' chains' free' b lost' ->
  (forall i, in_range i -> q ∈ members st' chains' i <-> q ∈ members st chains i) ->
  q ∈ tim_entries st' <-> q ∈ tim_entries st.
Proof.
  intros Hi Hi' Hm. assert (q ∈ all st' b <-> q ∈ all st b) as Hall.
  { rewrite (inv_armed _ _ _ _ _ _ _ Hi), (inv_armed _ _ _ _ _ _ _ Hi'). split; intros (i & Hr & Hq); exists i; (split; [done|]); by apply Hm. }
  rewrite !elem_of_app in Hall.
  pose proof (inv_timers _ _ _ _ _ _ _ Hi) as (_ & H1 & _)%NoDup_app.
  pose proof (inv_timers _ _ _ _ _ _ _ Hi') as (_ & H2 & _)%NoDup_app.
  split; intros Hq.
  - destruct (proj1 Hall (or_introl Hq)) as [?|Hb]; [done|]. by destruct (H2 q Hq).
  - destruct (proj2 Hall (or_introl Hq)) as [?|Hb]; [done|]. by destruct (H1 q Hq).
Qed.

(** ** Accounts *)

#[local] Abbreviation ms l := (list_to_set_disj l : gmultiset Z).

Lemma held_perm st l l' : l ≡ₚ l' -> held st l = held st l'.
Proof. induction 1; simpl; [done|by f_equal|mset|congruence]. Qed.

Lemma queued_perm st l l' : l ≡ₚ l' -> queued st l = queued st l'.
Proof. induction 1; simpl; lia. Qed.

(** Session [q] holds what it held. *)
Definition same_held st st' (q : ssn_ptr) : Prop := held_of st' q = held_of st q /\ queued_of st' q = queued_of st q.

Lemma same_at_held st st' q : same_at st st' q -> same_held st st' q.
Proof.
  intros [E Es]. unfold same_held, held_of, queued_of. rewrite Es. destruct (ssn_mem st' q), (ssn_mem st q).
  by injection E as -> -> -> -> -> -> -> -> -> -> -> -> -> -> -> -> ->.
Qed.

Lemma held_ext st st' l : (forall q, q ∈ l -> same_held st st' q) -> held st' l = held st l /\ queued st' l = queued st l.
Proof.
  induction l as [|q l IH]; intros Hs; [done|]. simpl.
  destruct (Hs q (list_elem_of_here _ _)) as [-> ->]. destruct IH as [-> ->]; [|done].
  intros x Hx. by apply Hs, list_elem_of_further.
Qed.

(** Session [p] apart. *)
Lemma all_split st chains free b lost p : inv st chains free b lost -> p ∈ all st b ->
  exists l, all st b ≡ₚ p :: l /\ p ∉ l.
Proof.
  intros Hi (l & Hl)%elem_of_Permutation. exists l. split; [done|]. pose proof (inv_timers _ _ _ _ _ _ _ Hi) as Hd.
  rewrite Hl in Hd. by apply NoDup_cons in Hd as [? _].
Qed.

Lemma load_works p st : works (load_tcp p st) =
  wset (tsegs (tcp_flow_positive_data (ssn_mem st p))) ⊎ wset (tsegs (tcp_flow_negative_data (ssn_mem st p))).
Proof. unfold works. simpl. rewrite wset_nil. mset. Qed.

(** Flow recovery on session [p], from [x] to [t], where [x] is the session's state up to
    the time to live. *)
Lemma account_work st chains free b lost p st' x t ws : inv st chains free b lost -> p ∈ all st b -> touch p st st' ->
  works x = works (load_tcp p st) -> entries x = entries (load_tcp p st) ->
  accounts x t ws 0 -> submitted_to st st' p t ->
  account (Sys st' b) = account (Sys st b) ⊎ ws /\ qents (Sys st' b) = qents (Sys st b).
Proof.
  intros Hi Hp Ht Ex En [Hw He] [[a Ea] (Eq & _ & Ecl) (rvs & Hl & Hfr & Hcw)].
  destruct (all_split _ _ _ _ _ _ Hi Hp) as (l & Hall & Hpl).
  assert (forall q, q ∈ l -> same_held st st' q) as Hs.
  { intros q Hq. assert (q <> p) by (by intros ->). apply same_at_held. split; [by rewrite (o_mem _ _ _ Ht)|by apply (o_sent _ _ _ Ht)]. }
  destruct (held_ext st st' l Hs) as [Eh Eqd]. unfold account, qents. cbn [tabl busy].
  rewrite (o_tim _ _ _ Ht), !(held_perm _ _ _ Hall), !(queued_perm _ _ _ Hall). simpl held. simpl queued. rewrite Eh, Eqd, Ecl, Hfr, Eq.
  rewrite !list_to_set_disj_app. unfold held_of, queued_of. rewrite Hcw, list_to_set_disj_app, Ea. cbn [with_addr with_tcp tcp_flow_positive_data tcp_flow_negative_data].
  unfold works in Hw at 1. rewrite Ex, load_works, (packed_refused _ _ Hl) in Hw. unfold entries in He, En. cbn [load_tcp qent_pool positive negative] in En.
  split; [mset|lia].
Qed.

(** Session [p] is new. *)
Lemma account_new st chains free b lost p st' chains' free' lost' : inv st chains free b lost -> inv st' chains' free' b lost' ->
  p ∈ all st' b -> all st' b ≡ₚ p :: all st b -> (forall q, q ∈ all st b -> same_held st st' q) -> env st' = env st ->
  tsegs (tcp_flow_positive_data (ssn_mem st' p)) = [] -> tsegs (tcp_flow_negative_data (ssn_mem st' p)) = [] -> sent st' p = [] ->
  account (Sys st' b) = account (Sys st b) /\ qents (Sys st' b) = qents (Sys st b).
Proof.
  intros Hi Hi' Hp Hall Hs He E1 E2 E3. destruct (held_ext st st' _ Hs) as [Eh Eqd]. injection He as Eo Ecl Eq _ _ _.
  unfold account, qents. cbn [tabl busy]. rewrite (held_perm _ _ _ Hall), (queued_perm _ _ _ Hall). simpl held. simpl queued.
  rewrite Eh, Eqd, Eo, Ecl, Eq. unfold held_of, queued_of. rewrite E1, E2, E3, wset_nil. simpl. split; [mset|lia].
Qed.

(** Session [p], flushed, is purged. *)
Lemma account_purge st chains b b' p st' chains' t : NoDup (all st b) -> all st b ≡ₚ p :: all st' b' -> expired_post st st' chains chains' p t ->
  account (Sys st' b') = account (Sys st b) /\ qents (Sys st' b') = qents (Sys st b).
Proof.
  intros Hd Hall Hx. destruct (x_works _ _ _ _ _ _ Hx) as (cells & rvs & Ecl & Hl & Ecw & Efr).
  assert (p ∉ all st' b') as Hpl by (rewrite Hall in Hd; by apply NoDup_cons in Hd as [? _]).
  destruct (held_ext st st' (all st' b')) as [Eh Eqd].
  { intros q Hq. assert (q <> p) by (by intros ->). apply same_at_held. split; by apply (x_others _ _ _ _ _ _ Hx). }
  destruct (acc_flush_lock (load_tcp p st)) as [Hw He]. rewrite <- (x_flow _ _ _ _ _ _ Hx), load_works in *.
  assert (tsegs (positive t) = [] /\ tsegs (negative t) = []) as [E1 E2] by (rewrite (x_flow _ _ _ _ _ _ Hx); split; [apply (flush_lock_empty true)|apply (flush_lock_empty false)]).
  pose proof (x_shared _ _ _ _ _ _ Hx) as [= Eq _ _ _].
  unfold account, qents. cbn [tabl busy]. rewrite Eh, Eqd, !(held_perm _ _ _ Hall), !(queued_perm _ _ _ Hall). simpl held. simpl queued.
  rewrite Ecl, Efr, Eq, map_app, concat_app, !list_to_set_disj_app. simpl map. simpl concat.
  rewrite app_nil_r, Ecw, list_to_set_disj_app. unfold held_of, queued_of.
  unfold works in Hw at 1. rewrite E1, E2, (packed_refused _ _ Hl) in Hw. unfold entries in He.
  cbn [load_tcp qent_pool positive negative] in He. rewrite E1, E2 in He. simpl length in He.
  split; [mset|lia].
Qed.

Lemma account_same st st' b b' : all st' b' ≡ₚ all st b -> (forall q, q ∈ all st b -> same_held st st' q) -> env st' = env st ->
  account (Sys st' b') = account (Sys st b) /\ qents (Sys st' b') = qents (Sys st b).
Proof.
  intros Hall Hs He. destruct (held_ext st st' _ Hs) as [Eh Eqd]. injection He as Eo Ecl Eq _ _ _.
  unfold account, qents. cbn [tabl busy]. by rewrite (held_perm _ _ _ Hall), (queued_perm _ _ _ Hall), Eh, Eqd, Eo, Ecl, Eq.
Qed.

(** ** Directions *)

Lemma direction_masked t k : tuple_ok k ->
  ssn_direction_tuple t (Tuple (data_0 k) (Z.land (data_1 k) MPP_SSN_HASH_MASK_DATA64)) =
  if decide (words_of t = words_of k) then 0 else 1.
Proof.
  intros Hk. unfold ssn_direction_tuple, words_of. cbn [data_0].
  assert (t_ports (Tuple (data_0 k) (Z.land (data_1 k) MPP_SSN_HASH_MASK_DATA64)) = t_ports k) as ->.
  { pose proof (data64_hi (data_1 k) ltac:(apply Hk)) as E. apply (f_equal (fun x => Z.shiftr x 8)) in E.
    rewrite !Z.shiftr_shiftr in E by done. exact E. }
  destruct (Z.eqb_spec (data_0 t) (data_0 k)); destruct (Z.eqb_spec (t_ports t) (t_ports k)); case_decide; simpl; congruence.
Qed.
End sim.
