(* ===== verification/SsnEvents.v ===== *)
(** * The events of the session table, one by one

    Each event that can happen is defined, keeps the invariant, is a step of the
    specification, and accounts for its packet and for the queue entries. *)

From stdpp Require Import list functions gmap gmultiset.
From S2P Require Import Prelude TcpFlow TcpFlowProps Chan SsnBlock SsnBlockProps TcpFlowSegs.
From S2P Require Import Ssn SsnTuple SsnInv SsnStep SsnOps SsnAge SsnSys SsnSim.
#[local] Open Scope Z_scope.

Section events.
Context {C P : Type} {channel : SsnSink C} {sink_ok : C -> Prop} {channel_laws : SsnSinkLaws C sink_ok}
  {pool : Fpa P} {blocks : list Z} {fpa_ok : P -> list Z -> Prop} {pool_laws : FpaLaws P blocks fpa_ok}.
Variables (crc : Z -> Z -> Z) (cpu_freq : Z) (hdr_stack : list Z) (fuel : nat).

#[local] Abbreviation tab := (table C P).
#[local] Abbreviation inv := (inv (sink_ok := sink_ok) (blocks := blocks) (fpa_ok := fpa_ok) crc hdr_stack).
#[local] Abbreviation sys_ok := (sys_ok (sink_ok := sink_ok) (blocks := blocks) (fpa_ok := fpa_ok) crc hdr_stack).
#[local] Abbreviation event_ok := (event_ok (P := P) (sink_ok := sink_ok)).
#[local] Abbreviation sys_do := (sys_do (C := C) (P := P) crc cpu_freq hdr_stack fuel).
#[local] Abbreviation hash t := (ssn_hash_by_tuple crc t SSN_HASH_BUCKET_SIZE_MASK).
#[local] Abbreviation key st p := (key_of crc (s_key (ssn_mem st p))).
#[local] Abbreviation abs := (abs (C := C) (P := P) crc).
#[local] Abbreviation all st b := (tim_entries st ++ b.*1).
Implicit Types (st : tab) (b : list (ssn_ptr * bool)) (s : sys (C := C) (P := P)).

Hypothesis Hstack : length hdr_stack = 16%nat.
Hypothesis Hfuel : (length blocks + 1 < fuel)%nat.

(** The packet an event hands over. *)
Definition given (e : event C) (rv : Z) : gmultiset Z :=
  match e with
  | Packet w _ _ => if rv =? FRCORE_ACT_UNFREE then {[+ w_name w +]} else ∅
  | _ => ∅
  end.

(** What every event promises. *)
Definition event_post (e : event C) s lost : Prop :=
  exists rv s' lost', sys_do e s = Some (rv, s') /\ sys_ok s' lost' /\ lost <= lost' /\
    (Forall (fun r => r = 0) (tim_results (tabl s)) -> lost' = lost) /\
    spec_step (abs s) (label_of crc e s rv) (abs s') /\
    account s' = account s ⊎ given e rv /\ qents s' = qents s.

Lemma abs_eq st b m pool' counters depth age : flows (abs (Sys st b)) = m -> shared st = (pool', counters, depth, age) ->
  abs (Sys st b) = Spec m pool' counters depth age.
Proof. intros <- E. unfold SsnSys.abs. simpl in *. by injection E as -> -> -> ->. Qed.

Lemma no_packet (A B : gmultiset Z) : A = B -> A = B ⊎ ∅.
Proof. intros ->. by rewrite gmultiset_disj_union_right_id. Qed.

(** ** Timers *)

Lemma fire_ok s lost p : sys_ok s lost -> p ∈ tim_entries (tabl s) -> event_post (Fire p) s lost.
Proof.
  destruct s as [st b]. intros (chains & free & Hi) Hp. simpl in Hi, Hp.
  destruct (take_out_spec p _ Hp) as (l & El & Hl).
  destruct (tick_spec crc hdr_stack st chains free b lost p l Hi Hl) as (st' & E & Hi' & Ht & Etim).
  set (expired := s_ttl (ssn_mem st p) =? 0) in *.
  exists FRE_SUCCESS, (Sys st' ((p, expired) :: b)), lost. unfold SsnSys.sys_do. cbn [tabl busy]. rewrite El. cbn [mbind option_bind].
  rewrite E. cbn [mbind option_bind]. split; [done|]. split; [by exists chains, free|]. split; [done|]. split; [done|].
  assert (forall q, q <> p -> same_at st st' q) as Hs.
  { intros q Hq. split; [by rewrite (i_mem _ _ _ Ht)|by rewrite (i_sent _ _ _ Ht)]. }
  assert (rest_same p st b st' ((p, expired) :: b)) as Hrest.
  { intros q ph Hq. split; [|intros _; by apply Hs]. rewrite !elem_of_phases, Etim. destruct ph as [x|].
    - rewrite elem_of_cons. split; [intros [[= ? _]|?]; done|by right].
    - rewrite Hl, elem_of_cons. split; [by right|]. by intros [?|?]. }
  assert (all st' ((p, expired) :: b) ≡ₚ all st b) as Hall.
  { rewrite Etim, Hl, fmap_cons. simpl. symmetry. apply Permutation_middle. }
  split.
  - assert (key st' p = key st p) as Ek by (by rewrite (i_self _ _ _ Ht)).
    rewrite (abs_eq st' _ _ _ _ _ _ (flows_update crc hdr_stack p (Some expired) st chains free b lost st' chains free _ lost Hi Hi' Hrest
      ltac:(apply elem_of_phases, list_elem_of_here) ltac:(done)) eq_refl).
    pose proof (i_env _ _ _ Ht) as [= _ _ Eq Ec Ed Ea]. rewrite Ek, (i_self _ _ _ Ht), Eq, Ec, Ed, Ea.
    apply (spec_tick (abs (Sys st b)) _ (session_of (ssn_mem st p) None)); [|done]. apply (flows_some crc hdr_stack _ _ _ _ _ _ _ Hi).
    by apply elem_of_phases.
  - destruct (account_same st st' b ((p, expired) :: b) Hall) as [E1 E2]; [|apply Ht|split; [by apply no_packet|done]].
    intros q _. destruct (decide (q = p)) as [->|Hq]; [|by apply same_at_held, Hs].
    unfold same_held, held_of, queued_of. by rewrite (i_self _ _ _ Ht), (i_sent _ _ _ Ht).
Qed.

Lemma finish_ok s lost p expired : sys_ok s lost -> (p, expired) ∈ busy s -> event_post (Finish p expired) s lost.
Proof using Hfuel Hstack channel_laws pool_laws.
  destruct s as [st b]. intros (chains & free & Hi0) Hp. simpl in Hi0, Hp.
  destruct (take_out_spec (p, expired) _ Hp) as (l & El & Hl).
  pose proof (inv_perm crc hdr_stack _ _ _ _ _ _ Hi0 (symmetry Hl)) as Hi.
  destruct (finish_age_spec crc cpu_freq hdr_stack fuel Hstack Hfuel st chains free l lost p expired Hi) as (st' & E & Hpost).
  exists FRE_SUCCESS, (Sys st' l), lost. unfold SsnSys.sys_do. cbn [tabl busy]. rewrite El. cbn [mbind option_bind].
  rewrite E. cbn [mbind option_bind]. split; [done|].
  assert (p ∈ all st b) as Hpa by (rewrite Hl, elem_of_app, fmap_cons; right; apply list_elem_of_here).
  assert ((p, Some expired) ∈ phases (tim_entries st) b) as Hph by (by apply elem_of_phases).
  pose proof (flows_some crc hdr_stack _ _ _ _ _ _ _ Hi0 Hph) as Hlook.
  pose proof (inv_timers _ _ _ _ _ _ _ Hi) as Hd. rewrite fmap_cons in Hd.
  destruct Hpost as [(-> & Ez & Hi' & Em & Es & Ee & Ecl & Etim)|(Hor & st1 & chains' & free' & t & Em & Es & Ee & Ecl & Etim & Hi' & Hx)].
  - assert (forall q, same_at st st' q) as Hs by (intros q; by split; rewrite ?Em, ?Es).
    assert (rest_same p st b st' l) as Hrest.
    { intros q ph Hq. split; [|intros _; apply Hs]. rewrite !elem_of_phases, Etim. destruct ph as [x|].
      - rewrite Hl, elem_of_cons. split; [by right|]. by intros [[= ? _]|?].
      - rewrite elem_of_app, list_elem_of_singleton. split; [by intros [?|?]|by left]. }
    assert (all st' l ≡ₚ all st b) as Hall by (rewrite Etim, Hl, fmap_cons, <- app_assoc; done).
    split; [by exists chains, free|]. split; [done|]. split; [done|]. split.
    + rewrite (abs_eq st' _ _ _ _ _ _ (flows_update crc hdr_stack p None st chains free b lost st' chains free l lost Hi0 Hi' Hrest
        ltac:(apply elem_of_phases; rewrite Etim, elem_of_app, list_elem_of_singleton; by right) ltac:(by rewrite Em)) eq_refl).
      injection Ee as _ _ Eq Ec Ed Ea. rewrite Em, Eq, Ec, Ed, Ea. unfold label_of. cbn [tabl]. rewrite Ez.
      by apply (spec_rearm (abs (Sys st b)) _ (session_of (ssn_mem st p) (Some false))).
    + destruct (account_same st st' b l Hall) as [E1 E2]; [|exact Ee|split; [by apply no_packet|done]].
      intros q _. apply same_at_held, Hs.
  - assert (forall q, q <> p -> same_at st st' q) as Hs.
    { intros q Hq. destruct (x_others _ _ _ _ _ _ Hx) as [H1 H2]. split; [by rewrite H1, Em|by rewrite H2, Es]. }
    assert (tim_entries st' = tim_entries st) as Etim' by (by rewrite (x_tim _ _ _ _ _ _ Hx)).
    assert (rest_same p st b st' l) as Hrest.
    { intros q ph Hq. split; [|intros _; by apply Hs]. rewrite !elem_of_phases, Etim'. destruct ph as [x|]; [|done].
      rewrite Hl, elem_of_cons. split; [by right|]. by intros [[= ? _]|?]. }
    assert (p ∉ all st' l) as Hpn.
    { rewrite Etim', elem_of_app. apply NoDup_app in Hd as (_ & H1 & [H2 _]%NoDup_cons).
      intros [H3|H3]; [by apply (H1 p H3), list_elem_of_here|done]. }
    split; [by exists chains', free'|]. split; [done|]. split; [done|]. split.
    + injection Ee as _ _ Eq Ec Ed Ea.
      rewrite (abs_eq st' _ _ _ _ _ _ (flows_delete crc hdr_stack p st chains free b lost st' chains' free' l lost Hi0 Hi' Hrest Hpa Hpn)
        (x_shared _ _ _ _ _ _ Hx)). rewrite (x_flow _ _ _ _ _ _ Hx), Ed, Ea.
      replace (load_tcp p st1) with (tcp_of (abs (Sys st b)) (session_of (ssn_mem st p) (Some expired))).
      * apply (spec_expire (abs (Sys st b)) _ (session_of (ssn_mem st p) (Some expired)) expired); [done|done|].
        destruct Hor as [?|Hz]; [by left|right]. by apply Z.eqb_neq.
      * unfold load_tcp. by rewrite Em, Eq, Ec.
    + assert (all st b ≡ₚ p :: all st' l) as Hall.
      { rewrite Hl, fmap_cons, Etim'. symmetry. apply Permutation_middle. }
      assert (account (Sys st1 b) = account (Sys st b) /\ qents (Sys st1 b) = qents (Sys st b)) as [E1 E2].
      { apply account_same; [by rewrite Etim| |done]. intros q _. unfold same_held, held_of, queued_of. by rewrite Em, Es. }
      assert (NoDup (all st1 b)) as Hd1 by (rewrite Etim; apply Hi0).
      destruct (account_purge st1 chains b l p st' chains' t Hd1) as [E3 E4]; [by rewrite Etim|done|].
      rewrite E3, E4, E1, E2. split; [by apply no_packet|done].
Qed.

(** ** Packets *)

(** The sessions are those from before: so are their timers and phases. *)
Lemma same_members st chains free b lost st' chains' free' lost' : inv st chains free b lost -> inv st' chains' free' b lost' ->
  (forall j q, in_range j -> q ∈ members st' chains' j <-> q ∈ members st chains j) ->
  (forall q ph, (q, ph) ∈ phases (tim_entries st') b <-> (q, ph) ∈ phases (tim_entries st) b) /\ all st' b ≡ₚ all st b.
Proof.
  intros Hi Hi' Hm. assert (forall q, q ∈ tim_entries st' <-> q ∈ tim_entries st) as Ht.
  { intros q. eapply (timers_of_members crc hdr_stack); [exact Hi|exact Hi'|]. intros i Hr. by apply Hm. }
  split.
  - intros q ph. rewrite !elem_of_phases. destruct ph; [done|apply Ht].
  - apply NoDup_Permutation; [apply Hi'|apply Hi|]. intros q. by rewrite !elem_of_app, Ht.
Qed.

Lemma drop_ok st chains free b lost st' chains' free' lost' w h : tuple_ok (th_tuple h) ->
  inv st chains free b lost -> inv st' chains' free' b lost' -> same_sessions st chains st' chains' -> env st' = env st ->
  (malformed h = true \/ forall q, q ∈ members st chains (hash (ssn_sort_tuple (th_tuple h))) ->
    canon (s_key (ssn_mem st q)) <> canon (th_tuple h)) ->
  spec_step (abs (Sys st b)) (Seen (key_of crc (th_tuple h)) w h FRCORE_ACT_DROP) (abs (Sys st' b)) /\
  account (Sys st' b) = account (Sys st b) /\ qents (Sys st' b) = qents (Sys st b).
Proof.
  intros Htok Hi Hi' [Hm Hmem Hsent] He Hn. destruct (same_members _ _ _ _ _ _ _ _ _ Hi Hi' Hm) as [Hph Hall].
  assert (forall q, q ∈ all st b -> same_at st st' q) as Hs.
  { intros q (i & Hr & Hq)%(inv_armed _ _ _ _ _ _ _ Hi). split; [by eapply Hmem|by eapply Hsent]. }
  split.
  - rewrite (abs_eq st' _ _ _ _ _ _ (flows_same crc hdr_stack _ _ _ _ _ _ _ _ _ Hi Hi' Hph Hs) eq_refl).
    injection He as _ _ Eq Ec Ed Ea. rewrite Eq, Ec, Ed, Ea. apply spec_drop. destruct Hn as [?|Hn]; [by left|right].
    by eapply (flows_none crc hdr_stack).
  - apply account_same; [done| |done]. intros q Hq. by apply same_at_held, Hs.
Qed.
(** Flow recovery with a packet on session [p]. *)
Lemma recovery_ok st chains free b lost p ph st' chains' free' lost' w h t :
  inv st chains free b lost -> inv st' chains' free' b lost' -> touch p st st' -> (p, ph) ∈ phases (tim_entries st) b ->
  submitted_to st st' p t -> recover w h (abs (Sys st b)) (session_of (ssn_mem st p) ph) = Some t ->
  abs (Sys st' b) = with_flow (<[key st p := after (session_of (ssn_mem st p) ph) t]> (flows (abs (Sys st b)))) t (abs (Sys st b)) /\
  account (Sys st' b) = account (Sys st b) ⊎ {[+ w_name w +]} /\ qents (Sys st' b) = qents (Sys st b).
Proof.
  intros Hi Hi' Ht Hp Hu Et.
  assert (p ∈ all st b) as Hpa by (rewrite <- phases_fst; apply list_elem_of_fmap; by exists (p, ph)).
  split.
  - assert (rest_same p st b st' b) as Hrest.
    { intros q ph' Hq. rewrite (o_tim _ _ _ Ht). split; [done|]. intros _.
      split; [by rewrite (o_mem _ _ _ Ht)|by apply (o_sent _ _ _ Ht)]. }
    destruct (u_entry _ _ _ _ Hu) as [a Ea]. destruct (u_pool _ _ _ _ Hu) as (Eq & Ec & _).
    rewrite (abs_eq st' _ _ _ _ _ _ (flows_update crc hdr_stack p ph st chains free b lost st' chains' free' b lost' Hi Hi' Hrest
      ltac:(by rewrite (o_tim _ _ _ Ht)) ltac:(by rewrite Ea)) eq_refl).
    by rewrite Ea, Eq, Ec, (o_depth _ _ _ Ht), (o_age _ _ _ Ht).
  - apply acc_recovery in Et. eapply (account_work crc hdr_stack); [exact Hi|done|exact Ht| | |exact Et|exact Hu].
    + unfold works. simpl. done.
    + done.
Qed.

Lemma direction_same t k ph e : tuple_ok (s_key e) -> k = s_key e ->
  ssn_direction_tuple t (Tuple (data_0 k) (Z.land (data_1 k) MPP_SSN_HASH_MASK_DATA64)) = direction_of t (session_of e ph).
Proof. intros Hk ->. by apply direction_masked. Qed.

Lemma words_same k t : data_0 k = data_0 t -> t_hi k = t_hi t -> words_of k = words_of t.
Proof.
  intros E Eh. unfold words_of. rewrite E. f_equal. apply (f_equal (fun x => Z.shiftr x 8)) in Eh. unfold t_hi in Eh.
  by rewrite !Z.shiftr_shiftr in Eh.
Qed.

(** The session of a packet's flow: one of the specification's, or a new one. *)
Lemma found_ok st chains free b lost st1 h p : tuple_ok (th_tuple h) -> inv st chains free b lost ->
  found_post crc hdr_stack (sink_ok := sink_ok) (blocks := blocks) (fpa_ok := fpa_ok) st chains b lost (th_tuple h) (th_seq h) (th_ack_seq h) (Some p) st1 ->
  let k := key_of crc (th_tuple h) in
  exists ph, (p, ph) ∈ phases (tim_entries st1) b /\ key st1 p = k /\ tuple_ok (s_key (ssn_mem st1 p)) /\
    (let v := session_of (ssn_mem st1 p) ph in
     flows (abs (Sys st b)) !! k = Some v \/ flows (abs (Sys st b)) !! k = None /\
       exists en en', v = new_session h (frcore_ssn_age st) en en') /\
    (forall v, <[k := v]> (flows (abs (Sys st1 b))) = <[k := v]> (flows (abs (Sys st b)))) /\
    shared st1 = shared st /\ account (Sys st1 b) = account (Sys st b) /\ qents (Sys st1 b) = qents (Sys st b).
Proof.
  intros Hth Hi (chains1 & free1 & Hi1 & Hp & Hc & He & Hcase) k.
  assert (in_range (hash (ssn_sort_tuple (th_tuple h)))) as Hr by apply hash_range.
  destruct (member_key crc hdr_stack _ _ _ _ _ _ _ _ Hi1 Hr Hp Hth Hc eq_refl) as [Hpa Hkey]. fold k in Hkey.
  destruct (phase_of _ _ _ Hpa) as [ph Hph].
  pose proof (st_key _ _ _ (inv_static _ _ _ _ _ _ _ Hi1 _ _ Hr Hp)) as Htok.
  pose proof He as [= Eo Ecl Eq Ec Ed Ea].
  destruct Hcase as [(Em & Es & ->)|(Ho & Hm & Hnew & Hf & Esent)].
  - assert (forall q, same_at st st1 q) as Hs by (intros q; by split; rewrite ?Em, ?Es).
    assert (forall j, members st1 chains j = members st chains j) as Emm by (intros j; unfold members; by rewrite Em).
    destruct (same_members _ _ _ _ _ _ _ _ _ Hi Hi1) as [Hiff Hall]; [by intros; rewrite Emm|].
    assert (flows (abs (Sys st1 b)) = flows (abs (Sys st b))) as Ef.
    { by eapply (flows_same crc hdr_stack). }
    exists ph. split; [done|]. split; [done|]. split; [done|]. split.
    { left. rewrite <- Ef, <- Hkey. by eapply (flows_some crc hdr_stack). }
    split; [by rewrite Ef|]. split; [unfold shared; congruence|].
    apply account_same; [done| |done]. intros q _. by apply same_at_held.
  - assert (p ∉ all st b) as Hpn by (intros (j & _ & Hj)%(inv_armed _ _ _ _ _ _ _ Hi); by apply (Hnew j)).
    assert (forall q, q <> p -> same_at st st1 q) as Hs by (intros q Hq; split; by apply Ho).
    assert (forall q, q ∈ all st1 b <-> q = p \/ q ∈ all st b) as Hin.
    { intros q. rewrite (inv_armed _ _ _ _ _ _ _ Hi), (inv_armed _ _ _ _ _ _ _ Hi1). split.
      - intros (j & Hj & [?|[-> _]]%Hm); [right; by exists j|by left].
      - intros [->|(j & Hj & Hq)]; [by eexists|]. exists j. split; [done|]. apply Hm. by left. }
    assert (forall q, q <> p -> q ∈ tim_entries st1 <-> q ∈ tim_entries st) as Ht.
    { intros q Hq. pose proof (Hin q) as Hq'. rewrite !elem_of_app in Hq'.
      pose proof (inv_timers _ _ _ _ _ _ _ Hi) as (_ & H1 & _)%NoDup_app.
      pose proof (inv_timers _ _ _ _ _ _ _ Hi1) as (_ & H2 & _)%NoDup_app. split; intros H3.
      - destruct (proj1 Hq' (or_introl H3)) as [?|[?|?]]; [done|done|by destruct (H2 q H3)].
      - destruct (proj2 Hq' (or_intror (or_introl H3))) as [?|?]; [done|by destruct (H1 q H3)]. }
    assert (p ∉ b.*1) as Hpb by (intros Hb; apply Hpn, elem_of_app; by right).
    assert (ph = None) as ->.
    { apply elem_of_phases in Hph. destruct ph as [x|]; [|done]. exfalso. apply Hpb, list_elem_of_fmap. by exists (p, x). }
    assert (rest_same p st b st1 b) as Hrest.
    { intros q ph Hq. split; [|intros _; by apply Hs]. rewrite !elem_of_phases. destruct ph; [done|by apply Ht]. }
    exists None. split; [done|]. split; [done|]. split; [done|]. split.
    { right. split.
      - apply eq_None_not_Some. intros [v (q & ph & Hq & E & _)%(flows_lookup crc hdr_stack _ _ _ _ _ _ _ Hi)].
        assert (q ∈ all st b) as Hqa by (rewrite <- phases_fst; apply list_elem_of_fmap; by exists (q, ph)).
        assert (q <> p) as Hqp by (by intros ->). apply Hqp.
        eapply (key_inj crc hdr_stack st1); [exact Hi1|apply Hin; by right|done|].
        by rewrite (same_key crc st st1 q (Hs q Hqp)), Hkey.
      - exists (f_enable (tcp_flow_positive_data (ssn_mem st1 p))), (f_enable (tcp_flow_negative_data (ssn_mem st1 p))).
        unfold new_session, session_of. destruct Hf as [Hw Hhi Hs1 Hs2 Httl Hage Hpk Hby Hpos Hneg _].
        rewrite <- Hpos, <- Hneg, Hs1, Hs2, Httl, Hage, Hpk, Hby. by rewrite (words_same _ _ Hw Hhi). }
    split.
    { intros v. rewrite (flows_update crc hdr_stack p None st chains free b lost st1 chains1 free1 b lost Hi Hi1 Hrest Hph ltac:(done)).
      by rewrite Hkey, insert_insert_eq. }
    split; [unfold shared; congruence|].
    eapply (account_new crc hdr_stack); [exact Hi|exact Hi1|done| | |done|by rewrite (f_pos _ _ _ _ _ Hf)|by rewrite (f_neg _ _ _ _ _ Hf)|done].
    + apply NoDup_Permutation; [apply Hi1|apply NoDup_cons; split; [done|apply Hi]|]. intros q. by rewrite Hin, elem_of_cons.
    + intros q Hq. apply same_at_held, Hs. by intros ->.
Qed.
Lemma packet_ok_event s lost w smac dmac h : sys_ok s lost -> packet_ok w h -> event_post (Packet w smac dmac) s lost.
Proof using Hfuel Hstack channel_laws pool_laws.
  destruct s as [st b]. intros (chains & free & Hi) Hw. simpl in Hi.
  destruct (process_spec crc cpu_freq hdr_stack fuel Hstack Hfuel st chains free b lost w h smac dmac Hi Hw) as (rv & st' & E & Hpost).
  unfold event_post, SsnSys.sys_do, label_of. cbn [tabl busy]. rewrite E, (p_parse _ _ Hw). cbn [mbind option_bind].
  destruct Hpost as [(-> & chains' & free' & d & Hi' & Hs & He & Hd0 & Hd & Hn)|
    (-> & Hmal & p & st1 & chains' & free' & t & Hf & Hi' & Hi1 & Ht & _ & Et & Hu)].
  - exists FRCORE_ACT_DROP, (Sys st' b), (lost + d). split; [done|]. split; [by exists chains', free'|].
    split; [lia|]. split; [intros H0; rewrite Hd by done; lia|].
    destruct (drop_ok st chains free b lost st' chains' free' _ w h (p_tuple _ _ Hw) Hi Hi' Hs He Hn) as (H1 & H2 & H3).
    split; [exact H1|]. split; [by apply no_packet|done].
  - destruct (found_ok st chains free b lost st1 h p (p_tuple _ _ Hw) Hi Hf) as (ph & Hph & Ek & Htok & Hv & Hins & Esh & Ea & En).
    exists FRCORE_ACT_UNFREE, (Sys st' b), lost. split; [done|]. split; [by exists chains', free'|]. split; [done|]. split; [done|].
    injection Esh as Eq Ec Ed Eag.
    assert (recover w h (abs (Sys st b)) (session_of (ssn_mem st1 p) ph) = Some t) as Er.
    { rewrite <- Et. unfold recover. cbn [sp_depth]. rewrite <- (direction_same _ (s_key (ssn_mem st1 p)) ph _ Htok eq_refl).
      unfold load_tcp. by rewrite Eq, Ec. }
    assert (recover w h (abs (Sys st1 b)) (session_of (ssn_mem st1 p) ph) = Some t) as Er1.
    { rewrite <- Er. unfold recover, tcp_of. simpl. by rewrite Eq, Ec, Ed. }
    destruct (recovery_ok st1 chains' free' b lost p ph st' chains' free' lost w h t Hi1 Hi' Ht Hph Hu Er1) as (H1 & H2 & H3).
    split; [|split; [by rewrite H2, Ea|by rewrite H3]].
    rewrite H1, Ek, Hins. unfold with_flow. simpl sp_depth. simpl sp_age. rewrite Ed, Eag.
    by apply (spec_packet (abs (Sys st b)) _ w h (session_of (ssn_mem st1 p) ph) t).
Qed.

(** ** Commands, and what goes on around the table *)

(** The sessions, the pool and the timers stay. *)
Lemma inv_around st chains free b lost st' : inv st chains free b lost -> ssn_mem st' = ssn_mem st -> sent st' = sent st ->
  ssn_fpa st' = ssn_fpa st -> tim_entries st' = tim_entries st -> tab_stats st' = tab_stats st ->
  FRCORE_SSN_AGE_MIN <= frcore_ssn_age st' <= FRCORE_SSN_AGE_MAX -> sink_ok (sink (out st')) -> inv st' chains free b lost.
Proof.
  intros Hi Em Es Ef Et Ea Hage Hs. assert (forall i, members st' chains i = members st chains i) as E by (intros i; unfold members; by rewrite Em).
  split; rewrite ?Ef, ?Et, ?Ea; try done; try apply Hi.
  - intros i Hr. unfold next_of. rewrite Em. by apply (inv_link _ _ _ _ _ _ _ Hi).
  - intros i p Hr. rewrite E, Em. by apply (inv_static _ _ _ _ _ _ _ Hi).
  - intros i p Hr. rewrite E. intros Hp. eapply content_ext; [by rewrite Em|by rewrite Es|by eapply (inv_content _ _ _ _ _ _ _ Hi)].
  - intros i p q Hr. rewrite !E, Em. by apply (inv_uniq _ _ _ _ _ _ _ Hi).
  - intros p. rewrite (inv_armed _ _ _ _ _ _ _ Hi p). by setoid_rewrite E.
  - intros p. rewrite Em. apply (inv_ttl _ _ _ _ _ _ _ Hi).
Qed.

Lemma around_ok st chains free b lost st' : inv st chains free b lost -> inv st' chains free b lost ->
  ssn_mem st' = ssn_mem st -> sent st' = sent st -> tim_entries st' = tim_entries st ->
  wqe_freed (out st') = wqe_freed (out st) -> closed st' = closed st -> qent_free st' = qent_free st ->
  flows (abs (Sys st' b)) = flows (abs (Sys st b)) /\
  account (Sys st' b) = account (Sys st b) ⊎ ∅ /\ qents (Sys st' b) = qents (Sys st b).
Proof.
  intros Hi Hi' Em Es Et Ew Ec Eq. split; [unfold SsnSys.abs; simpl; by rewrite Em, Et|].
  destruct (held_ext st st' (all st b)) as [E1 E2]; [intros q _; unfold same_held, held_of, queued_of; by rewrite Em, Es|].
  unfold account, qents. simpl. rewrite Et, Ew, Ec, Eq, E1, E2. split; [by apply no_packet|done].
Qed.

Lemma configure_ok st chains free b lost (rv rv' : Z) (ok : bool) age depth e : inv st chains free b lost ->
  (ok = true -> FRCORE_SSN_AGE_MIN <= age <= FRCORE_SSN_AGE_MAX) ->
  sys_do e (Sys st b) = Some (if ok then (rv, Sys (set_params age depth st) b) else (rv', Sys st b)) ->
  label_of crc e (Sys st b) rv = Configured -> label_of crc e (Sys st b) rv' = Configured -> given e rv = ∅ -> given e rv' = ∅ ->
  event_post e (Sys st b) lost.
Proof.
  intros Hi Hage E L1 L2 G1 G2. unfold event_post.
  set (st' := if ok then set_params age depth st else st). set (r := if ok then rv else rv').
  assert (inv st' chains free b lost) as Hi'.
  { unfold st'. destruct ok; [|done]. apply (inv_around st); try done; [by apply Hage|apply Hi]. }
  exists r, (Sys st' b), lost. split; [rewrite E; unfold r, st'; by destruct ok|]. split; [by exists chains, free|].
  split; [done|]. split; [done|].
  destruct (around_ok st chains free b lost st' Hi Hi') as (Ef & Eacc & Eq); [unfold st'; by destruct ok..|].
  assert (given e r = ∅) as -> by (unfold r; by destruct ok). split; [|done].
  assert (label_of crc e (Sys st b) r = Configured) as -> by (unfold r; by destruct ok).
  rewrite (abs_eq st' _ _ _ _ _ _ Ef eq_refl).
  assert (qent_free st' = qent_free st /\ tcp_counters st' = tcp_counters st) as [-> ->] by (unfold st'; by destruct ok).
  apply (spec_configure (abs (Sys st b))). apply Hi'.
Qed.

Lemma event_post_ok e s lost : sys_ok s lost -> event_ok e s -> event_post e s lost.
Proof using Hfuel Hstack channel_laws pool_laws.
  intros Hs He. destruct e as [w smac dmac|p|p x|param|param|c clock answers].
  - destruct He as [h Hh]. by eapply packet_ok_event.
  - by apply fire_ok.
  - by apply finish_ok.
  - destruct s as [st b]. destruct Hs as (chains & free & Hi). destruct param as [|v param]; [done|].
    set (ok := negb ((u8 v <? FRCORE_SSN_AGE_MIN) || (FRCORE_SSN_AGE_MAX <? u8 v))).
    eapply (configure_ok st chains free b lost FRE_SUCCESS FRE_EXCEED ok (u8 v) (disorder_depth st)); try done.
    + unfold ok. rewrite negb_true_iff, orb_false_iff, !Z.ltb_ge. done.
    + unfold SsnSys.sys_do, frcore_cmd_set_age_time, frcore_set_ssn_age. cbn [tabl busy]. unfold ok.
      change (arr_get (v :: param) 0) with (Some v). cbn [mbind option_bind]. by destruct (_ || _).
  - destruct s as [st b]. destruct Hs as (chains & free & Hi). destruct param as [|v param]; [done|].
    set (ok := negb ((v <? FRCORE_DISORDER_DEPTH_MIN) || (FRCORE_DISORDER_DEPTH_MAX <? v))).
    eapply (configure_ok st chains free b lost FRE_SUCCESS FRE_EXCEED ok (frcore_ssn_age st) v); try done.
    + intros _. apply Hi.
    + unfold SsnSys.sys_do, frcore_cmd_set_disorder_depth. cbn [tabl busy]. unfold ok.
      change (arr_get (v :: param) 0) with (Some v). cbn [mbind option_bind]. by destruct (_ || _).
  - destruct s as [st b]. destruct Hs as (chains & free & Hi). simpl in Hi.
    assert (inv (set_env c clock answers st) chains free b lost) as Hi' by (apply (inv_around st); try done; apply Hi).
    destruct (around_ok st chains free b lost _ Hi Hi') as (Ef & Eacc & Eq); [done..|].
    exists FRE_SUCCESS, (Sys (set_env c clock answers st) b), lost. split; [done|]. split; [by exists chains, free|].
    split; [done|]. split; [done|]. split; [|done].
    rewrite (abs_eq _ _ _ _ _ _ _ Ef eq_refl). apply (spec_other (abs (Sys st b))).
Qed.
End events.
