(* ===== verification/SsnThm.v ===== *)
(** * The session table: its theorems

    Runs of the system from start-up; each theorem with a run of a small table that shows
    its hypotheses can hold. *)

From stdpp Require Import list functions gmap gmultiset.
From S2P Require Import Prelude Bytes TcpFlow TcpFlowProps Chan SsnBlock SsnBlockProps TcpFlowSegs Ssn.
From S2P Require Import SsnTuple SsnInv SsnStep SsnOps SsnAge SsnSys SsnSim SsnEvents.
#[local] Open Scope Z_scope.

(** ** Runs of the specification *)

(** The events of flow [k] itself that still may happen before its session is gone. *)
Definition remaining (k : flow_key) (s : spec) : Z :=
  match flows s !! k with
  | None => 0
  | Some v => match v_phase v with None => 2 * v_ttl v + 2 | Some false => 2 * v_ttl v + 3 | Some true => 1 end
  end.

(** Its time to live is not negative unless it is found expired. *)
Definition lively (k : flow_key) (s : spec) : Prop :=
  forall v, flows s !! k = Some v -> v_phase v = Some true \/ 0 <= v_ttl v.

Definition is_own (k : flow_key) (l : label) : bool :=
  match l with Ticked k' | Finished k' _ => bool_decide (k = k') | _ => false end.
Definition is_seen (k : flow_key) (l : label) : bool :=
  match l with Seen k' _ _ _ => bool_decide (k = k') | _ => false end.

Lemma spec_step_remaining k s l s' : spec_step s l s' -> lively k s -> is_seen k l = false ->
  lively k s' /\ 0 <= remaining k s' <= remaining k s - (if is_own k l then 1 else 0).
Proof.
  intros Hst Hk Hseen. assert (0 <= remaining k s) as Hnn.
  { unfold remaining. destruct (flows s !! k) as [v|] eqn:E; [|done]. destruct (Hk v E) as [->|]; [done|].
    destruct (v_phase v) as [[]|]; lia. }
  assert (forall s2, flows s2 !! k = flows s !! k -> lively k s2 /\ 0 <= remaining k s2 <= remaining k s - 0) as Hother.
  { intros s2 E. unfold lively. unfold remaining at 1 2. rewrite E. split; [done|]. fold (remaining k s). lia. }
  destruct Hst as [k' w h _|k' w h v t _ _ _|k' v Hv Hph|k' v Hv Hph|k' v b rearm Hv Hph _|depth age _|]; simpl in *;
    try (apply Hother; done).
  - apply bool_decide_eq_false in Hseen. apply Hother. by apply lookup_insert_ne.
  - case_bool_decide as E; [subst k'|apply Hother; by apply lookup_insert_ne].
    destruct (Hk v Hv) as [?|Hge]; [congruence|]. unfold lively, remaining. simpl. rewrite lookup_insert_eq, Hv, Hph.
    simpl. destruct (Z.eqb_spec (v_ttl v) 0) as [Ez|Ez]; (split; [intros ? [= <-]; simpl; first [by left|right; lia]|lia]).
  - case_bool_decide as E; [subst k'|apply Hother; by apply lookup_insert_ne].
    destruct (Hk v Hv) as [?|Hge]; [congruence|]. unfold lively, remaining. simpl. rewrite lookup_insert_eq, Hv, Hph.
    simpl. split; [intros ? [= <-]; simpl; right; lia|lia].
  - case_bool_decide as E; [subst k'|apply Hother; by apply lookup_delete_ne].
    unfold lively, remaining. simpl. rewrite lookup_delete_eq, Hv, Hph.
    split; [done|]. destruct b; [lia|]. destruct (Hk v Hv) as [?|Hge]; [congruence|lia].
Qed.

Inductive spec_run : spec -> list label -> spec -> Prop :=
| spec_run_nil s : spec_run s [] s
| spec_run_cons s l s1 ls s2 : spec_step s l s1 -> spec_run s1 ls s2 -> spec_run s (l :: ls) s2.

(** The events of flow [k] itself. *)
Definition own (k : flow_key) (ls : list label) : Z := Z.of_nat (length (filter (fun l => is_own k l = true) ls)).

Lemma spec_run_remaining k s ls s' : spec_run s ls s' -> lively k s -> Forall (fun l => is_seen k l = false) ls ->
  lively k s' /\ 0 <= remaining k s' <= remaining k s - own k ls.
Proof.
  induction 1 as [s|s l s1 ls s2 Hst _ IH]; intros Hk Hseen.
  - split; [done|]. unfold own. simpl. unfold remaining. destruct (flows s !! k) as [v|] eqn:E; [|lia].
    destruct (Hk v E) as [->|]; [lia|]. destruct (v_phase v) as [[]|]; lia.
  - apply Forall_cons in Hseen as [Hl Hseen]. destruct (spec_step_remaining k _ _ _ Hst Hk Hl) as [Hk1 Hr1].
    destruct (IH Hk1 Hseen) as [Hk2 Hr2]. split; [done|]. unfold own in *. rewrite filter_cons. destruct (is_own k l); simpl; lia.
Qed.

Lemma remaining_gone k s : lively k s -> remaining k s = 0 -> flows s !! k = None.
Proof.
  unfold remaining. intros Hk. destruct (flows s !! k) as [v|] eqn:E; [|done]. destruct (Hk v E) as [->|]; [done|].
  destruct (v_phase v) as [[]|]; lia.
Qed.

(** What a query answers for a session. *)
Definition stat_of (proto : Z) (v : session) : list Z :=
  [Z.shiftr (v_words v).1 32; Z.land (v_words v).1 0xffffffff; Z.shiftr (v_words v).2 16; Z.land (v_words v).2 0xffff; proto;
   v_pkts v; v_bytes v].

(** A tuple whose lower bits are whatever they are. *)
Lemma rest_tuple (crc : Z -> Z -> Z) sip dip sp dp proto rest : fields_ok sip dip sp dp proto -> 0 <= rest < 2 ^ 24 ->
  let t := Tuple (word_0 sip dip) (word_1 sp dp proto) in
  let t' := Tuple (word_0 sip dip) (Z.lor (word_1 sp dp proto) rest) in
  tuple_ok t' /\ key_of crc t' = key_of crc t.
Proof.
  intros Hf Hrest t t'. pose proof (built_ok _ _ _ _ _ Hf) as [H0 H1].
  assert (word_1 sp dp proto = Z.shiftl (sp * 2 ^ 24 + dp * 2 ^ 8 + proto) 24) as E.
  { rewrite word_1_add by apply Hf. rewrite Z.shiftl_mul_pow2 by done. lia. }
  cbn [data_1] in H1. rewrite E, Z.shiftl_mul_pow2 in H1 by done.
  assert (data_1 t' = (sp * 2 ^ 24 + dp * 2 ^ 8 + proto) * 2 ^ 24 + rest) as E1.
  { unfold t'. cbn [data_1]. rewrite E. by apply lor_add. }
  assert (t_hi t' = t_hi t) as Ehi.
  { unfold t_hi. rewrite E1. unfold t. cbn [data_1]. rewrite E, Z.shiftl_mul_pow2, !Z.shiftr_div_pow2, Z.div_mul by done.
    rewrite Z.div_add_l, Z.div_small by done. lia. }
  split.
  - split; [exact H0|]. rewrite E1. lia.
  - by apply key_same_hi.
Qed.

Section thm.
Context {C P : Type} {channel : SsnSink C} {sink_ok : C -> Prop} {channel_laws : SsnSinkLaws C sink_ok}
  {pool : Fpa P} {blocks : list Z} {fpa_ok : P -> list Z -> Prop} {pool_laws : FpaLaws P blocks fpa_ok}.
Variables (crc : Z -> Z -> Z) (cpu_freq : Z) (hdr_stack : list Z) (fuel : nat).

#[local] Abbreviation tab := (table C P).
#[local] Abbreviation system := (sys (C := C) (P := P)).
#[local] Abbreviation sys_ok := (sys_ok (sink_ok := sink_ok) (blocks := blocks) (fpa_ok := fpa_ok) crc hdr_stack).
#[local] Abbreviation event_ok := (event_ok (P := P) (sink_ok := sink_ok)).
#[local] Abbreviation sys_do := (sys_do (C := C) (P := P) crc cpu_freq hdr_stack fuel).
#[local] Abbreviation abs := (abs (C := C) (P := P) crc).
Implicit Types (st : tab) (s : system).

Lemma count_if_same b c st : c <> stat_ssn_active_num ->
  ssn_mem (count_if b c st) = ssn_mem st /\ tim_results (count_if b c st) = tim_results st /\ tim_entries (count_if b c st) = tim_entries st /\
  tab_stats (count_if b c st) stat_ssn_active_num = tab_stats st stat_ssn_active_num.
Proof. intros Hc. destruct b; [|done]. split_and!; try done. simpl. by rewrite fn_lookup_insert_ne. Qed.

(** A run, with the answers and what its events are to the specification. *)
Inductive run : system -> list (event C * Z * label) -> system -> Prop :=
| run_nil s : run s [] s
| run_cons e rv s s1 l s2 : event_ok e s -> sys_do e s = Some (rv, s1) -> run s1 l s2 ->
    run s ((e, rv, label_of crc e s rv) :: l) s2.

Lemma run_app s1 l1 s2 l2 s3 : run s1 l1 s2 -> run s2 l2 s3 -> run s1 (l1 ++ l2) s3.
Proof. induction 1 as [|e rv s s1 l s2 He E _ IH]; intros Hrun; simpl; [done|]. econstructor; [done..|by apply IH]. Qed.

(** The table after start-up. *)
Record cold st : Prop := Cold {
  d_fpa : fpa_ok (ssn_fpa st) blocks; d_blocks : NoDup blocks; d_tim : tim_entries st = [];
  d_active : tab_stats st stat_ssn_active_num = 0; d_age : FRCORE_SSN_AGE_MIN <= frcore_ssn_age st <= FRCORE_SSN_AGE_MAX;
  d_sink : sink_ok (sink (out st)) }.

Lemma start_ok st : cold st -> sys_ok (Sys (mc_init_data st) []) 0.
Proof.
  intros [Hf Hd Et Ea Hage Hs]. exists (fun _ => []), blocks. simpl.
  assert (forall i p, in_range i -> p ∉ members (mc_init_data st) (fun _ => []) i) as Hnone.
  { intros i p [H1 H2]. unfold members, mc_init_data. cbn [ssn_mem set_mem]. rewrite (proj2 (Z.leb_le 0 i)), (proj2 (Z.ltb_lt i _)) by done.
    simpl. apply not_elem_of_nil. }
  split; simpl; try done.
  - intros i [H1 H2]. unfold next_of, mc_init_data. cbn [ssn_mem set_mem]. rewrite (proj2 (Z.leb_le 0 i)), (proj2 (Z.ltb_lt i _)) by done. done.
  - intros i. split; [constructor|]. split; [by intros a ?%elem_of_nil|]. by intros a ?%elem_of_nil.
  - intros i j a ?%elem_of_nil. done.
  - intros i p Hr Hp. by destruct (Hnone i p Hr).
  - intros i p Hr Hp. by destruct (Hnone i p Hr).
  - intros i p q Hr Hp. by destruct (Hnone i p Hr).
  - rewrite Et. constructor.
  - intros p. rewrite Et. split; [by intros ?%elem_of_nil|]. intros (i & Hr & Hp). by destruct (Hnone i p Hr).
  - intros p. rewrite Et, !elem_of_nil. by intros [].
  - by rewrite Et, Ea.
  - rewrite Ea. unfold SSN_TOTAL_NUM. lia.
Qed.

Hypothesis Hstack : length hdr_stack = 16%nat.
Hypothesis Hfuel : (length blocks + 1 < fuel)%nat.

Lemma run_ok s l s' lost : run s l s' -> sys_ok s lost -> exists lost', sys_ok s' lost' /\ lost <= lost'.
Proof using Hfuel Hstack channel_laws pool_laws.
  intros Hrun. revert lost. induction Hrun as [s|e rv s s1 l s2 He E _ IH]; intros lost Hs; [by exists lost|].
  destruct (event_post_ok crc cpu_freq hdr_stack fuel Hstack Hfuel e s lost Hs He) as (rv' & s1' & lost1 & E' & Hs1 & Hle & _).
  rewrite E in E'. injection E' as <- <-. destruct (IH lost1 Hs1) as (lost' & ? & ?). exists lost'. split; [done|lia].
Qed.

Lemma run_step e rv s s1 lost : event_ok e s -> sys_do e s = Some (rv, s1) -> sys_ok s lost ->
  exists lost1, sys_ok s1 lost1 /\ spec_step (abs s) (label_of crc e s rv) (abs s1) /\
    account s1 = account s ⊎ given e rv /\ qents s1 = qents s.
Proof using Hfuel Hstack channel_laws pool_laws.
  intros He E Hs. destruct (event_post_ok crc cpu_freq hdr_stack fuel Hstack Hfuel e s lost Hs He) as
    (rv' & s1' & lost1 & E' & Hs1 & _ & _ & H1 & H2 & H3).
  rewrite E in E'. injection E' as <- <-. by exists lost1.
Qed.

(** The sessions of a state. *)
Definition sessions s : list ssn_ptr := tim_entries (tabl s) ++ (busy s).*1.

Lemma ok_facts s lost : sys_ok s lost ->
  NoDup ((fun p => key_of crc (s_key (ssn_mem (tabl s) p))) <$> sessions s) /\
  tab_stats (tabl s) stat_ssn_active_num = Z.of_nat (length (sessions s)) + lost /\ 0 <= lost /\
  tab_stats (tabl s) stat_ssn_active_num <= SSN_TOTAL_NUM.
Proof using Hfuel Hstack.
  destruct s as [st b]. intros (chains & free & Hi). simpl in Hi. split; [|split; [apply Hi|apply Hi]].
  assert (forall p q, p ∈ sessions (Sys st b) -> q ∈ sessions (Sys st b) ->
    key_of crc (s_key (ssn_mem st p)) = key_of crc (s_key (ssn_mem st q)) -> p = q) as Hk
    by (intros p q; apply (key_inj crc hdr_stack _ _ _ _ _ _ _ Hi)).
  pose proof (inv_timers _ _ _ _ _ _ _ Hi) as Hd. change (NoDup (sessions (Sys st b))) in Hd. revert Hd Hk.
  generalize (sessions (Sys st b)). cbn [tabl]. induction l as [|p l IH]; intros Hd Hk; [constructor|].
  apply NoDup_cons in Hd as [Hp Hd]. rewrite fmap_cons. apply NoDup_cons. split.
  - intros (q & E & Hq)%list_elem_of_fmap. apply Hp. rewrite (Hk p q); [done|apply list_elem_of_here|by apply list_elem_of_further|done].
  - apply IH; [done|]. intros x y Hx Hy. apply Hk; by apply list_elem_of_further.
Qed.
Lemma run_refines s l s' lost : run s l s' -> sys_ok s lost -> spec_run (abs s) (l.*2) (abs s').
Proof using Hfuel Hstack channel_laws pool_laws.
  intros Hrun. revert lost. induction Hrun as [s|e rv s s1 l s2 He E _ IH]; intros lost Hs; [constructor|].
  destruct (run_step e rv s s1 lost He E Hs) as (lost1 & Hs1 & Hst & _). econstructor; [exact Hst|]. by eapply IH.
Qed.

(** The packets handed over in a run. *)
Definition handed (l : list (event C * Z * label)) : gmultiset Z := foldr (fun x m => given x.1.1 x.1.2 ⊎ m) ∅ l.

Lemma run_accounts s l s' lost : run s l s' -> sys_ok s lost -> account s' = account s ⊎ handed l /\ qents s' = qents s.
Proof using Hfuel Hstack channel_laws pool_laws.
  intros Hrun. revert lost. induction Hrun as [s|e rv s s1 l s2 He E _ IH]; intros lost Hs; [split; [by apply no_packet|done]|].
  destruct (run_step e rv s s1 lost He E Hs) as (lost1 & Hs1 & _ & Ha & Hq). destruct (IH lost1 Hs1) as [Ea Eq]. simpl.
  split; [rewrite Ea, Ha; mset|congruence].
Qed.

Lemma ok_lively s lost k : sys_ok s lost -> lively k (abs s).
Proof using Hfuel Hstack.
  destruct s as [st b]. intros (chains & free & Hi) v (p & ph & Hp & _ & <-)%(flows_lookup crc hdr_stack _ _ _ _ _ _ _ Hi).
  apply elem_of_phases in Hp. simpl. destruct ph as [[]|]; [by left|right|right]; apply (inv_ttl _ _ _ _ _ _ _ Hi); auto.
Qed.

Lemma ok_pending s lost k v : sys_ok s lost -> flows (abs s) !! k = Some v ->
  exists e, event_ok e s /\ forall rv, is_own k (label_of crc e s rv) = true.
Proof using Hfuel Hstack.
  destruct s as [st b]. intros (chains & free & Hi) (p & ph & Hp & <- & _)%(flows_lookup crc hdr_stack _ _ _ _ _ _ _ Hi).
  apply elem_of_phases in Hp. destruct ph as [x|].
  - exists (Finish p x). split; [done|]. intros rv. by apply bool_decide_eq_true.
  - exists (Fire p). split; [done|]. intros rv. by apply bool_decide_eq_true.
Qed.

(** C11: The session table is safe.  Whatever packets with whole headers and no more than 1600
    bytes of payload arrive, timers fire, sessions are worked on
    by several cores, parameters change, the channel and the timer unit answer: after
    start-up every event that can happen is handled without undefined behaviour, the
    chains and the pool of blocks fit together, every session is linked at the entry of its
    hash and has one timer, no flow has two sessions - both directions of a connection between two
    addresses are one flow, those of an address with itself when their tuples share an entry -,
    and the count of sessions is never
    below their number and never above the limit. *)
Theorem ssn_table_safe st l s :
  cold st -> run (Sys (mc_init_data st) []) l s ->
  (forall e, event_ok e s -> exists rv s', sys_do e s = Some (rv, s')) /\
  exists lost, sys_ok s lost /\
    NoDup ((fun p => key_of crc (s_key (ssn_mem (tabl s) p))) <$> sessions s) /\
    tab_stats (tabl s) stat_ssn_active_num = Z.of_nat (length (sessions s)) + lost /\ 0 <= lost /\
    tab_stats (tabl s) stat_ssn_active_num <= SSN_TOTAL_NUM.
Proof using Hfuel Hstack channel_laws pool_laws.
  intros Hc Hrun. destruct (run_ok _ _ _ 0 Hrun (start_ok st Hc)) as (lost & Hs & _). split.
  - intros e He. destruct (event_post_ok crc cpu_freq hdr_stack fuel Hstack Hfuel e s lost Hs He) as (rv & s' & _ & E & _).
    by exists rv, s'.
  - exists lost. split; [done|]. by apply ok_facts.
Qed.

(** C6: The session table implements a finite map from flows to sessions; a flow is the unordered
    pair of the ends and the protocol, and of a connection of an address with itself each direction
    whose tuple has an entry of its own ([key_of]).  It starts empty and
    every event is a step of the specification: a packet of a flow (whole headers, no more than 1600
    bytes of payload) goes through flow
    recovery on the session of that flow, found by either direction's tuple, or on a new
    one, and is dropped only if it is malformed or its flow has no session; a timer counts
    the session down, and an expired session, and no other, is flushed and removed. *)
Theorem ssn_table_refines st l s :
  cold st -> run (Sys (mc_init_data st) []) l s ->
  flows (abs (Sys (mc_init_data st) [])) = ∅ /\
  spec_run (abs (Sys (mc_init_data st) [])) (l.*2) (abs s).
Proof using Hfuel Hstack channel_laws pool_laws.
  intros Hc Hrun. split; [|by eapply run_refines, start_ok].
  unfold SsnSys.abs. cbn [flows tabl]. change (tim_entries (mc_init_data st)) with (tim_entries st). by rewrite (d_tim _ Hc).
Qed.

(** C12: No packet and no queue entry is lost or used twice, whatever fails.  The packets the
    table took over are, each once, queued or sent by a session, sent by a session that is
    gone, or freed; free and used queue entries remain the same number. *)
Theorem ssn_conservation st l s :
  cold st -> wqe_freed (out st) = [] -> closed st = [] -> run (Sys (mc_init_data st) []) l s ->
  account s = handed l /\ qents s = qent_free st.
Proof using Hfuel Hstack channel_laws pool_laws.
  intros Hc Hf Hcl Hrun. destruct (run_accounts _ _ _ 0 Hrun (start_ok st Hc)) as [-> ->]. unfold account, qents. simpl.
  rewrite (d_tim _ Hc), Hf, Hcl. simpl. split; [mset|lia].
Qed.

(** C13: A session does not outlive its traffic.  While no packet of its flow arrives, the
    session can see at most two events, a timer and the work after it, for each unit of its
    time to live and one more; once it has seen that many it is gone; and as long as it
    exists its timer is pending or a core is about to finish its work. *)
Theorem ssn_expires st l0 s k v l s' :
  cold st -> run (Sys (mc_init_data st) []) l0 s -> flows (abs s) !! k = Some v -> v_phase v = None ->
  run s l s' -> Forall (fun x => is_seen k x = false) (l.*2) ->
  own k (l.*2) <= 2 * v_ttl v + 2 /\
  (own k (l.*2) = 2 * v_ttl v + 2 -> flows (abs s') !! k = None) /\
  (flows (abs s') !! k = None \/
   exists e, event_ok e s' /\ forall rv, is_own k (label_of crc e s' rv) = true).
Proof using Hfuel Hstack channel_laws pool_laws.
  intros Hc Hrun0 Hv Hph Hrun Hseen. destruct (run_ok _ _ _ 0 Hrun0 (start_ok st Hc)) as (lost & Hs & _).
  destruct (run_ok _ _ _ lost Hrun Hs) as (lost' & Hs' & _).
  pose proof (run_refines _ _ _ lost Hrun Hs) as Hspec.
  destruct (spec_run_remaining k _ _ _ Hspec (ok_lively _ _ k Hs) Hseen) as [Hl Hr].
  unfold remaining at 3 in Hr. rewrite Hv, Hph in Hr. split; [lia|]. split.
  - intros E. apply remaining_gone; [done|lia].
  - destruct (flows (abs s') !! k) as [v'|] eqn:E; [right|by left]. by eapply ok_pending.
Qed.
(** ** Queries *)

Lemma lookup_good_spec s lost sip dip sp dp proto rest : sys_ok s lost -> fields_ok sip dip sp dp proto -> 0 <= rest < 2 ^ 24 ->
  let k := key_of crc (Tuple (word_0 sip dip) (word_1 sp dp proto)) in
  exists o, lookup_good crc fuel sip dip sp dp proto rest (tabl s) = Some o /\
    match o with
    | Some p => exists ph, flows (abs s) !! k = Some (session_of (ssn_mem (tabl s) p) ph) /\
        key_of crc (s_key (ssn_mem (tabl s) p)) = k
    | None => flows (abs s) !! k = None
    end.
Proof using Hfuel Hstack.
  destruct s as [st b]. intros (chains & free & Hi) Hf Hrest k. cbn [tabl busy] in *. unfold lookup_good.
  destruct (rest_tuple crc _ _ _ _ _ _ Hf Hrest) as [Htok Hkey]. fold k in Hkey. set (t := Tuple _ (Z.lor _ _)) in *.
  pose proof (hash_range crc (ssn_sort_tuple t)) as Hr.
  destruct (ssn_lookup_spec crc hdr_stack fuel Hstack Hfuel st chains free b lost _ (ssn_sort_tuple t) Hi Hr (sort_ok _ Htok)) as (r & Er & Hlook).
  rewrite Er. cbn [mbind option_bind]. rewrite sort_canon in Hlook by done. destruct r as [p|].
  - destruct Hlook as [Hp Hc]. rewrite (st_good _ _ _ (inv_static _ _ _ _ _ _ _ Hi _ _ Hr Hp)). exists (Some p). split; [done|].
    destruct (member_key crc hdr_stack _ _ _ _ _ _ _ _ Hi Hr Hp Htok Hc eq_refl) as [Hpa Hk]. rewrite Hkey in Hk.
    destruct (phase_of _ _ _ Hpa) as [ph Hph]. exists ph. split; [|done]. rewrite <- Hk. by eapply (flows_some crc hdr_stack).
  - exists None. split; [done|]. rewrite <- Hkey. by eapply (flows_none crc hdr_stack).
Qed.

Lemma stat_of_session e ph : ssn_stat_of e = stat_of (t_proto (s_key e)) (session_of e ph).
Proof.
  unfold ssn_stat_of, stat_of, session_of, words_of. cbn [v_words v_pkts v_bytes fst snd].
  by repeat f_equal.
Qed.

(** Queries answer from the map.  In every reachable state a query for a tuple answers the
    addresses, ports and counts of the session of its flow, or that there is none; when the
    addresses differ, the tuple of the other direction gets the same answer. *)
Theorem ssn_query_answers st l s sip dip sp dp proto rest rest' :
  cold st -> run (Sys (mc_init_data st) []) l s ->
  fields_ok sip dip sp dp proto -> 0 <= rest < 2 ^ 24 -> 0 <= rest' < 2 ^ 24 ->
  let k := key_of crc (Tuple (word_0 sip dip) (word_1 sp dp proto)) in
  let answer := match flows (abs s) !! k with Some v => (FRE_SUCCESS, stat_of proto v) | None => (FRE_NOTFOUND, []) end in
  frcore_get_ssn_by_tuple crc fuel sip dip sp dp proto rest (tabl s) = Some answer /\
  frcore_match_ssn_by_tuple crc fuel sip dip sp dp proto rest (tabl s) = Some answer.1 /\
  (sip <> dip -> frcore_get_ssn_by_tuple crc fuel dip sip dp sp proto rest' (tabl s) = Some answer).
Proof using Hfuel Hstack channel_laws pool_laws.
  intros Hc Hrun Hf Hrest Hrest' k answer. destruct (run_ok _ _ _ 0 Hrun (start_ok st Hc)) as (lost & Hs & _).
  assert (forall sip' dip' sp' dp' r, fields_ok sip' dip' sp' dp' proto -> 0 <= r < 2 ^ 24 ->
    key_of crc (Tuple (word_0 sip' dip') (word_1 sp' dp' proto)) = k ->
    frcore_get_ssn_by_tuple crc fuel sip' dip' sp' dp' proto r (tabl s) = Some answer /\
    frcore_match_ssn_by_tuple crc fuel sip' dip' sp' dp' proto r (tabl s) = Some answer.1) as Hall.
  { intros sip' dip' sp' dp' r Hf' Hr Ek. destruct (lookup_good_spec s lost sip' dip' sp' dp' proto r Hs Hf' Hr) as (o & Eo & Ho).
    rewrite Ek in Ho. unfold frcore_get_ssn_by_tuple, frcore_match_ssn_by_tuple, answer. rewrite Eo. cbn [mbind option_bind].
    destruct o as [p|]; [|by rewrite Ho]. destruct Ho as (ph & -> & Ekp). split; [|done]. do 3 f_equal.
    rewrite (stat_of_session _ ph). f_equal. rewrite (key_proto crc _ _ Ekp).
    by apply built_fields. }
  destruct (Hall sip dip sp dp rest Hf Hrest eq_refl) as [H1 H2]. split; [done|]. split; [done|]. intros Hne.
  pose proof (built_fields _ _ _ _ _ Hf) as (E1 & E2 & E3 & E4 & E5). set (t := Tuple _ _) in *.
  apply Hall; [destruct Hf; by split|done|]. transitivity (key_of crc (reverse_tuple t)).
  - unfold reverse_tuple. by rewrite E1, E2, E3, E4, E5.
  - pose proof (built_ok _ _ _ _ _ Hf) as Ht. apply key_iff; [by apply reverse_ok|done|].
    rewrite reverse_canon, sort_reverse by (done || congruence). done.
Qed.

(** ** A timer that cannot be armed *)

Lemma prepare_timer_failure st i t flags seq ack : in_range i ->
  has_flag flags TH_FIN = false -> has_flag flags TH_RST = false -> has_status (ssn_mem st (slot i)) SSN_STATUS_EMPTY = true ->
  0 <= tab_stats st stat_ssn_active_num < SSN_TOTAL_NUM -> hd 0 (tim_results st) <> 0 ->
  exists st', ssn_prepare fuel i t MPP_SSN_HASH_MASK_DATA64 flags seq ack st = Some (None, st') /\
    tim_entries st' = tim_entries st /\ tab_stats st' stat_ssn_active_num = tab_stats st stat_ssn_active_num + 1.
Proof using Hfuel Hstack.
  intros Hr Hfin Hrst He Hact Ht. unfold ssn_prepare. rewrite Hfin, Hrst. cbn [orb].
  rewrite (proj2 (Z.leb_gt _ _)), slot_in_range by (done || lia). cbn [mbind option_bind].
  unfold prepare_entry. change (ssn_mem (stat_add _ _ st)) with (ssn_mem st). rewrite He. cbn iota. unfold ssn_add_timer.
  cbn [tim_results upd set_mem stat_add]. destruct (tim_results st) as [|r l] eqn:El; [done|]. simpl hd in Ht.
  rewrite (proj2 (Z.eqb_neq r 0) Ht). cbn iota. simpl Z.ltb. cbn iota. unfold ssn_purge_ssn_nolock.
  set (st1 := stat_inc stat_ssn_tim_failed _).
  assert (s_index (ssn_mem st1 (slot i)) = i) as ->.
  { unfold st1. cbn [stat_inc stat_add set_tim ssn_mem]. by rewrite upd_same. }
  rewrite slot_in_range by done. cbn [mbind option_bind]. rewrite decide_True by done. cbn [mbind option_bind].
  eexists. split; [done|]. split; [done|]. simpl. rewrite fn_lookup_insert_ne, fn_lookup_insert by done.
  apply wraps_count. lia.
Qed.

(** A timer that cannot be armed leaks a place.  When the timer unit refuses a new session, the
    packet is dropped and no session is created, but the count of active sessions has grown
    by one and nothing ever takes it back; at the limit the table accepts no flow. *)
Theorem ssn_timer_failure_leaks st b lost w h smac dmac :
  sys_ok (Sys st b) lost -> packet_ok w h -> malformed h = false ->
  has_flag (th_flags h) TH_FIN = false -> has_flag (th_flags h) TH_RST = false ->
  let e := ssn_mem st (slot (ssn_hash_by_tuple crc (ssn_sort_tuple (th_tuple h)) SSN_HASH_BUCKET_SIZE_MASK)) in
  has_status e SSN_STATUS_EMPTY = true -> next_sc e = None ->
  tab_stats st stat_ssn_active_num < SSN_TOTAL_NUM -> hd 0 (tim_results st) <> 0 ->
  exists st', frcore_tcp_process crc cpu_freq hdr_stack fuel w smac dmac st = Some (FRCORE_ACT_DROP, st') /\
    tim_entries st' = tim_entries st /\ tab_stats st' stat_ssn_active_num = tab_stats st stat_ssn_active_num + 1 /\
    forall l s, run (Sys st' b) l s ->
      Z.of_nat (length (sessions s)) + lost + 1 <= tab_stats (tabl s) stat_ssn_active_num.
Proof using Hfuel Hstack channel_laws pool_laws.
  intros Hs Hw Hmal Hfin Hrst e He Hnext Hact Ht. destruct (ok_facts _ _ Hs) as (_ & Eact & Hl0 & _). cbn [tabl] in Eact.
  assert (exists st', frcore_tcp_process crc cpu_freq hdr_stack fuel w smac dmac st = Some (FRCORE_ACT_DROP, st') /\
    tim_entries st' = tim_entries st /\ tab_stats st' stat_ssn_active_num = tab_stats st stat_ssn_active_num + 1) as (st' & E & Et & Ea).
  { unfold frcore_tcp_process. rewrite (p_parse _ _ Hw). cbn [mbind option_bind]. unfold malformed in Hmal.
    apply orb_false_iff in Hmal as [-> ->]. unfold find_or_prepare. set (st0 := count_if _ _ (count_if _ _ st)).
    destruct (count_if_same (20 <? 4 * th_doff h) stat_tcp_option st) as (M1 & R1 & T1 & A1); [done|].
    destruct (count_if_same (tcp_payload h =? 0) stat_tcp_payload_zero (count_if (20 <? 4 * th_doff h) stat_tcp_option st)) as
      (M2 & R2 & T2 & A2); [done|].
    pose proof (hash_range crc (ssn_sort_tuple (th_tuple h))) as Hr. fold st0 in M2, R2, T2, A2. rewrite M1 in M2. rewrite R1 in R2.
    rewrite T1 in T2. rewrite A1 in A2. unfold ssn_lookup_by_tuple. rewrite slot_in_range by done. cbn [mbind option_bind].
    rewrite M2. fold e. rewrite He, Hnext. cbn [negb andb].
    assert (search_chain fuel None (ssn_sort_tuple (th_tuple h)) MPP_SSN_HASH_MASK_SNIFFER st0 = Some None) as ->
      by (destruct fuel; [lia|done]).
    cbn [mbind option_bind].
    destruct (prepare_timer_failure st0 _ (th_tuple h) (th_flags h) (th_seq h) (th_ack_seq h) Hr Hfin Hrst) as (st1 & E1 & Et1 & Ea1).
    { by rewrite M2. }
    { rewrite A2. lia. }
    { by rewrite R2. }
    rewrite E1. cbn [mbind option_bind]. eexists. split; [done|]. split; [by rewrite <- T2, <- Et1|].
    simpl. by rewrite fn_lookup_insert_ne, Ea1, A2. }
  exists st'. split; [done|]. split; [done|]. split; [done|]. intros l s Hrun.
  assert (event_ok (Packet w smac dmac) (Sys st b)) as Hev by (by exists h).
  assert (sys_do (Packet w smac dmac) (Sys st b) = Some (FRCORE_ACT_DROP, Sys st' b)) as Edo.
  { unfold SsnSys.sys_do. cbn [tabl busy]. by rewrite E. }
  destruct (run_step _ _ _ _ _ Hev Edo Hs) as (lost1 & Hs1 & _). destruct (ok_facts _ _ Hs1) as (_ & Eact1 & _).
  destruct (run_ok _ _ _ _ Hrun Hs1) as (lost2 & Hs2 & Hle). destruct (ok_facts _ _ Hs2) as (_ & Eact2 & _).
  unfold sessions in *. cbn [tabl busy] in *. rewrite Et in Eact1. lia.
Qed.
End thm.

(** ** A small table *)

#[export] Instance list_fpa : Fpa (list Z) := {
  cvmx_fpa_alloc l := match l with [] => None | a :: l => Some (a, l) end;
  cvmx_fpa_free a l := a :: l;
  cvmx_fpa_is_member a := 0 <? a }.

Definition demo_blocks : list Z := [101; 102; 103].

#[export] Instance list_fpa_laws : FpaLaws (list Z) demo_blocks eq.
Proof.
  split.
  - intros [|a p] l <-; simpl; [done|]. by exists p.
  - by intros p l a <- _ _.
  - intros a Ha. simpl. unfold demo_blocks in Ha. rewrite !elem_of_cons, elem_of_nil in Ha.
    by destruct Ha as [->|[->|[->|[]]]].
Qed.

Definition demo_stack : list Z := replicate 16 0.
Definition demo_crc (a b : Z) : Z := a + b.
Definition demo_entry : mpp_ssn :=
  MppSsn (SsnWqe 0 0 0 0 0) (Tuple 0 0) 0 0 0 0 (SsnAddr 0 0 0 0 0 0 0) 0 0 None 0 0 0 0 0 0 (Flow 0 [] 0 0 false) (Flow 0 [] 0 0 false).
Definition demo_cold (answers : list Z) : table list_sink (list Z) :=
  Table (fun _ => demo_entry) demo_blocks [] answers 2 5 1000 (Pack (SsnAddr 0 0 0 0 0 0 0) 0 0 [] (ListSink [8192; 16384] []) [] [] (fun _ => 0))
    (fun _ => []) [] (fun _ => 0) (fun _ => 0).

Lemma demo_cold_ok answers : cold (sink_ok := list_sink_ok) (blocks := demo_blocks) (fpa_ok := eq) (demo_cold answers).
Proof.
  split; try done.
  - by apply (bool_decide_eq_true_1 (NoDup demo_blocks)).
  - repeat constructor; vm_compute; discriminate.
Qed.

(** A packet of TCP: addresses, ports, sequence number, flags, payload. *)
Definition demo_bytes (sip dip sp dp sequence flags : Z) (payload : list Z) : list Z :=
  [0x45; 0] ++ be_bytes 2 (40 + Z.of_nat (length payload)) ++ [0; 0; 0; 0; 64; 6; 0; 0] ++ be_bytes 4 sip ++ be_bytes 4 dip ++
  be_bytes 2 sp ++ be_bytes 2 dp ++ be_bytes 4 sequence ++ be_bytes 4 0 ++ [0x50; flags; 0; 0; 0; 0; 0; 0] ++ payload.
Definition demo_packet (name sip dip sp dp sequence flags : Z) (payload : list Z) : tcp_work :=
  TcpWork name (54 + Z.of_nat (length payload)) (demo_bytes sip dip sp dp sequence flags payload).

(** What [packet_ok] asks, as a test. *)
Definition packet_test (w : tcp_work) : bool :=
  match parse_tcp (w_ip w) with
  | None => false
  | Some h =>
    (0 <=? data_0 (th_tuple h)) && (data_0 (th_tuple h) <? 2 ^ 64) && (0 <=? data_1 (th_tuple h)) && (data_1 (th_tuple h) <? 2 ^ 64) &&
    (0 <=? tcp_headers h) && (th_tot_len h <=? Z.of_nat (length (w_ip w))) && (tcp_payload h <=? FRC_PAYLOAD_LEN_MAX)
  end.

Lemma packet_test_ok w : packet_test w = true -> exists h, packet_ok w h.
Proof.
  unfold packet_test. destruct (parse_tcp (w_ip w)) as [h|] eqn:E; [|done]. rewrite !andb_true_iff, !Z.leb_le, !Z.ltb_lt.
  intros ((((((? & ?) & ?) & ?) & ?) & ?) & ?). exists h. by split; [|split| |].
Qed.

#[local] Abbreviation demo_do := (sys_do demo_crc 1000 demo_stack 10).
#[local] Abbreviation demo_run :=
  (run (sink_ok := list_sink_ok) (C := list_sink) (P := list Z) demo_crc 1000 demo_stack 10).
#[local] Abbreviation demo_sys := (sys (C := list_sink) (P := list Z)).

Definition demo_next (e : event list_sink) (s : demo_sys) : demo_sys :=
  match demo_do e s with Some (_, s') => s' | None => s end.
(** Running a list of events, and testing that each can happen and is defined. *)
Fixpoint trace (es : list (event list_sink)) (s : demo_sys) : list (event list_sink * Z * label) * demo_sys :=
  match es with
  | [] => ([], s)
  | e :: es =>
    let rv := match demo_do e s with Some (rv, _) => rv | None => 0 end in
    let x := trace es (demo_next e s) in ((e, rv, label_of demo_crc e s rv) :: x.1, x.2)
  end.

Definition event_test (e : event list_sink) (s : demo_sys) : bool :=
  match e with
  | Packet w _ _ => packet_test w
  | Fire p => bool_decide (p ∈ tim_entries (tabl s))
  | Finish p expired => bool_decide ((p, expired) ∈ busy s)
  | SetAge param | SetDepth param => bool_decide (param <> [])
  | Env c _ _ => forallb (fun b => (0 <=? b) && (b + FRC_DMA_SSN_BLOCK_SIZE <=? 2 ^ 64)) (free c)
  end.

Fixpoint trace_test (es : list (event list_sink)) (s : demo_sys) : bool :=
  match es with
  | [] => true
  | e :: es => event_test e s && (if demo_do e s is Some _ then true else false) && trace_test es (demo_next e s)
  end.

Lemma event_test_ok e s : event_test e s = true -> event_ok (sink_ok := list_sink_ok) e s.
Proof.
  destruct e; simpl; try apply bool_decide_eq_true_1; [apply packet_test_ok|]. unfold list_sink_ok. intros H.
  apply Forall_forall. intros b Hb. apply (proj1 (forallb_forall _ _)) with (x := b) in H; [|by apply list_elem_of_In].
  apply andb_true_iff in H as [H1 H2]. by rewrite Z.leb_le in H1, H2.
Qed.

Lemma trace_run es s : trace_test es s = true -> demo_run s (trace es s).1 (trace es s).2.
Proof.
  revert s. induction es as [|e es IH]; intros s H; simpl; [constructor|].
  simpl in H. apply andb_true_iff in H as [H H2]. apply andb_true_iff in H as [H0 H1].
  econstructor; [by apply event_test_ok| |by apply IH].
  unfold demo_next. destruct (demo_do e s) as [[rv s']|]; done.
Qed.

(** A session is created, sees a packet of the other direction, and expires. *)
Definition demo_w1 : tcp_work := demo_packet 1 0x0a000001 0x0a000002 1234 80 5000 TH_SYN [].
Definition demo_w2 : tcp_work := demo_packet 2 0x0a000002 0x0a000001 80 1234 7000 (Z.lor TH_SYN 0x10) [].
Definition demo_w3 : tcp_work := demo_packet 3 0x0a000001 0x0a000002 1234 80 5001 0x18 [104; 105].
Definition demo_key : flow_key := key_of demo_crc (Tuple (word_0 0x0a000001 0x0a000002) (word_1 1234 80 6)).
Definition demo_ptr : ssn_ptr := slot (ssn_hash_by_tuple demo_crc (ssn_sort_tuple (Tuple (word_0 0x0a000001 0x0a000002) (word_1 1234 80 6))) SSN_HASH_BUCKET_SIZE_MASK).
Definition demo_0 : demo_sys := Sys (mc_init_data (demo_cold [])) [].
Definition demo_packets : list (event list_sink) := [Packet demo_w1 1 2; Packet demo_w2 2 1; Packet demo_w3 1 2].
Definition demo_3 : demo_sys := (trace demo_packets demo_0).2.
Definition demo_timers : list (event list_sink) :=
  [Fire demo_ptr; Finish demo_ptr false; Env (ListSink [] []) [7] []; Fire demo_ptr; Finish demo_ptr true].

#[local] Ltac run_trace := apply trace_run; vm_compute; reflexivity.

(** From start-up through the packets, and on through the timers. *)
Definition demo_l0 := (trace demo_packets demo_0).1.
Definition demo_l := (trace demo_timers demo_3).1.
Definition demo_5 : demo_sys := (trace demo_timers demo_3).2.
Definition demo_all := demo_l0 ++ demo_l.

Lemma demo_l0_run : demo_run demo_0 demo_l0 demo_3.
Proof. run_trace. Qed.
Lemma demo_l_run : demo_run demo_3 demo_l demo_5.
Proof. run_trace. Qed.
Lemma demo_all_run : demo_run demo_0 demo_all demo_5.
Proof. eapply run_app; [apply demo_l0_run|apply demo_l_run]. Qed.

Lemma none_seen k ls : forallb (fun x => negb (is_seen k x)) ls = true -> Forall (fun x => is_seen k x = false) ls.
Proof. induction ls as [|x ls IH]; simpl; [done|]. rewrite andb_true_iff, negb_true_iff. intros [? ?]. constructor; auto. Qed.

Lemma demo_fuel : (length demo_blocks + 1 < 10)%nat.
Proof. simpl. lia. Qed.

Lemma ssn_table_safe_witness :
  (forall e, event_ok (sink_ok := list_sink_ok) e demo_5 -> exists rv s', demo_do e demo_5 = Some (rv, s')) /\
  exists lost, sys_ok (sink_ok := list_sink_ok) (blocks := demo_blocks) (fpa_ok := eq) demo_crc demo_stack demo_5 lost /\
    NoDup ((fun p => key_of demo_crc (s_key (ssn_mem (tabl demo_5) p))) <$> sessions demo_5) /\
    tab_stats (tabl demo_5) stat_ssn_active_num = Z.of_nat (length (sessions demo_5)) + lost /\ 0 <= lost /\
    tab_stats (tabl demo_5) stat_ssn_active_num <= SSN_TOTAL_NUM.
Proof.
  apply (ssn_table_safe demo_crc 1000 demo_stack 10 eq_refl demo_fuel (demo_cold []) demo_all); [apply demo_cold_ok|apply demo_all_run].
Defined.

Lemma ssn_table_refines_witness :
  flows (abs demo_crc demo_0) = ∅ /\ spec_run (abs demo_crc demo_0) (demo_all.*2) (abs demo_crc demo_5).
Proof.
  apply (ssn_table_refines demo_crc 1000 demo_stack 10 eq_refl demo_fuel (demo_cold []) demo_all); [apply demo_cold_ok|apply demo_all_run].
Defined.

Lemma ssn_conservation_witness :
  account demo_3 = handed demo_l0 /\ qents demo_3 = 1000 /\ handed demo_l0 = {[+ 1; 2; 3 +]}.
Proof.
  destruct (ssn_conservation demo_crc 1000 demo_stack 10 eq_refl demo_fuel (demo_cold []) demo_l0 demo_3) as [H1 H2];
    [apply demo_cold_ok|done|done|apply demo_l0_run|]. split; [exact H1|]. split; [exact H2|]. vm_compute. reflexivity.
Defined.

Lemma ssn_expires_witness :
  exists v, flows (abs demo_crc demo_3) !! demo_key = Some v /\ own demo_key (demo_l.*2) = 2 * v_ttl v + 2 /\
    flows (abs demo_crc demo_5) !! demo_key = None.
Proof.
  destruct (flows (abs demo_crc demo_3) !! demo_key) as [v|] eqn:Ev; [|vm_compute in Ev; discriminate]. exists v. split; [done|].
  destruct (ssn_expires demo_crc 1000 demo_stack 10 eq_refl demo_fuel (demo_cold []) demo_l0 demo_3 demo_key v demo_l demo_5) as (_ & H1 & _).
  - apply demo_cold_ok.
  - apply demo_l0_run.
  - exact Ev.
  - vm_compute in Ev. injection Ev as <-. reflexivity.
  - apply demo_l_run.
  - apply none_seen. vm_compute. reflexivity.
  - assert (own demo_key (demo_l.*2) = 2 * v_ttl v + 2) as E by (vm_compute in Ev; injection Ev as <-; vm_compute; reflexivity).
    split; [exact E|by apply H1].
Defined.

Lemma ssn_query_answers_witness :
  let answer := match flows (abs demo_crc demo_3) !! demo_key with Some v => (FRE_SUCCESS, stat_of 6 v) | None => (FRE_NOTFOUND, []) end in
  frcore_get_ssn_by_tuple demo_crc 10 0x0a000001 0x0a000002 1234 80 6 77 (tabl demo_3) = Some answer /\
  frcore_match_ssn_by_tuple demo_crc 10 0x0a000001 0x0a000002 1234 80 6 77 (tabl demo_3) = Some answer.1 /\
  (0x0a000001 <> 0x0a000002 ->
    frcore_get_ssn_by_tuple demo_crc 10 0x0a000002 0x0a000001 80 1234 6 99 (tabl demo_3) = Some answer).
Proof.
  apply (ssn_query_answers demo_crc 1000 demo_stack 10 eq_refl demo_fuel (demo_cold []) demo_l0 demo_3);
    [apply demo_cold_ok|apply demo_l0_run|split; lia|lia|lia].
Defined.

Lemma ssn_timer_failure_leaks_witness :
  exists st', frcore_tcp_process demo_crc 1000 demo_stack 10 demo_w1 1 2 (mc_init_data (demo_cold [5])) = Some (FRCORE_ACT_DROP, st') /\
    tim_entries st' = [] /\ tab_stats st' stat_ssn_active_num = 1 /\
    forall l s, demo_run (Sys st' []) l s -> Z.of_nat (length (sessions s)) + 0 + 1 <= tab_stats (tabl s) stat_ssn_active_num.
Proof.
  destruct (packet_test_ok demo_w1) as [h Hh]; [vm_compute; reflexivity|]. pose proof (p_parse _ _ Hh) as Ep.
  vm_compute in Ep. injection Ep as Ep.
  apply (ssn_timer_failure_leaks demo_crc 1000 demo_stack 10 eq_refl demo_fuel (mc_init_data (demo_cold [5])) [] 0 demo_w1 h 1 2).
  - apply start_ok, demo_cold_ok.
  - exact Hh.
  - rewrite <- Ep. vm_compute. reflexivity.
  - rewrite <- Ep. vm_compute. reflexivity.
  - rewrite <- Ep. vm_compute. reflexivity.
  - rewrite <- Ep. vm_compute. reflexivity.
  - rewrite <- Ep. vm_compute. reflexivity.
  - vm_compute. reflexivity.
  - vm_compute. discriminate.
Defined.
