(* ===== verification/Work.v ===== *)
(** * The dispatch of work: src/code/frcore/frcore_main.c and frcore_pkt.c

    Each core takes work entries from the hardware queue ([frcore_process_wqe]): packets and
    commands of the host by their opcode, packets of the wire and timers by their type
    ([frcore_work_process]).  Every entry and its packet must be given back once: freed,
    handed to the output unit or to the driver of the SDK, or kept by a component.  The
    components are reached through the interface [Handlers]; a ghost list of [fate]s records
    what becomes of the entries: some are never given back.  Ports, links and the answers of the
    output unit are parameters, and so are the opcodes and error codes of the SDK, by their
    names, and the layout of its commands. *)

From stdpp Require Import list functions.
From S2P Require Import Prelude Bytes.
From S2P Require Ipc MacStat.
#[local] Open Scope Z_scope.

(** ** Constants: [frcore_act_t], [frcore_work_t] of frcore_pkt.h, groups of frc_types.h *)
Definition FRCORE_ACT_DEBUG : Z := 0.
Definition FRCORE_ACT_DROP : Z := 1.
Definition FRCORE_ACT_FORWARD : Z := 2.
Definition FRCORE_ACT_DELAY : Z := 3.
Definition FRCORE_ACT_UNFREE : Z := 4.
Definition FRCORE_ACT_FREE : Z := 5.
Definition FRCORE_WORK_PKT : Z := 0.
Definition FRCORE_WORK_CHAN : Z := 4.
Definition FRCORE_WORK_SSN_AGE : Z := 6.
Definition FRC_CMD_GRP : Z := 12.
Definition FRC_PKT_GRP : Z := 11.

(** ** Data *)

(** The opcodes of host work and the receive errors, by their names in the SDK. *)
Inductive opcode : Type :=
| OCT_NW_PKT_OP | OCT_NW_CMD_OP | HOST_NW_INFO_OP | FRC_CMD_REQUEST_OP | DRIVER_OP | OTHER_OP.
Inductive pip_err : Type :=
| PARTIAL_ERR | JABBER_ERR | OVER_FCS_ERR | OVER_ERR | ALIGN_ERR | UNDER_FCS_ERR | GMX_FCS_ERR | UNDER_ERR
| EXTEND_ERR | LENGTH_ERR | DAT_ERR | SKIP_ERR | NIBBLE_ERR | PIP_FCS | PIP_SKIP_ERR | PIP_L2_MAL_HDR | PUNY_ERR
| UNKNOWN_ERR.

(** The fields of [cvmx_wqe_t] that are read; [w_id] names the entry.  [w_aging] is the test
    for the group of the timers. *)
Record wqe : Type := Wqe {
  w_id : Z; w_grp : Z; w_aging : bool; w_software : bool; w_opcode : opcode; w_param : Z; w_unused : Z;
  w_ipprt : Z; w_len : Z; w_rcv_error : bool; w_err_code : pip_err; w_bufs : Z; w_ip_offset : Z; w_tag : Z;
  w_not_IP : bool; w_is_v6 : bool; w_vlan_valid : bool; w_is_frag : bool; w_tcp_or_udp : bool;
  w_packet_data : list Z; w_packet_ptr : list Z }.

Definition ether_of (w : wqe) : list Z := if w_bufs w =? 0 then w_packet_data w else w_packet_ptr w.

(** The counters of this file: of [frc_stat_e] ([stat_err] stands for [stat_p0_*] and
    [stat_p1_*]) and of a port ([nicport->stats]). *)
Inductive work_stat : Type :=
| stat_core_wqe (core_id : Z) | stat_work_data | stat_p0_rx_pkts | stat_p1_rx_pkts | stat_chan_timer | stat_ssn_age_wqe
| stat_work_unkown | stat_act_debug | stat_act_free | stat_act_drop | stat_act_forward | stat_act_delay | stat_act_unfree
| stat_act_unkown | stat_work_free | stat_work_pkt | stat_work_cmd | stat_work_instr | stat_p0_tx_pkts | stat_p1_tx_pkts
| stat_p0_rx_errs | stat_p1_rx_errs | stat_err (p1 : bool) (e : pip_err)
| stat_pkts_above_1600 | stat_very_long_pkts | stat_pkts_below_64 | stat_very_short_pkts
| stat_swap_mac_send_pkts | stat_heart_beat_pkt | stat_heart_beat_send_back_pkt | stat_heart_beat_on_drop_pkt | stat_heart_beat_drop_pkt
| fromwire_total_rcvd (port : Z) | fromwire_total_bytes (port : Z) | fromwire_total_fwd (port : Z)
| fromwire_err_drop (port : Z) | fromwire_err_pko (port : Z)
| fromhost_total_rcvd (port : Z) | fromhost_total_bytes (port : Z) | fromhost_total_fwd (port : Z)
| fromhost_err_link (port : Z).

#[export] Instance pip_err_eq_dec : EqDecision pip_err.
Proof. solve_decision. Defined.
#[export] Instance work_stat_eq_dec : EqDecision work_stat.
Proof. solve_decision. Defined.

(** What became of an entry: given back to its pool, sent to a port with these bytes, taken
    by the driver or the DMA engine of the SDK, kept by a component, or lost: nobody has it
    and nobody will give it back. *)
Inductive fate : Type :=
| Freed | Sent (port : Z) (bytes : list Z) | Taken | Kept | Lost.

(** The state of the components, the counters, the fates so far and the answers the output
    unit will give ([0] when none is left). *)
Record core (S : Type) : Type := Core {
  comp : S; cnt : work_stat -> Z; fates : list (Z * fate); pko : list Z }.
#[global] Arguments Core {S}.
#[global] Arguments comp {S}.
#[global] Arguments cnt {S}.
#[global] Arguments fates {S}.
#[global] Arguments pko {S}.

(** What the components promise: the work of a packet ([frcore_dat_work_process]), of a FIFO
    timer and of a session timer, each with its verdict; the switch of a port's reception,
    read and written ([octnic->port[p].rx_on]); a command of the tool
    ([frcore_process_frc_cmd], up to what becomes of its entry). *)
Class Handlers (S : Type) : Type := {
  frcore_dat_work_process : wqe -> core S -> option (Z * core S);
  frcore_chan_process : wqe -> S -> option (Z * S);
  frcore_ssn_age_process : wqe -> S -> option (Z * S);
  port_rx_on : S -> Z -> bool;
  set_port_rx_on : Z -> Z -> S -> option S;
  tool_command : wqe -> S -> option S }.

(** The structures of the SDK, as far as they are read: port and value of a network command
    that switches the reception ([OCTNET_CMD_RX_CTL]; [None] for the others), the size of the
    answer a host instruction asks for, the size of an entry and the number of ports. *)
Record host_sdk : Type := HostSdk {
  rx_ctl : wqe -> option (Z * Z); rlenssz : wqe -> Z; CVMX_FPA_WQE_POOL_SIZE : Z; nports : Z }.

Section dispatch.
Context {S : Type}.
Implicit Types (c : core S) (w : wqe).

Definition set_comp (s : S) c : core S := Core s (cnt c) (fates c) (pko c).
Definition FRCORE_STAT_ADD (k : work_stat) (v : Z) c : core S := Core (comp c) (<[k := u64 (cnt c k + v)]> (cnt c)) (fates c) (pko c).
Definition FRCORE_STAT_INC (k : work_stat) : core S -> core S := FRCORE_STAT_ADD k 1.
Definition end_work w (f : fate) c : core S := Core (comp c) (cnt c) (fates c ++ [(w_id w, f)]) (pko c).
Definition next_pko c : Z * core S := (hd 0 (pko c), Core (comp c) (cnt c) (fates c) (tl (pko c))).

Definition frcore_work_free w c : core S := end_work w Freed (FRCORE_STAT_INC stat_work_free c).

Variables (state_active : Z -> bool)   (* [octnic->port[p_num].state & CVM_NIC_IF_STATE_ACTIVE] *)
  (MAX_OCTEON_ETH_PORTS : Z)
  (sdk : host_sdk)
  (link_status : Z -> bool)            (* [nicport->linfo.link.s.status] *)
  (pciport : Z -> Z)
  (resp_hdr : Z -> list Z)             (* [cvmx_resp_hdr_t] with [CORE_NW_DATA_OP] and [nicport->ifidx] *)
  (work_mode_oct0 work_mode_oct1 : bool)
  (core_id : Z)
  (FRC_CONFIG_CHAN FRC_CONFIG_AGE : bool).

Definition frcore_port_active (p_num : Z) : bool := (p_num <? MAX_OCTEON_ETH_PORTS) && state_active p_num.

Context `{!Handlers S}.

(** ** Output *)

(** The output unit is given [len] bytes of the packet, and answers. *)
Definition frcore_send_to_pko c : Z * core S := next_pko c.

(** [FRC_CONFIG_MAC_STATISTICS] is always defined, if only as 0: the code between [#ifndef]
    and [#endif] that takes off the front of the host's instruction is never compiled. *)
Definition frcore_forward_packet_to_wire w (p_num : Z) c : core S :=
  let c := FRCORE_STAT_INC (fromhost_total_rcvd p_num) c in
  let c := FRCORE_STAT_ADD (fromhost_total_bytes p_num) (w_len w) c in
  if negb (link_status p_num) then end_work w Freed (FRCORE_STAT_INC (fromhost_err_link p_num) c) else
  let '(rv, c) := frcore_send_to_pko c in
  if rv =? 0 then
    let c := FRCORE_STAT_INC (if p_num =? 0 then stat_p0_tx_pkts else stat_p1_tx_pkts) c in
    end_work w (Sent p_num (take (Z.to_nat (w_len w)) (w_packet_ptr w))) (FRCORE_STAT_INC (fromhost_total_fwd p_num) c)
  else end_work w Freed (FRCORE_STAT_INC (fromwire_err_pko p_num) c).

(** The response header, laid out in the entry, becomes the first of the buffers. *)
Definition frcore_forward_packet_to_host w c : core S :=
  let c := FRCORE_STAT_INC (fromwire_total_rcvd (w_ipprt w)) c in
  let c := FRCORE_STAT_ADD (fromwire_total_bytes (w_ipprt w)) (w_len w) c in
  if negb (port_rx_on (comp c) (w_ipprt w)) then end_work w Freed c else
  let '(rv, c) := frcore_send_to_pko c in
  if rv =? 0 then
    end_work w (Sent (pciport (w_ipprt w)) (resp_hdr (w_ipprt w) ++ take (Z.to_nat (w_len w)) (w_packet_ptr w)))
      (FRCORE_STAT_INC (fromwire_total_fwd (w_ipprt w)) c)
  else end_work w Freed (FRCORE_STAT_INC (fromwire_err_pko (w_ipprt w)) c).

(** ** The work of the wire and of the timers *)

(** The switch on the verdict. *)
Definition act_on w (rv : Z) c : core S :=
  if rv =? FRCORE_ACT_DEBUG then FRCORE_STAT_INC stat_act_debug c
  else if rv =? FRCORE_ACT_FREE then frcore_work_free w (FRCORE_STAT_INC stat_act_free c)
  else if rv =? FRCORE_ACT_DROP then frcore_work_free w (FRCORE_STAT_INC stat_act_drop c)
  else if rv =? FRCORE_ACT_FORWARD then frcore_work_free w (FRCORE_STAT_INC stat_act_forward c)
  else if rv =? FRCORE_ACT_DELAY then FRCORE_STAT_INC stat_act_delay c
  else if rv =? FRCORE_ACT_UNFREE then FRCORE_STAT_INC stat_act_unfree c
  else frcore_work_free w (FRCORE_STAT_INC stat_act_unkown c).

(** The case of a packet; [None] when it goes to the host. *)
Definition packet_case w c : option (option Z * core S) :=
  let c := FRCORE_STAT_INC (stat_core_wqe core_id) c in
  let c := FRCORE_STAT_INC (fromwire_total_rcvd (w_ipprt w)) c in
  let c := FRCORE_STAT_ADD (fromwire_total_bytes (w_ipprt w)) (w_len w) c in
  let c := FRCORE_STAT_INC stat_work_data c in
  let '(nic, c) := if w_ipprt w =? 0 then (work_mode_oct0, FRCORE_STAT_INC stat_p0_rx_pkts c) else (work_mode_oct1, FRCORE_STAT_INC stat_p1_rx_pkts c) in
  if nic : bool then Some (None, frcore_forward_packet_to_host w c)
  else '(rv, c) ← frcore_dat_work_process w c; Some (Some rv, c).

Definition on_comp (f : S -> option (Z * S)) c : option (Z * core S) := '(rv, s) ← f (comp c); Some (rv, set_comp s c).

Definition frcore_work_process w c : option (core S) :=
  '(o, c) ← (
    if w_unused w =? FRCORE_WORK_PKT then packet_case w c
    else if FRC_CONFIG_CHAN && (w_unused w =? FRCORE_WORK_CHAN) then
      '(rv, c) ← on_comp (frcore_chan_process w) (FRCORE_STAT_INC stat_chan_timer c); Some (Some rv, c)
    else if w_unused w =? FRCORE_WORK_SSN_AGE then
      if FRC_CONFIG_AGE then
        '(rv, c) ← on_comp (frcore_ssn_age_process w) (FRCORE_STAT_INC stat_ssn_age_wqe c); Some (Some rv, c)
      else Some (Some FRCORE_ACT_UNFREE, c)
    else Some (Some FRCORE_ACT_DROP, FRCORE_STAT_INC stat_work_unkown c));
  Some (match o with Some rv => act_on w rv c | None => c end).

(** ** All work *)

(** The counters of a receive error: on port 0 two kinds count as a length, too. *)
Definition count_error (p1 : bool) (e : pip_err) c : core S :=
  let c := FRCORE_STAT_INC (if p1 then stat_p1_rx_errs else stat_p0_rx_errs) c in
  let c := FRCORE_STAT_INC (stat_err p1 e) c in
  if p1 then c else
  match e with
  | OVER_ERR => FRCORE_STAT_INC stat_very_long_pkts (FRCORE_STAT_INC stat_pkts_above_1600 c)
  | UNDER_ERR => FRCORE_STAT_INC stat_very_short_pkts (FRCORE_STAT_INC stat_pkts_below_64 c)
  | _ => c
  end.

(** ** Commands of the host *)

(** The switch of the reception; the other commands set registers of the ports and answer the
    host.  The entry is freed. *)
Definition frcore_process_nic_cmd w c : option (core S) :=
  c ← match rx_ctl sdk w with
      | Some (port, on) => if frcore_port_active port then s ← set_port_rx_on port on (comp c); Some (set_comp s c) else Some c
      | None => Some c
      end;
  Some (end_work w Freed c).

(** The entry itself becomes the buffer of the answer and goes to the DMA engine; on the two
    early returns nobody frees it. *)
Definition frcore_send_link_info w c : core S :=
  if CVMX_FPA_WQE_POOL_SIZE sdk <? rlenssz sdk w then end_work w Lost c
  else if nports sdk =? 0 then end_work w Lost c
  else end_work w Taken c.

(** The answer goes out from a buffer of the core: nothing frees or keeps the entry. *)
Definition frcore_process_frc_cmd w c : option (core S) :=
  s ← tool_command w (comp c); Some (end_work w Lost (set_comp s c)).

Definition software_work w c : option (core S) :=
  match w_opcode w with
  | OCT_NW_PKT_OP => Some (frcore_forward_packet_to_wire w (w_param w) (FRCORE_STAT_INC stat_work_pkt c))
  | OCT_NW_CMD_OP => frcore_process_nic_cmd w (FRCORE_STAT_INC stat_work_cmd c)
  | HOST_NW_INFO_OP => Some (frcore_send_link_info w (FRCORE_STAT_INC stat_work_cmd c))
  | FRC_CMD_REQUEST_OP => frcore_process_frc_cmd w (FRCORE_STAT_INC stat_work_cmd c)
  | DRIVER_OP => Some (end_work w Taken (FRCORE_STAT_INC stat_work_instr c))
  | OTHER_OP => Some (end_work w Freed (FRCORE_STAT_INC stat_work_instr c))
  end.

Definition frcore_process_wqe w c : option (core S) :=
  if w_aging w then
    if frcore_port_active (w_ipprt w) then frcore_work_process w c else Some c
  else if w_software w then software_work w c
  else if frcore_port_active (w_ipprt w) then
    if negb (w_rcv_error w) then frcore_work_process w c
    else
      let c := FRCORE_STAT_INC (fromwire_err_drop (w_ipprt w)) c in
      let c := count_error (negb (w_ipprt w =? 0)) (w_err_code w) c in
      Some (end_work w Freed c)
  else Some (end_work w Freed c).

(** The loop of a core over the work it is given. *)
Definition frcore_data_loop (ws : list wqe) c : option (core S) := foldM (fun c w => frcore_process_wqe w c) ws c.
End dispatch.

(** No network command switches a port, no answer is too long. *)
Definition sample_sdk : host_sdk := HostSdk (fun _ => None) (fun _ => 0) 128 4.
