(* ===== verification/WorkThm.v ===== *)
(** * Every entry is given back once

    The laws of the interface [Handlers] say that a packet's handler gives the packet away
    exactly when its verdict does not free it, that a timer's verdict frees nothing and that
    the commands of the host are carried out.  From them the loop of a core ends the life of
    every entry once, in order, whatever mix of packets, host work, errors and timers it
    gets, and the entries that are lost are exactly those of the tool's commands and of the
    link informations that are not sent.  The packets of the IPC build and of the build with
    address statistics satisfy the laws. *)

From stdpp Require Import list functions.
From S2P Require Import Prelude Bytes VlanCheck Work.
From S2P Require Ipc IpcProps IpcThm MacStat MacStatProps.
#[local] Open Scope Z_scope.

(** The verdicts with which the dispatch frees the entry. *)
Definition frees (rv : Z) : bool :=
  negb ((rv =? FRCORE_ACT_DEBUG) || (rv =? FRCORE_ACT_DELAY) || (rv =? FRCORE_ACT_UNFREE)).

(** The entries that were kept. *)
Definition is_kept (f : fate) : bool := match f with Kept => true | _ => false end.
Definition kept_ids (fs : list (Z * fate)) : list Z := (filter (fun x => is_kept x.2) fs).*1.

Lemma kept_ids_given fs i f : f <> Kept -> kept_ids (fs ++ [(i, f)]) = kept_ids fs.
Proof. intros Hf. unfold kept_ids. rewrite filter_app, filter_cons_False, filter_nil, app_nil_r; [done|]. destruct f; simpl; naive_solver. Qed.

Lemma kept_ids_kept fs ks : kept_ids (fs ++ ((fun i => (i, Kept)) <$> ks)) = kept_ids fs ++ ks.
Proof.
  unfold kept_ids. rewrite filter_app, fmap_app. f_equal. induction ks as [|i ks IH]; [done|].
  rewrite fmap_cons, filter_cons_True by done. by rewrite fmap_cons, IH.
Qed.

(** [fs] ends the life of an entry together with the verdict [rv]; it is not lost. *)
Definition one_end (rv : Z) (fs : list fate) : Prop := (length fs + if frees rv then 1 else 0)%nat = 1%nat /\ Lost ∉ fs.

(** [ok] relates a component to the fates so far; those the dispatch decides do not matter to
    it. *)
Class HandlerLaws {S : Type} (H : Handlers S) (ok : S -> list (Z * fate) -> Prop) (good cmd_ok timer_ok : wqe -> Prop) : Prop := {
  law_given s fs i f : ok s fs -> f <> Kept -> ok s (fs ++ [(i, f)]);
  law_data w c : ok (comp c) (fates c) -> good w ->
    exists rv c' fs, frcore_dat_work_process w c = Some (rv, c') /\ ok (comp c') (fates c') /\
      fates c' = fates c ++ ((fun f => (w_id w, f)) <$> fs) /\ one_end rv fs;
  law_chan w s fs : ok s fs -> timer_ok w -> exists rv s', frcore_chan_process w s = Some (rv, s') /\ ok s' fs /\ frees rv = false;
  law_age w s fs : ok s fs -> timer_ok w -> exists rv s', frcore_ssn_age_process w s = Some (rv, s') /\ ok s' fs /\ frees rv = false;
  law_rx w port on s fs : ok s fs -> cmd_ok w -> exists s', set_port_rx_on port on s = Some s' /\ ok s' fs;
  law_tool w s fs : ok s fs -> cmd_ok w -> w_opcode w = FRC_CMD_REQUEST_OP -> exists s', tool_command w s = Some s' /\ ok s' fs }.

Section dispatch.
Context {S : Type} `{!Handlers S}.
Variables (state_active : Z -> bool) (max_ports : Z) (sdk : host_sdk) (link_status : Z -> bool) (pciport : Z -> Z) (resp_hdr : Z -> list Z)
  (mode0 mode1 : bool) (core_id : Z) (chan_on age_on : bool).
Implicit Types (c : core S) (w : wqe).

#[local] Abbreviation active := (frcore_port_active state_active max_ports).
#[local] Abbreviation process := (frcore_process_wqe state_active max_ports sdk link_status pciport resp_hdr mode0 mode1 core_id chan_on age_on).

(** The entries of timers: they belong to a FIFO or a session. *)
Definition is_timer w : bool :=
  negb (w_software w && negb (w_aging w)) && ((chan_on && (w_unused w =? FRCORE_WORK_CHAN)) || (w_unused w =? FRCORE_WORK_SSN_AGE)).

(** A command of the host: the network commands and those of the tool. *)
Definition is_command w : bool :=
  negb (w_aging w) && w_software w && match w_opcode w with OCT_NW_CMD_OP | FRC_CMD_REQUEST_OP => true | _ => false end.

(** The entries nobody gives back: the tool's commands, and the requests for the state of the
    links that are not answered. *)
Definition is_lost w : bool :=
  negb (w_aging w) && w_software w &&
  match w_opcode w with
  | FRC_CMD_REQUEST_OP => true
  | HOST_NW_INFO_OP => (CVMX_FPA_WQE_POOL_SIZE sdk <? rlenssz sdk w) || (nports sdk =? 0)
  | _ => false
  end.

(** The component's conditions on an entry. *)
Definition legal (good cmd_ok timer_ok : wqe -> Prop) w : Prop :=
  if is_timer w then active (w_ipprt w) = true /\ w_rcv_error w = false /\ timer_ok w
  else w_aging w = false /\ (is_command w = true -> cmd_ok w) /\ (w_software w = false -> active (w_ipprt w) = true -> w_rcv_error w = false -> w_unused w = FRCORE_WORK_PKT -> good w).

(** The entry ended once, lost or not, if it is not a timer; nothing else changes owners. *)
Definition ended (lost : bool) w c c' : Prop := exists f, fates c' = fates c ++ [(w_id w, f)] /\ (f = Lost <-> lost = true).

(** It was ended by the dispatch. *)
Definition given (lost : bool) w c c' : Prop :=
  comp c' = comp c /\ exists f, f <> Kept /\ fates c' = fates c ++ [(w_id w, f)] /\ (f = Lost <-> lost = true).

Lemma given_ended l w c c' : given l w c c' -> ended l w c c'.
Proof. intros (_ & f & _ & Hf & Hl). by exists f. Qed.

Lemma stat_keeps k v c : comp (FRCORE_STAT_ADD k v c) = comp c /\ fates (FRCORE_STAT_ADD k v c) = fates c.
Proof. done. Qed.

#[local] Ltac given := split; [done|]; eexists; split; [|split; [done|]]; [done|by split].

Lemma act_on_spec w rv c : comp (act_on w rv c) = comp c /\ fates (act_on w rv c) = fates c ++ (if frees rv then [(w_id w, Freed)] else []).
Proof.
  unfold act_on, frees.
  destruct (Z.eqb_spec rv FRCORE_ACT_DEBUG); [by rewrite app_nil_r|]. destruct (Z.eqb_spec rv FRCORE_ACT_FREE); [by subst|].
  destruct (Z.eqb_spec rv FRCORE_ACT_DROP); [by subst|]. destruct (Z.eqb_spec rv FRCORE_ACT_FORWARD); [by subst|].
  destruct (Z.eqb_spec rv FRCORE_ACT_DELAY); [by rewrite app_nil_r|]. destruct (Z.eqb_spec rv FRCORE_ACT_UNFREE); by rewrite ?app_nil_r.
Qed.

Lemma to_wire_given w p c : given false w c (frcore_forward_packet_to_wire link_status w p c).
Proof.
  unfold frcore_forward_packet_to_wire, frcore_send_to_pko, next_pko. destruct (negb _); [given|].
  destruct (_ =? 0); given.
Qed.

Lemma to_host_given w c : given false w c (frcore_forward_packet_to_host pciport resp_hdr w c).
Proof.
  unfold frcore_forward_packet_to_host, frcore_send_to_pko, next_pko. destruct (negb _); [given|].
  destruct (_ =? 0); given.
Qed.

Lemma software_given w c : w_aging w = false -> w_software w = true -> is_command w = false ->
  exists c', software_work state_active max_ports sdk link_status w c = Some c' /\ given (is_lost w) w c c'.
Proof.
  intros Ha Hs Hc. unfold is_command, is_lost, software_work, frcore_send_link_info in *. rewrite Ha, Hs in *.
  destruct (w_opcode w); try done; cbn [negb andb]; (eexists; split; [done|]); try given.
  - destruct (to_wire_given w (w_param w) (FRCORE_STAT_INC stat_work_pkt c)) as [H1 H2]. by split.
  - destruct (_ <? _); [given|]. cbn [orb]. destruct (nports sdk =? 0); given.
Qed.

Lemma error_given w e p c : given false w c (end_work w Freed (count_error p e c)).
Proof. unfold count_error. destruct p; [given|]. destruct e; given. Qed.

(** ** Where an entry goes *)

Inductive reach : Type := ToPath | ToTimer | ToCommand | Elsewhere.

Definition reach_of w : reach :=
  if is_command w then ToCommand
  else if negb (active (w_ipprt w) && (w_aging w || (negb (w_software w) && negb (w_rcv_error w)))) then Elsewhere
  else if w_unused w =? FRCORE_WORK_PKT then if (if w_ipprt w =? 0 then mode0 else mode1) then Elsewhere else ToPath
  else if chan_on && (w_unused w =? FRCORE_WORK_CHAN) then ToTimer
  else Elsewhere.

Lemma process_reach w c : age_on = false ->
  match reach_of w with
  | ToPath => exists c0, comp c0 = comp c /\ fates c0 = fates c /\ pko c0 = pko c /\ process w c = '(rv, c1) ← frcore_dat_work_process w c0; Some (act_on w rv c1)
  | ToTimer => process w c = '(rv, s) ← frcore_chan_process w (comp c); Some (act_on w rv (set_comp s (FRCORE_STAT_INC stat_chan_timer c)))
  | ToCommand => process w c = software_work state_active max_ports sdk link_status w c
  | Elsewhere => exists c', process w c = Some c' /\ comp c' = comp c
  end.
Proof.
  intros Ha. unfold reach_of. destruct (is_command w) eqn:Ek.
  { unfold is_command in Ek. apply andb_true_iff in Ek as [[?%negb_true_iff Es]%andb_true_iff _]. unfold frcore_process_wqe. by rewrite H, Es. }
  unfold frcore_process_wqe.
  assert (match (if w_unused w =? FRCORE_WORK_PKT then if (if w_ipprt w =? 0 then mode0 else mode1) then Elsewhere else ToPath
      else if chan_on && (w_unused w =? FRCORE_WORK_CHAN) then ToTimer else Elsewhere) with
    | ToPath => exists c0, comp c0 = comp c /\ fates c0 = fates c /\ pko c0 = pko c /\
        frcore_work_process pciport resp_hdr mode0 mode1 core_id chan_on age_on w c = '(rv, c1) ← frcore_dat_work_process w c0; Some (act_on w rv c1)
    | ToTimer => frcore_work_process pciport resp_hdr mode0 mode1 core_id chan_on age_on w c =
        '(rv, s) ← frcore_chan_process w (comp c); Some (act_on w rv (set_comp s (FRCORE_STAT_INC stat_chan_timer c)))
    | ToCommand => frcore_work_process pciport resp_hdr mode0 mode1 core_id chan_on age_on w c = software_work state_active max_ports sdk link_status w c
    | Elsewhere => exists c', frcore_work_process pciport resp_hdr mode0 mode1 core_id chan_on age_on w c = Some c' /\ comp c' = comp c
    end) as Hw.
  { unfold frcore_work_process. destruct (w_unused w =? FRCORE_WORK_PKT).
    - unfold packet_case. destruct (w_ipprt w =? 0).
      + destruct mode0; cbn [mbind option_bind]; [eexists; split; [done|]; by rewrite (proj1 (to_host_given w _))|].
        match goal with |- context [frcore_dat_work_process w ?x] => exists x; split_and!; [done|done|done|by destruct (frcore_dat_work_process w x) as [[rv c1]|]] end.
      + destruct mode1; cbn [mbind option_bind]; [eexists; split; [done|]; by rewrite (proj1 (to_host_given w _))|].
        match goal with |- context [frcore_dat_work_process w ?x] => exists x; split_and!; [done|done|done|by destruct (frcore_dat_work_process w x) as [[rv c1]|]] end.
    - destruct (chan_on && _).
      + unfold on_comp. change (comp (FRCORE_STAT_INC stat_chan_timer c)) with (comp c).
        by destruct (frcore_chan_process w (comp c)) as [[rv s]|].
      + rewrite Ha. destruct (w_unused w =? FRCORE_WORK_SSN_AGE); cbn [mbind option_bind]; by eexists. }
  destruct (w_aging w) eqn:Eg; cbn [orb].
  - rewrite andb_true_r. destruct (active (w_ipprt w)); cbn [negb]; [exact Hw|by exists c].
  - destruct (w_software w) eqn:Es; cbn [negb andb].
    { rewrite andb_false_r. cbn [negb]. destruct (software_given w c Eg Es Ek) as (c' & E & Hc & _). by exists c'. }
    destruct (active (w_ipprt w)); cbn [negb andb]; [|by eexists].
    destruct (w_rcv_error w); cbn [negb]; [|exact Hw]. eexists. split; [done|].
    destruct (error_given w (w_err_code w) (negb (w_ipprt w =? 0)) (FRCORE_STAT_INC (fromwire_err_drop (w_ipprt w)) c)) as [-> _]. done.
Qed.

Context {ok : S -> list (Z * fate) -> Prop} {good cmd_ok timer_ok : wqe -> Prop} {laws : HandlerLaws _ ok good cmd_ok timer_ok}.

Lemma given_ok l w c c' : given l w c c' -> ok (comp c) (fates c) -> ok (comp c') (fates c').
Proof using laws. intros (-> & f & Hf & -> & _) H. by apply (law_given (HandlerLaws := laws)). Qed.

(** A verdict after the fates of a handler. *)
Lemma verdict_ends w rv fs c c1 : fates c1 = fates c ++ ((fun f => (w_id w, f)) <$> fs) -> one_end rv fs -> ok (comp c1) (fates c1) ->
  ended false w c (act_on w rv c1) /\ ok (comp (act_on w rv c1)) (fates (act_on w rv c1)).
Proof using laws.
  intros E [H Hn] Hok. unfold ended. destruct (act_on_spec w rv c1) as [-> ->]. destruct (frees rv).
  - split; [|by apply (law_given (HandlerLaws := laws))]. rewrite E. destruct fs; [|simpl in H; lia]. exists Freed. by rewrite app_nil_r.
  - rewrite app_nil_r. split; [|done]. rewrite E. destruct fs as [|f [|? ?]]; simpl in H; try lia. exists f. split; [done|]. split; [intros ->; destruct Hn; left|done].
Qed.

(** A packet of the wire. *)
Lemma packet_ends w c : w_unused w = FRCORE_WORK_PKT -> ok (comp c) (fates c) -> good w ->
  exists c', frcore_work_process pciport resp_hdr mode0 mode1 core_id chan_on age_on w c = Some c' /\ ended false w c c' /\ ok (comp c') (fates c').
Proof using laws.
  intros Hu Hok Hg. unfold frcore_work_process. rewrite Hu. change (FRCORE_WORK_PKT =? FRCORE_WORK_PKT) with true. cbv iota.
  unfold packet_case. set (c1 := FRCORE_STAT_INC stat_work_data _). assert (comp c1 = comp c /\ fates c1 = fates c) as [Ec Ef] by done. clearbody c1.
  destruct (if w_ipprt w =? 0 then _ else _) as [nic c2] eqn:E.
  assert (comp c2 = comp c /\ fates c2 = fates c) as [Ec2 Ef2] by (destruct (w_ipprt w =? 0); injection E as <- <-; by split).
  rewrite <- Ec2, <- Ef2 in Hok. destruct nic; cbn [mbind option_bind].
  - eexists. split; [done|]. pose proof (to_host_given w c2) as Hh. split; [|by eapply given_ok].
    destruct (given_ended _ _ _ _ Hh) as (f & Hf & Hl). exists f. by rewrite Hf, Ef2.
  - destruct (law_data (HandlerLaws := laws) w c2) as (rv & c3 & fs & -> & Hok3 & Hf & He); [done..|]. cbn [mbind option_bind].
    eexists. split; [done|]. eapply verdict_ends; [by rewrite Hf, Ef2|done..].
Qed.

(** A timer's work: nothing is given away. *)
Lemma timer_keeps w c : (chan_on && (w_unused w =? FRCORE_WORK_CHAN)) || (w_unused w =? FRCORE_WORK_SSN_AGE) = true -> ok (comp c) (fates c) -> timer_ok w ->
  exists c', frcore_work_process pciport resp_hdr mode0 mode1 core_id chan_on age_on w c = Some c' /\ fates c' = fates c /\ ok (comp c') (fates c').
Proof using laws.
  intros Ht Hok Hg. unfold frcore_work_process, on_comp.
  destruct (Z.eqb_spec (w_unused w) FRCORE_WORK_PKT) as [E|_]; [rewrite E, andb_false_r in Ht; done|].
  destruct (chan_on && (w_unused w =? FRCORE_WORK_CHAN)).
  - destruct (law_chan (HandlerLaws := laws) w (comp c) (fates c)) as (rv & s' & Hs & Hok' & Hf); [done..|].
    change (comp (FRCORE_STAT_INC stat_chan_timer c)) with (comp c). rewrite Hs. cbn [mbind option_bind]. eexists. split; [done|].
    destruct (act_on_spec w rv (set_comp s' (FRCORE_STAT_INC stat_chan_timer c))) as [-> ->]. rewrite Hf, app_nil_r. done.
  - rewrite orb_false_l in Ht. rewrite Ht. destruct age_on.
    + destruct (law_age (HandlerLaws := laws) w (comp c) (fates c)) as (rv & s' & Hs & Hok' & Hf); [done..|].
      change (comp (FRCORE_STAT_INC stat_ssn_age_wqe c)) with (comp c). rewrite Hs. cbn [mbind option_bind]. eexists. split; [done|].
      destruct (act_on_spec w rv (set_comp s' (FRCORE_STAT_INC stat_ssn_age_wqe c))) as [-> ->]. rewrite Hf, app_nil_r. done.
    + cbn [mbind option_bind]. eexists. by split.
Qed.

(** A command of the host. *)
Lemma command_ends w c : is_command w = true -> cmd_ok w -> ok (comp c) (fates c) ->
  exists c', software_work state_active max_ports sdk link_status w c = Some c' /\ ended (is_lost w) w c c' /\ ok (comp c') (fates c').
Proof using laws.
  intros Hc Hk Hok. unfold is_command, is_lost, software_work, frcore_process_nic_cmd, frcore_process_frc_cmd in *.
  apply andb_true_iff in Hc as [[Ha Hs]%andb_true_iff Ho]. rewrite Ha, Hs.
  destruct (w_opcode w) eqn:Eo; try done; cbn [andb].
  - assert (exists c1, (match rx_ctl sdk w with
      | Some (port, on) => if active port then s ← set_port_rx_on port on (comp (FRCORE_STAT_INC stat_work_cmd c)); Some (set_comp s (FRCORE_STAT_INC stat_work_cmd c))
          else Some (FRCORE_STAT_INC stat_work_cmd c)
      | None => Some (FRCORE_STAT_INC stat_work_cmd c) end) = Some c1 /\ fates c1 = fates c /\ ok (comp c1) (fates c)) as (c1 & -> & Hf & Hok1).
    { destruct (rx_ctl sdk w) as [[port on]|]; [|by eexists]. destruct (active port); [|by eexists].
      destruct (law_rx (HandlerLaws := laws) w port on (comp c) (fates c) Hok Hk) as (s' & E & Hok'). cbn [comp FRCORE_STAT_INC FRCORE_STAT_ADD].
      rewrite E. by eexists. }
    cbn [mbind option_bind]. eexists. split; [done|]. rewrite <- Hf in Hok1. split; [|by apply (law_given (HandlerLaws := laws))].
    exists Freed. cbn [end_work fates]. by rewrite Hf.
  - destruct (law_tool (HandlerLaws := laws) w (comp c) (fates c) Hok Hk Eo) as (s' & E & Hok'). cbn [comp FRCORE_STAT_INC FRCORE_STAT_ADD].
    rewrite E. cbn [mbind option_bind]. eexists. split; [done|]. split; [by exists Lost|by apply (law_given (HandlerLaws := laws))].
Qed.

(** What an entry adds to the fates. *)
Definition ends_of w (fs : list (Z * fate)) : Prop :=
  if is_timer w then fs = [] else exists f, fs = [(w_id w, f)] /\ (f = Lost <-> is_lost w = true).

(** One entry. *)
Lemma process_ends w c : legal good cmd_ok timer_ok w -> ok (comp c) (fates c) ->
  exists c', process w c = Some c' /\ ok (comp c') (fates c') /\ exists fs, fates c' = fates c ++ fs /\ ends_of w fs.
Proof using laws.
  intros Hl Hok. unfold legal in Hl. unfold ends_of. destruct (is_timer w) eqn:Et.
  - destruct Hl as (Ha & He & Hg). unfold is_timer in Et. apply andb_true_iff in Et as [Es Et].
    destruct (timer_keeps w c Et Hok Hg) as (c' & Hw & Hf & Hok'). exists c'.
    assert (process w c = Some c') as ->.
    { unfold frcore_process_wqe. rewrite Ha, He. destruct (w_aging w); [done|]. rewrite andb_true_r in Es. apply negb_true_iff in Es. by rewrite Es. }
    split_and!; [done..|]. exists []. by rewrite app_nil_r.
  - destruct Hl as (Ha & Hk & Hg). enough (exists c', process w c = Some c' /\ ended (is_lost w) w c c' /\ ok (comp c') (fates c')) as (c' & H1 & (f & H2 & Hf) & H3).
    { exists c'. split_and!; [done..|]. exists [(w_id w, f)]. split; [done|]. by exists f. }
    assert (forall l c', given l w c c' -> exists c'', Some c' = Some c'' /\ ended l w c c'' /\ ok (comp c'') (fates c'')) as Hgiv.
    { intros l c' Hc'. exists c'. split_and!; [done|by apply given_ended|by eapply given_ok]. }
    unfold frcore_process_wqe. rewrite Ha. destruct (w_software w) eqn:Es.
    { destruct (is_command w) eqn:Ec; [by apply command_ends; auto|]. destruct (software_given w c Ha Es Ec) as (c' & -> & Hc'). by apply Hgiv. }
    assert (is_lost w = false) as Hnl by (unfold is_lost; by rewrite Es, andb_false_r). rewrite Hnl.
    destruct (active (w_ipprt w)) eqn:Ep; [|apply Hgiv; given].
    destruct (w_rcv_error w) eqn:Ee; cbn [negb].
    { apply Hgiv. destruct (error_given w (w_err_code w) (negb (w_ipprt w =? 0)) (FRCORE_STAT_INC (fromwire_err_drop (w_ipprt w)) c)) as [H1 H2]. by split. }
    destruct (Z.eqb_spec (w_unused w) FRCORE_WORK_PKT) as [E|E]; [by apply packet_ends; auto|].
    unfold is_timer in Et. rewrite Ha, Es in Et. cbn [negb andb] in Et. apply orb_false_iff in Et as [E1 E2].
    unfold frcore_work_process. rewrite (proj2 (Z.eqb_neq _ _) E), E1, E2. cbn [mbind option_bind]. apply Hgiv. given.
Qed.

(** The loop of a core. *)
Lemma loop_fates ws c : Forall (legal good cmd_ok timer_ok) ws -> ok (comp c) (fates c) ->
  exists c', frcore_data_loop state_active max_ports sdk link_status pciport resp_hdr mode0 mode1 core_id chan_on age_on ws c = Some c' /\
    ok (comp c') (fates c') /\ exists fss, fates c' = fates c ++ concat fss /\ Forall2 ends_of ws fss.
Proof using laws.
  intros Hws Hok. revert c Hok. induction Hws as [|w ws Hw _ IH]; intros c Hok.
  { exists c. split_and!; [done..|]. exists []. by rewrite app_nil_r. }
  destruct (process_ends w c Hw Hok) as (c1 & H1 & Hok1 & fs1 & E1 & F1). destruct (IH c1 Hok1) as (c2 & H2 & Hok2 & fss & E2 & F2).
  exists c2. unfold frcore_data_loop in *. cbn [foldM]. rewrite H1. cbn [mbind option_bind]. split_and!; [done..|].
  exists (fs1 :: fss). cbn [concat]. rewrite E2, E1, app_assoc. split; [done|]. by constructor.
Qed.

Lemma loop_ends ws c : Forall (legal good cmd_ok timer_ok) ws -> ok (comp c) (fates c) ->
  exists c', frcore_data_loop state_active max_ports sdk link_status pciport resp_hdr mode0 mode1 core_id chan_on age_on ws c = Some c' /\
    ok (comp c') (fates c') /\ exists fs, fates c' = fates c ++ fs /\ fs.*1 = w_id <$> filter (fun w => is_timer w = false) ws.
Proof using laws.
  intros Hws Hok. destruct (loop_fates ws c Hws Hok) as (c' & E & Hok' & fss & Hf & H2). exists c'. split_and!; [done..|].
  exists (concat fss). split; [done|]. clear -H2. induction H2 as [|w fs ws fss H _ IH]; [done|]. cbn [concat]. rewrite fmap_app, IH.
  unfold ends_of in H. destruct (is_timer w) eqn:Et; [subst fs; by rewrite filter_cons_False by congruence|].
  destruct H as (f & -> & _). by rewrite filter_cons_True.
Qed.
End dispatch.

(** In the mode of a network card every packet counts twice. *)
Theorem nic_packet_counts_twice (S : Type) (H : Handlers S) pciport resp_hdr core_id chan_on age_on w (c : core S) :
  w_unused w = FRCORE_WORK_PKT ->
  exists c', frcore_work_process pciport resp_hdr true true core_id chan_on age_on w c = Some c' /\
    cnt c' (fromwire_total_rcvd (w_ipprt w)) = u64 (cnt c (fromwire_total_rcvd (w_ipprt w)) + 2).
Proof.
  intros Hu. unfold frcore_work_process. rewrite Hu. change (FRCORE_WORK_PKT =? FRCORE_WORK_PKT) with true. cbv iota.
  assert (forall k v (c : core S) k', cnt (FRCORE_STAT_ADD k v c) k' = if decide (k' = k) then u64 (cnt c k + v) else cnt c k') as Hadd.
  { intros. unfold FRCORE_STAT_ADD. simpl. case_decide; [subst; by rewrite fn_lookup_insert|by rewrite fn_lookup_insert_ne]. }
  assert (forall c : core S, cnt (frcore_forward_packet_to_host pciport resp_hdr w c) (fromwire_total_rcvd (w_ipprt w)) = u64 (cnt c (fromwire_total_rcvd (w_ipprt w)) + 1)) as Hh.
  { intros c0. unfold frcore_forward_packet_to_host, frcore_send_to_pko, next_pko, FRCORE_STAT_INC.
    repeat case_match; simplify_eq/=; repeat (rewrite fn_lookup_insert || rewrite fn_lookup_insert_ne by done); done. }
  unfold packet_case. destruct (w_ipprt w =? 0); cbn [mbind option_bind]; eexists; (split; [done|]); rewrite Hh; unfold FRCORE_STAT_INC;
    rewrite !Hadd; repeat (rewrite decide_False by done); rewrite decide_True by done; repeat (rewrite decide_False by done); rewrite wrapu_add_l; f_equal; lia.
Qed.
