(* ===== verification/WorkIpc.v ===== *)
(** * The card as it is built: inter-chassis packets under the dispatch

    The configuration of the repository (frc_config.h) has [FRC_CONFIG_IPC] on and the FIFOs
    and session timers off: the handler of a packet is [Ipc.frcore_ipc_work_process].  The
    network commands switch the reception of the ports, which the component reads, and the
    tool's commands reach its handlers through the table of commands.  All this satisfies the
    laws of the dispatch, so every entry the card takes ends once, and those of the tool's
    commands are lost. *)

From stdpp Require Import list functions.
From S2P Require Import Prelude Bytes Alg VlanCheck FrcList Cmd CmdProps CmdSys CmdThm CmdTable Ipc IpcProps IpcThm.
From S2P Require Work WorkThm.
#[local] Open Scope Z_scope.

(** What packets leave as it is, of what decides whether they are defined. *)
Definition keeps (st st' : ipc_sys) : Prop := instr_cfg st' = instr_cfg st /\ vlan_id_num (vlan st') = vlan_id_num (vlan st).

Lemma ipc_keeps_refl st : keeps st st. Proof. done. Qed.
Lemma ipc_keeps_trans s1 s2 s3 : keeps s1 s2 -> keeps s2 s3 -> keeps s1 s3.
Proof. intros [] []. split; congruence. Qed.
Lemma counts_keep st st' : only_counts st st' -> keeps st st'.
Proof. intros [[] _ Hv _]. split; [done|by rewrite Hv]. Qed.
Lemma keeps_stat c v st st' : keeps st st' -> keeps st (Ipc.FRCORE_STAT_ADD c v st').
Proof. done. Qed.

(** The verdicts of the component. *)
Definition gives_back (st : ipc_sys) (r : Z * ipc_sys) : Prop := (r.1 = FRCORE_ACT_DROP \/ r.1 = FRCORE_ACT_FREE) /\ keeps st r.2.

Lemma gives_back_trans st st' r : keeps st st' -> gives_back st' r -> gives_back st r.
Proof. intros H [Hr Hk]. split; [done|by eapply ipc_keeps_trans]. Qed.

Lemma drop_back c st r : Ipc.FRCORE_DROP c st = Some r -> gives_back st r.
Proof. intros [= <-]. split; [by left|done]. Qed.

Section process.
Context (rx_on : Z -> bool) (cmd_padding : list Z).

Lemma insert_keeps iif pktid dtype len st st' : frcore_ipc_cmd_insert cmd_padding iif pktid dtype len st = Some st' -> keeps st st'.
Proof. unfold frcore_ipc_cmd_insert. intros. inv_bind. done. Qed.

Lemma sample_back d sip dip st r : frcore_ipc_ipv4_instr_sample cmd_padding d sip dip st = Some r -> gives_back st r.
Proof.
  unfold frcore_ipc_ipv4_instr_sample. destruct (_ || _); intros H; inv_bind; (split; [by right|]); [|done].
  by eapply insert_keeps.
Qed.

Lemma ipv4_back d p st r : frcore_ipc_ipv4_process cmd_padding d p st = Some r -> gives_back st r.
Proof.
  unfold frcore_ipc_ipv4_process. intros H.
  repeat match type of H with context [card_get ?p ?o ?k ≫= _] => destruct (card_get p o k); [cbn [mbind option_bind] in H|done] end.
  destruct (negb (Z.land _ 0xf =? 5)); [apply drop_back in H; eapply gives_back_trans; [|exact H]; done|].
  destruct (negb _); [by eapply sample_back|]. injection H as <-. split; [by right|done].
Qed.

Lemma dispatch_back w d st r : ipc_dispatch cmd_padding w d st = Some r -> gives_back st r.
Proof.
  unfold ipc_dispatch. intros H. destruct (vlan_tags _ st) as [[[[vd pr] off] s1]|] eqn:Ev; [|done].
  apply vlan_tags_inv, counts_keep in Ev. cbn [snd] in Ev. cbn [mbind option_bind] in H. eapply gives_back_trans; [exact Ev|]. clear Ev.
  destruct (pr =? PROTO_IPV4); [|destruct (pr =? PROTO_IPV6); [|injection H as <-; split; [by right|done]]].
  - destruct vd; [|by eapply ipv4_back]. destruct (frcore_vlan_check_v4 _ _ _ _) as [[a v]|] eqn:Ec; [|done].
    apply vlan_v4_num in Ec. cbn [mbind option_bind] in H. apply ipv4_back in H. eapply gives_back_trans; [|exact H]. by split.
  - assert (forall s, frcore_ipc_ipv6_process s = Some r -> gives_back s r) as H6.
    { intros s Hs. apply drop_back in Hs. by eapply gives_back_trans; [|exact Hs]. }
    destruct vd; [|by apply H6]. destruct (frcore_vlan_check_v6 _ _ _ _) as [[a v]|] eqn:Ec; [|done].
    apply vlan_v6_num in Ec. cbn [mbind option_bind] in H. apply H6 in H. eapply gives_back_trans; [|exact H]. by split.
Qed.

Lemma work_back w st r : frcore_ipc_work_process rx_on cmd_padding w st = Some r -> gives_back st r.
Proof.
  unfold frcore_ipc_work_process. intros H. pose proof (counts_keep _ _ (kinds_counts (w_len w) st)) as Hk.
  eapply gives_back_trans; [exact Hk|]. set (s0 := kinds_of_pkt_len_stat (w_len w) st) in *. clearbody s0. clear Hk.
  destruct (negb (rx_on _)); [by eapply drop_back|].
  destruct (rcv_error w); [apply drop_back in H; by eapply gives_back_trans; [|exact H]|].
  destruct (check_smac _ _) as [[ok s3]|] eqn:Es; [|done]. apply check_smac_inv, counts_keep in Es. cbn [snd] in Es. cbn [mbind option_bind] in H.
  eapply (gives_back_trans _ s3); [by eapply ipc_keeps_trans; [|exact Es]|].
  destruct ok; cbn [negb] in H; [|by eapply drop_back]. destruct (read_dpkt _) as [d|]; [|done]. cbn [mbind option_bind] in H.
  apply dispatch_back in H. eapply gives_back_trans; [|exact H]. eapply ipc_keeps_trans; apply counts_keep; [apply check_exp_counts|apply check_pktid_counts].
Qed.
End process.

(** ** The handlers of the build *)

Definition ipc_work_of (w : Work.wqe) : work :=
  Work (Work.w_ipprt w) (Work.w_rcv_error w) (Work.w_len w) (Work.w_bufs w) (Work.w_ip_offset w) (Work.w_packet_data w) (Work.w_packet_ptr w).

(** ** Commands of the component *)

(** What the handlers do not check: the index of the piece of the payload, and that a length
    of at most [IPC_IP_LEN_MAX] leaves room for the header. *)
Definition command_safe (cmd : Z) (p : list Z) : Prop :=
  (cmd = USER_CMD_IPC_INSTR_PAYLOAD_SET -> forall index, card_get p 32 8 = Some index -> u64 (index * INSTR_PAYLOAD_SZ) <= 2016) /\
  (cmd = USER_CMD_IPC_INSTR_SET -> forall len, card_get p 8 4 = Some len -> len <= 2016 \/ IPC_IP_LEN_MAX < len).

(** What a command leaves as it is. *)
Definition sys_good (st : ipc_sys) : Prop := ipc_inv st /\ ip_len (instr_cfg st) <= 2016 /\ 0 < vlan_id_num (vlan st).

#[local] Ltac fields p :=
  repeat match goal with |- context [card_get p ?o ?k ≫= _] => destruct (card_get_defined p o k) as [? ->]; [lia..|]; cbn [mbind option_bind] end.

#[local] Ltac answer out :=
  match goal with |- context [write_bytes out ?o ?bs ≫= _] =>
    rewrite (write_bytes_eq out o bs) by (rewrite ?length_app, ?length_be_bytes; lia) end; cbn [mbind option_bind].

Lemma sys_good_same st st' : vlan st' = vlan st -> instr_cfg st' = instr_cfg st -> ipc_inv st' -> sys_good st -> sys_good st'.
Proof. intros Hv Hc Hi (_ & Hl & Hn). unfold sys_good. by rewrite Hv, Hc. Qed.

(** Every command with its parameters in the packet is carried out. *)
Lemma handler_defined cmd fn plen p out st : (cmd, fn) ∈ ipc_handlers -> byte_list p -> plen <= Z.of_nat (length p) -> (64 <= length out)%nat ->
  command_safe cmd p -> sys_good st ->
  exists rv olen out' st', fn plen (if plen =? 0 then None else Some p) out st = Some (rv, olen, out', st') /\ sys_good st'.
Proof.
  intros Hin Hb Hl Ho [Hpay Hlen] Hg.
  enough (exists rv olen out' st', fn plen (if plen =? 0 then None else Some p) out st = Some (rv, olen, out', st') /\
    vlan st' = vlan st /\ ip_len (instr_cfg st') <= 2016) as (rv & olen & out' & st' & E & Hv & Hc).
  { do 4 eexists. split; [exact E|]. destruct Hg as (Hi & _ & Hn). unfold sys_good. rewrite Hv. split_and!; [|done..].
    eapply handler_inv; [exact Hin| |exact Hi|exact E]. intros q Hq. destruct (plen =? 0); by simplify_eq. }
  destruct Hg as (Hi & Hl0 & _). assert (Hp := ii_payload _ Hi). unfold IPC_IP_LEN_MAX in Hp. unfold ipc_handlers in Hin.
  repeat (apply elem_of_cons in Hin as [[= -> ->]|Hin]); [..|by apply elem_of_nil in Hin].
  - unfold frcore_cmd_ipc_cur_set. destruct (Z.eqb_spec plen SIZEOF_IPC_CUR) as [->|]; cbn [negb]; [|by do 4 eexists].
    change (SIZEOF_IPC_CUR =? 0) with false. unfold SIZEOF_IPC_CUR in Hl. cbn [mbind option_bind]. fields p. by do 4 eexists.
  - unfold frcore_cmd_ipc_cur_get. answer out. by do 4 eexists.
  - unfold frcore_cmd_ipc_misc_set. destruct (Z.eqb_spec plen SIZEOF_IPC_MISC) as [->|]; cbn [negb]; [|by do 4 eexists].
    change (SIZEOF_IPC_MISC =? 0) with false. unfold SIZEOF_IPC_MISC in Hl. cbn [mbind option_bind]. fields p. by do 4 eexists.
  - unfold frcore_cmd_ipc_misc_get. cbv zeta. answer out. by do 4 eexists.
  - unfold frcore_cmd_ipc_exp_set. destruct (Z.eqb_spec plen SIZEOF_IPC_EXP) as [->|]; cbn [negb]; [|by do 4 eexists].
    change (SIZEOF_IPC_EXP =? 0) with false. unfold SIZEOF_IPC_EXP in Hl. cbn [mbind option_bind]. fields p. by do 4 eexists.
  - unfold frcore_cmd_ipc_exp_get. cbv zeta. answer out. by do 4 eexists.
  - unfold frcore_cmd_ipc_instr_set. destruct (Z.eqb_spec plen SIZEOF_IPC_INSTR_CFG) as [->|]; cbn [negb]; [|by do 4 eexists].
    change (SIZEOF_IPC_INSTR_CFG =? 0) with false. unfold SIZEOF_IPC_INSTR_CFG in Hl. cbn [mbind option_bind].
    destruct (card_get_defined p 8 4) as [len El]; [lia..|]. specialize (Hlen eq_refl len El). rewrite El. fields p. cbn [mbind option_bind]. fields p.
    rewrite Z.gtb_ltb. destruct (Z.ltb_spec IPC_IP_LEN_MAX len); do 4 eexists; (split; [done|]); split; [done|lia|done|cbn [instr_cfg set_instr ip_len]; lia].
  - unfold frcore_cmd_ipc_instr_payload_set. destruct (Z.eqb_spec plen SIZEOF_IPC_PAYLOAD_SET) as [->|]; cbn [negb]; [|by do 4 eexists].
    change (SIZEOF_IPC_PAYLOAD_SET =? 0) with false. unfold SIZEOF_IPC_PAYLOAD_SET in Hl. cbn [mbind option_bind].
    destruct (read_bytes_Some p 0 INSTR_PAYLOAD_SZ) as [data Ed]; [lia|unfold INSTR_PAYLOAD_SZ; lia|]. rewrite Ed. cbn [mbind option_bind].
    destruct (card_get_defined p 32 8) as [index Ei]; [lia..|]. specialize (Hpay eq_refl index Ei). rewrite Ei. cbn [mbind option_bind].
    pose proof (Z.mod_pos_bound (index * INSTR_PAYLOAD_SZ) (2 ^ 64) ltac:(lia)) as Hm. fold (u64 (index * INSTR_PAYLOAD_SZ)) in Hm.
    assert (length (swap_buff 4 data) = 32%nat) as Hd.
    { rewrite read_bytes_eq in Ed by (unfold INSTR_PAYLOAD_SZ; lia). injection Ed as <-. rewrite length_swap_buff; rewrite length_take, length_drop; unfold INSTR_PAYLOAD_SZ; lia. }
    rewrite write_bytes_eq by (rewrite Hd; lia). cbn [mbind option_bind]. by do 4 eexists.
  - unfold frcore_cmd_ipc_instr_get, instr_cfg_bytes. answer out. by do 4 eexists.
Qed.

(** The handlers of the table are the component's. *)
Lemma ipc_table_in ty cmd fn : ipc_table ty cmd = Some fn -> ty = CMD_TYPE_USER /\ (cmd, fn) ∈ ipc_handlers.
Proof.
  unfold ipc_table. enough (forall l f, table_of l f ty cmd = Some fn -> (ty = CMD_TYPE_USER /\ (cmd, fn) ∈ l) \/ f ty cmd = Some fn) as H
    by (intros E; by destruct (H _ _ E)).
  induction l as [|[c g] l IH]; intros f E; cbn [table_of] in E; [by right|].
  apply IH in E as [[? ?]|E]; [left; split; [done|by right]|]. unfold update in E. case_decide as Hd; [|by right].
  destruct Hd as [-> ->]. injection E as <-. left. split; [done|left].
Qed.

(** A command as the tool's driver sends it: its parameters are in the packet, and it is not
    for the table nobody wrote. *)
Definition tool_packet_ok (p : list Z) : Prop :=
  byte_list p /\ exists hd, read_bytes p 0 8 = Some hd /\
    let c := cmd_of_word (le_value (reverse hd)) in
    c_type c <> CMD_TYPE_DRV /\ c_len c + 8 <= Z.of_nat (length p) /\ command_safe (c_cmd c) (drop 8 p).

Lemma cmd_of_word_ok w : cmd_ok (cmd_of_word w).
Proof. split; apply Z.mod_pos_bound; lia. Qed.

Lemma tool_packet_defined max sets ready p st : table_is max ipc_table sets -> tool_packet_ok p -> sys_good st ->
  exists o st', frcore_process_frc_cmd ready p (Card sets true st) = Some (o, st') /\ sys_good (components st').
Proof.
  intros Ht (Hb & hd & Er & Hd & Hl & Hs) Hg. unfold frcore_process_frc_cmd. destruct (negb ready); [by do 2 eexists|].
  cbn [negb respond_buf]. rewrite Er. cbn [mbind option_bind]. set (c := cmd_of_word _) in *.
  rewrite (find_handler_spec max ipc_table) by (first [done|apply cmd_of_word_ok]). cbn [mbind option_bind components frcore_cmdset respond_buf].
  destruct (max_of max (c_type c)) as [m|]; [|by do 2 eexists]. destruct (c_cmd c >=? m); [by do 2 eexists|].
  destruct (ipc_table (c_type c) (c_cmd c)) as [fn|] eqn:Ef; [|by do 2 eexists]. apply ipc_table_in in Ef as [_ Hin].
  destruct (handler_defined _ fn (c_len c) (drop 8 p) (replicate (Z.to_nat FRC_CMD_RESPOND_DATA_SZ) 0) st Hin) as (rv & olen & out & st' & -> & Hg').
  - by apply Forall_drop.
  - rewrite length_drop. lia.
  - rewrite length_replicate. unfold FRC_CMD_RESPOND_DATA_SZ. lia.
  - done.
  - done.
  - cbn [mbind option_bind]. by do 2 eexists.
Qed.

(** ** The build *)

(** The component, and the switches of the ports ([octnic->port[p].rx_on], eight bits). *)
Record ipc_host : Type := IpcHost { ipc : ipc_sys; rx_on : Z -> bool }.

Section build.
Context (cmd_padding : list Z) (CVM_RAW_FRONT_SIZE : nat) (pko_ready : bool) (max : Z).
Context (sets : list (frcore_cmd_set_t (S := ipc_sys))).

(** The command behind the front of the host's instruction. *)
Definition tool_packet (w : Work.wqe) : list Z := drop CVM_RAW_FRONT_SIZE (Work.w_packet_data w).

(** [FRC_CONFIG_SIMPLE_PACKAGE], [FRC_CONFIG_SSN_CHAN] and [FRC_CONFIG_AGE] are 0: there is no
    handler of timers. *)
Definition ipc_handlers_of : Work.Handlers ipc_host := {|
  Work.frcore_dat_work_process w c :=
    '(rv, s) ← frcore_ipc_work_process (rx_on (Work.comp c)) cmd_padding (ipc_work_of w) (ipc (Work.comp c));
    Some (rv, Work.set_comp (IpcHost s (rx_on (Work.comp c))) c);
  Work.frcore_chan_process _ _ := None;
  Work.frcore_ssn_age_process _ _ := None;
  Work.port_rx_on := rx_on;
  Work.set_port_rx_on p on s := Some (IpcHost (ipc s) (<[p := negb (u8 on =? 0)]> (rx_on s)));
  Work.tool_command w s :=
    '(_, st) ← frcore_process_frc_cmd pko_ready (tool_packet w) (Card sets true (ipc s));
    Some (IpcHost (components st) (rx_on s)) |}.
#[export] Existing Instance ipc_handlers_of.

Definition ipc_ok (s : ipc_host) : Prop := sys_good (ipc s).
Definition ipc_good (w : Work.wqe) : Prop :=
  packet_fits (ipc_work_of w) /\ forall d, read_dpkt (Ipc.ether_of (ipc_work_of w)) = Some d -> chassis d < 4.
(** A command of the tool is one the driver sends; the network commands are any. *)
Definition ipc_command (w : Work.wqe) : Prop := Work.w_opcode w = Work.FRC_CMD_REQUEST_OP -> tool_packet_ok (tool_packet w).

#[export] Instance ipc_laws (Hpad : length cmd_padding = 6%nat) (Ht : table_is max ipc_table sets) :
  WorkThm.HandlerLaws ipc_handlers_of (fun s _ => ipc_ok s) ipc_good ipc_command (fun _ => False).
Proof.
  split; [done| |by intros w s fs _ []..| |].
  - intros w c (Hinv & Hl & Hn) [Hf Hd].
    destruct (read_dpkt_defined (Ipc.ether_of (ipc_work_of w))) as [d Er]; [destruct Hf; lia|].
    destruct (work_defined (rx_on (Work.comp c)) cmd_padding Hpad (ipc_work_of w) d (ipc (Work.comp c)) Hinv Hf Er) as [[rv s] E]; [right; split; [by apply Hd|done]|done|].
    exists rv, (Work.set_comp (IpcHost s (rx_on (Work.comp c))) c), []. cbn [Work.frcore_dat_work_process ipc_handlers_of]. rewrite E. cbn [mbind option_bind].
    pose proof (work_back _ _ _ _ _ E) as [Hrv [Hc Hv]]. cbn [fst snd] in *. split_and!; [done| | |].
    + unfold ipc_ok, sys_good. cbn [Work.comp Work.set_comp ipc]. rewrite Hc, Hv. split_and!; [|done..]. eapply work_inv; [done| |done|exact E]. apply Hf.
    + by rewrite app_nil_r.
    + split; [by destruct Hrv as [-> | ->]|apply not_elem_of_nil].
  - intros w p on s fs Hok _. by eexists.
  - intros w s fs Hok Hw Ho. destruct (tool_packet_defined max sets pko_ready (tool_packet w) (ipc s) Ht (Hw Ho) Hok) as (o & st' & E & Hg).
    cbn [Work.tool_command ipc_handlers_of]. rewrite E. cbn [mbind option_bind]. by eexists.
Qed.
End build.


(** Port 0 is switched off, and a packet comes; the tool asks for the current packet number; a
    packet with an error; the host asks for the links. *)
Definition entry (id : Z) (software : bool) (op : Work.opcode) (err : bool) (data ptr : list Z) : Work.wqe :=
  Work.Wqe id 0 false software op 0 0 0 60 err Work.OVER_ERR (if software then 0 else 1) 14 0 false false false false true data ptr.
Definition tool_ask : list Z := replicate 8 0 ++ be_bytes 8 (cmd_word (FrcoreCmd CMD_TYPE_USER USER_CMD_IPC_CUR_GET 0 1)).
Definition some_work : list Work.wqe :=
  [entry 1 false Work.OTHER_OP false [] sample_ether; entry 2 true Work.OCT_NW_CMD_OP false [] []; entry 3 false Work.OTHER_OP false [] sample_ether;
   entry 4 true Work.FRC_CMD_REQUEST_OP false tool_ask []; entry 5 false Work.OTHER_OP true [] []; entry 6 true Work.HOST_NW_INFO_OP false [] []].
Definition port_off_sdk : Work.host_sdk := Work.HostSdk (fun _ => Some (0, 0)) (fun _ => 0) 128 4.

Lemma wire_good id : ipc_good (entry id false Work.OTHER_OP false [] sample_ether).
Proof.
  split; [|intros d Hd; vm_compute in Hd; injection Hd as <-; by vm_compute]. split; [vm_compute; lia|]. split; [vm_compute; lia|]. repeat constructor; vm_compute; congruence.
Qed.

Lemma tool_ask_ok : tool_packet_ok (drop 8 tool_ask).
Proof.
  split; [repeat constructor; vm_compute; congruence|]. eexists. split; [reflexivity|]. split_and!; [vm_compute; congruence..|].
  split; intros E; vm_compute in E; congruence.
Qed.

Lemma some_sets : exists sets : list (frcore_cmd_set_t (S := ipc_sys)), table_is 58 ipc_table sets.
Proof.
  destruct (table_init_upto zero_mem ipc_load zero_mem_size) as (rv & k & t & E & _ & _).
  destruct (init_table_spec 58 (fun _ => true) true zero_mem (Card [] false ipc_load) _ _ ltac:(lia) ltac:(reflexivity) E)
    as (st0 & st' & _ & _ & Ht & _). by exists (frcore_cmdset st').
Qed.

