(* ===== verification/IpPath.v ===== *)
(** * The path of IP packets: frcore_pkt.c, frcore_ip.c and frcore_udp.c

    Without [FRC_CONFIG_IPC] a packet of the wire goes to [frcore_pkt_work_process]: it is
    sent back with its addresses exchanged (the build with address statistics), or its
    headers are looked at and it passes the rules, the two-tuple filters, TCP or UDP, the
    VLAN check and the timestamp check, as far as they are compiled in ([ip_config]).
    Rules, filters, TCP and the FIFO of UDP records are reached through the class
    [Branches]; the other components are part of the state. *)

From stdpp Require Import list functions.
From S2P Require Import Prelude Bytes VlanCheck Timestamp MacStat Work.
From S2P Require Cmd Ipc SsnBlock Chan.
#[local] Open Scope Z_scope.

(** ** Constants *)
Definition PROTO_TCP : Z := 0x06.
Definition PROTO_UDP : Z := 0x11.
Definition ETH_P_MPLS_UC : Z := 0x8847.
Definition ETH_P_MPLS_MC : Z := 0x8848.
Definition ETH_P_PPP_DISC : Z := 0x8863.
Definition ETH_P_PPP_SES : Z := 0x8864.
Definition xe0_stat_rxx_pkts : Z := 0.
Definition xe0_stat_rxx_bytes : Z := 1.

(** ** Data *)

(** The switches of frc_config.h. *)
Record ip_config : Type := IpConfig {
  FRC_CONFIG_VLAN_CHECK : bool; FRC_CONFIG_TIMESTAMP_CHECK : bool; FRC_CONFIG_MAC_STATISTICS : bool;
  FRC_CONFIG_RULE : bool; FRC_CONFIG_TWO_TUPLE : bool; FRC_CONFIG_TCP : bool; FRC_CONFIG_UDP : bool }.

(** The counters of this path; those it shares with [Ipc] are kept there. *)
Inductive ip_stat : Type :=
| stat_not_ip | stat_mpls | stat_pppoe | stat_drop_not_ip | stat_ip | stat_ip_v4 | stat_ip_frag | stat_drop_ip_frag
| stat_ip_not_tcp_udp | stat_drop_ip_not_tcp_udp | stat_ip_other | stat_drop_ip_other | stat_tcp | stat_udp
| stat_udp_submit_pkts | stat_udp_submit_bytes.

#[export] Instance ip_stat_eq_dec : EqDecision ip_stat.
Proof. solve_decision. Defined.

(** A packet as it is handed on: the entry, the bytes from the ethernet and from the IP
    header on, where the latter lies, [payload] as an offset from it ([None] for the null
    pointer), [paylen] and the addresses. *)
Record ip_pkt : Type := IpPkt {
  p_work : wqe; eth_ptr : list Z; ip_at : Z; ip_ptr : list Z; payload : option Z; paylen : Z; smac : Z; dmac : Z }.

(** What follows the headers, and the work of the timers of FIFOs and sessions; the results
    of the first two are not looked at. *)
Class Branches (B : Type) : Type := {
  frcore_rule_process : ip_pkt -> B -> option B;
  frcore_acl_process : ip_pkt -> B -> option B;
  frcore_tcp_process : ip_pkt -> B -> option (Z * B);
  frcore_forward_simple_pkt_to_fifo : Chan.pkt -> B -> option (Z * B);
  fifo_timer : wqe -> B -> option (Z * B);
  session_timer : wqe -> B -> option (Z * B) }.

(** The variables of the files and of the components: [shared] holds the counters of the
    reception and the VLAN check.  The ghost [kept] names the entries TCP took over. *)
Record ip_sys (B : Type) : Type := IpSys {
  shared : Ipc.ipc_sys; icnt : ip_stat -> Z; stamps : ts_state; macs_of : mac_state;
  fr_enable : Z; udp_enable : Z; branches : B; kept : list Z }.
#[global] Arguments IpSys {B}.
#[global] Arguments shared {B}.
#[global] Arguments icnt {B}.
#[global] Arguments stamps {B}.
#[global] Arguments macs_of {B}.
#[global] Arguments fr_enable {B}.
#[global] Arguments udp_enable {B}.
#[global] Arguments branches {B}.
#[global] Arguments kept {B}.

(** The loaded image. *)
Definition ip_load {B : Type} (b : B) : ip_sys B := IpSys Ipc.ipc_load (fun _ => 0) ts_load mac_load 1 1 b [].

Section path.
Context {B : Type} `{!Branches B}.
Variables (cfg : ip_config) (rx_on link_status : Z -> bool).
Implicit Types (st : ip_sys B).

Definition set_shared (s : Ipc.ipc_sys) st : ip_sys B :=
  IpSys s (icnt st) (stamps st) (macs_of st) (fr_enable st) (udp_enable st) (branches st) (kept st).
Definition set_vlan (v : vlan_state) st : ip_sys B := set_shared (Ipc.set_vlan v (shared st)) st.
Definition set_stamps (t : ts_state) st : ip_sys B :=
  IpSys (shared st) (icnt st) t (macs_of st) (fr_enable st) (udp_enable st) (branches st) (kept st).
Definition set_macs_of (m : mac_state) st : ip_sys B :=
  IpSys (shared st) (icnt st) (stamps st) m (fr_enable st) (udp_enable st) (branches st) (kept st).
Definition set_branches (b : B) st : ip_sys B :=
  IpSys (shared st) (icnt st) (stamps st) (macs_of st) (fr_enable st) (udp_enable st) b (kept st).
Definition IP_STAT_ADD (k : ip_stat) (v : Z) st : ip_sys B :=
  IpSys (shared st) (<[k := u64 (icnt st k + v)]> (icnt st)) (stamps st) (macs_of st) (fr_enable st) (udp_enable st) (branches st) (kept st).
Definition IP_STAT_INC (k : ip_stat) : ip_sys B -> ip_sys B := IP_STAT_ADD k 1.
Definition PKT_STAT_INC (k : Ipc.pkt_stat) st : ip_sys B := set_shared (Ipc.FRCORE_STAT_INC k (shared st)) st.
Definition keep (w : wqe) st : ip_sys B :=
  IpSys (shared st) (icnt st) (stamps st) (macs_of st) (fr_enable st) (udp_enable st) (branches st) (kept st ++ [w_id w]).
Definition FRCORE_DROP (k : ip_stat) st : option (Z * ip_sys B) := Some (FRCORE_ACT_DROP, IP_STAT_INC k st).
Definition PKT_DROP (k : Ipc.pkt_stat) st : option (Z * ip_sys B) := Some (FRCORE_ACT_DROP, PKT_STAT_INC k st).

(** ** UDP: frcore_udp.c *)

Definition udp_hdr (p : ip_pkt) (sip dip sport dport : Z) : SsnBlock.dma_hdr :=
  SsnBlock.DmaHdr sip dip sport dport PROTO_UDP 0 1 (u16 (w_len (p_work p))) (Z.land (w_tag (p_work p)) 0xffffff) (replicate 16 0).
Definition udp_info (p : ip_pkt) (udp : Z) : SsnBlock.pkt_info :=
  SsnBlock.PktInfo 0 0 (u32 (ip_at p + udp + 8)) (u16 (paylen p - 8)) 0 (smac p) (dmac p).

Definition udp_record (p : ip_pkt) (udp : Z) (h : SsnBlock.dma_hdr) : Chan.pkt :=
  Chan.Pkt (SsnBlock.hdr_bytes h) (SsnBlock.h_total_paylen h) (SsnBlock.info_bytes (udp_info p udp)) (eth_ptr p).

Definition set_udp_enable (e : Z) st : ip_sys B :=
  IpSys (shared st) (icnt st) (stamps st) (macs_of st) (fr_enable st) e (branches st) (kept st).

(** The commands. *)
Definition frcore_cmd_udp_enable : Cmd.frcore_cmd_fn_t (ip_sys B) := fun plen param outbuf st =>
  p ← param; e ← arr_get p 0; Some (FRE_SUCCESS, 0, outbuf, set_udp_enable e st).
Definition frcore_cmd_udp_status_get : Cmd.frcore_cmd_fn_t (ip_sys B) := fun plen param outbuf st =>
  out ← write_bytes outbuf 0 [udp_enable st]; Some (FRE_SUCCESS, 1, out, st).

Definition frcore_udp_process (p : ip_pkt) st : option (Z * ip_sys B) :=
  if udp_enable st =? 0 then Some (FRCORE_ACT_FORWARD, st) else
  sip ← UP32 (ip_ptr p) 12; dip ← UP32 (ip_ptr p) 16;
  udp ← payload p;
  sport ← UP16 (ip_ptr p) udp; dport ← UP16 (ip_ptr p) (udp + 2);
  let h := udp_hdr p sip dip sport dport in
  '(rv, b) ← frcore_forward_simple_pkt_to_fifo (udp_record p udp h) (branches st);
  let st := set_branches b st in
  Some (FRCORE_ACT_FORWARD,
    if negb (rv =? FRE_SUCCESS) then st
    else IP_STAT_ADD stat_udp_submit_bytes (w_len (p_work p)) (IP_STAT_INC stat_udp_submit_pkts st)).

(** ** IP: frcore_ip.c *)

(** [ip_version] and what depends on it is compiled in with either check only. *)
Definition with_headers : bool := FRC_CONFIG_VLAN_CHECK cfg || FRC_CONFIG_TIMESTAMP_CHECK cfg.

(** The header of an IPv4 packet: the packet with its payload, and the protocol; nothing for
    a packet that is dropped. *)
Definition ip_header (p : ip_pkt) st : option (option (ip_pkt * Z) * ip_sys B) :=
  b ← arr_get (ip_ptr p) 0;
  let header_len := Z.land b 0x0f * 4 in
  let st := if header_len =? 20 then st else PKT_STAT_INC Ipc.stat_ip_option st in
  total_len ← UP16 (ip_ptr p) 2; proto ← arr_get (ip_ptr p) 9;
  let paylen := u16 (total_len - header_len) in
  if (1582 <? total_len) || (paylen =? 0) then Some (None, IP_STAT_INC stat_drop_ip_other (IP_STAT_INC stat_ip_other st))
  else Some (Some (IpPkt (p_work p) (eth_ptr p) (ip_at p) (ip_ptr p) (Some header_len) paylen (smac p) (dmac p), proto), st).

(** The protocols: a result that is returned at once, or the value of [rv]. *)
Definition ip_protocol (p : ip_pkt) (proto : Z) st : option ((Z + Z) * ip_sys B) :=
  if proto =? PROTO_TCP then
    let st := IP_STAT_INC stat_tcp st in
    if FRC_CONFIG_TCP cfg && negb (fr_enable st =? 0) then
      '(rv, b) ← frcore_tcp_process p (branches st);
      let st := set_branches b st in
      Some (inr rv, if rv =? FRCORE_ACT_UNFREE then keep (p_work p) st else st)
    else Some (inr FRCORE_ACT_DROP, st)
  else if proto =? PROTO_UDP then
    let st := IP_STAT_INC stat_udp st in
    if FRC_CONFIG_UDP cfg then '(rv, st) ← frcore_udp_process p st; Some (inr rv, st)
    else Some (inr FRCORE_ACT_DROP, st)
  else Some (inl FRCORE_ACT_DROP, IP_STAT_INC stat_drop_ip_other (IP_STAT_INC stat_ip_other st)).

(** The checks; each sets [rv], which has no value ([None]) when nothing set it. *)
Definition ip_checks (p : ip_pkt) (rv : option Z) st : option (Z * ip_sys B) :=
  let w := p_work p in
  '(rv, st) ← (
    if FRC_CONFIG_VLAN_CHECK cfg && w_vlan_valid w then
      '(a, v) ← (if w_is_v6 w then frcore_vlan_check_v6 (w_ipprt w) (eth_ptr p) (ip_ptr p) (Ipc.vlan (shared st))
                 else frcore_vlan_check_v4 (w_ipprt w) (eth_ptr p) (ip_ptr p) (Ipc.vlan (shared st)));
      Some (Some a, set_vlan v st)
    else Some (rv, st));
  '(rv, st) ← (
    if FRC_CONFIG_TIMESTAMP_CHECK cfg then
      '(a, t) ← (if w_is_v6 w then frcore_timestamp_check_v6 (w_ipprt w) (w_len w) (eth_ptr p) (ip_ptr p) (stamps st)
                 else frcore_timestamp_check_v4 (w_ipprt w) (w_len w) (eth_ptr p) (ip_ptr p) (stamps st));
      Some (Some a, set_stamps t st)
    else Some (rv, st));
  rv ← rv; Some (rv, st).

Definition ip_branches (p : ip_pkt) st : option (ip_sys B) :=
  b ← (if FRC_CONFIG_RULE cfg then frcore_rule_process p (branches st) else Some (branches st));
  b ← (if FRC_CONFIG_TWO_TUPLE cfg then frcore_acl_process p b else Some b);
  Some (set_branches b st).

Definition frcore_ip_process (p : ip_pkt) st : option (Z * ip_sys B) :=
  let w := p_work p in
  let st := IP_STAT_INC stat_ip st in
  let st := if w_is_v6 w then PKT_STAT_INC Ipc.stat_ip_v6 st else IP_STAT_INC stat_ip_v4 st in
  if w_is_v6 w && negb with_headers then PKT_DROP Ipc.stat_drop_ip_v6 st else
  let st := if w_vlan_valid w then PKT_STAT_INC Ipc.stat_vlan st else st in
  let st := if w_is_frag w then IP_STAT_INC stat_ip_frag st else st in
  if w_is_frag w && negb (FRC_CONFIG_VLAN_CHECK cfg) then FRCORE_DROP stat_drop_ip_frag st else
  if negb (w_tcp_or_udp w) then FRCORE_DROP stat_drop_ip_not_tcp_udp (IP_STAT_INC stat_ip_not_tcp_udp st) else
  if with_headers && negb (w_is_v6 w) then
    '(o, st) ← ip_header p st;
    match o with
    | None => Some (FRCORE_ACT_DROP, st)
    | Some (p, proto) =>
      st ← ip_branches p st;
      '(r, st) ← ip_protocol p proto st;
      match r with inl rv => Some (rv, st) | inr rv => ip_checks p (Some rv) st end
    end
  else st ← ip_branches p st; ip_checks p None st.

(** ** Reception: frcore_pkt.c *)

Definition FRCORE_PORT_VLAN_STAT_ADD (port cnt v : Z) (vs : vlan_state) : option vlan_state :=
  let cnt := if port =? 0 then cnt else cnt + stat_vlan_id_max / 2 in
  x ← arr_get (vlan_id_stat vs) cnt; s ← arr_set (vlan_id_stat vs) cnt (wraps 64 (x + v)); Some (set_stat vs s).

(** Where the IP header lies, and the packet from there on. *)
Definition ip_start (w : wqe) : Z := if w_bufs w =? 0 then w_ip_offset w + 6 else w_ip_offset w.
Definition ip_pkt_of (w : wqe) : option ip_pkt :=
  let e := ether_of w in
  let o := ip_start w in
  d ← Ipc.mac_value e 0; s ← Ipc.mac_value e 6;
  Some (IpPkt w e o (drop (Z.to_nat o) e) None 0 s d).

Definition swap_mac_addr (p : list Z) : option (list Z) :=
  s ← read_bytes p 0 2; w ← read_bytes p 2 4; a ← read_bytes p 6 2; b ← read_bytes p 8 4;
  p ← write_bytes p 0 a; p ← write_bytes p 2 b; p ← write_bytes p 6 s; write_bytes p 8 w.

(** The entry after its packet was written to. *)
Definition with_ether (w : wqe) (e : list Z) : wqe :=
  let d := if w_bufs w =? 0 then e else w_packet_data w in
  let p := if w_bufs w =? 0 then w_packet_ptr w else e in
  Wqe (w_id w) (w_grp w) (w_aging w) (w_software w) (w_opcode w) (w_param w) (w_unused w) (w_ipprt w) (w_len w) (w_rcv_error w)
    (w_err_code w) (w_bufs w) (w_ip_offset w) (w_tag w) (w_not_IP w) (w_is_v6 w) (w_vlan_valid w) (w_is_frag w) (w_tcp_or_udp w) d p.

Definition send_swapped (w : wqe) (e : list Z) (c : core (ip_sys B)) : option (core (ip_sys B)) :=
  e ← swap_mac_addr e; Some (frcore_forward_packet_to_wire link_status (with_ether w e) (u8 (w_ipprt w)) c).

(** A packet of the two groups is freed first, and then treated as any other. *)
Definition frcore_pkt_sendback (w : wqe) (c : core (ip_sys B)) : option (Z * core (ip_sys B)) :=
  let c := if (w_grp w =? FRC_PKT_GRP) || (w_grp w =? FRC_CMD_GRP) then end_work w Freed c else c in
  let e := ether_of w in
  ty ← card_get e 12 2;
  if negb (ty =? 0x88a8) then
    '(_, e, m) ← frcore_mac_statistics_counter_inc e (macs_of (comp c));
    c ← send_swapped w e (set_comp (set_macs_of m (comp c)) c);
    Some (FRCORE_ACT_UNFREE, FRCORE_STAT_INC stat_swap_mac_send_pkts c)
  else
    let c := FRCORE_STAT_INC stat_heart_beat_pkt c in
    let hb := heart_beat (macs_of (comp c)) in
    if hb =? HEART_BEAT_ON_WITH_DROP then
      b ← arr_get e 5;
      if negb (b `mod` 64 =? 0) then
        c ← send_swapped w e (FRCORE_STAT_INC stat_heart_beat_send_back_pkt c); Some (FRCORE_ACT_UNFREE, c)
      else Some (FRCORE_ACT_DROP, FRCORE_STAT_INC stat_heart_beat_on_drop_pkt c)
    else if hb =? HEART_BEAT_ON then
      c ← send_swapped w e (FRCORE_STAT_INC stat_heart_beat_send_back_pkt c); Some (FRCORE_ACT_UNFREE, c)
    else Some (FRCORE_ACT_DROP, FRCORE_STAT_INC stat_heart_beat_drop_pkt c).

(** The counters of a packet that is not IP. *)
Definition not_ip_stats (w : wqe) st : option (ip_sys B) :=
  ty ← UP16 (ether_of w) 12;
  let st := IP_STAT_INC stat_not_ip st in
  let st := if (ty =? ETH_P_MPLS_UC) || (ty =? ETH_P_MPLS_MC) then IP_STAT_INC stat_mpls st else st in
  Some (if (ty =? ETH_P_PPP_DISC) || (ty =? ETH_P_PPP_SES) then IP_STAT_INC stat_pppoe st else st).

(** What is counted before the builds differ; [false] for a packet that is dropped. *)
Definition receive (w : wqe) st : option (bool * ip_sys B) :=
  let st := set_shared (Ipc.kinds_of_pkt_len_stat (w_len w) (shared st)) st in
  if negb (rx_on (w_ipprt w)) then Some (false, PKT_STAT_INC Ipc.stat_drop_port_off st) else
  if w_rcv_error w then Some (false, PKT_STAT_INC Ipc.stat_drop_rx_error (PKT_STAT_INC Ipc.stat_rx_errs st)) else
  let st := set_shared (Ipc.FRCORE_STAT_ADD Ipc.stat_rx_bytes (w_len w + 4) (Ipc.FRCORE_STAT_INC Ipc.stat_rx_pkts (shared st))) st in
  if FRC_CONFIG_VLAN_CHECK cfg then
    v ← FRCORE_PORT_VLAN_STAT_INC (w_ipprt w) xe0_stat_rxx_pkts (Ipc.vlan (shared st));
    v ← FRCORE_PORT_VLAN_STAT_ADD (w_ipprt w) xe0_stat_rxx_bytes (w_len w + 4) v;
    Some (true, set_vlan v st)
  else Some (true, st).

Definition pkt_headers (w : wqe) st : option (Z * ip_sys B) :=
  if w_not_IP w then st ← not_ip_stats w st; FRCORE_DROP stat_drop_not_ip st
  else p ← ip_pkt_of w; frcore_ip_process p st.

(** The entries kept meanwhile become fates. *)
Definition settle (st : ip_sys B) (c : core (ip_sys B)) : core (ip_sys B) :=
  Core st (cnt c) (fates c ++ ((fun i => (i, Kept)) <$> drop (length (kept (comp c))) (kept st))) (pko c).

Definition frcore_pkt_work_process (w : wqe) (c : core (ip_sys B)) : option (Z * core (ip_sys B)) :=
  '(go, st) ← receive w (comp c);
  if negb go then Some (FRCORE_ACT_DROP, set_comp st c) else
  if FRC_CONFIG_MAC_STATISTICS cfg then frcore_pkt_sendback w (set_comp st c)
  else '(rv, st) ← pkt_headers w st; Some (rv, settle st c).

(** The handlers of a build without [FRC_CONFIG_IPC].  The commands of the host are not part of
    this model: the ports keep their switches. *)
Definition on_branches (f : B -> option (Z * B)) st : option (Z * ip_sys B) := '(rv, b) ← f (branches st); Some (rv, set_branches b st).
Definition path_handlers : Handlers (ip_sys B) := {|
  frcore_dat_work_process := frcore_pkt_work_process;
  frcore_chan_process w := on_branches (fifo_timer w);
  frcore_ssn_age_process w := on_branches (session_timer w);
  port_rx_on _ := rx_on;
  set_port_rx_on _ _ _ := None;
  tool_command _ _ := None |}.
End path.
