(* ===== verification/IpPathThm.v ===== *)
(** * The path of IP packets: definedness, verdicts and owners

    For any configuration and any components behind the headers that satisfy [BranchLaws]:
    when a packet gets a verdict at all, and who owns its entry then.  From them every
    entry is given back once by the builds without address statistics, apart from TCP
    packets whose verdict a check overwrites. *)

From stdpp Require Import list functions.
From S2P Require Import Prelude Bytes VlanCheck Timestamp MacStat Work WorkThm IpPath.
From S2P Require Ipc IpcProps MacStatProps SsnBlock Chan ChanSys.
#[local] Open Scope Z_scope.

(** ** The timestamp check is defined *)

Record ts_ok (st : ts_state) : Prop := TsOk {
  to_stat : length (timestamp_stat st) = 310%nat; to_rows : length (timestamp_checks st) = 2%nat;
  to_cols : Forall (fun r => length r = 16%nat) (timestamp_checks st) }.

Lemma ts_add_ok i v st : ts_ok st -> 0 <= i < 310 -> exists st', FRCORE_TIMESTAMP_STAT_ADD i v st = Some st' /\ ts_ok st'.
Proof.
  intros [Hs Hr Hc] Hi. unfold FRCORE_TIMESTAMP_STAT_ADD. destruct (arr_get_is_Some (timestamp_stat st) i) as [x ->]; [lia|].
  cbn [mbind option_bind]. rewrite arr_set_eq by lia. eexists. split; [done|]. split; [|done..]. simpl. by rewrite length_insert.
Qed.

Lemma ts_port_ok k xe p st : ts_ok st -> 0 <= p < 16 -> exists st', FRCORE_TIMESTAMP_STAT_XE_PORT_INC k xe p st = Some st' /\ ts_ok st'.
Proof.
  intros H Hp. assert (0 <= port_stat_pos k <= 8) by (destruct k; simpl; lia). unfold FRCORE_TIMESTAMP_STAT_XE_PORT_INC, FRCORE_TIMESTAMP_STAT_INC.
  destruct (0 =? xe); apply ts_add_ok; try done; unfold xe0_stat_port0_rxx_pkts, xe1_stat_port0_rxx_pkts; lia.
Qed.

Lemma ts_ranges_ok xe p s st : ts_ok st -> 0 <= p < 16 -> exists r, check_ranges xe p s st = Some r /\ ts_ok r.2.
Proof.
  intros H Hp. unfold check_ranges. generalize (range_tests s) false. intros ts. revert st H.
  induction ts as [|[b k] ts IH]; intros st H fl; cbn [foldM]; [by eexists|].
  assert (range_test xe p (fl, st) (b, k) = if b then st ← FRCORE_TIMESTAMP_STAT_XE_PORT_INC k xe p st; Some (true, st) else Some (fl, st)) as -> by done.
  destruct b; [|by apply IH]. destruct (ts_port_ok k xe p st H Hp) as (st' & -> & H'). cbn [mbind option_bind]. by apply IH.
Qed.

Lemma ts_reference_ok xe p sip t st : ts_ok st -> 0 <= xe < 2 -> 0 <= p < 16 -> exists st', check_reference xe p sip t st = Some st' /\ ts_ok st'.
Proof.
  intros H Hx Hp. pose proof H as [Hs Hr Hc]. unfold check_reference.
  destruct (arr_get_is_Some (timestamp_checks st) xe) as [row Er]; [lia|]. rewrite Er. cbn [mbind option_bind].
  assert (length row = 16%nat) as Hl by (apply arr_get_Some in Er as [_ Er]; exact (Forall_lookup_1 _ _ _ _ Hc Er)).
  destruct (arr_get_is_Some row p) as [ck ->]; [lia|]. cbn [mbind option_bind].
  destruct (negb _); [destruct (_ >=? _); [by apply ts_port_ok|]; destruct (_ >=? _); [by apply ts_port_ok|by eexists]|].
  rewrite !arr_set_eq by lia. cbn [mbind option_bind]. rewrite arr_set_eq by lia. eexists. split; [done|]. split; [done|simpl; by rewrite length_insert|].
  simpl. apply Forall_insert; [done|by rewrite length_insert].
Qed.

Lemma read_stamp_Some p : (12 <= length p)%nat -> is_Some (read_stamp p).
Proof.
  intros H. unfold read_stamp.
  repeat match goal with |- context [arr_get p ?i] => let E := fresh in destruct (arr_get_is_Some p i) as [? E]; [lia|]; rewrite E; clear E; cbn [mbind option_bind] end. by eexists.
Qed.

Lemma timestamp_defined o ipprt len eth ip st : ts_ok st -> (12 <= length eth)%nat -> 0 <= o -> o + 4 <= Z.of_nat (length ip) ->
  exists st', timestamp_check_at o ipprt len eth ip st = Some (FRCORE_ACT_FORWARD, st') /\ ts_ok st'.
Proof.
  intros H0 He Ho Hi. unfold timestamp_check_at. set (xe := if ipprt =? 0 then 0 else 1).
  assert (0 <= xe < 2) as Hx by (unfold xe; destruct (_ =? _); lia).
  destruct (UP32_Some ip o) as [sip ->]; [lia..|]. cbn [mbind option_bind].
  destruct (arr_get_is_Some ip o) as [b ->]; [lia|]. cbn [mbind option_bind]. set (p := Z.land b 0xff `mod` 16).
  assert (0 <= p < 16) as Hp by (apply Z.mod_pos_bound; lia). destruct (read_stamp_Some eth He) as [s ->]. cbn [mbind option_bind].
  destruct (ts_add_ok stat_rxx_pkts 1 st H0) as (s1 & E1 & H1); [done|]. unfold FRCORE_TIMESTAMP_STAT_INC at 1. rewrite E1. cbn [mbind option_bind].
  destruct (ts_add_ok stat_rxx_bytes len s1 H1) as (s2 & E2 & H2); [done|]. rewrite E2. cbn [mbind option_bind].
  assert (exists s3, FRCORE_TIMESTAMP_STAT_XE_PKTS_INC xe s2 = Some s3 /\ ts_ok s3) as (s3 & -> & H3)
    by (unfold FRCORE_TIMESTAMP_STAT_XE_PKTS_INC; destruct (0 =? xe); by apply ts_add_ok). cbn [mbind option_bind].
  assert (exists s4, FRCORE_TIMESTAMP_STAT_XE_BYTES_ADD xe len s3 = Some s4 /\ ts_ok s4) as (s4 & -> & H4)
    by (unfold FRCORE_TIMESTAMP_STAT_XE_BYTES_ADD; destruct (0 =? xe); by apply ts_add_ok). cbn [mbind option_bind].
  destruct (ts_add_ok (stat_port0_rxx_pkts + p * 19) 1 s4 H4) as (s5 & E5 & H5); [unfold stat_port0_rxx_pkts; lia|].
  unfold FRCORE_TIMESTAMP_STAT_PORT_PKTS_INC, FRCORE_TIMESTAMP_STAT_INC. rewrite E5. cbn [mbind option_bind].
  destruct (ts_port_ok rxx_pkts xe p s5 H5 Hp) as (s6 & -> & H6). cbn [mbind option_bind].
  destruct (ts_ranges_ok xe p s s6 H6 Hp) as ([fl s7] & -> & H7). cbn [mbind option_bind]. destruct fl; [by eexists|].
  destruct (ts_reference_ok xe p sip (stamptime s) s7 H7 Hx Hp) as (s8 & -> & H8). by eexists.
Qed.

(** ** Components behind the headers *)

(** A packet whose memory holds its headers and what is copied of it. *)
Record fits (p : ip_pkt) : Prop := Fits {
  fp_eth : (16 <= length (eth_ptr p))%nat; fp_ip : (64 <= length (ip_ptr p))%nat;
  fp_len : 0 <= w_len (p_work p) <= 1600; fp_bytes : w_len (p_work p) <= Z.of_nat (length (eth_ptr p));
  fp_src : eth_ptr p = ether_of (p_work p); fp_hdr : ip_ptr p = drop (Z.to_nat (ip_start (p_work p))) (ether_of (p_work p)) }.

(** A packet whose header says TCP. *)
Definition is_tcp (w : wqe) : bool :=
  negb (w_is_v6 w) && bool_decide (arr_get (drop (Z.to_nat (ip_start w)) (ether_of w)) 9 = Some PROTO_TCP).

(** The components are well formed ([bok], with the names of the entries TCP kept so far)
    before a packet, and its last call may lead on ([bok']); what is not compiled in is not
    asked for. *)
Class BranchLaws {B : Type} (cfg : ip_config) (H : Branches B) (bok bok' : list Z -> B -> Prop) (tcp_good timer_ok : wqe -> Prop) : Prop := {
  law_sub l b : bok l b -> bok' l b;
  law_rule l p b : FRC_CONFIG_RULE cfg = true -> bok l b -> fits p -> exists b', frcore_rule_process p b = Some b' /\ bok l b';
  law_acl l p b : FRC_CONFIG_TWO_TUPLE cfg = true -> bok l b -> fits p -> exists b', frcore_acl_process p b = Some b' /\ bok l b';
  law_tcp l p b : FRC_CONFIG_TCP cfg = true -> bok l b -> fits p -> tcp_good (p_work p) ->
    exists rv b', frcore_tcp_process p b = Some (rv, b') /\
      bok' (l ++ if rv =? FRCORE_ACT_UNFREE then [w_id (p_work p)] else []) b' /\ (rv = FRCORE_ACT_UNFREE \/ frees rv = true);
  law_fifo l k b : FRC_CONFIG_UDP cfg = true -> bok l b -> ChanSys.pkt_ok 0 k ->
    exists rv b', frcore_forward_simple_pkt_to_fifo k b = Some (rv, b') /\ bok' l b';
  law_timer l w b : timer_ok w -> bok l b -> exists rv b', fifo_timer w b = Some (rv, b') /\ bok' l b' /\ frees rv = false;
  law_session l w b : timer_ok w -> bok l b -> exists rv b', session_timer w b = Some (rv, b') /\ bok' l b' /\ frees rv = false }.

Section path.
Context {B : Type} {H : Branches B}.
Variables (cfg : ip_config) (rx_on link_status : Z -> bool).
Implicit Types (st : ip_sys B) (P : list Z -> B -> Prop).

(** The components are well formed, and TCP keeps [k]. *)
Record path_ok P (k : list Z) (st : ip_sys B) : Prop := PathOk {
  po_vlan : vlan_wf (Ipc.vlan (shared st)); po_num : 0 < vlan_id_num (Ipc.vlan (shared st)); po_ts : ts_ok (stamps st);
  po_mac : MacStatProps.mac_inv (macs_of st); po_branches : P k (branches st); po_kept : kept st = k }.

Lemma path_ok_ip_stat P k c v st : path_ok P k st -> path_ok P k (IP_STAT_ADD c v st).
Proof. intros []. by split. Qed.
Lemma path_ok_pkt_stat P k c st : path_ok P k st -> path_ok P k (PKT_STAT_INC c st).
Proof. intros []. by split. Qed.
Lemma path_ok_branches P Q k b st : path_ok P k st -> Q k b -> path_ok Q k (set_branches b st).
Proof. intros [] ?. by split. Qed.
Lemma path_ok_cond P k (b : bool) st st' : path_ok P k st -> path_ok P k st' -> path_ok P k (if b then st else st').
Proof. by destruct b. Qed.
Lemma path_ok_sub P Q k st : (forall l b, P l b -> Q l b) -> path_ok P k st -> path_ok Q k st.
Proof. intros HPQ []. split; auto. Qed.
Lemma ip_load_ok P b : P [] b -> path_ok P [] (ip_load b).
Proof.
  intros Hb. split; [apply vlan_init_wf|done| |split; simpl; [done|lia|constructor]|done|done].
  split; [done|done|repeat constructor].
Qed.
#[local] Hint Resolve path_ok_ip_stat path_ok_pkt_stat path_ok_branches path_ok_cond : core.

Lemma land15_range b : 0 <= Z.land b 0x0f * 4 <= 60.
Proof. change 0x0f with (Z.ones 4). rewrite Z.land_ones by lia. pose proof (Z.mod_pos_bound b (2 ^ 4)). lia. Qed.

(** The header. *)
Lemma ip_header_spec P k p st : path_ok P k st -> fits p ->
  exists o st', ip_header p st = Some (o, st') /\ path_ok P k st' /\
    match o with
    | Some (p', proto) => fits p' /\ p_work p' = p_work p /\ arr_get (ip_ptr p) 9 = Some proto /\ exists h, payload p' = Some h /\ 0 <= h <= 60
    | None => True
    end.
Proof.
  intros Hok Hf. pose proof Hf as [He Hi Hl Hb]. unfold ip_header.
  destruct (arr_get_is_Some (ip_ptr p) 0) as [b ->]; [lia|]. cbn [mbind option_bind].
  destruct (UP16_Some (ip_ptr p) 2) as [t ->]; [lia..|]. cbn [mbind option_bind].
  destruct (arr_get_is_Some (ip_ptr p) 9) as [proto ->]; [lia|]. cbn [mbind option_bind].
  destruct (_ || _); eexists _, _; (split; [done|]); [split; [unfold IP_STAT_INC; auto 6|done]|].
  split; [auto|]. split_and!; [by split|done|done|]. exists (Z.land b 0x0f * 4). split; [done|]. apply land15_range.
Qed.

Context {bok bok' : list Z -> B -> Prop} {tcp_good timer_ok : wqe -> Prop} {laws : BranchLaws cfg H bok bok' tcp_good timer_ok}.

(** UDP: the record fits the FIFO. *)
Lemma udp_defined k p h st : FRC_CONFIG_UDP cfg = true -> path_ok bok k st -> fits p -> payload p = Some h -> 0 <= h <= 60 ->
  exists st', frcore_udp_process p st = Some (FRCORE_ACT_FORWARD, st') /\ path_ok bok' k st'.
Proof using laws.
  intros Hu Hok [He Hi Hl Hb] Hp Hh. unfold frcore_udp_process. destruct (_ =? 0); [eexists; split; [done|eapply path_ok_sub; [apply (law_sub (BranchLaws := laws))|done]]|].
  destruct (UP32_Some (ip_ptr p) 12) as [sip ->]; [lia..|]. destruct (UP32_Some (ip_ptr p) 16) as [dip ->]; [lia..|]. rewrite Hp.
  cbn [mbind option_bind]. destruct (UP16_Some (ip_ptr p) h) as [sp ->]; [lia..|]. cbn [mbind option_bind].
  destruct (UP16_Some (ip_ptr p) (h + 2)) as [dp ->]; [lia..|]. cbn [mbind option_bind].
  destruct (law_fifo (BranchLaws := laws) k (udp_record p h (udp_hdr p sip dip sp dp)) (branches st) Hu) as (rv & b & E & Hb'); [apply Hok| |].
  - split; unfold udp_record, udp_hdr; cbn [SsnBlock.h_total_paylen Chan.hdr Chan.info Chan.total_paylen Chan.payload]; rewrite ?(wrapu_id 16) by lia; [done|done|lia|].
    cbv zeta. unfold Chan.sizeof_frc_dma_hdr_t, Chan.sizeof_frc_dma_pkt_info_t, Chan.FRC_DMA_SIMPLE_PACKAGE_DATA_SIZE,
      Chan.FRC_DMA_SIMPLE_PACKAGE_BLOCK_SIZE, Chan.FRC_DMA_OFFSET. lia.
  - rewrite E. cbn [mbind option_bind]. eexists. split; [done|]. unfold IP_STAT_INC. eauto 7.
Qed.

(** What TCP answered: it kept the entry, or left it to the verdict. *)
Definition tcp_owns (w : wqe) (proto rv : Z) (ks : list Z) : Prop :=
  (ks = [] /\ frees rv = true) \/ (ks = [w_id w] /\ rv = FRCORE_ACT_UNFREE /\ FRC_CONFIG_TCP cfg = true /\ proto = PROTO_TCP).

Lemma ip_protocol_spec k p proto h st : path_ok bok k st -> fits p -> payload p = Some h -> 0 <= h <= 60 ->
  (FRC_CONFIG_TCP cfg = true -> proto = PROTO_TCP -> tcp_good (p_work p)) ->
  exists r st', ip_protocol cfg p proto st = Some (r, st') /\
    match r with
    | inl rv => frees rv = true /\ path_ok bok' k st'
    | inr rv => exists ks, tcp_owns (p_work p) proto rv ks /\ path_ok bok' (k ++ ks) st'
    end.
Proof using laws.
  intros Hok Hf Hp Hh Hg. unfold ip_protocol, tcp_owns.
  assert (forall st, path_ok bok' k st -> path_ok bok' (k ++ []) st) as Hnil by (intros; by rewrite app_nil_r).
  assert (forall st, path_ok bok k st -> path_ok bok' k st) as Hsub by (intros; eapply path_ok_sub; [apply (law_sub (BranchLaws := laws))|done]).
  destruct (Z.eqb_spec proto PROTO_TCP) as [Epr|_].
  - destruct (FRC_CONFIG_TCP cfg) eqn:Ht; cbn [andb]; [|eexists (inr _), _; split; [done|]; exists []; split; [by left|]; unfold IP_STAT_INC; auto].
    destruct (negb _); [|eexists (inr _), _; split; [done|]; exists []; split; [by left|]; unfold IP_STAT_INC; auto].
    destruct (law_tcp (BranchLaws := laws) k p (branches (IP_STAT_INC stat_tcp st)) Ht) as (rv & b & -> & Hb & Hrv); [apply Hok|done|by apply Hg|].
    cbn [mbind option_bind]. eexists (inr rv), _. split; [done|]. destruct (Z.eqb_spec rv FRCORE_ACT_UNFREE) as [->|Hne].
    + exists [w_id (p_work p)]. split; [right; by split_and!|]. destruct Hok as [? ? ? ? ? <-]. by split.
    + destruct Hrv as [?|Hrv]; [done|]. exists []. split; [by left|]. rewrite app_nil_r in Hb. apply Hnil. eapply path_ok_branches; [by apply path_ok_ip_stat|done].
  - destruct (_ =? PROTO_UDP); [|eexists (inl _), _; split; [done|]; split; [done|]; unfold IP_STAT_INC; auto].
    destruct (FRC_CONFIG_UDP cfg) eqn:Hu; [|eexists (inr _), _; split; [done|]; exists []; split; [by left|]; unfold IP_STAT_INC; auto].
    destruct (udp_defined k p h (IP_STAT_INC stat_udp st) Hu) as (st' & -> & Hok'); [unfold IP_STAT_INC; auto|done..|].
    cbn [mbind option_bind]. eexists (inr _), _. split; [done|]. exists []. split; [by left|]. auto.
Qed.

(** A check that sets the verdict whatever it was. *)
Definition overridden (w : wqe) : bool :=
  FRC_CONFIG_TIMESTAMP_CHECK cfg || (FRC_CONFIG_VLAN_CHECK cfg && w_vlan_valid w).

Lemma vlan_defined P k p st : path_ok P k st -> fits p -> exists a v,
  (if w_is_v6 (p_work p) then frcore_vlan_check_v6 (w_ipprt (p_work p)) (eth_ptr p) (ip_ptr p) (Ipc.vlan (shared st))
   else frcore_vlan_check_v4 (w_ipprt (p_work p)) (eth_ptr p) (ip_ptr p) (Ipc.vlan (shared st))) = Some (a, v) /\
  a = FRCORE_ACT_FORWARD /\ path_ok P k (set_vlan v st).
Proof.
  intros [Hv Hn] [He Hi _ _]. destruct (vlan_check_safe (w_ipprt (p_work p)) (eth_ptr p) (ip_ptr p) (ip_ptr p) (Ipc.vlan (shared st)))
    as [(v4 & E4 & H4) (v6 & E6 & H6)]; [done|done|lia..|].
  destruct (w_is_v6 (p_work p)); eexists _, _; (split; [eassumption|]); (split; [done|]).
  - pose proof (vlan_v6_num _ _ _ _ _ E6) as Hk. cbn [snd] in Hk. split; try done. simpl. by rewrite Hk.
  - pose proof (vlan_v4_num _ _ _ _ _ E4) as Hk. cbn [snd] in Hk. split; try done. simpl. by rewrite Hk.
Qed.

Lemma stamp_defined P k p st : path_ok P k st -> fits p -> exists a t,
  (if w_is_v6 (p_work p) then frcore_timestamp_check_v6 (w_ipprt (p_work p)) (w_len (p_work p)) (eth_ptr p) (ip_ptr p) (stamps st)
   else frcore_timestamp_check_v4 (w_ipprt (p_work p)) (w_len (p_work p)) (eth_ptr p) (ip_ptr p) (stamps st)) = Some (a, t) /\
  a = FRCORE_ACT_FORWARD /\ path_ok P k (set_stamps t st).
Proof.
  intros Hok [He Hi _ _]. pose proof (po_ts _ _ _ Hok) as Hts. destruct Hok.
  destruct (w_is_v6 (p_work p)); [destruct (timestamp_defined 20 (w_ipprt (p_work p)) (w_len (p_work p)) (eth_ptr p) (ip_ptr p) _ Hts) as (t & E & Ht)
                                 |destruct (timestamp_defined 12 (w_ipprt (p_work p)) (w_len (p_work p)) (eth_ptr p) (ip_ptr p) _ Hts) as (t & E & Ht)];
    try lia; eexists _, t; (split; [exact E|]); by split.
Qed.

Lemma ip_checks_spec P k p rv st : path_ok P k st -> fits p ->
  if overridden (p_work p) then exists st', ip_checks cfg p rv st = Some (FRCORE_ACT_FORWARD, st') /\ path_ok P k st'
  else ip_checks cfg p rv st = rv ← rv; Some (rv, st).
Proof.
  intros Hok Hf. unfold ip_checks, overridden. destruct (FRC_CONFIG_TIMESTAMP_CHECK cfg); cbn [orb].
  - destruct (FRC_CONFIG_VLAN_CHECK cfg && w_vlan_valid (p_work p)); cbn [mbind option_bind].
    + destruct (vlan_defined P k p st Hok Hf) as (a & v & -> & -> & Hv). cbn [mbind option_bind].
      destruct (stamp_defined P k p _ Hv Hf) as (a & t & -> & -> & Ht). cbn [mbind option_bind]. by eexists.
    + destruct (stamp_defined P k p st Hok Hf) as (a & t & -> & -> & Ht). cbn [mbind option_bind]. by eexists.
  - destruct (FRC_CONFIG_VLAN_CHECK cfg && w_vlan_valid (p_work p)); cbn [mbind option_bind]; [|done].
    destruct (vlan_defined P k p st Hok Hf) as (a & v & -> & -> & Hv). cbn [mbind option_bind]. by eexists.
Qed.

Lemma ip_branches_spec k p st : path_ok bok k st -> fits p -> exists st', ip_branches cfg p st = Some st' /\ path_ok bok k st'.
Proof using laws.
  intros Hok Hf. unfold ip_branches.
  assert (exists b, (if FRC_CONFIG_RULE cfg then frcore_rule_process p (branches st) else Some (branches st)) = Some b /\ bok k b) as (b & -> & Hb).
  { destruct (FRC_CONFIG_RULE cfg) eqn:Hr; [apply (law_rule (BranchLaws := laws)); [done|apply Hok|done]|eexists; split; [done|apply Hok]]. }
  cbn [mbind option_bind].
  assert (exists b', (if FRC_CONFIG_TWO_TUPLE cfg then frcore_acl_process p b else Some b) = Some b' /\ bok k b') as (b' & -> & Hb').
  { destruct (FRC_CONFIG_TWO_TUPLE cfg) eqn:Ht; [by apply (law_acl (BranchLaws := laws))|by eexists]. }
  cbn [mbind option_bind]. eexists. split; [done|]. by eapply path_ok_branches.
Qed.

(** The packets for which [frcore_ip_process] has a value to return. *)
Definition judged (w : wqe) : bool :=
  (w_is_v6 w && negb (with_headers cfg)) || (w_is_frag w && negb (FRC_CONFIG_VLAN_CHECK cfg)) || negb (w_tcp_or_udp w) ||
  (with_headers cfg && negb (w_is_v6 w)) || overridden w.

(** The owner of an entry: the dispatch frees it, or TCP kept it; then the verdict is TCP's,
    or that of a check. *)
Definition owner (w : wqe) (rv : Z) (ks : list Z) : Prop :=
  (ks = [] /\ frees rv = true) \/
  (ks = [w_id w] /\ FRC_CONFIG_TCP cfg = true /\ is_tcp w = true /\ rv = if overridden w then FRCORE_ACT_FORWARD else FRCORE_ACT_UNFREE).

Lemma ip_process_spec k p st : path_ok bok k st -> fits p -> (FRC_CONFIG_TCP cfg = true -> is_tcp (p_work p) = true -> tcp_good (p_work p)) ->
  if judged (p_work p) then exists rv st' ks, frcore_ip_process cfg p st = Some (rv, st') /\ path_ok bok' (k ++ ks) st' /\ owner (p_work p) rv ks
  else frcore_ip_process cfg p st = None.
Proof using laws.
  intros Hok Hf Hg. unfold frcore_ip_process, judged. set (w := p_work p). set (s1 := if w_is_v6 w then _ else _).
  assert (path_ok bok k s1) as H1 by (unfold s1, IP_STAT_INC; auto 6). clearbody s1.
  assert (forall st, path_ok bok k st -> path_ok bok' k st) as Hsub by (intros; eapply path_ok_sub; [apply (law_sub (BranchLaws := laws))|done]).
  assert (forall st, path_ok bok k st -> exists rv st' ks, Some (FRCORE_ACT_DROP, st) = Some (rv, st') /\ path_ok bok' (k ++ ks) st' /\ owner w rv ks) as Hdrop.
  { intros s Hs. exists FRCORE_ACT_DROP, s, []. rewrite app_nil_r. split_and!; [done|auto|by left]. }
  destruct (w_is_v6 w && negb (with_headers cfg)) eqn:E6; cbn [orb]; [apply Hdrop; auto|].
  set (s2 := if w_is_frag w then _ else _). assert (path_ok bok k s2) as H2 by (unfold s2, IP_STAT_INC; auto 6). clearbody s2.
  destruct (w_is_frag w && _); cbn [orb]; [apply Hdrop; unfold IP_STAT_INC; auto|].
  destruct (negb (w_tcp_or_udp w)); cbn [orb]; [apply Hdrop; unfold IP_STAT_INC; auto|].
  destruct (with_headers cfg && negb (w_is_v6 w)) eqn:Eh; cbn [orb].
  - destruct (ip_header_spec bok k p s2 H2 Hf) as (o & s3 & -> & H3 & Ho). cbn [mbind option_bind].
    destruct o as [[p' proto]|]; [|by apply Hdrop]. destruct Ho as (Hf' & Hw & Epr & h & Hp & Hh).
    assert (proto = PROTO_TCP -> is_tcp w = true) as Htcp.
    { intros ->. unfold is_tcp. rewrite (proj2 (proj1 (andb_true_iff _ _) Eh)). unfold w. rewrite <- (fp_hdr _ Hf). by apply bool_decide_eq_true. }
    destruct (ip_branches_spec k p' s3 H3 Hf') as (s4 & -> & H4). cbn [mbind option_bind].
    destruct (ip_protocol_spec k p' proto h s4 H4 Hf' Hp Hh) as (r & s5 & -> & Hr); [rewrite Hw; auto|]. cbn [mbind option_bind].
    destruct r as [rv|rv]; [destruct Hr as [Hr H5]; exists rv, s5, []; rewrite app_nil_r; split_and!; [done..|by left]|].
    destruct Hr as (ks & Ho & H5). pose proof (ip_checks_spec bok' (k ++ ks) p' (Some rv) s5 H5 Hf') as Hc. rewrite Hw in *. fold w in Hc, Ho. unfold owner.
    destruct (overridden w).
    + destruct Hc as (s6 & -> & H6). exists FRCORE_ACT_FORWARD, s6, ks. split_and!; [done..|].
      destruct Ho as [[-> _]|(-> & _ & ? & ?)]; [by left|right; split_and!; auto].
    + rewrite Hc. exists rv, s5, ks. split_and!; [done..|]. destruct Ho as [?|(-> & -> & ? & ?)]; [by left|right; split_and!; auto].
  - destruct (ip_branches_spec k p s2 H2 Hf) as (s4 & -> & H4). cbn [mbind option_bind].
    pose proof (ip_checks_spec bok' k p None s4 (Hsub _ H4) Hf) as Hc. fold w in Hc. unfold owner. destruct (overridden w); [|by rewrite Hc].
    destruct Hc as (s6 & -> & H6). exists FRCORE_ACT_FORWARD, s6, []. rewrite app_nil_r. split_and!; [done..|by left].
Qed.

(** ** From the entry on *)

(** The packet buffer holds the addresses, the headers and the bytes that are copied. *)
Record work_fits (w : wqe) : Prop := WorkFits {
  wf_ether : (16 <= length (ether_of w))%nat; wf_ip : (Z.to_nat (ip_start w) + 64 <= length (ether_of w))%nat;
  wf_len : 0 <= w_len w <= 1600; wf_bytes : w_len w <= Z.of_nat (length (ether_of w)) }.

Lemma ip_pkt_of_fits w : work_fits w -> exists p, ip_pkt_of w = Some p /\ fits p /\ p_work p = w.
Proof.
  intros []. unfold ip_pkt_of, Ipc.mac_value.
  destruct (read_bytes_Some (ether_of w) 0 6) as [d ->]; [lia..|]. destruct (read_bytes_Some (ether_of w) 6 6) as [s ->]; [lia..|].
  cbn [mbind option_bind]. eexists. split; [done|]. split; [|done]. split; simpl; try done. rewrite length_drop. lia.
Qed.

Lemma pkt_headers_spec k w st : path_ok bok k st -> work_fits w -> (FRC_CONFIG_TCP cfg = true -> is_tcp w = true -> tcp_good w) ->
  if w_not_IP w || judged w then exists rv st' ks, pkt_headers cfg w st = Some (rv, st') /\ path_ok bok' (k ++ ks) st' /\ owner w rv ks
  else pkt_headers cfg w st = None.
Proof using laws.
  intros Hok Hf Hg. unfold pkt_headers. destruct (w_not_IP w); cbn [orb].
  - unfold not_ip_stats. destruct (UP16_Some (ether_of w) 12) as [ty ->]; [destruct Hf; lia..|]. cbn [mbind option_bind].
    eexists FRCORE_ACT_DROP, _, []. split; [done|]. rewrite app_nil_r.
    split; [eapply path_ok_sub; [apply (law_sub (BranchLaws := laws))|]; unfold IP_STAT_INC; auto 8|by left].
  - destruct (ip_pkt_of_fits w Hf) as (p & -> & Hp & Hw). cbn [mbind option_bind]. pose proof (ip_process_spec k p st Hok Hp) as Hs. rewrite Hw in Hs. by apply Hs.
Qed.

(** ** Reception *)

(** The counters of packets and bytes lie outside the sums of the ids. *)
Lemma vlan_stat_add_ok port cnt v vs : vlan_wf vs -> 0 <= cnt < 2 ->
  exists vs', FRCORE_PORT_VLAN_STAT_ADD port cnt v vs = Some vs' /\ vlan_wf vs' /\ vlan_id_num vs' = vlan_id_num vs.
Proof.
  intros [[Hl Hs] Hp] Hc. unfold FRCORE_PORT_VLAN_STAT_ADD, stat_vlan_id_max in *. change (520 / 2) with 260.
  set (j := if port =? 0 then cnt else cnt + 260). assert (j = cnt \/ j = cnt + 260) as Hj by (unfold j; destruct (_ =? _); lia). clearbody j.
  destruct (arr_get_is_Some (vlan_id_stat vs) j) as [x ->]; [lia|]. cbn [mbind option_bind]. rewrite arr_set_eq by lia. cbn [mbind option_bind].
  eexists. split; [done|]. split; [|done]. split; [|done]. split; [simpl; by rewrite length_insert|]. intros off Hoff. destruct (Hs off Hoff) as [k Hk]. exists k.
  assert (forall i, off + 2 <= i < off + 260 -> nthZ (<[Z.to_nat j := wraps 64 (x + v)]> (vlan_id_stat vs)) i = nthZ (vlan_id_stat vs) i) as He.
  { intros i Hi. rewrite nthZ_insert by lia. destruct (Z.eqb_spec i j); [lia|done]. }
  simpl. unfold id_sum, xe0_stat_vlan_id_0, xe0_stat_vlan_id_total in *. rewrite (He (off + 2)) by lia. rewrite <- Hk.
  apply range_sum_ext. intros i Hi. apply He. lia.
Qed.

Lemma vlan_stat_inc_add port cnt vs : FRCORE_PORT_VLAN_STAT_INC port cnt vs = FRCORE_PORT_VLAN_STAT_ADD port cnt 1 vs.
Proof. unfold FRCORE_PORT_VLAN_STAT_INC, FRCORE_PORT_VLAN_STAT_ADD, FRCORE_VLAN_STAT_INC. by destruct (port =? 0). Qed.

Lemma receive_spec P k w st : path_ok P k st -> exists go st', receive cfg rx_on w st = Some (go, st') /\ path_ok P k st'.
Proof.
  intros Hok. unfold receive.
  assert (path_ok P k (set_shared (Ipc.kinds_of_pkt_len_stat (w_len w) (shared st)) st)) as H1.
  { destruct Hok. destruct (IpcProps.kinds_counts (w_len w) (shared st)) as [_ _ Ev _]. split; try done; simpl; by rewrite Ev. }
  set (s1 := set_shared _ st) in *. clearbody s1. destruct (negb _); [eexists _, _; split; [done|]; auto|].
  destruct (w_rcv_error w); [eexists _, _; split; [done|]; auto|].
  set (s2 := set_shared _ s1). assert (path_ok P k s2) as H2 by (destruct H1; by split). clearbody s2.
  destruct (FRC_CONFIG_VLAN_CHECK cfg); [|by eexists _, _]. destruct H2 as [Hv Hn]. rewrite vlan_stat_inc_add.
  destruct (vlan_stat_add_ok (w_ipprt w) xe0_stat_rxx_pkts 1 _ Hv) as (v1 & -> & Hv1 & Hn1); [done|]. cbn [mbind option_bind].
  destruct (vlan_stat_add_ok (w_ipprt w) xe0_stat_rxx_bytes (w_len w + 4) _ Hv1) as (v2 & -> & Hv2 & Hn2); [done|]. cbn [mbind option_bind].
  eexists _, _. split; [done|]. split; try done. simpl. by rewrite Hn2, Hn1.
Qed.

(** A packet in a build without address statistics. *)
Lemma pkt_work_spec k w (c : core (ip_sys B)) : FRC_CONFIG_MAC_STATISTICS cfg = false -> path_ok bok k (comp c) -> work_fits w ->
  w_not_IP w || judged w = true -> (FRC_CONFIG_TCP cfg = true -> is_tcp w = true -> tcp_good w) ->
  exists rv c' ks, frcore_pkt_work_process cfg rx_on link_status w c = Some (rv, c') /\ path_ok bok' (k ++ ks) (comp c') /\ owner w rv ks /\
    fates c' = fates c ++ ((fun i => (i, Kept)) <$> ks).
Proof using laws.
  intros Hm Hok Hf Hj Hg. unfold frcore_pkt_work_process. destruct (receive_spec bok k w (comp c) Hok) as (go & s1 & -> & H1). cbn [mbind option_bind].
  destruct go; cbn [negb].
  - rewrite Hm. pose proof (pkt_headers_spec k w s1 H1 Hf Hg) as Hs. rewrite Hj in Hs. destruct Hs as (rv & s2 & ks & -> & H2 & Ho). cbn [mbind option_bind].
    exists rv, (settle s2 c), ks. split_and!; [done..|]. cbn [settle fates]. by rewrite (po_kept _ _ _ H2), (po_kept _ _ _ Hok), drop_app_length.
  - exists FRCORE_ACT_DROP, (set_comp s1 c), []. rewrite app_nil_r. split_and!; [done| |by left|by rewrite app_nil_r].
    eapply path_ok_sub; [apply (law_sub (BranchLaws := laws))|done].
Qed.
End path.

(** ** The verdict *)

(** C33: A packet whose buffer holds its headers gets a verdict exactly when it is not IP, is
    dropped by a test, carries an IPv4 header that is looked at, or passes a check;
    otherwise the code returns a variable nobody set: an untagged IPv6 packet under the VLAN
    check, and every IPv4 packet in a build without either check. *)
Theorem ip_verdict_defined {B : Type} (H : Branches B) (bok bok' : list Z -> B -> Prop) (tcp_good timer_ok : wqe -> Prop) (cfg : ip_config)
    (k : list Z) (w : wqe) (st : ip_sys B) :
  BranchLaws cfg H bok bok' tcp_good timer_ok -> path_ok bok k st -> work_fits w -> (FRC_CONFIG_TCP cfg = true -> is_tcp w = true -> tcp_good w) ->
  is_Some (pkt_headers cfg w st) <-> w_not_IP w || judged cfg w = true.
Proof.
  intros laws Hok Hf Hg. pose proof (pkt_headers_spec (laws := laws) cfg k w st Hok Hf Hg) as Hs. destruct (w_not_IP w || judged cfg w).
  - destruct Hs as (rv & st' & ks & -> & _). split; [done|by eexists].
  - rewrite Hs. split; [by intros []|done].
Qed.

(** ** Owners *)

Section owners.
Context {B : Type} {H : Branches B}.
Variables (cfg : ip_config) (rx_on link_status : Z -> bool).
Context {bok : list Z -> B -> Prop} {tcp_good timer_ok : wqe -> Prop} {laws : BranchLaws cfg H bok bok tcp_good timer_ok}.

(** The packets with a verdict that no check takes from TCP. *)
Definition path_good (w : wqe) : Prop :=
  work_fits w /\ w_not_IP w || judged cfg w = true /\
  (FRC_CONFIG_TCP cfg = true -> is_tcp w = true -> overridden cfg w = false /\ tcp_good w).

Lemma path_laws : FRC_CONFIG_MAC_STATISTICS cfg = false -> HandlerLaws (path_handlers cfg rx_on link_status) (fun st fs => path_ok bok (kept_ids fs) st) path_good (fun _ => False) timer_ok.
Proof using laws.
  intros Hm. split.
  - intros st fs i f Hok Hf. by rewrite kept_ids_given.
  - intros w c Hok (Hf & Hj & Ht).
    destruct (pkt_work_spec (laws := laws) cfg rx_on link_status (kept_ids (fates c)) w c Hm Hok Hf Hj) as (rv & c' & ks & E & Hok' & Ho & Hfs); [intros; by apply Ht|].
    rewrite <- kept_ids_kept, <- Hfs in Hok'. destruct Ho as [[-> Hr]|(-> & Htcp & Hit & ->)].
    + exists rv, c', []. split_and!; [done..|]. unfold one_end. rewrite Hr. split; [done|apply not_elem_of_nil].
    + exists FRCORE_ACT_UNFREE, c', [Kept]. rewrite (proj1 (Ht Htcp Hit)) in E. split_and!; [done..|]. split; [done|]. by intros [?|?%elem_of_nil]%elem_of_cons.
  - intros w st fs Hok Ht. cbn [frcore_chan_process path_handlers]. unfold on_branches.
    destruct (law_timer (BranchLaws := laws) (kept_ids fs) w (branches st) Ht) as (rv & b & -> & Hb & Hr); [apply Hok|]. cbn [mbind option_bind].
    eexists _, _. split_and!; [done| |done]. by eapply path_ok_branches.
  - intros w st fs Hok Ht. cbn [frcore_ssn_age_process path_handlers]. unfold on_branches.
    destruct (law_session (BranchLaws := laws) (kept_ids fs) w (branches st) Ht) as (rv & b & -> & Hb & Hr); [apply Hok|]. cbn [mbind option_bind].
    eexists _, _. split_and!; [done| |done]. by eapply path_ok_branches.
  - done.
  - done.
Qed.
End owners.

(** In every build of the path without address statistics, over any work of packets with a
    verdict, packets of the host, errors and timers, the loop of a core is defined, the components stay
    well formed and every entry that is not a timer's is given back or kept exactly once. *)
Theorem path_gives_back_once {B : Type} (H : Branches B) (bok : list Z -> B -> Prop) (tcp_good timer_ok : wqe -> Prop) (cfg : ip_config)
    (rx_on link_status : Z -> bool) (state_active : Z -> bool) (max_ports : Z) (sdk : host_sdk) (pciport : Z -> Z) (resp_hdr : Z -> list Z)
    (mode0 mode1 : bool) (core_id : Z) (chan_on age_on : bool) (ws : list wqe) (c : core (ip_sys B)) :
  BranchLaws cfg H bok bok tcp_good timer_ok -> FRC_CONFIG_MAC_STATISTICS cfg = false -> path_ok bok (kept_ids (fates c)) (comp c) ->
  Forall (legal state_active max_ports chan_on (path_good (tcp_good := tcp_good) cfg) (fun _ => False) timer_ok) ws ->
  exists c', frcore_data_loop (Handlers0 := path_handlers cfg rx_on link_status) state_active max_ports sdk link_status pciport resp_hdr
      mode0 mode1 core_id chan_on age_on ws c = Some c' /\
    path_ok bok (kept_ids (fates c')) (comp c') /\ exists fs, fates c' = fates c ++ fs /\ fs.*1 = w_id <$> filter (fun w => is_timer chan_on w = false) ws.
Proof. intros laws Hm Hok Hws. exact (loop_ends (laws := path_laws cfg rx_on link_status (laws := laws) Hm) state_active max_ports sdk link_status pciport resp_hdr mode0 mode1 core_id chan_on age_on ws c Hws Hok). Qed.

(** ** The configuration of the repository without [FRC_CONFIG_IPC] *)

(** Only the VLAN check is compiled in: nothing is behind the headers. *)
Definition vlan_config : ip_config := IpConfig true false false false false false false.
Definition no_branches : Branches unit := {|
  frcore_rule_process _ _ := None; frcore_acl_process _ _ := None; frcore_tcp_process _ _ := None;
  frcore_forward_simple_pkt_to_fifo _ _ := None; fifo_timer _ _ := None; session_timer _ _ := None |}.

Lemma no_branches_laws : BranchLaws vlan_config no_branches (fun _ _ => True) (fun _ _ => True) (fun _ => True) (fun _ => False).
Proof. by split. Qed.

(** A tagged UDP packet, and an IPv6 packet without a tag. *)
Definition frame (tag : list Z) : list Z :=
  replicate 12 2 ++ tag ++ [8; 0; 0x45; 0; 0; 40; 0; 0; 0; 0; 64; 17; 0; 0; 10; 0; 0; 1; 10; 0; 0; 2] ++ replicate 80 0.
Definition tagged_v4 : wqe :=
  Wqe 1 0 false false OTHER_OP 0 0 0 60 false UNKNOWN_ERR 1 18 0 false false true false true [] (frame [0x81; 0; 0; 5]).
Definition untagged_v6 : wqe := Wqe 2 0 false false OTHER_OP 0 0 0 60 false UNKNOWN_ERR 1 14 0 false true false false true [] (frame []).

Lemma tagged_v4_fits : work_fits tagged_v4.
Proof. split; vm_compute; try lia; try done; split; congruence. Qed.
Lemma untagged_v6_fits : work_fits untagged_v6.
Proof. split; vm_compute; try lia; try done; split; congruence. Qed.

Lemma ip_verdict_defined_witness :
  is_Some (pkt_headers (Branches0 := no_branches) vlan_config tagged_v4 (ip_load tt)) /\
  pkt_headers (Branches0 := no_branches) vlan_config untagged_v6 (ip_load tt) = None.
Proof.
  assert (path_ok (fun _ _ => True) [] (ip_load tt)) as Hok by by apply ip_load_ok.
  pose proof (ip_verdict_defined no_branches _ _ _ _ vlan_config [] tagged_v4 (ip_load tt) no_branches_laws Hok tagged_v4_fits (fun _ _ => I)) as H1.
  pose proof (ip_verdict_defined no_branches _ _ _ _ vlan_config [] untagged_v6 (ip_load tt) no_branches_laws Hok untagged_v6_fits (fun _ _ => I)) as H2.
  split; [apply H1; reflexivity|]. destruct (pkt_headers vlan_config untagged_v6 (ip_load tt)) as [r|]; [|reflexivity].
  pose proof (proj1 H2 (ex_intro _ r eq_refl) : false = true) as Hf. discriminate Hf.
Defined.

Lemma path_gives_back_once_witness : exists c',
  frcore_data_loop (Handlers0 := path_handlers (Branches0 := no_branches) vlan_config (fun _ => true) (fun _ => true)) (fun _ => true) 32
    sample_sdk (fun _ => true) (fun _ => 32) (fun _ => []) false false 0 false false [tagged_v4; tagged_v4] (Core (ip_load tt) (fun _ => 0) [] []) = Some c' /\
  (fates c').*1 = [1; 1].
Proof.
  destruct (path_gives_back_once no_branches (fun _ _ => True) (fun _ => True) (fun _ => False) vlan_config (fun _ => true) (fun _ => true) (fun _ => true) 32
    sample_sdk (fun _ => 32) (fun _ => []) false false 0 false false [tagged_v4; tagged_v4] (Core (ip_load tt) (fun _ => 0) [] []) no_branches_laws eq_refl)
    as (c' & E & _ & fs & Hf & Hids).
  - by apply ip_load_ok.
  - repeat (apply Forall_cons_2); [| |apply Forall_nil_2]; (split; [done|]); (split; [done|]); intros _ _ _ _; (split; [apply tagged_v4_fits|]); (split; [reflexivity|intros Ht; discriminate Ht]).
  - exists c'. split; [exact E|]. rewrite Hf. exact Hids.
Defined.
