(* ===== verification/IpTcp.v ===== *)
(** * Packets under the session table

    The build with TCP: the branch behind the headers is the system of [SsnSys], whose
    channel and pool of blocks are those of any implementation.  Its laws follow from the
    events of the table, so the dispatch, the path of IP packets and the session table
    together own every packet once: those TCP keeps are exactly those on the accounts of
    the table. *)

From stdpp Require Import list functions gmultiset.
From S2P Require Import Prelude Bytes VlanCheck Timestamp TcpFlow SsnBlock SsnBlockProps Ssn SsnTuple SsnInv SsnStep SsnSys SsnEvents SsnThm.
From S2P Require Work WorkThm IpPath IpPathThm.
#[local] Open Scope Z_scope.

Section tcp.
Context {C P : Type} {channel : SsnSink C} {sink_ok : C -> Prop} {channel_laws : SsnSinkLaws C sink_ok}
  {pool : Fpa P} {blocks : list Z} {fpa_ok : P -> list Z -> Prop} {pool_laws : FpaLaws P blocks fpa_ok}.
Variables (crc : Z -> Z -> Z) (cpu_freq : Z) (hdr_stack : list Z) (fuel : nat).
Hypothesis Hstack : length hdr_stack = 16%nat.
Hypothesis Hfuel : (length blocks + 1 < fuel)%nat.
#[local] Abbreviation system := (sys (C := C) (P := P)).

(** The work entry as the session table takes it: its name, length and the bytes of the IP
    packet. *)
Definition tcp_work_of (p : IpPath.ip_pkt) : tcp_work :=
  TcpWork (Work.w_id (IpPath.p_work p)) (Work.w_len (IpPath.p_work p)) (IpPath.ip_ptr p).

(** Nothing but TCP is compiled in; the timers of sessions are events of their own. *)
Definition tcp_branches : IpPath.Branches system := {|
  IpPath.frcore_rule_process _ _ := None; IpPath.frcore_acl_process _ _ := None;
  IpPath.frcore_tcp_process p s := sys_do crc cpu_freq hdr_stack fuel (Packet (tcp_work_of p) (IpPath.smac p) (IpPath.dmac p)) s;
  IpPath.frcore_forward_simple_pkt_to_fifo _ _ := None; IpPath.fifo_timer _ _ := None; IpPath.session_timer _ _ := None |}.

(** The build with the VLAN check and TCP. *)
Definition tcp_config : IpPath.ip_config := IpPath.IpConfig true false false false false true false.

(** The table is well formed and accounts for [base] and the entries [l]. *)
Definition table_ok (base : gmultiset Z) (l : list Z) (s : system) : Prop :=
  (exists lost, sys_ok (sink_ok := sink_ok) (blocks := blocks) (fpa_ok := fpa_ok) crc hdr_stack s lost) /\
  account s = base ⊎ list_to_set_disj l.

(** A packet whose TCP header and payload are in its buffer. *)
Definition tcp_good (w : Work.wqe) : Prop :=
  packet_test (TcpWork (Work.w_id w) (Work.w_len w) (drop (Z.to_nat (IpPath.ip_start w)) (Work.ether_of w))) = true.

Lemma seen_verdict s k w h rv s' : spec_step s (Seen k w h rv) s' -> rv = FRCORE_ACT_DROP \/ rv = FRCORE_ACT_UNFREE.
Proof. inversion 1; auto. Qed.

Lemma tcp_laws base : IpPathThm.BranchLaws tcp_config tcp_branches (table_ok base) (table_ok base) tcp_good (fun _ => False).
Proof using Hfuel Hstack channel_laws pool_laws.
  split; try done. intros l p s _ [[lost Hs] Hacc] Hf Hg. unfold tcp_good in Hg. rewrite <- (IpPathThm.fp_hdr _ Hf) in Hg.
  destruct (packet_test_ok _ Hg) as [h Hh]. pose proof (p_parse _ _ Hh) as Ep. cbn [w_ip] in Ep.
  destruct (event_post_ok crc cpu_freq hdr_stack fuel Hstack Hfuel (Packet (tcp_work_of p) (IpPath.smac p) (IpPath.dmac p)) s lost Hs)
    as (rv & s' & lost' & E & Hs' & _ & _ & Hstep & Ha & _); [by exists h|].
  exists rv, s'. split; [exact E|]. unfold label_of in Hstep. cbn [tcp_work_of w_ip] in Hstep. rewrite Ep in Hstep. apply seen_verdict in Hstep. split.
  - split; [by exists lost'|]. rewrite Ha, Hacc. cbn [given tcp_work_of w_name]. change FRCORE_ACT_UNFREE with Work.FRCORE_ACT_UNFREE.
    rewrite list_to_set_disj_app. destruct (rv =? _); simpl; multiset_solver.
  - destruct Hstep as [-> | ->]; [by right|by left].
Qed.


(** C34: A tagged packet that the table took over: the VLAN check replaces TCP's verdict, and the
    dispatch frees an entry that is on the accounts of the table. *)
Theorem tagged_tcp_packet_freed (base : gmultiset Z) (rx_on link_status : Z -> bool) (k : list Z) (w : Work.wqe)
    (c c' : Work.core (IpPath.ip_sys system)) (rv : Z) :
  IpPathThm.path_ok (table_ok base) k (Work.comp c) -> IpPathThm.work_fits w -> tcp_good w -> Work.w_vlan_valid w = true ->
  IpPath.frcore_pkt_work_process (Branches0 := tcp_branches) tcp_config rx_on link_status w c = Some (rv, c') ->
  Work.fates c' = Work.fates c ++ [(Work.w_id w, Work.Kept)] ->
  Work.fates (Work.act_on w rv c') = Work.fates c ++ [(Work.w_id w, Work.Kept); (Work.w_id w, Work.Freed)] /\
  account (IpPath.branches (Work.comp (Work.act_on w rv c'))) = account (IpPath.branches (Work.comp c)) ⊎ {[+ Work.w_id w +]}.
Proof using Hfuel Hstack channel_laws pool_laws.
  intros Hok Hf Hg Hv E Hfs. assert (IpPathThm.overridden tcp_config w = true) as Ho by (unfold IpPathThm.overridden; by rewrite Hv).
  assert (Work.w_not_IP w || IpPathThm.judged tcp_config w = true) as Hj by (unfold IpPathThm.judged; rewrite Ho; by rewrite !orb_true_r).
  destruct (IpPathThm.pkt_work_spec (laws := tcp_laws base) tcp_config rx_on link_status k w c eq_refl Hok Hf Hj (fun _ _ => Hg))
    as (rv' & c2 & ks & E2 & Hok2 & Hw & Hf2).
  rewrite E in E2. injection E2 as <- <-. rewrite Hfs in Hf2. apply app_inv_head in Hf2.
  destruct Hw as [[-> _]|(-> & _ & _ & Hr)]; [done|]. rewrite Ho in Hr. subst rv.
  destruct (WorkThm.act_on_spec w Work.FRCORE_ACT_FORWARD c') as [-> ->]. rewrite Hfs, <- app_assoc. split; [done|].
  destruct (IpPathThm.po_branches _ _ _ Hok2) as [_ ->]. destruct (IpPathThm.po_branches _ _ _ Hok) as [_ ->].
  rewrite list_to_set_disj_app. simpl. multiset_solver.
Qed.
End tcp.

(** ** A packet on a small table *)

(** A packet of TCP in an ethernet frame, with what lies behind it in its buffer. *)
Definition tcp_frame (tag : list Z) : list Z :=
  [2; 0; 0; 0; 0; 1; 2; 0; 0; 0; 0; 2] ++ tag ++ [8; 0] ++ demo_bytes 0x0a000001 0x0a000002 1234 80 5000 TH_SYN [] ++ replicate 64 0.
Definition tcp_packet (id : Z) (tagged : bool) : Work.wqe :=
  Work.Wqe id 0 false false Work.OTHER_OP 0 0 0 60 false Work.UNKNOWN_ERR 1 (if tagged then 18 else 14) 0 false false tagged false true []
    (tcp_frame (if tagged then [0x81; 0; 0; 5] else [])).

#[local] Abbreviation demo_start := (Work.Core (IpPath.ip_load demo_0) (fun _ => 0) [] []).
#[local] Abbreviation demo_table_ok := (table_ok (sink_ok := list_sink_ok) (blocks := demo_blocks) (fpa_ok := eq) demo_crc demo_stack (account demo_0)).
#[local] Abbreviation demo_handlers := (IpPath.path_handlers (Branches0 := tcp_branches demo_crc 1000 demo_stack 10) tcp_config (fun _ => true) (fun _ => true)).

Lemma demo_start_ok : IpPathThm.path_ok demo_table_ok [] (Work.comp demo_start).
Proof.
  apply IpPathThm.ip_load_ok. split; [exists 0; apply start_ok, demo_cold_ok|]. simpl. by rewrite gmultiset_disj_union_right_id.
Qed.

Lemma tcp_packet_fits id tagged : IpPathThm.work_fits (tcp_packet id tagged).
Proof. destruct tagged; split; vm_compute; try lia; try done; split; congruence. Qed.

Lemma tcp_packet_good id : IpPathThm.path_good (tcp_good := tcp_good) tcp_config (tcp_packet id false).
Proof.
  split; [apply tcp_packet_fits|split; [done|intros _ _; split; [done|vm_compute; reflexivity]]].
Qed.


Lemma tagged_good : tcp_good (tcp_packet 1 true).
Proof. vm_compute. reflexivity. Qed.

Definition fates_of {S : Type} (o : option (Z * Work.core S)) : option (list (Z * Work.fate)) :=
  match o with Some (_, c) => Some (Work.fates c) | None => None end.

Lemma fates_of_Some {S : Type} (o : option (Z * Work.core S)) l : fates_of o = Some l -> exists rv c', o = Some (rv, c') /\ Work.fates c' = l.
Proof. destruct o as [[rv c']|]; [|done]. intros [= <-]. by exists rv, c'. Qed.

Lemma tagged_kept :
  fates_of (IpPath.frcore_pkt_work_process (Branches0 := tcp_branches demo_crc 1000 demo_stack 10) tcp_config (fun _ => true) (fun _ => true)
    (tcp_packet 1 true) demo_start) = Some [(1, Work.Kept)].
Proof. vm_compute. reflexivity. Qed.

Lemma tagged_tcp_packet_freed_witness : exists rv c',
  IpPath.frcore_pkt_work_process (Branches0 := tcp_branches demo_crc 1000 demo_stack 10) tcp_config (fun _ => true) (fun _ => true)
    (tcp_packet 1 true) demo_start = Some (rv, c') /\
  Work.fates (Work.act_on (tcp_packet 1 true) rv c') = Work.fates demo_start ++ [(Work.w_id (tcp_packet 1 true), Work.Kept); (Work.w_id (tcp_packet 1 true), Work.Freed)] /\
  account (IpPath.branches (Work.comp (Work.act_on (tcp_packet 1 true) rv c'))) = account (IpPath.branches (Work.comp demo_start)) ⊎ {[+ Work.w_id (tcp_packet 1 true) +]}.
Proof.
  destruct (fates_of_Some _ _ tagged_kept) as (rv & c' & E & Hk). exists rv, c'. split; [exact E|].
  exact (tagged_tcp_packet_freed demo_crc 1000 demo_stack 10 eq_refl demo_fuel (account demo_0) (fun _ => true) (fun _ => true) [] (tcp_packet 1 true)
    demo_start c' rv demo_start_ok (tcp_packet_fits 1 true) tagged_good eq_refl E Hk).
Defined.
