(* ===== verification/IpUdp.v ===== *)
(** * UDP packets from the wire to the host

    The build with UDP: the branch behind the headers is the UDP channel of [Chan], whose
    FIFO [f] belongs to the core.  [ops_of] names what an entry is to the channel; the loop
    of the core then runs the operations of [ChanSys], and what is proved of these holds for
    the packets of the wire. *)

From stdpp Require Import list functions.
From S2P Require Import Prelude Bytes VlanCheck Ring Dma Chan ChanMem ChanInv ChanCard ChanPost ChanProps ChanSys ChanSetup.
From S2P Require Ipc IpcProps SsnBlock Work WorkThm IpPath IpPathThm.
#[local] Open Scope Z_scope.

(** The build with the VLAN check and UDP. *)
Definition udp_config : IpPath.ip_config := IpPath.IpConfig true false false false false false true.

(** The record of a packet that is submitted. *)
Definition udp_of (p : IpPath.ip_pkt) (h : Z) : option pkt :=
  sip ← UP32 (IpPath.ip_ptr p) 12; dip ← UP32 (IpPath.ip_ptr p) 16;
  sport ← UP16 (IpPath.ip_ptr p) h; dport ← UP16 (IpPath.ip_ptr p) (h + 2);
  Some (IpPath.udp_record p h (IpPath.udp_hdr p sip dip sport dport)).

(** Which packets are submitted, from the headers alone: IPv4, UDP, a payload and at most
    1582 bytes. *)
Definition submitted (w : Work.wqe) : option pkt :=
  if Work.w_not_IP w || Work.w_is_v6 w || negb (Work.w_tcp_or_udp w) then None else
  p ← IpPath.ip_pkt_of w;
  b ← arr_get (IpPath.ip_ptr p) 0; total ← UP16 (IpPath.ip_ptr p) 2; proto ← arr_get (IpPath.ip_ptr p) 9;
  let h := Z.land b 0x0f * 4 in
  let len := u16 (total - h) in
  if (1582 <? total) || (len =? 0) || negb (proto =? IpPath.PROTO_UDP) then None else
  udp_of (IpPath.IpPkt w (IpPath.eth_ptr p) (IpPath.ip_at p) (IpPath.ip_ptr p) (Some h) len (IpPath.smac p) (IpPath.dmac p)) h.

Section udp.
Context (N P B cpu_freq : Z) (f : nat).

(** [fifo_timer] is [frcore_chan_process] of the core's FIFO; it answers [FRE_SUCCESS]. *)
Definition udp_branches : IpPath.Branches state := {|
  IpPath.frcore_rule_process _ _ := None; IpPath.frcore_acl_process _ _ := None; IpPath.frcore_tcp_process _ _ := None;
  IpPath.frcore_forward_simple_pkt_to_fifo k s := frcore_forward_simple_pkt_to_fifo N P B cpu_freq f k s;
  IpPath.fifo_timer _ s := s ← frcore_chan_process N P B cpu_freq f s; Some (FRE_SUCCESS, s);
  IpPath.session_timer _ _ := None |}.

#[local] Existing Instance udp_branches.
Implicit Types (st : IpPath.ip_sys state) (w : Work.wqe).

(** The channel after a packet. *)
Definition sent (o : option pkt) (s s' : state) : Prop :=
  match o with Some k => exists r, frcore_forward_simple_pkt_to_fifo N P B cpu_freq f k s = Some (r, s') | None => s' = s end.

(** What the parts of the path do to the channel and the switch. *)
Definition kept_channel st st' : Prop := IpPath.branches st' = IpPath.branches st /\ IpPath.udp_enable st' = IpPath.udp_enable st.

Lemma checks_channel p rv st r : IpPath.ip_checks udp_config p rv st = Some r -> kept_channel st r.2.
Proof.
  unfold IpPath.ip_checks. cbn [IpPath.FRC_CONFIG_VLAN_CHECK IpPath.FRC_CONFIG_TIMESTAMP_CHECK udp_config andb].
  intros Hc. inv_bind. destruct (Work.w_vlan_valid _); inv_bind; done.
Qed.

Lemma udp_channel p h st r : IpPath.payload p = Some h -> IpPath.udp_enable st <> 0 -> IpPath.frcore_udp_process p st = Some r ->
  sent (udp_of p h) (IpPath.branches st) (IpPath.branches r.2) /\ IpPath.udp_enable r.2 = IpPath.udp_enable st.
Proof.
  intros Hp He. unfold IpPath.frcore_udp_process, udp_of. rewrite (proj2 (Z.eqb_neq _ 0) He), Hp.
  destruct (UP32 (IpPath.ip_ptr p) 12) as [sip|]; [|done]. destruct (UP32 (IpPath.ip_ptr p) 16) as [dip|]; [|done]. cbn [mbind option_bind].
  destruct (UP16 (IpPath.ip_ptr p) h) as [sp|]; [|done]. destruct (UP16 (IpPath.ip_ptr p) (h + 2)) as [dp|]; [|done]. cbn [mbind option_bind].
  cbn [IpPath.frcore_forward_simple_pkt_to_fifo udp_branches].
  destruct (frcore_forward_simple_pkt_to_fifo N P B cpu_freq f _ _) as [[rv s]|] eqn:E; [|done]. cbn [mbind option_bind]. intros [= <-].
  destruct (negb _); (split; [by exists rv|done]).
Qed.

Lemma kept_channel_sent w st st' : submitted w = None -> kept_channel st st' ->
  sent (submitted w) (IpPath.branches st) (IpPath.branches st') /\ IpPath.udp_enable st' = IpPath.udp_enable st.
Proof. by intros -> []. Qed.

Lemma branches_channel p st st' : IpPath.ip_branches udp_config p st = Some st' -> kept_channel st st'.
Proof. by intros [= <-]. Qed.

Lemma process_channel w p st r : Work.w_not_IP w = false -> IpPath.ip_pkt_of w = Some p -> IpPath.udp_enable st <> 0 ->
  IpPath.frcore_ip_process udp_config p st = Some r ->
  sent (submitted w) (IpPath.branches st) (IpPath.branches r.2) /\ IpPath.udp_enable r.2 = IpPath.udp_enable st.
Proof.
  intros Hip Hp He. assert (IpPath.p_work p = w) as Hw.
  { unfold IpPath.ip_pkt_of in Hp. destruct (Ipc.mac_value _ 0); [|done]. destruct (Ipc.mac_value _ 6); [|done]. by injection Hp as <-. }
  unfold IpPath.frcore_ip_process. rewrite Hw. set (s1 := if Work.w_is_v6 w then _ else _).
  assert (kept_channel st s1) as K1 by (unfold s1; by destruct (Work.w_is_v6 w)). clearbody s1.
  change (IpPath.with_headers udp_config) with true. cbn [negb andb]. rewrite andb_false_r.
  set (s2 := if Work.w_is_frag w then _ else _).
  assert (kept_channel st s2) as K2 by (destruct K1; unfold s2; by destruct (Work.w_is_frag w), (Work.w_vlan_valid w)). clearbody s2.
  change (IpPath.FRC_CONFIG_VLAN_CHECK udp_config) with true. rewrite andb_false_r.
  assert (Work.w_is_v6 w || negb (Work.w_tcp_or_udp w) = true -> submitted w = None) as Hnone by (intros Hb; unfold submitted; rewrite Hip; cbn [orb]; by rewrite Hb).
  destruct (Work.w_tcp_or_udp w) eqn:Et; cbn [negb]; [|intros [= <-]; apply kept_channel_sent; [apply Hnone, orb_true_r|done]].
  destruct (Work.w_is_v6 w) eqn:E6; cbn [negb].
  { change (IpPath.ip_branches udp_config p s2) with (Some (IpPath.set_branches (IpPath.branches s2) s2)). cbn [mbind option_bind]. intros Hc. apply checks_channel in Hc.
    apply kept_channel_sent; [by apply Hnone|]. destruct K2, Hc. split; simpl in *; congruence. }
  clear Hnone. unfold submitted. rewrite Hip, E6, Et, Hp. cbn [orb negb mbind option_bind]. unfold IpPath.ip_header.
  destruct (arr_get (IpPath.ip_ptr p) 0) as [b|]; [|done]. cbn [mbind option_bind]. destruct (UP16 (IpPath.ip_ptr p) 2) as [total|]; [|done]. cbn [mbind option_bind].
  destruct (arr_get (IpPath.ip_ptr p) 9) as [proto|]; [|done]. cbn [mbind option_bind]. destruct ((1582 <? total) || _); cbn [orb mbind option_bind].
  { intros [= <-]. by destruct (_ =? 20). }
  set (s3 := if _ =? 20 then _ else _). assert (kept_channel st s3) as K3 by (destruct K2; unfold s3; by destruct (_ =? 20)). clearbody s3.
  rewrite Hw. set (p' := IpPath.IpPkt _ _ _ _ _ _ _ _). unfold IpPath.ip_protocol.
  change (IpPath.FRC_CONFIG_TCP udp_config) with false. change (IpPath.FRC_CONFIG_UDP udp_config) with true. cbn [andb].
  destruct (Z.eqb_spec proto IpPath.PROTO_TCP) as [->|_].
  { change (IpPath.ip_branches udp_config p' s3) with (Some (IpPath.set_branches (IpPath.branches s3) s3)). cbn [mbind option_bind].
    intros Hc. apply checks_channel in Hc. destruct K3, Hc. split; simpl in *; congruence. }
  destruct (Z.eqb_spec proto IpPath.PROTO_UDP) as [->|_]; cbn [negb]; [|intros [= <-]; done].
  change (IpPath.ip_branches udp_config p' s3) with (Some (IpPath.set_branches (IpPath.branches s3) s3)). cbn [mbind option_bind].
  destruct (IpPath.frcore_udp_process p' _) as [[rv s4]|] eqn:Eu; [|done]. cbn [mbind option_bind]. intros Hc. apply checks_channel in Hc.
  apply (udp_channel p' (Z.land b 0x0f * 4)) in Eu as [Hs Hen]; [|done|by destruct K3 as [_ K3]; simpl; rewrite K3].
  destruct K3 as [K3 K3'], Hc as [Hc Hc']. cbn [snd IpPath.branches IpPath.IP_STAT_INC IpPath.IP_STAT_ADD IpPath.set_branches IpPath.udp_enable] in *.
  rewrite Hc, Hc', Hen. rewrite K3 in Hs. split; [exact Hs|done].
Qed.

Lemma headers_channel w st r : IpPath.udp_enable st <> 0 -> IpPath.pkt_headers udp_config w st = Some r ->
  sent (submitted w) (IpPath.branches st) (IpPath.branches r.2) /\ IpPath.udp_enable r.2 = IpPath.udp_enable st.
Proof.
  intros He. unfold IpPath.pkt_headers. destruct (Work.w_not_IP w) eqn:Hip.
  - unfold IpPath.not_ip_stats. destruct (UP16 _ 12) as [ty|]; [|done]. cbn [mbind option_bind]. intros [= <-].
    apply kept_channel_sent; [unfold submitted; by rewrite Hip|]. by destruct (_ || _), (_ || _).
  - destruct (IpPath.ip_pkt_of w) as [p|] eqn:Hp; [|done]. cbn [mbind option_bind]. by apply process_channel.
Qed.

(** The record has the sizes the channel asks for. *)
Lemma submitted_ok w k : IpPathThm.work_fits w -> submitted w = Some k ->
  pkt_ok 0 k /\ Z.of_nat (length (concat (udp_pieces k))) <= FRC_DMA_SIMPLE_PACKAGE_BLOCK_SIZE.
Proof.
  intros [_ _ Hl Hb]. unfold submitted. destruct (_ || _); [done|]. unfold IpPath.ip_pkt_of.
  destruct (Ipc.mac_value _ 0) as [d|]; [|done]. destruct (Ipc.mac_value _ 6) as [sm|]; [|done]. cbn [mbind option_bind].
  intros Hs. inv_bind. case_match; [done|]. unfold udp_of in *. inv_bind. cbn [IpPath.ip_ptr] in *.
  match goal with |- pkt_ok 0 ?k /\ _ => assert (pkt_ok 0 k) as Hok end.
  2: { split; [done|]. destruct Hok as [Hh Hi Hp _]. unfold udp_pieces. cbn [concat]. rewrite !length_app, length_take. cbn [length].
       rewrite Nat.add_0_r, !Nat2Z.inj_add, Nat2Z.inj_min, Z2Nat.id, Hh, Hi by lia. rewrite Z.min_l by lia.
       unfold IpPath.udp_record, IpPath.udp_hdr. cbn [SsnBlock.h_total_paylen Chan.total_paylen IpPath.p_work]. rewrite (wrapu_id 16) by lia.
       unfold sizeof_frc_dma_hdr_t, sizeof_frc_dma_pkt_info_t, FRC_DMA_SIMPLE_PACKAGE_BLOCK_SIZE. lia. }
  split; unfold IpPath.udp_record, IpPath.udp_hdr;
    cbn [SsnBlock.h_total_paylen Chan.hdr Chan.info Chan.total_paylen Chan.payload IpPath.p_work IpPath.eth_ptr]; rewrite ?(wrapu_id 16) by lia; [done|done|lia|].
  cbv zeta. unfold sizeof_frc_dma_hdr_t, sizeof_frc_dma_pkt_info_t, FRC_DMA_SIMPLE_PACKAGE_DATA_SIZE, FRC_DMA_SIMPLE_PACKAGE_BLOCK_SIZE, FRC_DMA_OFFSET. lia.
Qed.

(** ** A core and its FIFO *)

Context (rx_on link_status state_active : Z -> bool) (max_ports : Z) (sdk : Work.host_sdk) (pciport : Z -> Z) (resp_hdr : Z -> list Z) (mode0 mode1 : bool) (core_id : Z).
Context (pool : list Z).
Hypothesis HN : 0 < N < 2 ^ 63.
Hypothesis HP : 0 < P.
Hypothesis HPN : P * 16 <= N.
Hypothesis HB : FRC_DMA_SIMPLE_PACKAGE_DATA_SIZE <= B.
Hypothesis Hpool : NoDup pool.
Hypothesis Hblocks : Forall block_ok pool.

#[local] Abbreviation reach_of := (WorkThm.reach_of state_active max_ports mode0 mode1 true).
#[local] Abbreviation handlers := (IpPath.path_handlers udp_config rx_on link_status).
#[local] Abbreviation process :=
  (Work.frcore_process_wqe (Handlers0 := handlers) state_active max_ports sdk link_status pciport resp_hdr mode0 mode1 core_id true false).

(** The packet an entry of the wire submits, and what an entry is to the channel. *)
Definition arrival w : option pkt :=
  match reach_of w with
  | WorkThm.ToPath => if rx_on (Work.w_ipprt w) && negb (Work.w_rcv_error w) then submitted w else None
  | _ => None
  end.
Definition ops_of w : list op :=
  match reach_of w with WorkThm.ToTimer => [OpTimer f] | _ => match arrival w with Some k => [OpUdp f k] | None => [] end end.

(** A packet of the wire has its headers in its buffer, and a verdict; the host sends packets,
    but no commands. *)
Definition wire_ok w : Prop :=
  WorkThm.is_command w = false /\ (reach_of w = WorkThm.ToPath -> IpPathThm.work_fits w /\ Work.w_not_IP w || IpPathThm.judged udp_config w = true).

(** The channel of the model is the one of the card. *)
Definition follows (st : IpPath.ip_sys state) (s : state) : Prop := IpPathThm.path_ok (fun _ b => b = s) [] st /\ IpPath.udp_enable st <> 0.

Lemma follows_to st st' s s' : follows st s -> IpPathThm.path_ok (fun _ _ => True) [] st' -> IpPath.branches st' = s' ->
  IpPath.udp_enable st' = IpPath.udp_enable st -> follows st' s'.
Proof. intros [_ He] [] Hb Hu. split; [by split|congruence]. Qed.

Lemma receive_channel w st go st' : IpPath.receive udp_config rx_on w st = Some (go, st') ->
  go = rx_on (Work.w_ipprt w) && negb (Work.w_rcv_error w) /\ kept_channel st st'.
Proof.
  unfold IpPath.receive. destruct (rx_on _); cbn [negb andb]; [|by intros [= <- <-]].
  destruct (Work.w_rcv_error w); [by intros [= <- <-]|]. cbn [IpPath.FRC_CONFIG_VLAN_CHECK udp_config]. intros H. by inv_bind.
Qed.

(** The laws of the path, for a channel that takes the next packet. *)
Lemma channel_laws s : (forall k, pkt_ok 0 k -> is_Some (frcore_forward_simple_pkt_to_fifo N P B cpu_freq f k s)) ->
  IpPathThm.BranchLaws udp_config udp_branches (fun _ b => b = s) (fun _ _ => True) (fun _ => True) (fun _ => False).
Proof. intros Hs. split; try done. intros l k b _ -> Hk. destruct (Hs k Hk) as [[rv b'] E]. by exists rv, b'. Qed.

Lemma good_takes I n cfg qs : good N P pool I n cfg qs -> (f < length qs)%nat -> Z.of_nat n + 1 < 2 ^ 64 ->
  forall k, pkt_ok 0 k -> is_Some (frcore_forward_simple_pkt_to_fifo N P B cpu_freq f k (sys cfg)).
Proof using HN HP HPN HB Hpool Hblocks.
  intros Hg Hf Hn k Hk. destruct (good_step N P B cpu_freq HN HP HPN HB pool Hpool Hblocks I n cfg qs (OpUdp f k) Hg) as (c' & _ & E & _); [by split|done|].
  unfold step in E. destruct (frcore_forward_simple_pkt_to_fifo _ _ _ _ _ _ _); [by eexists|done].
Qed.

(** What a packet of the wire does to the channel. *)
Lemma work_channel w (c : Work.core (IpPath.ip_sys state)) r : IpPath.udp_enable (Work.comp c) <> 0 ->
  IpPath.frcore_pkt_work_process udp_config rx_on link_status w c = Some r ->
  sent (if rx_on (Work.w_ipprt w) && negb (Work.w_rcv_error w) then submitted w else None) (IpPath.branches (Work.comp c)) (IpPath.branches (Work.comp r.2)) /\
  IpPath.udp_enable (Work.comp r.2) = IpPath.udp_enable (Work.comp c).
Proof.
  intros He. unfold IpPath.frcore_pkt_work_process.
  destruct (IpPath.receive _ _ _ _) as [[go st]|] eqn:Er; [|done]. cbn [mbind option_bind]. apply receive_channel in Er as [-> [Hb Hu]].
  destruct (_ && _); cbn [negb]; [|by intros [= <-]]. cbn [IpPath.FRC_CONFIG_MAC_STATISTICS udp_config].
  destruct (IpPath.pkt_headers _ _ _) as [[rv st']|] eqn:Eh; [|done]. cbn [mbind option_bind]. intros [= <-].
  apply headers_channel in Eh; [|by rewrite Hu]. cbn [snd] in *. by rewrite Hb, Hu in Eh.
Qed.

(** The FIFO of the core as a queue of at most [cap] packets: what arrives is taken, or refused
    when the queue is full; a post takes all of it. *)
Inductive queue_run (cap : Z) : list (list Z) -> list (list Z) -> list (list Z) -> Prop :=
| queue_start : queue_run cap [] [] []
| queue_take ks gone q k : Z.of_nat (length q) < cap -> queue_run cap ks gone q -> queue_run cap (ks ++ [k]) gone (q ++ [k])
| queue_refuse ks gone q k : cap <= Z.of_nat (length q) -> queue_run cap ks gone q -> queue_run cap (ks ++ [k]) gone q
| queue_post ks gone q : queue_run cap ks gone q -> queue_run cap ks (gone ++ q) [].

(** [ks] arrived so far: [gone] was posted, the rest waits. *)
Definition queue_at (ks : list (list Z)) (cfg : config) (qs : list (list (list Z))) : Prop :=
  exists gone q, qs !! f = Some q /\ accepted cfg = map (pair f) (gone ++ q) /\ queue_run (FRCORE_CORE_FIFO_NUM P) ks gone q.

(** What an entry adds to the arrivals. *)
Definition arrived w : list (list Z) := match arrival w with Some k => [concat (udp_pieces k)] | None => [] end.

Lemma queue_posted ks gone q q1 : q1 = q \/ q1 = [] -> queue_run (FRCORE_CORE_FIFO_NUM P) ks gone q ->
  exists gone', queue_run (FRCORE_CORE_FIFO_NUM P) ks gone' q1 /\ gone' ++ q1 = gone ++ q.
Proof. intros [-> | ->] H; [by exists gone|]. exists (gone ++ q). rewrite app_nil_r. split; [by apply queue_post|done]. Qed.

Lemma queue_offered I ks k cfg cfg' qs qs' : Z.of_nat (length (concat (udp_pieces k))) <= FRC_DMA_SIMPLE_PACKAGE_BLOCK_SIZE ->
  posted_offered P I f (concat (udp_pieces k)) cfg cfg' qs qs' -> I -> queue_at ks cfg qs -> queue_at (ks ++ [concat (udp_pieces k)]) cfg' qs'.
Proof.
  intros Hk Hm Hi (gone & q & Hq & Ha & Hr). destruct (Hm Hi q Hq) as (q1 & H1 & Hof). destruct (queue_posted _ _ _ _ H1 Hr) as (gone' & Hr' & Eg).
  apply lookup_lt_Some in Hq. destruct Hof as [(Hlt & Ea & ->)|([Hge|?] & Ea & ->)]; [| |lia]; unfold queue_at.
  - exists gone', (q1 ++ [concat (udp_pieces k)]). rewrite list_lookup_insert_eq by done. split_and!; [done| |by apply queue_take].
    by rewrite Ea, Ha, app_assoc, Eg, (map_app _ (gone ++ q)).
  - exists gone', q1. rewrite list_lookup_insert_eq by done. split_and!; [done|by rewrite Ea, Ha, Eg|by apply queue_refuse].
Qed.

Lemma queue_timer I ks cfg cfg' qs qs' : moves P I cfg (OpTimer f) cfg' qs qs' -> I -> queue_at ks cfg qs -> queue_at ks cfg' qs'.
Proof.
  intros Hm Hi (gone & q & Hq & Ha & Hr). destruct (Hm Hi q Hq) as (q1 & H1 & Ea & ->). destruct (queue_posted _ _ _ _ H1 Hr) as (gone' & Hr' & Eg).
  apply lookup_lt_Some in Hq. exists gone', q1. rewrite list_lookup_insert_eq by done. split_and!; [done|by rewrite Ea, Ha, Eg|done].
Qed.

(** One entry is one operation of the channel, or none. *)
Lemma process_op I n cfg qs w (c : Work.core (IpPath.ip_sys state)) : good N P pool I n cfg qs -> (f < length qs)%nat -> Z.of_nat n + 1 < 2 ^ 64 ->
  wire_ok w -> follows (Work.comp c) (sys cfg) ->
  exists c' cfg' qs', process w c = Some c' /\ run N P B cpu_freq (ops_of w) cfg = Some cfg' /\ good N P pool I (S n) cfg' qs' /\
    length qs' = length qs /\ follows (Work.comp c') (sys cfg') /\
    (I -> forall ks, queue_at ks cfg qs -> queue_at (ks ++ arrived w) cfg' qs').
Proof using HN HP HPN HB Hpool Hblocks.
  intros Hg Hf Hn [Hnc Hw] Hc. assert (forall cfg, run N P B cpu_freq [] cfg = Some cfg) as Hnil by done.
  assert (forall o, run N P B cpu_freq [o] cfg = step N P B cpu_freq cfg o) as Hone.
  { intros o. unfold run. cbn [foldM]. by destruct (step N P B cpu_freq cfg o). }
  assert (good N P pool I (S n) cfg qs) as HgS by (eapply good_mono; [|done]; lia).
  pose proof (good_takes _ _ _ _ Hg Hf Hn) as Htk.
  pose proof (WorkThm.process_reach (Handlers0 := handlers) state_active max_ports sdk link_status pciport resp_hdr mode0 mode1 core_id true false w c eq_refl) as Hr.
  unfold ops_of, arrived, arrival in *. destruct (reach_of w) eqn:Ereach; [| |unfold WorkThm.reach_of in Ereach; rewrite Hnc in Ereach; by repeat case_match|].
  - destruct Hr as (c0 & Ec & _ & _ & ->). destruct (Hw eq_refl) as [Hfit Hv]. rewrite <- Ec in Hc.
    destruct (IpPathThm.pkt_work_spec (laws := channel_laws _ Htk) udp_config rx_on link_status [] w c0 eq_refl (proj1 Hc) Hfit Hv) as (rv & c1 & ks & E & Hok & Ho & _); [done|].
    change (Work.frcore_dat_work_process w c0) with (IpPath.frcore_pkt_work_process udp_config rx_on link_status w c0). rewrite E. cbn [mbind option_bind].
    assert (ks = []) as -> by (destruct Ho as [[? _]|(_ & ? & _)]; done).
    apply work_channel in E as [Hs Hu]; [|apply Hc]. cbn [snd] in *. rewrite (IpPathThm.po_branches _ _ _ (proj1 Hc)) in Hs.
    exists (Work.act_on w rv c1). destruct (WorkThm.act_on_spec w rv c1) as [-> _].
    destruct (if rx_on _ && _ then submitted w else None) as [k|] eqn:Ek; [|exists cfg, qs; split_and!; [done..|by eapply follows_to|intros _ ks; by rewrite app_nil_r]].
    assert (pkt_ok 0 k /\ Z.of_nat (length (concat (udp_pieces k))) <= FRC_DMA_SIMPLE_PACKAGE_BLOCK_SIZE) as [Hk Hkl] by (destruct (rx_on _ && _); [by eapply submitted_ok|done]).
    destruct (good_step N P B cpu_freq HN HP HPN HB pool Hpool Hblocks I n cfg qs (OpUdp f k) Hg) as (cfg' & qs' & Es & Hg' & Hl & Hm); [by split|done|].
    exists cfg', qs'. rewrite Hone. split_and!; [done..| |intros Hi ks; by apply (queue_offered I)]. destruct Hs as [rv' Hs]. cbn [step] in Es. rewrite Hs in Es. injection Es as <-. by eapply follows_to.
  - change (Work.frcore_chan_process w (Work.comp c)) with (IpPath.on_branches (IpPath.fifo_timer w) (Work.comp c)) in Hr. rewrite Hr.
    unfold IpPath.on_branches. cbn [IpPath.fifo_timer udp_branches]. rewrite (IpPathThm.po_branches _ _ _ (proj1 Hc)).
    destruct (good_step N P B cpu_freq HN HP HPN HB pool Hpool Hblocks I n cfg qs (OpTimer f) Hg) as (cfg' & qs' & Es & Hg' & Hl & Hm); [by split|done|].
    rewrite Hone, Es. cbn [step] in Es. destruct (frcore_chan_process N P B cpu_freq f (sys cfg)) as [s'|]; [|done]. injection Es as <-. cbn [mbind option_bind].
    eexists _, _, qs'. split_and!; [done..| |intros Hi ks; rewrite app_nil_r; by apply (queue_timer I)]. rewrite (proj1 (WorkThm.act_on_spec w _ _)).
    eapply follows_to; [done| |done|done]. destruct Hc as [[] _]. by split.
  - destruct Hr as (c' & -> & Ec). exists c', cfg, qs. rewrite Ec. split_and!; [done..|]. intros _ ks. by rewrite app_nil_r.
Qed.

Lemma loop_ops I n cfg qs ws (c : Work.core (IpPath.ip_sys state)) : good N P pool I n cfg qs -> (f < length qs)%nat ->
  Z.of_nat (n + length ws) < 2 ^ 64 -> Forall wire_ok ws -> follows (Work.comp c) (sys cfg) ->
  exists c' cfg' qs', foldM (fun c w => process w c) ws c = Some c' /\ run N P B cpu_freq (ws ≫= ops_of) cfg = Some cfg' /\
    good N P pool I (n + length ws) cfg' qs' /\ length qs' = length qs /\ follows (Work.comp c') (sys cfg') /\
    (I -> forall ks, queue_at ks cfg qs -> queue_at (ks ++ (ws ≫= arrived)) cfg' qs').
Proof using HN HP HPN HB Hpool Hblocks.
  intros Hg Hf Hn Hws. revert n cfg qs c Hg Hf Hn. induction Hws as [|w ws Hw _ IH]; intros n cfg qs c Hg Hf Hn Hc; cbn [length] in *.
  { exists c, cfg, qs. rewrite Nat.add_0_r. split_and!; [done..|]. intros _ ks. by rewrite app_nil_r. }
  destruct (process_op I n cfg qs w c Hg Hf) as (c1 & cfg1 & qs1 & E1 & R1 & G1 & L1 & F1 & Q1); [lia|done..|].
  destruct (IH (S n) cfg1 qs1 c1 G1) as (c2 & cfg2 & qs2 & E2 & R2 & G2 & L2 & F2 & Q2); [lia..|done|].
  exists c2, cfg2, qs2. cbn [foldM]. rewrite E1. cbn [mbind option_bind]. split; [done|]. rewrite Nat.add_succ_r. split_and!; [|done|congruence|done|].
  2: { intros Hi ks Hks. cbn [mbind list_bind]. rewrite app_assoc. by apply Q2, Q1. }
  cbn [mbind list_bind]. unfold run in *. rewrite foldM_app, R1. exact R2.
Qed.

(** What is completed comes from the FIFO of the core. *)
Lemma log_of_fifo (log : list (nat * list Z)) l (qs : list (list (list Z))) :
  (forall g, packets_of g (map (pair f) l) = packets_of g log ++ default [] (qs !! g)) ->
  map snd log ++ default [] (qs !! f) = l.
Proof.
  intros H. assert (packets_of f log = map snd log) as <-; [|by rewrite <- H, packets_of_same].
  assert (Forall (fun e => e.1 = f) log) as Hall.
  { apply Forall_forall. intros [g b] Hin. destruct (decide (g = f)) as [|Hne]; [done|]. exfalso.
    specialize (H g). rewrite packets_of_other in H by done. symmetry in H. apply app_eq_nil in H as [H _].
    assert (b ∈ packets_of g log) as Hb by (apply (list_elem_of_fmap_2 snd _ (g, b)), list_elem_of_filter; done). rewrite H in Hb. by apply elem_of_nil in Hb. }
  unfold packets_of. f_equal. clear H. induction Hall as [|e log He _ IH]; [done|]. by rewrite filter_cons_True, IH.
Qed.

End udp.

(** ** A packet and a timer *)

(** The entry of the FIFO's timer. *)
Definition timer_entry : Work.wqe := Work.Wqe 3 0 true false Work.OTHER_OP 0 Work.FRCORE_WORK_CHAN 0 0 false Work.UNKNOWN_ERR 0 0 0 false false false false false [] [].
Definition udp_work : list Work.wqe := [IpPathThm.tagged_v4; timer_entry; IpPathThm.tagged_v4].
#[local] Abbreviation udp_start := (Work.Core (IpPath.ip_load (demo [])) (fun _ => 0) [] []).

Lemma udp_work_ok : Forall (wire_ok (fun _ => true) 32 false false) udp_work.
Proof.
  repeat (apply Forall_cons_2); [| | |apply Forall_nil_2]; (split; [done|]); intros Hr; [|vm_compute in Hr; discriminate Hr|];
    (split; [apply IpPathThm.tagged_v4_fits|reflexivity]).
Qed.

