(* ===== verification/WorkMac.v ===== *)
(** * The card with address statistics

    The build with [FRC_CONFIG_MAC_STATISTICS]: packets of the wire are counted and sent
    back with their addresses exchanged.  [Work], [IpPath] and [MacStat] are composed: the
    bytes of a packet that is sent back, the heart beats, the entries, and those of the two
    groups of the host, which are freed before they are sent. *)

From stdpp Require Import list functions.
From S2P Require Import Prelude Bytes MacStat MacStatProps Work WorkThm IpPath IpPathThm.
#[local] Open Scope Z_scope.

(** ** Bytes *)

(** The same bytes but for the positions [ix]. *)
Definition same_but (ix : list nat) (e e' : list Z) : Prop := length e' = length e /\ forall i, i ∉ ix -> e' !! i = e !! i.

Lemma same_but_refl ix e : same_but ix e e. Proof. done. Qed.
Lemma same_but_trans ix e1 e2 e3 : same_but ix e1 e2 -> same_but ix e2 e3 -> same_but ix e1 e3.
Proof. intros [L1 H1] [L2 H2]. split; [congruence|]. intros i Hi. rewrite H2 by done. auto. Qed.
Lemma same_but_take ix e e' n : same_but ix e e' -> Forall (fun i => (n <= i)%nat) ix -> take n e' = take n e.
Proof.
  intros [L H] Hix. apply list_eq. intros i. destruct (decide (i < n)%nat); [|by rewrite !lookup_take_ge by lia].
  rewrite !lookup_take_lt by lia. apply H. intros Hi. rewrite Forall_forall in Hix. apply Hix in Hi. lia.
Qed.

Lemma written_same b o bs b' ix : write_bytes b o bs = Some b' -> (forall i, (o <= i < o + length bs)%nat -> i ∈ ix) -> same_but ix b b'.
Proof.
  intros Hw Hix. split; [by eapply length_written|]. intros i Hi. unfold write_bytes in Hw. destruct (Nat.leb_spec (o + length bs) (length b)) as [Hl|]; [|done].
  injection Hw as <-. destruct (decide (i < o)%nat); [by rewrite lookup_app_l, lookup_take_lt by (rewrite ?length_take; lia)|].
  destruct (decide (i < o + length bs)%nat); [by destruct Hi; apply Hix; lia|].
  rewrite lookup_app_r, length_take, lookup_app_r, lookup_drop by (rewrite ?length_take; lia). f_equal. lia.
Qed.

(** The exchange of the addresses. *)
Lemma swap_spec e : (12 <= length e)%nat -> swap_mac_addr e = Some (take 6 (drop 6 e) ++ take 6 e ++ drop 12 e).
Proof.
  intros H. do 12 (destruct e as [|? e]; [simpl in H; lia|]).
  unfold swap_mac_addr. rewrite !read_bytes_eq by (simpl length; lia). cbn [mbind option_bind].
  repeat (rewrite write_bytes_eq by (simpl; lia); cbn [mbind option_bind]). done.
Qed.

Theorem swap_involutive (e e' : list Z) : swap_mac_addr e = Some e' -> swap_mac_addr e' = Some e.
Proof.
  intros Hs. destruct (decide (12 <= length e)%nat) as [H|H].
  - rewrite (swap_spec e H) in Hs. injection Hs as <-. do 12 (destruct e as [|? e]; [simpl in H; lia|]). rewrite swap_spec by (simpl; lia). done.
  - exfalso. unfold swap_mac_addr in Hs. inv_bind. unfold read_bytes in *. repeat case_match; simplify_eq; try done; lia.
Qed.

(** ** The counting of a packet is defined *)

(** The packet holds its headers and the half of it that is summed up. *)
Record mac_fits (e : list Z) : Prop := MacFits {
  mf_headers : (94 <= length e)%nat;
  mf_sum : forall t, card_get e 32 2 = Some t -> 0 <= t /\ 32 + t / 2 <= Z.of_nat (length e) }.

(** The fields of the IP header that are written. *)
Definition rewritten : list nat := [31; 38; 40; 41]%nat.

Lemma sum_words_defined n p o s : 0 <= o -> o + Z.of_nat n + 1 <= Z.of_nat (length p) -> is_Some (sum_words n p o s).
Proof.
  revert o s. induction n as [|n IH]; intros o s Ho Hl; cbn [sum_words]; [by eexists|].
  destruct (card_get_defined p o 2) as [w ->]; [lia..|]. cbn [mbind option_bind]. apply IH; lia.
Qed.

Lemma check_sum_defined p o c : 0 <= o -> 0 <= c -> o + c / 2 + 2 <= Z.of_nat (length p) -> is_Some (check_sum p o c).
Proof.
  intros Ho Hc Hl. unfold check_sum. assert (0 <= c / 2) by (apply Z.div_pos; lia).
  destruct (sum_words_defined (Z.to_nat (c / 2)) p o 0) as [s ->]; [lia|lia|]. cbn [mbind option_bind].
  destruct (0 <? c `mod` 2); [|by eexists]. destruct (card_get_defined p (o + c / 2) 2) as [w ->]; [lia..|]. by eexists.
Qed.

(** A write to one of the fields. *)
Lemma rewrite_field o bs e : (o + length bs <= 94)%nat -> (94 <= length e)%nat -> (forall i, (o <= i < o + length bs)%nat -> i ∈ rewritten) ->
  exists e', write_bytes e o bs = Some e' /\ same_but rewritten e e'.
Proof. intros Ho He Hix. rewrite write_bytes_eq by lia. eexists. split; [done|]. eapply written_same; [by apply write_bytes_eq; lia|done]. Qed.

Lemma card_get_same e e' o n : same_but rewritten e e' -> 0 <= o -> 0 <= n -> (forall i, (Z.to_nat o <= i < Z.to_nat (o + n))%nat -> i ∉ rewritten) ->
  card_get e' o n = card_get e o n.
Proof.
  intros [L H] Ho Hn Hi. unfold card_get, read_bytes. rewrite L. destruct (_ && _); [|done]. cbn [mbind option_bind]. do 3 f_equal.
  apply list_eq. intros i. destruct (decide (i < Z.to_nat n)%nat); [|by rewrite !lookup_take_ge by lia].
  rewrite !lookup_take_lt, !lookup_drop by lia. apply H, Hi. lia.
Qed.

Lemma set_ip_defined e st : mac_fits e -> exists e', frcore_mac_statistics_set_ip_pkt 30 e st = Some e' /\ same_but rewritten e e'.
Proof.
  intros [Hl Hs]. unfold frcore_mac_statistics_set_ip_pkt. change (Z.to_nat (30 + 1)) with 31%nat. change (Z.to_nat (30 + 8)) with 38%nat. change (Z.to_nat (30 + 10)) with 40%nat.
  assert (forall i j, (i = j)%nat -> j ∈ rewritten -> i ∈ rewritten) as Hin by (by intros ? ? ->).
  assert (exists e1, (if ip_tos st >=? 0 then write_bytes e 31 [u8 (ip_tos st)] else Some e) = Some e1 /\ same_but rewritten e e1) as (e1 & -> & H1).
  { destruct (_ >=? 0); [|by exists e]. apply rewrite_field; [simpl; lia|done|]. intros i Hi. apply (Hin i 31%nat); [simpl in Hi; lia|]. set_solver. }
  cbn [mbind option_bind]. pose proof (proj1 H1) as L1.
  assert (exists e2, (if ip_ttl st >=? 0 then write_bytes e1 38 [u8 (ip_ttl st)] else Some e1) = Some e2 /\ same_but rewritten e1 e2) as (e2 & -> & H2).
  { destruct (_ >=? 0); [|by exists e1]. apply rewrite_field; [simpl; lia|lia|]. intros i Hi. apply (Hin i 38%nat); [simpl in Hi; lia|]. set_solver. }
  cbn [mbind option_bind]. pose proof (proj1 H2) as L2.
  assert (forall i, (40 <= i < 40 + 2)%nat -> i ∈ rewritten) as H40.
  { intros i Hi. destruct (decide (i = 40%nat)); [apply (Hin i 40%nat); [done|set_solver]|apply (Hin i 41%nat); [lia|set_solver]]. }
  destruct (rewrite_field 40 [0; 0] e2) as (e3 & -> & H3); [simpl; lia|lia|done|]. cbn [mbind option_bind]. pose proof (proj1 H3) as L3.
  pose proof (same_but_trans _ _ _ _ (same_but_trans _ _ _ _ H1 H2) H3) as H.
  change (30 + 2) with 32. rewrite (card_get_same e e3 32 2 H) by (done || intros i Hi; unfold rewritten; set_unfold; lia).
  destruct (card_get_defined e 32 2) as [t Et]; [lia..|]. rewrite Et. cbn [mbind option_bind]. destruct (Hs t Et) as [Ht Hb].
  destruct (check_sum_defined e3 30 t) as [c ->]; [done|done|lia|]. cbn [mbind option_bind].
  destruct (rewrite_field 40 (be_bytes 2 c) e3) as (e4 & -> & H4); [rewrite length_be_bytes; lia|lia|by rewrite length_be_bytes|].
  eexists. split; [done|]. by eapply same_but_trans.
Qed.

(** What the counting leaves of a packet and of the table. *)
Lemma counter_defined e st : mac_fits e -> mac_inv st ->
  exists rv e' st', frcore_mac_statistics_counter_inc e st = Some (rv, e', st') /\ same_but rewritten e e' /\ mac_inv st' /\ heart_beat st' = heart_beat st.
Proof.
  intros He Hst. pose proof (mf_headers _ He) as Hl. unfold frcore_mac_statistics_counter_inc. change (16 + SIZEOF_ETHHDR) with 30.
  destruct (card_get_defined e 0 8) as [w ->]; [lia..|]. cbn [mbind option_bind]. destruct (card_get_defined e 28 2) as [ty ->]; [lia..|]. cbn [mbind option_bind].
  destruct (negb _); [by eexists _, _, _|]. destruct (set_ip_defined e st He) as (e1 & -> & H1). cbn [mbind option_bind]. pose proof (proj1 H1) as L1.
  destruct (card_get_defined e1 30 1) as [b ->]; [lia..|]. cbn [mbind option_bind]. destruct (negb _); [by eexists _, _, _|].
  destruct (card_get_defined e1 (30 + 12) 4) as [sip ->]; [lia..|]. cbn [mbind option_bind]. destruct (card_get_defined e1 (30 + 16) 4) as [dip ->]; [lia..|]. cbn [mbind option_bind].
  destruct (card_get_defined e1 (30 + 9) 1) as [pr ->]; [lia..|]. cbn [mbind option_bind]. destruct (_ || _); [|by eexists _, _, _].
  pose proof (land15_range b) as Hb. change 15 with 0xf in Hb.
  destruct (card_get_defined e1 (30 + Z.land b 0xf * 4) 2) as [sp ->]; [lia..|]. cbn [mbind option_bind].
  destruct (card_get_defined e1 (30 + Z.land b 0xf * 4 + 2) 2) as [dp ->]; [lia..|]. cbn [mbind option_bind].
  destruct (mac_packet_counted sip dip sp dp pr (Z.shiftr w 16) st Hst) as (h & -> & [[-> E]|(_ & en & st' & _ & E & _ & Hi & _)]); cbn [mbind option_bind]; rewrite E.
  - by eexists _, _, _.
  - eexists _, _, st'. split_and!; [done..|]. unfold count_packet in E. destruct (h =? _); [by injection E as _ <-|].
    destruct (arr_get _ _); [|done]. cbn [mbind option_bind] in E. destruct (_ =? 0); [by injection E as _ <-|]. destruct (arr_set _ _ _); [|done]. by injection E as <-.
Qed.

(** ** Sending back *)

(** The builds with address statistics: nothing follows the headers. *)
Section echo.
Context {B : Type} {H : Branches B}.
Variables (cfg : ip_config) (rx_on link_status : Z -> bool).
Hypothesis Hcfg : FRC_CONFIG_MAC_STATISTICS cfg = true.

#[local] Abbreviation sys_ok := (path_ok (fun _ (_ : B) => True) []).

(** An entry whose packet lies in a buffer of its own. *)
Record echo_fits (w : wqe) : Prop := EchoFits { ef_packet : mac_fits (ether_of w); ef_bufs : w_bufs w <> 0 }.

(** The groups whose entries are freed at once. *)
Definition host_group (w : wqe) : bool := (w_grp w =? FRC_PKT_GRP) || (w_grp w =? FRC_CMD_GRP).
Definition mac_good (w : wqe) : Prop := echo_fits w /\ host_group w = false.

Definition is_beat (w : wqe) : bool := bool_decide (card_get (ether_of w) 12 2 = Some 0x88a8).

(** The packet [e] with its addresses exchanged, as far as [e] differs from [w]'s only in
    the IP header. *)
Definition echo_of (w : wqe) (bs : list Z) : Prop :=
  exists e, same_but rewritten (ether_of w) e /\ take 12 e = take 12 (ether_of w) /\
    bs = take (Z.to_nat (w_len w)) (take 6 (drop 6 e) ++ take 6 e ++ drop 12 e).

(** The port is the one of the entry, as eight bits. *)
Definition echoed (w : wqe) (f : fate) : Prop :=
  if link_status (u8 (w_ipprt w)) then f = Freed \/ exists bs, f = Sent (u8 (w_ipprt w)) bs /\ echo_of w bs else f = Freed.

Lemma send_swapped_spec w e (c : core (ip_sys B)) : w_bufs w <> 0 -> (12 <= length e)%nat ->
  exists c' f, send_swapped link_status w e c = Some c' /\ comp c' = comp c /\ fates c' = fates c ++ [(w_id w, f)] /\ pko c' = (if link_status (u8 (w_ipprt w)) then tl (pko c) else pko c) /\
    f = if link_status (u8 (w_ipprt w)) && (hd 0 (pko c) =? 0) then Sent (u8 (w_ipprt w)) (take (Z.to_nat (w_len w)) (take 6 (drop 6 e) ++ take 6 e ++ drop 12 e)) else Freed.
Proof.
  intros Hb He. unfold send_swapped. rewrite (swap_spec e He). cbn [mbind option_bind].
  unfold frcore_forward_packet_to_wire, frcore_send_to_pko, next_pko, with_ether. rewrite (proj2 (Z.eqb_neq _ 0) Hb).
  destruct (link_status _); cbn [negb andb]; [|by eexists _, _].
  change (pko (FRCORE_STAT_ADD _ _ (FRCORE_STAT_INC _ c))) with (pko c). destruct (_ =? 0); by eexists _, _.
Qed.

(** A packet that is sent back: the verdict leaves the entry to the output unit. *)
Lemma sendback_spec w (c : core (ip_sys B)) : sys_ok (comp c) -> echo_fits w ->
  exists rv c' fs, frcore_pkt_sendback link_status w c = Some (rv, c') /\ sys_ok (comp c') /\
    fates c' = (fates c ++ if host_group w then [(w_id w, Freed)] else []) ++ ((fun f => (w_id w, f)) <$> fs) /\ one_end rv fs /\
    (is_beat w = false -> rv = FRCORE_ACT_UNFREE /\ exists f, fs = [f] /\ echoed w f /\
      (link_status (u8 (w_ipprt w)) = true -> hd 0 (pko c) = 0 -> f <> Freed) /\ pko c' = if link_status (u8 (w_ipprt w)) then tl (pko c) else pko c).
Proof.
  intros Hok [Hfit Hb]. pose proof (mf_headers _ Hfit) as Hl. unfold frcore_pkt_sendback, is_beat. fold (host_group w).
  set (c0 := if host_group w then end_work w Freed c else c).
  assert (comp c0 = comp c /\ pko c0 = pko c /\ fates c0 = fates c ++ if host_group w then [(w_id w, Freed)] else []) as (Ec0 & Ep0 & Ef0)
    by (unfold c0; destruct (host_group w); simpl; by rewrite ?app_nil_r). clearbody c0.
  rewrite <- Ef0, <- Ep0. rewrite <- Ec0 in Hok. clear Ec0 Ep0 Ef0 c. rename c0 into c.
  destruct (card_get_defined (ether_of w) 12 2) as [ty Ety]; [lia..|]. rewrite Ety. cbn [mbind option_bind].
  assert (forall (b : bool) p bs f, f = (if b then Sent p bs else Freed) -> one_end FRCORE_ACT_UNFREE [f]) as Hun
    by (intros b p bs f ->; split; [done|]; intros Hin%list_elem_of_singleton; by destruct b).
  assert (one_end FRCORE_ACT_DROP []) as Hdr by (split; [done|apply not_elem_of_nil]).
  destruct (Z.eqb_spec ty 0x88a8) as [->|Hne]; cbn [negb].
  - rewrite bool_decide_eq_true_2 by done.
    assert (forall k, exists rv c' fs, Some (FRCORE_ACT_DROP, FRCORE_STAT_INC k (FRCORE_STAT_INC stat_heart_beat_pkt c)) = Some (rv, c') /\ sys_ok (comp c') /\
      fates c' = fates c ++ ((fun f => (w_id w, f)) <$> fs) /\ one_end rv fs) as Hdrop by (intros k; eexists FRCORE_ACT_DROP, _, []; rewrite app_nil_r; by split_and!).
    assert (exists rv c' fs, (c ← send_swapped link_status w (ether_of w) (FRCORE_STAT_INC stat_heart_beat_send_back_pkt (FRCORE_STAT_INC stat_heart_beat_pkt c)); Some (FRCORE_ACT_UNFREE, c)) = Some (rv, c') /\
      sys_ok (comp c') /\ fates c' = fates c ++ ((fun f => (w_id w, f)) <$> fs) /\ one_end rv fs) as Hsend.
    { destruct (send_swapped_spec w (ether_of w) (FRCORE_STAT_INC stat_heart_beat_send_back_pkt (FRCORE_STAT_INC stat_heart_beat_pkt c)) Hb) as (c' & f & -> & Ec & Ef & _ & Hf); [lia|].
      cbn [mbind option_bind]. eexists FRCORE_ACT_UNFREE, c', [f]. split_and!; [done|by rewrite Ec|done|by eapply Hun]. }
    destruct (_ =? HEART_BEAT_ON_WITH_DROP).
    + destruct (arr_get_is_Some (ether_of w) 5) as [b ->]; [lia|]. cbn [mbind option_bind].
      destruct (negb _); [destruct Hsend as (rv & c' & fs & ? & ? & ? & ?)|destruct (Hdrop stat_heart_beat_on_drop_pkt) as (rv & c' & fs & ? & ? & ? & ?)]; by exists rv, c', fs.
    + destruct (_ =? HEART_BEAT_ON); [destruct Hsend as (rv & c' & fs & ? & ? & ? & ?)|destruct (Hdrop stat_heart_beat_drop_pkt) as (rv & c' & fs & ? & ? & ? & ?)]; by exists rv, c', fs.
  - destruct (counter_defined (ether_of w) (macs_of (comp c)) Hfit (po_mac _ _ _ Hok)) as (rv & e & m & -> & He & Hm & _). cbn [mbind option_bind].
    destruct (send_swapped_spec w e (set_comp (set_macs_of m (comp c)) c) Hb) as (c' & f & -> & Ec & Ef & Ep & Hf); [rewrite (proj1 He); lia|]. cbn [mbind option_bind].
    eexists FRCORE_ACT_UNFREE, _, [f]. split; [done|]. split; [cbn [FRCORE_STAT_INC FRCORE_STAT_ADD comp]; rewrite Ec; destruct Hok; by split|].
    split_and!; [done|by eapply Hun|]. intros _. split; [done|]. exists f. split; [done|]. cbn [set_comp pko] in *. split_and!; [|intros Hls Hpk; by rewrite Hf, Hls, Hpk|done].
    unfold echoed. destruct (link_status _); [|done]. destruct (_ =? 0); cbn [andb] in Hf; [right|by left]. eexists. split; [done|]. exists e. split_and!; [done| |done].
    eapply same_but_take; [done|]. repeat constructor; lia.
Qed.

(** The work of a packet. *)
Lemma mac_work_spec w (c : core (ip_sys B)) : sys_ok (comp c) -> mac_good w ->
  exists rv c' fs, frcore_pkt_work_process cfg rx_on link_status w c = Some (rv, c') /\ sys_ok (comp c') /\
    fates c' = fates c ++ ((fun f => (w_id w, f)) <$> fs) /\ one_end rv fs /\
    (rx_on (w_ipprt w) = true -> w_rcv_error w = false -> is_beat w = false -> rv = FRCORE_ACT_UNFREE /\ exists f, fs = [f] /\ echoed w f /\
      (link_status (u8 (w_ipprt w)) = true -> hd 0 (pko c) = 0 -> f <> Freed) /\ pko c' = if link_status (u8 (w_ipprt w)) then tl (pko c) else pko c).
Proof using Hcfg.
  intros Hok Hg. unfold frcore_pkt_work_process. destruct (receive_spec cfg rx_on _ _ w (comp c) Hok) as (go & st & E & Hst). rewrite E. cbn [mbind option_bind].
  assert (go = rx_on (w_ipprt w) && negb (w_rcv_error w)) as ->.
  { unfold receive in E. destruct (rx_on _); cbn [negb andb] in *; [|by injection E as <- <-]. destruct (w_rcv_error w); [by injection E as <- <-|].
    destruct (FRC_CONFIG_VLAN_CHECK cfg); by inv_bind. }
  destruct (rx_on _ && _) eqn:Ego; cbn [negb].
  - rewrite Hcfg. destruct (sendback_spec w (set_comp st c)) as (rv & c' & fs & -> & Hc & Hf & Ho & Hb); [done|apply Hg|]. rewrite (proj2 Hg), app_nil_r in Hf. exists rv, c', fs. by split_and!.
  - eexists FRCORE_ACT_DROP, _, []. split; [done|]. rewrite app_nil_r. split_and!; [done|done|split; [done|apply not_elem_of_nil]|]. intros Hrx Her. by rewrite Hrx, Her in Ego.
Qed.

Lemma mac_laws : HandlerLaws (path_handlers cfg rx_on link_status) (fun st _ => sys_ok st) mac_good (fun _ => False) (fun _ => False).
Proof using Hcfg.
  split; [done| |done..]. intros w c Hok Hg. destruct (mac_work_spec w c Hok Hg) as (rv & c' & fs & ? & ? & ? & ? & _). by exists rv, c', fs.
Qed.
End echo.

(** ** The loop of a core *)

(** Over any work of packets, heart beats, packets of the host and errors the loop of a core that sends
    back its packets is defined and every entry is given back once, if none of a group of
    the host is taken for a packet. *)
Theorem echo_gives_back_once {B : Type} (H : Branches B) (cfg : ip_config) (rx_on link_status state_active : Z -> bool) (max_ports : Z)
    (sdk : host_sdk) (pciport : Z -> Z) (resp_hdr : Z -> list Z) (mode0 mode1 : bool) (core_id : Z) (chan_on age_on : bool) (ws : list wqe) (c : core (ip_sys B)) :
  FRC_CONFIG_MAC_STATISTICS cfg = true -> path_ok (fun _ _ => True) [] (comp c) -> Forall (legal state_active max_ports chan_on mac_good (fun _ => False) (fun _ => False)) ws ->
  exists c', frcore_data_loop (Handlers0 := path_handlers cfg rx_on link_status) state_active max_ports sdk link_status pciport resp_hdr
      mode0 mode1 core_id chan_on age_on ws c = Some c' /\
    path_ok (fun _ _ => True) [] (comp c') /\ exists fs, fates c' = fates c ++ fs /\ fs.*1 = w_id <$> filter (fun w => is_timer chan_on w = false) ws.
Proof. intros Hm Hok Hws. exact (loop_ends (laws := mac_laws cfg rx_on link_status Hm) state_active max_ports sdk link_status pciport resp_hdr mode0 mode1 core_id chan_on age_on ws c Hws Hok). Qed.

(** The packets of the wire that are no heart beats, on ports that receive and links that
    are up. *)
Record echo_work (rx_on link_status state_active : Z -> bool) (max_ports : Z) (mode0 mode1 : bool) (w : wqe) : Prop := EchoWork {
  ew_reach : reach_of state_active max_ports mode0 mode1 false w = ToPath; ew_good : mac_good w; ew_beat : is_beat w = false;
  ew_rx : rx_on (w_ipprt w) = true; ew_err : w_rcv_error w = false; ew_link : link_status (u8 (w_ipprt w)) = true }.


(** An entry of a group of the host is freed first, and then the output unit or the dispatch
    gives it back again. *)
Theorem host_packet_given_twice {B : Type} (link_status : Z -> bool) (w : wqe) (c c' : core (ip_sys B)) (rv : Z) :
  path_ok (fun _ (_ : B) => True) [] (comp c) -> echo_fits w -> host_group w = true -> frcore_pkt_sendback link_status w c = Some (rv, c') ->
  exists f, fates (act_on w rv c') = fates c ++ [(w_id w, Freed); (w_id w, f)].
Proof.
  intros Hok Hf Hg E. destruct (sendback_spec link_status w c Hok Hf) as (rv' & c2 & fs & E2 & _ & Hfs & Ho & _). rewrite E in E2. injection E2 as <- <-.
  destruct (act_on_spec w rv c') as [_ ->]. rewrite Hfs, Hg. destruct Ho as [Ho _]. destruct (frees rv).
  - destruct fs; [|simpl in Ho; lia]. exists Freed. by rewrite app_nil_r, <- app_assoc.
  - destruct fs as [|f [|? ?]]; simpl in Ho; try lia. exists f. by rewrite app_nil_r, <- app_assoc.
Qed.

(** ** A packet *)

(** Only the statistics are compiled in. *)
Definition mac_config : ip_config := IpConfig false false true false false false false.

Definition echo_frame : list Z :=
  replicate 6 2 ++ replicate 6 3 ++ replicate 16 0 ++ [8; 0; 0x45; 0; 0; 40; 0; 0; 0; 0; 64; 17; 0; 0; 10; 0; 0; 1; 10; 0; 0; 2] ++ replicate 60 0.
Definition echo_packet (id grp : Z) : wqe :=
  Wqe id grp false false OTHER_OP 0 0 1 80 false UNKNOWN_ERR 1 30 0 false false false false true [] echo_frame.
#[local] Abbreviation echo_start := (Core (ip_load tt) (fun _ => 0) [] []).
#[local] Abbreviation echo_handlers := (path_handlers (Branches0 := no_branches) mac_config (fun _ => true) (fun _ => true)).

Lemma echo_packet_fits id grp : echo_fits (echo_packet id grp).
Proof. split; [|done]. split; [vm_compute; lia|]. intros t Ht. vm_compute in Ht. injection Ht as <-. vm_compute. split; discriminate. Qed.
Lemma echo_packet_good id : mac_good (echo_packet id 0).
Proof. split; [apply echo_packet_fits|done]. Qed.
Lemma echo_packet_work id : echo_work (fun _ => true) (fun _ => true) (fun _ => true) 32 false false (echo_packet id 0).
Proof. split; try done. apply echo_packet_good. Qed.
Lemma echo_start_ok : path_ok (fun _ _ => True) [] (comp echo_start).
Proof. by apply ip_load_ok. Qed.

Lemma echo_gives_back_once_witness : exists c',
  frcore_data_loop (Handlers0 := echo_handlers) (fun _ => true) 32 sample_sdk (fun _ => true) (fun _ => 32) (fun _ => []) false false 0 false false
    [echo_packet 1 0; echo_packet 2 0] echo_start = Some c' /\ (fates c').*1 = [1; 2].
Proof.
  destruct (echo_gives_back_once no_branches mac_config (fun _ => true) (fun _ => true) (fun _ => true) 32 sample_sdk (fun _ => 32) (fun _ => []) false false 0 false false
    [echo_packet 1 0; echo_packet 2 0] echo_start eq_refl echo_start_ok) as (c' & E & _ & fs & Hf & Hids).
  - repeat (apply Forall_cons_2); [| |apply Forall_nil_2]; (split; [done|]); (split; [done|]); intros _ _ _ _; apply echo_packet_good.
  - exists c'. split; [exact E|]. rewrite Hf. exact Hids.
Defined.


Definition sendback_fates (o : option (Z * core (ip_sys unit))) : bool := match o with Some _ => true | None => false end.
Lemma host_packet_defined : sendback_fates (frcore_pkt_sendback (fun _ => true) (echo_packet 7 FRC_PKT_GRP) echo_start) = true.
Proof. vm_compute. reflexivity. Qed.
Lemma defined_Some (o : option (Z * core (ip_sys unit))) : sendback_fates o = true -> exists rv c', o = Some (rv, c').
Proof. destruct o as [[rv c']|]; [intros _; by exists rv, c'|done]. Qed.

Lemma host_packet_given_twice_witness : exists rv c' f,
  frcore_pkt_sendback (fun _ => true) (echo_packet 7 FRC_PKT_GRP) echo_start = Some (rv, c') /\
  fates (act_on (echo_packet 7 FRC_PKT_GRP) rv c') = [] ++ [(7, Freed); (7, f)].
Proof.
  destruct (defined_Some _ host_packet_defined) as (rv & c' & E).
  destruct (host_packet_given_twice (fun _ => true) (echo_packet 7 FRC_PKT_GRP) echo_start c' rv echo_start_ok (echo_packet_fits 7 FRC_PKT_GRP) eq_refl E) as [f Hf].
  exists rv, c', f. split; [exact E|exact Hf].
Defined.
