(* ===== verification/Tool.v ===== *)
(** * The command line: src/code/frctweak/frctweak.c and frctweak_arg_parser.c

    First what the tool uses of the standard library, on strings as lists of characters
    without the terminating zero: comparison, [strchr], [strtoul], the conversions of
    [sscanf] and [sprintf], and copies into buffers.  Then reading and printing of values,
    arguments of the form key=value, and the tree of commands.  A reader takes the old
    value of its variable and gives its code (0 for success, 1 for an error) and the new
    one.  [None] is undefined behaviour: a conversion of [sscanf] whose number does not fit
    its variable, or a copy that leaves no room for the zero.  [unsigned long] has 64 bits,
    [char] is signed.  What is printed for the user is left out; the path printed by the
    help is built, for it is built in a buffer. *)

From stdpp Require Import list functions.
From Stdlib Require Import Ascii String.
From S2P Require Import Prelude Cmd.
#[local] Open Scope Z_scope.
#[local] Open Scope list_scope.

(** * Strings of C *)

Definition cstr : Type := list Z.
Definition chars (s : string) : cstr := (fun a => Z.of_N (N_of_ascii a)) <$> list_ascii_of_string s.

Definition tolower (c : Z) : Z := if (65 <=? c) && (c <=? 90) then c + 32 else c.
Definition strcmp0 (a b : cstr) : bool := bool_decide (a = b).
Definition strcasecmp0 (a b : cstr) : bool := bool_decide (tolower <$> a = tolower <$> b).
Definition strncasecmp0 (n : nat) (a b : cstr) : bool := bool_decide (tolower <$> take n a = tolower <$> take n b).

(** What is before and behind the first [c]. *)
Fixpoint strchr (s : cstr) (c : Z) : option (cstr * cstr) :=
  match s with
  | [] => None
  | x :: s => if x =? c then Some ([], s) else '(a, b) ← strchr s c; Some (x :: a, b)
  end.

(** A string copied into [n] cleared bytes and used as a string. *)
Definition buf_copy (n : nat) (s : cstr) : option cstr := if (List.length s <? n)%nat then Some s else None.

(** ** Numbers in strings *)

Definition isspace (c : Z) : bool := (c =? 32) || ((9 <=? c) && (c <=? 13)).
Fixpoint skip_space (s : cstr) : cstr := match s with c :: s' => if isspace c then skip_space s' else s | [] => [] end.

Definition digit_of (c : Z) : option Z :=
  if (48 <=? c) && (c <=? 57) then Some (c - 48)
  else if (65 <=? c) && (c <=? 90) then Some (c - 55)
  else if (97 <=? c) && (c <=? 122) then Some (c - 87) else None.
Definition is_digit (base c : Z) : bool := match digit_of c with Some d => d <? base | None => false end.

Fixpoint take_digits (base : Z) (s : cstr) : list Z * cstr :=
  match s with
  | c :: s' => if is_digit base c then let '(ds, r) := take_digits base s' in (default 0 (digit_of c) :: ds, r) else ([], s)
  | [] => ([], [])
  end.
Definition number (base : Z) (ds : list Z) : Z := fold_left (fun a d => a * base + d) ds 0.

(** A sign: whether it is a minus, and the rest. *)
Definition sign (s : cstr) : bool * cstr :=
  match s with c :: s' => if c =? 45 then (true, s') else if c =? 43 then (false, s') else (false, s) | [] => (false, []) end.
Definition has_0x (s : cstr) : bool := strncasecmp0 2 (chars "0x") s.

(** [strtoul] and [strtoull]: the number and where it ends. *)
Definition strtoul (s : cstr) (base : Z) : Z * cstr :=
  let '(neg, t) := sign (skip_space s) in
  let t := if (base =? 16) && has_0x t && match drop 2 t with c :: _ => is_digit 16 c | [] => false end then drop 2 t else t in
  match take_digits base t with
  | ([], _) => (0, s)
  | (ds, r) => (if 2 ^ 64 <=? number base ds then 2 ^ 64 - 1 else if neg then u64 (- number base ds) else number base ds, r)
  end.

(** A conversion: undefined, or no match, or the number and the rest. *)
Definition conversion : Type := cstr -> option (option (Z * cstr)).
Definition scan (base : Z) (value : bool -> Z -> Z) (fits : Z -> bool) : conversion := fun s =>
  let '(neg, t) := sign (skip_space s) in
  let t := if (base =? 16) && has_0x t then drop 2 t else t in
  match take_digits base t with
  | ([], _) => Some None
  | (ds, r) => let v := value neg (number base ds) in if fits v then Some (Some (v, r)) else None
  end.
Definition scan_d : conversion := scan 10 (fun neg m => if neg then - m else m) (fun v => (- 2 ^ 31 <=? v) && (v <? 2 ^ 31)).
Definition unsigned_value (neg : bool) (m : Z) : Z := if neg then u64 (- m) else m.
Definition scan_hu : conversion := scan 10 unsigned_value (fun v => v <? 2 ^ 16).
Definition scan_hX : conversion := scan 16 unsigned_value (fun v => v <? 2 ^ 16).

(** [sscanf] with [n] conversions and the character [sep] between them: what was stored. *)
Fixpoint sscanf (conv : conversion) (sep : Z) (n : nat) (s : cstr) : option (list Z) :=
  match n with
  | O => Some []
  | S n =>
    r ← conv s;
    match r with
    | None => Some []
    | Some (v, s) =>
      match s with
      | c :: s => if c =? sep then vs ← sscanf conv sep n s; Some (v :: vs) else Some [v]
      | [] => Some [v]
      end
    end
  end.

(** ** Printing *)

Fixpoint digits (fuel : nat) (base n : Z) : list Z :=
  match fuel with
  | O => []
  | S fuel => if n <? base then [n] else digits fuel base (n / base) ++ [n mod base]
  end.
Definition digit_char (d : Z) : Z := if d <? 10 then 48 + d else 55 + d.
Definition pad0 (w : nat) (s : cstr) : cstr := replicate (w - length s) 48 ++ s.

(** [%d], [%X] and [%.nX]; numbers have at most 64 bits. *)
Definition fmt_u (base n : Z) : cstr := digit_char <$> digits 64 base n.
Definition fmt_d (n : Z) : cstr := if n <? 0 then 45 :: fmt_u 10 (- n) else fmt_u 10 n.
Definition fmt_X (w : nat) (n : Z) : cstr := pad0 w (fmt_u 16 n).

(** ** Lemmas *)

Lemma digits_spec fuel base n : 2 <= base -> 0 <= n < base ^ Z.of_nat fuel ->
  (0 < fuel)%nat -> number base (digits fuel base n) = n /\ digits fuel base n <> [] /\ Forall (fun d => 0 <= d < base) (digits fuel base n).
Proof.
  intros Hb. revert n. induction fuel as [|fuel IH]; intros n Hn Hf; [lia|]. cbn [digits].
  destruct (Z.ltb_spec n base) as [|Hge]; [split_and!; [done|done|by constructor; [lia|]]|].
  assert (0 < fuel)%nat as Hf' by (destruct fuel; [change (Z.of_nat 1) with 1 in Hn; lia|lia]).
  rewrite Nat2Z.inj_succ, Z.pow_succ_r in Hn by lia.
  destruct (IH (n / base)) as (E & _ & Hd); [split; [apply Z.div_pos; lia|apply Z.div_lt_upper_bound; lia]|done|].
  split_and!; [|by destruct (digits _ _ _)|apply Forall_app; split; [done|constructor; [apply Z.mod_pos_bound; lia|done]]].
  unfold number in *. rewrite fold_left_app. cbn [fold_left]. rewrite E. pose proof (Z.div_mod n base). lia.
Qed.

Lemma length_digits_le fuel base n k : (0 < k)%nat -> 2 <= base -> 0 <= n < base ^ Z.of_nat k -> (length (digits fuel base n) <= k)%nat.
Proof.
  intros Hk Hb. revert n k Hk. induction fuel as [|fuel IH]; intros n k Hk Hn; cbn [digits]; [simpl; lia|].
  destruct (Z.ltb_spec n base); [simpl; lia|]. destruct k as [|k]; [lia|]. rewrite length_app. simpl length.
  destruct k as [|k]; [change (Z.of_nat 1) with 1 in Hn; lia|]. rewrite Nat2Z.inj_succ, Z.pow_succ_r in Hn by lia.
  enough (length (digits fuel base (n / base)) <= S k)%nat by lia. apply IH; [lia|]. split; [apply Z.div_pos; lia|apply Z.div_lt_upper_bound; lia].
Qed.

Lemma digit_of_char d : 0 <= d < 16 -> digit_of (digit_char d) = Some d.
Proof.
  intros Hd. unfold digit_char, digit_of. destruct (Z.ltb_spec d 10);
    repeat match goal with |- context [Z.leb ?a ?b] => destruct (Z.leb_spec a b); try lia end; cbn [andb]; f_equal; lia.
Qed.

(** A string that goes on with something else than a digit. *)
Definition stops (base : Z) (s : cstr) : Prop := match s with c :: _ => is_digit base c = false | [] => True end.

Lemma take_digits_spec base ds r : 2 <= base <= 16 -> Forall (fun d => 0 <= d < base) ds -> stops base r ->
  take_digits base ((digit_char <$> ds) ++ r) = (ds, r).
Proof.
  intros Hb Hd Hr. induction Hd as [|d ds Hd _ IH]; cbn [fmap list_fmap app].
  - destruct r as [|c r]; [done|]. cbn [stops] in Hr. cbn [take_digits]. by rewrite Hr.
  - cbn [take_digits]. unfold is_digit at 1. rewrite digit_of_char by lia. destruct (Z.ltb_spec d base); [|lia]. by rewrite IH.
Qed.

Lemma digit_char_range d : 0 <= d < 16 -> 48 <= digit_char d <= 57 \/ 65 <= digit_char d <= 70.
Proof. intros Hd. unfold digit_char. destruct (Z.ltb_spec d 10); lia. Qed.

Lemma fmt_u_spec base n r : 2 <= base <= 16 -> 0 <= n < 2 ^ 64 -> stops base r ->
  exists ds, take_digits base (fmt_u base n ++ r) = (ds, r) /\ ds <> [] /\ number base ds = n.
Proof.
  intros Hb Hn Hr. destruct (digits_spec 64 base n) as (E & Hne & Hd); [lia| |lia|].
  { split; [lia|]. apply Z.lt_le_trans with (2 ^ 64); [lia|]. apply Z.pow_le_mono_l. lia. }
  exists (digits 64 base n). split; [|done]. by apply take_digits_spec.
Qed.

(** A printed number starts with a digit: no space, no sign. *)
Lemma fmt_u_head base n : 2 <= base <= 16 -> 0 <= n < 2 ^ 64 ->
  exists c s, fmt_u base n = c :: s /\ (48 <= c <= 57 \/ 65 <= c <= 70).
Proof.
  intros Hb Hn. destruct (digits_spec 64 base n) as (_ & Hne & Hd); [lia| |lia|].
  { split; [lia|]. apply Z.lt_le_trans with (2 ^ 64); [lia|]. apply Z.pow_le_mono_l. lia. }
  unfold fmt_u. destruct (digits 64 base n) as [|d ds]; [done|]. exists (digit_char d), (digit_char <$> ds). split; [done|].
  apply digit_char_range. inversion_clear Hd. lia.
Qed.

Lemma sign_plain c s : 48 <= c -> sign (skip_space (c :: s)) = (false, c :: s).
Proof.
  intros Hc. cbn [skip_space]. unfold isspace. replace (c =? 32) with false by lia. replace (c <=? 13) with false by lia. rewrite andb_false_r. cbn [orb sign].
  replace (c =? 45) with false by lia. by replace (c =? 43) with false by lia.
Qed.

(** Reading a printed decimal number. *)
Lemma scan_fmt value fits n r : 0 <= n < 2 ^ 64 -> stops 10 r -> value false n = n -> fits n = true ->
  scan 10 value fits (fmt_u 10 n ++ r) = Some (Some (n, r)).
Proof.
  intros Hn Hr Hv Hf. unfold scan. destruct (fmt_u_head 10 n) as (c & s & E & Hc); [lia|done|]. rewrite E. cbn [app]. rewrite sign_plain by lia.
  cbn [Z.eqb Pos.eqb andb]. destruct (fmt_u_spec 10 n r) as (ds & Et & Hne & Ev); [lia|done..|]. rewrite E in Et. cbn [app] in Et. rewrite Et.
  destruct ds as [|d ds]; [done|]. by rewrite Ev, Hv, Hf.
Qed.

Lemma strtoul_fmt n r : 0 <= n < 2 ^ 64 -> stops 10 r -> strtoul (fmt_u 10 n ++ r) 10 = (n, r).
Proof.
  intros Hn Hr. unfold strtoul. destruct (fmt_u_head 10 n) as (c & s & E & Hc); [lia|done|]. rewrite E. cbn [app]. rewrite sign_plain by lia.
  cbn [Z.eqb Pos.eqb andb]. destruct (fmt_u_spec 10 n r) as (ds & Et & Hne & Ev); [lia|done..|]. rewrite E in Et. cbn [app] in Et. rewrite Et.
  destruct ds as [|d ds]; [done|]. rewrite Ev. by replace (2 ^ 64 <=? n) with false by lia.
Qed.

(** The same behind a minus. *)
Lemma strtoul_neg n r : 0 <= n < 2 ^ 64 -> stops 10 r -> strtoul (45 :: fmt_u 10 n ++ r) 10 = (u64 (- n), r).
Proof.
  intros Hn Hr. unfold strtoul. cbn [skip_space isspace sign Z.eqb Pos.eqb orb andb Z.leb Z.compare Pos.compare Pos.compare_cont].
  destruct (fmt_u_spec 10 n r) as (ds & Et & Hne & Ev); [lia|done..|]. rewrite Et. destruct ds as [|d ds]; [done|]. rewrite Ev. by replace (2 ^ 64 <=? n) with false by lia.
Qed.

Lemma number_zeros base k ds : number base (replicate k 0 ++ ds) = number base ds.
Proof. unfold number. induction k as [|k IH]; [done|]. cbn [replicate app fold_left]. by rewrite Z.mul_0_l, Z.add_0_l. Qed.

(** Digits behind zeros. *)
Lemma take_pad w n r : 0 <= n < 2 ^ 64 -> stops 16 r ->
  exists ds, take_digits 16 (fmt_X w n ++ r) = (ds, r) /\ ds <> [] /\ number 16 ds = n.
Proof.
  intros Hn Hr. destruct (digits_spec 64 16 n) as (E & Hne & Hd); [lia| |lia|].
  { split; [lia|]. apply Z.lt_le_trans with (2 ^ 64); [lia|]. by apply Z.pow_le_mono_l. }
  exists (replicate (w - length (fmt_u 16 n)) 0 ++ digits 64 16 n). split; [|split; [by destruct (replicate _ _)|by rewrite number_zeros]].
  unfold fmt_X, pad0. replace (replicate (w - length (fmt_u 16 n)) 48) with (digit_char <$> replicate (w - length (fmt_u 16 n)) 0) by (by rewrite fmap_replicate).
  unfold fmt_u. rewrite <- fmap_app. apply take_digits_spec; [lia| |done]. apply Forall_app. split; [|done]. apply Forall_replicate. lia.
Qed.

(** * The tool *)

(** ** Words *)

(** The value of the first word that is the string in either case. *)
Fixpoint word (l : list (string * Z)) (str : cstr) : option Z :=
  match l with
  | [] => None
  | (w, v) :: l => if strcasecmp0 str (chars w) then Some v else word l str
  end.
Definition word_set (l : list (string * Z)) (str : cstr) (value : Z) : Z * Z :=
  match word l str with Some v => (0, v) | None => (1, value) end.

Definition parse_loopback : cstr -> Z -> Z * Z :=
  word_set [("line-phy"%string, 1); ("line-core"%string, 2); ("host-phy"%string, 3); ("host-core"%string, 4); ("normal"%string, 0)].
Definition parse_log (str : cstr) (value : Z) : Z * Z :=
  match word [("config"%string, 0x1); ("event"%string, 0x2); ("debug"%string, 0x4); ("error"%string, 0x8); ("warning"%string, 0x10); ("alarm"%string, 0x20); ("all"%string, 0x3f)] str with
  | Some v => (0, Z.lor value v) | None => (1, value)
  end.
Definition parse_protocal : cstr -> Z -> Z * Z := word_set [("TCP"%string, 6); ("UDP"%string, 17); ("ANY"%string, 0); ("$"%string, 0)].
Definition parse_bool : cstr -> Z -> Z * Z :=
  word_set [("enable"%string, 1); ("disable"%string, 0); ("linkup"%string, 1); ("linkdown"%string, 0); ("NICMODE"%string, 1); ("FRMODE"%string, 0)].

(** [FRC_ACL_UNKNOWN] and [FRC_VLAN_CHECK_UNKNOWN] are stored when nothing fits. *)
Definition parse_acl_type (str : cstr) (acl_type : Z) : Z * Z :=
  match word [("SIP"%string, 1); ("DIP"%string, 2); ("SP"%string, 3); ("DP"%string, 4)] str with Some v => (FRE_SUCCESS, v) | None => (FRE_FAIL, 0) end.
Definition parse_vlan_check_type (str : cstr) (type : Z) : Z * Z :=
  match word [("SIP"%string, 1); ("DIP"%string, 2); ("SDIP"%string, 3)] str with Some v => (FRE_SUCCESS, v) | None => (FRE_FAIL, 0) end.

(** ** Numbers *)

(** The end of the number is not looked at. *)
Definition parse_u32 (str : cstr) (value : Z) : Z * Z :=
  (0, u32 (if strncasecmp0 2 (chars "0x") str then (strtoul str 16).1 else (strtoul str 10).1)).

Definition parse_u64 (str : cstr) (value : Z) : Z * Z :=
  let '(v, e) := if strncasecmp0 2 (chars "0x") str then strtoul str 16 else strtoul str 10 in
  (if strcmp0 e str || negb (strcmp0 e []) then 1 else 0, v).

Definition parse_u16 (str : cstr) (value : Z) : Z * Z :=
  let '(rv, v32) := parse_u32 str 0 in
  if negb (rv =? 0) then (1, value) else if 0xffff <? v32 then (1, value) else (0, Z.land v32 0xffff).
Definition parse_u8 (str : cstr) (value : Z) : Z * Z :=
  let '(rv, v32) := parse_u32 str 0 in
  if negb (rv =? 0) then (1, value) else if 0xff <? v32 then (1, value) else (0, Z.land v32 0xff).

(** A value with an increment behind a plus: the code, the value and the increment.  [sz] is
    the size of the buffer for the value. *)
Definition plus : Z := 43.
Definition parse_inc (parse : cstr -> Z -> option (Z * Z)) (parse_i : cstr -> Z -> Z * Z) (sz : nat) (str : cstr) (value inc : Z) : option (Z * Z * Z) :=
  let fin inc rest := s ← buf_copy sz rest; '(rv, value) ← parse s value; Some (if negb (rv =? 0) then 1 else 0, value, inc) in
  match strchr str plus with
  | Some (before, behind) => let '(rv, inc) := parse_i behind inc in if negb (rv =? 0) then Some (1, value, inc) else fin inc before
  | None => fin 1 str
  end.

Definition parse_u32_inc (str : cstr) (value inc : Z) : option (Z * Z * Z) :=
  if strcmp0 (chars "$") str then Some (0, 0, 1) else parse_inc (fun s v => Some (parse_u32 s v)) parse_u32 10 str value inc.
Definition parse_u16_inc (str : cstr) (value inc : Z) : option (Z * Z * Z) :=
  if strcmp0 (chars "$") str then Some (0, 0, 1) else parse_inc (fun s v => Some (parse_u16 s v)) parse_u16 10 str value inc.

(** The numbers are stored in unsigned words. *)
Definition parse_ipv4 (str : cstr) (ip : Z) : option (Z * Z) :=
  buf ← buf_copy 32 str; vs ← sscanf scan_d 46 4 buf;
  match u32 <$> vs with
  | [v0; v1; v2; v3] =>
    if existsb (fun v => 255 <? v) [v0; v1; v2; v3] then Some (1, ip)
    else Some (0, Z.lor (Z.lor (Z.lor v3 (u32 (Z.shiftl v2 8))) (u32 (Z.shiftl v1 16))) (u32 (Z.shiftl v0 24)))
  | _ => Some (1, ip)
  end.
Definition parse_ipv4_inc (str : cstr) (ip inc : Z) : option (Z * Z * Z) :=
  parse_inc parse_ipv4 parse_u32 20 (if strcmp0 (chars "$") str then chars "0.0.0.0" else str) ip inc.

(** Six bytes, the lowest first. *)
Definition parse_mac64 (str : cstr) (val : Z) : option (Z * Z) :=
  vs ← sscanf scan_hX 58 6 str;
  match vs with
  | [a; b; c; d; e; f] =>
    let val1 := Z.lor (Z.lor (Z.land a 0xff) (Z.shiftl (Z.land b 0xff) 8)) (Z.shiftl (Z.land c 0xff) 16) in
    let val2 := Z.lor (Z.lor (Z.land d 0xff) (Z.shiftl (Z.land e 0xff) 8)) (Z.shiftl (Z.land f 0xff) 16) in
    Some (0, Z.land (Z.lor (u64 (Z.shiftl val2 24)) val1) 0xffffffffffff)
  | _ => Some (1, val)
  end.

(** ** Printing *)

Definition fr_u8_string (val : Z) : cstr := fmt_d val.
Definition fr_u16_string (val : Z) : cstr := fmt_d val.
(** [%d] of an unsigned word. *)
Definition fr_u32_string (val : Z) : cstr := fmt_d (s32 val).
Definition fr_proto_string (proto : Z) : cstr :=
  if proto =? 0 then chars "$" else if proto =? 6 then chars "TCP" else if proto =? 17 then chars "UDP" else chars "?".
Definition fr_port_string (port : Z) : cstr := if port =? 0 then chars "$" else fmt_d port.
Definition fr_ipv4_string (ip : Z) : cstr :=
  if ip =? 0 then chars "$"
  else fmt_d (Z.land (Z.shiftr ip 24) 0xff) ++ 46 :: fmt_d (Z.land (Z.shiftr ip 16) 0xff) ++ 46 :: fmt_d (Z.land (Z.shiftr ip 8) 0xff) ++ 46 :: fmt_d (Z.land ip 0xff).
Definition u8_string (val : Z) : cstr := chars "0x" ++ fmt_X 2 val.
Definition u16_string (val : Z) : cstr := chars "0x" ++ fmt_X 4 val.
Definition u32_string (val : Z) : cstr := chars "0x" ++ fmt_X 8 val.
Definition u64_string (val : Z) : cstr := chars "0x" ++ fmt_X 1 val.

(** [%.2X] of a [char]: a byte from 128 on is printed as eight digits. *)
Definition char_X (c : Z) : cstr := fmt_X 2 (if c <? 128 then c else c + (2 ^ 32 - 256)).
Definition byte_of (val i : Z) : Z := Z.land (Z.shiftr val (8 * i)) 0xff.
Definition mac_string (val : Z) : cstr :=
  char_X (byte_of val 0) ++ 58 :: char_X (byte_of val 1) ++ 58 :: char_X (byte_of val 2) ++ 58 ::
  char_X (byte_of val 3) ++ 58 :: char_X (byte_of val 4) ++ 58 :: char_X (byte_of val 5).

(** ** Arguments: frctweak_arg_parser.c *)

Definition ARG_PARSER_KEY_MAX : Z := 32.
Definition reader : Type := cstr -> Z -> option (Z * Z).
(** The variable is named by a number. *)
Record arg_parser_entry_t : Type := ArgEntry { e_key : cstr; e_func : reader; e_var : Z }.
Definition arg_parser_t : Type := list arg_parser_entry_t.

Definition frctweak_arg_parser_init : arg_parser_t := [].
Definition frctweak_arg_parser_add (malloc : bool) (parser : arg_parser_t) (key : cstr) (func : reader) (var : Z) : Z * arg_parser_t :=
  if ARG_PARSER_KEY_MAX <? Z.of_nat (List.length key) then (FRE_PARAM, parser)
  else if negb malloc then (FRE_MEMORY, parser)
  else (FRE_SUCCESS, parser ++ [ArgEntry key func var]).

(** The first entry is looked at before the end is tested. *)
Fixpoint find_entry (l : list arg_parser_entry_t) (key : cstr) : option arg_parser_entry_t :=
  match l with [] => None | e :: l => if strcasecmp0 key (e_key e) then Some e else find_entry l key end.
Definition frctweak_arg_parser_entry_lookup (parser : arg_parser_t) (key : cstr) : option (option arg_parser_entry_t) :=
  match parser with [] => None | _ => Some (find_entry parser key) end.

(** The bytes of [key] are not ended by a zero when there are 32 of them. *)
Definition equals_sign : Z := 61.
Fixpoint frctweak_arg_parsing (parser : arg_parser_t) (argv : list cstr) (vars : Z -> Z) : option (Z * (Z -> Z)) :=
  match argv with
  | [] => Some (FRE_SUCCESS, vars)
  | a :: argv =>
    match strchr a equals_sign with
    | None => frctweak_arg_parsing parser argv vars
    | Some (k, vp) =>
      if (Z.of_nat (List.length vp) <=? 0) then Some (FRE_FAIL, vars)
      else if ARG_PARSER_KEY_MAX <? Z.of_nat (List.length k) then Some (FRE_NOTFOUND, vars)
      else
        key ← buf_copy (Z.to_nat ARG_PARSER_KEY_MAX) k;
        entry ← frctweak_arg_parser_entry_lookup parser key;
        match entry with
        | None => Some (FRE_NOTFOUND, vars)
        | Some entry =>
          '(rv, v) ← e_func entry vp (vars (e_var entry));
          let vars := <[e_var entry := v]> vars in
          if negb (FRE_SUCCESS =? rv) then Some (rv, vars) else frctweak_arg_parsing parser argv vars
        end
    end
  end.

(** ** Commands *)

Section commands.
Context {W : Type}.   (* what the functions work on *)

Definition frctweak_fn_t : Type := list cstr -> W -> option (Z * W).

#[warnings="-register-all"]
Inductive frctweak_cmd_t : Type := FrctweakCmd (name : cstr) (fn : option frctweak_fn_t) (head : list frctweak_cmd_t).
Definition cmd_name (c : frctweak_cmd_t) : cstr := let 'FrctweakCmd name _ _ := c in name.
Definition cmd_fn (c : frctweak_cmd_t) : option frctweak_fn_t := let 'FrctweakCmd _ fn _ := c in fn.
Definition cmd_head (c : frctweak_cmd_t) : list frctweak_cmd_t := let 'FrctweakCmd _ _ head := c in head.

(** The parent with the new command behind its others; [strcpy] into 128 bytes each. *)
Definition frctweak_cmd_register (parent : frctweak_cmd_t) (name summary : cstr) (fn : option frctweak_fn_t) : option frctweak_cmd_t :=
  name ← buf_copy 128 name; _ ← buf_copy 128 summary;
  let 'FrctweakCmd n f head := parent in Some (FrctweakCmd n f (head ++ [FrctweakCmd name fn []])).
Definition root_cmd (name summary : cstr) (fn : option frctweak_fn_t) : option frctweak_cmd_t :=
  name ← buf_copy 128 name; _ ← buf_copy 128 summary; Some (FrctweakCmd name fn []).

Definition FRCTWEAK_PSTR_SZ : nat := 256.
(** The names of a command and its parents go in front of [pstr], each in turn. *)
Fixpoint frctweak_program_string (path : list cstr) (pstr : cstr) : option cstr :=
  match path with
  | [] => Some (take (FRCTWEAK_PSTR_SZ - 1) pstr)
  | name :: path => pstr ← buf_copy FRCTWEAK_PSTR_SZ (name ++ 32 :: pstr); frctweak_program_string path pstr
  end.

Definition is_help (a : cstr) : bool :=
  strcmp0 a (chars "?") || strcasecmp0 a (chars "-h") || strcasecmp0 a (chars "help") || strcasecmp0 a (chars "--help").

(** The path printed, and the code. *)
Definition frctweak_cmd_usage (program : cstr) (path : list cstr) (argv : list cstr) : option (Z * cstr) :=
  program ← frctweak_program_string path program;
  Some (match argv with _ :: a :: _ => if is_help a then 0 else 1 | _ => 0 end, program).

Variable program : cstr.

Fixpoint find_cmd (l : list frctweak_cmd_t) (name : cstr) : option frctweak_cmd_t :=
  match l with [] => None | c :: l => if strcmp0 (cmd_name c) name then Some c else find_cmd l name end.

(** [path]: the names of the parents, the nearest first. *)
Fixpoint frctweak_cmd_exec (path : list cstr) (cmd : frctweak_cmd_t) (argv : list cstr) (w : W) : option (Z * W) :=
  match argv with
  | [] => None
  | a :: rest =>
    let usage w := '(rv, _) ← frctweak_cmd_usage program (cmd_name cmd :: path) argv; Some (rv, w) in
    if is_help a then usage w else
    match (match rest with b :: _ => find_cmd (cmd_head cmd) b | [] => None end) with
    | Some child => frctweak_cmd_exec (cmd_name cmd :: path) child rest w
    | None =>
      '(rv, w) ← match cmd_fn cmd with Some fn => fn argv w | None => Some (FRE_PARAM, w) end;
      if rv =? FRE_PARAM then usage w else Some (0, w)
    end
  end.
End commands.

(** [main]: [inits] are the [frctweak_*_cmd_init] of the build.  Ten bytes are taken from
    [argv[0]] with its zero. *)
Definition main_program (a0 : cstr) : option cstr := if (10 <=? List.length a0 + 1)%nat then Some (take 10 a0) else None.
Definition frctweak_main {W : Type} (inits : list (frctweak_cmd_t (W := W) -> option (frctweak_cmd_t (W := W)))) (main_cmd : frctweak_fn_t (W := W))
  (argv : list cstr) (w : W) : option (Z * W) :=
  a0 ← head argv; program ← main_program a0;
  root ← root_cmd a0 (chars "Tweak tool of frc") (Some main_cmd);
  root ← foldM (fun root init => init root) inits root;
  '(ret, w) ← frctweak_cmd_exec program [] root argv w; Some (if negb (ret =? FRE_SUCCESS) then 1 else 0, w).
#[global] Arguments frctweak_fn_t : clear implicits.
#[global] Arguments frctweak_cmd_t : clear implicits.
