(* ===== verification/Board.v ===== *)
(** * The board: src/code/frcore/frcore_bmm.c, frcore_phy.c and frcore_stat.c

    The commands about the card itself: its counters, the registers of PHYs and CPLD, the
    modes of its two ports and its status, with the reading of their answers by the tool
    (src/code/include/frc_pack.h, frctweak_bmm.c and frctweak_stat.c).  The buses (MDIO of
    both clauses, TWSI) belong to the SDK: they are the class [Bus] over a state of the
    hardware.  Structures lie in the memory of the big-endian card.  This is the configured
    build, without [FRC_CONFIG_RULE] and [FRC_CONFIG_SSN]. *)

From stdpp Require Import list functions.
From S2P Require Import Prelude Bytes Cmd CmdRule.
From Stdlib Require String.
From S2P Require Tool.
Import (notations) String.
#[local] Open Scope Z_scope.

(** ** Data *)

(** The buses; a read over TWSI leaves its variable alone when it fails. *)
Class Bus (H : Type) : Type := {
  cvmx_mdio_read : Z -> Z -> Z -> H -> Z * H;                (* bus, phy, register *)
  cvmx_mdio_write : Z -> Z -> Z -> Z -> H -> Z * H;
  cvmx_mdio_45_read : Z -> Z -> Z -> Z -> H -> Z * H;        (* bus, phy, device, register *)
  cvmx_mdio_45_write : Z -> Z -> Z -> Z -> Z -> H -> Z * H;
  cvmx_twsix_read_ia : Z -> Z -> Z -> Z -> Z -> H -> Z * option Z * H }.

(** The board as one core sees it: the hardware, the counters by their number, the modes, and
    [octnic->port[p].rx_on]. *)
Record bdd (H : Type) : Type := Bdd {
  hw : H; counters : Z -> Z; loopback_oct0 : Z; loopback_oct1 : Z; work_mode_oct0 : Z; work_mode_oct1 : Z;
  dma_block_size : Z; rx_on : Z -> Z }.
#[global] Arguments Bdd {H}.
#[global] Arguments hw {H}.
#[global] Arguments counters {H}.
#[global] Arguments loopback_oct0 {H}.
#[global] Arguments loopback_oct1 {H}.
#[global] Arguments work_mode_oct0 {H}.
#[global] Arguments work_mode_oct1 {H}.
#[global] Arguments dma_block_size {H}.
#[global] Arguments rx_on {H}.

(** [frc_stat_e] of the configured build. *)
Definition stat_max : Z := 214.

(** [frc_oct_t] and [frc_bdd_status_out_t]. *)
Record frc_oct_t : Type := Oct {
  o_link : Z; o_enable : Z; o_work_mode : Z; o_loopback_mode : Z; optical_status : Z; optical : Z;
  rx_pkts_rate : Z; rx_bytes_rate : Z; tx_pkts_rate : Z; tx_bytes_rate : Z }.
Record frc_bdd_status_out_t : Type := BddStatus {
  t_local : Z; t_remote : Z; s_dma_block_size : Z; running_status : Z; rule_max : Z; ssn_max : Z; oct0 : frc_oct_t; oct1 : frc_oct_t }.

Definition oct_bytes (o : frc_oct_t) : list Z :=
  be_bytes 1 (o_link o) ++ be_bytes 1 (o_enable o) ++ be_bytes 1 (o_work_mode o) ++ be_bytes 1 (o_loopback_mode o) ++
  be_bytes 2 (optical_status o) ++ be_bytes 2 (optical o) ++
  be_bytes 4 (rx_pkts_rate o) ++ be_bytes 4 (rx_bytes_rate o) ++ be_bytes 4 (tx_pkts_rate o) ++ be_bytes 4 (tx_bytes_rate o).

(** With the four bytes of its alignment, which [memset] cleared. *)
Definition status_bytes (s : frc_bdd_status_out_t) : list Z :=
  be_bytes 8 (t_local s) ++ be_bytes 8 (t_remote s) ++ be_bytes 2 (s_dma_block_size s) ++ be_bytes 2 (running_status s) ++
  be_bytes 4 (rule_max s) ++ be_bytes 4 (ssn_max s) ++ oct_bytes (oct0 s) ++ oct_bytes (oct1 s) ++ replicate 4 0.

(** [frc_version_t] and [frc_bdd_info_out_t]. *)
Record frc_version_t : Type := Version { major : Z; minor : Z; build : Z }.
Record frc_bdd_info_out_t : Type := BddInfo {
  frcore_version : frc_version_t; frcdrv_version : frc_version_t; frctweak_version : frc_version_t; octdrv_version : frc_version_t;
  octnic_version : frc_version_t; cpld_version : Z; port_number : Z }.
Definition version_bytes (v : frc_version_t) : list Z := be_bytes 1 (major v) ++ be_bytes 1 (minor v) ++ be_bytes 2 (build v).
Definition info_out_bytes (i : frc_bdd_info_out_t) : list Z :=
  version_bytes (frcore_version i) ++ version_bytes (frcdrv_version i) ++ version_bytes (frctweak_version i) ++
  version_bytes (octdrv_version i) ++ version_bytes (octnic_version i) ++ be_bytes 4 (cpld_version i) ++ be_bytes 4 (port_number i).

Section board.
Context {H : Type} `{!Bus H}.
Variable frcore_version_get : frc_version_t.   (* of a file the build writes *)
Implicit Types (st : bdd H).
#[local] Abbreviation bdd_fn := (frcore_cmd_fn_t (bdd H)).

Definition set_hw (h : H) st : bdd H :=
  Bdd h (counters st) (loopback_oct0 st) (loopback_oct1 st) (work_mode_oct0 st) (work_mode_oct1 st) (dma_block_size st) (rx_on st).
Definition set_counters (c : Z -> Z) st : bdd H :=
  Bdd (hw st) c (loopback_oct0 st) (loopback_oct1 st) (work_mode_oct0 st) (work_mode_oct1 st) (dma_block_size st) (rx_on st).
Definition set_loopback (l0 l1 : Z) st : bdd H :=
  Bdd (hw st) (counters st) l0 l1 (work_mode_oct0 st) (work_mode_oct1 st) (dma_block_size st) (rx_on st).
Definition set_work_mode (m0 m1 : Z) st : bdd H :=
  Bdd (hw st) (counters st) (loopback_oct0 st) (loopback_oct1 st) m0 m1 (dma_block_size st) (rx_on st).
Definition set_dma_block (b : Z) st : bdd H :=
  Bdd (hw st) (counters st) (loopback_oct0 st) (loopback_oct1 st) (work_mode_oct0 st) (work_mode_oct1 st) b (rx_on st).
Definition set_rx_on (p v : Z) st : bdd H :=
  Bdd (hw st) (counters st) (loopback_oct0 st) (loopback_oct1 st) (work_mode_oct0 st) (work_mode_oct1 st) (dma_block_size st) (<[p := v]> (rx_on st)).

(** ** Counters: frcore_stat.c *)

Definition FRCORE_STAT_VAL (idx : Z) st : Z := u64 (counters st idx).
Definition frcore_stat_add64 (k value : Z) st : bdd H := set_counters (<[k := wraps 64 (counters st k + value)]> (counters st)) st.
Definition frcore_stat_set64 (k value : Z) st : bdd H := set_counters (<[k := wraps 64 value]> (counters st)) st.
Definition frcore_stat_fetch_and_add64 (k value : Z) st : Z * bdd H := (counters st k, frcore_stat_add64 k value st).

Definition frcore_stat_clear st : bdd H :=
  fold_left (fun st i => frcore_stat_set64 i 0 st) (seqZ 0 stat_max) st.

(** [frc_stat_op_in_t]: [num] at 0 and [index] at 4; the sum is one of unsigned words. *)
Definition frcore_cmd_get_stat : bdd_fn := fun plen param outbuf st =>
  p ← param; num ← card_get p 0 4; index ← card_get p 4 4;
  out ← foldM (fun out i => write_bytes out (Z.to_nat (8 * i)) (be_bytes 8 (FRCORE_STAT_VAL (u32 (index + i)) st))) (seqZ 0 num) outbuf;
  Some (FRE_SUCCESS, u16 (u32 num * 8), out, st).
Definition frcore_cmd_clear_stat : bdd_fn := fun plen param outbuf st => Some (FRE_SUCCESS, 0, outbuf, frcore_stat_clear st).
Definition stat_handlers : list (Z * bdd_fn) := [(USER_CMD_GET_STAT, frcore_cmd_get_stat); (USER_CMD_CLEAR_STAT, frcore_cmd_clear_stat)].
Definition frcore_stat_init (c : @card (bdd H)) : option (Z * @card (bdd H)) :=
  register_all stat_handlers (Card (frcore_cmdset c) (respond_buf c) (frcore_stat_clear (components c))).

(** ** Registers: frcore_phy.c *)

(** The result, the value if there is one, and the hardware. *)
Definition frcore_cpld_read (addr : Z) (h : H) : Z * option Z * H :=
  let '(v32, h) := cvmx_mdio_read 1 11 addr h in
  if v32 <? 0 then (FRE_FAIL, None, h) else (FRE_SUCCESS, Some (u32 v32), h).
Definition frcore_cpld_write (addr value : Z) (h : H) : Z * H :=
  let '(rv, h) := cvmx_mdio_write 1 11 addr value h in
  if negb (rv =? 0) then (FRE_FAIL, h) else (FRE_SUCCESS, h).

Definition phyid_of (port : Z) : option Z := if port =? 0 then Some 0 else if port =? 16 then Some 1 else None.
Definition frcore_phy_read (port devad addr : Z) (h : H) : Z * option Z * H :=
  match phyid_of port with
  | None => (FRE_PARAM, None, h)
  | Some phyid =>
    let '(i32, h) := cvmx_mdio_45_read 0 phyid devad addr h in
    if i32 <? 0 then (FRE_FAIL, None, h) else (FRE_SUCCESS, Some (Z.land i32 0xffff), h)
  end.
Definition frcore_phy_write (port devad addr value : Z) (h : H) : Z * H :=
  match phyid_of port with
  | None => (FRE_PARAM, h)
  | Some phyid =>
    let '(rv, h) := cvmx_mdio_45_write 0 phyid devad addr value h in
    if negb (rv =? 0) then (FRE_FAIL, h) else (FRE_SUCCESS, h)
  end.

(** [frc_cpld_op_t]: [data] at 0, [addr] at 4.  [*olen] is set before the read can fail. *)
Definition frcore_cmd_get_cpld : bdd_fn := fun plen param outbuf st =>
  p ← param; addr ← card_get p 4 4;
  let '(rv, v, h) := frcore_cpld_read addr (hw st) in
  match v with
  | None => Some (FRE_FAIL, 8, outbuf, set_hw h st)
  | Some v => a ← read_bytes p 4 4; out ← write_bytes outbuf 0 (be_bytes 4 v ++ a); Some (FRE_SUCCESS, 8, out, set_hw h st)
  end.
Definition frcore_cmd_set_cpld : bdd_fn := fun plen param outbuf st =>
  p ← param; data ← card_get p 0 4; addr ← card_get p 4 4;
  let '(rv, h) := frcore_cpld_write addr data (hw st) in
  Some (if negb (rv =? 0) then FRE_FAIL else FRE_SUCCESS, 0, outbuf, set_hw h st).

(** [frc_phy_op_t]: [value] at 0, [addr] at 2, [devad] at 4, [port] at 6. *)
Definition frcore_cmd_get_phy : bdd_fn := fun plen param outbuf st =>
  p ← param; addr ← card_get p 2 2; devad ← card_get p 4 2; port ← card_get p 6 2;
  let '(rv, v, h) := frcore_phy_read port devad addr (hw st) in
  match v with
  | None => Some (FRE_FAIL, 8, outbuf, set_hw h st)
  | Some v => a ← read_bytes p 2 6; out ← write_bytes outbuf 0 (be_bytes 2 v ++ a); Some (FRE_SUCCESS, 8, out, set_hw h st)
  end.
Definition frcore_cmd_set_phy : bdd_fn := fun plen param outbuf st =>
  p ← param; value ← card_get p 0 2; addr ← card_get p 2 2; devad ← card_get p 4 2; port ← card_get p 6 2;
  let '(rv, h) := frcore_phy_write port devad addr value (hw st) in
  Some (if negb (rv =? 0) then FRE_FAIL else FRE_SUCCESS, 0, outbuf, set_hw h st).

(** The four steps; the first that fails ends it. *)
Definition frcore_cmd_port_enable : bdd_fn := fun plen param outbuf st =>
  let '(rv, _, h) := frcore_phy_read 0 1 0 (hw st) in
  if negb (rv =? 0) then Some (FRE_FAIL, 0, outbuf, set_hw h st) else
  let '(rv, _, h) := frcore_phy_read 16 1 0 h in
  if negb (rv =? 0) then Some (FRE_FAIL, 0, outbuf, set_hw h st) else
  let '(rv, h) := frcore_phy_write 0 1 0 0x2040 h in
  if negb (rv =? 0) then Some (FRE_FAIL, 0, outbuf, set_hw h st) else
  let '(rv, h) := frcore_phy_write 16 1 0 0x2040 h in
  Some (if negb (rv =? 0) then FRE_FAIL else FRE_SUCCESS, 0, outbuf, set_hw h st).

(** The writes at the end of [frcore_phy_init], and its handlers of user commands. *)
Definition phy_tuning (h : H) : H :=
  fold_left (fun h '(port, addr, v) => (frcore_phy_write port 1 addr v h).2)
    [(0, 0xCA02, 0xCC10); (0, 0xCA00, 0x7008); (16, 0xCA02, 0xCC10); (16, 0xCA00, 0x7008)] h.
Definition phy_handlers : list (Z * bdd_fn) :=
  [(USER_CMD_GET_PHY, frcore_cmd_get_phy); (USER_CMD_SET_PHY, frcore_cmd_set_phy);
   (USER_CMD_GET_CPLD, frcore_cmd_get_cpld); (USER_CMD_SET_CPLD, frcore_cmd_set_cpld)].

(** ** The board: frcore_bmm.c *)

(** 16-bit values of registers; [0xffe] is what the code says. *)
Definition loopback_process (port mode : Z) (h : H) : Z * H :=
  let phyid := default 0 (phyid_of port) in
  if mode =? 1 then
    let '(v, h) := cvmx_mdio_45_read 0 phyid 1 0xc80a h in
    cvmx_mdio_45_write 0 phyid 1 0xc80a (Z.lor (u16 v) 1) h
  else if mode =? 2 then (FRE_SUCCESS, h)
  else if mode =? 3 then
    let '(v, h) := cvmx_mdio_45_read 0 phyid 1 0 h in
    cvmx_mdio_45_write 0 phyid 1 0 (Z.lor (u16 v) 1) h
  else if mode =? 4 then (FRE_SUCCESS, h)
  else if mode =? 0 then
    let '(v, h) := cvmx_mdio_45_read 0 phyid 1 0xc80a h in
    let '(_, h) := cvmx_mdio_45_write 0 phyid 1 0xc80a (Z.land (u16 v) 0xfffe) h in
    let '(v, h) := cvmx_mdio_45_read 0 phyid 1 0 h in
    cvmx_mdio_45_write 0 phyid 1 0 (Z.land (u16 v) 0xffe) h
  else (FRE_FAIL, h).

(** The temperatures have no value when their read fails. *)
Definition frcore_cmd_bdd_status_get : bdd_fn := fun plen param outbuf st =>
  let '(_, local, h) := cvmx_twsix_read_ia 1 0x4d 0 1 1 (hw st) in
  let '(_, remote, h) := cvmx_twsix_read_ia 1 0x4d 1 1 1 h in
  local ← local; remote ← remote;
  let '(value, h) := cvmx_mdio_read 1 11 4 h in
  let bit m := if Z.land value m =? 0 then 0 else 1 in
  let s := BddStatus local remote (dma_block_size st) 1 0 0
    (Oct (bit 4) 1 (work_mode_oct0 st) (loopback_oct0 st) (bit 1) 20 10 1000 5 500)
    (Oct (bit 8) 1 (work_mode_oct1 st) (loopback_oct1 st) (bit 2) 10 50 5000 10 2000) in
  out ← write_bytes outbuf 0 (status_bytes s);
  Some (FRE_SUCCESS, 80, out, set_hw h st).

Definition frcore_cmd_bdd_info_get : bdd_fn := fun plen param outbuf st =>
  let i := BddInfo frcore_version_get (Version 0 0 0) (Version 0 0 0) (Version 1 5 100) (Version 1 7 101) 0x18 2 in
  out ← write_bytes outbuf 0 (info_out_bytes i); Some (FRE_SUCCESS, 28, out, st).

(** The mode is stored before the registers are set. *)
Definition frcore_cmd_set_loopback_mode : bdd_fn := fun plen param outbuf st =>
  p ← param; port ← arr_get p 0; mode ← arr_get p 1;
  let set st :=
    let '(rv, h) := loopback_process port mode (hw st) in
    Some (if negb (rv =? 0) then FRE_FAIL else FRE_SUCCESS, 0, outbuf, set_hw h st) in
  if port =? 0 then set (set_loopback mode (loopback_oct1 st) st)
  else if port =? 16 then set (set_loopback (loopback_oct0 st) mode st)
  else Some (FRE_FAIL, 0, outbuf, st).

Definition frcore_cmd_set_work_mode : bdd_fn := fun plen param outbuf st =>
  p ← param; oct ← arr_get p 0; mode ← arr_get p 1;
  Some (if oct =? 0 then (FRE_SUCCESS, 0, outbuf, set_work_mode mode (work_mode_oct1 st) st)
        else if oct =? 16 then (FRE_SUCCESS, 0, outbuf, set_work_mode (work_mode_oct0 st) mode st)
        else (FRE_FAIL, 0, outbuf, st)).

Definition frcore_cmd_enable_port : bdd_fn := fun plen param outbuf st =>
  p ← param; port ← arr_get p 0; enable ← arr_get p 1;
  Some (if (port =? 0) || (port =? 16) then (FRE_SUCCESS, 0, outbuf, set_rx_on port enable st) else (FRE_FAIL, 0, outbuf, st)).

(** These two only print. *)
Definition frcore_cmd_force_link : bdd_fn := fun plen param outbuf st =>
  p ← param; oct ← arr_get p 0; link ← arr_get p 1; Some (FRE_SUCCESS, 0, outbuf, st).
Definition frcore_cmd_log_set : bdd_fn := fun plen param outbuf st =>
  p ← param; log ← arr_get p 0; enable ← arr_get p 1; Some (FRE_SUCCESS, 0, outbuf, st).

Definition frcore_cmd_poweroff : bdd_fn := fun plen param outbuf st =>
  let '(rv, h) := cvmx_mdio_write 1 11 0xd 2 (hw st) in
  Some (if negb (0 =? rv) then FRE_FAIL else FRE_SUCCESS, 0, outbuf, set_hw h st).

Definition frcore_cmd_dma_block_set : bdd_fn := fun plen param outbuf st =>
  p ← param; size ← arr_get p 0; Some (FRE_SUCCESS, 0, outbuf, set_dma_block size st).

(** Nothing is read: the answer counts from 1.  [size] is at 0 and [addr] at 4 of
    [frc_bdd_dma_read_in_t], [data] has 256 bytes on the stack ([stack]). *)
Definition frcore_cmd_dma_data_read (stack : list Z) : bdd_fn := fun plen param outbuf st =>
  p ← param; size ← card_get p 0 4;
  data ← foldM (fun data i => arr_set data i (u8 (i + 1))) (seqZ 0 (s32 size)) stack;
  d ← read_bytes data 0 size;
  out ← write_bytes outbuf 0 d;
  Some (FRE_SUCCESS, u16 size, out, st).

(** [frcore_bmm_init], in its order. *)
Definition bmm_handlers (stack : list Z) : list (Z * bdd_fn) :=
  [(USER_CMD_GET_BDD_STATUS, frcore_cmd_bdd_status_get); (USER_CMD_GET_BDD_INFO, frcore_cmd_bdd_info_get);
   (USER_CMD_SET_LOOPBACK_MODE, frcore_cmd_set_loopback_mode); (USER_CMD_SET_WORK_MODE, frcore_cmd_set_work_mode);
   (USER_CMD_BDD_PORT_ENABLE, frcore_cmd_enable_port); (USER_CMD_FORCE_LINK, frcore_cmd_force_link);
   (USER_CMD_CONFIG_LOG_SW, frcore_cmd_log_set); (USER_CMD_POWEROFF, frcore_cmd_poweroff);
   (USER_CMD_SET_DMA_BLOCK_SIZE, frcore_cmd_dma_block_set); (USER_CMD_READ_DMA, frcore_cmd_dma_data_read stack)].
End board.

(** The loopback modes and the size of DMA blocks are not [CVMX_SHARED]: every core has
    variables of its own, and a command sets those of the core that works on it. *)
Record core_vars : Type := CoreVars { cv_loopback0 : Z; cv_loopback1 : Z; cv_block : Z }.
Record board (H : Type) : Type := Board { shared : bdd H; cores : Z -> core_vars }.
#[global] Arguments Board {H}.
#[global] Arguments shared {H}.
#[global] Arguments cores {H}.

Definition on_core {H : Type} (c : Z) (b : board H) : bdd H :=
  let v := cores b c in set_dma_block (cv_block v) (set_loopback (cv_loopback0 v) (cv_loopback1 v) (shared b)).
Definition core_done {H : Type} (c : Z) (st : bdd H) (b : board H) : board H :=
  Board st (<[c := CoreVars (loopback_oct0 st) (loopback_oct1 st) (dma_block_size st)]> (cores b)).

(** The loaded image. *)
Definition bdd_load {H : Type} (h : H) : bdd H := Bdd h (fun _ => 0) 0 0 0 0 8 (fun _ => 0).
Definition board_load {H : Type} (h : H) : board H := Board (bdd_load h) (fun _ => CoreVars 0 0 8).

(** ** The tool: frc_pack.h, frctweak_bmm.c and frctweak_stat.c *)

Definition oct_unpack (buf : list Z) : option (frc_oct_t * list Z) :=
  '(link, buf) ← UNPACK 1 buf; '(enable, buf) ← UNPACK 1 buf; '(mode, buf) ← UNPACK 1 buf; '(loop, buf) ← UNPACK 1 buf;
  '(status, buf) ← UNPACK 2 buf; '(optical, buf) ← UNPACK 2 buf;
  '(rp, buf) ← UNPACK 4 buf; '(rb, buf) ← UNPACK 4 buf; '(tp, buf) ← UNPACK 4 buf; '(tb, buf) ← UNPACK 4 buf;
  Some (Oct link enable mode loop status optical rp rb tp tb, buf).

(** [u64_unpack]: two words. *)
Definition u64_unpack (buf : list Z) : option (Z * list Z) :=
  '(hi, buf) ← UNPACK 4 buf; '(lo, buf) ← UNPACK 4 buf; Some (Z.lor (Z.shiftl (u32 hi) 32) (u32 lo), buf).

Definition frc_bdd_status_unpack (buf : list Z) : option (frc_bdd_status_out_t * list Z) :=
  '(local, buf) ← u64_unpack buf; '(remote, buf) ← u64_unpack buf;
  '(block, buf) ← UNPACK 2 buf; '(running, buf) ← UNPACK 2 buf;
  '(rules, buf) ← UNPACK 4 buf; '(ssns, buf) ← UNPACK 4 buf;
  '(o0, buf) ← oct_unpack buf; '(o1, buf) ← oct_unpack buf;
  Some (BddStatus local remote block running rules ssns o0 o1, buf).

Definition frc_version_unpack (buf : list Z) : option (frc_version_t * list Z) :=
  '(major, buf) ← UNPACK 1 buf; '(minor, buf) ← UNPACK 1 buf; '(build, buf) ← UNPACK 2 buf; Some (Version major minor build, buf).
Definition frc_bdd_info_unpack (buf : list Z) : option (frc_bdd_info_out_t * list Z) :=
  '(v1, buf) ← frc_version_unpack buf; '(v2, buf) ← frc_version_unpack buf; '(v3, buf) ← frc_version_unpack buf;
  '(v4, buf) ← frc_version_unpack buf; '(v5, buf) ← frc_version_unpack buf;
  '(cpld, buf) ← UNPACK 4 buf; '(ports, buf) ← UNPACK 4 buf;
  Some (BddInfo v1 v2 v3 v4 v5 cpld ports, buf).

(** The ports by their names. *)
Definition parse_oct : Tool.cstr -> Z -> Z * Z := Tool.word_set [("oct0"%string, 0); ("oct1"%string, 16)].

(** [frctweak_cmd_set_work_mode] up to its call: the code it ends with, or the two bytes it
    sends with [frcapi_bdd_workmode_set]. *)
Definition frctweak_cmd_set_work_mode (argv : list Tool.cstr) : Z + list Z :=
  match argv with
  | [_; interface; mode] =>
    let '(rv, oct) := parse_oct interface 0 in
    if negb (rv =? 0) then inl FRE_PARAM else
    let '(rv, mode) := Tool.parse_bool mode 0 in
    if negb (rv =? 0) then inl FRE_PARAM else inr [oct; mode]
  | _ => inl FRE_SUCCESS
  end.

(** [frctweak_cmd_stat_get]: the counters are read twelve at a time, into an array of words
    that is turned into the byte order of the host at the end.  [api] is
    [frcapi_pkt_stat_get] of an index and a number: its code and the bytes it wrote. *)
Definition STAT_GET_ONCE_SIZE : Z := 12.

Definition chunk_num (num i : Z) : Z :=
  if i =? num - 1 then
    if negb (stat_max `mod` STAT_GET_ONCE_SIZE =? 0) then stat_max `mod` STAT_GET_ONCE_SIZE else STAT_GET_ONCE_SIZE
  else STAT_GET_ONCE_SIZE.

Section tool.
Context {W : Type}.
Variable api : Z -> Z -> W -> option (Z * list Z * W).

(** [inl] is the code of a call that failed. *)
Definition stat_chunk (num : Z) (acc : Z + list Z * W) (i : Z) : option (Z + list Z * W) :=
  match acc with
  | inl rv => Some (inl rv)
  | inr (stat, w) =>
    '(rv, bs, w) ← api (i * STAT_GET_ONCE_SIZE) (chunk_num num i) w;
    if negb (rv =? FRE_SUCCESS) then Some (inl FRE_FAIL) else
    stat ← write_bytes stat (Z.to_nat (8 * (i * STAT_GET_ONCE_SIZE))) bs; Some (inr (stat, w))
  end.

(** The counters that are printed, with their values. *)
Definition shown_stats (stat : list Z) : option (list (Z * Z)) :=
  let stat := swap_buff (Z.to_nat stat_max) stat in
  shown ← mapM (fun i => b ← read_bytes stat (8 * i) 8; Some (i, le_value b)) (seqZ 0 stat_max);
  Some (filter (fun x => 0 < x.2) shown).

(** The code, and what is printed. *)
Definition frctweak_cmd_stat_get (w : W) : option (Z * list (Z * Z)) :=
  let num := stat_max / STAT_GET_ONCE_SIZE + (if negb (stat_max `mod` STAT_GET_ONCE_SIZE =? 0) then 1 else 0) in
  r ← foldM (stat_chunk num) (seqZ 0 num) (inr (replicate (Z.to_nat (8 * stat_max)) 0, w));
  match r with
  | inl rv => Some (rv, [])
  | inr (stat, _) => shown ← shown_stats stat; Some (FRE_SUCCESS, shown)
  end.
End tool.
