(* ===== verification/BoardThm.v ===== *)
(** * The commands of the board, from the tool to the registers

    The counters are read twelve at a time and shown as they are on the card.  What the
    tool sets is what the card works with: the status it reads back - on the core it was
    set on -, and whether the packets of a port go to
    the host or to the path.  And the sizes the handlers do not check. *)

From stdpp Require Import list functions.
From S2P Require Import Prelude Bytes FrcList Cmd CmdProps CmdSys CmdThm CmdTable Api CmdRule CmdRuleProps IpcThm Board.
From Stdlib Require String.
From S2P Require Tool Work WorkThm.
Import (notations) String.
#[local] Open Scope Z_scope.

(** ** Counters *)

(** The words of an answer. *)
Definition words_of (f : Z -> Z) (m n : Z) : list Z := concat ((fun i => be_bytes 8 (f i)) <$> seqZ m n).

Lemma words_snoc f m n : 0 <= n -> words_of f m (n + 1) = words_of f m n ++ be_bytes 8 (f (m + n)).
Proof.
  intros Hn. unfold words_of. rewrite seqZ_app by lia. rewrite fmap_app, concat_app. change (seqZ (m + n) 1) with [m + n]. cbn [fmap list_fmap concat]. by rewrite app_nil_r.
Qed.

Lemma length_words_of f m n : 0 <= n -> Z.of_nat (length (words_of f m n)) = 8 * n.
Proof.
  intros Hn. pattern n. apply natlike_ind; [done| |done]. intros k Hk IH. unfold Z.succ. rewrite words_snoc, length_app, length_be_bytes by done. lia.
Qed.

Lemma words_app f m a b : 0 <= a -> 0 <= b -> words_of f m (a + b) = words_of f m a ++ words_of f (m + a) b.
Proof. intros Ha Hb. unfold words_of. by rewrite seqZ_app, fmap_app, concat_app by done. Qed.

Lemma words_ext f g m n : (forall i, m <= i < m + n -> f i = g i) -> words_of f m n = words_of g m n.
Proof. intros H. unfold words_of. f_equal. apply list_fmap_ext. intros k i Hk. apply lookup_seqZ in Hk as [-> Hk]. f_equal. apply H. lia. Qed.

Lemma words_shift f m n : words_of (fun i => f (m + i)) 0 n = words_of f m n.
Proof.
  unfold words_of. f_equal. apply list_eq. intros k. rewrite !list_lookup_fmap. destruct (decide (Z.of_nat k < n)).
  - rewrite !lookup_seqZ_lt by lia. simpl. by rewrite Z.add_0_l.
  - by rewrite !lookup_seqZ_ge by lia.
Qed.

(** A write behind what is written. *)
Lemma write_behind A Z bs : (length bs <= length Z)%nat -> write_bytes (A ++ Z) (length A) bs = Some ((A ++ bs) ++ drop (length bs) Z).
Proof.
  intros Hl. rewrite write_bytes_eq by (rewrite length_app; lia). rewrite take_app_le, take_ge by lia. rewrite <- app_assoc. do 3 f_equal.
  rewrite drop_app_ge by lia. f_equal. lia.
Qed.

Lemma words_written f n buf : 0 <= n -> 8 * n <= Z.of_nat (length buf) ->
  foldM (fun out i => write_bytes out (Z.to_nat (8 * i)) (be_bytes 8 (f i))) (seqZ 0 n) buf = Some (words_of f 0 n ++ drop (Z.to_nat (8 * n)) buf).
Proof.
  intros Hn Hl.
  destruct (for_seqZ (fun i out => out = words_of f 0 i ++ drop (Z.to_nat (8 * i)) buf)
    (fun out i => write_bytes out (Z.to_nat (8 * i)) (be_bytes 8 (f i))) n buf) as (out & E & ->); [done|done| |done].
  intros i out Hi ->. pose proof (length_words_of f 0 i ltac:(lia)) as Hw.
  replace (Z.to_nat (8 * i)) with (length (words_of f 0 i)) by lia. eexists. split; [apply write_behind; rewrite length_drop, length_be_bytes; lia|].
  rewrite length_be_bytes, drop_drop, words_snoc by lia. rewrite Z.add_0_l. f_equal. f_equal. lia.
Qed.

Section commands.
Context {H : Type} `{!Bus H}.
Variables (frcore_version_get : frc_version_t) (stack : list Z).
Implicit Types (st : bdd H).

(** The table after the three initialisations. *)
Definition bdd_handlers : list (Z * frcore_cmd_fn_t (bdd H)) := stat_handlers ++ phy_handlers ++ bmm_handlers frcore_version_get stack.
Definition bdd_table : Z -> Z -> option (frcore_cmd_fn_t (bdd H)) := table_of bdd_handlers (fun _ _ => None).

(** A pair of words on the way to the card. *)
Lemma pair_param cmd a b olen : param_of (api_query cmd 8 (reverse (be_bytes 4 a) ++ reverse (be_bytes 4 b)) olen) = Some (be_bytes 4 b ++ be_bytes 4 a).
Proof.
  change (param_of _) with (Some (sent_param 8 (Some (reverse (be_bytes 4 a) ++ reverse (be_bytes 4 b))))). unfold sent_param.
  rewrite take_ge by (rewrite length_app, !length_reverse, !length_be_bytes; done). change (Z.to_nat (8 / 8)) with 1%nat. cbn [swap_buff].
  rewrite take_ge, drop_ge by (rewrite length_app, !length_reverse, !length_be_bytes; lia). by rewrite app_nil_r, reverse_app, !reverse_involutive.
Qed.

Lemma pair_fields a b : 0 <= a < 2 ^ 32 -> 0 <= b < 2 ^ 32 ->
  card_get (be_bytes 4 b ++ be_bytes 4 a) 0 4 = Some b /\ card_get (be_bytes 4 b ++ be_bytes 4 a) 4 4 = Some a.
Proof.
  intros Ha Hb. split; [rewrite card_field by reflexivity; by rewrite wrapu_id|].
  rewrite card_get_skip by (rewrite ?length_be_bytes; lia). rewrite length_be_bytes, <- (app_nil_r (be_bytes 4 a)), card_field by reflexivity. by rewrite wrapu_id.
Qed.

(** The counters from [index] on. *)
Definition stats_from st (index num : Z) : list Z := words_of (fun i => FRCORE_STAT_VAL i st) index num.

Lemma get_stat_spec index num plen buf st : 0 <= index -> 0 <= num -> index + num < 2 ^ 32 -> 8 * num <= Z.of_nat (length buf) -> num < 8192 ->
  frcore_cmd_get_stat plen (Some (be_bytes 4 num ++ be_bytes 4 index)) buf st =
    Some (FRE_SUCCESS, 8 * num, stats_from st index num ++ drop (Z.to_nat (8 * num)) buf, st).
Proof.
  intros Hi Hn Hs Hl Hb. unfold frcore_cmd_get_stat. destruct (pair_fields index num) as [E1 E2]; [lia..|]. cbn [mbind option_bind]. rewrite E1, E2. cbn [mbind option_bind].
  rewrite words_written by lia. cbn [mbind option_bind]. rewrite (wrapu_id 32 num), wrapu_id by lia. rewrite (Z.mul_comm num).
  pose proof (words_shift (fun i => FRCORE_STAT_VAL i st) index num) as E. cbn beta in E. unfold stats_from. rewrite <- E.
  rewrite (words_ext _ (fun i => FRCORE_STAT_VAL (index + i) st)); [done|]. intros i Hr. by rewrite wrapu_id by lia.
Qed.

(** C39: It overruns its buffer from 129 counters on. *)
Theorem stat_get_bounds (index num plen : Z) buf st : 0 <= index -> 0 <= num < 2 ^ 32 -> index + num < 2 ^ 32 ->
  length buf = Z.to_nat FRC_CMD_RESPOND_DATA_SZ ->
  is_Some (frcore_cmd_get_stat plen (Some (be_bytes 4 num ++ be_bytes 4 index)) buf st) <-> num <= 128.
Proof.
  intros Hi Hn Hs Hl. change (Z.to_nat FRC_CMD_RESPOND_DATA_SZ) with 1024%nat in Hl. split.
  - intros [r Hr]. destruct (Z.le_gt_cases num 128) as [|Hgt]; [done|]. exfalso. unfold frcore_cmd_get_stat in Hr.
    destruct (pair_fields index num) as [E1 E2]; [lia..|]. cbn [mbind option_bind] in Hr. rewrite E1, E2 in Hr. cbn [mbind option_bind] in Hr.
    replace num with (128 + (1 + (num - 129))) in Hr at 1 by lia. rewrite seqZ_app, foldM_app, words_written in Hr by lia. cbn [mbind option_bind] in Hr.
    rewrite seqZ_app in Hr by lia. change (seqZ (0 + 128) 1) with [128] in Hr. cbn [app foldM] in Hr.
    set (out := words_of _ 0 128 ++ _) in Hr. assert (length out = 1024%nat) as Ho.
    { unfold out. pose proof (length_words_of (fun i => FRCORE_STAT_VAL (u32 (index + i)) st) 0 128 ltac:(lia)). rewrite length_app, length_drop. lia. }
    unfold write_bytes in Hr. rewrite Ho, length_be_bytes in Hr. discriminate Hr.
  - intros Hle. rewrite get_stat_spec by lia. by eexists.
Qed.

Lemma get_stat_answers index num st : 0 <= index -> 0 <= num <= 128 -> index + num < 2 ^ 32 ->
  answers frcore_cmd_get_stat (frcapi_pkt_stat_get index num) st FRE_SUCCESS (stats_from st index num) st.
Proof.
  intros Hi Hn Hs buf Hb. change (Z.to_nat FRC_CMD_RESPOND_DATA_SZ) with 1024%nat in Hb. unfold frcapi_pkt_stat_get. rewrite pair_param.
  pose proof (length_words_of (fun i => FRCORE_STAT_VAL i st) index num ltac:(lia)) as Hw. fold (stats_from st index num) in Hw.
  exists (stats_from st index num ++ drop (Z.to_nat (8 * num)) buf). rewrite get_stat_spec by lia. rewrite Hw. split; [done|].
  split; [by rewrite take_app_le, take_ge by lia|]. rewrite length_app, length_drop. lia.
Qed.

(** ** The tool *)

Context {max : Z} {sets : list (frcore_cmd_set_t (S := bdd H))}.
Hypothesis Htable : table_is max bdd_table sets.
Hypothesis Hmax : USER_CMD_SET_DMA_BLOCK_SIZE + 1 < max.

(** The exchange of the driver. *)
Variable octeon_swap_8B_data : nat -> list Z -> list Z.
Hypothesis Hswap : swap_law octeon_swap_8B_data.

(** One call: the packet of the driver, the work of the card, the answer as the driver stores
    it, and what the caller gets. *)
Definition card_call (c : call) (seq : Z) st : option (result * bdd H) :=
  '(r, cd) ← frcore_process_frc_cmd true (packet_of c seq) (Card sets true st);
  bs ← r; res ← core_cmd_answer c (received octeon_swap_8B_data [bs]); Some (res, components cd).

Lemma card_call_served c seq fn st rv out st' : fits c -> 0 <= seq < 2 ^ 32 -> k_type c = CMD_TYPE_USER -> k_cmd c < max ->
  bdd_table CMD_TYPE_USER (k_cmd c) = Some fn -> answers fn c st rv out st' -> (exists n, k_olen c = Some n /\ Z.of_nat (length out) <= n) ->
  card_call c seq st = Some (caller_result c rv out, st').
Proof using Hswap Htable.
  intros [Hc Hi] Hs Hty Hk Hf Ha (n & En & Hn). unfold card_call.
  destruct (process_answer max bdd_table sets c seq fn st rv out st' Htable Hc Hs Hty Hk Hf Ha) as (data & E & Et & El).
  rewrite E. cbn [mbind option_bind]. rewrite (received_spec _ Hswap [_] _ (app_nil_r _)) by done.
  rewrite answer_result; [done|by exists n| |done|done]. pose proof (co_olen _ Hc) as Ho. rewrite En in *. cbn in *. lia.
Qed.

(** The world of the tool: what the card is at each of its calls, and their numbers. *)
Definition stat_api (index num : Z) (w : list (bdd H * Z)) : option (Z * list Z * list (bdd H * Z)) :=
  match w with
  | [] => None
  | (st, seq) :: w => '(rv, o, _) ← card_call (frcapi_pkt_stat_get index num) seq st; Some (rv, from_option snd [] o, w)
  end.

Lemma stat_api_served index num st seq w : 0 <= index -> 0 <= num <= 128 -> index + num < 2 ^ 32 -> 0 <= seq < 2 ^ 32 ->
  stat_api index num ((st, seq) :: w) = Some (FRE_SUCCESS, stats_from st index num, w).
Proof using Hswap Htable Hmax.
  intros Hi Hn Hs Hq. cbn [stat_api]. pose proof (length_words_of (fun i => FRCORE_STAT_VAL i st) index num ltac:(lia)) as Hw. fold (stats_from st index num) in Hw.
  rewrite (card_call_served _ seq frcore_cmd_get_stat st FRE_SUCCESS (stats_from st index num) st); [done| |done|done| |done|by apply get_stat_answers|].
  - apply query_fits; [done|done|by rewrite length_app, !length_reverse, !length_be_bytes|]. rewrite wrapu_id by lia. unfold FRC_CMD_RESPOND_DATA_SZ. lia.
  - change (k_cmd _) with USER_CMD_GET_STAT. unfold USER_CMD_GET_STAT, USER_CMD_SET_DMA_BLOCK_SIZE in *. lia.
  - exists (u16 (8 * num)). split; [done|]. rewrite Hw, wrapu_id by lia. lia.
Qed.

(** The counter [k] as the card had it at the call that reads it. *)
Definition counter_read (w : list (bdd H * Z)) (k : Z) : Z :=
  match w !! Z.to_nat (k / STAT_GET_ONCE_SIZE) with Some (st, _) => FRCORE_STAT_VAL k st | None => 0 end.

(** The counters below [12 * i] are read. *)
Definition chunks_read (w : list (bdd H * Z)) (i : Z) (acc : Z + list Z * list (bdd H * Z)) : Prop :=
  let n := Z.min (12 * i) stat_max in
  acc = inr (words_of (counter_read w) 0 n ++ drop (Z.to_nat (8 * n)) (replicate (Z.to_nat (8 * stat_max)) 0), drop (Z.to_nat i) w).

Lemma chunks_start w : chunks_read w 0 (inr (replicate (Z.to_nat (8 * stat_max)) 0, w)).
Proof.
  unfold chunks_read. generalize (replicate (Z.to_nat (8 * stat_max)) 0). intros z. change (Z.min (12 * 0) stat_max) with 0.
  change (Z.to_nat (8 * 0)) with 0%nat. change (Z.to_nat 0) with 0%nat. by rewrite !drop_0.
Qed.

Lemma chunk_step w i acc : length w = 18%nat -> Forall (fun x => 0 <= x.2 < 2 ^ 32) w -> 0 <= i < 18 -> chunks_read w i acc ->
  exists acc', stat_chunk stat_api 18 acc i = Some acc' /\ chunks_read w (i + 1) acc'.
Proof using Hswap Htable Hmax.
  intros Hl Hq Hi ->. unfold STAT_GET_ONCE_SIZE, stat_max in *. set (n := chunk_num 18 i).
  assert (Z.min (12 * i) 214 = 12 * i /\ Z.min (12 * (i + 1)) 214 = 12 * i + n /\ 0 <= n <= 12 /\ 12 * i + n <= 214) as (E1 & E2 & Hn & Hb).
  { change n with (if i =? 17 then 10 else 12). destruct (Z.eqb_spec i 17); lia. }
  destruct (lookup_lt_is_Some_2 w (Z.to_nat i) ltac:(lia)) as [[st seq] Ew]. rewrite (drop_S _ _ _ Ew).
  pose proof (Forall_lookup_1 _ _ _ _ Hq Ew) as Hs. cbn [snd] in Hs. cbn [stat_chunk]. fold n. change STAT_GET_ONCE_SIZE with 12.
  rewrite stat_api_served by lia. cbn [mbind option_bind]. change (negb (FRE_SUCCESS =? FRE_SUCCESS)) with false. cbv iota. rewrite E1.
  pose proof (length_words_of (counter_read w) 0 (12 * i) ltac:(lia)) as Hw.
  pose proof (length_words_of (fun k => FRCORE_STAT_VAL k st) (i * 12) n ltac:(lia)) as Hw2. fold (stats_from st (i * 12) n) in Hw2.
  replace (Z.to_nat (8 * (i * 12))) with (length (words_of (counter_read w) 0 (12 * i))) by lia.
  rewrite write_behind by (rewrite length_drop, length_replicate; lia). cbn [mbind option_bind]. eexists. split; [done|].
  unfold chunks_read, stat_max. rewrite E2. rewrite words_app by lia. do 2 f_equal; [|f_equal; lia]. f_equal; [f_equal|].
  - unfold stats_from. rewrite (Z.mul_comm i), Z.add_0_l. apply words_ext. intros k Hk. unfold counter_read, STAT_GET_ONCE_SIZE.
    replace (k / 12) with i by (apply (Z.div_unique _ _ _ (k - 12 * i)); lia). by rewrite Ew.
  - rewrite drop_drop. f_equal. lia.
Qed.

(** The words in the byte order of the host. *)
Lemma swap_words f n : 0 <= n -> swap_buff (Z.to_nat n) (words_of f 0 n) = concat ((fun i => reverse (be_bytes 8 (f i))) <$> seqZ 0 n).
Proof.
  intros Hn. pose proof (swap_card ((fun i => [(8%nat, f i)]) <$> seqZ 0 n) []) as Hs. rewrite !app_nil_r, length_fmap, length_seqZ in Hs.
  assert (card_bytes ((fun i => [(8%nat, f i)]) <$> seqZ 0 n) = words_of f 0 n) as Ec.
  { unfold card_bytes, words_of. by rewrite <- list_fmap_compose. }
  rewrite Ec in Hs. rewrite Hs.
  - unfold host_bytes. by rewrite <- list_fmap_compose.
  - apply Forall_fmap, Forall_true. intros i. done.
Qed.

Lemma read_words f n i : 0 <= i < n -> read_bytes (concat ((fun i => reverse (be_bytes 8 (f i))) <$> seqZ 0 n)) (8 * i) 8 = Some (reverse (be_bytes 8 (f i))).
Proof.
  intros Hi. set (g := fun i => reverse (be_bytes 8 (f i))).
  assert (forall m k, 0 <= k -> Z.of_nat (length (concat (g <$> seqZ m k))) = 8 * k) as Hlen.
  { intros m k Hk. revert m. pattern k. apply natlike_ind; [done| |done]. intros j Hj IH m. rewrite seqZ_cons by lia. cbn [fmap list_fmap concat].
    rewrite length_app, Nat2Z.inj_add. unfold g at 1. rewrite length_reverse, length_be_bytes. replace (Z.pred (Z.succ j)) with j by lia. fold (g <$> seqZ (Z.succ m) j). rewrite IH. lia. }
  replace n with (i + (1 + (n - i - 1))) by lia. rewrite seqZ_app, fmap_app, concat_app by lia. rewrite (seqZ_app (0 + i) 1), fmap_app, concat_app by lia.
  rewrite Z.add_0_l. change (seqZ i 1) with [i]. cbn [fmap list_fmap concat]. rewrite app_nil_r. pose proof (Hlen 0 i ltac:(lia)) as H1.
  assert (length (g i) = 8%nat) as Hg by (unfold g; by rewrite length_reverse, length_be_bytes).
  rewrite read_bytes_eq by (rewrite ?length_app; lia). f_equal. replace (Z.to_nat (8 * i)) with (length (concat (g <$> seqZ 0 i))) by lia.
  rewrite drop_app_length. change (Z.to_nat 8) with 8%nat. rewrite <- Hg. apply take_app_length.
Qed.

Lemma shown_words f n : (forall i, 0 <= i < n -> 0 <= f i < 2 ^ 64) ->
  mapM (fun i => b ← read_bytes (concat ((fun i => reverse (be_bytes 8 (f i))) <$> seqZ 0 n)) (8 * i) 8; Some (i, le_value b)) (seqZ 0 n) = Some ((fun k => (k, f k)) <$> seqZ 0 n).
Proof.
  intros Hf. apply mapM_Some_2, Forall2_fmap_r, Forall_Forall2_diag, Forall_forall. intros i Hi. apply elem_of_seqZ in Hi.
  rewrite read_words by lia. cbn [mbind option_bind]. do 2 f_equal. rewrite le_value_be. apply Z.mod_small, Hf. lia.
Qed.

Lemma counter_range w k : 0 <= counter_read w k < 2 ^ 64.
Proof. unfold counter_read. destruct (w !! _) as [[st seq]|]; [|done]. unfold FRCORE_STAT_VAL. by apply (wrapu_range 64). Qed.

Lemma stats_shown f : (forall i, 0 <= f i < 2 ^ 64) ->
  shown_stats (words_of f 0 stat_max ++ drop (Z.to_nat (8 * stat_max)) (replicate (Z.to_nat (8 * stat_max)) 0)) =
    Some (filter (fun x => 0 < x.2) ((fun k => (k, f k)) <$> seqZ 0 stat_max)).
Proof.
  intros Hf. unfold shown_stats. generalize (eq_refl : (0 <=? stat_max) = true). generalize stat_max. intros n Hn. apply Z.leb_le in Hn.
  rewrite drop_ge, app_nil_r by (rewrite length_replicate; lia). rewrite swap_words by done. by rewrite shown_words by auto.
Qed.

Lemma stat_get_result {W} (api : Z -> Z -> W -> option (Z * list Z * W)) w stat w' :
  foldM (stat_chunk api 18) (seqZ 0 18) (inr (replicate (Z.to_nat (8 * stat_max)) 0, w)) = Some (inr (stat, w')) ->
  frctweak_cmd_stat_get api w = shown ← shown_stats stat; Some (FRE_SUCCESS, shown).
Proof.
  intros E. unfold frctweak_cmd_stat_get. cbv zeta.
  assert (stat_max / STAT_GET_ONCE_SIZE + (if negb (stat_max `mod` STAT_GET_ONCE_SIZE =? 0) then 1 else 0) = 18) as -> by reflexivity. by rewrite E.
Qed.

(** C20: The tool shows the counters of the card: each with the value it had when it was read,
    none twice and none left out, and those that are zero are not printed. *)
Theorem stat_tool_shows_counters (w : list (bdd H * Z)) : length w = 18%nat -> Forall (fun x => 0 <= x.2 < 2 ^ 32) w ->
  frctweak_cmd_stat_get stat_api w = Some (FRE_SUCCESS, filter (fun x => 0 < x.2) ((fun k => (k, counter_read w k)) <$> seqZ 0 stat_max)).
Proof using Hswap Htable Hmax.
  intros Hl Hq.
  destruct (for_seqZ (chunks_read w) (stat_chunk stat_api 18) 18 (inr (replicate (Z.to_nat (8 * stat_max)) 0, w))) as (acc & E & Ha);
    [lia|apply chunks_start|intros i acc Hi Hacc; by apply chunk_step|].
  rewrite Ha in E. erewrite stat_get_result by exact E. change (Z.min (12 * 18) stat_max) with stat_max.
  rewrite stats_shown by (intros; apply counter_range). reflexivity.
Qed.
End commands.

(** ** The table of the commands *)

Lemma bdd_table_exists {H : Type} {bus : Bus H} version stack max (st : bdd H) : USER_CMD_SET_DMA_BLOCK_SIZE + 1 < max ->
  exists sets, table_is max (bdd_table version stack) sets.
Proof.
  intros Hm. destruct (init_table (S := bdd H) max (fun _ => true) (Card [] true st) (fun _ => eq_refl)) as (st0 & _ & Ht & _).
  destruct (register_all_spec max (bdd_handlers version stack) _ st0 Ht) as (st' & _ & Ht' & _).
  - intros cmd fn Hin. assert (cmd ∈ (bdd_handlers version stack).*1) as Hc by (apply list_elem_of_fmap; by exists (cmd, fn)).
    assert (Forall (fun c => 0 <= c <= USER_CMD_SET_DMA_BLOCK_SIZE + 1) (bdd_handlers version stack).*1) as Hall
      by (apply (bool_decide_unpack _); vm_compute; exact Logic.I).
    rewrite Forall_forall in Hall. apply Hall in Hc. lia.
  - by apply (bool_decide_unpack _); vm_compute.
  - done.
  - by exists (frcore_cmdset st').
Qed.

(** A board whose buses always answer 0. *)
Definition quiet_bus : Bus unit := {|
  cvmx_mdio_read _ _ _ h := (0, h); cvmx_mdio_write _ _ _ _ h := (0, h);
  cvmx_mdio_45_read _ _ _ _ h := (0, h); cvmx_mdio_45_write _ _ _ _ _ h := (0, h); cvmx_twsix_read_ia _ _ _ _ _ h := (0, Some 40, h) |}.
Definition counting_board : bdd unit := set_counters (<[3 := 7]> (<[213 := 9]> (fun _ => 0))) (bdd_load tt).

Lemma stat_tool_shows_counters_witness : exists sets, table_is 58 (bdd_table (Bus0 := quiet_bus) (Version 1 2 3) (replicate 256 0)) sets /\
  frctweak_cmd_stat_get (stat_api (sets := sets) swap_buff) (replicate 18 (counting_board, 1)) = Some (FRE_SUCCESS, [(3, 7); (213, 9)]).
Proof.
  destruct (bdd_table_exists (bus := quiet_bus) (Version 1 2 3) (replicate 256 0) 58 (bdd_load tt) ltac:(reflexivity)) as [sets Ht]. exists sets. split; [exact Ht|].
  rewrite (stat_tool_shows_counters (Bus0 := quiet_bus) (Version 1 2 3) (replicate 256 0) Ht eq_refl swap_buff (fun _ _ _ => eq_refl)
    (replicate 18 (counting_board, 1)) eq_refl).
  - vm_compute. reflexivity.
  - apply (bool_decide_unpack _). vm_compute. exact Logic.I.
Defined.

Lemma stat_get_bounds_witness : is_Some (frcore_cmd_get_stat 8 (Some (be_bytes 4 128 ++ be_bytes 4 0)) (replicate 1024 0) counting_board) /\
  ~ is_Some (frcore_cmd_get_stat 8 (Some (be_bytes 4 129 ++ be_bytes 4 0)) (replicate 1024 0) counting_board).
Proof.
  split; [apply (stat_get_bounds 0 128 8)|intros Hs; apply (stat_get_bounds 0 129 8) in Hs]; try lia; try (rewrite length_replicate; reflexivity).
Defined.

(** * The modes of the board and the status *)

(** ** The status, byte by byte *)

Definition byte (v : Z) : Prop := 0 <= v < 256.
Record oct_ok (o : frc_oct_t) : Prop := OctOk {
  oo_link : byte (o_link o); oo_enable : byte (o_enable o); oo_mode : byte (o_work_mode o); oo_loop : byte (o_loopback_mode o);
  oo_status : 0 <= optical_status o < 2 ^ 16; oo_optical : 0 <= optical o < 2 ^ 16;
  oo_rp : 0 <= rx_pkts_rate o < 2 ^ 32; oo_rb : 0 <= rx_bytes_rate o < 2 ^ 32; oo_tp : 0 <= tx_pkts_rate o < 2 ^ 32; oo_tb : 0 <= tx_bytes_rate o < 2 ^ 32 }.

Lemma be_split v : be_bytes 8 v = be_bytes 4 (v / 2 ^ 32) ++ be_bytes 4 v.
Proof. cbn [be_bytes app]. rewrite !Z.div_div by lia. reflexivity. Qed.

Lemma u64_unpack_be v rest : 0 <= v < 2 ^ 64 -> u64_unpack (be_bytes 8 v ++ rest) = Some (v, rest).
Proof.
  intros Hv. unfold u64_unpack. rewrite be_split, <- app_assoc, unpack_app by lia. cbn [mbind option_bind]. rewrite unpack_app by lia. cbn [mbind option_bind].
  change (8 * Z.of_nat 4) with 32. rewrite (wrapu_id 32 (v / 2 ^ 32)) by (split; [apply Z.div_pos; lia|apply Z.div_lt_upper_bound; lia]).
  rewrite (wrapu_id 32 (v / 2 ^ 32)) by (split; [apply Z.div_pos; lia|apply Z.div_lt_upper_bound; lia]).
  unfold wrapu. rewrite Z.mod_mod by lia. rewrite lor_shift by (try apply Z.mod_pos_bound; lia). do 2 f_equal. rewrite (Z.div_mod v (2 ^ 32)) at 3 by lia. lia.
Qed.

(** The next field of a structure. *)
Ltac next_field := rewrite unpack_app by lia; cbn [mbind option_bind].

Lemma oct_unpack_bytes o rest : oct_ok o -> oct_unpack (oct_bytes o ++ rest) = Some (o, rest).
Proof.
  intros []. unfold oct_unpack, oct_bytes, byte in *. rewrite <- ?app_assoc. repeat next_field. rewrite !wrapu_id by (simpl; lia). by destruct o.
Qed.

Record status_ok (s : frc_bdd_status_out_t) : Prop := StatusOk {
  so_local : 0 <= t_local s < 2 ^ 64; so_remote : 0 <= t_remote s < 2 ^ 64; so_block : 0 <= s_dma_block_size s < 2 ^ 16;
  so_running : 0 <= running_status s < 2 ^ 16; so_rules : 0 <= rule_max s < 2 ^ 32; so_ssns : 0 <= ssn_max s < 2 ^ 32; so_oct0 : oct_ok (oct0 s); so_oct1 : oct_ok (oct1 s) }.

Lemma status_unpack_bytes s : status_ok s -> frc_bdd_status_unpack (status_bytes s) = Some (s, replicate 4 0).
Proof.
  intros []. unfold frc_bdd_status_unpack, status_bytes. rewrite u64_unpack_be by done. cbn [mbind option_bind]. rewrite u64_unpack_be by done. cbn [mbind option_bind].
  repeat next_field. rewrite oct_unpack_bytes by done. cbn [mbind option_bind]. rewrite oct_unpack_bytes by done. cbn [mbind option_bind].
  rewrite !wrapu_id by (simpl; lia). by destruct s.
Qed.

Lemma version_unpack_bytes v rest : byte (major v) -> byte (minor v) -> 0 <= build v < 2 ^ 16 -> frc_version_unpack (version_bytes v ++ rest) = Some (v, rest).
Proof. intros. unfold frc_version_unpack, version_bytes, byte in *. rewrite <- ?app_assoc. repeat next_field. rewrite !wrapu_id by (simpl; lia). by destruct v. Qed.

(** ** Settings *)

Inductive setting : Type :=
| WorkMode (oct mode : Z)
| PortEnable (port v : Z)
| DmaBlock (size : Z).

Definition setting_ok (s : setting) : Prop := match s with WorkMode o m => byte o /\ byte m | PortEnable p v => byte p /\ byte v | DmaBlock n => byte n end.
Definition call_of (s : setting) : call :=
  match s with
  | WorkMode oct mode => frcapi_bdd_workmode_set [oct; mode] | PortEnable port v => frcapi_bdd_port_enable [port; v]
  | DmaBlock size => frcapi_dma_block_set size
  end.

(** There are the ports 0 and 16. *)
Definition is_port (p : Z) : bool := (p =? 0) || (p =? 16).
Definition code_of (s : setting) : Z :=
  match s with WorkMode p _ | PortEnable p _ => if is_port p then FRE_SUCCESS else FRE_FAIL | DmaBlock _ => FRE_SUCCESS end.

(** What is set: the work modes by port, whether a port receives, and the size of DMA blocks. *)
Record modes : Type := Modes { m_work : Z -> Z; m_rx : Z -> Z; m_block : Z }.
Definition set_mode (s : setting) (m : modes) : modes :=
  match s with
  | WorkMode p v => if is_port p then Modes (<[p := v]> (m_work m)) (m_rx m) (m_block m) else m
  | PortEnable p v => if is_port p then Modes (m_work m) (<[p := v]> (m_rx m)) (m_block m) else m
  | DmaBlock n => Modes (m_work m) (m_rx m) n
  end.

(** The same with the size of every core. *)
Record board_modes : Type := BoardModes { bm_work : Z -> Z; bm_rx : Z -> Z; bm_block : Z -> Z }.

Section modes.
Context {H : Type} {bus : Bus H}.
Implicit Types (st : bdd H).

Record has_modes st m : Prop := HasModes {
  hm_work0 : work_mode_oct0 st = m_work m 0; hm_work1 : work_mode_oct1 st = m_work m 16; hm_rx : forall p, rx_on st p = m_rx m p; hm_block : dma_block_size st = m_block m }.

(** What a setting leaves alone. *)
Definition rest_same st st' : Prop :=
  hw st' = hw st /\ counters st' = counters st /\ loopback_oct0 st' = loopback_oct0 st /\ loopback_oct1 st' = loopback_oct1 st.

Definition handler_of (s : setting) : frcore_cmd_fn_t (bdd H) :=
  match s with WorkMode _ _ => frcore_cmd_set_work_mode | PortEnable _ _ => frcore_cmd_enable_port | DmaBlock _ => frcore_cmd_dma_block_set end.

Lemma setting_answers s st m : setting_ok s -> has_modes st m ->
  exists st', answers (handler_of s) (call_of s) st (code_of s) [] st' /\ has_modes st' (set_mode s m) /\ rest_same st st'.
Proof.
  intros Hs [H0 H1 Hr Hb]. destruct s as [p v|p v|n]; cbn [handler_of call_of code_of set_mode]; unfold is_port.
  - exists (if p =? 0 then set_work_mode v (work_mode_oct1 st) st else if p =? 16 then set_work_mode (work_mode_oct0 st) v st else st).
    split; [|destruct (Z.eqb_spec p 0) as [->|]; [|destruct (Z.eqb_spec p 16) as [->|]]; (split; [split|done]); simpl; rewrite ?fn_lookup_insert; rewrite ?fn_lookup_insert_ne by done; done].
    intros buf _. exists buf. split; [|done]. change (param_of _) with (Some [p; v]). unfold frcore_cmd_set_work_mode. cbn [mbind option_bind arr_get]. simpl.
    by destruct (p =? 0), (p =? 16).
  - exists (if is_port p then set_rx_on p v st else st). unfold is_port.
    split; [|destruct (_ || _); (split; [split|done]); try done; intros q; simpl; destruct (decide (q = p)) as [->|]; rewrite ?fn_lookup_insert; rewrite ?fn_lookup_insert_ne by done; done].
    intros buf _. exists buf. split; [|done]. change (param_of _) with (Some [p; v]). unfold frcore_cmd_enable_port. simpl. by destruct (_ || _).
  - exists (set_dma_block n st). split; [|by split; [split|]]. intros buf _. exists buf. split; [|done]. change (param_of _) with (Some [u8 n]).
    unfold frcore_cmd_dma_block_set. simpl. by rewrite wrapu_id.
Qed.

(** ** From the tool to the card and back *)

Context (version : frc_version_t) (stack : list Z) {max : Z} {sets : list (frcore_cmd_set_t (S := bdd H))}.
Hypothesis Htable : table_is max (bdd_table version stack) sets.
Hypothesis Hmax : USER_CMD_SET_DMA_BLOCK_SIZE + 1 < max.
Variable octeon_swap_8B_data : nat -> list Z -> list Z.
Hypothesis Hswap : swap_law octeon_swap_8B_data.
#[local] Abbreviation card_call := (card_call (sets := sets) octeon_swap_8B_data).

Lemma setting_served s seq st m : setting_ok s -> 0 <= seq < 2 ^ 32 -> has_modes st m ->
  exists st', card_call (call_of s) seq st = Some ((code_of s, None), st') /\ has_modes st' (set_mode s m) /\ rest_same st st'.
Proof using Hswap Htable Hmax.
  intros Hs Hq Hm. destruct (setting_answers s st m Hs Hm) as (st' & Ha & Hm' & Hrest). exists st'. split; [|done].
  assert (fits (call_of s)) as Hf by (destruct s; by apply set_fits).
  rewrite (card_call_served version stack Htable _ Hswap _ seq (handler_of s) st (code_of s) [] st'); [|done|done|by destruct s| | |done|by destruct s; eexists].
  - unfold caller_result. assert (u16 (code_of s) = code_of s) as -> by (destruct s; cbn [code_of]; try destruct (is_port _); reflexivity).
    destruct s; cbn [call_of k_output]; by rewrite andb_false_r.
  - unfold USER_CMD_SET_DMA_BLOCK_SIZE in *. destruct s; cbn [call_of k_cmd];
      unfold frcapi_bdd_workmode_set, frcapi_bdd_port_enable, frcapi_dma_block_set, api_set; cbn [k_cmd];
      unfold USER_CMD_SET_WORK_MODE, USER_CMD_BDD_PORT_ENABLE, USER_CMD_SET_DMA_BLOCK_SIZE; lia.
  - by destruct s.
Qed.

(** ** Cores *)

(** What is set on the whole board: the size of blocks by core. *)
Definition view (c : Z) (m : board_modes) : modes := Modes (bm_work m) (bm_rx m) (bm_block m c).
Definition set_on (c : Z) (s : setting) (m : board_modes) : board_modes :=
  let v := set_mode s (view c m) in BoardModes (m_work v) (m_rx v) (<[c := m_block v]> (bm_block m)).

Record board_has (b : board H) (m : board_modes) : Prop := BoardHas {
  bh_view : forall c, has_modes (on_core c b) (view c m) }.
Definition loops_same (b b' : board H) : Prop :=
  hw (shared b') = hw (shared b) /\ forall c, cv_loopback0 (cores b' c) = cv_loopback0 (cores b c) /\ cv_loopback1 (cores b' c) = cv_loopback1 (cores b c).

Lemma core_done_has c s b st' (m : board_modes) : board_has b m -> has_modes st' (set_mode s (view c m)) -> rest_same (on_core c b) st' ->
  board_has (core_done c st' b) (set_on c s m) /\ loops_same b (core_done c st' b).
Proof.
  intros [Hv] [H0 H1 Hr Hb] (Rh & _ & R0 & R1). split; [split; intros c'|split; [exact Rh|intros c']].
  - destruct (Hv c') as [_ _ _ Hb']. unfold set_on. split; cbn [view m_work m_rx m_block bm_work bm_rx bm_block]; try done; unfold on_core, core_done; simpl;
      (destruct (decide (c' = c)) as [->|Hne]; [by rewrite !fn_lookup_insert|by rewrite !fn_lookup_insert_ne by congruence]).
  - unfold core_done. simpl. destruct (decide (c' = c)) as [->|Hne]; [rewrite !fn_lookup_insert; by rewrite R0, R1|by rewrite !fn_lookup_insert_ne by congruence].
Qed.

(** A call the core [c] works on. *)
Definition core_call (c : Z) (k : call) (seq : Z) (b : board H) : option (result * board H) :=
  '(r, st) ← card_call k seq (on_core c b); Some (r, core_done c st b).

(** The settings of a session of the tool: the core that gets a call, what it sets, its number. *)
Definition settings_step (acc : list Z * board H) (x : Z * setting * Z) : option (list Z * board H) :=
  '(rv, _, b) ← core_call x.1.1 (call_of x.1.2) x.2 acc.2; Some (acc.1 ++ [rv], b).
Definition settings_run (l : list (Z * setting * Z)) b : option (list Z * board H) := foldM settings_step l ([], b).
Definition settings_of (l : list (Z * setting * Z)) (m : board_modes) : board_modes := fold_left (fun m x => set_on x.1.1 x.1.2 m) l m.

Definition calls_ok (l : list (Z * setting * Z)) : Prop := Forall (fun x => setting_ok x.1.2 /\ 0 <= x.2 < 2 ^ 32) l.
Definition codes (l : list (Z * setting * Z)) : list Z := (fun x => code_of x.1.2) <$> l.

Lemma settings_fold l acc b (m : board_modes) : calls_ok l -> board_has b m ->
  exists b', foldM settings_step l (acc, b) = Some (acc ++ codes l, b') /\ board_has b' (settings_of l m) /\ loops_same b b'.
Proof using Hswap Htable Hmax.
  intros Hl. revert acc b m. induction Hl as [|[[c s] seq] l [Hs Hq] _ IH]; intros acc b m Hm; cbn [foldM codes fmap list_fmap settings_of fold_left fst snd].
  { exists b. by rewrite app_nil_r. }
  destruct (setting_served s seq (on_core c b) (view c m) Hs Hq (bh_view b m Hm c)) as (st1 & E & Hm1 & R1).
  destruct (core_done_has c s b st1 m Hm Hm1 R1) as [Hm1' R1'].
  assert (settings_step (acc, b) (c, s, seq) = Some (acc ++ [code_of s], core_done c st1 b)) as ->
    by (unfold settings_step, core_call; cbn [fst snd]; by rewrite E). cbn [mbind option_bind].
  destruct (IH (acc ++ [code_of s]) _ _ Hm1') as (b2 & -> & Hm2 & R2). exists b2. rewrite <- app_assoc. split; [done|]. split; [done|].
  destruct R1' as [Rh Rl], R2 as [Rh' Rl']. split; [congruence|]. intros c'. destruct (Rl c'), (Rl' c'). split; congruence.
Qed.

(** ** The status *)

(** What the sensors and the board answer, and the hardware then. *)
Definition sensors (h : H) : option (Z * Z * Z * H) :=
  let '(_, l, h) := cvmx_twsix_read_ia 1 0x4d 0 1 1 h in
  let '(_, r, h) := cvmx_twsix_read_ia 1 0x4d 1 1 1 h in
  l ← l; r ← r;
  let '(v, h) := cvmx_mdio_read 1 11 4 h in Some (l, r, v, h).

Definition lamp (v m : Z) : Z := if Z.land v m =? 0 then 0 else 1.

(** The status the tool is to see. *)
Definition status_of (l r v lb0 lb1 : Z) (m : modes) : frc_bdd_status_out_t :=
  BddStatus l r (m_block m) 1 0 0 (Oct (lamp v 4) 1 (m_work m 0) lb0 (lamp v 1) 20 10 1000 5 500)
    (Oct (lamp v 8) 1 (m_work m 16) lb1 (lamp v 2) 10 50 5000 10 2000).

Record modes_ok (m : modes) : Prop := ModesOk { mo_work : forall p, byte (m_work m p); mo_block : byte (m_block m) }.
Lemma set_mode_ok s m : setting_ok s -> modes_ok m -> modes_ok (set_mode s m).
Proof.
  intros Hs [Hw Hb]. destruct s as [p v|p v|n]; cbn [set_mode]; try destruct (is_port p); try done; split; try done. simpl. intros q.
  destruct (decide (q = p)) as [->|]; [rewrite fn_lookup_insert; apply Hs|by rewrite fn_lookup_insert_ne].
Qed.
Lemma settings_of_ok l (m : board_modes) : calls_ok l -> (forall c, modes_ok (view c m)) -> forall c, modes_ok (view c (settings_of l m)).
Proof.
  intros Hl. revert m. induction Hl as [|[[c s] q] l [Hs _] _ IH]; intros m Hm; [done|]. cbn [settings_of fold_left]. apply IH. intros c'.
  pose proof (set_mode_ok s _ Hs (Hm c)) as [Hw Hb]. destruct (Hm c') as [_ Hb']. split; [exact Hw|]. unfold set_on. cbn [view bm_block m_block].
  destruct (Z.eq_dec c' c) as [->|Hne]; [by rewrite (fn_lookup_insert (bm_block m) c)|by rewrite (fn_lookup_insert_ne (bm_block m) c c') by congruence].
Qed.

Lemma status_of_ok l r v lb0 lb1 m : 0 <= l < 2 ^ 64 -> 0 <= r < 2 ^ 64 -> byte lb0 -> byte lb1 -> modes_ok m -> status_ok (status_of l r v lb0 lb1 m).
Proof.
  intros Hl Hr H0 H1 [Hw Hb]. assert (forall k, byte (lamp v k) /\ lamp v k < 2) as Hlamp by (intros k; unfold lamp, byte; destruct (_ =? 0); lia).
  pose proof (Hlamp 1). pose proof (Hlamp 2). pose proof (Hlamp 4). pose proof (Hlamp 8). pose proof (Hw 0). pose proof (Hw 16). unfold byte in *.
  split; [done|done|simpl; lia|done|done|done| |]; split; unfold byte; simpl; lia.
Qed.

Lemma status_served seq st m l r v h : 0 <= seq < 2 ^ 32 -> has_modes st m -> sensors (hw st) = Some (l, r, v, h) ->
  card_call frcapi_bdd_status_get seq st =
    Some ((FRE_SUCCESS, Some (80, status_bytes (status_of l r v (loopback_oct0 st) (loopback_oct1 st) m))), set_hw h st).
Proof using Hswap Htable Hmax.
  intros Hq [H0 H1 _ Hb] Hs. set (s := status_of _ _ _ _ _ _). assert (length (status_bytes s) = 80%nat) as Hl by (unfold status_bytes, oct_bytes; by rewrite !length_app, !length_be_bytes).
  rewrite (card_call_served version stack Htable _ Hswap _ seq frcore_cmd_bdd_status_get st FRE_SUCCESS (status_bytes s) (set_hw h st)); try done.
  - change (k_cmd frcapi_bdd_status_get) with USER_CMD_GET_BDD_STATUS. unfold USER_CMD_GET_BDD_STATUS, USER_CMD_SET_DMA_BLOCK_SIZE in *. lia.
  - intros buf Hbuf. unfold sensors in Hs. unfold frcore_cmd_bdd_status_get.
    destruct (cvmx_twsix_read_ia 1 0x4d 0 1 1 (hw st)) as [[? lo] h1]. destruct (cvmx_twsix_read_ia 1 0x4d 1 1 1 h1) as [[? ro] h2].
    destruct lo as [lo|]; [|done]. destruct ro as [ro|]; [|done]. cbn [mbind option_bind] in *. destruct (cvmx_mdio_read 1 11 4 h2) as [vv h3]. injection Hs as -> -> -> ->.
    rewrite Hl. destruct (write_front buf (status_bytes s)) as (data & Ew & Et & El); [rewrite Hl, Hbuf; vm_compute; lia|]. rewrite Hl in Et.
    exists data. split; [|done]. unfold s, status_of, lamp in Ew. rewrite H0, H1, Hb, Ew. done.
  - eexists. split; [done|]. by rewrite Hl.
Qed.

(** C28: The tool reads back what was set: after any calls that set modes, ports and sizes, each
    on some core, with the codes they returned, the status it shows has the last mode set for
    each port, the last size set on the core that answers, and what the sensors answer. *)
Theorem board_settings_shown (l : list (Z * setting * Z)) (c seq : Z) b (m : board_modes) (lo re v : Z) (h : H) :
  calls_ok l -> 0 <= seq < 2 ^ 32 -> board_has b m -> (forall c, modes_ok (view c m)) ->
  byte (cv_loopback0 (cores b c)) -> byte (cv_loopback1 (cores b c)) ->
  sensors (hw (shared b)) = Some (lo, re, v, h) -> 0 <= lo < 2 ^ 64 -> 0 <= re < 2 ^ 64 ->
  exists b1 b2 bs, settings_run l b = Some (codes l, b1) /\
    core_call c frcapi_bdd_status_get seq b1 = Some ((FRE_SUCCESS, Some (80, bs)), b2) /\
    frc_bdd_status_unpack bs =
      Some (status_of lo re v (cv_loopback0 (cores b c)) (cv_loopback1 (cores b c)) (view c (settings_of l m)), replicate 4 0).
Proof using Hswap Htable Hmax.
  intros Hl Hq Hm Hok Hb0 Hb1 Hs Hlo Hre. destruct (settings_fold l [] b m Hl Hm) as (b1 & E & Hm1 & (Hh & Hloop)). destruct (Hloop c) as [Hl0 Hl1].
  assert (sensors (hw (on_core c b1)) = Some (lo, re, v, h)) as Hs1 by (change (hw (on_core c b1)) with (hw (shared b1)); by rewrite Hh).
  exists b1. do 2 eexists. split; [exact E|]. split; [unfold core_call; by rewrite (status_served seq (on_core c b1) _ lo re v h Hq (bh_view _ _ Hm1 c) Hs1)|].
  change (loopback_oct0 (on_core c b1)) with (cv_loopback0 (cores b1 c)). change (loopback_oct1 (on_core c b1)) with (cv_loopback1 (cores b1 c)).
  rewrite Hl0, Hl1. apply status_unpack_bytes. apply status_of_ok; try done. by apply settings_of_ok.
Qed.
End modes.

(** Core 2 works on the setting of the size, core 3 on the others and on the query: the tool
    sees the size of the loaded image. *)
Lemma board_settings_shown_witness : exists sets, table_is 58 (bdd_table (Bus0 := quiet_bus) (Version 1 2 3) (replicate 256 0)) sets /\
  exists b1 b2 bs,
    settings_run (sets := sets) swap_buff [(2, DmaBlock 32, 1); (3, WorkMode 16 1, 2); (3, WorkMode 5 1, 3)] (board_load tt) =
      Some ([FRE_SUCCESS; FRE_SUCCESS; FRE_FAIL], b1) /\
    core_call (sets := sets) swap_buff 3 frcapi_bdd_status_get 4 b1 = Some ((FRE_SUCCESS, Some (80, bs)), b2) /\
    frc_bdd_status_unpack bs =
      Some (BddStatus 40 40 8 1 0 0 (Oct 0 1 0 0 0 20 10 1000 5 500) (Oct 0 1 1 0 0 10 50 5000 10 2000), replicate 4 0).
Proof.
  destruct (bdd_table_exists (bus := quiet_bus) (Version 1 2 3) (replicate 256 0) 58 (bdd_load tt) ltac:(reflexivity)) as [sets Ht]. exists sets. split; [exact Ht|].
  apply (board_settings_shown (bus := quiet_bus) (Version 1 2 3) (replicate 256 0) Ht eq_refl swap_buff (fun _ _ _ => eq_refl)
    [(2, DmaBlock 32, 1); (3, WorkMode 16 1, 2); (3, WorkMode 5 1, 3)] 3 4 (board_load tt) (BoardModes (fun _ => 0) (fun _ => 0) (fun _ => 8)) 40 40 0 tt);
    try done; unfold byte; simpl; try lia.
  - repeat constructor; unfold byte; simpl; lia.
Defined.

(** * The path of the packets of a port, and a read that reads nothing *)

(** ** Where the packets of a port go *)

Section steering.
Context {H : Type} {bus : Bus H}.
Context (version : frc_version_t) (stack : list Z) {max : Z} {sets : list (frcore_cmd_set_t (S := bdd H))}.
Hypothesis Htable : table_is max (bdd_table version stack) sets.
Hypothesis Hmax : USER_CMD_SET_DMA_BLOCK_SIZE + 1 < max.
Variable octeon_swap_8B_data : nat -> list Z -> list Z.
Hypothesis Hswap : swap_law octeon_swap_8B_data.
Context {S : Type} `{!Work.Handlers S}.
Variables (state_active : Z -> bool) (max_ports : Z) (sdk : Work.host_sdk) (link_status : Z -> bool) (pciport : Z -> Z) (resp_hdr : Z -> list Z)
  (core_id : Z) (chan_on age_on : bool).

(** The dispatch of a core of this board. *)
Definition board_process (b : board H) : Work.wqe -> Work.core S -> option (Work.core S) :=
  Work.frcore_process_wqe state_active max_ports sdk link_status pciport resp_hdr
    (negb (work_mode_oct0 (shared b) =? 0)) (negb (work_mode_oct1 (shared b) =? 0)) core_id chan_on age_on.

(** A packet of the wire, on a port that is up. *)
Definition wire_packet (w : Work.wqe) : Prop :=
  Work.frcore_port_active state_active max_ports (Work.w_ipprt w) = true /\ Work.w_aging w = false /\ Work.w_software w = false /\
  Work.w_rcv_error w = false /\ Work.w_unused w = Work.FRCORE_WORK_PKT.
Definition mode_port (w : Work.wqe) : Z := if Work.w_ipprt w =? 0 then 0 else 16.

Definition host_bytes_of (w : Work.wqe) : list Z := resp_hdr (Work.w_ipprt w) ++ take (Z.to_nat (Work.w_len w)) (Work.w_packet_ptr w).

(** The components read the switches of the ports from the board. *)
Definition reads_board (b : board H) (c : Work.core S) : Prop :=
  forall p, Work.port_rx_on (Work.comp c) p = negb (rx_on (shared b) p =? 0).

(** What becomes of a packet of the wire: the packet path takes it, or it goes to the host with
    the header of a response in front, if its port receives and the output unit takes it. *)
Definition to_path (b : board H) (w : Work.wqe) (c : Work.core S) : Prop :=
  exists c0, Work.comp c0 = Work.comp c /\ Work.fates c0 = Work.fates c /\ Work.pko c0 = Work.pko c /\
    board_process b w c = ('(rv, c1) ← Work.frcore_dat_work_process w c0; Some (Work.act_on w rv c1)).
Definition to_host (b : board H) (rx : Z) (w : Work.wqe) (c : Work.core S) : Prop :=
  exists c', board_process b w c = Some c' /\ Work.comp c' = Work.comp c /\
    Work.fates c' = Work.fates c ++ [(Work.w_id w,
      if (rx =? 0) || negb (hd 0 (Work.pko c) =? 0) then Work.Freed else Work.Sent (pciport (Work.w_ipprt w)) (host_bytes_of w))].

Lemma settings_steer (l : list (Z * setting * Z)) (b : board H) (m : board_modes) :
  calls_ok l -> board_has b m ->
  exists b' : board H, settings_run (sets := sets) octeon_swap_8B_data l b = Some (codes l, b') /\
    forall w c, wire_packet w -> reads_board b' c ->
      if bm_work (settings_of l m) (mode_port w) =? 0 then to_path b' w c else to_host b' (bm_rx (settings_of l m) (Work.w_ipprt w)) w c.
Proof using Hswap Htable Hmax.
  intros Hl Hm. destruct (settings_fold version stack Htable Hmax octeon_swap_8B_data Hswap l [] b m Hl Hm) as (b' & E & Hm' & _). exists b'. split; [exact E|].
  unfold to_path, to_host. intros w c (Hact & Hage & Hsw & Herr & Hu) Hrd. destruct (bh_view b' _ Hm' 0) as [W0 W1 Hr _]. cbn [view m_work m_rx] in *.
  change (work_mode_oct0 (on_core 0 b')) with (work_mode_oct0 (shared b')) in W0. change (work_mode_oct1 (on_core 0 b')) with (work_mode_oct1 (shared b')) in W1.
  assert (forall p, Work.port_rx_on (Work.comp c) p = negb (bm_rx (settings_of l m) p =? 0)) as Hrx by (intros p; rewrite (Hrd p); do 2 f_equal; exact (Hr p)).
  unfold board_process, Work.frcore_process_wqe, Work.frcore_work_process, Work.packet_case. rewrite Hact, Hage, Hsw, Herr, Hu, W0, W1.
  cbn [negb]. change (Work.FRCORE_WORK_PKT =? Work.FRCORE_WORK_PKT) with true. cbv iota. unfold mode_port.
  destruct (Work.w_ipprt w =? 0) eqn:Ep; destruct (bm_work _ _ =? 0); cbn [negb mbind option_bind];
    try (match goal with |- context [Work.frcore_dat_work_process w ?x] =>
      exists x; split_and!; [done|done|done|by destruct (Work.frcore_dat_work_process w x) as [[rv c1]|]] end);
    (eexists; split; [done|]; unfold Work.frcore_forward_packet_to_host, Work.frcore_send_to_pko, Work.next_pko, host_bytes_of;
     cbn [Work.pko Work.FRCORE_STAT_INC Work.FRCORE_STAT_ADD Work.comp]; rewrite Hrx, negb_involutive; destruct (bm_rx _ _ =? 0); cbn [negb orb]; [done|]; by destruct (hd 0 (Work.pko c) =? 0)).
Qed.

(** The settings that leave the mode of a port alone. *)
Definition keeps_mode (port : Z) (s : setting) : Prop := match s with WorkMode p _ => p <> port | _ => True end.

Lemma work_mode_kept port l (m : board_modes) : Forall (fun x => keeps_mode port x.1.2) l -> bm_work (settings_of l m) port = bm_work m port.
Proof.
  intros Hl. revert m. induction Hl as [|[[c s] q] l Hs _ IH]; intros m; [done|]. cbn [settings_of fold_left fst snd] in *. fold (settings_of l (set_on c s m)).
  rewrite IH. unfold set_on. destruct s as [p v|p v|n]; cbn [set_mode bm_work m_work view keeps_mode] in *; [|by destruct (is_port p)|done].
  destruct (is_port p); [|done]. cbn [m_work]. by rewrite fn_lookup_insert_ne.
Qed.

(** C38: What the tool's words decide: once [workmode oct0] or [workmode oct1] was given with
    [FRMODE], the packets of that port go to the packet path; given with [NICMODE] they go to
    the host with the header of a response in front - if the port was enabled and the output
    unit takes them; otherwise they are freed.  Before and after may come any settings, those
    after not of the mode of that port.  (The code and the tool agree that 0 is FRMODE and 1
    is NICMODE; the comments of frc_types.h on the field say the reverse.) *)
Theorem port_settings_steer_packets (l1 l2 : list (Z * setting * Z)) (name : Tool.cstr) (second nic : bool) (core seq : Z) (b : board H) (m : board_modes) :
  let port := if second then 16 else 0 in
  calls_ok l1 -> calls_ok l2 -> 0 <= seq < 2 ^ 32 -> Forall (fun x => keeps_mode port x.1.2) l2 -> board_has b m ->
  exists oct mode (b' : board H),
    frctweak_cmd_set_work_mode [name; Tool.chars (if second then "oct1" else "oct0"); Tool.chars (if nic then "NICMODE" else "FRMODE")] = inr [oct; mode] /\
    let l := l1 ++ (core, WorkMode oct mode, seq) :: l2 in
    settings_run (sets := sets) octeon_swap_8B_data l b = Some (codes l, b') /\
    forall w c, wire_packet w -> mode_port w = port -> reads_board b' c ->
      if nic then to_host b' (bm_rx (settings_of l m) (Work.w_ipprt w)) w c else to_path b' w c.
Proof using Hswap Htable Hmax.
  intros port H1 H2 Hq Hk Hm. set (mode := if nic then 1 else 0). set (l := l1 ++ (core, WorkMode port mode, seq) :: l2).
  assert (calls_ok l) as Hl.
  { apply Forall_app. split; [done|]. apply Forall_cons. split; [|done]. cbn [fst snd setting_ok]. unfold port, mode, byte. destruct second, nic; lia. }
  destruct (settings_steer l b m Hl Hm) as (b' & E & Hs). exists port, mode, b'. split; [unfold port, mode; by destruct second, nic|]. split; [exact E|].
  intros w c Hw Hp Hr. specialize (Hs w c Hw Hr). rewrite Hp in Hs.
  assert (bm_work (settings_of l m) port = mode) as Hmode.
  { unfold l, settings_of. rewrite fold_left_app. cbn [fold_left fst snd]. fold (settings_of l2 (set_on core (WorkMode port mode) (fold_left (fun m x => set_on x.1.1 x.1.2 m) l1 m))).
    rewrite work_mode_kept by done. unfold set_on. cbn [set_mode]. assert (is_port port = true) as -> by (unfold port; by destruct second).
    cbn [m_work bm_work]. by rewrite fn_lookup_insert. }
  rewrite Hmode in Hs. unfold mode in Hs. by destruct nic.
Qed.
End steering.

(** A component that drops every packet; its state is the switches of the ports. *)
Definition drop_all : Work.Handlers (Z -> bool) := {|
  Work.frcore_dat_work_process _ c := Some (Work.FRCORE_ACT_DROP, c);
  Work.frcore_chan_process _ s := Some (Work.FRCORE_ACT_UNFREE, s); Work.frcore_ssn_age_process _ s := Some (Work.FRCORE_ACT_UNFREE, s);
  Work.port_rx_on s := s; Work.set_port_rx_on p on s := Some (<[p := negb (u8 on =? 0)]> s); Work.tool_command _ s := Some s |}.
Definition wire_wqe (port : Z) : Work.wqe :=
  Work.Wqe 1 0 false false Work.OTHER_OP 0 Work.FRCORE_WORK_PKT port 2 false Work.UNKNOWN_ERR 1 0 0 false false false false false [] [7; 8].
Definition board_core {H : Type} (b : board H) : Work.core (Z -> bool) := Work.Core (fun p => negb (rx_on (shared b) p =? 0)) (fun _ => 0) [] [].

(** The second port is enabled and set to [NICMODE]. *)
Lemma port_settings_steer_packets_witness : exists sets, table_is 58 (bdd_table (Bus0 := quiet_bus) (Version 1 2 3) (replicate 256 0)) sets /\
  exists b', settings_run (sets := sets) swap_buff [(3, PortEnable 16 1, 2); (2, WorkMode 16 1, 1); (3, DmaBlock 4, 5)] (board_load tt) =
      Some ([FRE_SUCCESS; FRE_SUCCESS; FRE_SUCCESS], b') /\
    exists c', board_process (H0 := drop_all) (fun _ => true) 32 Work.sample_sdk (fun _ => true) (fun p => p) (fun _ => [9]) 0 false false b' (wire_wqe 16) (board_core b') = Some c' /\
      Work.fates c' = [(1, Work.Sent 16 [9; 7; 8])].
Proof.
  destruct (bdd_table_exists (bus := quiet_bus) (Version 1 2 3) (replicate 256 0) 58 (bdd_load tt) ltac:(reflexivity)) as [sets Ht]. exists sets. split; [exact Ht|].
  destruct (port_settings_steer_packets (bus := quiet_bus) (Version 1 2 3) (replicate 256 0) Ht eq_refl swap_buff (fun _ _ _ => eq_refl) (H0 := drop_all)
    (fun _ => true) 32 Work.sample_sdk (fun _ => true) (fun p => p) (fun _ => [9]) 0 false false
    [(3, PortEnable 16 1, 2)] [(3, DmaBlock 4, 5)] [] true true 2 1 (board_load tt) (BoardModes (fun _ => 0) (fun _ => 0) (fun _ => 8))) as (oct & mode & b' & Eo & E & Hs).
  - repeat constructor; unfold byte; simpl; lia.
  - repeat constructor; unfold byte; simpl; lia.
  - lia.
  - repeat constructor.
  - repeat constructor.
  - vm_compute in Eo. injection Eo as <- <-. exists b'. split; [exact E|].
    destruct (Hs (wire_wqe 16) (board_core b')) as (c' & Ep & _ & Ef); [repeat constructor|reflexivity|intros p; reflexivity|]. exists c'. split; [exact Ep|exact Ef].
Defined.

(** ** The read that reads nothing *)

(** The bytes the handler counts. *)
Definition counting (n : nat) : list Z := (fun i => u8 (Z.of_nat i + 1)) <$> seq 0 n.

Lemma counting_S n : counting (Datatypes.S n) = counting n ++ [u8 (Z.of_nat n + 1)].
Proof. unfold counting. by rewrite seq_S, fmap_app. Qed.
Lemma length_counting n : length (counting n) = n.
Proof. unfold counting. by rewrite length_fmap, length_seq. Qed.

Lemma counting_fill stack n : 0 <= n <= Z.of_nat (length stack) ->
  foldM (fun data i => arr_set data i (u8 (i + 1))) (seqZ 0 n) stack = Some (counting (Z.to_nat n) ++ drop (Z.to_nat n) stack).
Proof.
  intros Hn.
  destruct (for_seqZ (fun i data => data = counting (Z.to_nat i) ++ drop (Z.to_nat i) stack) (fun data i => arr_set data i (u8 (i + 1))) n stack)
    as (data & E & ->); [lia|done| |done].
  intros i data Hi ->. destruct (lookup_lt_is_Some_2 stack (Z.to_nat i) ltac:(lia)) as [x Ex]. rewrite (drop_S _ _ _ Ex).
  pose proof (MacStatProps.arr_set_app_here (counting (Z.to_nat i)) (drop (Datatypes.S (Z.to_nat i)) stack) x (u8 (i + 1))) as Ea.
  rewrite length_counting, Z2Nat.id in Ea by lia. eexists. split; [exact Ea|].
  replace (Z.to_nat (i + 1)) with (Datatypes.S (Z.to_nat i)) by lia. rewrite counting_S, <- app_assoc, Z2Nat.id by lia. done.
Qed.

(** [frcore_cmd_dma_data_read] is defined for the sizes of its 256 bytes of stack and for no
    other, though the caller's number is any word and the answer has room for 1024 bytes; and
    what it answers is not memory: it counts from 1, whatever address was asked for. *)
Theorem dma_read_bounds {H : Type} (size addr plen : Z) (stack buf : list Z) (st : bdd H) :
  0 <= size < 2 ^ 32 -> 0 <= addr < 2 ^ 32 -> length stack = 256%nat -> length buf = Z.to_nat FRC_CMD_RESPOND_DATA_SZ ->
  frcore_cmd_dma_data_read stack plen (Some (be_bytes 4 size ++ be_bytes 4 addr)) buf st =
    if size <=? 256 then Some (FRE_SUCCESS, size, counting (Z.to_nat size) ++ drop (Z.to_nat size) buf, st) else None.
Proof.
  intros Hs Had Hst Hb. change (Z.to_nat FRC_CMD_RESPOND_DATA_SZ) with 1024%nat in Hb. unfold frcore_cmd_dma_data_read. cbn [mbind option_bind].
  destruct (pair_fields addr size) as [-> _]; [lia..|]. cbn [mbind option_bind].
  destruct (Z.leb_spec size 256) as [Hle|Hgt].
  - rewrite (wraps_id 32) by lia. rewrite counting_fill by lia. cbn [mbind option_bind].
    rewrite read_bytes_eq by (rewrite ?length_app, ?length_counting, ?length_drop; lia). cbn [mbind option_bind]. rewrite drop_0.
    rewrite take_app_le, take_ge by (rewrite length_counting; lia).
    rewrite write_bytes_eq by (rewrite length_counting; lia). cbn [mbind option_bind take app Nat.add]. rewrite length_counting, wrapu_id by lia. done.
  - destruct (foldM _ _ _) as [data|] eqn:Ef; [|done]. cbn [mbind option_bind].
    assert (length data = 256%nat) as Hd.
    { revert Ef. clear -Hst. rewrite <- Hst. generalize (seqZ 0 (s32 size)). intros l. revert stack Hst. induction l as [|i l IH]; intros stack Hst; cbn [foldM].
      - by intros [= ->].
      - destruct (arr_set stack i _) as [s1|] eqn:Es; [|done]. cbn [mbind option_bind]. intros Ef. apply arr_set_length in Es.
        rewrite <- Es. apply IH; [congruence|done]. }
    unfold read_bytes. rewrite Hd. destruct (Z.leb_spec (0 + size) (Z.of_nat 256)); [lia|]. by rewrite ?andb_false_r.
Qed.

Lemma dma_read_bounds_witness :
  frcore_cmd_dma_data_read (replicate 256 0) 8 (Some (be_bytes 4 3 ++ be_bytes 4 4096)) (replicate 1024 0) (bdd_load tt) =
    Some (FRE_SUCCESS, 3, [1; 2; 3] ++ replicate 1021 0, bdd_load tt) /\
  frcore_cmd_dma_data_read (replicate 256 0) 8 (Some (be_bytes 4 257 ++ be_bytes 4 4096)) (replicate 1024 0) (bdd_load tt) = None.
Proof.
  split; [rewrite (dma_read_bounds 3)|rewrite (dma_read_bounds 257)]; try reflexivity; lia.
Defined.
