(* ===== verification/ToolProps.v ===== *)
(** * What the tool prints, it reads back

    Round trips of the printers and readers of frctweak.c, exactly where they hold, the
    sizes of their buffers, the arguments of the form key=value and the choice of a
    command. *)

From stdpp Require Import list functions.
From Stdlib Require Import Ascii String.
From S2P Require Import Prelude Bytes Cmd Tool.
#[local] Open Scope Z_scope.
#[local] Open Scope list_scope.

(** ** Strings without a character *)

Lemma strchr_none s c : Forall (fun x => x <> c) s -> strchr s c = None.
Proof. induction 1 as [|x s Hx _ IH]; [done|]. cbn [strchr]. replace (x =? c) with false by lia. by rewrite IH. Qed.

Lemma strchr_app s c r : Forall (fun x => x <> c) s -> strchr (s ++ c :: r) c = Some (s, r).
Proof. induction 1 as [|x s Hx _ IH]; cbn [app strchr]; [by rewrite Z.eqb_refl|]. replace (x =? c) with false by lia. by rewrite IH. Qed.

Lemma buf_copy_fits n s : (List.length s < n)%nat -> buf_copy n s = Some s.
Proof. intros Hl. unfold buf_copy. by rewrite (proj2 (Nat.ltb_lt _ _) Hl). Qed.

Definition is_digit_char (c : Z) : Prop := 48 <= c <= 57 \/ 65 <= c <= 70.

Lemma fmt_u_chars base n : 2 <= base <= 16 -> 0 <= n < 2 ^ 64 -> Forall is_digit_char (fmt_u base n).
Proof.
  intros Hb Hn. destruct (digits_spec 64 base n) as (_ & _ & Hd); [lia| |lia|].
  { split; [lia|]. apply Z.lt_le_trans with (2 ^ 64); [lia|]. apply Z.pow_le_mono_l. lia. }
  apply Forall_fmap. eapply Forall_impl; [exact Hd|]. intros d Hr. apply digit_char_range. cbn in Hr. lia.
Qed.

Lemma fmt_d_pos n : 0 <= n -> fmt_d n = fmt_u 10 n.
Proof. intros Hn. unfold fmt_d. by replace (n <? 0) with false by lia. Qed.

Lemma length_fmt_u n k : (0 < k)%nat -> 0 <= n < 10 ^ Z.of_nat k -> (List.length (fmt_u 10 n) <= k)%nat.
Proof. intros Hk Hn. unfold fmt_u. rewrite length_fmap. by apply length_digits_le. Qed.

(** ** Plain numbers *)

Lemma not_0x c s : c <> 48 -> strncasecmp0 2 (chars "0x") (c :: s) = false.
Proof.
  intros Hc. unfold strncasecmp0. apply bool_decide_eq_false. intros E. change (tolower <$> take 2 (chars "0x")) with [48; 120] in E. cbn [take fmap list_fmap] in E.
  injection E as E _. unfold tolower in E. destruct (Z.leb_spec 65 c), (Z.leb_spec c 90); cbn [andb] in E; lia.
Qed.

(** No decimal number starts like a hexadecimal one. *)
Lemma decimal_not_0x n r : 0 <= n < 2 ^ 64 -> Forall (fun c => c <> 120 /\ c <> 88) r -> strncasecmp0 2 (chars "0x") (fmt_u 10 n ++ r) = false.
Proof.
  intros Hn Hr. pose proof (fmt_u_chars 10 n ltac:(lia) Hn) as Hc.
  assert (Forall (fun c => c <> 120 /\ c <> 88) (fmt_u 10 n ++ r)) as Hall.
  { apply Forall_app. split; [|done]. eapply Forall_impl; [exact Hc|]. unfold is_digit_char. intros; lia. }
  unfold strncasecmp0. apply bool_decide_eq_false. intros E.
  destruct (fmt_u 10 n ++ r) as [|a [|b s]]; change (tolower <$> take 2 (chars "0x")) with [48; 120] in E; cbn [take fmap list_fmap] in E; [done|done|].
  injection E as _ E. inversion_clear Hall as [|? ? _ Hall']. inversion_clear Hall' as [|? ? Hb _].
  unfold tolower in E. destruct (Z.leb_spec 65 b), (Z.leb_spec b 90); cbn [andb] in E; lia.
Qed.

Lemma parse_u32_fmt n v : 0 <= n < 2 ^ 32 -> parse_u32 (fmt_u 10 n) v = (0, n).
Proof.
  intros Hn. unfold parse_u32. pose proof (decimal_not_0x n [] ltac:(lia) (Forall_nil_2 _)) as E. rewrite app_nil_r in E. rewrite E.
  pose proof (strtoul_fmt n [] ltac:(lia) Logic.I) as Es. rewrite app_nil_r in Es. rewrite Es. cbn [fst]. by rewrite wrapu_id.
Qed.

Lemma parse_u16_fmt n v : 0 <= n < 2 ^ 16 -> parse_u16 (fmt_u 10 n) v = (0, n).
Proof.
  intros Hn. unfold parse_u16. rewrite parse_u32_fmt by lia. cbn [Z.eqb negb]. replace (0xffff <? n) with false by lia. f_equal.
  change 0xffff with (Z.ones 16). rewrite Z.land_ones by lia. apply Z.mod_small. lia.
Qed.

(** ** Words of 32 bits *)

(** A word of 32 bits printed with [%d] or in hexadecimal is read back, negative or not. *)
Theorem u32_print_parse (n v : Z) : 0 <= n < 2 ^ 32 -> parse_u32 (fr_u32_string n) v = (0, n) /\ parse_u32 (u32_string n) v = (0, n).
Proof.
  intros Hn. split.
  - unfold fr_u32_string. destruct (Z.lt_ge_cases n (2 ^ 31)).
    + rewrite wraps_id by (simpl; lia). rewrite fmt_d_pos by lia. by apply parse_u32_fmt.
    + assert (s32 n = n - 2 ^ 32) as Es.
      { unfold wraps, wrapu. rewrite Z.mod_small by lia. by replace (n <? 2 ^ (32 - 1)) with false by lia. }
      rewrite Es. unfold fmt_d. replace (n - 2 ^ 32 <? 0) with true by lia. unfold parse_u32. rewrite not_0x by done.
      pose proof (strtoul_neg (- (n - 2 ^ 32)) [] ltac:(lia) Logic.I) as E. rewrite app_nil_r in E. rewrite E. cbn [fst]. f_equal.
      unfold wrapu. rewrite Z.opp_involutive. replace (n - 2 ^ 32) with ((2 ^ 64 - 2 ^ 32 + n) + (-1) * 2 ^ 64) by lia. rewrite Z.mod_add, (Z.mod_small _ (2 ^ 64)) by lia.
      replace (2 ^ 64 - 2 ^ 32 + n) with (n + (2 ^ 32 - 1) * 2 ^ 32) by lia. rewrite Z.mod_add by lia. apply Z.mod_small. lia.
  - unfold parse_u32, u32_string. change (strncasecmp0 2 (chars "0x") (chars "0x" ++ fmt_X 8 n)) with true. cbv iota.
    destruct (take_pad 8 n [] ltac:(lia) Logic.I) as (ds & Et & Hne & Ev). rewrite app_nil_r in Et.
    change (chars "0x" ++ fmt_X 8 n) with (48 :: 120 :: fmt_X 8 n). unfold strtoul. rewrite sign_plain by lia. change (has_0x (48 :: 120 :: fmt_X 8 n)) with true. change (drop 2 (48 :: 120 :: fmt_X 8 n)) with (fmt_X 8 n).
    rewrite Z.eqb_refl. cbn [andb]. destruct (fmt_X 8 n) as [|c s] eqn:EX; [cbn in Et; by injection Et as <-|].
    assert (is_digit 16 c = true) as -> by (cbn [take_digits] in Et; destruct (is_digit 16 c); [done|by injection Et as <- _]).
    rewrite Et. destruct ds as [|d ds]; [done|]. rewrite Ev. replace (2 ^ 64 <=? n) with false by lia. cbn [fst]. by rewrite wrapu_id.
Qed.

Lemma u32_print_parse_witness : parse_u32 (fr_u32_string 4294967295) 0 = (0, 4294967295) /\ parse_u32 (u32_string 4294967295) 0 = (0, 4294967295).
Proof. apply (u32_print_parse 4294967295 0). lia. Defined.

(** ** Ports *)

Lemma digit_start_ne s c : Forall is_digit_char s -> s <> [] -> ~ is_digit_char c -> strcmp0 [c] s = false.
Proof. intros Hs Hne Hc. apply bool_decide_eq_false. intros <-. by inversion_clear Hs. Qed.

Lemma fmt_u_ne n : 0 <= n < 2 ^ 64 -> fmt_u 10 n <> [].
Proof. intros Hn. destruct (fmt_u_head 10 n) as (c & s & -> & _); [lia|done|done]. Qed.

Lemma port_string_parse p v i : 0 <= p < 2 ^ 16 -> parse_u16_inc (fr_port_string p) v i = Some (0, p, 1).
Proof.
  intros Hp. unfold fr_port_string. destruct (Z.eqb_spec p 0) as [->|Hne]; [done|]. rewrite fmt_d_pos by lia.
  pose proof (fmt_u_chars 10 p ltac:(lia) ltac:(lia)) as Hc. unfold parse_u16_inc. change (chars "$") with [36].
  rewrite (digit_start_ne _ 36 Hc) by (try (apply fmt_u_ne; lia); unfold is_digit_char; lia). unfold parse_inc.
  rewrite strchr_none by (eapply Forall_impl; [exact Hc|]; unfold is_digit_char, plus; intros; lia).
  pose proof (length_fmt_u p 5 ltac:(lia) ltac:(simpl; lia)). rewrite buf_copy_fits by lia. cbn [mbind option_bind]. by rewrite parse_u16_fmt.
Qed.

(** ** Addresses *)

(** One number and the character behind it. *)
Lemma sscanf_step conv c n s v r : conv (s ++ c :: r) = Some (Some (v, c :: r)) -> sscanf conv c (S n) (s ++ c :: r) = vs ← sscanf conv c n r; Some (v :: vs).
Proof. intros E. cbn [sscanf]. rewrite E. cbn [mbind option_bind]. by rewrite Z.eqb_refl. Qed.
Lemma sscanf_last conv c n s v : conv s = Some (Some (v, [])) -> sscanf conv c (S n) s = Some [v].
Proof. intros E. cbn [sscanf]. by rewrite E. Qed.

Lemma scan_d_byte n r : 0 <= n < 256 -> stops 10 r -> scan_d (fmt_u 10 n ++ r) = Some (Some (n, r)).
Proof. intros Hn Hr. apply scan_fmt; [lia|done|done|lia]. Qed.

(** Numbers as their bytes. *)
Definition byte8 (v i : Z) : Z := (v / 2 ^ (8 * i)) `mod` 256.

Lemma byte_of_eq v i : 0 <= i -> byte_of v i = byte8 v i.
Proof. intros Hi. unfold byte_of, byte8. change 0xff with (Z.ones 8). rewrite Z.land_ones, Z.shiftr_div_pow2 by lia. done. Qed.

Lemma byte8_range v i : 0 <= byte8 v i < 256.
Proof. by apply Z.mod_pos_bound. Qed.

Lemma bytes_step v i k : 0 <= i -> 0 <= k -> (v / 2 ^ (8 * i)) `mod` 2 ^ (8 * (k + 1)) = byte8 v i + 256 * ((v / 2 ^ (8 * (i + 1))) `mod` 2 ^ (8 * k)).
Proof.
  intros Hi Hk. replace (8 * (k + 1)) with (8 + 8 * k) by lia. rewrite Z.pow_add_r by lia. change (2 ^ 8) with 256.
  rewrite Z.rem_mul_r by lia. unfold byte8. rewrite Z.div_div by lia. replace (2 ^ (8 * i) * 256) with (2 ^ (8 * (i + 1))); [done|].
  change 256 with (2 ^ 8). rewrite <- Z.pow_add_r by lia. f_equal. lia.
Qed.

Lemma bytes_sum v : v `mod` 2 ^ 48 =
  byte8 v 0 + 2 ^ 8 * byte8 v 1 + 2 ^ 16 * byte8 v 2 + 2 ^ 24 * byte8 v 3 + 2 ^ 32 * byte8 v 4 + 2 ^ 40 * byte8 v 5.
Proof.
  assert ((v / 2 ^ 0) `mod` 2 ^ 48 = byte8 v 0 + 256 * ((v / 2 ^ 8) `mod` 2 ^ 40)) as H0 by exact (bytes_step v 0 5 ltac:(lia) ltac:(lia)).
  assert ((v / 2 ^ 8) `mod` 2 ^ 40 = byte8 v 1 + 256 * ((v / 2 ^ 16) `mod` 2 ^ 32)) as H1 by exact (bytes_step v 1 4 ltac:(lia) ltac:(lia)).
  assert ((v / 2 ^ 16) `mod` 2 ^ 32 = byte8 v 2 + 256 * ((v / 2 ^ 24) `mod` 2 ^ 24)) as H2 by exact (bytes_step v 2 3 ltac:(lia) ltac:(lia)).
  assert ((v / 2 ^ 24) `mod` 2 ^ 24 = byte8 v 3 + 256 * ((v / 2 ^ 32) `mod` 2 ^ 16)) as H3 by exact (bytes_step v 3 2 ltac:(lia) ltac:(lia)).
  assert ((v / 2 ^ 32) `mod` 2 ^ 16 = byte8 v 4 + 256 * ((v / 2 ^ 40) `mod` 2 ^ 8)) as H4 by exact (bytes_step v 4 1 ltac:(lia) ltac:(lia)).
  assert ((v / 2 ^ 40) `mod` 2 ^ 8 = byte8 v 5) as H5 by done.
  rewrite Z.pow_0_r, Z.div_1_r in H0. rewrite H0, H1, H2, H3, H4, H5. clear. lia.
Qed.

Lemma bytes_sum4 v : 0 <= v < 2 ^ 32 -> v = byte8 v 0 + 2 ^ 8 * byte8 v 1 + 2 ^ 16 * byte8 v 2 + 2 ^ 24 * byte8 v 3.
Proof.
  intros Hv. pose proof (bytes_sum v) as E. rewrite Z.mod_small in E by lia.
  assert (byte8 v 4 = 0) as E4 by (unfold byte8; by rewrite Z.div_small by (simpl; lia)). assert (byte8 v 5 = 0) as E5 by (unfold byte8; by rewrite Z.div_small by (simpl; lia)). lia.
Qed.

Lemma lor_bytes a b s : 0 <= s -> 0 <= a < 2 ^ s -> 0 <= b -> Z.lor a (Z.shiftl b s) = a + 2 ^ s * b.
Proof. intros Hs Ha Hb. rewrite Z.lor_comm, lor_shift by lia. lia. Qed.

Lemma fmt_d_byte v i : 0 <= i -> fmt_d (Z.land (Z.shiftr v (8 * i)) 0xff) = fmt_u 10 (byte8 v i).
Proof. intros Hi. change (Z.land (Z.shiftr v (8 * i)) 0xff) with (byte_of v i). rewrite byte_of_eq by done. apply fmt_d_pos, byte8_range. Qed.

Lemma ipv4_string_eq ip : ip <> 0 -> fr_ipv4_string ip =
  fmt_u 10 (byte8 ip 3) ++ 46 :: fmt_u 10 (byte8 ip 2) ++ 46 :: fmt_u 10 (byte8 ip 1) ++ 46 :: fmt_u 10 (byte8 ip 0).
Proof.
  intros Hne. unfold fr_ipv4_string. replace (ip =? 0) with false by lia.
  assert (fmt_d (Z.land (Z.shiftr ip 24) 0xff) = fmt_u 10 (byte8 ip 3)) as -> by exact (fmt_d_byte ip 3 ltac:(lia)).
  assert (fmt_d (Z.land (Z.shiftr ip 16) 0xff) = fmt_u 10 (byte8 ip 2)) as -> by exact (fmt_d_byte ip 2 ltac:(lia)).
  assert (fmt_d (Z.land (Z.shiftr ip 8) 0xff) = fmt_u 10 (byte8 ip 1)) as -> by exact (fmt_d_byte ip 1 ltac:(lia)).
  by assert (fmt_d (Z.land ip 0xff) = fmt_u 10 (byte8 ip 0)) as -> by exact (fmt_d_byte ip 0 ltac:(lia)).
Qed.

Lemma fmt_byte_chars v i : Forall is_digit_char (fmt_u 10 (byte8 v i)) /\ (List.length (fmt_u 10 (byte8 v i)) <= 3)%nat.
Proof. pose proof (byte8_range v i). split; [apply fmt_u_chars; lia|apply length_fmt_u; simpl; lia]. Qed.

Lemma parse_ipv4_string ip v : 0 <= ip < 2 ^ 32 -> ip <> 0 -> parse_ipv4 (fr_ipv4_string ip) v = Some (0, ip).
Proof.
  intros Hip Hne. rewrite ipv4_string_eq by done. unfold parse_ipv4.
  pose proof (fmt_byte_chars ip 3) as [_ ?]. pose proof (fmt_byte_chars ip 2) as [_ ?]. pose proof (fmt_byte_chars ip 1) as [_ ?]. pose proof (fmt_byte_chars ip 0) as [_ ?].
  rewrite buf_copy_fits by (rewrite !length_app; cbn [List.length]; rewrite !length_app; cbn [List.length]; rewrite !length_app; cbn [List.length]; lia). cbn [mbind option_bind].
  rewrite (sscanf_step _ _ _ _ (byte8 ip 3)), (sscanf_step _ _ _ _ (byte8 ip 2)), (sscanf_step _ _ _ _ (byte8 ip 1)) by (apply scan_d_byte; [apply byte8_range|done]).
  rewrite (sscanf_last _ _ _ _ (byte8 ip 0)) by (rewrite <- (app_nil_r (fmt_u 10 _)); apply scan_d_byte; [apply byte8_range|done]).
  pose proof (byte8_range ip 3). pose proof (byte8_range ip 2). pose proof (byte8_range ip 1). pose proof (byte8_range ip 0).
  cbn [mbind option_bind fmap list_fmap]. rewrite !wrapu_id by (rewrite ?Z.shiftl_mul_pow2 by lia; lia). cbn [existsb].
  replace (255 <? byte8 ip 3) with false by lia. replace (255 <? byte8 ip 2) with false by lia. replace (255 <? byte8 ip 1) with false by lia. replace (255 <? byte8 ip 0) with false by lia.
  cbn [orb]. do 2 f_equal. rewrite (lor_bytes _ (byte8 ip 1) 8), (lor_bytes _ (byte8 ip 2) 16), (lor_bytes _ (byte8 ip 3) 24) by lia. symmetry. by apply bytes_sum4.
Qed.

(** ** What a rule's columns print, its arguments read *)

Lemma ipv4_string_parse ip v i : 0 <= ip < 2 ^ 32 -> parse_ipv4_inc (fr_ipv4_string ip) v i = Some (0, ip, 1).
Proof.
  intros Hip. destruct (Z.eq_dec ip 0) as [->|Hne]; [done|]. unfold parse_ipv4_inc.
  pose proof (parse_ipv4_string ip v Hip Hne) as E. rewrite ipv4_string_eq in * by done.
  pose proof (fmt_byte_chars ip 3) as [C3 L3]. pose proof (fmt_byte_chars ip 2) as [C2 L2]. pose proof (fmt_byte_chars ip 1) as [C1 L1]. pose proof (fmt_byte_chars ip 0) as [C0 L0].
  set (s := fmt_u 10 (byte8 ip 3) ++ _) in *.
  assert (strcmp0 (chars "$") s = false) as -> .
  { apply bool_decide_eq_false. intros Es. apply (f_equal head) in Es.
    destruct (fmt_u_head 10 (byte8 ip 3)) as (c & r & Ec & Hc); [lia|pose proof (byte8_range ip 3); lia|].
    change (head (chars "$")) with (Some 36) in Es. unfold s in Es. rewrite Ec in Es. cbn [head app] in Es. assert (36 = c) by congruence. lia. }
  unfold parse_inc. rewrite strchr_none.
  - rewrite buf_copy_fits by (unfold s; rewrite !length_app; cbn [List.length]; rewrite !length_app; cbn [List.length]; rewrite !length_app; cbn [List.length]; lia).
    cbn [mbind option_bind]. by rewrite E.
  - assert (forall t, Forall is_digit_char t -> Forall (fun x => x <> plus) t) as Hd by (intros t Ht; eapply Forall_impl; [exact Ht|]; unfold is_digit_char, plus; intros; lia).
    unfold s. repeat (apply Forall_app; split; [by apply Hd|]; constructor; [done|]). by apply Hd.
Qed.

Lemma proto_string_parse proto v : (proto = 0 \/ proto = 6 \/ proto = 17) -> parse_protocal (fr_proto_string proto) v = (0, proto).
Proof. by intros [-> | [-> | ->]]. Qed.

(** ** MAC addresses *)

Lemma digits_not_x s r : Forall is_digit_char s -> s <> [] -> Forall (fun c => c <> 120 /\ c <> 88) r -> has_0x (s ++ r) = false.
Proof.
  intros Hs Hne Hr. destruct s as [|a s]; [done|].
  assert (Forall (fun c => c <> 120 /\ c <> 88) (s ++ r)) as Hall.
  { apply Forall_app. split; [|done]. inversion_clear Hs as [|? ? _ Hs']. eapply Forall_impl; [exact Hs'|]. unfold is_digit_char. intros; lia. }
  unfold has_0x, strncasecmp0. apply bool_decide_eq_false. intros E. change (tolower <$> take 2 (chars "0x")) with [48; 120] in E. cbn [app] in E.
  destruct (s ++ r) as [|b t]; cbn [take fmap list_fmap] in E; [done|]. injection E as _ E. inversion_clear Hall as [|? ? Hb _].
  unfold tolower in E. destruct (Z.leb_spec 65 b), (Z.leb_spec b 90); cbn [andb] in E; lia.
Qed.

Lemma fmt_X_chars w n : 0 <= n < 2 ^ 64 -> Forall is_digit_char (fmt_X w n).
Proof.
  intros Hn. unfold fmt_X, pad0. apply Forall_app. split; [|apply fmt_u_chars; lia]. apply Forall_replicate. unfold is_digit_char. lia.
Qed.

Lemma scan_hX_fmt w n r : 0 <= n < 2 ^ 64 -> stops 16 r -> Forall (fun c => c <> 120 /\ c <> 88) r ->
  scan_hX (fmt_X w n ++ r) = if n <? 2 ^ 16 then Some (Some (n, r)) else None.
Proof.
  intros Hn Hr Hx. destruct (take_pad w n r Hn Hr) as (ds & Et & Hne & Ev). pose proof (fmt_X_chars w n Hn) as Hc.
  assert (fmt_X w n <> []) as Hs.
  { unfold fmt_X, pad0. destruct (fmt_u_head 16 n) as (c & s & -> & _); [lia|done|]. by destruct (replicate _ _). }
  unfold scan_hX, scan. pose proof (digits_not_x _ r Hc Hs Hx) as E0. destruct (fmt_X w n) as [|c s] eqn:EX; [done|]. cbn [app] in *.
  rewrite sign_plain by (inversion_clear Hc as [|? ? Hc' _]; unfold is_digit_char in Hc'; lia). rewrite E0, andb_false_r, Et. destruct ds as [|d ds]; [done|].
  by rewrite Ev.
Qed.

(** The byte as [%.2X] prints it. *)
Definition char_value (c : Z) : Z := if c <? 128 then c else c + (2 ^ 32 - 256).
Lemma scan_char_X c r : 0 <= c < 256 -> stops 16 r -> Forall (fun c => c <> 120 /\ c <> 88) r ->
  scan_hX (char_X c ++ r) = if c <? 128 then Some (Some (c, r)) else None.
Proof.
  intros Hc Hr Hx. change (char_X c) with (fmt_X 2 (char_value c)). rewrite scan_hX_fmt by (unfold char_value; destruct (Z.ltb_spec c 128); (done || lia)).
  unfold char_value. destruct (Z.ltb_spec c 128); [by replace (c <? 2 ^ 16) with true by lia|]. by replace (c + (2 ^ 32 - 256) <? 2 ^ 16) with false by lia.
Qed.

Lemma char_X_chars c : 0 <= c < 256 -> Forall (fun x => x <> 120 /\ x <> 88) (char_X c).
Proof.
  intros Hc. change (char_X c) with (fmt_X 2 (char_value c)). eapply Forall_impl; [apply fmt_X_chars; unfold char_value; destruct (Z.ltb_spec c 128); lia|].
  unfold is_digit_char. intros; lia.
Qed.

(** Bytes with colons between them. *)
Fixpoint colons (l : list Z) : cstr := match l with [] => [] | [c] => char_X c | c :: l => char_X c ++ 58 :: colons l end.

Lemma colons_chars l : Forall (fun c => 0 <= c < 256) l -> Forall (fun x => x <> 120 /\ x <> 88) (colons l).
Proof.
  induction 1 as [|c l Hc Hl IH]; [constructor|]. destruct l as [|d l]; [by apply char_X_chars|]. cbn [colons].
  apply Forall_app. split; [by apply char_X_chars|]. by constructor.
Qed.

Lemma scan_colons l : Forall (fun c => 0 <= c < 256) l ->
  sscanf scan_hX 58 (List.length l) (colons l) = if forallb (fun c => c <? 128) l then Some l else None.
Proof.
  induction 1 as [|c l Hc Hl IH]; [done|]. destruct l as [|d l].
  - cbn [colons List.length forallb sscanf]. rewrite <- (app_nil_r (char_X c)), scan_char_X by done. by destruct (c <? 128).
  - change (colons (c :: d :: l)) with (char_X c ++ 58 :: colons (d :: l)). change (List.length (c :: d :: l)) with (S (List.length (d :: l))).
    change (forallb (fun c => c <? 128) (c :: d :: l)) with ((c <? 128) && forallb (fun c => c <? 128) (d :: l)). cbn [sscanf].
    rewrite scan_char_X; [|done|done|constructor; [lia|by apply colons_chars]]. destruct (c <? 128); [|done]. cbn [mbind option_bind]. rewrite Z.eqb_refl, IH.
    by destruct (forallb _ _).
Qed.

Lemma bytes3 a b c : 0 <= a < 256 -> 0 <= b < 256 -> 0 <= c < 256 ->
  Z.lor (Z.lor (Z.land a 0xff) (Z.shiftl (Z.land b 0xff) 8)) (Z.shiftl (Z.land c 0xff) 16) = a + 2 ^ 8 * b + 2 ^ 16 * c.
Proof.
  intros Ha Hb Hc. change 0xff with (Z.ones 8). rewrite !Z.land_ones by lia. rewrite !Z.mod_small by (simpl; lia).
  rewrite (lor_bytes a b 8), (lor_bytes _ c 16) by lia. done.
Qed.

(** An address is read back as it is printed when no byte has its top bit set; otherwise a
    byte is printed with eight digits, which the reader has no room for. *)
Theorem mac_print_parse (val v : Z) : 0 <= val ->
  parse_mac64 (mac_string val) v = if forallb (fun i => byte_of val i <? 128) [0; 1; 2; 3; 4; 5] then Some (0, val `mod` 2 ^ 48) else None.
Proof.
  intros Hv. set (l := byte_of val <$> [0; 1; 2; 3; 4; 5]).
  assert (Forall (fun c => 0 <= c < 256) l) as Hl.
  { apply Forall_fmap. repeat constructor; cbn beta; rewrite byte_of_eq by lia; apply byte8_range. }
  unfold parse_mac64. change (mac_string val) with (colons l). change 6%nat with (List.length l). rewrite scan_colons by done.
  assert (forallb (fun c => c <? 128) l = forallb (fun i => byte_of val i <? 128) [0; 1; 2; 3; 4; 5]) as -> by done.
  destruct (forallb _ _); [|done]. cbn [mbind option_bind]. unfold l. cbn [fmap list_fmap]. rewrite !byte_of_eq by lia.
  pose proof (byte8_range val 0). pose proof (byte8_range val 1). pose proof (byte8_range val 2).
  pose proof (byte8_range val 3). pose proof (byte8_range val 4). pose proof (byte8_range val 5).
  rewrite !bytes3 by done. do 2 f_equal. rewrite Z.shiftl_mul_pow2, wrapu_id by lia. rewrite Z.lor_comm, <- Z.shiftl_mul_pow2 by lia.
  rewrite lor_bytes by lia. change 0xffffffffffff with (Z.ones 48). rewrite Z.land_ones by lia. rewrite (bytes_sum val), Z.mod_small by lia. lia.
Qed.

Lemma mac_print_parse_witness : parse_mac64 (mac_string 0x0504030201) 0 = Some (0, 0x0504030201) /\ parse_mac64 (mac_string 0x80) 0 = None.
Proof. split; [rewrite (mac_print_parse 0x0504030201 0)|rewrite (mac_print_parse 0x80 0)]; (lia || reflexivity). Defined.

(** ** The sizes of the buffers *)

(** A value with an increment fits its buffer exactly when there are fewer than [sz]
    characters before the plus; ten digits of a word of 32 bits do not. *)
Theorem u32_inc_bounds (str : cstr) (value inc : Z) : str <> chars "$" ->
  is_Some (parse_u32_inc str value inc) <-> (List.length (match strchr str plus with Some (before, _) => before | None => str end) < 10)%nat.
Proof.
  intros Hne. unfold parse_u32_inc. assert (strcmp0 (chars "$") str = false) as -> by (apply bool_decide_eq_false; congruence). unfold parse_inc.
  destruct (strchr str plus) as [[before behind]|]; unfold parse_u32; cbn [Z.eqb negb mbind option_bind]; unfold buf_copy;
    match goal with |- context [(?n <? 10)%nat] => destruct (Nat.ltb_spec n 10) end; cbn [mbind option_bind]; (split; [intros [? Hs]; first [discriminate Hs|lia]|intros; first [lia|by eexists]]).
Qed.

(** The largest word overruns the buffer. *)
Lemma u32_inc_bounds_witness : ~ is_Some (parse_u32_inc (chars "4294967295+1") 0 0) /\ is_Some (parse_u32_inc (chars "429496729+1") 0 0).
Proof.
  split; [intros Hs; apply (u32_inc_bounds (chars "4294967295+1")) in Hs; [vm_compute in Hs; lia|discriminate]|].
  apply (u32_inc_bounds (chars "429496729+1")); [discriminate|vm_compute; lia].
Defined.

(** ** Arguments *)

(** What the argument [a] sets, through the first entry with its key. *)
Definition sets_var (p : arg_parser_t) (a : cstr) (x : Z * Z) : Prop :=
  exists k vp e, strchr a equals_sign = Some (k, vp) /\ vp <> [] /\ (List.length k < 32)%nat /\ find_entry p k = Some e /\
    e_var e = x.1 /\ forall old, e_func e vp old = Some (FRE_SUCCESS, x.2).

Definition last_set (l : list (Z * Z)) (x : Z) : option Z := last (omap (fun y : Z * Z => if y.1 =? x then Some y.2 else None) l).

Lemma last_set_cons y l x : last_set (y :: l) x = match last_set l x with Some v => Some v | None => if y.1 =? x then Some y.2 else None end.
Proof.
  unfold last_set. cbn [omap list_omap]. destruct (y.1 =? x); [|by destruct (last _)]. rewrite last_cons. by destruct (last _).
Qed.

Lemma parsing_sets p a x argv vars : p <> [] -> sets_var p a x -> frctweak_arg_parsing p (a :: argv) vars = frctweak_arg_parsing p argv (<[x.1 := x.2]> vars).
Proof.
  intros Hp (k & vp & e & Ec & Hv & Hk & Ef & Ex & Er). cbn [frctweak_arg_parsing]. rewrite Ec.
  replace (Z.of_nat (List.length vp) <=? 0) with false by (destruct vp; [done|symmetry; apply Z.leb_gt; rewrite length_cons; lia]).
  unfold ARG_PARSER_KEY_MAX. replace (32 <? Z.of_nat (List.length k)) with false by lia. rewrite buf_copy_fits by lia. cbn [mbind option_bind].
  unfold frctweak_arg_parser_entry_lookup. destruct p; [done|]. rewrite Ef. cbn [mbind option_bind]. rewrite Er. cbn [mbind option_bind]. by rewrite Ex.
Qed.

(** After arguments that all set something, each variable has the last value set for it, and
    the others are as they were. *)
Theorem arg_last_wins (p : arg_parser_t) (argv : list cstr) (l : list (Z * Z)) (vars : Z -> Z) : p <> [] -> Forall2 (sets_var p) argv l ->
  exists vars', frctweak_arg_parsing p argv vars = Some (FRE_SUCCESS, vars') /\ forall x, vars' x = default (vars x) (last_set l x).
Proof.
  intros Hp H. revert vars. induction H as [|a y argv l Hy _ IH]; intros vars; [by exists vars|].
  rewrite (parsing_sets p a y argv vars Hp Hy). destruct (IH (<[y.1 := y.2]> vars)) as (vars' & E & Hx). exists vars'. split; [exact E|].
  intros x. rewrite Hx, last_set_cons. destruct (last_set l x); [done|]. cbn [default from_option]. destruct (Z.eqb_spec y.1 x) as [->|].
  - by rewrite fn_lookup_insert.
  - by rewrite fn_lookup_insert_ne.
Qed.

(** The entries of [frctweak ipc misc]. *)
Definition u8_reader : reader := fun s v => Some (parse_u8 s v).
Definition misc_parser : arg_parser_t := [ArgEntry (chars "smac_check") u8_reader 0; ArgEntry (chars "pktid_check") u8_reader 1].

Lemma arg_last_wins_witness : exists vars',
  frctweak_arg_parsing misc_parser [chars "smac_check=1"; chars "PKTID_CHECK=0x10"; chars "smac_check=7"] (fun _ => 3) = Some (FRE_SUCCESS, vars') /\
  forall x, vars' x = default 3 (last_set [(0, 1); (1, 16); (0, 7)] x).
Proof.
  apply (arg_last_wins misc_parser _ [(0, 1); (1, 16); (0, 7)] (fun _ => 3)); [discriminate|].
  repeat constructor; do 3 eexists; (split; [reflexivity|]); (split; [discriminate|]); (split; [vm_compute; lia|]); (split; [reflexivity|]); (split; [reflexivity|]); intros; reflexivity.
Defined.

(** A key of exactly 32 characters leaves no zero behind it. *)
Theorem arg_key_bounds (p : arg_parser_t) (k v : cstr) (vars : Z -> Z) : p <> [] -> v <> [] -> Forall (fun c => c <> equals_sign) k ->
  (forall e, e ∈ p -> forall s old, is_Some (e_func e s old)) ->
  is_Some (frctweak_arg_parsing p [k ++ equals_sign :: v] vars) <-> List.length k <> 32%nat.
Proof.
  intros Hp Hv Hk He. cbn [frctweak_arg_parsing]. rewrite strchr_app by done.
  replace (Z.of_nat (List.length v) <=? 0) with false by (destruct v; [done|symmetry; apply Z.leb_gt; rewrite length_cons; lia]).
  unfold ARG_PARSER_KEY_MAX, buf_copy. change (Z.to_nat 32) with 32%nat. destruct (Z.ltb_spec 32 (Z.of_nat (List.length k))) as [|Hle]; [split; [lia|by eexists]|].
  destruct (Nat.ltb_spec (List.length k) 32) as [Hlt|Hge]; cbn [mbind option_bind]; [|split; [by intros [? ?]|lia]].
  split; [lia|intros _]. unfold frctweak_arg_parser_entry_lookup. destruct p as [|e0 p]; [done|]. cbn [mbind option_bind].
  destruct (find_entry (e0 :: p) k) as [e|] eqn:Ef; [|by eexists].
  assert (e ∈ e0 :: p) as Hin.
  { clear -Ef. revert Ef. generalize (e0 :: p). intros q. induction q as [|x q IH]; [done|]. cbn [find_entry]. destruct (strcasecmp0 _ _); [intros [= ->]; by left|intros; right; by apply IH]. }
  destruct (He e Hin v (vars (e_var e))) as [[rv x] ->]. cbn [mbind option_bind]. by destruct (negb _); eexists.
Qed.

Lemma arg_key_bounds_witness :
  is_Some (frctweak_arg_parsing misc_parser [replicate 33 97 ++ equals_sign :: chars "1"] (fun _ => 0)) /\
  ~ is_Some (frctweak_arg_parsing misc_parser [replicate 32 97 ++ equals_sign :: chars "1"] (fun _ => 0)).
Proof.
  assert (forall e, e ∈ misc_parser -> forall s old, is_Some (e_func e s old)) as He.
  { intros e He s old. unfold misc_parser in He. repeat (apply elem_of_cons in He as [->|He]; [by eexists|]). by apply not_elem_of_nil in He. }
  split; [|intros Hs]; [apply (arg_key_bounds misc_parser (replicate 33 97) (chars "1"))|apply (arg_key_bounds misc_parser (replicate 32 97) (chars "1")) in Hs];
    try exact He; try discriminate; try (apply Forall_replicate; unfold equals_sign; lia); rewrite ?length_replicate; try lia. by rewrite length_replicate in Hs.
Defined.

(** ** Commands *)

Section commands.
Context {W : Type}.
Implicit Types (c : frctweak_cmd_t W) (w : W).

(** Down the tree by names. *)
Fixpoint walk c (names : list cstr) : option (frctweak_cmd_t W) :=
  match names with [] => Some c | n :: names => c ← find_cmd (cmd_head c) n; walk c names end.

Lemma find_cmd_name (l : list (frctweak_cmd_t W)) n c : find_cmd l n = Some c -> cmd_name c = n.
Proof. induction l as [|x l IH]; [done|]. cbn [find_cmd]. destruct (strcmp0 _ _) eqn:E; [intros [= ->]; by apply bool_decide_eq_true in E|done]. Qed.

Lemma exec_child program path c a b rest w c1 : is_help a = false -> find_cmd (cmd_head c) b = Some c1 ->
  frctweak_cmd_exec program path c (a :: b :: rest) w = frctweak_cmd_exec program (cmd_name c :: path) c1 (b :: rest) w.
Proof. intros Ha Hb. cbn [frctweak_cmd_exec]. by rewrite Ha, Hb. Qed.

Lemma exec_walk program path c a0 names args w c' : is_help a0 = false -> Forall (fun n => is_help n = false) names -> walk c names = Some c' ->
  exists path', frctweak_cmd_exec program path c (a0 :: names ++ args) w = frctweak_cmd_exec program path' c' (default a0 (last names) :: args) w.
Proof.
  intros H0 Hn. revert path c a0 H0. induction Hn as [|n names Hn Hns IH]; intros path c a0 H0 Hw; [exists path; by injection Hw as ->|].
  cbn [walk] in Hw. destruct (find_cmd (cmd_head c) n) as [c1|] eqn:Ef; [|done]. cbn [mbind option_bind] in Hw.
  destruct (IH (cmd_name c :: path) c1 n Hn Hw) as [path' E]. exists path'. rewrite last_cons. cbn [app].
  rewrite (exec_child _ _ _ _ _ _ _ _ H0 Ef), E. by destruct (last names).
Qed.

(** A command line names a path of the tree: the function of the last command of the path runs
    on its own name and the words behind it; whatever code it returns, the tool's is 0 -
    except for [FRE_PARAM], which prints the usage. *)
Theorem exec_runs_command (program : cstr) path c a0 names args w c' fn :
  is_help a0 = false -> Forall (fun n => is_help n = false) names -> walk c names = Some c' -> cmd_fn c' = Some fn ->
  match args with b :: _ => find_cmd (cmd_head c') b = None | [] => True end ->
  match fn (default a0 (last names) :: args) w with
  | None => frctweak_cmd_exec program path c (a0 :: names ++ args) w = None
  | Some (rv, w') =>
    if rv =? FRE_PARAM then exists path', frctweak_cmd_exec program path c (a0 :: names ++ args) w =
      '(rv, _) ← frctweak_cmd_usage program path' (default a0 (last names) :: args); Some (rv, w')
    else frctweak_cmd_exec program path c (a0 :: names ++ args) w = Some (0, w')
  end.
Proof.
  intros H0 Hn Hw Hf Ha. destruct (exec_walk program path c a0 names args w c' H0 Hn Hw) as [path' ->].
  assert (is_help (default a0 (last names)) = false) as Hh.
  { destruct (last names) as [n|] eqn:El; [|exact H0]. apply last_Some in El as [l' ->]. apply Forall_app in Hn as [_ Hn]. rewrite Forall_singleton in Hn. exact Hn. }
  cbn [frctweak_cmd_exec]. rewrite Hh. assert (match args with b :: _ => find_cmd (cmd_head c') b | [] => None end = None) as -> by (by destruct args). rewrite Hf.
  destruct (fn _ w) as [[rv w']|]; [|done]. cbn [mbind option_bind]. destruct (rv =? FRE_PARAM); [by exists (cmd_name c' :: path')|done].
Qed.
End commands.

(** A tree with the command [rule], whose function fails. *)
Definition fail_fn : frctweak_fn_t (list cstr) := fun argv w => Some (FRE_FAIL, w ++ argv).
Definition rule_node : frctweak_cmd_t (list cstr) := FrctweakCmd (chars "rule") (Some fail_fn) [].
Definition small_tree : frctweak_cmd_t (list cstr) := FrctweakCmd (chars "./frctweak") None [FrctweakCmd (chars "stat") None []; rule_node].

Lemma exec_runs_command_witness :
  frctweak_cmd_exec (chars "./frctweak") [] small_tree [chars "./frctweak"; chars "rule"; chars "update"] [] = Some (0, [chars "rule"; chars "update"]).
Proof.
  apply (exec_runs_command (chars "./frctweak") [] small_tree (chars "./frctweak") [chars "rule"] [chars "update"] [] rule_node fail_fn); try reflexivity.
  repeat constructor.
Defined.
