(* ===== verification/ToolRule.v ===== *)
(** * The command [rule] of the tool: src/code/frctweak/frctweak_rule.c

    From the words of a command line to the calls of the library, and from the answers to
    what is printed.  The library is a function of a call and a world; [printed] collects
    the lines, each as its columns.  Variables that are read before they are set hold what
    the stack held ([junk]); [rv], whose address nobody takes, has no value then. *)

From stdpp Require Import list gmap functions.
From Stdlib Require Import Ascii String.
From S2P Require Import Prelude Bytes FrcList Cmd CmdProps CmdSys CmdThm CmdTable Api.
From S2P Require Import Rfc Acl AclStore AclProps Rule CmdRule CmdRuleProps.
From S2P Require Import Tool ToolProps.
#[local] Open Scope Z_scope.
#[local] Open Scope list_scope.

Definition RULE_MAX : Z := 2000.

(** ** A command that may return early *)
Definition ebind {A B} (m : option (Z + A)) (k : A -> option (Z + B)) : option (Z + B) :=
  r ← m; match r with inl e => Some (inl e) | inr a => k a end.
#[local] Notation "'run' x := m 'in' k" := (ebind m (fun x => k)) (at level 10, x pattern, m at level 100, k at level 200).

Definition check (r : Z * Z) : option (Z + Z) := Some (if negb (r.1 =? 0) then inl FRE_PARAM else inr r.2).
Definition check2 (r : option (Z * Z * Z)) : option (Z + Z * Z) :=
  '(rv, v, inc) ← r; Some (if negb (rv =? 0) then inl FRE_PARAM else inr (v, inc)).
Definition exit_if (b : bool) (rv : Z) : option (Z + unit) := Some (if b then inl rv else inr ()).

(** What the stack held at [buf], at a number, at [enable], at [index], [match_num] and [rule_stat]. *)
Record junk : Type := Junk { j_buf : list Z; j_num : list Z; j_enable : Z; j_index : Z; j_match : Z; j_stats : list rule_stat }.

Record rule_args : Type := RuleArgs {
  ra_index : Z; ra_sips : Z; ra_sipi : Z; ra_dips : Z; ra_dipi : Z; ra_sps : Z; ra_spi : Z; ra_dps : Z; ra_dpi : Z;
  ra_proto : Z; ra_source : Z; ra_type : Z; ra_op : Z }.

(** A row of the table of rules. *)
Definition rule_row (s : rule_stat) : list cstr :=
  let r := rs_rule s in
  [fmt_d (r_index r); fr_ipv4_string (r_sip r); fr_ipv4_string (r_dip r); fr_port_string (r_sp r); fr_port_string (r_dp r);
   fr_proto_string (r_proto r); fmt_d (s32 (rs_pkts s)); fmt_d (s32 (rs_bytes s));
   fmt_d (r_rule_source r); fmt_d (r_rule_type r); fmt_d (r_action r); fmt_d (r_op r)].

(** The heads of the tables are not kept. *)
Definition arg (argv : list cstr) (k : Z) : option (Z + cstr) := a ← arr_get argv k; Some (inr a).

(** Five arguments from [k] on: addresses, ports, protocol. *)
Definition tuple_args (argv : list cstr) (k : Z) : option (Z + (Z * Z * (Z * Z) * (Z * Z) * (Z * Z) * Z)) :=
  run a := arg argv k in run sip := check2 (parse_ipv4_inc a 0 0) in
  run a := arg argv (k + 1) in run dip := check2 (parse_ipv4_inc a 0 0) in
  run a := arg argv (k + 2) in run sp := check2 (parse_u16_inc a 0 0) in
  run a := arg argv (k + 3) in run dp := check2 (parse_u16_inc a 0 0) in
  run a := arg argv (k + 4) in run proto := check (parse_protocal a 0) in
  Some (inr (sip, dip, sp, dp, proto)).

Definition total_of (sipi dipi spi dpi : Z) : Z := u32 (u32 (u32 (sipi * dipi) * spi) * dpi).

(** The arguments of [rule add]; the usage ends it with success. *)
Definition add_args (j : junk) (argv : list cstr) : option (Z + rule_args) :=
  let argc := Z.of_nat (List.length argv) in
  run _ := exit_if ((argc <? 8) || (11 <? argc)) FRE_SUCCESS in
  run a := arg argv 2 in run vs := (vs ← sscanf scan_hu 0 1 a; Some (inr vs)) in let index := default (j_index j) (head vs) in
  run _ := exit_if ((index <=? 0) || (RULE_MAX <? index)) FRE_PARAM in
  run t := tuple_args argv 3 in let '(sips, sipi, (dips, dipi), (sps, spi), (dps, dpi), proto) := t in
  run o := (if argc =? 11 then
          run a := arg argv 8 in run source := check (parse_u8 a 0) in
          run a := arg argv 9 in run type := check (parse_u8 a 0) in
          run a := arg argv 10 in run op := check (parse_u8 a 0) in Some (inr (source, type, op))
        else Some (inr (0, 0, 0))) in
  let '(source, type, op) := o in
  run _ := exit_if (RULE_MAX <? total_of sipi dipi spi dpi) FRE_PARAM in
  Some (inr (RuleArgs index sips sipi dips dipi sps spi dps dpi proto source type op)).

(** The arguments [INDEX NUM]. *)
Definition number_arg (argv : list cstr) (k : Z) : option (Z + Z) :=
  run a := arg argv k in run vs := (vs ← sscanf scan_d 0 1 a; Some (inr vs)) in Some (inr (u32 (default 0 (head vs)))).
Definition range_args (argv : list cstr) : option (Z + Z * Z) :=
  run index := number_arg argv 2 in run _ := exit_if ((index <? 1) || (RULE_MAX <? index)) FRE_PARAM in
  run num := number_arg argv 3 in run _ := exit_if ((num <? 1) || (RULE_MAX <? num)) FRE_PARAM in
  run _ := exit_if (RULE_MAX + 1 <? u32 (index + num)) FRE_PARAM in
  Some (inr (index, num)).

Section rule.
Context {W : Type}.
Variable frcapi : call -> W -> option (result * W).   (* [frcapi_ioctl] *)
Variable j : junk.

(** The four loops: what a turn does with the four values, over [cur], [index], [rv] and the
    rest. *)
Definition four_loops {A} (a : rule_args) (f : Z -> Z -> Z -> Z -> A -> option A) (x : A) : option A :=
  foldM (fun x sip => foldM (fun x dip => foldM (fun x sp => foldM (fun x dp => f sip dip sp dp x)
    (seqZ (ra_dps a) (u16 (ra_dps a + ra_dpi a) - ra_dps a)) x)
    (seqZ (ra_sps a) (u16 (ra_sps a + ra_spi a) - ra_sps a)) x)
    (seqZ (ra_dips a) (u32 (ra_dips a + ra_dipi a) - ra_dips a)) x)
    (seqZ (ra_sips a) (u32 (ra_sips a + ra_sipi a) - ra_sips a)) x.

Definition rule_of (a : rule_args) (index sip dip sp dp : Z) : frc_rule_t :=
  FrcRule sip dip sp dp (ra_proto a) index (ra_source a) (ra_type a) 0 (ra_op a).

(** [rule[cur]] is one of 2000. *)
Definition add_turn (a : rule_args) (sip dip sp dp : Z) (x : Z * Z * option Z * W) : option (Z * Z * option Z * W) :=
  let '(cur, index, _, w) := x in
  guard_ub (cur <? RULE_MAX);;
  '(r, w) ← frcapi (frcapi_rule_add (rule_of a index sip dip sp dp)) w;
  Some (cur + 1, u16 (index + 1), Some r.1, w).

Definition rule_add (a : rule_args) (w : W) : option (Z * W) :=
  '(_, _, rv, w) ← four_loops a (add_turn a) (0, ra_index a, None, w);
  rv ← rv; Some (rv, w).

(** The queries for [rule_num] rules from [index] on, four at a time; [f] takes the entries of
    an answer.  The code is that of the last query, and a query that fails leaves the bytes of
    the one before. *)
Definition chunk_len (rule_num n k : Z) : Z :=
  if k =? n - 1 then if negb (rule_num `mod` MAX_RULE =? 0) then rule_num `mod` MAX_RULE else MAX_RULE else MAX_RULE.
Definition query_turn {A} (f : A -> rule_stat -> option A) (index rule_num n : Z) (x : list Z * option Z * A * W) (k : Z) : option (list Z * option Z * A * W) :=
  let '(buf, _, acc, w) := x in
  '(r, w) ← frcapi (frcapi_rule_stat_get (u32 (index + k * MAX_RULE)) (chunk_len rule_num n k)) w;
  let buf := frcapi_num_bytes buf r.2 in
  stats ← rule_stat_out_unpack buf; acc ← foldM f stats acc;
  Some (buf, Some r.1, acc, w).
Definition query_rules {A} (f : A -> rule_stat -> option A) (index rule_num : Z) (acc : A) (w : W) : option (Z * A * W) :=
  let n := rule_num / MAX_RULE + (if negb (rule_num `mod` MAX_RULE =? 0) then 1 else 0) in
  '(_, rv, acc, w) ← foldM (query_turn f index rule_num n) (seqZ 0 n) (j_buf j, None, acc, w);
  rv ← rv; Some (rv, acc, w).

(** [frcapi_rule_match]: the first entry with the tuple adds one. *)
Definition same_tuple (r s : frc_rule_t) : bool :=
  (r_sip r =? r_sip s) && (r_dip r =? r_dip s) && (r_sp r =? r_sp s) && (r_dp r =? r_dp s) && (r_proto r =? r_proto s).
Definition frcapi_rule_match (stats : list rule_stat) (r : frc_rule_t) (rule_num match_num : Z) : option (Z * Z) :=
  l ← (if rule_num <=? Z.of_nat (List.length stats) then Some (take (Z.to_nat rule_num) stats) else None);
  Some (FRE_SUCCESS, if existsb (fun s => same_tuple r (rs_rule s)) l then u16 (match_num + 1) else match_num).
Definition match_turn (a : rule_args) (stats : list rule_stat) (sip dip sp dp : Z) (x : Z * Z * option Z) : option (Z * Z * option Z) :=
  let '(cur, match_num, _) := x in
  guard_ub (cur <? RULE_MAX);;
  '(rv, match_num) ← frcapi_rule_match stats (rule_of a 0 sip dip sp dp) RULE_MAX match_num;
  Some (cur + 1, match_num, Some rv).
Definition store_stat (x : list rule_stat * Z) (s : rule_stat) : option (list rule_stat * Z) :=
  stats ← arr_set x.1 x.2 s; Some (stats, x.2 + 1).

(** ** The command *)

(** The lines printed so far are part of what a command works on. *)
Definition world : Type := W * list (list cstr).
Definition returned (r : option (Z + Z * world)) (w : world) : option (Z * world) :=
  r ← r; Some (match r with inl rv => (rv, w) | inr r => r end).
Definition call_only (c : call) (w : world) : option (Z + Z * world) :=
  '(r, w') ← frcapi c w.1; Some (inr (r.1, (w', w.2))).

(** The cases with queries. *)
Definition cmd_get (argv : list cstr) (w : world) : option (Z + Z * world) :=
  let argc := Z.of_nat (List.length argv) in
  run _ := exit_if (argc <? 4) FRE_SUCCESS in
  run x := range_args argv in
  '(rv, rows, w') ← query_rules (fun rows s => Some (rows ++ [rule_row s])) x.1 x.2 [] w.1;
  Some (inr (rv, (w', w.2 ++ rows))).
Definition cmd_cnt (argv : list cstr) (w : world) : option (Z + Z * world) :=
  let argc := Z.of_nat (List.length argv) in
  run _ := exit_if (argc <? 4) FRE_SUCCESS in
  run x := range_args argv in
  '(rv, c, w') ← query_rules (fun c s => Some (u32 (c.1 + rs_pkts s), u32 (c.2 + rs_bytes s))) x.1 x.2 (0, 0) w.1;
  Some (inr (rv, (w', w.2 ++ [[fmt_d (s32 c.1)]; [fmt_d (s32 c.2)]]))).
Definition cmd_match (argv : list cstr) (w : world) : option (Z + Z * world) :=
  let argc := Z.of_nat (List.length argv) in
  run _ := exit_if (argc <? 7) FRE_SUCCESS in
  run t := tuple_args argv 2 in let '(sips, sipi, (dips, dipi), (sps, spi), (dps, dpi), proto) := t in
  run _ := exit_if (RULE_MAX <? total_of sipi dipi spi dpi) FRE_PARAM in
  '(rv, x, w') ← query_rules store_stat 1 RULE_MAX (j_stats j, 0) w.1;
  let a := RuleArgs 0 sips sipi dips dipi sps spi dps dpi proto 0 0 0 in
  '(_, match_num, rv) ← four_loops a (match_turn a x.1) (0, j_match j, Some rv);
  rv ← rv; Some (inr (rv, (w', w.2 ++ [[fmt_d match_num]]))).

Definition frctweak_cmd_rule : frctweak_fn_t world := fun argv w =>
  let argc := Z.of_nat (List.length argv) in
  returned (
    run _ := exit_if (argc <? 2) FRE_SUCCESS in
    run op := arg argv 1 in
    if strcmp0 (chars "status") op then
      '(r, w') ← frcapi frcapi_rule_status_get w.1;
      enable ← arr_get (frcapi_num_bytes [j_enable j] r.2) 0;
      Some (inr (r.1, (w', w.2 ++ [[if negb (enable =? 0) then chars "enable" else chars "disable"]])))
    else if strcmp0 (chars "add") op then
      run a := add_args j argv in '(rv, w') ← rule_add a w.1; Some (inr (rv, (w', w.2)))
    else if strcmp0 (chars "del") op then
      run _ := exit_if (argc <? 4) FRE_SUCCESS in
      run x := range_args argv in call_only (frcapi_rule_del x.1 x.2) w
    else if strcmp0 (chars "stat_clear") op then
      run _ := exit_if ((argc <? 3) || (4 <? argc)) FRE_SUCCESS in
      run x := (if argc =? 4 then range_args argv
            else run a := arg argv 2 in run _ := exit_if (negb (strcmp0 (chars "all") a)) FRE_PARAM in Some (inr (1, RULE_MAX))) in
      call_only (frcapi_rule_stat_clear x.1 x.2) w
    else if strcmp0 (chars "clear") op then call_only (frcapi_rule_clear 1 RULE_MAX) w
    else if strcmp0 (chars "get") op then
      cmd_get argv w
    else if strcmp0 (chars "enable") op || strcmp0 (chars "disable") op then
      run e := check (parse_bool op 0) in call_only (frcapi_rule_enable e) w
    else if strcmp0 (chars "cnt") op then
      cmd_cnt argv w
    else if strcmp0 (chars "update") op then
      '(r, w') ← frcapi frcapi_rule_update w.1; Some (inr (frcapi_rule_update_return r.1, (w', w.2)))
    else if strcmp0 (chars "num") op then
      '(r, w') ← frcapi frcapi_rule_num_get w.1; n ← frcapi_num_out (j_num j) r.2;
      Some (inr (r.1, (w', w.2 ++ [[fmt_d n]])))
    else if strcmp0 (chars "match") op then
      cmd_match argv w
    else Some (inl FRE_SUCCESS)) w.
End rule.

(** ** Which rules are added *)

(** The tuples the four loops go through, the ends of the ranges wrapped as in the code: a form of
    the loops for the proofs; what should be added is [named_rules]. *)
Definition values (w start inc : Z) : list Z := seqZ start (wrapu w (start + inc) - start).
Definition tuples (a : rule_args) : list (Z * Z * Z * Z) :=
  sip ← values 32 (ra_sips a) (ra_sipi a); dip ← values 32 (ra_dips a) (ra_dipi a);
  sp ← values 16 (ra_sps a) (ra_spi a); dp ← values 16 (ra_dps a) (ra_dpi a); [(sip, dip, sp, dp)].

Lemma foldM_bind {A B X} (f : X -> B -> option X) (g : A -> list B) l x :
  foldM (fun x a => foldM f (g a) x) l x = foldM f (l ≫= g) x.
Proof.
  revert x. induction l as [|a l IH]; intros x; [done|]. cbn [foldM]. change ((a :: l) ≫= g) with (g a ++ (l ≫= g)). rewrite foldM_app.
  destruct (foldM f (g a) x) as [x'|]; [apply IH|done].
Qed.

Lemma four_loops_tuples {A} a (f : Z -> Z -> Z -> Z -> A -> option A) x :
  four_loops a f x = foldM (fun x '(sip, dip, sp, dp) => f sip dip sp dp x) (tuples a) x.
Proof.
  unfold four_loops, tuples, values. rewrite <- foldM_bind. apply foldM_ext. intros x1 sip _. rewrite <- foldM_bind. apply foldM_ext. intros x2 dip _.
  rewrite <- foldM_bind. apply foldM_ext. intros x3 sp _. rewrite <- foldM_bind. apply foldM_ext. intros x4 dp _. cbn [foldM]. by destruct (f _ _ _ _ _).
Qed.

Lemma length_bind {A B} (g : A -> list B) l n : (forall a, List.length (g a) = n) -> List.length (l ≫= g) = (List.length l * n)%nat.
Proof. intros H. induction l as [|a l IH]; [done|]. change ((a :: l) ≫= g) with (g a ++ (l ≫= g)). rewrite length_app, H, IH. simpl. lia. Qed.

Lemma length_values w start inc : List.length (values w start inc) = Z.to_nat (wrapu w (start + inc) - start).
Proof. unfold values. by rewrite length_seqZ. Qed.

Lemma length_tuples a : List.length (tuples a) =
  (List.length (values 32 (ra_sips a) (ra_sipi a)) * (List.length (values 32 (ra_dips a) (ra_dipi a)) *
    (List.length (values 16 (ra_sps a) (ra_spi a)) * List.length (values 16 (ra_dps a) (ra_dpi a)))))%nat.
Proof. unfold tuples. apply length_bind. intros sip. apply length_bind. intros dip. apply length_bind. intros sp. rewrite (length_bind _ _ 1%nat) by done. lia. Qed.

(** ** What the arguments name *)

(** The types of the arguments. *)
Record args_ok (a : rule_args) : Prop := ArgsOk {
  ao_index : 0 <= ra_index a < 2 ^ 16; ao_sips : 0 <= ra_sips a < 2 ^ 32; ao_sipi : 0 <= ra_sipi a < 2 ^ 32;
  ao_dips : 0 <= ra_dips a < 2 ^ 32; ao_dipi : 0 <= ra_dipi a < 2 ^ 32; ao_sps : 0 <= ra_sps a < 2 ^ 16; ao_spi : 0 <= ra_spi a < 2 ^ 16;
  ao_dps : 0 <= ra_dps a < 2 ^ 16; ao_dpi : 0 <= ra_dpi a < 2 ^ 16 }.

(** Every combination of an address [start], ..., [start + inc - 1] of each kind and a port of
    each kind, the last varying fastest. *)
Definition combinations (a : rule_args) : list (Z * Z * Z * Z) :=
  sip ← seqZ (ra_sips a) (ra_sipi a); dip ← seqZ (ra_dips a) (ra_dipi a);
  sp ← seqZ (ra_sps a) (ra_spi a); dp ← seqZ (ra_dps a) (ra_dpi a); [(sip, dip, sp, dp)].
Definition named_rules (a : rule_args) : list frc_rule_t :=
  imap (fun k '(sip, dip, sp, dp) =>
    {| r_sip := sip; r_dip := dip; r_sp := sp; r_dp := dp; r_proto := ra_proto a; r_index := (ra_index a + Z.of_nat k) `mod` 2 ^ 16;
       r_rule_source := ra_source a; r_rule_type := ra_type a; r_action := 0; r_op := ra_op a |}) (combinations a).

(** No range reaches the last value of its type. *)
Definition ranges_end (a : rule_args) : bool :=
  (ra_sips a + ra_sipi a <? 2 ^ 32) && (ra_dips a + ra_dipi a <? 2 ^ 32) && (ra_sps a + ra_spi a <? 2 ^ 16) && (ra_dps a + ra_dpi a <? 2 ^ 16).

Lemma values_range w start inc : 0 <= start -> 0 <= inc -> start + inc < 2 ^ w -> values w start inc = seqZ start inc.
Proof. intros ???. unfold values. rewrite wrapu_id by lia. f_equal. lia. Qed.

Lemma values_none w start inc : 0 <= w -> 0 <= start < 2 ^ w -> 0 <= inc < 2 ^ w -> 2 ^ w <= start + inc -> values w start inc = [].
Proof.
  intros Hw Hs Hi He. unfold values, wrapu. replace ((start + inc) `mod` 2 ^ w) with (start + inc - 2 ^ w).
  - by rewrite seqZ_nil by lia.
  - symmetry. rewrite <- (Z.mod_add _ (-1)) by lia. replace (start + inc + -1 * 2 ^ w) with (start + inc - 2 ^ w) by lia. apply Z.mod_small. lia.
Qed.

Lemma bind_nil {A B} (l : list A) (g : A -> list B) : (forall a, g a = []) -> l ≫= g = [].
Proof. intros H. induction l as [|a l IH]; [done|]. change ((a :: l) ≫= g) with (g a ++ (l ≫= g)). by rewrite H, IH. Qed.

Lemma tuples_named a : args_ok a -> tuples a = if ranges_end a then combinations a else [].
Proof.
  intros []. unfold tuples, ranges_end.
  destruct (Z.ltb_spec (ra_sips a + ra_sipi a) (2 ^ 32)); cbn [andb]; [|by rewrite (values_none 32 (ra_sips a)) by lia].
  destruct (Z.ltb_spec (ra_dips a + ra_dipi a) (2 ^ 32)); cbn [andb]; [|rewrite (values_none 32 (ra_dips a)) by lia; by apply bind_nil].
  destruct (Z.ltb_spec (ra_sps a + ra_spi a) (2 ^ 16)); cbn [andb]; [|rewrite (values_none 16 (ra_sps a)) by lia; apply bind_nil; intros; by apply bind_nil].
  destruct (Z.ltb_spec (ra_dps a + ra_dpi a) (2 ^ 16));
    [|rewrite (values_none 16 (ra_dps a)) by lia; apply bind_nil; intros; apply bind_nil; intros; by apply bind_nil].
  by rewrite !values_range by lia.
Qed.

Lemma length_named a : args_ok a -> Z.of_nat (List.length (named_rules a)) = ra_sipi a * ra_dipi a * ra_spi a * ra_dpi a.
Proof.
  intros []. unfold named_rules, combinations. rewrite length_imap.
  rewrite (length_bind _ _ (Z.to_nat (ra_dipi a) * (Z.to_nat (ra_spi a) * Z.to_nat (ra_dpi a)))%nat).
  - rewrite length_seqZ, !Nat2Z.inj_mul, !Z2Nat.id by lia. lia.
  - intros sip. rewrite (length_bind _ _ (Z.to_nat (ra_spi a) * Z.to_nat (ra_dpi a))%nat); [by rewrite length_seqZ|].
    intros dip. rewrite (length_bind _ _ (Z.to_nat (ra_dpi a))); [by rewrite length_seqZ|].
    intros sp. rewrite (length_bind _ _ 1%nat) by done. rewrite length_seqZ. lia.
Qed.

Section added.
Context {W : Type}.
Variables (frcapi : call -> W -> option (result * W)) (j : junk).

(** Calls of the library, one after another. *)
Definition call_add (x : option Z * W) (r : frc_rule_t) : option (option Z * W) :=
  '(res, w) ← frcapi (frcapi_rule_add r) x.2; Some (Some res.1, w).
Definition add_all (l : list frc_rule_t) (w : W) : option (option Z * W) := foldM call_add l (None, w).

(** A turn, in terms of the call. *)
Lemma add_turn_call a sip dip sp dp k index rv w : 
  add_turn frcapi a sip dip sp dp (k, index, rv, w) =
    if k <? RULE_MAX then x ← call_add (rv, w) (rule_of a index sip dip sp dp); Some (k + 1, u16 (index + 1), x.1, x.2) else None.
Proof.
  unfold add_turn, call_add. destruct (k <? RULE_MAX); [|done]. change (guard_ub true) with (Some ()). cbn [mbind option_bind snd].
  by destruct (frcapi _ w) as [[r w1]|].
Qed.

Definition turn (a : rule_args) (x : Z * Z * option Z * W) (t : Z * Z * Z * Z) : option (Z * Z * option Z * W) :=
  let '(sip, dip, sp, dp) := t in add_turn frcapi a sip dip sp dp x.
Definition numbered (a : rule_args) (k : nat) (t : Z * Z * Z * Z) : frc_rule_t :=
  let '(sip, dip, sp, dp) := t in rule_of a (u16 (ra_index a + Z.of_nat k)) sip dip sp dp.

(** The rules of the loops, with consecutive numbers: a form of the loops for the proofs. *)
Definition expand (a : rule_args) : list frc_rule_t := imap (numbered a) (tuples a).

Lemma turn_call a t k x : turn a (Z.of_nat k, u16 (ra_index a + Z.of_nat k), x.1, x.2) t =
  if Z.of_nat k <? RULE_MAX then y ← call_add (x.1, x.2) (numbered a k t); Some (Z.of_nat k + 1, u16 (u16 (ra_index a + Z.of_nat k) + 1), y.1, y.2) else None.
Proof. destruct t as [[[sip dip] sp] dp]. apply add_turn_call. Qed.

Lemma add_turns a l k x : 0 <= ra_index a < 2 ^ 16 ->
  foldM (turn a) l (Z.of_nat k, u16 (ra_index a + Z.of_nat k), x.1, x.2) =
    if (List.length l =? 0)%nat || (Z.of_nat (k + List.length l) <=? RULE_MAX) then
      y ← foldM call_add (imap (fun i => numbered a (k + i)) l) x;
      Some (Z.of_nat (k + List.length l), u16 (ra_index a + Z.of_nat (k + List.length l)), y.1, y.2)
    else None.
Proof.
  intros Hi. revert k x. induction l as [|t l IH]; intros k x.
  { cbn [foldM imap List.length Nat.eqb orb mbind option_bind]. by rewrite Nat.add_0_r. }
  cbn [foldM imap List.length]. change ((S (List.length l) =? 0)%nat) with false. cbn [orb].
  rewrite turn_call, Nat.add_0_r. replace (x.1, x.2) with x by (by destruct x).
  destruct (Z.ltb_spec (Z.of_nat k) RULE_MAX) as [Hk|Hk]; [|destruct (Z.leb_spec (Z.of_nat (k + S (List.length l))) RULE_MAX); [lia|done]].
  destruct (call_add x _) as [y|]; cbn [mbind option_bind]; [|by destruct (_ <=? _)].
  replace (Z.of_nat k + 1) with (Z.of_nat (S k)) by lia.
  assert (u16 (u16 (ra_index a + Z.of_nat k) + 1) = u16 (ra_index a + Z.of_nat (S k))) as ->.
  { unfold wrapu. rewrite Z.add_mod_idemp_l by lia. f_equal. lia. }
  rewrite IH. replace (S k + List.length l)%nat with (k + S (List.length l))%nat by lia.
  assert (((List.length l =? 0)%nat || (Z.of_nat (k + S (List.length l)) <=? RULE_MAX)) = (Z.of_nat (k + S (List.length l)) <=? RULE_MAX)) as ->.
  { destruct (Nat.eqb_spec (List.length l) 0) as [E|]; [|done]. rewrite E. cbn [orb]. symmetry. apply Z.leb_le. lia. }
  destruct (_ <=? _); [|done]. assert (imap (fun i => numbered a (S k + i)) l = imap (compose (fun i => numbered a (k + i)) S) l) as ->; [|done].
  apply imap_ext. intros i t' _. cbn [compose]. f_equal. lia.
Qed.

Lemma rule_add_run (a : rule_args) (w : W) : 0 <= ra_index a < 2 ^ 16 ->
  rule_add frcapi a w =
    if Z.of_nat (List.length (expand a)) <=? RULE_MAX then '(rv, w) ← add_all (expand a) w; rv ← rv; Some (rv, w) else None.
Proof.
  intros Hi. unfold rule_add. rewrite four_loops_tuples. pose proof (add_turns a (tuples a) 0 (None, w) Hi) as E.
  cbn [fst snd] in E. change (Z.of_nat 0) with 0 in E. rewrite Z.add_0_r, (wrapu_id 16) in E by done.
  change (foldM (fun x '(sip, dip, sp, dp) => add_turn frcapi a sip dip sp dp x) (tuples a)) with (foldM (turn a) (tuples a)). rewrite E.
  unfold expand, add_all. rewrite length_imap. cbn [Nat.add]. destruct (Nat.eqb_spec (List.length (tuples a)) 0) as [E0|]; cbn [orb].
  - apply nil_length_inv in E0. by rewrite E0.
  - destruct (_ <=? _); [|done]. change (fun i => numbered a i) with (numbered a). by destruct (foldM call_add _ _) as [[rv w']|].
Qed.

Lemma expand_named a : args_ok a -> expand a = if ranges_end a then named_rules a else [].
Proof.
  intros Ha. unfold expand. rewrite tuples_named by done. destruct (ranges_end a); [|done]. unfold named_rules. apply imap_ext. by intros k [[[sip dip] sp] dp] _.
Qed.

End added.

(** A library that lists the calls. *)
Definition logged (c : call) (w : list call) : option (result * list call) := Some ((FRE_SUCCESS, None), w ++ [c]).


(** ** From the words of the command line *)

Section words.
Context {W : Type}.
Variables (frcapi : call -> W -> option (result * W)) (j : junk).

Lemma add_args_words a0 a1 i s d p q t x y z index sip sipi dip dipi sp spi dp dpi proto source type op :
  sscanf scan_hu 0 1 i = Some [index] -> 1 <= index <= RULE_MAX ->
  parse_ipv4_inc s 0 0 = Some (0, sip, sipi) -> parse_ipv4_inc d 0 0 = Some (0, dip, dipi) ->
  parse_u16_inc p 0 0 = Some (0, sp, spi) -> parse_u16_inc q 0 0 = Some (0, dp, dpi) -> parse_protocal t 0 = (0, proto) ->
  parse_u8 x 0 = (0, source) -> parse_u8 y 0 = (0, type) -> parse_u8 z 0 = (0, op) -> total_of sipi dipi spi dpi <= RULE_MAX ->
  add_args j [a0; a1; i; s; d; p; q; t; x; y; z] = Some (inr (RuleArgs index sip sipi dip dipi sp spi dp dpi proto source type op)).
Proof.
  intros Ei Hi Es Ed Ep Eq Et Ex Ey Ez Hto. unfold add_args, tuple_args, arg, ebind, exit_if, check, check2.
  set (l := [a0; a1; i; s; d; p; q; t; x; y; z]).
  change (arr_get l 2) with (Some i). change (arr_get l 3) with (Some s). change (arr_get l (3 + 1)) with (Some d). change (arr_get l (3 + 2)) with (Some p).
  change (arr_get l (3 + 3)) with (Some q). change (arr_get l (3 + 4)) with (Some t). change (arr_get l 8) with (Some x). change (arr_get l 9) with (Some y).
  change (arr_get l 10) with (Some z). change (Z.of_nat (List.length l)) with 11.
  change ((11 <? 8) || (11 <? 11)) with false. cbn [mbind option_bind]. rewrite Ei. cbn [mbind option_bind default from_option head]. unfold id.
  replace ((index <=? 0) || (RULE_MAX <? index)) with false by lia. cbn [mbind option_bind].
  rewrite Es, Ed, Ep, Eq, Et. cbn [mbind option_bind Z.eqb negb fst snd]. change (11 =? 11)%positive with true. cbv iota. rewrite Ex, Ey, Ez. cbn [mbind option_bind Z.eqb negb fst snd].
  by replace (RULE_MAX <? total_of sipi dipi spi dpi) with false by lia.
Qed.

Lemma add_command a0 rest a w l : add_args j (a0 :: chars "add" :: rest) = Some (inr a) ->
  frctweak_cmd_rule frcapi j (a0 :: chars "add" :: rest) (w, l) = '(rv, w') ← rule_add frcapi a w; Some (rv, (w', l)).
Proof.
  intros E. unfold frctweak_cmd_rule, returned, ebind at 1 2, exit_if at 1, arg at 1.
  replace (Z.of_nat (List.length (a0 :: chars "add" :: rest)) <? 2) with false by (symmetry; apply Z.ltb_ge; rewrite !length_cons; lia).
  change (arr_get (a0 :: chars "add" :: rest) 1) with (Some (chars "add")). cbn [mbind option_bind].
  change (strcmp0 (chars "status") (chars "add")) with false. change (strcmp0 (chars "add") (chars "add")) with true. cbv iota.
  unfold ebind. rewrite E. cbn [mbind option_bind fst snd]. by destruct (rule_add frcapi a w) as [[rv w']|].
Qed.

(** The words of [rule add] for a printed row. *)
Definition readd (row : list cstr) : list cstr :=
  match row with
  | [i; sip; dip; sp; dp; proto; _; _; source; type; _; op] => [chars "rule"; chars "add"; i; sip; dip; sp; dp; proto; source; type; op]
  | _ => []
  end.

(** A rule as the tool and the card exchange it. *)
Record printable (r : frc_rule_t) : Prop := Printable {
  pr_index : 1 <= r_index r <= RULE_MAX; pr_sip : 0 <= r_sip r < 2 ^ 32; pr_dip : 0 <= r_dip r < 2 ^ 32;
  pr_sp : 0 <= r_sp r < 2 ^ 16; pr_dp : 0 <= r_dp r < 2 ^ 16; pr_proto : r_proto r = 0 \/ r_proto r = 6 \/ r_proto r = 17;
  pr_source : 0 <= r_rule_source r < 256; pr_type : 0 <= r_rule_type r < 256; pr_action : r_action r = 0; pr_op : 0 <= r_op r < 256 }.

(** An address or port is the last of its kind. *)
Definition has_last (r : frc_rule_t) : bool :=
  (r_sip r =? 2 ^ 32 - 1) || (r_dip r =? 2 ^ 32 - 1) || (r_sp r =? 2 ^ 16 - 1) || (r_dp r =? 2 ^ 16 - 1).

Lemma parse_u8_fmt n v : 0 <= n < 256 -> parse_u8 (fmt_d n) v = (0, n).
Proof.
  intros Hn. unfold parse_u8. rewrite fmt_d_pos, parse_u32_fmt by lia. cbn [Z.eqb negb]. replace (0xff <? n) with false by lia. f_equal.
  change 0xff with (Z.ones 8). rewrite Z.land_ones by lia. apply Z.mod_small. lia.
Qed.

Lemma scan_index n : 0 <= n < 2 ^ 16 -> sscanf scan_hu 0 1 (fmt_d n) = Some [n].
Proof.
  intros Hn. apply sscanf_last. rewrite fmt_d_pos by lia. rewrite <- (app_nil_r (fmt_u 10 n)). apply scan_fmt; [lia|done|done|].
  apply Z.ltb_lt. lia.
Qed.

Lemma values_one w x : 0 < w -> 0 <= x < 2 ^ w -> values w x 1 = if x =? 2 ^ w - 1 then [] else [x].
Proof.
  intros Hw Hx. unfold values. destruct (Z.eqb_spec x (2 ^ w - 1)) as [->|].
  - unfold wrapu. replace (2 ^ w - 1 + 1) with (2 ^ w) by lia. rewrite Z.mod_same by lia. rewrite seqZ_nil; [done|lia].
  - rewrite wrapu_id by lia. by replace (x + 1 - x) with 1 by lia.
Qed.

Definition args_of (r : frc_rule_t) : rule_args :=
  RuleArgs (r_index r) (r_sip r) 1 (r_dip r) 1 (r_sp r) 1 (r_dp r) 1 (r_proto r) (r_rule_source r) (r_rule_type r) (r_op r).

Lemma expand_one r : printable r -> expand (args_of r) = if has_last r then [] else [r].
Proof.
  intros []. unfold expand, tuples. cbn [args_of ra_sips ra_sipi ra_dips ra_dipi ra_sps ra_spi ra_dps ra_dpi]. rewrite !values_one by (done || lia). unfold has_last.
  destruct (r_sip r =? _); [done|]. destruct (r_dip r =? _); [done|]. destruct (r_sp r =? _); [done|]. destruct (r_dp r =? _); [done|]. cbn [orb].
  change (imap (numbered (args_of r)) [(r_sip r, r_dip r, r_sp r, r_dp r)] = [r]). cbn [imap numbered rule_of args_of ra_proto ra_source ra_type ra_op ra_index].
  rewrite Z.add_0_r, wrapu_id by (unfold RULE_MAX in *; lia). destruct r. cbn in *. by subst.
Qed.

Lemma readd_args r p b : printable r -> add_args j (readd (rule_row (RuleStat r p b))) = Some (inr (args_of r)).
Proof.
  intros []. unfold readd, rule_row. cbn [rs_rule]. apply add_args_words; try (by apply parse_u8_fmt); try (by apply ipv4_string_parse); try (by apply port_string_parse).
  - apply scan_index. unfold RULE_MAX in *. lia.
  - done.
  - by apply proto_string_parse.
  - done.
Qed.

Lemma readd_run (r : frc_rule_t) (p b : Z) (w : W) (l : list (list cstr)) : printable r ->
  frctweak_cmd_rule frcapi j (readd (rule_row (RuleStat r p b))) (w, l) =
    if has_last r then None else '(res, w') ← frcapi (frcapi_rule_add r) w; Some (res.1, (w', l)).
Proof.
  intros Hr. pose proof (readd_args r p b Hr) as E. unfold readd, rule_row in *. rewrite (add_command _ _ _ w l E).
  rewrite rule_add_run by (destruct Hr; unfold RULE_MAX in *; cbn; lia). rewrite expand_one by done.
  destruct (has_last r); [done|]. cbn [List.length]. change (Z.of_nat 1 <=? RULE_MAX) with true. cbv iota. unfold add_all, call_add. cbn [foldM snd].
  by destruct (frcapi (frcapi_rule_add r) w) as [[res w']|].
Qed.

(** What [rule get] prints for a rule, typed in again as [rule add], makes the one call that
    adds this rule - unless an address or a port is the last of its kind: then the range of
    one is empty, no call is made, and the command returns a code nobody set. *)
Theorem rule_row_readd (r : frc_rule_t) (p b : Z) (w : W) (l : list (list cstr)) : printable r ->
  frctweak_cmd_rule frcapi j (readd (rule_row (RuleStat r p b))) (w, l) =
    if has_last r then None else '(res, w') ← frcapi (frcapi_rule_add r) w; Some (res.1, (w', l)).
Proof. apply readd_run. Qed.
End words.

Lemma rule_row_readd_witness :
  frctweak_cmd_rule logged (Junk [] [] 0 0 0 []) (readd (rule_row (RuleStat (FrcRule 0 0xc0a80001 80 0 6 12 1 2 0 3) 5 600))) ([], []) =
    Some (FRE_SUCCESS, ([frcapi_rule_add (FrcRule 0 0xc0a80001 80 0 6 12 1 2 0 3)], [])) /\
  frctweak_cmd_rule logged (Junk [] [] 0 0 0 []) (readd (rule_row (RuleStat (FrcRule 0 0xc0a80001 65535 0 6 12 1 2 0 3) 5 600))) ([], []) = None.
Proof. split; (rewrite rule_row_readd; [reflexivity|split; unfold RULE_MAX; cbn; auto; lia]). Defined.

(** The number of rules is computed in 32 bits: the two ranges of 65536 addresses pass the
    test against 2000, and the command overruns the array of rules. *)
Theorem rule_add_total_wraps {W : Type} (frcapi : call -> W -> option (result * W)) (j : junk) (w : W) (l : list (list cstr)) :
  add_args j [chars "rule"; chars "add"; chars "1"; chars "0.0.0.0+65536"; chars "0.0.0.0+65536"; chars "1"; chars "1"; chars "TCP"] =
    Some (inr (RuleArgs 1 0 65536 0 65536 1 1 1 1 6 0 0 0)) /\
  frctweak_cmd_rule frcapi j [chars "rule"; chars "add"; chars "1"; chars "0.0.0.0+65536"; chars "0.0.0.0+65536"; chars "1"; chars "1"; chars "TCP"] (w, l) = None.
Proof.
  assert (add_args j [chars "rule"; chars "add"; chars "1"; chars "0.0.0.0+65536"; chars "0.0.0.0+65536"; chars "1"; chars "1"; chars "TCP"] =
    Some (inr (RuleArgs 1 0 65536 0 65536 1 1 1 1 6 0 0 0))) as E by (vm_compute; reflexivity).
  split; [exact E|]. rewrite (add_command _ _ _ _ _ w l E). rewrite rule_add_run by (cbn; lia). unfold expand. rewrite length_imap, length_tuples, !length_values.
  cbn [ra_sips ra_sipi ra_dips ra_dipi ra_sps ra_spi ra_dps ra_dpi]. rewrite !Nat2Z.inj_mul, !Z2Nat.id by (vm_compute; discriminate). reflexivity.
Qed.

(** ** The tool and the card *)

Lemma scan_number n : 0 <= n < 2 ^ 31 -> sscanf scan_d 0 1 (fmt_d n) = Some [n].
Proof.
  intros Hn. apply sscanf_last. rewrite fmt_d_pos by lia. rewrite <- (app_nil_r (fmt_u 10 n)). apply scan_fmt; [lia|done|done|]. cbv beta. lia.
Qed.

(** [rule get INDEX 1]. *)
Definition get_words (index : Z) : list cstr := [chars "rule"; chars "get"; fmt_d index; chars "1"].

Lemma printable_request r : printable r -> request_ok (Add r).
Proof.
  intros []. unfold RULE_MAX in *. split; [|split; [split; try done; destruct pr_proto0 as [-> | [-> | ->]]; lia|unfold MPP_MAX_FILTERS; lia]].
  unfold kept_rule. rewrite !wrapu_id by (first [lia|destruct pr_proto0 as [-> | [-> | ->]]; lia]). by destruct r.
Qed.

Lemma range_words index : 1 <= index <= RULE_MAX -> range_args (get_words index) = Some (inr (index, 1)).
Proof.
  intros Hi. unfold RULE_MAX in *. unfold range_args, number_arg, arg, get_words. set (l := [_; _; _; _]).
  change (arr_get l 2) with (Some (fmt_d index)). change (arr_get l 3) with (Some (chars "1")). unfold ebind, exit_if. cbn [mbind option_bind].
  rewrite scan_number by lia. change (sscanf scan_d 0 1 (chars "1")) with (Some [1]). cbn [mbind option_bind default from_option head]. unfold id.
  rewrite (wrapu_id 32 index) by lia. unfold RULE_MAX. replace ((index <? 1) || (2000 <? index)) with false by lia.
  rewrite (wrapu_id 32 1) by lia. replace ((1 <? 1) || (2000 <? 1)) with false by lia. rewrite wrapu_id by lia. by replace (2000 + 1 <? index + 1) with false by lia.
Qed.

Section card.
Variable stack : list Z.
Hypothesis Hst : List.length stack = Z.to_nat SIZEOF_RULE_STAT_OUT.
Variables (max : Z) (sets : list (frcore_cmd_set_t (S := rule_state))).
Hypothesis Ht : table_is max (rule_table stack) sets.
Hypothesis Hm : 40 < max.
Variable octeon_swap_8B_data : nat -> list Z -> list Z.
Hypothesis Hswap : swap_law octeon_swap_8B_data.

(** The library over driver and card, with the number of the next packet. *)
Definition card_api (c : call) (w : rule_state * Z) : option (result * (rule_state * Z)) :=
  '(r, cd) ← frcore_process_frc_cmd true (packet_of c w.2) (Card sets true w.1);
  bs ← r; res ← core_cmd_answer c (received octeon_swap_8B_data [bs]); Some (res, (components cd, u32 (w.2 + 1))).

Lemma card_api_request q st seq : request_ok q -> good st -> q <> Update -> 0 <= seq < 2 ^ 32 ->
  exists rv out st', card_api (call_of q) (st, seq) = Some (caller_result (call_of q) rv out, (st', u32 (seq + 1))) /\
    rule_spec stack q st = Some (rv, out, st') /\ good st'.
Proof using Hst Ht Hm Hswap.
  intros Hq Hg Hne Hs. destruct (process_request stack Hst max sets q seq st Ht Hm Hq Hg ltac:(done) Hs) as (rv & out & st' & data & E & Esp & Hg' & Et & El & Hl).
  exists rv, out, st'. split; [|done]. unfold card_api. cbn [fst snd]. rewrite E. cbn [mbind option_bind].
  rewrite (received_spec _ Hswap [_] _ (app_nil_r _)) by done. rewrite answer_result; [done|by destruct q; eexists|split; [exact Hl|apply call_of_ok]|done|done].
Qed.

(** The two calls, as the tool uses them. *)
Lemma add_then_query r st seq : request_ok (Add r) -> good st -> 0 <= seq < 2 ^ 32 ->
  exists st1, card_api (frcapi_rule_add r) (st, seq) = Some ((FRE_SUCCESS, None), (st1, u32 (seq + 1))) /\ good st1 /\
    card_api (frcapi_rule_stat_get (r_index r) 1) (st1, u32 (seq + 1)) =
      Some ((FRE_SUCCESS, Some (SIZEOF_RULE_STAT_OUT, stat_out_bytes stack [RuleStat r 0 0])), (st1, u32 (u32 (seq + 1) + 1))).
Proof using Hst Ht Hm Hswap.
  intros Hq Hg Hs. pose proof Hq as (_ & Hr & Hi). unfold MPP_MAX_FILTERS in Hi.
  destruct (card_api_request (Add r) st seq Hq Hg ltac:(done) Hs) as (rv1 & out1 & st1 & E1 & Esp1 & Hg1). cbn [rule_spec] in Esp1. unfold frcore_cmd_rule_add in Esp1.
  destruct (acl_setfilter (rules st) (r_index r) r) as [fs'|] eqn:Ef; [|done]. cbn [mbind option_bind] in Esp1. injection Esp1 as <- <- <-.
  assert (request_ok (StatGet (r_index r) 1)) as Hq2 by (cbn [request_ok]; unfold MAX_RULE; lia).
  destruct (card_api_request (StatGet (r_index r) 1) _ (u32 (seq + 1)) Hq2 Hg1 ltac:(done) (wrapu_range 32 _ ltac:(lia))) as (rv2 & out2 & st2 & E2 & Esp2 & _).
  cbn [rule_spec] in Esp2. rewrite rule_stat_get_spec in Esp2 by (first [apply Hg1|lia|change (2 ^ 16) with 65536; lia]).
  assert (configured fs' (r_index r) 1 = [RuleStat r 0 0]) as Ec.
  { unfold configured, info_of. change (seqZ 0 1) with [0]. cbn [omap list_omap]. rewrite Z.add_0_r.
    destruct (setfilter_query (rules st) (r_index r) r fs' (proj1 Hg) Hr) as [ruleid ->]; [unfold MPP_MAX_FILTERS; lia|done|].
    cbn [mbind option_bind snd]. by destruct r. }
  change (rules (with_acl st fs')) with fs' in Esp2. rewrite Ec in Esp2. cbn [mbind option_bind] in Esp2.
  change (Z.of_nat (List.length [RuleStat r 0 0]) <=? MAX_RULE) with true in Esp2. cbv iota in Esp2. cbn [mbind option_bind] in Esp2.
  injection Esp2 as <- <- <-. exists (with_acl st fs'). split; [exact E1|]. split; [exact Hg1|]. cbn [call_of] in E2. rewrite E2. unfold caller_result.
  rewrite (length_stat_out stack Hst [RuleStat r 0 0]) by (unfold MAX_RULE; simpl; lia). done.
Qed.

Lemma unpack_one r rest : kept_rule r = r -> rule_stat_out_unpack (stat_out_bytes stack [RuleStat r 0 0] ++ rest) = Some [RuleStat r 0 0].
Proof using Type.
  clear.
  intros Hk. unfold rule_stat_out_unpack, stat_out_bytes. rewrite <- !app_assoc, unpack_app by lia. cbn [mbind option_bind].
  pose proof (stats_unpack [RuleStat r 0 0]) as Eu.
  change (Z.to_nat (wrapu (8 * Z.of_nat 4) (Z.of_nat (List.length [RuleStat r 0 0])))) with (List.length [RuleStat r 0 0]).
  rewrite Eu. cbn [fmap list_fmap]. unfold kept_stat. cbn [rs_rule rs_pkts rs_bytes]. by rewrite Hk.
Qed.

Lemma get_command j index w l : 1 <= index <= RULE_MAX ->
  frctweak_cmd_rule card_api j (get_words index) (w, l) =
    '(rv, rows, w') ← query_rules card_api j (fun rows s => Some (rows ++ [rule_row s])) index 1 [] w; Some (rv, (w', l ++ rows)).
Proof.
  intros Hi. pose proof (range_words index Hi) as E. unfold frctweak_cmd_rule, get_words in *. unfold returned, ebind at 1 2, exit_if at 1, arg at 1.
  change (Z.of_nat (List.length [chars "rule"; chars "get"; fmt_d index; chars "1"])) with 4. change (4 <? 2) with false.
  change (arr_get [chars "rule"; chars "get"; fmt_d index; chars "1"] 1) with (Some (chars "get")). cbn [mbind option_bind].
  change (strcmp0 (chars "status") (chars "get")) with false. change (strcmp0 (chars "add") (chars "get")) with false. change (strcmp0 (chars "del") (chars "get")) with false.
  change (strcmp0 (chars "stat_clear") (chars "get")) with false. change (strcmp0 (chars "clear") (chars "get")) with false. change (strcmp0 (chars "get") (chars "get")) with true. cbv iota.
  unfold cmd_get. change (Z.of_nat (List.length [chars "rule"; chars "get"; fmt_d index; chars "1"])) with 4.
  change (exit_if (4 <? 4) FRE_SUCCESS) with (Some (inr () : Z + unit)). unfold ebind. cbn [mbind option_bind]. rewrite E. cbn [mbind option_bind fst snd].
  by destruct (query_rules _ _ _ _ _ _ _) as [[[rv rows] w']|].
Qed.

(** C24: A rule typed in is the rule that is shown.  For a rule the columns can show ([printable]: an
    index of 1 to 2000, the protocol TCP, UDP or none, the action 0, which has no word, and values that
    fit their fields)
    with no address 255.255.255.255 and no port 65535 ([has_last]: such a rule is never added,
    [rule_row_readd]): after [rule add] with the words of its row, [rule
    get] of its index prints this row, with counters at zero. *)
Theorem tool_rule_roundtrip (j : junk) (r : frc_rule_t) (st : rule_state) (seq : Z) (l : list (list cstr)) :
  printable r -> has_last r = false -> good st -> 0 <= seq < 2 ^ 32 ->
  exists st1, frctweak_cmd_rule card_api j (readd (rule_row (RuleStat r 0 0))) ((st, seq), l) = Some (FRE_SUCCESS, ((st1, u32 (seq + 1)), l)) /\
    frctweak_cmd_rule card_api j (get_words (r_index r)) ((st1, u32 (seq + 1)), l) =
      Some (FRE_SUCCESS, ((st1, u32 (u32 (seq + 1) + 1)), l ++ [rule_row (RuleStat r 0 0)])).
Proof using Hst Ht Hm Hswap.
  intros Hr Hla Hg Hs. pose proof (printable_request r Hr) as Hq. destruct (add_then_query r st seq Hq Hg Hs) as (st1 & E1 & Hg1 & E2). exists st1. split.
  - rewrite readd_run by done. by rewrite Hla, E1.
  - rewrite get_command by apply Hr. unfold query_rules. change (1 / MAX_RULE + (if negb (1 `mod` MAX_RULE =? 0) then 1 else 0)) with 1.
    change (seqZ 0 1) with [0]. cbn [foldM]. unfold query_turn at 1. change (chunk_len 1 1 0) with 1. change (0 * MAX_RULE) with 0.
    rewrite Z.add_0_r, wrapu_id by (destruct Hr; unfold RULE_MAX in *; lia). rewrite E2. cbn [mbind option_bind snd fst]. unfold frcapi_num_bytes.
    rewrite unpack_one by apply Hq. done.
Qed.
End card.

Lemma tool_rule_roundtrip_witness : exists sets, table_is 64 (rule_table zero_stack) sets /\
  exists st1, frctweak_cmd_rule (card_api sets swap_buff) (Junk (replicate 132 0) [0; 0] 0 0 0 [])
      [chars "rule"; chars "add"; chars "12"; chars "10.0.0.1"; chars "$"; chars "$"; chars "80"; chars "TCP"; chars "1"; chars "2"; chars "4"] ((two_rules, 7), []) =
    Some (FRE_SUCCESS, ((st1, 8), [])) /\
  frctweak_cmd_rule (card_api sets swap_buff) (Junk (replicate 132 0) [0; 0] 0 0 0 []) [chars "rule"; chars "get"; chars "12"; chars "1"] ((st1, 8), []) =
    Some (FRE_SUCCESS, ((st1, 9), [[chars "12"; chars "10.0.0.1"; chars "$"; chars "$"; chars "80"; chars "TCP"; chars "0"; chars "0"; chars "1"; chars "2"; chars "0"; chars "4"]])).
Proof.
  destruct rule_card as [sets Ht]. exists sets. split; [exact Ht|].
  apply (tool_rule_roundtrip zero_stack eq_refl 64 sets Ht ltac:(lia) swap_buff (fun _ _ _ => eq_refl) (Junk (replicate 132 0) [0; 0] 0 0 0 [])
    (FrcRule 167772161 0 0 80 6 12 1 2 0 4) two_rules 7 []); [split; unfold RULE_MAX; cbn; auto; lia|reflexivity|exact two_rules_good|lia].
Defined.
